(* ===== verification/_CoqProject ===== *)
-Q . S2P
Prelude.v
Bytes.v
Extents.v
KvmSlots.v
GpaLayout.v
SparseWin.v
IsoWindow.v
IsoMmap.v
Ring.v
Abi.v
Handles.v
UvmVa.v
UvmIoctl.v
Teardown.v
Gates.v
RmGates.v
Isolates.v
MapVa.v
RmForward.v
Sessions.v
Uidmap.v
IsoConfig.v
Objects.v
BrokerUtf8.v
BrokerTx.v
BrokerSink.v
BrokerClip.v
BrokerDesc.v
BrokerCmd.v
Broker.v
StubJob.v
StubBack.v
StubRing.v
StubTable.v
StubReader.v
StubFds.v
IsoReader.v
IsoPend.v
IsoSlots.v
Wire.v
GuestTx.v
GuestInv.v
GuestSafe.v
GuestRun.v
VirtioDev.v
VirtioSafe.v
VirtioRun.v
GuestDev.v
MmapReq.v
Realize.v
MmapInv.v
MmapRun.v
HostIo.v
