(* ===== verification/Prelude.v ===== *)
(** * nvkvm: a verification of an NVIDIA paravirtual GPU

    nvkvm gives a KVM guest an NVIDIA GPU without passing the device through.  A
    guest kernel module ([src/guest]) forwards opens, ioctls and mmaps of the
    NVIDIA device files over virtio.  A device inside QEMU ([src/qemu]) is the
    trust boundary: it keeps the handle table and the address windows, gates
    every request, and either performs it itself (UVM) or hands it to a sandboxed
    helper process, an isolate ([src/stub]).  A broker ([src/broker]) presents
    frames.  [src/common] holds what the parties share: wire formats, the
    command ring and the driver ABI profiles.  Everything the guest sends is
    untrusted, and so is what an isolate answers.

    ** Files, and the code they model

    Each file of a component holds one module of its name (those of the broker
    drop the prefix: [Utf8], [Tx], [Sink], [Clip], [Desc], and [BCmd]).  Paths are
    below [src].

    Shared ground:
    - [Prelude]: machine integers with explicit wrap-around, error numbers,
      arrays, best-fit search, tactics.  [Bytes]: buffers and little-endian fields.
      [Extents]: address extents, disjointness, free lists, and the class
      [ExtAlloc] of extent allocators with its client theorem ([arun_safe]).

    QEMU, address space ([qemu/nvkvm_mmap_host.c],
    [qemu/nvkvm_isolate_handlers.c]):
    - [KvmSlots]: the pool of KVM memory slots and the memory regions.
      [GpaLayout]: address widths and the placement of the guest physical windows.
      [SparseWin]: the sparse window, its allocator and the quarantine of freed
      extents.  [IsoWindow]: the window inside each isolate, with contiguous runs.
      The last two are instances of [ExtAlloc].
    - [IsoMmap]: the table of mappings and [iso_mmap_translate].  [MmapReq]:
      [nvkvm_req_mmap_on_isolate].  [Realize]: [nvkvm_req_realize_uvm_mapping].
      [Teardown]: the unmap request and the two reapers.  [MmapInv], [MmapRun]:
      what these requests move between the tables, in any order.

    QEMU, requests ([qemu/nvkvm_isolate_handlers.c] unless named):
    - [Handles] ([nvkvm_handle.c], [nvkvm_drm_node.h]): the handle table.
      [HostIo]: reading and writing memory handles, and host files.
    - [UvmVa], [UvmIoctl]: the UVM schema, the table of owned address ranges, the
      UVM branch of [nvkvm_req_ioctl_on_isolate], the close-handle request.
    - [Gates], [RmGates] (and the allowlist headers): the gates of the other
      ioctls.  [RmForward], [MapVa]: what is rewritten around the forwarded call,
      and the remembered mapping addresses.
    - [Isolates] ([nvkvm_isolate.c]), [Sessions] (also [virtio_nvgpu.c]): the
      isolate table, relayed handles, the vblank budget; sessions and the requests
      that create, kill, open, close and relay.
    - [Uidmap] ([common/nvkvm_uidmap.h]), [IsoConfig] ([nvkvm_isolate_uid.h],
      [nvkvm_isolate.c]): where the uids of isolates go and which sandbox a VM gets.
      [Objects] ([nvkvm_objects.c]): the RM object graph.

    Transports:
    - [GuestTx], [GuestInv], [GuestSafe], [GuestRun] ([guest/nvkvm_virtio.c]): the
      guest's slots, transaction numbers, requests in flight and callers.
    - [VirtioDev], [VirtioSafe], [VirtioRun] ([qemu/virtio_nvgpu.c]): the request
      loop, the thread pool, the events, the shared slots.  [GuestDev]: an ioctl
      through the guest's transport and the device.
    - [IsoReader], [IsoPend], [IsoSlots] ([qemu/nvkvm_isolate.c]): QEMU's side of an
      isolate's socket.  [Wire] ([common/nvkvm_isolate_proto.h]): the messages of
      both sides, and an ioctl through both processes.
    - [Ring] ([common/nvkvm_ring.h]): the single-producer single-consumer ring.
      [Abi] ([common/nvkvm_abi.h]): layout profiles by driver version, with the
      committed sweep of 216 releases.

    The isolate ([stub/nvkvm_stub.c]):
    - [StubJob], [StubBack]: the blobs of a job before and after the driver call.
      [StubRing]: control commands off the shared ring.  [StubTable], [StubReader]:
      tables, command handlers, reader loop, job queue and workers.  [StubFds]: its
      descriptors.

    The broker ([broker/nvkvm_broker.c], [nb_common.c]):
    - [BrokerUtf8], [BrokerTx], [BrokerSink], [BrokerClip], [BrokerDesc],
      [BrokerCmd], [Broker]: the clipboard's validator, the packet queue, the input
      policy, the clipboard's way to the guest ([qemu/nvkvm_display_relay.c]), the
      validation of buffers, the client's commands, the event loop.

    ** How code becomes definitions

    A C structure is a [Record], a file-static table part of a state record, a
    function of the same name a total executable function from state to state and
    result.  A function that holds its lock throughout is atomic.  Where a lock is
    dropped or never taken, what the other threads do is an argument: a function
    on the state ([mid] in [Handles], [Teardown], [Isolates]), or the table seen by
    each unlocked read ([ht] in [UvmIoctl] and [Gates]).  Systems of threads are
    lists of events: [UvmIoctl], [Isolates], [IsoReader], [StubReader], [GuestTx],
    [VirtioDev], [Broker], the ring's step relation.  What a component does to the
    outside is a list of actions (the descriptors it opens and closes, the calls it
    makes, the bytes it sends); what is mapped in QEMU's reservation of the window
    is a function of the address that those actions change.  Answers of the kernel,
    the driver and the untrusted peers are arguments; log output is left out.

    ** What the theorems show

    - Allocators: whatever the sequence of requests, live slots and extents are
      disjoint and in bounds; freed guest addresses wait in the quarantine; what is
      refused, and when.  The layout is disjoint from guest RAM, or the refusal is
      justified.
    - Mappings: a translated range consists of bytes the host itself mapped into
      that isolate.  Over any run of map, realize, unmap and reap requests the
      guest's ranges and the isolates' mirrors stay disjoint and in their windows,
      the window has no hole, and a device page is visible only under a live
      mapping; a refused map request leaves all of it as it was.  Excepted
      are the pages where the [mmap] that puts anonymous memory back has failed,
      and the mirrors of an isolate whose reported window leaves the 64-bit address
      space.  A realize command reaches an isolate only with what was checked.
      Teardown releases no slot twice and leaves nothing of a dead isolate.
    - Handles: no descriptor is closed twice or shared, a generation identifies an
      object for its lifetime.  Memory objects keep their size and give back what
      was written; only listed host files are read.
    - Forwarding: a UVM command is checked, sent, answered and recorded in separate
      steps of its worker; for any interleaving of workers and closes, the range it
      was checked for lay in ones the driver had accepted for the same handle and
      that were not given up before the check.  A command passes only if every gate
      lets it; an RM client reaches only clients of its VM; unmaps get the newest
      address.
    - Isolates, sessions: references, budgets and uids are returned; killing an
      isolate removes it from the sessions, with its mappings, its window and its
      remembered addresses.  Freeing an RM object returns exactly when
      no cycle depends on it, and frees what depends on it and nothing else.
    - Transports: neither side leaves the shared region or touches another
      request's slots (in the guest when the host's slots have the 24 KiB a white
      list may take); every request is answered once and every caller returns with
      its own answer or an error; nothing leaks, but for the descriptors of a stub
      that sends two at once; the composed runs deliver the guest's bytes to the
      handler and the answer back.  The stub reads the fields QEMU wrote, when it
      gets the memory for them.  Ring records come out as they went in; against a
      peer that changes head, tail and data between any two reads, the records
      accepted lie in the region, and so does every read of a header when the heads
      are aligned.
    - Stub: the driver sees no pointer of the guest and the guest none of the stub;
      mappings stay in the window, but for a realized range sent without an
      address; descriptors are accounted, and the reader and the ring use only open
      ones; a worker may use the descriptor it looked up after it was closed, and
      only that one.  The ring's results are those of the worker.
    - Broker: a grab is always released, reads from a client are bounded, no
      descriptor leaks, the validator is the UTF-8 encoding.
    - ABI: every measured release selects its measured layout.

    Where the code does not do what it or a comment says, a lemma beside the
    component exhibits it; among them [sparse_take_wraps],
    [translate_overlap_misplaces], [attach_after_recycle],
    [refused_pool_recorded], [reap_handle_keeps_window],
    [realize_refusal_positive], [empty_handle_refuses], [interrupt_misdirected],
    [malformed_not_notified], [drm_export_leaks_address], [stale_poll_entry],
    [two_fds_leak], [ioctl_on_replaced_fd], [forged_head_reads_past],
    [realize_maps_at_zero], [failed_relay_leaks_reference], [coalesce_moves_click].

    ** Fuel and bounds

    Loops over tables are structural in the table or in the list of its indices.
    Fuel occurs where a loop's bound is not syntactic: the walk of
    [iso_mmap_translate] gets one round per table entry and one more, and is
    proved never to run out; the observations of [nvkvm_ring_peek] and the answers
    of [read] in [HostIo] are lists, and [peek_terminates] (for a peer that keeps
    still) and [read_loop_returns] bound how many are used; the free of an object
    graph ([Objects]) is proved to return exactly when no cycle depends on the
    object, and the stub's consumer loop to return with the fuel it gets; the slot
    searches run the number of rounds of the source's loop.

    ** Not modelled

    - The requests that present a frame, import a buffer of another isolate and arm
      a poll: checks in front of graphics I/O.
    - Process start, namespaces and seccomp filters; the start-up of the stub and
      of the broker; the mapping of an isolate's ring region.
    - QEMU's type registration, configuration space and PCI proxy; the relay's
      display half, EGL and udmabuf; the Wayland and X11 backends but for the grab:
      I/O through libraries.
    - The guest module outside its transport (file operations, DRM, KMS): it runs
      inside the untrusted guest.  [nvkvm_tables.c], which only unit tests use.
    - The C11 memory model of the ring, taken as the interleaving of its release
      and acquire steps. *)
From Stdlib Require Export ZArith Lia Permutation.
From stdpp Require Export base numbers list gmap option sorting.

#[global] Open Scope Z_scope.

(** ** Machine integers

    A [w]-bit unsigned C integer is a [Z] in [[0, 2^w)]; every operation the
    source performs at that width is written with its wrap-around. *)

Abbreviation W8 := 256 (only parsing).
Abbreviation W16 := 65536 (only parsing).
Abbreviation W32 := 4294967296 (only parsing).
Abbreviation W64 := 18446744073709551616 (only parsing).

Definition u8 (x : Z) : Z := x mod W8.
Definition u16 (x : Z) : Z := x mod W16.
Definition u32 (x : Z) : Z := x mod W32.
Definition u64 (x : Z) : Z := x mod W64.

(** [(int)x] for a 32-bit [x]. *)
Definition s32 (x : Z) : Z :=
  let y := u32 x in if y <? 2147483648 then y else y - W32.

Definition UINT32_MAX : Z := 4294967295.
Definition UINT64_MAX : Z := 18446744073709551615.

(** [~x] at 64 and 32 bits. *)
Definition not64 (x : Z) : Z := u64 (Z.lnot x).
Definition not32 (x : Z) : Z := u32 (Z.lnot x).

Declare Scope nvkvm_scope.
Delimit Scope nvkvm_scope with nv.
Notation "x ⊕ y" := (u64 (x + y)) (at level 50, left associativity) : nvkvm_scope.
Notation "x ⊖ y" := (u64 (x - y)) (at level 50, left associativity) : nvkvm_scope.
Notation "x & y" := (Z.land x y) (at level 51, left associativity) : nvkvm_scope.
#[global] Open Scope nvkvm_scope.

(** ** Linux error numbers used by the source *)
Definition EPERM : Z := 1.
Definition ENOENT : Z := 2.
Definition EINTR : Z := 4.
Definition EIO : Z := 5.
Definition EBADF : Z := 9.
Definition EAGAIN : Z := 11.
Definition ENOMEM : Z := 12.
Definition EACCES : Z := 13.
Definition EFAULT : Z := 14.
Definition EBUSY : Z := 16.
Definition EEXIST : Z := 17.
Definition ENODEV : Z := 19.
Definition EINVAL : Z := 22.
Definition EMFILE : Z := 24.
Definition EFBIG : Z := 27.
Definition ENOSPC : Z := 28.
Definition ERANGE : Z := 34.
Definition EPROTO : Z := 71.
Definition EOVERFLOW : Z := 75.
Definition EALREADY : Z := 114.

(** ** Automation *)
Create HintDb nv.

(** Case on every boolean integer test in sight, keeping the Prop facts. *)
Ltac zb :=
  repeat match goal with
  | H : (_ =? _) = true |- _ => apply Z.eqb_eq in H
  | H : (_ =? _) = false |- _ => apply Z.eqb_neq in H
  | H : (_ <? _) = true |- _ => apply Z.ltb_lt in H
  | H : (_ <? _) = false |- _ => apply Z.ltb_ge in H
  | H : (_ <=? _) = true |- _ => apply Z.leb_le in H
  | H : (_ <=? _) = false |- _ => apply Z.leb_gt in H
  | H : _ && _ = true |- _ => apply andb_true_iff in H; destruct H
  | H : _ || _ = false |- _ => apply orb_false_iff in H; destruct H
  | H : _ && _ = false |- _ => apply andb_false_iff in H; destruct H
  | H : _ || _ = true |- _ => apply orb_true_iff in H; destruct H
  | H : negb _ = true |- _ => apply negb_true_iff in H
  | H : negb _ = false |- _ => apply negb_false_iff in H
  end.

(** Split every [if] and boolean [match] of hypothesis or goal once. *)
Ltac case_if :=
  match goal with
  | |- context [if ?b then _ else _] =>
      lazymatch type of b with bool => let E := fresh "E" in destruct b eqn:E end
  end.
Ltac case_if_in H :=
  match type of H with
  | context [if ?b then _ else _] =>
      lazymatch type of b with bool => let E := fresh "E" in destruct b eqn:E end
  end.

Ltac u_unfold := unfold u8, u16, u32, u64 in *.
(** [lia] after exposing [mod] and [/] as equations. *)
Ltac mlia := u_unfold; Z.div_mod_to_equations; lia.

(** ** Wrap-around lemmas *)
Lemma u64_small x : 0 <= x < W64 -> u64 x = x.
Proof. intros; apply Z.mod_small; lia. Qed.
Lemma u32_small x : 0 <= x < W32 -> u32 x = x.
Proof. intros; apply Z.mod_small; lia. Qed.
Lemma u16_small x : 0 <= x < W16 -> u16 x = x.
Proof. intros; apply Z.mod_small; lia. Qed.
Lemma u64_range x : 0 <= u64 x < W64.
Proof. apply Z.mod_pos_bound; lia. Qed.
Lemma u32_range x : 0 <= u32 x < W32.
Proof. apply Z.mod_pos_bound; lia. Qed.
Lemma u16_range x : 0 <= u16 x < W16.
Proof. apply Z.mod_pos_bound; lia. Qed.
#[export] Hint Resolve u64_range u32_range u16_range : nv.
#[export] Hint Rewrite u64_small u32_small u16_small using lia : nv.

Lemma u64_idem x : u64 (u64 x) = u64 x.
Proof. apply u64_small, u64_range. Qed.
Lemma u64_add_l x y : u64 (u64 x + y) = u64 (x + y).
Proof. unfold u64. apply Zplus_mod_idemp_l. Qed.
Lemma u64_add_r x y : u64 (x + u64 y) = u64 (x + y).
Proof. unfold u64. apply Zplus_mod_idemp_r. Qed.
Lemma u64_sub_l x y : u64 (u64 x - y) = u64 (x - y).
Proof. unfold u64. apply Zminus_mod_idemp_l. Qed.
Lemma u64_sub_r x y : u64 (x - u64 y) = u64 (x - y).
Proof. unfold u64. apply Zminus_mod_idemp_r. Qed.

(** The unsigned overflow test [a + b < a] of C. *)
Lemma u64_add_wrap a b :
  0 <= a < W64 -> 0 <= b < W64 -> (a ⊕ b < a <-> W64 <= a + b).
Proof. intros. unfold u64. Z.div_mod_to_equations; lia. Qed.

(** ** Masks *)
Lemma land_low x k : 0 <= k -> Z.land x (2 ^ k - 1) = x mod 2 ^ k.
Proof. intros. rewrite <- Z.land_ones by lia. f_equal. rewrite Z.ones_equiv; lia. Qed.

Lemma land_lnot_low x k :
  0 <= k -> Z.land x (Z.lnot (2 ^ k - 1)) = x - x mod 2 ^ k.
Proof.
  intros Hk. rewrite <- Z.ldiff_land, Z.sub_1_r, <- Z.ones_equiv.
  rewrite Z.ldiff_ones_r, Z.shiftr_div_pow2, Z.shiftl_mul_pow2 by lia.
  pose proof (Z.div_mod x (2 ^ k) ltac:(apply Z.pow_nonzero; lia)). lia.
Qed.

Lemma land_not64_low x k :
  0 <= k <= 64 -> 0 <= x < W64 -> Z.land x (not64 (2 ^ k - 1)) = x - x mod 2 ^ k.
Proof.
  intros Hk Hx. unfold not64, u64. change W64 with (2 ^ 64).
  rewrite <- Z.land_ones, Z.land_assoc, Z.land_comm, Z.land_assoc by lia.
  rewrite (Z.land_comm (Z.ones 64) x), Z.land_ones, Z.mod_small by lia.
  apply land_lnot_low; lia.
Qed.

Lemma land_not32_low x k :
  0 <= k <= 32 -> 0 <= x < W32 -> Z.land x (not32 (2 ^ k - 1)) = x - x mod 2 ^ k.
Proof.
  intros Hk Hx. unfold not32, u32. change W32 with (2 ^ 32).
  rewrite <- Z.land_ones, Z.land_assoc, Z.land_comm, Z.land_assoc by lia.
  rewrite (Z.land_comm (Z.ones 32) x), Z.land_ones, Z.mod_small by lia.
  apply land_lnot_low; lia.
Qed.

(** [(x + 4095) & ~4095ULL]: the page round-up every allocator uses. *)
Definition page_up (x : Z) : Z := (x ⊕ 4095) & not64 4095.

Lemma page_up_eq x :
  0 <= x <= W64 - 4096 -> page_up x = (x + 4095) / 4096 * 4096.
Proof.
  intros. unfold page_up. rewrite u64_small by lia.
  change 4095 with (2 ^ 12 - 1) at 2. rewrite land_not64_low by lia.
  change (2 ^ 12) with 4096. Z.div_mod_to_equations; lia.
Qed.

Lemma page_up_wrap x : W64 - 4095 <= x < W64 -> page_up x = 0.
Proof.
  intros. unfold page_up.
  replace (u64 (x + 4095)) with (x + 4095 - W64)
    by (symmetry; unfold u64; Z.div_mod_to_equations; lia).
  change 4095 with (2 ^ 12 - 1) at 2. rewrite land_not64_low by lia.
  change (2 ^ 12) with 4096. Z.div_mod_to_equations; lia.
Qed.

Lemma page_up_spec x :
  0 <= x < W64 ->
  page_up x mod 4096 = 0 /\
  ((x <= W64 - 4096 /\ x <= page_up x < x + 4096 /\ page_up x < W64)
   \/ (W64 - 4096 < x /\ page_up x = 0)).
Proof.
  intros. destruct (Z.le_gt_cases x (W64 - 4096)).
  - rewrite page_up_eq by lia. split; [apply Z.mod_mul; lia|].
    left. Z.div_mod_to_equations; lia.
  - rewrite page_up_wrap by lia. auto with lia.
Qed.

Lemma page_up_id x : 0 <= x < W64 -> x mod 4096 = 0 -> page_up x = x.
Proof.
  intros. rewrite page_up_eq; Z.div_mod_to_equations; lia.
Qed.

(** ** C arrays

    A fixed-size C array is a list of its length; reads and writes are at a
    [Z] index.  Every access of the source is guarded, so the default value of
    an out-of-range read never shows in a theorem. *)
Section Arrays.
Context {A : Type} `{!Inhabited A}.
Implicit Types l : list A.

Definition arr_get l (i : Z) : A := l !!! Z.to_nat i.
Definition arr_set l (i : Z) (v : A) : list A := <[Z.to_nat i := v]> l.
Definition arr_len l : Z := Z.of_nat (length l).

Lemma arr_len_set l i v : arr_len (arr_set l i v) = arr_len l.
Proof. unfold arr_len, arr_set. by rewrite length_insert. Qed.

Lemma arr_get_set_eq l i v : 0 <= i < arr_len l -> arr_get (arr_set l i v) i = v.
Proof.
  unfold arr_len, arr_get, arr_set. intros.
  apply list_lookup_total_insert_eq. lia.
Qed.

Lemma arr_get_set_ne l i j v :
  0 <= i -> 0 <= j -> i <> j -> arr_get (arr_set l i v) j = arr_get l j.
Proof.
  unfold arr_get, arr_set. intros.
  apply list_lookup_total_insert_ne. lia.
Qed.

Lemma arr_get_set l i j v :
  0 <= i < arr_len l -> 0 <= j ->
  arr_get (arr_set l i v) j = if i =? j then v else arr_get l j.
Proof.
  intros. destruct (Z.eqb_spec i j) as [->|].
  - by apply arr_get_set_eq.
  - apply arr_get_set_ne; lia.
Qed.

Lemma arr_get_replicate (n : nat) x i :
  0 <= i < Z.of_nat n -> arr_get (replicate n x) i = x.
Proof. intros. unfold arr_get. apply lookup_total_replicate_2. lia. Qed.

Lemma arr_get_lookup l i :
  0 <= i < arr_len l -> l !! Z.to_nat i = Some (arr_get l i).
Proof.
  unfold arr_len, arr_get. intros. apply list_lookup_lookup_total_lt. lia.
Qed.

Lemma lookup_arr_get l n x : l !! n = Some x -> arr_get l (Z.of_nat n) = x.
Proof. unfold arr_get. rewrite Nat2Z.id. intros. by apply list_lookup_total_correct. Qed.
End Arrays.
#[export] Hint Rewrite @arr_len_set : nv.

(** An invariant of a state machine run over a list of inputs. *)
Lemma fold_left_inv {A B} (P : A -> Prop) (f : A -> B -> A) (l : list B) (a : A) :
  P a -> (forall a b, P a -> P (f a b)) -> P (fold_left f l a).
Proof. intros Ha Hf. revert a Ha. induction l; simpl; auto. Qed.

Lemma fold_left_in {A B} (P : A -> Prop) (f : A -> B -> A) (l : list B) (a : A) :
  (forall a b, b ∈ l -> P a -> P (f a b)) -> P a -> P (fold_left f l a).
Proof.
  revert a. induction l as [|b l IH]; intros a Hf Ha; simpl; [done|].
  apply IH; [|apply Hf; [by left|done]]. intros. apply Hf; [by right|done].
Qed.

(** ** Swap-remove

    [a[i] = a[--n]]: the removal all the free lists of the source use. *)
Definition swap_remove {A} (l : list A) (i : nat) : list A :=
  match last l with
  | Some x => take (pred (length l)) (<[i := x]> l)
  | None => l
  end.

Lemma swap_remove_perm {A} (l : list A) i x :
  l !! i = Some x -> Permutation l (x :: swap_remove l i).
Proof.
  intros Hi. destruct (last l) as [z|] eqn:Hl; unfold swap_remove; rewrite Hl.
  2: { apply last_None in Hl. by subst. }
  apply last_Some in Hl as [l' ->].
  rewrite length_app. simpl. rewrite Nat.add_1_r. simpl.
  destruct (decide (i < length l')%nat) as [Hlt|].
  - rewrite insert_app_l, take_app_le by (rewrite ?length_insert; lia).
    rewrite take_ge by (rewrite length_insert; lia).
    rewrite lookup_app_l in Hi by lia.
    rewrite insert_take_drop by lia.
    rewrite <- (take_drop_middle l' i x Hi) at 1.
    rewrite (Permutation_app_comm _ [z]). simpl.
    rewrite <- !Permutation_middle. apply perm_swap.
  - pose proof (lookup_lt_Some _ _ _ Hi) as Hlt. rewrite length_app in Hlt. simpl in Hlt.
    assert (i = length l') as -> by lia.
    rewrite insert_app_r_alt, Nat.sub_diag by lia. simpl.
    rewrite take_app_length.
    rewrite list_lookup_middle in Hi by done. simplify_eq.
    by rewrite Permutation_app_comm.
Qed.

Lemma swap_remove_length {A} (l : list A) i :
  (i < length l)%nat -> length (swap_remove l i) = pred (length l).
Proof.
  intros Hi. destruct (lookup_lt_is_Some_2 l i Hi) as [x Hx].
  pose proof (Permutation_length (swap_remove_perm l i x Hx)) as HP. simpl in HP. lia.
Qed.

(** ** First index of a list whose element passes a test

    The [for] loops that stop at the first match. *)
Fixpoint find_idx {A} (f : A -> bool) (l : list A) : option nat :=
  match l with
  | [] => None
  | x :: r => if f x then Some O else S <$> find_idx f r
  end.

Lemma find_idx_Some {A} (f : A -> bool) l i :
  find_idx f l = Some i ->
  exists x, l !! i = Some x /\ f x = true /\
            (forall j y, (j < i)%nat -> l !! j = Some y -> f y = false).
Proof.
  revert i. induction l as [|x l IH]; intros i; simpl; [done|].
  destruct (f x) eqn:Ef.
  - intros [=<-]. exists x. split_and!; auto. lia.
  - destruct (find_idx f l) as [k|]; simpl; [|done]. intros [=<-].
    destruct (IH k eq_refl) as (y & Hy & Hf & Hb). exists y. split_and!; auto.
    intros [|j] z Hj; simpl; [by intros [=<-]|]. apply Hb. lia.
Qed.

Lemma find_idx_None {A} (f : A -> bool) l :
  find_idx f l = None <-> Forall (fun x => f x = false) l.
Proof.
  induction l as [|x l IH]; simpl; [done|]. rewrite Forall_cons.
  destruct (f x) eqn:Ef; [split; [done|intros [? _]; congruence]|].
  rewrite <- IH. destruct (find_idx f l); naive_solver.
Qed.

(** ** Best fit

    [for (i = 0; i < n; i++) if (a[i].len >= size && (best == n ||
    a[i].len < a[best].len)) best = i;] over the list of lengths. *)
Fixpoint best_fit_from (i : nat) (best : option (nat * Z)) (size : Z) (lens : list Z)
    : option (nat * Z) :=
  match lens with
  | [] => best
  | n :: r =>
      let take := (size <=? n) && match best with None => true | Some (_, b) => n <? b end in
      best_fit_from (S i) (if take then Some (i, n) else best) size r
  end.
Definition best_fit (size : Z) (lens : list Z) : option nat :=
  fst <$> best_fit_from 0 None size lens.

Lemma best_fit_from_Some i best size lens k b :
  best_fit_from i best size lens = Some (k, b) ->
  (best = Some (k, b)) \/
  (i <= k)%nat /\ lens !! (k - i)%nat = Some b /\ size <= b.
Proof.
  revert i best. induction lens as [|n r IH]; intros i best; simpl; [auto|].
  intros H. apply IH in H as [H|(Hk & Hl & Hs)].
  - destruct ((size <=? n) && _) eqn:E; [|auto]. injection H as <- <-. zb. right.
    rewrite Nat.sub_diag. auto.
  - right. split; [lia|]. replace (k - i)%nat with (S (k - S i)) by lia. auto.
Qed.

Lemma best_fit_Some size lens k :
  best_fit size lens = Some k -> exists b, lens !! k = Some b /\ size <= b.
Proof.
  unfold best_fit. destruct (best_fit_from 0 None size lens) as [[k' b]|] eqn:E; simpl; [|done].
  intros [=<-]. apply best_fit_from_Some in E as [?|(_ & Hl & Hs)]; [done|].
  rewrite Nat.sub_0_r in Hl. eauto.
Qed.

Lemma best_fit_from_is_Some i p size lens : is_Some (best_fit_from i (Some p) size lens).
Proof.
  revert i p. induction lens as [|n r IH]; intros i p; simpl; [eauto|].
  destruct p as [k b]. destruct ((size <=? n) && (n <? b)); apply IH.
Qed.

Lemma best_fit_from_None i size lens :
  best_fit_from i None size lens = None -> Forall (fun n => n < size) lens.
Proof.
  revert i. induction lens as [|n r IH]; intros i; simpl; [constructor|].
  destruct (size <=? n) eqn:E; simpl; zb; [|constructor; [lia|eauto]].
  destruct (best_fit_from_is_Some (S i) (i, n) size r). congruence.
Qed.

Lemma best_fit_None size lens : best_fit size lens = None -> Forall (fun n => n < size) lens.
Proof.
  unfold best_fit. destruct (best_fit_from 0 None size lens) eqn:E; simpl; [done|].
  intros _. by eapply best_fit_from_None.
Qed.

Lemma insert_Permutation {A} (l : list A) i x y :
  l !! i = Some x -> Permutation (<[i := y]> l) (y :: delete i l).
Proof.
  intros Hi. pose proof (lookup_lt_Some _ _ _ Hi).
  rewrite (delete_Permutation (<[i:=y]> l) i y) by (apply list_lookup_insert_eq; lia).
  f_equiv. rewrite !delete_take_drop, take_insert_ge, drop_insert_lt by lia. done.
Qed.

Lemma swap_remove_delete {A} (l : list A) i x :
  l !! i = Some x -> Permutation (swap_remove l i) (delete i l).
Proof.
  intros Hi. pose proof (swap_remove_perm _ _ _ Hi) as H1.
  pose proof (delete_Permutation _ _ _ Hi) as H2.
  apply (Permutation_cons_inv (a := x)). by rewrite <- H1, <- H2.
Qed.

(** ** Round-robin slot numbers

    Several tables hand out slot numbers 1 .. M-1 from a counter that wraps from
    M-1 back to 1. [cyc_at M c k] is the [k]-th number tried from counter [c]. *)
Definition cyc_at (M c k : Z) : Z := (c - 1 + k) mod (M - 1) + 1.

Lemma cyc_at_range M c k : 2 <= M -> 1 <= cyc_at M c k < M.
Proof. intros. unfold cyc_at. pose proof (Z.mod_pos_bound (c - 1 + k) (M - 1)). lia. Qed.

Lemma cyc_at_0 M c : 1 <= c < M -> cyc_at M c 0 = c.
Proof. intros. unfold cyc_at. rewrite Z.add_0_r, Z.mod_small; lia. Qed.

Lemma cyc_at_next M c k : cyc_at M (cyc_at M c 1) k = cyc_at M c (1 + k).
Proof.
  unfold cyc_at. rewrite Z.add_simpl_r, Zplus_mod_idemp_l.
  f_equal. f_equal. lia.
Qed.

Lemma cyc_at_onto M c t :
  1 <= c < M -> 1 <= t < M -> exists k, 0 <= k < M - 1 /\ cyc_at M c k = t.
Proof.
  intros Hc Ht. exists ((t - c) mod (M - 1)). split.
  - apply Z.mod_pos_bound. lia.
  - unfold cyc_at. rewrite Zplus_mod_idemp_r. replace (c - 1 + (t - c)) with (t - 1) by lia.
    rewrite Z.mod_small; lia.
Qed.

(** The two ways the source writes the step of such a counter. *)
Lemma cyc_step_mod M c : cyc_at M c 1 = c mod (M - 1) + 1.
Proof. unfold cyc_at. by replace (c - 1 + 1) with c by lia. Qed.

Lemma cyc_step_if M c :
  2 <= M -> 1 <= c < M -> (if M <=? c + 1 then 1 else c + 1) = cyc_at M c 1.
Proof.
  intros HM Hc. rewrite cyc_step_mod. destruct (Z.leb_spec M (c + 1)).
  - replace c with (M - 1) by lia. rewrite Z_mod_same_full. done.
  - rewrite Z.mod_small; lia.
Qed.

(** ** Counting

    How many entries of a table pass a test, and sums over the slots of a table
    kept as a finite map. *)
Definition b2n (b : bool) : Z := if b then 1 else 0.
Definition count_if {A} (f : A -> bool) (l : list A) : Z := Z.of_nat (length (List.filter f l)).

Lemma b2n_range b : 0 <= b2n b <= 1.
Proof. destruct b; simpl; lia. Qed.

Lemma count_if_cons {A} (f : A -> bool) x l : count_if f (x :: l) = b2n (f x) + count_if f l.
Proof. unfold count_if. simpl. destruct (f x); simpl; lia. Qed.

Lemma count_if_app {A} (f : A -> bool) l l' : count_if f (l ++ l') = count_if f l + count_if f l'.
Proof. unfold count_if. rewrite List.filter_app, length_app. lia. Qed.

Lemma count_if_nonneg {A} (f : A -> bool) l : 0 <= count_if f l.
Proof. unfold count_if. lia. Qed.

Lemma count_if_perm {A} (f : A -> bool) l l' : Permutation l l' -> count_if f l = count_if f l'.
Proof. induction 1; rewrite ?count_if_cons in *; lia. Qed.

Lemma count_if_insert {A} (f : A -> bool) l k x y :
  l !! k = Some x -> count_if f (<[k := y]> l) = count_if f l - b2n (f x) + b2n (f y).
Proof.
  intros Hk. rewrite (count_if_perm f _ _ (insert_Permutation l k x y Hk)).
  rewrite (count_if_perm f l _ (delete_Permutation l k x Hk)), !count_if_cons. lia.
Qed.

Lemma count_if_swap_remove {A} (f : A -> bool) l k x :
  l !! k = Some x -> count_if f (swap_remove l k) = count_if f l - b2n (f x).
Proof.
  intros Hk. rewrite (count_if_perm f l _ (swap_remove_perm l k x Hk)), count_if_cons. lia.
Qed.

Lemma count_if_delete {A} (f : A -> bool) l k x :
  l !! k = Some x -> count_if f (delete k l) = count_if f l - b2n (f x).
Proof.
  intros Hk. rewrite (count_if_perm f l _ (delete_Permutation l k x Hk)), count_if_cons. lia.
Qed.

Lemma count_if_zero {A} (f : A -> bool) l : count_if f l = 0 <-> Forall (fun x => f x = false) l.
Proof.
  induction l as [|x l IH]; [done|]. rewrite count_if_cons, Forall_cons, <- IH.
  pose proof (count_if_nonneg f l).
  destruct (f x); simpl.
  - split; [lia|]. by intros [? _].
  - split; [intros; split; [done|lia]|intros [_ ?]; lia].
Qed.

Lemma count_if_le {A} (f g : A -> bool) l :
  (forall x, x ∈ l -> f x = true -> g x = true) -> count_if f l <= count_if g l.
Proof.
  induction l as [|x l IH]; intros Hfg; [done|]. rewrite !count_if_cons.
  assert (count_if f l <= count_if g l) by (apply IH; intros; apply Hfg; [by right|done]).
  specialize (Hfg x ltac:(by left)). destruct (f x), (g x); simpl; lia.
Qed.

Section MapSum.
Context {V : Type} (f : V -> Z).

Definition msum (m : gmap Z V) : Z := map_fold (fun _ v acc => f v + acc) 0 m.

Lemma msum_empty : msum ∅ = 0.
Proof. apply map_fold_empty. Qed.

Lemma msum_insert_new m k v : m !! k = None -> msum (<[k := v]> m) = f v + msum m.
Proof.
  intros. unfold msum. rewrite (map_fold_insert_L (fun _ v acc => f v + acc)); [done| |done]. intros. lia.
Qed.

(** [d]: the value of a slot that was never written. *)
Lemma msum_insert m k v d :
  f d = 0 -> msum (<[k := v]> m) = msum m - f (default d (m !! k)) + f v.
Proof.
  intros Hd. destruct (m !! k) as [w|] eqn:E; simpl.
  - rewrite <- (insert_delete_id m k w E) at 2. rewrite <- insert_delete_eq.
    rewrite !msum_insert_new by apply lookup_delete_eq. lia.
  - rewrite msum_insert_new by done. lia.
Qed.

Lemma msum_zero m : (forall k x, m !! k = Some x -> f x = 0) -> msum m = 0.
Proof.
  induction m as [|k v m Hk IH] using map_ind; intros H; [apply msum_empty|].
  rewrite msum_insert_new by done. rewrite (H k v) by apply lookup_insert_eq. rewrite IH; [done|].
  intros k' x Hx. apply (H k'). rewrite lookup_insert_ne; congruence.
Qed.

Lemma msum_nonneg m : (forall v, 0 <= f v) -> 0 <= msum m.
Proof.
  intros Hf. induction m as [|k v m Hk IH] using map_ind; [by rewrite msum_empty|].
  rewrite msum_insert_new by done. specialize (Hf v). lia.
Qed.

Lemma msum_ge m k d : (forall v, 0 <= f v) -> f d = 0 -> f (default d (m !! k)) <= msum m.
Proof.
  intros Hf Hd. destruct (m !! k) as [w|] eqn:E; simpl; [|rewrite Hd; by apply msum_nonneg].
  rewrite <- (insert_delete_id m k w E), msum_insert_new by apply lookup_delete_eq.
  pose proof (msum_nonneg (delete k m) Hf). lia.
Qed.
End MapSum.

(** A decidable fact about every number below a bound, by evaluation. *)
Lemma forall_below (P : Z -> bool) n : forallb P (seqZ 0 n) = true -> forall m, 0 <= m < n -> P m = true.
Proof.
  rewrite forallb_forall. intros H m Hm. apply H, list_elem_of_In, elem_of_seqZ. lia.
Qed.
