(* ===== verification/Bytes.v ===== *)
(** * Bytes: byte buffers and the little-endian fields read from them

    A C buffer is the list of its bytes.  [rd n off b] is the value a [memcpy] of
    [n] bytes at [off] puts in an unsigned variable; [wr off bs b] is a [memcpy]
    of the bytes [bs] to [off].  Accesses outside the buffer are excluded by
    the conditions of the source, and by hypotheses of the lemmas. *)
From S2P Require Import Prelude.

Fixpoint le_val (l : list Z) : Z :=
  match l with [] => 0 | c :: r => c + 256 * le_val r end.

Fixpoint le_bytes (n : nat) (v : Z) : list Z :=
  match n with O => [] | S n' => v mod 256 :: le_bytes n' (v / 256) end.

Definition rd (n : nat) (off : Z) (b : list Z) : Z := le_val (take n (drop (Z.to_nat off) b)).
Definition wr (off : Z) (bs b : list Z) : list Z :=
  take (Z.to_nat off) b ++ bs ++ drop (Z.to_nat off + length bs) b.

Lemma wr_nil off b : wr off [] b = b.
Proof. unfold wr. simpl. rewrite Nat.add_0_r. apply take_drop. Qed.

Lemma le_bytes_length n v : length (le_bytes n v) = n.
Proof. revert v. induction n as [|n IH]; intros v; simpl; [done|by rewrite IH]. Qed.

Lemma le_bytes_arr_len n v : arr_len (le_bytes n v) = Z.of_nat n.
Proof. unfold arr_len. by rewrite le_bytes_length. Qed.

Lemma le_val_bytes n v : 0 <= v < 256 ^ Z.of_nat n -> le_val (le_bytes n v) = v.
Proof.
  revert v. induction n as [|n IH]; intros v Hv; [change (256 ^ Z.of_nat 0) with 1 in Hv; simpl; lia|].
  rewrite Nat2Z.inj_succ, Z.pow_succ_r in Hv by lia. simpl.
  rewrite IH by (split; [apply Z.div_pos; lia|apply Z.div_lt_upper_bound; lia]).
  pose proof (Z.div_mod v 256 ltac:(lia)). lia.
Qed.

Lemma wr_length off bs b :
  0 <= off -> off + arr_len bs <= arr_len b -> length (wr off bs b) = length b.
Proof.
  unfold wr, arr_len. intros. rewrite !length_app, length_take, length_drop. lia.
Qed.

(** Two buffers agree on a field if they agree on its bytes. *)
Lemma rd_ext n off b b' :
  0 <= off ->
  (forall i, off <= i < off + Z.of_nat n -> b !! Z.to_nat i = b' !! Z.to_nat i) ->
  rd n off b = rd n off b'.
Proof.
  intros H0 He. unfold rd. f_equal. apply list_eq. intros i.
  destruct (decide (i < n)%nat).
  - rewrite !lookup_take_lt, !lookup_drop by done.
    specialize (He (off + Z.of_nat i) ltac:(lia)).
    by replace (Z.to_nat off + i)%nat with (Z.to_nat (off + Z.of_nat i)) by lia.
  - by rewrite !lookup_take_ge by lia.
Qed.

Lemma lookup_wr_out off bs b i :
  0 <= off -> off + arr_len bs <= arr_len b -> 0 <= i -> i < off \/ off + arr_len bs <= i ->
  wr off bs b !! Z.to_nat i = b !! Z.to_nat i.
Proof.
  unfold wr, arr_len. intros H0 Hl Hi [Hlt|Hge].
  - rewrite lookup_app_l by (rewrite length_take; lia). by rewrite lookup_take_lt by lia.
  - rewrite lookup_app_r by (rewrite length_take; lia).
    rewrite lookup_app_r by (rewrite length_take; lia). rewrite lookup_drop, length_take. f_equal. lia.
Qed.

Lemma rd_wr_out n off off' bs b :
  0 <= off -> 0 <= off' -> off' + arr_len bs <= arr_len b ->
  off + Z.of_nat n <= off' \/ off' + arr_len bs <= off ->
  rd n off (wr off' bs b) = rd n off b.
Proof. intros. apply rd_ext; [done|]. intros i Hi. apply lookup_wr_out; lia. Qed.

Lemma rd_wr n off v b :
  0 <= off -> off + Z.of_nat n <= arr_len b -> 0 <= v < 256 ^ Z.of_nat n ->
  rd n off (wr off (le_bytes n v) b) = v.
Proof.
  unfold arr_len. intros H0 Hl Hv. unfold rd, wr.
  rewrite drop_app_length' by (rewrite length_take; lia).
  rewrite take_app_length' by (rewrite le_bytes_length; done). by apply le_val_bytes.
Qed.

(** Writing back what was there undoes an overwrite. *)
Lemma wr_wr off bs bs' b :
  0 <= off -> length bs = length bs' -> off + arr_len bs <= arr_len b ->
  wr off bs' (wr off bs b) = wr off bs' b.
Proof.
  unfold wr, arr_len. intros H0 He Hl. rewrite take_app_length' by (rewrite length_take; lia).
  f_equal. f_equal. rewrite <- He, app_assoc.
  rewrite drop_app_length' by (rewrite length_app, length_take; lia). done.
Qed.

Definition byte (c : Z) : Prop := 0 <= c < 256.

Lemma le_bytes_val l : Forall byte l -> le_bytes (length l) (le_val l) = l.
Proof.
  induction 1 as [|c l Hc _ IH]; [done|]. cbn [length le_val le_bytes]. unfold byte in Hc.
  rewrite (Z.mul_comm 256), Z.mod_add, Z.div_add, Z.mod_small, Z.div_small by lia. by rewrite Z.add_0_l, IH.
Qed.

Lemma le_val_range l : Forall (fun c => 0 <= c < 256) l -> 0 <= le_val l < 256 ^ arr_len l.
Proof.
  induction 1 as [|c l Hc _ IH]; [done|]. unfold arr_len in *. simpl length.
  rewrite Nat2Z.inj_succ, Z.pow_succ_r by lia. simpl. lia.
Qed.

Lemma rd_range n off b :
  Forall (fun c => 0 <= c < 256) b -> 0 <= rd n off b < 256 ^ Z.of_nat n.
Proof.
  intros Hb. unfold rd. set (l := take n _).
  assert (Forall (fun c => 0 <= c < 256) l) as Hl by by apply Forall_take, Forall_drop.
  pose proof (le_val_range l Hl). assert (arr_len l <= Z.of_nat n)
    by (unfold arr_len, l; rewrite length_take; lia).
  pose proof (Z.pow_le_mono_r 256 (arr_len l) (Z.of_nat n) ltac:(lia) ltac:(lia)). lia.
Qed.
