(* ===== verification/Extents.v ===== *)
(** * Extents: byte ranges, and what an extent allocator promises

    The host side of nvkvm carves several address windows with small
    hand-written allocators (the sparse GPA window, the per-isolate mapping
    window, the sub-allocated GPA windows of the four-table model).  This file
    holds the algebra of disjoint extents they share, and the interface
    [ExtAlloc] their instances are proved against. *)
From S2P Require Import Prelude.

Record ext := Ext { e_off : Z; e_len : Z }.

#[export] Instance ext_eq_dec : EqDecision ext.
Proof. solve_decision. Defined.
#[export] Instance ext_inhabited : Inhabited ext := populate (Ext 0 0).

Definition e_end (e : ext) : Z := e_off e + e_len e.

(** Two half-open ranges with no common byte. *)
Definition ext_disj (a b : ext) : Prop := e_end a <= e_off b \/ e_end b <= e_off a.

Definition ext_in (lo hi : Z) (e : ext) : Prop :=
  lo <= e_off e /\ 0 < e_len e /\ e_end e <= hi.

Definition ext_has (e : ext) (x : Z) : Prop := e_off e <= x < e_end e.

#[export] Instance ext_disj_sym : Symmetric ext_disj.
Proof. unfold ext_disj. intros ?? [?|?]; auto. Qed.

(** Pairwise disjointness of a list of extents. *)
Fixpoint all_disj (l : list ext) : Prop :=
  match l with
  | [] => True
  | e :: r => Forall (ext_disj e) r /\ all_disj r
  end.

Lemma all_disj_perm_1 l1 l2 : Permutation l1 l2 -> all_disj l1 -> all_disj l2.
Proof.
  induction 1 as [|x l l' HP IH|x y l|? ? ? ? IH1 ? IH2]; simpl; auto.
  - intros [Hf Hd]. split; [by rewrite <- HP | auto].
  - intros [Hy [Hx Hd]]. inversion Hy; subst. repeat split; auto.
    constructor; auto. by symmetry.
Qed.

#[export] Instance all_disj_perm : Proper (Permutation ==> iff) all_disj.
Proof. intros l1 l2 HP. split; apply all_disj_perm_1; [done | by symmetry]. Qed.

Lemma all_disj_app l1 l2 :
  all_disj (l1 ++ l2) <->
  all_disj l1 /\ all_disj l2 /\ (forall a b, a ∈ l1 -> b ∈ l2 -> ext_disj a b).
Proof.
  induction l1 as [|e l1 IH]; simpl.
  - split; [|tauto]. intros. repeat split; auto. intros ?? []%not_elem_of_nil.
  - rewrite IH, Forall_app, !Forall_forall. set_unfold. naive_solver.
Qed.

Lemma all_disj_cons_elem e l b : all_disj (e :: l) -> b ∈ l -> ext_disj e b.
Proof. intros [Hf _] Hb. rewrite Forall_forall in Hf. auto. Qed.

(** Splitting an extent keeps the list disjoint; so does merging neighbours. *)
Lemma all_disj_split o a b l :
  0 <= a -> 0 <= b -> all_disj (Ext o (a + b) :: l) ->
  all_disj (Ext o a :: Ext (o + a) b :: l).
Proof.
  intros Ha Hb [Hf Hd]. simpl. rewrite !Forall_forall in *. repeat split; auto.
  - intros x [->|Hx]%elem_of_cons; unfold ext_disj, e_end in *; simpl; [lia|].
    specialize (Hf x Hx). simpl in Hf. lia.
  - intros x Hx. specialize (Hf x Hx). unfold ext_disj, e_end in *; simpl in *. lia.
Qed.

Lemma all_disj_merge o a b l :
  0 <= a -> 0 <= b -> Forall (fun e => 0 < e_len e) l ->
  all_disj (Ext o a :: Ext (o + a) b :: l) -> all_disj (Ext o (a + b) :: l).
Proof.
  intros Ha Hb Hl (Hf1 & Hf2 & Hd). split; [|done].
  rewrite Forall_cons in Hf1. destruct Hf1 as [_ Hf1]. rewrite Forall_forall in *.
  intros x Hx. specialize (Hf1 x Hx). specialize (Hf2 x Hx). specialize (Hl x Hx). unfold ext_disj, e_end in *; simpl in *. lia.
Qed.

(** An extent placed at or above everything else is disjoint from it. *)
Lemma all_disj_above o n l :
  Forall (fun e => e_end e <= o) l -> all_disj l -> all_disj (Ext o n :: l).
Proof.
  intros Hf Hd. split; [|done]. eapply Forall_impl; [exact Hf|].
  unfold ext_disj. simpl. auto.
Qed.

Lemma ext_in_weaken lo lo' hi hi' e :
  lo' <= lo -> hi <= hi' -> ext_in lo hi e -> ext_in lo' hi' e.
Proof. unfold ext_in. lia. Qed.

Lemma Forall_ext_in_weaken lo hi hi' l :
  hi <= hi' -> Forall (ext_in lo hi) l -> Forall (ext_in lo hi') l.
Proof. intros. eapply Forall_impl; [done|]. intros. by eapply ext_in_weaken with (lo:=lo) (hi:=hi); [lia..|]. Qed.

(** Everything in [[0,hi)] that is disjoint from the tail [[o,hi)] is in [[0,o)]. *)
Lemma ext_in_below_tail o n hi l :
  o + n = hi -> 0 < n -> all_disj (Ext o n :: l) -> Forall (ext_in 0 hi) l ->
  Forall (ext_in 0 o) l.
Proof.
  intros He Hn [Hf _] Hin. rewrite Forall_forall in *. intros x Hx.
  specialize (Hf x Hx). specialize (Hin x Hx).
  unfold ext_disj, ext_in, e_end in *; simpl in *. lia.
Qed.

(** Disjoint extents share no byte. *)
Lemma ext_disj_no_common a b x : ext_disj a b -> ext_has a x -> ext_has b x -> False.
Proof. unfold ext_disj, ext_has, e_end. lia. Qed.

Lemma all_disj_unique l a b x :
  all_disj l -> a ∈ l -> b ∈ l -> ext_has a x -> ext_has b x -> a = b.
Proof.
  induction l as [|e l IH]; [intros _ []%not_elem_of_nil|].
  intros [Hf Hd] Ha Hb Hxa Hxb. rewrite Forall_forall in Hf.
  apply elem_of_cons in Ha as [->|Ha], Hb as [->|Hb]; auto; exfalso.
  - exact (ext_disj_no_common _ _ _ (Hf _ Hb) Hxa Hxb).
  - exact (ext_disj_no_common _ _ _ (Hf _ Ha) Hxb Hxa).
Qed.

(** ** Page-granular extent sets below a watermark

    The shape all the bump-plus-free-list allocators keep: the live extents
    together with the free ones are pairwise disjoint, page aligned, and below
    the watermark [cur]. *)
Definition page_ext (e : ext) : Prop := e_off e mod 4096 = 0 /\ e_len e mod 4096 = 0.

Record wf_exts (cur : Z) (l : list ext) : Prop := {
  we_disj : all_disj l;
  we_in : Forall (ext_in 0 cur) l;
  we_page : Forall page_ext l
}.

#[export] Instance wf_exts_perm cur : Proper (Permutation ==> iff) (wf_exts cur).
Proof.
  intros l1 l2 HP. split; intros [H1 H2 H3]; split; first [rewrite HP; done|rewrite <- HP; done].
Qed.

Lemma wf_head cur e l :
  wf_exts cur (e :: l) ->
  0 <= e_off e /\ 0 < e_len e /\ e_off e + e_len e <= cur /\
  e_off e mod 4096 = 0 /\ e_len e mod 4096 = 0.
Proof.
  intros [_ H1 H2]. rewrite !Forall_cons in *. destruct H1 as [(?&?&?) _], H2 as [[? ?] _].
  unfold e_end in *. auto.
Qed.

Lemma wf_drop cur e l : wf_exts cur (e :: l) -> wf_exts cur l.
Proof. intros [[] H1 H2]. rewrite !Forall_cons in *. split; tauto. Qed.

Lemma wf_split cur o a b l :
  0 < a -> 0 < b -> a mod 4096 = 0 -> wf_exts cur (Ext o (a + b) :: l) ->
  wf_exts cur (Ext o a :: Ext (o + a) b :: l).
Proof.
  intros Ha Hb Hm Hwf. pose proof (wf_head _ _ _ Hwf) as (?&?&?&?&?). simpl in *.
  destruct Hwf as [Hd Hi Hp]. split.
  - apply all_disj_split; auto; lia.
  - rewrite !Forall_cons in *. unfold ext_in, e_end in *; simpl in *. intuition lia.
  - rewrite !Forall_cons in *. unfold page_ext in *; simpl in *.
    split_and!; try tauto; Z.div_mod_to_equations; lia.
Qed.

Lemma wf_merge cur o a b l :
  wf_exts cur (Ext o a :: Ext (o + a) b :: l) -> wf_exts cur (Ext o (a + b) :: l).
Proof.
  intros Hwf. pose proof (wf_head _ _ _ Hwf) as (?&?&?&?&?). simpl in *.
  pose proof (wf_head _ _ _ (wf_drop _ _ _ Hwf)) as (?&?&?&?&?). simpl in *.
  destruct Hwf as [Hd Hi Hp]. rewrite !Forall_cons in *. split.
  - apply all_disj_merge; auto; try lia.
    destruct Hi as (_ & _ & Hi). eapply Forall_impl; [exact Hi|]. unfold ext_in. simpl. lia.
  - rewrite Forall_cons. unfold ext_in, e_end in *; simpl in *. intuition lia.
  - rewrite Forall_cons. unfold page_ext in *; simpl in *.
    split_and!; try tauto; Z.div_mod_to_equations; lia.
Qed.

Lemma wf_bump cur n l :
  0 <= cur -> cur mod 4096 = 0 -> 0 < n -> n mod 4096 = 0 -> wf_exts cur l ->
  wf_exts (cur + n) (Ext cur n :: l).
Proof.
  intros Hc Hcm Hn Hnm [H1 H2 H3]. split.
  - apply all_disj_above; [|done]. eapply Forall_impl; [exact H2|]. unfold ext_in. simpl. lia.
  - rewrite Forall_cons. split; [unfold ext_in, e_end; simpl; lia|].
    eapply Forall_ext_in_weaken; [|exact H2]. lia.
  - rewrite Forall_cons. done.
Qed.

Lemma wf_lower cur o n l :
  o + n = cur -> wf_exts cur (Ext o n :: l) -> wf_exts o l.
Proof.
  intros He Hwf. pose proof (wf_head _ _ _ Hwf) as (?&?&?&?&?). simpl in *.
  destruct Hwf as [Hd Hi Hp]. rewrite !Forall_cons in *. split.
  - apply Hd.
  - eapply (ext_in_below_tail o n cur); auto; tauto.
  - tauto.
Qed.

(** One free extent taken out of the combined list. *)
Lemma free_pull (L fr : list ext) i e :
  fr !! i = Some e -> Permutation (L ++ fr) (e :: L ++ delete i fr).
Proof.
  intros Hi. transitivity (L ++ e :: delete i fr); [|by rewrite Permutation_middle].
  by apply Permutation_app_head, delete_Permutation.
Qed.

(** What the free-list allocators do with the extent they chose: drop it when it
    fits exactly, else cut the request off its front. *)
Definition carve (fr : list ext) (i : nat) (size : Z) : list ext :=
  let e := fr !!! i in
  if e_len e =? size then swap_remove fr i
  else <[i := Ext (e_off e ⊕ size) (e_len e ⊖ size)]> fr.

Lemma carve_wf cur L fr i e size :
  fr !! i = Some e -> cur < W64 -> 0 < size <= e_len e -> size mod 4096 = 0 ->
  wf_exts cur (L ++ fr) -> wf_exts cur (Ext (e_off e) size :: L ++ carve fr i size).
Proof.
  intros Ei Hc Hs Hm Hw. unfold carve. rewrite (list_lookup_total_correct _ _ _ Ei).
  rewrite (free_pull _ _ _ _ Ei) in Hw. destruct e as [o n]. simpl in *.
  pose proof (wf_head _ _ _ Hw) as (?&?&?&?&?). simpl in *. case_if; zb.
  - subst. by rewrite (swap_remove_delete _ _ _ Ei).
  - rewrite !u64_small by lia. rewrite (insert_Permutation _ _ _ _ Ei).
    rewrite <- Permutation_middle. replace n with (size + (n - size)) in Hw by lia.
    apply wf_split in Hw; auto; lia.
Qed.

(** ** The allocator interface

    [ea_alloc s n] asks for [n] bytes; [ea_grant n] is the number of bytes the
    allocator really sets aside; [ea_release s o n] gives an extent back.
    The laws are for requests below 2^63 bytes, far above every window.  The invariant
    relates the allocator's state to the extents currently live. *)
Abbreviation REQ_MAX := 9223372036854775808 (only parsing).

Class ExtAlloc (S : Type) := {
  ea_alloc : S -> Z -> S * option Z;
  ea_grant : Z -> Z;
  ea_release : S -> Z -> Z -> S;
  ea_size : S -> Z;
  ea_inv : S -> list ext -> Prop;
  ea_inv_perm s l1 l2 : Permutation l1 l2 -> ea_inv s l1 -> ea_inv s l2;
  ea_inv_sound s live :
    ea_inv s live -> all_disj live /\ Forall (ext_in 0 (ea_size s)) live;
  ea_alloc_some s live n s' o :
    ea_inv s live -> 0 <= n < REQ_MAX -> ea_alloc s n = (s', Some o) ->
    0 < n <= ea_grant n /\ ea_size s' = ea_size s /\ ea_inv s' (Ext o (ea_grant n) :: live);
  ea_alloc_none s live n s' :
    ea_inv s live -> 0 <= n < REQ_MAX -> ea_alloc s n = (s', None) ->
    ea_size s' = ea_size s /\ ea_inv s' live;
  ea_release_ok s live o n :
    ea_inv s (Ext o (ea_grant n) :: live) -> 0 < n < REQ_MAX ->
    ea_size (ea_release s o n) = ea_size s /\ ea_inv (ea_release s o n) live
}.

(** ** Clients

    A client asks for memory and gives back extents it holds, in any order. *)
Section Client.
Context {S : Type} `{!ExtAlloc S}.

Inductive acmd := AGet (n : Z) | APut (k : nat).

(** A held extent remembers the size it was requested with. *)
Abbreviation held := (list (Z * Z)).
Definition held_ext (h : Z * Z) : ext := Ext (fst h) (ea_grant (snd h)).

Definition astep (sh : S * held) (c : acmd) : S * held :=
  let '(s, h) := sh in
  match c with
  | AGet n =>
      match ea_alloc s n with
      | (s', Some o) => (s', (o, n) :: h)
      | (s', None) => (s', h)
      end
  | APut k =>
      match h !! k with
      | Some (o, n) => (ea_release s o n, delete k h)
      | None => sh
      end
  end.

Definition arun (sh : S * held) (cs : list acmd) : S * held := fold_left astep cs sh.

(** A request within the allocator's laws. *)
Definition acmd_ok (c : acmd) : Prop := match c with AGet n => 0 <= n < REQ_MAX | APut _ => True end.

Definition held_ok (h : held) : Prop := Forall (fun p => 0 < snd p < REQ_MAX) h.

Lemma astep_inv s h c s' h' :
  ea_inv s (held_ext <$> h) -> held_ok h -> acmd_ok c -> astep (s, h) c = (s', h') ->
  ea_inv s' (held_ext <$> h') /\ held_ok h' /\ ea_size s' = ea_size s.
Proof.
  intros Hinv Hok Hn. destruct c as [n|k]; simpl in *.
  - destruct (ea_alloc s n) as [s1 [o|]] eqn:Ea; intros [=<- <-].
    + destruct (ea_alloc_some _ _ _ _ _ Hinv Hn Ea) as ([? ?]&?&?).
      split_and!; auto. apply Forall_cons. simpl. auto with lia.
    + destruct (ea_alloc_none _ _ _ _ Hinv Hn Ea). auto.
  - destruct (h !! k) as [[o n]|] eqn:Ek; intros [=<- <-]; [|auto].
    pose proof (delete_Permutation h k _ Ek) as HP.
    assert (0 < n < REQ_MAX) as Hr by exact (Forall_lookup_1 _ _ _ _ Hok Ek).
    apply (ea_inv_perm _ _ (held_ext <$> (o, n) :: delete k h)) in Hinv;
      [|by rewrite <- HP].
    simpl in Hinv. unfold held_ext in Hinv at 1. simpl in Hinv.
    destruct (ea_release_ok _ _ _ _ Hinv Hr). repeat split; auto.
    unfold held_ok in *. rewrite HP in Hok. by inversion Hok.
Qed.

(** Whatever a client does within the laws, the extents it holds never overlap and never
    leave the window. *)
Lemma arun_safe cs s h s' h' :
  ea_inv s (held_ext <$> h) -> held_ok h -> Forall acmd_ok cs -> arun (s, h) cs = (s', h') ->
  all_disj (held_ext <$> h') /\ Forall (ext_in 0 (ea_size s)) (held_ext <$> h').
Proof.
  unfold arun. intros Hinv Hok Hcs. revert s h Hinv Hok. induction Hcs as [|c cs Hc _ IH]; intros s h Hinv Hok; simpl.
  - intros [=<- <-]. by apply ea_inv_sound.
  - destruct (astep (s, h) c) as [s1 h1] eqn:Es.
    destruct (astep_inv _ _ _ _ _ Hinv Hok Hc Es) as (Hi & Hk & Hsz).
    rewrite <- Hsz. simpl in Es. rewrite Es. eauto.
Qed.
End Client.
