(* ===== verification/KvmSlots.v ===== *)
(** * KvmSlots: the KVM memory-slot pool of [src/qemu/nvkvm_mmap_host.c]

    Slots [64..511] are handed out for dynamic GPU mappings from a free stack
    and a watermark; a live bit per slot makes a double or forged release fail
    closed (audit item A-21).  [kvm_add_memory_region] and
    [kvm_remove_memory_region] are modelled on top of the pool, with the KVM
    ioctl as a parameter: its return value is an argument, the regions it
    installs are the list of memory regions the VM currently has. *)
From S2P Require Import Prelude.

Module KvmSlots.

Definition NVKVM_KVM_SLOT_BASE : Z := 64.
Definition NVKVM_KVM_SLOT_COUNT : Z := 448.

(** The file-static variables of the pool.  [free_stack] lists the free stack
    from its top ([kvm_slot_free_stack[free_head-1]]) down. *)
Record pool := Pool {
  water : Z;
  free_stack : list Z;
  live : list bool;
  in_use : Z;
  in_use_peak : Z;
  alloc_count : Z;
  free_count : Z;
  reject_count : Z
}.

Definition pool_init : pool :=
  Pool NVKVM_KVM_SLOT_BASE [] (replicate (Z.to_nat NVKVM_KVM_SLOT_COUNT) false) 0 0 0 0 0.

Definition kvm_slot_in_pool (slot : Z) : bool :=
  (NVKVM_KVM_SLOT_BASE <=? slot) && (slot <? NVKVM_KVM_SLOT_BASE + NVKVM_KVM_SLOT_COUNT).

Definition live_bit (p : pool) (slot : Z) : bool :=
  arr_get (live p) (slot - NVKVM_KVM_SLOT_BASE).

Definition reject (p : pool) : pool :=
  Pool (water p) (free_stack p) (live p) (in_use p) (in_use_peak p)
       (alloc_count p) (free_count p) (u64 (reject_count p + 1)).

(** The slot [nvkvm_kvm_slot_alloc] takes: the top of the free stack, else the
    next never-used number, else none ([-1]). *)
Definition slot_pick (p : pool) : Z * pool :=
  match free_stack p with
  | s :: r =>
      (s, Pool (water p) r (live p) (in_use p) (in_use_peak p)
               (alloc_count p) (free_count p) (reject_count p))
  | [] =>
      if water p <? NVKVM_KVM_SLOT_BASE + NVKVM_KVM_SLOT_COUNT then
        (water p, Pool (water p + 1) [] (live p) (in_use p) (in_use_peak p)
                       (alloc_count p) (free_count p) (reject_count p))
      else (-1, p)
  end.

Definition nvkvm_kvm_slot_alloc (p : pool) : Z * pool :=
  let '(slot, p1) := slot_pick p in
  if (0 <=? slot) && (negb (kvm_slot_in_pool slot) || live_bit p1 slot) then
    (-1, reject p1)
  else if 0 <=? slot then
    let n := in_use p1 + 1 in
    (slot, Pool (water p1) (free_stack p1)
                (arr_set (live p1) (slot - NVKVM_KVM_SLOT_BASE) true)
                n (if in_use_peak p1 <? n then n else in_use_peak p1)
                (u64 (alloc_count p1 + 1)) (free_count p1) (reject_count p1))
  else (slot, p1).

Definition nvkvm_kvm_slot_release (p : pool) (slot : Z) : pool :=
  if negb (kvm_slot_in_pool slot) then reject p
  else if negb (live_bit p slot) then reject p
  else
    let lv := arr_set (live p) (slot - NVKVM_KVM_SLOT_BASE) false in
    let full := negb (Z.of_nat (length (free_stack p)) <? NVKVM_KVM_SLOT_COUNT) in
    Pool (water p)
         (if full then free_stack p else slot :: free_stack p)
         lv
         (if 0 <? in_use p then in_use p - 1 else in_use p)
         (in_use_peak p) (alloc_count p) (u64 (free_count p + 1))
         (if full then u64 (reject_count p + 1) else reject_count p).

Definition nvkvm_kvm_slot_stats (p : pool) : Z * Z * Z * Z :=
  (in_use p, in_use_peak p, alloc_count p, free_count p).

Definition nvkvm_kvm_slot_rejects (p : pool) : Z := reject_count p.

(** ** Memory regions

    What KVM holds for the VM: one region per slot number, installed or
    replaced by [KVM_SET_USER_MEMORY_REGION] and deleted by a size of 0. *)
Record region := Region { rg_gpa : Z; rg_hva : Z; rg_len : Z; rg_readonly : bool }.
#[export] Instance region_eq_dec : EqDecision region.
Proof. solve_decision. Defined.

Record vm := Vm { vm_pool : pool; vm_regions : gmap Z region }.

(** [KVM_SET_USER_MEMORY_REGION] that the kernel accepts. *)
Definition kvm_set_region (m : gmap Z region) (slot : Z) (r : region) : gmap Z region :=
  if rg_len r =? 0 then delete slot m else <[slot := r]> m.

(** Result of [kvm_add_memory_region]: the return code and [*slot_out], which
    is left alone ([None]) on the error paths.  [ioctl_rc] is what the ioctl
    returns: 0, or a negative errno. *)
Definition kvm_add_memory_region (kvm_vm_fd ioctl_rc : Z) (v : vm)
    (gpa hva len : Z) (readonly : bool) : vm * Z * option Z :=
  let '(slot, p1) := nvkvm_kvm_slot_alloc (vm_pool v) in
  if slot <? 0 then (Vm p1 (vm_regions v), - ENOSPC, None)
  else if kvm_vm_fd <? 0 then
    (Vm (nvkvm_kvm_slot_release p1 slot) (vm_regions v), 0, Some (-1))
  else if ioctl_rc <? 0 then
    (Vm (nvkvm_kvm_slot_release p1 slot) (vm_regions v), ioctl_rc, None)
  else
    (Vm p1 (kvm_set_region (vm_regions v) slot (Region gpa hva len readonly)), 0, Some slot).

Definition kvm_remove_memory_region (kvm_vm_fd : Z) (v : vm) (slot : Z) : vm :=
  if negb (kvm_slot_in_pool slot) then v
  else
    Vm (nvkvm_kvm_slot_release (vm_pool v) slot)
       (if 0 <=? kvm_vm_fd
        then kvm_set_region (vm_regions v) slot (Region 0 0 0 false)
        else vm_regions v).

(** ** Invariant *)
Record pool_inv (p : pool) : Prop := {
  pi_len : length (live p) = Z.to_nat NVKVM_KVM_SLOT_COUNT;
  pi_water : NVKVM_KVM_SLOT_BASE <= water p <= NVKVM_KVM_SLOT_BASE + NVKVM_KVM_SLOT_COUNT;
  pi_nodup : NoDup (free_stack p);
  pi_free : forall s, s ∈ free_stack p ->
    NVKVM_KVM_SLOT_BASE <= s < water p /\ live_bit p s = false;
  pi_high : forall s, water p <= s < NVKVM_KVM_SLOT_BASE + NVKVM_KVM_SLOT_COUNT ->
    live_bit p s = false;
  pi_cover : forall s, NVKVM_KVM_SLOT_BASE <= s < water p ->
    live_bit p s = true \/ s ∈ free_stack p;
  pi_count : in_use p + Z.of_nat (length (free_stack p)) = water p - NVKVM_KVM_SLOT_BASE;
  pi_use : 0 <= in_use p
}.

Lemma in_pool_iff s :
  kvm_slot_in_pool s = true <->
  NVKVM_KVM_SLOT_BASE <= s < NVKVM_KVM_SLOT_BASE + NVKVM_KVM_SLOT_COUNT.
Proof. unfold kvm_slot_in_pool. rewrite andb_true_iff, Z.leb_le, Z.ltb_lt. lia. Qed.

(** The live bits after one of them is written. *)
Lemma live_bit_set (l : list bool) s s' b :
  length l = Z.to_nat NVKVM_KVM_SLOT_COUNT ->
  NVKVM_KVM_SLOT_BASE <= s < NVKVM_KVM_SLOT_BASE + NVKVM_KVM_SLOT_COUNT ->
  NVKVM_KVM_SLOT_BASE <= s' ->
  arr_get (arr_set l (s - NVKVM_KVM_SLOT_BASE) b) (s' - NVKVM_KVM_SLOT_BASE)
  = if s =? s' then b else arr_get l (s' - NVKVM_KVM_SLOT_BASE).
Proof.
  intros Hl ??. rewrite arr_get_set.
  - destruct (Z.eqb_spec s s'), (Z.eqb_spec (s - NVKVM_KVM_SLOT_BASE) (s' - NVKVM_KVM_SLOT_BASE));
      auto; lia.
  - unfold arr_len. rewrite Hl. lia.
  - lia.
Qed.

Lemma pool_init_live s :
  NVKVM_KVM_SLOT_BASE <= s < NVKVM_KVM_SLOT_BASE + NVKVM_KVM_SLOT_COUNT ->
  live_bit pool_init s = false.
Proof. intros. apply arr_get_replicate. lia. Qed.

Lemma pool_init_inv : pool_inv pool_init.
Proof.
  split; cbn [water free_stack in_use pool_init length].
  1: apply length_replicate.
  all: unfold NVKVM_KVM_SLOT_BASE, NVKVM_KVM_SLOT_COUNT; try lia; try set_solver.
  - constructor.
  - intros. by apply pool_init_live.
Qed.

Lemma reject_inv p : pool_inv p -> pool_inv (reject p).
Proof. intros []. by split. Qed.

(** What [slot_pick] returns on a well-formed pool. *)
Lemma slot_pick_inv p s p1 :
  pool_inv p -> slot_pick p = (s, p1) ->
  (s = -1 /\ p1 = p /\ free_stack p = [] /\
     water p = NVKVM_KVM_SLOT_BASE + NVKVM_KVM_SLOT_COUNT) \/
  (kvm_slot_in_pool s = true /\ live p1 = live p /\ live_bit p s = false /\
   in_use p1 = in_use p /\ s ∉ free_stack p1 /\ NoDup (free_stack p1) /\
   (forall x, x ∈ free_stack p1 -> x ∈ free_stack p) /\
   (forall x, x ∈ free_stack p -> x = s \/ x ∈ free_stack p1) /\
   s < water p1 /\ water p <= water p1 /\ (forall x, water p <= x < water p1 -> x = s) /\
   water p1 <= NVKVM_KVM_SLOT_BASE + NVKVM_KVM_SLOT_COUNT /\
   Z.of_nat (length (free_stack p1)) + water p
     = Z.of_nat (length (free_stack p)) + water p1 - 1).
Proof.
  intros [] . unfold slot_pick. destruct (free_stack p) as [|x r] eqn:Ef.
  - case_if; intros [=<- <-]; zb; [|left; split_and!; auto; lia]. right. simpl.
    rewrite in_pool_iff. split_and!; auto with lia; try set_solver; try constructor.
  - intros [=<- <-]. right. simpl. apply NoDup_cons in pi_nodup0 as [? ?].
    destruct (pi_free0 x) as [? ?]; [set_solver|].
    rewrite in_pool_iff. split_and!; auto; try lia; set_solver.
Qed.

(** Both outcomes of an allocation, exactly. *)
Lemma slot_alloc_spec p s p' :
  pool_inv p -> nvkvm_kvm_slot_alloc p = (s, p') ->
  pool_inv p' /\ reject_count p' = reject_count p /\
  ((s = -1 /\ p' = p /\ forall x, kvm_slot_in_pool x = true -> live_bit p x = true) \/
   (kvm_slot_in_pool s = true /\ live_bit p s = false /\ live_bit p' s = true /\
    forall x, kvm_slot_in_pool x = true -> x <> s -> live_bit p' x = live_bit p x)).
Proof.
  intros Hinv. unfold nvkvm_kvm_slot_alloc.
  destruct (slot_pick p) as [s0 p1] eqn:Ep.
  assert (reject_count p1 = reject_count p) as Hrc.
  { revert Ep. unfold slot_pick. destruct (free_stack p); [case_if|]; by intros [=<- <-]. }
  destruct (slot_pick_inv _ _ _ Hinv Ep) as
    [(-> & -> & Hf & Hw)|(Hin & Hlv & Hb & Hu & Hns & Hnd & Hsub & Hsup & Hlt & Hle & Hnew & Hmax & Hcnt)].
  - simpl. intros [=<- <-]. split_and!; auto. left. split_and!; auto.
    intros x Hx. apply in_pool_iff in Hx. destruct (pi_cover _ Hinv x); auto; [lia|rewrite Hf in *; set_solver].
  - assert (live_bit p1 s0 = false) as Hb1 by (unfold live_bit; rewrite Hlv; exact Hb).
    pose proof Hin as Hin'. apply in_pool_iff in Hin'.
    unfold NVKVM_KVM_SLOT_BASE in Hin'. replace (0 <=? s0) with true by (symmetry; apply Z.leb_le; lia).
    rewrite Hin, Hb1. simpl. intros [=<- <-].
    apply in_pool_iff in Hin. destruct Hinv.
    assert (forall x, NVKVM_KVM_SLOT_BASE <= x ->
      arr_get (arr_set (live p1) (s0 - NVKVM_KVM_SLOT_BASE) true) (x - NVKVM_KVM_SLOT_BASE)
      = if s0 =? x then true else live_bit p x) as Hset.
    { intros x Hx. rewrite live_bit_set by (rewrite ?Hlv; auto; lia).
      unfold live_bit. by rewrite Hlv. }
    split_and!; auto.
    + split; simpl; auto; unfold live_bit; simpl; try lia.
      * unfold arr_set. rewrite length_insert, Hlv. done.
      * intros x Hx. destruct (pi_free0 x (Hsub x Hx)). split; [lia|].
        rewrite Hset by lia. destruct (Z.eqb_spec s0 x); [congruence|done].
      * intros x Hx. rewrite Hset by lia.
        destruct (Z.eqb_spec s0 x); [lia|]. apply pi_high0. lia.
      * intros x Hx. rewrite Hset by lia. destruct (Z.eqb_spec s0 x); auto.
        destruct (Z.le_gt_cases (water p) x); [specialize (Hnew x); lia|].
        destruct (pi_cover0 x) as [?|Hf]; [lia|auto|].
        destruct (Hsup x Hf); auto; congruence.
    + right. split_and!; auto; [by apply in_pool_iff| |].
      * unfold live_bit; simpl. rewrite Hset by lia. by rewrite Z.eqb_refl.
      * intros x Hx Hne. apply in_pool_iff in Hx. unfold live_bit; simpl. rewrite Hset by lia.
        destruct (Z.eqb_spec s0 x); [congruence|done].
Qed.

Lemma slot_release_spec p s :
  pool_inv p ->
  pool_inv (nvkvm_kvm_slot_release p s) /\
  (kvm_slot_in_pool s = true -> live_bit p s = true ->
     reject_count (nvkvm_kvm_slot_release p s) = reject_count p /\
     live_bit (nvkvm_kvm_slot_release p s) s = false /\
     forall x, kvm_slot_in_pool x = true -> x <> s ->
       live_bit (nvkvm_kvm_slot_release p s) x = live_bit p x) /\
  ((kvm_slot_in_pool s = false \/ live_bit p s = false) ->
     nvkvm_kvm_slot_release p s = reject p).
Proof.
  intros Hinv. unfold nvkvm_kvm_slot_release.
  destruct (kvm_slot_in_pool s) eqn:Hin; simpl; [|split_and!; auto using reject_inv; done].
  destruct (live_bit p s) eqn:Hb; simpl; [|split_and!; auto using reject_inv; done].
  apply in_pool_iff in Hin. destruct Hinv.
  assert (NVKVM_KVM_SLOT_BASE <= s < water p) as Hsw.
  { destruct (Z.le_gt_cases (water p) s); [|lia]. rewrite pi_high0 in Hb by lia. done. }
  assert (s ∉ free_stack p) as Hnf.
  { intros Hf. destruct (pi_free0 _ Hf). congruence. }
  (* the slot itself is live, so the free stack cannot hold every slot *)
  assert (Z.of_nat (length (free_stack p)) < NVKVM_KVM_SLOT_COUNT /\ 0 < in_use p) as [Hroom Hpos].
  { assert (length (s :: free_stack p) <= length (seqZ NVKVM_KVM_SLOT_BASE (water p - NVKVM_KVM_SLOT_BASE)))%nat as Hle.
    { apply submseteq_length, NoDup_submseteq.
      - by apply NoDup_cons.
      - intros x [->|Hx]%elem_of_cons; apply elem_of_seqZ; [lia|].
        destruct (pi_free0 _ Hx). lia. }
    rewrite length_seqZ in Hle. simpl in Hle. lia. }
  replace (_ <? _) with true by (symmetry; apply Z.ltb_lt; lia). simpl.
  replace (0 <? in_use p) with true by (symmetry; apply Z.ltb_lt; lia).
  assert (forall x, NVKVM_KVM_SLOT_BASE <= x ->
    arr_get (arr_set (live p) (s - NVKVM_KVM_SLOT_BASE) false) (x - NVKVM_KVM_SLOT_BASE)
    = if s =? x then false else live_bit p x) as Hset.
  { intros x Hx. by rewrite live_bit_set by auto. }
  split_and!.
  - split; simpl; auto; unfold live_bit; simpl; try lia.
    + unfold arr_set. by rewrite length_insert.
    + by apply NoDup_cons.
    + intros x [->|Hx]%elem_of_cons; (split; [try lia|]).
      * rewrite Hset, Z.eqb_refl by lia. done.
      * destruct (pi_free0 _ Hx). lia.
      * destruct (pi_free0 _ Hx). rewrite Hset by lia. by case_if.
    + intros x Hx. rewrite Hset by lia. case_if; auto.
    + intros x Hx. rewrite Hset by lia. destruct (Z.eqb_spec s x); [set_solver|].
      destruct (pi_cover0 x Hx); set_solver.
  - intros _ _. split_and!; auto.
    + unfold live_bit; simpl. rewrite Hset, Z.eqb_refl by lia. done.
    + intros x Hx Hne. apply in_pool_iff in Hx. unfold live_bit; simpl. rewrite Hset by lia.
      destruct (Z.eqb_spec s x); [congruence|done].
  - intros [?|?]; congruence.
Qed.

(** ** Traces of pool operations *)
Inductive pop := PAlloc | PRelease (slot : Z).

(** [given] collects the slots the callers hold. *)
Definition pstep (st : pool * list Z) (o : pop) : pool * list Z :=
  let '(p, given) := st in
  match o with
  | PAlloc =>
      let '(s, p') := nvkvm_kvm_slot_alloc p in
      (p', if s <? 0 then given else s :: given)
  | PRelease s =>
      (nvkvm_kvm_slot_release p s, filter (fun x => x <> s) given)
  end.

Definition prun (ops : list pop) : pool * list Z := fold_left pstep ops (pool_init, []).

Definition trace_ok (st : pool * list Z) : Prop :=
  pool_inv (fst st) /\ NoDup (snd st) /\
  (forall s, s ∈ snd st <-> kvm_slot_in_pool s = true /\ live_bit (fst st) s = true).

Lemma pstep_ok st o : trace_ok st -> trace_ok (pstep st o).
Proof.
  destruct st as [p given]. intros (Hi & Hn & Hg). simpl in *. destruct o as [|s]; simpl.
  - destruct (nvkvm_kvm_slot_alloc p) as [s p'] eqn:Ea.
    destruct (slot_alloc_spec _ _ _ Hi Ea) as (Hi' & _ & [(-> & -> & _)|(Hin & Hb & Hb' & Ho)]).
    + by split_and!.
    + pose proof Hin as Hin'. apply in_pool_iff in Hin'. unfold NVKVM_KVM_SLOT_BASE in Hin'.
      replace (s <? 0) with false by (symmetry; apply Z.ltb_ge; lia).
      split_and!; simpl; auto.
      * apply NoDup_cons. split; [|done]. rewrite Hg. intros [_ ?]. congruence.
      * intros x. rewrite elem_of_cons, Hg. destruct (decide (x = s)) as [->|]; [tauto|].
        split; [|intros [? Hl]; right; rewrite Ho in Hl; auto].
        intros [?|[? Hl]]; [done|]. by rewrite Ho.
  - destruct (slot_release_spec p s Hi) as (Hi' & Hlive & Hdead).
    split_and!; simpl; auto.
    + by apply NoDup_filter.
    + intros x. rewrite list_elem_of_filter, Hg.
      destruct (kvm_slot_in_pool s) eqn:Es, (live_bit p s) eqn:El.
      2,3,4: rewrite Hdead by auto; unfold live_bit, reject in *; simpl; naive_solver congruence.
      destruct (Hlive eq_refl eq_refl) as (_ & Hf & Ho).
      split.
      * intros (? & ? & ?). by rewrite Ho.
      * intros [? Hl]. assert (x <> s) by congruence. rewrite Ho in Hl; auto.
Qed.

Lemma prun_ok ops : trace_ok (prun ops).
Proof.
  unfold prun. apply (fold_left_inv trace_ok); [|intros; by apply pstep_ok].
  split_and!; simpl; [apply pool_init_inv|constructor|].
  intros s. rewrite in_pool_iff. split; [set_solver|]. intros [Hin Hl].
  by rewrite pool_init_live in Hl.
Qed.

(** ** Memory regions *)

(** [kvm_add_memory_region] leaves the pool well formed whatever the ioctl
    answers, and only ever writes a region of a slot nobody held. *)
Lemma add_region_spec fd rc v gpa hva len ro v' ret out :
  pool_inv (vm_pool v) ->
  kvm_add_memory_region fd rc v gpa hva len ro = (v', ret, out) ->
  pool_inv (vm_pool v') /\
  (forall x, vm_regions v' !! x <> vm_regions v !! x ->
     out = Some x /\ kvm_slot_in_pool x = true /\ live_bit (vm_pool v) x = false) /\
  (ret = 0 -> 0 <= fd -> len <> 0 ->
     exists s, out = Some s /\ vm_regions v' !! s = Some (Region gpa hva len ro)).
Proof.
  intros Hi. unfold kvm_add_memory_region.
  destruct (nvkvm_kvm_slot_alloc (vm_pool v)) as [s p1] eqn:Ea.
  destruct (slot_alloc_spec _ _ _ Hi Ea) as (Hi1 & _ & Hcase).
  pose proof (proj1 (slot_release_spec p1 s Hi1)) as Hrel.
  destruct (s <? 0) eqn:Es; [intros [=<- <- <-]; simpl; split_and!; auto; done|].
  destruct (fd <? 0) eqn:Ef; [intros [=<- <- <-]; simpl; split_and!; auto; [done|zb; lia]|].
  destruct (rc <? 0) eqn:Er; [intros [=<- <- <-]; simpl; split_and!; auto; [done|zb; lia]|].
  intros [=<- <- <-]. simpl. zb. destruct Hcase as [(-> & _)|(Hin & Hb & _)]; [lia|].
  unfold kvm_set_region. split_and!; auto.
  - intros x Hx. destruct (decide (x = s)) as [->|]; [auto|]. exfalso. apply Hx.
    case_if; [by rewrite lookup_delete_ne|by rewrite lookup_insert_ne].
  - intros _ _ Hlen. exists s. split; [done|]. simpl.
    case_if; zb; [lia|apply lookup_insert_eq].
Qed.

Lemma remove_region_spec fd v s :
  pool_inv (vm_pool v) ->
  pool_inv (vm_pool (kvm_remove_memory_region fd v s)) /\
  (forall x, x <> s \/ kvm_slot_in_pool s = false ->
     vm_regions (kvm_remove_memory_region fd v s) !! x = vm_regions v !! x).
Proof.
  intros Hi. unfold kvm_remove_memory_region.
  destruct (kvm_slot_in_pool s); simpl; [|auto].
  split; [by apply slot_release_spec|]. intros x [Hx|?]; [|done].
  case_if; [|done]. unfold kvm_set_region. simpl. by rewrite lookup_delete_ne.
Qed.

(** ** Theorems *)

(** C6: over any sequence of slot allocations and releases, including releases
    of slots the caller does not hold, the slots handed out are pairwise
    distinct, all inside the dynamic range [64, 512), and are exactly the ones
    the pool's live map records. *)
Theorem kvm_slot_no_alias ops :
  let '(p, given) := prun ops in
  NoDup given /\ (forall s, s ∈ given -> 64 <= s < 512) /\
  (forall s, s ∈ given <-> kvm_slot_in_pool s = true /\ live_bit p s = true).
Proof.
  pose proof (prun_ok ops) as (Hi & Hn & Hg). destruct (prun ops) as [p given]. simpl in *.
  split_and!; auto. intros s Hs. apply Hg in Hs as [Hin _]. apply in_pool_iff in Hin.
  unfold NVKVM_KVM_SLOT_BASE, NVKVM_KVM_SLOT_COUNT in Hin. lia.
Qed.

(** C40: the pool refuses exactly when all 448 slots are held, and releasing a
    slot nobody holds changes nothing but the rejection counter. *)
Theorem kvm_slot_exhaustion_and_reject ops :
  let '(p, given) := prun ops in
  (fst (nvkvm_kvm_slot_alloc p) = -1 <-> length given = 448%nat) /\
  (forall s, s ∉ given -> nvkvm_kvm_slot_release p s = reject p).
Proof.
  pose proof (prun_ok ops) as (Hi & Hn & Hg). destruct (prun ops) as [p given]. simpl in *.
  assert (forall x, x ∈ given -> x ∈ seqZ 64 448) as Hsub.
  { intros x [Hx _]%Hg. apply in_pool_iff in Hx. by apply elem_of_seqZ. }
  split.
  - destruct (nvkvm_kvm_slot_alloc p) as [s p'] eqn:Ea. simpl.
    destruct (slot_alloc_spec _ _ _ Hi Ea) as (_ & _ & [(-> & _ & Hall)|(Hin & Hb & _)]).
    + split; [intros _|done]. change 448%nat with (Z.to_nat 448). rewrite <- (length_seqZ 64 448).
      apply Permutation_length.
      apply NoDup_Permutation; [exact Hn|apply NoDup_seqZ|]. intros x. split; [apply Hsub|].
      intros Hx. apply Hg. apply elem_of_seqZ in Hx.
      assert (kvm_slot_in_pool x = true) by by apply in_pool_iff. auto.
    + pose proof Hin as Hin'. apply in_pool_iff in Hin'. unfold NVKVM_KVM_SLOT_BASE in Hin'.
      split; [lia|intros Hl]. exfalso. assert (s ∉ given) as Hs by (rewrite Hg; intros [_ ?]; congruence).
      assert (length (s :: given) <= length (seqZ 64 448))%nat as Hle.
      { apply submseteq_length, NoDup_submseteq; [by apply NoDup_cons|].
        intros x [->|Hx]%elem_of_cons; [|auto]. by apply elem_of_seqZ. }
      rewrite length_seqZ in Hle. simpl in Hle. lia.
  - intros s Hs. apply slot_release_spec; [done|]. rewrite Hg in Hs.
    destruct (kvm_slot_in_pool s), (live_bit p s); auto. by destruct Hs.
Qed.

(** Adding or removing a memory region never touches the region of any slot
    outside the dynamic pool, nor of a slot somebody else holds: an add writes
    only the region of a slot that was not live, a remove only the region of
    the pool slot it names. *)
Theorem kvm_region_ops_confined fd rc v gpa hva len ro s x :
  pool_inv (vm_pool v) ->
  let '(v1, _, out) := kvm_add_memory_region fd rc v gpa hva len ro in
  let v2 := kvm_remove_memory_region fd v s in
  pool_inv (vm_pool v1) /\ pool_inv (vm_pool v2) /\
  (kvm_slot_in_pool x = false \/ live_bit (vm_pool v) x = true ->
     vm_regions v1 !! x = vm_regions v !! x) /\
  (kvm_slot_in_pool x = false \/ x <> s -> vm_regions v2 !! x = vm_regions v !! x).
Proof.
  intros Hi. destruct (kvm_add_memory_region _ _ _ _ _ _ _) as [[v1 ret] out] eqn:E.
  destruct (add_region_spec _ _ _ _ _ _ _ _ _ _ Hi E) as (H1 & H2 & _).
  destruct (remove_region_spec fd v s Hi) as [H3 H4]. split_and!; auto.
  - intros Hx. destruct (decide (vm_regions v1 !! x = vm_regions v !! x)) as [|Hne]; [done|].
    destruct (H2 x Hne) as (_ & ? & ?). destruct Hx; congruence.
  - intros Hx. apply H4. destruct (decide (x = s)) as [->|]; [|auto]. destruct Hx; [auto|done].
Qed.

(** With the boot-time RAM region in slot 0. *)
Lemma kvm_region_ops_confined_witness :
  let v := Vm pool_init {[0 := Region 0 4096 1073741824 false]} in
  let '(v1, _, out) := kvm_add_memory_region 5 0 v 68719476736 8192 4096 false in
  out = Some 64 /\ vm_regions v1 !! 0 = Some (Region 0 4096 1073741824 false).
Proof.
  pose proof (kvm_region_ops_confined 5 0 (Vm pool_init {[0 := Region 0 4096 1073741824 false]})
    68719476736 8192 4096 false 64 0 pool_init_inv) as H.
  cbv zeta. destruct (kvm_add_memory_region 5 0 _ _ _ _ _) as [[v1 ret] out] eqn:E.
  destruct H as (_ & _ & H & _). split.
  - change out with (snd (v1, ret, out)). rewrite <- E. vm_compute. reflexivity.
  - rewrite H; [reflexivity|]. left. reflexivity.
Defined.

End KvmSlots.
