(* ===== verification/GpaLayout.v ===== *)
(** * GpaLayout: where the device's guest-physical windows go

    Model of the physical-address-width probes and of
    [nvkvm_gpa_layout_compute] in [src/qemu/nvkvm_mmap_host.c]: the block made
    of the shm slot, the legacy mmap window and the sparse window is placed in
    the guest-physical address space, halving the sparse window until the block
    fits above guest RAM.  The probes' raw answers (CPUID leaves, the lines of
    /proc/cpuinfo, the CPU's phys-bits property, the environment override, the
    machine's RAM sizes) are arguments. *)
From S2P Require Import Prelude.

Module GpaLayout.

Definition GiB : Z := 1073741824.
Definition NVKVM_MMAP_WIN_SIZE : Z := 16 * GiB.
Definition NVKVM_SPARSE_GPA_SIZE : Z := 128 * GiB.
Definition NVKVM_SPARSE_GPA_SIZE_MIN : Z := 16 * GiB.
Definition NVKVM_SHM_GPA_SLOT : Z := GiB.
Definition NVKVM_GPA_ALIGN : Z := GiB.

Record nvkvm_gpa_layout := Layout {
  shm_base : Z; mmap_base : Z; mmap_size : Z; sparse_base : Z; sparse_size : Z;
  block_base : Z; block_size : Z; limit : Z; ram_top : Z; floor : Z;
  host_bits : Z; guest_bits : Z; bits : Z; shrunk : bool
}.

Definition width_ok (b : Z) : bool := (32 <=? b) && (b <=? 64).

(** The raw probe answers [nvkvm_host_phys_bits] consults.  [cpuid_ext_max] and
    [cpuid_addr] are EAX of leaves 0x80000000 and 0x80000008 ([None] when
    [__get_cpuid] fails); [cpuinfo] holds one entry per line of /proc/cpuinfo,
    the number scanned from an "address sizes" line. *)
Record probe := Probe {
  cpuid_ext_max : option Z;
  cpuid_addr : option Z;
  cpuinfo : list (option Z)
}.

Definition cpuid_bits (p : probe) : option Z :=
  match cpuid_ext_max p, cpuid_addr p with
  | Some m, Some eax =>
      if 2147483656 <=? m then
        let b := Z.land eax 255 in if width_ok b then Some b else None
      else None
  | _, _ => None
  end.

Fixpoint cpuinfo_bits (lines : list (option Z)) : Z :=
  match lines with
  | [] => 0
  | Some b :: r => if width_ok b then b else cpuinfo_bits r
  | None :: r => cpuinfo_bits r
  end.

(** [cached] is the static variable; the result is returned and cached. *)
Definition nvkvm_host_phys_bits (cached : Z) (p : probe) : Z :=
  if negb (cached =? 0) then cached
  else match cpuid_bits p with Some b => b | None => cpuinfo_bits (cpuinfo p) end.

(** [prop] is the CPU's "phys-bits" property, [None] with no CPU or an error. *)
Definition nvkvm_guest_phys_bits (prop : option Z) : Z :=
  match prop with
  | None => 0
  | Some v => if (v <? 32) || (64 <? v) then 0 else v
  end.

(** [machine] is [(ram_size, maxram_size)] of the current machine. *)
Definition nvkvm_guest_ram_top (machine : option (Z * Z)) : Z :=
  let ram := match machine with
             | None => 0
             | Some (r, m) => if r <? m then m else r
             end in
  4 * GiB ⊕ ram.

Definition nvkvm_align_up (v a : Z) : Z := u64 (v + a - 1) & not64 (a - 1).
Definition nvkvm_align_down (v a : Z) : Z := v & not64 (a - 1).

(** The numbers of the "windows do not fit" message. *)
Record fit_error := FitError {
  fe_limit_gib : Z; fe_ram_gib : Z; fe_floor_gib : Z; fe_span_gib : Z;
  fe_more_gib : Z; fe_max_ram_gib : Z
}.

(** The width the placement is bound by. *)
Definition bind_bits (hb gb : Z) : Z :=
  let b := if negb (hb =? 0) && negb (gb =? 0) then (if hb <? gb then hb else gb)
           else if negb (hb =? 0) then hb
           else if negb (gb =? 0) then gb else 0 in
  let b := if b =? 0 then 36 else b in
  if 52 <? b then 52 else b.

Definition force_bits (force : option Z) (hb : Z) : Z :=
  match force with
  | Some v => let v := u32 v in if (32 <=? v) && (v <=? 52) then v else hb
  | None => hb
  end.

(** [while (sparse_size > MIN && sparse_size > limit / 8) sparse_size /= 2] *)
Fixpoint cap_sparse (fuel : nat) (lim sz : Z) : Z :=
  match fuel with
  | O => sz
  | S n => if (NVKVM_SPARSE_GPA_SIZE_MIN <? sz) && (lim / 8 <? sz)
           then cap_sparse n lim (sz / 2) else sz
  end.

Definition span_of (sz : Z) : Z :=
  nvkvm_align_up (u64 (NVKVM_SHM_GPA_SLOT + NVKVM_MMAP_WIN_SIZE + sz)) NVKVM_GPA_ALIGN.
Definition floor_of (rt sz : Z) : Z :=
  nvkvm_align_up (rt ⊕ NVKVM_GPA_ALIGN) sz ⊕ sz.
Definition base_of (lim span : Z) : Z :=
  nvkvm_align_down ((lim ⊖ lim / 8) ⊖ span) NVKVM_GPA_ALIGN.

Definition fit_error_of (lim rt sz : Z) : fit_error :=
  let span := span_of sz in
  let fl := floor_of rt sz in
  FitError (Z.shiftr lim 30) (Z.shiftr rt 30) (Z.shiftr fl 30) (Z.shiftr span 30)
    (Z.shiftr ((fl ⊕ span) ⊖ lim) 30)
    (if u64 (span + sz + 5 * GiB) <? lim
     then Z.shiftr (u64 (lim - span - sz - 5 * GiB)) 30 else 0).

(** The placement loop.  The size halves from at most 128 GiB to 16 GiB, so
    four rounds decide; [None] would mean the loop did not stop. *)
Fixpoint place (fuel : nat) (hb gb b lim rt sz : Z) : option (nvkvm_gpa_layout + fit_error) :=
  match fuel with
  | O => None
  | S n =>
      let span := span_of sz in
      let fl := floor_of rt sz in
      let base := base_of lim span in
      if (span <=? lim) && (fl <=? base) then
        let mmapb := base ⊕ NVKVM_SHM_GPA_SLOT in
        Some (inl (Layout base mmapb NVKVM_MMAP_WIN_SIZE (mmapb ⊕ NVKVM_MMAP_WIN_SIZE) sz
                     base span lim rt fl hb gb b (negb (sz =? NVKVM_SPARSE_GPA_SIZE))))
      else if sz <=? NVKVM_SPARSE_GPA_SIZE_MIN then Some (inr (fit_error_of lim rt sz))
      else place n hb gb b lim rt (sz / 2)
  end.

Definition LAYOUT_FUEL : nat := 4.

Definition nvkvm_gpa_layout_compute (host : Z) (force : option Z) (guest : Z) (rt : Z)
    : option (nvkvm_gpa_layout + fit_error) :=
  let hb := force_bits force host in
  let b := bind_bits hb guest in
  let lim := if 64 <=? b then UINT64_MAX else u64 (Z.shiftl 1 b) in
  place LAYOUT_FUEL hb guest b lim rt (cap_sparse LAYOUT_FUEL lim NVKVM_SPARSE_GPA_SIZE).

(** ** Lemmas *)
Lemma align_up_eq v k :
  0 <= k <= 62 -> 0 <= v -> v + 2 ^ k <= W64 ->
  nvkvm_align_up v (2 ^ k) = (v + 2 ^ k - 1) / 2 ^ k * 2 ^ k.
Proof.
  intros Hk Hv Hs. unfold nvkvm_align_up.
  assert (0 < 2 ^ k) by (apply Z.pow_pos_nonneg; lia).
  rewrite u64_small by lia. rewrite land_not64_low by lia.
  pose proof (Z.div_mod (v + 2 ^ k - 1) (2 ^ k) ltac:(lia)). lia.
Qed.

Lemma align_up_ge v k :
  0 <= k <= 62 -> 0 <= v -> v + 2 ^ k <= W64 ->
  v <= nvkvm_align_up v (2 ^ k) < v + 2 ^ k.
Proof.
  intros Hk Hv Hs. rewrite align_up_eq by done.
  assert (0 < 2 ^ k) by (apply Z.pow_pos_nonneg; lia).
  pose proof (Z.div_mod (v + 2 ^ k - 1) (2 ^ k) ltac:(lia)).
  pose proof (Z.mod_pos_bound (v + 2 ^ k - 1) (2 ^ k) ltac:(lia)). lia.
Qed.

(** The four sizes the sparse window can have, as powers of two. *)
Definition sparse_sizes : list Z := [2 ^ 34; 2 ^ 35; 2 ^ 36; 2 ^ 37].
Definition widths : list Z := seqZ 32 21.

Lemma sparse_sizes_inv sz :
  sz ∈ sparse_sizes -> sz = 2 ^ 34 \/ sz = 2 ^ 35 \/ sz = 2 ^ 36 \/ sz = 2 ^ 37.
Proof. unfold sparse_sizes. set_solver. Qed.

Lemma floor_of_ge rt sz :
  0 <= rt < 2 ^ 62 -> sz ∈ sparse_sizes -> rt + GiB + sz <= floor_of rt sz < 2 ^ 63.
Proof.
  intros Hrt Hsz. unfold floor_of, NVKVM_GPA_ALIGN.
  rewrite (u64_small (rt + GiB)) by (unfold GiB; lia).
  assert (exists k, 34 <= k <= 37 /\ sz = 2 ^ k) as (k & Hk & ->).
  { destruct (sparse_sizes_inv _ Hsz) as [-> | [-> | [-> | -> ]]];
      (eexists; split; [|reflexivity]; lia). }
  assert (0 < 2 ^ k <= 2 ^ 37) as Hp.
  { split; [apply Z.pow_pos_nonneg; lia|apply Z.pow_le_mono_r; lia]. }
  change (2 ^ 37) with 137438953472 in Hp.
  pose proof (align_up_ge (rt + GiB) k ltac:(lia) ltac:(unfold GiB; lia) ltac:(unfold GiB; lia)) as Ha.
  unfold GiB in *. rewrite u64_small by lia. lia.
Qed.

Lemma bind_bits_widths hb gb :
  (hb = 0 \/ 32 <= hb <= 64) -> (gb = 0 \/ 32 <= gb <= 64) -> bind_bits hb gb ∈ widths.
Proof.
  intros Hh Hg. apply elem_of_seqZ. unfold bind_bits.
  repeat case_if; zb; lia.
Qed.

Lemma bind_bits_le hb gb :
  (hb <> 0 -> bind_bits hb gb <= hb) /\ (gb <> 0 -> bind_bits hb gb <= gb).
Proof.
  unfold bind_bits.
  destruct (Z.eqb_spec hb 0), (Z.eqb_spec gb 0), (Z.ltb_spec hb gb); subst; simpl;
    repeat match goal with
    | |- context [?x =? 0] => rewrite (proj2 (Z.eqb_neq x 0)) by lia
    end; repeat case_if; zb; lia.
Qed.

(** The part of the computation that does not depend on guest RAM, checked for
    every width: the capped start size is one of the four, and at each size the
    block ends below the limit without the subtraction wrapping. *)
Definition width_facts (b : Z) : bool :=
  let lim := u64 (Z.shiftl 1 b) in
  let sz0 := cap_sparse LAYOUT_FUEL lim NVKVM_SPARSE_GPA_SIZE in
  bool_decide (sz0 ∈ sparse_sizes) &&
  forallb (fun sz =>
    let span := span_of sz in
    let base := base_of lim span in
    (span =? NVKVM_SHM_GPA_SLOT + NVKVM_MMAP_WIN_SIZE + sz) &&
    implb ((span <=? lim) && (sz <=? sz0))
      ((0 <=? base) && (base + span <=? lim - lim / 8) && (base mod GiB =? 0))) sparse_sizes
  && (lim <? 2 ^ 62).

Lemma width_facts_all : forallb width_facts widths = true.
Proof. vm_compute. reflexivity. Qed.

Lemma width_facts_at b : b ∈ widths -> width_facts b = true.
Proof.
  intros Hb. pose proof width_facts_all as H. rewrite forallb_forall in H.
  apply H. by apply list_elem_of_In.
Qed.

Definition layout_ok (L : nvkvm_gpa_layout) : Prop :=
  sparse_size L ∈ sparse_sizes /\
  shm_base L = block_base L /\
  mmap_base L = shm_base L + NVKVM_SHM_GPA_SLOT /\
  mmap_size L = NVKVM_MMAP_WIN_SIZE /\
  sparse_base L = mmap_base L + mmap_size L /\
  sparse_base L + sparse_size L = block_base L + block_size L /\
  block_base L mod NVKVM_GPA_ALIGN = 0 /\
  ram_top L + GiB + sparse_size L <= floor L <= block_base L /\
  block_base L + block_size L <= limit L - limit L / 8 /\
  limit L = 2 ^ bits L.

(** No smaller layout would have fitted either. *)
Definition no_room (b rt : Z) : Prop :=
  let sz := NVKVM_SPARSE_GPA_SIZE_MIN in
  2 ^ b < span_of sz \/ base_of (2 ^ b) (span_of sz) < floor_of rt sz.

Lemma place_spec fuel hb gb b rt sz0 sz r :
  b ∈ widths -> 0 <= rt < 2 ^ 62 ->
  sz0 = cap_sparse LAYOUT_FUEL (2 ^ b) NVKVM_SPARSE_GPA_SIZE ->
  sz ∈ sparse_sizes -> sz <= sz0 -> sz < 2 ^ (34 + Z.of_nat fuel) ->
  place fuel hb gb b (2 ^ b) rt sz = r ->
  (exists L, r = Some (inl L) /\ layout_ok L /\ bits L = b /\ ram_top L = rt) \/
  (exists e, r = Some (inr e) /\ no_room b rt).
Proof.
  intros Hb Hrt Hs0. revert sz. induction fuel as [|n IH]; intros sz Hsz Hle Hf Hr.
  { exfalso. change (34 + Z.of_nat 0) with 34 in Hf. apply sparse_sizes_inv in Hsz. lia. }
  pose proof (sparse_sizes_inv _ Hsz) as Hsz4.
  pose proof (width_facts_at _ Hb) as Hw. unfold width_facts in Hw.
  apply elem_of_seqZ in Hb as Hb'.
  assert (u64 (Z.shiftl 1 b) = 2 ^ b) as Hlim.
  { rewrite Z.shiftl_1_l. apply u64_small. split; [apply Z.pow_nonneg; lia|].
    apply (Z.pow_lt_mono_r 2 b 64); lia. }
  rewrite Hlim, <- Hs0 in Hw. apply andb_true_iff in Hw as [Hw H62]. apply andb_true_iff in Hw as [_ Hw].
  rewrite forallb_forall in Hw. specialize (Hw sz (proj1 (list_elem_of_In _ _) Hsz)).
  pose proof (floor_of_ge rt sz Hrt Hsz) as Hfl.
  simpl in Hr. apply andb_true_iff in Hw as [Hspan Hw]. zb.
  destruct ((span_of sz <=? 2 ^ b) && (floor_of rt sz <=? base_of (2 ^ b) (span_of sz))) eqn:Efit.
  - zb. left. rewrite (proj2 (Z.leb_le _ _)), (proj2 (Z.leb_le _ _)) in Hw by lia.
    simpl in Hw. zb. eexists. split; [by rewrite <- Hr|].
    unfold layout_ok. simpl.
    assert (2 ^ b < 2 ^ 62) by (apply Z.pow_lt_mono_r; lia).
    assert (0 <= 2 ^ b / 8) by (apply Z.div_pos; [apply Z.pow_nonneg|]; lia).
    unfold NVKVM_SHM_GPA_SLOT, NVKVM_MMAP_WIN_SIZE, GiB, NVKVM_GPA_ALIGN in *.
    rewrite (u64_small (base_of (2 ^ b) (span_of sz) + 1073741824)) by lia.
    rewrite (u64_small (_ + 1073741824 + _)) by lia.
    split_and!; auto; lia.
  - destruct (sz <=? NVKVM_SPARSE_GPA_SIZE_MIN) eqn:Emin.
    + right. eexists. split; [by rewrite <- Hr|]. apply Z.leb_le in Emin. unfold no_room.
      assert (sz = NVKVM_SPARSE_GPA_SIZE_MIN) as <-.
      { unfold NVKVM_SPARSE_GPA_SIZE_MIN, GiB in *. lia. }
      zb; auto.
    + apply Z.leb_gt in Emin. apply (IH (sz / 2)); auto.
      * unfold NVKVM_SPARSE_GPA_SIZE_MIN, GiB in *.
        destruct Hsz4 as [-> | [-> | [-> | -> ]]]; [lia|..];
          apply list_elem_of_In; vm_compute; auto.
      * unfold NVKVM_SPARSE_GPA_SIZE_MIN, GiB in *. Z.div_mod_to_equations; lia.
      * rewrite Nat2Z.inj_succ, Z.add_succ_r, Z.pow_succ_r in Hf by lia.
        Z.div_mod_to_equations; lia.
Qed.

Lemma cpuinfo_bits_range lines : cpuinfo_bits lines = 0 \/ 32 <= cpuinfo_bits lines <= 64.
Proof.
  induction lines as [|[b|] r IH]; simpl; auto. unfold width_ok.
  case_if; zb; auto; lia.
Qed.

Lemma host_bits_range p :
  nvkvm_host_phys_bits 0 p = 0 \/ 32 <= nvkvm_host_phys_bits 0 p <= 64.
Proof.
  unfold nvkvm_host_phys_bits, cpuid_bits. simpl.
  destruct (cpuid_ext_max p), (cpuid_addr p); try apply cpuinfo_bits_range.
  case_if; [|apply cpuinfo_bits_range]. unfold width_ok.
  case_if; [zb; lia|apply cpuinfo_bits_range].
Qed.

Lemma guest_bits_range o :
  nvkvm_guest_phys_bits o = 0 \/ 32 <= nvkvm_guest_phys_bits o <= 64.
Proof. destruct o; simpl; auto. case_if; zb; lia. Qed.

Lemma force_bits_range f hb :
  (hb = 0 \/ 32 <= hb <= 64) -> force_bits f hb = 0 \/ 32 <= force_bits f hb <= 64.
Proof. destruct f; simpl; auto. case_if; zb; lia. Qed.

Lemma compute_spec hb gb f rt :
  (hb = 0 \/ 32 <= hb <= 64) -> (gb = 0 \/ 32 <= gb <= 64) -> 0 <= rt < 2 ^ 62 ->
  let b := bind_bits (force_bits f hb) gb in
  (exists L, nvkvm_gpa_layout_compute hb f gb rt = Some (inl L) /\ layout_ok L /\
     bits L = b /\ ram_top L = rt) \/
  (exists e, nvkvm_gpa_layout_compute hb f gb rt = Some (inr e) /\ no_room b rt).
Proof.
  intros Hh Hg Hrt b. pose proof (force_bits_range f hb Hh) as Hf.
  pose proof (bind_bits_widths _ _ Hf Hg) as Hb. fold b in Hb.
  pose proof (width_facts_at _ Hb) as Hw. apply elem_of_seqZ in Hb as Hb'.
  unfold nvkvm_gpa_layout_compute. fold b.
  rewrite (proj2 (Z.leb_gt 64 b)) by lia.
  assert (u64 (Z.shiftl 1 b) = 2 ^ b) as Hlim.
  { rewrite Z.shiftl_1_l. apply u64_small. split; [apply Z.pow_nonneg; lia|].
    apply (Z.pow_lt_mono_r 2 b 64); lia. }
  unfold width_facts in Hw. rewrite Hlim in *.
  apply andb_true_iff in Hw as [Hw _]. apply andb_true_iff in Hw as [Hs _].
  apply bool_decide_eq_true in Hs. pose proof (sparse_sizes_inv _ Hs).
  eapply place_spec; eauto; [lia|]. change (2 ^ (34 + Z.of_nat LAYOUT_FUEL)) with (2 ^ 38). lia.
Qed.

(** C7: whatever the address-width probes answer and however much RAM the guest
    has (below 2^61 bytes), [nvkvm_gpa_layout_compute] terminates and either
    returns a block whose shm, mmap and sparse windows are adjacent and 1 GiB
    aligned, start at least one sparse window plus 1 GiB above the top of guest
    RAM, and end inside the usable seven eighths of a 2^bits address space no
    wider than either probe, or refuses because not even the 16 GiB window
    fits. *)
Theorem gpa_layout_sound p force prop r m :
  0 <= r < 2 ^ 61 -> 0 <= m < 2 ^ 61 ->
  let hb := force_bits force (nvkvm_host_phys_bits 0 p) in
  let gb := nvkvm_guest_phys_bits prop in
  let rt := nvkvm_guest_ram_top (Some (r, m)) in
  rt = 4 * GiB + Z.max r m /\
  ((exists L,
      nvkvm_gpa_layout_compute (nvkvm_host_phys_bits 0 p) force gb rt = Some (inl L) /\
      layout_ok L /\ ram_top L = rt /\
      (hb <> 0 -> bits L <= hb) /\ (gb <> 0 -> bits L <= gb)) \/
   (exists e,
      nvkvm_gpa_layout_compute (nvkvm_host_phys_bits 0 p) force gb rt = Some (inr e) /\
      no_room (bind_bits hb gb) rt)).
Proof.
  intros Hr Hm hb gb rt.
  assert (rt = 4 * GiB + Z.max r m) as Hrt.
  { unfold rt, nvkvm_guest_ram_top, GiB. case_if; zb; rewrite u64_small; lia. }
  split; [exact Hrt|].
  destruct (compute_spec (nvkvm_host_phys_bits 0 p) gb force rt) as [(L & HL & Hok & Hb & Ht)|He].
  - apply host_bits_range.
  - apply guest_bits_range.
  - rewrite Hrt. unfold GiB. lia.
  - left. exists L. split_and!; auto; intros Hne; rewrite Hb; by apply bind_bits_le.
  - right. exact He.
Qed.

(** A 39-bit laptop with 16 GiB of guest RAM. *)
Lemma gpa_layout_sound_witness :
  exists L, nvkvm_gpa_layout_compute 39 None 39 (nvkvm_guest_ram_top (Some (16 * GiB, 0)))
            = Some (inl L) /\ layout_ok L.
Proof.
  destruct (gpa_layout_sound (Probe (Some 2147483656) (Some 39) []) None (Some 39) (16 * GiB) 0
              ltac:(unfold GiB; lia) ltac:(lia)) as (_ & [(L & HL & Hok & _)|(e & He & _)]).
  - exists L. split; [exact HL|exact Hok].
  - exfalso. vm_compute in He. discriminate He.
Defined.

(** The "GiB more than there is room for" figure of the refusal message is
    computed against the address-space limit although the placement is made
    against seven eighths of it, so it wraps: with 37 address bits and 50 GiB of
    guest RAM the message reports 17179869169 GiB. *)
Lemma fit_error_room_wraps :
  exists e, nvkvm_gpa_layout_compute 37 None 37 (nvkvm_guest_ram_top (Some (50 * GiB, 0)))
            = Some (inr e) /\ fe_more_gib e = 17179869169.
Proof. eexists. split; vm_compute; reflexivity. Qed.

End GpaLayout.
