(* ===== verification/SparseWin.v ===== *)
(** * SparseWin: the sparse GPA window of [src/qemu/nvkvm_mmap_host.c]

    One large window of guest-physical address space, backed by one host VA
    reservation and one KVM memslot, from which every GPU mapping takes an
    extent.  Modelled: the window's set-up ([nvkvm_sparse_init],
    [nvkvm_sparse_ensure], [nvkvm_sparse_fini]), the best-fit / bump allocator
    ([nvkvm_sparse_gpa_alloc], [nvkvm_sparse_gpa_release]), the quarantine FIFO
    in front of the free ([nvkvm_sparse_gpa_free], [nvkvm_gpa_quar_purge]), the
    bounds check [nvkvm_gpa_to_vmm_va] and the legacy bump window [alloc_gpa]. *)
From S2P Require Import Prelude Extents KvmSlots GpaLayout.

Module SparseWin.
Import KvmSlots GpaLayout.

Definition NVKVM_GPA_FREE_MAX : Z := 16384.

(** The sparse-window fields of [VirtIONvgpu].  [sw_vmm_va] is 0 before
    [nvkvm_sparse_init]; [sw_free_ptr] says the free-list array is allocated,
    [sw_free] lists its [sparse_free_n] entries; [sw_bar] is the
    [window_base_get] callback ([None]: no BAR transport) with the base it
    currently answers. *)
Record sparse := Sparse {
  sw_gpa : nvkvm_gpa_layout;
  sw_bar : option Z;
  sw_vmm_va : Z;
  sw_base : Z;
  sw_size : Z;
  sw_cur : Z;
  sw_slot : Z;
  sw_free_ptr : bool;
  sw_free : list ext
}.

Definition set_alloc (s : sparse) (cur : Z) (fr : list ext) : sparse :=
  Sparse (sw_gpa s) (sw_bar s) (sw_vmm_va s) (sw_base s) (sw_size s) cur
         (sw_slot s) (sw_free_ptr s) fr.

(** [va] is what [mmap] returned ([None]: MAP_FAILED with [errno]). *)
Definition nvkvm_sparse_init (s : sparse) (va : option Z) (errno : Z) : sparse * Z :=
  if negb (sw_vmm_va s =? 0) then (s, 0)
  else
    let win := if sparse_size (sw_gpa s) =? 0 then NVKVM_SPARSE_GPA_SIZE
               else sparse_size (sw_gpa s) in
    match va with
    | None => (s, - errno)
    | Some v => (Sparse (sw_gpa s) (sw_bar s) v 0 win 0 (-1) true [], 0)
    end.

(** The three corrections [nvkvm_sparse_ensure] applies to the base firmware
    gave the BAR: not below the top of guest RAM, ... *)
Definition bar_above_ram (g : nvkvm_gpa_layout) (b : Z) : Z :=
  if b <? ram_top g then sparse_base g else b.

(** ... not over the shm and mmap regions, ... *)
Definition bar_clear_of_block (g : nvkvm_gpa_layout) (size b : Z) : Z :=
  if (b <? sparse_base g) && ((block_base g <=? b) || (block_base g ⊖ b <? size))
  then sparse_base g else b.

(** ... and not across the address-space limit. *)
Definition bar_below_limit (g : nvkvm_gpa_layout) (size b : Z) : Z :=
  if negb (limit g =? 0) && ((limit g <=? b) || (limit g ⊖ b <? size))
  then sparse_base g else b.

(** The base [nvkvm_sparse_ensure] settles on; 0 means "not programmed yet". *)
Definition ensure_base (s : sparse) : Z :=
  let g := sw_gpa s in
  match sw_bar s with
  | None => sparse_base g
  | Some b =>
      if b =? 0 then 0
      else bar_below_limit g (sw_size s)
             (bar_clear_of_block g (sw_size s) (bar_above_ram g b))
  end.

(** Returns the window base (0 on failure) and the new state; [kvm_fd] and
    [rc] are the VM fd and the answer of the memslot ioctl. *)
Definition nvkvm_sparse_ensure (kvm_fd rc : Z) (v : vm) (s : sparse) : vm * sparse * Z :=
  if sw_vmm_va s =? 0 then (v, s, 0)
  else if 0 <=? sw_slot s then (v, s, sw_base s)
  else
    let b := ensure_base s in
    if b =? 0 then (v, s, 0)
    else
      let '(v', ret, slot) := kvm_add_memory_region kvm_fd rc v b (sw_vmm_va s) (sw_size s) false in
      if negb (ret =? 0) then (v', s, 0)
      else
        (v', Sparse (sw_gpa s) (sw_bar s) (sw_vmm_va s) b (sw_size s) (sw_cur s)
                    (default (-1) slot) (sw_free_ptr s) (sw_free s), b).

Definition nvkvm_page_round_up (size : Z) : Z :=
  if UINT64_MAX - 4095 <? size then 0 else page_up size.

(** The allocation under [sparse_lock]: best fit, else bump. *)
Definition sparse_take (s : sparse) (size : Z) : sparse * option Z :=
  match (if sw_free_ptr s then best_fit size (e_len <$> sw_free s) else None) with
  | Some i =>
      (set_alloc s (sw_cur s) (carve (sw_free s) i size), Some (e_off (sw_free s !!! i)))
  | None =>
      let off := page_up (sw_cur s) in
      if sw_size s <? off ⊕ size then (s, None)
      else (set_alloc s (off ⊕ size) (sw_free s), Some off)
  end.

(** Returns the GPA, 0 on failure. *)
Definition nvkvm_sparse_gpa_alloc (kvm_fd rc : Z) (v : vm) (s : sparse) (size : Z)
    : vm * sparse * Z :=
  if sw_vmm_va s =? 0 then (v, s, 0)
  else
    let '(v1, s1, b) := nvkvm_sparse_ensure kvm_fd rc v s in
    if b =? 0 then (v1, s1, 0)
    else
      let size := nvkvm_page_round_up size in
      if size =? 0 then (v1, s1, 0)
      else
        let '(s2, o) := sparse_take s1 size in
        (v1, s2, match o with Some off => sw_base s2 ⊕ off | None => 0 end).

(** The loop that lowers the watermark over free extents that end at it.  Every
    round removes one free extent, so their number is enough fuel. *)
Fixpoint absorb (fuel : nat) (cur : Z) (fr : list ext) : Z * list ext :=
  match fuel with
  | O => (cur, fr)
  | S n =>
      match find_idx (fun e => e_off e ⊕ e_len e =? cur) fr with
      | Some i => absorb n (e_off (fr !!! i)) (swap_remove fr i)
      | None => (cur, fr)
      end
  end.

(** The free-list branch of the release: extend a neighbour, else append, else
    leak. *)
Definition free_insert (fr : list ext) (off size : Z) : list ext :=
  match find_idx (fun e => (e_off e ⊕ e_len e =? off) || (off ⊕ size =? e_off e)) fr with
  | Some i =>
      let e := fr !!! i in
      if e_off e ⊕ e_len e =? off then <[i := Ext (e_off e) (e_len e ⊕ size)]> fr
      else <[i := Ext off (e_len e ⊕ size)]> fr
  | None =>
      if Z.of_nat (length fr) <? NVKVM_GPA_FREE_MAX then fr ++ [Ext off size] else fr
  end.

Definition nvkvm_sparse_gpa_release (s : sparse) (gpa size : Z) : sparse :=
  if (sw_vmm_va s =? 0) || negb (sw_free_ptr s) then s
  else if gpa <? sw_base s then s
  else
    let off := gpa - sw_base s in
    let size := nvkvm_page_round_up size in
    if (size =? 0) || (sw_size s <? off ⊕ size) then s
    else if off ⊕ size =? sw_cur s then
      let '(cur, fr) := absorb (length (sw_free s)) off (sw_free s) in set_alloc s cur fr
    else set_alloc s (sw_cur s) (free_insert (sw_free s) off size).

(** Host VA of a window GPA, or [None] (NULL). *)
Definition nvkvm_gpa_to_vmm_va (s : sparse) (gpa size : Z) : option Z :=
  if sw_vmm_va s =? 0 then None
  else if gpa <? sw_base s then None
  else
    let off := gpa - sw_base s in
    if (sw_size s <=? off) || (sw_size s <? off ⊕ size) then None
    else Some (sw_vmm_va s + off).

(** ** The quarantine FIFO *)
Definition NVKVM_GPA_QUAR_MAX : Z := 64.
Definition NVKVM_GPA_QUAR_BYTES : Z := 67108864.

Record quar_ent := Quar { q_nv : Z; q_gpa : Z; q_len : Z }.

(** The devices by address ([nv] pointer), and the file-static quarantine. *)
Record gstate := GState {
  g_dev : gmap Z sparse;
  g_quar : list quar_ent;
  g_bytes : Z
}.

(** Pop entries while either cap is exceeded: what is drained, what stays. *)
Fixpoint quar_drain (q : list quar_ent) (bytes : Z) : list quar_ent * list quar_ent * Z :=
  match q with
  | [] => ([], [], bytes)
  | e :: r =>
      if (NVKVM_GPA_QUAR_MAX <? Z.of_nat (length q)) || (NVKVM_GPA_QUAR_BYTES <? bytes) then
        let '(d, q', b') := quar_drain r (bytes ⊖ q_len e) in (e :: d, q', b')
      else ([], q, bytes)
  end.

Definition release_ent (devs : gmap Z sparse) (e : quar_ent) : gmap Z sparse :=
  match devs !! q_nv e with
  | Some s => <[q_nv e := nvkvm_sparse_gpa_release s (q_gpa e) (q_len e)]> devs
  | None => devs
  end.

Definition nvkvm_sparse_gpa_free (g : gstate) (nv gpa size : Z) : gstate :=
  if (nv =? 0) || (size =? 0) then g
  else
    let size := nvkvm_page_round_up size in
    if size =? 0 then g
    else
      let '(d, q, b) := quar_drain (g_quar g ++ [Quar nv gpa size]) (g_bytes g ⊕ size) in
      GState (fold_left release_ent d (g_dev g)) q b.

Fixpoint quar_purge_list (nv : Z) (q : list quar_ent) (bytes : Z) : list quar_ent * Z :=
  match q with
  | [] => ([], bytes)
  | e :: r =>
      if negb (q_nv e =? nv) then
        let '(r', b') := quar_purge_list nv r bytes in (e :: r', b')
      else quar_purge_list nv r (bytes ⊖ q_len e)
  end.

Definition nvkvm_gpa_quar_purge (g : gstate) (nv : Z) : gstate :=
  let '(q, b) := quar_purge_list nv (g_quar g) (g_bytes g) in GState (g_dev g) q b.

Definition nvkvm_sparse_fini (kvm_fd : Z) (v : vm) (g : gstate) (nv : Z) : vm * gstate :=
  let g := nvkvm_gpa_quar_purge g nv in
  match g_dev g !! nv with
  | None => (v, g)
  | Some s =>
      if sw_vmm_va s =? 0 then (v, g)
      else
        let v' := if 0 <=? sw_slot s then kvm_remove_memory_region kvm_fd v (sw_slot s) else v in
        (v', GState (<[nv := Sparse (sw_gpa s) (sw_bar s) 0 (sw_base s) (sw_size s) (sw_cur s)
                               (sw_slot s) false []]> (g_dev g)) (g_quar g) (g_bytes g))
  end.

(** ** The legacy bump window *)
Record mmap_win := MmapWin { mw_gpa : Z; mw_size : Z; mw_cur : Z }.

(** Returns the GPA, 0 when exhausted; the aligned cursor is kept either way. *)
Definition alloc_gpa (w : mmap_win) (length : Z) : mmap_win * Z :=
  let align := if 2097152 <=? length then 2097152 else 4096 in
  let cur := u64 (mw_cur w + align - 1) & not64 (align - 1) in
  if mw_size w <? cur ⊕ length then (MmapWin (mw_gpa w) (mw_size w) cur, 0)
  else (MmapWin (mw_gpa w) (mw_size w) (cur ⊕ length), mw_gpa w ⊕ cur).

(** ** The allocator's invariant

    [L] are the extents handed out and not yet given back (held by callers or
    by the quarantine). *)
Record sp_inv (s : sparse) (L : list ext) : Prop := {
  si_va : sw_vmm_va s <> 0;
  si_ptr : sw_free_ptr s = true;
  si_base : 0 < sw_base s;
  si_size : 0 <= sw_size s <= 2 ^ 62;
  si_top : sw_base s + sw_size s < W64;
  si_cur : 0 <= sw_cur s <= sw_size s;
  si_page : sw_cur s mod 4096 = 0;
  si_exts : wf_exts (sw_cur s) (L ++ sw_free s)
}.

Lemma sp_inv_perm s L1 L2 : Permutation L1 L2 -> sp_inv s L1 -> sp_inv s L2.
Proof. intros HP []. split; auto. by rewrite <- HP. Qed.

#[export] Instance sp_inv_proper s : Proper (Permutation ==> iff) (sp_inv s).
Proof. intros L1 L2 HP. split; apply sp_inv_perm; [done|by symmetry]. Qed.

Lemma sp_inv_set s L cur fr :
  sp_inv s L -> 0 <= cur <= sw_size s -> cur mod 4096 = 0 ->
  forall L', wf_exts cur (L' ++ fr) -> sp_inv (set_alloc s cur fr) L'.
Proof. intros [] ? ? L' ?. split; simpl; auto. Qed.

Lemma round_up_spec n :
  0 < n < W64 ->
  nvkvm_page_round_up n = 0 \/
  (nvkvm_page_round_up n = page_up n /\ n <= page_up n < n + 4096 /\
   page_up n mod 4096 = 0 /\ page_up n < W64).
Proof.
  intros Hn. unfold nvkvm_page_round_up. case_if; [auto|].
  destruct (page_up_spec n) as (? & [(?&?&?)|(?&?)]); [lia|right; auto|].
  unfold UINT64_MAX in *. zb. lia.
Qed.

Lemma sparse_take_spec s L size s' r :
  sp_inv s L -> 0 < size < 2 ^ 63 + 4096 -> size mod 4096 = 0 ->
  sparse_take s size = (s', r) ->
  sw_size s' = sw_size s /\ sw_base s' = sw_base s /\
  match r with
  | Some off => sp_inv s' (Ext off size :: L)
  | None => s' = s /\ Forall (fun e => e_len e < size) (sw_free s) /\
            sw_size s < sw_cur s + size
  end.
Proof.
  intros Hinv Hs Hm. unfold sparse_take. rewrite (si_ptr _ _ Hinv).
  destruct (best_fit size (e_len <$> sw_free s)) as [i|] eqn:Eb.
  - apply best_fit_Some in Eb as (b & Hb & Hle). rewrite list_lookup_fmap in Hb.
    destruct (sw_free s !! i) as [e|] eqn:Ei; simpl in Hb; [injection Hb as <-|done].
    rewrite (list_lookup_total_correct _ _ _ Ei). intros [=<- <-]. simpl.
    split_and!; auto. pose proof Hinv as [_ _ _ Hsz _ Hc Hp Hw].
    eapply sp_inv_set; eauto. apply (carve_wf _ _ _ _ _ _ Ei); auto; lia.
  - pose proof Hinv as [_ _ _ Hsz _ Hc Hp Hw].
    rewrite page_up_id by lia. rewrite (u64_small (sw_cur s + size)) by lia.
    case_if; zb; intros [=<- <-].
    + split_and!; auto. apply best_fit_None in Eb. by rewrite Forall_fmap in Eb.
    + simpl. split_and!; auto. eapply sp_inv_set; eauto; [lia|Z.div_mod_to_equations; lia|].
      simpl. apply wf_bump; auto; lia.
Qed.

(** The watermark absorbs free extents without losing or overlapping any. *)
Lemma absorb_spec fuel cur fr L cur' fr' :
  absorb fuel cur fr = (cur', fr') -> cur <= 2 ^ 62 -> wf_exts cur (L ++ fr) ->
  0 <= cur -> cur mod 4096 = 0 ->
  0 <= cur' <= cur /\ cur' mod 4096 = 0 /\ wf_exts cur' (L ++ fr').
Proof.
  revert cur fr. induction fuel as [|n IH]; intros cur fr; simpl.
  { intros [=<- <-]. auto with lia. }
  destruct (find_idx _ fr) as [i|] eqn:Ef; [|intros [=<- <-]; auto with lia].
  apply find_idx_Some in Ef as (e & Ei & He & _). rewrite (list_lookup_total_correct _ _ _ Ei).
  intros Ha Hc Hw H0 Hm. rewrite (free_pull _ _ _ _ Ei) in Hw.
  pose proof (wf_head _ _ _ Hw) as (?&?&?&?&?). rewrite u64_small in He by lia. zb.
  destruct e as [o k]. simpl in *.
  rewrite <- (swap_remove_delete _ _ _ Ei) in Hw. apply wf_lower in Hw; [|done].
  destruct (IH _ _ Ha) as (?&?&?); auto; try lia. split_and!; auto; lia.
Qed.

Lemma free_insert_spec cur L fr off size :
  cur <= 2 ^ 62 -> wf_exts cur ((Ext off size :: L) ++ fr) ->
  wf_exts cur (L ++ free_insert fr off size).
Proof.
  intros Hc Hw. simpl in Hw. pose proof (wf_head _ _ _ Hw) as (?&?&?&?&?). simpl in *.
  unfold free_insert. destruct (find_idx _ fr) as [i|] eqn:Ef.
  - apply find_idx_Some in Ef as (e & Ei & He & _). rewrite (list_lookup_total_correct _ _ _ Ei).
    rewrite (free_pull _ _ _ _ Ei) in Hw. destruct e as [o n]. simpl in *.
    pose proof (wf_head _ _ _ (wf_drop _ _ _ Hw)) as (?&?&?&?&?). simpl in *.
    rewrite !u64_small in * by lia. case_if; rewrite (insert_Permutation _ _ _ _ Ei), <- Permutation_middle.
    + zb; subst; apply wf_merge; by rewrite Permutation_swap.
    + zb; [lia|]. subst o. rewrite Z.add_comm. by apply wf_merge.
  - apply wf_drop in Hw as Hw'. case_if; [|done].
    by rewrite app_assoc, Permutation_app_comm.
Qed.

Lemma sparse_release_spec s L off n :
  sp_inv s (Ext off (page_up n) :: L) -> 0 < n < W64 ->
  let s' := nvkvm_sparse_gpa_release s (sw_base s + off) n in
  sp_inv s' L /\ sw_size s' = sw_size s /\ sw_base s' = sw_base s.
Proof.
  intros Hinv Hn. pose proof Hinv as [Hva Hptr Hb Hsz Ht Hc Hp Hw].
  pose proof (wf_head _ _ _ Hw) as (?&?&?&?&?). simpl in *.
  unfold nvkvm_sparse_gpa_release.
  rewrite Hptr, (proj2 (Z.eqb_neq _ _) Hva), (proj2 (Z.ltb_ge _ _)) by lia. simpl.
  replace (sw_base s + off - sw_base s) with off by lia.
  destruct (round_up_spec n) as [Hz|(-> & Hle & Hmod & Hlt)]; [lia| |].
  { exfalso. unfold nvkvm_page_round_up, UINT64_MAX in Hz. revert Hz. case_if; [|lia].
    zb. rewrite page_up_wrap in * by lia. lia. }
  rewrite (proj2 (Z.eqb_neq _ _)), (u64_small (off + page_up n)), (proj2 (Z.ltb_ge _ _)) by lia.
  simpl. case_if; zb.
  - destruct (absorb (length (sw_free s)) off (sw_free s)) as [cur' fr'] eqn:Ea.
    split_and!; auto. apply wf_lower in Hw; [|done].
    apply (absorb_spec _ _ _ L) in Ea as (?&?&?); auto; try lia.
    by eapply sp_inv_set; eauto; lia.
  - split_and!; auto. eapply sp_inv_set; eauto. apply free_insert_spec; auto; lia.
Qed.

#[export] Program Instance sparse_alloc : ExtAlloc sparse := {
  ea_alloc s n :=
    let size := nvkvm_page_round_up n in
    if size =? 0 then (s, None) else sparse_take s size;
  ea_grant := page_up;
  ea_release s o n := nvkvm_sparse_gpa_release s (sw_base s + o) n;
  ea_size := sw_size;
  ea_inv := sp_inv;
  ea_inv_perm := sp_inv_perm
}.
Next Obligation.
  intros s live [Hva Hptr Hb Hsz Ht Hc Hp [Hd Hi _]]. simpl.
  apply all_disj_app in Hd as (? & _). apply Forall_app in Hi as [Hi _].
  split; [done|]. eapply Forall_ext_in_weaken; [|exact Hi]. lia.
Qed.
Next Obligation.
  intros s live n s' o Hinv Hn. simpl. destruct (decide (n = 0)) as [->|]; [by intros [=]|].
  destruct (round_up_spec n) as [-> | (-> & Hle & Hmod & Hlt)]; [lia|done|].
  rewrite (proj2 (Z.eqb_neq _ _)) by lia. intros Ht.
  destruct (sparse_take_spec _ _ (page_up n) _ _ Hinv ltac:(lia) Hmod Ht) as (? & ? & ?). auto with lia.
Qed.
Next Obligation.
  intros s live n s' Hinv Hn. simpl. destruct (decide (n = 0)) as [->|]; [by intros [=<-]|].
  destruct (round_up_spec n) as [-> | (-> & Hle & Hmod & Hlt)]; [lia|by intros [=<-]|].
  rewrite (proj2 (Z.eqb_neq _ _)) by lia. intros Ht.
  destruct (sparse_take_spec _ _ (page_up n) _ _ Hinv ltac:(lia) Hmod Ht) as (? & ? & -> & _). auto.
Qed.
Next Obligation.
  intros s live o n Hinv Hn. simpl.
  destruct (sparse_release_spec s live o n Hinv ltac:(lia)) as (? & ? & _). auto.
Qed.

(** ** The window's base *)

(** Everything [nvkvm_sparse_ensure] can settle on is a safe place for the raw
    memslot: it shadows neither guest RAM nor the shm and mmap regions, and it
    stays below the address-space limit. *)
Definition base_safe (g : nvkvm_gpa_layout) (size b : Z) : Prop :=
  ram_top g <= b /\ b + size <= limit g /\
  (b + size <= block_base g \/ sparse_base g <= b).

Lemma ensure_base_safe s :
  layout_ok (sw_gpa s) -> 32 <= bits (sw_gpa s) <= 52 -> 0 <= ram_top (sw_gpa s) ->
  sw_size s = sparse_size (sw_gpa s) ->
  (forall b, sw_bar s = Some b -> 0 <= b < W64) ->
  ensure_base s = 0 /\ sw_bar s = Some 0 \/
  0 < ensure_base s /\ base_safe (sw_gpa s) (sw_size s) (ensure_base s).
Proof.
  intros (Hsz & H1 & H2 & Hm & H3 & H4 & H5 & H6 & H7 & H8) Hbits Hrt Hs Hbar.
  apply sparse_sizes_inv in Hsz. unfold ensure_base, base_safe. rewrite Hs.
  assert (limit (sw_gpa s) <= 2 ^ 52) as Hlim by (rewrite H8; apply Z.pow_le_mono_r; lia).
  assert (0 <= limit (sw_gpa s)) as Hlim0 by (rewrite H8; apply Z.pow_nonneg; lia).
  assert (0 <= limit (sw_gpa s) / 8) by (apply Z.div_pos; lia).
  unfold NVKVM_SHM_GPA_SLOT, NVKVM_MMAP_WIN_SIZE, GiB in *.
  destruct (sw_bar s) as [b|]; [|right; lia]. specialize (Hbar b eq_refl).
  destruct (Z.eqb_spec b 0) as [->|]; [auto|]. right.
  set (sb := sparse_base (sw_gpa s)) in *.
  set (b1 := bar_above_ram (sw_gpa s) b).
  assert (b1 = sb \/ b1 = b /\ ram_top (sw_gpa s) <= b) as Hb1
    by (unfold b1, bar_above_ram; case_if; zb; auto).
  set (b2 := bar_clear_of_block (sw_gpa s) (sparse_size (sw_gpa s)) b1).
  assert (b2 = sb \/ b2 = b /\ ram_top (sw_gpa s) <= b /\
          (b + sparse_size (sw_gpa s) <= block_base (sw_gpa s) \/ sb <= b)) as Hb2.
  { unfold b2, bar_clear_of_block. fold sb.
    destruct Hb1 as [-> | [-> Hge]]; case_if; auto. right. split_and!; auto.
    destruct (Z.le_gt_cases sb b); [auto|left].
    rewrite (proj2 (Z.ltb_lt b sb)) in E by done. simpl in E.
    apply orb_false_iff in E as [E1 E2]. zb. rewrite u64_small in E2 by lia. lia. }
  unfold bar_below_limit. fold sb. case_if; [lia|].
  rewrite (proj2 (Z.eqb_neq (limit (sw_gpa s)) 0)) in E by lia. simpl in E.
  apply orb_false_iff in E as [E1 E2]. zb.
  rewrite u64_small in E2 by lia. lia.
Qed.

(** A window set up by [nvkvm_sparse_init] and [nvkvm_sparse_ensure] starts
    with nothing live. *)
Lemma sparse_fresh_inv g bar va kfd rc v s0 s v' b :
  layout_ok g -> 32 <= bits g <= 52 -> 0 <= ram_top g -> (forall x, bar = Some x -> 0 <= x < W64) ->
  va <> 0 ->
  nvkvm_sparse_init (Sparse g bar 0 0 0 0 (-1) false []) (Some va) 0 = (s0, 0) ->
  nvkvm_sparse_ensure kfd rc v s0 = (v', s, b) -> b <> 0 ->
  sp_inv s [] /\ base_safe g (sw_size s) b /\ sw_base s = b /\ sw_size s = sparse_size g.
Proof.
  intros Hg Hbits Hrt Hbar Hva Hi He Hb. unfold nvkvm_sparse_init in Hi. simpl in Hi.
  pose proof Hg as (Hsz & _). apply sparse_sizes_inv in Hsz.
  rewrite (proj2 (Z.eqb_neq (sparse_size g) 0)) in Hi by lia. injection Hi as <-.
  unfold nvkvm_sparse_ensure in He. simpl in He. rewrite (proj2 (Z.eqb_neq _ _) Hva) in He.
  set (s1 := Sparse g bar va 0 (sparse_size g) 0 (-1) true []) in *.
  destruct (ensure_base_safe s1 Hg Hbits Hrt eq_refl Hbar) as [[H0 _]|[Hpos Hsafe]].
  { rewrite H0 in He. simpl in He. congruence. }
  rewrite (proj2 (Z.eqb_neq (ensure_base s1) 0)) in He by lia.
  destruct (kvm_add_memory_region _ _ _ _ _ _ _) as [[v1 ret] slot].
  destruct (ret =? 0); simpl in He; [|congruence]. injection He as <- <- <-. simpl in *.
  assert (limit g <= 2 ^ 52).
  { destruct Hg as (_ & _ & _ & _ & _ & _ & _ & _ & _ & ->). apply Z.pow_le_mono_r; lia. }
  split_and!; auto. destruct Hsafe as (? & ? & _). simpl in *.
  split; simpl; auto; try lia. split; constructor.
Qed.

(** ** The quarantine *)
Definition quar_sum (q : list quar_ent) : Z := foldr (fun e n => q_len e + n) 0 q.
Definition quar_pos (q : list quar_ent) : Prop := Forall (fun e => 0 < q_len e) q.

Lemma quar_sum_nonneg q : quar_pos q -> 0 <= quar_sum q.
Proof. induction 1; simpl; lia. Qed.

(** Draining is FIFO, conserves the byte count, and stops under both caps. *)
Lemma quar_drain_spec q bytes d q' b' :
  quar_pos q -> bytes = quar_sum q -> quar_sum q < W64 ->
  quar_drain q bytes = (d, q', b') ->
  d ++ q' = q /\ b' = quar_sum q' /\
  Z.of_nat (length q') <= NVKVM_GPA_QUAR_MAX /\ b' <= NVKVM_GPA_QUAR_BYTES.
Proof.
  intros Hp. revert bytes d. induction Hp as [|e r He Hp IH]; intros bytes d Hb Hlt; cbn [quar_drain].
  { intros [=<- <- <-]. subst. unfold NVKVM_GPA_QUAR_MAX, NVKVM_GPA_QUAR_BYTES. simpl. auto with lia. }
  pose proof (quar_sum_nonneg _ Hp). simpl in Hb, Hlt. case_if.
  - destruct (quar_drain r (bytes ⊖ q_len e)) as [[d1 q1] b1] eqn:Ed.
    intros [=<- <- <-]. rewrite u64_small in Ed by lia.
    destruct (IH (bytes - q_len e) d1 ltac:(lia) ltac:(lia) Ed) as (<- & ? & ? & ?). auto.
  - intros [=<- <- <-]. apply orb_false_iff in E as [E1 E2]. zb. auto.
Qed.

(** The extents of device [d] that sit in the quarantine, as window offsets. *)
Definition dev_quar (d : Z) (s : sparse) (q : list quar_ent) : list ext :=
  (fun e => Ext (q_gpa e - sw_base s) (q_len e)) <$> filter (fun e => q_nv e = d) q.

(** Every device's live and quarantined extents are disjoint extents of its
    allocator; a quarantined extent is not on the free list. *)
Record g_inv (devs : gmap Z sparse) (q : list quar_ent) (live : Z -> list ext) : Prop := {
  gi_dev d s : devs !! d = Some s -> sp_inv s (live d ++ dev_quar d s q);
  gi_quar : Forall (fun e => is_Some (devs !! q_nv e) /\ 0 < q_len e < W64 /\ q_len e mod 4096 = 0) q
}.

Lemma dev_quar_cons_eq d s e q :
  q_nv e = d -> dev_quar d s (e :: q) = Ext (q_gpa e - sw_base s) (q_len e) :: dev_quar d s q.
Proof. intros. unfold dev_quar. by rewrite filter_cons_True. Qed.
Lemma dev_quar_cons_ne d s e q : q_nv e <> d -> dev_quar d s (e :: q) = dev_quar d s q.
Proof. intros. unfold dev_quar. by rewrite filter_cons_False. Qed.

Lemma dev_quar_base d s s' q : sw_base s' = sw_base s -> dev_quar d s' q = dev_quar d s q.
Proof. unfold dev_quar. by intros ->. Qed.

Lemma release_ent_inv devs e q live :
  g_inv devs (e :: q) live -> g_inv (release_ent devs e) q live.
Proof.
  intros [Hd Hq]. apply Forall_cons in Hq as [([s Hs] & Hl & Hm) Hq].
  unfold release_ent. rewrite Hs. pose proof (Hd _ _ Hs) as Hi.
  rewrite dev_quar_cons_eq in Hi by done.
  apply (sp_inv_perm _ _ (Ext (q_gpa e - sw_base s) (page_up (q_len e)) ::
           live (q_nv e) ++ dev_quar (q_nv e) s q)) in Hi;
    [|rewrite page_up_id by (auto; lia); by rewrite Permutation_middle].
  apply sparse_release_spec in Hi as (Hi & _ & Hb); [|lia].
  replace (sw_base s + (q_gpa e - sw_base s)) with (q_gpa e) in * by lia.
  split.
  - intros d s' Hs'. destruct (decide (q_nv e = d)) as [<-|Hne].
    + rewrite lookup_insert_eq in Hs'. injection Hs' as <-. by rewrite (dev_quar_base _ s).
    + rewrite lookup_insert_ne in Hs' by done. rewrite <- (dev_quar_cons_ne _ _ e) by done. auto.
  - eapply Forall_impl; [exact Hq|]. intros x ([y Hy] & ? & ?). split_and!; auto; try lia.
    destruct (decide (q_nv e = q_nv x)) as [<-|];
      [rewrite lookup_insert_eq|rewrite lookup_insert_ne]; eauto.
Qed.

Lemma release_all_inv d devs q live :
  g_inv devs (d ++ q) live -> g_inv (fold_left release_ent d devs) q live.
Proof.
  revert devs. induction d as [|e d IH]; intros devs; simpl; [done|].
  intros H. by apply IH, release_ent_inv.
Qed.

(** The byte counter and the caps between calls. *)
Record quar_ok (g : gstate) : Prop := {
  qo_pos : quar_pos (g_quar g);
  qo_bytes : g_bytes g = quar_sum (g_quar g);
  qo_cap : g_bytes g <= NVKVM_GPA_QUAR_BYTES;
  qo_len : Z.of_nat (length (g_quar g)) <= NVKVM_GPA_QUAR_MAX
}.

Lemma quar_sum_app q1 q2 : quar_sum (q1 ++ q2) = quar_sum q1 + quar_sum q2.
Proof. induction q1; simpl; lia. Qed.

Definition upd (f : Z -> list ext) (d : Z) (v : list ext) : Z -> list ext :=
  fun x => if x =? d then v else f x.

(** Enqueuing the freed extent moves it from the holder to the quarantine. *)
Lemma enqueue_inv devs q live nv s off n L :
  g_inv devs q live -> devs !! nv = Some s ->
  Permutation (live nv) (Ext off (page_up n) :: L) ->
  0 < page_up n < W64 -> page_up n mod 4096 = 0 ->
  g_inv devs (q ++ [Quar nv (sw_base s + off) (page_up n)]) (upd live nv L).
Proof.
  intros [Hd Hq] Hs HP Hn Hm. split.
  - intros d s' Hs'. specialize (Hd _ _ Hs'). unfold upd, dev_quar in *.
    rewrite filter_app, fmap_app.
    destruct (Z.eqb_spec d nv) as [->|Hne].
    + assert (s' = s) as -> by congruence.
      rewrite filter_cons_True, filter_nil by done. simpl.
      eapply sp_inv_perm; [|exact Hd]. rewrite HP.
      replace (sw_base s + off - sw_base s) with off by lia.
      rewrite app_assoc, (Permutation_app_comm _ [_]). done.
    + rewrite filter_cons_False, filter_nil by done. simpl. by rewrite app_nil_r.
  - apply Forall_app. split; [done|]. repeat constructor; simpl; eauto; lia.
Qed.

Lemma gpa_free_spec g live nv s off n L :
  g_inv (g_dev g) (g_quar g) live -> quar_ok g ->
  nv <> 0 -> g_dev g !! nv = Some s -> 0 < n < W64 ->
  Permutation (live nv) (Ext off (page_up n) :: L) ->
  let g' := nvkvm_sparse_gpa_free g nv (sw_base s + off) n in
  g_inv (g_dev g') (g_quar g') (upd live nv L) /\ quar_ok g' /\
  (exists d, d ++ g_quar g' = g_quar g ++ [Quar nv (sw_base s + off) (page_up n)]).
Proof.
  intros Hg [Hp Hb Hc Hl] Hnv Hs Hn HP. unfold nvkvm_sparse_gpa_free.
  pose proof (gi_dev _ _ _ Hg _ _ Hs) as Hi. rewrite HP in Hi. simpl in Hi.
  pose proof (wf_head _ _ _ (si_exts _ _ Hi)) as (?&?&?&?&?). simpl in *.
  pose proof (si_cur _ _ Hi). pose proof (si_size _ _ Hi).
  rewrite (proj2 (Z.eqb_neq nv 0)), (proj2 (Z.eqb_neq n 0)) by lia. simpl.
  destruct (round_up_spec n) as [Hz|(-> & Hle & Hmod & Hlt)]; [lia| |].
  { exfalso. unfold nvkvm_page_round_up, UINT64_MAX in Hz. revert Hz. case_if; [|lia].
    zb. rewrite page_up_wrap in * by lia. lia. }
  rewrite (proj2 (Z.eqb_neq (page_up n) 0)) by lia.
  destruct (quar_drain _ _) as [[d q'] b'] eqn:Ed. simpl.
  pose proof (quar_sum_nonneg _ Hp). unfold NVKVM_GPA_QUAR_BYTES in Hc.
  rewrite u64_small in Ed by lia.
  apply quar_drain_spec in Ed as (Hdq & -> & Hl' & Hc').
  - split_and!; [|split; simpl; auto|by exists d].
    + apply release_all_inv. rewrite Hdq. by apply enqueue_inv.
    + assert (quar_pos (g_quar g ++ [Quar nv (sw_base s + off) (page_up n)])) as Hpa.
      { apply Forall_app. split; [done|]. repeat constructor. simpl. lia. }
      rewrite <- Hdq in Hpa. by apply Forall_app in Hpa as [_ ?].
  - apply Forall_app. split; [done|]. repeat constructor. simpl. lia.
  - rewrite quar_sum_app. simpl. lia.
  - rewrite quar_sum_app. simpl. lia.
Qed.

(** ** Theorems *)

(** The GPA an extent of the window sits at. *)
Definition gpa_of (b : Z) (e : ext) : ext := Ext (b + e_off e) (e_len e).

(** C2: once the window is set up at whatever base firmware programmed, any
    sequence of allocations of less than 2^63 bytes each, and of frees, keeps the
    extents in use pairwise disjoint, above the top of guest RAM, below the
    address-space limit, and off the shm and legacy mmap regions.  The callers ask for
    at most the window's size or 1 TiB; without the bound the allocator's own check
    wraps ([sparse_take_wraps]). *)
Theorem sparse_window_safe g bar va kfd rc v s0 s v' b cs s' h :
  layout_ok g -> 32 <= bits g <= 52 -> 0 <= ram_top g ->
  (forall x, bar = Some x -> 0 <= x < W64) -> va <> 0 ->
  nvkvm_sparse_init (Sparse g bar 0 0 0 0 (-1) false []) (Some va) 0 = (s0, 0) ->
  nvkvm_sparse_ensure kfd rc v s0 = (v', s, b) -> b <> 0 ->
  Forall acmd_ok cs -> arun (s, []) cs = (s', h) ->
  all_disj (held_ext <$> h) /\
  Forall (fun e =>
    ext_in (ram_top g) (limit g) (gpa_of b e) /\
    ext_disj (gpa_of b e) (Ext (block_base g) (sparse_base g - block_base g)))
    (held_ext <$> h).
Proof.
  intros Hg Hbits Hrt Hbar Hva Hi He Hb Hcs Hr.
  destruct (sparse_fresh_inv _ _ _ _ _ _ _ _ _ _ Hg Hbits Hrt Hbar Hva Hi He Hb)
    as (Hinv & (H1 & H2 & H3) & _ & _).
  assert (ea_inv s (held_ext (S := sparse) <$> [])) as Hi0 by exact Hinv.
  destruct (arun_safe cs s [] s' h Hi0 (Forall_nil_2 _) Hcs Hr) as [Hd Hin].
  split; [done|]. eapply Forall_impl; [exact Hin|].
  intros e. unfold ext_in, ext_disj, gpa_of, e_end; simpl. unfold e_end. lia.
Qed.

Definition demo_layout : nvkvm_gpa_layout :=
  match nvkvm_gpa_layout_compute 39 None 39 (nvkvm_guest_ram_top (Some (16 * GiB, 0))) with
  | Some (inl L) => L
  | _ => Layout 0 0 0 0 0 0 0 0 0 0 0 0 0 false
  end.

Definition demo_vm : vm := Vm pool_init ∅.

(** A guest whose firmware put the BAR at 64 GiB; two mappings, one freed. *)
Definition demo_init : sparse * Z :=
  nvkvm_sparse_init (Sparse demo_layout (Some 68719476736) 0 0 0 0 (-1) false []) (Some 4096) 0.
Definition demo_ensure : vm * sparse * Z := nvkvm_sparse_ensure 3 0 demo_vm (fst demo_init).
Definition demo_run : sparse * list (Z * Z) :=
  arun (snd (fst demo_ensure), []) [AGet 8192; AGet 4096; APut 1].

Lemma demo_layout_ok : layout_ok demo_layout.
Proof.
  unfold layout_ok. split_and!; try (vm_compute; congruence).
  apply list_elem_of_In. vm_compute. auto 10.
Qed.

Lemma sparse_window_safe_witness :
  length (snd demo_run) = 1%nat /\ all_disj (held_ext (S := sparse) <$> snd demo_run).
Proof.
  split; [vm_compute; reflexivity|].
  apply (sparse_window_safe demo_layout (Some 68719476736) 4096 3 0 demo_vm (fst demo_init)
    (snd (fst demo_ensure)) (fst (fst demo_ensure)) (snd demo_ensure)
    [AGet 8192; AGet 4096; APut 1] (fst demo_run) (snd demo_run) demo_layout_ok).
  - vm_compute. split; congruence.
  - vm_compute. congruence.
  - intros x [=<-]. lia.
  - lia.
  - vm_compute. reflexivity.
  - unfold demo_ensure. by destruct (nvkvm_sparse_ensure _ _ _ _) as [[? ?] ?].
  - vm_compute. congruence.
  - repeat constructor; lia.
  - unfold demo_run. by destruct (arun _ _).
Defined.

(** A freed window extent goes to the back of the quarantine FIFO and is not
    allocatable while it waits there; the FIFO drains oldest first, never holds
    more than 64 extents or 64 MiB, its byte counter is exact, and what it
    drains returns to the free list without overlapping any extent in use. *)
Theorem gpa_quarantine_sound g live nv s off n L :
  g_inv (g_dev g) (g_quar g) live -> quar_ok g ->
  nv <> 0 -> g_dev g !! nv = Some s -> 0 < n < W64 ->
  Permutation (live nv) (Ext off (page_up n) :: L) ->
  let g' := nvkvm_sparse_gpa_free g nv (sw_base s + off) n in
  g_inv (g_dev g') (g_quar g') (upd live nv L) /\ quar_ok g' /\
  (exists d, d ++ g_quar g' = g_quar g ++ [Quar nv (sw_base s + off) (page_up n)]).
Proof. apply gpa_free_spec. Qed.

(** One device with one 8 KiB extent live, freed. *)
Definition demo_live : sparse :=
  Sparse demo_layout None 4096 1048576 1073741824 8192 64 true [].
Definition demo_g : gstate := GState {[7 := demo_live]} [] 0.
Definition demo_owned (d : Z) : list ext := if d =? 7 then [Ext 0 8192] else [].

Lemma demo_g_inv : g_inv (g_dev demo_g) (g_quar demo_g) demo_owned.
Proof.
  split; [|constructor]. intros d s1. simpl. rewrite lookup_singleton_Some. intros [<- <-].
  split; simpl; try lia; try done. split; repeat constructor; unfold ext_in, e_end; simpl; lia.
Qed.

Lemma gpa_quarantine_sound_witness :
  g_quar (nvkvm_sparse_gpa_free demo_g 7 1048576 8000) = [Quar 7 1048576 8192] /\
  quar_ok (nvkvm_sparse_gpa_free demo_g 7 1048576 8000).
Proof.
  split; [vm_compute; reflexivity|].
  apply (gpa_quarantine_sound demo_g demo_owned 7 demo_live 0 8000 [] demo_g_inv).
  - split; unfold NVKVM_GPA_QUAR_BYTES, NVKVM_GPA_QUAR_MAX; simpl; try lia. constructor.
  - lia.
  - vm_compute. reflexivity.
  - lia.
  - vm_compute. reflexivity.
Defined.

(** On an installed window an allocation either returns the GPA of a
    page-rounded extent that is disjoint from every extent in use, or returns 0
    and changes nothing, and then neither a free extent nor the space above the
    watermark could have held the request. *)
Theorem sparse_gpa_alloc_spec kfd rc v s L n :
  sp_inv s L -> 0 <= sw_slot s -> 0 < n < REQ_MAX ->
  let '(v', s', gpa) := nvkvm_sparse_gpa_alloc kfd rc v s n in
  v' = v /\
  ((gpa = 0 /\ s' = s /\ Forall (fun e => e_len e < page_up n) (sw_free s) /\
    sw_size s < sw_cur s + page_up n) \/
   (exists off, gpa = sw_base s + off /\ sp_inv s' (Ext off (page_up n) :: L) /\
      n <= page_up n /\ off + page_up n <= sw_size s)).
Proof.
  intros Hinv Hslot Hn. unfold nvkvm_sparse_gpa_alloc, nvkvm_sparse_ensure.
  pose proof (si_va _ _ Hinv) as Hva. pose proof (si_base _ _ Hinv) as Hb.
  rewrite (proj2 (Z.eqb_neq _ _) Hva), (proj2 (Z.leb_le _ _) Hslot).
  rewrite (proj2 (Z.eqb_neq (sw_base s) 0)) by lia.
  destruct (round_up_spec n) as [Hz | (-> & Hle & Hmod & Hlt)]; [lia| |].
  { exfalso. revert Hz. unfold nvkvm_page_round_up, UINT64_MAX. case_if; zb; [lia|].
    destruct (page_up_spec n); lia. }
  rewrite (proj2 (Z.eqb_neq (page_up n) 0)) by lia.
  destruct (sparse_take s (page_up n)) as [s' o] eqn:Et.
  assert (0 < page_up n < 2 ^ 63 + 4096) as Hp by lia.
  destruct (sparse_take_spec _ _ _ _ _ Hinv Hp Hmod Et) as (Hsz & Hbs & Hr).
  split; [done|]. destruct o as [off|]; [|left; tauto]. right. exists off.
  destruct Hr as [_ _ _ Hsize Htop Hcur _ [_ Hin _]].
  apply Forall_inv in Hin. unfold ext_in, e_end in Hin. simpl in Hin.
  rewrite Hbs in *. rewrite u64_small by lia. split_and!; try lia.
  by destruct (sparse_take_spec _ _ _ _ _ Hinv Hp Hmod Et) as (_ & _ & ?).
Qed.

Lemma sparse_gpa_alloc_spec_witness :
  let '(_, s', gpa) := nvkvm_sparse_gpa_alloc 3 0 demo_vm demo_live 5000 in
  gpa = 1048576 + 8192 /\ sp_inv s' [Ext 8192 8192; Ext 0 8192].
Proof.
  assert (sp_inv demo_live [Ext 0 8192]) as Hi.
  { split; simpl; try lia; try done. split; repeat constructor; unfold ext_in, e_end; simpl; lia. }
  pose proof (sparse_gpa_alloc_spec 3 0 demo_vm demo_live [Ext 0 8192] 5000 Hi) as H.
  assert (nvkvm_sparse_gpa_alloc 3 0 demo_vm demo_live 5000 =
    (demo_vm, set_alloc demo_live 16384 [], 1056768)) as E by reflexivity.
  rewrite E in *. split; [reflexivity|].
  destruct H as (_ & [(? & _)|(off & Ho & Hinv & _)]); [simpl; lia|lia|lia|].
  simpl in Ho. replace off with 8192 in Hinv by lia. exact Hinv.
Defined.

(** The bump path checks [off + size > sparse_size] in 64 bits, so the sum can
    wrap although the round-up no longer does: with one page live, a request of
    2^64 - 4096 bytes succeeds, moves the watermark back to 0, and the next
    one-page request is given the live page again. *)
Definition demo_page : sparse :=
  Sparse demo_layout None 4096 1048576 1073741824 4096 64 true [].

Lemma sparse_take_wraps :
  sp_inv demo_page [Ext 0 4096] /\
  nvkvm_page_round_up (W64 - 4096) = W64 - 4096 /\
  let '(s', o) := sparse_take demo_page (W64 - 4096) in
  o = Some 4096 /\ sw_cur s' = 0 /\ snd (sparse_take s' 4096) = Some 0.
Proof.
  split; [|split; [vm_compute; reflexivity|]].
  - split; simpl; try lia; try done. split; repeat constructor; unfold ext_in, e_end; simpl; lia.
  - assert (sparse_take demo_page (W64 - 4096) =
      (Sparse demo_layout None 4096 1048576 1073741824 0 64 true [], Some 4096)) as ->
      by reflexivity.
    split_and!; reflexivity.
Qed.

End SparseWin.
