(* ===== verification/IsoWindow.v ===== *)
(** * IsoWindow: placing mappings inside an isolate's guest-mapping window

    Models [src/qemu/nvkvm_isolate_handlers.c]: [win_release_locked],
    [win_alloc_locked], [win_place_locked] with its contiguous runs, and the
    per-isolate table around them ([nvkvm_win_place], [nvkvm_win_unplace],
    [nvkvm_win_forget_isolate]).  Each function runs under [iso_win_lock], so it
    is one atomic state transformer.  The [UINT64_MAX] failure value of the
    allocator is [None]; the answer of the WINDOW_INFO round trip is an argument. *)
From S2P Require Import Prelude Extents.

Module IsoWindow.

Definition NVKVM_ISOLATE_MAX : Z := 4096.
Definition NVKVM_WIN_FREE_MAX : Z := 256.
Definition NVKVM_WIN_RUN_MAX : nat := 64.
Definition NVKVM_WIN_RUN_SPAN : Z := 2147483648.

Record nvkvm_win_run := Run {
  r_used : bool; r_gva_end : Z; r_next : Z; r_end : Z; r_seq : Z
}.
#[export] Instance run_inhabited : Inhabited nvkvm_win_run := populate (Run false 0 0 0 0).

Record nvkvm_iso_window := Win {
  w_probed : bool;
  w_base : Z; w_size : Z; w_cur : Z;
  w_free : list ext;             (* the first [free_n] entries *)
  w_run : list nvkvm_win_run;    (* all 64 *)
  w_run_seq : Z
}.

(** [g_new0]. *)
Definition win_new : nvkvm_iso_window :=
  Win false 0 0 0 [] (replicate NVKVM_WIN_RUN_MAX (Run false 0 0 0 0)) 0.

Definition set_fl (w : nvkvm_iso_window) (cur : Z) (fr : list ext) : nvkvm_iso_window :=
  Win (w_probed w) (w_base w) (w_size w) cur fr (w_run w) (w_run_seq w).
Definition set_runs (w : nvkvm_iso_window) (rs : list nvkvm_win_run) (seq : Z) : nvkvm_iso_window :=
  Win (w_probed w) (w_base w) (w_size w) (w_cur w) (w_free w) rs seq.

Definition win_release_locked (w : nvkvm_iso_window) (off len : Z) : nvkvm_iso_window :=
  if len =? 0 then w
  else if off ⊕ len =? w_cur w then set_fl w off (w_free w)
  else if Z.of_nat (length (w_free w)) <? NVKVM_WIN_FREE_MAX
  then set_fl w (w_cur w) (w_free w ++ [Ext off len])
  else w.                        (* leaked *)

Definition win_alloc_locked (w : nvkvm_iso_window) (len : Z) : nvkvm_iso_window * option Z :=
  if (len =? 0) || (w_size w <? len) then (w, None)
  else
    let len := page_up len in
    if len =? 0 then (w, None)
    else
      match best_fit len (e_len <$> w_free w) with
      | Some i => (set_fl w (w_cur w) (carve (w_free w) i len), Some (e_off (w_free w !!! i)))
      | None =>
          let off := page_up (w_cur w) in
          if (off <? w_cur w) || (w_size w ⊖ off <? len) then (w, None)
          else (set_fl w (off ⊕ len) (w_free w), Some off)
      end.

(** The run a [contig] placement continues. *)
Definition run_match (gva len : Z) (r : nvkvm_win_run) : bool :=
  r_used r && (r_gva_end r =? gva) && (len <=? r_end r ⊖ r_next r).

(** First index of the least [seq]: the [victim] loop when no slot is free. *)
Fixpoint min_seq_from (i best : nat) (bseq : Z) (rs : list nvkvm_win_run) : nat :=
  match rs with
  | [] => best
  | r :: rest =>
      if r_seq r <? bseq then min_seq_from (S i) i (r_seq r) rest
      else min_seq_from (S i) best bseq rest
  end.

Definition pick_victim (rs : list nvkvm_win_run) : nat :=
  match find_idx (fun r => negb (r_used r)) rs with
  | Some i => i
  | None => match rs with [] => O | r :: rest => min_seq_from 1 0 (r_seq r) rest end
  end.

(** Start a run: retire the victim's tail, reserve a span. *)
Definition run_start (w : nvkvm_iso_window) (len : Z) : nvkvm_iso_window * option nat :=
  let i := pick_victim (w_run w) in
  let r := w_run w !!! i in
  let w1 := if r_used r then win_release_locked w (r_next r) (r_end r ⊖ r_next r) else w in
  let span := if NVKVM_WIN_RUN_SPAN <? len then len else NVKVM_WIN_RUN_SPAN in
  match win_alloc_locked w1 span with
  | (w2, None) =>
      (set_runs w2 (<[i := Run false (r_gva_end r) (r_next r) (r_end r) (r_seq r)]> (w_run w2))
         (w_run_seq w2), None)
  | (w2, Some off) =>
      (set_runs w2 (<[i := Run true (r_gva_end r) off (off ⊕ span) (r_seq r)]> (w_run w2))
         (w_run_seq w2), Some i)
  end.

(** Take [len] bytes from run [i]. *)
Definition run_extend (w : nvkvm_iso_window) (i : nat) (gva len : Z) : nvkvm_iso_window * Z :=
  let r := w_run w !!! i in
  let next := r_next r ⊕ len in
  let seq := w_run_seq w ⊕ 1 in
  (set_runs w (<[i := Run (negb (r_end r <=? next)) (gva ⊕ len) next (r_end r) seq]> (w_run w)) seq,
   w_base w ⊕ r_next r).

(** Returns the window VA, 0 on failure. *)
Definition win_place_locked (w : nvkvm_iso_window) (gva len : Z) (contig : bool)
    : nvkvm_iso_window * Z :=
  if (w_base w =? 0) || (w_size w =? 0) || (len =? 0) then (w, 0)
  else
    let len := page_up len in
    if len =? 0 then (w, 0)
    else if contig && negb (gva =? 0) then
      match find_idx (run_match gva len) (w_run w) with
      | Some i => run_extend w i gva len
      | None =>
          match run_start w len with
          | (w1, Some i) => run_extend w1 i gva len
          | (w1, None) => (w1, 0)
          end
      end
    else
      match win_alloc_locked w len with
      | (w1, Some off) => (w1, w_base w1 ⊕ off)
      | (w1, None) => (w1, 0)
      end.

(** ** The per-isolate table *)
Abbreviation win_table := (gmap Z nvkvm_iso_window).

(** [info] is what [nvkvm_isolate_window_info] answers, [None] for an error. *)
Definition win_probe (info : option (Z * Z)) (w : nvkvm_iso_window) : nvkvm_iso_window :=
  if w_probed w then w
  else
    let '(b, n) := match info with Some p => p | None => (w_base w, w_size w) end in
    Win true b n (w_cur w) (w_free w) (w_run w) (w_run_seq w).

Definition nvkvm_win_place (info : option (Z * Z)) (t : win_table)
    (id gva len : Z) (contig : bool) : win_table * Z :=
  if (id =? 0) || (NVKVM_ISOLATE_MAX <=? id) || (len =? 0) then (t, 0)
  else
    let '(w, va) := win_place_locked (win_probe info (default win_new (t !! id))) gva len contig in
    (<[id := w]> t, va).

Definition nvkvm_win_unplace (t : win_table) (id va len : Z) : win_table :=
  if (id =? 0) || (NVKVM_ISOLATE_MAX <=? id) || (va =? 0) || (len =? 0) then t
  else
    match t !! id with
    | Some w =>
        if negb (w_base w =? 0) && (w_base w <=? va) && (va - w_base w <? w_size w)
        then <[id := win_release_locked w (va - w_base w) (page_up len)]> t
        else t
    | None => t
    end.

Definition nvkvm_win_forget_isolate (t : win_table) (id : Z) : win_table :=
  if (id =? 0) || (NVKVM_ISOLATE_MAX <=? id) then t else delete id t.

(** ** Invariant

    [fl_inv w L]: [L] are the extents somebody owns (live placements and the
    unused tails of runs); together with the free list they tile the window
    below [cur] without overlap. *)
Record fl_inv (w : nvkvm_iso_window) (L : list ext) : Prop := {
  fi_size : 0 <= w_size w < W64;
  fi_cur : 0 <= w_cur w <= w_size w;
  fi_page : w_cur w mod 4096 = 0;
  fi_exts : wf_exts (w_cur w) (L ++ w_free w)
}.

#[export] Instance fl_inv_perm w : Proper (Permutation ==> iff) (fl_inv w).
Proof.
  assert (forall L1 L2, Permutation L1 L2 -> fl_inv w L1 -> fl_inv w L2) as H.
  { intros L1 L2 HP []. split; auto. by rewrite <- HP. }
  intros L1 L2 HP. split; apply H; [done|by symmetry].
Qed.

Lemma win_alloc_spec w L len w' r :
  fl_inv w L -> 0 <= len < W64 -> win_alloc_locked w len = (w', r) ->
  w_base w' = w_base w /\ w_size w' = w_size w /\ w_run w' = w_run w /\
  w_run_seq w' = w_run_seq w /\ w_probed w' = w_probed w /\
  match r with
  | Some off => 0 < len <= page_up len /\ fl_inv w' (Ext off (page_up len) :: L)
  | None => w' = w
  end.
Proof.
  intros [Hs Hc Hp Hw] Hl. unfold win_alloc_locked.
  case_if; [intros [=<- <-]; by split_and!|]. zb.
  destruct (page_up_spec len) as (? & [(?&?&?)|(?& ->)]); [lia| |by intros [=<- <-]; split_and!].
  rewrite (proj2 (Z.eqb_neq (page_up len) 0)) by lia.
  destruct (best_fit _ _) as [i|] eqn:Eb.
  - apply best_fit_Some in Eb as (b & Hb & Hle). rewrite list_lookup_fmap in Hb.
    destruct (w_free w !! i) as [e|] eqn:Ei; simpl in Hb; [injection Hb as <-|done].
    rewrite (list_lookup_total_correct _ _ _ Ei). intros [=<- <-]. simpl. split_and!; auto; try lia.
    split; simpl; auto. apply (carve_wf _ _ _ _ _ _ Ei); auto; lia.
  - rewrite page_up_id by lia. rewrite u64_small by lia.
    case_if; intros [=<- <-]; [by split_and!|]. zb. simpl. split_and!; auto; try lia.
    split; simpl; rewrite ?u64_small by lia; auto; try lia.
    + Z.div_mod_to_equations; lia.
    + apply wf_bump; auto; lia.
Qed.

Lemma win_release_spec w L off len :
  fl_inv w (Ext off len :: L) ->
  let w' := win_release_locked w off len in
  w_base w' = w_base w /\ w_size w' = w_size w /\ w_run w' = w_run w /\
  w_run_seq w' = w_run_seq w /\ w_probed w' = w_probed w /\ fl_inv w' L.
Proof.
  intros [Hs Hc Hp Hw]. simpl in Hw. pose proof (wf_head _ _ _ Hw) as (?&?&?&?&?). simpl in *.
  unfold win_release_locked. rewrite (proj2 (Z.eqb_neq len 0)) by lia.
  rewrite u64_small by lia. case_if; zb; [|case_if]; simpl; split_and!; auto.
  - split; simpl; auto; [lia|]. by eapply wf_lower.
  - split; simpl; auto. by rewrite (assoc_L (++)), (Permutation_app_comm _ [_]).
  - split; simpl; auto. by eapply wf_drop.
Qed.

(** The unused tail of a run is owned by the run. *)
Definition tail (r : nvkvm_win_run) : list ext :=
  if r_used r then [Ext (r_next r) (r_end r - r_next r)] else [].
Definition tails (rs : list nvkvm_win_run) : list ext := rs ≫= tail.

Lemma tails_pull rs i r : rs !! i = Some r -> Permutation (tails rs) (tail r ++ tails (delete i rs)).
Proof. intros Hi. unfold tails. by rewrite (delete_Permutation _ _ _ Hi) at 1. Qed.

Lemma tails_set rs i r r' :
  rs !! i = Some r -> Permutation (tails (<[i := r']> rs)) (tail r' ++ tails (delete i rs)).
Proof. intros Hi. unfold tails. by rewrite (insert_Permutation _ _ _ r' Hi). Qed.

Record win_inv (w : nvkvm_iso_window) (L : list ext) : Prop := {
  wi_fl : fl_inv w (L ++ tails (w_run w));
  wi_len : length (w_run w) = NVKVM_WIN_RUN_MAX;
  wi_base : 0 <= w_base w /\ w_base w + w_size w <= W64
}.

#[export] Instance win_inv_perm w : Proper (Permutation ==> iff) (win_inv w).
Proof.
  assert (forall L1 L2, Permutation L1 L2 -> win_inv w L1 -> win_inv w L2) as H.
  { intros L1 L2 HP []. split; auto. by rewrite <- HP. }
  intros L1 L2 HP. split; apply H; [done|by symmetry].
Qed.

Lemma min_seq_from_lt i best b rs n :
  (best < n)%nat -> (i + length rs <= n)%nat -> (min_seq_from i best b rs < n)%nat.
Proof.
  revert i best b. induction rs as [|r rs IH]; intros i best b Hb Hi; simpl in *; [done|].
  case_if; apply IH; lia.
Qed.

Lemma pick_victim_lookup rs : rs <> [] -> exists r, rs !! pick_victim rs = Some r.
Proof.
  intros Hne. apply lookup_lt_is_Some_2. unfold pick_victim.
  destruct (find_idx _ rs) as [i|] eqn:E.
  - apply find_idx_Some in E as (x & Hx & _). by eapply lookup_lt_Some.
  - destruct rs; [done|]. apply min_seq_from_lt; simpl; lia.
Qed.

(** The retired victim: whatever it still owned went back to the free list. *)
Lemma run_retire w L i r :
  win_inv w L -> w_run w !! i = Some r ->
  let w1 := if r_used r then win_release_locked w (r_next r) (r_end r ⊖ r_next r) else w in
  fl_inv w1 (L ++ tails (delete i (w_run w))) /\ w_base w1 = w_base w /\ w_size w1 = w_size w /\
  w_run w1 = w_run w /\ w_run_seq w1 = w_run_seq w.
Proof.
  intros [Hf _ _] Hi. rewrite (tails_pull _ _ _ Hi) in Hf. unfold tail in Hf.
  destruct (r_used r) eqn:Eu; simpl in *; [|done].
  rewrite <- Permutation_middle in Hf.
  pose proof (wf_head _ _ _ (fi_exts _ _ Hf)) as (?&?&?&?&?). simpl in *.
  pose proof (fi_size _ _ Hf). pose proof (fi_cur _ _ Hf).
  rewrite u64_small by lia. destruct (win_release_spec _ _ _ _ Hf) as (?&?&?&?&?&?). auto.
Qed.

Lemma run_start_spec w L len w' o :
  win_inv w L -> 0 < len < W64 -> len mod 4096 = 0 -> run_start w len = (w', o) ->
  win_inv w' L /\ w_base w' = w_base w /\ w_size w' = w_size w /\
  match o with
  | Some i => exists r, w_run w' !! i = Some r /\ r_used r = true /\
      len <= r_end r - r_next r /\ (len <= NVKVM_WIN_RUN_SPAN -> r_end r - r_next r = NVKVM_WIN_RUN_SPAN) /\
      (forall j, j <> i -> w_run w' !! j = w_run w !! j)
  | None => True
  end.
Proof.
  intros Hinv Hl Hm. unfold run_start.
  destruct (pick_victim_lookup (w_run w)) as [r Hi].
  { intros Hn. pose proof (wi_len _ _ Hinv) as Hlen. by rewrite Hn in Hlen. }
  set (i := pick_victim (w_run w)) in *. rewrite (list_lookup_total_correct _ _ _ Hi).
  pose proof (run_retire _ _ _ _ Hinv Hi) as Hret. cbv zeta in Hret.
  set (w1 := if r_used r then _ else w) in *. destruct Hret as (Hf & Hb & Hs & Hr & Hq).
  set (span := if NVKVM_WIN_RUN_SPAN <? len then len else NVKVM_WIN_RUN_SPAN) in *.
  assert (len <= span < W64 /\ span mod 4096 = 0 /\
    (len <= NVKVM_WIN_RUN_SPAN -> span = NVKVM_WIN_RUN_SPAN)) as (Hsp & Hspm & Hspe).
  { unfold span, NVKVM_WIN_RUN_SPAN. case_if; zb; split_and!; auto; lia. }
  clearbody span.
  destruct (win_alloc_locked w1 span) as [w2 oo] eqn:Ea.
  assert (0 <= span < W64) as Hsp0 by lia.
  destruct (win_alloc_spec _ _ _ _ _ Hf Hsp0 Ea) as (Hb2 & Hs2 & Hr2 & Hq2 & _ & Hres).
  assert (forall x, fl_inv w2 (L ++ tails (<[i := x]> (w_run w2))) ->
    win_inv (set_runs w2 (<[i := x]> (w_run w2)) (w_run_seq w2)) L) as Hmk.
  { intros x [] . destruct Hinv as [_ Hlen Hbb]. split; simpl.
    - by split.
    - by rewrite length_insert, Hr2, Hr.
    - by rewrite Hb2, Hs2, Hb, Hs. }
  rewrite Hr2, Hr in *. destruct oo as [off|]; intros [=<- <-]; simpl; (split_and!; [apply Hmk| congruence..|]).
  - destruct Hres as [_ Hres]. rewrite page_up_id in Hres by lia.
    rewrite (tails_set _ _ _ _ Hi). unfold tail; simpl. rewrite <- Permutation_middle.
    pose proof (wf_head _ _ _ (fi_exts _ _ Hres)) as (?&?&?&?&?). simpl in *.
    pose proof (fi_size _ _ Hres). pose proof (fi_cur _ _ Hres).
    rewrite u64_small by lia. by replace (off + span - off) with span by lia.
  - destruct Hres as [_ Hres]. rewrite page_up_id in Hres by lia.
    pose proof (wf_head _ _ _ (fi_exts _ _ Hres)) as (?&?&?&?&?). simpl in *.
    pose proof (fi_size _ _ Hres). pose proof (fi_cur _ _ Hres).
    eexists. split; [apply list_lookup_insert_eq; by eapply lookup_lt_Some|]. simpl.
    rewrite u64_small by lia. split_and!; auto; try lia. intros. by apply list_lookup_insert_ne.
  - subst w2. by rewrite (tails_set _ _ _ _ Hi).
  - done.
Qed.

Lemma run_extend_spec w L i r gva len w' va :
  win_inv w L -> w_run w !! i = Some r -> r_used r = true ->
  0 < len <= r_end r - r_next r -> len mod 4096 = 0 -> run_extend w i gva len = (w', va) ->
  va = w_base w + r_next r /\ win_inv w' (Ext (r_next r) len :: L) /\
  w_base w' = w_base w /\ w_size w' = w_size w /\
  w_run w' = <[i := Run (negb (r_end r <=? r_next r + len)) (gva ⊕ len) (r_next r + len) (r_end r)
                    (w_run_seq w ⊕ 1)]> (w_run w).
Proof.
  intros [Hf Hlen Hb] Hi Hu Hl Hm. unfold run_extend.
  rewrite (list_lookup_total_correct _ _ _ Hi). rewrite (tails_pull _ _ _ Hi) in Hf.
  unfold tail in Hf at 1. rewrite Hu in Hf. simpl in Hf. rewrite <- Permutation_middle in Hf.
  pose proof (wf_head _ _ _ (fi_exts _ _ Hf)) as (?&?&?&?&?). simpl in *.
  pose proof (fi_size _ _ Hf). pose proof (fi_cur _ _ Hf).
  rewrite (u64_small (r_next r + len)), (u64_small (w_base w + r_next r)) by lia.
  intros [=<- <-]. split_and!; auto. split; simpl; [|by rewrite length_insert|done].
  destruct Hf as [Hz1 Hz2 Hz3 Hw]. split; simpl; auto. rewrite (tails_set _ _ _ _ Hi).
  unfold tail at 1; simpl. simpl in Hw.
  destruct (r_end r <=? r_next r + len) eqn:Ee; zb; simpl.
  - replace (r_end r - r_next r) with len in Hw by lia. done.
  - rewrite <- Permutation_middle. simpl.
    replace (r_end r - r_next r) with (len + (r_end r - (r_next r + len))) in Hw by lia.
    apply wf_split in Hw; auto; lia.
Qed.

(** Every placement either fails, leaving the live extents alone, or returns a
    window address whose page-rounded extent is added to them. *)
Lemma win_place_spec w L gva len contig w' va :
  win_inv w L -> 0 <= len < W64 -> win_place_locked w gva len contig = (w', va) ->
  w_base w' = w_base w /\ w_size w' = w_size w /\
  ((va = 0 /\ win_inv w' L) \/
   (w_base w <> 0 /\ w_base w <= va /\ 0 < len <= page_up len /\
    win_inv w' (Ext (va - w_base w) (page_up len) :: L))).
Proof.
  intros Hinv Hl. unfold win_place_locked. case_if; [intros [=<- <-]; auto|]. zb.
  destruct (page_up_spec len) as (Hpm & Hpu); [lia|]. case_if; [intros [=<- <-]; auto|]. zb.
  assert (0 < len <= page_up len /\ page_up len < W64 /\ page_up len mod 4096 = 0) as (Hle & Hlt & Hm)
    by (split_and!; auto; lia).
  assert (0 < page_up len) as Hp0 by lia.
  assert (forall i r w1, win_inv w1 L -> w_base w1 = w_base w -> w_size w1 = w_size w ->
    w_run w1 !! i = Some r -> r_used r = true -> page_up len <= r_end r - r_next r ->
    run_extend w1 i gva (page_up len) = (w', va) ->
    w_base w' = w_base w /\ w_size w' = w_size w /\ w_base w <= va /\
    win_inv w' (Ext (va - w_base w) (page_up len) :: L)) as Hext.
  { intros i r w1 Hw1 Hb1 Hs1 Hi Hu Hsp He.
    destruct (run_extend_spec _ _ _ _ _ _ _ _ Hw1 Hi Hu (conj Hp0 Hsp) Hm He)
      as (-> & Hw & ? & ? & _).
    pose proof (wf_head _ _ _ (fi_exts _ _ (wi_fl _ _ Hw))) as (?&_). simpl in *.
    rewrite Hb1. replace (w_base w + r_next r - w_base w) with (r_next r) by lia.
    split_and!; auto; try congruence. lia. }
  destruct (contig && negb (gva =? 0)).
  - destruct (find_idx (run_match gva (page_up len)) (w_run w)) as [i|] eqn:Ef.
    + apply find_idx_Some in Ef as (r & Hi & Hr & _). unfold run_match in Hr. zb. intros He.
      assert (r_used r = true) as Hu by done.
      pose proof (wi_fl _ _ Hinv) as Hf. rewrite (tails_pull _ _ _ Hi) in Hf. unfold tail in Hf.
      rewrite Hu in Hf. simpl in Hf. rewrite <- Permutation_middle in Hf.
      pose proof (wf_head _ _ _ (fi_exts _ _ Hf)) as (?&?&?&_). simpl in *.
      pose proof (fi_size _ _ Hf). pose proof (fi_cur _ _ Hf). rewrite u64_small in * by lia.
      destruct (Hext i r w Hinv eq_refl eq_refl Hi) as (?&?&?&?); auto. split_and!; auto.
    + destruct (run_start w (page_up len)) as [w1 o] eqn:Es.
      destruct (run_start_spec _ _ _ _ _ Hinv (conj Hp0 Hlt) Hm Es) as (Hw1 & Hb1 & Hs1 & Ho).
      destruct o as [i|]; [|intros [=<- <-]; auto]. intros He.
      destruct Ho as (r & Hi & Hu & Hsp & _ & _).
      destruct (Hext i r w1 Hw1 Hb1 Hs1 Hi Hu Hsp He) as (?&?&?&?). split_and!; auto.
  - destruct (win_alloc_locked w (page_up len)) as [w1 o] eqn:Ea. destruct Hinv as [Hf Hlen Hb].
    destruct (win_alloc_spec _ _ _ _ _ Hf (conj (Z.lt_le_incl _ _ Hp0) Hlt) Ea) as (Hb1 & Hs1 & Hr1 & _ & _ & Ho).
    destruct o as [off|]; intros [=<- <-]; (split_and!; auto).
    + right. destruct Ho as [_ Ho]. rewrite page_up_id in Ho by (auto; lia).
      pose proof (wf_head _ _ _ (fi_exts _ _ Ho)) as (?&?&?&_). simpl in *.
      pose proof (fi_size _ _ Ho). pose proof (fi_cur _ _ Ho).
      rewrite Hb1 in *. rewrite u64_small by lia.
      replace (w_base w + off - w_base w) with off by lia. split_and!; auto; try lia.
      split; rewrite ?Hr1, ?Hb1, ?Hs1; auto.
    + left. subst w1. split; [done|by split].
Qed.

Lemma win_release_inv w L off len :
  win_inv w (Ext off len :: L) ->
  w_base (win_release_locked w off len) = w_base w /\
  w_size (win_release_locked w off len) = w_size w /\ win_inv (win_release_locked w off len) L.
Proof.
  intros [Hf Hl Hb]. simpl in Hf. destruct (win_release_spec _ _ _ _ Hf) as (H1 & H2 & H3 & _ & _ & Hi).
  split_and!; auto. split; rewrite ?H3, ?H1, ?H2; auto.
Qed.

#[export] Program Instance win_alloc : ExtAlloc nvkvm_iso_window := {
  ea_alloc := win_alloc_locked;
  ea_grant := page_up;
  ea_release w o n := win_release_locked w o (page_up n);
  ea_size := w_size;
  ea_inv := fl_inv
}.
Next Obligation. intros w l1 l2 HP. by rewrite HP. Qed.
Next Obligation.
  intros w live [Hs Hc _ [Hd Hi _]]. apply all_disj_app in Hd as (? & _).
  apply Forall_app in Hi as [Hi _]. split; [done|]. eapply Forall_ext_in_weaken; [|exact Hi]. lia.
Qed.
Next Obligation.
  intros w live n w' o Hinv Hn Ha. assert (0 <= n < W64) as Hn' by lia.
  destruct (win_alloc_spec _ _ _ _ _ Hinv Hn' Ha) as (_ & ? & _ & _ & _ & ? & ?). auto with lia.
Qed.
Next Obligation.
  intros w live n w' Hinv Hn Ha. assert (0 <= n < W64) as Hn' by lia.
  destruct (win_alloc_spec _ _ _ _ _ Hinv Hn' Ha) as (_ & _ & _ & _ & _ & ->). auto.
Qed.
Next Obligation.
  intros w live o n Hinv Hn. destruct (win_release_spec _ _ _ _ Hinv) as (_ & ? & _ & _ & _ & ?). auto.
Qed.

(** ** Histories of the whole table *)
Inductive wop :=
| WPlace (id gva len : Z) (contig : bool) (info : option (Z * Z))
| WUnplace (k : nat)               (* of the [k]-th placement still held *)
| WForget (id : Z).

Record placed := Placed { p_id : Z; p_va : Z; p_len : Z }.

Definition wstep (st : win_table * list placed) (o : wop) : win_table * list placed :=
  let '(t, h) := st in
  match o with
  | WPlace id gva len contig info =>
      let '(t', va) := nvkvm_win_place info t id gva len contig in
      (t', if va =? 0 then h else Placed id va len :: h)
  | WUnplace k =>
      match h !! k with
      | Some p => (nvkvm_win_unplace t (p_id p) (p_va p) (p_len p), delete k h)
      | None => st
      end
  | WForget id => (nvkvm_win_forget_isolate t id, filter (fun p => p_id p <> id) h)
  end.

Definition wrun (ops : list wop) : win_table * list placed := fold_left wstep ops (∅, []).

(** Lengths, and the two words the stub answers, are [uint64_t]. *)
Definition info_u64 (info : option (Z * Z)) : Prop :=
  forall b n, info = Some (b, n) -> 0 <= b < W64 /\ 0 <= n < W64.
Definition wop_ok (o : wop) : Prop :=
  match o with
  | WPlace id _ len _ info => 0 <= id /\ 0 <= len < W64 /\ info_u64 info
  | _ => True
  end.

(** The window the stub reported lies in the address space; nothing checks it. *)
Definition win_sane (w : nvkvm_iso_window) : Prop := w_base w + w_size w <= W64.

(** The placements of isolate [id] still held, at offsets from [b]. *)
Definition held_in (b id : Z) (p : placed) : list ext :=
  if p_id p =? id then [Ext (p_va p - b) (page_up (p_len p))] else [].
Definition live_of (b id : Z) (h : list placed) : list ext := h ≫= held_in b id.

Record tab_inv (t : win_table) (h : list placed) : Prop := {
  ti_win : forall id w, t !! id = Some w ->
    w_probed w = true /\ (win_sane w -> win_inv w (live_of (w_base w) id h));
  ti_held : Forall (fun p => 0 < p_id p < NVKVM_ISOLATE_MAX /\ p_va p <> 0 /\ p_len p <> 0 /\
    exists w, t !! p_id p = Some w /\ w_base w <> 0) h
}.

Lemma live_of_cons b id p h : live_of b id (p :: h) = held_in b id p ++ live_of b id h.
Proof. done. Qed.

Lemma live_of_cons_ne b id p h : p_id p <> id -> live_of b id (p :: h) = live_of b id h.
Proof. intros. unfold live_of. simpl. unfold held_in at 1. by rewrite (proj2 (Z.eqb_neq _ _)). Qed.

Lemma live_of_filter_ne b id id' h :
  id <> id' -> live_of b id (filter (fun p => p_id p <> id') h) = live_of b id h.
Proof.
  intros Hne. induction h as [|p h IH]; [done|]. rewrite filter_cons.
  destruct (decide (p_id p <> id')) as [|Heq]; rewrite ?live_of_cons, IH; [done|].
  unfold held_in. destruct (Z.eqb_spec (p_id p) id); [|done]. exfalso. apply Heq. congruence.
Qed.

Lemma live_of_none b id h : Forall (fun p => p_id p <> id) h -> live_of b id h = [].
Proof.
  induction 1 as [|p h Hp _ IH]; [done|]. by rewrite live_of_cons_ne.
Qed.

Lemma live_of_delete b id h k p :
  h !! k = Some p -> Permutation (live_of b id h) (held_in b id p ++ live_of b id (delete k h)).
Proof. intros Hk. unfold live_of. by rewrite (delete_Permutation _ _ _ Hk) at 1. Qed.

Lemma win_fresh_inv b n :
  0 <= b -> 0 <= n < W64 -> b + n <= W64 ->
  win_inv (Win true b n 0 [] (w_run win_new) 0) [].
Proof.
  intros. split; [|done|done].
  assert ([] ++ tails (w_run (Win true b n 0 [] (w_run win_new) 0)) = []) as -> by reflexivity.
  split; cbn [w_size w_cur w_free]; try lia; [done|]. split; constructor.
Qed.

(** The window an isolate's placement runs on. *)
Lemma probed_inv t h id info :
  tab_inv t h -> info_u64 info ->
  let w := win_probe info (default win_new (t !! id)) in
  w_probed w = true /\ (win_sane w -> win_inv w (live_of (w_base w) id h)) /\
  (forall w0, t !! id = Some w0 -> w = w0).
Proof.
  intros [Hw Hh] Hi. destruct (t !! id) as [w0|] eqn:E; simpl.
  - destruct (Hw _ _ E) as [Hp Hinv]. unfold win_probe. rewrite Hp. split_and!; auto. by intros ? [=].
  - assert (live_of (w_base (win_probe info win_new)) id h = []) as ->.
    { apply live_of_none. eapply Forall_impl; [exact Hh|]. simpl.
      intros p (_ & _ & _ & w & Hpw & _) <-. congruence. }
    unfold win_probe. cbn [w_probed win_new]. destruct info as [[b n]|];
      [destruct (Hi b n eq_refl) as (?&?)|]; split_and!; try done; intros Hs; unfold win_sane in Hs; simpl in Hs;
      apply win_fresh_inv; lia.
Qed.

Lemma alloc_probed w len : w_probed (fst (win_alloc_locked w len)) = w_probed w.
Proof.
  unfold win_alloc_locked. case_if; [done|]. case_if; [done|].
  destruct (best_fit _ _); [done|]. by case_if.
Qed.

Lemma release_probed w off len : w_probed (win_release_locked w off len) = w_probed w.
Proof. unfold win_release_locked. by repeat case_if. Qed.

Lemma place_probed w gva len contig : w_probed (fst (win_place_locked w gva len contig)) = w_probed w.
Proof.
  unfold win_place_locked. do 2 (case_if; [done|]). case_if.
  - destruct (find_idx _ _); [done|]. unfold run_start.
    set (w1 := if r_used _ then _ else w). assert (w_probed w1 = w_probed w) as H1.
    { unfold w1. case_if; [apply release_probed|done]. }
    destruct (win_alloc_locked w1 _) as [w2 [o|]] eqn:Ea; simpl;
      pose proof (alloc_probed w1 (if NVKVM_WIN_RUN_SPAN <? page_up len then page_up len
        else NVKVM_WIN_RUN_SPAN)) as H2; rewrite Ea in H2; simpl in H2; congruence.
  - pose proof (alloc_probed w (page_up len)) as H. by destruct (win_alloc_locked w _) as [w1 [o|]].
Qed.

(** The geometry of a window never changes, and a placement needs a base. *)
Definition geo (w : nvkvm_iso_window) : Z * Z := (w_base w, w_size w).

Lemma alloc_geo w len : geo (fst (win_alloc_locked w len)) = geo w.
Proof.
  unfold win_alloc_locked. case_if; [done|]. case_if; [done|].
  destruct (best_fit _ _); [done|]. by case_if.
Qed.

Lemma release_geo w off len : geo (win_release_locked w off len) = geo w.
Proof. unfold win_release_locked. by repeat case_if. Qed.

Lemma start_geo w len : geo (fst (run_start w len)) = geo w.
Proof.
  unfold run_start. set (w1 := if r_used _ then _ else w).
  assert (geo w1 = geo w) as <- by (unfold w1; case_if; [apply release_geo|done]).
  set (span := if _ <? len then _ else _). pose proof (alloc_geo w1 span) as Ha.
  by destruct (win_alloc_locked w1 span) as [w2 [o|]].
Qed.

Lemma place_geo w gva len contig w' va :
  win_place_locked w gva len contig = (w', va) -> geo w' = geo w /\ (va <> 0 -> w_base w <> 0).
Proof.
  unfold win_place_locked. case_if; [by intros [=<- <-]|]. zb. case_if; [by intros [=<- <-]|]. case_if.
  - destruct (find_idx _ _); [by intros [=<- <-]|]. pose proof (start_geo w (page_up len)) as Hs.
    by destruct (run_start w (page_up len)) as [w1 [i|]]; intros [=<- <-].
  - pose proof (alloc_geo w (page_up len)) as Ha.
    by destruct (win_alloc_locked w (page_up len)) as [w1 [o|]]; intros [=<- <-].
Qed.

Lemma geo_sane w w' : geo w' = geo w -> w_base w' = w_base w /\ (win_sane w' <-> win_sane w).
Proof. unfold geo, win_sane. intros [= -> ->]. done. Qed.

(** Replacing the window of [id] by one with the same base keeps the records of
    what is held. *)
Lemma held_insert (t : win_table) (h : list placed) id w w' :
  (forall w0, t !! id = Some w0 -> w = w0) -> w_base w' = w_base w ->
  Forall (fun p => 0 < p_id p < NVKVM_ISOLATE_MAX /\ p_va p <> 0 /\ p_len p <> 0 /\
    exists w, t !! p_id p = Some w /\ w_base w <> 0) h ->
  Forall (fun p => 0 < p_id p < NVKVM_ISOLATE_MAX /\ p_va p <> 0 /\ p_len p <> 0 /\
    exists w, (<[id := w']> t) !! p_id p = Some w /\ w_base w <> 0) h.
Proof.
  intros Hw Hb Hh. eapply Forall_impl; [exact Hh|]. simpl.
  intros p (? & ? & ? & w0 & Hp & Hb0). do 3 (split; [done|]).
  destruct (decide (p_id p = id)) as [<-|].
  - exists w'. rewrite lookup_insert_eq. rewrite Hb, (Hw _ Hp). auto.
  - exists w0. by rewrite lookup_insert_ne.
Qed.

Lemma place_step_inv t h id gva len contig info t' va :
  tab_inv t h -> wop_ok (WPlace id gva len contig info) ->
  nvkvm_win_place info t id gva len contig = (t', va) ->
  tab_inv t' (if va =? 0 then h else Placed id va len :: h).
Proof.
  intros Hinv (Hid & Hl & Hi). unfold nvkvm_win_place. case_if; [intros [=<- <-]; done|]. zb.
  destruct (probed_inv t h id info Hinv Hi) as (Hp & Hw & Heq).
  set (w := win_probe info _) in *. destruct (win_place_locked w gva len contig) as [w' va'] eqn:Ep.
  intros [=<- ->]. destruct (place_geo _ _ _ _ _ _ Ep) as [Hg Hb0]. destruct (geo_sane _ _ Hg) as [Hb Hsane].
  pose proof (place_probed w gva len contig) as Hp'. rewrite Ep, Hp in Hp'. simpl in Hp'.
  destruct Hinv as [Hwin Hheld].
  pose proof (held_insert t h id w w' Heq Hb Hheld) as Hheld'.
  destruct (va =? 0) eqn:Ez; zb; split.
  - intros id' w1. destruct (decide (id' = id)) as [->|]; [|rewrite lookup_insert_ne by done; apply Hwin].
    rewrite lookup_insert_eq. intros [=<-]. split; [done|]. rewrite Hsane. intros Hs. specialize (Hw Hs).
    destruct (win_place_spec _ _ _ _ _ _ _ Hw Hl Ep) as (_ & _ & [[_ Hc]|(? & ? & _)]); [by rewrite Hb|].
    destruct (wi_base _ _ Hw). lia.
  - done.
  - intros id' w1. destruct (decide (id' = id)) as [->|].
    + rewrite lookup_insert_eq. intros [=<-]. split; [done|]. rewrite Hsane. intros Hs.
      destruct (win_place_spec _ _ _ _ _ _ _ (Hw Hs) Hl Ep) as (_ & _ & [[? _]|(_ & _ & _ & Hc)]); [done|].
      rewrite Hb, live_of_cons. unfold held_in at 1. simpl. by rewrite Z.eqb_refl.
    + rewrite lookup_insert_ne by done. rewrite live_of_cons_ne by (simpl; done). apply Hwin.
  - apply Forall_cons. split; [simpl|done]. do 3 (split; [done || lia|]).
    exists w'. rewrite lookup_insert_eq, Hb. auto.
Qed.

Lemma unplace_step_inv t h k p :
  tab_inv t h -> h !! k = Some p ->
  tab_inv (nvkvm_win_unplace t (p_id p) (p_va p) (p_len p)) (delete k h).
Proof.
  intros [Hwin Hheld] Hk.
  destruct (Forall_lookup_1 _ _ _ _ Hheld Hk) as (Hid & Hva & Hlen & w & Hw & Hb).
  destruct (Hwin _ _ Hw) as [Hp Hi].
  assert (Forall (fun p => 0 < p_id p < NVKVM_ISOLATE_MAX /\ p_va p <> 0 /\ p_len p <> 0 /\
    exists w, t !! p_id p = Some w /\ w_base w <> 0) (delete k h)) as Hheld'.
  { rewrite Forall_forall in *. intros p' Hp'. apply Hheld. rewrite (delete_Permutation _ _ _ Hk). by right. }
  assert (forall id w1, id <> p_id p -> t !! id = Some w1 ->
    w_probed w1 = true /\ (win_sane w1 -> win_inv w1 (live_of (w_base w1) id (delete k h)))) as Hoth.
  { intros id w1 Hne Hw1. destruct (Hwin _ _ Hw1) as [? Hi1]. split; [done|]. intros Hs. specialize (Hi1 Hs).
    rewrite (live_of_delete _ _ _ _ _ Hk) in Hi1. unfold held_in in Hi1.
    by rewrite (proj2 (Z.eqb_neq (p_id p) id)) in Hi1. }
  unfold nvkvm_win_unplace.
  rewrite (proj2 (Z.eqb_neq (p_id p) 0)), (proj2 (Z.leb_gt NVKVM_ISOLATE_MAX (p_id p))) by lia.
  rewrite (proj2 (Z.eqb_neq _ _) Hva), (proj2 (Z.eqb_neq _ _) Hlen), Hw. simpl.
  set (g := negb _ && _ && _). set (w' := win_release_locked w _ _).
  assert (win_sane w -> g = true /\ win_inv w' (live_of (w_base w) (p_id p) (delete k h))) as Hs.
  { intros Hs. specialize (Hi Hs). rewrite (live_of_delete _ _ _ _ _ Hk) in Hi.
    unfold held_in in Hi. rewrite Z.eqb_refl in Hi. simpl in Hi.
    pose proof (wf_head _ _ _ (fi_exts _ _ (wi_fl _ _ Hi))) as (?&?&?&_). simpl in *.
    pose proof (fi_cur _ _ (wi_fl _ _ Hi)). split; [|by apply win_release_inv]. unfold g.
    rewrite (proj2 (Z.eqb_neq _ _) Hb), (proj2 (Z.leb_le (w_base w) (p_va p))) by lia. simpl.
    apply Z.ltb_lt. lia. }
  destruct (geo_sane w w' (release_geo _ _ _)) as [Hb' Hsane]. destruct g.
  - split; [|apply (held_insert t _ _ w w'); [congruence|done|done]].
    intros id w1. destruct (decide (id = p_id p)) as [->|]; [|rewrite lookup_insert_ne by done; by apply Hoth].
    rewrite lookup_insert_eq. intros [=<-]. rewrite Hb', Hsane. split; [|by intros [_ ?]%Hs].
    unfold w'. by rewrite release_probed.
  - split; [|done]. intros id w1 Hw1. destruct (decide (id = p_id p)) as [->|]; [|by apply Hoth].
    assert (w1 = w) as -> by congruence. split; [done|]. by intros [? _]%Hs.
Qed.

Lemma forget_step_inv t h id :
  tab_inv t h -> tab_inv (nvkvm_win_forget_isolate t id) (filter (fun p => p_id p <> id) h).
Proof.
  intros [Hwin Hheld]. unfold nvkvm_win_forget_isolate. split.
  - intros id' w1 Hw1. assert (t !! id' = Some w1 /\ (id' = id -> (id =? 0) || (NVKVM_ISOLATE_MAX <=? id) = true))
      as [Hw Hid].
    { revert Hw1. case_if; [done|]. rewrite lookup_delete_Some. naive_solver. }
    destruct (Hwin _ _ Hw) as [? Hi]. split; [done|]. intros Hs. specialize (Hi Hs).
    destruct (decide (id' = id)) as [->|]; [|by rewrite live_of_filter_ne].
    rewrite live_of_none in Hi.
    2: { eapply Forall_impl; [exact Hheld|]. simpl. intros p (? & _) Heq.
         specialize (Hid eq_refl). subst id. zb; lia. }
    rewrite live_of_none; [done|].
    rewrite Forall_forall. intros p. rewrite list_elem_of_filter. tauto.
  - rewrite Forall_forall in *. intros p. rewrite list_elem_of_filter. intros [Hne Hp].
    destruct (Hheld p Hp) as (? & ? & ? & w & ? & ?). do 3 (split; [done|]). exists w. split; [|done].
    case_if; [done|]. rewrite lookup_delete_ne; congruence.
Qed.

Lemma wrun_inv ops : Forall wop_ok ops -> tab_inv (fst (wrun ops)) (snd (wrun ops)).
Proof.
  unfold wrun. assert (tab_inv ∅ []) as H0 by (split; [intros ??; by rewrite lookup_empty|constructor]).
  revert H0. generalize (∅ : win_table), (@nil placed).
  induction ops as [|o ops IH]; intros t h Hinv Hok; cbn [fold_left]; [done|].
  apply Forall_cons in Hok as [Ho Hok].
  assert (tab_inv (fst (wstep (t, h) o)) (snd (wstep (t, h) o))) as Hs.
  { destruct o as [id gva len contig info|k|id]; simpl.
    - destruct (nvkvm_win_place _ _ _ _ _ _) as [t' va] eqn:E. by eapply place_step_inv.
    - destruct (h !! k) eqn:E; [by apply unplace_step_inv|done].
    - by apply forget_step_inv. }
  destruct (wstep (t, h) o) as [t1 h1]. by apply IH.
Qed.

(** ** Theorems *)

Lemma live_of_shift b id h : live_of b id h = (fun e => Ext (e_off e - b) (e_len e)) <$> live_of 0 id h.
Proof.
  induction h as [|p h IH]; [done|]. rewrite !live_of_cons, fmap_app, IH. f_equal.
  unfold held_in. case_if; simpl; [|done]. by rewrite Z.sub_0_r.
Qed.

Lemma all_disj_shift b l : all_disj ((fun e => Ext (e_off e - b) (e_len e)) <$> l) -> all_disj l.
Proof.
  induction l as [|e l IH]; [done|]. simpl. intros [Hf Hd]. split; [|auto].
  rewrite Forall_fmap in Hf. eapply Forall_impl; [exact Hf|].
  unfold ext_disj, e_end; simpl. lia.
Qed.

(** Whatever sequence of placements (plain or contiguous), unplacements and
    isolate deaths the guest causes, and whatever window the isolates report: the
    mappings held by an isolate whose window fits into the address space never
    overlap, and all of them lie inside that window. *)
Theorem iso_window_safe ops id w :
  Forall wop_ok ops -> fst (wrun ops) !! id = Some w -> win_sane w ->
  all_disj (live_of 0 id (snd (wrun ops))) /\
  Forall (ext_in (w_base w) (w_base w + w_size w)) (live_of 0 id (snd (wrun ops))).
Proof.
  intros Hok Hw Hs. destruct (wrun_inv ops Hok) as [Hwin _].
  destruct (Hwin _ _ Hw) as [_ Hv]. destruct (Hv Hs) as [[_ Hc _ [Hd Hi _]] _ _].
  apply all_disj_app in Hd as [Hd _]. apply all_disj_app in Hd as [Hd _].
  do 2 apply Forall_app in Hi as [Hi _]. rewrite live_of_shift in Hd, Hi. split.
  - by eapply all_disj_shift.
  - rewrite Forall_fmap in Hi. eapply Forall_impl; [exact Hi|].
    unfold ext_in, e_end; simpl. lia.
Qed.

Definition demo_ops : list wop :=
  [WPlace 3 4096 8192 true (Some (1099511627776, 1099511627776));
   WPlace 3 12288 4096 true None; WPlace 3 0 100 false None; WUnplace 0;
   WPlace 4 4096 8192 true (Some (1099511627776, 1099511627776)); WForget 4].

Lemma iso_window_safe_witness :
  live_of 0 3 (snd (wrun demo_ops)) = [Ext 1099511635968 4096; Ext 1099511627776 8192] /\
  all_disj (live_of 0 3 (snd (wrun demo_ops))).
Proof.
  split; [vm_compute; reflexivity|].
  apply (iso_window_safe demo_ops 3 (default win_new (fst (wrun demo_ops) !! 3)));
    [|vm_compute; reflexivity|vm_compute; congruence].
  repeat (apply Forall_cons; split; [simpl; split_and?; (lia || done || (intros ? ? [=]; lia))|]).
  constructor.
Defined.

(** ** Contiguous runs

    The guest's page migration installs one range chunk by chunk, each chunk at
    the guest address where the previous one ended. *)
Fixpoint place_chunks (w : nvkvm_iso_window) (gva : Z) (lens : list Z) : nvkvm_iso_window * list Z :=
  match lens with
  | [] => (w, [])
  | n :: r =>
      let '(w1, va) := win_place_locked w gva n true in
      let '(w2, vas) := place_chunks w1 (gva + n) r in (w2, va :: vas)
  end.

Definition sum (lens : list Z) : Z := foldr Z.add 0 lens.
Definition chunk_ok (n : Z) : Prop := 0 < n /\ n mod 4096 = 0.
(** Where each chunk should be, the first one at [va]. *)
Fixpoint chunk_vas (va : Z) (lens : list Z) : list Z :=
  match lens with [] => [] | n :: r => va :: chunk_vas (va + n) r end.

(** No run in use, other than [i], waits for a guest address in [[lo,hi)]. *)
Definition no_other (i : nat) (lo hi : Z) (rs : list nvkvm_win_run) : Prop :=
  forall j r, j <> i -> rs !! j = Some r -> r_used r = true -> ~ lo <= r_gva_end r < hi.

Lemma sum_nonneg lens : Forall chunk_ok lens -> 0 <= sum lens.
Proof. induction 1 as [|n r [? _] _ IH]; simpl; lia. Qed.

Lemma chunks_follow lens : forall w L i r gva,
  win_inv w L -> w_base w <> 0 -> Forall chunk_ok lens ->
  w_run w !! i = Some r -> (lens <> [] -> r_used r = true /\ r_gva_end r = gva) ->
  0 < gva -> gva + sum lens < W64 -> sum lens <= r_end r - r_next r ->
  no_other i gva (gva + sum lens) (w_run w) ->
  snd (place_chunks w gva lens) = chunk_vas (w_base w + r_next r) lens.
Proof.
  induction lens as [|n lens IH]; intros w L i r gva Hw Hb Hok Hi Hr Hg Hlt Hsum Hno; [done|].
  apply Forall_cons in Hok as [[Hn Hm] Hok]. pose proof (sum_nonneg _ Hok) as Hs0.
  destruct (Hr ltac:(done)) as [Hu Hge]. clear Hr. simpl in Hlt, Hsum, Hno.
  pose proof (wi_fl _ _ Hw) as Hf. rewrite (tails_pull _ _ _ Hi) in Hf. unfold tail in Hf.
  rewrite Hu in Hf. simpl in Hf. rewrite <- Permutation_middle in Hf.
  pose proof (wf_head _ _ _ (fi_exts _ _ Hf)) as (?&?&?&_). simpl in *.
  pose proof (fi_size _ _ Hf). pose proof (fi_cur _ _ Hf).
  unfold win_place_locked. rewrite (proj2 (Z.eqb_neq _ _) Hb).
  rewrite (proj2 (Z.eqb_neq (w_size w) 0)), (proj2 (Z.eqb_neq n 0)) by lia. simpl.
  rewrite page_up_id, (proj2 (Z.eqb_neq n 0)), (proj2 (Z.eqb_neq gva 0)) by lia. simpl.
  assert (run_match gva n r = true) as Hmt.
  { unfold run_match. rewrite Hu, Hge, Z.eqb_refl, u64_small by lia. simpl. apply Z.leb_le. lia. }
  assert (find_idx (run_match gva n) (w_run w) = Some i) as ->.
  { destruct (find_idx _ _) as [j|] eqn:Ef.
    - apply find_idx_Some in Ef as (r' & Hj & Hm' & _). destruct (decide (j = i)) as [->|Hne]; [done|].
      unfold run_match in Hm'. zb. exfalso. eapply (Hno j r'); eauto. lia.
    - apply find_idx_None in Ef. pose proof (Forall_lookup_1 _ _ _ _ Ef Hi) as Hx. simpl in Hx. congruence. }
  destruct (run_extend w i gva n) as [w1 va] eqn:Ee.
  assert (0 < n <= r_end r - r_next r) as Hnb by lia.
  destruct (run_extend_spec _ _ _ _ _ _ _ _ Hw Hi Hu Hnb Hm Ee) as (-> & Hw1 & Hb1 & Hs1 & Hr1).
  set (r1 := Run _ _ _ _ _) in Hr1.
  assert (w_run w1 !! i = Some r1) as Hi1.
  { rewrite Hr1. apply list_lookup_insert_eq. by eapply lookup_lt_Some. }
  pose proof (IH w1 _ i r1 (gva + n) Hw1) as IH1.
  destruct (place_chunks w1 (gva + n) lens) as [w2 vas]. simpl in *. f_equal.
  rewrite IH1; simpl; auto; try lia.
  - rewrite Hb1. by replace (w_base w + (r_next r + n)) with (w_base w + r_next r + n) by lia.
  - intros Hne. rewrite u64_small by lia. split; [|done]. apply negb_true_iff, Z.leb_gt.
    destruct lens as [|n' lens']; [done|]. apply Forall_cons in Hok as [[? _] Hok'].
    pose proof (sum_nonneg _ Hok'). simpl in *. lia.
  - rewrite Hr1. intros j r' Hj Hlk. rewrite list_lookup_insert_ne in Hlk by done.
    intros Hur Hrng. apply (Hno j r' Hj Hlk Hur). lia.
Qed.

(** A range migrated in page-multiple chunks of at most 2 GiB in total comes
    back as one contiguous stretch of window addresses whenever its first chunk
    is placed, provided no other run is waiting for a guest address inside the
    range. *)
Theorem contig_chunks w L gva n lens :
  win_inv w L -> Forall chunk_ok (n :: lens) -> 0 < gva -> gva + sum (n :: lens) < W64 ->
  sum (n :: lens) <= NVKVM_WIN_RUN_SPAN ->
  (forall j r, w_run w !! j = Some r -> r_used r = true ->
     ~ gva <= r_gva_end r < gva + sum (n :: lens)) ->
  forall va, snd (win_place_locked w gva n true) = va -> va <> 0 ->
  snd (place_chunks w gva (n :: lens)) = chunk_vas va (n :: lens).
Proof.
  intros Hw Hok Hg Hlt Hsum Hno va Hva Hva0.
  apply Forall_cons in Hok as [[Hn Hm] Hok]. pose proof (sum_nonneg _ Hok) as Hs0. simpl in *.
  assert (0 < n < W64) as Hnw by lia.
  pose proof (page_up_id n ltac:(lia) Hm) as Hpn.
  revert Hva. unfold win_place_locked. case_if; [simpl; congruence|]. zb.
  rewrite Hpn, (proj2 (Z.eqb_neq n 0)), (proj2 (Z.eqb_neq gva 0)) by lia. simpl.
  assert (find_idx (run_match gva n) (w_run w) = None) as ->.
  { apply find_idx_None, Forall_lookup_2. intros j r Hj. unfold run_match.
    destruct (r_used r) eqn:Eu; [|done]. simpl. apply andb_false_iff. left. apply Z.eqb_neq.
    specialize (Hno _ _ Hj Eu). lia. }
  destruct (run_start w n) as [w1 [i|]] eqn:Es; [|simpl; congruence].
  destruct (run_start_spec _ _ _ _ _ Hw Hnw Hm Es) as (Hw1 & Hb1 & Hs1 & r & Hi & Hu & Hle & Hspan & Hoth).
  specialize (Hspan ltac:(lia)). assert (0 < n <= r_end r - r_next r) as Hnb by lia.
  destruct (run_extend w1 i gva n) as [w2 va'] eqn:Ee. simpl. intros ->.
  destruct (run_extend_spec _ _ _ _ _ _ _ _ Hw1 Hi Hu Hnb Hm Ee) as (-> & Hw2 & Hb2 & Hs2 & Hr2).
  set (r2 := Run _ _ _ _ _) in Hr2.
  assert (w_run w2 !! i = Some r2) as Hi2.
  { rewrite Hr2. apply list_lookup_insert_eq. by eapply lookup_lt_Some. }
  pose proof (chunks_follow lens w2 _ i r2 (gva + n) Hw2) as HC.
  destruct (place_chunks w2 (gva + n) lens) as [w3 vas]. simpl in *. f_equal.
  rewrite HC; simpl; auto; try lia.
  - rewrite Hb2. by replace (w_base w1 + (r_next r + n)) with (w_base w1 + r_next r + n) by lia.
  - intros Hne. rewrite u64_small by lia. split; [|done]. apply negb_true_iff, Z.leb_gt.
    destruct lens as [|n' lens']; [done|]. apply Forall_cons in Hok as [[? _] Hok'].
    pose proof (sum_nonneg _ Hok'). simpl in *. lia.
  - rewrite Hr2. intros j r' Hj Hlk. rewrite list_lookup_insert_ne in Hlk by done.
    rewrite Hoth in Hlk by done. intros Hur Hrng. apply (Hno j r' Hlk Hur). lia.
Qed.

(** Three migration chunks into a fresh 1 TiB window. *)
Lemma contig_chunks_witness :
  snd (place_chunks (Win true 1099511627776 1099511627776 0 [] (w_run win_new) 0)
         20971520 [2097152; 2097152; 4096]) =
  [1099511627776; 1099511627776 + 2097152; 1099511627776 + 4194304].
Proof.
  rewrite (contig_chunks (Win true 1099511627776 1099511627776 0 [] (w_run win_new) 0) []
    20971520 2097152 [2097152; 4096]) with (va := 1099511627776).
  - reflexivity.
  - apply win_fresh_inv; lia.
  - repeat (apply Forall_cons; split; [split; [lia|reflexivity]|]). constructor.
  - lia.
  - simpl. lia.
  - unfold NVKVM_WIN_RUN_SPAN. simpl. lia.
  - intros j r Hj Hu. exfalso. unfold win_new in Hj. cbn [w_run] in Hj.
    apply lookup_replicate_1 in Hj as [-> _]. done.
  - vm_compute. reflexivity.
  - lia.
Defined.

End IsoWindow.
