(* ===== verification/IsoMmap.v ===== *)
(** * IsoMmap: the token table of mappings installed into isolates

    Models [src/qemu/nvkvm_isolate_handlers.c]: [iso_mmap_tbl] with
    [iso_mmap_translate] (the gate every OS-descriptor registration passes),
    [iso_mmap_alloc] and [iso_mmap_free].  All three hold [iso_mmap_lock] for
    their whole body. *)
From S2P Require Import Prelude Extents.

Module IsoMmap.

Definition NVKVM_ISO_MMAP_MAX : Z := 8192.

Record nvkvm_iso_mmap_entry := Entry {
  im_used : bool; im_stub_mirrored : bool; im_isolate_id : Z;
  im_gva : Z; im_stub_va : Z; im_qva : Z; im_len : Z;
  im_kvm_slot : Z; im_gpa : Z; im_handle_id : Z
}.
#[export] Instance entry_inhabited : Inhabited nvkvm_iso_mmap_entry :=
  populate (Entry false false 0 0 0 0 0 0 0 0).
#[export] Instance entry_eq_dec : EqDecision nvkvm_iso_mmap_entry.
Proof. solve_decision. Defined.

Record mmap_state := MmapState {
  iso_mmap_tbl : list nvkvm_iso_mmap_entry;
  iso_mmap_seq : Z
}.
Definition mmap_init : mmap_state :=
  MmapState (replicate (Z.to_nat NVKVM_ISO_MMAP_MAX) (Entry false false 0 0 0 0 0 0 0 0)) 1.

(** ** Translation of a guest range *)

(** The entries the walk may use for isolate [id]. *)
Definition im_eligible (id : Z) (e : nvkvm_iso_mmap_entry) : bool :=
  im_used e && im_stub_mirrored e && (im_isolate_id e =? id) &&
  negb (im_gva e =? 0) && negb (im_len e =? 0) && negb (im_stub_va e =? 0) &&
  negb (im_gva e ⊕ im_len e <? im_gva e).

Definition im_hit (id cur : Z) (e : nvkvm_iso_mmap_entry) : bool :=
  im_eligible id e && (im_gva e <=? cur) && (cur <? im_gva e ⊕ im_len e).

(** The walk over the table from guest address [cur] to [end_]: [prev] is
    [None] on the first step, else [(stub_base, stub_next)].  The result is the
    stub base or [None] (refused); the outer [None] is running out of fuel. *)
Fixpoint translate_walk (fuel : nat) (tbl : list nvkvm_iso_mmap_entry) (id cur end_ : Z)
    (prev : option (Z * Z)) : option (option Z) :=
  match fuel with
  | O => None
  | S fuel' =>
      match find_idx (im_hit id cur) tbl with
      | None => Some None
      | Some i =>
          let hit := tbl !!! i in
          match match prev with
                | None => Some (im_stub_va hit ⊕ (cur ⊖ im_gva hit))
                | Some (sb, sn) => if im_stub_va hit =? sn then Some sb else None
                end with
          | None => Some None
          | Some sb =>
              let sn := im_stub_va hit ⊕ im_len hit in
              let next := im_gva hit ⊕ im_len hit in
              if next <=? cur then Some None
              else if end_ <=? next then Some (Some sb)
              else translate_walk fuel' tbl id next end_ (Some (sb, sn))
          end
      end
  end.

(** Index 0 of the table is reserved and skipped.  One round per entry and one
    more is enough fuel ([translate_total]). *)
Definition iso_mmap_translate (st : mmap_state) (id base len : Z) : option (option Z) :=
  if (len =? 0) || (base ⊕ len <? base) then Some None
  else translate_walk (S (length (drop 1 (iso_mmap_tbl st)))) (drop 1 (iso_mmap_tbl st))
         id base (base ⊕ len) None.

(** ** Tokens *)
Fixpoint alloc_loop (n : nat) (st : mmap_state) (e : nvkvm_iso_mmap_entry) : mmap_state * Z :=
  match n with
  | O => (st, 0)
  | S n' =>
      let tok := iso_mmap_seq st in
      let seq := tok mod (NVKVM_ISO_MMAP_MAX - 1) + 1 in
      if negb (im_used (arr_get (iso_mmap_tbl st) tok))
      then (MmapState (arr_set (iso_mmap_tbl st) tok e) seq, tok)
      else alloc_loop n' (MmapState (iso_mmap_tbl st) seq) e
  end.

Definition iso_mmap_alloc (st : mmap_state) (id gva stub_va qva len kvm_slot gpa : Z)
    (stub_mirrored : bool) (handle_id : Z) : mmap_state * Z :=
  alloc_loop (Z.to_nat (NVKVM_ISO_MMAP_MAX - 1)) st
    (Entry true stub_mirrored id gva stub_va qva len kvm_slot gpa handle_id).

Definition entry_clear (e : nvkvm_iso_mmap_entry) : nvkvm_iso_mmap_entry :=
  Entry false (im_stub_mirrored e) (im_isolate_id e) (im_gva e) (im_stub_va e) (im_qva e)
        (im_len e) (im_kvm_slot e) (im_gpa e) (im_handle_id e).

Definition iso_mmap_free (st : mmap_state) (token owner : Z)
    : mmap_state * option nvkvm_iso_mmap_entry :=
  if (token =? 0) || (NVKVM_ISO_MMAP_MAX <=? token) || (owner =? 0) then (st, None)
  else
    let e := arr_get (iso_mmap_tbl st) token in
    if negb (im_used e) || negb (im_isolate_id e =? owner) then (st, None)
    else (MmapState (arr_set (iso_mmap_tbl st) token (entry_clear e)) (iso_mmap_seq st), Some e).

(** ** Invariant *)
Definition entry_ok (e : nvkvm_iso_mmap_entry) : Prop :=
  0 <= im_gva e < W64 /\ 0 <= im_len e < W64 /\ 0 <= im_stub_va e /\
  im_stub_va e + im_len e < W64.

Record mmap_inv (st : mmap_state) : Prop := {
  mi_len : length (iso_mmap_tbl st) = Z.to_nat NVKVM_ISO_MMAP_MAX;
  mi_seq : 1 <= iso_mmap_seq st < NVKVM_ISO_MMAP_MAX;
  mi_ent : Forall entry_ok (iso_mmap_tbl st)
}.

(** Without what the entries hold. *)
Record mmap_shape (st : mmap_state) : Prop := {
  ms_len : length (iso_mmap_tbl st) = Z.to_nat NVKVM_ISO_MMAP_MAX;
  ms_seq : 1 <= iso_mmap_seq st < NVKVM_ISO_MMAP_MAX
}.

Lemma mmap_inv_shape st : mmap_inv st -> mmap_shape st.
Proof. by intros []. Qed.

(** The mirrors of isolate [id], and the stub bytes and guest bytes they give. *)
Definition mirrors (st : mmap_state) (id : Z) : list nvkvm_iso_mmap_entry :=
  filter (fun e => im_eligible id e = true) (drop 1 (iso_mmap_tbl st)).
Definition guest_ext (e : nvkvm_iso_mmap_entry) : ext := Ext (im_gva e) (im_len e).
Definition stub_ext (e : nvkvm_iso_mmap_entry) : ext := Ext (im_stub_va e) (im_len e).

Lemma eligible_end id e :
  entry_ok e -> im_eligible id e = true ->
  im_gva e ⊕ im_len e = im_gva e + im_len e /\ 0 < im_len e /\ 0 < im_gva e /\ 0 < im_stub_va e.
Proof.
  intros (Hg & Hl & Hs & _). unfold im_eligible. intros H. zb.
  assert (im_gva e ⊕ im_len e = im_gva e + im_len e).
  { destruct (Z.lt_ge_cases (im_gva e + im_len e) W64); [apply u64_small; lia|].
    assert (im_gva e ⊕ im_len e = im_gva e + im_len e - W64); [|lia]. mlia. }
  lia.
Qed.

(** How many mirrors end above [cur]: the measure of the walk. *)
Definition above (id cur : Z) (l : list nvkvm_iso_mmap_entry) : nat :=
  length (filter (fun e => im_eligible id e = true /\ cur < im_gva e + im_len e) l).

Lemma above_le id cur cur' l : cur <= cur' -> (above id cur' l <= above id cur l)%nat.
Proof.
  intros Hc. unfold above. induction l as [|y l IHl]; [done|]. rewrite !filter_cons.
  repeat case_decide; simpl; try lia. exfalso. naive_solver lia.
Qed.

Lemma above_lt id cur cur' l e :
  e ∈ l -> im_eligible id e = true -> cur < im_gva e + im_len e <= cur' ->
  (above id cur' l < above id cur l)%nat.
Proof.
  intros He Hel Hc. induction l as [|x l IH]; [by apply elem_of_nil in He|].
  pose proof (above_le id cur cur' l ltac:(lia)) as Hle. unfold above in *.
  rewrite !filter_cons. apply elem_of_cons in He as [<-|He].
  - rewrite decide_False by lia. rewrite decide_True by (split; [done|lia]). simpl. lia.
  - specialize (IH He). repeat case_decide; simpl; try lia. exfalso. naive_solver lia.
Qed.

Section Walk.
Context (tbl : list nvkvm_iso_mmap_entry) (id : Z) (Hok : Forall entry_ok tbl).

Lemma hit_spec cur i e :
  find_idx (im_hit id cur) tbl = Some i -> tbl !! i = Some e ->
  im_eligible id e = true /\ im_gva e <= cur < im_gva e + im_len e /\
  im_gva e ⊕ im_len e = im_gva e + im_len e /\ entry_ok e /\ im_gva e + im_len e < W64.
Proof.
  intros Hf Hi. apply find_idx_Some in Hf as (e' & Hi' & Hh & _).
  rewrite Hi in Hi'. injection Hi' as <-. unfold im_hit in Hh. zb.
  pose proof (Forall_lookup_1 _ _ _ _ Hok Hi) as He.
  destruct (eligible_end id e He) as (Hw & _); [done|]. rewrite Hw in *.
  pose proof (u64_range (im_gva e + im_len e)). split_and!; auto; lia.
Qed.

Lemma walk_total fuel cur end_ prev :
  (above id cur tbl < fuel)%nat -> translate_walk fuel tbl id cur end_ prev <> None.
Proof.
  revert cur prev. induction fuel as [|n IH]; intros cur prev Hf; [lia|]. simpl.
  destruct (find_idx _ tbl) as [i|] eqn:Ef; [|done].
  pose proof Ef as Ef'. apply find_idx_Some in Ef' as (e & Hi & _).
  destruct (hit_spec _ _ _ Ef Hi) as (Hel & Hc & Hw & _ & _).
  rewrite (list_lookup_total_correct _ _ _ Hi), Hw.
  destruct (match prev with None => _ | Some _ => _ end); [|done].
  case_if; [done|]. case_if; [done|]. zb. apply IH.
  assert (above id (im_gva e + im_len e) tbl < above id cur tbl)%nat; [|lia].
  eapply above_lt; [by eapply list_elem_of_lookup_2|done|lia].
Qed.

(** Stub byte [x] lies inside a live mirror of the isolate. *)
Definition stub_byte (x : Z) : Prop :=
  exists e, e ∈ tbl /\ im_eligible id e = true /\ ext_has (stub_ext e) x.

(** One step of the walk, with the machine arithmetic resolved. *)
Lemma walk_step fuel cur end_ prev i e :
  find_idx (im_hit id cur) tbl = Some i -> tbl !! i = Some e ->
  translate_walk (S fuel) tbl id cur end_ prev =
  match match prev with
        | None => Some (im_stub_va e + (cur - im_gva e))
        | Some (sb, sn) => if im_stub_va e =? sn then Some sb else None
        end with
  | None => Some None
  | Some sb =>
      if end_ <=? im_gva e + im_len e then Some (Some sb)
      else translate_walk fuel tbl id (im_gva e + im_len e) end_
             (Some (sb, im_stub_va e + im_len e))
  end.
Proof.
  intros Hf Hi. destruct (hit_spec _ _ _ Hf Hi) as (_ & Hc & Hw & (Hg & Hl & Hs & Hsl) & He).
  simpl. rewrite Hf, (list_lookup_total_correct _ _ _ Hi), Hw.
  rewrite !u64_small by (rewrite ?u64_small; lia).
  rewrite (proj2 (Z.leb_gt (im_gva e + im_len e) cur)) by lia. done.
Qed.

Lemma walk_safe fuel : forall cur end_ prev r base,
  translate_walk fuel tbl id cur end_ prev = Some (Some r) -> base <= cur < end_ ->
  match prev with
  | None => cur = base
  | Some (sb, sn) => cur - base <= sn - sb /\ forall x, sb <= x < sn -> stub_byte x
  end ->
  forall x, r <= x < r + (end_ - base) -> stub_byte x.
Proof.
  induction fuel as [|n IH]; intros cur end_ prev r base Hr Hc Hp; [done|].
  destruct (find_idx (im_hit id cur) tbl) as [i|] eqn:Ef; [|simpl in Hr; by rewrite Ef in Hr].
  pose proof Ef as Ef'. apply find_idx_Some in Ef' as (e & Hi & _).
  rewrite (walk_step _ _ _ _ _ _ Ef Hi) in Hr.
  destruct (hit_spec _ _ _ Ef Hi) as (Hel & Hce & _ & _ & _).
  assert (forall x, im_stub_va e <= x < im_stub_va e + im_len e -> stub_byte x) as Hcov.
  { intros x Hx. exists e. split_and!; [by eapply list_elem_of_lookup_2|done|exact Hx]. }
  assert (exists sb, match prev with
      | None => Some (im_stub_va e + (cur - im_gva e))
      | Some (sb, sn) => if im_stub_va e =? sn then Some sb else None
      end = Some sb /\
    im_gva e + im_len e - base <= im_stub_va e + im_len e - sb /\
    (forall x, sb <= x < im_stub_va e + im_len e -> stub_byte x)) as (sb & Esb & Hlen & Hall).
  { destruct prev as [[sb sn]|].
    - destruct Hp as [Hp1 Hp2]. destruct (Z.eqb_spec (im_stub_va e) sn) as [<-|]; [|done].
      exists sb. split_and!; [done|lia|]. intros x Hx.
      destruct (Z.lt_ge_cases x (im_stub_va e)); [apply Hp2|apply Hcov]; lia.
    - subst base. eexists. split_and!; [done|lia|]. intros x Hx. apply Hcov. lia. }
  rewrite Esb in Hr. destruct (end_ <=? im_gva e + im_len e) eqn:Ee; zb.
  - injection Hr as <-. intros x Hx. apply Hall. lia.
  - eapply IH; [exact Hr|lia|]. simpl. auto.
Qed.

(** Guest byte [x] of the isolate is stub byte [y]. *)
Definition maps_to (x y : Z) : Prop :=
  exists e, e ∈ tbl /\ im_eligible id e = true /\ ext_has (guest_ext e) x /\
            y = im_stub_va e + (x - im_gva e).

(** No guest byte has two mirrors. *)
Definition guest_unique : Prop :=
  forall a b x, a ∈ tbl -> b ∈ tbl -> im_eligible id a = true -> im_eligible id b = true ->
    ext_has (guest_ext a) x -> ext_has (guest_ext b) x -> a = b.

Lemma hit_complete cur y :
  maps_to cur y ->
  exists i e, find_idx (im_hit id cur) tbl = Some i /\ tbl !! i = Some e.
Proof.
  intros (e & He & Hel & Hx & _).
  destruct (find_idx (im_hit id cur) tbl) as [i|] eqn:Ef.
  - pose proof Ef as Ef'. apply find_idx_Some in Ef' as (e' & Hi & _). eauto.
  - apply find_idx_None in Ef. rewrite Forall_forall in Ef. specialize (Ef e He).
    rewrite Forall_forall in Hok. destruct (eligible_end _ _ (Hok e He) Hel) as (Hw & _).
    unfold im_hit in Ef. rewrite Hel, Hw in Ef. unfold ext_has, guest_ext, e_end in Hx. simpl in *.
    zb; lia.
Qed.

(** What a step inherits from the previous one: where the stub run has to go on,
    and a mirror that ended exactly at [cur]. *)
Definition walk_prev (cur base : Z) (prev : option (Z * Z)) : Prop :=
  match prev with
  | None => cur = base
  | Some (sb, sn) => sn = sb + (cur - base) /\
      exists e, e ∈ tbl /\ im_eligible id e = true /\ 0 < im_len e /\ im_gva e + im_len e = cur
  end.

Definition prev_base (e : nvkvm_iso_mmap_entry) (cur : Z) (prev : option (Z * Z)) : Z :=
  match prev with None => im_stub_va e + (cur - im_gva e) | Some (sb, _) => sb end.

(** The stub-adjacency test asks exactly whether guest byte [cur] sits where the
    run so far says it should. *)
Lemma adjacency_test cur base prev i e :
  guest_unique -> find_idx (im_hit id cur) tbl = Some i -> tbl !! i = Some e ->
  walk_prev cur base prev ->
  match prev with
  | None => Some (im_stub_va e + (cur - im_gva e))
  | Some (sb, sn) => if im_stub_va e =? sn then Some sb else None
  end =
  (if im_stub_va e + (cur - im_gva e) =? prev_base e cur prev + (cur - base)
   then Some (prev_base e cur prev) else None).
Proof.
  intros HU Hf Hi. destruct (hit_spec _ _ _ Hf Hi) as (Hel & Hce & _ & _ & _).
  pose proof (list_elem_of_lookup_2 _ _ _ Hi) as Hin. destruct prev as [[sb sn]|]; simpl.
  - intros (-> & e0 & He0 & Hel0 & Hl0 & Hend).
    destruct (decide (im_gva e = cur)) as [->|]; [by rewrite Z.sub_diag, Z.add_0_r|]. exfalso.
    assert (e = e0) as ->; [|lia].
    apply (HU e e0 (cur - 1)); auto; unfold ext_has, guest_ext, e_end; simpl; lia.
  - intros ->. by rewrite Z.sub_diag, Z.add_0_r, Z.eqb_refl.
Qed.

Lemma hit_maps cur i e x y :
  guest_unique -> find_idx (im_hit id cur) tbl = Some i -> tbl !! i = Some e ->
  im_gva e <= x < im_gva e + im_len e -> maps_to x y <-> y = im_stub_va e + (x - im_gva e).
Proof.
  intros HU Hf Hi Hx. destruct (hit_spec _ _ _ Hf Hi) as (Hel & _).
  pose proof (list_elem_of_lookup_2 _ _ _ Hi) as Hin. split; [|intros ->; by exists e].
  intros (e' & He' & Hel' & Hx' & ->). by rewrite (HU e' e x).
Qed.

Lemma walk_exact fuel : forall cur end_ prev r base,
  guest_unique -> (above id cur tbl < fuel)%nat -> base <= cur < end_ -> walk_prev cur base prev ->
  (translate_walk fuel tbl id cur end_ prev = Some (Some r) <->
   (match prev with None => True | Some (sb, _) => r = sb end) /\
   forall x, cur <= x < end_ -> maps_to x (r + (x - base))).
Proof.
  induction fuel as [|n IH]; intros cur end_ prev r base HU Hf Hc Hp; [lia|].
  destruct (find_idx (im_hit id cur) tbl) as [i|] eqn:Ef.
  2: { simpl. rewrite Ef. split; [done|]. intros [_ Hm]. specialize (Hm cur ltac:(lia)).
       apply hit_complete in Hm as (j & e & Hj & _). congruence. }
  pose proof Ef as Ef'. apply find_idx_Some in Ef' as (e & Hi & _).
  rewrite (walk_step _ _ _ _ _ _ Ef Hi), (adjacency_test _ _ _ _ _ HU Ef Hi Hp).
  destruct (hit_spec _ _ _ Ef Hi) as (Hel & Hce & _ & _ & _).
  pose proof (list_elem_of_lookup_2 _ _ _ Hi) as Hin.
  pose proof (fun x y => hit_maps cur i e x y HU Ef Hi) as Hmap.
  pose proof (above_lt id cur (im_gva e + im_len e) tbl e Hin Hel ltac:(lia)) as Hab.
  set (next := im_gva e + im_len e) in *. set (sb := prev_base e cur prev).
  destruct (Z.eqb_spec (im_stub_va e + (cur - im_gva e)) (sb + (cur - base))) as [Heq|Hne].
  - assert (forall x, cur <= x < next -> maps_to x (r + (x - base)) <-> r = sb) as Hmr.
    { intros x Hx. rewrite Hmap by lia. lia. }
    trans (r = sb /\ forall x, Z.min next end_ <= x < end_ -> maps_to x (r + (x - base))).
    + destruct (end_ <=? next) eqn:Ee; zb.
      * split; [intros [=<-]; split; [done|intros; lia]|by intros [-> _]].
      * rewrite (IH next end_ _ r base HU); [by rewrite Z.min_l by lia|lia|lia|].
        simpl. split; [lia|]. exists e. split_and!; auto; lia.
    + split.
      * intros [-> Hm]. split; [by destruct prev as [[]|]|]. intros x Hx.
        destruct (Z.lt_ge_cases x next); [by apply Hmr; first [lia|done]|apply Hm; lia].
      * intros [Hpr Hm]. assert (r = sb) as -> by (apply (Hmr cur); [lia|apply Hm; lia]).
        split; [done|]. intros x Hx. apply Hm. lia.
  - split; [done|]. intros [Hpr Hm]. exfalso. specialize (Hm cur ltac:(lia)).
    rewrite Hmap in Hm by lia. unfold sb, prev_base in Hne. destruct prev as [[sb' sn]|]; simpl in *; subst; lia.
Qed.
End Walk.

(** ** Tokens: specifications *)
Lemma alloc_loop_shape n st e st' tok :
  mmap_shape st -> alloc_loop n st e = (st', tok) ->
  mmap_shape st' /\
  ((tok = 0 /\ iso_mmap_tbl st' = iso_mmap_tbl st /\
    forall k, 0 <= k < Z.of_nat n -> im_used (arr_get (iso_mmap_tbl st) (cyc_at NVKVM_ISO_MMAP_MAX (iso_mmap_seq st) k)) = true) \/
   (1 <= tok < NVKVM_ISO_MMAP_MAX /\ im_used (arr_get (iso_mmap_tbl st) tok) = false /\
    iso_mmap_tbl st' = arr_set (iso_mmap_tbl st) tok e)).
Proof.
  revert st. induction n as [|n IH]; intros st Hinv; cbn [alloc_loop].
  { intros [=<- <-]. split; [done|]. left. split_and!; auto. lia. }
  destruct Hinv as [Hl Hs].
  rewrite <- cyc_step_mod. pose proof (cyc_at_range NVKVM_ISO_MMAP_MAX (iso_mmap_seq st) 1 ltac:(done)) as Hs'.
  destruct (im_used (arr_get (iso_mmap_tbl st) (iso_mmap_seq st))) eqn:Eu; simpl; intros Hr.
  - apply IH in Hr as [Hinv' Hcase]; [|by split; auto with lia]. split; [done|]. simpl in Hcase.
    destruct Hcase as [(Ht & Htb & Hall)|Hc]; [left|right; done]. split_and!; auto.
    intros k Hk. destruct (decide (k = 0)) as [->|]; [by rewrite cyc_at_0|].
    specialize (Hall (k - 1) ltac:(lia)). rewrite cyc_at_next in Hall.
    by replace (1 + (k - 1)) with k in Hall by lia.
  - injection Hr as <- <-. split; [|right; done]. split; simpl; auto.
    unfold arr_set. by rewrite length_insert.
Qed.

Lemma alloc_loop_spec n st e st' tok :
  mmap_inv st -> entry_ok e -> alloc_loop n st e = (st', tok) ->
  mmap_inv st' /\
  ((tok = 0 /\ iso_mmap_tbl st' = iso_mmap_tbl st /\
    forall k, 0 <= k < Z.of_nat n -> im_used (arr_get (iso_mmap_tbl st) (cyc_at NVKVM_ISO_MMAP_MAX (iso_mmap_seq st) k)) = true) \/
   (1 <= tok < NVKVM_ISO_MMAP_MAX /\ im_used (arr_get (iso_mmap_tbl st) tok) = false /\
    iso_mmap_tbl st' = arr_set (iso_mmap_tbl st) tok e)).
Proof.
  intros [Hl Hs Hent] He Ha. destruct (alloc_loop_shape _ _ _ _ _ (Build_mmap_shape _ Hl Hs) Ha) as [[Hl' Hs'] Hc].
  split; [|done]. split; [done|done|].
  destruct Hc as [(_ & -> & _)|(_ & _ & ->)]; [done|by apply Forall_insert].
Qed.

Lemma mmap_init_inv : mmap_inv mmap_init.
Proof.
  split; [reflexivity|by unfold mmap_init, NVKVM_ISO_MMAP_MAX|].
  unfold mmap_init. cbn [iso_mmap_tbl]. apply Forall_replicate. unfold entry_ok; simpl. lia.
Qed.

(** ** Theorems *)

(** What an accepted range stands for: used by every gate that pins memory. *)
Lemma translate_stub st id base len sb :
  mmap_inv st -> 0 <= base < W64 -> 0 <= len < W64 ->
  iso_mmap_translate st id base len = Some (Some sb) ->
  0 <= sb < W64 /\ 0 < len /\
  forall x, sb <= x < sb + len -> stub_byte (drop 1 (iso_mmap_tbl st)) id x.
Proof.
  intros [Hl Hs Hent] Hb Hn. unfold iso_mmap_translate. case_if; [done|]. zb. intros Er.
  set (tbl := drop 1 (iso_mmap_tbl st)) in *. assert (Forall entry_ok tbl) as Hok by by apply Forall_drop.
  assert (base ⊕ len = base + len /\ 0 < len) as [Hw Hpos].
  { destruct (Z.lt_ge_cases (base + len) W64); [rewrite u64_small in * by lia; lia|]. exfalso.
    assert (base ⊕ len = base + len - W64) by mlia. lia. }
  rewrite Hw in Er.
  assert (forall x, sb <= x < sb + len -> stub_byte tbl id x) as Hall.
  { intros x Hx. eapply (walk_safe tbl id Hok _ _ _ _ _ base); [exact Er|lia|reflexivity|lia]. }
  split_and!; [| |done|done]; destruct (Hall sb ltac:(lia)) as (e & Hin & _ & He);
    apply (proj1 (Forall_forall _ _) Hok) in Hin as (_ & _ & Hsv & Hse);
    unfold ext_has, stub_ext, e_end in He; simpl in He; lia.
Qed.

(** C5: the gate on guest ranges always answers, and when it answers with a
    stub base, every byte of the stub range it hands out lies inside a mapping
    that is live, mirrored and owned by that very isolate, whatever the guest
    put in the table. *)
Theorem translate_confined st id base len :
  mmap_inv st -> 0 <= base < W64 -> 0 <= len < W64 ->
  exists r, iso_mmap_translate st id base len = Some r /\
  forall sb, r = Some sb -> forall x, sb <= x < sb + len -> stub_byte (drop 1 (iso_mmap_tbl st)) id x.
Proof.
  intros Hinv Hb Hn. destruct (iso_mmap_translate st id base len) as [r|] eqn:Er.
  - exists r. split; [done|]. intros sb ->. by apply (translate_stub st id base len sb).
  - exfalso. destruct Hinv as [_ _ Hent]. unfold iso_mmap_translate in Er. case_if_in Er; [done|].
    eapply walk_total; [by apply (Forall_drop _ 1)| |exact Er]. apply Nat.lt_succ_r, length_filter.
Qed.

Definition demo_state : mmap_state :=
  let '(s1, _) := iso_mmap_alloc mmap_init 3 4096 1048576 0 8192 (-1) 0 true 9 in
  let '(s2, _) := iso_mmap_alloc s1 3 12288 1056768 0 4096 (-1) 0 true 9 in s2.

Lemma demo_state_inv : mmap_inv demo_state.
Proof.
  unfold demo_state, iso_mmap_alloc.
  destruct (alloc_loop _ mmap_init _) as [s1 t1] eqn:E1. destruct (alloc_loop _ s1 _) as [s2 t2] eqn:E2.
  apply alloc_loop_spec in E1 as [H1 _]; [|apply mmap_init_inv|unfold entry_ok; simpl; lia].
  apply alloc_loop_spec in E2 as [H2 _]; [done|done|unfold entry_ok; simpl; lia].
Qed.

Lemma translate_confined_witness :
  iso_mmap_translate demo_state 3 4096 12288 = Some (Some 1048576) /\
  stub_byte (drop 1 (iso_mmap_tbl demo_state)) 3 (1048576 + 12287).
Proof.
  assert (iso_mmap_translate demo_state 3 4096 12288 = Some (Some 1048576)) as E
    by (vm_compute; reflexivity).
  split; [exact E|].
  destruct (translate_confined demo_state 3 4096 12288 demo_state_inv) as (r & Hr & Hall); [lia..|].
  rewrite E in Hr. injection Hr as <-. apply (Hall _ eq_refl). lia.
Defined.

(** When no guest byte has two mirrors, the gate accepts a range exactly
    when every guest byte of it is mirrored at one common displacement, and
    the base it returns is that displacement's image of the range. *)
Theorem translate_exact st id base len sb :
  mmap_inv st -> guest_unique (drop 1 (iso_mmap_tbl st)) id -> 0 <= base < W64 -> 0 <= len < W64 ->
  (iso_mmap_translate st id base len = Some (Some sb) <->
   0 < len /\ base + len < W64 /\
   forall x, base <= x < base + len -> maps_to (drop 1 (iso_mmap_tbl st)) id x (sb + (x - base))).
Proof.
  intros [Hl Hs Hent] HU Hb Hn. unfold iso_mmap_translate.
  set (tbl := drop 1 (iso_mmap_tbl st)) in *. assert (Forall entry_ok tbl) as Hok by by apply Forall_drop.
  destruct (Z.lt_ge_cases (base + len) W64) as [Hlt|Hge].
  - rewrite (u64_small (base + len)) by lia. destruct (Z.eqb_spec len 0) as [->|]; cbn [orb].
    { split; [done|lia]. }
    rewrite (proj2 (Z.ltb_ge (base + len) base)) by lia.
    rewrite (walk_exact tbl id Hok _ base (base + len) None sb base HU); [|..|done]; [|
      apply Nat.lt_succ_r, length_filter|lia].
    split; [intros [_ ?]; split_and!; auto; lia|tauto].
  - assert (base ⊕ len = base + len - W64) as -> by mlia.
    rewrite (proj2 (Z.ltb_lt (base + len - W64) base)), orb_true_r by lia. split; [done|lia].
Qed.

Lemma unique_mirrors st id l :
  mirrors st id = l ->
  (forall a b x, a ∈ l -> b ∈ l -> ext_has (guest_ext a) x -> ext_has (guest_ext b) x -> a = b) ->
  guest_unique (drop 1 (iso_mmap_tbl st)) id.
Proof.
  intros <- H a b x Ha Hb Hea Heb. apply H; unfold mirrors; apply list_elem_of_filter; by split.
Qed.

Lemma demo_unique : guest_unique (drop 1 (iso_mmap_tbl demo_state)) 3.
Proof.
  apply (unique_mirrors _ _
    [Entry true true 3 4096 1048576 0 8192 (-1) 0 9; Entry true true 3 12288 1056768 0 4096 (-1) 0 9]).
  - vm_compute. reflexivity.
  - intros a b x H1 H2 Hxa Hxb. rewrite !elem_of_cons, elem_of_nil in H1, H2.
    destruct H1 as [->|[->|[]]], H2 as [->|[->|[]]]; try reflexivity;
      unfold ext_has, guest_ext, e_end in *; simpl in *; lia.
Qed.

Lemma translate_exact_witness :
  maps_to (drop 1 (iso_mmap_tbl demo_state)) 3 12288 1056768.
Proof.
  assert (iso_mmap_translate demo_state 3 8192 8192 = Some (Some 1052672)) as E
    by (vm_compute; reflexivity).
  destruct (translate_exact demo_state 3 8192 8192 1052672 demo_state_inv demo_unique) as [H _]; [lia..|].
  destruct (H E) as (_ & _ & Hm). apply (Hm 12288). lia.
Defined.

(** With two mirrors that overlap in the guest's addresses the walk compares the
    second one's base with where the first one ended, so it can accept a range
    whose later bytes it then names at the wrong stub address: guest byte
    0x4000 is mirrored only at stub byte 0x201000, and the range handed out puts
    it at 0x102000. *)
Lemma translate_overlap_misplaces :
  let st := fst (iso_mmap_alloc (fst (iso_mmap_alloc mmap_init 3 8192 1048576 0 8192 (-1) 0 true 9))
                   3 12288 1056768 0 16384 (-1) 0 true 9) in
  iso_mmap_translate st 3 8192 16384 = Some (Some 1048576) /\
  mirrors st 3 = [Entry true true 3 8192 1048576 0 8192 (-1) 0 9;
                  Entry true true 3 12288 1056768 0 16384 (-1) 0 9] /\
  im_stub_va (Entry true true 3 12288 1056768 0 16384 (-1) 0 9) + (16384 - 12288) <>
    1048576 + (16384 - 8192).
Proof. split_and!; vm_compute; congruence. Qed.

(** A new mapping gets a token in [1, 8192) that no live mapping has, and
    only that entry of the table changes; the table reports full (token 0) only
    when every token is live, and then it is unchanged. *)
Theorem iso_mmap_alloc_spec st id gva sva qva len slot gpa mir h :
  mmap_inv st -> entry_ok (Entry true mir id gva sva qva len slot gpa h) ->
  let '(st', tok) := iso_mmap_alloc st id gva sva qva len slot gpa mir h in
  mmap_inv st' /\
  ((tok = 0 /\ iso_mmap_tbl st' = iso_mmap_tbl st /\
    forall t, 1 <= t < NVKVM_ISO_MMAP_MAX -> im_used (arr_get (iso_mmap_tbl st) t) = true) \/
   (1 <= tok < NVKVM_ISO_MMAP_MAX /\ im_used (arr_get (iso_mmap_tbl st) tok) = false /\
    iso_mmap_tbl st' =
      arr_set (iso_mmap_tbl st) tok (Entry true mir id gva sva qva len slot gpa h))).
Proof.
  intros Hinv He. unfold iso_mmap_alloc. destruct (alloc_loop _ st _) as [st' tok] eqn:E.
  destruct (alloc_loop_spec _ _ _ _ _ Hinv He E) as [Hinv' [(-> & Ht & Hall)|Hc]].
  - split; [done|]. left. split_and!; auto. intros t Ht'.
    destruct (cyc_at_onto _ (iso_mmap_seq st) t (mi_seq _ Hinv) Ht') as (k & Hk & <-).
    apply Hall. unfold NVKVM_ISO_MMAP_MAX in *. lia.
  - split; [done|]. by right.
Qed.

Lemma iso_mmap_alloc_spec_witness :
  let '(st', tok) := iso_mmap_alloc demo_state 4 65536 2097152 0 4096 64 0 true 2 in
  tok = 3 /\ mmap_inv st'.
Proof.
  pose proof (iso_mmap_alloc_spec demo_state 4 65536 2097152 0 4096 64 0 true 2 demo_state_inv) as H.
  assert (snd (iso_mmap_alloc demo_state 4 65536 2097152 0 4096 64 0 true 2) = 3) as E
    by (vm_compute; reflexivity).
  destruct (iso_mmap_alloc demo_state 4 65536 2097152 0 4096 64 0 true 2) as [st' tok].
  split; [exact E|]. apply H. unfold entry_ok. simpl. lia.
Defined.

(** A token can be detached only by the isolate that owns it, at most once:
    the call succeeds exactly on a live entry of that isolate, returns that
    entry, and afterwards the same token is refused to everyone; a refused call
    changes nothing. *)
Theorem iso_mmap_free_owner st token owner :
  mmap_inv st -> 0 <= token ->
  let '(st', r) := iso_mmap_free st token owner in
  mmap_inv st' /\
  match r with
  | Some e =>
      1 <= token < NVKVM_ISO_MMAP_MAX /\ owner <> 0 /\ e = arr_get (iso_mmap_tbl st) token /\
      im_used e = true /\ im_isolate_id e = owner /\
      (forall t, 0 <= t -> t <> token -> arr_get (iso_mmap_tbl st') t = arr_get (iso_mmap_tbl st) t) /\
      (forall o, snd (iso_mmap_free st' token o) = None)
  | None =>
      st' = st /\
      ~ (1 <= token < NVKVM_ISO_MMAP_MAX /\ owner <> 0 /\
         im_used (arr_get (iso_mmap_tbl st) token) = true /\
         im_isolate_id (arr_get (iso_mmap_tbl st) token) = owner)
  end.
Proof.
  intros [Hl Hs Hent] Ht. unfold iso_mmap_free at 1.
  case_if; [zb; (split; [by split|]); (split; [done|]); lia|]. zb.
  destruct (im_used (arr_get (iso_mmap_tbl st) token)) eqn:Eu; simpl;
    [|split; [by split|split; [done|intros (_ & _ & ? & _); congruence]]].
  case_if; zb; [split; [by split|split; [done|naive_solver]]|].
  assert (arr_len (iso_mmap_tbl st) = NVKVM_ISO_MMAP_MAX) as Hlen.
  { unfold arr_len. rewrite Hl. unfold NVKVM_ISO_MMAP_MAX. lia. }
  set (st' := MmapState _ _).
  assert (im_used (arr_get (iso_mmap_tbl st') token) = false) as Hu'.
  { unfold st'. cbn [iso_mmap_tbl]. rewrite arr_get_set_eq by lia. done. }
  assert (entry_ok (arr_get (iso_mmap_tbl st) token)) as Hek.
  { eapply (Forall_lookup_1 _ _ (Z.to_nat token)); [exact Hent|]. apply arr_get_lookup. lia. }
  split; [|split_and!; auto; try lia].
  - split; [unfold st', arr_set; cbn [iso_mmap_tbl]; by rewrite length_insert|done|].
    unfold st'. cbn [iso_mmap_tbl]. apply Forall_insert; [done|exact Hek].
  - intros t Ht' Hne. unfold st'. cbn [iso_mmap_tbl]. apply arr_get_set_ne; lia.
  - intros o. unfold iso_mmap_free. case_if; [done|]. by rewrite Hu'.
Qed.

Lemma iso_mmap_free_owner_witness :
  snd (iso_mmap_free demo_state 1 4) = None /\
  snd (iso_mmap_free (fst (iso_mmap_free demo_state 1 3)) 1 3) = None.
Proof.
  split; [vm_compute; reflexivity|].
  pose proof (iso_mmap_free_owner demo_state 1 3 demo_state_inv ltac:(lia)) as H.
  assert (snd (iso_mmap_free demo_state 1 3) <> None) as E by (vm_compute; congruence).
  destruct (iso_mmap_free demo_state 1 3) as [st' [e|]]; [|done]. simpl.
  apply H.
Defined.

End IsoMmap.
