(* ===== verification/Ring.v ===== *)
(** * Ring: the single-producer single-consumer command ring

    Models [src/common/nvkvm_ring.h], the shared-memory byte ring between the
    guest module, the isolate stub and the host.  The data region is a map from
    byte offsets to bytes; record headers are read and written as little-endian
    32-bit words.  The counters are 64-bit and free-running.  [cap] is the
    caller's trusted capacity; the [size] word of the control block plays no
    part in any of the helpers.

    A consumer facing a hostile peer is modelled by letting every iteration of
    [peek] observe arbitrary counters, its own head included, and arbitrary bytes. *)
From S2P Require Import Prelude.

Module Ring.

Definition NVKVM_RING_ALIGN : Z := 8.
Definition NVKVM_RING_REC_SKIP : Z := 0.
Definition NVKVM_RING_REC_DATA : Z := 1.
Definition sizeof_rec : Z := 8.
Definition sizeof_ring : Z := 256.

(** ** Byte memory *)
Abbreviation mem := (gmap Z Z).

Definition get (m : mem) (a : Z) : Z := default 0 (m !! a).

Definition load32 (m : mem) (a : Z) : Z :=
  get m a + 256 * get m (a + 1) + 65536 * get m (a + 2) + 16777216 * get m (a + 3).

Definition store32 (m : mem) (a v : Z) : mem :=
  <[a := v mod 256]> (<[a + 1 := v / 256 mod 256]>
    (<[a + 2 := v / 65536 mod 256]> (<[a + 3 := v / 16777216 mod 256]> m))).

Fixpoint store_bytes (m : mem) (a : Z) (bs : list Z) : mem :=
  match bs with
  | [] => m
  | b :: r => <[a := b]> (store_bytes m (a + 1) r)
  end.

Definition load_bytes (m : mem) (a n : Z) : list Z := get m <$> seqZ a n.

(** ** The ring *)
Record nvkvm_ring := RingC { tail : Z; head : Z; data : mem }.

Definition nvkvm_ring_resp_off (ring_bytes : Z) : Z := u64 (sizeof_ring + ring_bytes).
Definition nvkvm_ring_region_size (ring_bytes : Z) : Z := u64 (2 * (sizeof_ring + ring_bytes)).

Definition nvkvm_ring_roundup (x : Z) : Z :=
  u32 (x + (NVKVM_RING_ALIGN - 1)) & not32 (NVKVM_RING_ALIGN - 1).

Definition nvkvm_ring_size_ok (n : Z) : bool := (64 <=? n) && (Z.land n (n - 1) =? 0).

(** The headers written, the payload's offset, and the bytes to commit. *)
Definition nvkvm_ring_reserve (r : nvkvm_ring) (cap payload : Z) : option (nvkvm_ring * Z * Z) :=
  let rec := nvkvm_ring_roundup (u32 (sizeof_rec + payload)) in
  let N := cap in
  if negb (nvkvm_ring_size_ok N) then None
  else
    let used := tail r ⊖ head r in
    let off := tail r & (N - 1) in
    let to_end := N ⊖ off in
    if (N <? rec) || (N <? payload) then None
    else if rec <=? to_end then
      if N ⊖ used <? rec then None
      else
        let m := store32 (store32 (data r) off rec) (off + 4) NVKVM_RING_REC_DATA in
        Some (RingC (tail r) (head r) m, off + sizeof_rec, rec)
    else if N ⊖ used <? to_end ⊕ rec then None
    else
      let m1 := store32 (store32 (data r) off (u32 to_end)) (off + 4) NVKVM_RING_REC_SKIP in
      let m2 := store32 (store32 m1 0 rec) 4 NVKVM_RING_REC_DATA in
      Some (RingC (tail r) (head r) m2, 0 + sizeof_rec, to_end ⊕ rec).

Definition nvkvm_ring_commit (r : nvkvm_ring) (total : Z) : nvkvm_ring :=
  RingC (tail r ⊕ total) (head r) (data r).

Inductive peek_res :=
| PEmpty
| POk (pay len total : Z)
| PBad.

(** One iteration: [inl head'] continues past a skip record. *)
Definition peek_iter (N hd tl : Z) (m : mem) : Z + peek_res :=
  let avail := tl ⊖ hd in
  if avail =? 0 then inr PEmpty
  else if (avail <? sizeof_rec) || (N <? avail) then inr PBad
  else
    let off := hd & (N - 1) in
    let len := load32 m off in
    let type := load32 m (off + 4) in
    if (len <? sizeof_rec) || negb (Z.land len (NVKVM_RING_ALIGN - 1) =? 0) ||
       (avail <? len) || (N <? len) || (N <? off ⊕ len) then inr PBad
    else if type =? NVKVM_RING_REC_SKIP then inl (hd ⊕ len)
    else if negb (type =? NVKVM_RING_REC_DATA) then inr PBad
    else inr (POk (off + sizeof_rec) (len - sizeof_rec) len).

(** What one iteration reads from the shared memory: both counters, the head
    too being there, and the bytes. *)
Record view := View { o_head : Z; o_tail : Z; o_mem : mem }.

(** What it does there: the 8 bytes of a header read at an offset, the head
    stored past a skip record. *)
Inductive peek_act := PRead (off : Z) | PStore (hd : Z).

Definition peek_read (N : Z) (o : view) : list peek_act :=
  let avail := o_tail o ⊖ o_head o in
  if (avail =? 0) || (avail <? sizeof_rec) || (N <? avail) then [] else [PRead (o_head o & (N - 1))].

(** The loop, against what its iterations observe in turn; no result when the
    observations run out before it returns. *)
Fixpoint peek_loop (N : Z) (obs : list view) : list peek_act * option peek_res :=
  match obs with
  | [] => ([], None)
  | o :: rest =>
      match peek_iter N (o_head o) (o_tail o) (o_mem o) with
      | inl hd' => let '(a, r) := peek_loop N rest in (peek_read N o ++ PStore hd' :: a, r)
      | inr res => (peek_read N o, Some res)
      end
  end.

Definition nvkvm_ring_peek_obs (cap : Z) (obs : list view) : list peek_act * option peek_res :=
  if negb (nvkvm_ring_size_ok cap) then ([], Some PBad) else peek_loop cap obs.

(** What the iterations see while the peer leaves the ring alone: the head is
    the one stored last. *)
Fixpoint quiet_views (N : Z) (n : nat) (hd tl : Z) (m : mem) : list view :=
  match n with
  | O => []
  | S n => View hd tl m :: match peek_iter N hd tl m with inl hd' => quiet_views N n hd' tl m | inr _ => [] end
  end.

Definition stored (r : nvkvm_ring) (a : list peek_act) : nvkvm_ring :=
  fold_left (fun r a => match a with PStore hd => RingC (tail r) hd (data r) | PRead _ => r end) a r.

(** With a peer that stays quiet during the call.  Every skip consumes at
    least 8 of at most [cap] bytes, so [cap/8 + 2] rounds are enough. *)
Definition nvkvm_ring_peek (r : nvkvm_ring) (cap : Z) : option (nvkvm_ring * peek_res) :=
  match nvkvm_ring_peek_obs cap (quiet_views cap (Z.to_nat (cap / 8 + 2)) (head r) (tail r) (data r)) with
  | (a, Some res) => Some (stored r a, res)
  | (_, None) => None
  end.

Definition nvkvm_ring_pop (r : nvkvm_ring) (total : Z) : nvkvm_ring :=
  RingC (tail r) (head r ⊕ total) (data r).

Definition nvkvm_ring_has_work (r : nvkvm_ring) : bool := negb (tail r =? head r).

(** ** Memory lemmas *)
Lemma get_insert m a b v : get (<[a := v]> m) b = if a =? b then v else get m b.
Proof.
  unfold get. destruct (Z.eqb_spec a b) as [->|].
  - by rewrite lookup_insert_eq.
  - by rewrite lookup_insert_ne.
Qed.

Lemma get_store32_ne m a v b : b < a \/ a + 4 <= b -> get (store32 m a v) b = get m b.
Proof.
  intros Hb. unfold store32. rewrite !get_insert.
  rewrite !(proj2 (Z.eqb_neq _ _)) by lia. done.
Qed.

Lemma load32_store32 m a v : 0 <= v < W32 -> load32 (store32 m a v) a = v.
Proof.
  intros Hv. unfold load32, store32. rewrite !get_insert, !Z.eqb_refl.
  rewrite !(proj2 (Z.eqb_neq _ _)) by lia. Z.div_mod_to_equations. lia.
Qed.

Lemma load32_ext m m' a :
  (forall i, 0 <= i < 4 -> get m' (a + i) = get m (a + i)) -> load32 m' a = load32 m a.
Proof.
  intros H. unfold load32. rewrite (H 1), (H 2), (H 3) by lia.
  specialize (H 0 ltac:(lia)). rewrite Z.add_0_r in H. by rewrite H.
Qed.

Lemma get_store_bytes_ne m a bs b :
  b < a \/ a + Z.of_nat (length bs) <= b -> get (store_bytes m a bs) b = get m b.
Proof.
  revert a. induction bs as [|x bs IH]; intros a Hb; simpl in *; [done|].
  rewrite get_insert, (proj2 (Z.eqb_neq a b)) by lia. apply IH. lia.
Qed.

Lemma load_store_bytes m a bs :
  load_bytes (store_bytes m a bs) a (Z.of_nat (length bs)) = bs.
Proof.
  revert a. induction bs as [|x bs IH]; intros a; [done|].
  unfold load_bytes. simpl length. rewrite seqZ_cons by lia. simpl.
  rewrite get_insert, Z.eqb_refl. f_equal.
  replace (Z.pred (Z.of_nat (S (length bs)))) with (Z.of_nat (length bs)) by lia.
  replace (Z.succ a) with (a + 1) by lia.
  transitivity (load_bytes (store_bytes m (a + 1) bs) (a + 1) (Z.of_nat (length bs))); [|apply IH].
  apply list_fmap_ext. intros i y Hy. apply lookup_seqZ in Hy as [-> ?].
  rewrite get_insert, (proj2 (Z.eqb_neq _ _)) by lia. done.
Qed.

Lemma load_bytes_ext m m' a n :
  (forall i, 0 <= i < n -> get m' (a + i) = get m (a + i)) -> load_bytes m' a n = load_bytes m a n.
Proof.
  intros H. apply list_fmap_ext. intros i y Hy. apply lookup_seqZ in Hy as [-> ?]. apply H. lia.
Qed.

Lemma length_load_bytes m a n : length (load_bytes m a n) = Z.to_nat n.
Proof. unfold load_bytes. by rewrite length_fmap, length_seqZ. Qed.

Lemma load_bytes_app m a n k :
  0 <= n -> 0 <= k -> load_bytes m a (n + k) = load_bytes m a n ++ load_bytes m (a + n) k.
Proof. intros. unfold load_bytes. by rewrite seqZ_app, fmap_app. Qed.

(** ** Capacities *)

(** A trusted capacity: a power of two from 64 bytes to 2 GiB. *)
Definition cap_ok (N : Z) : Prop := exists k, 6 <= k <= 31 /\ N = 2 ^ k.

Lemma size_ok_pow2 n : 0 <= n -> nvkvm_ring_size_ok n = true -> exists k, 6 <= k /\ n = 2 ^ k.
Proof.
  intros H0 H. unfold nvkvm_ring_size_ok in H. zb.
  exists (Z.log2 n). pose proof (Z.log2_spec n ltac:(lia)) as [Hlo Hhi].
  split; [apply (Z.log2_le_mono 64 n); lia|].
  destruct (decide (n = 2 ^ Z.log2 n)) as [|Hne]; [done|]. exfalso.
  assert (Z.log2 (n - 1) = Z.log2 n) as Hl by (apply Z.log2_unique; [apply Z.log2_nonneg|lia]).
  assert (Z.testbit (Z.land n (n - 1)) (Z.log2 n) = true) as Hb.
  { rewrite Z.land_spec, Z.bit_log2 by lia. rewrite <- Hl at 1. by rewrite Z.bit_log2 by lia. }
  rewrite H1 in Hb. by rewrite Z.testbit_0_l in Hb.
Qed.

Lemma cap_ok_size N : cap_ok N -> nvkvm_ring_size_ok N = true.
Proof.
  intros (k & Hk & ->). unfold nvkvm_ring_size_ok. apply andb_true_iff. split.
  - apply Z.leb_le. change 64 with (2 ^ 6). apply Z.pow_le_mono_r; lia.
  - apply Z.eqb_eq. rewrite land_low by lia. apply Z_mod_same_full.
Qed.

Lemma cap_ok_bounds N : cap_ok N -> 64 <= N <= 2147483648 /\ N mod 8 = 0.
Proof.
  intros (k & Hk & ->). split.
  - change 64 with (2 ^ 6). change 2147483648 with (2 ^ 31). split; apply Z.pow_le_mono_r; lia.
  - replace k with (3 + (k - 3)) by lia. rewrite Z.pow_add_r by lia. change (2 ^ 3) with 8.
    rewrite Z.mul_comm. apply Z_mod_mult.
Qed.

Lemma cap_mask N x : cap_ok N -> x & (N - 1) = x mod N.
Proof. intros (k & Hk & ->). apply land_low. lia. Qed.

Lemma cap_mod_u64 N x : cap_ok N -> u64 x mod N = x mod N.
Proof.
  intros (k & Hk & ->). unfold u64. change W64 with (2 ^ 64).
  rewrite <- Znumtheory.Zmod_div_mod; [done| |lia|].
  - apply Z.pow_pos_nonneg; lia.
  - exists (2 ^ (64 - k)). rewrite <- Z.pow_add_r by lia. f_equal. lia.
Qed.

Lemma roundup_spec x :
  0 <= x -> x + 7 < W32 ->
  x <= nvkvm_ring_roundup x < x + 8 /\ nvkvm_ring_roundup x mod 8 = 0.
Proof.
  intros H0 Hx. unfold nvkvm_ring_roundup. change (NVKVM_RING_ALIGN - 1) with (2 ^ 3 - 1).
  rewrite u32_small by (change (2 ^ 3 - 1) with 7; lia).
  rewrite land_not32_low by (change (2 ^ 3 - 1) with 7; lia). change (2 ^ 3 - 1) with 7.
  change (2 ^ 3) with 8. split; mlia.
Qed.

(** ** Representation of a queue of payloads

    [recs m N pos q used]: from stream position [pos], the next [used] bytes
    of the region hold exactly the records of [q], each possibly preceded by a
    wrap skip that ends at the end of the region. *)
Definition hdr (m : mem) (off len type : Z) : Prop :=
  load32 m off = len /\ load32 m (off + 4) = type.

Inductive recs (m : mem) (N : Z) : Z -> list (list Z) -> Z -> Prop :=
| recs_nil pos : recs m N pos [] 0
| recs_data pos x q len used :
    8 <= len -> len mod 8 = 0 -> pos mod N + len <= N ->
    hdr m (pos mod N) len NVKVM_RING_REC_DATA ->
    x = load_bytes m (pos mod N + 8) (len - 8) ->
    recs m N (pos + len) q used -> recs m N pos (x :: q) (len + used)
| recs_skip pos x q s used :
    8 <= s -> s mod 8 = 0 -> pos mod N + s = N ->
    hdr m (pos mod N) s NVKVM_RING_REC_SKIP ->
    recs m N (pos + s) (x :: q) used -> recs m N pos (x :: q) (s + used).

Lemma recs_used m N pos q used : recs m N pos q used -> 0 <= used /\ used mod 8 = 0 /\ (q <> [] -> 8 <= used).
Proof.
  induction 1 as [|pos x q len used H1 H2 _ _ _ _ IH|pos x q s used H1 H2 _ _ _ IH].
  - done.
  - destruct IH as (? & ? & _). split_and!; [lia|mlia|lia].
  - destruct IH as (? & ? & ?). split_and!; [lia|mlia|lia].
Qed.

Lemma recs_nil_inv m N pos used : recs m N pos [] used -> used = 0.
Proof. by inversion 1. Qed.

(** Records only depend on their own bytes. *)
Lemma recs_frame m m' N pos q used :
  0 < N -> recs m N pos q used ->
  (forall i, 0 <= i < used -> get m' ((pos + i) mod N) = get m ((pos + i) mod N)) ->
  recs m' N pos q used.
Proof.
  intros HN Hr. induction Hr as [|pos x q len used H1 H2 H3 Hh Hx Hr IH|pos x q s used H1 H2 H3 Hh Hr IH];
    intros Hf; [constructor|..].
  - pose proof (recs_used _ _ _ _ _ Hr) as (Hu & _ & _).
    assert (forall i, 0 <= i < len -> get m' (pos mod N + i) = get m (pos mod N + i)) as Hloc.
    { intros i Hi. specialize (Hf i ltac:(lia)).
      rewrite <- Zplus_mod_idemp_l, Z.mod_small in Hf by (pose proof (Z.mod_pos_bound pos N HN); lia). done. }
    apply recs_data; auto.
    + destruct Hh as [<- <-]. split; apply load32_ext; intros i Hi; rewrite <- ?Z.add_assoc; apply Hloc; lia.
    + rewrite Hx. symmetry. apply load_bytes_ext. intros i Hi. rewrite <- ?Z.add_assoc. apply Hloc. lia.
    + apply IH. intros i Hi. specialize (Hf (len + i) ltac:(lia)). by rewrite Z.add_assoc in Hf.
  - pose proof (recs_used _ _ _ _ _ Hr) as (Hu & _ & _).
    assert (forall i, 0 <= i < s -> get m' (pos mod N + i) = get m (pos mod N + i)) as Hloc.
    { intros i Hi. specialize (Hf i ltac:(lia)).
      rewrite <- Zplus_mod_idemp_l, Z.mod_small in Hf by (pose proof (Z.mod_pos_bound pos N HN); lia). done. }
    apply recs_skip; auto.
    + destruct Hh as [<- <-]. split; apply load32_ext; intros i Hi; rewrite <- ?Z.add_assoc; apply Hloc; lia.
    + apply IH. intros i Hi. specialize (Hf (s + i) ltac:(lia)). by rewrite Z.add_assoc in Hf.
Qed.

Lemma recs_app m N pos q1 u1 q2 u2 :
  recs m N pos q1 u1 -> recs m N (pos + u1) q2 u2 -> recs m N pos (q1 ++ q2) (u1 + u2).
Proof.
  induction 1 as [|pos x q len used|pos x q s used]; simpl; intros Hq.
  - by rewrite Z.add_0_r in Hq.
  - rewrite <- Z.add_assoc. apply recs_data; auto. apply IHrecs. by rewrite <- Z.add_assoc.
  - rewrite <- Z.add_assoc. apply recs_skip; auto. apply IHrecs. by rewrite <- Z.add_assoc.
Qed.

Lemma recs_pos_mod m N pos pos' q used :
  0 < N -> pos mod N = pos' mod N -> recs m N pos q used -> recs m N pos' q used.
Proof.
  intros HN He Hr. revert pos' He.
  induction Hr as [|pos x q len used H1 H2 H3 Hh Hx Hr IH|pos x q s used H1 H2 H3 Hh Hr IH];
    intros pos' He; [constructor|..].
  - apply recs_data; rewrite <- ?He; auto. apply IH. by rewrite <- Zplus_mod_idemp_l, He, Zplus_mod_idemp_l.
  - apply recs_skip; rewrite <- ?He; auto. apply IH. by rewrite <- Zplus_mod_idemp_l, He, Zplus_mod_idemp_l.
Qed.

(** ** Reservations *)
Definition rec_size (n : Z) : Z := nvkvm_ring_roundup (u32 (sizeof_rec + n)).

(** The headers of a reservation of [n] payload bytes at stream position [t]. *)
Definition resv (m : mem) (N t total off n : Z) : Prop := exists s,
  (s = 0 \/ (8 <= s /\ s mod 8 = 0 /\ t mod N + s = N /\ hdr m (t mod N) s NVKVM_RING_REC_SKIP)) /\
  total = s + rec_size n /\ (t + s) mod N + rec_size n <= N /\ off = (t + s) mod N + 8 /\
  hdr m ((t + s) mod N) (rec_size n) NVKVM_RING_REC_DATA.

(** Stream positions less than one lap apart are different bytes. *)
Lemma lap_disj N h i j : 0 < N -> 0 <= i < j -> j - i < N -> (h + i) mod N <> (h + j) mod N.
Proof.
  intros HN Hi Hj He. assert ((j - i) mod N = 0) as H0.
  { replace (j - i) with ((h + j) - (h + i)) by lia. rewrite Zminus_mod, He, Z.sub_diag. apply Z.mod_0_l. lia. }
  rewrite Z.mod_small in H0; lia.
Qed.

Lemma hdr_store m off len type :
  0 <= len < W32 -> 0 <= type < W32 ->
  hdr (store32 (store32 m off len) (off + 4) type) off len type.
Proof.
  intros Hl Ht. split; [|by apply load32_store32].
  rewrite <- (load32_store32 m off len Hl) at 2. apply load32_ext.
  intros i Hi. apply get_store32_ne. lia.
Qed.

Lemma hdr_ext m m' off len type :
  (forall i, 0 <= i < 8 -> get m' (off + i) = get m (off + i)) -> hdr m off len type -> hdr m' off len type.
Proof.
  intros H [<- <-]. split; apply load32_ext; intros i Hi; rewrite <- ?Z.add_assoc; apply H; lia.
Qed.

Lemma get_hdr_ne m off len type b :
  b < off \/ off + 8 <= b -> get (store32 (store32 m off len) (off + 4) type) b = get m b.
Proof. intros. rewrite !get_store32_ne by lia. done. Qed.

(** The state a producer relies on: aligned counters less than a lap apart. *)
Record ctr_ok (r : nvkvm_ring) (N used : Z) : Prop := {
  co_cap : cap_ok N;
  co_head : 0 <= head r < W64;
  co_tail : tail r = head r ⊕ used;
  co_used : 0 <= used <= N;
  co_align : head r mod 8 = 0 /\ used mod 8 = 0
}.

Lemma ctr_facts r N used :
  ctr_ok r N used ->
  tail r ⊖ head r = used /\ tail r mod N = (head r + used) mod N /\
  0 <= tail r mod N < N /\ (tail r mod N) mod 8 = 0 /\ 64 <= N <= 2147483648 /\ N mod 8 = 0.
Proof.
  intros [Hc Hh Ht Hu [Ha Hb]]. pose proof (cap_ok_bounds _ Hc) as [HN HN8]. split_and!; auto; try lia.
  - rewrite Ht, u64_sub_l. rewrite u64_small; lia.
  - rewrite Ht. by apply cap_mod_u64.
  - pose proof (Z.mod_pos_bound (tail r) N). lia.
  - pose proof (Z.mod_pos_bound (tail r) N). lia.
  - rewrite Ht, cap_mod_u64 by done. rewrite <- Znumtheory.Zmod_div_mod; [mlia|lia|lia|].
    apply Z.mod_divide; lia.
Qed.

Lemma rec_size_spec n N :
  0 <= n < W32 -> N <= 2147483648 -> (N <? rec_size n) || (N <? n) = false ->
  8 + n <= rec_size n < 16 + n /\ rec_size n mod 8 = 0 /\ rec_size n <= N.
Proof.
  intros Hn HN H. zb. unfold rec_size, sizeof_rec in *. rewrite u32_small in * by lia.
  destruct (roundup_spec (8 + n)) as [? ?]; lia.
Qed.

Lemma reserve_spec r N used n :
  ctr_ok r N used -> 0 <= n < W32 ->
  match nvkvm_ring_reserve r N n with
  | Some (r', off, total) =>
      tail r' = tail r /\ head r' = head r /\ 8 <= total /\ total mod 8 = 0 /\ used + total <= N /\
      resv (data r') N (tail r) total off n /\
      (forall i, 0 <= i < used ->
         get (data r') ((head r + i) mod N) = get (data r) ((head r + i) mod N))
  | None =>
      N < rec_size n \/ N < n \/ N - used < rec_size n \/
      (N - tail r mod N < rec_size n /\ N - used < N - tail r mod N + rec_size n)
  end.
Proof.
  intros Hc Hn. pose proof (ctr_facts _ _ _ Hc) as (Hus & Htm & Htb & Hta & HN & HN8).
  destruct Hc as [Hcap Hh Ht Hu [Ha Hb]]. unfold nvkvm_ring_reserve.
  rewrite cap_ok_size, Hus, cap_mask by done. simpl negb. cbv iota. fold (rec_size n).
  destruct ((N <? rec_size n) || (N <? n)) eqn:Eg; [zb; lia|].
  destruct (rec_size_spec n N Hn ltac:(lia) Eg) as (Hrs & Hr8 & HrN). clear Eg.
  rewrite (u64_small (N - tail r mod N)), (u64_small (N - used)) by lia.
  assert (forall j i, 0 <= i < used -> used + j < N -> 0 <= j ->
    (head r + i) mod N <> (tail r + j) mod N) as Hdis.
  { intros j i Hi Hj Hj0. rewrite <- (Zplus_mod_idemp_l (tail r)), Htm, Zplus_mod_idemp_l, <- Z.add_assoc.
    apply lap_disj; lia. }
  assert (forall x, 0 <= x < N -> x = (tail r + (x - tail r mod N)) mod N) as Hback.
  { intros x Hx. rewrite <- (Zplus_mod_idemp_l (tail r)).
    replace (tail r mod N + (x - tail r mod N)) with x by lia. by rewrite Z.mod_small. }
  destruct (rec_size n <=? N - tail r mod N) eqn:E1.
  - case_if; zb; [lia|]. simpl. split_and!; auto; try lia.
    + exists 0. rewrite !Z.add_0_r. split_and!; auto; try lia. apply hdr_store; [lia|done].
    + intros i Hi. apply get_hdr_ne. destruct (Z.lt_ge_cases ((head r + i) mod N) (tail r mod N)); [auto|].
      right. destruct (Z.lt_ge_cases ((head r + i) mod N) (tail r mod N + 8)); [|done]. exfalso.
      apply (Hdis ((head r + i) mod N - tail r mod N) i); [done|lia|lia|].
      apply Hback. apply Z.mod_pos_bound. lia.
  - zb. rewrite (u64_small (N - tail r mod N + rec_size n)) by lia. case_if; zb; [lia|].
    set (s := N - tail r mod N) in *. assert (8 <= s /\ s mod 8 = 0) as [Hs8 Hsm].
    { split; [|unfold s; mlia]. assert (s mod 8 = 0) by (unfold s; mlia). mlia. }
    rewrite (u32_small s) by lia. simpl.
    assert ((tail r + s) mod N = 0) as Hz.
    { rewrite <- Zplus_mod_idemp_l. unfold s. rewrite Zplus_minus. apply Z_mod_same_full. }
    split_and!; auto; try lia.
    + mlia.
    + exists s. rewrite Hz. split_and!; auto; try lia.
      * right. split_and!; auto; [unfold s; lia|].
        eapply hdr_ext; [|apply hdr_store; [lia|done]]. intros i Hi. apply (get_hdr_ne _ 0). lia.
      * apply (hdr_store _ 0); [lia|done].
    + intros i Hi. rewrite (get_hdr_ne _ 0), get_hdr_ne; [done| |].
      * destruct (Z.lt_ge_cases ((head r + i) mod N) (tail r mod N)); [auto|].
        right. destruct (Z.lt_ge_cases ((head r + i) mod N) (tail r mod N + 8)); [|done]. exfalso.
        apply (Hdis ((head r + i) mod N - tail r mod N) i); [done|lia|lia|].
        apply Hback. apply Z.mod_pos_bound. lia.
      * right. destruct (Z.lt_ge_cases ((head r + i) mod N) 8); [|done]. exfalso.
        pose proof (Z.mod_pos_bound (head r + i) N ltac:(lia)).
        apply (Hdis (s + (head r + i) mod N) i); [done|lia|lia|].
        rewrite Z.add_assoc, <- (Zplus_mod_idemp_l (tail r + s)), Hz, Z.add_0_l, Z.mod_mod; lia.
Qed.

(** ** One consumer iteration on a well-formed ring *)
Lemma ctr_advance r N used k :
  ctr_ok r N used -> 0 <= k <= used -> k mod 8 = 0 ->
  ctr_ok (RingC (tail r) (head r ⊕ k) (data r)) N (used - k).
Proof.
  intros [Hc Hh Ht Hu [Ha Hb]] Hk Hk8. split; simpl; auto; [apply u64_range| |lia|split].
  - rewrite u64_add_l, Ht. f_equal. lia.
  - change (u64 (head r + k) mod 8 = 0). mlia.
  - mlia.
Qed.

Lemma rec_header m N hd used len type :
  cap_ok N -> 8 <= len <= used -> used <= N -> len mod 8 = 0 -> hd mod N + len <= N ->
  hdr m (hd mod N) len type -> forall tl, tl ⊖ hd = used ->
  peek_iter N hd tl m =
    if type =? NVKVM_RING_REC_SKIP then inl (hd ⊕ len)
    else if negb (type =? NVKVM_RING_REC_DATA) then inr PBad
    else inr (POk (hd mod N + 8) (len - 8) len).
Proof.
  intros Hc Hl Hu H8 Hfit [Hh1 Hh2] tl Ht. pose proof (cap_ok_bounds _ Hc) as [HN _].
  unfold peek_iter. rewrite Ht, cap_mask, Hh1, Hh2 by done. unfold sizeof_rec.
  pose proof (Z.mod_pos_bound hd N ltac:(lia)). rewrite (u64_small (hd mod N + len)) by lia.
  change (NVKVM_RING_ALIGN - 1) with (2 ^ 3 - 1). rewrite land_low by lia. change (2 ^ 3) with 8.
  rewrite H8, (proj2 (Z.eqb_neq used 0)), (proj2 (Z.ltb_ge used 8)), (proj2 (Z.ltb_ge N used)) by lia.
  rewrite (proj2 (Z.ltb_ge len 8)), (proj2 (Z.ltb_ge used len)), (proj2 (Z.ltb_ge N len)) by lia.
  rewrite (proj2 (Z.ltb_ge N (hd mod N + len))) by lia. done.
Qed.

Lemma peek_iter_spec r N q used :
  ctr_ok r N used -> recs (data r) N (head r) q used ->
  match q with
  | [] => peek_iter N (head r) (tail r) (data r) = inr PEmpty
  | x :: q' =>
      (exists s, peek_iter N (head r) (tail r) (data r) = inl (head r ⊕ s) /\
         8 <= s <= used /\ s mod 8 = 0 /\ recs (data r) N (head r + s) q (used - s)) \/
      (exists len, peek_iter N (head r) (tail r) (data r) =
           inr (POk (head r mod N + 8) (len - 8) len) /\
         8 <= len <= used /\ len mod 8 = 0 /\ head r mod N + len <= N /\
         x = load_bytes (data r) (head r mod N + 8) (len - 8) /\
         recs (data r) N (head r + len) q' (used - len))
  end.
Proof.
  intros Hc Hr. pose proof (ctr_facts _ _ _ Hc) as (Hus & _ & _ & _ & HN & _).
  pose proof (co_used _ _ _ Hc) as Hu. pose proof (co_cap _ _ _ Hc) as Hcap.
  revert Hus. inversion Hr as [|pos x q' len u H1 H2 H3 Hh Hx Hr'|pos x q' s u H1 H2 H3 Hh Hr'];
    subst; intros Hus.
  - unfold peek_iter. by rewrite Hus.
  - right. exists len. pose proof (recs_used _ _ _ _ _ Hr') as (? & _ & _).
    rewrite (rec_header _ _ _ (len + u) len _ Hcap ltac:(lia) ltac:(lia) H2 H3 Hh _ Hus). simpl.
    rewrite Z.add_simpl_l. split_and!; auto; lia.
  - left. exists s. pose proof (recs_used _ _ _ _ _ Hr') as (? & _ & _).
    rewrite (rec_header _ _ _ (s + u) s _ Hcap ltac:(lia) ltac:(lia) H2 (Z.eq_le_incl _ _ H3) Hh _ Hus). simpl.
    rewrite Z.add_simpl_l. split_and!; auto; lia.
Qed.

(** Filling in the payload of a reservation makes it a record. *)
Definition padded (p x : list Z) : Prop := exists pad, x = p ++ pad /\ (length pad < 8)%nat.

Lemma resv_write m N t total off p :
  cap_ok N -> resv m N t total off (Z.of_nat (length p)) -> total <= N ->
  Z.of_nat (length p) < W32 -> Z.of_nat (length p) <= N ->
  exists x, padded p x /\ recs (store_bytes m off p) N t [x] total.
Proof.
  set (n := Z.of_nat (length p)). intros Hcap (s & Hs & -> & Hfit & -> & Hh) Htot Hp HpN.
  pose proof (cap_ok_bounds _ Hcap) as [HN _]. set (o := (t + s) mod N) in *.
  pose proof (Z.mod_pos_bound (t + s) N ltac:(lia)) as Ho. fold o in Ho.
  destruct (rec_size_spec n N) as (Hrs & Hr8 & HrN); [lia|lia| |].
  { apply orb_false_iff. split; apply Z.ltb_ge; lia. }
  set (m' := store_bytes m (o + 8) p). set (x := load_bytes m' (o + 8) (rec_size n - 8)).
  exists x. split.
  - exists (load_bytes m' (o + 8 + n) (rec_size n - 8 - n)). split.
    + unfold x. replace (rec_size n - 8) with (n + (rec_size n - 8 - n)) at 1 by lia.
      rewrite load_bytes_app by lia. f_equal. apply load_store_bytes.
    + rewrite length_load_bytes. lia.
  - assert (recs m' N (t + s) [x] (rec_size n)) as Hd.
    { rewrite <- (Z.add_0_r (rec_size n)). apply recs_data; auto; [lia| |constructor].
      eapply hdr_ext; [|exact Hh]. intros i Hi. apply get_store_bytes_ne. lia. }
    destruct Hs as [->|(Hs8 & Hsm & Hend & Hsk)]; [by rewrite Z.add_0_l; rewrite Z.add_0_r in Hd|].
    apply recs_skip; auto. eapply hdr_ext; [|exact Hsk]. intros i Hi. apply get_store_bytes_ne.
    assert (o = 0) as ->.
    { unfold o. rewrite <- Zplus_mod_idemp_l, Hend. apply Z_mod_same_full. }
    right. lia.
Qed.

Lemma resv_write_frame r N used total off p i :
  ctr_ok r N used -> resv (data r) N (tail r) total off (Z.of_nat (length p)) -> used + total <= N ->
  Z.of_nat (length p) < W32 -> Z.of_nat (length p) <= N -> 0 <= i < used ->
  get (store_bytes (data r) off p) ((head r + i) mod N) = get (data r) ((head r + i) mod N).
Proof.
  set (n := Z.of_nat (length p)). intros Hc (s & Hs & -> & Hfit & -> & Hh) Htot Hp HpN Hi.
  pose proof (ctr_facts _ _ _ Hc) as (_ & Htm & _ & _ & HN & _).
  destruct (rec_size_spec n N) as (Hrs & Hr8 & HrN); [lia|lia| |].
  { apply orb_false_iff. split; apply Z.ltb_ge; lia. }
  apply get_store_bytes_ne. set (b := (head r + i) mod N). set (o := (tail r + s) mod N) in *.
  destruct (Z.lt_ge_cases b (o + 8)); [by left|]. right. fold n.
  destruct (Z.lt_ge_cases b (o + 8 + n)); [|done]. exfalso.
  apply (lap_disj N (head r) i (used + s + (b - o))); [lia|lia|lia|].
  fold b. replace (head r + (used + s + (b - o))) with (head r + used + (s + (b - o))) by lia.
  rewrite <- Zplus_mod_idemp_l, <- Htm, Zplus_mod_idemp_l, Z.add_assoc, <- Zplus_mod_idemp_l.
  fold o. rewrite Zplus_minus. symmetry. apply Z.mod_small.
  pose proof (Z.mod_pos_bound (head r + i) N). lia.
Qed.

(** ** Producer and consumer interleaved

    The producer reserves, fills the payload in, and commits, in three steps; the
    consumer runs one [peek] iteration per step, and copies the payload out only
    when it pops.  The atomic accesses of the source order these steps. *)
Inductive pstate :=
| PIdle
| PReserved (off total : Z) (p : list Z)
| PWritten (total : Z) (p : list Z).

Inductive cstate := CIdle | CHas (pay len total : Z).

Record sys := Sys {
  s_ring : nvkvm_ring; s_prod : pstate; s_cons : cstate;
  s_sent : list (list Z); s_recv : list (list Z)
}.

Section System.
Context (N : Z).

Inductive step : sys -> sys -> Prop :=
| step_reserve r c sent recv p r' off total :
    Z.of_nat (length p) < W32 ->
    nvkvm_ring_reserve r N (Z.of_nat (length p)) = Some (r', off, total) ->
    step (Sys r PIdle c sent recv) (Sys r' (PReserved off total p) c sent recv)
| step_write r c sent recv off total p :
    step (Sys r (PReserved off total p) c sent recv)
         (Sys (RingC (tail r) (head r) (store_bytes (data r) off p)) (PWritten total p) c sent recv)
| step_commit r c sent recv total p :
    step (Sys r (PWritten total p) c sent recv)
         (Sys (nvkvm_ring_commit r total) PIdle c (sent ++ [p]) recv)
| step_skip r ps sent recv hd' :
    peek_iter N (head r) (tail r) (data r) = inl hd' ->
    step (Sys r ps CIdle sent recv) (Sys (RingC (tail r) hd' (data r)) ps CIdle sent recv)
| step_peek r ps sent recv pay len total :
    peek_iter N (head r) (tail r) (data r) = inr (POk pay len total) ->
    step (Sys r ps CIdle sent recv) (Sys r ps (CHas pay len total) sent recv)
| step_pop r ps sent recv pay len total :
    step (Sys r ps (CHas pay len total) sent recv)
         (Sys (nvkvm_ring_pop r total) ps CIdle sent (recv ++ [load_bytes (data r) pay len])).

(** The same steps as a function, to run a schedule. *)
Inductive move := MReserve (p : list Z) | MWrite | MCommit | MConsume | MPop.

Definition exec (o : move) (s : sys) : option sys :=
  let r := s_ring s in
  match o, s_prod s, s_cons s with
  | MReserve p, PIdle, c =>
      if Z.of_nat (length p) <? W32 then
        '(r', off, total) ← nvkvm_ring_reserve r N (Z.of_nat (length p));
        Some (Sys r' (PReserved off total p) c (s_sent s) (s_recv s))
      else None
  | MWrite, PReserved off total p, c =>
      Some (Sys (RingC (tail r) (head r) (store_bytes (data r) off p)) (PWritten total p) c
                (s_sent s) (s_recv s))
  | MCommit, PWritten total p, c =>
      Some (Sys (nvkvm_ring_commit r total) PIdle c (s_sent s ++ [p]) (s_recv s))
  | MConsume, ps, CIdle =>
      match peek_iter N (head r) (tail r) (data r) with
      | inl hd' => Some (Sys (RingC (tail r) hd' (data r)) ps CIdle (s_sent s) (s_recv s))
      | inr (POk pay len total) => Some (Sys r ps (CHas pay len total) (s_sent s) (s_recv s))
      | inr _ => None
      end
  | MPop, ps, CHas pay len total =>
      Some (Sys (nvkvm_ring_pop r total) ps CIdle (s_sent s) (s_recv s ++ [load_bytes (data r) pay len]))
  | _, _, _ => None
  end.

Fixpoint exec_all (os : list move) (s : sys) : option sys :=
  match os with [] => Some s | o :: os' => exec o s ≫= exec_all os' end.

Lemma exec_step o s s' : exec o s = Some s' -> step s s'.
Proof.
  destruct s as [r ps c sent recv]. destruct o, ps, c; simpl; intros He; try done;
    try (injection He as <-; constructor).
  all: try (destruct (Z.ltb_spec (Z.of_nat (length p)) W32); [|done]).
  all: try (destruct (nvkvm_ring_reserve r N _) as [[[? ?] ?]|] eqn:E; [|done];
            simpl in He; injection He as <-; by constructor).
  all: destruct (peek_iter N (head r) (tail r) (data r)) as [hd'|[| |]] eqn:E; try done;
       injection He as <-; by constructor.
Qed.

(** An empty ring whose counters sit at any aligned position. *)
Definition initial (s : sys) : Prop :=
  exists h m, 0 <= h < W64 /\ h mod 8 = 0 /\ s = Sys (RingC h h m) PIdle CIdle [] [].

Inductive reachable : sys -> Prop :=
| reach_init s : initial s -> reachable s
| reach_step s s' : reachable s -> step s s' -> reachable s'.

Lemma exec_all_reach os s s' : reachable s -> exec_all os s = Some s' -> reachable s'.
Proof.
  revert s. induction os as [|o os IH]; intros s Hr; simpl; [by intros [=<-]|].
  destruct (exec o s) as [s1|] eqn:E; simpl; [|done]. apply IH.
  eapply reach_step; [done|by apply exec_step in E].
Qed.

Definition prod_ok (r : nvkvm_ring) (used : Z) (ps : pstate) : Prop :=
  match ps with
  | PIdle => True
  | PReserved off total p =>
      resv (data r) N (tail r) total off (Z.of_nat (length p)) /\ Z.of_nat (length p) < W32 /\
      Z.of_nat (length p) <= N /\ 8 <= total /\ total mod 8 = 0 /\ used + total <= N
  | PWritten total p =>
      8 <= total /\ total mod 8 = 0 /\ used + total <= N /\
      exists x, padded p x /\ recs (data r) N (tail r) [x] total
  end.

(** The record a consumer holds is the first of the queue. *)
Definition cons_ok (r : nvkvm_ring) (used : Z) (q : list (list Z)) (c : cstate) : Prop :=
  match c with
  | CIdle => True
  | CHas pay len total =>
      8 <= total <= used /\ total mod 8 = 0 /\ pay = head r mod N + 8 /\ len = total - 8 /\
      head r mod N + total <= N /\
      exists q', q = load_bytes (data r) pay len :: q' /\ recs (data r) N (head r + total) q' (used - total)
  end.

Record sys_inv (s : sys) (q : list (list Z)) (used : Z) : Prop := {
  si_ctr : ctr_ok (s_ring s) N used;
  si_recs : recs (data (s_ring s)) N (head (s_ring s)) q used;
  si_fifo : Forall2 padded (s_sent s) (s_recv s ++ q);
  si_prod : prod_ok (s_ring s) used (s_prod s);
  si_cons : cons_ok (s_ring s) used q (s_cons s)
}.

(** What the consumer holds survives writes to the free part of the ring. *)
Lemma cons_frame r m' used q c :
  ctr_ok r N used -> cons_ok r used q c ->
  (forall i, 0 <= i < used -> get m' ((head r + i) mod N) = get (data r) ((head r + i) mod N)) ->
  cons_ok (RingC (tail r) (head r) m') used q c.
Proof.
  intros Hc. pose proof (ctr_facts _ _ _ Hc) as (_ & _ & _ & _ & HN & _).
  destruct c as [|pay len total]; [done|]. simpl.
  intros (Hl & Hm & -> & -> & Hfit & q' & -> & Hr) Hf. split_and!; auto; try lia. exists q'. split.
  - f_equal. symmetry. apply load_bytes_ext. intros i Hi. specialize (Hf (8 + i) ltac:(lia)).
    rewrite <- Zplus_mod_idemp_l, Z.mod_small, Z.add_assoc in Hf; [done|].
    pose proof (Z.mod_pos_bound (head r) N). lia.
  - eapply recs_frame; [lia|exact Hr|]. intros i Hi. specialize (Hf (total + i) ltac:(lia)).
    by rewrite Z.add_assoc in Hf.
Qed.

(** The producer's position does not move when the consumer advances. *)
Lemma prod_advance r used k ps :
  0 <= k -> prod_ok r used ps -> prod_ok (RingC (tail r) (head r ⊕ k) (data r)) (used - k) ps.
Proof. intros Hk. destruct ps; simpl; [done|..]; intros Hp; intuition lia. Qed.

Lemma step_prod_inv r c sent recv p r' off total q used :
  Z.of_nat (length p) < W32 ->
  nvkvm_ring_reserve r N (Z.of_nat (length p)) = Some (r', off, total) ->
  sys_inv (Sys r PIdle c sent recv) q used ->
  sys_inv (Sys r' (PReserved off total p) c sent recv) q used.
Proof.
  intros Hl Hres [Hc Hr Hf _ Hcons]; simpl in *.
  pose proof (reserve_spec r N used (Z.of_nat (length p)) Hc ltac:(lia)) as Hs.
  pose proof (ctr_facts _ _ _ Hc) as (_ & _ & _ & _ & HN & _).
  assert (Z.of_nat (length p) <= N) as HlN.
  { revert Hres. unfold nvkvm_ring_reserve. rewrite cap_ok_size by apply Hc. simpl.
    case_if; [done|]. zb. lia. }
  rewrite Hres in Hs. destruct r' as [tl hd m']. simpl in Hs.
  destruct Hs as (-> & -> & H8 & Hm8 & Hroom & Hresv & Hframe). split; simpl; auto.
  - destruct Hc as [? ? ? ? ?]. by split.
  - eapply recs_frame; [lia|exact Hr|exact Hframe].
  - split_and!; auto.
  - by apply (cons_frame r).
Qed.

Lemma step_write_inv r c sent recv off total p q used :
  sys_inv (Sys r (PReserved off total p) c sent recv) q used ->
  sys_inv (Sys (RingC (tail r) (head r) (store_bytes (data r) off p)) (PWritten total p) c sent recv) q used.
Proof.
  intros [Hc Hr Hf (Hresv & Hl & HlN & H8 & Hm8 & Hroom) Hcons]; simpl in *.
  pose proof (ctr_facts _ _ _ Hc) as (_ & _ & _ & _ & HN & _).
  pose proof (fun i => resv_write_frame r N used total off p i Hc Hresv Hroom Hl HlN) as Hframe.
  pose proof (co_used _ _ _ Hc) as Hu. assert (total <= N) as HtN by lia.
  destruct (resv_write _ _ _ _ _ _ (co_cap _ _ _ Hc) Hresv HtN Hl HlN) as (x & Hpad & Hrx).
  split; simpl; auto.
  - destruct Hc as [? ? ? ? ?]. by split.
  - eapply recs_frame; [lia|exact Hr|exact Hframe].
  - split_and!; auto. by exists x.
  - by apply (cons_frame r).
Qed.

Lemma step_commit_inv r c sent recv total p q used :
  sys_inv (Sys r (PWritten total p) c sent recv) q used ->
  exists x, sys_inv (Sys (nvkvm_ring_commit r total) PIdle c (sent ++ [p]) recv) (q ++ [x]) (used + total).
Proof.
  intros [Hc Hr Hf (H8 & Hm8 & Hroom & x & Hpad & Hrx) Hcons]; simpl in *. exists x.
  pose proof (ctr_facts _ _ _ Hc) as (_ & Htm & _ & _ & HN & _).
  pose proof (co_used _ _ _ Hc) as Hu. split; simpl; auto.
  - destruct Hc as [Hcap Hh Ht _ [? ?]]. split; simpl; auto; [|lia|split; [done|mlia]].
    rewrite Ht, u64_add_l. f_equal. lia.
  - apply recs_app; [done|]. eapply recs_pos_mod; [|exact Htm|exact Hrx]. lia.
  - rewrite (assoc_L (++)). apply Forall2_app; [done|]. by constructor.
  - destruct c as [|pay len tot]; [done|]. simpl in *.
    destruct Hcons as (? & ? & ? & ? & ? & q' & -> & Hr'). split_and!; auto; try lia.
    exists (q' ++ [x]). split; [done|]. replace (used + total - tot) with (used - tot + total) by lia.
    apply recs_app; [done|]. replace (head r + tot + (used - tot)) with (head r + used) by lia.
    eapply recs_pos_mod; [|exact Htm|exact Hrx]. lia.
Qed.

Lemma step_cons_inv r ps sent recv q used k q' :
  sys_inv (Sys r ps CIdle sent recv) q used -> 0 <= k <= used -> k mod 8 = 0 ->
  recs (data r) N (head r + k) q' (used - k) ->
  forall recv', Forall2 padded sent (recv' ++ q') ->
  sys_inv (Sys (RingC (tail r) (head r ⊕ k) (data r)) ps CIdle sent recv') q' (used - k).
Proof.
  intros [Hc Hr Hf Hp _] Hk Hk8 Hr' recv' Hf'; simpl in *.
  pose proof (ctr_facts _ _ _ Hc) as (_ & _ & _ & _ & HN & _).
  split; simpl; auto.
  - by apply ctr_advance.
  - eapply recs_pos_mod; [lia| |exact Hr']. symmetry. apply cap_mod_u64, Hc.
  - apply (prod_advance r); [lia|done].
Qed.

Lemma reachable_inv s : cap_ok N -> reachable s -> exists q used, sys_inv s q used.
Proof.
  intros Hcap. induction 1 as [s (h & m & Hh & H8 & ->)|s s' _ (q & used & IH) Hst].
  - exists [], 0. pose proof (cap_ok_bounds _ Hcap) as [HN _]. split; simpl; try done.
    + split; simpl; auto; [|lia]. rewrite Z.add_0_r. by rewrite u64_small.
    + constructor.
  - destruct Hst as [r c sent recv p r' off total Hl Hres|r c sent recv off total p|r c sent recv total p
      |r ps sent recv hd' Hpk|r ps sent recv pay len total Hpk|r ps sent recv pay len total].
    + exists q, used. by eapply step_prod_inv.
    + exists q, used. by apply step_write_inv.
    + apply step_commit_inv in IH as [x IH]. eauto.
    + pose proof (peek_iter_spec r N q used (si_ctr _ _ _ IH) (si_recs _ _ _ IH)) as Hs.
      destruct q as [|x q']; [congruence|]. destruct Hs as [(k & Hk & Hk1 & Hk8 & Hr')|(len & Hk & _)]; [|congruence].
      rewrite Hpk in Hk. injection Hk as ->. exists (x :: q'), (used - k).
      eapply step_cons_inv; [exact IH|lia|done|done|]. exact (si_fifo _ _ _ IH).
    + exists q, used. destruct IH as [Hc Hr Hf Hp _]. split; auto. simpl in *.
      pose proof (peek_iter_spec r N q used Hc Hr) as Hs.
      destruct q as [|x q']; [congruence|]. destruct Hs as [(k & Hk & _)|(l & Hk & Hl & Hl8 & Hfit & Hx & Hr')]; [congruence|].
      rewrite Hpk in Hk. injection Hk as -> -> ->. split_and!; auto; try lia. exists q'. by rewrite <- Hx.
    + destruct (si_cons _ _ _ IH) as (Hl & Hl8 & -> & -> & Hfit & q' & -> & Hr'). simpl in *.
      exists q', (used - total). destruct IH as [Hc Hr Hf Hp _].
      eapply (step_cons_inv r ps sent recv); [by split|lia|done|done|].
      simpl in Hf. by rewrite <- (assoc_L (++)).
Qed.
End System.

(** ** Theorems *)

(** C3: whatever the interleaving of producer and consumer steps, what the
    consumer has copied out is exactly a prefix of what the producer committed,
    in order and byte for byte up to fewer than 8 bytes of alignment padding;
    the consumer never finds the ring malformed, and when it finds it empty it
    has received everything committed. *)
Theorem ring_fifo N s :
  cap_ok N -> reachable N s ->
  let r := s_ring s in
  (exists q, Forall2 padded (s_sent s) (s_recv s ++ q)) /\
  peek_iter N (head r) (tail r) (data r) <> inr PBad /\
  (peek_iter N (head r) (tail r) (data r) = inr PEmpty -> Forall2 padded (s_sent s) (s_recv s)).
Proof.
  intros Hcap Hr. destruct (reachable_inv N s Hcap Hr) as (q & used & [Hc Hq Hf _ _]).
  pose proof (peek_iter_spec _ _ _ _ Hc Hq) as Hs. split; [by exists q|].
  destruct q as [|x q'].
  - rewrite Hs, app_nil_r in *. done.
  - destruct Hs as [(k & -> & _)|(len & -> & _)]; done.
Qed.

(** Two messages in flight around the 2^64 wrap of the counters. *)
Definition demo_sys : sys := Sys (RingC (W64 - 16) (W64 - 16) ∅) PIdle CIdle [] [].
Definition demo_moves : list move :=
  [MReserve [1; 2; 3]; MWrite; MCommit; MReserve [4]; MConsume; MWrite; MPop; MCommit; MConsume; MPop].
Definition demo_end : sys := default demo_sys (exec_all 64 demo_moves demo_sys).

Lemma ring_fifo_witness :
  s_sent demo_end = [[1; 2; 3]; [4]] /\ Forall2 padded (s_sent demo_end) (s_recv demo_end).
Proof.
  split; [vm_compute; reflexivity|].
  apply (ring_fifo 64 demo_end); [exists 6; lia| |vm_compute; reflexivity].
  apply (exec_all_reach 64 demo_moves demo_sys); [|vm_compute; reflexivity].
  apply reach_init. exists (W64 - 16), ∅. split_and!; [lia|lia|reflexivity|reflexivity].
Defined.

(** One iteration against a hostile producer. *)
Lemma peek_iter_bounds k hd tl m :
  3 <= k <= 63 -> 0 <= hd < W64 -> 0 <= tl < W64 ->
  match peek_iter (2 ^ k) hd tl m with
  | inl hd' => 0 <= hd' < W64 /\ hd' mod 8 = hd mod 8 /\
               exists len, 8 <= len /\ hd' = hd ⊕ len /\ len <= tl ⊖ hd <= 2 ^ k
  | inr (POk pay len total) =>
      8 <= pay /\ 0 <= len /\ pay + len <= 2 ^ k /\ total = len + 8 /\ total mod 8 = 0
  | inr _ => True
  end.
Proof.
  intros Hk Hh Ht. unfold peek_iter, sizeof_rec. rewrite land_low by lia.
  assert (0 < 2 ^ k <= 2 ^ 63) as HP.
  { split; [apply Z.pow_pos_nonneg; lia|apply Z.pow_le_mono_r; lia]. }
  pose proof (Z.mod_pos_bound hd (2 ^ k) ltac:(lia)). case_if; [done|]. case_if; [done|].
  set (len := load32 m (hd mod 2 ^ k)). change (NVKVM_RING_ALIGN - 1) with (2 ^ 3 - 1).
  rewrite land_low by lia. change (2 ^ 3) with 8. case_if; [done|]. zb.
  rewrite u64_small in * by lia. case_if.
  - split_and!; [apply u64_range|apply u64_range|mlia|exists len; split_and!; auto; lia].
  - case_if; [done|]. split_and!; auto; lia.
Qed.

Lemma size_ok_pow2_64 cap : 0 <= cap < W64 -> nvkvm_ring_size_ok cap = true -> exists k, 6 <= k <= 63 /\ cap = 2 ^ k.
Proof.
  intros Hc Es. destruct (size_ok_pow2 cap ltac:(lia) Es) as (k & Hk & ->). exists k. split; [|done].
  destruct (Z.le_gt_cases k 63); [done|]. assert (2 ^ 64 <= 2 ^ k) by (apply Z.pow_le_mono_r; lia).
  change (2 ^ 64) with W64 in *. lia.
Qed.

Definition view_ok (o : view) : Prop := 0 <= o_head o < W64 /\ 0 <= o_tail o < W64.

(** A record the consumer accepts lies inside the data region. *)
Lemma peek_obs_in cap obs acts pay len total :
  0 <= cap < W64 -> Forall view_ok obs ->
  nvkvm_ring_peek_obs cap obs = (acts, Some (POk pay len total)) ->
  8 <= pay /\ 0 <= len /\ pay + len <= cap /\ total = len + 8 /\ total mod 8 = 0.
Proof.
  intros Hc Ho. unfold nvkvm_ring_peek_obs. destruct (nvkvm_ring_size_ok cap) eqn:Es; simpl; [|done].
  destruct (size_ok_pow2_64 cap Hc Es) as (k & Hk & ->). clear Es Hc. revert acts.
  induction Ho as [|o obs [Hh Ht] _ IH]; intros acts; simpl; [done|].
  pose proof (peek_iter_bounds k _ _ (o_mem o) ltac:(lia) Hh Ht) as Hi.
  destruct (peek_iter _ _ _ _) as [hd1|res1]; [|by intros [=_ ->]].
  destruct (peek_loop _ obs) as [a r]. intros [=_ ->]. by apply (IH a).
Qed.

(** What an access may do, given what the iterations saw. *)
Definition access_ok (cap : Z) (obs : list view) (a : peek_act) : Prop :=
  match a with
  | PRead off => exists o, o ∈ obs /\ off = o_head o mod cap /\ 0 <= off < cap /\ (o_head o mod 8 = 0 -> off + 8 <= cap)
  | PStore hd => exists o len, o ∈ obs /\ hd = o_head o ⊕ len /\ 8 <= len <= o_tail o ⊖ o_head o /\ hd mod 8 = o_head o mod 8
  end.

Lemma access_more cap o obs a : access_ok cap obs a -> access_ok cap (o :: obs) a.
Proof. destruct a; [intros (x & Hx & H)|intros (x & l & Hx & H)]; [exists x|exists x, l]; (split; [by right|done]). Qed.

Lemma aligned_fits k x : 6 <= k -> x mod 8 = 0 -> x mod 2 ^ k + 8 <= 2 ^ k.
Proof.
  intros Hk Hx. assert (2 ^ k = 8 * 2 ^ (k - 3)) as Hp.
  { change 8 with (2 ^ 3). rewrite <- Z.pow_add_r by lia. f_equal. lia. }
  assert (0 < 2 ^ (k - 3)) by (apply Z.pow_pos_nonneg; lia). rewrite Hp.
  assert (x = 8 * (x / 8)) as -> by mlia. rewrite Zmult_mod_distr_l.
  pose proof (Z.mod_pos_bound (x / 8) (2 ^ (k - 3)) ltac:(lia)). lia.
Qed.

Lemma read_ok k o obs : 6 <= k <= 63 -> o ∈ obs -> Forall (access_ok (2 ^ k) obs) (peek_read (2 ^ k) o).
Proof.
  intros Hk Hin. unfold peek_read. cbv zeta. case_if; [constructor|]. constructor; [|constructor].
  rewrite land_low by lia. exists o. split; [done|]. split; [done|].
  assert (0 < 2 ^ k) by (apply Z.pow_pos_nonneg; lia). split; [by apply Z.mod_pos_bound|]. intros. apply aligned_fits; [lia|done].
Qed.

Lemma loop_access k obs : 6 <= k <= 63 -> Forall view_ok obs -> Forall (access_ok (2 ^ k) obs) (fst (peek_loop (2 ^ k) obs)).
Proof.
  intros Hk Ho. induction Ho as [|o obs [Hh Ht] _ IH]; simpl; [constructor|].
  pose proof (peek_iter_bounds k _ _ (o_mem o) ltac:(lia) Hh Ht) as Hi.
  destruct (peek_iter _ _ _ _) as [hd1|res1]; [|apply read_ok; [lia|left]].
  destruct Hi as (_ & Ha & len & Hl & -> & Hle & _). destruct (peek_loop _ obs) as [a r]. cbn [fst] in *.
  apply Forall_app. split; [apply read_ok; [lia|left]|]. constructor; [|eapply Forall_impl; [exact IH|apply access_more]].
  exists o, len. split; [left|]. split; [done|]. split; [lia|done].
Qed.

(** C39: the consumer against a hostile peer, which writes the counters, the
    consumer's own head among them, and the bytes between any two looks at them.
    A record the consumer accepts lies wholly inside the data region of the
    trusted capacity.  Each header is read at an offset inside the region, and
    lies in it as a whole when the head read in that iteration is a multiple of
    8; the heads the consumer stores past skip records keep the alignment of the
    head it read.  Alignment is not established: from a forged head a header can
    reach up to seven bytes past the end ([forged_head_reads_past]). *)
Theorem peek_hostile_bounds cap obs acts res :
  0 <= cap < W64 -> Forall view_ok obs -> nvkvm_ring_peek_obs cap obs = (acts, res) ->
  Forall (access_ok cap obs) acts /\
  (forall pay len total, res = Some (POk pay len total) ->
     8 <= pay /\ 0 <= len /\ pay + len <= cap /\ total = len + 8 /\ total mod 8 = 0).
Proof.
  intros Hc Ho Hp. split; [|by intros pay len total ->; apply (peek_obs_in cap obs acts)].
  revert Hp. unfold nvkvm_ring_peek_obs. destruct (nvkvm_ring_size_ok cap) eqn:Es; simpl; [|by intros [=<- <-]].
  destruct (size_ok_pow2_64 cap Hc Es) as (k & Hk & ->). intros Hp. pose proof (loop_access k obs Hk Ho) as H. by rewrite Hp in H.
Qed.

(** A skip record, then a head moved by the peer, then a record. *)
Definition hostile_views : list view :=
  [View 0 24 (store32 (store32 ∅ 0 8) 4 0); View 16 40 (store32 (store32 ∅ 16 16) 20 1)].

Lemma peek_hostile_bounds_witness :
  nvkvm_ring_peek_obs 64 hostile_views = ([PRead 0; PStore 8; PRead 16], Some (POk 24 8 16)) /\
  Forall (access_ok 64 hostile_views) [PRead 0; PStore 8; PRead 16] /\ 24 + 8 <= 64.
Proof.
  assert (nvkvm_ring_peek_obs 64 hostile_views = ([PRead 0; PStore 8; PRead 16], Some (POk 24 8 16))) as E
    by (vm_compute; reflexivity).
  split; [exact E|].
  destruct (peek_hostile_bounds 64 hostile_views [PRead 0; PStore 8; PRead 16] (Some (POk 24 8 16))) as [H1 H2];
    [lia|repeat constructor; simpl; lia|exact E|].
  split; [exact H1|]. exact (proj1 (proj2 (proj2 (H2 24 8 16 eq_refl)))).
Defined.

(** A forged head: the header is read at the last byte of the region. *)
Lemma forged_head_reads_past m :
  PRead 63 ∈ fst (nvkvm_ring_peek_obs 64 [View 63 79 m]) /\ 63 + sizeof_rec > 64.
Proof.
  split; [|done]. unfold nvkvm_ring_peek_obs. simpl. destruct (peek_iter 64 63 79 m); vm_compute; left.
Qed.

Lemma peek_loop_total k m tl n : forall hd,
  3 <= k <= 63 -> 0 <= hd < W64 -> 0 <= tl < W64 -> (tl ⊖ hd) / 8 + 1 < Z.of_nat n ->
  snd (peek_loop (2 ^ k) (quiet_views (2 ^ k) n hd tl m)) <> None.
Proof.
  induction n as [|n IH]; intros hd Hk Hh Ht Hn.
  { pose proof (u64_range (tl - hd)). exfalso. assert (0 <= (tl ⊖ hd) / 8) by (apply Z.div_pos; lia). lia. }
  simpl. pose proof (peek_iter_bounds k hd tl m Hk Hh Ht) as Hi.
  destruct (peek_iter (2 ^ k) hd tl m) as [hd1|res]; [|done].
  destruct Hi as (Hr & _ & len & Hl & -> & Hle & _). specialize (IH (hd ⊕ len) Hk Hr Ht).
  destruct (peek_loop _ _) as [a r]. apply IH.
  rewrite u64_sub_r, Z.sub_add_distr. pose proof (u64_range (tl - hd)).
  rewrite <- u64_sub_l, (u64_small (u64 (tl - hd) - len)) by lia.
  assert ((u64 (tl - hd) - len) / 8 <= (u64 (tl - hd)) / 8 - 1); [|lia].
  Z.div_mod_to_equations. lia.
Qed.

Lemma stored_keeps a : forall r, tail (stored r a) = tail r /\ data (stored r a) = data r.
Proof. unfold stored. induction a as [|[|] a IH]; intros r; simpl; [done|apply IH|]. by destruct (IH (RingC (tail r) hd (data r))). Qed.

(** [peek] returns after a bounded number of rounds on every ring, however
    malformed: while the producer is quiet each round either answers or
    consumes at least 8 of the bytes the counters claim. *)
Theorem peek_terminates r cap :
  0 <= head r < W64 -> 0 <= tail r < W64 -> 0 <= cap < W64 ->
  exists r' res, nvkvm_ring_peek r cap = Some (r', res) /\ tail r' = tail r /\ data r' = data r.
Proof.
  intros Hh Ht Hc. unfold nvkvm_ring_peek.
  destruct (nvkvm_ring_peek_obs cap _) as [a [res|]] eqn:Ep; [by exists (stored r a), res; split; [|apply stored_keeps]|].
  exfalso. revert Ep. unfold nvkvm_ring_peek_obs. destruct (nvkvm_ring_size_ok cap) eqn:Es; simpl; [|done].
  destruct (size_ok_pow2_64 cap Hc Es) as (k & Hk & ->).
  assert (0 <= 2 ^ k / 8) by (apply Z.div_pos; lia).
  destruct (Z.le_gt_cases (tail r ⊖ head r) (2 ^ k)) as [Hle|Hgt].
  - intros Ep. pose proof (peek_loop_total k (data r) (tail r) (Z.to_nat (2 ^ k / 8 + 2)) (head r) ltac:(lia) Hh Ht) as H1.
    rewrite Ep in H1. apply H1; [|done]. assert ((tail r ⊖ head r) / 8 <= 2 ^ k / 8) by (apply Z.div_le_mono; lia). lia.
  - replace (Z.to_nat (2 ^ k / 8 + 2)) with (S (Z.to_nat (2 ^ k / 8 + 1))) by lia. simpl.
    assert (peek_iter (2 ^ k) (head r) (tail r) (data r) = inr PBad) as ->; [|done].
    unfold peek_iter. rewrite (proj2 (Z.eqb_neq _ _)) by (pose proof (Z.pow_pos_nonneg 2 k); lia).
    rewrite (proj2 (Z.ltb_lt (2 ^ k) _)) by done. by rewrite orb_true_r.
Qed.

(** A ring whose bytes are all zero but whose counters claim 16 bytes. *)
Lemma peek_terminates_witness :
  nvkvm_ring_peek (RingC 16 0 ∅) 64 = Some (RingC 16 0 ∅, PBad) /\
  exists r' res, nvkvm_ring_peek (RingC 16 0 ∅) 64 = Some (r', res) /\ tail r' = 16 /\ data r' = ∅.
Proof.
  split; [vm_compute; reflexivity|]. apply (peek_terminates (RingC 16 0 ∅) 64); simpl; lia.
Defined.

(** An empty ring accepts every payload whose record takes at most half of
    the capacity, wherever the counters happen to stand. *)
Theorem ring_progress r N n :
  ctr_ok r N 0 -> 0 <= n -> 16 + n <= N / 2 -> nvkvm_ring_reserve r N n <> None.
Proof.
  intros Hc Hn Hsz. pose proof (ctr_facts _ _ _ Hc) as (_ & _ & Htm & _ & HN & _).
  assert (2 * (16 + n) <= N) by mlia. assert (0 <= n < W32) as Hn32 by lia.
  pose proof (reserve_spec r N 0 n Hc Hn32) as Hs.
  destruct (nvkvm_ring_reserve r N n) as [|]; [done|]. exfalso.
  assert (rec_size n < 16 + n); [|lia]. unfold rec_size, sizeof_rec. rewrite u32_small by lia.
  destruct (roundup_spec (8 + n)); lia.
Qed.

Lemma ring_progress_witness : nvkvm_ring_reserve (RingC 40 40 ∅) 64 16 <> None.
Proof.
  apply ring_progress; [|lia|vm_compute; congruence].
  split; simpl; [exists 6; lia|lia|reflexivity|lia|split; reflexivity].
Defined.

(** Above half of the capacity this fails: an empty 64-byte ring standing at
    offset 40 refuses a 40-byte payload, and nothing either side can do to an
    empty ring changes its counters. *)
Lemma large_record_stuck :
  ctr_ok (RingC 40 40 ∅) 64 0 /\ rec_size 40 <= 64 /\ nvkvm_ring_reserve (RingC 40 40 ∅) 64 40 = None.
Proof.
  split; [split; simpl; [exists 6; lia|lia|reflexivity|lia|split; reflexivity]|]. split; vm_compute; [congruence|done].
Qed.

(** With a tail that is not a multiple of 8 the producer writes its wrap header
    past the end of the data region: byte 64 of a 64-byte ring. *)
Lemma forged_tail_writes_past_end :
  match nvkvm_ring_reserve (RingC 61 61 ∅) 64 8 with
  | Some (r', _, _) => data r' !! 64 = Some 0 /\ data r' !! 68 = Some 0
  | None => False
  end.
Proof. vm_compute. split; reflexivity. Qed.

End Ring.
