(* ===== verification/Abi.v ===== *)
(** * Abi: the per-driver-version layout profiles

    Models [src/common/nvkvm_abi.h]: the profile table, the version-string
    parser, and the selection of a profile, shared by the guest module, the
    QEMU device and the isolate stub.  Strings are lists of byte values; the NUL
    terminator is the end of the list. *)
From Stdlib Require Import Ascii String.
From S2P Require Import Prelude.

Module Abi.

Definition NVKVM_ABI_515 : Z := 515.
Definition NVKVM_ABI_525 : Z := 525.
Definition NVKVM_ABI_535 : Z := 535.
Definition NVKVM_ABI_545 : Z := 545.
Definition NVKVM_ABI_550 : Z := 550.
Definition NVKVM_ABI_570 : Z := 570.
Definition NVKVM_ABI_580 : Z := 580.
Definition NVKVM_ABI_610 : Z := 610.

Definition NVKVM_UVM_REGISTER_GPU_SIZE : Z := 40.
Definition NVKVM_UVM_REGISTER_GPU_FD_OFF : Z := 24.
Definition NVKVM_UVM_REGISTER_GPU_STATUS_OFF : Z := 36.

Record nvkvm_abi_profile := Profile {
  abi_id : Z;
  uvm_map_ext_size : Z; uvm_map_ext_fd_off : Z; uvm_sem_pool_size : Z;
  chan_alloc_size : Z; vaspace_alloc_size : Z; mem_alloc_size : Z; nv00de_alloc_size : Z;
  nvos46_size : Z; nvos46_status_off : Z
}.

Definition nvkvm_abi_profiles : list nvkvm_abi_profile := [
  Profile NVKVM_ABI_515 1200 1184 1184 304 48 120 0 56 48;
  Profile NVKVM_ABI_525 1200 1184 1184 304 48 120 4 56 48;
  Profile NVKVM_ABI_535 1200 1184 1184 360 48 120 4 56 48;
  Profile NVKVM_ABI_545 1200 1184 1184 360 48 128 8 56 48;
  Profile NVKVM_ABI_550 9264 9248 9248 360 48 128 8 56 48;
  Profile NVKVM_ABI_570 9264 9248 9248 368 48 128 8 56 48;
  Profile NVKVM_ABI_580 9264 9248 9248 368 56 128 8 64 56;
  Profile NVKVM_ABI_610 9264 9248 9248 376 56 128 8 64 56
].

Definition is_digit (c : Z) : bool := (48 <=? c) && (c <=? 57).

(** [while ( *vs >= '0' && *vs <= '9') v = v * 10 + ( *vs++ - '0')], in 32 bits. *)
Fixpoint parse_num (v : Z) (vs : list Z) : Z * list Z :=
  match vs with
  | c :: r => if is_digit c then parse_num (u32 (v * 10 + (c - 48))) r else (v, vs)
  | [] => (v, [])
  end.

(** [None] is the NULL pointer. *)
Definition nvkvm_abi_parse_major (vs : option (list Z)) : Z :=
  match vs with Some s => fst (parse_num 0 s) | None => 0 end.

(** The component loop: up to [n] numbers separated by dots; components not
    reached stay 0. *)
Fixpoint parse_comps (n : nat) (vs : list Z) : list Z :=
  match n with
  | O => []
  | S n' =>
      let '(v, r) := parse_num 0 vs in
      v :: match r with
           | 46 :: r' => parse_comps n' r'
           | _ => replicate n' 0
           end
  end.

Definition nvkvm_abi_parse_version (vs : option (list Z)) : Z * Z * Z :=
  match vs with
  | None => (0, 0, 0)
  | Some s => let c := parse_comps 3 s in (arr_get c 0, arr_get c 1, arr_get c 2)
  end.

(** Looked up by id; the 570 row is the default. *)
Definition dflt_profile : nvkvm_abi_profile :=
  Profile NVKVM_ABI_515 1200 1184 1184 304 48 120 0 56 48.
#[export] Instance profile_inhabited : Inhabited nvkvm_abi_profile := populate dflt_profile.

Fixpoint by_id_loop (id : Z) (i dflt : nat) (l : list nvkvm_abi_profile) : nat :=
  match l with
  | [] => dflt
  | p :: r =>
      if abi_id p =? id then i
      else by_id_loop id (S i) (if abi_id p =? NVKVM_ABI_570 then i else dflt) r
  end.

Definition nvkvm_abi_by_id (id : Z) : nvkvm_abi_profile :=
  nvkvm_abi_profiles !!! by_id_loop id 0 0 nvkvm_abi_profiles.

Definition nvkvm_abi_id_for_version (major minor patch : Z) : Z :=
  if major =? 0 then NVKVM_ABI_570
  else if major <=? 520 then NVKVM_ABI_515
  else if major <=? 530 then NVKVM_ABI_525
  else if major =? 535 then
    if (minor =? 43) && (patch <? 8) then NVKVM_ABI_525
    else if minor =? 54 then NVKVM_ABI_525
    else NVKVM_ABI_535
  else if major <? 545 then NVKVM_ABI_535
  else if major =? 545 then NVKVM_ABI_545
  else if major <? 550 then NVKVM_ABI_545
  else if major =? 550 then
    if (minor =? 40) && (patch <? 53) then NVKVM_ABI_545 else NVKVM_ABI_550
  else if major <=? 565 then NVKVM_ABI_550
  else if major <=? 579 then NVKVM_ABI_570
  else if major <=? 595 then NVKVM_ABI_580
  else if major <? 610 then NVKVM_ABI_580
  else NVKVM_ABI_610.

Definition nvkvm_abi_id_for_major (major : Z) : Z :=
  nvkvm_abi_id_for_version major UINT32_MAX UINT32_MAX.

Definition nvkvm_abi_for_version (vs : option (list Z)) : nvkvm_abi_profile :=
  let '(major, minor, patch) := nvkvm_abi_parse_version vs in
  nvkvm_abi_by_id (nvkvm_abi_id_for_version major minor patch).

(** ** Printing, for the round trip *)

(** Decimal digits, most significant first; [fuel] digits are enough for 32 bits. *)
Fixpoint digits (fuel : nat) (n : Z) : list Z :=
  match fuel with
  | O => []
  | S f => if n <? 10 then [48 + n] else digits f (n / 10) ++ [48 + n mod 10]
  end.
Definition show_num (n : Z) : list Z := digits 10 n.
Definition show_version (major minor patch : Z) : list Z :=
  show_num major ++ 46 :: show_num minor ++ 46 :: show_num patch.

(** Values read digit by digit, without the 32-bit wrap. *)
Definition val_from (v : Z) (ds : list Z) : Z := fold_left (fun a c => a * 10 + (c - 48)) ds v.

Lemma val_from_ge ds v : Forall (fun c => is_digit c = true) ds -> 0 <= v -> v <= val_from v ds.
Proof.
  intros Hd. revert v. induction Hd as [|c ds Hc _ IH]; intros v Hv; [simpl; lia|].
  unfold is_digit in Hc. zb. unfold val_from in *. simpl. specialize (IH (v * 10 + (c - 48)) ltac:(lia)). lia.
Qed.

Lemma parse_num_digits ds : forall v rest,
  Forall (fun c => is_digit c = true) ds -> 0 <= v -> val_from v ds < W32 ->
  (match rest with c :: _ => is_digit c = false | [] => True end) ->
  parse_num v (ds ++ rest) = (val_from v ds, rest).
Proof.
  induction ds as [|c ds IH]; intros v rest Hd Hv Hlt Hr.
  - simpl. destruct rest as [|c r]; simpl; [done|]. by rewrite Hr.
  - apply Forall_cons in Hd as [Hc Hd]. simpl. rewrite Hc.
    assert (0 <= v * 10 + (c - 48)) as H0 by (unfold is_digit in Hc; zb; lia).
    pose proof (val_from_ge ds _ Hd H0) as Hge. unfold val_from in *. simpl in *.
    rewrite u32_small by lia. by apply IH.
Qed.

Lemma digits_spec f : forall n, 0 <= n < 10 ^ Z.of_nat f -> (0 < f)%nat ->
  Forall (fun c => is_digit c = true) (digits f n) /\ val_from 0 (digits f n) = n.
Proof.
  induction f as [|f IH]; intros n Hn Hf; [lia|]. simpl.
  destruct (Z.ltb_spec n 10).
  - split; [|unfold val_from; simpl; lia]. apply Forall_singleton. unfold is_digit.
    apply andb_true_iff. split; apply Z.leb_le; lia.
  - rewrite Nat2Z.inj_succ, Z.pow_succ_r in Hn by lia.
    destruct f as [|f']; [change (10 ^ Z.of_nat 0) with 1 in Hn; lia|].
    destruct (IH (n / 10)) as [H1 H2]; [|lia|].
    { split; [apply Z.div_pos; lia|apply Z.div_lt_upper_bound; lia]. }
    pose proof (Z.mod_pos_bound n 10 ltac:(lia)). split.
    + apply Forall_app. split; [done|]. apply Forall_singleton. unfold is_digit.
      apply andb_true_iff. split; apply Z.leb_le; lia.
    + unfold val_from in *. rewrite fold_left_app, H2. simpl.
      pose proof (Z.div_mod n 10 ltac:(lia)). lia.
Qed.

Lemma show_num_spec n :
  0 <= n < W32 -> Forall (fun c => is_digit c = true) (show_num n) /\ val_from 0 (show_num n) = n.
Proof. intros Hn. apply digits_spec; [|lia]. change (10 ^ Z.of_nat 10) with 10000000000. lia. Qed.

(** ** Theorems *)

(** The version parser inverts printing: every version of three 32-bit
    components comes back component by component. *)
Theorem version_roundtrip major minor patch :
  0 <= major < W32 -> 0 <= minor < W32 -> 0 <= patch < W32 ->
  nvkvm_abi_parse_version (Some (show_version major minor patch)) = (major, minor, patch) /\
  nvkvm_abi_parse_major (Some (show_version major minor patch)) = major.
Proof.
  intros H1 H2 H3. destruct (show_num_spec major H1) as [D1 V1], (show_num_spec minor H2) as [D2 V2],
    (show_num_spec patch H3) as [D3 V3].
  assert (forall n ds rest, 0 <= n < W32 -> Forall (fun c => is_digit c = true) ds -> val_from 0 ds = n ->
    (match rest with c :: _ => is_digit c = false | [] => True end) ->
    parse_num 0 (ds ++ rest) = (n, rest)) as HP.
  { intros n ds rest Hn Hd Hv Hr. rewrite <- Hv. apply parse_num_digits; auto; lia. }
  unfold nvkvm_abi_parse_version, nvkvm_abi_parse_major, show_version. cbn [parse_comps].
  rewrite (HP major), (HP minor) by done.
  rewrite <- (app_nil_r (show_num patch)), (HP patch) by done. done.
Qed.

Lemma version_roundtrip_witness :
  show_version 575 51 3 = [53; 55; 53; 46; 53; 49; 46; 51] /\
  nvkvm_abi_parse_version (Some (show_version 575 51 3)) = (575, 51, 3).
Proof.
  split; [reflexivity|]. apply (version_roundtrip 575 51 3); lia.
Defined.

(** Profile selection is total and consistent: for every version (also one
    that does not parse) the selected row is in the table and is the row of
    the id that was computed, and in that row the embedded descriptor of
    UVM_MAP_EXTERNAL_ALLOCATION and the status word of NVOS46 lie inside their
    structures. *)
Theorem profile_selection_sound major minor patch :
  let id := nvkvm_abi_id_for_version major minor patch in
  let p := nvkvm_abi_by_id id in
  p ∈ nvkvm_abi_profiles /\ abi_id p = id /\
  16 <= uvm_map_ext_fd_off p /\ uvm_map_ext_fd_off p + 4 <= uvm_map_ext_size p < W16 /\
  nvos46_status_off p + 4 <= nvos46_size p.
Proof.
  assert (forall id, id ∈ [515; 525; 535; 545; 550; 570; 580; 610] ->
    let p := nvkvm_abi_by_id id in
    p ∈ nvkvm_abi_profiles /\ abi_id p = id /\
    16 <= uvm_map_ext_fd_off p /\ uvm_map_ext_fd_off p + 4 <= uvm_map_ext_size p < W16 /\
    nvos46_status_off p + 4 <= nvos46_size p) as Hall.
  { intros id Hid. repeat (apply elem_of_cons in Hid as [->|Hid]);
      [..|by apply elem_of_nil in Hid];
      (split; [apply list_elem_of_In; vm_compute; tauto|]); vm_compute; split_and!; congruence. }
  cbv zeta. apply Hall. unfold nvkvm_abi_id_for_version.
  repeat case_if; apply list_elem_of_In; vm_compute; tauto.
Qed.

(** ** The measured layouts *)

(** One measured layout; [None] is a structure absent from that release. *)
Record layout := Layout {
  m_map_ext_size : Z; m_map_ext_fd_off : Z; m_sem_pool_size : Z;
  m_reg_gpu_size : Z; m_reg_gpu_fd_off : Z; m_reg_gpu_status_off : Z;
  m_chan : Z; m_vaspace : Z; m_mem : Z; m_nv00de : option Z; m_nvos46_size : Z; m_nvos46_status_off : Z
}.

(** The committed sweep [tests/abi_parity/ogkm_abi_sweep_20260826.tsv]: the 216
    published releases, by the layout compiled and measured for each. *)
Open Scope string_scope.
Definition sweep : list (layout * list string) := [
  (Layout 1200 1184 1184 40 24 36 304 48 120 None 56 48,
   [
     "515.43.04"; "515.48.07"; "515.49.05"; "515.49.06"; "515.49.10"; "515.49.14";
     "515.49.15"; "515.49.18"; "515.49.19"; "515.49.24"; "515.49.25"; "515.57"; "515.65.01";
     "515.65.07"; "515.76"; "515.86.01"; "515.105.01"; "520.56.06"; "520.61.05"; "520.61.07"]);
  (Layout 1200 1184 1184 40 24 36 304 48 120 (Some 4) 56 48,
   [
     "525.47.04"; "525.47.06"; "525.47.07"; "525.47.11"; "525.47.13"; "525.47.14";
     "525.47.15"; "525.47.18"; "525.47.22"; "525.47.24"; "525.47.26"; "525.47.27";
     "525.47.31"; "525.47.34"; "525.47.35"; "525.53"; "525.60.11"; "525.60.13"; "525.78.01";
     "525.85.05"; "525.85.12"; "525.89.02"; "525.105.17"; "525.116.03"; "525.116.04";
     "525.125.06"; "525.147.05"; "530.30.02"; "530.41.03"; "535.43.02"; "535.54.03"]);
  (Layout 1200 1184 1184 40 24 36 360 48 120 (Some 4) 56 48,
   [
     "535.43.08"; "535.43.09"; "535.43.10"; "535.43.11"; "535.43.13"; "535.43.15";
     "535.43.16"; "535.43.19"; "535.43.20"; "535.43.22"; "535.43.23"; "535.43.24";
     "535.43.25"; "535.43.28"; "535.86.05"; "535.86.10"; "535.98"; "535.104.05";
     "535.104.12"; "535.113.01"; "535.129.03"; "535.146.02"; "535.154.05"; "535.161.07";
     "535.161.08"; "535.171.04"; "535.179"; "535.183.01"; "535.183.06"; "535.216.01";
     "535.216.03"; "535.230.02"; "535.247.01"; "535.261.03"; "535.274.02"; "535.288.01";
     "535.309.01"]);
  (Layout 1200 1184 1184 40 24 36 360 48 128 (Some 8) 56 48,
   [
     "545.23.06"; "545.23.08"; "545.29.02"; "545.29.03"; "545.29.06"; "550.40.07"]);
  (Layout 9264 9248 9248 40 24 36 360 48 128 (Some 8) 56 48,
   [
     "550.40.53"; "550.40.55"; "550.40.59"; "550.40.61"; "550.40.63"; "550.40.65";
     "550.40.67"; "550.40.70"; "550.40.71"; "550.40.75"; "550.40.76"; "550.40.79";
     "550.40.80"; "550.40.81"; "550.40.82"; "550.40.83"; "550.40.85"; "550.54.14";
     "550.54.15"; "550.67"; "550.76"; "550.78"; "550.90.07"; "550.90.12"; "550.100";
     "550.107.02"; "550.120"; "550.127.05"; "550.127.08"; "550.135"; "550.142";
     "550.144.03"; "550.163.01"; "555.42.02"; "555.42.06"; "555.52.04"; "555.58";
     "555.58.02"; "560.28.03"; "560.31.02"; "560.35.03"; "565.57.01"; "565.77"]);
  (Layout 9264 9248 9248 40 24 36 368 48 128 (Some 8) 56 48,
   [
     "570.86.15"; "570.86.16"; "570.123.01"; "570.123.06"; "570.123.07"; "570.123.10";
     "570.123.11"; "570.123.14"; "570.123.18"; "570.123.19"; "570.124.04"; "570.124.06";
     "570.133.07"; "570.133.20"; "570.144"; "570.148.08"; "570.153.02"; "570.158.01";
     "570.169"; "570.172.08"; "570.181"; "570.190"; "570.195.03"; "570.207"; "570.211.01";
     "575.51.02"; "575.51.03"; "575.57.08"; "575.64"; "575.64.03"; "575.64.05"]);
  (Layout 9264 9248 9248 40 24 36 368 56 128 (Some 8) 64 56,
   [
     "580.65.06"; "580.76.05"; "580.82.07"; "580.82.09"; "580.94.02"; "580.94.03";
     "580.94.06"; "580.94.10"; "580.94.11"; "580.94.13"; "580.94.16"; "580.94.17";
     "580.94.18"; "580.95.05"; "580.105.08"; "580.119.02"; "580.126.09"; "580.126.16";
     "580.126.18"; "580.126.20"; "580.142"; "580.159.03"; "580.159.04"; "580.167.08";
     "580.173.02"; "580.178.04"; "590.44.01"; "590.48.01"; "595.44.02"; "595.44.03";
     "595.44.05"; "595.44.06"; "595.44.07"; "595.44.08"; "595.44.09"; "595.44.10";
     "595.44.11"; "595.44.13"; "595.44.14"; "595.45.04"; "595.58.03"; "595.71.05"; "595.80";
     "595.84"; "595.91.07"]);
  (Layout 9264 9248 9248 40 24 36 376 56 128 (Some 8) 64 56,
   [
     "610.43.02"; "610.43.03"; "610.57.04"])
].
Close Scope string_scope.

Definition bytes_of (s : string) : list Z :=
  map (fun a => Z.of_N (N_of_ascii a)) (list_ascii_of_string s).

(** The selected profile has the measured sizes and offsets; an absent class is
    recorded as size 0. *)
Definition has_layout (p : nvkvm_abi_profile) (l : layout) : bool :=
  (uvm_map_ext_size p =? m_map_ext_size l) && (uvm_map_ext_fd_off p =? m_map_ext_fd_off l) &&
  (uvm_sem_pool_size p =? m_sem_pool_size l) && (chan_alloc_size p =? m_chan l) &&
  (vaspace_alloc_size p =? m_vaspace l) && (mem_alloc_size p =? m_mem l) &&
  (nv00de_alloc_size p =? default 0 (m_nv00de l)) && (nvos46_size p =? m_nvos46_size l) &&
  (nvos46_status_off p =? m_nvos46_status_off l) &&
  (NVKVM_UVM_REGISTER_GPU_SIZE =? m_reg_gpu_size l) &&
  (NVKVM_UVM_REGISTER_GPU_FD_OFF =? m_reg_gpu_fd_off l) &&
  (NVKVM_UVM_REGISTER_GPU_STATUS_OFF =? m_reg_gpu_status_off l).

(** For every release of the committed sweep, the profile selected from its
    version string has exactly the sizes and offsets measured for that release. *)
Theorem selection_matches_sweep l tags tag :
  (l, tags) ∈ sweep -> tag ∈ tags ->
  has_layout (nvkvm_abi_for_version (Some (bytes_of tag))) l = true.
Proof.
  assert (forallb (fun '(l, tags) => forallb (fun tag =>
    has_layout (nvkvm_abi_for_version (Some (bytes_of tag))) l) tags) sweep = true) as Hall
    by (vm_compute; reflexivity).
  intros Hl Ht. apply list_elem_of_In in Hl, Ht.
  apply (proj1 (forallb_forall _ _) Hall) in Hl. by apply (proj1 (forallb_forall _ _) Hl) in Ht.
Qed.

Definition demo_layout : layout := Layout 1200 1184 1184 40 24 36 360 48 128 (Some 8) 56 48.

Lemma selection_matches_sweep_witness :
  has_layout (nvkvm_abi_for_version (Some (bytes_of "550.40.07"))) demo_layout = true.
Proof.
  apply (selection_matches_sweep demo_layout (snd (nth 3 sweep (demo_layout, []))));
    apply list_elem_of_In; vm_compute; auto 20.
Defined.

(** The UVM structure of 550 is 8064 bytes larger than that of 545, not 9180. *)
Lemma v550_growth :
  uvm_map_ext_size (nvkvm_abi_by_id NVKVM_ABI_550) - uvm_map_ext_size (nvkvm_abi_by_id NVKVM_ABI_545) = 8064.
Proof. reflexivity. Qed.

End Abi.
