(* ===== verification/Handles.v ===== *)
(** * Handles: the global handle table

    Models [src/qemu/nvkvm_handle.c] and the render-node lookup of
    [src/qemu/nvkvm_drm_node.h].  Every operation holds [handle_table.lock] for
    its whole body and is one atomic state transformer, except
    [nvkvm_handle_attach_fd], which drops the lock around the identity check: it
    takes what the other threads do in between as an argument.  Answers of the
    kernel ([open], [dup], [memfd_create], [stat], ...) are arguments; each
    operation returns the file descriptors it closes. *)
From S2P Require Import Prelude.

Module Handles.

Definition NVKVM_HANDLE_TYPE_NVIDIA : Z := 1.
Definition NVKVM_HANDLE_TYPE_MEMORY : Z := 2.
Definition NVKVM_HANDLE_MAX : Z := 65536.
Definition NVKVM_HANDLE_MEM_MAX : Z := 1073741824.

Definition NVKVM_DEV_CTL : Z := 0.
Definition NVKVM_DEV_UVM : Z := 1.
Definition NVKVM_DEV_GPU (n : Z) : Z := 16 + n.
Definition NVKVM_DEV_DRM_RD (n : Z) : Z := 32 + n.
Definition NVKVM_DEV_MODESET : Z := 48.
Definition NVKVM_DEV_EVENTFD : Z := 255.

Record nvkvm_handle := Handle {
  h_id : Z; h_gen : Z; h_type : Z; h_fd : Z; h_session : Z; h_dev : Z;
  h_ref : Z; h_size : Z; h_poll : bool; h_in_use : bool
}.

(** A slot after [nvkvm_handle_table_init]. *)
Definition handle0 : nvkvm_handle := Handle 0 0 0 (-1) 0 0 0 0 false false.

(** Slots never touched since init are absent from the map. *)
Record nvkvm_handle_table := Table {
  handles : gmap Z nvkvm_handle; next_id : Z; next_generation : Z
}.

Definition nvkvm_handle_table_init : nvkvm_handle_table := Table ∅ 1 1.

Definition slot (t : nvkvm_handle_table) (id : Z) : nvkvm_handle :=
  default handle0 (handles t !! (id mod NVKVM_HANDLE_MAX)).
Definition set_slot (t : nvkvm_handle_table) (id : Z) (h : nvkvm_handle) : nvkvm_handle_table :=
  Table (<[id mod NVKVM_HANDLE_MAX := h]> (handles t)) (next_id t) (next_generation t).

(** [struct nvkvm_handle] updates. *)
Definition with_fd (h : nvkvm_handle) (fd : Z) : nvkvm_handle :=
  Handle (h_id h) (h_gen h) (h_type h) fd (h_session h) (h_dev h) (h_ref h) (h_size h) (h_poll h) (h_in_use h).
Definition with_ref (h : nvkvm_handle) (n : Z) : nvkvm_handle :=
  Handle (h_id h) (h_gen h) (h_type h) (h_fd h) (h_session h) (h_dev h) n (h_size h) (h_poll h) (h_in_use h).
Definition released (h : nvkvm_handle) (fd : Z) : nvkvm_handle :=
  Handle (h_id h) (h_gen h) (h_type h) fd (h_session h) (h_dev h) (h_ref h) (h_size h) (h_poll h) false.
Definition filled (h : nvkvm_handle) (type fd session dev size : Z) : nvkvm_handle :=
  Handle (h_id h) (h_gen h) type fd session dev (h_ref h) size (h_poll h) (h_in_use h).

(** ** Device names *)
Inductive dev_path := PCtl | PUvm | PModeset | PGpu (n : Z) | PRender (minor : Z).

Definition nvidia_dev_path (dev_id : Z) : option dev_path :=
  if dev_id =? NVKVM_DEV_CTL then Some PCtl
  else if dev_id =? NVKVM_DEV_UVM then Some PUvm
  else
    let n := dev_id - 16 in
    if (0 <=? n) && (n <? 16) then Some (PGpu n) else None.

(** [driver n] is the driver that sysfs names for renderD[n]: [Some true] for
    "nvidia", [Some false] for another one, [None] if the link is unreadable. *)
Definition NVKVM_DRM_RENDER_MIN : Z := 128.
Definition NVKVM_DRM_RENDER_MAX : Z := 192.

Fixpoint render_scan (driver : Z -> option bool) (k : Z) (ns : list Z) (found : Z) (seen : bool) : Z :=
  match ns with
  | [] => if seen then -1 else NVKVM_DRM_RENDER_MIN + k
  | n :: rest =>
      match driver n with
      | None => render_scan driver k rest found seen
      | Some false => render_scan driver k rest found true
      | Some true => if found =? k then n else render_scan driver k rest (found + 1) true
      end
  end.

Definition nvkvm_nvidia_render_minor (driver : Z -> option bool) (k : Z) : Z :=
  render_scan driver k (seqZ NVKVM_DRM_RENDER_MIN (NVKVM_DRM_RENDER_MAX - NVKVM_DRM_RENDER_MIN)) 0 false.

Definition nvkvm_nvidia_render_path (driver : Z -> option bool) (k : Z) : option dev_path :=
  let minor := nvkvm_nvidia_render_minor driver k in
  if minor <? 0 then None else Some (PRender minor).

Definition attach_expect_path (driver : Z -> option bool) (dev_id : Z) : option dev_path :=
  if dev_id =? NVKVM_DEV_CTL then Some PCtl
  else if dev_id =? NVKVM_DEV_UVM then Some PUvm
  else if dev_id =? NVKVM_DEV_MODESET then Some PModeset
  else if (NVKVM_DEV_GPU 0 <=? dev_id) && (dev_id <? NVKVM_DEV_GPU 16) then
    Some (PGpu (dev_id - NVKVM_DEV_GPU 0))
  else if (NVKVM_DEV_DRM_RD 0 <=? dev_id) && (dev_id <? NVKVM_DEV_DRM_RD 16) then
    nvkvm_nvidia_render_path driver (dev_id - NVKVM_DEV_DRM_RD 0)
  else None.

(** [struct stat] as far as the check looks. *)
Inductive st_kind := S_CHR | S_BLK | S_OTHER.
Record stat := Stat { st_mode : st_kind; st_rdev : Z }.
Definition S_ISCHR (s : stat) : bool := match st_mode s with S_CHR => true | _ => false end.
Definition S_ISBLK (s : stat) : bool := match st_mode s with S_BLK => true | _ => false end.

(** [fst_] is the answer of [fstat(fd)], [stat_of] that of [stat(path)]. *)
Definition attach_fd_matches_dev (driver : Z -> option bool) (stat_of : dev_path -> option stat)
    (fst_ : option stat) (dev_id : Z) : bool :=
  match fst_ with
  | None => false
  | Some st =>
      if dev_id =? NVKVM_DEV_EVENTFD then negb (S_ISCHR st) && negb (S_ISBLK st)
      else
        match attach_expect_path driver dev_id ≫= stat_of with
        | None => false
        | Some dev => S_ISCHR dev && (S_ISCHR st && (st_rdev st =? st_rdev dev))
        end
  end.

(** ** Slots *)
Fixpoint alloc_loop (n : nat) (t : nvkvm_handle_table) : nvkvm_handle_table * option Z :=
  match n with
  | O => (t, None)
  | S n' =>
      let id := next_id t in
      let nx := if NVKVM_HANDLE_MAX <=? u32 (id + 1) then 1 else u32 (id + 1) in
      let t1 := Table (handles t) nx (next_generation t) in
      if id =? 0 then alloc_loop n' t1
      else if negb (h_in_use (slot t1 id)) then
        let g := next_generation t1 in
        let g' := u64 (g + 1) in
        (Table (<[id mod NVKVM_HANDLE_MAX := Handle id g 0 (-1) 0 0 0 0 false true]> (handles t1)) nx
               (if g' =? 0 then 1 else g'), Some id)
      else alloc_loop n' t1
  end.

Definition alloc_slot (t : nvkvm_handle_table) : nvkvm_handle_table * option Z :=
  alloc_loop (Z.to_nat NVKVM_HANDLE_MAX) t.

(** ** Operations: new table, return value, handle id (0 if none), fds closed *)
Definition hresult : Type := nvkvm_handle_table * Z * Z * list Z.

(** The common tail: take a slot for [fd] and fill it in. *)
Definition install (t : nvkvm_handle_table) (type fd session dev size : Z) : hresult :=
  match alloc_slot t with
  | (t1, None) => (t1, - EMFILE, 0, if 0 <=? fd then [fd] else [])
  | (t1, Some id) => (set_slot t1 id (filled (slot t1 id) type fd session dev size), 0, id, [])
  end.

(** [k] is the answer of [eventfd] or [open]: an fd, or [-errno]. *)
Definition nvkvm_handle_open_nvidia (t : nvkvm_handle_table) (session dev_id k : Z) : hresult :=
  if dev_id =? NVKVM_DEV_EVENTFD then
    if k <? 0 then (t, k, 0, []) else install t NVKVM_HANDLE_TYPE_NVIDIA k session dev_id 0
  else
    match nvidia_dev_path dev_id with
    | None => (t, - EINVAL, 0, [])
    | Some _ =>
        if k <? 0 then (t, k, 0, []) else install t NVKVM_HANDLE_TYPE_NVIDIA k session dev_id 0
    end.

Definition nvkvm_handle_alloc_pending (t : nvkvm_handle_table) (session dev_id : Z) : hresult :=
  install t NVKVM_HANDLE_TYPE_NVIDIA (-1) session dev_id 0.

Definition live (t : nvkvm_handle_table) (id : Z) : bool :=
  h_in_use (slot t id) && (h_id (slot t id) =? id).

Definition bad_id (id : Z) : bool := (id =? 0) || (NVKVM_HANDLE_MAX <=? id).

(** The two critical sections of [nvkvm_handle_attach_fd]. *)
Definition attach_check (t : nvkvm_handle_table) (id : Z) : Z + Z :=
  if negb (live t id) then inl (- EBADF)
  else if 0 <=? h_fd (slot t id) then inl (- EEXIST)
  else inr (h_dev (slot t id)).

Definition attach_finish (t : nvkvm_handle_table) (id fd : Z) : nvkvm_handle_table * Z :=
  if negb (live t id) then (t, - EBADF)
  else if 0 <=? h_fd (slot t id) then (t, - EEXIST)
  else (set_slot t id (with_fd (slot t id) fd), 0).

(** [matches dev] is the identity check of [fd]; [mid] what other threads do to
    the table while the lock is dropped. *)
Definition nvkvm_handle_attach_fd (matches : Z -> bool) (mid : nvkvm_handle_table -> nvkvm_handle_table)
    (t : nvkvm_handle_table) (id fd : Z) : nvkvm_handle_table * Z :=
  if bad_id id || (fd <? 0) then (t, - EINVAL)
  else
    match attach_check t id with
    | inl e => (t, e)
    | inr dev => if negb (matches dev) then (mid t, - EBADF) else attach_finish (mid t) id fd
    end.

Definition nvkvm_handle_abort_open (t : nvkvm_handle_table) (id : Z) : nvkvm_handle_table :=
  if bad_id id then t
  else if live t id && (h_fd (slot t id) <? 0)
  then set_slot t id (released (slot t id) (h_fd (slot t id))) else t.

(** [k] answers [memfd_create], [tr] is [-errno] of [ftruncate] or 0. *)
Definition nvkvm_handle_open_memory (t : nvkvm_handle_table) (session size k tr : Z) : hresult :=
  if NVKVM_HANDLE_MEM_MAX <? size then (t, - EFBIG, 0, [])
  else if k <? 0 then (t, k, 0, [])
  else if (0 <? size) && (tr <? 0) then (t, tr, 0, [k])
  else install t NVKVM_HANDLE_TYPE_MEMORY k session 0 size.

Definition nvkvm_handle_get (t : nvkvm_handle_table) (id : Z) : option nvkvm_handle :=
  if bad_id id then None else if live t id then Some (slot t id) else None.

(** [k] answers [fcntl(F_DUPFD_CLOEXEC)]; the result is the dup (or -1), the
    dev_id and the generation. *)
Definition nvkvm_handle_acquire_fd (t : nvkvm_handle_table) (id k : Z) : Z * option (Z * Z) :=
  if bad_id id then (-1, None)
  else if live t id && (0 <=? h_fd (slot t id))
  then (k, Some (h_dev (slot t id), h_gen (slot t id))) else (-1, None).

Definition nvkvm_handle_acquire_fd_ref_isolate (t : nvkvm_handle_table) (id k : Z)
    : nvkvm_handle_table * Z * option (Z * Z) :=
  if bad_id id then (t, -1, None)
  else if live t id && (0 <=? h_fd (slot t id)) then
    if 0 <=? k
    then (set_slot t id (with_ref (slot t id) (u32 (h_ref (slot t id) + 1))), k,
          Some (h_dev (slot t id), h_gen (slot t id)))
    else (t, k, None)
  else (t, -1, None).

Definition gen_match (t : nvkvm_handle_table) (id gen : Z) : bool :=
  live t id && negb (negb (gen =? 0) && negb (h_gen (slot t id) =? gen)).

Definition nvkvm_handle_ref_isolate_generation (t : nvkvm_handle_table) (id gen : Z)
    : nvkvm_handle_table * Z :=
  if bad_id id then (t, - EBADF)
  else if negb (gen_match t id gen) then (t, - EBADF)
  else (set_slot t id (with_ref (slot t id) (u32 (h_ref (slot t id) + 1))), 0).

Definition nvkvm_handle_unref_isolate_generation (t : nvkvm_handle_table) (id gen : Z)
    : nvkvm_handle_table * Z :=
  if bad_id id then (t, - EBADF)
  else if negb (gen_match t id gen) then (t, - EBADF)
  else if 0 <? h_ref (slot t id)
  then (set_slot t id (with_ref (slot t id) (h_ref (slot t id) - 1)), 0)
  else (t, 0).

Definition nvkvm_handle_ref_isolate (t : nvkvm_handle_table) (id : Z) : nvkvm_handle_table * Z :=
  nvkvm_handle_ref_isolate_generation t id 0.
Definition nvkvm_handle_unref_isolate (t : nvkvm_handle_table) (id : Z) : nvkvm_handle_table * Z :=
  nvkvm_handle_unref_isolate_generation t id 0.

Definition fd_close (h : nvkvm_handle) : list Z := if 0 <=? h_fd h then [h_fd h] else [].

Definition nvkvm_handle_close (t : nvkvm_handle_table) (id : Z) : nvkvm_handle_table * Z * list Z :=
  if bad_id id then (t, - EBADF, [])
  else if negb (live t id) then (t, - EBADF, [])
  else if 0 <? h_ref (slot t id) then (t, - EBUSY, [])
  else (set_slot t id (released (slot t id) (if 0 <=? h_fd (slot t id) then -1 else h_fd (slot t id))),
        0, fd_close (slot t id)).

(** One round of the [nvkvm_handle_close_session] loop. *)
Definition close_one (session : Z) (acc : nvkvm_handle_table * list Z) (i : Z)
    : nvkvm_handle_table * list Z :=
  let '(t, cl) := acc in
  let h := slot t i in
  if negb (h_in_use h) || negb (h_session h =? session) || (0 <? h_ref h) then acc
  else (set_slot t i (released h (if 0 <=? h_fd h then -1 else h_fd h)), cl ++ fd_close h).

Definition nvkvm_handle_close_session (t : nvkvm_handle_table) (session : Z)
    : nvkvm_handle_table * list Z :=
  fold_left (close_one session) (seqZ 1 (NVKVM_HANDLE_MAX - 1)) (t, []).

(** One round of the [nvkvm_handle_table_fini] loop. *)
Definition fini_one (acc : nvkvm_handle_table * list Z) (i : Z) : nvkvm_handle_table * list Z :=
  let '(t, cl) := acc in
  let h := slot t i in
  if h_in_use h && (0 <=? h_fd h) then (set_slot t i (with_fd h (-1)), cl ++ [h_fd h]) else acc.

Definition nvkvm_handle_table_fini (t : nvkvm_handle_table) : nvkvm_handle_table * list Z :=
  fold_left fini_one (seqZ 0 NVKVM_HANDLE_MAX) (t, []).

(** ** Invariant

    [K] is the set of file descriptors the process has open: those of live
    handles and those callers hold. *)
Definition used_at (t : nvkvm_handle_table) (i : Z) (h : nvkvm_handle) : Prop :=
  handles t !! i = Some h /\ h_in_use h = true.

Record h_inv (t : nvkvm_handle_table) (K : gset Z) : Prop := {
  hi_next : 1 <= next_id t < NVKVM_HANDLE_MAX;
  hi_slot : forall i h, used_at t i h -> 1 <= i < NVKVM_HANDLE_MAX /\ h_id h = i /\ 0 <= h_ref h < W32;
  hi_open : forall i h, used_at t i h -> 0 <= h_fd h -> h_fd h ∈ K;
  hi_inj : forall i j h h', used_at t i h -> used_at t j h' -> 0 <= h_fd h -> h_fd h = h_fd h' -> i = j
}.

(** [fd] belongs to no live handle but possibly the one at [id]. *)
Definition unowned (t : nvkvm_handle_table) (id fd : Z) : Prop :=
  forall i h, used_at t i h -> i <> id -> h_fd h <> fd.

Lemma id_mod id : 1 <= id < NVKVM_HANDLE_MAX -> id mod NVKVM_HANDLE_MAX = id.
Proof. intros. apply Z.mod_small. lia. Qed.

Lemma slot_used t id : 1 <= id < NVKVM_HANDLE_MAX -> h_in_use (slot t id) = true -> used_at t id (slot t id).
Proof.
  intros Hid. unfold slot, used_at. rewrite id_mod by done.
  destruct (handles t !! id); simpl; [done|done].
Qed.

Lemma used_slot t id h : 1 <= id < NVKVM_HANDLE_MAX -> used_at t id h -> slot t id = h.
Proof. intros Hid [Hh _]. unfold slot. rewrite id_mod by done. by rewrite Hh. Qed.

Lemma bad_id_false id : 0 <= id -> bad_id id = false -> 1 <= id < NVKVM_HANDLE_MAX.
Proof. unfold bad_id. intros. zb. lia. Qed.

Lemma slot_set t id h : 1 <= id < NVKVM_HANDLE_MAX -> slot (set_slot t id h) id = h.
Proof. intros. unfold slot, set_slot; simpl. by rewrite id_mod, lookup_insert_eq. Qed.

Lemma slot_set_ne t id j h :
  1 <= id < NVKVM_HANDLE_MAX -> 1 <= j < NVKVM_HANDLE_MAX -> j <> id ->
  slot (set_slot t id h) j = slot t j.
Proof. intros. unfold slot, set_slot; simpl. rewrite !id_mod by done. by rewrite lookup_insert_ne. Qed.

Lemma used_set t id h i h' :
  1 <= id < NVKVM_HANDLE_MAX -> used_at (set_slot t id h) i h' ->
  (i = id /\ h' = h /\ h_in_use h = true) \/ (i <> id /\ used_at t i h').
Proof.
  intros Hid [Hl Hu]. unfold set_slot in Hl; simpl in Hl. rewrite id_mod in Hl by done.
  destruct (decide (i = id)) as [->|].
  - rewrite lookup_insert_eq in Hl. injection Hl as ->. auto.
  - rewrite lookup_insert_ne in Hl by done. right. done.
Qed.

(** Rewriting one slot: the only thing to check is the new contents, and that
    the set of open descriptors only lost what the slot used to hold. *)
Lemma h_inv_set t K K' id h :
  h_inv t K -> 1 <= id < NVKVM_HANDLE_MAX ->
  (h_in_use h = true -> h_id h = id /\ 0 <= h_ref h < W32) ->
  (h_in_use h = true -> 0 <= h_fd h -> h_fd h ∈ K' /\ unowned t id (h_fd h)) ->
  (forall i h', used_at t i h' -> i <> id -> 0 <= h_fd h' -> h_fd h' ∈ K') ->
  h_inv (set_slot t id h) K'.
Proof.
  intros [Hn Hs Ho Hi] Hid Hh Hf HK. split; [done|..].
  - intros i h' [(-> & -> & Hu)|[Hne Hu]]%used_set; auto.
  - intros i h' [(-> & -> & Hu)|[Hne Hu]]%used_set; eauto. by apply Hf.
  - intros i j h1 h2 [(-> & -> & Hu)|[Hne Hu]]%used_set [(-> & -> & Hu2)|[Hne2 Hu2]]%used_set; auto;
      intros Hfd He.
    + destruct (Hf Hu Hfd) as [_ Hun]. by destruct (Hun _ _ Hu2 Hne2).
    + rewrite He in Hfd. destruct (Hf Hu2 Hfd) as [_ Hun]. by destruct (Hun _ _ Hu Hne).
    + eauto.
Qed.

(** Changing nothing but the reference count. *)
Lemma h_inv_ref t K id n :
  h_inv t K -> 1 <= id < NVKVM_HANDLE_MAX -> live t id = true -> 0 <= n < W32 ->
  h_inv (set_slot t id (with_ref (slot t id) n)) K.
Proof.
  intros Hinv Hid Hl Hn. unfold live in Hl. zb. pose proof (slot_used t id Hid ltac:(done)) as Hu.
  apply (h_inv_set t K); auto; simpl.
  - intros _ Hfd. split; [by eapply hi_open|]. intros i h' Hu' Hne He.
    apply Hne. symmetry. by eapply (hi_inj _ _ Hinv id i).
  - intros i h' Hu' _ Hfd. by eapply hi_open.
Qed.

(** Giving a slot up, closing its descriptor if it has one. *)
Lemma h_inv_release t K id fd :
  h_inv t K -> 1 <= id < NVKVM_HANDLE_MAX -> h_in_use (slot t id) = true ->
  h_inv (set_slot t id (released (slot t id) fd)) (K ∖ list_to_set (fd_close (slot t id))) /\
  list_to_set (fd_close (slot t id)) ⊆ K /\ NoDup (fd_close (slot t id)).
Proof.
  intros Hinv Hid Hl. pose proof (slot_used t id Hid Hl) as Hu. split_and!.
  - apply (h_inv_set t K); auto; simpl; [done|done|].
    intros i h' Hu' Hne Hfd. apply elem_of_difference. split; [by eapply hi_open|].
    unfold fd_close. case_if; zb; simpl; [|set_solver]. intros Hin.
    apply elem_of_union in Hin as [He%elem_of_singleton|[]%not_elem_of_empty].
    apply Hne. eapply (hi_inj _ _ Hinv i id); eauto.
  - unfold fd_close. case_if; zb; simpl; [|set_solver].
    apply (hi_open _ _ Hinv) in Hu; [|done]. set_solver.
  - unfold fd_close. case_if; [apply NoDup_singleton|constructor].
Qed.

(** ** Slot allocation *)
Lemma handle_alloc_loop_spec n t K t' o :
  h_inv t K -> alloc_loop n t = (t', o) ->
  1 <= next_id t' < NVKVM_HANDLE_MAX /\
  match o with
  | None => handles t' = handles t /\ next_generation t' = next_generation t /\
      forall k, 0 <= k < Z.of_nat n ->
        h_in_use (slot t (cyc_at NVKVM_HANDLE_MAX (next_id t) k)) = true
  | Some id =>
      1 <= id < NVKVM_HANDLE_MAX /\ h_in_use (slot t id) = false /\
      handles t' = <[id := Handle id (next_generation t) 0 (-1) 0 0 0 0 false true]> (handles t) /\
      next_generation t' =
        (if u64 (next_generation t + 1) =? 0 then 1 else u64 (next_generation t + 1))
  end.
Proof.
  intros Hinv. assert (1 <= next_id t < NVKVM_HANDLE_MAX) as Hn by apply Hinv. clear K Hinv.
  revert t Hn. induction n as [|n IH]; intros t Hn; cbn [alloc_loop].
  { intros [=<- <-]. split_and!; auto; lia. }
  rewrite u32_small by (unfold NVKVM_HANDLE_MAX in *; lia). rewrite cyc_step_if by (done || lia).
  pose proof (cyc_at_range NVKVM_HANDLE_MAX (next_id t) 1 ltac:(done)) as Hc.
  rewrite (proj2 (Z.eqb_neq (next_id t) 0)) by lia.
  set (t1 := Table _ _ _). change (slot t1 (next_id t)) with (slot t (next_id t)).
  destruct (h_in_use (slot t (next_id t))) eqn:Eu; simpl negb; cbv iota.
  - intros Hr. apply IH in Hr as [Hn' Hr]; [|done]. split; [done|]. destruct o as [id|]; [exact Hr|].
    destruct Hr as (H1 & H2 & H3). split_and!; auto. intros k Hk.
    destruct (decide (k = 0)) as [->|]; [by rewrite cyc_at_0|].
    specialize (H3 (k - 1) ltac:(lia)). simpl in H3. rewrite cyc_at_next in H3.
    replace (1 + (k - 1)) with k in H3 by lia. exact H3.
  - intros [=<- <-]. simpl. rewrite id_mod by done. split_and!; auto; lia.
Qed.

Lemma install_spec t K type fd session dev size t' ret id cl :
  h_inv t K -> (0 <= fd -> fd ∈ K /\ unowned t 0 fd) ->
  install t type fd session dev size = (t', ret, id, cl) ->
  (ret = - EMFILE /\ id = 0 /\ handles t' = handles t /\ h_inv t' K /\
   cl = (if 0 <=? fd then [fd] else []) /\
   forall i, 1 <= i < NVKVM_HANDLE_MAX -> h_in_use (slot t i) = true) \/
  (ret = 0 /\ cl = [] /\ 1 <= id < NVKVM_HANDLE_MAX /\ h_in_use (slot t id) = false /\ h_inv t' K /\
   handles t' = <[id := Handle id (next_generation t) type fd session dev 0 size false true]> (handles t)).
Proof.
  intros Hinv Hfd. unfold install, alloc_slot.
  destruct (alloc_loop _ t) as [t1 o] eqn:Ea. apply (handle_alloc_loop_spec _ t K) in Ea as [Hn Ho]; [|done].
  destruct o as [i|]; intros [=<- <- <- <-].
  - right. destruct Ho as (Hi & Hu & Hh & _).
    assert (slot t1 i = Handle i (next_generation t) 0 (-1) 0 0 0 0 false true) as Hsl.
    { unfold slot. by rewrite id_mod, Hh, lookup_insert_eq. }
    split_and!; auto; try lia; rewrite Hsl; unfold set_slot; simpl; rewrite id_mod, Hh by done.
    + assert (h_inv (set_slot t i (Handle i (next_generation t) type fd session dev 0 size false true)) K)
        as [_ H1 H2 H3].
      { apply (h_inv_set t K); auto; simpl; [lia| |intros j h' Hu' _ Hf; by eapply hi_open].
        intros _ Hf. destruct (Hfd Hf) as [Hin Hun]. split; [done|]. intros j h' Hu' _. apply (Hun j h' Hu').
        intros ->. apply (hi_slot _ _ Hinv) in Hu' as [? _]. lia. }
      unfold set_slot in *. rewrite id_mod in * by done. rewrite insert_insert_eq. split; auto.
    + by rewrite insert_insert_eq.
  - left. destruct Ho as (Hh & Hg & Hall). split_and!; auto.
    + destruct Hinv as [_ H1 H2 H3]. destruct t1 as [hs nx g]. simpl in *. subst hs. by split.
    + intros i Hi. destruct (cyc_at_onto _ (next_id t) i (hi_next _ _ Hinv) Hi) as (k & Hk & <-).
      apply Hall. unfold NVKVM_HANDLE_MAX in *. lia.
Qed.

(** ** Histories *)
Inductive hop :=
| HOpenNvidia (session dev k : Z) | HAllocPending (session dev : Z)
| HAttach (id fd : Z)               (* the second critical section *)
| HAbort (id : Z) | HOpenMemory (session size k tr : Z)
| HAcquire (id k : Z) | HAcquireRef (id k : Z)
| HRef (id gen : Z) | HUnref (id gen : Z)
| HClose (id : Z) | HCloseSession (session : Z) | HFini
| HCallerClose (fd : Z).            (* a caller closes a descriptor of its own *)

(** The descriptors an operation makes the kernel open. *)
Definition opens (t : nvkvm_handle_table) (o : hop) : list Z :=
  match o with
  | HOpenNvidia _ dev k =>
      if (0 <=? k) && ((dev =? NVKVM_DEV_EVENTFD) || bool_decide (is_Some (nvidia_dev_path dev)))
      then [k] else []
  | HOpenMemory _ size k _ => if (0 <=? k) && (size <=? NVKVM_HANDLE_MEM_MAX) then [k] else []
  | HAcquire id k | HAcquireRef id k =>
      if (0 <=? k) && negb (bad_id id) && live t id && (0 <=? h_fd (slot t id)) then [k] else []
  | _ => []
  end.

Definition hexec (t : nvkvm_handle_table) (o : hop) : nvkvm_handle_table * list Z :=
  match o with
  | HOpenNvidia s d k => let '(t', _, _, cl) := nvkvm_handle_open_nvidia t s d k in (t', cl)
  | HAllocPending s d => let '(t', _, _, cl) := nvkvm_handle_alloc_pending t s d in (t', cl)
  | HAttach id fd => if bad_id id || (fd <? 0) then (t, []) else (fst (attach_finish t id fd), [])
  | HAbort id => (nvkvm_handle_abort_open t id, [])
  | HOpenMemory s n k tr => let '(t', _, _, cl) := nvkvm_handle_open_memory t s n k tr in (t', cl)
  | HAcquire _ _ => (t, [])
  | HAcquireRef id k => let '(t', _, _) := nvkvm_handle_acquire_fd_ref_isolate t id k in (t', [])
  | HRef id g => (fst (nvkvm_handle_ref_isolate_generation t id g), [])
  | HUnref id g => (fst (nvkvm_handle_unref_isolate_generation t id g), [])
  | HClose id => let '(t', _, cl) := nvkvm_handle_close t id in (t', cl)
  | HCloseSession s => nvkvm_handle_close_session t s
  | HFini => nvkvm_handle_table_fini t
  | HCallerClose fd => (t, [fd])
  end.

(** Closing a list of descriptors; [None] if one of them is not open (a double
    close, or a close of somebody else's descriptor). *)
Definition close_fds (K : gset Z) (l : list Z) : option (gset Z) :=
  if decide (NoDup l /\ list_to_set l ⊆ K) then Some (K ∖ list_to_set l) else None.

Definition hstep (w : nvkvm_handle_table * gset Z) (o : hop) : option (nvkvm_handle_table * gset Z) :=
  let '(t, K) := w in
  let '(t', cl) := hexec t o in
  K' ← close_fds (list_to_set (opens t o) ∪ K) cl; Some (t', K').

(** What callers and the kernel owe: ids are unsigned, a descriptor the kernel
    returns is not already open, and a caller attaches or closes only
    descriptors of its own. *)
Definition hop_ok (w : nvkvm_handle_table * gset Z) (o : hop) : Prop :=
  let '(t, K) := w in
  match o with
  | HOpenNvidia _ _ k | HOpenMemory _ _ k _ => k ∉ K
  | HAcquire id k | HAcquireRef id k => k ∉ K /\ 0 <= id
  | HAttach id fd => 0 <= id /\ (0 <= fd -> fd ∈ K /\ unowned t 0 fd)
  | HCallerClose fd => fd ∈ K /\ unowned t 0 fd
  | HAbort id | HRef id _ | HUnref id _ | HClose id => 0 <= id
  | _ => True
  end.

Fixpoint hrun (w : nvkvm_handle_table * gset Z) (ops : list hop) : option (nvkvm_handle_table * gset Z) :=
  match ops with [] => Some w | o :: r => hstep w o ≫= fun w' => hrun w' r end.

Fixpoint hvalid (w : nvkvm_handle_table * gset Z) (ops : list hop) : Prop :=
  match ops with
  | [] => True
  | o :: r => hop_ok w o /\ forall w', hstep w o = Some w' -> hvalid w' r
  end.

Lemma h_inv_K t K K' :
  h_inv t K -> (forall i h, used_at t i h -> 0 <= h_fd h -> h_fd h ∈ K') -> h_inv t K'.
Proof. intros [] HK. by split. Qed.

Lemma fresh_unowned t K k : h_inv t K -> 0 <= k -> k ∉ K -> unowned t 0 k.
Proof. intros Hinv Hk Hn i h Hu _ <-. apply Hn. by eapply hi_open. Qed.

(** A loop over slots that gives some of them up. *)
Definition fold_ok (K : gset Z) (acc : nvkvm_handle_table * list Z) : Prop :=
  h_inv (fst acc) (K ∖ list_to_set (snd acc)) /\ NoDup (snd acc) /\ list_to_set (snd acc) ⊆ K.

Lemma fold_ok_close K t cl c t' :
  fold_ok K (t, cl) -> h_inv t' ((K ∖ list_to_set cl) ∖ list_to_set c) ->
  list_to_set c ⊆ K ∖ list_to_set cl -> NoDup c -> fold_ok K (t', cl ++ c).
Proof.
  intros (_ & Hnd & Hsub) Ht' Hc Hndc. simpl in *. split_and!; simpl.
  - rewrite list_to_set_app_L. by rewrite <- difference_difference_l_L.
  - apply NoDup_app. split_and!; auto. intros x Hx Hxc. set_solver.
  - rewrite list_to_set_app_L. set_solver.
Qed.

Lemma close_one_ok K s acc i :
  1 <= i < NVKVM_HANDLE_MAX -> fold_ok K acc -> fold_ok K (close_one s acc i).
Proof.
  intros Hi Hok. destruct acc as [t cl]. unfold close_one.
  destruct (h_in_use (slot t i)) eqn:Eu; simpl; [|done]. case_if; [done|].
  destruct (h_inv_release t _ i (if 0 <=? h_fd (slot t i) then -1 else h_fd (slot t i)) (proj1 Hok) Hi Eu)
    as (H1 & H2 & H3). by eapply fold_ok_close.
Qed.

Lemma fini_one_ok K acc i : 0 <= i < NVKVM_HANDLE_MAX -> fold_ok K acc -> fold_ok K (fini_one acc i).
Proof.
  intros Hi Hok. destruct acc as [t cl]. unfold fini_one.
  destruct (h_in_use (slot t i)) eqn:Eu; simpl; [|done].
  destruct (0 <=? h_fd (slot t i)) eqn:Ef; [|done].
  assert (used_at t i (slot t i)) as Hu.
  { unfold slot, used_at in *. rewrite Z.mod_small in * by lia. by destruct (handles t !! i). }
  destruct (hi_slot _ _ (proj1 Hok) _ _ Hu) as (Hi1 & Hid & Href).
  destruct (h_inv_release t _ i 0 (proj1 Hok) Hi1 Eu) as (_ & H2 & H3).
  unfold fd_close in *. rewrite Ef in *. eapply fold_ok_close; eauto.
  apply (h_inv_set t _ _ i _ (proj1 Hok)); simpl; auto; [lia|].
  intros j h' Hu' Hne Hfd. pose proof (hi_open _ _ (proj1 Hok) _ _ Hu' Hfd). simpl in *.
  apply elem_of_difference. split; [done|]. intros [He%elem_of_singleton|[]%not_elem_of_empty]%elem_of_union.
  apply Hne. eapply (hi_inj _ _ (proj1 Hok) j i); eauto.
Qed.

Lemma close_session_ok t K s : h_inv t K -> fold_ok K (nvkvm_handle_close_session t s).
Proof.
  intros Hinv. unfold nvkvm_handle_close_session. apply fold_left_in.
  - intros acc i [Hi1 Hi2]%elem_of_seqZ. apply close_one_ok. unfold NVKVM_HANDLE_MAX in *. lia.
  - split_and!; simpl; [by rewrite difference_empty_L|constructor|set_solver].
Qed.

Lemma fini_ok t K : h_inv t K -> fold_ok K (nvkvm_handle_table_fini t).
Proof.
  intros Hinv. unfold nvkvm_handle_table_fini. apply fold_left_in.
  - intros acc i [Hi1 Hi2]%elem_of_seqZ. apply fini_one_ok. lia.
  - split_and!; simpl; [by rewrite difference_empty_L|constructor|set_solver].
Qed.

Lemma fold_ok_nil K t : h_inv t K -> fold_ok K (t, []).
Proof. intros. split_and!; simpl; [by rewrite difference_empty_L|constructor|set_solver]. Qed.

(** Installing a descriptor the kernel has just returned. *)
Lemma install_ok t K type k session dev size :
  h_inv t K -> 0 <= k -> k ∉ K ->
  fold_ok (list_to_set [k] ∪ K) (let '(t', _, _, cl) := install t type k session dev size in (t', cl)).
Proof.
  intros Hinv Hk Hfresh. destruct (install t type k session dev size) as [[[t' ret] id] cl] eqn:E.
  assert (h_inv t (list_to_set [k] ∪ K)) as Hinv1.
  { eapply h_inv_K; [done|]. intros i h Hu Hf. apply elem_of_union_r. by eapply hi_open. }
  assert (0 <= k -> k ∈ (list_to_set [k] ∪ K : gset Z) /\ unowned t 0 k) as Hfd.
  { intros _. split; [set_solver|by apply (fresh_unowned t K)]. }
  destruct (install_spec _ _ _ _ _ _ _ _ _ _ _ Hinv1 Hfd E)
    as [(_ & _ & Hh & Hi & -> & _)|(_ & -> & _ & _ & Hi & _)]; [|by apply fold_ok_nil].
  rewrite (proj2 (Z.leb_le 0 k)) by done. split_and!; simpl; [|apply NoDup_singleton|set_solver].
  eapply h_inv_K; [exact Hi|]. intros i h [Hu Hiu] Hf. rewrite Hh in Hu.
  pose proof (hi_open _ _ Hinv i h (conj Hu Hiu) Hf). set_solver.
Qed.

Lemma attach_finish_ok t K id fd :
  h_inv t K -> 1 <= id < NVKVM_HANDLE_MAX -> 0 <= fd -> fd ∈ K -> unowned t 0 fd ->
  h_inv (fst (attach_finish t id fd)) K.
Proof.
  intros Hinv Hid Hfd Hin Hun. unfold attach_finish.
  destruct (live t id) eqn:El; simpl; [|done]. case_if; [done|]. simpl.
  unfold live in El. zb. pose proof (slot_used t id Hid ltac:(done)) as Hu.
  destruct (hi_slot _ _ Hinv _ _ Hu) as (_ & Hi & Hr). apply (h_inv_set t K); simpl; auto.
  - intros _ _. split; [done|]. intros i h Hu' _. apply (Hun i h Hu').
    intros ->. apply (hi_slot _ _ Hinv) in Hu' as [? _]. lia.
  - intros i h Hu' _ Hf. by eapply hi_open.
Qed.

Lemma gen_match_live t id g : gen_match t id g = true -> live t id = true.
Proof. unfold gen_match. intros [? _]%andb_true_iff. done. Qed.

Lemma hexec_ok t K o :
  h_inv t K -> hop_ok (t, K) o -> fold_ok (list_to_set (opens t o) ∪ K) (hexec t o).
Proof.
  intros Hinv Hok.
  assert (opens t o = [] -> forall t', h_inv t' K ->
    fold_ok (list_to_set (opens t o) ∪ K) (t', [])) as Hnil.
  { intros -> t' Ht'. apply fold_ok_nil. simpl. by rewrite union_empty_l_L. }
  assert (forall t', h_inv t' K -> fold_ok (list_to_set (opens t o) ∪ K) (t', [])) as Hmono.
  { intros t' Ht'. apply fold_ok_nil. eapply h_inv_K; [done|]. intros. apply elem_of_union_r. by eapply hi_open. }
  destruct o as [s d k|s d|id fd|id|s n k tr|id k|id k|id g|id g|id|s| |fd]; unfold hexec; simpl hop_ok in Hok.
  - unfold nvkvm_handle_open_nvidia, opens in *.
    destruct (d =? NVKVM_DEV_EVENTFD); simpl; [|destruct (nvidia_dev_path d); simpl in *; [|by auto]];
      destruct (Z.ltb_spec k 0);
      first [apply Hmono; done|rewrite (proj2 (Z.leb_le 0 k)) by done; by apply install_ok].
  - unfold nvkvm_handle_alloc_pending. destruct (install _ _ _ _ _ _) as [[[t' ret] id] cl] eqn:E.
    apply (install_spec t K) in E as [(_ & _ & _ & ? & -> & _)|(_ & -> & _ & _ & ? & _)]; [by apply Hnil..|done|lia].
  - case_if; [by apply Hnil|]. zb. destruct Hok as [Hid0 Hf]. destruct (Hf ltac:(lia)) as [Hin Hun].
    apply Hnil; [done|]. apply attach_finish_ok; auto. by apply bad_id_false.
  - apply Hnil; [done|]. unfold nvkvm_handle_abort_open. case_if; [done|]. case_if; [|done]. zb.
    pose proof (bad_id_false id Hok ltac:(done)) as Hid. unfold live in *. zb.
    destruct (h_inv_release t K id (h_fd (slot t id)) Hinv Hid) as (Hr & _); [done|].
    unfold fd_close in Hr. rewrite (proj2 (Z.leb_gt 0 _)) in Hr by done. simpl in Hr.
    by rewrite difference_empty_L in Hr.
  - unfold nvkvm_handle_open_memory. destruct (Z.ltb_spec NVKVM_HANDLE_MEM_MAX n); [by apply Hmono|].
    destruct (Z.ltb_spec k 0); [by apply Hmono|].
    assert (opens t (HOpenMemory s n k tr) = [k]) as ->.
    { unfold opens. by rewrite (proj2 (Z.leb_le 0 k)), (proj2 (Z.leb_le n _)). }
    destruct ((0 <? n) && (tr <? 0)); [|by apply install_ok]. simpl.
    split_and!; simpl; [|apply NoDup_singleton|set_solver].
    eapply h_inv_K; [exact Hinv|]. intros i h Hu Hf. pose proof (hi_open _ _ Hinv _ _ Hu Hf). set_solver.
  - by auto.
  - unfold nvkvm_handle_acquire_fd_ref_isolate. case_if; [by auto|]. case_if; [|by auto]. case_if; [|by auto].
    zb. apply Hmono, h_inv_ref; auto; [by apply bad_id_false; [apply Hok|]|apply u32_range].
  - apply Hnil; [done|]. unfold nvkvm_handle_ref_isolate_generation. case_if; [done|].
    destruct (gen_match t id g) eqn:Eg; simpl; [|done]. apply gen_match_live in Eg.
    apply h_inv_ref; auto; [by apply bad_id_false|apply u32_range].
  - apply Hnil; [done|]. unfold nvkvm_handle_unref_isolate_generation. case_if; [done|].
    destruct (gen_match t id g) eqn:Eg; simpl; [|done]. apply gen_match_live in Eg. case_if; [|done].
    pose proof (bad_id_false id Hok ltac:(done)) as Hid. apply h_inv_ref; auto.
    unfold live in Eg. zb. destruct (hi_slot _ _ Hinv _ _ (slot_used t id Hid ltac:(done))) as (_ & _ & ?). lia.
  - unfold nvkvm_handle_close. case_if; [by auto|]. destruct (live t id) eqn:El; simpl; [|by auto].
    case_if; [by auto|]. pose proof (bad_id_false id Hok ltac:(done)) as Hid. unfold live in El. zb.
    assert (h_in_use (slot t id) = true) as Hu by done. simpl. rewrite union_empty_l_L.
    by destruct (h_inv_release t K id (if 0 <=? h_fd (slot t id) then -1 else h_fd (slot t id)) Hinv Hid Hu)
      as (? & ? & ?).
  - simpl. rewrite union_empty_l_L. by apply close_session_ok.
  - simpl. rewrite union_empty_l_L. by apply fini_ok.
  - destruct Hok as [Hin Hun]. simpl. rewrite union_empty_l_L.
    split_and!; simpl; [|apply NoDup_singleton|set_solver].
    eapply h_inv_K; [exact Hinv|]. intros i h Hu Hf. pose proof (hi_open _ _ Hinv _ _ Hu Hf).
    assert (i <> 0) by (apply (hi_slot _ _ Hinv) in Hu as [? _]; lia).
    pose proof (Hun i h Hu ltac:(done)). set_solver.
Qed.

Lemma hrun_ok ops : forall t K, h_inv t K -> hvalid (t, K) ops ->
  exists t' K', hrun (t, K) ops = Some (t', K') /\ h_inv t' K'.
Proof.
  induction ops as [|o ops IH]; intros t K Hinv; simpl; [eauto|]. intros [Hok Hv].
  pose proof (hexec_ok t K o Hinv Hok) as (H1 & H2 & H3).
  unfold hstep in *. destruct (hexec t o) as [t' cl]. unfold close_fds in *. simpl in *.
  rewrite decide_True in * by done. simpl. apply IH; [done|]. by apply Hv.
Qed.

(** ** Handle identity *)
Definition same_obj (h h' : nvkvm_handle) : Prop :=
  h_gen h' = h_gen h /\ h_type h' = h_type h /\ h_session h' = h_session h /\ h_dev h' = h_dev h /\
  h_size h' = h_size h.

(** Between two states every live handle either is an old one, or was allocated
    with the generation the counter then showed. *)
Definition evolves (t t' : nvkvm_handle_table) : Prop :=
  (next_generation t' = next_generation t \/
   next_generation t' = (if u64 (next_generation t + 1) =? 0 then 1 else u64 (next_generation t + 1))) /\
  forall i h', used_at t' i h' ->
    (exists h, used_at t i h /\ same_obj h h') \/
    (h_gen h' = next_generation t /\ next_generation t' <> next_generation t).

Lemma evolves_refl t : evolves t t.
Proof. split; [by left|]. intros i h Hu. left. by exists h. Qed.

Lemma evolves_set t id h :
  0 <= id < NVKVM_HANDLE_MAX -> (h_in_use h = true -> h_in_use (slot t id) = true /\ same_obj (slot t id) h) ->
  evolves t (set_slot t id h).
Proof.
  intros Hid Hh. split; [by left|]. intros i h' [Hl Hu]. unfold set_slot, slot in *. simpl in *.
  rewrite Z.mod_small in * by lia. destruct (decide (i = id)) as [->|].
  - rewrite lookup_insert_eq in Hl. injection Hl as <-. destruct (Hh Hu) as [Hs Ho]. left.
    unfold used_at. destruct (handles t !! id) as [h0|]; simpl in *; [by exists h0|done].
  - rewrite lookup_insert_ne in Hl by done. left. by exists h'.
Qed.

Lemma install_evolves t K type fd session dev size :
  h_inv t K -> 0 < next_generation t < W64 ->
  evolves t (fst (fst (fst (install t type fd session dev size)))).
Proof.
  intros Hinv Hg. unfold install, alloc_slot.
  destruct (alloc_loop _ t) as [t1 o] eqn:Ea. apply (handle_alloc_loop_spec _ t K) in Ea as [Hn Ho]; [|done].
  destruct o as [id|]; simpl.
  - destruct Ho as (Hid & Hu & Hh & Hg'). unfold set_slot. rewrite id_mod by done. split; [by right|].
    assert (next_generation t1 <> next_generation t) as Hne.
    { rewrite Hg'. destruct (decide (next_generation t + 1 = W64)) as [He|]; [rewrite He; change (u64 W64 =? 0) with true; cbv iota; lia|].
      rewrite u64_small by lia. case_if; zb; lia. }
    intros i h' [Hl Hui]. simpl in Hl. rewrite Hh, insert_insert_eq in Hl.
    destruct (decide (i = id)) as [->|].
    + rewrite lookup_insert_eq in Hl. injection Hl as <-. right. split; [|done]. simpl.
      unfold slot. by rewrite id_mod, Hh, lookup_insert_eq.
    + rewrite lookup_insert_ne in Hl by done. left. by exists h'.
  - destruct Ho as (Hh & Hg' & _). split; [by left|]. intros i h' [Hl Hui]. rewrite Hh in Hl.
    left. by exists h'.
Qed.

Lemma fold_evolves (f : nvkvm_handle_table * list Z -> Z -> nvkvm_handle_table * list Z) l :
  (forall acc i, i ∈ l -> exists h, (fst (f acc i) = fst acc) \/
     (fst (f acc i) = set_slot (fst acc) i h /\ 0 <= i < NVKVM_HANDLE_MAX /\
      (h_in_use h = true -> h_in_use (slot (fst acc) i) = true /\ same_obj (slot (fst acc) i) h))) ->
  forall acc t, next_generation (fst acc) = next_generation t /\ evolves t (fst acc) ->
  next_generation (fst (fold_left f l acc)) = next_generation t /\ evolves t (fst (fold_left f l acc)).
Proof.
  intros Hf acc t H0.
  apply (fold_left_in (fun a => next_generation (fst a) = next_generation t /\ evolves t (fst a))); [|done].
  intros a i Hi [Hg [_ He]]. destruct (Hf a i Hi) as [h [->|(-> & Hr & Hh)]]; [by split; [|split; [left|]]|].
  split; [done|]. split; [by left|].
  destruct (evolves_set (fst a) i h Hr Hh) as [_ Hs]. intros j h' Hu.
  destruct (Hs j h' Hu) as [(h1 & Hu1 & Ho1)|[_ []]]; [|done].
  destruct (He j h1 Hu1) as [(h2 & Hu2 & Ho2)|[_ []]]; [|done].
  left. exists h2. split; [done|]. unfold same_obj in *. intuition congruence.
Qed.

Lemma hexec_evolves t K o :
  h_inv t K -> hop_ok (t, K) o -> 0 < next_generation t < W64 -> evolves t (fst (hexec t o)).
Proof.
  intros Hinv Hok Hg.
  assert (forall ty fd s d n, evolves t (fst (let '(t', _, _, cl) := install t ty fd s d n in (t', cl)))) as Hins.
  { intros ty fd s d n. pose proof (install_evolves t K ty fd s d n Hinv Hg).
    by destruct (install t ty fd s d n) as [[[? ?] ?] ?]. }
  assert (forall id n, 0 <= id -> bad_id id = false -> live t id = true ->
    evolves t (set_slot t id (with_ref (slot t id) n))) as Href.
  { intros id n H0 Hb Hl. unfold live in Hl. zb. apply bad_id_false in Hb; [|done].
    apply evolves_set; [lia|]. done. }
  destruct o as [s d k|s d|id fd|id|s n k tr|id k|id k|id g|id g|id|s| |fd]; simpl hop_ok in Hok;
    unfold hexec.
  - unfold nvkvm_handle_open_nvidia. case_if; [|destruct (nvidia_dev_path d); [|apply evolves_refl]];
      (case_if; [apply evolves_refl|apply Hins]).
  - apply Hins.
  - case_if; [apply evolves_refl|]. zb. unfold attach_finish.
    destruct (live t id) eqn:El; [|apply evolves_refl]. unfold live in El. zb. simpl.
    case_if; [apply evolves_refl|]. destruct Hok as [Hok0 _].
    pose proof (bad_id_false id Hok0 ltac:(done)). apply evolves_set; [lia|done].
  - unfold nvkvm_handle_abort_open. case_if; [apply evolves_refl|]. case_if; [|apply evolves_refl].
    pose proof (bad_id_false id Hok ltac:(done)). apply evolves_set; [lia|done].
  - unfold nvkvm_handle_open_memory. do 2 (case_if; [apply evolves_refl|]).
    case_if; [apply evolves_refl|apply Hins].
  - apply evolves_refl.
  - unfold nvkvm_handle_acquire_fd_ref_isolate. case_if; [apply evolves_refl|].
    case_if; [|apply evolves_refl]. case_if; [|apply evolves_refl]. zb. apply Href; auto. apply Hok.
  - unfold nvkvm_handle_ref_isolate_generation. case_if; [apply evolves_refl|].
    destruct (gen_match t id g) eqn:Eg; [|apply evolves_refl]. apply gen_match_live in Eg. by apply Href.
  - unfold nvkvm_handle_unref_isolate_generation. case_if; [apply evolves_refl|].
    destruct (gen_match t id g) eqn:Eg; [|apply evolves_refl]. apply gen_match_live in Eg. simpl.
    case_if; [by apply Href|apply evolves_refl].
  - unfold nvkvm_handle_close. case_if; [apply evolves_refl|]. destruct (live t id); [|apply evolves_refl].
    simpl. case_if; [apply evolves_refl|]. pose proof (bad_id_false id Hok ltac:(done)).
    apply evolves_set; [lia|done].
  - apply (fold_evolves (close_one s) (seqZ 1 (NVKVM_HANDLE_MAX - 1))); [|split; [done|apply evolves_refl]].
    intros [t1 cl] i [Hi1 Hi2]%elem_of_seqZ. unfold close_one. case_if; [exists handle0; by left|].
    eexists. right. simpl. split; [done|]. unfold NVKVM_HANDLE_MAX in *. split; [lia|done].
  - apply (fold_evolves fini_one (seqZ 0 NVKVM_HANDLE_MAX)); [|split; [done|apply evolves_refl]].
    intros [t1 cl] i [Hi1 Hi2]%elem_of_seqZ. unfold fini_one. case_if; [|exists handle0; by left].
    zb. eexists. right. simpl. split; [done|]. split; [lia|done].
  - apply evolves_refl.
Qed.

(** ** Theorems *)

(** C4: over any history of handle operations the VMM never closes a file
    descriptor twice or closes one it does not own, every live handle's
    descriptor is open, and no two live handles share one. *)
Theorem handle_fds_safe K ops :
  hvalid (nvkvm_handle_table_init, K) ops ->
  exists t' K', hrun (nvkvm_handle_table_init, K) ops = Some (t', K') /\
  (forall i h, used_at t' i h -> 0 <= h_fd h -> h_fd h ∈ K') /\
  (forall i j h h', used_at t' i h -> used_at t' j h' -> 0 <= h_fd h -> h_fd h = h_fd h' -> i = j).
Proof.
  intros Hv. assert (h_inv nvkvm_handle_table_init K) as Hinv.
  { split; simpl; try (intros i h [Hl _]; simpl in Hl; by rewrite lookup_empty in Hl); [done|].
    intros i j h h' [Hl _]. simpl in Hl. by rewrite lookup_empty in Hl. }
  destruct (hrun_ok ops _ K Hinv Hv) as (t' & K' & Hr & [_ _ H1 H2]). eauto 10.
Qed.

Lemma hvalid_step w o r w' :
  hop_ok w o -> hstep w o = Some w' -> hvalid w' r -> hvalid w (o :: r).
Proof. intros Ho Hs Hr. split; [done|]. intros w1 Hw1. congruence. Qed.

Definition demo_hops : list hop :=
  [HOpenNvidia 1 NVKVM_DEV_CTL 10; HOpenMemory 1 4096 11 0; HAcquireRef 1 12; HClose 1;
   HUnref 1 0; HClose 1].

Lemma handle_fds_safe_witness :
  exists t' K', hrun (nvkvm_handle_table_init, {[0; 1; 2]}) demo_hops = Some (t', K').
Proof.
  destruct (handle_fds_safe {[0; 1; 2]} demo_hops) as (t' & K' & H & _); [|eauto].
  unfold demo_hops.
  repeat (eapply hvalid_step;
    [first [exact I | simpl; lia | apply (bool_decide_eq_true_1 _); vm_compute; reflexivity
           | split; [apply (bool_decide_eq_true_1 _); vm_compute; reflexivity|lia]]
    |vm_compute; reflexivity|]).
  exact I.
Defined.

(** A generation identifies one object.  If a handle number is live with
    the same generation before and after any history, it names the same object
    (type, session, device and size), however often the number was closed and
    reused in between; so a reference taken by generation never lands on a
    recycled handle.  (The 64-bit counter does not wrap in the history.) *)
Theorem handle_generation_identity ops : forall t K t' K' i h h',
  h_inv t K -> hvalid (t, K) ops -> hrun (t, K) ops = Some (t', K') ->
  0 < next_generation t -> next_generation t + Z.of_nat (length ops) < W64 ->
  (forall j x, used_at t j x -> h_gen x < next_generation t) ->
  used_at t i h -> used_at t' i h' -> h_gen h' = h_gen h -> same_obj h h'.
Proof.
  assert (forall l t K t' K' i g P,
    h_inv t K -> hvalid (t, K) l -> hrun (t, K) l = Some (t', K') ->
    0 < next_generation t -> next_generation t + Z.of_nat (length l) < W64 -> g < next_generation t ->
    (forall x, used_at t i x -> h_gen x = g -> same_obj P x) ->
    forall h', used_at t' i h' -> h_gen h' = g -> same_obj P h') as Hgen.
  { induction l as [|o l IH]; intros t K t' K' i g P Hinv Hv Hr Hg0 Hg1 Hgt Hold h' Hu' He.
    - injection Hr as <- <-. by apply Hold.
    - destruct Hv as [Hok Hv]. cbn [hrun] in Hr. destruct (hstep (t, K) o) as [[t1 K1]|] eqn:Es; [|done].
      simpl in Hr, Hg1. pose proof (hexec_ok t K o Hinv Hok) as (Hi1 & Hc1 & Hc2).
      pose proof (hexec_evolves t K o Hinv Hok ltac:(lia)) as [Hg Hev].
      unfold hstep in Es. destruct (hexec t o) as [t2 cl]. unfold close_fds in Es. simpl in *.
      rewrite decide_True in Es by done. injection Es as <- <-.
      rewrite (u64_small (next_generation t + 1)) in Hg by lia.
      rewrite (proj2 (Z.eqb_neq (next_generation t + 1) 0)) in Hg by lia.
      apply (IH t2 _ t' K' i g P Hi1); auto; try lia. intros x Hx Hxg.
      destruct (Hev i x Hx) as [(h0 & Hu0 & Ho)|[Hnew _]]; [|lia].
      assert (same_obj P h0) as HP by (apply Hold; [done|]; unfold same_obj in Ho; intuition congruence).
      unfold same_obj in *. intuition congruence. }
  intros t K t' K' i h h' Hinv Hv Hr Hg0 Hg1 Hlt Hu Hu' He.
  eapply (Hgen ops t K t' K' i (h_gen h) h); eauto.
  intros x Hx _. destruct Hu as [Hu _], Hx as [Hx _]. replace x with h by congruence. by split_and!.
Qed.

Definition demo_handle : nvkvm_handle := Handle 3 7 NVKVM_HANDLE_TYPE_NVIDIA 10 1 NVKVM_DEV_CTL 0 0 false true.
Definition demo_table : nvkvm_handle_table := Table {[3 := demo_handle]} 4 8.

Lemma demo_table_used i h : used_at demo_table i h -> i = 3 /\ h = demo_handle.
Proof. intros [Hl _]. simpl in Hl. by apply lookup_singleton_Some in Hl as [<- <-]. Qed.

Lemma demo_table_inv : h_inv demo_table {[10]}.
Proof.
  split; simpl; [done|..].
  - intros i h [-> ->]%demo_table_used. done.
  - intros i h [-> ->]%demo_table_used. simpl. set_solver.
  - intros i j h h' [-> _]%demo_table_used [-> _]%demo_table_used. done.
Qed.

(** A handle referenced, unreferenced, and another one opened meanwhile. *)
Lemma handle_generation_identity_witness :
  exists h', used_at (fst (default (demo_table, ∅)
      (hrun (demo_table, {[10]}) [HRef 3 7; HAllocPending 2 NVKVM_DEV_UVM; HUnref 3 7]))) 3 h' /\
    same_obj demo_handle h'.
Proof.
  exists demo_handle.
  assert (used_at (fst (default (demo_table, ∅)
      (hrun (demo_table, {[10]}) [HRef 3 7; HAllocPending 2 NVKVM_DEV_UVM; HUnref 3 7]))) 3 demo_handle) as Hu
    by (split; vm_compute; reflexivity).
  split; [exact Hu|].
  apply (handle_generation_identity [HRef 3 7; HAllocPending 2 NVKVM_DEV_UVM; HUnref 3 7]
    demo_table {[10]} (fst (default (demo_table, ∅)
      (hrun (demo_table, {[10]}) [HRef 3 7; HAllocPending 2 NVKVM_DEV_UVM; HUnref 3 7])))
    (snd (default (demo_table, ∅)
      (hrun (demo_table, {[10]}) [HRef 3 7; HAllocPending 2 NVKVM_DEV_UVM; HUnref 3 7]))) 3 demo_handle demo_handle
    demo_table_inv).
  - repeat (eapply hvalid_step; [first [exact I|simpl; lia]|vm_compute; reflexivity|]). exact I.
  - vm_compute. reflexivity.
  - simpl. lia.
  - simpl. lia.
  - intros j x [-> ->]%demo_table_used. simpl. lia.
  - split; reflexivity.
  - exact Hu.
  - reflexivity.
Defined.

(** Attaching a descriptor an isolate handed back either fails, or installs
    it in a live handle that had none, after the identity check accepted it
    for the device recorded in the handle; provided no other thread recycled the
    handle number while the lock was dropped, that device is the one the handle
    claims afterwards.  The check itself accepts only a character device with
    the device number of the claimed node, or a non-device for an eventfd. *)
Theorem attach_binds driver stat_of fst_ mid t id fd t' :
  0 <= id -> (h_gen (slot (mid t) id) = h_gen (slot t id) -> h_dev (slot (mid t) id) = h_dev (slot t id)) ->
  nvkvm_handle_attach_fd (attach_fd_matches_dev driver stat_of fst_) mid t id fd = (t', 0) ->
  let h := slot t' id in
  h_fd h = fd /\ 0 <= fd /\ live t' id = true /\ h_fd (slot (mid t) id) < 0 /\
  (h_gen (slot (mid t) id) = h_gen (slot t id) ->
   exists st, fst_ = Some st /\
   ((h_dev h = NVKVM_DEV_EVENTFD /\ st_mode st = S_OTHER) \/
    (h_dev h <> NVKVM_DEV_EVENTFD /\
     exists p d, attach_expect_path driver (h_dev h) = Some p /\ stat_of p = Some d /\
       st_mode st = S_CHR /\ st_mode d = S_CHR /\ st_rdev st = st_rdev d))).
Proof.
  intros Hid Hmid. unfold nvkvm_handle_attach_fd. destruct (bad_id id || (fd <? 0)) eqn:Eb; [done|].
  apply orb_false_iff in Eb as [Eb Ef]. zb. pose proof (bad_id_false id Hid Eb) as Hr.
  unfold attach_check. destruct (live t id); simpl; [|done].
  destruct (0 <=? h_fd (slot t id)); [done|].
  destruct (attach_fd_matches_dev driver stat_of fst_ (h_dev (slot t id))) eqn:Em; simpl; [|done].
  unfold attach_finish. destruct (live (mid t) id) eqn:El; simpl; [|done].
  destruct (0 <=? h_fd (slot (mid t) id)) eqn:Ef2; [done|]. intros [=<-].
  rewrite slot_set by done. zb. split_and!; auto.
  - unfold live. rewrite slot_set by done. exact El.
  - intros Hg. simpl. rewrite (Hmid Hg). unfold attach_fd_matches_dev in Em.
    destruct fst_ as [st|]; [|done]. exists st. split; [done|].
    destruct (Z.eqb_spec (h_dev (slot t id)) NVKVM_DEV_EVENTFD) as [He|Hne].
    + left. split; [done|]. unfold S_ISCHR, S_ISBLK in Em. by destruct (st_mode st).
    + right. split; [done|]. destruct (attach_expect_path driver (h_dev (slot t id))) as [p|]; simpl in Em; [|done].
      destruct (stat_of p) as [d|] eqn:Ed; [|done]. zb. exists p, d. unfold S_ISCHR in *.
      destruct (st_mode st), (st_mode d); done.
Qed.

Definition demo_pending : nvkvm_handle_table :=
  Table {[1 := Handle 1 7 NVKVM_HANDLE_TYPE_NVIDIA (-1) 1 (NVKVM_DEV_GPU 0) 0 0 false true]} 1 8.
Definition demo_stat (p : dev_path) : option stat :=
  match p with PGpu n => Some (Stat S_CHR (49920 + n)) | _ => None end.

Lemma attach_binds_witness :
  exists t', nvkvm_handle_attach_fd
      (attach_fd_matches_dev (fun _ => None) demo_stat (Some (Stat S_CHR 49920))) (fun t => t)
      demo_pending 1 12 = (t', 0) /\ h_fd (slot t' 1) = 12.
Proof.
  eexists. split; [vm_compute; reflexivity|].
  apply (attach_binds (fun _ => None) demo_stat (Some (Stat S_CHR 49920)) (fun t => t) demo_pending 1 12);
    [lia|done|vm_compute; reflexivity].
Defined.

(** The second critical section checks the handle number but not the generation:
    if, while the lock is dropped, the open is aborted and the number is handed
    out again for another device, the descriptor of GPU 0 ends up in a handle
    that claims to be the control node. *)
Lemma attach_after_recycle :
  let mid t := fst (fst (fst (nvkvm_handle_alloc_pending (nvkvm_handle_abort_open t 1) 2 NVKVM_DEV_CTL))) in
  let '(t', ret) := nvkvm_handle_attach_fd
      (attach_fd_matches_dev (fun _ => None) demo_stat (Some (Stat S_CHR 49920))) mid demo_pending 1 12 in
  ret = 0 /\ h_fd (slot t' 1) = 12 /\ h_dev (slot t' 1) = NVKVM_DEV_CTL /\
  attach_fd_matches_dev (fun _ => None) demo_stat (Some (Stat S_CHR 49920)) NVKVM_DEV_CTL = false.
Proof. vm_compute. split_and!; reflexivity. Qed.

(** ** Teardown of a session *)
Definition closable (session : Z) (h : nvkvm_handle) : bool :=
  h_in_use h && (h_session h =? session) && negb (0 <? h_ref h).

Lemma close_fold_spec s l : forall t cl i,
  NoDup l -> Forall (fun j => 1 <= j < NVKVM_HANDLE_MAX) l -> 1 <= i < NVKVM_HANDLE_MAX ->
  slot (fst (fold_left (close_one s) l (t, cl))) i =
  if bool_decide (i ∈ l) && closable s (slot t i)
  then released (slot t i) (if 0 <=? h_fd (slot t i) then -1 else h_fd (slot t i)) else slot t i.
Proof.
  induction l as [|j l IH]; intros t cl i Hnd Hr Hi; [done|].
  apply NoDup_cons in Hnd as [Hj Hnd]. apply Forall_cons in Hr as [Hjr Hr]. cbn [fold_left].
  assert (close_one s (t, cl) j =
    if closable s (slot t j)
    then (set_slot t j (released (slot t j) (if 0 <=? h_fd (slot t j) then -1 else h_fd (slot t j))),
          cl ++ fd_close (slot t j))
    else (t, cl)) as ->.
  { unfold close_one, closable. destruct (h_in_use (slot t j)), (h_session (slot t j) =? s), (0 <? h_ref (slot t j)); done. }
  destruct (decide (i = j)) as [->|Hne].
  - rewrite (bool_decide_true (j ∈ j :: l)) by (by left). simpl.
    destruct (closable s (slot t j)); rewrite IH by done; rewrite bool_decide_false by done; simpl; [|done].
    by rewrite slot_set.
  - assert (bool_decide (i ∈ j :: l) = bool_decide (i ∈ l)) as ->.
    { apply bool_decide_ext. rewrite elem_of_cons. tauto. }
    destruct (closable s (slot t j)); rewrite IH by done; [|done]. by rewrite slot_set_ne.
Qed.

(** Closing a session releases exactly the live handles of that session no
    isolate still references; every other handle, in particular one that a
    surviving isolate of another session has mapped, is left untouched. *)
Theorem close_session_spec t s i :
  1 <= i < NVKVM_HANDLE_MAX ->
  let h := slot t i in
  let h' := slot (fst (nvkvm_handle_close_session t s)) i in
  (h_in_use h = true /\ h_session h = s /\ h_ref h <= 0 -> h_in_use h' = false /\ h_fd h' < 0) /\
  (~ (h_in_use h = true /\ h_session h = s /\ h_ref h <= 0) -> h' = h).
Proof.
  intros Hi. cbv zeta. unfold nvkvm_handle_close_session. rewrite close_fold_spec; auto.
  - rewrite bool_decide_true by (apply elem_of_seqZ; lia). simpl.
    destruct (closable s (slot t i)) eqn:Ec; unfold closable in Ec.
    + zb. split; [intros _|tauto]. split; [done|]. simpl. case_if; zb; lia.
    + split; [|done]. intros (Hu & Hs & Hrf). exfalso.
      rewrite Hu, Hs, Z.eqb_refl, (proj2 (Z.ltb_ge 0 _)) in Ec by lia. done.
  - apply NoDup_seqZ.
  - apply Forall_forall. intros j Hj%elem_of_seqZ. lia.
Qed.

(** Two handles of session 1, one still referenced. *)
Definition demo_two : nvkvm_handle_table :=
  Table {[3 := demo_handle; 4 := Handle 4 8 NVKVM_HANDLE_TYPE_MEMORY 11 1 0 2 4096 false true]} 5 9.

Lemma close_session_spec_witness :
  h_in_use (slot (fst (nvkvm_handle_close_session demo_two 1)) 3) = false /\
  slot (fst (nvkvm_handle_close_session demo_two 1)) 4 = slot demo_two 4.
Proof.
  split.
  - apply (close_session_spec demo_two 1 3); [done|]. vm_compute. split_and!; congruence.
  - apply (close_session_spec demo_two 1 4); [done|]. vm_compute. intros (_ & _ & H). by apply H.
Defined.

End Handles.
