(* ===== verification/UvmVa.v ===== *)
(** * UvmVa: the UVM command schema and the VA-range ownership table

    Models the schema ([nvkvm_uvm_schema], [nvkvm_uvm_lookup],
    [nvkvm_uvm_embedded_fd_dev]) and the table [uvm_va_tbl] with its operations,
    from [src/qemu/nvkvm_isolate_handlers.c].  Every table operation holds
    [uvm_va_lock] for its whole body and is one atomic function. *)
From S2P Require Import Prelude Abi Handles.

Module UvmVa.
Import Abi Handles.

Inductive va_mode := VA_NONE | VA_CREATE | VA_USE | VA_FREE.
#[export] Instance va_mode_eq_dec : EqDecision va_mode.
Proof. solve_decision. Defined.

Record nvkvm_uvm_desc := Desc {
  u_cmd : Z; u_min_size : Z; u_fd_off0 : Z; u_fd_off1 : Z; u_va_off : Z; u_va_mode : va_mode
}.

(** [0xffff]: no such field. *)
Definition OFF_NONE : Z := 65535.
Definition UVM_INITIALIZE : Z := 805306369.
Definition UVM_DEINITIALIZE : Z := 805306370.

Definition nvkvm_uvm_embedded_fd_dev (cmd : Z) : Z :=
  if (cmd =? 25) || (cmd =? 27) || (cmd =? 33) || (cmd =? 37) then NVKVM_DEV_CTL
  else if cmd =? 75 then NVKVM_DEV_UVM
  else -1.

Definition nvkvm_uvm_schema : list nvkvm_uvm_desc := [
  Desc UVM_INITIALIZE 16 OFF_NONE OFF_NONE OFF_NONE VA_NONE;
  Desc UVM_DEINITIALIZE 8 OFF_NONE OFF_NONE OFF_NONE VA_NONE;
  Desc 23 16 OFF_NONE OFF_NONE OFF_NONE VA_NONE;
  Desc 24 16 OFF_NONE OFF_NONE OFF_NONE VA_NONE;
  Desc 25 32 16 OFF_NONE OFF_NONE VA_NONE;
  Desc 26 20 OFF_NONE OFF_NONE OFF_NONE VA_NONE;
  Desc 27 48 16 OFF_NONE 32 VA_CREATE;
  Desc 28 28 OFF_NONE OFF_NONE OFF_NONE VA_NONE;
  Desc 29 40 OFF_NONE OFF_NONE OFF_NONE VA_NONE;
  Desc 30 40 OFF_NONE OFF_NONE OFF_NONE VA_NONE;
  Desc 31 32 OFF_NONE OFF_NONE 8 VA_USE;
  Desc 33 9264 OFF_NONE OFF_NONE 0 VA_USE;
  Desc 34 24 OFF_NONE OFF_NONE 0 VA_FREE;
  Desc 37 NVKVM_UVM_REGISTER_GPU_SIZE NVKVM_UVM_REGISTER_GPU_FD_OFF OFF_NONE OFF_NONE VA_NONE;
  Desc 38 24 OFF_NONE OFF_NONE OFF_NONE VA_NONE;
  Desc 39 8 OFF_NONE OFF_NONE OFF_NONE VA_NONE;
  Desc 42 40 OFF_NONE OFF_NONE 0 VA_USE;
  Desc 43 24 OFF_NONE OFF_NONE 0 VA_USE;
  Desc 44 0 OFF_NONE OFF_NONE 0 VA_USE;
  Desc 45 0 OFF_NONE OFF_NONE 0 VA_USE;
  Desc 46 40 OFF_NONE OFF_NONE 0 VA_USE;
  Desc 47 40 OFF_NONE OFF_NONE 0 VA_USE;
  Desc 51 48 OFF_NONE OFF_NONE 0 VA_USE;
  Desc 53 0 OFF_NONE OFF_NONE OFF_NONE VA_NONE;
  Desc 65 0 OFF_NONE OFF_NONE 0 VA_CREATE;
  Desc 66 0 OFF_NONE OFF_NONE 0 VA_USE;
  Desc 68 9248 OFF_NONE OFF_NONE 0 VA_CREATE;
  Desc 70 24 OFF_NONE OFF_NONE OFF_NONE VA_NONE;
  Desc 72 24 OFF_NONE OFF_NONE 0 VA_USE;
  Desc 73 24 OFF_NONE OFF_NONE 0 VA_CREATE;
  Desc 75 8 0 OFF_NONE OFF_NONE VA_NONE
].

Definition nvkvm_uvm_lookup (cmd : Z) : option nvkvm_uvm_desc :=
  List.find (fun d => u_cmd d =? cmd) nvkvm_uvm_schema.

(** ** The table *)
Definition NVKVM_UVM_VA_MAX : nat := 16384%nat.

Record nvkvm_uvm_va_ent := Ent { e_hid : Z; e_base : Z; e_len : Z }.
#[export] Instance ent_eq_dec : EqDecision nvkvm_uvm_va_ent.
Proof. solve_decision. Defined.

#[export] Instance ent_countable : Countable nvkvm_uvm_va_ent.
Proof.
  apply (inj_countable' (fun e => (e_hid e, e_base e, e_len e)) (fun '(h, b, l) => Ent h b l)).
  by intros [].
Defined.

(** [uvm_va_tbl] (an entry with handle 0 is free) and [uvm_va_used]. *)
Record va_state := VaState { va_tbl : list nvkvm_uvm_va_ent; va_used : Z }.
Definition va_init : va_state := VaState (replicate NVKVM_UVM_VA_MAX (Ent 0 0 0)) 0.

Definition uvm_va_sane (base length : Z) : bool :=
  if length =? 0 then false
  else if base ⊕ length <? base then false
  else if negb ((Z.lor base length & 4095) =? 0) then false
  else true.

Definition uvm_va_have_room (s : va_state) : bool := va_used s <? Z.of_nat NVKVM_UVM_VA_MAX.

Definition is_ent (h b l : Z) (e : nvkvm_uvm_va_ent) : bool :=
  (e_hid e =? h) && (e_base e =? b) && (e_len e =? l).

Definition uvm_va_add (s : va_state) (h b l : Z) : va_state * bool :=
  if existsb (is_ent h b l) (va_tbl s) then (s, true)
  else
    match find_idx (fun e => e_hid e =? 0) (va_tbl s) with
    | Some i => (VaState (<[i := Ent h b l]> (va_tbl s)) (u32 (va_used s + 1)), true)
    | None => (s, false)
    end.

Definition within (b l : Z) (e : nvkvm_uvm_va_ent) : bool :=
  (e_base e <=? b) && (b ⊕ l <=? e_base e ⊕ e_len e).

Definition uvm_va_covers (s : va_state) (h b l : Z) : bool :=
  existsb (fun e => (e_hid e =? h) && within b l e) (va_tbl s).

Definition uvm_va_len_at (s : va_state) (h b : Z) : Z :=
  match List.find (fun e => (e_hid e =? h) && (e_base e =? b)) (va_tbl s) with
  | Some e => e_len e
  | None => 0
  end.

(** The clearing loop shared by [uvm_va_drop] and [nvkvm_uvm_va_purge_handle]:
    free every entry that [p] selects. *)
Fixpoint clear_loop (p : nvkvm_uvm_va_ent -> bool) (l : list nvkvm_uvm_va_ent) (used : Z)
    : list nvkvm_uvm_va_ent * Z :=
  match l with
  | [] => ([], used)
  | e :: r =>
      let hit := p e in
      let '(r', u) := clear_loop p r (if hit then (if used =? 0 then used else used - 1) else used) in
      ((if hit then Ent 0 (e_base e) (e_len e) else e) :: r', u)
  end.

Definition uvm_va_drop (s : va_state) (h b l : Z) : va_state :=
  let '(t, u) := clear_loop (fun e => (e_hid e =? h) && ((b <=? e_base e) && (e_base e ⊕ e_len e <=? b ⊕ l)))
                            (va_tbl s) (va_used s) in
  VaState t u.

Definition nvkvm_uvm_va_purge_handle (s : va_state) (h : Z) : va_state :=
  if h =? 0 then s
  else let '(t, u) := clear_loop (fun e => e_hid e =? h) (va_tbl s) (va_used s) in VaState t u.

(** ** The set of recorded ranges, and the invariant *)
Definition recorded (s : va_state) (e : nvkvm_uvm_va_ent) : Prop := e ∈ va_tbl s /\ e_hid e <> 0.

Definition live_ents (l : list nvkvm_uvm_va_ent) : list nvkvm_uvm_va_ent :=
  List.filter (fun e => negb (e_hid e =? 0)) l.
Definition live_cnt (l : list nvkvm_uvm_va_ent) : nat := length (live_ents l).

(** A sane range of 64-bit numbers. *)
Definition range_ok (b l : Z) : Prop :=
  0 <= b /\ 0 < l /\ b + l < W64 /\ b mod 4096 = 0 /\ l mod 4096 = 0.

Record va_inv (s : va_state) : Prop := {
  vi_len : length (va_tbl s) = NVKVM_UVM_VA_MAX;
  vi_used : va_used s = Z.of_nat (live_cnt (va_tbl s));
  vi_nodup : NoDup (live_ents (va_tbl s));
  vi_ok : forall e, recorded s e -> range_ok (e_base e) (e_len e)
}.

Lemma sane_spec b l : 0 <= b < W64 -> 0 <= l < W64 -> uvm_va_sane b l = true <-> range_ok b l.
Proof.
  intros Hb Hl. unfold uvm_va_sane, range_ok.
  assert ((Z.lor b l & 4095) = 0 <-> b mod 4096 = 0 /\ l mod 4096 = 0) as Hlor.
  { change 4095 with (2 ^ 12 - 1). rewrite Z.land_lor_distr_l, !land_low by lia.
    change (2 ^ 12) with 4096. rewrite Z.lor_eq_0_iff. done. }
  destruct (Z.eqb_spec l 0); [split; [done|lia]|].
  destruct (decide (b + l < W64)).
  - rewrite u64_small by lia. destruct (Z.ltb_spec (b + l) b); [lia|].
    destruct (Z.eqb_spec (Z.lor b l & 4095) 0) as [He|He]; simpl; rewrite Hlor in He;
      split; [intros _; lia|done|done|intros (_ & _ & _ & Hm); tauto].
  - assert (b ⊕ l = b + l - W64) as -> by mlia.
    destruct (Z.ltb_spec (b + l - W64) b); [split; [done|lia]|lia].
Qed.

Lemma max_z : Z.of_nat NVKVM_UVM_VA_MAX = 16384.
Proof. reflexivity. Qed.

Lemma live_ents_insert l i e e' :
  l !! i = Some e -> e_hid e = 0 -> e_hid e' <> 0 -> live_ents (<[i := e']> l) ≡ₚ e' :: live_ents l.
Proof.
  unfold live_ents. revert i. induction l as [|x l IH]; intros [|i] Hl H0 H1; simpl in *; try done.
  - injection Hl as ->. rewrite H0. destruct (Z.eqb_spec (e_hid e') 0); done.
  - specialize (IH i Hl H0 H1). destruct (negb (e_hid x =? 0)); simpl; [|done].
    rewrite IH. apply perm_swap.
Qed.

Lemma recorded_live s e : recorded s e <-> e ∈ live_ents (va_tbl s).
Proof.
  unfold recorded, live_ents. rewrite !list_elem_of_In, filter_In, negb_true_iff, Z.eqb_neq. done.
Qed.

Lemma live_ents_clear (p : nvkvm_uvm_va_ent -> bool) l :
  live_ents (map (fun e => if p e then Ent 0 (e_base e) (e_len e) else e) l)
  `sublist_of` live_ents l.
Proof.
  unfold live_ents. induction l as [|x l IH]; simpl; [done|].
  destruct (p x); simpl; (case_if; [by constructor|done]).
Qed.

Lemma live_cnt_le l : (live_cnt l <= length l)%nat.
Proof. unfold live_cnt, live_ents. induction l as [|x l IH]; simpl; [done|]. case_if; simpl; lia. Qed.

Lemma live_cnt_full l : Forall (fun e => (e_hid e =? 0) = false) l <-> live_cnt l = length l.
Proof.
  unfold live_cnt, live_ents. induction l as [|x l IH]; simpl; [split; [done|constructor]|].
  rewrite Forall_cons, IH. pose proof (live_cnt_le l) as Hle. unfold live_cnt, live_ents in Hle.
  destruct (e_hid x =? 0); simpl; split; intros; try split; try done; try lia; intuition (try done; lia).
Qed.

Lemma clear_loop_spec p l : forall used,
  (forall e, p e = true -> e_hid e <> 0) -> used >= Z.of_nat (live_cnt l) ->
  let '(l', u) := clear_loop p l used in
  l' = map (fun e => if p e then Ent 0 (e_base e) (e_len e) else e) l /\
  u = used - Z.of_nat (live_cnt l) + Z.of_nat (live_cnt l').
Proof.
  induction l as [|x l IH]; intros used Hp Hu; [simpl; split; [done|lia]|].
  unfold live_cnt, live_ents in *. cbn [clear_loop List.filter] in *. destruct (p x) eqn:Ep.
  - destruct (Z.eqb_spec (e_hid x) 0) as [|_]; [by apply Hp in Ep|]. cbn [negb length] in *.
    destruct (Z.eqb_spec used 0); [lia|].
    specialize (IH (used - 1) Hp ltac:(lia)). destruct (clear_loop p l (used - 1)) as [l' u].
    destruct IH as [-> ->]. cbn. rewrite Ep. split; [done|lia].
  - specialize (IH used Hp). destruct (negb (e_hid x =? 0)) eqn:En; cbn [length] in *.
    + specialize (IH ltac:(lia)). destruct (clear_loop p l used) as [l' u]. destruct IH as [-> ->].
      cbn. rewrite Ep, En. cbn [length]. split; [done|lia].
    + specialize (IH Hu). destruct (clear_loop p l used) as [l' u]. destruct IH as [-> ->].
      cbn. rewrite Ep, En. split; [done|lia].
Qed.

(** Clearing keeps the invariant and removes exactly the selected ranges. *)
Lemma clear_spec p s :
  va_inv s -> (forall e, p e = true -> e_hid e <> 0) ->
  let s' := (let '(t, u) := clear_loop p (va_tbl s) (va_used s) in VaState t u) in
  va_inv s' /\ forall e, recorded s' e <-> recorded s e /\ p e = false.
Proof.
  intros [Hl Hu Hnd Hok] Hp. pose proof (clear_loop_spec p (va_tbl s) (va_used s) Hp ltac:(lia)) as Hc.
  destruct (clear_loop p (va_tbl s) (va_used s)) as [t u]. destruct Hc as [Ht Huu]. cbv zeta.
  assert (forall e, recorded (VaState t u) e <-> recorded s e /\ p e = false) as Hr.
  { intros e. unfold recorded; simpl. subst t. rewrite list_elem_of_fmap. split.
    - intros [(x & Hx & Hin) Hn]. destruct (p x) eqn:Ep; subst; simpl in *; [done|by rewrite Ep].
    - intros [[Hin Hn] Ep]. split; [|done]. exists e. by rewrite Ep. }
  split; [|done]. split; simpl.
  - subst t. by rewrite length_map.
  - lia.
  - subst t. eapply sublist_NoDup; [done|apply live_ents_clear].
  - intros e [He _]%Hr. by apply Hok.
Qed.

Lemma purge_spec s h :
  va_inv s -> h <> 0 ->
  va_inv (nvkvm_uvm_va_purge_handle s h) /\
  forall e, recorded (nvkvm_uvm_va_purge_handle s h) e <-> recorded s e /\ e_hid e <> h.
Proof.
  intros Hinv Hh. unfold nvkvm_uvm_va_purge_handle. destruct (Z.eqb_spec h 0); [done|].
  destruct (clear_spec (fun e => e_hid e =? h) s Hinv) as [H1 H2]; [intros e He; zb; congruence|].
  split; [done|]. intros e. rewrite H2. destruct (Z.eqb_spec (e_hid e) h); intuition congruence.
Qed.

Definition inside (b l : Z) (e : nvkvm_uvm_va_ent) : Prop :=
  e_base e <= b /\ b + l <= e_base e + e_len e.

Lemma drop_spec s h b l :
  va_inv s -> h <> 0 -> range_ok b l ->
  va_inv (uvm_va_drop s h b l) /\
  forall e, recorded (uvm_va_drop s h b l) e <->
    recorded s e /\ ~ (e_hid e = h /\ b <= e_base e /\ e_base e + e_len e <= b + l).
Proof.
  intros Hinv Hh Hbl. unfold uvm_va_drop.
  destruct (clear_spec (fun e => (e_hid e =? h) && ((b <=? e_base e) && (e_base e ⊕ e_len e <=? b ⊕ l)))
    s Hinv) as [H1 H2]; [intros e He; zb; congruence|].
  split; [done|]. intros e. rewrite H2. unfold range_ok in Hbl.
  split; (intros [Hr Hp]; split; [done|]); pose proof (vi_ok s Hinv e Hr) as Hok; unfold range_ok in Hok;
    rewrite !(u64_small (_ + _)) in * by lia.
  - intros (H5 & H3 & H4). rewrite H5, Z.eqb_refl in Hp. simpl in Hp. zb; lia.
  - destruct (Z.eqb_spec (e_hid e) h), (Z.leb_spec b (e_base e)),
      (Z.leb_spec (e_base e + e_len e) (b + l)); simpl; try done. exfalso. auto.
Qed.

Lemma is_ent_spec h b l e : is_ent h b l e = true <-> e = Ent h b l.
Proof.
  unfold is_ent. destruct e as [h' b' l']; simpl. rewrite !andb_true_iff, !Z.eqb_eq.
  split; [intros [[-> ->] ->]; done|intros [= -> -> ->]; done].
Qed.

Lemma add_spec s h b l s' ok :
  va_inv s -> 0 < h -> range_ok b l -> uvm_va_add s h b l = (s', ok) ->
  va_inv s' /\
  (ok = true -> forall e, recorded s' e <-> recorded s e \/ e = Ent h b l) /\
  (ok = false -> s' = s) /\
  (ok = false <-> uvm_va_have_room s = false /\ ~ recorded s (Ent h b l)).
Proof.
  intros Hinv Hh Hbl. pose proof Hinv as [Hl Hu Hnd Hok]. unfold uvm_va_add, uvm_va_have_room.
  pose proof (live_cnt_le (va_tbl s)) as Hle. pose proof max_z as Hmax.
  destruct (existsb (is_ent h b l) (va_tbl s)) eqn:Ee.
  - intros [= <- <-]. apply existsb_exists in Ee as (x & Hx & Hxe). apply is_ent_spec in Hxe as ->.
    apply list_elem_of_In in Hx. assert (recorded s (Ent h b l)) by (split; [done|simpl; lia]).
    split; [done|]. split; [intros _ e; split; [by left|]; intros [He|He]; by subst|]. split; [done|].
    split; [done|by intros [_ Hn]].
  - assert (~ recorded s (Ent h b l)) as Hn.
    { intros [Hin _]. apply list_elem_of_In in Hin. apply Bool.not_true_iff_false in Ee. apply Ee.
      apply existsb_exists. exists (Ent h b l). by rewrite is_ent_spec. }
    destruct (find_idx _ (va_tbl s)) as [i|] eqn:Ef; intros [= <- <-].
    + apply find_idx_Some in Ef as (x & Hx & Hfree & _). zb.
      assert (length (va_tbl s) <> live_cnt (va_tbl s)) as Hroom.
      { intros He. symmetry in He. apply live_cnt_full in He. rewrite Forall_lookup in He.
        specialize (He i x Hx). zb; done. }
      assert (forall e, recorded (VaState (<[i:=Ent h b l]> (va_tbl s)) (u32 (va_used s + 1))) e
        <-> recorded s e \/ e = Ent h b l) as Hr.
      { intros e. unfold recorded; simpl. rewrite !list_elem_of_lookup. split.
        - intros [[j Hj] He]. destruct (decide (i = j)) as [->|].
          + rewrite list_lookup_insert_eq in Hj by (by eapply lookup_lt_Some). right. congruence.
          + rewrite list_lookup_insert_ne in Hj by done. eauto.
        - intros [[[j Hj] He]| ->].
          + split; [|done]. exists j. rewrite list_lookup_insert_ne; [done|]. intros ->. congruence.
          + split; [|simpl; lia]. exists i. apply list_lookup_insert_eq. by eapply lookup_lt_Some. }
      split; [|split; [by intros _|split; [done|]]].
      * split; cbn [va_tbl va_used].
        -- by rewrite length_insert.
        -- unfold live_cnt in *. rewrite (live_ents_insert _ _ x) by (simpl; lia || done).
           rewrite u32_small by lia. simpl. lia.
        -- rewrite (live_ents_insert _ _ x) by (simpl; lia || done). constructor; [|done].
           by rewrite <- recorded_live.
        -- intros e [He| ->]%Hr; [by apply Hok|done].
      * split; [done|]. intros [Hf _]. zb; lia.
    + split; [done|]. split; [done|]. split; [done|]. split; [|done]. intros _. split; [|done].
      apply find_idx_None, live_cnt_full in Ef. apply Z.ltb_ge. lia.
Qed.

Lemma covers_spec s h b l :
  va_inv s -> h <> 0 -> range_ok b l ->
  uvm_va_covers s h b l = true <-> exists e, recorded s e /\ e_hid e = h /\ inside b l e.
Proof.
  intros Hinv Hh Hbl. unfold uvm_va_covers. rewrite existsb_exists. unfold range_ok in Hbl.
  split; intros (e & He); exists e; [destruct He as [Hin Hc]|destruct He as (Hr & Hhe & Hi)].
  - apply list_elem_of_In in Hin. zb. assert (recorded s e) as Hr by (split; [done|congruence]).
    pose proof (vi_ok s Hinv e Hr) as Hok. unfold range_ok, within, inside in *.
    rewrite !(u64_small (_ + _)) in * by lia. zb. auto.
  - split; [apply list_elem_of_In, Hr|]. pose proof (vi_ok s Hinv e Hr) as Hok.
    unfold range_ok, within, inside in *. rewrite !(u64_small (_ + _)) by lia.
    rewrite Hhe, Z.eqb_refl. simpl. apply andb_true_iff. split; apply Z.leb_le; lia.
Qed.

Lemma len_at_spec s h b :
  va_inv s -> h <> 0 ->
  uvm_va_len_at s h b = 0 \/ recorded s (Ent h b (uvm_va_len_at s h b)).
Proof.
  intros Hinv Hh. unfold uvm_va_len_at. destruct (List.find _ _) as [[h' b' l']|] eqn:Ef; [|by left].
  apply find_some in Ef as [Hin Hc]. simpl in *. zb. subst. right. split; [by apply list_elem_of_In|done].
Qed.

Lemma va_init_inv : va_inv va_init.
Proof.
  split; [by rewrite <- (length_replicate NVKVM_UVM_VA_MAX (Ent 0 0 0))|vm_compute; reflexivity|vm_compute; constructor|].
  intros e [He Hn]. unfold va_init in He. cbn [va_tbl] in He. apply elem_of_replicate in He as [-> _]. done.
Qed.

(** ** Refinement: the table is a bounded set of ranges *)
Inductive vop := VAdd (h b l : Z) | VDrop (h b l : Z) | VPurge (h : Z).

Definition vexec (s : va_state) (o : vop) : va_state :=
  match o with
  | VAdd h b l => fst (uvm_va_add s h b l)
  | VDrop h b l => uvm_va_drop s h b l
  | VPurge h => nvkvm_uvm_va_purge_handle s h
  end.

Definition vspec (X : gset nvkvm_uvm_va_ent) (o : vop) : gset nvkvm_uvm_va_ent :=
  match o with
  | VAdd h b l =>
      if decide (Ent h b l ∈ X \/ Z.of_nat (size X) < 16384) then {[Ent h b l]} ∪ X else X
  | VDrop h b l =>
      filter (fun e => ~ (e_hid e = h /\ b <= e_base e /\ e_base e + e_len e <= b + l)) X
  | VPurge h => filter (fun e => e_hid e <> h) X
  end.

Definition vop_ok (o : vop) : Prop :=
  match o with
  | VAdd h b l | VDrop h b l => 0 < h /\ range_ok b l
  | VPurge h => 0 < h
  end.

Definition owned (s : va_state) : gset nvkvm_uvm_va_ent := list_to_set (live_ents (va_tbl s)).

Lemma elem_owned s e : e ∈ owned s <-> recorded s e.
Proof. unfold owned. by rewrite elem_of_list_to_set, recorded_live. Qed.

Lemma size_owned s : va_inv s -> Z.of_nat (size (owned s)) = va_used s.
Proof.
  intros [_ -> Hnd _]. unfold owned. by rewrite size_list_to_set.
Qed.

Lemma vexec_refines s o :
  va_inv s -> vop_ok o -> va_inv (vexec s o) /\ owned (vexec s o) = vspec (owned s) o.
Proof.
  intros Hinv Hok. pose proof (size_owned s Hinv) as Hsz. destruct o as [h b l|h b l|h]; simpl in *.
  - destruct Hok as [Hh Hr]. destruct (uvm_va_add s h b l) as [s' ok] eqn:Ea.
    destruct (add_spec s h b l s' ok Hinv Hh Hr Ea) as (Hi & Ht & Hf & Hiff). simpl. split; [done|].
    unfold uvm_va_have_room in Hiff. rewrite max_z, Z.ltb_ge in Hiff.
    destruct ok; case_decide as Hd; rewrite elem_owned, Hsz in Hd.
    + apply set_eq. intros e. rewrite elem_owned, elem_of_union, elem_of_singleton, elem_owned, Ht by done.
      tauto.
    + assert (true = false); [|done]. apply Hiff. split; [lia|tauto].
    + destruct (proj1 Hiff eq_refl) as [H1 H2]. destruct Hd; [done|lia].
    + by rewrite Hf.
  - destruct Hok as [Hh Hr]. destruct (drop_spec s h b l Hinv ltac:(lia) Hr) as [Hi He]. split; [done|].
    apply set_eq. intros e. rewrite elem_of_filter, !elem_owned, He. tauto.
  - destruct (purge_spec s h Hinv ltac:(lia)) as [Hi He]. split; [done|].
    apply set_eq. intros e. rewrite elem_of_filter, !elem_owned, He. tauto.
Qed.

(** The ownership table implements a set of at most 16384 ranges: after any
    sequence of additions, drops and purges its entries are exactly the ranges
    the set specification gives, the counter is their number, and the
    containment test answers membership of the range in one recorded range
    of that handle. *)
Theorem uvm_va_table_refines ops h b l :
  Forall vop_ok ops -> h <> 0 -> range_ok b l ->
  let s := fold_left vexec ops va_init in
  let X := fold_left vspec ops ∅ in
  owned s = X /\ va_used s = Z.of_nat (size X) /\
  (uvm_va_covers s h b l = true <-> exists e, e ∈ X /\ e_hid e = h /\ inside b l e).
Proof.
  intros Hops Hh Hr. cbv zeta.
  assert (va_inv (fold_left vexec ops va_init) /\
    owned (fold_left vexec ops va_init) = fold_left vspec ops ∅) as [Hi He].
  { assert (owned va_init = ∅) as <- by (vm_compute; reflexivity). generalize va_init_inv.
    generalize va_init. induction Hops as [|o ops Ho _ IH]; intros s Hinv; [done|].
    simpl. destruct (vexec_refines s o Hinv Ho) as [Hi <-]. by apply IH. }
  split; [done|]. rewrite <- He, size_owned by done. split; [done|].
  rewrite covers_spec by done. setoid_rewrite elem_owned. done.
Qed.

Definition demo_vops : list vop :=
  [VAdd 5 8589934592 2097152; VAdd 5 8589934592 2097152; VAdd 6 8589934592 4096; VPurge 6].

Lemma uvm_va_table_refines_witness :
  va_used (fold_left vexec demo_vops va_init) = Z.of_nat (size (fold_left vspec demo_vops ∅)).
Proof.
  apply (uvm_va_table_refines demo_vops 5 8589934592 4096).
  - repeat constructor; simpl; lia.
  - done.
  - repeat split; simpl; lia.
Defined.

End UvmVa.
