(* ===== verification/UvmIoctl.v ===== *)
(** * UvmIoctl: forwarding a UVM ioctl from the guest to the host driver

    Models the UVM branch of [nvkvm_req_ioctl_on_isolate]
    ([src/qemu/nvkvm_isolate_handlers.c]): the schema gate, the VA-range
    ownership check, the translation of embedded descriptors, the bounce buffer,
    the driver call, and the bookkeeping on the driver's verdict.

    The handler runs on a pool worker beside the other workers and the TX
    thread.  It is split where the others can get in between: [uvm_check] up to the
    ownership check, [uvm_purge], [uvm_send] up to the driver call, [uvm_end] after
    it.  The handle table is read several times without a lock spanning the reads:
    [ht n] is the table at the [n]-th read.  The ownership table is locked once
    per query: each query has its own argument.  Answers of [fcntl] and of the
    driver are arguments. *)
From S2P Require Import Prelude Bytes Abi Handles UvmVa.

Module UvmIoctl.
Import Abi Handles UvmVa.

Definition NVKVM_UVM_BOUNCE_MIN : Z := 16384.

(** The fields of [struct nvkvm_req_ioctl_on_isolate] this branch uses, and
    [param_buf] ([None] for NULL). *)
Record ureq := Req { q_hid : Z; q_cmd : Z; q_psize : Z; q_pbuf : option (list Z) }.
Record uresp := Resp { r_retval : Z; r_status : Z; r_nvstatus : Z; r_fault : Z }.

Definition deny (err nvstatus : Z) : uresp := Resp (u64 (- err)) 0 nvstatus 0.

Definition min_size_of (prof : nvkvm_abi_profile) (cmd : Z) (d : nvkvm_uvm_desc) : Z :=
  if cmd =? 33 then uvm_map_ext_size prof
  else if cmd =? 68 then uvm_sem_pool_size prof
  else u_min_size d.

(** The ownership check of a non-empty range, after the length substitution. *)
Definition va_verdict (troom tcov : va_state) (hid : Z) (m : va_mode) (base len : Z) : option uresp :=
  if negb (uvm_va_sane base len) then Some (deny EINVAL 30)
  else if bool_decide (m = VA_CREATE) && negb (uvm_va_have_room troom) then Some (deny ENOMEM 26)
  else if (bool_decide (m = VA_USE) || bool_decide (m = VA_FREE)) && negb (uvm_va_covers tcov hid base len)
  then Some (deny EINVAL 30)
  else None.

(** Size and ownership gates: a refusal, or [(va_base, va_len, va_checked)]. *)
Definition uvm_gate (prof : nvkvm_abi_profile) (tlen troom tcov : va_state) (q : ureq)
    (d : nvkvm_uvm_desc) : uresp + (Z * Z * bool) :=
  let min_size := min_size_of prof (q_cmd q) d in
  if (q_psize q <? min_size) || ((0 <? min_size) && bool_decide (q_pbuf q = None))
  then inl (deny EINVAL 31)
  else if negb (u_va_off d =? OFF_NONE) && negb (bool_decide (u_va_mode d = VA_NONE)) then
    match q_pbuf q with
    | None => inl (deny EINVAL 31)
    | Some b =>
        if q_psize q <? u_va_off d + 16 then inl (deny EINVAL 31)
        else
          let base := rd 8 (u_va_off d) b in
          let len0 := rd 8 (u_va_off d + 8) b in
          let len :=
            if bool_decide (u_va_mode d = VA_FREE) && (len0 =? 0) && negb (base =? 0)
            then uvm_va_len_at tlen (q_hid q) base else len0 in
          if negb (base =? 0) || negb (len =? 0) then
            match va_verdict troom tcov (q_hid q) (u_va_mode d) base len with
            | Some e => inl e
            | None => inr (base, len, true)
            end
          else inr (base, len, false)
    end
  else inr (0, 0, false).

(** ** Embedded descriptors *)

(** The offsets the loop visits; the one of command 33 comes from the profile. *)
Definition emb_offs (prof : nvkvm_abi_profile) (cmd : Z) (d : nvkvm_uvm_desc) : list Z :=
  let o0 := if cmd =? 33 then u16 (uvm_map_ext_fd_off prof) else u_fd_off0 d in
  if o0 =? OFF_NONE then [] else if u_fd_off1 d =? OFF_NONE then [o0] else [o0; u_fd_off1 d].

(** One translated field: its offset, the guest's handle id, and the dup given
    to the driver. *)
Record saved := Saved { sv_off : Z; sv_hid : Z; sv_fd : Z }.

(** The round for one field.  [ht t0] is the table [nvkvm_handle_get] sees,
    [ht (t0+1)] the one [eh->type] is read from, [ht (t0+2)] the one
    [eh->generation] is read from, [ht (t0+3)] the one the dup is taken under;
    [k] is the answer of [fcntl]. *)
Inductive emb_res := EmbSkip | EmbDeny (cl : list Z) | EmbOk (fd : Z).

Definition emb_one (ht : nat -> nvkvm_handle_table) (t0 : nat) (k cmd hid : Z) : emb_res :=
  if (hid =? 0) || (hid =? UINT32_MAX) then EmbSkip
  else
    match nvkvm_handle_get (ht t0) hid with
    | None => EmbDeny []
    | Some _ =>
        let etype := h_type (slot (ht (1 + t0)%nat) hid) in
        let egen0 := h_gen (slot (ht (2 + t0)%nat) hid) in
        let '(efd, out) := nvkvm_handle_acquire_fd (ht (3 + t0)%nat) hid k in
        if efd <? 0 then EmbDeny []
        else
          let '(edev, egen) := default (-1, 0) out in
          let want := nvkvm_uvm_embedded_fd_dev cmd in
          if negb (etype =? NVKVM_HANDLE_TYPE_NVIDIA) || (want <? 0) || negb (edev =? want) ||
             negb (egen =? egen0)
          then EmbDeny [efd] else EmbOk efd
    end.

(** The loop; a refusal closes the dups taken so far. *)
Fixpoint emb_loop (ht : nat -> nvkvm_handle_table) (dup : nat -> Z) (i : nat) (cmd psize : Z)
    (offs : list Z) (b : list Z) (sv : list saved) : list Z * (list Z + list saved) :=
  match offs with
  | [] => (b, inr sv)
  | off :: rest =>
      if psize <? off + 4 then emb_loop ht dup (S i) cmd psize rest b sv
      else
        let hid := rd 4 off b in
        match emb_one ht (3 + 4 * i)%nat (dup i) cmd hid with
        | EmbSkip => emb_loop ht dup (S i) cmd psize rest b sv
        | EmbDeny cl => (b, inl (cl ++ map sv_fd sv))
        | EmbOk fd =>
            emb_loop ht dup (S i) cmd psize rest (wr off (le_bytes 4 (u32 fd)) b)
                     (sv ++ [Saved off hid fd])
        end
  end.

(** ** The bounce buffer *)
Definition bounce_of (cmd psize : Z) (pb : option (list Z)) : list Z :=
  let bsz := if psize <? NVKVM_UVM_BOUNCE_MIN then NVKVM_UVM_BOUNCE_MIN else psize in
  let zero := replicate (Z.to_nat bsz) 0 in
  let b := match pb with
           | Some p => if psize =? 0 then zero else wr 0 p zero
           | None => zero
           end in
  if (cmd =? 51) && (52 <=? bsz) then wr 40 (replicate 12 0) b else b.

(** ** The handler up to the driver call *)
Record flight := Flight {
  f_req : ureq; f_desc : nvkvm_uvm_desc; f_base : Z; f_len : Z; f_checked : bool;
  f_pbuf : option (list Z); f_saved : list saved; f_tfd : Z; f_bounce : list Z
}.

(** A request that is not forwarded: the response, [param_buf] afterwards, and
    the descriptors closed. *)
Definition refusal : Type := uresp * option (list Z) * list Z.

(** A request past the ownership check. *)
Record gated := Gated {
  g_req : ureq; g_desc : nvkvm_uvm_desc; g_base : Z; g_len : Z; g_checked : bool
}.

(** Up to the ownership check.  [None]: the handle is not a UVM one and the request
    takes the other branch. *)
Definition uvm_check (prof : nvkvm_abi_profile) (ht : nat -> nvkvm_handle_table)
    (tlen troom tcov : va_state) (q : ureq) : option (uresp + gated) :=
  match nvkvm_handle_get (ht 0%nat) (q_hid q) with
  | None => None
  | Some _ =>
      if negb (h_dev (slot (ht 1%nat) (q_hid q)) =? NVKVM_DEV_UVM) ||
         (h_fd (slot (ht 2%nat) (q_hid q)) <? 0) then None
      else
        match nvkvm_uvm_lookup (q_cmd q) with
        | None => Some (inl (deny EPERM 87))
        | Some d =>
            match uvm_gate prof tlen troom tcov q d with
            | inl e => Some (inl e)
            | inr (base, len, chk) => Some (inr (Gated q d base len chk))
            end
        end
  end.

(** A fresh va_space owns nothing. *)
Definition uvm_purge (q : ureq) : list vop :=
  if q_cmd q =? UVM_INITIALIZE then [VPurge (q_hid q)] else [].

(** From the embedded descriptors to the driver call.  [tdup] answers the [fcntl]
    on the target. *)
Definition uvm_send (prof : nvkvm_abi_profile) (ht : nat -> nvkvm_handle_table) (dup : nat -> Z)
    (tdup : Z) (g : gated) : refusal + flight :=
  let q := g_req g in
  let '(pb, r) :=
    match q_pbuf q with
    | None => (None, inr [])
    | Some b =>
        let '(b', r) := emb_loop ht dup 0 (q_cmd q) (q_psize q)
                                 (emb_offs prof (q_cmd q) (g_desc g)) b [] in (Some b', r)
    end in
  match r with
  | inl cl => inl (deny EBADF 31, pb, cl)
  | inr sv =>
      let tfd := fst (nvkvm_handle_acquire_fd (ht 11%nat) (q_hid q) tdup) in
      if tfd <? 0 then inl (deny EBADF 31, pb, map sv_fd sv)
      else inr (Flight q (g_desc g) (g_base g) (g_len g) (g_checked g) pb sv tfd
                       (bounce_of (q_cmd q) (q_psize q) pb))
  end.

(** The three in sequence: what the ownership table undergoes, and the outcome. *)
Definition uvm_begin (prof : nvkvm_abi_profile) (ht : nat -> nvkvm_handle_table) (dup : nat -> Z)
    (tdup : Z) (tlen troom tcov : va_state) (q : ureq) : option (list vop * (refusal + flight)) :=
  match uvm_check prof ht tlen troom tcov q with
  | None => None
  | Some (inl e) => Some ([], inl (e, q_pbuf q, []))
  | Some (inr g) => Some (uvm_purge q, uvm_send prof ht dup tdup g)
  end.

(** ** The handler after the driver call *)

(** The driver's answer: [ioctl]'s return value, [errno], and the buffer. *)
Record answer := Answer { a_r : Z; a_errno : Z; a_out : list Z }.

Definition status_off (cmd : Z) : Z :=
  if cmd =? 27 then 48
  else if cmd =? 34 then 16
  else if cmd =? 65 then 36
  else if cmd =? 68 then 9240
  else if cmd =? 73 then 16
  else UINT32_MAX.

Definition va_rmstatus (chk : bool) (cmd : Z) (out : list Z) : Z :=
  let so := status_off cmd in
  if chk && negb (so =? UINT32_MAX) && (so + 4 <=? arr_len out) then rd 4 so out else UINT32_MAX.

Definition end_ops (f : flight) (a : answer) : list vop :=
  let h := q_hid (f_req f) in
  (if (a_r a =? 0) && (va_rmstatus (f_checked f) (q_cmd (f_req f)) (a_out a) =? 0) && f_checked f then
     match u_va_mode (f_desc f) with
     | VA_CREATE => [VAdd h (f_base f) (f_len f)]
     | VA_FREE => [VDrop h (f_base f) (f_len f)]
     | _ => []
     end
   else []) ++
  (if (q_cmd (f_req f) =? UVM_DEINITIALIZE) && (a_r a =? 0) then [VPurge h] else []).

Definition restore (b : list Z) (s : saved) : list Z := wr (sv_off s) (le_bytes 4 (sv_hid s)) b.

(** The ownership operations, the response, [param_buf] for the guest, and the
    descriptors closed. *)
Definition uvm_end (f : flight) (a : answer) : list vop * uresp * option (list Z) * list Z :=
  let psize := q_psize (f_req f) in
  let pb :=
    match f_pbuf f with
    | None => None
    | Some b =>
        let b1 := if psize =? 0 then b else wr 0 (take (Z.to_nat psize) (a_out a)) b in
        Some (fold_left restore (f_saved f) b1)
    end in
  let st := match pb with Some b => if 4 <=? psize then rd 4 (psize - 4) b else 0 | None => 0 end in
  (end_ops f a, Resp (if a_r a <? 0 then u64 (- a_errno a) else 0) 0 st 0, pb,
   f_tfd f :: map sv_fd (f_saved f)).

(** ** Facts about the schema and the buffers *)

(** A request as the VMM builds it: [param_buf] has exactly [param_size] bytes. *)
Definition req_ok (q : ureq) : Prop :=
  0 <= q_hid q /\ 0 <= q_psize q < W32 /\
  forall b, q_pbuf q = Some b -> arr_len b = q_psize q /\ Forall (fun c => 0 <= c < 256) b.

Lemma lookup_in cmd d : nvkvm_uvm_lookup cmd = Some d -> d ∈ nvkvm_uvm_schema /\ u_cmd d = cmd.
Proof.
  unfold nvkvm_uvm_lookup. intros [Hin He]%find_some. zb. split; [by apply list_elem_of_In|done].
Qed.

(** What the offsets of a schema row satisfy under a profile: fields inside the
    accepted size, at most one descriptor, and no overlap with the VA pair or
    with the bytes cleared for UVM_MIGRATE. *)
Definition row_ok (prof : nvkvm_abi_profile) (d : nvkvm_uvm_desc) : bool :=
  forallb (fun o => (0 <=? o) && (o + 4 <=? min_size_of prof (u_cmd d) d) && (o + 4 <=? NVKVM_UVM_BOUNCE_MIN) &&
                    (0 <=? nvkvm_uvm_embedded_fd_dev (u_cmd d)) && negb (u_cmd d =? 51) &&
                    ((u_va_off d =? OFF_NONE) || (o + 4 <=? u_va_off d) || (u_va_off d + 16 <=? o)))
          (emb_offs prof (u_cmd d) d) &&
  (Nat.leb (length (emb_offs prof (u_cmd d) d)) 1) &&
  ((u_va_off d =? OFF_NONE) || (0 <=? u_va_off d) && (u_va_off d + 16 <=? 40) || negb (u_cmd d =? 51)) &&
  ((0 <=? u_va_off d)) && (bool_decide (u_va_mode d = VA_NONE) || negb (u_va_off d =? OFF_NONE)).

Lemma rows_ok prof d : prof ∈ nvkvm_abi_profiles -> d ∈ nvkvm_uvm_schema -> row_ok prof d = true.
Proof.
  assert (forallb (fun p => forallb (row_ok p) nvkvm_uvm_schema) nvkvm_abi_profiles = true) as Hall
    by (vm_compute; reflexivity).
  intros Hp Hd. apply list_elem_of_In in Hp, Hd.
  apply (proj1 (forallb_forall _ _) Hall) in Hp. by apply (proj1 (forallb_forall _ _) Hp) in Hd.
Qed.

Record row_facts (prof : nvkvm_abi_profile) (d : nvkvm_uvm_desc) : Prop := {
  rf_off : forall o, o ∈ emb_offs prof (u_cmd d) d ->
    0 <= o /\ o + 4 <= min_size_of prof (u_cmd d) d /\ o + 4 <= NVKVM_UVM_BOUNCE_MIN /\
    0 <= nvkvm_uvm_embedded_fd_dev (u_cmd d) /\ u_cmd d <> 51 /\
    (u_va_off d = OFF_NONE \/ o + 4 <= u_va_off d \/ u_va_off d + 16 <= o);
  rf_one : (length (emb_offs prof (u_cmd d) d) <= 1)%nat;
  rf_mig : u_va_off d = OFF_NONE \/ u_va_off d + 16 <= 40 \/ u_cmd d <> 51;
  rf_va : 0 <= u_va_off d;
  rf_mode : u_va_mode d <> VA_NONE -> u_va_off d <> OFF_NONE
}.

Lemma row_facts_of prof d : prof ∈ nvkvm_abi_profiles -> d ∈ nvkvm_uvm_schema -> row_facts prof d.
Proof.
  intros Hp Hd. pose proof (rows_ok prof d Hp Hd) as Hr. unfold row_ok in Hr.
  apply andb_true_iff in Hr as [[[[H1 H2]%andb_true_iff H3]%andb_true_iff H4]%andb_true_iff H5].
  split.
  - intros o Ho. apply list_elem_of_In in Ho. apply (proj1 (forallb_forall _ _) H1) in Ho.
    apply andb_true_iff in Ho as [Ho Hva]. zb; tauto.
  - by apply Nat.leb_le.
  - zb; tauto.
  - by apply Z.leb_le.
  - intros Hm. apply orb_true_iff in H5 as [H5|H5]; [by apply bool_decide_eq_true in H5|by zb].
Qed.

Lemma bounce_length cmd psize pb :
  (forall b, pb = Some b -> arr_len b = psize) -> 0 <= psize ->
  arr_len (bounce_of cmd psize pb) = Z.max psize NVKVM_UVM_BOUNCE_MIN.
Proof.
  intros Hb Hp. unfold bounce_of, NVKVM_UVM_BOUNCE_MIN in *.
  set (bsz := if psize <? 16384 then 16384 else psize).
  assert (bsz = Z.max psize 16384) as Hbsz by (unfold bsz; destruct (Z.ltb_spec psize 16384); lia).
  assert (forall b, pb = Some b -> length (wr 0 b (replicate (Z.to_nat bsz) 0)) = Z.to_nat bsz) as Hw.
  { intros b He. rewrite wr_length; [by rewrite length_replicate|lia|].
    unfold arr_len in *. rewrite length_replicate. specialize (Hb b He). lia. }
  set (b := match pb with Some _ => _ | None => _ end).
  assert (length b = Z.to_nat bsz) as Hl.
  { unfold b. destruct pb as [p|]; [case_if; [by rewrite length_replicate|by apply Hw]|by rewrite length_replicate]. }
  unfold arr_len. case_if; [|rewrite Hl; lia].
  rewrite wr_length; unfold arr_len; rewrite ?length_replicate, ?Hl; lia.
Qed.

(** The bytes of the bounce buffer: those of [param_buf], then zeros; the
    twelve bytes of UVM_MIGRATE's semaphore are zero. *)
Lemma bounce_lookup cmd psize pb i :
  (forall b, pb = Some b -> arr_len b = psize) -> 0 <= psize -> 0 <= i < Z.max psize NVKVM_UVM_BOUNCE_MIN ->
  bounce_of cmd psize pb !! Z.to_nat i =
    if (cmd =? 51) && ((40 <=? i) && (i <? 52)) then Some 0
    else match pb with Some b => if i <? psize then b !! Z.to_nat i else Some 0 | None => Some 0 end.
Proof.
  intros Hb Hp Hi. unfold bounce_of, NVKVM_UVM_BOUNCE_MIN in *.
  set (bsz := if psize <? 16384 then 16384 else psize).
  assert (bsz = Z.max psize 16384) as Hbsz by (unfold bsz; destruct (Z.ltb_spec psize 16384); lia).
  set (zero := replicate (Z.to_nat bsz) 0).
  assert (length zero = Z.to_nat bsz) as Hz by apply length_replicate.
  set (b := match pb with Some _ => _ | None => _ end).
  assert (b !! Z.to_nat i = match pb with Some p => if i <? psize then p !! Z.to_nat i else Some 0 | None => Some 0 end
    /\ length b = Z.to_nat bsz) as [Hlk Hlen].
  { assert (zero !! Z.to_nat i = Some 0) as Hz0 by (apply lookup_replicate_2; lia).
    unfold b. destruct pb as [p|]; [|done]. specialize (Hb p eq_refl).
    destruct (Z.eqb_spec psize 0) as [->|]; [destruct (Z.ltb_spec i 0); [lia|done]|].
    split; [|rewrite wr_length; unfold arr_len in *; lia].
    destruct (Z.ltb_spec i psize).
    - unfold wr. simpl. apply lookup_app_l. unfold arr_len in Hb. lia.
    - rewrite lookup_wr_out; unfold arr_len in *; try lia; done. }
  destruct (Z.eqb_spec cmd 51); cbn [andb]; [|done].
  destruct (Z.leb_spec 52 bsz); [|lia].
  destruct (Z.leb_spec 40 i), (Z.ltb_spec i 52); cbn [andb];
    try (rewrite lookup_wr_out; [done|lia|unfold arr_len; rewrite length_replicate; lia|lia|
           unfold arr_len; rewrite length_replicate; lia]).
  unfold wr. rewrite lookup_app_r by (rewrite length_take; lia). rewrite length_take.
  rewrite lookup_app_l by (rewrite length_replicate; lia). apply lookup_replicate_2. lia.
Qed.

(** A field of [param_buf] is passed on unchanged. *)
Lemma rd_bounce n cmd psize b off :
  arr_len b = psize -> 0 <= off -> off + Z.of_nat n <= psize -> (off + Z.of_nat n <= 40 \/ cmd <> 51) ->
  rd n off (bounce_of cmd psize (Some b)) = rd n off b.
Proof.
  intros Hl H0 Hn Hm. apply rd_ext; [done|]. intros i Hi.
  rewrite bounce_lookup; [|intros ? [= <-]; done|lia|unfold NVKVM_UVM_BOUNCE_MIN; lia].
  destruct (Z.ltb_spec i psize); [|lia].
  destruct (Z.eqb_spec cmd 51), (Z.leb_spec 40 i); simpl; try done. lia.
Qed.

(** Translation touches only the fields it visits. *)
Lemma emb_loop_frame ht dup cmd psize n off : forall offs i b sv b' r,
  emb_loop ht dup i cmd psize offs b sv = (b', r) -> arr_len b = psize -> 0 <= off ->
  (forall o, o ∈ offs -> 0 <= o /\ (o + 4 <= off \/ off + Z.of_nat n <= o)) ->
  arr_len b' = psize /\ rd n off b' = rd n off b.
Proof.
  induction offs as [|o offs IH]; intros i b sv b' r He Hl H0 Ho; cbn [emb_loop] in He; [by injection He as <- <-|].
  assert (forall o', o' ∈ offs -> 0 <= o' /\ (o' + 4 <= off \/ off + Z.of_nat n <= o')) as Hr
    by (intros; apply Ho; by right).
  destruct (Ho o) as [Ho0 Hd]; [left|].
  destruct (Z.ltb_spec psize (o + 4)); [by eapply IH|].
  destruct (emb_one _ _ _ _ _) as [|cl|fd]; [by eapply IH|by injection He as <- <-|].
  assert (arr_len (le_bytes 4 (u32 fd)) = 4) as Hlb by (unfold arr_len; by rewrite le_bytes_length).
  assert (length (wr o (le_bytes 4 (u32 fd)) b) = length b) as Hlw by (apply wr_length; lia).
  apply IH in He as [Hl' He]; [|unfold arr_len in *; lia|done|done].
  split; [done|]. rewrite He. apply rd_wr_out; lia.
Qed.

(** ** The gate *)
Definition mode_checked (m : va_mode) : Prop := m = VA_USE \/ m = VA_FREE.

Lemma gate_checked prof tlen troom tcov q d base len :
  uvm_gate prof tlen troom tcov q d = inr (base, len, true) -> req_ok q -> 0 < q_hid q -> va_inv tcov ->
  va_inv tlen ->
  range_ok base len /\
  (mode_checked (u_va_mode d) ->
   exists e, recorded tcov e /\ e_hid e = q_hid q /\ inside base len e).
Proof.
  unfold uvm_gate. intros Hg (Hh & Hp & Hb) Hpos Hinv Htl. case_if_in Hg; [done|]. case_if_in Hg; [|done].
  destruct (q_pbuf q) as [b|]; [|done]. destruct (Hb b eq_refl) as [Hl Hby]. case_if_in Hg; [done|].
  set (bs := rd 8 (u_va_off d) b) in *. set (l0 := rd 8 (u_va_off d + 8) b) in *.
  pose proof (rd_range 8 (u_va_off d) b Hby) as R1. pose proof (rd_range 8 (u_va_off d + 8) b Hby) as R2.
  change (256 ^ Z.of_nat 8) with W64 in R1, R2. fold bs in R1. fold l0 in R2.
  set (len' := if bool_decide (u_va_mode d = VA_FREE) && (l0 =? 0) && negb (bs =? 0)
    then uvm_va_len_at tlen (q_hid q) bs else l0) in *.
  assert (0 <= len' < W64) as R3.
  { unfold len'. case_if; [|done]. destruct (len_at_spec tlen (q_hid q) bs Htl ltac:(lia)) as [->|Hr]; [lia|].
    apply (vi_ok tlen Htl) in Hr. unfold range_ok in Hr. simpl in Hr. lia. }
  case_if_in Hg; [|done].
  destruct (va_verdict troom tcov (q_hid q) (u_va_mode d) bs len') eqn:Ev; [done|].
  injection Hg as <- <-. unfold va_verdict in Ev.
  destruct (uvm_va_sane bs len') eqn:Es; simpl in Ev; [|done]. apply sane_spec in Es; [|lia|lia].
  split; [done|]. intros Hm. case_if_in Ev; [done|].
  rewrite <- (covers_spec tcov (q_hid q) bs len') by (done || lia).
  destruct (uvm_va_covers tcov (q_hid q) bs len'); [done|].
  destruct Hm as [Hm|Hm]; rewrite Hm in Ev; done.
Qed.

(** An unchecked pass carries the pair (0, 0), or no pair at all. *)
Lemma gate_pair prof tlen troom tcov q d base len chk :
  uvm_gate prof tlen troom tcov q d = inr (base, len, chk) -> u_va_off d <> OFF_NONE ->
  u_va_mode d <> VA_NONE ->
  exists b, q_pbuf q = Some b /\ u_va_off d + 16 <= q_psize q /\ base = rd 8 (u_va_off d) b /\
  (chk = false -> base = 0 /\ len = 0) /\
  (len = rd 8 (u_va_off d + 8) b \/ rd 8 (u_va_off d + 8) b = 0 /\ u_va_mode d = VA_FREE).
Proof.
  unfold uvm_gate. intros Hg Ho Hm. case_if_in Hg; [done|].
  assert (negb (u_va_off d =? OFF_NONE) && negb (bool_decide (u_va_mode d = VA_NONE)) = true) as Hc.
  { apply andb_true_iff. split; apply negb_true_iff; [by apply Z.eqb_neq|by apply bool_decide_eq_false]. }
  rewrite Hc in Hg. destruct (q_pbuf q) as [b|]; [|done]. destruct (Z.ltb_spec (q_psize q) (u_va_off d + 16)); [done|].
  exists b. split; [done|]. split; [done|].
  set (l0 := rd 8 (u_va_off d + 8) b) in *. set (len' := if _ && _ && _ then _ else l0) in Hg.
  assert (len' = l0 \/ l0 = 0 /\ u_va_mode d = VA_FREE) as Hlen.
  { unfold len'. destruct (bool_decide_reflect (u_va_mode d = VA_FREE)), (Z.eqb_spec l0 0); simpl; auto. }
  destruct (Z.eqb_spec (rd 8 (u_va_off d) b) 0), (Z.eqb_spec len' 0); cbn [negb orb] in Hg.
  1: by injection Hg as <- <- <-.
  all: destruct (va_verdict _ _ _ _ _ _); [done|]; by injection Hg as <- <- <-.
Qed.

(** What a request past the gate satisfies, and what a forwarded one does. *)
Record gate_facts (prof : nvkvm_abi_profile) (tlen troom tcov : va_state) (g : gated) : Prop := {
  gf_pos : 0 < q_hid (g_req g);
  gf_row : nvkvm_uvm_lookup (q_cmd (g_req g)) = Some (g_desc g);
  gf_gate : uvm_gate prof tlen troom tcov (g_req g) (g_desc g) = inr (g_base g, g_len g, g_checked g)
}.

Record fwd_facts (prof : nvkvm_abi_profile) (ht : nat -> nvkvm_handle_table) (dup : nat -> Z) (tdup : Z)
    (tlen troom tcov : va_state) (q : ureq) (f : flight) : Prop := {
  ff_pos : 0 < q_hid q;
  ff_req : f_req f = q;
  ff_row : nvkvm_uvm_lookup (q_cmd q) = Some (f_desc f);
  ff_gate : uvm_gate prof tlen troom tcov q (f_desc f) = inr (f_base f, f_len f, f_checked f);
  ff_emb : match q_pbuf q with
           | None => f_pbuf f = None /\ f_saved f = []
           | Some b => exists b', emb_loop ht dup 0 (q_cmd q) (q_psize q)
                         (emb_offs prof (q_cmd q) (f_desc f)) b [] = (b', inr (f_saved f)) /\ f_pbuf f = Some b'
           end;
  ff_bounce : f_bounce f = bounce_of (q_cmd q) (q_psize q) (f_pbuf f);
  ff_tfd : f_tfd f = fst (nvkvm_handle_acquire_fd (ht 11%nat) (q_hid q) tdup) /\ 0 <= f_tfd f
}.

Lemma check_facts prof ht tlen troom tcov q g :
  uvm_check prof ht tlen troom tcov q = Some (inr g) -> req_ok q ->
  g_req g = q /\ gate_facts prof tlen troom tcov g.
Proof.
  unfold uvm_check. intros Hc (Hh & _ & _).
  destruct (nvkvm_handle_get (ht 0%nat) (q_hid q)) eqn:Eg; [|done]. case_if_in Hc; [done|].
  assert (0 < q_hid q) as Hpos.
  { unfold nvkvm_handle_get in Eg. destruct (bad_id (q_hid q)) eqn:Eb; [done|].
    apply bad_id_false in Eb; lia. }
  destruct (nvkvm_uvm_lookup (q_cmd q)) as [d|] eqn:El; [|done].
  destruct (uvm_gate prof tlen troom tcov q d) as [e|[[base len] chk]] eqn:Eu; [done|].
  by injection Hc as <-.
Qed.

Lemma send_facts prof ht dup tdup tlen troom tcov g f :
  gate_facts prof tlen troom tcov g -> uvm_send prof ht dup tdup g = inr f ->
  fwd_facts prof ht dup tdup tlen troom tcov (g_req g) f /\
  f_desc f = g_desc g /\ f_base f = g_base g /\ f_len f = g_len g /\ f_checked f = g_checked g.
Proof.
  intros [Hpos Hrow Hg]. unfold uvm_send. intros Hs.
  destruct (q_pbuf (g_req g)) as [b|] eqn:Eq.
  - destruct (emb_loop _ _ _ _ _ _ _ _) as [b' [cl|sv]] eqn:Ee; [done|].
    destruct (Z.ltb_spec (fst (nvkvm_handle_acquire_fd (ht 11%nat) (q_hid (g_req g)) tdup)) 0); [done|].
    injection Hs as <-. split; [|done]. split; simpl; try done. rewrite Eq. eauto.
  - destruct (Z.ltb_spec (fst (nvkvm_handle_acquire_fd (ht 11%nat) (q_hid (g_req g)) tdup)) 0); [done|].
    injection Hs as <-. split; [|done]. split; simpl; try done. by rewrite Eq.
Qed.

Lemma begin_fwd prof ht dup tdup tlen troom tcov q ops f :
  uvm_begin prof ht dup tdup tlen troom tcov q = Some (ops, inr f) -> req_ok q ->
  fwd_facts prof ht dup tdup tlen troom tcov q f.
Proof.
  unfold uvm_begin. intros Hb Hq. destruct (uvm_check _ _ _ _ _ _) as [[e|g]|] eqn:Ec; [done| |done].
  destruct (check_facts _ _ _ _ _ _ _ Ec Hq) as [<- Hg]. injection Hb as _ Hs.
  by apply (send_facts _ _ _ _ _ _ _ _ _ Hg Hs).
Qed.

(** The driver sees the VA pair that was checked. *)
Lemma fwd_pair prof ht dup tdup tlen troom tcov q f :
  fwd_facts prof ht dup tdup tlen troom tcov q f -> req_ok q -> prof ∈ nvkvm_abi_profiles ->
  u_va_mode (f_desc f) <> VA_NONE ->
  let off := u_va_off (f_desc f) in
  f_base f = rd 8 off (f_bounce f) /\
  (f_checked f = false -> f_base f = 0 /\ f_len f = 0) /\
  (f_len f = rd 8 (off + 8) (f_bounce f) \/ rd 8 (off + 8) (f_bounce f) = 0 /\ u_va_mode (f_desc f) = VA_FREE).
Proof.
  intros [Hpos Hq Hrow Hg Hemb Hbo _] (_ & Hps & Hb) Hp Hm. cbv zeta.
  destruct (lookup_in _ _ Hrow) as [Hin Hcmd].
  pose proof (row_facts_of prof (f_desc f) Hp Hin) as [Hoff _ Hmig Hva Hmode]. rewrite Hcmd in *.
  specialize (Hmode Hm). set (off := u_va_off (f_desc f)) in *.
  destruct (gate_pair _ _ _ _ _ _ _ _ _ Hg Hmode Hm) as (b & Hqb & Hsz & Hbase & Hu & Hlen).
  fold off in Hsz, Hbase, Hlen. rewrite Hqb in Hemb. destruct Hemb as (b' & He & Hpb).
  destruct (Hb b Hqb) as [Hl Hby].
  assert (forall o, off <= o -> o + 8 <= off + 16 -> rd 8 o (f_bounce f) = rd 8 o b) as Hrd.
  { intros o Ho1 Ho2. rewrite Hbo, Hpb.
    destruct (emb_loop_frame _ _ _ _ 8 o _ _ _ _ _ _ He Hl) as [Hl' Hr]; [lia| |].
    - intros x Hx. destruct (Hoff x Hx) as (? & ? & ? & ? & ? & ?). split; [done|].
      change (Z.of_nat 8) with 8. fold off in H4. lia.
    - rewrite rd_bounce; [done|done|lia|change (Z.of_nat 8) with 8; lia|change (Z.of_nat 8) with 8].
      fold off in Hmig. destruct Hmig as [|[|]]; [done|lia|by right]. }
  rewrite !Hrd by lia. done.
Qed.

(** ** All workers together

    A worker is named by its place in the list.  [WGated] has passed the ownership
    check, [WCleared] is past the purge of a fresh va_space, [WCalled] waits for the
    driver, [WAnswered] has the driver's answer and has not updated the table. *)
Inductive worker :=
| WGated (g : gated) | WCleared (g : gated) | WCalled (f : flight) | WAnswered (f : flight) (a : answer)
| WDone.

(** The history, newest event first. *)
Inductive uev :=
| EvCheck (i : nat) (h : Z)
| EvForward (i : nat) (h : Z) (d : nvkvm_uvm_desc) (buf : list Z)
| EvAnswer (i : nat) (a : answer)
| EvRecord (h b l : Z) | EvFree (h b l : Z) | EvPurge (h : Z).

Record usys := USys { us_tbl : va_state; us_wk : list worker; us_log : list uev }.
Definition usys0 : usys := USys va_init [] [].

Definition ev_of (o : vop) : uev :=
  match o with VAdd h b l => EvRecord h b l | VDrop h b l => EvFree h b l | VPurge h => EvPurge h end.

(** What the outside gives a worker for its next step. *)
Inductive winp :=
| IPurge
| ISend (ht : nat -> nvkvm_handle_table) (dup : nat -> Z) (tdup : Z)
| IAnswer (a : answer)
| IUpdate.

(** A request arrives and is checked, a worker goes on, or a handle is closed. *)
Inductive uact :=
| AStart (ht : nat -> nvkvm_handle_table) (tlen troom : va_state) (q : ureq)
| AWork (i : nat) (x : winp)
| AClose (h : Z).

Definition apply_ops (s : usys) (ops : list vop) : usys :=
  fold_left (fun s o => USys (vexec (us_tbl s) o) (us_wk s) (ev_of o :: us_log s)) ops s.

Definition set_wk (s : usys) (i : nat) (w : worker) (evs : list uev) : usys :=
  USys (us_tbl s) (<[i:=w]> (us_wk s)) (evs ++ us_log s).

Definition work (prof : nvkvm_abi_profile) (s : usys) (i : nat) (w : worker) (x : winp) : usys :=
  match w, x with
  | WGated g, IPurge => apply_ops (set_wk s i (WCleared g) []) (uvm_purge (g_req g))
  | WCleared g, ISend ht dup tdup =>
      match uvm_send prof ht dup tdup g with
      | inl _ => set_wk s i WDone []
      | inr f => set_wk s i (WCalled f) [EvForward i (q_hid (f_req f)) (f_desc f) (f_bounce f)]
      end
  | WCalled f, IAnswer a => set_wk s i (WAnswered f a) [EvAnswer i a]
  | WAnswered f a, IUpdate => let '(ops, _, _, _) := uvm_end f a in apply_ops (set_wk s i WDone []) ops
  | _, _ => s
  end.

Definition ustep (prof : nvkvm_abi_profile) (s : usys) (a : uact) : usys :=
  match a with
  | AStart ht tlen troom q =>
      match uvm_check prof ht tlen troom (us_tbl s) q with
      | Some (inr g) =>
          USys (us_tbl s) (us_wk s ++ [WGated g]) (EvCheck (length (us_wk s)) (q_hid q) :: us_log s)
      | _ => s
      end
  | AWork i x => match us_wk s !! i with Some w => work prof s i w x | None => s end
  | AClose h => apply_ops s [VPurge h]
  end.

Definition act_ok (a : uact) : Prop :=
  match a with
  | AStart _ tlen troom q => va_inv tlen /\ va_inv troom /\ req_ok q
  | AWork _ _ => True
  | AClose h => 0 < h
  end.

(** Where the driver of a profile puts the status of a range-creating command: the
    last eight bytes of the pool's parameters, whose size depends on the driver. *)
Definition rm_status_off (prof : nvkvm_abi_profile) (cmd : Z) : Z :=
  if cmd =? 68 then uvm_sem_pool_size prof - 8 else status_off cmd.

(** The driver performed the command; for a pool on a driver before 550 only the
    ioctl's own return value says so. *)
Definition accepted (prof : nvkvm_abi_profile) (cmd : Z) (a : answer) : Prop :=
  a_r a = 0 /\
  (rd 4 (rm_status_off prof cmd) (a_out a) = 0 \/ cmd = 68 /\ uvm_sem_pool_size prof = 1184).

(** A worker sent the driver a command creating exactly [e] for [e]'s handle, and the
    driver accepted it. *)
Definition created (prof : nvkvm_abi_profile) (log : list uev) (e : nvkvm_uvm_va_ent) : Prop :=
  exists i d buf a, EvForward i (e_hid e) d buf ∈ log /\ EvAnswer i a ∈ log /\
  u_va_mode d = VA_CREATE /\ rd 8 (u_va_off d) buf = e_base e /\ rd 8 (u_va_off d + 8) buf = e_len e /\
  accepted prof (u_cmd d) a.

(** An event that ends the ownership of the range [e]. *)
Definition ends (e : nvkvm_uvm_va_ent) (ev : uev) : Prop :=
  match ev with
  | EvPurge h => h = e_hid e
  | EvFree h b l => h = e_hid e /\ b <= e_base e /\ e_base e + e_len e <= b + l
  | _ => False
  end.

(** [e] was created, then recorded, and nothing has ended it since. *)
Definition granted (prof : nvkvm_abi_profile) (log : list uev) (e : nvkvm_uvm_va_ent) : Prop :=
  exists mid pre, log = mid ++ EvRecord (e_hid e) (e_base e) (e_len e) :: pre /\
  Forall (fun ev => ~ ends e ev) mid /\ created prof pre e.

(** The driver's view of a call with a checked range: no range, or one inside a range
    granted to that handle when the call's worker made its check. *)
Definition fwd_ok (prof : nvkvm_abi_profile) (pre : list uev) (i : nat) (h : Z) (d : nvkvm_uvm_desc)
    (buf : list Z) : Prop :=
  mode_checked (u_va_mode d) ->
  let b := rd 8 (u_va_off d) buf in
  let l := rd 8 (u_va_off d + 8) buf in
  exists mid chk, pre = mid ++ EvCheck i h :: chk /\
  (b = 0 /\ l = 0 \/
   exists e, granted prof chk e /\ e_hid e = h /\ inside b l e /\ range_ok (e_base e) (e_len e)).

Section workers.
Context (prof : nvkvm_abi_profile) (Hprof : prof ∈ nvkvm_abi_profiles).

(** What is known of a worker past its check. *)
Definition past_check (log : list uev) (i : nat) (g : gated) : Prop :=
  req_ok (g_req g) /\ exists tlen troom tcov mid chk,
  gate_facts prof tlen troom tcov g /\ va_inv tlen /\ va_inv tcov /\
  log = mid ++ EvCheck i (q_hid (g_req g)) :: chk /\ (forall e, recorded tcov e -> granted prof chk e).

(** And of one past its call. *)
Definition past_call (log : list uev) (i : nat) (f : flight) : Prop :=
  0 < q_hid (f_req f) /\ (f_checked f = true -> range_ok (f_base f) (f_len f)) /\
  u_cmd (f_desc f) = q_cmd (f_req f) /\ EvForward i (q_hid (f_req f)) (f_desc f) (f_bounce f) ∈ log /\
  (u_va_mode (f_desc f) = VA_CREATE ->
   rd 8 (u_va_off (f_desc f)) (f_bounce f) = f_base f /\ rd 8 (u_va_off (f_desc f) + 8) (f_bounce f) = f_len f).

Definition wk_ok (log : list uev) (i : nat) (w : worker) : Prop :=
  match w with
  | WGated g | WCleared g => past_check log i g
  | WCalled f => past_call log i f
  | WAnswered f a => past_call log i f /\ EvAnswer i a ∈ log
  | WDone => True
  end.

Record us_inv (s : usys) : Prop := {
  ui_tbl : va_inv (us_tbl s);
  ui_granted : forall e, recorded (us_tbl s) e -> granted prof (us_log s) e;
  ui_wk : forall i w, us_wk s !! i = Some w -> wk_ok (us_log s) i w;
  ui_fwd : forall post i h d buf pre, us_log s = post ++ EvForward i h d buf :: pre -> fwd_ok prof pre i h d buf
}.

Lemma created_cons log e ev : created prof log e -> created prof (ev :: log) e.
Proof. intros (i & d & buf & a & H1 & H2 & H). exists i, d, buf, a. do 2 (split; [by right|]). done. Qed.

Lemma granted_cons log e ev : granted prof log e -> ~ ends e ev -> granted prof (ev :: log) e.
Proof. intros (mid & pre & -> & Hm & Hc) He. exists (ev :: mid), pre. split; [done|]. split; [by constructor|done]. Qed.

Lemma past_check_cons log i g ev : past_check log i g -> past_check (ev :: log) i g.
Proof.
  intros (Hq & tlen & troom & tcov & mid & chk & H1 & H2 & H3 & -> & H). split; [done|].
  by exists tlen, troom, tcov, (ev :: mid), chk.
Qed.

Lemma past_call_cons log i f ev : past_call log i f -> past_call (ev :: log) i f.
Proof. intros (H1 & H2 & H3 & H4 & H5). do 3 (split; [done|]). split; [by right|done]. Qed.

Lemma wk_ok_cons log i w ev : wk_ok log i w -> wk_ok (ev :: log) i w.
Proof.
  destruct w as [g|g|f|f a|]; simpl; auto using past_check_cons, past_call_cons.
  intros [H1 H2]. split; [by apply past_call_cons|by right].
Qed.

Lemma log_split_cons {A} (ev x : A) post log pre :
  ev :: log = post ++ x :: pre -> (post = [] /\ ev = x /\ log = pre) \/
  exists post', post = ev :: post' /\ log = post' ++ x :: pre.
Proof. destruct post as [|y post]; simpl; intros [= -> ->]; eauto. Qed.

(** An event that is no ownership operation. *)
Lemma event_inv s ev :
  us_inv s -> (forall e, ~ ends e ev) ->
  (forall i h d buf, ev = EvForward i h d buf -> fwd_ok prof (us_log s) i h d buf) ->
  us_inv (USys (us_tbl s) (us_wk s) (ev :: us_log s)).
Proof.
  intros [H1 H2 H3 H4] He Hf. split; simpl; [done|..].
  - intros e Hr. apply granted_cons; auto.
  - intros i w Hw. apply wk_ok_cons. auto.
  - intros post i h d buf pre Hl. apply log_split_cons in Hl as [(_ & -> & <-)|(post' & -> & Hl)]; eauto.
Qed.

Lemma wk_inv s i w :
  us_inv s -> wk_ok (us_log s) i w -> us_inv (set_wk s i w []).
Proof.
  intros [H1 H2 H3 H4] Hw. split; simpl; try done. intros j w' Hj.
  apply list_lookup_insert_Some in Hj as [(<- & <- & _)|[_ Hj]]; auto.
Qed.

(** An ownership operation; a recorded range must have been created. *)
Definition op_granted (log : list uev) (o : vop) : Prop :=
  match o with VAdd h b l => created prof log (Ent h b l) | _ => True end.

Lemma op_inv s o : us_inv s -> vop_ok o -> op_granted (us_log s) o -> us_inv (apply_ops s [o]).
Proof.
  intros [Hi Hg Hf Hw] Ho Hc. simpl. destruct (vexec_refines (us_tbl s) o Hi Ho) as [Hi' _].
  split; simpl; [done| |by intros; apply wk_ok_cons, Hf|].
  - intros e He. destruct o as [h b l|h b l|h]; simpl in *.
    + destruct Ho as [Hh Hr]. destruct (uvm_va_add (us_tbl s) h b l) as [s' ok] eqn:Ea.
      destruct (add_spec _ _ _ _ _ _ Hi Hh Hr Ea) as (_ & Ht & Hn & _). simpl in He.
      destruct ok; [apply (Ht eq_refl) in He as [He| ->]|rewrite (Hn eq_refl) in He];
        [|by exists [], (us_log s)|]; (apply granted_cons; [by apply Hg|by intros []]).
    + destruct Ho as [Hh Hr]. destruct (drop_spec _ h b l Hi ltac:(lia) Hr) as [_ Hd].
      apply Hd in He as [He Hne]. apply granted_cons; [by apply Hg|]. simpl. intros (Hx1 & Hx2). by apply Hne.
    + destruct (purge_spec _ h Hi ltac:(lia)) as [_ Hd]. apply Hd in He as [He Hne].
      apply granted_cons; [by apply Hg|]. simpl. congruence.
  - intros post i h d buf pre Hl. apply log_split_cons in Hl as [(_ & He & _)|(post' & -> & Hl)].
    + by destruct o.
    + by eapply Hw.
Qed.

Lemma op_granted_cons log ev o : op_granted log o -> op_granted (ev :: log) o.
Proof. destruct o; simpl; auto using created_cons. Qed.

Lemma ops_inv s ops :
  us_inv s -> Forall vop_ok ops -> Forall (op_granted (us_log s)) ops -> us_inv (apply_ops s ops).
Proof.
  intros Hi Ho. revert s Hi. induction Ho as [|o ops H1 _ IH]; intros s Hi Hg; [done|].
  apply Forall_cons in Hg as [Hg1 Hg2]. apply (IH _ (op_inv s o Hi H1 Hg1)).
  eapply Forall_impl; [done|]. intros o' Ho'. by apply op_granted_cons.
Qed.

Lemma purge_ops_ok q log : 0 < q_hid q -> Forall vop_ok (uvm_purge q) /\ Forall (op_granted log) (uvm_purge q).
Proof. intros Hh. unfold uvm_purge. case_if; split; repeat constructor; done. Qed.

(** The status the code reads is the driver's, or the command is a pool. *)
Lemma verdict_accepted chk cmd a :
  a_r a = 0 -> va_rmstatus chk cmd (a_out a) = 0 -> accepted prof cmd a.
Proof.
  intros Hr Hs. split; [done|]. unfold va_rmstatus in Hs. case_if_in Hs; [|done].
  unfold rm_status_off. destruct (Z.eqb_spec cmd 68) as [->|]; [|by left].
  assert (forallb (fun p => (uvm_sem_pool_size p =? 1184) || (uvm_sem_pool_size p =? 9248)) nvkvm_abi_profiles = true) as Hall
    by (vm_compute; reflexivity).
  pose proof Hprof as Hp. apply list_elem_of_In in Hp. apply (proj1 (forallb_forall _ _) Hall) in Hp.
  apply orb_true_iff in Hp as [Hp|Hp]; apply Z.eqb_eq in Hp; [by right|left]. by rewrite Hp.
Qed.

Lemma end_ops_ok log i f a :
  past_call log i f -> EvAnswer i a ∈ log ->
  Forall vop_ok (end_ops f a) /\ Forall (op_granted log) (end_ops f a).
Proof.
  intros (Hh & Hr & Hcmd & Hfw & Hc) Ha. unfold end_ops. rewrite !Forall_app.
  assert (forall b : bool, Forall vop_ok (if b then [VPurge (q_hid (f_req f))] else []) /\
    Forall (op_granted log) (if b then [VPurge (q_hid (f_req f))] else [])) as Hp
    by (intros []; split; repeat constructor; done).
  case_if; [|split; split; (constructor || apply Hp)].
  apply andb_true_iff in E as [[Er Es]%andb_true_iff Hch]. specialize (Hr Hch). zb.
  destruct (u_va_mode (f_desc f)) eqn:Em; (split; (split; [|apply Hp])); rewrite ?Forall_singleton; try by constructor.
  destruct (Hc eq_refl) as [Hb Hl]. exists i, (f_desc f), (f_bounce f), a.
  do 5 (split; [done|]). rewrite Hcmd. by eapply verdict_accepted.
Qed.

Lemma gate_checked_range tlen troom tcov g :
  gate_facts prof tlen troom tcov g -> req_ok (g_req g) -> va_inv tcov -> va_inv tlen ->
  g_checked g = true -> range_ok (g_base g) (g_len g).
Proof. intros [Hp Hr Hg] Hq Ht Hl Hc. rewrite Hc in Hg. by eapply gate_checked in Hg as [Hx _]. Qed.

(** The call of a worker past its check. *)
Lemma send_ok log i g ht dup tdup f :
  past_check log i g -> uvm_send prof ht dup tdup g = inr f ->
  fwd_ok prof log i (q_hid (f_req f)) (f_desc f) (f_bounce f) /\
  past_call (EvForward i (q_hid (f_req f)) (f_desc f) (f_bounce f) :: log) i f.
Proof.
  intros (Hq & tlen & troom & tcov & mid & chk & Hgf & Htl & Htc & Hlog & Hgr) Hs.
  destruct (send_facts _ _ _ _ _ _ _ _ _ Hgf Hs) as (Hf & Hd & Hb & Hl & Hc).
  pose proof (fwd_pair _ _ _ _ _ _ _ _ _ Hf Hq Hprof) as Hpair. cbv zeta in Hpair.
  pose proof (ff_req _ _ _ _ _ _ _ _ _ Hf) as Hfr. split.
  - intros Hm. cbv zeta. rewrite Hfr. exists mid, chk. split; [done|].
    assert (u_va_mode (f_desc f) <> VA_NONE) as Hm' by (destruct Hm as [Hm|Hm]; rewrite Hm; done).
    destruct (Hpair Hm') as (Hbase & Hun & Hlen). rewrite <- Hbase.
    destruct Hf as [Hpos _ _ Hg _ _ _]. destruct (f_checked f) eqn:Ec.
    + destruct (gate_checked _ _ _ _ _ _ _ _ Hg Hq Hpos Htc Htl) as [Hr He].
      destruct (He Hm) as (e & Hrec & Heh & Hin). right. exists e.
      split; [by apply Hgr|]. split; [done|]. split; [|by apply (vi_ok _ Htc)].
      unfold inside, range_ok in *. destruct Hlen as [<-|[-> _]]; lia.
    + left. destruct (Hun eq_refl) as [Hb0 Hl0]. split; [done|]. destruct Hlen as [<-|[-> _]]; done.
  - split; [rewrite Hfr; apply Hf|]. split.
    { rewrite Hc, Hb, Hl. by eapply gate_checked_range. }
    split; [destruct (lookup_in _ _ (ff_row _ _ _ _ _ _ _ _ _ Hf)) as [_ ->]; by rewrite Hfr|].
    split; [left|]. intros Hm. destruct (Hpair ltac:(by rewrite Hm)) as (-> & _ & Hlen).
    split; [done|]. destruct Hlen as [<-|[_ Hx]]; [done|congruence].
Qed.

Lemma work_inv s i w x : us_inv s -> us_wk s !! i = Some w -> us_inv (work prof s i w x).
Proof.
  intros Hi Hw. pose proof (ui_wk s Hi i w Hw) as Hok.
  destruct w as [g|g|f|f a|], x as [|ht dup tdup|a'|]; try exact Hi; cbn [work].
  - destruct Hok as [Hq Hok]. destruct (purge_ops_ok (g_req g) (us_log s)) as [H1 H2].
    { destruct Hok as (? & ? & ? & ? & ? & [] & _). done. }
    apply ops_inv; [|done|done]. apply wk_inv; [done|]. by split.
  - destruct (uvm_send prof ht dup tdup g) as [r|f] eqn:Es; [by apply wk_inv|].
    destruct (send_ok _ _ _ _ _ _ _ Hok Es) as [Hf Hc].
    refine (wk_inv (USys (us_tbl s) (us_wk s) (_ :: us_log s)) i (WCalled f) _ Hc).
    apply event_inv; [done|by intros e []|]. by intros ? ? ? ? [= <- <- <- <-].
  - refine (wk_inv (USys (us_tbl s) (us_wk s) (_ :: us_log s)) i (WAnswered f a') _ _).
    + by apply event_inv; [|intros e []|].
    + split; [by apply past_call_cons|left].
  - destruct Hok as [Hc Ha]. unfold uvm_end. destruct (end_ops_ok _ _ _ _ Hc Ha) as [H1 H2].
    apply ops_inv; [|done|done]. by apply wk_inv.
Qed.

Lemma ustart_inv s ht tlen troom q g :
  us_inv s -> act_ok (AStart ht tlen troom q) -> uvm_check prof ht tlen troom (us_tbl s) q = Some (inr g) ->
  us_inv (USys (us_tbl s) (us_wk s ++ [WGated g]) (EvCheck (length (us_wk s)) (q_hid q) :: us_log s)).
Proof.
  intros Hi (Htl & _ & Hq) Hc. destruct (check_facts _ _ _ _ _ _ _ Hc Hq) as [Hgr Hg].
  assert (us_inv (USys (us_tbl s) (us_wk s) (EvCheck (length (us_wk s)) (q_hid q) :: us_log s))) as [H1 H2 H3 H4]
    by (apply event_inv; [done|by intros e []|done]).
  split; try done. cbn [us_wk us_log] in *. intros i w Hw. apply lookup_app_Some in Hw as [Hw|[Hle Hw]]; [auto|].
  apply list_lookup_singleton_Some in Hw as [Hz <-]. assert (i = length (us_wk s)) as -> by lia.
  split; [by rewrite Hgr|]. exists tlen, troom, (us_tbl s), [], (us_log s). rewrite Hgr.
  do 2 (split; [done|]). split; [apply Hi|]. split; [done|]. apply Hi.
Qed.

Lemma ustep_inv s a : us_inv s -> act_ok a -> us_inv (ustep prof s a).
Proof.
  intros Hi Ha. destruct a as [ht tlen troom q|i x|h]; cbn [ustep].
  - destruct (uvm_check prof ht tlen troom (us_tbl s) q) as [[r|g]|] eqn:Hc; [done|by eapply ustart_inv|done].
  - destruct (us_wk s !! i) as [w|] eqn:Ew; [by apply work_inv|done].
  - by apply op_inv.
Qed.

Lemma usys0_inv : us_inv usys0.
Proof.
  split; simpl; [apply va_init_inv| |done|by intros [|? ?]].
  intros e He. apply elem_owned in He.
  assert (owned va_init = ∅) as He0 by (vm_compute; reflexivity). rewrite He0 in He.
  by apply elem_of_empty in He.
Qed.
End workers.

(** ** Theorems *)

(** C1: whatever the guest sends and however the steps of the workers, the driver's
    answers and handle closes interleave: when a call reaches the UVM driver with a
    range-using or range-freeing command, the driver's own buffer carries the empty
    pair (0, 0), or a range inside one that, at the moment of this call's ownership
    check, the same handle owned.  Owned means: an earlier call of that handle gave
    the driver exactly that range to create, the driver accepted it (the ioctl
    returned 0, and the driver's status word, where this driver puts it, was 0), it was
    recorded, and between the record and the check no free or purge of it was entered.
    The status word is not asked of a semaphore pool on a driver before 550, where the
    code reads another word; between the check and the call the lock is not held, and
    the range may be freed there. *)
Theorem uvm_forwarded_range_owned prof acts post i h d buf pre :
  prof ∈ nvkvm_abi_profiles -> Forall act_ok acts ->
  us_log (fold_left (ustep prof) acts usys0) = post ++ EvForward i h d buf :: pre ->
  mode_checked (u_va_mode d) ->
  let b := rd 8 (u_va_off d) buf in
  let l := rd 8 (u_va_off d + 8) buf in
  exists mid chk, pre = mid ++ EvCheck i h :: chk /\
  (b = 0 /\ l = 0 \/
   exists e, granted prof chk e /\ e_hid e = h /\ inside b l e /\ range_ok (e_base e) (e_len e)).
Proof.
  intros Hp Ha Hl Hm.
  assert (us_inv prof (fold_left (ustep prof) acts usys0)) as Hi.
  { clear Hl. generalize (usys0_inv prof). generalize usys0.
    induction Ha as [|a acts H1 _ IH]; intros s Hs; [done|]. apply IH. by apply ustep_inv. }
  by apply (ui_fwd _ _ Hi _ _ _ _ _ _ Hl).
Qed.

(** In the buffer the driver gets, every embedded descriptor field holds
    0 or -1 as the guest sent it, or a fresh dup of the handle the guest
    named; that handle is live under the dup's lock, is of the device the
    command expects and has the generation read before, and its slot was an
    NVIDIA handle when its type was read. *)
Theorem uvm_embedded_fd_translated prof ht dup tdup tlen troom tcov q ops f b off :
  uvm_begin prof ht dup tdup tlen troom tcov q = Some (ops, inr f) -> req_ok q ->
  prof ∈ nvkvm_abi_profiles -> q_pbuf q = Some b -> off ∈ emb_offs prof (q_cmd q) (f_desc f) ->
  (0 <= dup 0%nat < W32) ->
  let hid := rd 4 off b in
  let v := rd 4 off (f_bounce f) in
  (hid = 0 \/ hid = UINT32_MAX) /\ v = hid \/
  v = dup 0%nat /\
  live (ht 6%nat) hid = true /\ 0 <= h_fd (slot (ht 6%nat) hid) /\
  h_dev (slot (ht 6%nat) hid) = nvkvm_uvm_embedded_fd_dev (q_cmd q) /\
  h_gen (slot (ht 6%nat) hid) = h_gen (slot (ht 5%nat) hid) /\
  h_type (slot (ht 4%nat) hid) = NVKVM_HANDLE_TYPE_NVIDIA.
Proof.
  intros Hb Hq Hp Hqb Hoff Hdup. destruct (begin_fwd _ _ _ _ _ _ _ _ _ _ Hb Hq) as [_ _ Hrow Hg Hemb Hbo _].
  destruct (lookup_in _ _ Hrow) as [Hin Hcmd]. pose proof (row_facts_of prof _ Hp Hin) as [Ho Hone _ _ _].
  rewrite Hcmd in *. destruct (Ho off Hoff) as (H0 & Hms & _ & _ & H51 & _). rewrite Hqb in Hemb.
  destruct Hemb as (b' & He & Hpb). destruct Hq as (_ & Hps & Hlb). destruct (Hlb b Hqb) as [Hl Hby].
  assert (q_psize q >= off + 4) as Hsz.
  { unfold uvm_gate in Hg. case_if_in Hg; [done|]. apply orb_false_iff in E as [E _]. zb. lia. }
  assert (emb_offs prof (q_cmd q) (f_desc f) = [off]) as Hoffs.
  { destruct (emb_offs prof (q_cmd q) (f_desc f)) as [|o1 [|]]; simpl in Hone; try lia;
      [by apply elem_of_nil in Hoff|by apply list_elem_of_singleton in Hoff as ->]. }
  rewrite Hoffs in He. cbn [emb_loop] in He. destruct (Z.ltb_spec (q_psize q) (off + 4)); [lia|].
  cbv zeta. rewrite Hbo, Hpb. destruct (emb_one _ _ _ _ _) as [|cl|fd] eqn:Eo; [|done|].
  - injection He as <- _. left. rewrite rd_bounce; [|done|done|change (Z.of_nat 4) with 4; lia|by right].
    split; [|done]. unfold emb_one in Eo. case_if_in Eo; [zb; auto|].
    destruct (nvkvm_handle_get _ _); [|done]. destruct (nvkvm_handle_acquire_fd _ _ _) as [efd out].
    case_if_in Eo; [done|]. destruct (default _ _). by case_if_in Eo.
  - apply (f_equal fst) in He. cbn [fst] in He. subst b'. right. unfold emb_one in Eo. case_if_in Eo; [done|].
    destruct (nvkvm_handle_get _ _); [|done]. unfold nvkvm_handle_acquire_fd in Eo. cbn [Nat.add Nat.mul] in Eo.
    case_if_in Eo; [done|]. case_if_in Eo; [|done]. cbn [from_option id] in Eo.
    case_if_in Eo; [done|]. case_if_in Eo; [done|]. injection Eo as <-. zb.
    assert (arr_len (wr off (le_bytes 4 (u32 (dup 0%nat))) b) = q_psize q) as Hlw.
    { unfold arr_len. rewrite wr_length; [exact Hl|lia|unfold arr_len at 1; rewrite le_bytes_length; lia]. }
    rewrite rd_bounce; [|done|done|change (Z.of_nat 4) with 4; lia|by right].
    rewrite rd_wr by (change (Z.of_nat 4) with 4; change (256 ^ 4) with W32; (lia || apply u32_range)).
    rewrite u32_small by done. done.
Qed.

(** Only schema commands of sufficient size reach the driver (never
    UVM_TOOLS_READ/WRITE_PROCESS_MEMORY), and the driver works on a buffer of at
    least 16384 bytes in which everything beyond the guest's bytes is zero, as
    are the twelve bytes UVM_MIGRATE's semaphore occupies. *)
Theorem uvm_driver_buffer_sound prof ht dup tdup tlen troom tcov q ops f :
  uvm_begin prof ht dup tdup tlen troom tcov q = Some (ops, inr f) -> req_ok q ->
  prof ∈ nvkvm_abi_profiles ->
  f_desc f ∈ nvkvm_uvm_schema /\ u_cmd (f_desc f) = q_cmd q /\ q_cmd q <> 62 /\ q_cmd q <> 63 /\
  min_size_of prof (q_cmd q) (f_desc f) <= q_psize q /\
  arr_len (f_bounce f) = Z.max (q_psize q) NVKVM_UVM_BOUNCE_MIN /\
  (forall i, q_psize q <= i < arr_len (f_bounce f) -> f_bounce f !! Z.to_nat i = Some 0) /\
  (q_cmd q = 51 -> forall i, 40 <= i < 52 -> f_bounce f !! Z.to_nat i = Some 0).
Proof.
  intros Hb Hq Hp. destruct (begin_fwd _ _ _ _ _ _ _ _ _ _ Hb Hq) as [_ _ Hrow Hg Hemb Hbo _].
  destruct (lookup_in _ _ Hrow) as [Hin Hcmd]. destruct Hq as (_ & Hps & Hlb).
  assert (forall b, f_pbuf f = Some b -> arr_len b = q_psize q) as Hpl.
  { intros b0 Hb0. destruct (q_pbuf q) as [b|] eqn:Eq; [|destruct Hemb; congruence].
    destruct Hemb as (b' & He & Hpb). assert (b' = b0) as <- by congruence.
    eapply (emb_loop_frame _ _ _ _ 0 0) in He as [Hl _]; [done|by apply Hlb|done|].
    pose proof (row_facts_of prof _ Hp Hin) as [Ho _ _ _ _]. rewrite Hcmd in Ho.
    intros o Hox. apply Ho in Hox. change (Z.of_nat 0) with 0. lia. }
  pose proof (bounce_length (q_cmd q) (q_psize q) (f_pbuf f) Hpl ltac:(lia)) as Hbl. rewrite <- Hbo in Hbl.
  do 2 (split; [done|]). do 2 (split; [by intros Hc; rewrite Hc in Hrow|]).
  split; [unfold uvm_gate in Hg; case_if_in Hg; [done|]; apply orb_false_iff in E as [E _]; zb; lia|].
  split; [done|]. split.
  - intros i Hi. rewrite Hbo, bounce_lookup by (done || lia). case_if; [done|].
    destruct (f_pbuf f); [|done]. destruct (Z.ltb_spec i (q_psize q)); [lia|done].
  - intros Hc i Hi. unfold NVKVM_UVM_BOUNCE_MIN in Hbl.
    rewrite Hbo, bounce_lookup by (done || unfold NVKVM_UVM_BOUNCE_MIN; lia). rewrite Hc.
    destruct (Z.leb_spec 40 i), (Z.ltb_spec i 52); simpl; (done || lia).
Qed.

Lemma emb_saved ht dup cmd psize o b b' sv :
  emb_loop ht dup 0 cmd psize [o] b [] = (b', inr sv) -> 0 <= o -> arr_len b = psize ->
  arr_len b' = psize /\ (sv = [] \/ exists fd, sv = [Saved o (rd 4 o b) fd] /\ o + 4 <= psize).
Proof.
  intros He Ho Hl. split.
  - eapply (emb_loop_frame _ _ _ _ 0 o) in He as [Hb _]; [done|done|done|].
    intros x ->%list_elem_of_singleton. change (Z.of_nat 0) with 0. lia.
  - cbn [emb_loop] in He. destruct (Z.ltb_spec psize (o + 4)); [left; by injection He|].
    destruct (emb_one _ _ _ _ _) as [| |fd]; [left; by injection He|done|].
    right. exists fd. apply (f_equal snd) in He. cbn [snd app] in He. by injection He as <-.
Qed.

Lemma fwd_buf prof ht dup tdup tlen troom tcov q f b :
  fwd_facts prof ht dup tdup tlen troom tcov q f -> req_ok q -> prof ∈ nvkvm_abi_profiles ->
  q_pbuf q = Some b ->
  exists b', f_pbuf f = Some b' /\ arr_len b' = q_psize q /\
  arr_len (f_bounce f) = Z.max (q_psize q) NVKVM_UVM_BOUNCE_MIN /\
  (f_saved f = [] \/
   exists o fd, f_saved f = [Saved o (rd 4 o b) fd] /\ 0 <= o /\ o + 4 <= q_psize q).
Proof.
  intros [_ _ Hrow _ Hemb Hbo _] (_ & Hps & Hlb) Hp Hqb. destruct (lookup_in _ _ Hrow) as [Hin Hcmd].
  pose proof (row_facts_of prof _ Hp Hin) as [Ho Hone _ _ _]. rewrite Hcmd in *.
  rewrite Hqb in Hemb. destruct Hemb as (b' & He & Hpb). destruct (Hlb b Hqb) as [Hl _].
  assert (arr_len b' = q_psize q /\ (f_saved f = [] \/
    exists o fd, f_saved f = [Saved o (rd 4 o b) fd] /\ 0 <= o /\ o + 4 <= q_psize q)) as [Hl' Hs].
  { destruct (emb_offs prof (q_cmd q) (f_desc f)) as [|o [|]]; cbn [length] in Hone; [|..|lia].
    - injection He as <- <-. auto.
    - destruct (Ho o) as [H0 _]; [left|]. destruct (emb_saved _ _ _ _ _ _ _ _ He H0 Hl) as [? [?|(fd & ? & ?)]].
      + auto.
      + split; [done|]. right. eauto. }
  exists b'. do 2 (split; [done|]). split; [|done]. rewrite Hbo, Hpb. apply bounce_length; [|lia].
  by intros ? [= <-].
Qed.

(** After the driver call the guest's buffer has its original size and holds
    what the driver wrote, except that each translated field holds again the
    handle id the guest sent; and exactly the dups of this call are closed. *)
Theorem uvm_end_restores prof ht dup tdup tlen troom tcov q ops f b a :
  uvm_begin prof ht dup tdup tlen troom tcov q = Some (ops, inr f) -> req_ok q ->
  prof ∈ nvkvm_abi_profiles -> q_pbuf q = Some b -> arr_len (a_out a) = arr_len (f_bounce f) ->
  let '(_, _, pb, closed) := uvm_end f a in
  closed = f_tfd f :: map sv_fd (f_saved f) /\
  exists b', pb = Some b' /\ arr_len b' = q_psize q /\
  (forall s, s ∈ f_saved f -> rd 4 (sv_off s) b' = rd 4 (sv_off s) b) /\
  (forall i, 0 <= i < q_psize q -> (forall s, s ∈ f_saved f -> i < sv_off s \/ sv_off s + 4 <= i) ->
     b' !! Z.to_nat i = a_out a !! Z.to_nat i).
Proof.
  intros Hb Hq Hp Hqb Hal. pose proof (begin_fwd _ _ _ _ _ _ _ _ _ _ Hb Hq) as Hf.
  destruct (fwd_buf _ _ _ _ _ _ _ _ _ _ Hf Hq Hp Hqb) as (b1 & Hpb & Hl1 & Hbl & Hsv).
  destruct Hq as (_ & Hps & Hlb). destruct (Hlb b Hqb) as [_ Hby]. rewrite Hbl in Hal.
  unfold uvm_end. rewrite Hpb, (ff_req _ _ _ _ _ _ _ _ _ Hf). split; [done|].
  set (b2 := if q_psize q =? 0 then b1 else _).
  assert (arr_len b2 = q_psize q /\ forall i, 0 <= i < q_psize q -> b2 !! Z.to_nat i = a_out a !! Z.to_nat i)
    as [Hl2 Hb2].
  { unfold b2. destruct (Z.eqb_spec (q_psize q) 0); [split; [done|lia]|].
    assert (length (take (Z.to_nat (q_psize q)) (a_out a)) = Z.to_nat (q_psize q)) as Ht.
    { rewrite length_take. unfold arr_len in *. lia. }
    split.
    - unfold arr_len in *. rewrite wr_length; [done|lia|unfold arr_len; lia].
    - intros i Hi. unfold wr. simpl. rewrite lookup_app_l by lia. by rewrite lookup_take_lt by lia. }
  destruct Hsv as [->|(o & fd & -> & H0 & Ho)]; cbn [fold_left].
  - exists b2. do 2 (split; [done|]). split; [intros s Hs; by apply elem_of_nil in Hs|auto].
  - assert (arr_len (le_bytes 4 (rd 4 o b)) = 4) as Hl4 by (unfold arr_len; by rewrite le_bytes_length).
    exists (restore b2 (Saved o (rd 4 o b) fd)). unfold restore. cbn [sv_off sv_hid]. split; [done|]. split; [|split].
    + unfold arr_len. rewrite wr_length; [exact Hl2|lia|lia].
    + intros s ->%list_elem_of_singleton. cbn [sv_off]. apply rd_wr; [done|lia|by apply rd_range].
    + intros i Hi Hs. specialize (Hs _ ltac:(left)). cbn [sv_off] in Hs. rewrite lookup_wr_out by lia. auto.
Qed.

(** ** Closing a handle *)
Definition nvkvm_req_close_handle (t : nvkvm_handle_table) (s : va_state) (id : Z)
    : nvkvm_handle_table * va_state * Z * list Z :=
  let '(t', ret, cl) := nvkvm_handle_close t id in
  (t', if ret =? 0 then nvkvm_uvm_va_purge_handle s id else s, if ret <? 0 then u32 (- ret) else 0, cl).

(** Closing a handle ends the ownership of its ranges exactly when the
    handle goes: if the close is refused (unknown, or EBUSY while an isolate holds
    it) both tables are unchanged; if it succeeds the handle is gone and no range
    of its id is left, so that a recycled id inherits nothing, while the
    ranges of the other handles stay. *)
Theorem close_handle_ownership t s id :
  va_inv s -> 0 <= id ->
  let '(t', s', st, _) := nvkvm_req_close_handle t s id in
  (st <> 0 /\ t' = t /\ s' = s) \/
  (st = 0 /\ live t id = true /\ live t' id = false /\
   (forall e, recorded s' e <-> recorded s e /\ e_hid e <> id) /\
   forall b l, range_ok b l -> uvm_va_covers s' id b l = false).
Proof.
  intros Hi H0. unfold nvkvm_req_close_handle, nvkvm_handle_close.
  destruct (bad_id id) eqn:Eb; [left; done|]. apply bad_id_false in Eb; [|done].
  destruct (live t id) eqn:El; cbn [negb]; [|left; done]. case_if; [left; done|].
  right. cbn [Z.eqb Z.ltb Z.compare]. split; [done|]. split; [done|]. split; [|split].
  - unfold live. by rewrite slot_set by done.
  - apply purge_spec; [done|lia].
  - intros b l Hr. destruct (purge_spec s id Hi ltac:(lia)) as [Hi' He]. apply not_true_iff_false.
    rewrite covers_spec by (done || lia). intros (e & Hrec & Hh & _). apply He in Hrec as [_ Hne]. done.
Qed.

(** ** Witnesses

    Handle 5 is a UVM handle, handle 3 an nvidiactl one. *)
Definition demo_ht (n : nat) : nvkvm_handle_table :=
  Table {[3 := Handle 3 7 NVKVM_HANDLE_TYPE_NVIDIA 10 1 NVKVM_DEV_CTL 0 0 false true;
          5 := Handle 5 9 NVKVM_HANDLE_TYPE_NVIDIA 12 1 NVKVM_DEV_UVM 0 0 false true]} 6 10.
Definition demo_prof : nvkvm_abi_profile := nvkvm_abi_by_id NVKVM_ABI_570.
Definition demo_pair (base len : Z) : list Z := le_bytes 8 base ++ le_bytes 8 len ++ replicate 8 0.

(** CREATE_EXTERNAL_RANGE of 2 MiB, accepted, then VALIDATE_VA_RANGE of a page of it. *)
Definition demo_create : ureq := Req 5 73 24 (Some (demo_pair 8589934592 2097152)).
Definition demo_use : ureq := Req 5 72 24 (Some (demo_pair 8589938688 4096)).
Definition demo_call (i : nat) (q : ureq) (fd : Z) : list uact :=
  [AStart demo_ht va_init va_init q; AWork i IPurge; AWork i (ISend demo_ht (fun _ => fd) (fd + 1))].
Definition demo_acts : list uact :=
  demo_call 0 demo_create 40 ++
  [AWork 0 (IAnswer (Answer 0 0 (bounce_of 73 24 (q_pbuf demo_create)))); AWork 0 IUpdate] ++
  demo_call 1 demo_use 42.
Definition demo_log : list uev := us_log (fold_left (ustep demo_prof) demo_acts usys0).
Definition demo_buf : list Z := bounce_of 72 24 (q_pbuf demo_use).

(** REGISTER_GPU_VASPACE naming handle 3 at offset 16. *)
Definition demo_reg_buf : list Z := replicate 16 0 ++ le_bytes 4 3 ++ replicate 12 0.
Definition demo_reg : ureq := Req 5 25 32 (Some demo_reg_buf).
Definition demo_flight : flight :=
  Flight demo_reg (Desc 25 32 16 OFF_NONE OFF_NONE VA_NONE) 0 0 false
         (Some (wr 16 (le_bytes 4 40) demo_reg_buf)) [Saved 16 3 40] 41
         (bounce_of 25 32 (Some (wr 16 (le_bytes 4 40) demo_reg_buf))).

Lemma demo_prof_in : demo_prof ∈ nvkvm_abi_profiles.
Proof. apply list_elem_of_In. vm_compute. tauto. Qed.

Lemma demo_req_ok h c n b :
  0 <= h -> arr_len b = n -> 0 <= n < W32 -> forallb (fun c => (0 <=? c) && (c <? 256)) b = true ->
  req_ok (Req h c n (Some b)).
Proof.
  intros Hh Hl Hn Hb. split; [done|]. split; [done|]. simpl. intros b' [= <-]. split; [done|].
  apply Forall_forall. intros x Hx%list_elem_of_In. apply (proj1 (forallb_forall _ _) Hb) in Hx. zb. lia.
Qed.

Lemma demo_begin :
  uvm_begin demo_prof demo_ht (fun _ => 40) 41 va_init va_init va_init demo_reg = Some ([], inr demo_flight).
Proof. vm_compute. reflexivity. Qed.

Lemma demo_reg_ok : req_ok demo_reg.
Proof. apply demo_req_ok; [lia|reflexivity|lia|reflexivity]. Qed.

Lemma demo_acts_ok : Forall act_ok demo_acts.
Proof.
  pose proof va_init_inv as Hi.
  unfold demo_acts, demo_call. cbn [app]. repeat (apply Forall_cons; split); try exact I; [..|apply Forall_nil_2];
    refine (conj Hi (conj Hi _)); apply demo_req_ok; (lia || reflexivity).
Qed.

Lemma demo_log_eq : demo_log = [] ++ EvForward 1 5 (Desc 72 24 OFF_NONE OFF_NONE 0 VA_USE) demo_buf :: tail demo_log.
Proof. vm_compute. reflexivity. Qed.

Lemma uvm_forwarded_range_owned_witness :
  rd 8 0 demo_buf = 8589938688 /\
  exists mid chk, tail demo_log = mid ++ EvCheck 1 5 :: chk /\
  (rd 8 0 demo_buf = 0 /\ rd 8 8 demo_buf = 0 \/
   exists e, granted demo_prof chk e /\ e_hid e = 5 /\ inside (rd 8 0 demo_buf) (rd 8 8 demo_buf) e /\
   range_ok (e_base e) (e_len e)).
Proof.
  split; [vm_compute; reflexivity|].
  exact (uvm_forwarded_range_owned demo_prof demo_acts [] 1 5 (Desc 72 24 OFF_NONE OFF_NONE 0 VA_USE) demo_buf
           (tail demo_log) demo_prof_in demo_acts_ok demo_log_eq (or_introl eq_refl)).
Defined.

Lemma uvm_embedded_fd_translated_witness :
  (rd 4 16 demo_reg_buf = 0 \/ rd 4 16 demo_reg_buf = UINT32_MAX) /\
    rd 4 16 (f_bounce demo_flight) = rd 4 16 demo_reg_buf \/
  rd 4 16 (f_bounce demo_flight) = 40 /\ live (demo_ht 6) (rd 4 16 demo_reg_buf) = true.
Proof.
  destruct (uvm_embedded_fd_translated demo_prof demo_ht (fun _ => 40) 41 va_init va_init va_init demo_reg []
    demo_flight demo_reg_buf 16 demo_begin demo_reg_ok demo_prof_in eq_refl) as [H|(H1 & H2 & _)].
  - left.
  - lia.
  - left. exact H.
  - right. split; [exact H1|exact H2].
Defined.

Lemma close_handle_ownership_witness :
  let '(t', _, st, _) := nvkvm_req_close_handle (demo_ht 0) va_init 5 in st = 0 /\ live t' 5 = false.
Proof.
  pose proof (close_handle_ownership (demo_ht 0) va_init 5 va_init_inv ltac:(lia)) as H.
  assert (snd (fst (nvkvm_req_close_handle (demo_ht 0) va_init 5)) = 0) as S by (vm_compute; reflexivity).
  destruct (nvkvm_req_close_handle (demo_ht 0) va_init 5) as [[[t' s'] st] cl]. simpl in S.
  destruct H as [[H _]|H]; [contradiction|]. split; [exact S|]. apply H.
Defined.

Lemma uvm_driver_buffer_sound_witness : arr_len (f_bounce demo_flight) = Z.max 32 NVKVM_UVM_BOUNCE_MIN.
Proof.
  apply (uvm_driver_buffer_sound demo_prof demo_ht (fun _ => 40) 41 va_init va_init va_init demo_reg []
    demo_flight demo_begin demo_reg_ok demo_prof_in).
Defined.

Lemma uvm_end_restores_witness :
  let '(_, _, pb, closed) := uvm_end demo_flight (Answer 0 0 (f_bounce demo_flight)) in
  closed = [41; 40] /\ exists b', pb = Some b' /\ arr_len b' = 32.
Proof.
  pose proof (uvm_end_restores demo_prof demo_ht (fun _ => 40) 41 va_init va_init va_init demo_reg []
    demo_flight demo_reg_buf (Answer 0 0 (f_bounce demo_flight)) demo_begin demo_reg_ok demo_prof_in
    eq_refl eq_refl) as H.
  destruct (uvm_end demo_flight (Answer 0 0 (f_bounce demo_flight))) as [[[? ?] pb] cl].
  destruct H as (Hc & b' & Hb & Hl & _). split; [exact Hc|]. exists b'. split; [exact Hb|exact Hl].
Defined.

(** ** Findings *)

(** On a host before 550 the parameters of UVM_ALLOC_SEMAPHORE_POOL are 1184
    bytes and end with the status at 1176, but the status is read at 9240, in the
    zeroed padding: a pool the driver refused is recorded as owned. *)
Definition demo_pool_req : ureq :=
  Req 5 68 1184 (Some (le_bytes 8 8589934592 ++ le_bytes 8 4096 ++ replicate 1168 0)).
Definition demo_pool_run : option (list vop) :=
  match uvm_begin (nvkvm_abi_by_id NVKVM_ABI_535) demo_ht (fun _ => 40) 41 va_init va_init va_init demo_pool_req with
  | Some (_, inr f) => Some (end_ops f (Answer 0 0 (wr 1176 (le_bytes 4 30) (f_bounce f))))
  | _ => None
  end.

Lemma refused_pool_recorded : demo_pool_run = Some [VAdd 5 8589934592 4096].
Proof. vm_compute. reflexivity. Qed.

(** The type and the generation are read one after the other without the lock: a
    slot recycled in between passes with the old type, and a memory handle (whose
    device id is 0, that of nvidiactl) is handed to the driver. *)
Definition demo_race (n : nat) : nvkvm_handle_table :=
  if Nat.leb n 4 then demo_ht n
  else Table {[3 := Handle 3 11 NVKVM_HANDLE_TYPE_MEMORY 50 1 0 0 4096 false true]} 6 12.

Lemma recycled_type_accepted :
  emb_one demo_race 3 60 25 3 = EmbOk 60 /\
  h_type (slot (demo_race 6) 3) = NVKVM_HANDLE_TYPE_MEMORY.
Proof. vm_compute. split; reflexivity. Qed.
End UvmIoctl.
