(* ===== verification/Teardown.v ===== *)
(** * Teardown: unmapping and reaping of isolate mappings

    Models the request [nvkvm_req_munmap_on_isolate] and the two reapers
    [nvkvm_iso_mmap_reap_handle] and [nvkvm_iso_mmap_reap_isolate] of
    [src/qemu/nvkvm_isolate_handlers.c] over the components they return resources
    to: the mapping table ([IsoMmap]), the memory slots ([KvmSlots]), the guest
    physical window and its quarantine ([SparseWin]), and the isolate's window
    ([IsoWindow]).  Calls into the host kernel and the isolate are the effects
    each operation lists.  The reapers drop the table lock after detaching an
    entry: [mid i] is what the other threads do until it is taken again. *)
From S2P Require Import Prelude Extents KvmSlots GpaLayout SparseWin IsoWindow IsoMmap.

Module Teardown.
Import KvmSlots SparseWin IsoWindow IsoMmap.

Definition NVKVM_IN_WINDOW_SLOT : Z := -2.

(** The host state the handlers share. *)
Record host := Host {
  hs_mm : mmap_state; hs_pool : pool; hs_gpa : gstate; hs_win : win_table
}.

Inductive effect :=
| RestoreAnon (qva len : Z) | DeleteRegion (slot : Z) | Munmap (qva len : Z)
| StubMunmap (isolate va len : Z).

Definition entry_at (h : host) (i : Z) : nvkvm_iso_mmap_entry := arr_get (iso_mmap_tbl (hs_mm h)) i.

(** The backing of a detached entry: anonymous memory put back under the sparse
    window, or the memory slot and the host mapping; then the guest physical
    extent.  [nv] is the device, [kvm_fd] is [nvkvm_kvm_vm_fd]. *)
Definition backing_effects (kvm_fd : Z) (e : nvkvm_iso_mmap_entry) : list effect :=
  if im_kvm_slot e =? NVKVM_IN_WINDOW_SLOT then
    if im_qva e =? 0 then [] else [RestoreAnon (im_qva e) (im_len e)]
  else
    (if (0 <=? im_kvm_slot e) && (0 <=? kvm_fd) then [DeleteRegion (im_kvm_slot e)] else []) ++
    (if im_qva e =? 0 then [] else [Munmap (im_qva e) (im_len e)]).

Definition release_slot (kvm_fd : Z) (p : pool) (e : nvkvm_iso_mmap_entry) : pool :=
  if im_kvm_slot e =? NVKVM_IN_WINDOW_SLOT then p
  else if (0 <=? im_kvm_slot e) && (0 <=? kvm_fd) then nvkvm_kvm_slot_release p (im_kvm_slot e)
  else p.

Definition release_gpa (nv : Z) (g : gstate) (e : nvkvm_iso_mmap_entry) : gstate :=
  if im_gpa e =? 0 then g else nvkvm_sparse_gpa_free g nv (im_gpa e) (im_len e).

Definition release_backing (nv kvm_fd : Z) (h : host) (e : nvkvm_iso_mmap_entry) : host :=
  Host (hs_mm h) (release_slot kvm_fd (hs_pool h) e) (release_gpa nv (hs_gpa h) e) (hs_win h).

Definition nvkvm_req_munmap_on_isolate (nv kvm_fd : Z) (h : host) (isolate_id token : Z)
    : host * Z * list effect :=
  if isolate_id =? 0 then (h, EINVAL, [])
  else
    match iso_mmap_free (hs_mm h) token isolate_id with
    | (_, None) => (h, ENOENT, [])
    | (mm, Some e) =>
        let mirrored := im_stub_mirrored e && negb (im_stub_va e =? 0) in
        let win := if mirrored then nvkvm_win_unplace (hs_win h) (im_isolate_id e) (im_stub_va e) (im_len e)
                   else hs_win h in
        (release_backing nv kvm_fd (Host mm (hs_pool h) (hs_gpa h) win) e, 0,
         (if mirrored then [StubMunmap (im_isolate_id e) (im_stub_va e) (im_len e)] else []) ++
         backing_effects kvm_fd e)
    end.

Definition detach (h : host) (i : Z) : host :=
  Host (MmapState (arr_set (iso_mmap_tbl (hs_mm h)) i (entry_clear (entry_at h i))) (iso_mmap_seq (hs_mm h)))
       (hs_pool h) (hs_gpa h) (hs_win h).

(** The loop of the reapers over the indices [ix], for the entries [p] selects. *)
Fixpoint reap_loop (nv kvm_fd : Z) (p : nvkvm_iso_mmap_entry -> bool) (mid : Z -> host -> host)
    (ix : list Z) (h : host) : host * Z * list effect :=
  match ix with
  | [] => (h, 0, [])
  | i :: rest =>
      let e := entry_at h i in
      if negb (im_used e) || negb (p e) then reap_loop nv kvm_fd p mid rest h
      else
        let '(h', n, eff) := reap_loop nv kvm_fd p mid rest (mid i (release_backing nv kvm_fd (detach h i) e)) in
        (h', n + 1, backing_effects kvm_fd e ++ eff)
  end.

Definition tokens : list Z := seqZ 1 (NVKVM_ISO_MMAP_MAX - 1).

Definition nvkvm_iso_mmap_reap_handle (nv kvm_fd : Z) (mid : Z -> host -> host) (h : host)
    (isolate_id handle_id : Z) : host * Z * list effect :=
  if handle_id =? 0 then (h, 0, [])
  else reap_loop nv kvm_fd (fun e => (im_isolate_id e =? isolate_id) && (im_handle_id e =? handle_id))
                 mid tokens h.

Definition nvkvm_iso_mmap_reap_isolate (nv kvm_fd : Z) (mid : Z -> host -> host) (h : host)
    (isolate_id : Z) : host * Z * list effect :=
  let '(h', n, eff) := reap_loop nv kvm_fd (fun e => im_isolate_id e =? isolate_id) mid tokens h in
  (Host (hs_mm h') (hs_pool h') (hs_gpa h') (nvkvm_win_forget_isolate (hs_win h') isolate_id), n, eff).

(** ** Invariant: every memory slot a live entry names is allocated, and no two
    live entries name the same one *)
Record slots_ok (h : host) : Prop := {
  so_mm : length (iso_mmap_tbl (hs_mm h)) = Z.to_nat NVKVM_ISO_MMAP_MAX;
  so_pool : pool_inv (hs_pool h);
  so_live : forall i, 1 <= i < NVKVM_ISO_MMAP_MAX -> im_used (entry_at h i) = true ->
    0 <= im_kvm_slot (entry_at h i) ->
    kvm_slot_in_pool (im_kvm_slot (entry_at h i)) = true /\
    live_bit (hs_pool h) (im_kvm_slot (entry_at h i)) = true;
  so_inj : forall i j, 1 <= i < NVKVM_ISO_MMAP_MAX -> 1 <= j < NVKVM_ISO_MMAP_MAX ->
    im_used (entry_at h i) = true -> im_used (entry_at h j) = true ->
    0 <= im_kvm_slot (entry_at h i) -> im_kvm_slot (entry_at h i) = im_kvm_slot (entry_at h j) -> i = j
}.

Lemma entry_detach h i j :
  length (iso_mmap_tbl (hs_mm h)) = Z.to_nat NVKVM_ISO_MMAP_MAX -> 1 <= i < NVKVM_ISO_MMAP_MAX -> 0 <= j ->
  entry_at (detach h i) j = if i =? j then entry_clear (entry_at h i) else entry_at h j.
Proof.
  intros Hl Hi Hj. unfold entry_at, detach. cbn [hs_mm iso_mmap_tbl].
  apply arr_get_set; [unfold arr_len; rewrite Hl; lia|done].
Qed.

(** Detaching an entry and releasing its backing is never a double release. *)
Lemma detach_ok nv kvm_fd h i :
  slots_ok h -> 1 <= i < NVKVM_ISO_MMAP_MAX -> im_used (entry_at h i) = true ->
  let h' := release_backing nv kvm_fd (detach h i) (entry_at h i) in
  slots_ok h' /\ reject_count (hs_pool h') = reject_count (hs_pool h).
Proof.
  intros [Hl Hp Hlive Hinj] Hi Hu. cbv zeta.
  set (h' := release_backing nv kvm_fd (detach h i) (entry_at h i)).
  assert (forall j, 1 <= j < NVKVM_ISO_MMAP_MAX ->
    entry_at h' j = if i =? j then entry_clear (entry_at h i) else entry_at h j) as He
    by (intros j Hj; apply (entry_detach h i j); (done || lia)).
  assert (forall j, 1 <= j < NVKVM_ISO_MMAP_MAX -> im_used (entry_at h' j) = true ->
    i <> j /\ entry_at h' j = entry_at h j) as Hused.
  { intros j Hj. rewrite (He j Hj). destruct (Z.eqb_spec i j); [done|auto]. }
  set (s := im_kvm_slot (entry_at h i)) in *.
  assert (pool_inv (hs_pool h') /\ reject_count (hs_pool h') = reject_count (hs_pool h) /\
    forall x, kvm_slot_in_pool x = true -> (0 <= s -> x <> s) ->
      live_bit (hs_pool h') x = live_bit (hs_pool h) x) as (Hp' & Hr & Hb).
  { unfold h', release_backing, release_slot. cbn [hs_pool detach]. fold s.
    destruct (s =? NVKVM_IN_WINDOW_SLOT); [done|].
    destruct (Z.leb_spec 0 s), (Z.leb_spec 0 kvm_fd); simpl; try done.
    destruct (Hlive i Hi Hu ltac:(done)) as [Hin Hbit].
    destruct (slot_release_spec (hs_pool h) s Hp) as (H1 & H2 & _).
    destruct (H2 Hin Hbit) as (H3 & _ & H5). split; [done|]. split; [done|]. intros x Hx Hne. apply H5; auto. }
  split; [|done]. split; [|done| |].
  - unfold h', release_backing, detach, arr_set. simpl. by rewrite length_insert.
  - intros j Hj Huj H0. destruct (Hused j Hj Huj) as [Hne Hej]. rewrite Hej in *.
    destruct (Hlive j Hj Huj H0) as [Hin Hbit]. split; [done|]. rewrite Hb; [done|done|].
    intros H0s Heq. apply Hne. apply Hinj; auto.
  - intros j k Hj Hk Huj Huk H0 Heq. destruct (Hused j Hj Huj) as [_ Hej], (Hused k Hk Huk) as [_ Hek].
    rewrite Hej, Hek in *. auto.
Qed.

Lemma win_irrelevant h w : slots_ok h -> slots_ok (Host (hs_mm h) (hs_pool h) (hs_gpa h) w).
Proof. intros [? ? ? ?]. by split. Qed.

Lemma reap_ok nv kvm_fd p ix : forall h,
  Forall (fun i => 1 <= i < NVKVM_ISO_MMAP_MAX) ix -> slots_ok h ->
  let '(h', _, _) := reap_loop nv kvm_fd p (fun _ h => h) ix h in
  slots_ok h' /\ reject_count (hs_pool h') = reject_count (hs_pool h).
Proof.
  induction ix as [|i ix IH]; intros h Hf Hs; [done|]. apply Forall_cons in Hf as [Hi Hf].
  cbn [reap_loop]. destruct (im_used (entry_at h i)) eqn:Eu; simpl; [|by apply IH].
  destruct (p (entry_at h i)); simpl; [|by apply IH].
  destruct (detach_ok nv kvm_fd h i Hs Hi Eu) as [Hs' Hr].
  specialize (IH _ Hf Hs'). destruct (reap_loop _ _ _ _ ix _) as [[h' n] eff]. destruct IH as [? ?].
  split; [done|]. congruence.
Qed.

Lemma tokens_range : Forall (fun i => 1 <= i < NVKVM_ISO_MMAP_MAX) tokens.
Proof. apply Forall_forall. intros i [H1 H2]%elem_of_seqZ. unfold NVKVM_ISO_MMAP_MAX in *. lia. Qed.

(** ** Sequences of teardown requests *)
Inductive top := TMunmap (isolate token : Z) | TReapHandle (isolate handle : Z) | TReapIsolate (isolate : Z).

Definition texec (nv kvm_fd : Z) (h : host) (o : top) : host :=
  match o with
  | TMunmap i t => fst (fst (nvkvm_req_munmap_on_isolate nv kvm_fd h i t))
  | TReapHandle i hd => fst (fst (nvkvm_iso_mmap_reap_handle nv kvm_fd (fun _ h => h) h i hd))
  | TReapIsolate i => fst (fst (nvkvm_iso_mmap_reap_isolate nv kvm_fd (fun _ h => h) h i))
  end.

Lemma munmap_detach nv kvm_fd h i t :
  0 <= t -> length (iso_mmap_tbl (hs_mm h)) = Z.to_nat NVKVM_ISO_MMAP_MAX ->
  let '(h', st, _) := nvkvm_req_munmap_on_isolate nv kvm_fd h i t in
  (st <> 0 /\ h' = h) \/
  (st = 0 /\ 1 <= t < NVKVM_ISO_MMAP_MAX /\ im_used (entry_at h t) = true /\
   im_isolate_id (entry_at h t) = i /\
   exists w, h' = (let r := release_backing nv kvm_fd (detach h t) (entry_at h t) in
                   Host (hs_mm r) (hs_pool r) (hs_gpa r) w)).
Proof.
  intros Ht Hl. unfold nvkvm_req_munmap_on_isolate. case_if; [by left|]. unfold iso_mmap_free.
  destruct ((t =? 0) || (NVKVM_ISO_MMAP_MAX <=? t) || (i =? 0)) eqn:Eg; [by left|].
  fold (entry_at h t). destruct (im_used (entry_at h t)) eqn:Eu; cbn [negb orb]; [|by left].
  destruct (Z.eqb_spec (im_isolate_id (entry_at h t)) i) as [Ei|]; cbn [negb]; [|by left].
  right. zb. split; [done|]. split; [lia|]. split; [done|]. split; [done|].
  eexists. reflexivity.
Qed.

Lemma texec_ok nv kvm_fd h o :
  slots_ok h -> match o with TMunmap _ t => 0 <= t | _ => True end ->
  slots_ok (texec nv kvm_fd h o) /\ reject_count (hs_pool (texec nv kvm_fd h o)) = reject_count (hs_pool h).
Proof.
  intros Hs Ho. destruct o as [i t|i hd|i]; simpl.
  - pose proof (munmap_detach nv kvm_fd h i t Ho (so_mm h Hs)) as Hm.
    destruct (nvkvm_req_munmap_on_isolate nv kvm_fd h i t) as [[h' st] eff]. simpl.
    destruct Hm as [[_ ->]|(_ & Ht & Hu & _ & w & ->)]; [done|].
    destruct (detach_ok nv kvm_fd h t Hs Ht Hu) as [H1 H2]. split; [by apply win_irrelevant|done].
  - unfold nvkvm_iso_mmap_reap_handle. case_if; [done|].
    pose proof (reap_ok nv kvm_fd (fun e => (im_isolate_id e =? i) && (im_handle_id e =? hd)) tokens h
      tokens_range Hs) as Hr. by destruct (reap_loop _ _ _ _ _ _) as [[h' n] eff].
  - unfold nvkvm_iso_mmap_reap_isolate.
    pose proof (reap_ok nv kvm_fd (fun e => im_isolate_id e =? i) tokens h tokens_range Hs) as Hr.
    destruct (reap_loop _ _ _ _ _ _) as [[h' n] eff]. destruct Hr. simpl. split; [by apply win_irrelevant|done].
Qed.

(** ** Theorems *)

(** No sequence of unmap requests and reaps, with any tokens, isolates and
    handles, releases a memory slot twice or one that was not allocated: the
    pool's reject counter never moves, and the slots of the remaining mappings
    stay allocated and distinct. *)
Theorem teardown_no_double_release nv kvm_fd ops h :
  slots_ok h -> Forall (fun o => match o with TMunmap _ t => 0 <= t | _ => True end) ops ->
  let h' := fold_left (texec nv kvm_fd) ops h in
  slots_ok h' /\ reject_count (hs_pool h') = reject_count (hs_pool h).
Proof.
  intros Hs Ho. cbv zeta. revert h Hs. induction Ho as [|o ops H1 _ IH]; intros h Hs; [done|].
  destruct (texec_ok nv kvm_fd h o Hs H1) as [H2 H3]. destruct (IH _ H2) as [H4 H5]. simpl.
  split; [done|]. congruence.
Qed.

(** An unmap request is refused with ENOENT, changing nothing, unless the
    token names a live mapping of the isolate it names; otherwise exactly that
    mapping is detached, its slot and its guest physical extent are returned, and
    the same request repeated is refused. *)
Theorem munmap_exact nv kvm_fd h i t :
  0 <= t -> length (iso_mmap_tbl (hs_mm h)) = Z.to_nat NVKVM_ISO_MMAP_MAX ->
  let '(h', st, eff) := nvkvm_req_munmap_on_isolate nv kvm_fd h i t in
  (st <> 0 /\ h' = h /\ eff = []) \/
  (st = 0 /\ im_used (entry_at h t) = true /\ im_isolate_id (entry_at h t) = i /\
   (forall j, 0 <= j -> j <> t -> entry_at h' j = entry_at h j) /\
   hs_pool h' = release_slot kvm_fd (hs_pool h) (entry_at h t) /\
   hs_gpa h' = release_gpa nv (hs_gpa h) (entry_at h t) /\
   nvkvm_req_munmap_on_isolate nv kvm_fd h' i t = (h', ENOENT, [])).
Proof.
  intros Ht Hl. pose proof (munmap_detach nv kvm_fd h i t Ht Hl) as Hm.
  destruct (nvkvm_req_munmap_on_isolate nv kvm_fd h i t) as [[h' st] eff] eqn:Em.
  destruct Hm as [[Hst ->]|(Hst & Hr & Hu & Hi & w & Hh)].
  - left. do 2 (split; [done|]). revert Em. unfold nvkvm_req_munmap_on_isolate. case_if; [by intros [= _ <-]|].
    destruct (iso_mmap_free _ _ _) as [mm [e|]]; [intros [= _ <- _]; done|by intros [= _ <-]].
  - right. do 3 (split; [done|]). assert (forall j, 0 <= j -> entry_at h' j = entry_at (detach h t) j) as He
      by (subst h'; done).
    split; [|split; [by subst h'|split; [by subst h'|]]].
    + intros j Hj Hne. rewrite He, entry_detach by (done || lia). destruct (Z.eqb_spec t j); [congruence|done].
    + revert Em. unfold nvkvm_req_munmap_on_isolate. destruct (i =? 0) eqn:E0; [intros [= _ <- _]; done|].
      intros _. unfold iso_mmap_free. case_if; [done|]. fold (entry_at h' t).
      rewrite He, entry_detach, Z.eqb_refl by (done || lia). done.
Qed.

(** Other threads do not add mappings that [p] selects. *)
Definition mid_ok (p : nvkvm_iso_mmap_entry -> bool) (mid : Z -> host -> host) : Prop :=
  forall i h, length (iso_mmap_tbl (hs_mm h)) = Z.to_nat NVKVM_ISO_MMAP_MAX ->
  length (iso_mmap_tbl (hs_mm (mid i h))) = Z.to_nat NVKVM_ISO_MMAP_MAX /\
  forall j, 1 <= j < NVKVM_ISO_MMAP_MAX -> im_used (entry_at (mid i h) j) && p (entry_at (mid i h) j) = true ->
    im_used (entry_at h j) && p (entry_at h j) = true.

Lemma reap_clears nv kvm_fd p mid ix : mid_ok p mid ->
  forall h, Forall (fun i => 1 <= i < NVKVM_ISO_MMAP_MAX) ix ->
  length (iso_mmap_tbl (hs_mm h)) = Z.to_nat NVKVM_ISO_MMAP_MAX ->
  let '(h', _, _) := reap_loop nv kvm_fd p mid ix h in
  forall j, 1 <= j < NVKVM_ISO_MMAP_MAX ->
    j ∈ ix \/ im_used (entry_at h j) && p (entry_at h j) = false ->
    im_used (entry_at h' j) && p (entry_at h' j) = false.
Proof.
  intros Hmid. induction ix as [|i ix IH]; intros h Hf Hl.
  - simpl. intros j Hj [Hin|Hn]; [by apply elem_of_nil in Hin|done].
  - apply Forall_cons in Hf as [Hi Hf]. cbn [reap_loop].
    destruct (negb (im_used (entry_at h i)) || negb (p (entry_at h i))) eqn:Eg.
    + specialize (IH h Hf Hl). destruct (reap_loop _ _ _ _ ix h) as [[h' n] eff].
      intros j Hj Hc. apply IH; [done|]. destruct Hc as [[->|Hin]%elem_of_cons|Hn]; [|by left|by right].
      right. by rewrite <- negb_andb, negb_true_iff in Eg.
    + set (h1 := release_backing nv kvm_fd (detach h i) (entry_at h i)).
      assert (length (iso_mmap_tbl (hs_mm h1)) = Z.to_nat NVKVM_ISO_MMAP_MAX) as Hl1
        by (unfold h1, release_backing, detach, arr_set; simpl; by rewrite length_insert).
      destruct (Hmid i h1 Hl1) as [Hl2 Hsub]. specialize (IH (mid i h1) Hf Hl2).
      destruct (reap_loop _ _ _ _ ix (mid i h1)) as [[h' n] eff]. intros j Hj Hc. apply IH; [done|].
      destruct (decide (j ∈ ix)) as [|Hnin]; [by left|]. right. apply not_true_iff_false. intros Hu.
      apply (Hsub j Hj) in Hu.
      assert (entry_at h1 j = if i =? j then entry_clear (entry_at h i) else entry_at h j) as He
        by (apply (entry_detach h i j); (done || lia)).
      rewrite He in Hu. destruct (Z.eqb_spec i j); [done|].
      destruct Hc as [[->|Hin]%elem_of_cons|Hn]; [done|done|]. congruence.
Qed.

(** When an isolate is reaped, with other threads working on the table
    whenever the lock is dropped but not mapping anything into the dead isolate,
    no live mapping of that isolate is left, and its window is forgotten. *)
Theorem reap_isolate_complete nv kvm_fd mid h id :
  length (iso_mmap_tbl (hs_mm h)) = Z.to_nat NVKVM_ISO_MMAP_MAX ->
  mid_ok (fun e => im_isolate_id e =? id) mid -> 1 <= id < NVKVM_ISOLATE_MAX ->
  let '(h', _, _) := nvkvm_iso_mmap_reap_isolate nv kvm_fd mid h id in
  (forall j, 1 <= j < NVKVM_ISO_MMAP_MAX ->
     ~ (im_used (entry_at h' j) = true /\ im_isolate_id (entry_at h' j) = id)) /\
  hs_win h' !! id = None.
Proof.
  intros Hl Hmid Hid. unfold nvkvm_iso_mmap_reap_isolate.
  pose proof (reap_clears nv kvm_fd (fun e => im_isolate_id e =? id) mid tokens Hmid h tokens_range Hl) as Hr.
  destruct (reap_loop _ _ _ _ _ _) as [[h' n] eff]. split.
  - intros j Hj [Hu Hi]. specialize (Hr j Hj).
    assert (im_used (entry_at h' j) && (im_isolate_id (entry_at h' j) =? id) = false) as Hf.
    { apply Hr. left. apply elem_of_seqZ. unfold NVKVM_ISO_MMAP_MAX in *. lia. }
    unfold entry_at in *. cbn [hs_mm] in *. rewrite Hu, Hi, Z.eqb_refl in Hf. done.
  - cbn [hs_win]. unfold nvkvm_win_forget_isolate.
    destruct (Z.eqb_spec id 0), (Z.leb_spec NVKVM_ISOLATE_MAX id); simpl; try lia. apply lookup_delete_eq.
Qed.

(** ** Witnesses: isolate 3 has token 1 on slot 64 and token 2 in the window;
    isolate 4 has token 3 on slot 65 *)
Definition demo_pool : pool := snd (nvkvm_kvm_slot_alloc (snd (nvkvm_kvm_slot_alloc pool_init))).
Definition demo_mm : mmap_state :=
  let m1 := fst (iso_mmap_alloc mmap_init 3 65536 2097152 4096 4096 64 0 true 7) in
  let m2 := fst (iso_mmap_alloc m1 3 131072 0 8192 4096 NVKVM_IN_WINDOW_SLOT 0 false 8) in
  fst (iso_mmap_alloc m2 4 65536 0 16384 4096 65 0 false 9).
Definition demo_host : host := Host demo_mm demo_pool (GState ∅ [] 0) ∅.

Lemma demo_len : length (iso_mmap_tbl (hs_mm demo_host)) = Z.to_nat NVKVM_ISO_MMAP_MAX.
Proof. vm_compute. reflexivity. Qed.

Lemma demo_live i :
  1 <= i < NVKVM_ISO_MMAP_MAX -> im_used (entry_at demo_host i) = true -> i = 1 \/ i = 2 \/ i = 3.
Proof.
  intros Hi Hu. destruct (Z.lt_ge_cases i 4); [lia|]. exfalso. revert Hu. unfold entry_at, arr_get.
  assert (iso_mmap_tbl (hs_mm demo_host) =
    take 4 (iso_mmap_tbl (hs_mm demo_host)) ++ replicate (Z.to_nat 8188) (Entry false false 0 0 0 0 0 0 0 0)) as ->
    by (vm_compute; reflexivity).
  rewrite lookup_total_app_r by (rewrite length_take, demo_len; unfold NVKVM_ISO_MMAP_MAX in *; lia).
  rewrite length_take, demo_len. unfold NVKVM_ISO_MMAP_MAX in *.
  rewrite lookup_total_replicate_2 by lia. done.
Qed.

Lemma demo_slots_ok : slots_ok demo_host.
Proof.
  split.
  - exact demo_len.
  - assert (pool_inv (snd (nvkvm_kvm_slot_alloc pool_init))) as H1
      by (eapply (slot_alloc_spec pool_init); [apply pool_init_inv|by rewrite <- surjective_pairing]).
    eapply slot_alloc_spec; [exact H1|]. unfold demo_host, demo_pool. simpl hs_pool. apply surjective_pairing.
  - intros i Hi Hu. destruct (demo_live i Hi Hu) as [->|[->| ->]]; vm_compute; split; congruence.
  - intros i j Hi Hj Hu Hv. destruct (demo_live i Hi Hu) as [->|[->| ->]], (demo_live j Hj Hv) as [->|[->| ->]];
      vm_compute; congruence.
Qed.

Definition demo_tops : list top := [TMunmap 4 1; TMunmap 3 1; TMunmap 3 1; TReapHandle 3 8; TReapIsolate 4].

Lemma teardown_no_double_release_witness :
  reject_count (hs_pool (fold_left (texec 1 5) demo_tops demo_host)) = reject_count (hs_pool demo_host).
Proof.
  apply (teardown_no_double_release 1 5 demo_tops demo_host demo_slots_ok).
  repeat constructor; lia.
Defined.

Lemma munmap_exact_witness :
  let '(h', st, eff) := nvkvm_req_munmap_on_isolate 1 5 demo_host 3 1 in
  st = 0 /\ nvkvm_req_munmap_on_isolate 1 5 h' 3 1 = (h', ENOENT, []).
Proof.
  pose proof (munmap_exact 1 5 demo_host 3 1 ltac:(lia) demo_len) as H.
  assert (snd (fst (nvkvm_req_munmap_on_isolate 1 5 demo_host 3 1)) = 0) as E by (vm_compute; reflexivity).
  destruct (nvkvm_req_munmap_on_isolate 1 5 demo_host 3 1) as [[h' st] eff]. simpl in E.
  destruct H as [(H & _)|H]; [done|]. split; [exact E|]. apply H.
Defined.

Lemma reap_isolate_complete_witness :
  let '(h', _, _) := nvkvm_iso_mmap_reap_isolate 1 5 (fun _ h => h) demo_host 3 in
  ~ (im_used (entry_at h' 1) = true /\ im_isolate_id (entry_at h' 1) = 3).
Proof.
  pose proof (reap_isolate_complete 1 5 (fun _ h => h) demo_host 3 demo_len (fun _ _ Hl => conj Hl (fun _ _ Hu => Hu))
    ltac:(unfold NVKVM_ISOLATE_MAX; lia)) as H.
  destruct (nvkvm_iso_mmap_reap_isolate 1 5 (fun _ h => h) demo_host 3) as [[h' n] eff].
  apply H. unfold NVKVM_ISO_MMAP_MAX. lia.
Defined.

(** ** Finding: reaping by handle keeps the isolate's side

    Unlike an unmap request, [nvkvm_iso_mmap_reap_handle] neither unmaps the
    mirror in the isolate nor returns its place in the isolate's window. *)
Lemma reap_loop_win nv kvm_fd p ix : forall h,
  hs_win (fst (fst (reap_loop nv kvm_fd p (fun _ h => h) ix h))) = hs_win h.
Proof.
  induction ix as [|i ix IH]; intros h; [done|]. cbn [reap_loop].
  destruct (negb (im_used (entry_at h i)) || negb (p (entry_at h i))); [apply IH|].
  specialize (IH (release_backing nv kvm_fd (detach h i) (entry_at h i))).
  destruct (reap_loop nv kvm_fd p (fun _ h0 => h0) ix _) as [[h' n] eff]. exact IH.
Qed.

Lemma reap_handle_keeps_window nv kvm_fd h i hd :
  hs_win (fst (fst (nvkvm_iso_mmap_reap_handle nv kvm_fd (fun _ h => h) h i hd))) = hs_win h.
Proof. unfold nvkvm_iso_mmap_reap_handle. case_if; [done|]. apply reap_loop_win. Qed.

End Teardown.
