(* ===== verification/Gates.v ===== *)
(** * Gates: which frontend, DRM and NVKMS ioctls may reach an isolate

    Models the gate chain of [nvkvm_req_ioctl_on_isolate]
    ([src/qemu/nvkvm_isolate_handlers.c]) after the UVM branch: the binding of the
    command's type to the handle's device, the graphics gate, the DRM, NVKMS and
    frontend allowlists ([nvkvm_drm_allowlist.h], [nvkvm_nvkms_allowlist.h],
    [common/nvkvm_nvkms_ops.h], [nvkvm_fe_alloc_allowlist.h]) and the
    RM_VID_HEAP_CONTROL gate; and the per-VM set of RM client handles.  A request
    that passes goes on to the later gates of the handler, which [RmGates] models. *)
From S2P Require Import Prelude Bytes Extents Abi Handles IsoMmap UvmVa UvmIoctl.

Module Gates.
Import Abi Handles IsoMmap UvmIoctl.

(** ** Command words *)
Definition IOC_TYPE (cmd : Z) : Z := Z.shiftr cmd 8 & 255.
Definition IOC_NR (cmd : Z) : Z := cmd & 255.
Definition TYPE_F : Z := 70.
Definition TYPE_d : Z := 100.
Definition NVKVM_NVKMS_IOCTL_CMD : Z := 3222301952.
Definition NV_MINOR_DEVICE_NUMBER_REGULAR_MAX : Z := 15.

Definition nvkvm_ioctl_type_matches_dev (handle_type dev_id cmd : Z) : bool :=
  if negb (handle_type =? NVKVM_HANDLE_TYPE_NVIDIA) then false
  else if (dev_id =? NVKVM_DEV_CTL) ||
          ((NVKVM_DEV_GPU 0 <=? dev_id) && (dev_id <=? NVKVM_DEV_GPU NV_MINOR_DEVICE_NUMBER_REGULAR_MAX))
  then IOC_TYPE cmd =? TYPE_F
  else if (NVKVM_DEV_DRM_RD 0 <=? dev_id) && (dev_id <? NVKVM_DEV_DRM_RD 16) then IOC_TYPE cmd =? TYPE_d
  else if dev_id =? NVKVM_DEV_MODESET then cmd =? NVKVM_NVKMS_IOCTL_CMD
  else false.

(** ** Allowlists *)
Definition nvkvm_fe_nr_allowlist : list Z := [
  39; 41; 42; 43; 52; 53; 65; 74; 78; 79; 84; 87; 88; 94; 200; 201; 206; 207; 210; 212; 214;
  215; 218].

Definition nvkvm_alloc_class_allowlist : list Z := [
  0; 1; 2; 5; 62; 64; 65; 112; 115; 121; 128; 218; 222; 224; 241; 248; 251; 253; 254; 8320;
  8321; 8335; 20539; 20540; 20640; 33758; 36909; 36967; 36978; 37014; 37068; 37094; 37095;
  37105; 41068; 41148; 41280; 45772; 47280; 47313; 47354; 50017; 50273; 50287; 50352; 50359;
  50385; 50543; 50583; 50613; 50624; 50785; 50839; 50864; 50869; 50880; 50938; 51041; 51095;
  51120; 51125; 51127; 51136; 51194; 51311; 51381; 51567; 51607; 51632; 51637; 51639; 51648;
  51665; 51706; 51823; 51893; 52019; 52119; 52130; 52160; 52544; 52631; 52656; 52672; 52689;
  52730; 52887; 52928; 53175].

Definition nvkvm_fe_nr_allowed (nr : Z) : bool := existsb (Z.eqb nr) nvkvm_fe_nr_allowlist.
Definition nvkvm_alloc_class_allowed (cls : Z) : bool := existsb (Z.eqb cls) nvkvm_alloc_class_allowlist.

Definition NVKVM_DRM_COMMAND_BASE : Z := 64.
Definition nvkvm_drm_nr_allowed (nr : Z) : bool :=
  existsb (Z.eqb nr) ([0; 9] ++ map (Z.add NVKVM_DRM_COMMAND_BASE) [1; 3; 4; 5; 6; 8; 11; 9; 15; 20; 21; 22; 23]).

(** *** NVKMS *)
Record nvkvm_nvkms_ops := Ops {
  o_known : bool; reg_surface : Z; unreg_surface : Z;
  vblank_enable : Z; vblank_disable : Z; vblank_accel : Z
}.

Definition nvkvm_nvkms_ops_for_version (major minor : Z) : nvkvm_nvkms_ops :=
  let shifted := (575 <=? major) || ((major =? 570) && (207 <=? minor)) || ((570 <? major) && (major <? 575)) in
  if (515 <=? major) && (major <=? 549) then Ops true 16 17 (-1) (-1) (-1)
  else if (550 <=? major) && (major <=? 574) && negb shifted then Ops true 16 17 60 61 62
  else if shifted && (major <=? 589) then Ops true 17 18 61 62 63
  else if (590 <=? major) && (major <=? 610) then Ops true 17 18 60 61 62
  else Ops false 0 0 (-1) (-1) (-1).

(** [env]: the numbers of NVKVM_NVKMS_EXTRA_ALLOW, [None] if it is unset. *)
Definition nvkvm_nvkms_extra_allow (env : option (list Z)) (cmd_type : Z) : bool :=
  match env with None => false | Some vs => existsb (fun v => u32 v =? cmd_type) vs end.

Definition nvkvm_nvkms_cmd_allowed_ver (env : option (list Z)) (cmd_type major minor : Z) : bool :=
  if nvkvm_nvkms_extra_allow env cmd_type then true
  else if (cmd_type =? 0) || (cmd_type =? 1) then true
  else
    let o := nvkvm_nvkms_ops_for_version major minor in
    if negb (o_known o) then false
    else if (cmd_type =? reg_surface o) || (cmd_type =? unreg_surface o) then true
    else if (0 <=? vblank_enable o) &&
            ((s32 cmd_type =? vblank_enable o) || (s32 cmd_type =? vblank_disable o) ||
             (s32 cmd_type =? vblank_accel o)) then true
    else false.

(** ** The chain *)

(** The parts of the device the gates consult. *)
Record dev := Dev { d_graphics : bool; d_version : option (list Z); d_env : option (list Z) }.

(** RM_VID_HEAP_CONTROL: the buffer to forward, or [None] for a refusal. *)
Definition vid_heap_gate (mm : mmap_state) (isolate_id psize : Z) (pb : option (list Z))
    : option (option (list Z)) :=
  let fn := match pb with Some b => if 12 <=? psize then rd 4 8 b else UINT32_MAX | None => UINT32_MAX end in
  if fn =? 27 then
    match pb with
    | None => None
    | Some b =>
        if psize <? 80 then None
        else
          let desc := rd 8 64 b in
          let limit := rd 8 72 b in
          if (desc =? 0) || (limit =? 0) || (limit =? UINT64_MAX) then None
          else
            match iso_mmap_translate mm isolate_id desc (u64 (limit + 1)) with
            | Some (Some stub_base) => Some (Some (wr 64 (le_bytes 8 stub_base) b))
            | _ => None
            end
    end
  else if fn =? 2 then Some pb
  else None.

(** The dispatch on the command's type: [None] to go on. *)
Definition type_gate (d : dev) (cmd psize : Z) (pb : option (list Z)) : option uresp :=
  if negb (d_graphics d) && ((IOC_TYPE cmd =? TYPE_d) || (cmd =? NVKVM_NVKMS_IOCTL_CMD)) then Some (deny EPERM 86)
  else if IOC_TYPE cmd =? TYPE_d then
    if negb (nvkvm_drm_nr_allowed (IOC_NR cmd)) then Some (deny EACCES 86) else None
  else if cmd =? NVKVM_NVKMS_IOCTL_CMD then
    let nvkms_cmd := match pb with Some b => if 4 <=? psize then rd 4 0 b else UINT32_MAX | None => UINT32_MAX end in
    let '(major, minor, _) := nvkvm_abi_parse_version (d_version d) in
    if negb (nvkvm_nvkms_cmd_allowed_ver (d_env d) nvkms_cmd major minor) then Some (deny EACCES 86) else None
  else if negb (IOC_TYPE cmd =? TYPE_F) then Some (deny EPERM 86)
  else None.

(** [ht 0] is the table [nvkvm_handle_get] sees, [ht 1] and [ht 2] those the type
    and the device are read from.  The result is a refusal, or [param_buf] for
    the gates that follow. *)
Definition ioctl_gate (d : dev) (ht : nat -> nvkvm_handle_table) (mm : mmap_state) (isolate_id : Z) (q : ureq)
    : uresp + option (list Z) :=
  let h := q_hid q in
  if match nvkvm_handle_get (ht 0%nat) h with
     | None => true
     | Some _ => negb (nvkvm_ioctl_type_matches_dev (h_type (slot (ht 1%nat) h)) (h_dev (slot (ht 2%nat) h)) (q_cmd q))
     end
  then inl (deny EPERM 86)
  else
    match type_gate d (q_cmd q) (q_psize q) (q_pbuf q) with
    | Some e => inl e
    | None =>
        if IOC_TYPE (q_cmd q) =? TYPE_F then
          if negb (nvkvm_fe_nr_allowed (IOC_NR (q_cmd q))) then inl (deny EACCES 86)
          else if IOC_NR (q_cmd q) =? 74 then
            match vid_heap_gate mm isolate_id (q_psize q) (q_pbuf q) with
            | None => inl (deny EACCES 86)
            | Some pb => inr pb
            end
          else inr (q_pbuf q)
        else inr (q_pbuf q)
    end.

(** ** The client allowlist *)
Definition NVKVM_CLIENT_ALLOWLIST_MAX : Z := 8192.

Definition nvkvm_client_allow_add (l : list Z) (hc : Z) : list Z :=
  if (hc =? 0) || (hc =? UINT32_MAX) then l
  else if existsb (Z.eqb hc) l then l
  else if Z.of_nat (length l) <? NVKVM_CLIENT_ALLOWLIST_MAX then l ++ [hc]
  else l.

Definition nvkvm_client_allow_has (l : list Z) (hc : Z) : bool := existsb (Z.eqb hc) l.

(** ** Theorems *)
Lemma existsb_eqb x l : existsb (Z.eqb x) l = true <-> x ∈ l.
Proof.
  rewrite existsb_exists, list_elem_of_In. split; [intros (y & Hy & He); zb; by subst|].
  intros Hx. exists x. by rewrite Z.eqb_refl.
Qed.

(** A command passes the chain only on a live handle whose type field said
    NVIDIA, and only in the class of the device read from its slot: a frontend
    command with an allowed number on nvidiactl or a GPU, an allowed DRM
    command on a render node of a graphics VM, the NVKMS wrapper on the modeset
    device of a graphics VM; nothing passes on any other device. *)
Theorem ioctl_gate_bound d ht mm isolate_id q pb :
  ioctl_gate d ht mm isolate_id q = inr pb ->
  live (ht 0%nat) (q_hid q) = true /\
  h_type (slot (ht 1%nat) (q_hid q)) = NVKVM_HANDLE_TYPE_NVIDIA /\
  let dev := h_dev (slot (ht 2%nat) (q_hid q)) in
  ((dev = NVKVM_DEV_CTL \/ NVKVM_DEV_GPU 0 <= dev <= NVKVM_DEV_GPU 15) /\
   IOC_TYPE (q_cmd q) = TYPE_F /\ IOC_NR (q_cmd q) ∈ nvkvm_fe_nr_allowlist) \/
  (NVKVM_DEV_DRM_RD 0 <= dev < NVKVM_DEV_DRM_RD 16 /\ d_graphics d = true /\
   IOC_TYPE (q_cmd q) = TYPE_d /\ nvkvm_drm_nr_allowed (IOC_NR (q_cmd q)) = true) \/
  (dev = NVKVM_DEV_MODESET /\ d_graphics d = true /\ q_cmd q = NVKVM_NVKMS_IOCTL_CMD).
Proof.
  unfold ioctl_gate. intros Hg. case_if_in Hg; [done|].
  destruct (nvkvm_handle_get (ht 0%nat) (q_hid q)) eqn:Eg; [|done]. apply negb_false_iff in E.
  assert (live (ht 0%nat) (q_hid q) = true) as Hl.
  { unfold nvkvm_handle_get in Eg. case_if_in Eg; [done|]. by case_if_in Eg. }
  split; [done|]. unfold nvkvm_ioctl_type_matches_dev in E.
  destruct (Z.eqb_spec (h_type (slot (ht 1%nat) (q_hid q))) NVKVM_HANDLE_TYPE_NVIDIA) as [Ht|]; [|done].
  split; [done|]. cbn [negb] in E. cbv zeta. set (dv := h_dev (slot (ht 2%nat) (q_hid q))) in *.
  destruct (type_gate _ _ _ _) eqn:Et; [done|]. unfold type_gate in Et.
  case_if_in E; [|case_if_in E; [|case_if_in E; [|done]]].
  - left. apply Z.eqb_eq in E. rewrite E, Z.eqb_refl in Hg.
    split; [unfold NV_MINOR_DEVICE_NUMBER_REGULAR_MAX in *; zb; auto|]. split; [done|]. apply existsb_eqb. unfold nvkvm_fe_nr_allowed in Hg.
    by destruct (existsb _ _).
  - right. left. apply Z.eqb_eq in E.
    match goal with H : _ && _ = true |- _ => apply andb_true_iff in H as [?%Z.leb_le ?%Z.ltb_lt] end.
    split; [done|]. rewrite E, Z.eqb_refl in Et.
    destruct (d_graphics d); cbn [negb andb orb] in Et; [|done]. split; [done|]. split; [done|].
    by destruct (nvkvm_drm_nr_allowed _).
  - right. right. apply Z.eqb_eq in E.
    match goal with H : (dv =? _) = true |- _ => apply Z.eqb_eq in H end. split; [done|]. split; [|done].
    rewrite E, Z.eqb_refl, orb_true_r in Et. by destruct (d_graphics d).
Qed.

Lemma nvkms_ops_cases major minor :
  let o := nvkvm_nvkms_ops_for_version major minor in
  (515 <= major <= 610 /\
   (o = Ops true 16 17 (-1) (-1) (-1) \/ o = Ops true 16 17 60 61 62 \/
    o = Ops true 17 18 61 62 63 \/ o = Ops true 17 18 60 61 62)) \/
  (~ 515 <= major <= 610 /\ o = Ops false 0 0 (-1) (-1) (-1)).
Proof.
  unfold nvkvm_nvkms_ops_for_version. cbv zeta.
  set (sh := (575 <=? major) || ((major =? 570) && (207 <=? minor)) || ((570 <? major) && (major <? 575))).
  assert ((sh = true -> 570 <= major) /\ (sh = false -> major < 575)) as [Ht Hf].
  { subst sh. split; intros H; zb; lia. }
  clearbody sh. destruct sh; [specialize (Ht eq_refl); clear Hf|specialize (Hf eq_refl); clear Ht];
    destruct (Z.leb_spec 515 major), (Z.leb_spec major 549); cbn [andb];
    try (left; split; [lia|by left]);
    destruct (Z.leb_spec 550 major), (Z.leb_spec major 574); cbn [andb negb]; try lia;
    try (left; split; [lia|by right; left]);
    destruct (Z.leb_spec major 589); cbn [andb]; try lia; try (left; split; [lia|by do 2 right; left]);
    destruct (Z.leb_spec 590 major), (Z.leb_spec major 610); cbn [andb]; try lia;
    try (left; split; [lia|by do 3 right]); right; (split; [lia|done]).
Qed.

(** Without the investigation override the NVKMS gate never admits the
    command after UNREGISTER_SURFACE (GRANT_SURFACE) nor the one before the
    vblank commands (SET_FLIPLOCK_GROUP), in any driver version, and on an
    unmeasured version it admits only ALLOC_DEVICE and FREE_DEVICE. *)
Theorem nvkms_gate_sound cmd major minor :
  0 <= cmd < W32 -> nvkvm_nvkms_cmd_allowed_ver None cmd major minor = true ->
  let o := nvkvm_nvkms_ops_for_version major minor in
  (~ 515 <= major <= 610 -> cmd = 0 \/ cmd = 1) /\
  (515 <= major <= 610 -> cmd <> unreg_surface o + 1 /\ (0 <= vblank_enable o -> cmd <> vblank_enable o - 1)).
Proof.
  intros Hc Ha. cbv zeta. unfold nvkvm_nvkms_cmd_allowed_ver in Ha. cbn [nvkvm_nvkms_extra_allow] in Ha.
  destruct (nvkms_ops_cases major minor) as [[Hk Ho]|[Hk Ho]]; [split; [done|intros _]|split; [intros _|done]].
  - destruct Ho as [Ho|[Ho|[Ho|Ho]]]; rewrite Ho in *; cbn in *; (split; [|intros _]); intros ->;
      vm_compute in Ha; done.
  - rewrite Ho in Ha. case_if_in Ha; [zb; auto|done].
Qed.

Lemma nvkms_gate_sound_witness :
  nvkvm_nvkms_cmd_allowed_ver None 17 575 51 = true /\
  17 <> unreg_surface (nvkvm_nvkms_ops_for_version 575 51) + 1.
Proof.
  split; [reflexivity|].
  apply (nvkms_gate_sound 17 575 51); [lia|reflexivity|lia].
Defined.

(** Every byte of [[sb, sb + len)] lies in memory the host installed. *)
Definition installed (mm : mmap_state) (iso sb len : Z) : Prop :=
  forall x, sb <= x < sb + len -> stub_byte (drop 1 (iso_mmap_tbl mm)) iso x.

Lemma vid_heap_gate_spec mm iso psize b pb :
  vid_heap_gate mm iso psize (Some b) = Some pb -> mmap_inv mm ->
  arr_len b = psize -> Forall (fun c => 0 <= c < 256) b ->
  (rd 4 8 b = 2 /\ pb = Some b) \/
  (rd 4 8 b = 27 /\ 80 <= psize /\ exists sb, 0 <= sb < W64 /\ pb = Some (wr 64 (le_bytes 8 sb) b) /\
   installed mm iso sb (rd 8 72 b + 1)).
Proof.
  unfold vid_heap_gate. intros Hg Hinv Hb Hby.
  destruct (Z.leb_spec 12 psize); [|done].
  destruct (Z.eqb_spec (rd 4 8 b) 27); [|destruct (Z.eqb_spec (rd 4 8 b) 2); [|done]; left; split; congruence].
  right. split; [done|]. destruct (Z.ltb_spec psize 80); [done|]. split; [done|].
  pose proof (rd_range 8 64 b Hby) as R1. pose proof (rd_range 8 72 b Hby) as R2.
  change (256 ^ Z.of_nat 8) with W64 in R1, R2.
  destruct (Z.eqb_spec (rd 8 64 b) 0), (Z.eqb_spec (rd 8 72 b) 0), (Z.eqb_spec (rd 8 72 b) UINT64_MAX);
    cbn [orb] in Hg; try done. unfold UINT64_MAX in *.
  rewrite (u64_small (rd 8 72 b + 1)) in Hg by lia.
  destruct (iso_mmap_translate mm iso (rd 8 64 b) (rd 8 72 b + 1)) as [[sb|]|] eqn:Et; [|done..].
  apply translate_stub in Et as (Hsb & _ & Hall); [|done|lia..].
  exists sb. split; [done|]. split; [congruence|done].
Qed.

(** RM_VID_HEAP_CONTROL is forwarded only as ALLOC_SIZE, unchanged, or as
    ALLOC_OS_DESCRIPTOR with the guest's pointer replaced by an address such
    that every byte of the described range lies in a live mirror the host
    installed into that isolate. *)
Theorem vid_heap_confined mm isolate_id psize b pb :
  vid_heap_gate mm isolate_id psize (Some b) = Some pb -> mmap_inv mm ->
  arr_len b = psize -> Forall (fun c => 0 <= c < 256) b ->
  (rd 4 8 b = 2 /\ pb = Some b) \/
  (rd 4 8 b = 27 /\ exists sb b', pb = Some b' /\ rd 8 64 b' = sb /\ arr_len b' = psize /\
   forall x, sb <= x < sb + (rd 8 72 b + 1) -> stub_byte (drop 1 (iso_mmap_tbl mm)) isolate_id x).
Proof.
  intros Hg Hinv Hb Hby.
  destruct (vid_heap_gate_spec _ _ _ _ _ Hg Hinv Hb Hby) as [?|(H27 & Hp & sb & Hsb & -> & Hall)]; [by left|].
  right. split; [done|]. exists sb, (wr 64 (le_bytes 8 sb) b). split; [done|].
  split; [apply rd_wr; [lia|change (Z.of_nat 8) with 8; lia|done]|]. split; [|exact Hall].
  unfold arr_len. rewrite wr_length; [exact Hb|lia|unfold arr_len at 1; rewrite le_bytes_length; lia].
Qed.

Lemma demo_gate :
  ioctl_gate (Dev false None None) demo_ht mmap_init 3 (Req 3 3223340586 32 (Some (replicate 32 0))) =
  inr (Some (replicate 32 0)).
Proof. vm_compute. reflexivity. Qed.

(** _IOWR('F', 0x2a, 32 bytes), the RM control escape, on nvidiactl. *)
Lemma ioctl_gate_bound_witness : live (demo_ht 0) 3 = true.
Proof. apply (ioctl_gate_bound _ _ _ _ _ _ demo_gate). Defined.

(** ALLOC_OS_DESCRIPTOR of the guest range [0x1000, 0x2000). *)
Definition demo_vid : list Z :=
  replicate 8 0 ++ le_bytes 4 27 ++ replicate 52 0 ++ le_bytes 8 4096 ++ le_bytes 8 4095 ++ replicate 8 0.

Lemma vid_heap_confined_witness :
  exists b', vid_heap_gate demo_state 3 88 (Some demo_vid) = Some (Some b') /\
  ((rd 4 8 demo_vid = 2 /\ Some b' = Some demo_vid) \/
   (rd 4 8 demo_vid = 27 /\ exists sb c, Some b' = Some c /\ rd 8 64 c = sb /\ arr_len c = 88 /\
    forall x, sb <= x < sb + (rd 8 72 demo_vid + 1) -> stub_byte (drop 1 (iso_mmap_tbl demo_state)) 3 x)).
Proof.
  exists (wr 64 (le_bytes 8 1048576) demo_vid).
  assert (vid_heap_gate demo_state 3 88 (Some demo_vid) = Some (Some (wr 64 (le_bytes 8 1048576) demo_vid))) as E
    by (vm_compute; reflexivity).
  split; [exact E|]. apply (vid_heap_confined demo_state 3 88 demo_vid); [exact E|exact demo_state_inv|reflexivity|].
  apply Forall_forall. intros x Hx%list_elem_of_In.
  assert (forallb (fun c => (0 <=? c) && (c <? 256)) demo_vid = true) as Hall by reflexivity.
  apply (proj1 (forallb_forall _ _) Hall) in Hx. zb. lia.
Defined.

(** The client set holds only handles that were added, each once, never 0
    nor -1, at most 8192; it never forgets one, and an addition fails only
    when the set is full. *)
Theorem client_allow_sound hcs hc :
  let l := fold_left nvkvm_client_allow_add hcs [] in
  NoDup l /\ Z.of_nat (length l) <= NVKVM_CLIENT_ALLOWLIST_MAX /\
  (nvkvm_client_allow_has l hc = true -> hc ∈ hcs /\ hc <> 0 /\ hc <> UINT32_MAX) /\
  (nvkvm_client_allow_has l hc = true -> forall x, nvkvm_client_allow_has (nvkvm_client_allow_add l x) hc = true) /\
  (hc <> 0 -> hc <> UINT32_MAX -> Z.of_nat (length l) < NVKVM_CLIENT_ALLOWLIST_MAX ->
   nvkvm_client_allow_has (nvkvm_client_allow_add l hc) hc = true).
Proof.
  cbv zeta. set (P := fun l : list Z => NoDup l /\ Z.of_nat (length l) <= NVKVM_CLIENT_ALLOWLIST_MAX /\
    Forall (fun x => x ∈ hcs /\ x <> 0 /\ x <> UINT32_MAX) l).
  assert (P (fold_left nvkvm_client_allow_add hcs [])) as (Hn & Hl & Hf).
  { apply (fold_left_in P); [|split; [constructor|split; [done|constructor]]].
    intros l x Hx (Hn & Hl & Hf). unfold nvkvm_client_allow_add.
    destruct (Z.eqb_spec x 0), (Z.eqb_spec x UINT32_MAX); cbn [orb]; try done.
    destruct (existsb (Z.eqb x) l) eqn:Ee; [done|]. destruct (Z.ltb_spec (Z.of_nat (length l)) NVKVM_CLIENT_ALLOWLIST_MAX); [|done].
    split; [|split].
    - apply NoDup_app. split; [done|]. split; [|apply NoDup_singleton].
      intros y Hy ->%list_elem_of_singleton. apply existsb_eqb in Hy. congruence.
    - rewrite length_app. simpl. lia.
    - apply Forall_app. split; [done|]. by apply Forall_singleton. }
  set (l := fold_left _ _ _) in *. unfold nvkvm_client_allow_has. split; [done|]. split; [done|].
  split; [|split].
  - intros Hh%existsb_eqb. by apply (proj1 (Forall_forall _ _) Hf).
  - rewrite existsb_eqb. intros Hh x. apply existsb_eqb. unfold nvkvm_client_allow_add. repeat case_if; auto.
    apply elem_of_app. by left.
  - intros H0 H1 Hlt. unfold nvkvm_client_allow_add.
    destruct (Z.eqb_spec hc 0), (Z.eqb_spec hc UINT32_MAX); cbn [orb]; try done.
    destruct (existsb (Z.eqb hc) l) eqn:Ee; [done|]. destruct (Z.ltb_spec (Z.of_nat (length l)) NVKVM_CLIENT_ALLOWLIST_MAX); [|lia].
    apply existsb_eqb, elem_of_app. right. by apply list_elem_of_singleton.
Qed.

(** Privileged memory, OS descriptors and the dma-buf export escape stay out. *)
Lemma excluded_classes :
  nvkvm_alloc_class_allowed 63 = false /\ nvkvm_alloc_class_allowed 113 = false /\
  nvkvm_fe_nr_allowed 112 = false /\ nvkvm_alloc_class_allowed UINT32_MAX = false.
Proof. vm_compute. auto. Qed.

End Gates.
