(* ===== verification/RmGates.v ===== *)
(** * RmGates: the RM gates of the ioctl handler

    Models the second half of the gate chain of [nvkvm_req_ioctl_on_isolate]
    ([src/qemu/nvkvm_isolate_handlers.c]), which a frontend command passes after
    [Gates.ioctl_gate] and before it is forwarded: OS descriptors of RM_ALLOC_MEMORY,
    the class allowlist of RM_ALLOC, the control-command allowlist
    ([nvkvm_ctrl_allowlist.h]) with the commands answered locally, the source client
    of DUP_OBJECT, and the ownership of the client a command names.  [rm_chain] is
    the whole chain. *)
From S2P Require Import Prelude Bytes Extents Abi Handles IsoMmap UvmVa UvmIoctl Gates.

Module RmGates.
Import Abi Handles IsoMmap UvmIoctl Gates.

(** ** Escape numbers ([abi/nvgpu.h]) *)
Definition NV_ESC_RM_ALLOC_MEMORY : Z := 39.
Definition NV_ESC_RM_FREE : Z := 41.
Definition NV_ESC_RM_CONTROL : Z := 42.
Definition NV_ESC_RM_ALLOC : Z := 43.
Definition NV_ESC_RM_DUP_OBJECT : Z := 52.
Definition NV_ESC_RM_SHARE : Z := 53.
Definition NV_ESC_RM_VID_HEAP_CONTROL : Z := 74.
Definition NV_ESC_RM_MAP_MEMORY : Z := 78.
Definition NV_ESC_RM_UNMAP_MEMORY : Z := 79.
Definition NV_ESC_RM_MAP_MEMORY_DMA : Z := 87.
Definition NV_ESC_RM_UNMAP_MEMORY_DMA : Z := 88.
Definition NV01_MEMORY_SYSTEM_OS_DESCRIPTOR : Z := 113.
Definition NV01_ROOT_CLIENT : Z := 65.

(** ** The control-command allowlist *)
Definition nvkvm_ctrl_allowlist : list Z := [
  257; 258; 295; 299; 310; 314; 496; 513; 514; 516; 517; 532; 533; 534; 539; 629; 633; 635; 648;
  649; 656; 2564; 3329; 3332; 4260112; 8389121; 8389248; 8389256; 8389257; 8389259; 8389262;
  8389266; 8389268; 8392969; 8393479; 8393730; 8394509; 8394515; 8394758; 8394765; 8395017;
  14548993; 16253187; 16580865; 16580866; 16580868; 16580869; 545259778; 545259792; 545259793;
  545259801; 545259823; 545259825; 545259827; 545259839; 545259842; 545259845; 545259846;
  545259850; 545259851; 545259862; 545259863; 545259884; 545259888; 545259915; 545259917;
  545259918; 545259925; 545259939; 545260289; 545260547; 545260550; 545260551; 545261570;
  545263881; 545263883; 545264129; 545264144; 545264152; 545264155; 545264167; 545264170;
  545264171; 545264176; 545264387; 545264471; 545264472; 545265409; 545265410; 545265665;
  545265666; 545265667; 545265699; 545265706; 545265707; 545267722; 545267816; 545268233;
  545268236; 545268240; 545270275; 545270282; 545271809; 545271810; 545272101; 545273345;
  545273857; 545292633; 545292642; 545293614; 545293615; 545302034; 545302040; 545325320;
  546246917; 1346109698; 1346109700; 1346109701; 2212365065; 2212365068; 2212365072; 2423193857;
  2423193858; 2430992642; 2691432705; 2691432707; 2691432709; 2691629315; 3278831880;
  3312386315; 3409117441; 3409117444; 3409117451; 3409117452; 769; 15621; 15622; 15624; 7536897;
  8392962; 8392964; 8393473; 8393729; 8394497; 8394503; 8395521; 8395778; 14286850; 14286854;
  545259811; 545259847; 545264134; 545264136; 545264385; 545264405; 545264416; 545264466;
  545270274; 545275143; 545300689; 545325319; 2425749761; 2425749766; 2425749767; 2691629316;
  3278831882; 3278831873].

Definition NVKVM_CTRL_ALLOW_TABLE : Z := 1.
Definition NVKVM_CTRL_ALLOW_GSS : Z := 2.
Definition NVKVM_CTRL_ALLOW_BINAPI : Z := 3.

Definition nvkvm_ctrl_cmd_allowed (cmd : Z) : Z :=
  if existsb (Z.eqb cmd) nvkvm_ctrl_allowlist then NVKVM_CTRL_ALLOW_TABLE
  else if negb ((cmd & 32768) =? 0) then NVKVM_CTRL_ALLOW_GSS
  else if (Z.shiftr cmd 16 & 65535) =? 8321 then NVKVM_CTRL_ALLOW_BINAPI
  else 0.

Definition nvkvm_ctrl_noop : list Z := [545263893; 2691629329; 2691629321; 2691432720].
Definition nvkvm_ctrl_cmd_noop (cmd : Z) : bool := existsb (Z.eqb cmd) nvkvm_ctrl_noop.

(** ** The gates

    [param_buf] is an optional buffer.  A refusal carries the answer, and the
    chain also returns the buffer, which the worker copies back to the guest. *)
Definition refusal_rm : Type := uresp * option (list Z).

(** RM_ALLOC_MEMORY: a class of 0x71 describes memory by address. *)
Definition osdesc_refuse (psize : Z) (pb : option (list Z)) : refusal_rm :=
  (Resp 0 0 30 0,
   match pb with
   | Some b => if 44 <=? psize then Some (wr 40 (le_bytes 4 30) b) else pb
   | None => pb
   end).

Definition osdesc_gate (mm : mmap_state) (isolate_id psize : Z) (pb : option (list Z))
    : refusal_rm + option (list Z) :=
  match pb with
  | None => inl (osdesc_refuse psize pb)
  | Some b =>
      if psize <? 16 then inl (osdesc_refuse psize pb)
      else if negb (rd 4 12 b =? NV01_MEMORY_SYSTEM_OS_DESCRIPTOR) then inr pb
      else if psize <? 40 then inl (osdesc_refuse psize pb)
      else
        let base := rd 8 24 b in
        let limit := rd 8 32 b in
        if (base =? 0) || (limit =? UINT64_MAX) then inl (osdesc_refuse psize pb)
        else
          match iso_mmap_translate mm isolate_id base (u64 (limit + 1)) with
          | Some (Some stub_base) => inr (Some (wr 24 (le_bytes 8 stub_base) b))
          | _ => inl (osdesc_refuse psize pb)
          end
  end.

(** RM_ALLOC: the class at offset 12, or a value no list contains. *)
Definition alloc_class_gate (psize : Z) (pb : option (list Z)) : option uresp :=
  let cls := match pb with Some b => if 16 <=? psize then rd 4 12 b else UINT32_MAX | None => UINT32_MAX end in
  if negb (nvkvm_alloc_class_allowed cls) then Some (Resp 0 0 86 0) else None.

(** RM_CONTROL: answered locally, refused, or passed on. *)
Definition ctrl_gate (psize asize : Z) (pb : option (list Z)) : option uresp :=
  match (match pb with Some b => if 12 <=? psize then Some (rd 4 8 b) else None | None => None end) with
  | None => Some (Resp 0 0 86 0)
  | Some cc =>
      if nvkvm_ctrl_cmd_noop cc then Some (Resp 0 0 0 0)
      else if (nvkvm_ctrl_cmd_allowed cc =? 0) || (1048576 <? asize) then Some (Resp 0 0 86 0)
      else None
  end.

(** DUP_OBJECT: [cl] is the client set the lookup sees. *)
Definition dup_gate (cl : list Z) (psize : Z) (pb : option (list Z)) : option uresp :=
  match pb with
  | None => Some (deny EACCES 31)
  | Some b =>
      if psize <? 16 then Some (deny EACCES 31)
      else
        let src := rd 4 12 b in
        if negb (src =? 0) && negb (src =? UINT32_MAX) && negb (nvkvm_client_allow_has cl src)
        then Some (deny EACCES 31) else None
  end.

Definition hclient_at_0 (nr : Z) : bool :=
  (nr =? NV_ESC_RM_ALLOC) || (nr =? NV_ESC_RM_ALLOC_MEMORY) || (nr =? NV_ESC_RM_CONTROL) ||
  (nr =? NV_ESC_RM_FREE) || (nr =? NV_ESC_RM_DUP_OBJECT) || (nr =? NV_ESC_RM_SHARE) ||
  (nr =? NV_ESC_RM_MAP_MEMORY) || (nr =? NV_ESC_RM_UNMAP_MEMORY) ||
  (nr =? NV_ESC_RM_MAP_MEMORY_DMA) || (nr =? NV_ESC_RM_UNMAP_MEMORY_DMA) ||
  (nr =? NV_ESC_RM_VID_HEAP_CONTROL).

Definition root_class (cls : Z) : bool := (cls =? 0) || (cls =? NV01_ROOT_CLIENT).

Definition is_root_alloc (nr psize : Z) (b : list Z) : bool :=
  (nr =? NV_ESC_RM_ALLOC) && (16 <=? psize) && root_class (rd 4 12 b) &&
  ((rd 4 8 b =? rd 4 0 b) || (rd 4 0 b =? 0)).

(** [cl0]: the set whose size is read without its lock; [cl1]: the one searched. *)
Definition hclient_gate (cl0 cl1 : list Z) (nr psize : Z) (pb : option (list Z)) : option uresp :=
  if (0 <? arr_len cl0) && hclient_at_0 nr then
    match pb with
    | None => Some (deny EACCES 31)
    | Some b =>
        if psize <? 4 then Some (deny EACCES 31)
        else
          let hc := rd 4 0 b in
          if negb (is_root_alloc nr psize b) && negb (hc =? 0) && negb (hc =? UINT32_MAX) &&
             negb (nvkvm_client_allow_has cl1 hc)
          then Some (deny EACCES 31) else None
    end
  else None.

(** ** The chain *)
Record rreq := RReq { rq : ureq; rq_iso : Z; rq_asize : Z; rq_abuf : option (list Z) }.

Definition alloc_gates (mm : mmap_state) (r : rreq) (pb : option (list Z)) : refusal_rm + option (list Z) :=
  let nr := IOC_NR (q_cmd (rq r)) in
  let psize := q_psize (rq r) in
  if nr =? NV_ESC_RM_ALLOC_MEMORY then osdesc_gate mm (rq_iso r) psize pb
  else if nr =? NV_ESC_RM_ALLOC then
    match alloc_class_gate psize pb with Some e => inl (e, pb) | None => inr pb end
  else inr pb.

(** [cl 0], [cl 1], [cl 2]: the client set at the three places it is read. *)
Definition client_gates (cl : nat -> list Z) (r : rreq) (pb : option (list Z)) : option uresp :=
  let nr := IOC_NR (q_cmd (rq r)) in
  let psize := q_psize (rq r) in
  match (if nr =? NV_ESC_RM_CONTROL then ctrl_gate psize (rq_asize r) pb else None) with
  | Some e => Some e
  | None =>
      match (if nr =? NV_ESC_RM_DUP_OBJECT then dup_gate (cl 0%nat) psize pb else None) with
      | Some e => Some e
      | None => hclient_gate (cl 1%nat) (cl 2%nat) nr psize pb
      end
  end.

Definition rm_gates (mm : mmap_state) (cl : nat -> list Z) (r : rreq) (pb : option (list Z))
    : refusal_rm + option (list Z) :=
  if IOC_TYPE (q_cmd (rq r)) =? TYPE_F then
    match alloc_gates mm r pb with
    | inl e => inl e
    | inr pb' => match client_gates cl r pb' with Some e => inl (e, pb') | None => inr pb' end
    end
  else inr pb.

Definition rm_chain (d : dev) (ht : nat -> nvkvm_handle_table) (mm : mmap_state) (cl : nat -> list Z) (r : rreq)
    : refusal_rm + option (list Z) :=
  match ioctl_gate d ht mm (rq_iso r) (rq r) with
  | inl e => inl (e, q_pbuf (rq r))
  | inr pb => rm_gates mm cl r pb
  end.

(** ** What passes *)

(** The control commands that may be forwarded: a row of the table, bit 15 set
    (RM_GSS_LEGACY_MASK), or the class 0x2081; and none that is answered locally. *)
Definition ctrl_ok (cmd : Z) : Prop :=
  (cmd ∈ nvkvm_ctrl_allowlist \/ Z.testbit cmd 15 = true \/ (Z.shiftr cmd 16 & 65535) = 8321) /\
  cmd ∉ nvkvm_ctrl_noop.

(** A client this VM may name: none, the wildcard, or one of its set. *)
Definition own_client (cl : list Z) (hc : Z) : Prop := hc = 0 \/ hc = UINT32_MAX \/ hc ∈ cl.

(** [b] came from the guest, [b'] is what is forwarded. *)
Definition payload_ok (mm : mmap_state) (r : rreq) (cl0 : list Z) (nr : Z) (b b' : list Z) : Prop :=
  if nr =? NV_ESC_RM_ALLOC_MEMORY then
    (rd 4 12 b <> NV01_MEMORY_SYSTEM_OS_DESCRIPTOR /\ b' = b) \/
    (rd 4 12 b = NV01_MEMORY_SYSTEM_OS_DESCRIPTOR /\ installed mm (rq_iso r) (rd 8 24 b') (rd 8 32 b + 1))
  else if nr =? NV_ESC_RM_VID_HEAP_CONTROL then
    (rd 4 8 b = 2 /\ b' = b) \/
    (rd 4 8 b = 27 /\ installed mm (rq_iso r) (rd 8 64 b') (rd 8 72 b + 1))
  else b' = b /\
    (nr = NV_ESC_RM_ALLOC -> rd 4 12 b ∈ nvkvm_alloc_class_allowlist) /\
    (nr = NV_ESC_RM_CONTROL -> ctrl_ok (rd 4 8 b) /\ rq_asize r <= 1048576) /\
    (nr = NV_ESC_RM_DUP_OBJECT -> own_client cl0 (rd 4 12 b)).

Lemma bit15 cmd : negb ((cmd & 32768) =? 0) = Z.testbit cmd 15.
Proof.
  change 32768 with (2 ^ 15). destruct (Z.testbit cmd 15) eqn:E.
  - apply negb_true_iff, Z.eqb_neq. intros H0. apply (f_equal (fun z => Z.testbit z 15)) in H0.
    rewrite Z.land_spec, E, Z.pow2_bits_true, Z.bits_0 in H0 by lia. done.
  - apply negb_false_iff, Z.eqb_eq, Z.bits_inj'. intros n Hn. rewrite Z.land_spec, Z.bits_0.
    destruct (decide (n = 15)) as [->|]; [by rewrite E|]. rewrite Z.pow2_bits_false by lia. apply andb_false_r.
Qed.

Lemma ctrl_allowed_spec cmd :
  nvkvm_ctrl_cmd_allowed cmd <> 0 <->
  cmd ∈ nvkvm_ctrl_allowlist \/ Z.testbit cmd 15 = true \/ (Z.shiftr cmd 16 & 65535) = 8321.
Proof.
  unfold nvkvm_ctrl_cmd_allowed. rewrite bit15, <- existsb_eqb.
  destruct (existsb _ _); [split; [auto|done]|]. destruct (Z.testbit cmd 15); [split; [auto|done]|].
  destruct (Z.eqb_spec (Z.shiftr cmd 16 & 65535) 8321); split; try done; [auto|]. intros [H|[H|H]]; done.
Qed.

(** The two tables are disjoint, also from the wildcards: a command answered
    locally is never one the gate would forward. *)
Lemma noop_not_allowed cmd : nvkvm_ctrl_cmd_noop cmd = true -> nvkvm_ctrl_cmd_allowed cmd = 0.
Proof.
  unfold nvkvm_ctrl_cmd_noop. rewrite existsb_eqb. unfold nvkvm_ctrl_noop.
  rewrite !elem_of_cons. intros [->|[->|[->|[->|H]]]]; [vm_compute; done..|]. by apply elem_of_nil in H.
Qed.

Lemma ctrl_gate_spec psize asize pb :
  ctrl_gate psize asize pb = None <->
  exists b, pb = Some b /\ 12 <= psize /\ ctrl_ok (rd 4 8 b) /\ asize <= 1048576.
Proof.
  unfold ctrl_gate, ctrl_ok. destruct pb as [b|]; [|split; [done|intros (? & ? & _); done]].
  destruct (Z.leb_spec 12 psize) as [Hp|Hp]; [|split; [done|intros (? & [= <-] & ? & _); lia]].
  unfold nvkvm_ctrl_cmd_noop. destruct (existsb (Z.eqb (rd 4 8 b)) nvkvm_ctrl_noop) eqn:En.
  { split; [done|]. intros (? & [= <-] & _ & (_ & Hn) & _). by apply existsb_eqb in En. }
  assert (rd 4 8 b ∉ nvkvm_ctrl_noop) as Hn by (intros H%existsb_eqb; congruence).
  pose proof (ctrl_allowed_spec (rd 4 8 b)) as [Hto Hfrom].
  destruct (Z.eqb_spec (nvkvm_ctrl_cmd_allowed (rd 4 8 b)) 0) as [E0|E0]; cbn [orb].
  { split; [done|]. intros (? & [= <-] & _ & (Ha & _) & _). by apply Hfrom in Ha. }
  destruct (Z.ltb_spec 1048576 asize).
  - split; [done|]. intros (? & [= <-] & _ & _ & ?). lia.
  - split; [|done]. intros _. exists b. split_and!; [done|done|by apply Hto|done|done].
Qed.

Lemma dup_gate_spec cl psize pb :
  dup_gate cl psize pb = None -> exists b, pb = Some b /\ 16 <= psize /\ own_client cl (rd 4 12 b).
Proof.
  unfold dup_gate, own_client, nvkvm_client_allow_has. destruct pb as [b|]; [|done].
  destruct (Z.ltb_spec psize 16); [done|]. intros Hd. exists b. split; [done|]. split; [done|].
  destruct (Z.eqb_spec (rd 4 12 b) 0); [auto|]. destruct (Z.eqb_spec (rd 4 12 b) UINT32_MAX); [auto|].
  cbn [negb andb] in Hd. destruct (existsb _ cl) eqn:E; [|done]. right. right. by apply existsb_eqb.
Qed.

Lemma hclient_gate_spec cl0 cl1 nr psize pb :
  hclient_gate cl0 cl1 nr psize pb = None -> hclient_at_0 nr = true -> cl0 <> [] ->
  exists b, pb = Some b /\ 4 <= psize /\ (own_client cl1 (rd 4 0 b) \/ is_root_alloc nr psize b = true).
Proof.
  unfold hclient_gate, own_client, nvkvm_client_allow_has. intros Hg Hh Hne. rewrite Hh in Hg.
  rewrite (proj2 (Z.ltb_lt 0 (arr_len cl0))) in Hg by (unfold arr_len; destruct cl0; [done|simpl; lia]).
  cbn [andb] in Hg. destruct pb as [b|]; [|done]. destruct (Z.ltb_spec psize 4); [done|].
  exists b. split; [done|]. split; [done|]. destruct (is_root_alloc nr psize b); [auto|].
  left. destruct (Z.eqb_spec (rd 4 0 b) 0); [auto|]. destruct (Z.eqb_spec (rd 4 0 b) UINT32_MAX); [auto|].
  cbn [negb andb] in Hg. destruct (existsb _ cl1) eqn:E; [|done]. right. right. by apply existsb_eqb.
Qed.

Lemma osdesc_gate_spec mm iso psize b pb :
  osdesc_gate mm iso psize (Some b) = inr pb -> mmap_inv mm -> arr_len b = psize ->
  Forall (fun c => 0 <= c < 256) b ->
  16 <= psize /\
  ((rd 4 12 b <> NV01_MEMORY_SYSTEM_OS_DESCRIPTOR /\ pb = Some b) \/
   (rd 4 12 b = NV01_MEMORY_SYSTEM_OS_DESCRIPTOR /\ 40 <= psize /\
    exists sb, 0 <= sb < W64 /\ pb = Some (wr 24 (le_bytes 8 sb) b) /\ installed mm iso sb (rd 8 32 b + 1))).
Proof.
  unfold osdesc_gate. intros Hg Hinv Hl Hby. destruct (Z.ltb_spec psize 16); [done|]. split; [done|].
  destruct (Z.eqb_spec (rd 4 12 b) NV01_MEMORY_SYSTEM_OS_DESCRIPTOR) as [Ec|]; cbn [negb] in Hg;
    [|left; split; [done|congruence]].
  right. split; [done|]. destruct (Z.ltb_spec psize 40); [done|]. split; [done|].
  pose proof (rd_range 8 24 b Hby) as R1. pose proof (rd_range 8 32 b Hby) as R2.
  change (256 ^ Z.of_nat 8) with W64 in R1, R2.
  destruct (Z.eqb_spec (rd 8 24 b) 0), (Z.eqb_spec (rd 8 32 b) UINT64_MAX); cbn [orb] in Hg; try done.
  unfold UINT64_MAX in *. rewrite (u64_small (rd 8 32 b + 1)) in Hg by lia.
  destruct (iso_mmap_translate mm iso (rd 8 24 b) (rd 8 32 b + 1)) as [[sb|]|] eqn:Et; [|done..].
  apply translate_stub in Et as (Hsb & _ & Hall); [|done|lia..].
  exists sb. split; [done|]. split; [congruence|done].
Qed.

Lemma ioctl_gate_F d ht mm iso q pb :
  ioctl_gate d ht mm iso q = inr pb -> IOC_TYPE (q_cmd q) = TYPE_F ->
  IOC_NR (q_cmd q) ∈ nvkvm_fe_nr_allowlist /\
  (if IOC_NR (q_cmd q) =? NV_ESC_RM_VID_HEAP_CONTROL
   then vid_heap_gate mm iso (q_psize q) (q_pbuf q) = Some pb else pb = q_pbuf q).
Proof.
  unfold ioctl_gate. intros Hg HF. case_if_in Hg; [done|]. destruct (type_gate _ _ _ _); [done|].
  rewrite HF, Z.eqb_refl in Hg. unfold nvkvm_fe_nr_allowed in Hg.
  destruct (existsb _ nvkvm_fe_nr_allowlist) eqn:Ex; [|done]. split; [by apply existsb_eqb|]. cbn [negb] in Hg.
  unfold NV_ESC_RM_VID_HEAP_CONTROL. destruct (_ =? 74); [|by injection Hg].
  destruct (vid_heap_gate _ _ _ _); [by injection Hg as ->|done].
Qed.

Lemma vid_heap_gate_None mm iso psize : vid_heap_gate mm iso psize None = None.
Proof. reflexivity. Qed.

(** The escapes whose payload is inspected. *)
Definition gated : list Z :=
  [NV_ESC_RM_ALLOC_MEMORY; NV_ESC_RM_ALLOC; NV_ESC_RM_CONTROL; NV_ESC_RM_DUP_OBJECT; NV_ESC_RM_VID_HEAP_CONTROL].

Lemma alloc_gates_other mm r pb pb' :
  alloc_gates mm r pb = inr pb' -> IOC_NR (q_cmd (rq r)) <> NV_ESC_RM_ALLOC_MEMORY ->
  pb' = pb /\
  (IOC_NR (q_cmd (rq r)) = NV_ESC_RM_ALLOC ->
   exists b, pb = Some b /\ 16 <= q_psize (rq r) /\ rd 4 12 b ∈ nvkvm_alloc_class_allowlist).
Proof.
  unfold alloc_gates. intros Hg Hn. rewrite (proj2 (Z.eqb_neq _ _) Hn) in Hg.
  destruct (Z.eqb_spec (IOC_NR (q_cmd (rq r))) NV_ESC_RM_ALLOC); [|by injection Hg as <-].
  unfold alloc_class_gate in Hg. set (cls := match pb with Some _ => _ | None => _ end) in Hg.
  destruct (nvkvm_alloc_class_allowed cls) eqn:E; [|done]. injection Hg as <-. split; [done|]. intros _.
  subst cls. destruct pb as [b|]; [|vm_compute in E; done].
  destruct (Z.leb_spec 16 (q_psize (rq r))); [|vm_compute in E; done].
  exists b. split; [done|]. split; [done|]. by apply existsb_eqb.
Qed.

Lemma client_gates_spec cl r pb :
  client_gates cl r pb = None ->
  let nr := IOC_NR (q_cmd (rq r)) in let psize := q_psize (rq r) in
  (nr = NV_ESC_RM_CONTROL -> ctrl_gate psize (rq_asize r) pb = None) /\
  (nr = NV_ESC_RM_DUP_OBJECT -> dup_gate (cl 0%nat) psize pb = None) /\
  hclient_gate (cl 1%nat) (cl 2%nat) nr psize pb = None.
Proof.
  unfold client_gates. cbv zeta. intros Hg.
  destruct (Z.eqb_spec (IOC_NR (q_cmd (rq r))) NV_ESC_RM_CONTROL);
    destruct (Z.eqb_spec (IOC_NR (q_cmd (rq r))) NV_ESC_RM_DUP_OBJECT);
    repeat match type of Hg with context [match ?x with _ => _ end] => destruct x eqn:?; try done end; done.
Qed.

(** C11: mediation of RM commands: what a frontend command that reaches an isolate
    satisfies, whatever the guest sent.  Its number is on the list.  RM_ALLOC carries a
    listed class.  RM_ALLOC_MEMORY of class 0x71 and the heap function 27, which describe
    memory by address, carry an address range the host itself installed in that isolate
    (the recorded ranges lying in the address space); RM_ALLOC_MEMORY of any other class
    and the heap function 2 are forwarded as they came.  RM_CONTROL carries a command
    word that is not one answered locally and is listed or matches one of the two
    wildcards, and at most 1 MiB of parameters.  RM_DUP_OBJECT names as its source a client
    of this VM, no client (0) or the wildcard (0xffffffff).  And once the VM has a client,
    every command with a client in its first word names none, the wildcard, one of the
    VM's clients, or creates a client. *)
Theorem rm_chain_mediates d ht mm cl r pb :
  rm_chain d ht mm cl r = inr pb -> IOC_TYPE (q_cmd (rq r)) = TYPE_F -> mmap_inv mm -> req_ok (rq r) ->
  let nr := IOC_NR (q_cmd (rq r)) in
  nr ∈ nvkvm_fe_nr_allowlist /\
  (nr ∈ gated ->
   exists b b', q_pbuf (rq r) = Some b /\ pb = Some b' /\ payload_ok mm r (cl 0%nat) nr b b') /\
  (hclient_at_0 nr = true -> cl 1%nat <> [] ->
   exists b', pb = Some b' /\ 4 <= q_psize (rq r) /\
   (own_client (cl 2%nat) (rd 4 0 b') \/ is_root_alloc nr (q_psize (rq r)) b' = true)).
Proof.
  unfold rm_chain, rm_gates. intros Hc HF Hinv (_ & _ & Hbuf). cbv zeta.
  destruct (ioctl_gate d ht mm (rq_iso r) (rq r)) as [e|pb0] eqn:Eg; [done|].
  apply ioctl_gate_F in Eg as [Hin Hv]; [|done]. rewrite HF, Z.eqb_refl in Hc.
  destruct (alloc_gates mm r pb0) as [e|pb1] eqn:Ea; [done|].
  destruct (client_gates cl r pb1) eqn:Ec; [done|]. injection Hc as <-.
  apply client_gates_spec in Ec as (Hctl & Hdup & Hhc).
  split; [done|]. split; [|intros Hh Hne; by eapply hclient_gate_spec].
  set (nr := IOC_NR (q_cmd (rq r))) in *. intros Hnr. unfold payload_ok.
  destruct (Z.eqb_spec nr NV_ESC_RM_VID_HEAP_CONTROL) as [E4a|N4a].
  - apply alloc_gates_other in Ea as [-> _]; [|fold nr; by rewrite E4a].
    destruct (q_pbuf (rq r)) as [b|] eqn:Eb; [|done]. destruct (Hbuf b eq_refl) as [Hl Hby].
    rewrite E4a. cbn [Z.eqb NV_ESC_RM_VID_HEAP_CONTROL NV_ESC_RM_ALLOC_MEMORY Pos.eqb].
    destruct (vid_heap_gate_spec _ _ _ _ _ Hv Hinv Hl Hby) as [[? ->]|(H27 & Hp & sb & Hsb & -> & Hall)];
      (do 2 eexists; split; [done|]; split; [done|]); [by left|right]. split; [done|].
    by rewrite (rd_wr 8 64 sb b) by (try change (Z.of_nat 8) with 8; lia || done).
  - subst pb0. destruct (Z.eqb_spec nr NV_ESC_RM_ALLOC_MEMORY) as [E27|N27].
    + unfold alloc_gates in Ea. fold nr in Ea. rewrite E27, Z.eqb_refl in Ea.
      destruct (q_pbuf (rq r)) as [b|] eqn:Eb; [|done]. destruct (Hbuf b eq_refl) as [Hl Hby].
      destruct (osdesc_gate_spec _ _ _ _ _ Ea Hinv Hl Hby) as [Hp [[? ->]|(H71 & Hp' & sb & Hsb & -> & Hall)]];
        (do 2 eexists; split; [done|]; split; [done|]); [by left|right]. split; [done|].
      by rewrite (rd_wr 8 24 sb b) by (try change (Z.of_nat 8) with 8; lia || done).
    + apply alloc_gates_other in Ea as [-> Hcls]; [|exact N27]. fold nr in Hcls, Hctl, Hdup.
      assert (exists b, q_pbuf (rq r) = Some b) as [b Eb].
      { unfold gated in Hnr. rewrite !elem_of_cons in Hnr.
        destruct Hnr as [?|[E|[E|[E|[?|H]]]]]; [done| | | |done|by apply elem_of_nil in H].
        - destruct (Hcls E) as (b & Hb & _). by exists b.
        - apply Hctl, ctrl_gate_spec in E as (b & Hb & _). by exists b.
        - apply Hdup, dup_gate_spec in E as (b & Hb & _). by exists b. }
      exists b, b. split; [done|]. split; [done|]. split; [done|]. rewrite Eb in *. split_and!.
      * intros E. by destruct (Hcls E) as (? & [= <-] & _ & ?).
      * intros E. by apply Hctl, ctrl_gate_spec in E as (? & [= <-] & _ & ? & ?).
      * intros E. by apply Hdup, dup_gate_spec in E as (? & [= <-] & _ & ?).
Qed.

(** _IOWR('F', nr, 56 bytes). *)
Definition cmd_F (nr : Z) : Z := 3221225472 + 56 * 65536 + 17920 + nr.

(** Client 7 allocates memory described by the guest range [0x1000, 0x2000). *)
Definition demo_osdesc : list Z :=
  le_bytes 4 7 ++ replicate 8 0 ++ le_bytes 4 113 ++ replicate 8 0 ++
  le_bytes 8 4096 ++ le_bytes 8 4095 ++ replicate 16 0.
Definition demo_rreq (nr : Z) (b : list Z) : rreq := RReq (Req 3 (cmd_F nr) (arr_len b) (Some b)) 3 0 None.
Definition demo_run (cl : list Z) (nr : Z) (b : list Z) : refusal_rm + option (list Z) :=
  rm_chain (Dev false None None) demo_ht demo_state (fun _ => cl) (demo_rreq nr b).

Lemma bytes_ok b : forallb (fun c => (0 <=? c) && (c <? 256)) b = true -> Forall (fun c => 0 <= c < 256) b.
Proof.
  intros Hall. apply Forall_forall. intros x Hx%list_elem_of_In.
  apply (proj1 (forallb_forall _ _) Hall) in Hx. zb. lia.
Qed.

Lemma demo_rreq_ok nr b :
  forallb (fun c => (0 <=? c) && (c <? 256)) b = true -> arr_len b < W32 -> req_ok (rq (demo_rreq nr b)).
Proof.
  intros Hb Hl. split; [done|]. split; [split; [apply Nat2Z.is_nonneg|exact Hl]|].
  intros ? [= <-]. split; [done|by apply bytes_ok].
Qed.

Lemma rm_chain_mediates_witness :
  exists b', demo_run [7] 39 demo_osdesc = inr (Some b') /\ rd 8 24 b' = 1048576 /\
  exists b b'', Some demo_osdesc = Some b /\ Some b' = Some b'' /\
    payload_ok demo_state (demo_rreq 39 demo_osdesc) [7] 39 b b''.
Proof.
  exists (wr 24 (le_bytes 8 1048576) demo_osdesc).
  assert (demo_run [7] 39 demo_osdesc = inr (Some (wr 24 (le_bytes 8 1048576) demo_osdesc))) as E
    by (vm_compute; reflexivity).
  split; [exact E|]. split; [vm_compute; reflexivity|].
  apply (rm_chain_mediates _ _ _ _ _ _ E); [reflexivity|exact demo_state_inv|by apply demo_rreq_ok|].
  vm_compute. by left.
Defined.

(** *** What modelling showed *)

(** Client 0xc1d00042 belongs to somebody else.  As long as the VM has no client
    of its own the ownership gate is skipped, and the command passes. *)
Definition demo_foreign : list Z := le_bytes 4 3251634242 ++ le_bytes 4 0 ++ le_bytes 4 257 ++ replicate 20 0.
Lemma empty_set_skips_ownership :
  demo_run [] 42 demo_foreign = inr (Some demo_foreign) /\
  demo_run [7] 42 demo_foreign = inl (deny EACCES 31, Some demo_foreign).
Proof. vm_compute. auto. Qed.

(** The address of the isolate's window replaces the guest's pointer in the very
    buffer that is copied back to the guest, also when a later gate refuses. *)
Definition demo_leak : list Z :=
  le_bytes 4 3251634242 ++ replicate 4 0 ++ le_bytes 4 27 ++ replicate 52 0 ++ le_bytes 8 4096 ++ le_bytes 8 4095 ++
  replicate 8 0.
Lemma refusal_returns_window_address :
  match demo_run [7] 74 demo_leak with
  | inl (e, Some b) => e = deny EACCES 31 /\ rd 8 64 demo_leak = 4096 /\ rd 8 64 b = 1048576
  | _ => False
  end.
Proof. vm_compute. auto. Qed.

(** Seven rows of the table carry bit 15. *)
Lemma rows_with_bit15 :
  filter (fun c => Z.testbit c 15 = true) nvkvm_ctrl_allowlist =
  [545292633; 545292642; 545293614; 545293615; 545302034; 545302040; 545300689].
Proof. vm_compute. reflexivity. Qed.

End RmGates.
