(* ===== verification/Isolates.v ===== *)
(** * Isolates: the isolate table, relayed handles and the vblank budget

    Models the state QEMU keeps per isolate ([src/qemu/nvkvm_isolate.c],
    [nvkvm_isolate.h]): slots and their reuse, the list of handles relayed from other
    isolates, the ownership records of NVKMS vblank controls with their VM-wide
    budget, and the teardown that returns all of it.

    Isolates are created and killed by the thread that serves the request queue;
    relays and vblank requests run on pool workers.  Every critical section is one
    definition ([note_xrm], [vbl_take], ...), the functions of the source compose
    them with what other threads do in between ([mid]), and [istep] interleaves
    the sections of all threads. *)
From S2P Require Import Prelude.

Module Isolates.

Definition NVKVM_ISOLATE_MAX : Z := 4096.
Definition NVKVM_XRM_MAX : Z := 256.
Definition NVKVM_NVKMS_VBLANK_MAX : Z := 64.
Definition NVKVM_ISO_UID_SLOTS : Z := 4096.
Definition NVKVM_ISO_UID_BASE_MIN : Z := 65536.
Definition NVKVM_ISO_UID_BASE_MAX : Z := 4294901760 - NVKVM_ISO_UID_SLOTS.

(** ** State *)
Record nvkvm_xrm_handle := Xrm { x_hid : Z; x_gen : Z }.
Record nvkvm_nvkms_vblank := Vbl { v_res : Z; v_hid : Z; v_dev : Z; v_disp : Z; v_ctl : Z }.
Definition vbl0 : nvkvm_nvkms_vblank := Vbl 0 0 0 0 0.

#[export] Instance vbl_inhabited : Inhabited nvkvm_nvkms_vblank := populate vbl0.
#[export] Instance xrm_eq_dec : EqDecision nvkvm_xrm_handle.
Proof. solve_decision. Defined.

Record ring_info := RingInfo {
  rg_memfd : Z; rg_qva : Z; rg_region : Z; rg_bytes : Z; rg_gpa : Z; rg_slot : Z; rg_ready : bool
}.

Record nvkvm_isolate := Iso {
  i_id : Z; i_session : Z; i_pid : Z; i_sock : Z; i_alive : bool; i_in_use : bool;
  i_uid : Z; i_txn : Z; i_open_fd : Z; i_present_fd : Z; i_ring : ring_info;
  i_xrm : list nvkvm_xrm_handle; i_accepting : bool;
  i_vbl : list nvkvm_nvkms_vblank; i_seq : Z
}.

Definition vbl_clear : list nvkvm_nvkms_vblank := replicate 64 vbl0.
Definition iso0 : nvkvm_isolate :=
  Iso 0 0 0 (-1) false false 0 0 (-1) (-1) (RingInfo (-1) 0 0 0 0 (-1) false) [] false vbl_clear 0.

(** The array of [NVKVM_ISOLATE_MAX] slots; a slot never written is [iso0]. *)
Record nvkvm_isolate_table := ITbl {
  isolates : gmap Z nvkvm_isolate; next_id : Z; nvkms_vblank_total : Z
}.
Definition nvkvm_isolate_table_init : nvkvm_isolate_table := ITbl ∅ 1 0.

Definition iso_at (t : nvkvm_isolate_table) (id : Z) : nvkvm_isolate := default iso0 (isolates t !! id).
Definition set_iso (t : nvkvm_isolate_table) (id : Z) (i : nvkvm_isolate) : nvkvm_isolate_table :=
  ITbl (<[id := i]> (isolates t)) (next_id t) (nvkms_vblank_total t).
Definition set_total (t : nvkvm_isolate_table) (n : Z) : nvkvm_isolate_table :=
  ITbl (isolates t) (next_id t) n.

Definition bad_iso (id : Z) : bool := (id =? 0) || (NVKVM_ISOLATE_MAX <=? id).
Definition mine (id : Z) (i : nvkvm_isolate) : bool := i_in_use i && (i_id i =? id).

Definition with_xrm (i : nvkvm_isolate) (l : list nvkvm_xrm_handle) : nvkvm_isolate :=
  Iso (i_id i) (i_session i) (i_pid i) (i_sock i) (i_alive i) (i_in_use i) (i_uid i) (i_txn i) (i_open_fd i)
    (i_present_fd i) (i_ring i) l (i_accepting i) (i_vbl i) (i_seq i).
Definition with_vbl (i : nvkvm_isolate) (l : list nvkvm_nvkms_vblank) (seq : Z) : nvkvm_isolate :=
  Iso (i_id i) (i_session i) (i_pid i) (i_sock i) (i_alive i) (i_in_use i) (i_uid i) (i_txn i) (i_open_fd i)
    (i_present_fd i) (i_ring i) (i_xrm i) (i_accepting i) l seq.
Definition with_accepting (i : nvkvm_isolate) (b : bool) : nvkvm_isolate :=
  Iso (i_id i) (i_session i) (i_pid i) (i_sock i) (i_alive i) (i_in_use i) (i_uid i) (i_txn i) (i_open_fd i)
    (i_present_fd i) (i_ring i) (i_xrm i) b (i_vbl i) (i_seq i).
Definition with_alive (i : nvkvm_isolate) (b : bool) : nvkvm_isolate :=
  Iso (i_id i) (i_session i) (i_pid i) (i_sock i) b (i_in_use i) (i_uid i) (i_txn i) (i_open_fd i)
    (i_present_fd i) (i_ring i) (i_xrm i) (i_accepting i) (i_vbl i) (i_seq i).
Definition with_in_use (i : nvkvm_isolate) (b : bool) : nvkvm_isolate :=
  Iso (i_id i) (i_session i) (i_pid i) (i_sock i) (i_alive i) b (i_uid i) (i_txn i) (i_open_fd i)
    (i_present_fd i) (i_ring i) (i_xrm i) (i_accepting i) (i_vbl i) (i_seq i).

(** ** Slots *)

(** The assignments of [alloc_isolate_slot] to the slot it claims. *)
Definition claim (i : nvkvm_isolate) (id : Z) : nvkvm_isolate :=
  Iso id (i_session i) (i_pid i) (-1) false true 0 1 (-1) (-1) (RingInfo (-1) 0 0 0 0 (-1) false)
    [] true vbl_clear 1.

Definition fd_opt (fd : Z) : list Z := if 0 <=? fd then [fd] else [].

(** Returns the claimed id and the descriptors closed on the way. *)
Fixpoint slot_loop (n : nat) (t : nvkvm_isolate_table) : nvkvm_isolate_table * option (Z * list Z) :=
  match n with
  | O => (t, None)
  | S n' =>
      let id := next_id t in
      let nx := if NVKVM_ISOLATE_MAX <=? id + 1 then 1 else id + 1 in
      let t1 := ITbl (isolates t) nx (nvkms_vblank_total t) in
      if id =? 0 then slot_loop n' t1
      else
        let i := iso_at t id in
        if negb (i_in_use i)
        then (set_iso t1 id (claim i id), Some (id, fd_opt (i_open_fd i) ++ fd_opt (i_present_fd i)))
        else slot_loop n' t1
  end.
Definition alloc_isolate_slot (t : nvkvm_isolate_table) : nvkvm_isolate_table * option (Z * list Z) :=
  slot_loop (Z.to_nat NVKVM_ISOLATE_MAX) t.

(** The uid of a slot, and the check that no live isolate holds it. *)
Definition nvkvm_iso_uid_for_slot (base slot : Z) : option Z :=
  if NVKVM_ISO_UID_SLOTS <=? slot then None
  else if (base <? NVKVM_ISO_UID_BASE_MIN) || (NVKVM_ISO_UID_BASE_MAX <? base) then None
  else Some (u32 (base + slot)).

Definition uid_taken (t : nvkvm_isolate_table) (id uid : Z) : bool :=
  existsb (fun k => negb (k =? id) && i_in_use (iso_at t k) && (i_uid (iso_at t k) =? uid))
    (map Z.of_nat (seq 0 (Z.to_nat NVKVM_ISOLATE_MAX))).

Definition with_uid (i : nvkvm_isolate) (uid : Z) : nvkvm_isolate :=
  Iso (i_id i) (i_session i) (i_pid i) (i_sock i) (i_alive i) (i_in_use i) uid (i_txn i) (i_open_fd i)
    (i_present_fd i) (i_ring i) (i_xrm i) (i_accepting i) (i_vbl i) (i_seq i).

(** [use_uid]: the window's base, [None] when the mode is off. *)
Definition assign_uid (use_uid : option Z) (t : nvkvm_isolate_table) (id : Z) : nvkvm_isolate_table * Z :=
  match use_uid with
  | None => (t, 0)
  | Some base =>
      match nvkvm_iso_uid_for_slot base (id mod NVKVM_ISOLATE_MAX) with
      | None => (set_iso t id (with_in_use (iso_at t id) false), - ERANGE)
      | Some uid =>
          if uid_taken t id uid then (set_iso t id (with_in_use (iso_at t id) false), - 98)
          else (set_iso t id (with_uid (iso_at t id) uid), 0)
      end
  end.

(** What the rest of [nvkvm_isolate_create] does to the slot, once the stub runs. *)
Definition created (i : nvkvm_isolate) (pid sock : Z) : nvkvm_isolate :=
  Iso (i_id i) (i_session i) pid sock true (i_in_use i) (i_uid i) (i_txn i) (i_open_fd i)
    (i_present_fd i) (i_ring i) (i_xrm i) (i_accepting i) (i_vbl i) (i_seq i).
Definition with_session (i : nvkvm_isolate) (s : Z) : nvkvm_isolate :=
  Iso (i_id i) s (i_pid i) (i_sock i) (i_alive i) (i_in_use i) (i_uid i) (i_txn i) (i_open_fd i)
    (i_present_fd i) (i_ring i) (i_xrm i) (i_accepting i) (i_vbl i) (i_seq i).

Definition nvkvm_isolate_host_pid (t : nvkvm_isolate_table) (id : Z) : Z :=
  if bad_iso id then 0
  else let i := iso_at t id in if mine id i && i_alive i then i_pid i else 0.

(** ** Handles relayed from other isolates *)
Definition note_xrm (id hid : Z) (i : nvkvm_isolate) : nvkvm_isolate * bool :=
  if mine id i then
    let present := existsb (fun x => x_hid x =? hid) (i_xrm i) in
    if negb (i_accepting i) then (i, true)
    else if present then (i, true)
    else if arr_len (i_xrm i) <? NVKVM_XRM_MAX then (with_xrm i (i_xrm i ++ [Xrm hid 0]), false)
    else (i, true)
  else (i, true).

Definition finalize_xrm (id hid gen : Z) (i : nvkvm_isolate) : nvkvm_isolate * bool :=
  if mine id i && i_accepting i then
    match find_idx (fun x => (x_hid x =? hid) && (x_gen x =? 0)) (i_xrm i) with
    | Some k => (with_xrm i (<[k := Xrm hid gen]> (i_xrm i)), true)
    | None => (i, false)
    end
  else (i, false).

(** The generation of the forgotten record, [None] if there was none. *)
Definition forget_xrm (id hid : Z) (i : nvkvm_isolate) : nvkvm_isolate * option Z :=
  if mine id i then
    match find_idx (fun x => x_hid x =? hid) (i_xrm i) with
    | Some k => (with_xrm i (swap_remove (i_xrm i) k), x_gen <$> i_xrm i !! k)
    | None => (i, None)
    end
  else (i, None).

Definition on_iso {A} (t : nvkvm_isolate_table) (id : Z) (f : nvkvm_isolate -> nvkvm_isolate * A)
    : nvkvm_isolate_table * A :=
  let '(i, r) := f (iso_at t id) in (set_iso t id i, r).

Definition nvkvm_isolate_note_foreign_handle (t : nvkvm_isolate_table) (id hid : Z) : nvkvm_isolate_table * bool :=
  if bad_iso id then (t, true) else on_iso t id (note_xrm id hid).
Definition nvkvm_isolate_finalize_foreign_handle (t : nvkvm_isolate_table) (id hid gen : Z)
    : nvkvm_isolate_table * bool :=
  if bad_iso id || (gen =? 0) then (t, false) else on_iso t id (finalize_xrm id hid gen).
Definition nvkvm_isolate_forget_foreign_handle (t : nvkvm_isolate_table) (id hid : Z)
    : nvkvm_isolate_table * option Z :=
  if bad_iso id then (t, None) else on_iso t id (forget_xrm id hid).

(** ** The vblank budget *)
Definition nvkvm_nvkms_vblank_release (t : nvkvm_isolate_table) (count : Z) : nvkvm_isolate_table :=
  if count =? 0 then t
  else set_total t (if count <=? nvkms_vblank_total t then nvkms_vblank_total t - count else 0).

Definition vbl_take (t : nvkvm_isolate_table) : option nvkvm_isolate_table :=
  if NVKVM_NVKMS_VBLANK_MAX <=? nvkms_vblank_total t then None
  else Some (set_total t (nvkms_vblank_total t + 1)).

Definition vbl_record (id hid : Z) (i : nvkvm_isolate) : nvkvm_isolate * Z :=
  if mine id i && i_accepting i then
    match find_idx (fun v => v_res v =? 0) (i_vbl i) with
    | None => (i, 0)
    | Some k =>
        let r := i_seq i in
        let '(r, seq) := if r =? 0 then (u64 (r + 1), u64 (u64 (r + 1) + 1)) else (r, u64 (r + 1)) in
        (with_vbl i (<[k := Vbl r hid 0 0 0]> (i_vbl i)) seq, r)
    end
  else (i, 0).

Definition vbl_finish (id res : Z) (success : bool) (dev disp ctl : Z) (i : nvkvm_isolate) : nvkvm_isolate * bool :=
  if mine id i then
    match find_idx (fun v => v_res v =? res) (i_vbl i) with
    | None => (i, false)
    | Some k =>
        if negb success || (ctl =? 0) then (with_vbl i (<[k := vbl0]> (i_vbl i)) (i_seq i), true)
        else
          let v := i_vbl i !!! k in
          (with_vbl i (<[k := Vbl (v_res v) (v_hid v) dev disp ctl]> (i_vbl i)) (i_seq i), false)
    end
  else (i, false).

Definition vbl_match (hid dev disp ctl : Z) (v : nvkvm_nvkms_vblank) : bool :=
  negb (v_res v =? 0) && negb (v_ctl v =? 0) && (v_hid v =? hid) && (v_dev v =? dev) &&
  (v_disp v =? disp) && (v_ctl v =? ctl).

Definition vbl_retire (id hid dev disp ctl : Z) (i : nvkvm_isolate) : nvkvm_isolate * bool :=
  if mine id i then
    match find_idx (vbl_match hid dev disp ctl) (i_vbl i) with
    | None => (i, false)
    | Some k => (with_vbl i (<[k := vbl0]> (i_vbl i)) (i_seq i), true)
    end
  else (i, false).

Definition vbl_used (v : nvkvm_nvkms_vblank) : bool := negb (v_res v =? 0).
Definition vbl_of (hid : Z) (v : nvkvm_nvkms_vblank) : bool := vbl_used v && (v_hid v =? hid).

Definition vbl_purge (id hid : Z) (i : nvkvm_isolate) : nvkvm_isolate * Z :=
  if mine id i then
    (with_vbl i (map (fun v => if vbl_of hid v then vbl0 else v) (i_vbl i)) (i_seq i),
     count_if (vbl_of hid) (i_vbl i))
  else (i, 0).

(** [mid]: what the other threads do to the table between two critical sections. *)
Definition nvkvm_isolate_nvkms_vblank_reserve (mid : nat -> nvkvm_isolate_table -> nvkvm_isolate_table)
    (t : nvkvm_isolate_table) (id hid : Z) : nvkvm_isolate_table * Z :=
  if bad_iso id then (t, 0)
  else
    match vbl_take t with
    | None => (t, 0)
    | Some t1 =>
        let '(t2, r) := on_iso (mid 0%nat t1) id (vbl_record id hid) in
        (if r =? 0 then nvkvm_nvkms_vblank_release (mid 1%nat t2) 1 else t2, r)
    end.

Definition nvkvm_isolate_nvkms_vblank_finish (mid : nat -> nvkvm_isolate_table -> nvkvm_isolate_table)
    (t : nvkvm_isolate_table) (id res : Z) (success : bool) (dev disp ctl : Z) : nvkvm_isolate_table :=
  if bad_iso id || (res =? 0) then t
  else
    let '(t1, rel) := on_iso t id (vbl_finish id res success dev disp ctl) in
    if rel then nvkvm_nvkms_vblank_release (mid 0%nat t1) 1 else t1.

Definition nvkvm_isolate_nvkms_vblank_retire (mid : nat -> nvkvm_isolate_table -> nvkvm_isolate_table)
    (t : nvkvm_isolate_table) (id hid dev disp ctl : Z) : nvkvm_isolate_table :=
  if bad_iso id || (ctl =? 0) then t
  else
    let '(t1, rel) := on_iso t id (vbl_retire id hid dev disp ctl) in
    if rel then nvkvm_nvkms_vblank_release (mid 0%nat t1) 1 else t1.

Definition nvkvm_isolate_nvkms_vblank_purge_handle (mid : nat -> nvkvm_isolate_table -> nvkvm_isolate_table)
    (t : nvkvm_isolate_table) (id hid : Z) : nvkvm_isolate_table :=
  if bad_iso id then t
  else
    let '(t1, n) := on_iso t id (vbl_purge id hid) in
    nvkvm_nvkms_vblank_release (mid 0%nat t1) n.

(** ** Teardown *)

(** The critical sections of [nvkvm_isolate_kill]. *)
Definition kill_begin (id : Z) (i : nvkvm_isolate) : option nvkvm_isolate :=
  if mine id i then Some (with_alive i false) else None.
Definition kill_stop (i : nvkvm_isolate) : nvkvm_isolate := with_accepting i false.
(** The socket is claimed under [write_lock], closed after the reader is joined. *)
Definition kill_sock (i : nvkvm_isolate) : nvkvm_isolate * Z :=
  (Iso (i_id i) (i_session i) (i_pid i) (-1) (i_alive i) (i_in_use i) (i_uid i) (i_txn i) (i_open_fd i)
     (i_present_fd i) (i_ring i) (i_xrm i) (i_accepting i) (i_vbl i) (i_seq i), i_sock i).
Definition kill_drain (i : nvkvm_isolate) : nvkvm_isolate * (list nvkvm_xrm_handle * Z) :=
  (with_vbl (with_xrm i []) vbl_clear (i_seq i), (i_xrm i, count_if vbl_used (i_vbl i))).
Definition kill_end (i : nvkvm_isolate) : nvkvm_isolate * ring_info :=
  let r := i_ring i in
  (Iso (i_id i) (i_session i) 0 (i_sock i) (i_alive i) false 0 (i_txn i) (i_open_fd i) (i_present_fd i)
     (RingInfo (-1) 0 (rg_region r) (rg_bytes r) 0 (-1) false) (i_xrm i) (i_accepting i) (i_vbl i) (i_seq i), r).

(** The references a drained list owes: one per delivered relay. *)
Definition owed_refs (l : list nvkvm_xrm_handle) : list nvkvm_xrm_handle :=
  List.filter (fun x => negb (x_gen x =? 0)) l.

Record killed := Killed { k_unref : list nvkvm_xrm_handle; k_ring : ring_info; k_close : list Z }.

Definition nvkvm_isolate_kill (mid : nat -> nvkvm_isolate_table -> nvkvm_isolate_table)
    (t : nvkvm_isolate_table) (id : Z) : nvkvm_isolate_table * (Z + killed) :=
  if bad_iso id then (t, inl (- ENOENT))
  else
    match kill_begin id (iso_at t id) with
    | None => (t, inl (- ENOENT))
    | Some i =>
        let t1 := mid 0%nat (set_iso t id i) in
        let t2 := mid 1%nat (set_iso t1 id (kill_stop (iso_at t1 id))) in
        let '(t3, sock) := on_iso t2 id kill_sock in
        let '(t4, (xrm, n)) := on_iso (mid 2%nat t3) id kill_drain in
        let t5 := mid 4%nat (nvkvm_nvkms_vblank_release (mid 3%nat t4) n) in
        let '(t6, rg) := on_iso t5 id kill_end in
        (t6, inr (Killed (owed_refs xrm) rg (fd_opt sock)))
    end.

(** [nvkvm_isolate_kill_session] and [nvkvm_isolate_table_fini]: every slot that passes [sel]. *)
Definition kill_each (sel : nvkvm_isolate -> bool) (t : nvkvm_isolate_table) : nvkvm_isolate_table :=
  fold_left (fun t k =>
    let i := iso_at t k in
    if i_in_use i && sel i then fst (nvkvm_isolate_kill (fun _ t => t) t (i_id i)) else t)
    (map Z.of_nat (seq 1 (Z.to_nat (NVKVM_ISOLATE_MAX - 1)))) t.
Definition nvkvm_isolate_kill_session (t : nvkvm_isolate_table) (session : Z) : nvkvm_isolate_table :=
  kill_each (fun i => i_session i =? session) t.
Definition nvkvm_isolate_table_fini (t : nvkvm_isolate_table) : nvkvm_isolate_table :=
  kill_each (fun _ => true) t.

(** ** All threads

    [tx] is where the request-queue thread is inside a creation or a teardown;
    [relays] are workers inside [nvkvm_xrm_materialise], [taken] workers that took a
    unit of the budget and have not recorded it, [owed] amounts that threads have
    still to return.  The log records the references on the handle table that
    the relay code takes and drops. *)
Inductive kstage := KBegun | KStopped | KSock | KDrained (l : list nvkvm_xrm_handle).
Inductive txst := TIdle | TCreating (id : Z) | TKill (id : Z) (k : kstage).
Inductive rstage := RNoted | RHeld (gen : Z) | RFailed.
Record relay := Relay { r_iso : Z; r_hid : Z; r_stage : rstage }.
Inductive rev := EAcq (hid gen : Z) | EUnref (hid gen : Z).

Record isys := ISys {
  s_tbl : nvkvm_isolate_table; s_tx : txst; s_relays : list relay;
  s_taken : list (Z * Z); s_owed : list Z; s_log : list rev
}.
Definition isys0 : isys := ISys nvkvm_isolate_table_init TIdle [] [] [] [].

Inductive iact :=
  | ACreate (session : Z) | AUid (use_uid : option Z) | ACreated (pid sock : Z) | ACreateFail
  | AKill (id : Z) | AKillNext
  | AVTake (id hid : Z) | AVRecord (k : nat)
  | AVFinish (id res : Z) (success : bool) (dev disp ctl : Z)
  | AVRetire (id hid dev disp ctl : Z) | AVPurge (id hid : Z) | ARelease (k : nat)
  | ANote (id hid : Z) | AAcquire (k : nat) (gen : Z) | ASendFail (k : nat)
  | AFinalize (k : nat) | AForget (k : nat) | AClose (id hid : Z).

Definition owe (n : Z) (s : isys) : isys :=
  ISys (s_tbl s) (s_tx s) (s_relays s) (s_taken s) (s_owed s ++ [n]) (s_log s).
Definition put_tbl (t : nvkvm_isolate_table) (s : isys) : isys :=
  ISys t (s_tx s) (s_relays s) (s_taken s) (s_owed s) (s_log s).
Definition put_tx (x : txst) (s : isys) : isys :=
  ISys (s_tbl s) x (s_relays s) (s_taken s) (s_owed s) (s_log s).
Definition put_relays (l : list relay) (s : isys) : isys :=
  ISys (s_tbl s) (s_tx s) l (s_taken s) (s_owed s) (s_log s).
Definition put_taken (l : list (Z * Z)) (s : isys) : isys :=
  ISys (s_tbl s) (s_tx s) (s_relays s) l (s_owed s) (s_log s).
Definition put_owed (l : list Z) (s : isys) : isys :=
  ISys (s_tbl s) (s_tx s) (s_relays s) (s_taken s) l (s_log s).
Definition log (e : list rev) (s : isys) : isys :=
  ISys (s_tbl s) (s_tx s) (s_relays s) (s_taken s) (s_owed s) (s_log s ++ e).

Definition unrefs (l : list nvkvm_xrm_handle) : list rev := map (fun x => EUnref (x_hid x) (x_gen x)) l.
Definition unref_gen (hid : Z) (o : option Z) : list rev :=
  match o with Some g => if g =? 0 then [] else [EUnref hid g] | None => [] end.

Definition tx_step (s : isys) (a : iact) : isys :=
  let t := s_tbl s in
  match a, s_tx s with
  | ACreate session, TIdle =>
      match alloc_isolate_slot t with
      | (t1, Some (id, _)) => put_tx (TCreating id) (put_tbl (set_iso t1 id (with_session (iso_at t1 id) session)) s)
      | (t1, None) => put_tbl t1 s
      end
  | AUid u, TCreating id =>
      let '(t1, rc) := assign_uid u t id in
      put_tx (if rc =? 0 then TCreating id else TIdle) (put_tbl t1 s)
  | ACreated pid sock, TCreating id => put_tx TIdle (put_tbl (set_iso t id (created (iso_at t id) pid sock)) s)
  | ACreateFail, TCreating id => put_tx TIdle (put_tbl (set_iso t id (with_in_use (iso_at t id) false)) s)
  | AKill id, TIdle =>
      if bad_iso id then s
      else
        match kill_begin id (iso_at t id) with
        | None => s
        | Some i => put_tx (TKill id KBegun) (put_tbl (set_iso t id i) s)
        end
  | AKillNext, TKill id KBegun => put_tx (TKill id KStopped) (put_tbl (set_iso t id (kill_stop (iso_at t id))) s)
  | AKillNext, TKill id KStopped => put_tx (TKill id KSock) (put_tbl (fst (on_iso t id kill_sock)) s)
  | AKillNext, TKill id KSock =>
      let '(t1, (l, n)) := on_iso t id kill_drain in put_tx (TKill id (KDrained (owed_refs l))) (owe n (put_tbl t1 s))
  | AKillNext, TKill id (KDrained l) =>
      log (unrefs l) (put_tx TIdle (put_tbl (fst (on_iso t id kill_end)) s))
  | _, _ => s
  end.

Definition vbl_step (s : isys) (a : iact) : isys :=
  let t := s_tbl s in
  match a with
  | AVTake id hid =>
      if bad_iso id then s
      else match vbl_take t with None => s | Some t1 => put_taken (s_taken s ++ [(id, hid)]) (put_tbl t1 s) end
  | AVRecord k =>
      match s_taken s !! k with
      | None => s
      | Some (id, hid) =>
          let '(t1, r) := on_iso t id (vbl_record id hid) in
          let s1 := put_taken (delete k (s_taken s)) (put_tbl t1 s) in
          if r =? 0 then owe 1 s1 else s1
      end
  | AVFinish id res success dev disp ctl =>
      if bad_iso id || (res =? 0) then s
      else let '(t1, rel) := on_iso t id (vbl_finish id res success dev disp ctl) in owe (b2n rel) (put_tbl t1 s)
  | AVRetire id hid dev disp ctl =>
      if bad_iso id || (ctl =? 0) then s
      else let '(t1, rel) := on_iso t id (vbl_retire id hid dev disp ctl) in owe (b2n rel) (put_tbl t1 s)
  | AVPurge id hid =>
      if bad_iso id then s
      else let '(t1, n) := on_iso t id (vbl_purge id hid) in owe n (put_tbl t1 s)
  | ARelease k =>
      match s_owed s !! k with
      | None => s
      | Some n => put_owed (delete k (s_owed s)) (put_tbl (nvkvm_nvkms_vblank_release t n) s)
      end
  | _ => s
  end.

Definition relay_step (s : isys) (a : iact) : isys :=
  let t := s_tbl s in
  match a with
  | ANote id hid =>
      let '(t1, present) := nvkvm_isolate_note_foreign_handle t id hid in
      if present then put_tbl t1 s
      else put_relays (s_relays s ++ [Relay id hid RNoted]) (put_tbl t1 s)
  | AAcquire k g =>
      match s_relays s !! k with
      | Some (Relay id hid RNoted) =>
          log [EAcq hid g] (put_relays (<[k := Relay id hid (RHeld g)]> (s_relays s)) s)
      | _ => s
      end
  | ASendFail k =>
      match s_relays s !! k with
      | Some (Relay id hid RNoted) => put_relays (<[k := Relay id hid RFailed]> (s_relays s)) s
      | Some (Relay id hid (RHeld g)) =>
          log [EUnref hid g] (put_relays (<[k := Relay id hid RFailed]> (s_relays s)) s)
      | _ => s
      end
  | AFinalize k =>
      match s_relays s !! k with
      | Some (Relay id hid (RHeld g)) =>
          let '(t1, found) := nvkvm_isolate_finalize_foreign_handle t id hid g in
          let s1 := put_relays (delete k (s_relays s)) (put_tbl t1 s) in
          if found then s1 else log [EUnref hid g] s1
      | _ => s
      end
  | AForget k =>
      match s_relays s !! k with
      | Some (Relay id hid RFailed) =>
          put_relays (delete k (s_relays s)) (put_tbl (fst (nvkvm_isolate_forget_foreign_handle t id hid)) s)
      | _ => s
      end
  | AClose id hid =>
      let '(t1, g) := nvkvm_isolate_forget_foreign_handle t id hid in
      log (unref_gen hid g) (put_tbl t1 s)
  | _ => s
  end.

Definition istep (s : isys) (a : iact) : isys :=
  match a with
  | ACreate _ | AUid _ | ACreated _ _ | ACreateFail | AKill _ | AKillNext => tx_step s a
  | AVTake _ _ | AVRecord _ | AVFinish _ _ _ _ _ _ | AVRetire _ _ _ _ _ | AVPurge _ _ | ARelease _ => vbl_step s a
  | _ => relay_step s a
  end.
Definition irun (acts : list iact) : isys := fold_left istep acts isys0.

(** ** Accounting *)
Definition occ (i : nvkvm_isolate) : Z := count_if vbl_used (i_vbl i).
Definition rec_is (h g : Z) (x : nvkvm_xrm_handle) : bool := (x_hid x =? h) && (x_gen x =? g).
Definition recs (h g : Z) (i : nvkvm_isolate) : Z := count_if (rec_is h g) (i_xrm i).
Definition held (h g : Z) (r : relay) : bool :=
  match r_stage r with RHeld g' => (r_hid r =? h) && (g' =? g) | _ => false end.
Definition pend (h g : Z) (x : txst) : Z :=
  match x with TKill _ (KDrained l) => count_if (rec_is h g) l | _ => 0 end.
Definition is_acq (h g : Z) (e : rev) : bool :=
  match e with EAcq h' g' => (h' =? h) && (g' =? g) | _ => false end.
Definition is_unref (h g : Z) (e : rev) : bool :=
  match e with EUnref h' g' => (h' =? h) && (g' =? g) | _ => false end.
Definition sumZ (l : list Z) : Z := foldr Z.add 0 l.

(** Units of the budget that are accounted for: recorded, taken, or to be returned. *)
Definition budget (s : isys) : Z :=
  msum occ (isolates (s_tbl s)) + Z.of_nat (length (s_taken s)) + sumZ (s_owed s).
(** References on generation [g] of handle [h] that somebody answers for. *)
Definition refs (h g : Z) (s : isys) : Z :=
  msum (recs h g) (isolates (s_tbl s)) + count_if (held h g) (s_relays s) + pend h g (s_tx s).
(** References the relay code has taken and not dropped. *)
Definition balance (h g : Z) (l : list rev) : Z := count_if (is_acq h g) l - count_if (is_unref h g) l.

Lemma occ0 : occ iso0 = 0. Proof. reflexivity. Qed.
Lemma recs0 h g : recs h g iso0 = 0. Proof. reflexivity. Qed.
Lemma occ_nonneg i : 0 <= occ i. Proof. apply count_if_nonneg. Qed.
Lemma recs_nonneg h g i : 0 <= recs h g i. Proof. apply count_if_nonneg. Qed.
Lemma sumZ_app l l' : sumZ (l ++ l') = sumZ l + sumZ l'.
Proof. unfold sumZ. induction l as [|x l IH]; simpl; lia. Qed.
Lemma sumZ_delete l k n : l !! k = Some n -> sumZ (delete k l) = sumZ l - n.
Proof.
  revert k. unfold sumZ. induction l as [|x l IH]; intros [|k] Hk; simpl in *; [done..|injection Hk as ->; lia|].
  rewrite IH by done. lia.
Qed.
Lemma sumZ_nonneg l : Forall (Z.le 0) l -> 0 <= sumZ l.
Proof. unfold sumZ. induction 1; simpl; lia. Qed.

Lemma iso_at_set t id i k : iso_at (set_iso t id i) k = if decide (id = k) then i else iso_at t k.
Proof.
  unfold iso_at, set_iso. simpl. case_decide; [subst; by rewrite lookup_insert_eq|by rewrite lookup_insert_ne].
Qed.

Lemma msum_set f t id i :
  f iso0 = 0 -> msum f (isolates (set_iso t id i)) = msum f (isolates t) - f (iso_at t id) + f i.
Proof. intros. unfold set_iso. simpl. by apply msum_insert. Qed.

(** Each critical section: what it does to the two kinds of records. *)
Definition core (i : nvkvm_isolate) : Z * bool * bool * Z := (i_id i, i_in_use i, i_accepting i, i_uid i).
Definition quiet (i : nvkvm_isolate) : Prop := occ i = 0 /\ i_xrm i = [].
Definition shut (i : nvkvm_isolate) : Prop := i_accepting i = false \/ i_in_use i = false.

(** A section of a worker: it leaves the identity of the slot alone, and adds no
    record to one that is shut. *)
Record worker_ok (i i' : nvkvm_isolate) : Prop := {
  wk_core : core i' = core i;
  wk_quiet : shut i -> quiet i -> quiet i'
}.

Lemma shut_not_mine id i : shut i -> mine id i && i_accepting i = false.
Proof. unfold mine. intros [H|H]; rewrite H; [by rewrite andb_false_r|done]. Qed.

Lemma vbl_record_spec id hid i i' r :
  vbl_record id hid i = (i', r) -> i_xrm i' = i_xrm i /\ occ i' = occ i + (if r =? 0 then 0 else 1) /\ worker_ok i i'.
Proof.
  unfold vbl_record. destruct (mine id i && i_accepting i) eqn:Em.
  2: { intros [= <- <-]. split_and!; [done|simpl; lia|by split]. }
  assert (~ shut i) as Hs by (intros Hs%(shut_not_mine id); congruence).
  destruct (find_idx _ _) as [k|] eqn:Ef; [|intros [= <- <-]; split_and!; [done|simpl; lia|by split]].
  apply find_idx_Some in Ef as (v & Hk & Hv & _). zb.
  assert (exists r' q, (if i_seq i =? 0 then (u64 (i_seq i + 1), u64 (u64 (i_seq i + 1) + 1)) else (i_seq i, u64 (i_seq i + 1)))
    = (r', q) /\ r' <> 0) as (r' & q & -> & Hr).
  { destruct (Z.eqb_spec (i_seq i) 0) as [->|]; do 2 eexists; (split; [done|]); [vm_compute|]; done. }
  intros [= <- <-]. rewrite (proj2 (Z.eqb_neq _ _) Hr). split_and!; [done| |by split].
  unfold occ. simpl. rewrite (count_if_insert _ _ _ _ _ Hk).
  unfold vbl_used. rewrite Hv. simpl. rewrite (proj2 (Z.eqb_neq _ _) Hr). simpl. lia.
Qed.

(** Clearing one used record. *)
Lemma occ_clear i k v seq :
  i_vbl i !! k = Some v -> v_res v <> 0 -> occ (with_vbl i (<[k := vbl0]> (i_vbl i)) seq) = occ i - 1.
Proof.
  intros Hk Hv. unfold occ. simpl. rewrite (count_if_insert _ _ _ _ _ Hk).
  unfold vbl_used. rewrite (proj2 (Z.eqb_neq _ _) Hv). simpl. lia.
Qed.

Lemma worker_shrink i i' :
  core i' = core i -> i_xrm i' = i_xrm i -> occ i' <= occ i -> worker_ok i i'.
Proof.
  intros Hc Hx Ho. split; [done|]. intros _ [Hq1 Hq2]. split; [pose proof (occ_nonneg i'); lia|congruence].
Qed.

Lemma vbl_finish_spec id res ok dev disp ctl i i' rel :
  vbl_finish id res ok dev disp ctl i = (i', rel) -> res <> 0 ->
  i_xrm i' = i_xrm i /\ occ i' = occ i - b2n rel /\ worker_ok i i'.
Proof.
  intros Hf Hr. assert (core i' = core i /\ i_xrm i' = i_xrm i /\ occ i' = occ i - b2n rel) as (Hc & Hx & Ho).
  { revert Hf. unfold vbl_finish. destruct (mine id i); [|intros [= <- <-]; simpl; auto with lia].
    destruct (find_idx _ _) as [k|] eqn:Ef; [|intros [= <- <-]; simpl; auto with lia].
    apply find_idx_Some in Ef as (v & Hk & Hv & _). zb. subst res.
    destruct (negb ok || (ctl =? 0)); intros [= <- <-]; (split; [done|]; split; [done|]); simpl.
    - by apply (occ_clear _ _ v).
    - unfold occ. simpl. rewrite (count_if_insert _ _ _ _ _ Hk), (list_lookup_total_correct _ _ _ Hk).
      unfold vbl_used. simpl. lia. }
  split_and!; auto. apply worker_shrink; auto. pose proof (b2n_range rel). lia.
Qed.

Lemma vbl_retire_spec id hid dev disp ctl i i' rel :
  vbl_retire id hid dev disp ctl i = (i', rel) ->
  i_xrm i' = i_xrm i /\ occ i' = occ i - b2n rel /\ worker_ok i i'.
Proof.
  intros Hf. assert (core i' = core i /\ i_xrm i' = i_xrm i /\ occ i' = occ i - b2n rel) as (Hc & Hx & Ho).
  { revert Hf. unfold vbl_retire. destruct (mine id i); [|intros [= <- <-]; simpl; auto with lia].
    destruct (find_idx _ _) as [k|] eqn:Ef; [|intros [= <- <-]; simpl; auto with lia].
    apply find_idx_Some in Ef as (v & Hk & Hv & _). unfold vbl_match in Hv. zb.
    intros [= <- <-]. split; [done|]. split; [done|]. by apply (occ_clear _ _ v). }
  split_and!; auto. apply worker_shrink; auto. pose proof (b2n_range rel). lia.
Qed.

Lemma vbl_purge_spec id hid i i' n :
  vbl_purge id hid i = (i', n) -> i_xrm i' = i_xrm i /\ occ i' = occ i - n /\ 0 <= n /\ worker_ok i i'.
Proof.
  intros Hf. assert (core i' = core i /\ i_xrm i' = i_xrm i /\ occ i' = occ i - n /\ 0 <= n) as (Hc & Hx & Ho & Hn).
  { revert Hf. unfold vbl_purge. destruct (mine id i); [|intros [= <- <-]; simpl; auto with lia].
    intros [= <- <-]. split_and!; [done|done| |apply count_if_nonneg]. unfold occ. simpl.
    induction (i_vbl i) as [|v l IH]; [done|]. simpl. rewrite !count_if_cons, IH.
    unfold vbl_of. destruct (vbl_used v) eqn:Eu; simpl; [|rewrite Eu; simpl; lia].
    destruct (v_hid v =? hid); simpl; rewrite ?Eu; simpl; lia. }
  split_and!; auto. apply worker_shrink; auto. lia.
Qed.

(** A reservation counts for no generation. *)
Lemma rec_is_reserved h g x : x_gen x = 0 -> g <> 0 -> rec_is h g x = false.
Proof. unfold rec_is. intros -> Hg. rewrite (proj2 (Z.eqb_neq 0 g)) by lia. apply andb_false_r. Qed.

Lemma note_xrm_spec id hid i i' p h g :
  note_xrm id hid i = (i', p) -> g <> 0 -> occ i' = occ i /\ recs h g i' = recs h g i /\ worker_ok i i'.
Proof.
  unfold note_xrm. intros Hf Hg. destruct (mine id i) eqn:Em; [|injection Hf as <- <-; by split_and!].
  destruct (i_accepting i) eqn:Ea; [|injection Hf as <- <-; by split_and!]. simpl in Hf.
  case_if_in Hf; [injection Hf as <- <-; by split_and!|].
  case_if_in Hf; injection Hf as <- <-; [|by split_and!]. split; [done|]. split.
  - unfold recs. cbn [i_xrm with_xrm]. rewrite count_if_app, count_if_cons, (rec_is_reserved h g (Xrm hid 0)) by done.
    change (count_if _ []) with 0. simpl. lia.
  - split; [done|]. intros Hs. apply (shut_not_mine id) in Hs. by rewrite Em, Ea in Hs.
Qed.

Lemma finalize_xrm_spec id hid gen i i' found h g :
  finalize_xrm id hid gen i = (i', found) -> g <> 0 ->
  occ i' = occ i /\ recs h g i' = recs h g i + b2n (found && (hid =? h) && (gen =? g)) /\ worker_ok i i'.
Proof.
  unfold finalize_xrm. intros Hf Hg. destruct (mine id i && i_accepting i) eqn:Em.
  2: { injection Hf as <- <-. split_and!; [done|simpl; lia|done]. }
  destruct (find_idx _ _) as [k|] eqn:Ef; injection Hf as <- <-; [|split_and!; [done|simpl; lia|done]].
  assert (~ shut i) as Hs by (intros Hs%(shut_not_mine id); congruence).
  apply find_idx_Some in Ef as (x & Hk & Hx & _). zb. split; [done|]. split; [|by split].
  - unfold recs. cbn [i_xrm with_xrm]. rewrite (count_if_insert _ _ _ _ _ Hk), (rec_is_reserved h g x) by done.
    unfold rec_is. simpl. lia.
Qed.

Lemma forget_xrm_spec id hid i i' o h g :
  forget_xrm id hid i = (i', o) ->
  occ i' = occ i /\
  recs h g i' = recs h g i - b2n (match o with Some g' => (hid =? h) && (g' =? g) | None => false end) /\ worker_ok i i'.
Proof.
  unfold forget_xrm. intros Hf. destruct (mine id i) eqn:Em.
  2: { injection Hf as <- <-. split_and!; [done|simpl; lia|done]. }
  destruct (find_idx _ _) as [k|] eqn:Ef; injection Hf as <- <-; [|split_and!; [done|simpl; lia|done]].
  apply find_idx_Some in Ef as (x & Hk & Hx & _). zb. rewrite Hk. simpl. split; [done|]. split.
  - unfold recs. cbn [i_xrm with_xrm]. rewrite (count_if_swap_remove _ _ _ _ Hk). unfold rec_is. by rewrite Hx.
  - split; [done|]. intros _ [_ Hq]. rewrite Hq in Hk. done.
Qed.

Lemma slot_loop_spec n t t' o :
  slot_loop n t = (t', o) ->
  nvkms_vblank_total t' = nvkms_vblank_total t /\
  match o with
  | None => isolates t' = isolates t
  | Some (id, _) => id <> 0 /\ i_in_use (iso_at t id) = false /\ isolates t' = <[id := claim (iso_at t id) id]> (isolates t)
  end.
Proof.
  revert t. induction n as [|n IH]; intros t; cbn [slot_loop]; [by intros [= <- <-]|].
  set (t1 := ITbl _ _ _). destruct (Z.eqb_spec (next_id t) 0).
  { intros [Ht Ho]%IH. split; [done|]. by destruct o as [[id ?]|]. }
  destruct (i_in_use (iso_at t (next_id t))) eqn:Eu; simpl.
  - intros [Ht Ho]%IH. split; [done|]. by destruct o as [[id ?]|].
  - intros [= <- <-]. by split_and!.
Qed.

Lemma budget_tbl s t' id i' :
  isolates t' = <[id := i']> (isolates (s_tbl s)) ->
  budget (put_tbl t' s) = budget s - occ (iso_at (s_tbl s) id) + occ i'.
Proof.
  intros E. unfold budget. cbn [put_tbl s_tbl s_taken s_owed]. rewrite E.
  rewrite (msum_insert _ _ _ _ iso0 occ0). unfold iso_at. lia.
Qed.

Lemma refs_tbl h g s t' id i' :
  isolates t' = <[id := i']> (isolates (s_tbl s)) ->
  refs h g (put_tbl t' s) = refs h g s - recs h g (iso_at (s_tbl s) id) + recs h g i'.
Proof.
  intros E. unfold refs. cbn [put_tbl s_tbl s_relays s_tx]. rewrite E.
  rewrite (msum_insert _ _ _ _ iso0 (recs0 h g)). unfold iso_at. lia.
Qed.

Lemma budget_owe n s : budget (owe n s) = budget s + n.
Proof. unfold budget, owe. simpl. rewrite sumZ_app. simpl. lia. Qed.

Lemma balance_app h g l l' : balance h g (l ++ l') = balance h g l + balance h g l'.
Proof. unfold balance. rewrite !count_if_app. lia. Qed.

Lemma balance_unrefs h g l : balance h g (unrefs l) = - count_if (rec_is h g) l.
Proof.
  unfold balance, unrefs. induction l as [|x l IH]; [done|]. simpl. rewrite !count_if_cons. simpl.
  unfold rec_is at 1. lia.
Qed.

Lemma owed_refs_count h g l : g <> 0 -> count_if (rec_is h g) (owed_refs l) = count_if (rec_is h g) l.
Proof.
  intros Hg. unfold owed_refs. induction l as [|x l IH]; [done|]. simpl. rewrite count_if_cons.
  destruct (Z.eqb_spec (x_gen x) 0); simpl; [rewrite rec_is_reserved by done; simpl; lia|].
  rewrite count_if_cons. lia.
Qed.

Lemma balance_1 h g e : balance h g [e] = b2n (is_acq h g e) - b2n (is_unref h g e).
Proof. unfold balance. rewrite !count_if_cons. change (count_if _ []) with 0. lia. Qed.

(** *** Books *)

(** Units of the budget, and references, that nobody answers for. *)
Definition slack (s : isys) : Z := nvkms_vblank_total (s_tbl s) - budget s.
Definition rslack (h g : Z) (s : isys) : Z := balance h g (s_log s) - refs h g s.

(** The two places that lose records: a failed creation gives its slot up without
    draining it, and a failed relay drops whatever record the handle has by then. *)
Definition leak_free (s : isys) (a : iact) : Prop :=
  match a with
  | ACreateFail => match s_tx s with TCreating id => quiet (iso_at (s_tbl s) id) | _ => True end
  | AUid u =>
      match s_tx s with
      | TCreating id => snd (assign_uid u (s_tbl s) id) <> 0 -> quiet (iso_at (s_tbl s) id)
      | _ => True
      end
  | AForget k =>
      match s_relays s !! k with
      | Some (Relay id hid RFailed) => default 0 (snd (nvkvm_isolate_forget_foreign_handle (s_tbl s) id hid)) = 0
      | _ => True
      end
  | _ => True
  end.
Fixpoint leak_free_run (s : isys) (acts : list iact) : Prop :=
  match acts with [] => True | a :: r => leak_free s a /\ leak_free_run (istep s a) r end.

(** A step loses nothing if [P], and never gains. *)
Record keeps (P : Prop) (s s' : isys) : Prop := {
  kp_owed : Forall (Z.le 0) (s_owed s) -> Forall (Z.le 0) (s_owed s');
  kp_max : Forall (Z.le 0) (s_owed s) ->
    nvkms_vblank_total (s_tbl s) <= NVKVM_NVKMS_VBLANK_MAX -> nvkms_vblank_total (s_tbl s') <= NVKVM_NVKMS_VBLANK_MAX;
  kp_slack : Forall (Z.le 0) (s_owed s) -> 0 <= slack s -> slack s <= slack s' /\ (P -> slack s' = slack s);
  kp_refs : forall h g, g <> 0 -> rslack h g s <= rslack h g s' /\ (P -> rslack h g s' = rslack h g s)
}.

Lemma keeps_refl P s : keeps P s s.
Proof. split; auto with lia. Qed.

(** A step that rewrites one slot and moves to transaction state [x]. *)
Lemma keeps_slot (P : Prop) s t' x id i' :
  isolates t' = <[id := i']> (isolates (s_tbl s)) -> nvkms_vblank_total t' = nvkms_vblank_total (s_tbl s) ->
  (forall h g, pend h g x = pend h g (s_tx s)) ->
  occ i' <= occ (iso_at (s_tbl s) id) -> (forall h g, g <> 0 -> recs h g i' <= recs h g (iso_at (s_tbl s) id)) ->
  (P -> occ i' = occ (iso_at (s_tbl s) id) /\ forall h g, g <> 0 -> recs h g i' = recs h g (iso_at (s_tbl s) id)) ->
  keeps P s (put_tx x (put_tbl t' s)).
Proof.
  intros Ei Et Hp Ho Hr HP.
  assert (slack (put_tx x (put_tbl t' s)) = slack s + (occ (iso_at (s_tbl s) id) - occ i')) as Hsl.
  { unfold slack. change (budget (put_tx x (put_tbl t' s))) with (budget (put_tbl t' s)).
    rewrite (budget_tbl s t' id i') by done. simpl. lia. }
  split; [done|intros _; simpl; lia| |].
  - intros _ _. rewrite Hsl. split; [lia|]. intros [H _]%HP. lia.
  - intros h g Hg.
    assert (rslack h g (put_tx x (put_tbl t' s)) = rslack h g s + (recs h g (iso_at (s_tbl s) id) - recs h g i')) as ->.
    { unfold rslack. pose proof (refs_tbl h g s t' id i' Ei) as H. unfold refs in *. simpl in *. rewrite Hp. lia. }
    specialize (Hr h g Hg). split; [lia|]. intros [_ H]%HP. specialize (H h g Hg). lia.
Qed.

(** *** What always holds *)
Record iinv (s : isys) : Prop := {
  v_owed : Forall (Z.le 0) (s_owed s);
  v_max : nvkms_vblank_total (s_tbl s) <= NVKVM_NVKMS_VBLANK_MAX;
  v_slack : 0 <= slack s;
  v_refs : forall h g, g <> 0 -> 0 <= rslack h g s
}.

(** *** What holds as long as nothing is lost *)
Definition tx_quiet (t : nvkvm_isolate_table) (x : txst) : Prop :=
  match x with
  | TKill id KBegun => True
  | TKill id (KDrained _) => i_accepting (iso_at t id) = false /\ quiet (iso_at t id)
  | TKill id _ => i_accepting (iso_at t id) = false
  | _ => True
  end.
Record iclean (s : isys) : Prop := {
  c_slack : slack s = 0;
  c_refs : forall h g, g <> 0 -> rslack h g s = 0;
  c_quiet : forall id, i_in_use (iso_at (s_tbl s) id) = false -> quiet (iso_at (s_tbl s) id);
  c_tx : tx_quiet (s_tbl s) (s_tx s)
}.

Lemma quiet_worker t t' x id i' :
  isolates t' = <[id := i']> (isolates t) -> worker_ok (iso_at t id) i' ->
  (forall k, i_in_use (iso_at t k) = false -> quiet (iso_at t k)) -> tx_quiet t x ->
  (forall k, i_in_use (iso_at t' k) = false -> quiet (iso_at t' k)) /\ tx_quiet t' x.
Proof.
  intros Ei [Hc Hq] Ha Hx.
  assert (forall k, iso_at t' k = if decide (id = k) then i' else iso_at t k) as Hat.
  { intros k. unfold iso_at at 1. rewrite Ei. case_decide; [subst; by rewrite lookup_insert_eq|by rewrite lookup_insert_ne]. }
  injection Hc as Hid Hin Hacc _. split.
  - intros k. rewrite Hat. case_decide; [subst k|by apply Ha]. intros Hu. rewrite Hin in Hu.
    apply Hq; [by right|by apply Ha].
  - destruct x as [| |k st]; [done..|]. destruct st; simpl in *; [done| | |]; rewrite Hat; case_decide; subst; try done.
    + by rewrite Hacc.
    + by rewrite Hacc.
    + destruct Hx as [Hx1 Hx2]. split; [by rewrite Hacc|]. apply Hq; [by left|done].
Qed.

Definition idle_quiet (t : nvkvm_isolate_table) : Prop :=
  forall id, i_in_use (iso_at t id) = false -> quiet (iso_at t id).

Lemma recs_quiet h g i : quiet i -> recs h g i = 0.
Proof. intros [_ H]. unfold recs. by rewrite H. Qed.

Lemma put_tx_same s : put_tx (s_tx s) s = s.
Proof. by destruct s. Qed.

Lemma keeps_alloc P s t' o session :
  alloc_isolate_slot (s_tbl s) = (t', o) -> s_tx s = TIdle -> (P -> idle_quiet (s_tbl s)) ->
  keeps P s (match o with
             | Some (id, _) => put_tx (TCreating id) (put_tbl (set_iso t' id (with_session (iso_at t' id) session)) s)
             | None => put_tbl t' s
             end).
Proof.
  unfold alloc_isolate_slot. generalize (Z.to_nat NVKVM_ISOLATE_MAX). intros n Ha Hx HP.
  apply slot_loop_spec in Ha as [Ht Ho]. destruct o as [[id l]|].
  - destruct Ho as (_ & Hu & Ei). assert (iso_at t' id = claim (iso_at (s_tbl s) id) id) as Ec.
    { unfold iso_at at 1. by rewrite Ei, lookup_insert_eq. }
    apply (keeps_slot _ _ _ _ id (with_session (claim (iso_at (s_tbl s) id) id) session)).
    + rewrite Ec. unfold set_iso. simpl. by rewrite Ei, insert_insert_eq.
    + done.
    + intros h g. by rewrite Hx.
    + apply occ_nonneg.
    + intros h g _. apply recs_nonneg.
    + intros Hq%HP. specialize (Hq id Hu). split; [by destruct Hq as [-> _]|]. intros h g _. by rewrite (recs_quiet h g _ Hq).
  - split; [done|intros _; simpl; by rewrite Ht| |]; unfold slack, budget, rslack, refs; simpl; rewrite Ho, ?Ht; auto with lia.
Qed.

Lemma keeps_release_slot P s x id :
  (forall h g, pend h g x = pend h g (s_tx s)) ->
  keeps P s (put_tx x (put_tbl (set_iso (s_tbl s) id (with_in_use (iso_at (s_tbl s) id) false)) s)).
Proof. intros Hp. by eapply keeps_slot. Qed.

Lemma keeps_drain P s id :
  s_tx s = TKill id KSock -> keeps P s (tx_step s AKillNext).
Proof.
  intros Hx. unfold tx_step. rewrite Hx. unfold on_iso. simpl.
  set (i := iso_at (s_tbl s) id). set (i' := with_vbl _ _ _).
  set (s1 := put_tbl (set_iso (s_tbl s) id i') s).
  assert (occ i' = 0 /\ forall h g, recs h g i' = 0) as [Ho Hr] by done.
  split.
  - intros H. apply Forall_app. split; [done|]. constructor; [|constructor]. apply count_if_nonneg.
  - done.
  - intros _ _. assert (budget (owe (occ i) s1) = budget s) as E.
    { rewrite budget_owe. unfold s1. rewrite (budget_tbl s _ id i') by done. fold i. lia. }
    set (s' := put_tx _ _). change (slack s') with (nvkms_vblank_total (s_tbl s) - budget (owe (occ i) s1)).
    unfold slack. lia.
  - intros h g Hg. pose proof (refs_tbl h g s (set_iso (s_tbl s) id i') id i' eq_refl) as E.
    unfold rslack, refs in *. rewrite Hx in *. simpl in *. rewrite owed_refs_count by done.
    rewrite Hx in E. fold i in E. rewrite Hr in E. simpl in E. fold (recs h g i). lia.
Qed.

Lemma keeps_kill_end P s id l :
  s_tx s = TKill id (KDrained l) -> keeps P s (tx_step s AKillNext).
Proof.
  intros Hx. unfold tx_step. rewrite Hx. unfold on_iso. simpl.
  set (i := iso_at (s_tbl s) id). set (i' := Iso _ _ _ _ _ _ _ _ _ _ _ _ _ _ _).
  assert (occ i' = occ i /\ forall h g, recs h g i' = recs h g i) as [Ho Hr] by done.
  split; [done..| |].
  - intros _ _. pose proof (budget_tbl s (set_iso (s_tbl s) id i') id i' eq_refl) as E. fold i in E.
    unfold slack, budget in *. simpl in *. lia.
  - intros h g Hg. pose proof (refs_tbl h g s (set_iso (s_tbl s) id i') id i' eq_refl) as E.
    fold i in E. rewrite Hr in E. unfold rslack, refs in *. rewrite Hx in *. simpl in *.
    rewrite Hx in E. simpl in E. rewrite balance_app, balance_unrefs. lia.
Qed.

Lemma keeps_tx s a : keeps (leak_free s a /\ idle_quiet (s_tbl s)) s (tx_step s a).
Proof.
  destruct a; try apply keeps_refl; cbn [tx_step leak_free]; destruct (s_tx s) as [|d|d st] eqn:Hx; try apply keeps_refl.
  - destruct (alloc_isolate_slot (s_tbl s)) as [t' o] eqn:Ea.
    pose proof (keeps_alloc (True /\ idle_quiet (s_tbl s)) s t' o session Ea Hx (fun H => proj2 H)) as H.
    by destruct o as [[id ?]|].
  - unfold assign_uid. destruct use_uid as [base|]; simpl; [|rewrite <- Hx; destruct s; apply keeps_refl].
    destruct (nvkvm_iso_uid_for_slot _ _); simpl; [case_if; simpl|]; eapply keeps_slot; try done; intros; by rewrite Hx.
  - eapply keeps_slot; try done. intros; by rewrite Hx.
  - apply keeps_release_slot. intros; by rewrite Hx.
  - case_if; [apply keeps_refl|]. unfold kill_begin. case_if; [|apply keeps_refl].
    eapply keeps_slot; try done. intros; by rewrite Hx.
  - destruct st as [| | |l].
    + eapply keeps_slot; try done. intros; by rewrite Hx.
    + eapply keeps_slot; try done. intros; by rewrite Hx.
    + pose proof (keeps_drain (True /\ idle_quiet (s_tbl s)) s d Hx) as H. unfold tx_step in H. by rewrite Hx in H.
    + pose proof (keeps_kill_end (True /\ idle_quiet (s_tbl s)) s d l Hx) as H. unfold tx_step in H. by rewrite Hx in H.
Qed.

Lemma on_iso_spec {A} t id (f : nvkvm_isolate -> nvkvm_isolate * A) :
  exists i' r, f (iso_at t id) = (i', r) /\ on_iso t id f = (set_iso t id i', r).
Proof. unfold on_iso. destruct (f (iso_at t id)) as [i' r]. by exists i', r. Qed.

(** A worker that removes [n] records of the budget from a slot and owes them. *)
Lemma keeps_owe P s id i' n :
  0 <= n -> occ i' = occ (iso_at (s_tbl s) id) - n -> i_xrm i' = i_xrm (iso_at (s_tbl s) id) ->
  keeps P s (owe n (put_tbl (set_iso (s_tbl s) id i') s)).
Proof.
  intros Hn Ho Hx. split.
  - intros H. apply Forall_app. auto.
  - done.
  - intros _ _. assert (slack (owe n (put_tbl (set_iso (s_tbl s) id i') s)) = slack s); [|lia].
    unfold slack. rewrite budget_owe, (budget_tbl s _ id i') by done. simpl. lia.
  - intros h g _. pose proof (refs_tbl h g s (set_iso (s_tbl s) id i') id i' eq_refl) as E.
    unfold rslack, refs, recs in *. rewrite Hx in E. simpl in *. lia.
Qed.

Lemma release_total t n :
  0 <= n <= nvkms_vblank_total t -> nvkvm_nvkms_vblank_release t n = set_total t (nvkms_vblank_total t - n).
Proof.
  intros Hn. unfold nvkvm_nvkms_vblank_release. destruct (Z.eqb_spec n 0) as [->|].
  - rewrite Z.sub_0_r. by destruct t.
  - by rewrite (proj2 (Z.leb_le _ _)) by lia.
Qed.

Lemma keeps_release P s k : keeps P s (vbl_step s (ARelease k)).
Proof.
  simpl. destruct (s_owed s !! k) as [n|] eqn:Ek; [|apply keeps_refl].
  pose proof (Forall_lookup_1 (Z.le 0) (s_owed s) k n) as Hn.
  split.
  - intros H. simpl. by apply Forall_delete.
  - intros H. specialize (Hn H Ek). simpl. unfold nvkvm_nvkms_vblank_release, NVKVM_NVKMS_VBLANK_MAX.
    repeat case_if; simpl; lia.
  - intros H H0. specialize (Hn H Ek).
    pose proof (sumZ_delete _ _ _ Ek) as Hd. pose proof (sumZ_nonneg (delete k (s_owed s))) as Hd0.
    assert (0 <= msum occ (isolates (s_tbl s))) by (apply msum_nonneg, occ_nonneg).
    assert (0 <= sumZ (delete k (s_owed s))) by (apply Hd0; by apply Forall_delete).
    unfold slack, budget in *. simpl in *. rewrite release_total by lia. simpl. lia.
  - intros h g Hg. unfold rslack, refs. simpl. unfold nvkvm_nvkms_vblank_release. repeat case_if; simpl; lia.
Qed.

Lemma keeps_vrecord P s k : keeps P s (vbl_step s (AVRecord k)).
Proof.
  cbn [vbl_step]. destruct (s_taken s !! k) as [[id hid]|] eqn:Ek; [|apply keeps_refl].
  unfold on_iso. destruct (vbl_record id hid (iso_at (s_tbl s) id)) as [i' r] eqn:Er.
  destruct (vbl_record_spec _ _ _ _ _ Er) as (Hx & Ho & _).
  set (s1 := put_taken _ _).
  assert (budget s1 = budget s - 1 - occ (iso_at (s_tbl s) id) + occ i') as Hb.
  { pose proof (budget_tbl s (set_iso (s_tbl s) id i') id i' eq_refl) as E. unfold budget in *. simpl in *.
    pose proof (lookup_lt_Some _ _ _ Ek). rewrite length_delete by eauto. lia. }
  assert (forall h g, refs h g s1 = refs h g s) as Hr.
  { intros h g. pose proof (refs_tbl h g s (set_iso (s_tbl s) id i') id i' eq_refl) as E.
    unfold recs in E. rewrite Hx in E. unfold refs in *. simpl in *. lia. }
  case_if; simpl in Ho; (split; [|done| |]).
  - intros H1. apply Forall_app. split; [done|]. repeat constructor. lia.
  - intros _ _. unfold slack. rewrite budget_owe. simpl. lia.
  - intros h g Hg. specialize (Hr h g). unfold rslack. change (refs h g (owe 1 s1)) with (refs h g s1). simpl. lia.
  - done.
  - intros _ _. unfold slack. simpl. lia.
  - intros h g Hg. specialize (Hr h g). unfold rslack. simpl. lia.
Qed.

Lemma keeps_take P s id hid :
  keeps P s (match vbl_take (s_tbl s) with
             | None => s
             | Some t1 => put_taken (s_taken s ++ [(id, hid)]) (put_tbl t1 s)
             end).
Proof.
  unfold vbl_take. case_if; [apply keeps_refl|]. zb. split; [done|intros _; simpl; lia| |].
  - intros _ _. unfold slack, budget. simpl. rewrite length_app. simpl. lia.
  - intros h g Hg. unfold rslack, refs. simpl. lia.
Qed.

Lemma keeps_vbl P s a : keeps P s (vbl_step s a).
Proof.
  destruct a; try apply keeps_refl; try apply keeps_vrecord; try apply keeps_release; cbn [vbl_step];
    (case_if; [apply keeps_refl|]); try apply keeps_take.
  all: match goal with |- context [on_iso _ _ ?f] => destruct (on_iso_spec (s_tbl s) id f) as (i' & r & Er & ->) end.
  - zb. apply vbl_finish_spec in Er as (Hx & Ho & _); [|done]. pose proof (b2n_range r). apply keeps_owe; [lia|done..].
  - apply vbl_retire_spec in Er as (Hx & Ho & _). pose proof (b2n_range r). apply keeps_owe; [lia|done..].
  - apply vbl_purge_spec in Er as (Hx & Ho & Hn & _). by apply keeps_owe.
Qed.

(** A relay step: it rewrites one slot, the list of relays and the log. *)
Definition relay_to (t : nvkvm_isolate_table) (l : list relay) (e : list rev) (s : isys) : isys :=
  ISys t (s_tx s) l (s_taken s) (s_owed s) (s_log s ++ e).

Lemma keeps_relay (P : Prop) s id i' l e :
  occ i' = occ (iso_at (s_tbl s) id) ->
  (forall h g, g <> 0 ->
     let d := balance h g e - (recs h g i' - recs h g (iso_at (s_tbl s) id)) -
              (count_if (held h g) l - count_if (held h g) (s_relays s)) in
     0 <= d /\ (P -> d = 0)) ->
  keeps P s (relay_to (set_iso (s_tbl s) id i') l e s).
Proof.
  intros Ho Hr. split; [done..| |].
  - intros _ _. pose proof (budget_tbl s (set_iso (s_tbl s) id i') id i' eq_refl) as E.
    unfold slack, budget in *. simpl in *. lia.
  - intros h g Hg. pose proof (refs_tbl h g s (set_iso (s_tbl s) id i') id i' eq_refl) as E.
    destruct (Hr h g Hg) as [Hd HP]. cbv zeta in *. unfold rslack, refs in *. simpl in *. rewrite balance_app.
    split; [lia|]. intros H. specialize (HP H). lia.
Qed.

Lemma keeps_same_tbl (P : Prop) s l e :
  (forall h g, g <> 0 ->
     let d := balance h g e - (count_if (held h g) l - count_if (held h g) (s_relays s)) in
     0 <= d /\ (P -> d = 0)) ->
  keeps P s (relay_to (s_tbl s) l e s).
Proof.
  intros Hr. split; [done..| |].
  - intros _ _. unfold slack, budget. simpl. lia.
  - intros h g Hg. destruct (Hr h g Hg) as [Hd HP]. cbv zeta in *. unfold rslack, refs in *. simpl in *.
    rewrite balance_app. split; [lia|]. intros H. specialize (HP H). lia.
Qed.

Lemma balance_nil h g : balance h g [] = 0. Proof. reflexivity. Qed.

Lemma relay_to_tbl t s : put_tbl t s = relay_to t (s_relays s) [] s.
Proof. unfold put_tbl, relay_to. by rewrite app_nil_r. Qed.
Lemma relay_to_relays t l s : put_relays l (put_tbl t s) = relay_to t l [] s.
Proof. unfold put_relays, put_tbl, relay_to. simpl. by rewrite app_nil_r. Qed.

Lemma held_delete h g l k r :
  l !! k = Some r -> count_if (held h g) (delete k l) = count_if (held h g) l - b2n (held h g r).
Proof. intros. by apply count_if_delete. Qed.

Lemma keeps_note P s id hid : keeps P s (relay_step s (ANote id hid)).
Proof.
  cbn [relay_step]. unfold nvkvm_isolate_note_foreign_handle. case_if.
  { rewrite relay_to_tbl. apply keeps_same_tbl. intros h g _. cbv zeta. rewrite balance_nil. lia. }
  destruct (on_iso_spec (s_tbl s) id (note_xrm id hid)) as (i' & p & Ei & ->).
  destruct p; rewrite ?relay_to_relays, ?relay_to_tbl; (apply keeps_relay;
    [by apply (note_xrm_spec _ _ _ _ _ 0 1) in Ei as (? & _)|]); intros h g Hg;
    destruct (note_xrm_spec _ _ _ _ _ h g Ei Hg) as (_ & Hr & _);
    cbv zeta; rewrite ?count_if_app, ?count_if_cons, balance_nil; change (count_if _ []) with 0; simpl; lia.
Qed.

Lemma keeps_acquire P s k g : keeps P s (relay_step s (AAcquire k g)).
Proof.
  cbn [relay_step]. destruct (s_relays s !! k) as [[id hid [| |]]|] eqn:Ek; try apply keeps_refl.
  apply (keeps_same_tbl P s (<[k := Relay id hid (RHeld g)]> (s_relays s)) [EAcq hid g]). intros h g' Hg. rewrite (count_if_insert _ _ _ _ _ Ek), balance_1.
  unfold held. simpl. lia.
Qed.

Lemma keeps_sendfail P s k : keeps P s (relay_step s (ASendFail k)).
Proof.
  cbn [relay_step]. destruct (s_relays s !! k) as [[id hid [|g|]]|] eqn:Ek; try apply keeps_refl.
  - replace (put_relays _ s) with (relay_to (s_tbl s) (<[k := Relay id hid RFailed]> (s_relays s)) [] s)
      by (unfold relay_to; by rewrite app_nil_r).
    apply keeps_same_tbl. intros h g' Hg. rewrite (count_if_insert _ _ _ _ _ Ek), balance_nil. unfold held. simpl. lia.
  - apply (keeps_same_tbl P s (<[k := Relay id hid RFailed]> (s_relays s)) [EUnref hid g]). intros h g' Hg. rewrite (count_if_insert _ _ _ _ _ Ek), balance_1.
    unfold held. simpl. lia.
Qed.

Lemma keeps_finalize P s k : keeps P s (relay_step s (AFinalize k)).
Proof.
  cbn [relay_step]. destruct (s_relays s !! k) as [[id hid [|g|]]|] eqn:Ek; try apply keeps_refl.
  unfold nvkvm_isolate_finalize_foreign_handle. case_if.
  { apply (keeps_same_tbl P s (delete k (s_relays s)) [EUnref hid g]). intros h g' Hg. rewrite (held_delete _ _ _ _ _ Ek), balance_1. unfold held. simpl. lia. }
  destruct (on_iso_spec (s_tbl s) id (finalize_xrm id hid g)) as (i' & found & Ei & ->).
  destruct found; [rewrite relay_to_relays|change (log _ _) with
     (relay_to (set_iso (s_tbl s) id i') (delete k (s_relays s)) [EUnref hid g] s)]; (apply keeps_relay;
    [by apply (finalize_xrm_spec _ _ _ _ _ _ 0 1) in Ei as (? & _)|]); intros h g' Hg;
    destruct (finalize_xrm_spec _ _ _ _ _ _ h g' Ei Hg) as (_ & Hr & _);
    rewrite (held_delete _ _ _ _ _ Ek), ?balance_1, ?balance_nil; unfold held; simpl in *; lia.
Qed.

Lemma keeps_forget s k : keeps (leak_free s (AForget k)) s (relay_step s (AForget k)).
Proof.
  cbn [relay_step leak_free]. destruct (s_relays s !! k) as [[id hid [|g|]]|] eqn:Ek; try apply keeps_refl.
  rewrite relay_to_relays. unfold nvkvm_isolate_forget_foreign_handle. case_if.
  { apply keeps_same_tbl. intros h g' Hg. rewrite (held_delete _ _ _ _ _ Ek), balance_nil. unfold held. simpl. lia. }
  destruct (on_iso_spec (s_tbl s) id (forget_xrm id hid)) as (i' & o & Ei & ->). simpl.
  apply keeps_relay; [by apply (forget_xrm_spec _ _ _ _ _ 0 1) in Ei as (? & _)|]. intros h g Hg.
  destruct (forget_xrm_spec _ _ _ _ _ h g Ei) as (_ & Hr & _). rewrite (held_delete _ _ _ _ _ Ek), balance_nil.
  unfold held. simpl. split; [destruct o; simpl in *; [destruct ((hid =? h) && _)|]; simpl in *; lia|].
  destruct o as [g'|]; simpl in *; [|lia]. intros ->. rewrite (proj2 (Z.eqb_neq 0 g)) in Hr by lia.
  rewrite andb_false_r in Hr. simpl in Hr. lia.
Qed.

Lemma keeps_close P s id hid : keeps P s (relay_step s (AClose id hid)).
Proof.
  cbn [relay_step]. unfold nvkvm_isolate_forget_foreign_handle. case_if.
  { apply (keeps_same_tbl P s (s_relays s) []). intros h g _. cbv zeta. rewrite balance_nil. lia. }
  destruct (on_iso_spec (s_tbl s) id (forget_xrm id hid)) as (i' & o & Ei & ->).
  apply (keeps_relay P s id i' (s_relays s) (unref_gen hid o)); [by apply (forget_xrm_spec _ _ _ _ _ 0 1) in Ei as (? & _)|]. intros h g Hg.
  destruct (forget_xrm_spec _ _ _ _ _ h g Ei) as (_ & Hr & _). destruct o as [g'|]; simpl in *; [|rewrite balance_nil; lia].
  destruct (Z.eqb_spec g' 0) as [->|]; [|rewrite balance_1; simpl; lia].
  rewrite (proj2 (Z.eqb_neq 0 g)) in Hr by lia. rewrite andb_false_r in Hr. rewrite balance_nil. simpl in *. lia.
Qed.

Lemma keeps_step s a : keeps (leak_free s a /\ idle_quiet (s_tbl s)) s (istep s a).
Proof.
  destruct a; try apply keeps_tx; try apply keeps_vbl; cbn [istep]; auto using
    keeps_note, keeps_acquire, keeps_sendfail, keeps_finalize, keeps_close.
  pose proof (keeps_forget s k) as [H1 H2 H3 H4]. split; [done|done| |]; intros.
  - destruct H3 as [H5 H6]; [done..|]. split; [done|]. intros [? _]; auto.
  - destruct (H4 h g) as [H5 H6]; [done|]. split; [done|]. intros [? _]; auto.
Qed.

(** What a worker's step may do to the table. *)
Definition worker_tbl (t t' : nvkvm_isolate_table) : Prop :=
  next_id t' = next_id t /\
  (isolates t' = isolates t \/
   exists id i', isolates t' = <[id := i']> (isolates t) /\ worker_ok (iso_at t id) i').
Lemma worker_tbl_refl t : worker_tbl t t.
Proof. split; [done|by left]. Qed.
Lemma worker_tbl_set t id i' : worker_ok (iso_at t id) i' -> worker_tbl t (set_iso t id i').
Proof. split; [done|]. right. by exists id, i'. Qed.

Lemma worker_tbl_quiet t t' x :
  worker_tbl t t' -> idle_quiet t -> tx_quiet t x -> idle_quiet t' /\ tx_quiet t' x.
Proof.
  intros [_ [E|(id & i' & E & Hw)]] Hi Hx; [|by eapply quiet_worker].
  assert (forall k, iso_at t' k = iso_at t k) as Hat by (intros; unfold iso_at; by rewrite E).
  split; [intros k; rewrite Hat; apply Hi|]. destruct x as [| |k [| | |]]; simpl in *; by rewrite ?Hat.
Qed.

Lemma vbl_step_worker s a : worker_tbl (s_tbl s) (s_tbl (vbl_step s a)) /\ s_tx (vbl_step s a) = s_tx s.
Proof.
  destruct a; try (split; [apply worker_tbl_refl|done]); cbn [vbl_step]; try (case_if; [split; [apply worker_tbl_refl|done]|]).
  - unfold vbl_take. case_if; (split; [split; [done|by left]|done]).
  - destruct (s_taken s !! k) as [[id hid]|]; [|split; [apply worker_tbl_refl|done]].
    destruct (on_iso_spec (s_tbl s) id (vbl_record id hid)) as (i' & r & Er & ->).
    apply vbl_record_spec in Er as (_ & _ & Hw).
    case_if; (split; [|done]); by apply worker_tbl_set.
  - destruct (on_iso_spec (s_tbl s) id (vbl_finish id res success dev disp ctl)) as (i' & r & Er & ->). zb.
    apply vbl_finish_spec in Er as (_ & _ & Hw); [|done]. split; [by apply worker_tbl_set|done].
  - destruct (on_iso_spec (s_tbl s) id (vbl_retire id hid dev disp ctl)) as (i' & r & Er & ->).
    apply vbl_retire_spec in Er as (_ & _ & Hw). split; [by apply worker_tbl_set|done].
  - destruct (on_iso_spec (s_tbl s) id (vbl_purge id hid)) as (i' & r & Er & ->).
    apply vbl_purge_spec in Er as (_ & _ & _ & Hw). split; [by apply worker_tbl_set|done].
  - destruct (s_owed s !! k); (split; [|done]); [|apply worker_tbl_refl]. simpl. unfold nvkvm_nvkms_vblank_release.
    repeat case_if; (split; [done|by left]).
Qed.

Lemma relay_step_worker s a : worker_tbl (s_tbl s) (s_tbl (relay_step s a)) /\ s_tx (relay_step s a) = s_tx s.
Proof.
  destruct a; try (split; [apply worker_tbl_refl|done]); cbn [relay_step];
    try (destruct (s_relays s !! k) as [[id hid [|g|]]|]; try (split; [apply worker_tbl_refl|done]));
    unfold nvkvm_isolate_note_foreign_handle, nvkvm_isolate_finalize_foreign_handle,
      nvkvm_isolate_forget_foreign_handle; (case_if; [split; [apply worker_tbl_refl|done]|]).
  - destruct (on_iso_spec (s_tbl s) id (note_xrm id hid)) as (i' & r & Er & ->).
    apply (note_xrm_spec _ _ _ _ _ 0 1) in Er as (_ & _ & Hw); [|done].
    destruct r; (split; [by apply worker_tbl_set|done]).
  - destruct (on_iso_spec (s_tbl s) id (finalize_xrm id hid g)) as (i' & r & Er & ->).
    apply (finalize_xrm_spec _ _ _ _ _ _ 0 1) in Er as (_ & _ & Hw); [|done].
    destruct r; (split; [by apply worker_tbl_set|done]).
  - destruct (on_iso_spec (s_tbl s) id (forget_xrm id hid)) as (i' & r & Er & ->).
    apply (forget_xrm_spec _ _ _ _ _ 0 1) in Er as (_ & _ & Hw). split; [by apply worker_tbl_set|done].
  - destruct (on_iso_spec (s_tbl s) id (forget_xrm id hid)) as (i' & r & Er & ->).
    apply (forget_xrm_spec _ _ _ _ _ 0 1) in Er as (_ & _ & Hw). split; [by apply worker_tbl_set|done].
Qed.

(** The queue's thread: a slot it rewrites is in use, or quiet. *)
Lemma idle_quiet_set t t' id i' :
  isolates t' = <[id := i']> (isolates t) -> idle_quiet t -> (i_in_use i' = false -> quiet i') -> idle_quiet t'.
Proof.
  intros E Hi Hq k. unfold iso_at. rewrite E. destruct (decide (id = k)) as [->|Hne].
  - rewrite lookup_insert_eq. exact Hq.
  - rewrite lookup_insert_ne by done. apply Hi.
Qed.

Lemma iso_at_same t id i : iso_at (set_iso t id i) id = i.
Proof. rewrite iso_at_set. by case_decide. Qed.

Lemma uid_quiet s u id :
  leak_free s (AUid u) -> s_tx s = TCreating id -> idle_quiet (s_tbl s) ->
  let '(t1, rc) := assign_uid u (s_tbl s) id in
  idle_quiet t1 /\ tx_quiet t1 (if rc =? 0 then TCreating id else TIdle).
Proof.
  unfold leak_free. intros Hl Hx Hi. rewrite Hx in Hl. unfold assign_uid in *. destruct u as [base|]; [|done].
  destruct (nvkvm_iso_uid_for_slot _ _) as [uid|]; [destruct (uid_taken _ _ _)|]; simpl in *;
    (split; [|done]); (eapply idle_quiet_set; [done..|]); intros Hu; simpl in *.
  - by apply Hl.
  - by apply Hi.
  - by apply Hl.
Qed.

Lemma tx_step_quiet s a :
  leak_free s a -> idle_quiet (s_tbl s) -> tx_quiet (s_tbl s) (s_tx s) ->
  idle_quiet (s_tbl (tx_step s a)) /\ tx_quiet (s_tbl (tx_step s a)) (s_tx (tx_step s a)).
Proof.
  intros Hl Hi Hq. destruct a; try done; cbn [tx_step]; destruct (s_tx s) as [|d|d st] eqn:Hx;
    try (rewrite ?Hx; by split).
  - unfold alloc_isolate_slot. generalize (Z.to_nat NVKVM_ISOLATE_MAX). intros n.
    destruct (slot_loop n (s_tbl s)) as [t' o] eqn:Ea. apply slot_loop_spec in Ea as [_ Ho].
    destruct o as [[id l]|]; simpl.
    + split; [|done]. destruct Ho as (_ & _ & E). assert (idle_quiet t') by (eapply idle_quiet_set; [done..|]; done).
      eapply idle_quiet_set; [done..|]. simpl. unfold iso_at. by rewrite E, lookup_insert_eq.
    + split; [|by rewrite Hx]. intros k. unfold iso_at. rewrite Ho. apply Hi.
  - pose proof (uid_quiet s use_uid d Hl Hx Hi) as H. by destruct (assign_uid _ _ _) as [t1 rc].
  - split; [|done]. simpl. eapply idle_quiet_set; [done..|]. apply Hi.
  - split; [|done]. simpl in Hl. rewrite Hx in Hl. eapply idle_quiet_set; [done..|]. by intros _.
  - case_if; [rewrite Hx; by split|]. unfold kill_begin. case_if; [|rewrite Hx; by split].
    split; [|done]. eapply idle_quiet_set; [done..|]. apply Hi.
  - destruct st as [| | |l]; simpl in *.
    + split; [|by rewrite iso_at_same]. eapply idle_quiet_set; [done..|]. apply Hi.
    + split; [|by rewrite iso_at_same]. eapply idle_quiet_set; [done..|]. apply Hi.
    + split; [|by rewrite iso_at_same]. eapply idle_quiet_set; [done..|]. done.
    + split; [|done]. eapply idle_quiet_set; [done..|]. intros _. apply Hq.
Qed.

Lemma iinv_step s a : iinv s -> iinv (istep s a).
Proof.
  intros [Ho Hm Hs Hr]. destruct (keeps_step s a) as [K1 K2 K3 K4].
  destruct (K3 Ho Hs) as [K5 _]. split; [auto|auto|lia|]. intros h g Hg. specialize (Hr h g Hg).
  destruct (K4 h g Hg). lia.
Qed.

Lemma iclean_step s a : iinv s -> leak_free s a -> iclean s -> iclean (istep s a).
Proof.
  intros [Ho Hm Hs Hr] Hl [C1 C2 C3 C4]. destruct (keeps_step s a) as [K1 K2 K3 K4].
  destruct (K3 Ho Hs) as [_ K5].
  assert (idle_quiet (s_tbl (istep s a)) /\ tx_quiet (s_tbl (istep s a)) (s_tx (istep s a))) as [Q1 Q2].
  { destruct a; try (by apply tx_step_quiet); cbn [istep];
      match goal with
      | |- context [vbl_step s ?a] => destruct (vbl_step_worker s a) as [Hw ->]
      | |- context [relay_step s ?a] => destruct (relay_step_worker s a) as [Hw ->]
      end; by eapply worker_tbl_quiet. }
  split; [rewrite K5; [done|by split]| |done..].
  intros h g Hg. destruct (K4 h g Hg) as [_ ->]; [by apply C2|by split].
Qed.

Lemma iinv0 : iinv isys0.
Proof. split; [constructor|done..]. Qed.
Lemma iclean0 : iclean isys0.
Proof. by split. Qed.

Lemma run_inv acts s :
  iinv s -> iinv (fold_left istep acts s) /\ (leak_free_run s acts -> iclean s -> iclean (fold_left istep acts s)).
Proof.
  revert s. induction acts as [|a l IH]; intros s Hs; simpl; [done|].
  destruct (IH (istep s a) (iinv_step s a Hs)) as [H1 H2]. split; [done|].
  intros [Hl Hr] Hc. by apply H2; [|apply iclean_step].
Qed.
Lemma irun_inv acts : iinv (irun acts).
Proof. apply run_inv, iinv0. Qed.
Lemma irun_clean acts : leak_free_run isys0 acts -> iclean (irun acts).
Proof. intros H. by apply run_inv; [apply iinv0| |apply iclean0]. Qed.

(** ** The budget and the references, for every interleaving *)

(** Whatever isolates, workers and teardowns do, the VM never owns more than 64 vblank
    controls: the live records, the reservations on their way to a record and the
    units still to be returned fit the counter, and the counter fits the limit.  Where
    no failed creation gave up a slot with records in it and no failed relay dropped
    another's record, the counter is exact: no unit is lost. *)
Theorem vblank_budget acts :
  let s := irun acts in
  0 <= msum occ (isolates (s_tbl s)) + Z.of_nat (length (s_taken s)) + sumZ (s_owed s) <= nvkms_vblank_total (s_tbl s) /\
  nvkms_vblank_total (s_tbl s) <= NVKVM_NVKMS_VBLANK_MAX /\
  (leak_free_run isys0 acts ->
   nvkms_vblank_total (s_tbl s) = msum occ (isolates (s_tbl s)) + Z.of_nat (length (s_taken s)) + sumZ (s_owed s)).
Proof.
  intros s. destruct (irun_inv acts) as [Ho Hm Hs _]. pose proof (sumZ_nonneg _ Ho) as Hn.
  assert (0 <= msum occ (isolates (s_tbl s))) by (apply msum_nonneg, occ_nonneg).
  unfold slack, budget in Hs. fold s in Hs, Hm, Hn. split; [lia|]. split; [done|].
  intros [Hc _ _ _]%irun_clean. unfold slack, budget in Hc. fold s in Hc. lia.
Qed.

(** A reference that a relay took on a handle of the VM is dropped at most
    once: the records of delivered relays, the relays under way and the list of a
    teardown never stand for more references than were taken and not dropped.  Where
    nothing was lost they stand for exactly those, so that once the relays are over
    and the isolates are killed every reference has been returned. *)
Theorem relay_references acts h g :
  g <> 0 ->
  let s := irun acts in
  refs h g s <= balance h g (s_log s) /\
  (leak_free_run isys0 acts ->
   balance h g (s_log s) = refs h g s /\
   (s_tx s = TIdle -> s_relays s = [] -> (forall id, i_in_use (iso_at (s_tbl s) id) = false) ->
    balance h g (s_log s) = 0)).
Proof.
  intros Hg s. destruct (irun_inv acts) as [_ _ _ Hr]. specialize (Hr h g Hg). unfold rslack in Hr. fold s in Hr.
  split; [lia|]. intros Hl. destruct (irun_clean _ Hl) as [_ Hc Hq _]. specialize (Hc h g Hg). unfold rslack in Hc.
  fold s in Hc, Hq. split; [lia|]. intros Hx Hrl Hu.
  assert (msum (recs h g) (isolates (s_tbl s)) = 0) as E.
  { apply msum_zero. intros k i Hk. specialize (Hq k (Hu k)). unfold iso_at in Hq. rewrite Hk in Hq.
    by apply recs_quiet. }
  unfold refs in Hc. rewrite E, Hx, Hrl in Hc. change (count_if (held h g) []) with 0 in Hc. simpl in Hc. lia.
Qed.

(** ** Slots, ids and uids *)
Record ids_ok (t : nvkvm_isolate_table) : Prop := {
  d_next : 1 <= next_id t < NVKVM_ISOLATE_MAX;
  d_id : forall k, i_in_use (iso_at t k) = true -> 1 <= k < NVKVM_ISOLATE_MAX /\ i_id (iso_at t k) = k;
  d_uid : forall a b, a <> b -> i_in_use (iso_at t a) = true -> i_in_use (iso_at t b) = true ->
    i_uid (iso_at t a) <> 0 -> i_uid (iso_at t b) <> i_uid (iso_at t a)
}.

(** Rewriting slot [id] keeps the table well-formed if the new contents are. *)
Lemma ids_ok_set t t' id i' :
  ids_ok t -> 1 <= next_id t' < NVKVM_ISOLATE_MAX -> isolates t' = <[id := i']> (isolates t) ->
  (i_in_use i' = true -> 1 <= id < NVKVM_ISOLATE_MAX /\ i_id i' = id) ->
  (i_in_use i' = true -> i_uid i' <> 0 ->
     forall k, k <> id -> i_in_use (iso_at t k) = true -> i_uid (iso_at t k) <> i_uid i') ->
  ids_ok t'.
Proof.
  intros [Hn Hi Hu] Hn' E Hid Huid.
  assert (forall k, iso_at t' k = if decide (id = k) then i' else iso_at t k) as Hat.
  { intros k. unfold iso_at at 1. rewrite E. case_decide; [subst; by rewrite lookup_insert_eq|by rewrite lookup_insert_ne]. }
  split; [done| |].
  - intros k. rewrite Hat. case_decide; [subst; auto|apply Hi].
  - intros a b Hab. rewrite !Hat. repeat case_decide; subst; try done.
    + intros ? ? ?. by apply Huid.
    + intros Ha Hb Hz Heq. rewrite Heq in *. destruct (decide (i_uid (iso_at t a) = 0)); [done|].
      by apply (Huid Hb Hz a Hab Ha).
    + by apply Hu.
Qed.

Lemma ids_ok_keep t id i' :
  ids_ok t -> i_id i' = i_id (iso_at t id) -> i_uid i' = i_uid (iso_at t id) ->
  (i_in_use i' = true -> i_in_use (iso_at t id) = true) -> ids_ok (set_iso t id i').
Proof.
  intros H Hi Hu Hin. destruct H as [Hn Hd Hq] eqn:EH. apply (ids_ok_set t _ id i'); try done.
  - intros H1%Hin. rewrite Hi. by apply Hd.
  - intros H1%Hin Hz k Hk Hik. rewrite Hu in *. apply Hq; auto.
Qed.

Lemma ids_ok_worker t t' : worker_tbl t t' -> ids_ok t -> ids_ok t'.
Proof.
  intros [Hn [E|(id & i' & E & [Hc _])]] H.
  - assert (forall k, iso_at t' k = iso_at t k) as Hat by (intros; unfold iso_at; by rewrite E).
    destruct H as [H1 H2 H3]. split; [by rewrite Hn| |]; intros; rewrite !Hat in *; eauto.
  - injection Hc as Hid Hin _ Hu. pose proof (d_next _ H). pose proof (d_id _ H id). pose proof (d_uid _ H id).
    eapply ids_ok_set; [done|by rewrite Hn|done|..].
    + intros Hi. rewrite Hin in Hi. rewrite Hid. auto.
    + intros Hi Hz k Hk Hik. rewrite Hin in Hi. rewrite Hu in *. by auto.
Qed.

Lemma slot_loop_next n t t' o :
  slot_loop n t = (t', o) -> 1 <= next_id t < NVKVM_ISOLATE_MAX ->
  1 <= next_id t' < NVKVM_ISOLATE_MAX /\
  match o with
  | Some (id, _) => 1 <= id < NVKVM_ISOLATE_MAX
  | None => forall k, 0 <= k < Z.of_nat n -> i_in_use (iso_at t (cyc_at NVKVM_ISOLATE_MAX (next_id t) k)) = true
  end.
Proof.
  revert t. induction n as [|n IH]; intros t; cbn [slot_loop]; [intros [= <- <-] Hn; split; [done|lia]|].
  set (nx := if NVKVM_ISOLATE_MAX <=? next_id t + 1 then 1 else next_id t + 1). set (t1 := ITbl _ nx _).
  intros Hl Hn. assert (nx = cyc_at NVKVM_ISOLATE_MAX (next_id t) 1) as Hx by (by apply cyc_step_if).
  assert (1 <= nx < NVKVM_ISOLATE_MAX) as Hnx by (rewrite Hx; by apply cyc_at_range).
  rewrite (proj2 (Z.eqb_neq (next_id t) 0)) in Hl by lia.
  destruct (i_in_use (iso_at t (next_id t))) eqn:Eu; simpl in Hl; [|injection Hl as <- <-; by split].
  destruct (IH t1 Hl Hnx) as [H1 H2]. split; [done|]. destruct o as [[id fds]|]; [done|]. intros k Hk.
  destruct (decide (k = 0)) as [->|]; [by rewrite cyc_at_0|].
  specialize (H2 (k - 1) ltac:(lia)). cbn [next_id t1] in H2. rewrite Hx, cyc_at_next in H2.
  by replace (1 + (k - 1)) with k in H2 by lia.
Qed.

Lemma uid_taken_false t id uid k :
  uid_taken t id uid = false -> 0 <= k < NVKVM_ISOLATE_MAX -> k <> id -> i_in_use (iso_at t k) = true ->
  i_uid (iso_at t k) <> uid.
Proof.
  unfold uid_taken. intros H Hk Hne Hu <-. apply not_true_iff_false in H. apply H, existsb_exists. exists k. split.
  - apply in_map_iff. exists (Z.to_nat k). split; [lia|]. apply in_seq. lia.
  - rewrite Hu. apply Z.eqb_neq in Hne. by rewrite Hne, Z.eqb_refl.
Qed.

Lemma ids_ok_uid u t id : ids_ok t -> ids_ok (fst (assign_uid u t id)).
Proof.
  intros H. unfold assign_uid. destruct u as [base|]; [|done].
  destruct (nvkvm_iso_uid_for_slot _ _) as [uid|]; [destruct (uid_taken t id uid) eqn:Et|];
    [by apply ids_ok_keep| |by apply ids_ok_keep].
  destruct H as [Hn Hd Hq] eqn:EH. eapply (ids_ok_set t); [done..| |]; simpl.
  - apply Hd.
  - intros _ _ k Hk Hu. eapply uid_taken_false; [done|destruct (Hd k Hu); lia|done..].
Qed.

Lemma ids_ok_alloc t t' o session :
  ids_ok t -> alloc_isolate_slot t = (t', o) ->
  ids_ok (match o with Some (id, _) => set_iso t' id (with_session (iso_at t' id) session) | None => t' end).
Proof.
  unfold alloc_isolate_slot. generalize (Z.to_nat NVKVM_ISOLATE_MAX). intros n H Ha. pose proof (d_next _ H) as Hn.
  destruct (slot_loop_next _ _ _ _ Ha Hn) as [Hn' Ho]. destruct (slot_loop_spec _ _ _ _ Ha) as [_ Hs].
  destruct o as [[id fds]|].
  - destruct Hs as (_ & _ & E). assert (iso_at t' id = claim (iso_at t id) id) as ->.
    { unfold iso_at at 1. by rewrite E, lookup_insert_eq. }
    apply (ids_ok_set t _ id (with_session (claim (iso_at t id) id) session)); [done|done| |by split|done].
    simpl. by rewrite E, insert_insert_eq.
  - assert (forall k, iso_at t' k = iso_at t k) as Hat by (intros; unfold iso_at; by rewrite Hs).
    destruct H as [H1 H2 H3]. split; [done| |]; intros; rewrite !Hat in *; eauto.
Qed.

Lemma ids_ok_step s a : ids_ok (s_tbl s) -> ids_ok (s_tbl (istep s a)).
Proof.
  intros H. destruct a; cbn [istep];
    try (match goal with
      | |- context [vbl_step s ?a] => destruct (vbl_step_worker s a) as [Hw _]
      | |- context [relay_step s ?a] => destruct (relay_step_worker s a) as [Hw _]
      end; by eapply ids_ok_worker);
    cbn [tx_step]; destruct (s_tx s) as [|d|d st]; try done.
  - destruct (alloc_isolate_slot (s_tbl s)) as [t' o] eqn:Ea. pose proof (ids_ok_alloc _ _ _ session H Ea) as Ho.
    by destruct o as [[id fds]|].
  - pose proof (ids_ok_uid use_uid (s_tbl s) d H) as Hu. by destruct (assign_uid _ _ _) as [t1 rc].
  - by apply ids_ok_keep.
  - by apply ids_ok_keep.
  - case_if; [done|]. unfold kill_begin. case_if; [|done]. by apply ids_ok_keep.
  - destruct st; [by apply ids_ok_keep..|]. pose proof (d_next _ H). by eapply (ids_ok_set (s_tbl s)).
Qed.

(** Live isolates are told apart.  In every reachable state each occupied slot is one of
    1..4095 and carries its own number as id, and two occupied slots never hold
    the same uid; and a request for a new isolate is refused for want of a slot
    only when all 4095 are occupied. *)
Theorem isolate_identity acts :
  let t := s_tbl (irun acts) in
  (forall k, i_in_use (iso_at t k) = true -> 1 <= k < NVKVM_ISOLATE_MAX /\ i_id (iso_at t k) = k) /\
  (forall a b, a <> b -> i_in_use (iso_at t a) = true -> i_in_use (iso_at t b) = true ->
     i_uid (iso_at t a) <> 0 -> i_uid (iso_at t b) <> i_uid (iso_at t a)) /\
  (snd (alloc_isolate_slot t) = None <-> forall k, 1 <= k < NVKVM_ISOLATE_MAX -> i_in_use (iso_at t k) = true).
Proof.
  intros t. assert (ids_ok t) as H.
  { unfold t, irun. assert (ids_ok (s_tbl isys0)) as H0 by (split; done). revert H0. generalize isys0.
    induction acts as [|a l IH]; intros s Hs; simpl; [done|]. by apply IH, ids_ok_step. }
  split; [apply (d_id _ H)|]. split; [apply (d_uid _ H)|].
  unfold alloc_isolate_slot. destruct (slot_loop (Z.to_nat NVKVM_ISOLATE_MAX) t) as [t' o] eqn:Ea.
  destruct (slot_loop_next _ _ _ _ Ea (d_next _ H)) as [_ Ho]. destruct (slot_loop_spec _ _ _ _ Ea) as [_ Hs].
  simpl. split.
  - intros -> k Hk. destruct (cyc_at_onto _ _ _ (d_next _ H) Hk) as (j & Hj & <-). apply Ho. unfold NVKVM_ISOLATE_MAX in *. lia.
  - intros Hall. destruct o as [[id fds]|]; [|done]. destruct Hs as (_ & Hu & _). rewrite Hall in Hu; done.
Qed.

(** ** What the leaks cost *)

(** A worker reserves a vblank control on a slot whose creation is still under way
    (its id is public and it accepts), and the creation fails: no request can
    return the unit any more, and once the slot is claimed again, a lap of ids later,
    the counter holds a unit that nobody answers for. *)
Lemma failed_creation_leaks_unit :
  let lap := concat (replicate 4095 [ACreate 7; ACreateFail]) in
  let s := irun ([ACreate 7; AVTake 1 3; AVRecord 0; ACreateFail] ++ lap) in
  nvkms_vblank_total (s_tbl s) = 1 /\ budget s = 0 /\ s_tx s = TIdle.
Proof. vm_compute. auto. Qed.

(** A relay of handle 5 fails; before it takes its reservation back, the guest closes
    the handle in the isolate and a second relay of it is delivered.  The first one
    then drops the second one's record, and its reference is never returned. *)
Lemma failed_relay_leaks_reference :
  let s := irun [ACreate 7; ACreated 100 9; ANote 1 5; ASendFail 0; AClose 1 5; ANote 1 5; AAcquire 1 4; AFinalize 1;
                 AForget 0; AKill 1; AKillNext; AKillNext; AKillNext; AKillNext] in
  balance 5 4 (s_log s) = 1 /\ refs 5 4 s = 0 /\ s_relays s = [] /\ s_tx s = TIdle.
Proof. vm_compute. auto. Qed.

Lemma relay_references_witness :
  let acts := [ACreate 7; ACreated 100 9; ANote 1 5; AAcquire 0 4; AFinalize 0; AKill 1; AKillNext; AKillNext; AKillNext; AKillNext] in
  let s := irun acts in
  refs 5 4 s <= balance 5 4 (s_log s) /\ balance 5 4 (s_log s) = 0.
Proof.
  cbv zeta. destruct (relay_references [ACreate 7; ACreated 100 9; ANote 1 5; AAcquire 0 4; AFinalize 0; AKill 1; AKillNext;
    AKillNext; AKillNext; AKillNext] 5 4 ltac:(discriminate)) as [H1 H2].
  split; [exact H1|]. apply H2; [vm_compute; auto 20|vm_compute; reflexivity|vm_compute; reflexivity|].
  intros id. unfold irun. set (t := s_tbl _). assert (isolates t = {[1 := iso_at t 1]}) as E by (vm_compute; reflexivity).
  unfold iso_at. rewrite E. destruct (decide (id = 1)) as [->|]; [rewrite lookup_singleton_eq; vm_compute; reflexivity|].
  rewrite lookup_singleton_ne by congruence. reflexivity.
Defined.

(** ** The functions of the source are runs of the sections

    Without interference, each function does to the table what its sections do in order. *)
Lemma lookup_owed_last (l : list Z) n : (l ++ [n]) !! length l = Some n.
Proof. apply list_lookup_middle. done. Qed.

Lemma kill_next_idle s : s_tx s = TIdle -> istep s AKillNext = s.
Proof. intros Hx. cbn [istep tx_step]. by rewrite Hx. Qed.

Lemma kill_is_run s id :
  s_tx s = TIdle ->
  s_tbl (fold_left istep [AKill id; AKillNext; AKillNext; AKillNext; ARelease (length (s_owed s)); AKillNext] s) =
  fst (nvkvm_isolate_kill (fun _ t => t) (s_tbl s) id).
Proof.
  intros Hx. cbn [fold_left]. unfold nvkvm_isolate_kill.
  assert (istep s (ARelease (length (s_owed s))) = s) as Hn.
  { cbn [istep vbl_step]. by rewrite lookup_ge_None_2 by done. }
  destruct (bad_iso id) eqn:Eb.
  { assert (istep s (AKill id) = s) as -> by (cbn [istep tx_step]; by rewrite Hx, Eb).
    by rewrite !(kill_next_idle s Hx), Hn, (kill_next_idle s Hx). }
  destruct (kill_begin id (iso_at (s_tbl s) id)) as [i|] eqn:Ek.
  - assert (istep s (AKill id) = put_tx (TKill id KBegun) (put_tbl (set_iso (s_tbl s) id i) s)) as ->
      by (cbn [istep tx_step]; by rewrite Hx, Eb, Ek).
    cbn [istep s_tx s_tbl s_owed put_tx put_tbl tx_step vbl_step owe on_iso fst kill_drain].
    rewrite lookup_owed_last. reflexivity.
  - assert (istep s (AKill id) = s) as -> by (cbn [istep tx_step]; by rewrite Hx, Eb, Ek).
    by rewrite !(kill_next_idle s Hx), Hn, (kill_next_idle s Hx).
Qed.

Lemma reserve_is_run s id hid :
  s_taken s = [] ->
  s_tbl (fold_left istep [AVTake id hid; AVRecord 0; ARelease (length (s_owed s))] s) =
  fst (nvkvm_isolate_nvkms_vblank_reserve (fun _ t => t) (s_tbl s) id hid).
Proof.
  intros Hx. unfold nvkvm_isolate_nvkms_vblank_reserve. cbn [fold_left istep vbl_step].
  assert (s_owed s !! length (s_owed s) = None) as Hn by (apply lookup_ge_None; lia).
  destruct (bad_iso id); [cbn [vbl_step]; by rewrite Hx, lookup_nil, Hn|].
  destruct (vbl_take (s_tbl s)) as [t1|]; [|cbn [vbl_step]; by rewrite Hx, lookup_nil, Hn].
  cbn [vbl_step s_taken put_taken]. rewrite Hx. cbn [app lookup list_lookup s_tbl put_tbl put_taken].
  destruct (on_iso_spec t1 id (vbl_record id hid)) as (i' & r & _ & ->).
  case_if; cbn [vbl_step s_owed owe put_taken put_tbl]; [by rewrite lookup_owed_last|by rewrite Hn].
Qed.

End Isolates.
