(* ===== verification/MapVa.v ===== *)
(** * MapVa: the addresses of RM mappings

    Models [g_mapva] of [src/qemu/nvkvm_isolate_handlers.c]: the address the driver
    returned for each successful RM_MAP_MEMORY, found again by the isolate and the
    object of the matching RM_UNMAP_MEMORY.  Every operation runs under
    [g_mapva_lock]. *)
From S2P Require Import Prelude.

Module MapVa.

Definition NVKVM_MAPVA_MAX : Z := 8192.

Record nvkvm_mapva_ent := Ent {
  e_in_use : bool; e_iso : Z; e_hc : Z; e_hd : Z; e_hm : Z; e_va : Z; e_seq : Z
}.
Definition ent0 : nvkvm_mapva_ent := Ent false 0 0 0 0 0 0.

Record mapva := MapVa { g_mapva : list nvkvm_mapva_ent; g_mapva_seq : Z }.
Definition mapva0 : mapva := MapVa (replicate (Z.to_nat NVKVM_MAPVA_MAX) ent0) 0.

Definition nvkvm_mapva_record (s : mapva) (iso hc hd hm va : Z) : mapva :=
  if va =? 0 then s
  else
    match find_idx (fun e => negb (e_in_use e)) (g_mapva s) with
    | Some i =>
        let seq := u64 (g_mapva_seq s + 1) in
        MapVa (<[i := Ent true iso hc hd hm va seq]> (g_mapva s)) seq
    | None => s
    end.

Definition is_key (iso hc hd hm : Z) (e : nvkvm_mapva_ent) : bool :=
  e_in_use e && (e_iso e =? iso) && (e_hc e =? hc) && (e_hd e =? hd) && (e_hm e =? hm).

(** The loop of [nvkvm_mapva_take]: the matching entry with the largest sequence
    number, [best] and [best_i] so far. *)
Fixpoint newest (f : nvkvm_mapva_ent -> bool) (i : nat) (l : list nvkvm_mapva_ent) (best : Z) (best_i : option nat)
    : option nat :=
  match l with
  | [] => best_i
  | e :: r => if f e && (best <? e_seq e) then newest f (S i) r (e_seq e) (Some i) else newest f (S i) r best best_i
  end.

Definition retired (e : nvkvm_mapva_ent) : nvkvm_mapva_ent :=
  Ent false (e_iso e) (e_hc e) (e_hd e) (e_hm e) (e_va e) (e_seq e).

Definition nvkvm_mapva_take (s : mapva) (iso hc hd hm : Z) : mapva * Z :=
  match newest (is_key iso hc hd hm) 0 (g_mapva s) 0 None with
  | Some i => (MapVa (alter retired i (g_mapva s)) (g_mapva_seq s), default 0 (e_va <$> g_mapva s !! i))
  | None => (s, 0)
  end.

Definition nvkvm_mapva_forget_isolate (s : mapva) (iso : Z) : mapva :=
  MapVa (map (fun e => if e_in_use e && (e_iso e =? iso) then retired e else e) (g_mapva s)) (g_mapva_seq s).

(** ** The contract

    The live mappings, newest first: an unmap takes the newest mapping of its
    object, a dead isolate's mappings disappear, and a mapping is dropped only
    when 8192 are live. *)
Record mapping := Mapping { m_iso : Z; m_hc : Z; m_hd : Z; m_hm : Z; m_va : Z }.
Definition has_key (iso hc hd hm : Z) (m : mapping) : bool :=
  (m_iso m =? iso) && (m_hc m =? hc) && (m_hd m =? hd) && (m_hm m =? hm).

Definition spec_record (l : list mapping) (iso hc hd hm va : Z) : list mapping :=
  if (va =? 0) || (NVKVM_MAPVA_MAX <=? arr_len l) then l else Mapping iso hc hd hm va :: l.
Definition spec_take (l : list mapping) (iso hc hd hm : Z) : list mapping * Z :=
  match find_idx (has_key iso hc hd hm) l with
  | Some k => (delete k l, default 0 (m_va <$> l !! k))
  | None => (l, 0)
  end.
Definition spec_forget (l : list mapping) (iso : Z) : list mapping :=
  List.filter (fun m => negb (m_iso m =? iso)) l.

Inductive mop := MRecord (iso hc hd hm va : Z) | MTake (iso hc hd hm : Z) | MForget (iso : Z).
Definition mstep (s : mapva) (o : mop) : mapva * Z :=
  match o with
  | MRecord iso hc hd hm va => (nvkvm_mapva_record s iso hc hd hm va, 0)
  | MTake iso hc hd hm => nvkvm_mapva_take s iso hc hd hm
  | MForget iso => (nvkvm_mapva_forget_isolate s iso, 0)
  end.
Definition sstep (l : list mapping) (o : mop) : list mapping * Z :=
  match o with
  | MRecord iso hc hd hm va => (spec_record l iso hc hd hm va, 0)
  | MTake iso hc hd hm => spec_take l iso hc hd hm
  | MForget iso => (spec_forget l iso, 0)
  end.

(** Runs a list of operations and lists their results. *)
Fixpoint runs {S : Type} (step : S -> mop -> S * Z) (s : S) (l : list mop) : S * list Z :=
  match l with
  | [] => (s, [])
  | o :: r => let '(s1, v) := step s o in let '(s2, vs) := runs step s1 r in (s2, v :: vs)
  end.

(** ** Refinement *)
Definition to_m (e : nvkvm_mapva_ent) : mapping := Mapping (e_iso e) (e_hc e) (e_hd e) (e_hm e) (e_va e).
Definition newer (a b : nvkvm_mapva_ent) : Prop := e_seq b < e_seq a.
Definition live (s : mapva) : list nvkvm_mapva_ent := List.filter e_in_use (g_mapva s).

(** The entries in use, ordered by their sequence numbers, are the mappings. *)
Record refines (n : Z) (s : mapva) (l : list mapping) : Prop := {
  r_len : arr_len (g_mapva s) = NVKVM_MAPVA_MAX;
  r_seq : 0 <= g_mapva_seq s <= n;
  r_ord : exists o, Permutation o (live s) /\ StronglySorted newer o /\
                    Forall (fun e => 0 < e_seq e <= g_mapva_seq s) o /\ l = map to_m o
}.

Lemma newest_spec f i l best bi :
  match newest f i l best bi with
  | Some k =>
      (bi = Some k /\ Forall (fun e => f e = true -> e_seq e <= best) l) \/
      exists e, (i <= k)%nat /\ l !! (k - i)%nat = Some e /\ f e = true /\ best < e_seq e /\
                Forall (fun x => f x = true -> e_seq x <= e_seq e) l
  | None => bi = None /\ Forall (fun e => f e = true -> e_seq e <= best) l
  end.
Proof.
  revert i best bi. induction l as [|x l IH]; intros i best bi; simpl; [destruct bi; auto|].
  destruct (f x && (best <? e_seq x)) eqn:E.
  - zb. specialize (IH (S i) (e_seq x) (Some i)). destruct (newest f (S i) l (e_seq x) (Some i)) as [k|]; [|naive_solver].
    right. destruct IH as [[[= <-] Hf]|(e & Hk & He & Hfe & Hb & Hf)].
    + exists x. rewrite Nat.sub_diag. split_and!; [lia|done|done|lia|]. by constructor.
    + exists e. replace (k - i)%nat with (S (k - S i)) by lia. split_and!; [lia|done|done|lia|].
      constructor; [lia|done].
  - assert (f x = true -> e_seq x <= best) as Hx.
    { intros Hf. rewrite Hf in E. cbn [andb] in E. zb. lia. }
    specialize (IH (S i) best bi). destruct (newest f (S i) l best bi) as [k|].
    + destruct IH as [[-> Hf]|(e & Hk & He & Hfe & Hb & Hf)]; [left; split; [done|by constructor]|right].
      exists e. replace (k - i)%nat with (S (k - S i)) by lia. split_and!; [lia|done|done|lia|].
      constructor; [|done]. intros Hfx. specialize (Hx Hfx). lia.
    + destruct IH as [-> Hf]. split; [done|by constructor].
Qed.

Lemma filter_alter f (g : nvkvm_mapva_ent -> nvkvm_mapva_ent) l i x :
  l !! i = Some x ->
  exists r, Permutation (List.filter f l) ((if f x then [x] else []) ++ r) /\
            Permutation (List.filter f (alter g i l)) ((if f (g x) then [g x] else []) ++ r).
Proof.
  intros Hx. apply list_elem_of_split_length in Hx as (l1 & l2 & -> & ->).
  exists (List.filter f l1 ++ List.filter f l2).
  assert (alter g (length l1) (l1 ++ x :: l2) = l1 ++ g x :: l2) as ->
    by (rewrite <- (Nat.add_0_r (length l1)), alter_app_r; done).
  rewrite !List.filter_app. simpl.
  destruct (f x), (f (g x)); simpl; rewrite ?app_nil_r; split; try done; symmetry; apply Permutation_middle.
Qed.

Lemma Forall_sublist {A} (P : A -> Prop) l l' : sublist l l' -> Forall P l' -> Forall P l.
Proof. induction 1 as [|x l l' _ IH|x l l' _ IH]; intros Hf; [constructor| |]; inversion_clear Hf; auto. Qed.

Lemma sorted_sublist {A} (R : A -> A -> Prop) l l' : sublist l l' -> StronglySorted R l' -> StronglySorted R l.
Proof.
  induction 1 as [|x l l' Hs IH|x l l' Hs IH]; intros Hss; [constructor| |]; inversion_clear Hss as [|? ? H1 H2]; [|auto].
  constructor; [auto|]. eapply Forall_sublist; eassumption.
Qed.

Lemma filter_sublist {A} (f : A -> bool) l : sublist (List.filter f l) l.
Proof. induction l as [|x l IH]; simpl; [done|]. destruct (f x); by constructor. Qed.

Lemma map_filter_to_m (f : mapping -> bool) o :
  List.filter f (map to_m o) = map to_m (List.filter (fun e => f (to_m e)) o).
Proof. induction o as [|x o IH]; simpl; [done|]. destruct (f (to_m x)); simpl; by rewrite IH. Qed.

Lemma live_perm (f : nvkvm_mapva_ent -> bool) l l' :
  Permutation l l' -> Permutation (List.filter f l) (List.filter f l').
Proof.
  induction 1 as [|x l l' _ IH|x y l|l l' l'' _ IH1 _ IH2]; simpl; [done| | |by etrans].
  - destruct (f x); [by constructor|done].
  - destruct (f x), (f y); try done. apply Permutation_swap.
Qed.

Lemma record_refines n s l iso hc hd hm va :
  refines n s l -> n < W64 - 1 ->
  refines (n + 1) (nvkvm_mapva_record s iso hc hd hm va) (spec_record l iso hc hd hm va).
Proof.
  intros [Hl Hs (o & Hp & Ho & Hb & ->)] Hn. unfold nvkvm_mapva_record, spec_record.
  assert (Hsame : refines (n + 1) s (map to_m o)) by (split; [done|lia|by exists o]).
  destruct (Z.eqb_spec va 0) as [->|Hva]; [done|]. cbn [orb].
  assert (arr_len (map to_m o) = count_if e_in_use (g_mapva s)) as ->.
  { unfold arr_len, count_if. rewrite length_map. by rewrite (Permutation_length Hp). }
  destruct (find_idx _ (g_mapva s)) as [i|] eqn:Ei.
  - apply find_idx_Some in Ei as (x & Hx & Hu & _). apply negb_true_iff in Hu.
    pose proof (count_if_insert e_in_use (g_mapva s) i x (Ent true iso hc hd hm va 0) Hx) as Hc.
    assert (count_if e_in_use (<[i := Ent true iso hc hd hm va 0]> (g_mapva s)) <= NVKVM_MAPVA_MAX) as Hm.
    { unfold count_if, NVKVM_MAPVA_MAX in *. rewrite <- Hl. unfold arr_len.
      erewrite <- (length_insert (g_mapva s) i). apply inj_le, List.filter_length_le. }
    rewrite Hu in Hc. cbn [b2n e_in_use] in Hc.
    rewrite (proj2 (Z.leb_gt _ _)) by lia. rewrite u64_small by lia.
    split; cbn [g_mapva g_mapva_seq]; [unfold arr_len; by rewrite length_insert|lia|].
    exists (Ent true iso hc hd hm va (g_mapva_seq s + 1) :: o). split_and!; [| | |done].
    + unfold live in *. cbn [g_mapva]. destruct (filter_alter e_in_use (fun _ => Ent true iso hc hd hm va (g_mapva_seq s + 1)) (g_mapva s) i x Hx)
        as (r & H1 & H2). rewrite Hu in H1. cbn [e_in_use app] in H1, H2.
      rewrite list_insert_alter, H2. constructor. by rewrite Hp.
    + constructor; [done|]. eapply Forall_impl; [exact Hb|]. unfold newer. cbn [e_seq]. intros e He. lia.
    + constructor; [cbn [e_seq]; lia|]. eapply Forall_impl; [exact Hb|]. intros e He. simpl in He. lia.
  - apply find_idx_None in Ei. rewrite (proj2 (Z.leb_le _ _)); [done|].
    unfold count_if. rewrite <- Hl. unfold arr_len. apply inj_le.
    rewrite (forallb_filter_id e_in_use (g_mapva s)); [done|].
    apply forallb_forall. intros e He%list_elem_of_In. apply (proj1 (Forall_forall _ _) Ei) in He.
    by apply negb_false_iff in He.
Qed.

Lemma is_key_to_m iso hc hd hm e : is_key iso hc hd hm e = e_in_use e && has_key iso hc hd hm (to_m e).
Proof. unfold is_key, has_key, to_m. cbn. by rewrite !andb_assoc. Qed.

(** In an ordered list the first matching entry is the newest one. *)
Lemma first_is_newest f o e :
  StronglySorted newer o -> e ∈ o -> f e = true -> Forall (fun x => f x = true -> e_seq x <= e_seq e) o ->
  exists k, find_idx f o = Some k /\ o !! k = Some e.
Proof.
  intros Ho. revert e. induction Ho as [|x o Ho IH Hx]; intros e He Hf Hmax; [by apply elem_of_nil in He|].
  apply Forall_cons in Hmax as [Hm1 Hm2]. simpl. destruct (f x) eqn:Ex.
  - exists 0%nat. split; [done|]. apply elem_of_cons in He as [->|He]; [done|].
    apply (proj1 (Forall_forall _ _) Hx) in He. unfold newer in He. specialize (Hm1 eq_refl). lia.
  - apply elem_of_cons in He as [->|He]; [congruence|]. destruct (IH e He Hf Hm2) as (k & -> & Hk). by exists (S k).
Qed.

Lemma find_idx_map {A B} (g : A -> B) (f : B -> bool) l : find_idx f (map g l) = find_idx (fun x => f (g x)) l.
Proof. induction l as [|x l IH]; simpl; [done|]. by rewrite IH. Qed.

Lemma find_idx_ext {A} (f g : A -> bool) l : Forall (fun x => f x = g x) l -> find_idx f l = find_idx g l.
Proof. induction 1 as [|x l Hx _ IH]; simpl; [done|]. by rewrite Hx, IH. Qed.

Lemma live_key s o iso hc hd hm :
  Permutation o (live s) -> find_idx (has_key iso hc hd hm) (map to_m o) = find_idx (is_key iso hc hd hm) o.
Proof.
  intros Hp. rewrite find_idx_map. apply find_idx_ext, Forall_forall. intros e He. rewrite is_key_to_m.
  rewrite Hp in He. apply list_elem_of_In, filter_In in He as [_ ->]. done.
Qed.

Lemma take_refines n s l iso hc hd hm :
  refines n s l ->
  let '(s', v) := nvkvm_mapva_take s iso hc hd hm in
  let '(l', v') := spec_take l iso hc hd hm in
  v = v' /\ refines n s' l'.
Proof.
  intros [Hl Hs (o & Hp & Ho & Hb & ->)]. unfold nvkvm_mapva_take, spec_take.
  rewrite (live_key s o) by done. pose proof (newest_spec (is_key iso hc hd hm) 0 (g_mapva s) 0 None) as Hn.
  destruct (newest _ 0 (g_mapva s) 0 None) as [i|].
  - destruct Hn as [[? _]|(e & _ & He & Hk & _ & Hmax)]; [done|]. rewrite Nat.sub_0_r in He.
    assert (e_in_use e = true) as Hu by (rewrite is_key_to_m in Hk; zb; done).
    destruct (filter_alter e_in_use retired (g_mapva s) i e He) as (r & H1 & H2). rewrite Hu in H1. cbn in H1, H2.
    assert (e ∈ o) as Heo by (rewrite Hp; unfold live; rewrite H1; by left).
    destruct (first_is_newest _ o e Ho Heo Hk) as (k & -> & Hok).
    { rewrite Hp. apply Forall_forall. intros x Hx. apply (proj1 (Forall_forall _ _) Hmax).
      apply list_elem_of_In, filter_In in Hx as [Hx _]. by apply list_elem_of_In. }
    rewrite He. change (map to_m o) with (to_m <$> o). rewrite list_lookup_fmap, Hok. cbn. split; [done|].
    pose proof (delete_Permutation o k e Hok) as Hd.
    split; cbn [g_mapva g_mapva_seq]; [unfold arr_len; by rewrite length_alter|done|].
    exists (delete k o). split_and!.
    + apply (Permutation_cons_inv (a := e)). rewrite <- Hd, Hp. unfold live. cbn [g_mapva]. by rewrite H1, H2.
    + eapply sorted_sublist; [|exact Ho]. apply sublist_delete.
    + eapply Forall_sublist; [apply sublist_delete|done].
    + by rewrite list_fmap_delete.
  - destruct Hn as [_ Hmax]. rewrite (proj2 (find_idx_None _ o)).
    + split; [done|]. split; [done|done|by exists o].
    + apply Forall_forall. intros e He. destruct (is_key iso hc hd hm e) eqn:Ek; [|done].
      pose proof (proj1 (Forall_forall _ _) Hb e He) as Hpos. rewrite Hp in He.
      apply list_elem_of_In, filter_In in He as [He _]. apply list_elem_of_In in He.
      pose proof (proj1 (Forall_forall _ _) Hmax e He Ek). simpl in *. lia.
Qed.

Lemma filter_retired iso l :
  List.filter (fun e => negb (e_iso e =? iso)) (List.filter e_in_use l) =
  List.filter e_in_use (map (fun e => if e_in_use e && (e_iso e =? iso) then retired e else e) l).
Proof.
  induction l as [|e r IH]; [done|]. cbn [List.filter map]. destruct (e_in_use e) eqn:Eu; cbn [andb List.filter].
  - destruct (Z.eqb_spec (e_iso e) iso); cbn [negb retired e_in_use]; [done|]. by rewrite Eu, IH.
  - by rewrite Eu.
Qed.

Lemma forget_refines n s l iso :
  refines n s l -> refines n (nvkvm_mapva_forget_isolate s iso) (spec_forget l iso).
Proof.
  intros [Hl Hs (o & Hp & Ho & Hb & ->)]. unfold nvkvm_mapva_forget_isolate, spec_forget.
  split; cbn [g_mapva g_mapva_seq]; [unfold arr_len; by rewrite length_map|done|].
  exists (List.filter (fun e => negb (e_iso e =? iso)) o). split_and!.
  - rewrite (live_perm _ _ _ Hp). unfold live. cbn [g_mapva].
    by rewrite filter_retired.
  - eapply sorted_sublist; [apply filter_sublist|done].
  - eapply Forall_sublist; [apply filter_sublist|done].
  - apply map_filter_to_m.
Qed.

Lemma refines_weaken n m s l : refines n s l -> n <= m -> refines m s l.
Proof. intros [H1 H2 H3] Hm. split; [done|lia|done]. Qed.

Lemma step_refines n s l o :
  refines n s l -> n < W64 - 1 ->
  let '(s', v) := mstep s o in let '(l', v') := sstep l o in v = v' /\ refines (n + 1) s' l'.
Proof.
  intros Hr Hn. destruct o as [iso hc hd hm va|iso hc hd hm|iso]; simpl.
  - split; [done|]. by apply record_refines.
  - pose proof (take_refines n s l iso hc hd hm Hr) as Ht.
    destruct (nvkvm_mapva_take _ _ _ _ _), (spec_take _ _ _ _ _). destruct Ht. split; [done|].
    eapply refines_weaken; [done|lia].
  - split; [done|]. eapply refines_weaken; [by apply forget_refines|lia].
Qed.

Lemma runs_refine ops n s l :
  refines n s l -> n + arr_len ops < W64 ->
  snd (runs mstep s ops) = snd (runs sstep l ops) /\
  refines (n + arr_len ops) (fst (runs mstep s ops)) (fst (runs sstep l ops)).
Proof.
  revert n s l. induction ops as [|o ops IH]; intros n s l Hr Hn; simpl.
  { unfold arr_len. simpl. by rewrite Z.add_0_r. }
  assert (arr_len (o :: ops) = 1 + arr_len ops) as El by (unfold arr_len; simpl; lia).
  assert (0 <= arr_len ops) by (unfold arr_len; lia).
  pose proof (step_refines n s l o Hr ltac:(lia)) as Hs. destruct (mstep s o) as [s1 v], (sstep l o) as [l1 v'].
  destruct Hs as [<- Hr1]. destruct (IH (n + 1) s1 l1 Hr1 ltac:(lia)) as [He Hf].
  destruct (runs mstep s1 ops) as [s2 vs], (runs sstep l1 ops) as [l2 vs']. cbn [fst snd] in *.
  split; [by rewrite He|]. rewrite El. by replace (n + (1 + arr_len ops)) with (n + 1 + arr_len ops) by lia.
Qed.

Lemma mapva0_refines : refines 0 mapva0 [].
Proof.
  split; [reflexivity|done|]. exists []. split_and!; [|constructor..|done].
  unfold live, mapva0. cbn [g_mapva]. generalize (Z.to_nat NVKVM_MAPVA_MAX). intros k. by induction k.
Qed.

(** C14: over any sequence of map, unmap and isolate-death operations (fewer than
    2^64) the table answers every unmap with the address the contract gives: the newest
    mapping, still live, that this isolate made of this very object, or 0; a slot
    reused out of order, a remapping and a full table included. *)
Theorem mapva_refines ops :
  arr_len ops < W64 -> snd (runs mstep mapva0 ops) = snd (runs sstep [] ops).
Proof. intros Hn. apply (runs_refine ops 0 mapva0 []); [apply mapva0_refines|lia]. Qed.

(** Two mappings of one object, with a slot freed in between by another isolate. *)
Definition demo_ops : list mop :=
  [MRecord 9 1 2 3 4096; MRecord 3 7 8 9 8192; MTake 9 1 2 3; MRecord 3 7 8 9 12288; MTake 4 7 8 9;
   MTake 3 7 8 9; MTake 3 7 8 9; MTake 3 7 8 9].
Lemma mapva_refines_witness :
  snd (runs mstep mapva0 demo_ops) = [0; 0; 4096; 0; 0; 12288; 8192; 0] /\
  snd (runs mstep mapva0 demo_ops) = snd (runs sstep [] demo_ops).
Proof. split; [vm_compute; reflexivity|]. apply (mapva_refines demo_ops). reflexivity. Defined.

End MapVa.
