(* ===== verification/RmForward.v ===== *)
(** * RmForward: forwarding an RM, DRM or NVKMS command

    Models [nvkvm_req_ioctl_on_isolate] ([src/qemu/nvkvm_isolate_handlers.c]) after
    the gates of [RmGates.rm_chain]: what it rewrites before the command is sent to
    the isolate (the process ids of GET_PID_INFO, the address of an unmap, the vblank
    reservation), and what it does with the answer (the ids put back, the vblank
    record, the mapping table, the VM's client set, the share request).

    [rm_begin] and [rm_end] are the two halves; the isolate's answer comes between
    them.  The system [cstep] interleaves the requests of all workers over the
    client set. *)
From S2P Require Import Prelude Bytes Extents Abi Handles IsoMmap UvmVa UvmIoctl Gates RmGates Isolates MapVa.

Module RmForward.
Import Abi Handles IsoMmap UvmIoctl Gates RmGates Isolates MapVa.

(** ** GET_PID_INFO *)
Definition NVKVM_PIDINFO_STRIDE : Z := 72.
Definition NV2080_CTRL_CMD_GPU_GET_PID_INFO : Z := 545259918.
Definition gpi_off (i : nat) : Z := 8 + Z.of_nat i * NVKVM_PIDINFO_STRIDE.

(** [gpi_iso] and [gpi_pid] of an entry. *)
Record gpi_ent := Gpi { g_iso : Z; g_pid : Z }.

(** The value sent for the guest's [v], and the isolate it stands for. *)
Definition gpi_subst (t : nvkvm_isolate_table) (v : Z) : Z * Z :=
  if negb ((v & 2147483648) =? 0) then
    let iso := v & 2147483647 in
    let hp := nvkvm_isolate_host_pid t iso in
    if 0 <? hp then (u32 hp, iso) else (0, 0)
  else (0, 0).

(** [ts i]: the isolate table at entry [i]. *)
Fixpoint gpi_loop (ts : nat -> nvkvm_isolate_table) (n i : nat) (asize : Z) (ab : list Z) : list Z * list gpi_ent :=
  match n with
  | O => (ab, [])
  | S n' =>
      let off := gpi_off i in
      if asize <? off + NVKVM_PIDINFO_STRIDE then (ab, [])
      else
        let v := rd 4 off ab in
        let '(repl, iso) := gpi_subst (ts i) v in
        let '(ab', es) := gpi_loop ts n' (S i) asize (wr off (le_bytes 4 repl) ab) in
        (ab', Gpi iso v :: es)
  end.

(** The command word of an RM_CONTROL, if the request is one. *)
Definition ctrl_word (r : rreq) (pb : option (list Z)) : option Z :=
  if (IOC_TYPE (q_cmd (rq r)) =? TYPE_F) && (IOC_NR (q_cmd (rq r)) =? NV_ESC_RM_CONTROL) && (12 <=? q_psize (rq r))
  then (rd 4 8) <$> pb else None.

Definition gpi_prepare (ts : nat -> nvkvm_isolate_table) (r : rreq) (pb : option (list Z))
    : option (list Z) * option (list gpi_ent) :=
  match ctrl_word r pb, rq_abuf r with
  | Some icmd, Some ab =>
      if (8 + NVKVM_PIDINFO_STRIDE <=? rq_asize r) && (icmd =? NV2080_CTRL_CMD_GPU_GET_PID_INFO) then
        let count := Z.min (rd 4 0 ab) 200 in
        let '(ab', es) := gpi_loop ts (Z.to_nat count) 0 (rq_asize r) ab in (Some ab', Some es)
      else (Some ab, None)
  | _, ab => (ab, None)
  end.

(** [mem tgid index]: the sum of [nvkvm_admin_get_pid_mem] and whether any thread answered. *)
Fixpoint gpi_fixup (ts : nat -> nvkvm_isolate_table) (mem : Z -> Z -> Z * bool) (i : nat) (es : list gpi_ent)
    (ab : list Z) : list Z :=
  match es with
  | [] => ab
  | e :: es' =>
      let off := gpi_off i in
      let ab1 :=
        if g_iso e =? 0 then ab
        else
          let tgid := nvkvm_isolate_host_pid (ts i) (g_iso e) in
          if tgid <=? 0 then ab
          else
            let '(sum, any) := mem tgid (rd 4 (off + 4) ab) in
            wr (off + 16) (le_bytes 8 sum) (wr (off + 8) (le_bytes 4 (if any then 0 else 65535)) ab)
      in gpi_fixup ts mem (S i) es' ab1
  end.

Fixpoint gpi_restore (i : nat) (es : list gpi_ent) (ab : list Z) : list Z :=
  match es with
  | [] => ab
  | e :: es' => gpi_restore (S i) es' (wr (gpi_off i) (le_bytes 4 (g_pid e)) ab)
  end.

(** [nvkvm_admin_get_pid_mem]: [tids] are the threads of the process group, [query]
    the driver's answer for one: result, private and shared-owned bytes. *)
Definition nvkvm_admin_get_pid_mem (ready : bool) (tids : option (list Z)) (query : Z -> Z -> option (Z * Z * Z))
    (index : Z) : Z * bool :=
  match (if ready then tids else None) with
  | None => (0, false)
  | Some l =>
      fold_left (fun '(sum, any) tid =>
        if tid <=? 0 then (sum, any)
        else
          match query (u32 tid) index with
          | Some (result, priv, shOwned) => if result =? 0 then (u64 (sum + u64 (priv + shOwned)), true) else (sum, any)
          | None => (sum, any)
          end) l (0, false)
  end.

(** [nvkvm_admin_ensure]: the admin objects are built once; a failure is kept.  [opens]
    are the descriptors of nvidiactl and nvidia0, [allocs] the outcomes of the three
    allocations. *)
Record admin := Admin { adm_state : Z; adm_ctl : Z; adm_gpu : Z; adm_client : Z; adm_subdev : Z }.
Definition nvkvm_admin_ensure (opens : Z * Z) (allocs : option Z * (Z -> option Z) * (Z -> Z -> option Z)) (a : admin)
    : admin * bool * list Z :=
  if negb (adm_state a =? 0) then (a, adm_state a =? 1, [])
  else
    let '(ctl, gpu) := opens in
    let failed := (Admin (-1) (adm_ctl a) (adm_gpu a) (adm_client a) (adm_subdev a), false, fd_opt ctl ++ fd_opt gpu) in
    if (ctl <? 0) || (gpu <? 0) then failed
    else
      let '(root, device, subdevice) := allocs in
      match root with
      | None => failed
      | Some client =>
          match device client with
          | None => failed
          | Some dev =>
              match subdevice client dev with
              | None => failed
              | Some sub => (Admin 1 ctl gpu client sub, true, [])
              end
          end
      end.

(** ** Unmapping: the address the driver returned for the mapping *)
Definition fr (r : rreq) (nr psize : Z) : bool :=
  (IOC_TYPE (q_cmd (rq r)) =? TYPE_F) && (IOC_NR (q_cmd (rq r)) =? nr) && (psize <=? q_psize (rq r)).

Definition unmap_prepare (mv : mapva) (r : rreq) (pb : option (list Z)) : mapva * option (list Z) :=
  match pb with
  | Some b =>
      if fr r NV_ESC_RM_UNMAP_MEMORY 24 then
        let '(mv', va) := nvkvm_mapva_take mv (rq_iso r) (rd 4 0 b) (rd 4 4 b) (rd 4 8 b) in
        (mv', Some (if va =? 0 then b else wr 16 (le_bytes 8 va) b))
      else (mv, pb)
  | None => (mv, pb)
  end.

(** ** The handle a command exports or imports: the one to relay into the isolate *)
Definition xrm_target (r : rreq) (pb : option (list Z)) (abuf : option (list Z)) : option Z :=
  match ctrl_word r pb, abuf with
  | Some icmd, Some ab =>
      let hid :=
        if (icmd =? 15621) && (20 <=? rq_asize r) then Some (s32 (rd 4 16 ab))
        else if ((icmd =? 15622) || (icmd =? 15624)) && (4 <=? rq_asize r) then Some (s32 (rd 4 0 ab))
        else None in
      match hid with Some h => if 0 <? h then Some h else None | None => None end
  | _, _ => None
  end.

(** ** NVKMS: enabling and disabling a vblank semaphore *)
Definition nvkms_vblank (d : dev) (r : rreq) : bool * bool * Z :=
  let psize := q_psize (rq r) in
  if (IOC_TYPE (q_cmd (rq r)) =? TYPE_d) || negb (q_cmd (rq r) =? NVKVM_NVKMS_IOCTL_CMD) then (false, false, 0)
  else
    let cmd := match q_pbuf (rq r) with Some b => if 4 <=? psize then rd 4 0 b else UINT32_MAX | None => UINT32_MAX end in
    let sz := match q_pbuf (rq r) with Some b => if 8 <=? psize then rd 4 4 b else 0 | None => 0 end in
    let '(major, minor, _) := nvkvm_abi_parse_version (d_version d) in
    let o := nvkvm_nvkms_ops_for_version major minor in
    if o_known o && (0 <=? vblank_enable o)
    then (s32 cmd =? vblank_enable o, s32 cmd =? vblank_disable o, sz) else (false, false, sz).

(** ** Before the command is sent *)
Record rflight := RFlight {
  f_rreq : rreq; f_pb : option (list Z); f_ab : option (list Z); f_gpi : option (list gpi_ent);
  f_enable : bool; f_disable : bool; f_psz : Z; f_res : Z; f_relay : option Z
}.

(** The tables other threads share, at the places they are read. *)
Record reads := Reads {
  rd_ht : nat -> nvkvm_handle_table; rd_mm : mmap_state; rd_cl : nat -> list Z; rd_ts : nat -> nvkvm_isolate_table
}.

Definition rm_prepare (d : dev) (e : reads) (mid : nat -> nvkvm_isolate_table -> nvkvm_isolate_table)
    (t : nvkvm_isolate_table) (mv : mapva) (r : rreq) (pb : option (list Z))
    : nvkvm_isolate_table * mapva * ((uresp * option (list Z) * option (list Z)) + rflight) :=
  let '(ab, gpi) := gpi_prepare (rd_ts e) r pb in
  let '(mv1, pb1) := unmap_prepare mv r pb in
  let '(enable, disable, psz) := nvkms_vblank d r in
  let relay := xrm_target r pb1 ab in
  if enable then
    let '(t1, res) := nvkvm_isolate_nvkms_vblank_reserve mid t (rq_iso r) (q_hid (rq r)) in
    if res =? 0 then (t1, mv1, inl (Resp (u64 (- ENOSPC)) 0 0 0, pb1, ab))
    else (t1, mv1, inr (RFlight r pb1 ab gpi enable disable psz res relay))
  else (t, mv1, inr (RFlight r pb1 ab gpi enable disable psz 0 relay)).

Definition rm_begin (d : dev) (e : reads) (mid : nat -> nvkvm_isolate_table -> nvkvm_isolate_table)
    (t : nvkvm_isolate_table) (mv : mapva) (r : rreq)
    : nvkvm_isolate_table * mapva * ((uresp * option (list Z) * option (list Z)) + rflight) :=
  match rm_chain d (rd_ht e) (rd_mm e) (rd_cl e) r with
  | inl (resp, pb) => (t, mv, inl (resp, pb, rq_abuf r))
  | inr pb => rm_prepare d e mid t mv r pb
  end.

(** ** After the answer *)

(** [nvkvm_isolate_ioctl]'s result, and the buffers as it leaves them. *)
Record ranswer := RAns { ra_ret : Z; ra_nvstatus : Z; ra_fault : Z; ra_pb : option (list Z); ra_ab : option (list Z) }.
Definition answered (a : ranswer) : bool := (ra_ret a =? 0) && (ra_nvstatus a =? 0).

Definition vblank_close (f : rflight) (a : ranswer) (mid : nat -> nvkvm_isolate_table -> nvkvm_isolate_table)
    (t : nvkvm_isolate_table) : nvkvm_isolate_table :=
  let r := f_rreq f in
  if f_enable f then
    let keys :=
      match ra_ab a with
      | Some ab => if (ra_ret a =? 0) && (28 <=? rq_asize r) && (28 <=? f_psz f)
                   then Some (rd 4 0 ab, rd 4 4 ab, rd 4 24 ab) else None
      | None => None
      end in
    match keys with
    | Some (dv, dp, ct) => nvkvm_isolate_nvkms_vblank_finish mid t (rq_iso r) (f_res f) true dv dp ct
    | None => nvkvm_isolate_nvkms_vblank_finish mid t (rq_iso r) (f_res f) false 0 0 0
    end
  else if f_disable f then
    match ra_ab a with
    | Some ab =>
        if (ra_ret a =? 0) && (12 <=? rq_asize r) && (12 <=? f_psz f)
        then nvkvm_isolate_nvkms_vblank_retire mid t (rq_iso r) (q_hid (rq r)) (rd 4 0 ab) (rd 4 4 ab) (rd 4 8 ab)
        else t
    | None => t
    end
  else t.

Definition map_note (f : rflight) (a : ranswer) (mv : mapva) : mapva :=
  match ra_pb a with
  | Some b =>
      if answered a && fr (f_rreq f) NV_ESC_RM_MAP_MEMORY 40
      then nvkvm_mapva_record mv (rq_iso (f_rreq f)) (rd 4 0 b) (rd 4 4 b) (rd 4 8 b) (rd 8 32 b) else mv
  | None => mv
  end.

(** The auxiliary buffer for the guest. *)
Definition gpi_finish (ts : nat -> nvkvm_isolate_table) (mem : Z -> Z -> Z * bool) (f : rflight) (a : ranswer)
    : option (list Z) :=
  match f_gpi f, ra_ab a with
  | Some es, Some ab =>
      Some (gpi_restore 0 es (if ra_ret a =? 0 then gpi_fixup ts mem 0 es ab else ab))
  | _, ab => ab
  end.

(** The clients added to the VM's set, in order. *)
Definition records_client (nr : Z) : bool :=
  (nr =? NV_ESC_RM_ALLOC) || (nr =? NV_ESC_RM_ALLOC_MEMORY) || (nr =? NV_ESC_RM_CONTROL) ||
  (nr =? NV_ESC_RM_FREE) || (nr =? NV_ESC_RM_DUP_OBJECT) || (nr =? NV_ESC_RM_SHARE).

Definition client_notes (f : rflight) (a : ranswer) : list Z :=
  let r := f_rreq f in
  let nr := IOC_NR (q_cmd (rq r)) in
  match ra_pb a with
  | Some b =>
      if answered a && (IOC_TYPE (q_cmd (rq r)) =? TYPE_F) && (4 <=? q_psize (rq r)) && records_client nr then
        rd 4 0 b ::
        (if (nr =? NV_ESC_RM_ALLOC) && (16 <=? q_psize (rq r)) && root_class (rd 4 12 b) then [rd 4 8 b] else [])
      else []
  | None => []
  end.

(** The request of NV_ESC_RM_SHARE sent after an allocation. *)
Definition SHARE_CMD : Z := 3222816309.
Definition share_bytes (hClient hObject : Z) : list Z :=
  le_bytes 4 hClient ++ le_bytes 4 hObject ++ le_bytes 4 0 ++ le_bytes 4 1 ++ le_bytes 2 1 ++ [0; 0] ++ le_bytes 4 0.
Definition share_of (f : rflight) (a : ranswer) : option (list Z) :=
  match ra_pb a with
  | Some b =>
      if answered a && (fr (f_rreq f) NV_ESC_RM_ALLOC 16 || fr (f_rreq f) NV_ESC_RM_ALLOC_MEMORY 16) then
        let hClient := rd 4 0 b in
        let hObjNew := rd 4 8 b in
        let hClass := rd 4 12 b in
        let is_client_obj := (hObjNew =? hClient) && (hClass =? 0) in
        let needs_share := negb is_client_obj && negb (hClass =? 0) in
        if needs_share && negb (hClient =? 0) && negb (hObjNew =? 0) then Some (share_bytes hClient hObjNew) else None
      else None
  | None => None
  end.

Definition rm_resp (a : ranswer) : uresp :=
  Resp (u64 (ra_ret a)) (if (ra_ret a =? - EFAULT) && negb (ra_fault a =? 0) then EFAULT else 0)
       (ra_nvstatus a) (ra_fault a).

Record rdone := RDone {
  dn_resp : uresp; dn_pb : option (list Z); dn_ab : option (list Z); dn_clients : list Z; dn_share : option (list Z)
}.
Definition rm_end (f : rflight) (a : ranswer) (ts : nat -> nvkvm_isolate_table) (mem : Z -> Z -> Z * bool)
    (mid : nat -> nvkvm_isolate_table -> nvkvm_isolate_table) (t : nvkvm_isolate_table) (mv : mapva)
    : nvkvm_isolate_table * mapva * rdone :=
  (vblank_close f a mid t, map_note f a mv,
   RDone (rm_resp a) (ra_pb a) (gpi_finish ts mem f a) (client_notes f a) (share_of f a)).

(** ** Process ids *)
Lemma gpi_off_S i : gpi_off (S i) = gpi_off i + 72.
Proof. unfold gpi_off, NVKVM_PIDINFO_STRIDE. lia. Qed.
Lemma gpi_off_mono i j : (i <= j)%nat -> gpi_off i <= gpi_off j.
Proof. unfold gpi_off, NVKVM_PIDINFO_STRIDE. lia. Qed.
Lemma gpi_off_pos i : 8 <= gpi_off i.
Proof. unfold gpi_off, NVKVM_PIDINFO_STRIDE. lia. Qed.

(** What may be sent for a process id: nothing, or the process of an isolate of
    this VM that is alive. *)
Definition own_pid (t : nvkvm_isolate_table) (v : Z) : Prop :=
  v = 0 \/ exists id, bad_iso id = false /\ mine id (iso_at t id) = true /\ i_alive (iso_at t id) = true /\
                      0 < i_pid (iso_at t id) /\ v = u32 (i_pid (iso_at t id)).

Lemma gpi_subst_own t v : own_pid t (fst (gpi_subst t v)).
Proof.
  unfold gpi_subst. case_if; [|by left]. set (id := v & 2147483647).
  destruct (Z.ltb_spec 0 (nvkvm_isolate_host_pid t id)) as [Hp|]; [|by left]. right. exists id.
  unfold nvkvm_isolate_host_pid in *. cbv zeta in *. destruct (bad_iso id); [lia|].
  destruct (mine id (iso_at t id)), (i_alive (iso_at t id)); cbn [andb] in *; try lia. split_and!; done.
Qed.

Lemma gpi_subst_range t v : 0 <= fst (gpi_subst t v) < W32.
Proof.
  unfold gpi_subst. case_if; [|simpl; lia]. cbv zeta. case_if; [apply u32_range|simpl; lia].
Qed.

(** The bytes outside the process ids of entries [i], ..., [i + n - 1]. *)
Definition outside (i n : nat) (j : Z) : Prop :=
  forall k, (k < n)%nat -> j < gpi_off (i + k) \/ gpi_off (i + k) + 4 <= j.

Record prepared (ts : nat -> nvkvm_isolate_table) (n i : nat) (asize : Z) (ab ab' : list Z) (es : list gpi_ent) : Prop := {
  p_len : length ab' = length ab;
  p_count : (length es <= n)%nat;
  p_all : length es = n \/ asize < gpi_off (i + length es) + 72;
  p_ent : forall k e, es !! k = Some e ->
    gpi_off (i + k) + 72 <= asize /\ g_pid e = rd 4 (gpi_off (i + k)) ab /\
    rd 4 (gpi_off (i + k)) ab' = fst (gpi_subst (ts (i + k)%nat) (g_pid e));
  p_out : forall j, 0 <= j -> outside i (length es) j -> ab' !! Z.to_nat j = ab !! Z.to_nat j
}.

Lemma gpi_loop_spec ts n i asize ab ab' es :
  gpi_loop ts n i asize ab = (ab', es) -> arr_len ab = asize -> prepared ts n i asize ab ab' es.
Proof.
  revert i ab ab' es. induction n as [|n IH]; intros i ab ab' es; cbn [gpi_loop].
  { intros [= <- <-] _. split; [done|done|by left|done|done]. }
  intros Hg Hl. destruct (Z.ltb_spec asize (gpi_off i + NVKVM_PIDINFO_STRIDE)) as [Hlt|Hge]; unfold NVKVM_PIDINFO_STRIDE in *.
  { injection Hg as <- <-. split; [done|simpl; lia|right; simpl; rewrite Nat.add_0_r; lia|done|done]. }
  destruct (gpi_subst (ts i) (rd 4 (gpi_off i) ab)) as [repl iso] eqn:Es.
  set (ab1 := wr (gpi_off i) (le_bytes 4 repl) ab) in *.
  destruct (gpi_loop ts n (S i) asize ab1) as [ab2 es2] eqn:El. injection Hg as <- <-.
  pose proof (gpi_off_pos i) as Hpos.
  assert (arr_len (le_bytes 4 repl) = 4) as Hb by apply le_bytes_arr_len.
  assert (length ab1 = length ab) as Hl1 by (apply wr_length; lia).
  destruct (IH _ _ _ _ El ltac:(unfold arr_len in *; lia)) as [P1 P2 P3 P4 P5].
  pose proof (gpi_subst_range (ts i) (rd 4 (gpi_off i) ab)) as Hr. rewrite Es in Hr. cbn [fst] in Hr.
  assert (forall j, 0 <= j -> j < gpi_off i \/ gpi_off i + 4 <= j -> ab1 !! Z.to_nat j = ab !! Z.to_nat j) as Hout
    by (intros j Hj Hd; apply lookup_wr_out; lia).
  split.
  - lia.
  - simpl. lia.
  - simpl. rewrite <- Nat.add_succ_comm. destruct P3; [left; lia|by right].
  - intros [|k] e Hk; simpl in Hk.
    + injection Hk as <-. cbn [g_pid]. rewrite Nat.add_0_r. split; [lia|]. split; [done|]. rewrite Es. cbn [fst].
      rewrite (rd_ext 4 (gpi_off i) ab2 ab1).
      * apply rd_wr; [lia|change (Z.of_nat 4) with 4; lia|done].
      * lia.
      * intros j Hj. apply P5; [lia|]. intros k' _. left. rewrite Nat.add_succ_comm.
        pose proof (gpi_off_mono (S i) (i + S k') ltac:(lia)). rewrite gpi_off_S in *. lia.
    + rewrite <- Nat.add_succ_comm. destruct (P4 k e Hk) as (H1 & H2 & H3). split; [done|]. split; [|done].
      rewrite H2. apply rd_ext; [pose proof (gpi_off_pos (S i + k)); lia|].
      intros j Hj. pose proof (gpi_off_mono (S i) (S i + k) ltac:(lia)). rewrite gpi_off_S in *.
      apply Hout; lia.
  - intros j Hj Ho. rewrite P5; [|done|].
    + apply Hout; [done|]. specialize (Ho 0%nat ltac:(simpl; lia)). by rewrite Nat.add_0_r in Ho.
    + intros k Hk. rewrite Nat.add_succ_comm. apply Ho. simpl. lia.
Qed.

Lemma gpi_fixup_length ts mem i es ab :
  (forall k, (k < length es)%nat -> gpi_off (i + k) + 72 <= arr_len ab) ->
  length (gpi_fixup ts mem i es ab) = length ab.
Proof.
  revert i ab. induction es as [|e es IH]; intros i ab Hb; cbn [gpi_fixup]; [done|].
  pose proof (Hb 0%nat ltac:(simpl; lia)) as H0. rewrite Nat.add_0_r in H0. pose proof (gpi_off_pos i) as Hp.
  set (ab1 := if g_iso e =? 0 then ab else _).
  assert (length ab1 = length ab) as Hl.
  { subst ab1. repeat case_if; [done..|]. destruct (mem _ _) as [sum any].
    assert (forall v, arr_len (le_bytes 4 v) = 4) as H4 by (intros v; apply le_bytes_arr_len).
    assert (arr_len (le_bytes 8 sum) = 8) as H8 by apply le_bytes_arr_len.
    assert (forall v, length (wr (gpi_off i + 8) (le_bytes 4 v) ab) = length ab) as Hw
      by (intros v; apply wr_length; rewrite ?H4; lia).
    rewrite wr_length; [apply Hw|lia|]. unfold arr_len at 2. rewrite Hw. fold (arr_len ab). lia. }
  rewrite IH; [done|]. intros k Hk. unfold arr_len. rewrite Hl, Nat.add_succ_comm. apply Hb. simpl. lia.
Qed.

Lemma gpi_restore_spec i es ab :
  (forall k, (k < length es)%nat -> gpi_off (i + k) + 72 <= arr_len ab) ->
  Forall (fun e => 0 <= g_pid e < W32) es ->
  length (gpi_restore i es ab) = length ab /\
  (forall k e, es !! k = Some e -> rd 4 (gpi_off (i + k)) (gpi_restore i es ab) = g_pid e) /\
  (forall j, 0 <= j < gpi_off i -> gpi_restore i es ab !! Z.to_nat j = ab !! Z.to_nat j).
Proof.
  revert i ab. induction es as [|e es IH]; intros i ab Hb Hf; cbn [gpi_restore]; [done|].
  apply Forall_cons in Hf as [He Hf].
  pose proof (Hb 0%nat ltac:(simpl; lia)) as H0. rewrite Nat.add_0_r in H0. pose proof (gpi_off_pos i) as Hp.
  set (ab1 := wr (gpi_off i) (le_bytes 4 (g_pid e)) ab).
  assert (arr_len (le_bytes 4 (g_pid e)) = 4) as H4 by apply le_bytes_arr_len.
  assert (length ab1 = length ab) as Hl by (apply wr_length; lia).
  destruct (IH (S i) ab1) as (I1 & I2 & I3); [|done|].
  { intros k Hk. unfold arr_len. rewrite Hl, Nat.add_succ_comm. apply Hb. simpl. lia. }
  rewrite gpi_off_S in I3. split; [lia|]. split.
  - intros [|k] e' Hk; simpl in Hk.
    + injection Hk as <-. rewrite Nat.add_0_r. rewrite (rd_ext 4 (gpi_off i) _ ab1); [|lia|intros j Hj; apply I3; simpl in *; lia].
      apply rd_wr; [lia|change (Z.of_nat 4) with 4; lia|done].
    + rewrite <- Nat.add_succ_comm. by apply I2.
  - intros j Hj. rewrite I3 by lia. apply lookup_wr_out; lia.
Qed.

(** The auxiliary buffer has [aux_size] bytes. *)
Definition aux_ok (r : rreq) : Prop :=
  forall ab, rq_abuf r = Some ab -> arr_len ab = rq_asize r /\ Forall (fun c => 0 <= c < 256) ab.

Lemma rm_begin_prepared d e mid t mv r t' mv' f :
  rm_begin d e mid t mv r = (t', mv', inr f) ->
  exists pb, rm_chain d (rd_ht e) (rd_mm e) (rd_cl e) r = inr pb /\ f_rreq f = r /\
             (f_ab f, f_gpi f) = gpi_prepare (rd_ts e) r pb /\ (mv', f_pb f) = unmap_prepare mv r pb.
Proof.
  unfold rm_begin, rm_prepare. destruct (rm_chain _ _ _ _ _) as [[e0 pb]|pb]; [done|]. intros Hb. exists pb.
  destruct (gpi_prepare _ _ _) as [ab gpi], (unmap_prepare _ _ _) as [mv1 pb1], (nvkms_vblank _ _) as [[en di] sz].
  destruct en; [|by injection Hb as <- <- <-].
  destruct (nvkvm_isolate_nvkms_vblank_reserve _ _ _ _) as [t1 res]. case_if_in Hb; [done|]. by injection Hb as <- <- <-.
Qed.

Lemma gpi_prepare_spec ts r pb ab' es :
  gpi_prepare ts r pb = (Some ab', Some es) -> aux_ok r ->
  exists ab, rq_abuf r = Some ab /\ prepared ts (Z.to_nat (Z.min (rd 4 0 ab) 200)) 0 (rq_asize r) ab ab' es /\
             Forall (fun e => 0 <= g_pid e < W32) es.
Proof.
  unfold gpi_prepare. intros Hg Hok. destruct (ctrl_word r pb) as [w|]; [|destruct (rq_abuf r); done].
  destruct (rq_abuf r) as [ab|] eqn:Ea; [|done]. case_if_in Hg; [|done]. destruct (Hok ab Ea) as [Hl Hb].
  destruct (gpi_loop _ _ _ _ _) as [ab1 es1] eqn:El. injection Hg as <- <-. exists ab. split; [done|].
  apply gpi_loop_spec in El as Hp; [|done]. split; [done|]. apply Forall_lookup. intros k x Hx.
  destruct (p_ent _ _ _ _ _ _ _ Hp k x Hx) as (_ & -> & _). by apply (rd_range 4).
Qed.

(** Process ids in GET_PID_INFO.  In every entry the handler inspects, the
    field sent to the driver is 0 or the process of a live isolate of this VM,
    whatever the guest wrote; no other byte of the buffer changes; an inspected
    entry lies inside the buffer, so the counts written afterwards do too; and
    whatever the isolate answers, success or failure, the guest gets back a buffer
    of the same length with its own values in those fields. *)
Theorem pid_info_confined d e mid t mv r t' mv' f es :
  rm_begin d e mid t mv r = (t', mv', inr f) -> f_gpi f = Some es -> aux_ok r ->
  exists ab ab1, rq_abuf r = Some ab /\ f_ab f = Some ab1 /\ length ab1 = length ab /\
  (forall i, (i < length es)%nat ->
     gpi_off i + NVKVM_PIDINFO_STRIDE <= arr_len ab /\ own_pid (rd_ts e i) (rd 4 (gpi_off i) ab1)) /\
  (forall j, 0 <= j -> outside 0 (length es) j -> ab1 !! Z.to_nat j = ab !! Z.to_nat j) /\
  (forall a ab2 ts mem, ra_ab a = Some ab2 -> length ab2 = length ab ->
     exists ab3, gpi_finish ts mem f a = Some ab3 /\ length ab3 = length ab /\
     forall i, (i < length es)%nat -> rd 4 (gpi_off i) ab3 = rd 4 (gpi_off i) ab).
Proof.
  intros Hb Hes Hok. apply rm_begin_prepared in Hb as (pb & _ & _ & Hg & _). rewrite Hes in Hg.
  assert (exists ab1, f_ab f = Some ab1) as [ab1 E1].
  { unfold gpi_prepare in Hg. destruct (ctrl_word r pb), (rq_abuf r); try done.
    case_if_in Hg; [|done]. destruct (gpi_loop _ _ _ _ _). injection Hg as -> _. by eexists. }
  rewrite E1 in Hg. symmetry in Hg. apply gpi_prepare_spec in Hg as (ab & Ea & [P1 P2 P3 P4 P5] & Hf); [|done].
  destruct (Hok ab Ea) as [Hl _].
  assert (forall i, (i < length es)%nat -> gpi_off i + 72 <= arr_len ab) as Hin.
  { intros i Hi. destruct (lookup_lt_is_Some_2 es i Hi) as [x Hx]. rewrite Hl. by apply (P4 i x). }
  exists ab, ab1. split_and!; [done|done|done| |done|].
  - intros i Hi. split; [by apply Hin|]. destruct (lookup_lt_is_Some_2 es i Hi) as [x Hx].
    destruct (P4 i x Hx) as (_ & _ & Hr). cbn [Nat.add] in Hr. rewrite Hr. apply gpi_subst_own.
  - intros a ab2 ts mem Ha H2. unfold gpi_finish. rewrite Hes, Ha. eexists. split; [done|].
    set (ab2' := if ra_ret a =? 0 then _ else _).
    assert (length ab2' = length ab) as Hl2.
    { subst ab2'. case_if; [|done]. rewrite gpi_fixup_length; [done|]. intros k Hk. simpl.
      unfold arr_len. rewrite H2. by apply Hin. }
    destruct (gpi_restore_spec 0 es ab2') as (R1 & R2 & _); [|done|].
    { intros k Hk. simpl. unfold arr_len. rewrite Hl2. by apply Hin. }
    split; [by rewrite R1|]. intros i Hi. destruct (lookup_lt_is_Some_2 es i Hi) as [x Hx].
    specialize (R2 i x Hx). cbn [Nat.add] in R2. rewrite R2. by apply (P4 i x).
Qed.

(** Isolate 3 runs as process 777.  The guest asks for isolate 3, and for process
    4242 of the host. *)
Definition demo_isos : nvkvm_isolate_table := set_iso nvkvm_isolate_table_init 3 (created (claim iso0 3) 777 5).
Definition demo_entry (v : Z) : list Z := le_bytes 4 v ++ replicate 68 0.
Definition demo_gpi_ab (count : Z) (l : list Z) : list Z :=
  le_bytes 4 count ++ replicate 4 0 ++ concat (map demo_entry l).
Definition demo_gpi_pb : list Z := le_bytes 4 7 ++ le_bytes 4 8 ++ le_bytes 4 NV2080_CTRL_CMD_GPU_GET_PID_INFO ++ replicate 20 0.
Definition demo_gpi (count : Z) (l : list Z) : rreq :=
  let ab := demo_gpi_ab count l in
  RReq (Req 3 (cmd_F NV_ESC_RM_CONTROL) (arr_len demo_gpi_pb) (Some demo_gpi_pb)) 3 (arr_len ab) (Some ab).
Definition demo_reads (cl : list Z) : reads := Reads demo_ht demo_state (fun _ => cl) (fun _ => demo_isos).
Definition demo_begin (cl : list Z) (r : rreq) : option rflight :=
  match rm_begin (Dev false None None) (demo_reads cl) (fun _ t => t) demo_isos mapva0 r with
  | (_, _, inr f) => Some f
  | _ => None
  end.

Lemma demo_gpi_ok count l :
  forallb (fun c => (0 <=? c) && (c <? 256)) (demo_gpi_ab count l) = true -> aux_ok (demo_gpi count l).
Proof. intros H ab [= <-]. split; [done|by apply bytes_ok]. Qed.

Lemma pid_info_confined_witness :
  let r := demo_gpi 2 [2147483651; 4242] in
  exists f es, demo_begin [7] r = Some f /\ f_gpi f = Some es /\ length es = 2%nat /\
  exists ab ab1, rq_abuf r = Some ab /\ f_ab f = Some ab1 /\
    rd 4 8 ab1 = 777 /\ rd 4 80 ab1 = 0 /\ own_pid demo_isos (rd 4 8 ab1).
Proof.
  intros r. unfold demo_begin. destruct (rm_begin _ _ _ _ _ r) as [[t' mv'] o] eqn:E.
  destruct o as [?|f]; [vm_compute in E; done|]. destruct (f_gpi f) as [es|] eqn:Eg; [|vm_compute in E; injection E as _ _ <-; done].
  exists f, es. split; [done|]. split; [done|].
  assert (length es = 2%nat) as Hl by (vm_compute in E; injection E as _ _ <-; by injection Eg as <-). split; [done|].
  destruct (pid_info_confined _ _ _ _ _ _ _ _ _ _ E Eg ltac:(by apply demo_gpi_ok)) as (ab & ab1 & Ha & Hb & _ & Hp & _).
  exists ab, ab1. split; [done|]. split; [done|]. split; [|split; [|apply (Hp 0%nat); rewrite Hl; lia]].
  - vm_compute in E. injection E as _ _ <-. injection Hb as <-. reflexivity.
  - vm_compute in E. injection E as _ _ <-. injection Hb as <-. reflexivity.
Defined.

(** ** The VM's clients

    The requests of all workers, over the shared set.  A request reads the set
    between its gates at moments of its own, so each reading is a part of the set
    as it is when the request is sent; its answer is recorded by one step per
    client.  [c_roots] collects the clients the driver created for this VM,
    [c_adopt] the clients named by requests that found the set empty, for which the
    ownership gate does not apply. *)
Record csys := CSys { c_set : list Z; c_fl : list rflight; c_pend : list Z; c_roots : list Z; c_adopt : list Z }.
Definition csys0 : csys := CSys [] [] [] [] [].

Definition f_nr (f : rflight) : Z := IOC_NR (q_cmd (rq (f_rreq f))).
Definition f_psize (f : rflight) : Z := q_psize (rq (f_rreq f)).
Definition f_F (f : rflight) : bool := IOC_TYPE (q_cmd (rq (f_rreq f))) =? TYPE_F.

(** A successful allocation of a client: the handle the driver returned. *)
Definition root_made (f : rflight) (a : ranswer) : list Z :=
  match f_pb f, ra_pb a with
  | Some b, Some b' =>
      if answered a && f_F f && (f_nr f =? NV_ESC_RM_ALLOC) && (16 <=? f_psize f) && root_class (rd 4 12 b)
      then [rd 4 8 b'] else []
  | _, _ => []
  end.
Definition adopted (e : reads) (f : rflight) : list Z :=
  match f_pb f with
  | Some b => if (arr_len (rd_cl e 1%nat) =? 0) && f_F f && hclient_at_0 (f_nr f) then [rd 4 0 b] else []
  | None => []
  end.

(** What RM does with the words of a request it accepts: the class stays; the client
    stays, or is the new client of a client allocation that named none; a client
    allocation that asks for a handle gets it. *)
Record driver_ok (f : rflight) (a : ranswer) : Prop := {
  dk_buf : ra_pb a = None <-> f_pb f = None;
  dk_words : answered a = true -> f_F f = true -> forall b b', f_pb f = Some b -> ra_pb a = Some b' ->
    (16 <= f_psize f -> rd 4 12 b' = rd 4 12 b) /\
    (rd 4 0 b' = rd 4 0 b \/
     is_root_alloc (f_nr f) (f_psize f) b = true /\ rd 4 0 b = 0 /\ rd 4 0 b' = rd 4 8 b') /\
    (is_root_alloc (f_nr f) (f_psize f) b = true -> rd 4 8 b <> 0 -> rd 4 8 b' = rd 4 8 b)
}.

Inductive cstep : csys -> csys -> Prop :=
  | cs_begin s d e mid t mv r t' mv' f :
      (forall i c, c ∈ rd_cl e i -> c ∈ c_set s) -> req_ok (rq r) ->
      rm_begin d e mid t mv r = (t', mv', inr f) ->
      cstep s (CSys (c_set s) (c_fl s ++ [f]) (c_pend s) (c_roots s) (c_adopt s ++ adopted e f))
  | cs_end s k f a :
      c_fl s !! k = Some f -> driver_ok f a ->
      cstep s (CSys (c_set s) (delete k (c_fl s)) (c_pend s ++ client_notes f a) (c_roots s ++ root_made f a) (c_adopt s))
  | cs_add s k c :
      c_pend s !! k = Some c ->
      cstep s (CSys (nvkvm_client_allow_add (c_set s) c) (c_fl s) (delete k (c_pend s)) (c_roots s) (c_adopt s)).

(** A client of this VM: one the driver created for it, or one named while it had none. *)
Definition vm_client (s : csys) (c : Z) : Prop := c ∈ c_roots s \/ c ∈ c_adopt s.
Definition named_ok (s : csys) (c : Z) : Prop := c = 0 \/ c = UINT32_MAX \/ vm_client s c.
Definition flight_ok (s : csys) (f : rflight) : Prop :=
  f_F f = true -> hclient_at_0 (f_nr f) = true -> forall b, f_pb f = Some b ->
  named_ok s (rd 4 0 b) \/ is_root_alloc (f_nr f) (f_psize f) b = true.

Record cinv (s : csys) : Prop := {
  ci_set : forall c, c ∈ c_set s -> c <> 0 /\ c <> UINT32_MAX /\ vm_client s c;
  ci_size : arr_len (c_set s) <= NVKVM_CLIENT_ALLOWLIST_MAX;
  ci_pend : forall c, c ∈ c_pend s -> named_ok s c;
  ci_fl : forall f, f ∈ c_fl s -> flight_ok s f
}.

Lemma named_mono s s' c :
  (forall x, x ∈ c_roots s -> x ∈ c_roots s') -> (forall x, x ∈ c_adopt s -> x ∈ c_adopt s') ->
  named_ok s c -> named_ok s' c.
Proof. intros H1 H2 [?|[?|[?|?]]]; [by left|by right; left|right; right; left; auto|right; right; right; auto]. Qed.

(** The bytes the unmap rewrites are not those that name the client. *)
Lemma unmap_words mv r b mv' pb' :
  unmap_prepare mv r (Some b) = (mv', pb') ->
  (fr r NV_ESC_RM_UNMAP_MEMORY 24 = true -> 24 <= arr_len b) ->
  exists b', pb' = Some b' /\ forall o, 0 <= o -> o + 4 <= 16 -> rd 4 o b' = rd 4 o b.
Proof.
  unfold unmap_prepare. intros Hu Hl. case_if_in Hu; [|injection Hu as <- <-; by exists b].
  destruct (nvkvm_mapva_take _ _ _ _ _) as [mv1 va]. injection Hu as <- <-. eexists. split; [done|].
  intros o H0 Ho. case_if; [done|]. apply (rd_wr_out 4 o 16 (le_bytes 8 va) b); [done|lia| |left; simpl; lia].
  rewrite le_bytes_arr_len. specialize (Hl eq_refl). lia.
Qed.

Lemma chain_gates d ht mm cl r pb :
  rm_chain d ht mm cl r = inr pb -> IOC_TYPE (q_cmd (rq r)) = TYPE_F -> client_gates cl r pb = None.
Proof.
  unfold rm_chain, rm_gates. intros Hc HF. destruct (ioctl_gate _ _ _ _ _) as [e|pb0]; [done|].
  rewrite HF, Z.eqb_refl in Hc. destruct (alloc_gates _ _ _) as [e|pb1]; [done|].
  destruct (client_gates cl r pb1) eqn:Ec; [done|]. by injection Hc as <-.
Qed.

Lemma chain_unmap d ht mm cl r pb :
  rm_chain d ht mm cl r = inr pb -> fr r NV_ESC_RM_UNMAP_MEMORY 24 = true -> pb = q_pbuf (rq r).
Proof.
  unfold rm_chain, rm_gates, fr. intros Hc Hu. zb. destruct (ioctl_gate _ _ _ _ _) as [e|pb0] eqn:Eg; [done|].
  apply ioctl_gate_F in Eg as [_ Hv]; [|done]. rewrite H, Z.eqb_refl in Hc.
  destruct (alloc_gates _ _ _) as [e|pb1] eqn:Ea; [done|]. destruct (client_gates cl r pb1); [done|].
  injection Hc as <-. rewrite H1 in Hv. cbn in Hv. apply alloc_gates_other in Ea as [-> _]; [done|]. by rewrite H1.
Qed.

Lemma begin_flight_ok s d e mid t mv r t' mv' f :
  cinv s -> (forall i c, c ∈ rd_cl e i -> c ∈ c_set s) -> req_ok (rq r) ->
  rm_begin d e mid t mv r = (t', mv', inr f) ->
  flight_ok (CSys (c_set s) (c_fl s ++ [f]) (c_pend s) (c_roots s) (c_adopt s ++ adopted e f)) f.
Proof.
  intros Hi Hcl (_ & _ & Hbuf) Hb HF Hh b' Hb'. apply rm_begin_prepared in Hb as (pb & Hc & Hr & _ & Hu).
  unfold adopted. rewrite Hb', HF, Hh. unfold f_F, f_nr, f_psize in *. rewrite Hr in *. apply Z.eqb_eq in HF.
  destruct pb as [b|]; [|injection Hu as _ Hn; congruence].
  symmetry in Hu. apply unmap_words in Hu as (b1 & E1 & Hw); [|].
  2:{ intros E. pose proof (chain_unmap _ _ _ _ _ _ Hc E) as Hq. unfold fr in E. zb.
      destruct (Hbuf b (eq_sym Hq)). lia. }
  rewrite Hb' in E1. injection E1 as <-. destruct (Z.eqb_spec (arr_len (rd_cl e 1%nat)) 0) as [E0|E0]; cbn [andb].
  { left. right. right. right. cbn [c_adopt]. apply elem_of_app. right. by apply list_elem_of_singleton. }
  apply chain_gates in Hc; [|done]. apply client_gates_spec in Hc as (_ & _ & Hg).
  apply hclient_gate_spec in Hg as (? & [= <-] & _ & Ho); [|done|by intros E; rewrite E in E0].
  unfold is_root_alloc in *. rewrite !Hw by lia. destruct Ho as [[?|[?|Hin]]|?]; [| | |by right]; left; [by left|by right; left|].
  apply Hcl, (ci_set s Hi) in Hin as (_ & _ & Hv). right. right. destruct Hv; [by left|right]. cbn [c_adopt]. apply elem_of_app. by left.
Qed.

Lemma records_hclient nr : records_client nr = true -> hclient_at_0 nr = true.
Proof.
  unfold records_client, hclient_at_0. intros H. do 5 (apply orb_true_iff; left). exact H.
Qed.

Lemma root_made_in f a b b' :
  f_pb f = Some b -> ra_pb a = Some b' -> answered a = true -> f_F f = true -> f_nr f = NV_ESC_RM_ALLOC ->
  16 <= f_psize f -> root_class (rd 4 12 b) = true -> rd 4 8 b' ∈ root_made f a.
Proof.
  intros Eb Eb' Ea EF En Hp Hc. unfold root_made. rewrite Eb, Eb', Ea, EF, En, Hc, (proj2 (Z.leb_le _ _)) by done. by left.
Qed.

Lemma root_alloc_made f a b b' :
  f_pb f = Some b -> ra_pb a = Some b' -> answered a = true -> f_F f = true ->
  is_root_alloc (f_nr f) (f_psize f) b = true -> rd 4 8 b' ∈ root_made f a.
Proof.
  unfold is_root_alloc. intros Eb Eb' Ea EF Hr. apply andb_true_iff in Hr as [Hr _]. zb.
  eapply root_made_in; eauto.
Qed.

(** What an answer records is a client of this VM. *)
Lemma notes_named s k f a c :
  cinv s -> c_fl s !! k = Some f -> driver_ok f a -> c ∈ client_notes f a ->
  named_ok (CSys (c_set s) (delete k (c_fl s)) (c_pend s ++ client_notes f a) (c_roots s ++ root_made f a) (c_adopt s)) c.
Proof.
  intros Hi Hf [Hbuf Hw] Hc. apply list_elem_of_lookup_2, (ci_fl s Hi) in Hf. set (s' := CSys _ _ _ _ _).
  assert (forall x, x ∈ root_made f a -> named_ok s' x) as Hroot
    by (intros x Hx; right; right; left; cbn [s' c_roots]; apply elem_of_app; by right).
  unfold client_notes in Hc.
  destruct (ra_pb a) as [b'|] eqn:Eb'; [|by apply elem_of_nil in Hc].
  destruct (f_pb f) as [b|] eqn:Eb; [|destruct Hbuf as [_ Hbuf]; by specialize (Hbuf eq_refl)].
  destruct (answered a) eqn:Ea; cbn [andb] in Hc; [|by apply elem_of_nil in Hc].
  fold (f_F f) (f_nr f) (f_psize f) in Hc. destruct (f_F f) eqn:EF; cbn [andb] in Hc; [|by apply elem_of_nil in Hc].
  case_if_in Hc; [|by apply elem_of_nil in Hc]. apply andb_true_iff in E as [_ Hh%records_hclient].
  destruct (Hw eq_refl eq_refl b b' eq_refl eq_refl) as (K12 & K0 & K8).
  assert (is_root_alloc (f_nr f) (f_psize f) b = true -> rd 4 8 b' ∈ root_made f a) as Hr by by apply root_alloc_made.
  apply elem_of_cons in Hc as [->|Hc].
  - destruct K0 as [E0|(E1 & _ & ->)]; [|auto]. rewrite E0. destruct (Hf EF Hh b Eb) as [Hn|Hra].
    + eapply named_mono; [| |exact Hn]; cbn; [|done]. intros x Hx. apply elem_of_app. by left.
    + destruct (decide (rd 4 0 b = 0)) as [->|Hne]; [by left|]. apply Hroot.
      assert (rd 4 8 b = rd 4 0 b) as E8.
      { unfold is_root_alloc in Hra. apply andb_true_iff in Hra as [_ [E4|E4]%orb_true_iff]; zb; congruence. }
      rewrite <- E8, <- K8 by congruence. auto.
  - case_if_in Hc; [|by apply elem_of_nil in Hc]. apply list_elem_of_singleton in Hc as ->. zb. apply Hroot.
    eapply root_made_in; try done. by rewrite <- K12.
Qed.

Lemma elem_of_delete {A} (l : list A) k x : x ∈ delete k l -> x ∈ l.
Proof. intros Hx. eapply elem_of_submseteq; [exact Hx|]. apply sublist_submseteq, sublist_delete. Qed.

Lemma vm_mono s s' c :
  (forall x, x ∈ c_roots s -> x ∈ c_roots s') -> (forall x, x ∈ c_adopt s -> x ∈ c_adopt s') ->
  vm_client s c -> vm_client s' c.
Proof. intros H1 H2 [?|?]; [left|right]; auto. Qed.

Lemma cinv_mono s set fl pend s' :
  cinv s -> s' = CSys set fl pend (c_roots s') (c_adopt s') -> 
  (forall x, x ∈ c_roots s -> x ∈ c_roots s') -> (forall x, x ∈ c_adopt s -> x ∈ c_adopt s') ->
  set = c_set s -> (forall f, f ∈ fl -> f ∈ c_fl s \/ flight_ok s' f) -> (forall c, c ∈ pend -> c ∈ c_pend s \/ named_ok s' c) ->
  cinv s'.
Proof.
  intros [I1 I2 I3 I4] E HR HA -> Hfl Hp. rewrite E in *. split; cbn [c_set c_pend c_fl] in *.
  - intros c Hc. destruct (I1 c Hc) as (? & ? & ?). split_and!; [done|done|by eapply vm_mono].
  - done.
  - intros c Hc. destruct (Hp c Hc) as [?|?]; [|done]. eapply named_mono; [exact HR|exact HA|auto].
  - intros f Hf. destruct (Hfl f Hf) as [Hin|?]; [|done]. intros HF Hh b Hb.
    destruct (I4 f Hin HF Hh b Hb) as [Hn|?]; [left|by right]. by eapply named_mono.
Qed.

Lemma cstep_inv s s' : cstep s s' -> cinv s -> cinv s'.
Proof.
  intros Hs Hi. destruct Hs as [s d e mid t mv r t' mv' f Hcl Hok Hb|s k f a Hf Hd|s k c Hc].
  - eapply (cinv_mono s _ _ _ _ Hi); [reflexivity|done| |reflexivity| |by left].
    + intros x Hx. cbn [c_adopt]. apply elem_of_app. by left.
    + intros f' Hf'. apply elem_of_app in Hf' as [?|Hf']; [by left|right]. apply list_elem_of_singleton in Hf' as ->.
      by eapply begin_flight_ok.
  - eapply (cinv_mono s _ _ _ _ Hi); [reflexivity| |done|reflexivity| |].
    + intros x Hx. cbn [c_roots]. apply elem_of_app. by left.
    + intros f' Hf'. left. by eapply elem_of_delete.
    + intros c Hc. apply elem_of_app in Hc as [?|Hc]; [by left|right]. by apply notes_named.
  - pose proof (list_elem_of_lookup_2 _ _ _ Hc) as Hin. destruct Hi as [I1 I2 I3 I4].
    split; cbn [c_set c_pend c_fl]; [| | |exact I4].
    + intros x Hx. unfold nvkvm_client_allow_add in Hx. repeat case_if_in Hx; try by apply I1. zb.
      apply elem_of_app in Hx as [?|Hx]; [by apply I1|]. apply list_elem_of_singleton in Hx as ->.
      destruct (I3 c Hin) as [?|[?|?]]; [lia|lia|]. split_and!; [lia|lia|done].
    + unfold nvkvm_client_allow_add, arr_len in *. repeat case_if; try done. zb. rewrite length_app. simpl. lia.
    + intros x Hx. apply I3. by eapply elem_of_delete.
Qed.

(** C12: the VM's client set under all interleavings of its workers.  If RM keeps
    the words of a request it accepts, every client in the set was created by the
    driver for this VM or was named by a request that found the set empty, the set
    holds no null or wildcard handle and at most 8192, and every request on its
    way to the driver that names a client names none, the wildcard, such a client,
    or is itself the allocation of a client. *)
Theorem client_confinement s :
  rtc cstep csys0 s ->
  (forall c, c ∈ c_set s -> c <> 0 /\ c <> UINT32_MAX /\ vm_client s c) /\
  arr_len (c_set s) <= NVKVM_CLIENT_ALLOWLIST_MAX /\
  (forall f, f ∈ c_fl s -> flight_ok s f).
Proof.
  intros Hr. enough (cinv s) as [I1 I2 _ I4] by done.
  revert s Hr. apply (rtc_ind_r cinv csys0); [split; try done; intros x Hx; by apply elem_of_nil in Hx|].
  intros s1 s2 _ Hs Hi. by eapply cstep_inv.
Qed.

(** The VM allocates a client, gets handle 7, and its next command names it. *)
Definition demo_alloc : list Z := replicate 12 0 ++ le_bytes 4 NV01_ROOT_CLIENT ++ replicate 40 0.
Definition demo_alloc_out : list Z := replicate 8 0 ++ le_bytes 4 7 ++ le_bytes 4 NV01_ROOT_CLIENT ++ replicate 40 0.
Definition demo_flight (r : rreq) (pb : list Z) : rflight := RFlight r (Some pb) (rq_abuf r) None false false 0 0 None.
Definition demo_ctrl : list Z := le_bytes 4 7 ++ le_bytes 4 8 ++ le_bytes 4 257 ++ replicate 44 0.

Lemma demo_begins cl nr b :
  rm_begin (Dev false None None) (demo_reads cl) (fun _ t => t) demo_isos mapva0 (demo_rreq nr b) =
  (demo_isos, mapva0, inr (demo_flight (demo_rreq nr b) b)) ->
  forallb (fun c => (0 <=? c) && (c <? 256)) b = true -> arr_len b < W32 ->
  forall s, c_set s = cl -> cstep s (CSys (c_set s) (c_fl s ++ [demo_flight (demo_rreq nr b) b]) (c_pend s) (c_roots s)
                     (c_adopt s ++ adopted (demo_reads cl) (demo_flight (demo_rreq nr b) b))).
Proof.
  intros Hb Hby Hl s Hs. eapply cs_begin; [|by apply demo_rreq_ok|exact Hb]. intros i c Hc. by rewrite Hs.
Qed.

Lemma client_confinement_witness :
  let s := CSys [7] [demo_flight (demo_rreq 42 demo_ctrl) demo_ctrl] [] [7] [0] in
  rtc cstep csys0 s /\ vm_client s 7.
Proof.
  intros s. assert (rtc cstep csys0 s) as Hr.
  { eapply rtc_l; [apply (demo_begins [] 43 demo_alloc); [vm_compute; reflexivity|reflexivity|reflexivity|reflexivity]|].
    eapply rtc_l; [eapply (cs_end _ 0 _ (RAns 0 0 0 (Some demo_alloc_out) None)); [reflexivity|]|].
    { split; [done|]. intros _ _ b b' [= <-] [= <-]. vm_compute. split; [done|]. split; [by left|done]. }
    eapply rtc_l; [apply (cs_add _ 0); reflexivity|]. eapply rtc_l; [apply (cs_add _ 0); reflexivity|].
    eapply rtc_l; [apply (demo_begins [7] 42 demo_ctrl); [vm_compute; reflexivity|reflexivity|reflexivity|reflexivity]|].
    vm_compute. apply rtc_refl. }
  split; [exact Hr|]. apply (client_confinement s Hr). by left.
Defined.

(** ** The share request

    It follows an accepted allocation of an object that is not a client, names the
    client and the object the driver returned, and grants duplication to everybody. *)
Lemma share_of_spec f a sh :
  share_of f a = Some sh ->
  answered a = true /\ (f_nr f = NV_ESC_RM_ALLOC \/ f_nr f = NV_ESC_RM_ALLOC_MEMORY) /\
  exists b, ra_pb a = Some b /\ rd 4 12 b <> 0 /\ rd 4 0 b <> 0 /\ rd 4 8 b <> 0 /\
            sh = share_bytes (rd 4 0 b) (rd 4 8 b) /\ length sh = 24%nat /\ rd 2 16 sh = 1.
Proof.
  unfold share_of, fr, f_nr. destruct (ra_pb a) as [b|]; [|done]. intros Hs. case_if_in Hs; [|done].
  case_if_in Hs; [|done]. injection Hs as <-.
  apply andb_true_iff in E as [Ea E]. apply andb_true_iff in E0 as [[[_ Hc]%andb_true_iff H0]%andb_true_iff H8].
  apply negb_true_iff, Z.eqb_neq in Hc, H0, H8. split; [done|].
  split; [apply orb_true_iff in E as [E|E]; zb; auto|]. exists b. split_and!; try done.
Qed.

(** *** What modelling showed *)

(** An entry that does not fit the buffer, or is beyond the 200th, is forwarded
    with the process id the guest wrote; the count is left as it was. *)
Lemma uninspected_pid_forwarded :
  let ab := le_bytes 4 2 ++ replicate 4 0 ++ demo_entry 0 ++ le_bytes 4 4242 in
  let r := RReq (Req 3 (cmd_F NV_ESC_RM_CONTROL) (arr_len demo_gpi_pb) (Some demo_gpi_pb)) 3 (arr_len ab) (Some ab) in
  match demo_begin [7] r with
  | Some f => match f_ab f with Some ab1 => rd 4 0 ab1 = 2 /\ rd 4 80 ab1 = 4242 | None => False end
  | None => False
  end.
Proof. vm_compute. auto. Qed.

(** An unmap of an object this isolate never mapped reaches the driver with the
    address the guest put in the request. *)
Definition demo_unmap : list Z :=
  le_bytes 4 7 ++ le_bytes 4 8 ++ le_bytes 4 9 ++ replicate 4 0 ++ le_bytes 8 139637976727552 ++ replicate 8 0.
Lemma unmap_forwards_guest_address :
  match demo_begin [7] (demo_rreq NV_ESC_RM_UNMAP_MEMORY demo_unmap) with
  | Some f => match f_pb f with Some b => rd 8 16 b = 139637976727552 | None => False end
  | None => False
  end.
Proof. vm_compute. auto. Qed.

End RmForward.
