(* ===== verification/Sessions.v ===== *)
(** * Sessions: sessions, the life cycle of isolates, and the handles they hold

    Models the session list of [src/qemu/virtio_nvgpu.c], the requests of
    [src/qemu/nvkvm_isolate_handlers.c] that create and kill isolates, open and
    close handles through them and relay a handle from one isolate to another,
    and the calls of [src/qemu/nvkvm_isolate.c] they make, over the tables of the
    other components.

    Requests run one after the other on the thread of the request queue; what
    pool workers do to the isolate table meanwhile is [mid], and to the mapping
    tables [hmid].  The isolate's answers are arguments. *)
From S2P Require Import Prelude Bytes Extents KvmSlots GpaLayout SparseWin IsoWindow IsoMmap Abi Handles UvmVa UvmIoctl Teardown Isolates MapVa.

Module Sessions.
Import IsoMmap Handles UvmVa UvmIoctl Teardown Isolates MapVa.

(** ** State *)
Record nvkvm_session := Session { s_id : Z; s_isos : list Z }.

Record vm := Vm {
  v_isos : nvkvm_isolate_table; v_handles : nvkvm_handle_table; v_sessions : list nvkvm_session;
  v_mapva : mapva; v_va : va_state; v_host : host
}.
Definition set_isos (v : vm) (t : nvkvm_isolate_table) : vm :=
  Vm t (v_handles v) (v_sessions v) (v_mapva v) (v_va v) (v_host v).
Definition set_handles (v : vm) (t : nvkvm_handle_table) : vm :=
  Vm (v_isos v) t (v_sessions v) (v_mapva v) (v_va v) (v_host v).
Definition set_sessions (v : vm) (l : list nvkvm_session) : vm :=
  Vm (v_isos v) (v_handles v) l (v_mapva v) (v_va v) (v_host v).

(** ** The session list *)
Definition nvkvm_session_find (l : list nvkvm_session) (id : Z) : option nvkvm_session :=
  find (fun s => s_id s =? id) l.
Definition nvkvm_session_create (l : list nvkvm_session) (id : Z) : list nvkvm_session := l ++ [Session id []].

Definition session_first_isolate (v : vm) (session : Z) : Z :=
  match nvkvm_session_find (v_sessions v) session with
  | Some s => match s_isos s with i :: _ => i | [] => 0 end
  | None => 0
  end.
Definition session_has_isolate (v : vm) (session iso : Z) : bool :=
  match nvkvm_session_find (v_sessions v) session with
  | Some s => existsb (Z.eqb iso) (s_isos s)
  | None => false
  end.

(** [session->isolate_ids[session->nisolates++] = id] on the session of that id. *)
Definition add_isolate (iso : Z) (s : nvkvm_session) : nvkvm_session :=
  if arr_len (s_isos s) <? 256 then Session (s_id s) (s_isos s ++ [iso]) else s.
Fixpoint on_session (id : Z) (f : nvkvm_session -> nvkvm_session) (l : list nvkvm_session) : list nvkvm_session :=
  match l with
  | [] => []
  | s :: r => if s_id s =? id then f s :: r else s :: on_session id f r
  end.

(** The struct is identified by its id: session ids are distinct. *)
Definition nvkvm_session_destroy (v : vm) (s : nvkvm_session) : vm * list Z :=
  let '(h, fds) := nvkvm_handle_close_session (v_handles v) (s_id s) in
  (set_handles (set_sessions v (List.filter (fun x => negb (s_id x =? s_id s)) (v_sessions v))) h, fds).

(** ** Creating an isolate

    [outcome]: the process and socket of the stub, or the (negative) error of
    starting it.  The result is the return value and the id written. *)
Definition nvkvm_isolate_create (use_uid : option Z) (outcome : Z + Z * Z) (t : nvkvm_isolate_table) (session : Z)
    : nvkvm_isolate_table * Z * Z :=
  match alloc_isolate_slot t with
  | (t1, None) => (t1, - EMFILE, 0)
  | (t1, Some (id, _)) =>
      let t2 := set_iso t1 id (with_session (iso_at t1 id) session) in
      let '(t3, rc) := assign_uid use_uid t2 id in
      if negb (rc =? 0) then (t3, rc, 0)
      else
        match outcome with
        | inl e => (set_iso t3 id (with_in_use (iso_at t3 id) false), e, 0)
        | inr (pid, sock) => (set_iso t3 id (created (iso_at t3 id) pid sock), 0, id)
        end
  end.

(** Status and isolate id. *)
Definition nvkvm_req_create_isolate (use_uid : option Z) (outcome : Z + Z * Z) (v : vm) (session : Z)
    : vm * Z * Z :=
  let '(t, ret, id) := nvkvm_isolate_create use_uid outcome (v_isos v) session in
  if ret <? 0 then (set_isos v t, u32 (- ret), 0)
  else
    let l := match nvkvm_session_find (v_sessions v) session with
             | Some _ => v_sessions v
             | None => nvkvm_session_create (v_sessions v) session
             end in
    (set_sessions (set_isos v t) (on_session session (add_isolate id) l), 0, id).

(** ** Killing an isolate *)
Definition prune (iso : Z) (s : nvkvm_session) : nvkvm_session :=
  Session (s_id s) (List.filter (fun i => negb (i =? iso)) (s_isos s)).
Definition became_empty (iso : Z) (s : nvkvm_session) : bool :=
  (arr_len (s_isos (prune iso s)) =? 0) && (0 <? arr_len (s_isos s)).

Fixpoint destroy_all (l : list nvkvm_session) (v : vm) : vm * list Z :=
  match l with
  | [] => (v, [])
  | s :: r => let '(v1, fds) := nvkvm_session_destroy v s in
              let '(v2, fds') := destroy_all r v1 in (v2, fds ++ fds')
  end.

(** The references of delivered relays, returned to the handle table. *)
Definition drop_refs (l : list nvkvm_xrm_handle) (h : nvkvm_handle_table) : nvkvm_handle_table :=
  fold_left (fun h x => fst (nvkvm_handle_unref_isolate_generation h (x_hid x) (x_gen x))) l h.

Definition nvkvm_req_kill_isolate (nv kvm_fd : Z) (mid : nat -> nvkvm_isolate_table -> nvkvm_isolate_table)
    (hmid : Z -> host -> host) (v : vm) (iso caller : Z) : vm * Z * list Z :=
  if iso =? 0 then (v, EINVAL, [])
  else if negb (caller =? 0) && negb (session_has_isolate v caller iso) then (v, EPERM, [])
  else
    let '(t, r) := nvkvm_isolate_kill mid (v_isos v) iso in
    let '(ret, hs) :=
      match r with
      | inl e => (e, v_handles v)
      | inr k => (0, drop_refs (k_unref k) (v_handles v))
      end in
    let '(h, _, _) := nvkvm_iso_mmap_reap_isolate nv kvm_fd hmid (v_host v) iso in
    let mv := nvkvm_mapva_forget_isolate (v_mapva v) iso in
    let dead := take 16 (List.filter (became_empty iso) (v_sessions v)) in
    let v1 := Vm t hs (map (prune iso) (v_sessions v)) mv (v_va v) h in
    let '(v2, fds) := destroy_all dead v1 in
    (v2, if ret <? 0 then u32 (- ret) else 0, fds).

(** ** Handles on isolates *)
Definition usable (t : nvkvm_isolate_table) (iso : Z) : bool :=
  negb (bad_iso iso) && mine iso (iso_at t iso) && i_alive (iso_at t iso).

(** [dup]: the answer of [fcntl]; [ack]: the isolate's answer, 0 or an error. *)
Definition nvkvm_isolate_send_handle_generation (dup ack : Z) (v : vm) (iso hid : Z) : vm * Z * Z :=
  if negb (usable (v_isos v) iso) then (v, - ENOENT, 0)
  else
    match nvkvm_handle_acquire_fd_ref_isolate (v_handles v) hid dup with
    | (h, fd, Some (_, gen)) =>
        if fd <? 0 then (set_handles v h, - EBADF, 0)
        else if ack =? 0 then (set_handles v h, 0, gen)
        else (set_handles v (fst (nvkvm_handle_unref_isolate_generation h hid gen)), ack, 0)
    | (h, _, None) => (set_handles v h, - EBADF, 0)
    end.
Definition nvkvm_isolate_send_handle (dup ack : Z) (v : vm) (iso hid : Z) : vm * Z :=
  let '(v', ret, _) := nvkvm_isolate_send_handle_generation dup ack v iso hid in (v', ret).

Definition nvkvm_isolate_close_handle (mid : nat -> nvkvm_isolate_table -> nvkvm_isolate_table) (ack : Z) (v : vm) (iso hid : Z)
    : vm * Z :=
  if negb (usable (v_isos v) iso) then (v, - ENOENT)
  else if negb (ack =? 0) then (v, ack)
  else
    let t1 := nvkvm_isolate_nvkms_vblank_purge_handle mid (v_isos v) iso hid in
    let '(t2, o) := nvkvm_isolate_forget_foreign_handle t1 iso hid in
    let h :=
      match o with
      | None => fst (nvkvm_handle_unref_isolate (v_handles v) hid)
      | Some g => if g =? 0 then v_handles v
                  else fst (nvkvm_handle_unref_isolate_generation (v_handles v) hid g)
      end in
    (set_handles (set_isos v t2) h, 0).

(** [answer]: the error of the isolate, or the descriptor it sent ([-1] if none). *)
Definition nvkvm_isolate_open_device (answer : Z + Z) (t : nvkvm_isolate_table) (iso : Z) : nvkvm_isolate_table * (Z + Z) :=
  if bad_iso iso then (t, inl (- ENOENT))
  else
    let i := iso_at t iso in
    let n := u32 (i_txn i + 1) in
    let t1 := set_iso t iso (Iso (i_id i) (i_session i) (i_pid i) (i_sock i) (i_alive i) (i_in_use i) (i_uid i)
                (if n =? 0 then 1 else n) (i_open_fd i) (i_present_fd i) (i_ring i) (i_xrm i) (i_accepting i)
                (i_vbl i) (i_seq i)) in
    if negb (mine iso i && i_alive i) then (t1, inl (- ENOENT))
    else
      match answer with
      | inl e => (t1, inl e)
      | inr fd => (t1, if fd <? 0 then inl (- EPROTO) else inr fd)
      end.

(** ** The requests on handles *)
Record open_env := OpenEnv {
  oe_open : Z; oe_dup : Z; oe_ack : Z; oe_answer : Z + Z; oe_matches : Z -> bool;
  oe_mid : nvkvm_handle_table -> nvkvm_handle_table
}.

(** Status, handle id and the descriptors closed. *)
Definition nvkvm_req_open_nvidia_handle (graphics : bool) (e : open_env) (v : vm) (session dev_id : Z)
    : vm * Z * Z * list Z :=
  if negb graphics &&
     ((dev_id =? NVKVM_DEV_MODESET) || (NVKVM_DEV_DRM_RD 0 <=? dev_id) && (dev_id <? NVKVM_DEV_DRM_RD 16))
  then (v, EPERM, 0, [])
  else if dev_id =? NVKVM_DEV_UVM then
    let '(h, ret, id, cl) := nvkvm_handle_open_nvidia (v_handles v) session dev_id (oe_open e) in
    if ret <? 0 then (set_handles v h, u32 (- ret), 0, cl)
    else
      let v1 := set_handles v h in
      let iso := session_first_isolate v1 session in
      let v2 := if iso =? 0 then v1 else fst (nvkvm_isolate_send_handle (oe_dup e) (oe_ack e) v1 iso id) in
      (v2, 0, id, cl)
  else
    let iso := session_first_isolate v session in
    if iso =? 0 then (v, ENOENT, 0, [])
    else
      let '(h, ret, id, cl) := nvkvm_handle_alloc_pending (v_handles v) session (s32 dev_id) in
      if ret <? 0 then (set_handles v h, u32 (- ret), 0, cl)
      else
        let '(t, r) := nvkvm_isolate_open_device (oe_answer e) (v_isos v) iso in
        match r with
        | inl er =>
            (set_isos (set_handles v (nvkvm_handle_abort_open (oe_mid e h) id)) t,
             if er <? 0 then u32 (- er) else EINVAL, 0, cl)
        | inr fd =>
            let '(h1, ret1) := nvkvm_handle_attach_fd (oe_matches e) (oe_mid e) h id fd in
            if ret1 <? 0
            then (set_isos (set_handles v (nvkvm_handle_abort_open h1 id)) t, u32 (- ret1), 0, cl ++ [fd])
            else (set_isos (set_handles v (fst (nvkvm_handle_ref_isolate h1 id))) t, 0, id, cl)
        end.

Definition nvkvm_req_open_memory_handle (k tr : Z) (v : vm) (session size : Z) : vm * Z * Z * list Z :=
  let '(h, ret, id, cl) := nvkvm_handle_open_memory (v_handles v) session size k tr in
  if ret <? 0 then (set_handles v h, u32 (- ret), 0, cl) else (set_handles v h, 0, id, cl).

Definition nvkvm_req_copy_handle_to_isolate (dup ack : Z) (v : vm) (iso hid : Z) : vm * Z :=
  let '(v', ret) := nvkvm_isolate_send_handle dup ack v iso hid in (v', if ret <? 0 then u32 (- ret) else 0).

Definition nvkvm_req_close_handle_on_isolate (nv kvm_fd : Z) (mid : nat -> nvkvm_isolate_table -> nvkvm_isolate_table)
    (hmid : Z -> host -> host) (ack : Z) (v : vm) (iso hid : Z) : vm * Z :=
  match nvkvm_handle_get (v_handles v) hid with
  | None => (v, EBADF)
  | Some h =>
      if h_fd h <? 0 then (v, EBADF)
      else if negb (session_has_isolate v (h_session h) iso) then (v, EPERM)
      else
        let '(hs, _, _) := nvkvm_iso_mmap_reap_handle nv kvm_fd hmid (v_host v) iso hid in
        let v1 := Vm (v_isos v) (v_handles v) (v_sessions v) (v_mapva v) (nvkvm_uvm_va_purge_handle (v_va v) hid) hs in
        let '(v2, ret) := nvkvm_isolate_close_handle mid ack v1 iso hid in
        (v2, if ret <? 0 then u32 (- ret) else 0)
  end.

(** ** Relaying a handle into the isolate that imports it *)
Definition nvkvm_xrm_materialise (mid : nvkvm_isolate_table -> nvkvm_isolate_table) (dup ack : Z) (v : vm) (iso hid : Z) : vm :=
  if (iso =? 0) || (hid =? 0) then v
  else
    match nvkvm_handle_get (v_handles v) hid with
    | None => v
    | Some h =>
        if negb (h_type h =? NVKVM_HANDLE_TYPE_NVIDIA) || (h_fd h <? 0) then v
        else
          let owner := session_first_isolate v (h_session h) in
          if (owner =? 0) || (owner =? iso) then v
          else if negb (session_has_isolate v (h_session h) owner) then v
          else
            let '(t1, present) := nvkvm_isolate_note_foreign_handle (v_isos v) iso hid in
            if present then set_isos v t1
            else
              let '(v1, ret, gen) := nvkvm_isolate_send_handle_generation dup ack (set_isos v (mid t1)) iso hid in
              if ret =? 0 then
                let '(t2, found) := nvkvm_isolate_finalize_foreign_handle (mid (v_isos v1)) iso hid gen in
                let v2 := set_isos v1 t2 in
                if found then v2
                else set_handles v2 (fst (nvkvm_handle_unref_isolate_generation (v_handles v2) hid gen))
              else set_isos v1 (fst (nvkvm_isolate_forget_foreign_handle (mid (v_isos v1)) iso hid))
    end.

(** ** The command ring of a session's isolate *)
Definition nvkvm_isolate_ring_info (t : nvkvm_isolate_table) (iso : Z) : Z + ring_info :=
  if bad_iso iso then inl (- ENOENT)
  else
    let i := iso_at t iso in
    if mine iso i && i_alive i && rg_ready (i_ring i) && negb (rg_gpa (i_ring i) =? 0) then inr (i_ring i)
    else inl (- ENODEV).
Definition nvkvm_req_setup_ring (v : vm) (session : Z) : Z + ring_info :=
  let iso := session_first_isolate v session in
  if iso =? 0 then inl ENODEV
  else
    match nvkvm_isolate_ring_info (v_isos v) iso with
    | inl e => inl (u32 (- e))
    | inr r => if rg_gpa r =? 0 then inl ENODEV else inr r
    end.

(** ** Device enumeration: [access] is the probe of a device's path *)
Definition NVKVM_MAX_DEVICES : nat := 32.
Definition nvkvm_req_list_nvidia_devices (access : Z -> bool) : list Z :=
  let base := List.filter access [NVKVM_DEV_CTL; NVKVM_DEV_UVM] in
  take NVKVM_MAX_DEVICES (base ++ List.filter access (map NVKVM_DEV_GPU (seqZ 0 16))).

(** ** Slots under the operations *)
Definition slot_view (i : nvkvm_isolate) : Z * bool * Z := (i_id i, i_in_use i, i_uid i).
Definition same_slots (t t' : nvkvm_isolate_table) : Prop :=
  next_id t' = next_id t /\ forall k, slot_view (iso_at t' k) = slot_view (iso_at t k).
(** What workers do: identities stay. *)
Definition calm (mid : nat -> nvkvm_isolate_table -> nvkvm_isolate_table) : Prop := forall n t, same_slots t (mid n t).

#[export] Instance same_slots_refl : Reflexive same_slots.
Proof. intros t. done. Qed.
#[export] Instance same_slots_trans : Transitive same_slots.
Proof. intros t1 t2 t3 [N1 H1] [N2 H2]. split; [congruence|]. intros k. by rewrite H2, H1. Qed.

Lemma same_set t id i : slot_view i = slot_view (iso_at t id) -> same_slots t (set_iso t id i).
Proof. intros H. split; [done|]. intros k. rewrite iso_at_set. destruct (decide (id = k)) as [->|]; done. Qed.

Lemma same_on {A} t id (f : nvkvm_isolate -> nvkvm_isolate * A) :
  (forall i, slot_view (fst (f i)) = slot_view i) -> same_slots t (fst (on_iso t id f)).
Proof. intros H. unfold on_iso. specialize (H (iso_at t id)). destruct (f (iso_at t id)). by apply same_set. Qed.

Lemma same_ids_ok t t' : same_slots t t' -> ids_ok t -> ids_ok t'.
Proof.
  intros [Hn Hs] [H1 H2 H3].
  assert (forall k, i_id (iso_at t' k) = i_id (iso_at t k) /\ i_in_use (iso_at t' k) = i_in_use (iso_at t k) /\
                    i_uid (iso_at t' k) = i_uid (iso_at t k)) as Hv.
  { intros k. specialize (Hs k). unfold slot_view in Hs. by injection Hs as -> -> ->. }
  split; [by rewrite Hn| |].
  - intros k. destruct (Hv k) as (-> & -> & _). apply H2.
  - intros a b. destruct (Hv a) as (_ & -> & ->), (Hv b) as (_ & -> & ->). apply H3.
Qed.

Lemma view_note id hid i : slot_view (fst (note_xrm id hid i)) = slot_view i.
Proof. unfold note_xrm. cbv zeta. by repeat case_if. Qed.
Lemma view_finalize id hid g i : slot_view (fst (finalize_xrm id hid g i)) = slot_view i.
Proof. unfold finalize_xrm. case_if; [|done]. by destruct (find_idx _ _). Qed.
Lemma view_forget id hid i : slot_view (fst (forget_xrm id hid i)) = slot_view i.
Proof. unfold forget_xrm. case_if; [|done]. by destruct (find_idx _ _). Qed.
Lemma view_purge id hid i : slot_view (fst (vbl_purge id hid i)) = slot_view i.
Proof. unfold vbl_purge. by case_if. Qed.

Lemma same_release t n : same_slots t (nvkvm_nvkms_vblank_release t n).
Proof. unfold nvkvm_nvkms_vblank_release. by case_if. Qed.

Lemma same_note t id hid : same_slots t (fst (nvkvm_isolate_note_foreign_handle t id hid)).
Proof. unfold nvkvm_isolate_note_foreign_handle. case_if; [done|]. apply same_on, view_note. Qed.
Lemma same_finalize t id hid g : same_slots t (fst (nvkvm_isolate_finalize_foreign_handle t id hid g)).
Proof. unfold nvkvm_isolate_finalize_foreign_handle. case_if; [done|]. apply same_on, view_finalize. Qed.
Lemma same_forget t id hid : same_slots t (fst (nvkvm_isolate_forget_foreign_handle t id hid)).
Proof. unfold nvkvm_isolate_forget_foreign_handle. case_if; [done|]. apply same_on, view_forget. Qed.
Lemma same_purge mid t id hid : calm mid -> same_slots t (nvkvm_isolate_nvkms_vblank_purge_handle mid t id hid).
Proof.
  intros Hm. unfold nvkvm_isolate_nvkms_vblank_purge_handle. case_if; [done|].
  pose proof (same_on t id (vbl_purge id hid) (view_purge id hid)) as Hs. destruct (on_iso t id _) as [t1 n].
  etrans; [exact Hs|]. etrans; [apply (Hm 0%nat)|apply same_release].
Qed.
Lemma same_open_device a t id : same_slots t (fst (nvkvm_isolate_open_device a t id)).
Proof.
  unfold nvkvm_isolate_open_device. case_if; [done|]. cbv zeta. case_if; [by apply same_set|].
  destruct a; [by apply same_set|]. case_if; by apply same_set.
Qed.

(** A live isolate. *)
Definition live_iso (t : nvkvm_isolate_table) (i : Z) : Prop :=
  1 <= i < NVKVM_ISOLATE_MAX /\ i_id (iso_at t i) = i /\ i_in_use (iso_at t i) = true.

Lemma view_live t t' i : slot_view (iso_at t' i) = slot_view (iso_at t i) -> live_iso t i -> live_iso t' i.
Proof. unfold slot_view. intros Hv (H1 & H2 & H3). injection Hv as E1 E2 _. split_and!; [lia|lia|congruence|congruence]. Qed.

Lemma live_same t t' i : same_slots t t' -> live_iso t i -> live_iso t' i.
Proof. intros [_ Hs]. by apply view_live. Qed.

Lemma assign_uid_view u t id : let '(t', rc) := assign_uid u t id in
  (forall k, k <> id -> iso_at t' k = iso_at t k) /\ i_id (iso_at t' id) = i_id (iso_at t id) /\
  i_in_use (iso_at t' id) = (i_in_use (iso_at t id) && (rc =? 0)) /\ rc <= 0.
Proof.
  unfold assign_uid. destruct u as [base|]; [|split; [done|]; by rewrite andb_true_r].
  destruct (nvkvm_iso_uid_for_slot _ _) as [uid|]; [case_if|];
    (split; [intros k Hk; rewrite iso_at_set; by destruct (decide (id = k))|]); rewrite iso_at_same; simpl;
    rewrite ?andb_false_r, ?andb_true_r; (split; [done|split; [done|unfold ERANGE; lia]]).
Qed.

Lemma alloc_spec t t' o :
  alloc_isolate_slot t = (t', o) -> ids_ok t ->
  match o with
  | Some (id, _) => 1 <= id < NVKVM_ISOLATE_MAX /\ i_in_use (iso_at t id) = false /\
                    isolates t' = <[id := claim (iso_at t id) id]> (isolates t)
  | None => isolates t' = isolates t
  end.
Proof.
  unfold alloc_isolate_slot. generalize (Z.to_nat NVKVM_ISOLATE_MAX). intros n Ha Hok.
  destruct (slot_loop_next _ _ _ _ Ha (d_next _ Hok)) as [_ Hr]. destruct (slot_loop_spec _ _ _ _ Ha) as [_ Hs].
  destruct o as [[i fds]|]; [|done]. by destruct Hs as (_ & ? & ?).
Qed.

(** What starting an isolate does to the slots: on success exactly one unused slot
    becomes live, on failure none changes. *)
Lemma create_spec u out t session t' ret id :
  nvkvm_isolate_create u out t session = (t', ret, id) -> ids_ok t ->
  match out with inl e => e < 0 | inr _ => True end ->
  ids_ok t' /\
  ((ret < 0 /\ forall k, i_in_use (iso_at t' k) = i_in_use (iso_at t k) /\
                         (i_in_use (iso_at t k) = true -> slot_view (iso_at t' k) = slot_view (iso_at t k))) \/
   (ret = 0 /\ 1 <= id < NVKVM_ISOLATE_MAX /\ i_in_use (iso_at t id) = false /\ live_iso t' id /\
    forall k, k <> id -> slot_view (iso_at t' k) = slot_view (iso_at t k))).
Proof.
  unfold nvkvm_isolate_create. intros Hc Hok Ho. destruct (alloc_isolate_slot t) as [t1 o] eqn:Ea.
  pose proof (ids_ok_alloc t t1 o session Hok Ea) as Hok1. pose proof (alloc_spec t t1 o Ea Hok) as Hs.
  destruct o as [[i fds]|].
  2:{ injection Hc as <- <- <-. split; [done|]. left. split; [unfold EMFILE; lia|]. intros k. unfold iso_at. by rewrite Hs. }
  destruct Hs as (Hr & Hfree & E). set (t2 := set_iso t1 i (with_session (iso_at t1 i) session)) in *.
  assert (forall k, k <> i -> iso_at t2 k = iso_at t k) as H2.
  { intros k Hk. unfold t2. rewrite iso_at_set. destruct (decide (i = k)); [congruence|].
    unfold iso_at. rewrite E. by rewrite lookup_insert_ne. }
  assert (i_id (iso_at t2 i) = i /\ i_in_use (iso_at t2 i) = true) as [Hi2a Hi2b].
  { unfold t2. rewrite iso_at_same. unfold iso_at. by rewrite E, lookup_insert_eq. }
  pose proof (ids_ok_uid u t2 i Hok1) as Hok3. pose proof (assign_uid_view u t2 i) as Hv.
  destruct (assign_uid u t2 i) as [t3 rc]. cbn [fst] in Hok3. destruct Hv as (V1 & V2 & V3 & V4).
  rewrite Hi2b in V3. cbn [andb] in V3.
  destruct (Z.eqb_spec rc 0) as [E0|Hrc]; cbn [negb] in Hc.
  - destruct out as [e|[pid sock]]; injection Hc as <- <- <-.
    + split; [by apply ids_ok_keep|]. left. split; [done|]. intros k. rewrite iso_at_set.
      destruct (decide (i = k)) as [<-|]; [simpl; split; congruence|]. by rewrite V1, H2 by congruence.
    + split; [by apply ids_ok_keep|]. right. split; [done|]. split; [done|]. split; [done|].
      split; [split; [done|]; rewrite iso_at_same; simpl; split; congruence|].
      intros k Hk. rewrite iso_at_set. destruct (decide (i = k)); [congruence|]. by rewrite V1, H2.
  - injection Hc as <- <- <-. split; [done|]. left. split; [lia|]. intros k.
    destruct (decide (k = i)) as [->|]; [split; congruence|]. by rewrite V1, H2.
Qed.

(** Killing an isolate ends that isolate and touches no other. *)
Lemma kill_spec mid t id t' r :
  nvkvm_isolate_kill mid t id = (t', r) -> calm mid ->
  next_id t' = next_id t /\
  (forall k, k <> id -> slot_view (iso_at t' k) = slot_view (iso_at t k)) /\
  match r with
  | inl e => t' = t /\ e < 0 /\ (bad_iso id || negb (mine id (iso_at t id))) = true
  | inr _ => i_in_use (iso_at t' id) = false /\ mine id (iso_at t id) = true
  end.
Proof.
  unfold nvkvm_isolate_kill. intros Hk Hm.
  destruct (bad_iso id) eqn:Eb; [injection Hk as <- <-; unfold ENOENT; split_and!; (done || lia)|].
  unfold kill_begin in Hk. destruct (mine id (iso_at t id)) eqn:Em;
    [|injection Hk as <- <-; unfold ENOENT; split_and!; (done || lia)].
  set (t0 := set_iso t id (with_alive (iso_at t id) false)) in Hk.
  set (t1 := set_iso (mid 0%nat t0) id (kill_stop (iso_at (mid 0%nat t0) id))) in Hk.
  assert (forall n s, next_id (mid n s) = next_id s) as Hmn by (intros n s; apply (Hm n s)).
  assert (forall n s k, slot_view (iso_at (mid n s) k) = slot_view (iso_at s k)) as Hmv by (intros n s; apply (Hm n s)).
  assert (forall {A} s (f : nvkvm_isolate -> nvkvm_isolate * A), next_id (fst (on_iso s id f)) = next_id s /\
    forall k, k <> id -> slot_view (iso_at (fst (on_iso s id f)) k) = slot_view (iso_at s k)) as Hon.
  { intros A s f. unfold on_iso. destruct (f (iso_at s id)). cbn [fst]. split; [done|]. intros k Hne. rewrite iso_at_set.
    by destruct (decide (id = k)). }
  destruct (Hon _ (mid 1%nat t1) kill_sock) as [N3 H3]. destruct (on_iso (mid 1%nat t1) id kill_sock) as [t3 sock].
  destruct (Hon _ (mid 2%nat t3) kill_drain) as [N4 H4]. destruct (on_iso (mid 2%nat t3) id kill_drain) as [t4 [xrm n]].
  set (t5 := mid 4%nat _) in Hk. destruct (Hon _ t5 kill_end) as [N6 H6].
  destruct (on_iso t5 id kill_end) as [t6 rg] eqn:E6. injection Hk as <- <-. cbn [fst] in *.
  destruct (same_release (mid 3%nat t4) n) as [Nr Hr]. split_and!.
  - rewrite N6. unfold t5. by rewrite Hmn, Nr, Hmn, N4, Hmn, N3, Hmn; unfold t1; cbn [next_id set_iso]; rewrite Hmn.
  - intros k Hne. rewrite H6 by done. unfold t5. rewrite Hmv, Hr, Hmv, H4, Hmv, H3, Hmv by done.
    unfold t1. rewrite iso_at_set. destruct (decide (id = k)); [congruence|]. rewrite Hmv. unfold t0.
    rewrite iso_at_set. by destruct (decide (id = k)).
  - unfold on_iso, kill_end in E6. injection E6 as <- _. by rewrite iso_at_same.
  - done.
Qed.

(** ** The session list *)

(** Session ids are distinct, every isolate is listed once, only live isolates are
    listed, and a session has between 1 and 256 of them. *)
Record sess_ok (v : vm) : Prop := {
  k_tbl : ids_ok (v_isos v);
  k_ids : NoDup (map s_id (v_sessions v));
  k_isos : NoDup (concat (map s_isos (v_sessions v)));
  k_live : forall s i, s ∈ v_sessions v -> i ∈ s_isos s -> live_iso (v_isos v) i;
  k_size : forall s, s ∈ v_sessions v -> 1 <= arr_len (s_isos s) <= 256
}.

Lemma elem_of_isos i l : i ∈ concat (map s_isos l) <-> exists s, s ∈ l /\ i ∈ s_isos s.
Proof.
  rewrite list_elem_of_In, in_concat. split.
  - intros (x & Hx & Hi). apply in_map_iff in Hx as (s & <- & Hs). exists s. by rewrite !list_elem_of_In.
  - intros (s & Hs & Hi). exists (s_isos s). rewrite <- list_elem_of_In. split; [|by apply list_elem_of_In].
    by apply list_elem_of_fmap_2.
Qed.

(** Of all sessions at most one loses its last isolate. *)
Lemma dead_cases iso l :
  NoDup (concat (map s_isos l)) ->
  List.filter (became_empty iso) l = [] \/
  exists s, List.filter (became_empty iso) l = [s] /\ s ∈ l /\ s_isos s = [iso].
Proof.
  assert (forall s, became_empty iso s = true -> forall i, i ∈ s_isos s -> i = iso) as Hb.
  { unfold became_empty, prune. intros s Hs i Hi. zb. cbn [s_isos] in *.
    destruct (decide (i = iso)); [done|]. exfalso.
    assert (i ∈ List.filter (fun i => negb (i =? iso)) (s_isos s)) as Hin.
    { apply list_elem_of_In, filter_In. split; [by apply list_elem_of_In|]. by apply negb_true_iff, Z.eqb_neq. }
    destruct (List.filter _ _); [by apply elem_of_nil in Hin|]. unfold arr_len in *. simpl in *. lia. }
  assert (forall s, became_empty iso s = true -> iso ∈ s_isos s) as Hi.
  { intros s Hs. pose proof (Hb s Hs) as Ha. unfold became_empty in Hs. zb. destruct (s_isos s) as [|i r]; [done|].
    rewrite (Ha i) by by left. by left. }
  induction l as [|s l IH]; [by left|]. cbn [map concat List.filter]. intros Hn. apply NoDup_app in Hn as (N1 & N2 & N3).
  destruct (became_empty iso s) eqn:Es.
  - right. exists s. assert (List.filter (became_empty iso) l = []) as ->.
    { destruct (List.filter (became_empty iso) l) as [|s' r] eqn:Ef; [done|]. exfalso.
      assert (In s' (List.filter (became_empty iso) l)) as Hin by (rewrite Ef; by left).
      apply filter_In in Hin as [Hin Hs']. apply (N2 iso); [by apply Hi|]. apply elem_of_isos. exists s'.
      split; [by apply list_elem_of_In|by apply Hi]. }
    split; [done|]. split; [by left|]. pose proof (Hi s Es) as H1. pose proof (Hb s Es) as H2.
    destruct (s_isos s) as [|i r]; [by apply elem_of_nil in H1|]. rewrite (H2 i) in * by by left.
    destruct r as [|j r]; [done|]. exfalso. apply NoDup_cons in N1 as [N1 _]. apply N1.
    rewrite <- (H2 j) at 1; [by left|]. right. by left.
  - destruct (IH N3) as [->|(s' & -> & Hs' & E)]; [by left|right]. exists s'. split; [done|]. split; [by right|done].
Qed.

Lemma sess_same v v' :
  sess_ok v -> v_sessions v' = v_sessions v -> same_slots (v_isos v) (v_isos v') -> sess_ok v'.
Proof.
  intros [H1 H2 H3 H4 H5] El Hs. split; rewrite ?El; try done; [by eapply same_ids_ok|].
  intros s i Hs' Hi. eapply live_same; [exact Hs|eauto].
Qed.

Lemma find_session_None l id : nvkvm_session_find l id = None <-> forall s, s ∈ l -> s_id s <> id.
Proof.
  unfold nvkvm_session_find. split.
  - intros Hf s Hs E. apply list_elem_of_In in Hs. apply (find_none _ _ Hf) in Hs. by apply Z.eqb_neq in Hs.
  - intros Hall. destruct (find _ l) as [s|] eqn:E; [|done]. apply find_some in E as [Hs He]. zb.
    by apply list_elem_of_In, Hall in Hs.
Qed.

Lemma on_session_new l id f : (forall s, s ∈ l -> s_id s <> id) -> on_session id f (l ++ [Session id []]) = l ++ [f (Session id [])].
Proof.
  induction l as [|s l IH]; intros Hn; simpl; [by rewrite Z.eqb_refl|].
  destruct (Z.eqb_spec (s_id s) id) as [E|]; [by apply Hn in E; [|left]|]. rewrite IH; [done|]. intros x Hx. apply Hn. by right.
Qed.

Lemma on_session_elem l id f s : s ∈ on_session id f l -> s ∈ l \/ exists s0, s0 ∈ l /\ s = f s0.
Proof.
  induction l as [|x l IH]; simpl; [by left|]. case_if; intros Hs; apply elem_of_cons in Hs as [->|Hs].
  - right. exists x. split; [by left|done].
  - left. by right.
  - left. by left.
  - destruct (IH Hs) as [?|(s0 & ? & ?)]; [left; by right|right]. exists s0. split; [by right|done].
Qed.

Lemma on_session_ids l id iso : map s_id (on_session id (add_isolate iso) l) = map s_id l.
Proof. induction l as [|x l IH]; simpl; [done|]. case_if; simpl; [f_equal; unfold add_isolate; by case_if|by rewrite IH]. Qed.

Lemma on_session_isos l id iso :
  NoDup (concat (map s_isos l)) -> iso ∉ concat (map s_isos l) -> NoDup (concat (map s_isos (on_session id (add_isolate iso) l))).
Proof.
  intros Hn Hi. enough (concat (map s_isos (on_session id (add_isolate iso) l)) ≡ₚ concat (map s_isos l) \/
                        concat (map s_isos (on_session id (add_isolate iso) l)) ≡ₚ iso :: concat (map s_isos l)) as [E|E].
  - by rewrite E.
  - rewrite E. by constructor.
  - clear. induction l as [|x l IH]; simpl; [by left|]. case_if; simpl.
    + unfold add_isolate. case_if; simpl; [right|by left]. rewrite <- app_assoc. symmetry. apply Permutation_middle.
    + destruct IH as [E1|E1]; rewrite E1; [by left|right]. symmetry. apply Permutation_middle.
Qed.

Lemma add_isolate_size iso s : arr_len (s_isos s) <= 256 -> 1 <= arr_len (s_isos (add_isolate iso s)) <= 256.
Proof.
  unfold add_isolate. intros H. destruct (Z.ltb_spec (arr_len (s_isos s)) 256); cbn [s_isos]; [|lia].
  unfold arr_len in *. rewrite length_app. simpl. lia.
Qed.

Lemma add_isolate_elem iso s i : i ∈ s_isos (add_isolate iso s) -> i = iso \/ i ∈ s_isos s.
Proof.
  unfold add_isolate. case_if; [|by right]. cbn [s_isos]. intros Hi. apply elem_of_app in Hi as [?|Hi]; [by right|left].
  by apply list_elem_of_singleton in Hi.
Qed.

Lemma create_sess_ok u out v session :
  sess_ok v -> match out with inl e => e < 0 | inr _ => True end ->
  sess_ok (fst (fst (nvkvm_req_create_isolate u out v session))).
Proof.
  intros Hok Ho. unfold nvkvm_req_create_isolate.
  destruct (nvkvm_isolate_create u out (v_isos v) session) as [[t ret] id] eqn:Ec.
  apply create_spec in Ec as [Ht Hc]; [|apply Hok|done]. destruct Hok as [H1 H2 H3 H4 H5].
  destruct Hc as [[Hr Hsame]|(-> & Hid & Hfree & Hlive & Hsame)].
  - rewrite (proj2 (Z.ltb_lt ret 0)) by done. cbn [fst]. split; try done. intros s i Hs Hi.
    pose proof (H4 s i Hs Hi) as Hl. eapply view_live; [|exact Hl]. by apply (Hsame i), Hl.
  - cbn [Z.ltb fst]. change (0 <? 0) with false. cbv iota. cbn [fst].
    assert (id ∉ concat (map s_isos (v_sessions v))) as Hnew.
    { rewrite elem_of_isos. intros (s & Hs & Hi). destruct (H4 s id Hs Hi) as (_ & _ & ?). congruence. }
    assert (forall s i, s ∈ v_sessions v -> i ∈ s_isos s -> live_iso t i) as Hkeep.
    { intros s i Hs Hi. eapply view_live; [|by apply (H4 s i)]. apply Hsame. intros ->. apply Hnew, elem_of_isos. by exists s. }
    destruct (nvkvm_session_find (v_sessions v) session) as [s0|] eqn:Ef.
    + split; cbn [v_isos v_sessions set_sessions set_isos]; [done|by rewrite on_session_ids|by apply on_session_isos| |].
      * intros s i Hs Hi. apply on_session_elem in Hs as [Hs|(s1 & Hs & ->)]; [eauto|].
        apply add_isolate_elem in Hi as [->|Hi]; eauto.
      * intros s Hs. apply on_session_elem in Hs as [Hs|(s1 & Hs & ->)]; [auto|]. apply add_isolate_size. by apply H5.
    + unfold nvkvm_session_create. pose proof (proj1 (find_session_None _ _) Ef) as Hn. rewrite on_session_new by done.
      change (add_isolate id (Session session [])) with (Session session [id]).
      split; cbn [v_isos v_sessions set_sessions set_isos].
      * done.
      * rewrite map_app. apply NoDup_app. split; [done|]. split; [|apply NoDup_singleton].
        intros x Hx Hx1. apply list_elem_of_singleton in Hx1 as ->. apply list_elem_of_fmap in Hx as (s & E & Hs). by apply (Hn s).
      * rewrite map_app, concat_app. simpl. apply NoDup_app. split; [done|]. split; [|apply NoDup_singleton].
        intros x Hx Hx1. by apply list_elem_of_singleton in Hx1 as ->.
      * intros s i Hs Hi. apply elem_of_app in Hs as [Hs|Hs]; [eauto|]. apply list_elem_of_singleton in Hs as ->.
        by apply list_elem_of_singleton in Hi as ->.
      * intros s Hs. apply elem_of_app in Hs as [Hs|Hs]; [auto|]. by apply list_elem_of_singleton in Hs as ->.
Qed.

(** The sessions left when isolate [iso] is gone. *)
Definition nonempty (s : nvkvm_session) : bool := negb (arr_len (s_isos s) =? 0).
Definition remaining (iso : Z) (l : list nvkvm_session) : list nvkvm_session := List.filter nonempty (map (prune iso) l).

Lemma nonempty_prune iso s : 1 <= arr_len (s_isos s) -> nonempty (prune iso s) = negb (became_empty iso s).
Proof. intros H. unfold nonempty, became_empty. rewrite (proj2 (Z.ltb_lt 0 _)) by lia. by rewrite andb_true_r. Qed.

Lemma same_id l s s' : NoDup (map s_id l) -> s ∈ l -> s' ∈ l -> s_id s = s_id s' -> s = s'.
Proof.
  induction l as [|x l IH]; simpl; [by intros _ ?%elem_of_nil|]. intros [N1 N2]%NoDup_cons Hs Hs' E.
  apply elem_of_cons in Hs as [->|Hs], Hs' as [->|Hs']; [done| | |auto].
  - exfalso. apply N1. rewrite E. by apply list_elem_of_fmap_2.
  - exfalso. apply N1. rewrite <- E. by apply list_elem_of_fmap_2.
Qed.

(** Destroying the sessions whose last isolate died leaves exactly the others; the
    handle table sees at most one session closed. *)
Lemma destroy_spec iso l t hs mv va h :
  NoDup (map s_id l) -> NoDup (concat (map s_isos l)) -> (forall s, s ∈ l -> 1 <= arr_len (s_isos s)) ->
  let '(v', _) := destroy_all (take 16 (List.filter (became_empty iso) l)) (Vm t hs (map (prune iso) l) mv va h) in
  v_sessions v' = remaining iso l /\ v_isos v' = t /\ v_mapva v' = mv /\ v_host v' = h /\
  ((v_handles v' = hs /\ forall s, s ∈ l -> s_isos s <> [iso]) \/
   exists s, s ∈ l /\ s_isos s = [iso] /\ v_handles v' = fst (nvkvm_handle_close_session hs (s_id s)) /\
             forall s', s' ∈ l -> s_isos s' = [iso] -> s' = s).
Proof.
  intros Hid Hiso Hsz. destruct (dead_cases iso l Hiso) as [E|(s & E & Hs & Hsi)]; rewrite E; cbn [take destroy_all].
  - split_and!; [|done..|].
    + cbn [v_sessions]. unfold remaining. rewrite forallb_filter_id; [done|]. apply forallb_forall. intros x Hx.
      apply in_map_iff in Hx as (s & <- & Hs). rewrite nonempty_prune by (apply Hsz; by apply list_elem_of_In).
      destruct (became_empty iso s) eqn:Eb; [|done]. exfalso.
      assert (In s (List.filter (became_empty iso) l)) as Hin by by apply filter_In. by rewrite E in Hin.
    + left. split; [done|]. intros s Hs Hsi. assert (In s (List.filter (became_empty iso) l)) as Hin; [|by rewrite E in Hin].
      apply filter_In. split; [by apply list_elem_of_In|]. unfold became_empty, prune. rewrite Hsi. simpl. by rewrite Z.eqb_refl.
  - unfold nvkvm_session_destroy. destruct (nvkvm_handle_close_session _ _) as [hs' fds] eqn:Ecl.
    cbn [v_sessions v_isos v_mapva v_host v_handles set_handles set_sessions] in *.
    assert (forall x, x ∈ l -> became_empty iso x = true -> x = s) as Huniq.
    { intros x Hx Hb. assert (In x (List.filter (became_empty iso) l)) as Hin
        by (apply filter_In; split; [by apply list_elem_of_In|done]). rewrite E in Hin. by destruct Hin as [?|[]]. }
    split_and!; [|done..|].
    + unfold remaining. apply filter_ext_in. intros x Hx. apply in_map_iff in Hx as (y & <- & Hy).
      apply list_elem_of_In in Hy. rewrite nonempty_prune by auto. f_equal. cbn [prune s_id].
      destruct (Z.eqb_spec (s_id y) (s_id s)) as [Ei|Ni].
      * rewrite (same_id l y s) by done. symmetry. assert (In s (List.filter (became_empty iso) l)) as Hin by (rewrite E; by left).
        by apply filter_In in Hin as [_ ?].
      * destruct (became_empty iso y) eqn:Eb; [|done]. exfalso. apply Ni. by rewrite (Huniq y Hy Eb).
    + right. exists s. split_and!; [done|done|by rewrite Ecl|]. intros s' Hs' Hsi'. apply Huniq; [done|].
      unfold became_empty, prune. rewrite Hsi'. simpl. by rewrite Z.eqb_refl.
Qed.

Lemma remaining_elem iso l s : s ∈ remaining iso l -> exists s0, s0 ∈ l /\ s = prune iso s0 /\ s_isos s <> [].
Proof.
  unfold remaining. intros Hs. apply list_elem_of_In, filter_In in Hs as [Hs Hn]. apply in_map_iff in Hs as (s0 & <- & Hs).
  exists s0. split; [by apply list_elem_of_In|]. split; [done|]. intros E. unfold nonempty in Hn. by rewrite E in Hn.
Qed.

Lemma remaining_ids iso l : NoDup (map s_id l) -> NoDup (map s_id (remaining iso l)).
Proof.
  unfold remaining. induction l as [|x l IH]; simpl; [done|]. intros [N1 N2]%NoDup_cons.
  destruct (nonempty (prune iso x)); simpl; [|auto]. constructor; [|auto]. intros Hin. apply N1.
  apply list_elem_of_fmap in Hin as (s & E & Hs). apply remaining_elem in Hs as (s0 & Hs0 & -> & _).
  cbn [prune s_id] in E. rewrite E. by apply list_elem_of_fmap_2.
Qed.

Lemma remaining_isos iso l : NoDup (concat (map s_isos l)) -> NoDup (concat (map s_isos (remaining iso l))).
Proof.
  unfold remaining. induction l as [|x l IH]; simpl; [done|]. intros (N1 & N2 & N3)%NoDup_app.
  destruct (nonempty (prune iso x)); simpl; [|auto]. apply NoDup_app. split_and!; [by apply NoDup_ListNoDup, List.NoDup_filter, NoDup_ListNoDup| |auto].
  intros i Hi Hin. apply list_elem_of_In, filter_In in Hi as [Hi _]. apply (N2 i); [by apply list_elem_of_In|].
  apply elem_of_isos in Hin as (s & Hs & Hsi). apply remaining_elem in Hs as (s0 & Hs0 & -> & _).
  apply elem_of_isos. exists s0. split; [done|]. by apply list_elem_of_In, filter_In in Hsi as [?%list_elem_of_In _].
Qed.

(** The handle table when the references of the isolate's relays are dropped. *)
Definition undelivered (mid : nat -> nvkvm_isolate_table -> nvkvm_isolate_table) (v : vm) (iso : Z) : nvkvm_handle_table :=
  match snd (nvkvm_isolate_kill mid (v_isos v) iso) with
  | inl _ => v_handles v
  | inr k => drop_refs (k_unref k) (v_handles v)
  end.

(** The whole request, once its two checks have passed. *)
Record kill_result (nv kvm_fd : Z) (mid : nat -> nvkvm_isolate_table -> nvkvm_isolate_table) (hmid : Z -> host -> host)
    (v : vm) (iso : Z) (v' : vm) : Prop := {
  kr_isos : v_isos v' = fst (nvkvm_isolate_kill mid (v_isos v) iso);
  kr_sessions : v_sessions v' = remaining iso (v_sessions v);
  kr_mapva : v_mapva v' = nvkvm_mapva_forget_isolate (v_mapva v) iso;
  kr_host : v_host v' = fst (fst (nvkvm_iso_mmap_reap_isolate nv kvm_fd hmid (v_host v) iso));
  kr_closed : forall s k, s ∈ v_sessions v -> s_isos s = [iso] -> 1 <= k < NVKVM_HANDLE_MAX ->
    h_session (slot (undelivered mid v iso) k) = s_id s -> h_ref (slot (undelivered mid v iso) k) <= 0 ->
    h_in_use (slot (v_handles v') k) = false;
  kr_kept : forall k, 1 <= k < NVKVM_HANDLE_MAX -> 0 < h_ref (slot (undelivered mid v iso) k) ->
    slot (v_handles v') k = slot (undelivered mid v iso) k
}.

Lemma kill_result_spec nv kvm_fd mid hmid v iso caller :
  sess_ok v -> iso <> 0 -> (caller = 0 \/ session_has_isolate v caller iso = true) ->
  kill_result nv kvm_fd mid hmid v iso (fst (fst (nvkvm_req_kill_isolate nv kvm_fd mid hmid v iso caller))).
Proof.
  intros [H1 H2 H3 H4 H5] H0 Hc. unfold nvkvm_req_kill_isolate. rewrite (proj2 (Z.eqb_neq iso 0)) by done.
  assert (negb (caller =? 0) && negb (session_has_isolate v caller iso) = false) as ->
    by (destruct Hc as [->|E]; [done|by rewrite E, andb_false_r]).
  destruct (nvkvm_isolate_kill mid (v_isos v) iso) as [t r] eqn:Ek.
  assert (undelivered mid v iso = snd (match r with inl e => (e, v_handles v) | inr k => (0, drop_refs (k_unref k) (v_handles v)) end))
    as Eu by (unfold undelivered; rewrite Ek; by destruct r).
  destruct (match r with inl e => _ | inr k => _ end) as [ret hs]. cbn [snd] in Eu.
  destruct (nvkvm_iso_mmap_reap_isolate nv kvm_fd hmid (v_host v) iso) as [[h n] eff] eqn:Er.
  pose proof (destroy_spec iso (v_sessions v) t hs (nvkvm_mapva_forget_isolate (v_mapva v) iso) (v_va v) h H2 H3) as Hd.
  destruct (destroy_all _ _) as [v' fds]. destruct Hd as (D1 & D2 & D3 & D4 & D5); [intros s Hs; apply (H5 s Hs)|].
  cbn [fst]. split; [by rewrite Ek|done|done|by rewrite Er| |].
  - intros s k Hs Hsi Hk. rewrite Eu. intros Hse Hr.
    destruct D5 as [[_ Hno]|(s0 & Hs0 & Hsi0 & E & Huniq)]; [by apply Hno in Hsi|].
    rewrite (Huniq s Hs Hsi) in *. rewrite E. pose proof (close_session_spec hs (s_id s0) k Hk) as C. cbv zeta in C.
    clear E Eu. revert C. generalize (fst (nvkvm_handle_close_session hs (s_id s0))). intros hc [C1 C2].
    destruct (h_in_use (slot hs k)) eqn:Hu; [by apply C1|]. rewrite C2; [done|]. by intros [? _].
  - intros k Hk. rewrite Eu. intros Hr. destruct D5 as [[-> _]|(s0 & _ & _ & -> & _)]; [done|].
    apply (close_session_spec hs (s_id s0) k Hk). intros (_ & _ & ?). lia.
Qed.

Lemma ids_ok_ended t t' id :
  ids_ok t -> next_id t' = next_id t -> (forall k, k <> id -> slot_view (iso_at t' k) = slot_view (iso_at t k)) ->
  i_in_use (iso_at t' id) = false -> ids_ok t'.
Proof.
  intros [H1 H2 H3] Hn Hv Hid.
  assert (forall k, i_in_use (iso_at t' k) = true -> i_id (iso_at t' k) = i_id (iso_at t k) /\
            i_in_use (iso_at t k) = true /\ i_uid (iso_at t' k) = i_uid (iso_at t k)) as Hk.
  { intros k Hu. assert (k <> id) as Hne by congruence. specialize (Hv k Hne). unfold slot_view in Hv.
    injection Hv as E1 E2 E3. split_and!; congruence. }
  split; [by rewrite Hn| |].
  - intros k Hu. destruct (Hk k Hu) as (-> & Hu' & _). by apply H2.
  - intros a b Hab Ha Hb. destruct (Hk a Ha) as (_ & Ha' & ->), (Hk b Hb) as (_ & Hb' & ->). by apply H3.
Qed.

Lemma kill_sess_ok nv kvm_fd mid hmid v iso caller :
  sess_ok v -> calm mid -> sess_ok (fst (fst (nvkvm_req_kill_isolate nv kvm_fd mid hmid v iso caller))).
Proof.
  intros Hok Hm. destruct (decide (iso = 0)) as [->|H0]; [done|].
  destruct (decide (caller = 0 \/ session_has_isolate v caller iso = true)) as [Hc|Hc].
  2:{ enough (fst (fst (nvkvm_req_kill_isolate nv kvm_fd mid hmid v iso caller)) = v) as -> by done.
      unfold nvkvm_req_kill_isolate. rewrite (proj2 (Z.eqb_neq iso 0)) by done.
      destruct (Z.eqb_spec caller 0); [tauto|]. destruct (session_has_isolate v caller iso); [tauto|done]. }
  destruct (kill_result_spec nv kvm_fd mid hmid v iso caller Hok H0 Hc) as [R1 R2 R3 R4 R5 R6].
  set (v' := fst (fst _)) in *. destruct (nvkvm_isolate_kill mid (v_isos v) iso) as [t r] eqn:Ek. cbn [fst] in R1.
  destruct (kill_spec _ _ _ _ _ Ek Hm) as (Kn & Kv & Kr). destruct Hok as [H1 H2 H3 H4 H5].
  split; rewrite ?R1, ?R2.
  - destruct r as [e|k]; [by destruct Kr as (-> & _)|]. destruct Kr as [Kr _]. by eapply ids_ok_ended.
  - by apply remaining_ids.
  - by apply remaining_isos.
  - intros s i Hs Hi. apply remaining_elem in Hs as (s0 & Hs0 & -> & _).
    apply list_elem_of_In, filter_In in Hi as [Hi Hne]. zb. apply list_elem_of_In in Hi.
    eapply view_live; [|by apply (H4 s0 i)]. by apply Kv.
  - intros s Hs. apply remaining_elem in Hs as (s0 & Hs0 & -> & Hne). specialize (H5 s0 Hs0). cbn [prune s_isos] in *.
    pose proof (List.filter_length_le (fun i => negb (i =? iso)) (s_isos s0)). unfold arr_len in *.
    destruct (List.filter _ (s_isos s0)); [done|simpl in *; lia].
Qed.

(** ** Sequences of requests *)
Inductive vreq :=
  | QCreate (use_uid : option Z) (outcome : Z + Z * Z) (session : Z)
  | QKill (mid : nat -> nvkvm_isolate_table -> nvkvm_isolate_table) (hmid : Z -> host -> host) (iso caller : Z)
  | QOpen (graphics : bool) (e : open_env) (session dev_id : Z)
  | QOpenMem (k tr session size : Z)
  | QClose (hid : Z)
  | QCopy (dup ack iso hid : Z)
  | QCloseOn (mid : nat -> nvkvm_isolate_table -> nvkvm_isolate_table) (hmid : Z -> host -> host) (ack iso hid : Z)
  | QRelay (mid : nvkvm_isolate_table -> nvkvm_isolate_table) (dup ack iso hid : Z).

Definition vexec (nv kvm_fd : Z) (v : vm) (q : vreq) : vm :=
  match q with
  | QCreate u o s => fst (fst (nvkvm_req_create_isolate u o v s))
  | QKill mid hmid iso caller => fst (fst (nvkvm_req_kill_isolate nv kvm_fd mid hmid v iso caller))
  | QOpen g e s d => fst (fst (fst (nvkvm_req_open_nvidia_handle g e v s d)))
  | QOpenMem k tr s n => fst (fst (fst (nvkvm_req_open_memory_handle k tr v s n)))
  | QClose hid =>
      let '(h, va, _, _) := nvkvm_req_close_handle (v_handles v) (v_va v) hid in
      Vm (v_isos v) h (v_sessions v) (v_mapva v) va (v_host v)
  | QCopy dup ack iso hid => fst (nvkvm_req_copy_handle_to_isolate dup ack v iso hid)
  | QCloseOn mid hmid ack iso hid => fst (nvkvm_req_close_handle_on_isolate nv kvm_fd mid hmid ack v iso hid)
  | QRelay mid dup ack iso hid => nvkvm_xrm_materialise mid dup ack v iso hid
  end.

(** Starting a stub fails with a negative code, and workers change no identity. *)
Definition vreq_ok (q : vreq) : Prop :=
  match q with
  | QCreate _ (inl e) _ => e < 0
  | QKill mid _ _ _ | QCloseOn mid _ _ _ _ => calm mid
  | QRelay mid _ _ _ _ => forall t, same_slots t (mid t)
  | _ => True
  end.

Lemma send_same dup ack v iso hid :
  let '(v', _, _) := nvkvm_isolate_send_handle_generation dup ack v iso hid in
  v_sessions v' = v_sessions v /\ v_isos v' = v_isos v.
Proof.
  unfold nvkvm_isolate_send_handle_generation. case_if; [done|].
  destruct (nvkvm_handle_acquire_fd_ref_isolate _ _ _) as [[h fd] [[d g]|]]; [|done]. by repeat case_if.
Qed.

Lemma open_same g e v s d : let v' := fst (fst (fst (nvkvm_req_open_nvidia_handle g e v s d))) in
  v_sessions v' = v_sessions v /\ same_slots (v_isos v) (v_isos v').
Proof.
  cbv zeta. unfold nvkvm_req_open_nvidia_handle. case_if; [done|]. case_if.
  - destruct (nvkvm_handle_open_nvidia _ _ _ _) as [[[h ret] id] cl]. case_if; [done|]. cbv zeta. cbn [fst].
    case_if; [done|]. unfold nvkvm_isolate_send_handle.
    match goal with |- context [nvkvm_isolate_send_handle_generation ?a ?b ?c ?d ?x] =>
      pose proof (send_same a b c d x) as Hs; destruct (nvkvm_isolate_send_handle_generation a b c d x) as [[v' r] g'] end.
    destruct Hs as [H1 H2]. cbn [fst]. rewrite H1, H2. done.
  - cbv zeta. case_if; [done|]. destruct (nvkvm_handle_alloc_pending _ _ _) as [[[h ret] id] cl]. case_if; [done|].
    pose proof (same_open_device (oe_answer e) (v_isos v) (session_first_isolate v s)) as Hs.
    destruct (nvkvm_isolate_open_device _ _ _) as [t1 [er|fd]]; cbn [fst] in *; [done|].
    destruct (nvkvm_handle_attach_fd _ _ _ _ _) as [h1 ret1]. by case_if.
Qed.

Lemma close_on_same nv kvm_fd mid hmid ack v iso hid : calm mid ->
  let v' := fst (nvkvm_req_close_handle_on_isolate nv kvm_fd mid hmid ack v iso hid) in
  v_sessions v' = v_sessions v /\ same_slots (v_isos v) (v_isos v').
Proof.
  intros Hm. cbv zeta. unfold nvkvm_req_close_handle_on_isolate. destruct (nvkvm_handle_get _ _) as [h|]; [|done].
  repeat (case_if; [done|]). destruct (nvkvm_iso_mmap_reap_handle _ _ _ _ _ _) as [[hs n] eff].
  unfold nvkvm_isolate_close_handle. cbn [v_isos]. repeat (case_if; [done|]).
  pose proof (same_purge mid (v_isos v) iso hid Hm) as H1.
  pose proof (same_forget (nvkvm_isolate_nvkms_vblank_purge_handle mid (v_isos v) iso hid) iso hid) as H2.
  destruct (nvkvm_isolate_forget_foreign_handle _ _ _) as [t2 o]. cbn. split; [done|]. by etrans.
Qed.

Lemma relay_same mid dup ack v iso hid : (forall t, same_slots t (mid t)) ->
  let v' := nvkvm_xrm_materialise mid dup ack v iso hid in
  v_sessions v' = v_sessions v /\ same_slots (v_isos v) (v_isos v').
Proof.
  intros Hm. cbv zeta. unfold nvkvm_xrm_materialise. case_if; [done|]. destruct (nvkvm_handle_get _ _) as [h|]; [|done].
  case_if; [done|]. cbv zeta. repeat (case_if; [done|]).
  pose proof (same_note (v_isos v) iso hid) as H1. destruct (nvkvm_isolate_note_foreign_handle _ _ _) as [t1 present].
  cbn [fst] in H1. case_if; [done|].
  pose proof (send_same dup ack (set_isos v (mid t1)) iso hid) as H2.
  destruct (nvkvm_isolate_send_handle_generation _ _ _ _ _) as [[v1 ret] gen]. destruct H2 as [Es Et].
  assert (same_slots (v_isos v) (mid (v_isos v1))) as H3.
  { etrans; [exact H1|]. etrans; [apply (Hm t1)|]. rewrite Et. apply Hm. }
  case_if.
  - pose proof (same_finalize (mid (v_isos v1)) iso hid gen) as H4.
    destruct (nvkvm_isolate_finalize_foreign_handle _ _ _ _) as [t2 found]. cbn [fst] in H4.
    case_if; (split; [done|]; by etrans).
  - split; [done|]. cbn [v_isos set_isos]. etrans; [exact H3|apply same_forget].
Qed.

Lemma vexec_ok nv kvm_fd v q : sess_ok v -> vreq_ok q -> sess_ok (vexec nv kvm_fd v q).
Proof.
  intros Hok Hq. destruct q; cbn [vexec vreq_ok] in *.
  - apply create_sess_ok; [done|]. by destruct outcome.
  - by apply kill_sess_ok.
  - destruct (open_same graphics e v session dev_id) as [H1 H2]. by eapply sess_same.
  - unfold nvkvm_req_open_memory_handle. destruct (nvkvm_handle_open_memory _ _ _ _ _) as [[[h ret] id] cl].
    case_if; by eapply sess_same.
  - destruct (nvkvm_req_close_handle _ _ _) as [[[h va] st] cl]. by eapply sess_same.
  - unfold nvkvm_req_copy_handle_to_isolate, nvkvm_isolate_send_handle. pose proof (send_same dup ack v iso hid) as Hs.
    destruct (nvkvm_isolate_send_handle_generation _ _ _ _ _) as [[v' r] g]. destruct Hs as [H1 H2].
    eapply sess_same; [done|done|cbn; by rewrite H2].
  - destruct (close_on_same nv kvm_fd mid hmid ack v iso hid Hq) as [H1 H2]. by eapply sess_same.
  - destruct (relay_same mid dup ack v iso hid Hq) as [H1 H2]. by eapply sess_same.
Qed.

Definition vm0 (h : host) : vm := Vm nvkvm_isolate_table_init nvkvm_handle_table_init [] mapva0 va_init h.

Lemma vm0_ok h : sess_ok (vm0 h).
Proof.
  split; cbn [vm0 v_isos v_sessions map concat]; [|constructor|constructor|by intros s i ?%elem_of_nil|by intros s ?%elem_of_nil].
  by split.
Qed.

Lemma run_ok nv kvm_fd h qs : Forall vreq_ok qs -> sess_ok (fold_left (vexec nv kvm_fd) qs (vm0 h)).
Proof.
  intros Hf. apply (fold_left_in sess_ok); [|apply vm0_ok]. intros v q Hq Hok. apply vexec_ok; [done|].
  by apply (proj1 (Forall_forall _ _) Hf).
Qed.

(** After any sequence of create, kill, open, close, copy and relay requests,
    whatever the isolates answer, session ids are distinct, every isolate is listed
    in at most one session and at most once, every listed isolate is live, and every
    session has between 1 and 256 isolates: no session outlives its last isolate. *)
Theorem session_table_ok nv kvm_fd h qs :
  Forall vreq_ok qs -> sess_ok (fold_left (vexec nv kvm_fd) qs (vm0 h)).
Proof. apply run_ok. Qed.


(** ** Concrete runs *)

(** Session 9 gets isolates 1 and 2 and opens nvidia0 through the first. *)
Definition demo_open : open_env := OpenEnv 20 21 0 (inr 22) (fun _ => true) (fun h => h).
Definition demo_qs : list vreq :=
  [QCreate None (inr (777, 5)) 9; QCreate None (inr (778, 6)) 9; QOpen false demo_open 9 (NVKVM_DEV_GPU 0)].
Definition demo_vm (h : host) : vm := fold_left (vexec 1 (-1)) demo_qs (vm0 h).

Lemma demo_qs_ok : Forall vreq_ok demo_qs.
Proof. by repeat constructor. Qed.

Lemma session_table_ok_witness :
  sess_ok (demo_vm demo_host) /\ v_sessions (demo_vm demo_host) = [Session 9 [1; 2]].
Proof.
  split; [apply (session_table_ok 1 (-1) demo_host demo_qs demo_qs_ok)|]. unfold demo_vm. generalize demo_host. intros h.
  vm_compute. reflexivity.
Defined.

Definition demo_kill (h : host) : vm :=
  fst (fst (nvkvm_req_kill_isolate 1 (-1) (fun _ t => t) (fun _ h => h) (demo_vm h) 1 9)).

Lemma demo_vm_host h : v_host (demo_vm h) = h.
Proof. vm_compute. reflexivity. Qed.


(** *** What modelling showed *)

(** A handle opened through an isolate carries a reference for it.  Killing the
    isolate does not return that reference, so closing the session's handles skips
    it; afterwards nobody can close it: a close answers EBUSY and a close on any
    isolate EPERM, since the session is gone. *)
Definition demo_one (h : host) : vm :=
  fold_left (vexec 1 (-1)) [QCreate None (inr (777, 5)) 9; QOpen false demo_open 9 (NVKVM_DEV_GPU 0)] (vm0 h).
Lemma kill_strands_own_handle h :
  let v' := fst (fst (nvkvm_req_kill_isolate 1 (-1) (fun _ t => t) (fun _ h => h) (demo_one h) 1 9)) in
  v_sessions v' = [] /\
  slot (v_handles v') 1 = Handle 1 1 NVKVM_HANDLE_TYPE_NVIDIA 22 9 (NVKVM_DEV_GPU 0) 1 0 false true /\
  snd (fst (nvkvm_req_close_handle (v_handles v') (v_va v') 1)) = EBUSY /\
  forall iso, snd (nvkvm_req_close_handle_on_isolate 1 (-1) (fun _ t => t) (fun _ h => h) 0 v' iso 1) = EPERM.
Proof.
  cbv zeta. assert (sess_ok (demo_one h)) as Hok by (apply run_ok; by repeat constructor).
  destruct (kill_result_spec 1 (-1) (fun _ t => t) (fun _ h => h) (demo_one h) 1 9 Hok) as [R1 R2 R3 R4 R5 R6];
    [done|right; vm_compute; reflexivity|]. set (v' := fst (fst _)) in *. clearbody v'.
  assert (slot (undelivered (fun _ t => t) (demo_one h) 1) 1 =
          Handle 1 1 NVKVM_HANDLE_TYPE_NVIDIA 22 9 (NVKVM_DEV_GPU 0) 1 0 false true) as Hd by (vm_compute; reflexivity).
  specialize (R6 1 ltac:(done) ltac:(by rewrite Hd)). rewrite Hd in R6.
  assert (v_sessions v' = []) as Hs by (rewrite R2; vm_compute; reflexivity). split; [done|]. split; [done|].
  unfold nvkvm_req_close_handle, nvkvm_handle_close, nvkvm_req_close_handle_on_isolate, nvkvm_handle_get,
    Handles.live, session_has_isolate. rewrite R6, Hs. split; [reflexivity|]. intros iso. reflexivity.
Qed.

(** [pthread_create] reports its error as its result and does not set errno, which
    the code returns: with errno 0 the failed creation counts as a success, and
    the session lists isolate 0. *)
Lemma thread_error_lists_isolate_0 h :
  let '(v', st, id) := nvkvm_req_create_isolate None (inl 0) (vm0 h) 9 in
  st = 0 /\ id = 0 /\ v_sessions v' = [Session 9 [0]].
Proof. vm_compute. split_and!; reflexivity. Qed.

End Sessions.
