(* ===== verification/Uidmap.v ===== *)
(** * Uidmap: where a window of per-isolate uids can go

    Models [src/common/nvkvm_uidmap.h].  The lines of /proc/self/uid_map are
    the list of their three numbers up to the first one that does not parse;
    [None] if the file cannot be opened. *)
From S2P Require Import Prelude.

Module Uidmap.

Record nvkvm_uidmap := Map { um_lo : Z; um_hi : Z; um_identity : bool }.

Definition UID_TOP : Z := 2147483646.

(** The scan keeps the widest range, the first of several equally wide ones. *)
Fixpoint scan (n best_count best_lo : Z) (ranges : list (Z * Z * Z)) : Z * Z * Z :=
  match ranges with
  | [] => (n, best_count, best_lo)
  | (inside, _, count) :: r =>
      if best_count <? count then scan (n + 1) count inside r else scan (n + 1) best_count best_lo r
  end.

Definition nvkvm_uidmap_get (f : option (list (Z * Z * Z))) : nvkvm_uidmap :=
  match f with
  | None => Map 0 UID_TOP true
  | Some ranges =>
      let '(n, best_count, best_lo) := scan 0 0 0 ranges in
      if best_count =? 0 then Map 0 UID_TOP true
      else
        let hi := best_lo ⊕ best_count ⊖ 1 in
        Map (u32 best_lo) (if UID_TOP <? hi then UID_TOP else u32 hi)
            ((n =? 1) && (best_lo =? 0) && (4294967294 <=? best_count))
  end.

Definition nvkvm_uidmap_fits (m : nvkvm_uidmap) (base slots : Z) : bool :=
  if (slots =? 0) || (base =? 0) then false
  else if (base <? um_lo m) || (um_hi m <? base) then false
  else base ⊕ slots ⊖ 1 <=? um_hi m.

Definition nvkvm_uidmap_place (m : nvkvm_uidmap) (slots : Z) : Z :=
  if (slots =? 0) || (um_hi m ⊖ um_lo m ⊕ 1 <? slots) then 0
  else
    let base := um_hi m ⊖ slots ⊕ 1 in
    u32 (if base <=? um_lo m then (if um_lo m =? 0 then 1 else um_lo m) else base).

Definition map_ok (m : nvkvm_uidmap) : Prop := 0 <= um_lo m <= um_hi m /\ um_hi m < W32.

Lemma fits_iff m base slots :
  map_ok m -> 0 <= base < W32 -> 0 <= slots < W32 ->
  nvkvm_uidmap_fits m base slots = true <->
  0 < slots /\ 0 < base /\ um_lo m <= base /\ base + slots - 1 <= um_hi m.
Proof.
  intros [Hm1 Hm2] Hb Hs. unfold nvkvm_uidmap_fits. rewrite u64_sub_l.
  destruct (Z.eqb_spec slots 0), (Z.eqb_spec base 0); cbn [orb]; try (split; [done|lia]).
  rewrite u64_small by lia.
  destruct (Z.ltb_spec base (um_lo m)), (Z.ltb_spec (um_hi m) base); cbn [orb]; try (split; [done|lia]).
  rewrite Z.leb_le. lia.
Qed.

(** A placement is found exactly when the range is wide enough; it fits, is
    never uid 0, and is the highest base that fits - except when a range
    starting at 0 is filled exactly, where the base returned is 1 and no base
    fits at all. *)
Theorem uidmap_place_sound m slots :
  map_ok m -> 0 < slots < W32 ->
  let b := nvkvm_uidmap_place m slots in
  (b = 0 <-> um_hi m - um_lo m + 1 < slots) /\
  (b <> 0 -> ~ (um_lo m = 0 /\ slots = um_hi m + 1) ->
   nvkvm_uidmap_fits m b slots = true /\
   forall b', 0 <= b' < W32 -> nvkvm_uidmap_fits m b' slots = true -> b' <= b) /\
  (um_lo m = 0 /\ slots = um_hi m + 1 ->
   b = 1 /\ forall b', 0 <= b' < W32 -> nvkvm_uidmap_fits m b' slots = false).
Proof.
  intros Hm Hs. pose proof Hm as [Hm1 Hm2]. unfold nvkvm_uidmap_place.
  assert (um_hi m ⊖ um_lo m ⊕ 1 = um_hi m - um_lo m + 1) as ->
    by (rewrite u64_add_l, u64_small; lia).
  destruct (Z.eqb_spec slots 0); [lia|]. cbn [orb].
  destruct (Z.ltb_spec (um_hi m - um_lo m + 1) slots) as [Hw|Hw]; cbv zeta.
  { split; [done|]. split; [done|]. lia. }
  assert (um_hi m ⊖ slots ⊕ 1 = um_hi m - slots + 1) as -> by (rewrite u64_add_l, u64_small; lia).
  destruct (Z.leb_spec (um_hi m - slots + 1) (um_lo m)), (Z.eqb_spec (um_lo m) 0);
    rewrite u32_small by lia; (split; [lia|]);
    (split; [intros _ Hx; rewrite fits_iff by (done || lia); split; [lia|];
             intros b' Hb'; rewrite fits_iff by (done || lia); lia
            |intros [Hx Hy]; split; [lia|intros b' Hb'; apply not_true_iff_false; rewrite fits_iff by (done || lia); lia]]).
Qed.

Lemma uidmap_place_sound_witness : nvkvm_uidmap_fits (Map 0 65535 false) 61440 4096 = true.
Proof.
  apply (uidmap_place_sound (Map 0 65535 false) 4096); [split; simpl; lia|lia|discriminate|simpl; lia].
Defined.

(** A namespace of exactly 65536 uids asked for 65536: the base 1 is returned. *)
Lemma exact_fit_overruns :
  nvkvm_uidmap_place (nvkvm_uidmap_get (Some [(0, 100000, 65536)])) 65536 = 1 /\
  nvkvm_uidmap_fits (nvkvm_uidmap_get (Some [(0, 100000, 65536)])) 1 65536 = false.
Proof. vm_compute. auto. Qed.

End Uidmap.
