(* ===== verification/IsoConfig.v ===== *)
(** * IsoConfig: which boundary the isolates of a VM get

    Models the configuration of the sandbox ([src/qemu/nvkvm_isolate_uid.h] and
    [nvkvm_isolate_cfg_resolve], [nvkvm_isolate_cfg_check] of
    [src/qemu/nvkvm_isolate.c]): parsing of the mode, the ladder that mode auto
    tries, the uid window, the checks before the device starts, and the child's privilege
    drop.  The environment, the answers of the probes and the kernel's
    credential calls are arguments; of the messages only their presence is kept. *)
From Stdlib Require Import String Ascii.
From S2P Require Import Prelude Uidmap Isolates.

Module IsoConfig.
Import Uidmap Isolates.

Open Scope string_scope.
Open Scope Z_scope.

(** ** Layers *)
Definition NVKVM_ISO_LAYER_SECCOMP : Z := 1.
Definition NVKVM_ISO_LAYER_UID : Z := 2.
Definition NVKVM_ISO_LAYER_NS : Z := 4.
Definition NVKVM_ISO_LAYER_CHROOT : Z := 8.
Definition NVKVM_ISO_LAYERS_ALL : Z := 15.
Definition NVKVM_ISO_LAYERS_CONFINING : Z := 14.
Definition NVKVM_ISO_MODE_AUTO : Z := 2147483648.
Definition NVKVM_ISO_UNSAFE_ACK_VALUE : string := "i-understand-this-removes-all-isolation".
Definition NVKVM_ISO_UID_BASE_DEFAULT : Z := 500000.

Definition has (m layer : Z) : bool := negb ((m & layer) =? 0).

(** ** The mode string *)
Definition TAB : ascii := ascii_of_nat 9.
Definition is_delim (c : ascii) : bool :=
  existsb (Ascii.eqb c) ["+"%char; ","%char; "|"%char; " "%char; TAB].

(** [strtok]: maximal runs of other characters.  [cur]: the run so far, reversed. *)
Fixpoint tokens (s : string) (cur : string) : list string :=
  match s with
  | EmptyString => match cur with EmptyString => [] | _ => [cur] end
  | String c r =>
      if is_delim c then match cur with EmptyString => tokens r "" | _ => cur :: tokens r "" end
      else tokens r (cur ++ String c "")
  end.

Inductive token := TLayer (l : Z) | TAuto | TNone.
Definition token_of (t : string) : option token :=
  if existsb (String.eqb t) ["namespace"; "ns"; "userns"] then Some (TLayer NVKVM_ISO_LAYER_NS)
  else if existsb (String.eqb t) ["uid"; "uidsep"] then Some (TLayer NVKVM_ISO_LAYER_UID)
  else if String.eqb t "chroot" then Some (TLayer NVKVM_ISO_LAYER_CHROOT)
  else if String.eqb t "seccomp" then Some (TLayer NVKVM_ISO_LAYER_SECCOMP)
  else if String.eqb t "auto" then Some TAuto
  else if existsb (String.eqb t) ["none"; "off"] then Some TNone
  else None.

(** The loop over the tokens: the layers named, and whether auto and none were seen. *)
Fixpoint mode_scan (l : list string) (m : Z) (auto none : bool) : option (Z * bool * bool) :=
  match l with
  | [] => Some (m, auto, none)
  | t :: r =>
      match token_of t with
      | None => None
      | Some (TLayer x) => mode_scan r (Z.lor m x) auto none
      | Some TAuto => mode_scan r m true none
      | Some TNone => mode_scan r m auto true
      end
  end.

(** The checks after the loop. *)
Definition mode_finish (m : Z) (saw_auto saw_none : bool) : option Z :=
  if saw_none && (negb (m =? 0) || saw_auto) then None
  else if saw_auto && negb (m =? 0) then None
  else if saw_auto then Some NVKVM_ISO_MODE_AUTO
  else if has m NVKVM_ISO_LAYER_CHROOT && negb (has m NVKVM_ISO_LAYER_UID) then None
  else if has m NVKVM_ISO_LAYER_CHROOT && has m NVKVM_ISO_LAYER_NS then None
  else
    let m := if has m NVKVM_ISO_LAYERS_CONFINING then Z.lor m NVKVM_ISO_LAYER_SECCOMP else m in
    Some (if saw_none then 0 else m).

Definition nvkvm_iso_mode_parse (s : string) : option Z :=
  if String.eqb s "" then None
  else if (128 <=? Z.of_nat (String.length s)) then None
  else
    let l := tokens s "" in
    match mode_scan l 0 false false with
    | None => None
    | Some (m, saw_auto, saw_none) => if bool_decide (l = []) then None else mode_finish m saw_auto saw_none
    end.

Definition nvkvm_iso_needs_unsafe_ack (mode : Z) : bool := (mode & NVKVM_ISO_LAYERS_ALL) =? 0.

Definition nvkvm_iso_mode_str (mode : Z) : string :=
  let l := mode & NVKVM_ISO_LAYERS_ALL in
  if l =? 5 then "namespace" else if l =? 3 then "uid" else if l =? 11 then "uid+chroot"
  else if l =? 7 then "namespace+uid" else if l =? 1 then "seccomp" else if l =? 0 then "none" else "custom".

(** ** Probes *)

(** The effective capabilities (low word), [None] if [capget] failed. *)
Definition CAP_SETGID : Z := 6.
Definition CAP_SETUID : Z := 7.
Definition CAP_SYS_CHROOT : Z := 18.
Definition nvkvm_iso_have_caps (eff : option Z) : option (bool * bool * bool) :=
  match eff with
  | None => None
  | Some e => Some (has e (Z.shiftl 1 CAP_SETUID), has e (Z.shiftl 1 CAP_SETGID), has e (Z.shiftl 1 CAP_SYS_CHROOT))
  end.

(** The permission bits of a node, [None] if it cannot be examined. *)
Definition nvkvm_iso_node_world_rw (st : option Z) : Z :=
  match st with
  | None => -1
  | Some m => if has m 4 && has m 2 then 1 else 0
  end.

(** The steps of the namespace probe: whether the pipe, the clone, the id map and
    the go byte worked, and the status of the child ([None]: not an exit status). *)
Inductive nvkvm_iso_ns_step := NS_OK | NS_CLONE | NS_MAP | NS_MOUNT.
#[export] Instance ns_step_eq_dec : EqDecision nvkvm_iso_ns_step.
Proof. solve_decision. Defined.
Record ns_answers := NsAns { n_pipe : bool; n_clone : bool; n_map : bool; n_go : bool; n_exit : option Z }.
Definition nvkvm_iso_probe_namespaces (a : ns_answers) : nvkvm_iso_ns_step :=
  if negb (n_pipe a) then NS_CLONE
  else if negb (n_clone a) then NS_CLONE
  else if negb (n_map a && n_go a) then NS_MAP
  else match n_exit a with
       | Some st => if st =? 0 then NS_OK else NS_MOUNT
       | None => NS_OK
       end.

Record probes := Probes { p_ns : ns_answers; p_caps : option Z; p_ctl : option Z; p_seccomp : Z + Z }.

Definition nvkvm_iso_probe_uid (p : probes) : bool :=
  match nvkvm_iso_have_caps (p_caps p) with
  | None => false
  | Some (su, sg, _) => su && sg && negb (nvkvm_iso_node_world_rw (p_ctl p) =? 0)
  end.

(** [inl r]: the call returned [r]; [inr e]: it failed with errno [e]. *)
Definition nvkvm_iso_probe_seccomp (p : probes) : bool :=
  match p_seccomp p with
  | inl _ => true
  | inr e => (e =? EFAULT) || (e =? EACCES)
  end.

Definition nvkvm_iso_auto_select (p : probes) : option Z :=
  if bool_decide (nvkvm_iso_probe_namespaces (p_ns p) = NS_OK)
  then Some (Z.lor NVKVM_ISO_LAYER_NS NVKVM_ISO_LAYER_SECCOMP)
  else if nvkvm_iso_probe_uid p then
    let cc := match nvkvm_iso_have_caps (p_caps p) with Some (_, _, c) => c | None => false end in
    Some (Z.lor (Z.lor NVKVM_ISO_LAYER_UID NVKVM_ISO_LAYER_SECCOMP) (if cc then NVKVM_ISO_LAYER_CHROOT else 0))
  else if nvkvm_iso_probe_seccomp p then Some NVKVM_ISO_LAYER_SECCOMP
  else None.

(** ** Numbers: [strtoul (s, &end, 0)] *)
Definition isspace (c : ascii) : bool :=
  let n := Z.of_nat (nat_of_ascii c) in (n =? 32) || ((9 <=? n) && (n <=? 13)).
Fixpoint skip_space (s : string) : string :=
  match s with String c r => if isspace c then skip_space r else s | EmptyString => s end.
Definition digit (c : ascii) : Z :=
  let n := Z.of_nat (nat_of_ascii c) in
  if (48 <=? n) && (n <=? 57) then n - 48
  else if (97 <=? n) && (n <=? 122) then n - 87
  else if (65 <=? n) && (n <=? 90) then n - 55
  else 36.
(** The value of the leading digits, whether there was one, and what follows. *)
Fixpoint digits (base : Z) (s : string) (v : Z) (any : bool) : Z * bool * string :=
  match s with
  | EmptyString => (v, any, s)
  | String c r => if digit c <? base then digits base r (v * base + digit c) true else (v, any, s)
  end.
Definition sign (s : string) : bool * string :=
  match s with
  | String "+"%char r => (false, r)
  | String "-"%char r => (true, r)
  | _ => (false, s)
  end.
Definition hex_prefix (s : string) : option string :=
  match s with
  | String "0"%char (String x (String d r)) =>
      if (Ascii.eqb x "x"%char || Ascii.eqb x "X"%char) && (digit d <? 16) then Some (String d r) else None
  | _ => None
  end.
Definition octal (s : string) : bool := match s with String "0"%char _ => true | _ => false end.
(** The value and whether the whole string was consumed. *)
Definition strtoul0 (s : string) : Z * bool :=
  let '(neg, t) := sign (skip_space s) in
  let '(v, any, r) :=
    match hex_prefix t with
    | Some h => digits 16 h 0 false
    | None => digits (if octal t then 8 else 10) t 0 false
    end in
  let v := if W64 <=? v then W64 - 1 else if neg then u64 (- v) else v in
  if any then (v, String.eqb r "") else (0, String.eqb s "").

(** ** Resolving and checking *)
Record nvkvm_isolate_cfg := Cfg { c_mode : Z; c_uid_base : Z; c_explicit : bool }.
Record iso_env := Env {
  e_mode : option string; e_base : option string; e_ack : option string; e_no_harden : bool;
  e_uid_map : option (list (Z * Z * Z))
}.
Definition given (o : option string) : option string :=
  match o with Some s => if String.eqb s "" then None else Some s | None => None end.

(** The first two steps; [None] is an error. *)
Definition cfg_mode (e : iso_env) : option Z :=
  match given (e_mode e) with
  | Some s => nvkvm_iso_mode_parse s
  | None => Some (if e_no_harden e then NVKVM_ISO_LAYER_SECCOMP else NVKVM_ISO_MODE_AUTO)
  end.
Definition cfg_base (e : iso_env) : option (Z * bool) :=
  match given (e_base e) with
  | None => Some (NVKVM_ISO_UID_BASE_DEFAULT, false)
  | Some s => let '(v, all) := strtoul0 s in
              if negb all || (v =? 0) || (4294967295 <? v) then None else Some (v, true)
  end.
(** The window, moved into the map of this user namespace if need be. *)
Definition cfg_place (e : iso_env) (base : Z) (explicit : bool) : option Z :=
  let map := nvkvm_uidmap_get (e_uid_map e) in
  if nvkvm_uidmap_fits map base NVKVM_ISO_UID_SLOTS then Some base
  else if explicit then None
  else let placed := nvkvm_uidmap_place map NVKVM_ISO_UID_SLOTS in
       Some (if placed =? 0 then base else placed).

(** [None]: the error message is set. *)
Definition nvkvm_isolate_cfg_resolve (e : iso_env) (p : probes) : option nvkvm_isolate_cfg :=
  mode ← cfg_mode e;
  '(base, explicit) ← cfg_base e;
  base ← cfg_place e base explicit;
  if negb (mode =? NVKVM_ISO_MODE_AUTO) && nvkvm_iso_needs_unsafe_ack mode &&
     negb (match e_ack e with Some a => String.eqb a NVKVM_ISO_UNSAFE_ACK_VALUE | None => false end)
  then None
  else if mode =? NVKVM_ISO_MODE_AUTO then
    mode ← nvkvm_iso_auto_select p; Some (Cfg mode base explicit)
  else Some (Cfg mode base explicit).

Definition nvkvm_iso_cfg_validate (c : nvkvm_isolate_cfg) (p : probes) : bool :=
  if negb (has (c_mode c) NVKVM_ISO_LAYER_UID) then true
  else if (c_uid_base c <? NVKVM_ISO_UID_BASE_MIN) || (NVKVM_ISO_UID_BASE_MAX <? c_uid_base c) then false
  else
    match nvkvm_iso_have_caps (p_caps p) with
    | None => false
    | Some (su, sg, cc) =>
        if negb su || negb sg then false
        else if has (c_mode c) NVKVM_ISO_LAYER_CHROOT && negb cc then false
        else negb (nvkvm_iso_node_world_rw (p_ctl p) =? 0)
    end.

(** What the device starts with; [None]: it refuses to start. *)
Definition nvkvm_isolate_cfg_check (e : iso_env) (p : probes) : option nvkvm_isolate_cfg :=
  c ← nvkvm_isolate_cfg_resolve e p;
  if nvkvm_iso_cfg_validate c p then Some c else None.

Definition nvkvm_isolate_cfg_is_degraded (c : nvkvm_isolate_cfg) : bool := negb (has (c_mode c) NVKVM_ISO_LAYER_NS).
Definition nvkvm_isolate_cfg_is_unconfined (c : nvkvm_isolate_cfg) : bool := (c_mode c & NVKVM_ISO_LAYERS_ALL) =? 0.

(** ** The privilege drop of the child

    The kernel's credential calls, over a state [K]; a call returns the
    new state and its result. *)
Record kernel (K : Type) := Kernel {
  k_setgroups0 : K -> K * Z;
  k_setresgid : Z -> Z -> Z -> K -> K * Z;
  k_setresuid : Z -> Z -> Z -> K -> K * Z;
  k_setuid : Z -> K -> K * Z;
  k_getresuid : K -> option (Z * Z * Z);
  k_getresgid : K -> option (Z * Z * Z);
  k_ngroups : K -> Z
}.
Arguments k_setgroups0 {K}.
Arguments k_setresgid {K}.
Arguments k_setresuid {K}.
Arguments k_setuid {K}.
Arguments k_getresuid {K}.
Arguments k_getresgid {K}.
Arguments k_ngroups {K}.

Definition UNCHANGED : Z := 4294967295.
Definition all3 (x : Z) (o : option (Z * Z * Z)) : bool :=
  match o with Some (a, b, c) => (a =? x) && (b =? x) && (c =? x) | None => false end.

(** The attempts to get root back, in order; any success is a failure of the drop. *)
Definition regain {K} (k : kernel K) : list (K -> K * Z) :=
  [k_setresuid k 0 0 0; k_setuid k 0; k_setresuid k UNCHANGED 0 UNCHANGED; k_setresgid k 0 0 0; k_setresgid k UNCHANGED 0 UNCHANGED].
Fixpoint attempts {K} (l : list (K -> K * Z)) (s : K) : option K :=
  match l with
  | [] => Some s
  | f :: r => let '(s', rc) := f s in if rc =? 0 then None else attempts r s'
  end.

(** [Some s]: the function returned 0 in state [s]. *)
Definition nvkvm_iso_drop_privilege {K} (k : kernel K) (uid gid : Z) (s : K) : option K :=
  if (uid =? 0) || (gid =? 0) then None
  else
    let '(s1, r1) := k_setgroups0 k s in
    if negb (r1 =? 0) then None
    else
      let '(s2, r2) := k_setresgid k gid gid gid s1 in
      if negb (r2 =? 0) then None
      else
        let '(s3, r3) := k_setresuid k uid uid uid s2 in
        if negb (r3 =? 0) then None
        else if negb (all3 uid (k_getresuid k s3)) then None
        else if negb (all3 gid (k_getresgid k s3)) then None
        else if negb (k_ngroups k s3 =? 0) then None
        else
          s4 ← attempts (regain k) s3;
          if negb (all3 uid (k_getresuid k s4)) then None
          else if negb (all3 gid (k_getresgid k s4)) then None
          else Some s4.

(** ** Proofs: the mode string *)
Definition names (l : list string) (t : token) : Prop := exists s, s ∈ l /\ token_of s = Some t.

Lemma token_layer s x : token_of s = Some (TLayer x) -> x = 1 \/ x = 2 \/ x = 4 \/ x = 8.
Proof. unfold token_of. repeat case_if; intros [=]; subst; unfold NVKVM_ISO_LAYER_NS, NVKVM_ISO_LAYER_UID, NVKVM_ISO_LAYER_CHROOT, NVKVM_ISO_LAYER_SECCOMP; lia. Qed.

Lemma names_cons s l t : names (s :: l) t <-> token_of s = Some t \/ names l t.
Proof.
  unfold names. split.
  - intros (x & [->|Hx]%elem_of_cons & E); [by left|right; by exists x].
  - intros [E|(x & Hx & E)]; [exists s; split; [by left|done]|exists x; split; [by right|done]].
Qed.
Lemma names_nil t : ~ names [] t.
Proof. intros (x & Hx & _). by apply not_elem_of_nil in Hx. Qed.

Local Ltac scan_flags :=
  first [ by constructor; [match goal with E : token_of _ = _ |- _ => rewrite E end|]
        | intros i Hi; match goal with H : forall i, 0 <= i -> _ |- _ => rewrite (H i Hi) end;
          setoid_rewrite names_cons; match goal with E : token_of _ = _ |- _ => rewrite E end; naive_solver
        | match goal with H : ?b = true <-> _ |- ?b = true <-> _ => rewrite H end;
          rewrite names_cons; match goal with E : token_of _ = _ |- _ => rewrite E end; naive_solver ].

(** What the loop collects. *)
Lemma mode_scan_spec l m auto none m' auto' none' :
  mode_scan l m auto none = Some (m', auto', none') -> 0 <= m < 16 ->
  0 <= m' < 16 /\
  (forall i, 0 <= i -> Z.testbit m' i = true <-> Z.testbit m i = true \/ exists x, names l (TLayer x) /\ Z.testbit x i = true) /\
  (auto' = true <-> auto = true \/ names l TAuto) /\ (none' = true <-> none = true \/ names l TNone) /\
  Forall (fun s => is_Some (token_of s)) l.
Proof.
  revert m auto none. induction l as [|s l IH]; intros m auto none Hs Hm; cbn [mode_scan] in Hs.
  { injection Hs as <- <- <-. split_and!; [lia|lia|..|constructor].
    - intros i _. split; [by left|]. intros [H|(x & Hx & _)]; [done|by apply names_nil in Hx].
    - split; [by left|]. intros [H|H]; [done|by apply names_nil in H].
    - split; [by left|]. intros [H|H]; [done|by apply names_nil in H]. }
  destruct (token_of s) as [[x| |]|] eqn:Et; [| | |done].
  - pose proof (token_layer _ _ Et) as Hx.
    assert (0 <= Z.lor m x < 16) as Hb.
    { apply (forall_below (fun m => (0 <=? Z.lor m x) && (Z.lor m x <? 16)) 16) in Hm; [zb; lia|].
      destruct Hx as [-> | [-> | [-> | ->]]]; reflexivity. }
    apply IH in Hs as (H1 & H2 & H3 & H4 & H5); [|done]. split_and!; try lia; [|scan_flags..].
    intros i Hi. rewrite (H2 i Hi), Z.lor_spec, orb_true_iff. setoid_rewrite names_cons. rewrite Et. naive_solver.
  - apply IH in Hs as (H1 & H2 & H3 & H4 & H5); [|done]. split_and!; try lia; scan_flags.
  - apply IH in Hs as (H1 & H2 & H3 & H4 & H5); [|done]. split_and!; try lia; scan_flags.
Qed.

(** The layers of an accepted mode: the seccomp floor, a chroot only with separate
    uids and never with namespaces. *)
Definition mode_ok (m : Z) : bool := existsb (Z.eqb m) [1; 3; 5; 7; 11].

Lemma has_0 x : has 0 x = false.
Proof. done. Qed.

Lemma named_layers m0 l x :
  0 <= m0 < 16 ->
  (forall i, 0 <= i -> Z.testbit m0 i = true <-> Z.testbit 0 i = true \/ exists x, names l (TLayer x) /\ Z.testbit x i = true) ->
  (names l (TLayer x) -> has m0 x = true) /\ (x = 1 \/ x = 2 \/ x = 4 \/ x = 8 -> has m0 x = true -> names l (TLayer x)).
Proof.
  intros Hm Hb.
  assert (forall i, (i = 0 \/ i = 1 \/ i = 2 \/ i = 3) -> has m0 (2 ^ i) = Z.testbit m0 i) as Hbit.
  { intros i Hi. apply eqb_prop.
    apply (forall_below (fun m => Bool.eqb (has m (2 ^ i)) (Z.testbit m i)) 16); [|done].
    destruct Hi as [-> | [-> | [-> | ->]]]; reflexivity. }
  assert (forall i, (i = 0 \/ i = 1 \/ i = 2 \/ i = 3) -> has m0 (2 ^ i) = true <-> names l (TLayer (2 ^ i))) as Hiff.
  { intros i Hi. rewrite (Hbit i Hi), (Hb i) by lia. rewrite Z.bits_0. split.
    - intros [H|(y & Hy & Ht)]; [done|]. pose proof Hy as (w & _ & Hw%token_layer).
      assert (y = 2 ^ i) as <-; [|done].
      destruct Hi as [-> | [-> | [-> | ->]]], Hw as [-> | [-> | [-> | ->]]]; vm_compute in Ht; try done.
    - intros H. right. exists (2 ^ i). split; [done|]. destruct Hi as [-> | [-> | [-> | ->]]]; done. }
  assert (x = 1 \/ x = 2 \/ x = 4 \/ x = 8 -> exists i, (i = 0 \/ i = 1 \/ i = 2 \/ i = 3) /\ x = 2 ^ i) as Hx.
  { intros [-> | [-> | [-> | ->]]]; [exists 0|exists 1|exists 2|exists 3]; lia. }
  split.
  - intros Hn. pose proof Hn as (w & _ & Hw%token_layer). destruct (Hx Hw) as (i & Hi & ->). by apply Hiff.
  - intros (i & Hi & ->)%Hx. by apply Hiff.
Qed.

(** The outcome of the final checks, for each of the sixteen sets of layers. *)
Definition finish_ok (m0 : Z) : bool :=
  match mode_finish m0 false false with
  | None => true
  | Some m =>
      bool_decide (nvkvm_iso_mode_parse (nvkvm_iso_mode_str m) = Some m) &&
      ((m0 =? 0) || mode_ok m && forallb (fun x => implb (has m0 x) (has m x)) [1; 2; 4; 8] &&
                    forallb (fun x => implb (has m x) (has m0 x)) [2; 4; 8])
  end.

Lemma mode_finish_spec m0 au no m :
  0 <= m0 < 16 -> mode_finish m0 au no = Some m ->
  (m <> NVKVM_ISO_MODE_AUTO -> nvkvm_iso_mode_parse (nvkvm_iso_mode_str m) = Some m) /\
  (m = NVKVM_ISO_MODE_AUTO /\ m0 = 0 /\ au = true /\ no = false \/
   m = 0 /\ m0 = 0 /\ au = false /\ no = true \/
   au = false /\ no = false /\ (m0 = 0 -> m = 0) /\
   (m0 <> 0 -> mode_ok m = true /\ forall x, x = 1 \/ x = 2 \/ x = 4 \/ x = 8 ->
      (has m0 x = true -> has m x = true) /\ (x <> 1 -> has m x = true -> has m0 x = true))).
Proof.
  intros Hm Hf. destruct au, no.
  - unfold mode_finish in Hf. rewrite orb_true_r in Hf. done.
  - unfold mode_finish in Hf. simpl in Hf. destruct (Z.eqb_spec m0 0); [|done]. injection Hf as <-. split; [done|]. by left.
  - unfold mode_finish in Hf. simpl in Hf. rewrite orb_false_r in Hf. destruct (Z.eqb_spec m0 0) as [->|]; [|done].
    injection Hf as <-. split; [intros _; reflexivity|]. right. by left.
  - pose proof (forall_below finish_ok 16 ltac:(vm_compute; reflexivity) m0 Hm) as Hok. unfold finish_ok in Hok.
    rewrite Hf in Hok. apply andb_true_iff in Hok as [Hrt Hok]. apply bool_decide_eq_true in Hrt.
    split; [done|]. right. right. split; [done|]. split; [done|]. split; [intros ->; by injection Hf as <-|].
    intros Hz. rewrite (proj2 (Z.eqb_neq m0 0) Hz), orb_false_l in Hok.
    rewrite !andb_true_iff, !forallb_forall in Hok. destruct Hok as [[Hmo H1] H2]. split; [done|].
    intros x Hx. split.
    + intros Hh. specialize (H1 x). rewrite Hh in H1. apply H1. simpl. intuition.
    + intros Hne Hh. specialize (H2 x). rewrite Hh in H2. apply H2. simpl. intuition.
Qed.

Lemma mode_parse_spec s m :
  nvkvm_iso_mode_parse s = Some m ->
  let l := tokens s "" in
  l <> [] /\ Forall (fun t => is_Some (token_of t)) l /\
  (m = NVKVM_ISO_MODE_AUTO /\ (forall t, names l t -> t = TAuto) \/
   m = 0 /\ (forall t, names l t -> t = TNone) \/
   mode_ok m = true /\ (forall t, names l t -> exists x, t = TLayer x /\ has m x = true) /\
     (forall x, x ∈ [2; 4; 8] -> has m x = true -> names l (TLayer x))) /\
  (m <> NVKVM_ISO_MODE_AUTO -> nvkvm_iso_mode_parse (nvkvm_iso_mode_str m) = Some m).
Proof.
  unfold nvkvm_iso_mode_parse at 1. case_if; [done|]. case_if; [done|]. cbv zeta. set (l := tokens s "").
  destruct (mode_scan l 0 false false) as [[[m0 au] no]|] eqn:Es; [|done].
  apply mode_scan_spec in Es as (Hm & Hb & Ha & Hn & Hk); [|lia].
  case_bool_decide as Hl; [done|]. intros H. split; [done|]. split; [done|].
  assert (forall x, names l (TLayer x) -> has m0 x = true) as Hlay.
  { intros x Hx. by apply (named_layers m0 l x Hm Hb). }
  pose proof (mode_finish_spec m0 au no m Hm H) as (Hrt & [(-> & -> & -> & ->)|[(-> & -> & -> & ->)|(-> & -> & Hf)]]).
  - split; [left; split; [done|]|done]. intros [x| |] Ht; [apply Hlay in Ht; by rewrite has_0 in Ht|done|].
    by pose proof (proj2 Hn (or_intror Ht)).
  - split; [right; left; split; [done|]|done]. intros [x| |] Ht; [apply Hlay in Ht; by rewrite has_0 in Ht| |done].
    by pose proof (proj2 Ha (or_intror Ht)).
  - split; [|done]. destruct Hf as [Hz Hf]. assert (forall t, names l t -> exists x, t = TLayer x) as Hall.
    { intros [x| |] Ht; [by exists x|by pose proof (proj2 Ha (or_intror Ht))|by pose proof (proj2 Hn (or_intror Ht))]. }
    assert (m0 <> 0) as Hm0.
    { destruct l as [|s0 l']; [done|]. apply Forall_cons in Hk as [[t Ht] _].
      assert (names (s0 :: l') t) as Hs0 by (exists s0; split; [by left|done]).
      destruct (Hall _ Hs0) as [x ->]. intros ->. apply Hlay in Hs0. by rewrite has_0 in Hs0. }
    right; right. destruct (Hf Hm0) as [Hok Hx]. split; [done|]. split.
    + intros t Ht. destruct (Hall t Ht) as [x ->]. exists x. split; [done|]. apply (Hx x); [|by apply Hlay].
      destruct Ht as (w & _ & Hw). by apply token_layer in Hw.
    + intros x Hin Hhas. apply (named_layers m0 l x Hm Hb); [set_unfold; lia|].
      by apply (Hx x); [set_unfold; lia|set_unfold; lia|].
Qed.

(** The mode string is read strictly.  Every word of an accepted string is
    known; auto and none stand alone; otherwise the result has exactly the
    layers named, with the seccomp floor added, and is one of the five real rungs.
    Printing an accepted mode and parsing it again gives the same mode. *)
Theorem mode_parse_sound s m :
  nvkvm_iso_mode_parse s = Some m ->
  let l := tokens s "" in
  l <> [] /\ Forall (fun t => is_Some (token_of t)) l /\
  (m = NVKVM_ISO_MODE_AUTO /\ (forall t, names l t -> t = TAuto) \/
   m = 0 /\ (forall t, names l t -> t = TNone) \/
   mode_ok m = true /\ (forall t, names l t -> exists x, t = TLayer x /\ has m x = true) /\
     (forall x, x ∈ [2; 4; 8] -> has m x = true -> names l (TLayer x))) /\
  (m <> NVKVM_ISO_MODE_AUTO -> nvkvm_iso_mode_parse (nvkvm_iso_mode_str m) = Some m).
Proof. exact (mode_parse_spec s m). Qed.

(** ** Proofs: the configuration *)
Lemma auto_modes p m : nvkvm_iso_auto_select p = Some m -> m = 5 \/ m = 3 \/ m = 11 \/ m = 1.
Proof.
  unfold nvkvm_iso_auto_select. case_bool_decide; [intros [= <-]; by left|]. case_if.
  - destruct (nvkvm_iso_have_caps (p_caps p)) as [[[su sg] []]|]; intros [= <-]; simpl; auto.
  - case_if; [|done]. intros [= <-]. auto.
Qed.

Lemma uid_slots base slot :
  NVKVM_ISO_UID_BASE_MIN <= base <= NVKVM_ISO_UID_BASE_MAX -> 0 <= slot < NVKVM_ISO_UID_SLOTS ->
  nvkvm_iso_uid_for_slot base slot = Some (base + slot).
Proof.
  unfold nvkvm_iso_uid_for_slot, NVKVM_ISO_UID_BASE_MIN, NVKVM_ISO_UID_BASE_MAX, NVKVM_ISO_UID_SLOTS. intros Hb Hs.
  rewrite (proj2 (Z.leb_gt _ _)) by lia. rewrite (proj2 (Z.ltb_ge base _)) by lia. rewrite (proj2 (Z.ltb_ge _ base)) by lia.
  simpl. f_equal. unfold u32. rewrite Z.mod_small; lia.
Qed.

Lemma unconfined_spec e p mode m base ex :
  cfg_mode e = Some mode ->
  (mode = NVKVM_ISO_MODE_AUTO /\ nvkvm_iso_auto_select p = Some m \/
   mode <> NVKVM_ISO_MODE_AUTO /\ m = mode /\
   (nvkvm_iso_needs_unsafe_ack mode = true -> e_ack e = Some NVKVM_ISO_UNSAFE_ACK_VALUE)) ->
  nvkvm_isolate_cfg_is_unconfined (Cfg m base ex) = true ->
  e_ack e = Some NVKVM_ISO_UNSAFE_ACK_VALUE /\
  exists s, e_mode e = Some s /\ tokens s "" <> [] /\ Forall (fun t => token_of t = Some TNone) (tokens s "").
Proof.
  intros Hmode [[-> Ha]|(Hne & -> & Hack)]; unfold nvkvm_isolate_cfg_is_unconfined; simpl; intros Hz.
  { apply auto_modes in Ha as [-> | [-> | [-> | ->]]]; discriminate Hz. }
  split; [by apply Hack|]. unfold cfg_mode, given in Hmode. destruct (e_mode e) as [s|] eqn:Es.
  2: { destruct (e_no_harden e); injection Hmode as <-; [discriminate Hz|done]. }
  destruct (String.eqb s ""); [destruct (e_no_harden e); injection Hmode as <-; [discriminate Hz|done]|].
  exists s. split; [done|]. apply mode_parse_spec in Hmode as (Hl & Hk & Hc & _). split; [done|].
  destruct Hc as [[-> _]|[[-> Hall]|[Hok _]]]; [done| |].
  - rewrite Forall_forall in Hk |- *. intros t Ht. destruct (Hk t Ht) as [k Hk']. rewrite Hk'. f_equal. apply Hall. by exists t.
  - unfold mode_ok in Hok. simpl in Hok. rewrite !orb_true_iff in Hok.
    destruct Hok as [H|[H|[H|[H|[H|H]]]]]; try discriminate H; apply Z.eqb_eq in H; subst; discriminate Hz.
Qed.

Lemma auto_strongest p m base ex :
  nvkvm_iso_auto_select p = Some m ->
  nvkvm_isolate_cfg_is_degraded (Cfg m base ex) = false <-> nvkvm_iso_probe_namespaces (p_ns p) = NS_OK.
Proof.
  unfold nvkvm_iso_auto_select, nvkvm_isolate_cfg_is_degraded. case_bool_decide as Hn; [by intros [= <-]|].
  simpl. case_if; [destruct (nvkvm_iso_have_caps (p_caps p)) as [[[su sg] []]|]; by intros [= <-]|].
  case_if; [intros [= <-]|]; done.
Qed.

Lemma validate_uid m base ex p :
  nvkvm_iso_cfg_validate (Cfg m base ex) p = true -> has m NVKVM_ISO_LAYER_UID = true ->
  (forall slot, 0 <= slot < NVKVM_ISO_UID_SLOTS ->
     nvkvm_iso_uid_for_slot base slot = Some (base + slot) /\ 65536 <= base + slot < 4294901760) /\
  exists cc, nvkvm_iso_have_caps (p_caps p) = Some (true, true, cc) /\ (has m NVKVM_ISO_LAYER_CHROOT = true -> cc = true).
Proof.
  unfold nvkvm_iso_cfg_validate. cbn [c_mode c_uid_base]. intros Hv Hu. rewrite Hu in Hv. simpl in Hv.
  destruct (Z.ltb_spec base NVKVM_ISO_UID_BASE_MIN); [done|]. destruct (Z.ltb_spec NVKVM_ISO_UID_BASE_MAX base); [done|].
  simpl in Hv. split.
  - intros slot Hs. split; [apply uid_slots; lia|].
    unfold NVKVM_ISO_UID_BASE_MIN, NVKVM_ISO_UID_BASE_MAX, NVKVM_ISO_UID_SLOTS in *. lia.
  - destruct (nvkvm_iso_have_caps (p_caps p)) as [[[su sg] cc]|]; [|done]. destruct su, sg; simpl in Hv; try done.
    exists cc. split; [done|]. intros Hc. rewrite Hc in Hv. by destruct cc.
Qed.

(** What the device starts with.  Isolates run without any boundary only if the mode
    string says none (or off) and nothing else and the acknowledgement is
    given word for word; mode auto never chooses that, and chooses namespaces
    whenever its probe succeeds.  With separate uids, every slot has a uid of
    its own above the host's accounts and below the overflow ids, QEMU has the capabilities, and a base
    the operator named is used as it is. *)
Theorem cfg_check_sound e p c :
  nvkvm_isolate_cfg_check e p = Some c ->
  (nvkvm_isolate_cfg_is_unconfined c = true ->
     e_ack e = Some NVKVM_ISO_UNSAFE_ACK_VALUE /\
     exists s, e_mode e = Some s /\ tokens s "" <> [] /\ Forall (fun t => token_of t = Some TNone) (tokens s "")) /\
  (cfg_mode e = Some NVKVM_ISO_MODE_AUTO ->
     nvkvm_isolate_cfg_is_degraded c = false <-> nvkvm_iso_probe_namespaces (p_ns p) = NS_OK) /\
  (has (c_mode c) NVKVM_ISO_LAYER_UID = true ->
     (forall slot, 0 <= slot < NVKVM_ISO_UID_SLOTS ->
        nvkvm_iso_uid_for_slot (c_uid_base c) slot = Some (c_uid_base c + slot) /\
        65536 <= c_uid_base c + slot < 4294901760) /\
     exists cc, nvkvm_iso_have_caps (p_caps p) = Some (true, true, cc) /\
       (has (c_mode c) NVKVM_ISO_LAYER_CHROOT = true -> cc = true)) /\
  (given (e_base e) <> None -> cfg_base e = Some (c_uid_base c, true)).
Proof.
  unfold nvkvm_isolate_cfg_check, nvkvm_isolate_cfg_resolve.
  destruct (cfg_mode e) as [mode|] eqn:Em; [|done]. destruct (cfg_base e) as [[base ex]|] eqn:Eb; [|done].
  cbn. destruct (cfg_place e base ex) as [base'|] eqn:Ep; [|done]. cbn. intros H.
  assert (exists m, c = Cfg m base' ex /\ nvkvm_iso_cfg_validate c p = true /\
    (mode = NVKVM_ISO_MODE_AUTO /\ nvkvm_iso_auto_select p = Some m \/
     mode <> NVKVM_ISO_MODE_AUTO /\ m = mode /\
     (nvkvm_iso_needs_unsafe_ack mode = true -> e_ack e = Some NVKVM_ISO_UNSAFE_ACK_VALUE))) as (m & -> & Hv & Hm).
  { revert H. destruct (Z.eqb_spec mode NVKVM_ISO_MODE_AUTO); simpl.
    - destruct (nvkvm_iso_auto_select p) as [m|]; simpl; [|done]. case_if; [|done]. intros [= <-]. exists m. split_and!; [done|done|by left].
    - destruct (nvkvm_iso_needs_unsafe_ack mode) eqn:Ea; simpl.
      + destruct (e_ack e) as [a|]; simpl; [|done]. destruct (String.eqb_spec a NVKVM_ISO_UNSAFE_ACK_VALUE) as [->|]; simpl; [|done].
        case_if; [|done]. intros [= <-]. exists mode. split_and!; [done|done|by right].
      + case_if; [|done]. intros [= <-]. exists mode. split_and!; [done|done|by right]. }
  split_and!.
  - by apply (unconfined_spec e p mode m).
  - intros [= ->]. destruct Hm as [[_ Ha]|[? _]]; [|done]. by apply auto_strongest.
  - intros Hu. by apply validate_uid in Hv.
  - intros Hg. unfold cfg_base in *. destruct (given (e_base e)) as [s|]; [|done]. destruct (strtoul0 s) as [v all].
    revert Eb. case_if; [done|]. intros [= <- <-]. unfold cfg_place in Ep. revert Ep. case_if; [|done]. by intros [= <-].
Qed.

(** ** Proofs: the privilege drop *)
Inductive cred_call := CSetgroups0 | CSetresuid (r e s : Z) | CSetuid (u : Z) | CSetresgid (r e s : Z).
Definition call {K} (k : kernel K) (c : cred_call) : K -> K * Z :=
  match c with
  | CSetgroups0 => k_setgroups0 k
  | CSetresuid r e s => k_setresuid k r e s
  | CSetuid u => k_setuid k u
  | CSetresgid r e s => k_setresgid k r e s
  end.
Definition calls {K} (k : kernel K) (l : list cred_call) (s : K) : K := fold_left (fun s c => fst (call k c s)) l s.

Definition among3 (o : option (Z * Z * Z)) (x : Z) : Prop :=
  match o with Some (r, e, s) => x = r \/ x = e \/ x = s | None => False end.

(** What the manual pages setresuid(2), setuid(2) and capabilities(7) promise; [pu] and
    [pg] say whether the process has CAP_SETUID and CAP_SETGID. *)
Class CredLaws {K} (k : kernel K) (pu pg : K -> bool) := {
  law_fail : forall c s s' rc, call k c s = (s', rc) -> rc <> 0 -> s' = s;
  law_root_uid : forall s, pu s = true -> snd (k_setresuid k 0 0 0 s) = 0;
  law_root_gid : forall s, pg s = true -> snd (k_setresgid k 0 0 0 s) = 0;
  law_unprivileged : forall c s s' rc,
    call k c s = (s', rc) -> pu s = false -> pg s = false ->
    ~ among3 (k_getresuid k s) 0 ->
    pu s' = false /\ pg s' = false /\
    (k_getresuid k s <> None -> exists r e v, k_getresuid k s' = Some (r, e, v) /\
       among3 (k_getresuid k s) r /\ among3 (k_getresuid k s) e /\ among3 (k_getresuid k s) v) /\
    (k_getresgid k s <> None -> exists r e v, k_getresgid k s' = Some (r, e, v) /\
       among3 (k_getresgid k s) r /\ among3 (k_getresgid k s) e /\ among3 (k_getresgid k s) v)
}.

Section Drop.
Context {K : Type} (k : kernel K) (pu pg : K -> bool) `{!CredLaws k pu pg} (uid gid : Z).

Record dropped (s : K) : Prop := {
  dr_uid : k_getresuid k s = Some (uid, uid, uid);
  dr_gid : k_getresgid k s = Some (gid, gid, gid);
  dr_pu : pu s = false;
  dr_pg : pg s = false
}.

Lemma all3_eq x o : all3 x o = true -> o = Some (x, x, x).
Proof. destruct o as [[[a b] c]|]; [|done]. simpl. intros H. zb. by subst. Qed.

Definition regain_list : list cred_call :=
  [CSetresuid 0 0 0; CSetuid 0; CSetresuid UNCHANGED 0 UNCHANGED; CSetresgid 0 0 0; CSetresgid UNCHANGED 0 UNCHANGED].
Lemma regain_calls : regain k = call k <$> regain_list.
Proof. reflexivity. Qed.

(** Every attempt failed, so nothing moved. *)
Lemma attempts_fail l s s' :
  attempts (call k <$> l) s = Some s' -> s' = s /\ Forall (fun c => snd (call k c s) <> 0) l.
Proof.
  revert s. induction l as [|c l IH]; intros s; simpl; [intros [= <-]; auto|].
  destruct (call k c s) as [s1 rc] eqn:E. destruct (Z.eqb_spec rc 0); [done|]. intros Ha.
  assert (s1 = s) as -> by (by eapply law_fail). apply IH in Ha as [-> Hl]. split; [done|]. constructor; [by rewrite E|done].
Qed.

Lemma drop_dropped s s' : nvkvm_iso_drop_privilege k uid gid s = Some s' -> uid <> 0 /\ gid <> 0 /\ dropped s' /\ k_ngroups k s' = 0.
Proof.
  unfold nvkvm_iso_drop_privilege. destruct (Z.eqb_spec uid 0); [done|]. destruct (Z.eqb_spec gid 0); [done|]. cbn [orb].
  destruct (k_setgroups0 k s) as [s1 r1]. case_if; [done|]. destruct (k_setresgid k gid gid gid s1) as [s2 r2]. case_if; [done|].
  destruct (k_setresuid k uid uid uid s2) as [s3 r3]. case_if; [done|].
  destruct (all3 uid (k_getresuid k s3)) eqn:Eu; [|done]. destruct (all3 gid (k_getresgid k s3)) eqn:Eg; [|done]. cbn [negb].
  destruct (Z.eqb_spec (k_ngroups k s3) 0) as [En|]; [|done]. cbn [negb].
  rewrite regain_calls.
  destruct (attempts (call k <$> regain_list) s3) as [s4|] eqn:Ea; [|done]. apply attempts_fail in Ea as [-> Hf].
  unfold regain_list in Hf. rewrite !Forall_cons in Hf. destruct Hf as (Hu & _ & _ & Hg & _). simpl. rewrite Eu, Eg. simpl. intros [= <-].
  apply all3_eq in Eu, Eg. split_and!; [done..|split; try done|done].
  - destruct (pu s3) eqn:E'; [|done]. by apply law_root_uid in E'.
  - destruct (pg s3) eqn:E'; [|done]. by apply law_root_gid in E'.
Qed.

Lemma dropped_call c s : uid <> 0 -> dropped s -> dropped (fst (call k c s)).
Proof.
  intros Hz [Hu Hg Hpu Hpg]. destruct (call k c s) as [s' rc] eqn:E. simpl.
  destruct (law_unprivileged c s s' rc E Hpu Hpg) as (H1 & H2 & H3 & H4); [rewrite Hu; simpl; naive_solver|].
  destruct H3 as (r & e & v & E3 & Hr & He & Hv); [by rewrite Hu|]. destruct H4 as (r' & e' & v' & E4 & Hr' & He' & Hv'); [by rewrite Hg|].
  rewrite Hu in *. rewrite Hg in *. simpl in *. split; [|..|done|done].
  - rewrite E3. repeat f_equal; naive_solver.
  - rewrite E4. repeat f_equal; naive_solver.
Qed.
End Drop.

(** The privilege drop cannot be undone.  On any kernel that keeps the documented
    rules, if the function returns 0 the process has only the isolate's uid and
    gid and no supplementary group, and no later sequence of credential calls
    gives it any other. *)
Theorem drop_irreversible {K} (k : kernel K) (pu pg : K -> bool) (L : CredLaws k pu pg) uid gid s s' l :
  nvkvm_iso_drop_privilege k uid gid s = Some s' ->
  uid <> 0 /\ gid <> 0 /\ k_ngroups k s' = 0 /\
  k_getresuid k (calls k l s') = Some (uid, uid, uid) /\ k_getresgid k (calls k l s') = Some (gid, gid, gid).
Proof.
  intros Hd. destruct (drop_dropped k pu pg uid gid s s' Hd) as (Hu & Hg & Hdr & Hn). split_and!; try done.
  all: assert (dropped k pu pg uid gid (calls k l s')) as [? ?]; [|done].
  all: unfold calls; clear Hd Hn; revert s' Hdr; induction l as [|c l IH]; intros s' Hdr; simpl; [done|]; by apply IH, dropped_call.
Qed.

(** ** A kernel that keeps the rules *)
Record cred := Cred { ru : Z; eu : Z; su : Z; rg : Z; eg : Z; sg : Z; ngroups : Z; cap_u : bool; cap_g : bool }.
Definition pick (cur new : Z) : Z := if new =? UNCHANGED then cur else new.
Definition held3 (a b c new : Z) : bool := (new =? UNCHANGED) || (new =? a) || (new =? b) || (new =? c).
(** Capabilities go when the last zero among the uids goes. *)
Definition drops (c : cred) (r e s : Z) : bool :=
  ((ru c =? 0) || (eu c =? 0) || (su c =? 0)) && negb ((r =? 0) || (e =? 0) || (s =? 0)).
Definition set_uids (r e s : Z) (c : cred) : cred :=
  let d := drops c r e s in
  Cred r e s (rg c) (eg c) (sg c) (ngroups c) (cap_u c && negb d) (cap_g c && negb d).
Definition demo_kernel : kernel cred := {|
  k_setgroups0 := fun c => if cap_g c then (Cred (ru c) (eu c) (su c) (rg c) (eg c) (sg c) 0 (cap_u c) (cap_g c), 0) else (c, -1);
  k_setresgid := fun r e s c =>
    if cap_g c || held3 (rg c) (eg c) (sg c) r && held3 (rg c) (eg c) (sg c) e && held3 (rg c) (eg c) (sg c) s
    then (Cred (ru c) (eu c) (su c) (pick (rg c) r) (pick (eg c) e) (pick (sg c) s) (ngroups c) (cap_u c) (cap_g c), 0) else (c, -1);
  k_setresuid := fun r e s c =>
    if cap_u c || held3 (ru c) (eu c) (su c) r && held3 (ru c) (eu c) (su c) e && held3 (ru c) (eu c) (su c) s
    then (set_uids (pick (ru c) r) (pick (eu c) e) (pick (su c) s) c, 0) else (c, -1);
  k_setuid := fun u c =>
    if cap_u c then (set_uids u u u c, 0)
    else if (u =? ru c) || (u =? su c) then (set_uids (ru c) u (su c) c, 0) else (c, -1);
  k_getresuid := fun c => Some (ru c, eu c, su c);
  k_getresgid := fun c => Some (rg c, eg c, sg c);
  k_ngroups := ngroups
|}.

Lemma pick_held a b c new cur : held3 a b c new = true -> cur = a \/ cur = b \/ cur = c ->
  pick cur new = a \/ pick cur new = b \/ pick cur new = c.
Proof. unfold held3, pick. intros H Hc. destruct (new =? UNCHANGED); [done|]. simpl in H. rewrite !orb_true_iff, !Z.eqb_eq in H. tauto. Qed.

#[export] Instance demo_laws : CredLaws demo_kernel cap_u cap_g.
Proof.
  split.
  - intros [|r e s|u|r e s] c c' rc; simpl; repeat case_if; intros [= <- <-]; done.
  - intros c H. simpl. by rewrite H.
  - intros c H. simpl. by rewrite H.
  - intros [|r e s|u|r e s] c c' rc Hc Hu Hg Hz; simpl in *; rewrite ?Hu, ?Hg in Hc; simpl in Hc.
    + injection Hc as <- <-. split_and!; [done..| |]; intros _; do 3 eexists; (split; [done|]); tauto.
    + destruct (held3 (ru c) (eu c) (su c) r && _ && _) eqn:Eh; injection Hc as <- <-; simpl; rewrite ?Hu, ?Hg.
      * apply andb_true_iff in Eh as [[H1 H2]%andb_true_iff H3].
        split_and!; [done..| |]; intros _; do 3 eexists; (split; [done|]); [|tauto].
        split_and!; eapply pick_held; eauto.
      * split_and!; [done..| |]; intros _; do 3 eexists; (split; [done|]); tauto.
    + destruct ((u =? ru c) || (u =? su c)) eqn:Eh; injection Hc as <- <-; simpl; rewrite ?Hu, ?Hg.
      * rewrite orb_true_iff, !Z.eqb_eq in Eh.
        split_and!; [done..| |]; intros _; do 3 eexists; (split; [done|]); tauto.
      * split_and!; [done..| |]; intros _; do 3 eexists; (split; [done|]); tauto.
    + destruct (held3 (rg c) (eg c) (sg c) r && _ && _) eqn:Eh; injection Hc as <- <-; simpl; rewrite ?Hu, ?Hg.
      * apply andb_true_iff in Eh as [[H1 H2]%andb_true_iff H3].
        split_and!; [done..| |]; intros _; do 3 eexists; (split; [done|]); [tauto|].
        split_and!; eapply pick_held; eauto.
      * split_and!; [done..| |]; intros _; do 3 eexists; (split; [done|]); tauto.
Qed.

Definition demo_root : cred := Cred 0 0 0 0 0 0 3 true true.
Definition demo_dropped : cred := Cred 500004 500004 500004 500004 500004 500004 0 false false.

Lemma drop_irreversible_witness :
  nvkvm_iso_drop_privilege demo_kernel 500004 500004 demo_root = Some demo_dropped /\
  k_getresuid demo_kernel (calls demo_kernel [CSetuid 0; CSetresuid 0 500004 0] demo_dropped) = Some (500004, 500004, 500004).
Proof.
  split; [vm_compute; reflexivity|].
  apply (drop_irreversible demo_kernel cap_u cap_g demo_laws 500004 500004 demo_root demo_dropped
           [CSetuid 0; CSetresuid 0 500004 0]). vm_compute. reflexivity.
Defined.

Lemma mode_parse_sound_witness :
  nvkvm_iso_mode_parse "uid+chroot" = Some 11 /\ nvkvm_iso_mode_parse (nvkvm_iso_mode_str 11) = Some 11.
Proof.
  split; [vm_compute; reflexivity|]. apply (mode_parse_sound "uid+chroot" 11); [vm_compute; reflexivity|discriminate].
Defined.

Definition demo_ns_fails : ns_answers := NsAns true false false false None.
(** Docker's default capabilities. *)
Definition demo_probes : probes := Probes demo_ns_fails (Some 2818844155) (Some 438) (inr 14).
Definition demo_env (map : option (list (Z * Z * Z))) : iso_env := Env None None None false map.

Lemma cfg_check_sound_witness :
  let c := Cfg 11 500000 false in
  nvkvm_isolate_cfg_check (demo_env None) demo_probes = Some c /\
  nvkvm_iso_uid_for_slot (c_uid_base c) 7 = Some 500007.
Proof.
  cbv zeta. split; [vm_compute; reflexivity|].
  destruct (cfg_check_sound (demo_env None) demo_probes (Cfg 11 500000 false) ltac:(vm_compute; reflexivity)) as (_ & _ & H & _).
  destruct (H ltac:(vm_compute; reflexivity)) as [H' _]. apply (H' 7). split; [discriminate|reflexivity].
Defined.

(** ** What the window's move into a user namespace gives

    The usual map of a remapped container has 65536 uids.  The window is moved to
    the top of it, below the lowest base the next check accepts: the device does
    not start.  A map too small for the window does not stop mode auto from
    choosing uids either, with a base that is not mapped. *)
Lemma relocated_window_refused :
  let e := demo_env (Some [(0, 100000, 65536)]) in
  nvkvm_isolate_cfg_resolve e demo_probes = Some (Cfg 11 61440 false) /\ nvkvm_isolate_cfg_check e demo_probes = None.
Proof. vm_compute. auto. Qed.

Lemma small_map_still_uid :
  let e := demo_env (Some [(0, 100000, 1000)]) in
  nvkvm_isolate_cfg_check e demo_probes = Some (Cfg 11 500000 false) /\
  nvkvm_uidmap_fits (nvkvm_uidmap_get (e_uid_map e)) 500000 1 = false.
Proof. vm_compute. auto. Qed.

End IsoConfig.
