(* ===== verification/Objects.v ===== *)
(** * Objects: the RM object graph of a client

    Models [src/qemu/nvkvm_objects.c]: the objects a guest client has allocated,
    kept in an array indexed by handle, with the lists of what each depends on and of
    what depends on it, and the cascading free.  Objects live in a heap of
    pointers, so that a dangling link is visible: reading through a freed pointer is
    [None].  [collect_free_list] recurses along the graph and gets fuel. *)
From S2P Require Import Prelude.

Module Objects.

Definition NVKVM_MAX_OBJECTS_PER_CLIENT : Z := 4096.
Definition NV01_NULL_OBJECT : Z := 0.

(** [o_impl]: the class has a release callback. *)
Record nvkvm_object := Obj {
  o_handle : Z; o_class : Z; o_parent : Z; o_deps : list Z; o_rdeps : list Z; o_impl : bool
}.
Record nvkvm_client := Client {
  resources : gmap Z Z; heap : gmap Z nvkvm_object; next_ptr : Z; nresources : Z
}.
Definition nvkvm_client_alloc : nvkvm_client := Client ∅ ∅ 1 0.

Definition obj_index (handle : Z) : Z := handle mod NVKVM_MAX_OBJECTS_PER_CLIENT.

Definition nvkvm_obj_lookup (c : nvkvm_client) (handle : Z) : option Z :=
  p ← resources c !! obj_index handle;
  o ← heap c !! p;
  if o_handle o =? handle then Some p else None.

Definition set_heap (c : nvkvm_client) (h : gmap Z nvkvm_object) : nvkvm_client :=
  Client (resources c) h (next_ptr c) (nresources c).
Definition with_deps (o : nvkvm_object) (l : list Z) : nvkvm_object :=
  Obj (o_handle o) (o_class o) (o_parent o) l (o_rdeps o) (o_impl o).
Definition with_rdeps (o : nvkvm_object) (l : list Z) : nvkvm_object :=
  Obj (o_handle o) (o_class o) (o_parent o) (o_deps o) l (o_impl o).
Definition push_dep (q : Z) (o : nvkvm_object) : nvkvm_object := with_deps o (o_deps o ++ [q]).
Definition push_rdep (q : Z) (o : nvkvm_object) : nvkvm_object := with_rdeps o (o_rdeps o ++ [q]).

Definition nvkvm_obj_add_dep (c : nvkvm_client) (h1 h2 : Z) : nvkvm_client :=
  match nvkvm_obj_lookup c h1, nvkvm_obj_lookup c h2 with
  | Some p1, Some p2 => set_heap c (alter (push_rdep p1) p2 (alter (push_dep p2) p1 (heap c)))
  | _, _ => c
  end.

Definition obj_insert (c : nvkvm_client) (o : nvkvm_object) : nvkvm_client :=
  Client (<[obj_index (o_handle o) := next_ptr c]> (resources c)) (<[next_ptr c := o]> (heap c))
    (next_ptr c + 1) (nresources c + 1).

Definition nvkvm_obj_add (c : nvkvm_client) (handle class_id parent_handle : Z) (impl : bool) : nvkvm_client * Z :=
  if handle =? NV01_NULL_OBJECT then (c, - EINVAL)
  else match resources c !! obj_index handle with
  | Some _ => (c, - EEXIST)
  | None =>
      let c1 := obj_insert c (Obj handle class_id parent_handle [] [] impl) in
      (if parent_handle =? NV01_NULL_OBJECT then c1 else nvkvm_obj_add_dep c1 handle parent_handle, 0)
  end.

(** ** Free *)
Fixpoint collect_free_list (fuel : nat) (h : gmap Z nvkvm_object) (p : Z) (acc : list Z) : option (list Z) :=
  match fuel with
  | O => None
  | S n =>
      if existsb (Z.eqb p) acc then Some acc
      else
        o ← h !! p;
        acc' ← foldl (fun a q => a ≫= collect_free_list n h q) (Some acc) (o_rdeps o);
        Some (acc' ++ [p])
  end.

(** One object: its links are taken out of what it depends on, then it goes. *)
Definition unlink (p d : Z) (h : gmap Z nvkvm_object) : option (gmap Z nvkvm_object) :=
  dep ← h !! d;
  Some (match find_idx (Z.eqb p) (o_rdeps dep) with
        | Some k => <[d := with_rdeps dep (swap_remove (o_rdeps dep) k)]> h
        | None => h
        end).

Definition free_one (c : nvkvm_client) (p : Z) : option nvkvm_client :=
  o ← heap c !! p;
  h ← foldl (fun a d => a ≫= unlink p d) (Some (heap c)) (o_deps o);
  Some (Client (delete (obj_index (o_handle o)) (resources c)) (delete p h) (next_ptr c) (nresources c - 1)).

(** The client and the objects freed, in order. *)
Definition nvkvm_obj_free (fuel : nat) (c : nvkvm_client) (handle : Z) : option (nvkvm_client * list Z) :=
  match nvkvm_obj_lookup c handle with
  | None => Some (c, [])
  | Some p =>
      l ← collect_free_list fuel (heap c) p [];
      c' ← foldl (fun a q => a ≫= fun c => free_one c q) (Some c) l;
      Some (c', l)
  end.

(** [nvkvm_client_free]: the objects freed, slot by slot. *)
Definition nvkvm_client_free (c : nvkvm_client) : list Z :=
  omap (fun i => resources c !! i) (seqZ 0 NVKVM_MAX_OBJECTS_PER_CLIENT).

(** ** Invariant *)
Definition ct (p : Z) (l : list Z) : Z := count_if (Z.eqb p) l.

Record graph_ok (h : gmap Z nvkvm_object) : Prop := {
  gr_deps : forall p o q, h !! p = Some o -> q ∈ o_deps o -> is_Some (h !! q);
  gr_rdeps : forall p o q, h !! p = Some o -> q ∈ o_rdeps o -> is_Some (h !! q);
  gr_inverse : forall p q o o', h !! p = Some o -> h !! q = Some o' -> ct q (o_deps o) = ct p (o_rdeps o')
}.

Record client_ok (c : nvkvm_client) : Prop := {
  cl_res : forall i p, resources c !! i = Some p -> exists o, heap c !! p = Some o /\ i = obj_index (o_handle o);
  cl_heap : forall p o, heap c !! p = Some o -> resources c !! obj_index (o_handle o) = Some p /\ o_handle o <> NV01_NULL_OBJECT;
  cl_next : forall p o, heap c !! p = Some o -> p < next_ptr c;
  cl_count : nresources c = Z.of_nat (size (heap c));
  cl_graph : graph_ok (heap c)
}.

(** Dependents, transitively. *)
Inductive dependent (h : gmap Z nvkvm_object) (p : Z) : Z -> Prop :=
  | dep_refl : dependent h p p
  | dep_step q o x : dependent h p q -> h !! q = Some o -> x ∈ o_rdeps o -> dependent h p x.

(** Chains of dependents from [p] have fewer than [n] links; [grounded]: there is
    a bound, so no cycle is reached. *)
Fixpoint height (n : nat) (h : gmap Z nvkvm_object) (p : Z) : Prop :=
  match n with
  | O => False
  | S n => forall o q, h !! p = Some o -> q ∈ o_rdeps o -> height n h q
  end.
Definition grounded (h : gmap Z nvkvm_object) (p : Z) : Prop := exists n, height n h p.

(** Each element comes after everything that depends on it. *)
Definition topo (h : gmap Z nvkvm_object) (l : list Z) : Prop :=
  forall i x o q, l !! i = Some x -> h !! x = Some o -> q ∈ o_rdeps o -> q ∈ take i l.

Lemma existsb_elem p l : existsb (Z.eqb p) l = true <-> p ∈ l.
Proof.
  rewrite existsb_exists. split.
  - intros (x & Hx & ->%Z.eqb_eq). by apply list_elem_of_In.
  - intros H. exists p. split; [by apply list_elem_of_In|apply Z.eqb_refl].
Qed.

Lemma ct_zero p l : ct p l = 0 <-> p ∉ l.
Proof.
  unfold ct. rewrite count_if_zero, Forall_forall. split.
  - intros H Hp. specialize (H p Hp). by rewrite Z.eqb_refl in H.
  - intros Hn x Hx. apply Z.eqb_neq. by intros ->.
Qed.
Lemma ct_elem p l : 0 < ct p l -> p ∈ l.
Proof. intros H. destruct (decide (p ∈ l)); [done|]. apply ct_zero in n. lia. Qed.
Lemma ct_nonneg p l : 0 <= ct p l. Proof. apply count_if_nonneg. Qed.

(** ** Collecting *)
Lemma topo_snoc h l p :
  topo h l -> (forall o q, h !! p = Some o -> q ∈ o_rdeps o -> q ∈ l) -> topo h (l ++ [p]).
Proof.
  intros Ht Hp i x o q Hi Ho Hq. apply lookup_app_Some in Hi as [Hi|[Hge Hi]].
  - rewrite take_app_le by (apply lookup_lt_Some in Hi; lia). by eapply Ht.
  - apply list_lookup_singleton_Some in Hi as [Hi <-]. rewrite take_app_ge by lia.
    apply elem_of_app. left. eauto.
Qed.

Lemma dependent_trans h p q x : dependent h p q -> dependent h q x -> dependent h p x.
Proof. intros Hpq. induction 1; [done|]. by eapply dep_step. Qed.

(** What a call adds to the list: [p] and its dependents, each once and after its own. *)
Record collected (h : gmap Z nvkvm_object) (from : list Z) (acc l : list Z) : Prop := {
  co_ext : exists m, l = acc ++ m /\ forall x, x ∈ m -> exists p, p ∈ from /\ dependent h p x;
  co_in : forall p, p ∈ from -> p ∈ l;
  co_nodup : NoDup l;
  co_topo : topo h l;
  co_live : forall x, x ∈ l -> is_Some (h !! x)
}.

Lemma collected_refl h f acc :
  (forall p, p ∈ f -> p ∈ acc) -> NoDup acc -> topo h acc -> (forall x, x ∈ acc -> is_Some (h !! x)) ->
  collected h f acc acc.
Proof.
  intros Hf Hn Ht Hl. split; try done. exists []. split; [by rewrite app_nil_r|].
  intros x Hx. by apply not_elem_of_nil in Hx.
Qed.

Lemma collected_trans h f f' a l l' :
  collected h f a l -> collected h f' l l' -> collected h (f ++ f') a l'.
Proof.
  intros [(m & -> & Hm) Hi _ _ _] [(m' & -> & Hm') Hi' Hn Ht Hl]. split; [|..|done|done|done].
  - exists (m ++ m'). split; [by rewrite app_assoc|]. intros x [Hx|Hx]%elem_of_app.
    + destruct (Hm x Hx) as (p & Hp & ?). exists p. split; [apply elem_of_app; by left|done].
    + destruct (Hm' x Hx) as (p & Hp & ?). exists p. split; [apply elem_of_app; by right|done].
  - intros p [Hp|Hp]%elem_of_app; [apply elem_of_app; left; auto|auto].
Qed.

Lemma height_mono n n' h p : (n <= n')%nat -> height n h p -> height n' h p.
Proof.
  revert n' p. induction n as [|n IH]; intros [|n'] p Hle; [done..|lia|]. intros H o q Ho Hq. apply IH; [lia|by apply (H o)].
Qed.

Lemma grounded_intro h p : (forall o q, h !! p = Some o -> q ∈ o_rdeps o -> grounded h q) -> grounded h p.
Proof.
  intros H. destruct (h !! p) as [o|] eqn:Ho; [|exists 1%nat; intros o q Ho'; congruence].
  assert (exists n, forall q, q ∈ o_rdeps o -> height n h q) as [n Hn].
  { specialize (H o). revert H. induction (o_rdeps o) as [|x l IH]; intros H; [exists O; intros q Hq; by apply not_elem_of_nil in Hq|].
    destruct IH as [n Hn]; [intros q _ Hq; apply H; [done|by right]|]. destruct (H x eq_refl) as [m Hm]; [by left|].
    exists (n + m)%nat. intros q [->|Hq]%elem_of_cons; [by apply (height_mono m); [lia|]|apply (height_mono n); [lia|auto]]. }
  exists (S n). intros o' q Ho' Hq. rewrite Ho in Ho'. injection Ho' as <-. auto.
Qed.

Lemma height_dependent n h p q : height n h p -> dependent h p q -> height n h q.
Proof.
  intros Hp Hd. induction Hd as [|q o x _ IH Hq Hx]; [done|]. destruct n as [|n]; [done|].
  apply (height_mono n); [lia|]. by apply (IH o x).
Qed.

(** What reaches itself is not grounded. *)
Lemma cycle_not_grounded h p o q : h !! p = Some o -> q ∈ o_rdeps o -> dependent h q p -> ~ grounded h p.
Proof.
  intros Ho Hq Hd [n Hn]. induction n as [|n IH]; [done|]. apply IH. by apply (height_dependent n h q), Hd; apply (Hn o q).
Qed.

Lemma foldl_bind_None {A B} (f : A -> B -> option B) l :
  foldl (fun a x => a ≫= f x) None l = None.
Proof. by induction l. Qed.

Section Collect.
Context (h : gmap Z nvkvm_object) (Hg : graph_ok h).

Lemma collect_list n qs acc :
  (forall q acc, q ∈ qs -> NoDup acc -> topo h acc -> (forall x, x ∈ acc -> is_Some (h !! x)) ->
     exists l, collect_free_list n h q acc = Some l /\ collected h [q] acc l) ->
  NoDup acc -> topo h acc -> (forall x, x ∈ acc -> is_Some (h !! x)) ->
  exists l, foldl (fun a q => a ≫= collect_free_list n h q) (Some acc) qs = Some l /\ collected h qs acc l.
Proof.
  revert acc. induction qs as [|q qs IH]; intros acc Hc Hn Ht Hl.
  - exists acc. split; [done|]. apply collected_refl; try done. intros p Hp. by apply not_elem_of_nil in Hp.
  - destruct (Hc q acc) as (l & E & C); [by left|done..|]. destruct C as [Hx Hi Hn' Ht' Hl'] eqn:EC.
    destruct (IH l) as (l' & E' & C'); [intros; apply Hc; [by right|done..]|done..|].
    exists l'. cbn [foldl]. cbn. rewrite E. split; [done|]. by apply (collected_trans h [q] qs acc l l').
Qed.

Lemma collect_spec n p acc :
  height n h p -> is_Some (h !! p) -> NoDup acc -> topo h acc -> (forall x, x ∈ acc -> is_Some (h !! x)) ->
  exists l, collect_free_list n h p acc = Some l /\ collected h [p] acc l.
Proof.
  revert p acc. induction n as [|n IH]; intros p acc Hlt [o Ho] Hn Ht Hl; [done|]. cbn [collect_free_list].
  destruct (existsb (Z.eqb p) acc) eqn:Ee.
  { apply existsb_elem in Ee. exists acc. split; [done|]. apply collected_refl; try done.
    by intros x ->%list_elem_of_singleton. }
  rewrite Ho. cbn.
  destruct (collect_list n (o_rdeps o) acc) as (l & E & C); [|done..|].
  { intros q acc' Hq Hn' Ht' Hl'. apply IH; [by apply (Hlt o)|by eapply gr_rdeps|done..]. }
  cbn in E. rewrite E. cbn. exists (l ++ [p]). split; [done|]. destruct C as [(m & -> & Hm) Hi Hn' Ht' Hl'].
  assert (p ∉ acc) as Hp1 by (rewrite <- existsb_elem; congruence).
  assert (p ∉ m) as Hp2.
  { intros (q & Hq & Hd)%Hm. by apply (cycle_not_grounded h p o q Ho Hq Hd); exists (S n). }
  split.
  - exists (m ++ [p]). split; [by rewrite app_assoc|]. intros x [Hx|Hx]%elem_of_app.
    + destruct (Hm x Hx) as (q & Hq & Hd). exists p. split; [by left|].
      apply (dependent_trans h p q x); [|done]. by apply (dep_step h p p o q); [constructor|..].
    + apply list_elem_of_singleton in Hx as ->. exists p. split; [by left|constructor].
  - intros x ->%list_elem_of_singleton. apply elem_of_app. right. by left.
  - apply NoDup_app. split; [done|]. split; [|apply NoDup_singleton].
    intros x Hx ->%list_elem_of_singleton. apply elem_of_app in Hx as [|]; done.
  - apply topo_snoc; [done|]. intros o' q Ho' Hq. rewrite Ho in Ho'. injection Ho' as <-. auto.
  - intros x [Hx|Hx]%elem_of_app; [auto|]. apply list_elem_of_singleton in Hx as ->. by exists o.
Qed.

(** The recursion ends only where it reaches no cycle. *)
Lemma collect_grounded n : forall p acc l,
  (forall x, x ∈ acc -> grounded h x) -> collect_free_list n h p acc = Some l -> grounded h p /\ forall x, x ∈ l -> grounded h x.
Proof.
  induction n as [|n IH]; intros p acc l Ha E; [done|]. cbn [collect_free_list] in E.
  destruct (existsb (Z.eqb p) acc) eqn:Ee; [injection E as <-; split; [apply Ha; by apply existsb_elem|done]|].
  destruct (h !! p) as [o|] eqn:Ho; [|done]. cbn in E.
  assert (forall qs a l', (forall x, x ∈ a -> grounded h x) -> foldl (fun a q => a ≫= collect_free_list n h q) (Some a) qs = Some l' ->
            (forall q, q ∈ qs -> grounded h q) /\ forall x, x ∈ l' -> grounded h x) as Hf.
  { induction qs as [|q qs IHq]; intros a l' Hx El; [injection El as <-; split; [intros q Hq; by apply not_elem_of_nil in Hq|done]|].
    cbn [foldl] in El. cbn in El. destruct (collect_free_list n h q a) as [a'|] eqn:Eq; [|by rewrite (foldl_bind_None (fun q => collect_free_list n h q)) in El].
    destruct (IH q a a' Hx Eq) as [G1 G2]. destruct (IHq a' l' G2 El) as [G3 G4]. split; [|done].
    intros x [->|Hin]%elem_of_cons; [done|by apply G3]. }
  destruct (foldl _ (Some acc) (o_rdeps o)) as [a|] eqn:Ef; [|done]. injection E as <-. destruct (Hf _ _ _ Ha Ef) as [G1 G2].
  assert (grounded h p) as Hp by (apply grounded_intro; intros o' q Ho' Hq; rewrite Ho in Ho'; injection Ho' as <-; by apply G1).
  split; [done|]. intros x [Hx|Hx]%elem_of_app; [by apply G2|]. by apply list_elem_of_singleton in Hx as ->.
Qed.
End Collect.

(** ** Freeing *)

(** The heap after the objects of [l] are gone: the others keep everything but their
    links to the objects of [l]. *)
Definition freed (h : gmap Z nvkvm_object) (l : list Z) (h' : gmap Z nvkvm_object) : Prop :=
  forall q,
    match h !! q with
    | Some o =>
        if decide (q ∈ l) then h' !! q = None
        else exists rl, h' !! q = Some (with_rdeps o rl) /\
               forall x, ct x rl = if decide (x ∈ l) then 0 else ct x (o_rdeps o)
    | None => h' !! q = None
    end.

Lemma ct_swap_remove p l k x : l !! k = Some x -> ct p (swap_remove l k) = ct p l - b2n (p =? x).
Proof. intros. by apply count_if_swap_remove. Qed.

Lemma with_rdeps_twice o l l' : with_rdeps (with_rdeps o l) l' = with_rdeps o l'.
Proof. done. Qed.
Lemma with_rdeps_same o : with_rdeps o (o_rdeps o) = o.
Proof. by destruct o. Qed.

(** [unlink] for one occurrence in the list of dependencies. *)
Lemma unlink_spec p d h od :
  h !! d = Some od -> 0 < ct p (o_rdeps od) ->
  exists rl, unlink p d h = Some (<[d := with_rdeps od rl]> h) /\
    forall x, ct x rl = ct x (o_rdeps od) - b2n (x =? p).
Proof.
  intros Hd Hc. unfold unlink. rewrite Hd. simpl. destruct (find_idx (Z.eqb p) (o_rdeps od)) as [k|] eqn:Ef.
  - apply find_idx_Some in Ef as (y & Hk & ->%Z.eqb_eq & _). eexists. split; [done|].
    intros x. by apply ct_swap_remove.
  - apply find_idx_None, count_if_zero in Ef. unfold ct in Hc. lia.
Qed.

Lemma ct_cons x y l : ct x (y :: l) = b2n (x =? y) + ct x l.
Proof. apply count_if_cons. Qed.

Lemma unlink_all p ds h :
  (forall d, d ∈ ds -> is_Some (h !! d)) ->
  (forall q o, h !! q = Some o -> ct q ds <= ct p (o_rdeps o)) ->
  exists h', foldl (fun a d => a ≫= unlink p d) (Some h) ds = Some h' /\
    forall q, match h !! q with
              | Some o => exists rl, h' !! q = Some (with_rdeps o rl) /\
                            forall x, ct x rl = ct x (o_rdeps o) - (if x =? p then ct q ds else 0)
              | None => h' !! q = None
              end.
Proof.
  revert h. induction ds as [|d ds IH]; intros h Hl Hc.
  - exists h. split; [done|]. intros q. destruct (h !! q) as [o|]; [|done]. exists (o_rdeps o).
    split; [by rewrite with_rdeps_same|]. intros x. change (ct q []) with 0. destruct (x =? p); lia.
  - destruct (Hl d) as [od Hd]; [by left|].
    destruct (unlink_spec p d h od Hd) as (rl & E & Hrl).
    { specialize (Hc _ _ Hd). rewrite ct_cons, Z.eqb_refl in Hc. pose proof (ct_nonneg d ds). simpl in Hc. lia. }
    destruct (IH (<[d := with_rdeps od rl]> h)) as (h' & E' & Hh').
    + intros d' Hd'. rewrite lookup_insert_is_Some. destruct (decide (d = d')); [by left|]. right. split; [done|]. apply Hl. by right.
    + intros q o. destruct (decide (d = q)) as [<-|Hne].
      * rewrite lookup_insert_eq. intros [= <-]. simpl. rewrite Hrl, Z.eqb_refl. specialize (Hc _ _ Hd).
        rewrite ct_cons, Z.eqb_refl in Hc. simpl in *. lia.
      * rewrite lookup_insert_ne by done. intros Hq. specialize (Hc _ _ Hq). rewrite ct_cons in Hc.
        pose proof (b2n_range (q =? d)). lia.
    + exists h'. cbn [foldl]. cbn. rewrite E. split; [done|]. intros q. specialize (Hh' q).
      destruct (decide (d = q)) as [<-|Hne].
      * rewrite lookup_insert_eq in Hh'. rewrite Hd. destruct Hh' as (rl' & -> & Hx). exists rl'. split; [done|].
        intros x. rewrite Hx. simpl. rewrite Hrl, ct_cons, Z.eqb_refl. destruct (x =? p); simpl; lia.
      * rewrite lookup_insert_ne in Hh' by done. destruct (h !! q) as [o|]; [|done].
        destruct Hh' as (rl' & -> & Hx). exists rl'. split; [done|]. intros x. rewrite Hx, ct_cons.
        rewrite (proj2 (Z.eqb_neq q d)) by congruence. destruct (x =? p); simpl; lia.
Qed.

Lemma decide_single (x p : Z) {A} (a b : A) : (if decide (x ∈ [p]) then a else b) = if x =? p then a else b.
Proof.
  destruct (Z.eqb_spec x p) as [->|Hn]; case_decide as H; try done.
  - exfalso. apply H. by left.
  - apply list_elem_of_singleton in H. done.
Qed.

Lemma freed_graph h p o h' :
  graph_ok h -> h !! p = Some o -> o_rdeps o = [] -> freed h [p] h' -> graph_ok h'.
Proof.
  intros [Hd Hr Hi] Ho Hnil Hf.
  assert (forall q o', h' !! q = Some o' -> q <> p /\ exists oq, h !! q = Some oq /\ o_deps o' = o_deps oq /\
            forall x, ct x (o_rdeps o') = if x =? p then 0 else ct x (o_rdeps oq)) as Hat.
  { intros q o' Hq. specialize (Hf q). destruct (h !! q) as [oq|]; [|congruence]. rewrite decide_single in Hf.
    destruct (Z.eqb_spec q p); [congruence|]. destruct Hf as (rl & E & Hx). split; [done|]. exists oq.
    rewrite E in Hq. injection Hq as <-. split_and!; [done|done|]. intros x. specialize (Hx x). by rewrite decide_single in Hx. }
  assert (forall q, q <> p -> is_Some (h !! q) -> is_Some (h' !! q)) as Hlive.
  { intros q Hne [oq Hq]. specialize (Hf q). rewrite Hq, decide_single, (proj2 (Z.eqb_neq q p)) in Hf by done.
    destruct Hf as (rl & -> & _). by eexists. }
  assert (forall q o' x, h' !! q = Some o' -> x ∈ o_rdeps o' -> x <> p /\ exists oq, h !! q = Some oq /\ x ∈ o_rdeps oq) as Hsub.
  { intros q o' x Hq Hx. destruct (Hat _ _ Hq) as (_ & oq & Hoq & _ & Hct). specialize (Hct x).
    assert (ct x (o_rdeps o') <> 0) as Hnz by (rewrite ct_zero; auto).
    destruct (Z.eqb_spec x p); [congruence|]. split; [done|]. exists oq. split; [done|].
    apply ct_elem. pose proof (ct_nonneg x (o_rdeps oq)). lia. }
  split.
  - intros q o' x Hq Hx. destruct (Hat _ _ Hq) as (_ & oq & Hoq & Ed & _). rewrite Ed in Hx. apply Hlive; [|by eapply Hd].
    intros ->. assert (ct p (o_deps oq) = 0) as Hz by (rewrite (Hi _ _ _ _ Hoq Ho), Hnil; done). by apply ct_zero in Hz.
  - intros q o' x Hq Hx. destruct (Hsub _ _ _ Hq Hx) as (Hne & oq & Hoq & Hx'). apply Hlive; [done|]. by eapply Hr.
  - intros q1 q2 o1 o2 H1 H2. destruct (Hat _ _ H1) as (Hn1 & oq1 & E1 & -> & _).
    destruct (Hat _ _ H2) as (_ & oq2 & E2 & _ & ->). rewrite (proj2 (Z.eqb_neq q1 p)) by done. by apply Hi.
Qed.

Lemma free_one_spec c p o :
  client_ok c -> heap c !! p = Some o -> o_rdeps o = [] ->
  exists c', free_one c p = Some c' /\ client_ok c' /\ freed (heap c) [p] (heap c').
Proof.
  intros [Hres Hheap Hnext Hcount Hg] Ho Hnil. pose proof Hg as [Hd Hr Hi].
  destruct (unlink_all p (o_deps o) (heap c)) as (h & E & Hh).
  { intros d. by apply Hd with (p := p). }
  { intros q oq Hq. by rewrite (Hi _ _ _ _ Ho Hq). }
  unfold free_one. rewrite Ho. cbn. cbn in E. rewrite E. cbn. eexists. split; [done|].
  assert (freed (heap c) [p] (delete p h)) as Hf.
  { intros q. specialize (Hh q). destruct (heap c !! q) as [oq|] eqn:Hq.
    - rewrite decide_single. destruct (Z.eqb_spec q p) as [->|Hne]; [apply lookup_delete_eq|].
      destruct Hh as (rl & Hrl & Hx). exists rl. split; [by rewrite lookup_delete_ne|]. intros x.
      rewrite decide_single, Hx, (Hi _ _ _ _ Ho Hq). destruct (Z.eqb_spec x p) as [->|]; lia.
    - destruct (decide (q = p)) as [->|]; [congruence|]. by rewrite lookup_delete_ne. }
  assert (forall q o', delete p h !! q = Some o' -> q <> p /\ exists oq, heap c !! q = Some oq /\ o_handle o' = o_handle oq) as Hback.
  { intros q o' Hq. specialize (Hf q). destruct (heap c !! q) as [oq|]; [|congruence]. rewrite decide_single in Hf.
    destruct (Z.eqb_spec q p); [congruence|]. destruct Hf as (rl & E' & _). split; [done|]. exists oq.
    split; [done|]. rewrite E' in Hq. by injection Hq as <-. }
  split; [|done]. split; simpl.
  - intros i q [Hne Hq]%lookup_delete_Some. destruct (Hres _ _ Hq) as (oq & Hoq & ->).
    assert (q <> p) as Hqp by (intros ->; congruence). specialize (Hf q). rewrite Hoq, decide_single in Hf.
    rewrite (proj2 (Z.eqb_neq q p)) in Hf by done. destruct Hf as (rl & -> & _). by eexists.
  - intros q o' Hq. destruct (Hback _ _ Hq) as (Hne & oq & Hoq & ->). destruct (Hheap _ _ Hoq) as [Hrs Hz].
    split; [|done]. rewrite lookup_delete_ne; [done|]. intros Heq. destruct (Hheap _ _ Ho) as [Hrp _]. congruence.
  - intros q o' Hq. destruct (Hback _ _ Hq) as (_ & oq & Hoq & _). eauto.
  - assert (dom h = dom (heap c)) as Hdom.
    { apply set_eq. intros q. rewrite !elem_of_dom. specialize (Hh q). destruct (heap c !! q) as [oq|].
      - destruct Hh as (rl & -> & _). split; by eexists.
      - rewrite Hh. done. }
    assert (size h = size (heap c)) as Hsz by (by rewrite <- !size_dom, Hdom).
    assert (is_Some (h !! p)) as [op Hp] by (rewrite <- elem_of_dom, Hdom; by apply elem_of_dom_2 in Ho).
    rewrite map_size_delete, Hp.
    assert (0 < size h)%nat. { destruct (decide (size h = 0%nat)) as [E0|]; [|lia]. apply map_size_empty_inv in E0. subst. done. }
    lia.
  - by eapply freed_graph.
Qed.

Lemma freed_nil h : freed h [] h.
Proof.
  intros q. destruct (h !! q) as [o|] eqn:E; [|done]. rewrite decide_False by apply not_elem_of_nil.
  exists (o_rdeps o). split; [by rewrite with_rdeps_same|]. intros x. by rewrite decide_False by apply not_elem_of_nil.
Qed.

Lemma freed_cons h p l h1 h2 : freed h [p] h1 -> freed h1 l h2 -> freed h (p :: l) h2.
Proof.
  intros H1 H2 q. specialize (H1 q). specialize (H2 q). destruct (h !! q) as [o|]; [|by rewrite H1 in H2].
  rewrite decide_single in H1. destruct (Z.eqb_spec q p) as [->|Hne].
  - rewrite decide_True by by left. by rewrite H1 in H2.
  - destruct H1 as (rl & E & Hx). rewrite E in H2. destruct (decide (q ∈ l)) as [Hl|Hl].
    + rewrite decide_True by by right. done.
    + rewrite decide_False by (rewrite elem_of_cons; tauto). destruct H2 as (rl' & -> & Hx'). exists rl'.
      split; [by rewrite with_rdeps_twice|]. intros x. rewrite Hx'. simpl. destruct (decide (x ∈ l)) as [Hxl|Hxl].
      * by rewrite decide_True by by right.
      * rewrite Hx, decide_single. destruct (Z.eqb_spec x p) as [->|].
        -- by rewrite decide_True by by left.
        -- by rewrite decide_False by (rewrite elem_of_cons; tauto).
Qed.

Lemma free_list_spec l c :
  client_ok c -> NoDup l -> topo (heap c) l -> (forall x, x ∈ l -> is_Some (heap c !! x)) ->
  exists c', foldl (fun a q => a ≫= fun c => free_one c q) (Some c) l = Some c' /\ client_ok c' /\ freed (heap c) l (heap c').
Proof.
  revert c. induction l as [|p l IH]; intros c Hc Hn Ht Hl.
  - exists c. split; [done|]. split; [done|apply freed_nil].
  - destruct (Hl p) as [o Ho]; [by left|]. apply NoDup_cons in Hn as [Hp Hn].
    assert (o_rdeps o = []) as Hnil.
    { destruct (o_rdeps o) as [|q rl] eqn:E; [done|]. assert (q ∈ take 0 (p :: l)) as Hq; [|by apply not_elem_of_nil in Hq].
      eapply (Ht 0%nat p o q); [done..|]. rewrite E. by left. }
    destruct (free_one_spec c p o Hc Ho Hnil) as (c1 & E1 & Hc1 & Hf1).
    destruct (IH c1 Hc1 Hn) as (c' & E' & Hc' & Hf').
    + intros i x o' q Hi Ho' Hq. specialize (Hf1 x). destruct (heap c !! x) as [ox|] eqn:Hox; [|congruence].
      rewrite decide_single in Hf1. destruct (Z.eqb_spec x p) as [->|Hne]; [congruence|].
      destruct Hf1 as (rl & E & Hx). rewrite E in Ho'. injection Ho' as <-. simpl in Hq.
      assert (ct q rl <> 0) as Hnz by (rewrite ct_zero; auto). specialize (Hx q). rewrite decide_single in Hx.
      assert (q <> p) as Hqp by (intros Eq; rewrite Eq, Z.eqb_refl in Hx; subst q; congruence).
      rewrite (proj2 (Z.eqb_neq q p)) in Hx by done.
      assert (q ∈ take (S i) (p :: l)) as Hin.
      { eapply (Ht (S i) x ox q); [done..|]. apply ct_elem. pose proof (ct_nonneg q (o_rdeps ox)). lia. }
      simpl in Hin. by apply elem_of_cons in Hin as [|].
    + intros x Hx. destruct (Hl x) as [ox Hox]; [by right|]. specialize (Hf1 x). rewrite Hox, decide_single in Hf1.
      rewrite (proj2 (Z.eqb_neq x p)) in Hf1 by (intros ->; done). destruct Hf1 as (rl & -> & _). by eexists.
    + exists c'. cbn [foldl]. cbn. rewrite E1. split; [done|]. split; [done|]. by eapply freed_cons.
Qed.

(** ** Adding *)
Definition linked (p1 p2 q : Z) (o : nvkvm_object) : nvkvm_object :=
  Obj (o_handle o) (o_class o) (o_parent o) (o_deps o ++ (if q =? p1 then [p2] else []))
    (o_rdeps o ++ (if q =? p2 then [p1] else [])) (o_impl o).
Definition link (p1 p2 : Z) (h : gmap Z nvkvm_object) : gmap Z nvkvm_object :=
  alter (push_rdep p1) p2 (alter (push_dep p2) p1 h).

Lemma link_at p1 p2 h q : link p1 p2 h !! q = linked p1 p2 q <$> h !! q.
Proof.
  unfold link, linked. destruct (Z.eqb_spec q p2) as [->|H2]; [rewrite lookup_alter_eq|rewrite lookup_alter_ne by done];
    match goal with |- context [?x =? p1] => destruct (Z.eqb_spec x p1) as [->|H1] end;
    [rewrite lookup_alter_eq|rewrite lookup_alter_ne by done|rewrite lookup_alter_eq|rewrite lookup_alter_ne by done];
    destruct (h !! _) as [[]|]; simpl; try done; unfold push_rdep, push_dep, with_rdeps, with_deps; simpl; by rewrite ?app_nil_r.
Qed.

Lemma ct_app x l l' : ct x (l ++ l') = ct x l + ct x l'.
Proof. apply count_if_app. Qed.
Lemma ct_if x (b : bool) p : ct x (if b then [p] else []) = b2n (b && (x =? p)).
Proof. destruct b; [|done]. rewrite ct_cons. change (ct x []) with 0. simpl. lia. Qed.

Lemma link_graph p1 p2 h :
  graph_ok h -> is_Some (h !! p1) -> is_Some (h !! p2) -> graph_ok (link p1 p2 h).
Proof.
  intros [Hd Hr Hi] H1 H2.
  assert (forall q, is_Some (h !! q) -> is_Some (link p1 p2 h !! q)) as Hl.
  { intros q [o Hq]. rewrite link_at, Hq. by eexists. }
  split; intros q.
  - intros o' x Hq Hx. rewrite link_at in Hq. destruct (h !! q) as [o|] eqn:Eq; [|done]. injection Hq as <-. simpl in Hx.
    apply Hl. apply elem_of_app in Hx as [Hx|Hx]; [by eapply Hd|]. destruct (q =? p1); [|by apply not_elem_of_nil in Hx].
    by apply list_elem_of_singleton in Hx as ->.
  - intros o' x Hq Hx. rewrite link_at in Hq. destruct (h !! q) as [o|] eqn:Eq; [|done]. injection Hq as <-. simpl in Hx.
    apply Hl. apply elem_of_app in Hx as [Hx|Hx]; [by eapply Hr|]. destruct (q =? p2); [|by apply not_elem_of_nil in Hx].
    by apply list_elem_of_singleton in Hx as ->.
  - intros q' o o' Hq Hq'. rewrite link_at in Hq, Hq'. destruct (h !! q) as [a|] eqn:Ea; [|done].
    destruct (h !! q') as [a'|] eqn:Ea'; [|done]. injection Hq as <-. injection Hq' as <-. simpl.
    rewrite !ct_app, !ct_if, (Hi _ _ _ _ Ea Ea'). f_equal. f_equal. apply andb_comm.
Qed.

Lemma link_client c p1 p2 :
  client_ok c -> is_Some (heap c !! p1) -> is_Some (heap c !! p2) ->
  client_ok (set_heap c (link p1 p2 (heap c))).
Proof.
  intros [Hres Hheap Hnext Hcount Hg] H1 H2. split; simpl.
  - intros i p Hp. destruct (Hres _ _ Hp) as (o & Ho & ->). rewrite link_at, Ho. by eexists.
  - intros p o' Hp. rewrite link_at in Hp. destruct (heap c !! p) as [o|] eqn:Eo; [|done]. injection Hp as <-. exact (Hheap p o Eo).
  - intros p o' Hp. rewrite link_at in Hp. destruct (heap c !! p) as [o|] eqn:Eo; [|done]. by eapply Hnext.
  - rewrite Hcount. unfold link. by rewrite <- !size_dom, !dom_alter_L.
  - by apply link_graph.
Qed.

Lemma lookup_live c h p : nvkvm_obj_lookup c h = Some p -> exists o, heap c !! p = Some o /\ o_handle o = h.
Proof.
  unfold nvkvm_obj_lookup. destruct (resources c !! obj_index h) as [p'|]; simpl; [|done].
  destruct (heap c !! p') as [o|] eqn:Eo; simpl; [|done]. destruct (Z.eqb_spec (o_handle o) h); [|done].
  intros [= <-]. by exists o.
Qed.

Lemma add_dep_ok c h1 h2 : client_ok c -> client_ok (nvkvm_obj_add_dep c h1 h2).
Proof.
  intros Hc. unfold nvkvm_obj_add_dep.
  destruct (nvkvm_obj_lookup c h1) as [p1|] eqn:E1; [|done]. destruct (nvkvm_obj_lookup c h2) as [p2|] eqn:E2; [|done].
  apply lookup_live in E1 as (o1 & H1 & _). apply lookup_live in E2 as (o2 & H2 & _).
  apply link_client; [done|by eexists..].
Qed.

Lemma insert_ok c o :
  client_ok c -> resources c !! obj_index (o_handle o) = None -> o_handle o <> NV01_NULL_OBJECT ->
  o_deps o = [] -> o_rdeps o = [] -> client_ok (obj_insert c o).
Proof.
  intros [Hres Hheap Hnext Hcount [Hd Hr Hi]] Hfree Hz Ed Er.
  assert (heap c !! next_ptr c = None) as Hn.
  { destruct (heap c !! next_ptr c) as [x|] eqn:E; [|done]. apply Hnext in E. lia. }
  assert (forall p x, <[next_ptr c := o]> (heap c) !! p = Some x -> (p = next_ptr c /\ x = o) \/ (p <> next_ptr c /\ heap c !! p = Some x)) as Hat.
  { intros p x Hp. destruct (decide (next_ptr c = p)) as [<-|Hne].
    - rewrite lookup_insert_eq in Hp. injection Hp as <-. by left.
    - rewrite lookup_insert_ne in Hp by done. right. split; [congruence|done]. }
  assert (forall p q x, heap c !! p = Some x -> q ∈ o_deps x \/ q ∈ o_rdeps x ->
            q <> next_ptr c /\ is_Some (<[next_ptr c := o]> (heap c) !! q)) as Hlive.
  { intros p q x Hp Hq. assert (is_Some (heap c !! q)) as [y Hy] by (destruct Hq; eauto).
    assert (q <> next_ptr c) as Hne by (intros ->; congruence). split; [done|].
    rewrite lookup_insert_ne by congruence. by eexists. }
  split; simpl.
  - intros i p. rewrite lookup_insert_Some. intros [[<- <-]|[Hne Hp]].
    + exists o. by rewrite lookup_insert_eq.
    + destruct (Hres _ _ Hp) as (x & Hx & ->). exists x. rewrite lookup_insert_ne; [done|]. intros Eq. congruence.
  - intros p x [[-> ->]|[Hne Hp]]%Hat; [by rewrite lookup_insert_eq|]. destruct (Hheap _ _ Hp) as [Hrs ?].
    rewrite lookup_insert_ne; [done|]. intros Eq. rewrite Eq in Hfree. congruence.
  - intros p x [[-> ->]|[Hne Hp]]%Hat; [lia|]. apply Hnext in Hp. lia.
  - rewrite map_size_insert_None by done. lia.
  - split.
    + intros p x q [[-> ->]|[Hne Hp]]%Hat Hq; [rewrite Ed in Hq; by apply not_elem_of_nil in Hq|].
      by apply (Hlive p q x Hp (or_introl Hq)).
    + intros p x q [[-> ->]|[Hne Hp]]%Hat Hq; [rewrite Er in Hq; by apply not_elem_of_nil in Hq|].
      by apply (Hlive p q x Hp (or_intror Hq)).
    + intros p q x y [[-> ->]|[Hne Hp]]%Hat [[-> ->]|[Hne' Hq]]%Hat; rewrite ?Ed, ?Er; [done| | |by apply Hi].
      * symmetry. apply ct_zero. intros Hin. by destruct (Hlive q (next_ptr c) y Hq (or_intror Hin)).
      * apply ct_zero. intros Hin. by destruct (Hlive p (next_ptr c) x Hp (or_introl Hin)).
Qed.

Lemma obj_add_ok c h cls parent impl : client_ok c -> client_ok (fst (nvkvm_obj_add c h cls parent impl)).
Proof.
  intros Hc. unfold nvkvm_obj_add. destruct (Z.eqb_spec h NV01_NULL_OBJECT); [done|].
  destruct (resources c !! obj_index h) as [p|] eqn:Ep; [done|].
  set (o := Obj h cls parent [] [] impl). assert (client_ok (obj_insert c o)) as Hi by (by apply insert_ok).
  destruct (parent =? NV01_NULL_OBJECT); [done|]. by apply add_dep_ok.
Qed.

(** ** The client under any sequence of requests *)

(** Reachable clients: any objects, parents and dependencies, and frees that
    return. *)
Inductive reachable : nvkvm_client -> Prop :=
  | re_init : reachable nvkvm_client_alloc
  | re_add c h cls parent impl : reachable c -> reachable (fst (nvkvm_obj_add c h cls parent impl))
  | re_dep c h1 h2 : reachable c -> reachable (nvkvm_obj_add_dep c h1 h2)
  | re_free c h fuel c' l : reachable c -> nvkvm_obj_free fuel c h = Some (c', l) -> reachable c'.

Lemma client_alloc_ok : client_ok nvkvm_client_alloc.
Proof. by split. Qed.

(** More fuel changes nothing once there was enough. *)
Lemma collect_mono n n' h p acc l :
  (n <= n')%nat -> collect_free_list n h p acc = Some l -> collect_free_list n' h p acc = Some l.
Proof.
  revert n' p acc l. induction n as [|n IH]; intros [|n'] p acc l Hle; [done..|lia|]. cbn [collect_free_list].
  destruct (existsb (Z.eqb p) acc); [done|]. destruct (h !! p) as [o|]; [|done]. cbn.
  assert (forall qs acc l, foldl (fun a q => a ≫= collect_free_list n h q) (Some acc) qs = Some l ->
            foldl (fun a q => a ≫= collect_free_list n' h q) (Some acc) qs = Some l) as Hf.
  { induction qs as [|q qs IHq]; intros a b; [done|]. cbn [foldl]. cbn.
    destruct (collect_free_list n h q a) as [a'|] eqn:E; [|rewrite foldl_bind_None; done].
    rewrite (IH n' q a a') by (done || lia). apply IHq. }
  destruct (foldl _ (Some acc) (o_rdeps o)) as [a|] eqn:E; [|done]. intros [= <-].
  apply Hf in E. cbn in E. rewrite E. done.
Qed.

(** The free of an object no cycle depends on, with fuel for the longest chain
    of dependents. *)
Lemma obj_free_ok c h p n :
  client_ok c -> nvkvm_obj_lookup c h = Some p -> height n (heap c) p ->
  exists c' l, nvkvm_obj_free n c h = Some (c', l) /\ client_ok c' /\ freed (heap c) l (heap c') /\
    NoDup l /\ topo (heap c) l /\ (forall x, x ∈ l <-> dependent (heap c) p x) /\ (forall x, x ∈ l -> is_Some (heap c !! x)).
Proof.
  intros Hc Ep Hh. pose proof (cl_graph _ Hc) as Hg. unfold nvkvm_obj_free. rewrite Ep.
  apply lookup_live in Ep as (o & Ho & _).
  destruct (collect_spec (heap c) Hg n p []) as (l & El & [(m & -> & Hm) Hin Hn Ht Hl]);
    [done|by eexists|constructor|done|intros x Hx; by apply not_elem_of_nil in Hx|]. simpl in *.
  destruct (free_list_spec m c Hc Hn Ht Hl) as (c' & Ec' & Hc' & Hfr).
  exists c', m. rewrite El. cbn. cbn in Ec'. rewrite Ec'. cbn. split_and!; try done. intros x. split.
  - intros (q & ->%list_elem_of_singleton & Hd)%Hm. done.
  - induction 1 as [|q oq x Hd IH Hq Hx]; [apply Hin; by left|].
    apply list_elem_of_lookup in IH as [i Hi]. specialize (Ht i q oq x Hi Hq Hx).
    by apply list_elem_of_lookup in Ht as (j & [Hj _]%lookup_take_Some) ; apply list_elem_of_lookup; exists j.
Qed.

(** A free that returned is one of those. *)
Lemma obj_free_grounded c h p fuel r : nvkvm_obj_lookup c h = Some p -> nvkvm_obj_free fuel c h = Some r -> grounded (heap c) p.
Proof.
  intros Ep E. unfold nvkvm_obj_free in E. rewrite Ep in E. destruct (collect_free_list fuel (heap c) p []) as [l|] eqn:El; [|done].
  refine (proj1 (collect_grounded (heap c) fuel p [] l _ El)). intros x Hx. by apply not_elem_of_nil in Hx.
Qed.

Lemma obj_free_mono n n' c h r : (n <= n')%nat -> nvkvm_obj_free n c h = Some r -> nvkvm_obj_free n' c h = Some r.
Proof.
  unfold nvkvm_obj_free. intros Hn. destruct (nvkvm_obj_lookup c h) as [p|]; [|done].
  destruct (collect_free_list n (heap c) p []) as [l|] eqn:E; [|done]. by rewrite (collect_mono _ _ _ _ _ _ Hn E).
Qed.

Lemma obj_free_returned c h p fuel c' l :
  client_ok c -> nvkvm_obj_lookup c h = Some p -> nvkvm_obj_free fuel c h = Some (c', l) ->
  client_ok c' /\ freed (heap c) l (heap c') /\ NoDup l /\ topo (heap c) l /\ (forall x, x ∈ l <-> dependent (heap c) p x) /\
  (forall x, x ∈ l -> is_Some (heap c !! x)).
Proof.
  intros Hc Ep E. destruct (obj_free_grounded c h p fuel _ Ep E) as [n Hn].
  destruct (obj_free_ok c h p (n + fuel)%nat Hc Ep) as (c1 & l1 & E1 & H); [by apply (height_mono n); [lia|]|].
  rewrite (obj_free_mono fuel (n + fuel)%nat c h (c', l)) in E1 by (done || lia). by injection E1 as <- <-.
Qed.

Lemma reachable_ok c : reachable c -> client_ok c.
Proof.
  induction 1 as [|c h cls parent impl _ IH|c h1 h2 _ IH|c h fuel c' l _ IH Hf];
    [apply client_alloc_ok|by apply obj_add_ok|by apply add_dep_ok|].
  destruct (nvkvm_obj_lookup c h) as [p|] eqn:Ep; [by apply (obj_free_returned c h p fuel c' l)|].
  unfold nvkvm_obj_free in Hf. rewrite Ep in Hf. by injection Hf as <- <-.
Qed.

Lemma live_bound c l :
  client_ok c -> NoDup l -> (forall x, x ∈ l -> is_Some (heap c !! x)) -> Z.of_nat (length l) <= NVKVM_MAX_OBJECTS_PER_CLIENT.
Proof.
  intros Hc Hn Hl. set (idx p := obj_index (default 0 (o_handle <$> heap c !! p))).
  assert (NoDup (idx <$> l)) as Hnd.
  { apply NoDup_fmap_2_strong; [|done]. intros x y [ox Hx]%Hl [oy Hy]%Hl. unfold idx. rewrite Hx, Hy. simpl. intros E.
    destruct (cl_heap _ Hc _ _ Hx) as [E1 _]. destruct (cl_heap _ Hc _ _ Hy) as [E2 _]. congruence. }
  rewrite <- (length_fmap idx l). change NVKVM_MAX_OBJECTS_PER_CLIENT with (Z.of_nat (Z.to_nat 4096)).
  rewrite <- (length_seqZ 0 4096). apply inj_le, NoDup_incl_length; [by apply NoDup_ListNoDup|].
  intros i Hi%list_elem_of_In. apply list_elem_of_fmap in Hi as (x & -> & _). apply list_elem_of_In, elem_of_seqZ.
  unfold idx, obj_index, NVKVM_MAX_OBJECTS_PER_CLIENT. pose proof (Z.mod_pos_bound (default 0 (o_handle <$> heap c !! x)) 4096). lia.
Qed.

(** C38: the tracker and its cascading free.  Whatever objects, parents and
    dependencies a client adds, cycles included, and whatever frees return: every
    slot of its table holds a live object filed under its own handle, no link of
    the graph dangles, the lists of dependencies and of dependents are each
    other's inverse, and the counter is the number of objects.  Freeing an object
    returns exactly when no cycle depends on it ([grounded]); then it frees the
    object and exactly what depends on it, directly or not, each once and never
    before something that depends on it, the list fits the array on the stack, and
    the objects that stay keep all links but those to freed objects. *)
Theorem object_graph_ok c :
  reachable c ->
  client_ok c /\
  forall h p, nvkvm_obj_lookup c h = Some p ->
    ((exists fuel r, nvkvm_obj_free fuel c h = Some r) <-> grounded (heap c) p) /\
    forall fuel c' l, nvkvm_obj_free fuel c h = Some (c', l) ->
      (forall x, x ∈ l <-> dependent (heap c) p x) /\ NoDup l /\ topo (heap c) l /\
      Z.of_nat (length l) <= NVKVM_MAX_OBJECTS_PER_CLIENT /\ freed (heap c) l (heap c').
Proof.
  intros Hre. pose proof (reachable_ok _ Hre) as Hc. split; [done|]. intros h p Ep. split.
  - split; [intros (fuel & r & E); by apply (obj_free_grounded c h p fuel r)|].
    intros [n Hn]. destruct (obj_free_ok c h p n Hc Ep Hn) as (c' & l & E & _). by do 2 eexists.
  - intros fuel c' l E. destruct (obj_free_returned c h p fuel c' l Hc Ep E) as (_ & Hf & Hn & Ht & Hm & Hl).
    split_and!; try done. by apply (live_bound c).
Qed.

(** [nvkvm_client_free] frees every object of the client, each once. *)
Lemma client_free_all c : client_ok c -> NoDup (nvkvm_client_free c) /\ forall p, p ∈ nvkvm_client_free c <-> is_Some (heap c !! p).
Proof.
  intros Hc. unfold nvkvm_client_free. split.
  - pose proof (NoDup_seqZ 0 NVKVM_MAX_OBJECTS_PER_CLIENT) as Hn. revert Hn. generalize (seqZ 0 NVKVM_MAX_OBJECTS_PER_CLIENT).
    induction l as [|i l IH]; [constructor|]. intros [Hi Hl]%NoDup_cons. simpl.
    destruct (resources c !! i) as [p|] eqn:Ep; [|by apply IH]. apply NoDup_cons. split; [|by apply IH].
    intros (j & Hj & Hp)%list_elem_of_omap. destruct (cl_res _ Hc _ _ Ep) as (o & Ho & ->).
    destruct (cl_res _ Hc _ _ Hp) as (o' & Ho' & ->). congruence.
  - intros p. rewrite list_elem_of_omap. split.
    + intros (i & _ & Hi). destruct (cl_res _ Hc _ _ Hi) as (o & Ho & _). by eexists.
    + intros [o Ho]. exists (obj_index (o_handle o)). split; [|by apply (cl_heap _ Hc)]. apply elem_of_seqZ.
      unfold obj_index, NVKVM_MAX_OBJECTS_PER_CLIENT. pose proof (Z.mod_pos_bound (o_handle o) 4096). lia.
Qed.

(** ** An object that is its own parent

    [nvkvm_obj_add] accepts it, and freeing it recurses without end. *)
Lemma collect_self_loop n h p o rl : h !! p = Some o -> o_rdeps o = p :: rl -> collect_free_list n h p [] = None.
Proof.
  intros Ho Er. induction n as [|n IH]; [done|]. cbn [collect_free_list existsb]. rewrite Ho. cbn. rewrite Er.
  cbn [foldl]. cbn. rewrite IH, (foldl_bind_None (fun q => collect_free_list n h q)). done.
Qed.

Lemma own_parent_never_freed :
  let c := nvkvm_obj_add nvkvm_client_alloc 5 1 5 false in
  snd c = 0 /\ forall fuel, nvkvm_obj_free fuel (fst c) 5 = None.
Proof.
  split; [reflexivity|]. intros fuel. unfold nvkvm_obj_free.
  change (nvkvm_obj_lookup _ 5) with (Some 1). cbn [mbind option_bind].
  rewrite (collect_self_loop fuel _ 1 (Obj 5 1 5 [1] [1] false) []) by reflexivity. done.
Qed.

(** ** Example: a root, a device below it, two objects below the device *)
Definition demo_objects : nvkvm_client :=
  fst (nvkvm_obj_add (fst (nvkvm_obj_add (fst (nvkvm_obj_add (fst (nvkvm_obj_add nvkvm_client_alloc
    257 65 0 true)) 258 128 257 true)) 259 8320 258 true)) 260 50272 258 false).

Lemma demo_objects_reachable : reachable demo_objects.
Proof. repeat apply re_add. constructor. Qed.

Lemma object_graph_ok_witness :
  client_ok demo_objects /\ nresources demo_objects = 4 /\
  snd <$> nvkvm_obj_free 4 demo_objects 258 = Some [3; 4; 2] /\
  (forall x, x ∈ [3; 4; 2] <-> dependent (heap demo_objects) 2 x).
Proof.
  destruct (object_graph_ok demo_objects demo_objects_reachable) as [H1 H2]. split; [exact H1|]. split; [reflexivity|].
  assert (snd <$> nvkvm_obj_free 4 demo_objects 258 = Some [3; 4; 2]) as E by (vm_compute; reflexivity).
  split; [exact E|]. destruct (nvkvm_obj_free 4 demo_objects 258) as [[c' l]|] eqn:Ef; [|discriminate E]. injection E as ->.
  destruct (H2 258 2 ltac:(vm_compute; reflexivity)) as [_ H3]. exact (proj1 (H3 _ _ _ Ef)).
Defined.

End Objects.
