(* ===== verification/BrokerUtf8.v ===== *)
(** * BrokerUtf8: the clipboard's UTF-8 validator

    Models [nb_utf8_ok] of [src/broker/nvkvm_broker.c], the check every text a
    guest pushes to the host clipboard passes before it leaves the broker.  The
    reference definition is the encoding itself: a text is good when it is the
    concatenation of the encodings of a list of Unicode scalar values, none of
    them zero.  The validator works on bytes, shifts and masks; the theorem says
    the two agree, and that the list is unique. *)
From S2P Require Import Prelude Bytes.

Module Utf8.

(** ** The validator *)

(** The [for] loop over the continuation bytes: [n] of them left, the next one
    at [i + k], the code point so far in [cp]. *)
Fixpoint conts (p : list Z) (i k : Z) (n : nat) (cp : Z) : option Z :=
  match n with
  | O => Some cp
  | S n' =>
      let cc := arr_get p (i + k) in
      if negb ((cc & 0xc0) =? 0x80) then None
      else conts p i (k + 1) n' (Z.lor (u32 (Z.shiftl cp 6)) (cc & 0x3f))
  end.

(** The lead byte: how many continuation bytes, and the payload bits. *)
Definition lead (c : Z) : option (Z * Z) :=
  if (c & 0xe0) =? 0xc0 then Some (1, c & 0x1f)
  else if (c & 0xf0) =? 0xe0 then Some (2, c & 0x0f)
  else if (c & 0xf8) =? 0xf0 then Some (3, c & 0x07)
  else None.

(** One turn of the [while] loop: [None] is [return false]. *)
Definition turn (p : list Z) (len i : Z) : option Z :=
  let c := arr_get p i in
  if c =? 0 then None
  else if c <? 0x80 then Some (u32 (i + 1))
  else match lead c with
  | None => None
  | Some (need, cp) =>
      if len <=? u32 (i + need) then None
      else match conts p i 1 (Z.to_nat need) cp with
      | None => None
      | Some cp =>
          if ((need =? 1) && (cp <? 0x80)) || ((need =? 2) && (cp <? 0x800))
             || ((need =? 3) && (cp <? 0x10000)) then None
          else if (0x10ffff <? cp) || ((0xd800 <=? cp) && (cp <=? 0xdfff)) then None
          else Some (u32 (i + (need + 1)))
      end
  end.

Fixpoint loop (fuel : nat) (p : list Z) (len i : Z) : option bool :=
  if negb (i <? len) then Some true
  else match fuel with
  | O => None
  | S f => match turn p len i with None => Some false | Some i' => loop f p len i' end
  end.

(** Every turn advances, so [len] turns are enough. *)
Definition nb_utf8_ok (p : list Z) (len : Z) : option bool := loop (Z.to_nat len) p len 0.

(** ** The reference definition *)
Definition scalar (c : Z) : Prop := 0 < c <= 0x10ffff /\ ~ 0xd800 <= c <= 0xdfff.

Definition encode (c : Z) : list Z :=
  if c <? 0x80 then [c]
  else if c <? 0x800 then [0xc0 + c / 64; 0x80 + c mod 64]
  else if c <? 0x10000 then [0xe0 + c / 4096; 0x80 + c / 64 mod 64; 0x80 + c mod 64]
  else [0xf0 + c / 262144; 0x80 + c / 4096 mod 64; 0x80 + c / 64 mod 64; 0x80 + c mod 64].

Definition encode_all (cs : list Z) : list Z := concat (encode <$> cs).

(** ** The masks as arithmetic *)
Definition lead_ref (c : Z) : option (Z * Z) :=
  if c <? 0xc0 then None else if c <? 0xe0 then Some (1, c - 0xc0)
  else if c <? 0xf0 then Some (2, c - 0xe0) else if c <? 0xf8 then Some (3, c - 0xf0) else None.

Definition lead_agree (c : Z) : bool := (c <? 0x80) || bool_decide (lead c = lead_ref c).

Lemma lead_spec c : 0x80 <= c < 256 -> lead c = lead_ref c.
Proof.
  intros Hc.
  pose proof (forall_below lead_agree 256 ltac:(vm_compute; reflexivity) c ltac:(lia)) as H.
  apply orb_true_iff in H as [H|H]; [zb; lia|]. by apply bool_decide_eq_true in H.
Qed.

Lemma cont_spec cc : 0 <= cc < 256 -> ((cc & 0xc0) =? 0x80) = ((0x80 <=? cc) && (cc <? 0xc0)).
Proof.
  intros Hc. apply eqb_true_iff. revert cc Hc.
  apply (forall_below (fun cc => Bool.eqb ((cc & 0xc0) =? 0x80) ((0x80 <=? cc) && (cc <? 0xc0))) 256).
  vm_compute. reflexivity.
Qed.

Lemma push_spec cp cc :
  0 <= cp < 0x4000000 -> 0x80 <= cc < 0xc0 ->
  Z.lor (u32 (Z.shiftl cp 6)) (cc & 0x3f) = cp * 64 + (cc - 0x80).
Proof.
  intros Hcp Hcc. rewrite Z.shiftl_mul_pow2 by lia. rewrite u32_small by lia.
  change 0x3f with (2 ^ 6 - 1). rewrite land_low by lia. rewrite <- Z.add_nocarry_lor.
  - change (2 ^ 6) with 64. Z.div_mod_to_equations; lia.
  - apply Z.bits_inj'. intros n Hn. rewrite Z.land_spec, Z.bits_0.
    destruct (Z.ltb_spec n 6).
    + by rewrite Z.mul_pow2_bits_low by lia.
    + rewrite (Z.mod_pow2_bits_high _ 6) by lia. apply andb_false_r.
Qed.

(** ** One turn *)
Lemma get_app (pre l : list Z) k : 0 <= k -> arr_get (pre ++ l) (arr_len pre + k) = arr_get l k.
Proof.
  intros. unfold arr_get, arr_len. rewrite !list_lookup_total_alt, lookup_app_r by lia.
  f_equal. f_equal. lia.
Qed.

Lemma get_app0 (pre l : list Z) : arr_get (pre ++ l) (arr_len pre) = arr_get l 0.
Proof. by rewrite <- (get_app pre l 0), Z.add_0_r. Qed.

Lemma conts_spec pre l k n cp :
  0 <= k -> Forall byte l -> k + Z.of_nat n <= arr_len l -> 0 <= cp < 64 ^ (4 - Z.of_nat n) ->
  conts (pre ++ l) (arr_len pre) k n cp =
    let cs := take n (drop (Z.to_nat k) l) in
    if forallb (fun cc => (0x80 <=? cc) && (cc <? 0xc0)) cs
    then Some (fold_left (fun a cc => a * 64 + (cc - 0x80)) cs cp) else None.
Proof.
  revert k cp. induction n as [|n IH]; intros k cp Hk Hb Hl Hcp; [done|].
  cbn [conts]. rewrite get_app by done. cbv zeta.
  assert (l !! Z.to_nat k = Some (arr_get l k)) as Hlk by (apply arr_get_lookup; lia).
  rewrite (drop_S _ _ _ Hlk). cbn [take forallb fold_left].
  pose proof (Forall_lookup_1 _ _ _ _ Hb Hlk) as Hc. rewrite cont_spec by exact Hc.
  destruct ((0x80 <=? arr_get l k) && (arr_get l k <? 0xc0)) eqn:E; cbn [negb andb]; [|done].
  apply andb_true_iff in E as [E1 E2]. zb.
  assert (64 ^ (4 - Z.of_nat n) = 64 * 64 ^ (4 - Z.of_nat (S n)) \/ 4 - Z.of_nat (S n) < 0) as [Hp|Hp].
  { destruct (Z.lt_ge_cases (4 - Z.of_nat (S n)) 0); [by right|left].
    rewrite <- Z.pow_succ_r by lia. f_equal. lia. }
  2:{ rewrite Z.pow_neg_r in Hcp by lia. lia. }
  rewrite push_spec.
  - rewrite IH; [|lia|done|lia|lia]. by replace (Z.to_nat (k + 1)) with (S (Z.to_nat k)) by lia.
  - pose proof (Z.pow_le_mono_r 64 (4 - Z.of_nat (S n)) 3 ltac:(lia) ltac:(lia)) as Hm.
    change (64 ^ 3) with 0x40000 in Hm. lia.
  - lia.
Qed.

Lemma encode2 c c1 :
  let cp := (c - 0xc0) * 64 + (c1 - 0x80) in
  0x80 <= cp < 0x800 -> 0x80 <= c1 < 0xc0 -> encode cp = [c; c1].
Proof.
  intros cp Hcp H1. unfold encode.
  rewrite (proj2 (Z.ltb_ge _ _)), (proj2 (Z.ltb_lt _ _)) by lia.
  subst cp. repeat f_equal; Z.div_mod_to_equations; lia.
Qed.

Lemma encode3 c c1 c2 :
  let cp := ((c - 0xe0) * 64 + (c1 - 0x80)) * 64 + (c2 - 0x80) in
  0x800 <= cp < 0x10000 -> 0x80 <= c1 < 0xc0 -> 0x80 <= c2 < 0xc0 -> encode cp = [c; c1; c2].
Proof.
  intros cp Hcp H1 H2. unfold encode.
  rewrite !(proj2 (Z.ltb_ge _ _)), (proj2 (Z.ltb_lt _ _)) by lia.
  subst cp. repeat f_equal; Z.div_mod_to_equations; lia.
Qed.

Lemma encode4 c c1 c2 c3 :
  let cp := (((c - 0xf0) * 64 + (c1 - 0x80)) * 64 + (c2 - 0x80)) * 64 + (c3 - 0x80) in
  0x10000 <= cp -> 0x80 <= c1 < 0xc0 -> 0x80 <= c2 < 0xc0 -> 0x80 <= c3 < 0xc0 ->
  encode cp = [c; c1; c2; c3].
Proof.
  intros cp Hcp H1 H2 H3. unfold encode. rewrite !(proj2 (Z.ltb_ge _ _)) by lia.
  subst cp. repeat f_equal; Z.div_mod_to_equations; lia.
Qed.

(** The tests of a turn, one after the other. *)
Ltac finish_turn :=
  change (Z.to_nat 1) with 1%nat; change (Z.to_nat 2) with 2%nat; change (Z.to_nat 3) with 3%nat;
  cbn [drop take forallb fold_left Z.eqb Pos.eqb andb orb];
  rewrite ?take_0; cbn [forallb fold_left andb]; rewrite ?orb_false_r, ?andb_true_r;
  repeat (case_if; try discriminate); zb; intros [= <-]; rewrite ?u32_small by lia.

Ltac pow64 :=
  match goal with |- context [64 ^ ?e] =>
    let v := eval vm_compute in (64 ^ e) in change (64 ^ e) with v; Z.div_mod_to_equations; lia end.

(** A turn that goes on has read the encoding of one scalar value. *)
Lemma turn_sound pre l i' :
  Forall byte l -> l <> [] -> arr_len (pre ++ l) + 4 < W32 ->
  turn (pre ++ l) (arr_len (pre ++ l)) (arr_len pre) = Some i' ->
  exists c r, scalar c /\ l = encode c ++ r /\ i' = arr_len pre + arr_len (encode c).
Proof.
  intros Hb Hl Hlen. destruct l as [|c l]; [done|]. unfold turn.
  replace (arr_get (pre ++ c :: l) (arr_len pre)) with c
    by by rewrite get_app0.
  pose proof (Forall_inv Hb) as Hc. red in Hc.
  assert (arr_len (pre ++ c :: l) = arr_len pre + 1 + arr_len l) as Hsum
    by (unfold arr_len; rewrite length_app; simpl; lia).
  assert (0 <= arr_len pre /\ 0 <= arr_len l) as [? ?] by (unfold arr_len; lia).
  destruct (Z.eqb_spec c 0); [done|]. destruct (Z.ltb_spec c 0x80).
  { intros [= <-]. exists c, l. unfold encode. rewrite (proj2 (Z.ltb_lt c 0x80)) by lia.
    rewrite u32_small by lia. split; [split; lia|done]. }
  rewrite lead_spec by lia. unfold lead_ref.
  destruct (Z.ltb_spec c 0xc0); [done|].
  destruct (Z.ltb_spec c 0xe0); [|destruct (Z.ltb_spec c 0xf0); [|destruct (Z.ltb_spec c 0xf8); [|done]]];
    rewrite Hsum, u32_small by lia; case_if; try done; zb;
    (rewrite conts_spec; [|lia|done|unfold arr_len in *; simpl; lia|pow64]); cbv zeta.
  - destruct l as [|c1 l]; [unfold arr_len in *; simpl in *; lia|].
    finish_turn;
    exists ((c - 0xc0) * 64 + (c1 - 0x80)), l; rewrite encode2 by lia; (split; [split; lia|done]).
  - destruct l as [|c1 [|c2 l]]; [unfold arr_len in *; simpl in *; lia..|].
    finish_turn;
    exists (((c - 0xe0) * 64 + (c1 - 0x80)) * 64 + (c2 - 0x80)), l;
    rewrite encode3 by lia; (split; [split; lia|done]).
  - destruct l as [|c1 [|c2 [|c3 l]]]; [unfold arr_len in *; simpl in *; lia..|].
    finish_turn;
    exists ((((c - 0xf0) * 64 + (c1 - 0x80)) * 64 + (c2 - 0x80)) * 64 + (c3 - 0x80)), l;
    rewrite encode4 by lia; (split; [split; lia|done]).
Qed.

(** The encoding of a scalar value, as bytes and as what the turn reads. *)
Lemma encode_bytes c : scalar c -> Forall byte (encode c) /\ encode c <> [].
Proof.
  intros [[? ?] _]. unfold encode, byte.
  repeat case_if; zb; (split; [|done]); repeat constructor; Z.div_mod_to_equations; lia.
Qed.

Lemma cont_ok x : (0x80 <=? 0x80 + x mod 64) && (0x80 + x mod 64 <? 0xc0) = true.
Proof. pose proof (Z.mod_pos_bound x 64). apply andb_true_iff. split; zb; [apply Z.leb_le|apply Z.ltb_lt]; lia. Qed.

(** Reading back the payload of an encoding gives the value: the lead byte, then
    the continuation bytes and the range tests. *)
Ltac read_back :=
  rewrite (proj2 (Z.eqb_neq _ 0)), (proj2 (Z.ltb_ge _ 0x80)) by mlia;
  rewrite lead_spec by mlia; unfold lead_ref; rewrite (proj2 (Z.ltb_ge _ 0xc0)) by mlia.
Ltac back_conts c :=
  rewrite u32_small by lia; rewrite (proj2 (Z.leb_gt _ _)) by (unfold arr_len; simpl; lia);
  (rewrite conts_spec; [|lia|done|unfold arr_len; simpl; lia|pow64]); cbv zeta;
  change (Z.to_nat 1) with 1%nat; change (Z.to_nat 2) with 2%nat; change (Z.to_nat 3) with 3%nat;
  cbn [drop take forallb fold_left Z.eqb Pos.eqb andb orb];
  rewrite ?take_0; cbn [forallb fold_left]; rewrite !cont_ok; cbn [andb];
  match goal with |- context [0x10ffff <? ?v] =>
    replace v with c by (Z.div_mod_to_equations; lia) end;
  repeat (case_if; [zb; lia|]); rewrite u32_small by lia; done.

Lemma turn_complete pre c r :
  scalar c -> Forall byte r -> arr_len (pre ++ encode c ++ r) + 4 < W32 ->
  turn (pre ++ encode c ++ r) (arr_len (pre ++ encode c ++ r)) (arr_len pre)
  = Some (arr_len pre + arr_len (encode c)).
Proof.
  intros Hs Hr Hlen. pose proof Hs as [[H0 H1] H2].
  destruct (encode_bytes c Hs) as [Hb _].
  assert (Forall byte (encode c ++ r)) as Hbr by (by apply Forall_app).
  assert (0 <= arr_len pre /\ 0 <= arr_len r) as [? ?] by (unfold arr_len; lia).
  assert (arr_len (pre ++ encode c ++ r) = arr_len pre + arr_len (encode c) + arr_len r) as Hsum
    by (unfold arr_len; rewrite !length_app; lia).
  unfold turn. rewrite !get_app0.
  rewrite Hsum in *. revert Hlen Hbr Hsum. clear Hb. unfold encode.
  destruct (Z.ltb_spec c 0x80); [|destruct (Z.ltb_spec c 0x800); [|destruct (Z.ltb_spec c 0x10000)]];
    intros Hlen Hbr Hsum; unfold arr_len in Hlen, Hsum; cbn [length] in Hlen, Hsum;
    fold (arr_len pre) in Hlen; fold (arr_len r) in Hlen; cbn [app];
    match goal with |- context [arr_get (?x :: ?y) 0] => change (arr_get (x :: y) 0) with x end.
  - rewrite (proj2 (Z.eqb_neq c 0)), (proj2 (Z.ltb_lt c 0x80)) by lia.
    rewrite u32_small by lia. done.
  - read_back. rewrite (proj2 (Z.ltb_lt (0xc0 + c / 64) 0xe0)) by mlia. back_conts c.
  - read_back.
    rewrite (proj2 (Z.ltb_ge (0xe0 + c / 4096) 0xe0)), (proj2 (Z.ltb_lt (0xe0 + c / 4096) 0xf0)) by mlia.
    back_conts c.
  - read_back.
    rewrite (proj2 (Z.ltb_ge (0xf0 + c / 262144) 0xe0)), (proj2 (Z.ltb_ge (0xf0 + c / 262144) 0xf0)),
      (proj2 (Z.ltb_lt (0xf0 + c / 262144) 0xf8)) by mlia. back_conts c.
Qed.

(** ** The loop *)
Lemma encode_inj c c' r r' :
  scalar c -> scalar c' -> encode c ++ r = encode c' ++ r' -> c = c' /\ r = r'.
Proof.
  intros [[? ?] _] [[? ?] _]. unfold encode.
  repeat case_if; zb; intros [=]; (split; [|first [done|exfalso]]); Z.div_mod_to_equations; lia.
Qed.

Lemma encode_all_inj cs cs' :
  Forall scalar cs -> Forall scalar cs' -> encode_all cs = encode_all cs' -> cs = cs'.
Proof.
  intros H. revert cs'. induction H as [|c cs Hc _ IH]; intros [|c' cs'] H' E; try done.
  - destruct (encode_bytes c' (Forall_inv H')) as [_ Hn]. unfold encode_all in E. simpl in E.
    destruct (encode c'); done.
  - destruct (encode_bytes c Hc) as [_ Hn]. unfold encode_all in E. simpl in E.
    destruct (encode c); done.
  - apply encode_inj in E as [-> E]; [|done|exact (Forall_inv H')].
    f_equal. apply IH; [exact (Forall_inv_tail H')|done].
Qed.

Lemma loop_spec fuel pre l :
  Forall byte l -> arr_len (pre ++ l) + 4 < W32 -> (length l <= fuel)%nat ->
  exists b, loop fuel (pre ++ l) (arr_len (pre ++ l)) (arr_len pre) = Some b /\
    (b = true <-> exists cs, Forall scalar cs /\ l = encode_all cs).
Proof.
  revert pre l. induction fuel as [|fuel IH]; intros pre l Hb Hlen Hf.
  { destruct l; [|simpl in Hf; lia]. exists true. rewrite app_nil_r. simpl.
    rewrite Z.ltb_irrefl. split; [done|]. split; [|done]. intros _. by exists []. }
  cbn [loop]. destruct l as [|c0 l0].
  { exists true. rewrite app_nil_r, Z.ltb_irrefl. split; [done|]. split; [|done]. intros _. by exists []. }
  set (l := c0 :: l0) in *.
  rewrite (proj2 (Z.ltb_lt _ _)) by (unfold arr_len; rewrite length_app; simpl; lia). cbn [negb].
  destruct (turn _ _ _) as [i'|] eqn:Et.
  - apply turn_sound in Et as (c & r & Hc & Hl & ->); [|done|done|done].
    rewrite Hl in Hb, Hlen, Hf |- *. apply Forall_app in Hb as [_ Hr].
    rewrite length_app in Hf. destruct (encode_bytes c Hc) as [_ Hn].
    assert (0 < length (encode c))%nat by (destruct (encode c); [done|simpl; lia]).
    replace (arr_len pre + arr_len (encode c)) with (arr_len (pre ++ encode c))
      by (unfold arr_len; rewrite length_app; lia).
    rewrite app_assoc in Hlen |- *. destruct (IH (pre ++ encode c) r Hr Hlen ltac:(lia)) as (b & Eb & Hcs).
    exists b. split; [done|]. rewrite Hcs. split.
    + intros (cs & Hs & ->). exists (c :: cs). split; [by constructor|done].
    + intros (cs & Hs & E). destruct cs as [|c' cs]; [destruct (encode c); done|].
      apply encode_inj in E as [-> E]; [|done|exact (Forall_inv Hs)].
      exists cs. split; [exact (Forall_inv_tail Hs)|done].
  - exists false. split; [done|]. split; [done|]. intros (cs & Hs & E). exfalso.
    destruct cs as [|c cs]; [done|]. unfold encode_all in E. simpl in E.
    rewrite E in Et, Hlen, Hb. apply Forall_app in Hb as [_ Hr].
    rewrite turn_complete in Et; [done|exact (Forall_inv Hs)|done|done].
Qed.

Lemma utf8_ok_spec p :
  Forall byte p -> arr_len p + 4 < W32 ->
  exists b, nb_utf8_ok p (arr_len p) = Some b /\
    (b = true <-> exists! cs, Forall scalar cs /\ p = encode_all cs).
Proof.
  intros Hb Hlen. unfold nb_utf8_ok. replace (Z.to_nat (arr_len p)) with (length p) by (unfold arr_len; lia).
  destruct (loop_spec (length p) [] p Hb Hlen (Nat.le_refl _)) as (b & E & Hcs). exists b. split; [exact E|].
  rewrite Hcs. split.
  - intros (cs & Hs & Hp). exists cs. split; [done|]. intros cs' [Hs' Hp']. subst p.
    by apply encode_all_inj.
  - intros (cs & Hs & _). eauto.
Qed.

(** C37: the validator terminates on every text, and accepts exactly the UTF-8
    encodings of sequences of nonzero Unicode scalar values; the sequence an
    accepted text stands for is unique. *)
Theorem utf8_equivalence p :
  Forall byte p -> arr_len p + 4 < W32 ->
  exists b, nb_utf8_ok p (arr_len p) = Some b /\
    (b = true <-> exists! cs, Forall scalar cs /\ p = encode_all cs).
Proof. apply utf8_ok_spec. Qed.

(** "é€😀" is accepted, a surrogate, an overlong NUL and a truncated tail are not. *)
Lemma utf8_equivalence_witness :
  let p := [0xc3; 0xa9; 0xe2; 0x82; 0xac; 0xf0; 0x9f; 0x98; 0x80] in
  nb_utf8_ok p 9 = Some true /\
  (exists b, nb_utf8_ok p (arr_len p) = Some b /\
    (b = true <-> exists! cs, Forall scalar cs /\ p = encode_all cs)) /\
  p = encode_all [0xe9; 0x20ac; 0x1f600] /\
  nb_utf8_ok [0xed; 0xa0; 0x80] 3 = Some false /\ nb_utf8_ok [0xc0; 0x80] 2 = Some false /\
  nb_utf8_ok [0x41; 0xe2; 0x82] 3 = Some false.
Proof.
  intros p. split; [reflexivity|]. split; [|repeat split; reflexivity].
  apply (utf8_equivalence p); [|reflexivity].
  subst p. unfold byte. repeat constructor; lia.
Defined.

End Utf8.
