(* ===== verification/BrokerTx.v ===== *)
(** * BrokerTx: the broker's packet queue

    Models the transmit side of [src/broker/nvkvm_broker.c]: the fixed ring of
    packets in [struct nb_sink] ([tx], [tx_head], [tx_tail], [tx_partial]),
    [nb_tx_used], [nb_tx_coalesce], the enqueueing half of [nb_emit], and
    [nb_sink_flush].  A packet is the record of [common/nvkvm_broker_proto.h];
    its 24 bytes are [pkt_bytes].  [send] answers are an argument of the flush.

    [contents] is what the ring holds, oldest first.  The theorems say that
    coalescing loses nothing a client could act on apart from where the motion
    sat among the other events, and that the byte stream never tears a packet. *)
From S2P Require Import Prelude Bytes.

Module Tx.

Definition NB_TXRING : Z := 512.
Definition NVKVM_BROKER_PKT_SIZE : Z := 24.
Definition INT32_MAX : Z := 2147483647.
Definition INT32_MIN : Z := -2147483648.

Definition EV_HELLO : Z := 1.
Definition EV_SURFACE : Z := 2.
Definition EV_FRAME : Z := 3.
Definition EV_RELEASE : Z := 4.
Definition EV_KEY : Z := 5.
Definition EV_BTN : Z := 6.
Definition EV_ABS : Z := 7.
Definition EV_REL : Z := 8.
Definition EV_WHEEL : Z := 9.
Definition EV_GRAB : Z := 10.
Definition EV_FOCUS : Z := 11.
Definition EV_POINTER : Z := 12.
Definition EV_BYE : Z := 13.
Definition EV_CLOSE : Z := 14.
Definition EV_CLIPBOARD : Z := 15.
Definition EV_FORMAT : Z := 16.

Record pkt := Pkt { ptype : Z; pflags : Z; pseq : Z; px : Z; py : Z; pw0 : Z; pw1 : Z }.
#[global] Instance pkt_inhabited : Inhabited pkt := populate (Pkt 0 0 0 0 0 0 0).
#[global] Instance pkt_eq_dec : EqDecision pkt.
Proof. solve_decision. Defined.

(** The packet as it crosses the socket. *)
Definition pkt_bytes (p : pkt) : list Z :=
  le_bytes 2 (ptype p) ++ le_bytes 2 (pflags p) ++ le_bytes 4 (pseq p) ++
  le_bytes 4 (u32 (px p)) ++ le_bytes 4 (u32 (py p)) ++ le_bytes 4 (pw0 p) ++ le_bytes 4 (pw1 p).

(** ** The ring *)
Record ring := RingC { tx : list pkt; head : Z; tail : Z; partial : Z }.

Definition nb_tx_used (r : ring) : Z := (head r + NB_TXRING - tail r) mod NB_TXRING.

Definition next (i : Z) : Z := u32 (i + 1) mod NB_TXRING.

(** ** Coalescing *)

(** The locals of [nb_tx_coalesce]: the output array up to [n], and the slots. *)
Record co := Co { out : list pkt; abs_slot : Z; rel_slot : Z; frame_slot : Z }.

Definition sat (x : Z) : Z :=
  if INT32_MAX <? x then INT32_MAX else if x <? INT32_MIN then INT32_MIN else x.

Definition put (c : co) (i : Z) (q : pkt) : co :=
  Co (arr_set (out c) i q) (abs_slot c) (rel_slot c) (frame_slot c).

Definition co_step (c : co) (p : pkt) : co :=
  if (ptype p =? EV_ABS) && (0 <=? abs_slot c) then
    let q := arr_get (out c) (abs_slot c) in
    put c (abs_slot c) (Pkt (ptype q) (pflags q) (pseq p) (px p) (py p) (pw0 p) (pw1 p))
  else if (ptype p =? EV_REL) && (0 <=? rel_slot c) then
    let q := arr_get (out c) (rel_slot c) in
    put c (rel_slot c) (Pkt (ptype q) (pflags q) (pseq p)
                          (sat (px q + px p)) (sat (py q + py p)) (pw0 q) (pw1 q))
  else if (ptype p =? EV_FRAME) && (0 <=? frame_slot c) then
    let q := arr_get (out c) (frame_slot c) in
    put c (frame_slot c) (Pkt (ptype q) (pflags q) (pseq p) (px q) (py q) (pw0 q) (pw1 q))
  else
    let n := arr_len (out c) in
    let '(a, r, f) :=
      if ptype p =? EV_ABS then (n, rel_slot c, frame_slot c)
      else if ptype p =? EV_REL then (abs_slot c, n, frame_slot c)
      else if ptype p =? EV_FRAME then (abs_slot c, rel_slot c, n)
      else if (ptype p =? EV_GRAB) || (ptype p =? EV_FOCUS) then (-1, -1, frame_slot c)
      else (abs_slot c, rel_slot c, frame_slot c) in
    Co (out c ++ [p]) a r f.

(** The [while (cur != s->tx_head)] loop. *)
Fixpoint co_loop (fuel : nat) (t : list pkt) (cur hd : Z) (c : co) : option co :=
  if cur =? hd then Some c
  else match fuel with
  | O => None
  | S f => co_loop f t (next cur) hd (co_step c (arr_get t cur))
  end.

(** A partially written packet at the tail goes first, and takes no slot. *)
Definition co_start (r : ring) : co * Z :=
  if negb (partial r =? 0) then (Co [arr_get (tx r) (tail r)] (-1) (-1) (-1), next (tail r))
  else (Co [] (-1) (-1) (-1), tail r).

Definition nb_tx_coalesce (r : ring) : option ring :=
  let '(c, cur) := co_start r in
  match co_loop (Z.to_nat NB_TXRING) (tx r) cur (head r) c with
  | None => None
  | Some c =>
      Some (RingC (out c ++ drop (length (out c)) (tx r)) (arr_len (out c)) 0 (partial r))
  end.

(** The store and the head update of [nb_emit] and [nb_sink_send_clipboard]. *)
Definition push (r : ring) (p : pkt) : ring :=
  RingC (arr_set (tx r) (head r) p) (next (head r)) (tail r) (partial r).

(** ** Flushing *)

(** What [send] answered.  A count is at least one and at most what was asked. *)
Inductive answer := Sent (n : Z) | Eintr | Eagain | Eerr (e : Z).

Definition accepted (n left : Z) : Z := Z.min (Z.max 1 n) left.

(** The bytes put on the wire by one [nb_sink_flush], the ring after it, and the
    return value.  A socket with no further answer would block. *)
Fixpoint flush (ans : list answer) (r : ring) : ring * list Z * Z :=
  if tail r =? head r then (r, [], 0)
  else match ans with
  | [] => (r, [], 0)
  | Eintr :: ans => flush ans r
  | Eagain :: _ => (r, [], 0)
  | Eerr e :: _ => (r, [], - e)
  | Sent n :: ans =>
      let left := NVKVM_BROKER_PKT_SIZE - partial r in
      let n := accepted n left in
      let bs := take (Z.to_nat n) (drop (Z.to_nat (partial r)) (pkt_bytes (arr_get (tx r) (tail r)))) in
      let p' := partial r + n in
      let r' := if p' =? NVKVM_BROKER_PKT_SIZE
                then RingC (tx r) (head r) (next (tail r)) 0
                else RingC (tx r) (head r) (tail r) p' in
      let '(r'', w, e) := flush ans r' in (r'', bs ++ w, e)
  end.

(** ** What the ring holds *)
Fixpoint from (t : list pkt) (cur : Z) (n : nat) : list pkt :=
  match n with O => [] | S n' => arr_get t cur :: from t (next cur) n' end.

Definition contents (r : ring) : list pkt := from (tx r) (tail r) (Z.to_nat (nb_tx_used r)).

Record wf (r : ring) : Prop := {
  wf_len : arr_len (tx r) = NB_TXRING;
  wf_head : 0 <= head r < NB_TXRING;
  wf_tail : 0 <= tail r < NB_TXRING;
  wf_partial : 0 <= partial r < NVKVM_BROKER_PKT_SIZE;
  wf_started : partial r <> 0 -> head r <> tail r
}.

Lemma next_range i : 0 <= next i < NB_TXRING.
Proof. unfold next, NB_TXRING. mlia. Qed.

Lemma next_eq i : 0 <= i < NB_TXRING -> next i = (i + 1) mod NB_TXRING.
Proof. unfold next, NB_TXRING. intros. by rewrite u32_small by lia. Qed.

Lemma used_range r : 0 <= nb_tx_used r < NB_TXRING.
Proof. unfold nb_tx_used, NB_TXRING. mlia. Qed.

Lemma contents_length r : length (contents r) = Z.to_nat (nb_tx_used r).
Proof.
  unfold contents. generalize (tail r). induction (Z.to_nat (nb_tx_used r)); intros; simpl; auto.
Qed.

(** [from] walks indices [cur], [cur + 1], ... of the ring. *)
Lemma from_snoc t cur n :
  0 <= cur < NB_TXRING ->
  from t cur (S n) = from t cur n ++ [arr_get t ((cur + Z.of_nat n) mod NB_TXRING)].
Proof.
  revert cur. induction n as [|n IH]; intros cur Hc.
  - simpl. rewrite Z.add_0_r, Z.mod_small by done. done.
  - change (from t cur (S (S n))) with (arr_get t cur :: from t (next cur) (S n)).
    rewrite IH by apply next_range. simpl. f_equal. f_equal. f_equal. f_equal.
    rewrite next_eq by done. unfold NB_TXRING. Z.div_mod_to_equations; lia.
Qed.

Lemma from_set t cur n i p :
  0 <= cur < NB_TXRING -> 0 <= i < NB_TXRING -> arr_len t = NB_TXRING ->
  (forall k, (k < n)%nat -> (cur + Z.of_nat k) mod NB_TXRING <> i) ->
  from (arr_set t i p) cur n = from t cur n.
Proof.
  revert cur. induction n as [|n IH]; intros cur Hc Hi Ht Hne; [done|]. simpl. f_equal.
  - apply arr_get_set_ne; [lia|lia|]. specialize (Hne O ltac:(lia)).
    rewrite Z.add_0_r, Z.mod_small in Hne by done. congruence.
  - apply IH; [apply next_range|done|done|]. intros k Hk. rewrite next_eq by done.
    specialize (Hne (S k) ltac:(lia)). intros E. apply Hne. rewrite <- E.
    unfold NB_TXRING. Z.div_mod_to_equations; lia.
Qed.

Lemma contents_push r p :
  wf r -> nb_tx_used r < NB_TXRING - 1 ->
  wf (push r p) /\ nb_tx_used (push r p) = nb_tx_used r + 1 /\ contents (push r p) = contents r ++ [p].
Proof.
  intros [Hl Hh Ht Hp Hs] Hu. pose proof (used_range r) as Hur.
  assert (next (head r) <> tail r) as Hne.
  { rewrite next_eq by done. unfold nb_tx_used, NB_TXRING in *. Z.div_mod_to_equations; lia. }
  assert (nb_tx_used (push r p) = nb_tx_used r + 1) as Hu'.
  { unfold nb_tx_used, push. cbn [head tail]. rewrite next_eq by done.
    unfold nb_tx_used, NB_TXRING in *. Z.div_mod_to_equations; lia. }
  split; [|split; [done|]].
  - constructor; cbn [push tx head tail partial]; try done; [by rewrite arr_len_set|apply next_range].
  - unfold contents. rewrite Hu', Z2Nat.inj_add by lia. change (Z.to_nat 1) with 1%nat.
    rewrite Nat.add_1_r. cbn [push tx tail]. rewrite from_snoc by done. f_equal.
    + apply from_set; try done. intros k Hk. unfold nb_tx_used, NB_TXRING in *.
      Z.div_mod_to_equations; lia.
    + rewrite Z2Nat.id by lia. replace ((tail r + nb_tx_used r) mod NB_TXRING) with (head r).
      * rewrite arr_get_set_eq; [done|lia].
      * unfold nb_tx_used, NB_TXRING in *. Z.div_mod_to_equations; lia.
Qed.

Lemma contents_nil r : wf r -> contents r = [] <-> tail r = head r.
Proof.
  intros [Hl Hh Ht Hp Hs]. rewrite <- length_zero_iff_nil, contents_length.
  unfold nb_tx_used, NB_TXRING in *. split; Z.div_mod_to_equations; lia.
Qed.

Lemma contents_pop r :
  wf r -> tail r <> head r ->
  wf (RingC (tx r) (head r) (next (tail r)) 0) /\
  contents r = arr_get (tx r) (tail r) :: contents (RingC (tx r) (head r) (next (tail r)) 0).
Proof.
  intros [Hl Hh Ht Hp Hs] Hne. split.
  - constructor; cbn [tx head tail partial]; try done; [apply next_range].
  - unfold contents. assert (0 < nb_tx_used r) by (unfold nb_tx_used, NB_TXRING in *; Z.div_mod_to_equations; lia).
    replace (Z.to_nat (nb_tx_used r)) with
      (S (Z.to_nat (nb_tx_used (RingC (tx r) (head r) (next (tail r)) 0)))); [done|].
    unfold nb_tx_used. cbn [head tail]. rewrite next_eq by done.
    unfold nb_tx_used, NB_TXRING in *. Z.div_mod_to_equations; lia.
Qed.

(** ** Coalescing as a function of the contents *)
Definition co0 : co := Co [] (-1) (-1) (-1).

Definition co_list (started : bool) (l : list pkt) : list pkt :=
  match started, l with
  | true, p :: l' => out (fold_left co_step l' (Co [p] (-1) (-1) (-1)))
  | _, _ => out (fold_left co_step l co0)
  end.

Lemma co_loop_fold fuel t cur hd c :
  0 <= cur < NB_TXRING -> 0 <= hd < NB_TXRING ->
  (Z.to_nat ((hd + NB_TXRING - cur) mod NB_TXRING) <= fuel)%nat ->
  co_loop fuel t cur hd c =
  Some (fold_left co_step (from t cur (Z.to_nat ((hd + NB_TXRING - cur) mod NB_TXRING))) c).
Proof.
  revert cur c. induction fuel as [|f IH]; intros cur c Hc Hh Hf; cbn [co_loop];
    destruct (Z.eqb_spec cur hd) as [->|Hne].
  1, 3: replace (Z.to_nat _) with O; [done|]; unfold NB_TXRING; Z.div_mod_to_equations; lia.
  - exfalso. unfold NB_TXRING in *. Z.div_mod_to_equations; lia.
  - assert (Z.to_nat ((hd + NB_TXRING - cur) mod NB_TXRING) =
            S (Z.to_nat ((hd + NB_TXRING - next cur) mod NB_TXRING))) as E.
    { rewrite next_eq by done. unfold NB_TXRING in *. Z.div_mod_to_equations; lia. }
    rewrite E in Hf |- *. rewrite IH by (try apply next_range; lia). done.
Qed.

Lemma co_step_length c p : (length (out (co_step c p)) <= S (length (out c)))%nat.
Proof.
  unfold co_step, put. repeat case_if; cbn [out]; unfold arr_set; rewrite ?length_insert, ?length_app; simpl; lia.
Qed.

Lemma co_fold_length l c : (length (out (fold_left co_step l c)) <= length (out c) + length l)%nat.
Proof.
  revert c. induction l as [|p l IH]; intros c; simpl; [lia|].
  pose proof (co_step_length c p). specialize (IH (co_step c p)). lia.
Qed.

Lemma co_list_length b l : (length (co_list b l) <= length l)%nat.
Proof.
  destruct b, l as [|p l]; simpl; [lia| |lia|].
  - pose proof (co_fold_length l (Co [p] (-1) (-1) (-1))). simpl in *. lia.
  - pose proof (co_fold_length (p :: l) co0). simpl in *. lia.
Qed.

(** A ring rebuilt from index zero holds what was copied in. *)
Lemma from_prefix t l cur :
  0 <= cur -> cur + arr_len l < NB_TXRING -> arr_len t = NB_TXRING ->
  take (length l) (drop (Z.to_nat cur) t) = l -> from t cur (length l) = l.
Proof.
  revert cur. induction l as [|p l IH]; intros cur Hc Hl Ht E; [done|].
  assert (arr_len (p :: l) = 1 + arr_len l) as Hal by (unfold arr_len; simpl; lia).
  assert (0 <= arr_len l) by (unfold arr_len; lia).
  rewrite (drop_S t (arr_get t cur)) in E by (apply arr_get_lookup; lia).
  simpl in E. injection E as E1 E2. simpl. f_equal; [done|].
  rewrite next_eq, Z.mod_small by lia. apply IH; [lia|lia|done|].
  by replace (Z.to_nat (cur + 1)) with (S (Z.to_nat cur)) by lia.
Qed.

Lemma rebuild_contents t l p :
  arr_len t = NB_TXRING -> arr_len l < NB_TXRING -> 0 <= p < NVKVM_BROKER_PKT_SIZE -> (p <> 0 -> l <> []) ->
  let r := RingC (l ++ drop (length l) t) (arr_len l) 0 p in wf r /\ contents r = l.
Proof.
  intros Ht Hl Hp Hs r.
  assert (arr_len (tx r) = NB_TXRING) as Hr.
  { subst r. cbn [tx]. unfold arr_len in *. rewrite length_app, length_drop. lia. }
  split.
  - constructor; subst r; cbn [tx head tail partial] in *; try done; [unfold arr_len in *; lia|].
    intros Hp0. specialize (Hs Hp0). destruct l; [done|]. unfold arr_len. simpl. lia.
  - unfold contents. replace (Z.to_nat (nb_tx_used r)) with (length l).
    + change (tail r) with 0. apply from_prefix; [done|lia|done|]. subst r. cbn [tx tail]. rewrite drop_0.
      by rewrite take_app_length.
    + subst r. unfold nb_tx_used. cbn [head tail]. unfold arr_len, NB_TXRING in *.
      Z.div_mod_to_equations; lia.
Qed.

Lemma co_run r :
  wf r -> exists c, co_loop (Z.to_nat NB_TXRING) (tx r) (snd (co_start r)) (head r) (fst (co_start r)) = Some c /\
    out c = co_list (negb (partial r =? 0)) (contents r).
Proof.
  intros Hw. pose proof Hw as [Hl Hh Ht Hp Hs]. unfold co_start.
  destruct (Z.eqb_spec (partial r) 0) as [E|E]; cbn [negb fst snd].
  - rewrite co_loop_fold; [|done|done|unfold NB_TXRING; Z.div_mod_to_equations; lia].
    eexists. split; [done|]. unfold co_list, contents, nb_tx_used, co0. done.
  - destruct (contents_pop r Hw) as [Hw' Hc]; [intros ?; by apply Hs|]. rewrite Hc.
    rewrite co_loop_fold; [|apply next_range|done|unfold NB_TXRING; Z.div_mod_to_equations; lia].
    eexists. split; [done|]. done.
Qed.

(** Anything coalesced keeps its first packet's place. *)
Lemma co_fold_nonempty l c : out c <> [] -> out (fold_left co_step l c) <> [].
Proof.
  revert c. induction l as [|p l IH]; intros c Hc; simpl; [done|]. apply IH.
  unfold co_step, put. repeat case_if; cbn [out]; try (by destruct (out c));
  unfold arr_set; intros En; apply Hc, length_zero_iff_nil; apply (f_equal length) in En;
  by rewrite length_insert in En.
Qed.

Lemma coalesce_contents r :
  wf r -> exists r', nb_tx_coalesce r = Some r' /\ wf r' /\ partial r' = partial r /\
    contents r' = co_list (negb (partial r =? 0)) (contents r).
Proof.
  intros Hw. destruct (co_run r Hw) as (c & Ec & Hc). pose proof Hw as [Hl Hh Ht Hp Hs].
  unfold nb_tx_coalesce. destruct (co_start r) as [c0 cur] eqn:E0. cbn [fst snd] in Ec. rewrite Ec.
  pose proof (used_range r) as Hu. pose proof (contents_length r) as Hcl.
  pose proof (co_list_length (negb (partial r =? 0)) (contents r)) as Hlen. rewrite <- Hc in Hlen.
  destruct (rebuild_contents (tx r) (out c) (partial r)) as [Hw' Hcs]; [done|unfold arr_len; lia|done| |].
  - intros Hp0. rewrite Hc. destruct (contents_pop r Hw) as [_ ->]; [intros ?; by apply Hs|].
    rewrite (proj2 (Z.eqb_neq _ _)) by done. by apply co_fold_nonempty.
  - eexists. split; [done|]. split; [done|]. split; [done|]. by rewrite Hcs.
Qed.

(** ** What coalescing preserves *)
Definition motion (p : pkt) : bool :=
  (ptype p =? EV_ABS) || (ptype p =? EV_REL) || (ptype p =? EV_FRAME).

(** Everything but motion and pacing, in order. *)
Definition others (l : list pkt) : list pkt := List.filter (fun p => negb (motion p)) l.

(** Where the pointer was last said to be. *)
Definition pos_step (o : option (Z * Z * Z * Z)) (p : pkt) :=
  if ptype p =? EV_ABS then Some (px p, py p, pw0 p, pw1 p) else o.
Definition position (l : list pkt) := fold_left pos_step l None.

(** How far it was said to move. *)
Definition rsum (f : pkt -> Z) (l : list pkt) : Z :=
  foldr (fun p a => (if ptype p =? EV_REL then f p else 0) + a) 0 l.

Definition has_frame (l : list pkt) : bool := existsb (fun p => ptype p =? EV_FRAME) l.

Lemma others_app l l' : others (l ++ l') = others l ++ others l'.
Proof. apply List.filter_app. Qed.
Lemma position_app l l' : position (l ++ l') = fold_left pos_step l' (position l).
Proof. apply fold_left_app. Qed.
Lemma rsum_app f l l' : rsum f (l ++ l') = rsum f l + rsum f l'.
Proof. induction l as [|p l IH]; simpl; [done|]. rewrite IH. lia. Qed.
Lemma has_frame_app l l' : has_frame (l ++ l') = has_frame l || has_frame l'.
Proof. apply existsb_app. Qed.

Lemma pos_tail l o : Forall (fun p => ptype p <> EV_ABS) l -> fold_left pos_step l o = o.
Proof.
  revert o. induction l as [|p l IH]; intros o Hf; [done|]. simpl. apply Forall_cons in Hf as [Hp Hf].
  rewrite IH by done. unfold pos_step. by rewrite (proj2 (Z.eqb_neq _ _)).
Qed.

(** A slot is unset, or names the last packet of its type. *)
Definition slot_ok (ty : Z) (o : list pkt) (i : Z) : Prop :=
  i = -1 \/ exists a q b, o = a ++ q :: b /\ i = arr_len a /\ ptype q = ty /\
                          Forall (fun p => ptype p <> ty) b.

Lemma slot_types ty o o' i : ptype <$> o = ptype <$> o' -> slot_ok ty o i -> slot_ok ty o' i.
Proof.
  intros E [->|(a & q & b & -> & -> & Hq & Hb)]; [by left|right].
  rewrite fmap_app, fmap_cons in E. symmetry in E.
  apply fmap_app_inv in E as (a' & b0 & Ea & Eb & ->). symmetry in Eb.
  apply fmap_cons_inv in Eb as (q' & b' & Eq & Eb & ->).
  exists a', q', b'. split; [done|]. split.
  { unfold arr_len. f_equal. apply (f_equal length) in Ea. by rewrite !length_fmap in Ea. }
  split; [congruence|]. apply Forall_fmap with (f := ptype) (P := fun t => t <> ty).
  rewrite <- Eb. by apply Forall_fmap.
Qed.

Lemma slot_push_ne ty o i p : ptype p <> ty -> slot_ok ty o i -> slot_ok ty (o ++ [p]) i.
Proof.
  intros Hp [->|(a & q & b & -> & -> & Hq & Hb)]; [by left|right].
  exists a, q, (b ++ [p]). rewrite <- app_assoc. split; [done|]. split; [done|]. split; [done|].
  apply Forall_app. split; [done|]. by repeat constructor.
Qed.

Lemma slot_push_eq ty o p : ptype p = ty -> slot_ok ty (o ++ [p]) (arr_len o).
Proof. intros Hp. right. exists o, p, []. done. Qed.

Lemma slot_elim ty o i :
  slot_ok ty o i -> 0 <= i ->
  exists a q b, o = a ++ q :: b /\ ptype q = ty /\ Forall (fun p => ptype p <> ty) b /\
    arr_get o i = q /\ forall q', arr_set o i q' = a ++ q' :: b.
Proof.
  intros [->|(a & q & b & -> & -> & Hq & Hb)] Hi; [lia|]. exists a, q, b.
  unfold arr_get, arr_set, arr_len. rewrite Nat2Z.id. split; [done|]. split; [done|]. split; [done|]. split.
  - apply list_lookup_total_middle. done.
  - intros q'. rewrite <- (Nat.add_0_r (length a)) at 1. by rewrite insert_app_r.
Qed.

Definition mag (f : pkt -> Z) (p : pkt) : Z := Z.abs (f p).
Lemma rsum_mag_nonneg f l : 0 <= rsum (mag f) l.
Proof. induction l; simpl; [lia|]. unfold mag in *. case_if; lia. Qed.

(** What the output says of the motion along [f], unless a run could saturate. *)
Definition moved (f : pkt -> Z) (l o : list pkt) : Prop :=
  rsum (mag f) l <= INT32_MAX -> rsum f o = rsum f l /\ rsum (mag f) o <= rsum (mag f) l.

(** The invariant of the pass over [l]. *)
Record co_inv (l : list pkt) (c : co) : Prop := {
  ci_others : others (out c) = others l;
  ci_pos : position (out c) = position l;
  ci_x : moved px l (out c);
  ci_y : moved py l (out c);
  ci_frame : has_frame (out c) = has_frame l;
  ci_abs : slot_ok EV_ABS (out c) (abs_slot c);
  ci_rel : slot_ok EV_REL (out c) (rel_slot c);
  ci_fr : slot_ok EV_FRAME (out c) (frame_slot c)
}.

Lemma moved_snoc f l o p : moved f l o -> moved f (l ++ [p]) (o ++ [p]).
Proof.
  unfold moved. rewrite !rsum_app. simpl. pose proof (rsum_mag_nonneg f l). unfold mag in *.
  intros Hm. case_if; lia.
Qed.

(** Replacing a packet by one of the same type, with [p] folded into it. *)
Lemma moved_same f l a q q' b p :
  ptype q' = ptype q -> ptype p <> EV_REL -> (ptype q = EV_REL -> f q' = f q) ->
  moved f l (a ++ q :: b) -> moved f (l ++ [p]) (a ++ q' :: b).
Proof.
  unfold moved. rewrite !rsum_app. simpl. intros Ht Hp Hf H. rewrite Ht.
  rewrite (proj2 (Z.eqb_neq (ptype p) EV_REL)) by done. unfold mag in *.
  destruct (Z.eqb_spec (ptype q) EV_REL) as [E|E]; [rewrite (Hf E)|]; rewrite !Z.add_0_r in *; auto.
Qed.

Lemma moved_rel f l a q q' b p :
  ptype q = EV_REL -> ptype q' = EV_REL -> ptype p = EV_REL -> f q' = sat (f q + f p) ->
  moved f l (a ++ q :: b) -> moved f (l ++ [p]) (a ++ q' :: b).
Proof.
  unfold moved. rewrite !rsum_app. simpl. intros -> -> -> Hq H Hm. rewrite Z.eqb_refl in *.
  pose proof (rsum_mag_nonneg f a). pose proof (rsum_mag_nonneg f b). pose proof (rsum_mag_nonneg f l).
  assert (forall p, mag f p = Z.abs (f p)) as Hmag by done. rewrite !Hmag, ?Hq in *.
  destruct H as [HS HM]; [lia|].
  assert (sat (f q + f p) = f q + f p) as Hs.
  { unfold sat, INT32_MAX, INT32_MIN in *. repeat case_if; zb; lia. }
  rewrite Hs. lia.
Qed.

Lemma swap_view a q q' b :
  ptype q' = ptype q -> motion q = true ->
  others (a ++ q' :: b) = others (a ++ q :: b) /\ has_frame (a ++ q' :: b) = has_frame (a ++ q :: b) /\
  (ptype q <> EV_ABS -> position (a ++ q' :: b) = position (a ++ q :: b)) /\
  ptype <$> (a ++ q :: b) = ptype <$> (a ++ q' :: b).
Proof.
  intros Ht Hm. assert (motion q' = true) as Hm' by (unfold motion in *; by rewrite Ht).
  rewrite !others_app, !has_frame_app, !position_app, !fmap_app. unfold others, has_frame.
  simpl. rewrite Hm, Hm', Ht. repeat split; try done. intros Hne. unfold pos_step at 2 4.
  by rewrite Ht, (proj2 (Z.eqb_neq (ptype q) EV_ABS)).
Qed.

Lemma snoc_motion l p : motion p = true -> others (l ++ [p]) = others l.
Proof. intros Hp. rewrite others_app. unfold others. simpl. rewrite Hp. apply app_nil_r. Qed.

(** The slot merges, by the type of the packet folded in. *)
Lemma merge_inv l c p i q' (a b : list pkt) q :
  co_inv l c -> out c = a ++ q :: b -> arr_set (out c) i q' = a ++ q' :: b ->
  ptype q' = ptype q -> ptype p = ptype q -> motion q = true ->
  position (a ++ q' :: b) = position (l ++ [p]) ->
  moved px (l ++ [p]) (a ++ q' :: b) -> moved py (l ++ [p]) (a ++ q' :: b) ->
  co_inv (l ++ [p]) (put c i q').
Proof.
  intros [Ho Hpos Hx Hy Hf Ha Hr Hfr] E Es Ht Htp Hm Hp Hmx Hmy.
  destruct (swap_view a q q' b Ht Hm) as (V1 & V2 & _ & V4). unfold put.
  constructor; cbn [out abs_slot rel_slot frame_slot]; rewrite Es; try done.
  - rewrite V1, <- E, Ho. symmetry. apply snoc_motion. unfold motion in *. by rewrite Htp.
  - rewrite V2, <- E, Hf, has_frame_app. unfold has_frame at 3. simpl. rewrite orb_false_r, Htp.
    destruct (Z.eqb_spec (ptype q) EV_FRAME) as [Eq|]; [|by rewrite orb_false_r].
    rewrite <- Hf, E, has_frame_app. unfold has_frame. simpl. rewrite Eq, Z.eqb_refl.
    by rewrite !orb_true_r.
  - rewrite E in Ha. by apply (slot_types _ _ _ _ V4).
  - rewrite E in Hr. by apply (slot_types _ _ _ _ V4).
  - rewrite E in Hfr. by apply (slot_types _ _ _ _ V4).
Qed.

Lemma position_snoc_ne l p : ptype p <> EV_ABS -> position (l ++ [p]) = position l.
Proof. intros. rewrite position_app. simpl. unfold pos_step. by rewrite (proj2 (Z.eqb_neq _ _)). Qed.

Lemma push_inv l c p a r f :
  co_inv l c ->
  slot_ok EV_ABS (out c ++ [p]) a -> slot_ok EV_REL (out c ++ [p]) r -> slot_ok EV_FRAME (out c ++ [p]) f ->
  co_inv (l ++ [p]) (Co (out c ++ [p]) a r f).
Proof.
  intros [Ho Hpos Hx Hy Hf _ _ _] Ha Hr Hfr. constructor; cbn [out abs_slot rel_slot frame_slot]; try done.
  - by rewrite !others_app, Ho.
  - by rewrite !position_app, Hpos.
  - by apply moved_snoc.
  - by apply moved_snoc.
  - by rewrite !has_frame_app, Hf.
Qed.

Lemma co_step_inv l c p : co_inv l c -> co_inv (l ++ [p]) (co_step c p).
Proof.
  intros Hi. pose proof Hi as [Ho Hpos Hx Hy Hf Ha Hr Hfr]. unfold co_step.
  destruct (Z.eqb_spec (ptype p) EV_ABS) as [E1|E1]; [destruct (Z.leb_spec 0 (abs_slot c)) as [H1|H1]|]; cbn [andb].
  { destruct (slot_elim _ _ _ Ha H1) as (a & q & b & E & Hq & Hb & -> & Es).
    eapply (merge_inv l c p _ _ a b q); try done; [congruence|unfold motion; by rewrite Hq| | |].
    - rewrite !position_app. cbn [fold_left]. rewrite pos_tail by done. unfold pos_step.
      cbn [ptype px py pw0 pw1]. by rewrite E1, Hq.
    - rewrite E in Hx. eapply moved_same; [..|exact Hx]; [done|by rewrite E1|]. by rewrite Hq.
    - rewrite E in Hy. eapply moved_same; [..|exact Hy]; [done|by rewrite E1|]. by rewrite Hq. }
  - rewrite E1. cbn [Z.eqb andb]. apply push_inv; [done|by apply slot_push_eq|apply slot_push_ne; [by rewrite E1|done]..].
  - destruct (Z.eqb_spec (ptype p) EV_REL) as [E2|E2]; [destruct (Z.leb_spec 0 (rel_slot c)) as [H2|H2]|]; cbn [andb].
    { destruct (slot_elim _ _ _ Hr H2) as (a & q & b & E & Hq & Hb & -> & Es).
      eapply (merge_inv l c p _ _ a b q); try done; [congruence|unfold motion; by rewrite Hq| | |].
      - rewrite position_snoc_ne by done. rewrite <- Hpos, E.
        apply (swap_view a q _ b); [done|unfold motion; by rewrite Hq|by rewrite Hq].
      - rewrite E in Hx. eapply moved_rel; [..|exact Hx]; done.
      - rewrite E in Hy. eapply moved_rel; [..|exact Hy]; done. }
    + rewrite E2. cbn [Z.eqb andb]. apply push_inv; [done| |by apply slot_push_eq|];
        (apply slot_push_ne; [by rewrite E2|done]).
    + destruct (Z.eqb_spec (ptype p) EV_FRAME) as [E3|E3]; [destruct (Z.leb_spec 0 (frame_slot c)) as [H3|H3]|]; cbn [andb].
      { destruct (slot_elim _ _ _ Hfr H3) as (a & q & b & E & Hq & Hb & -> & Es).
        eapply (merge_inv l c p _ _ a b q); try done; [congruence|unfold motion; by rewrite Hq| | |].
        - rewrite position_snoc_ne by done. rewrite <- Hpos, E.
          apply (swap_view a q _ b); [done|unfold motion; by rewrite Hq|by rewrite Hq].
        - rewrite E in Hx. eapply moved_same; [..|exact Hx]; [done|done|by rewrite Hq].
        - rewrite E in Hy. eapply moved_same; [..|exact Hy]; [done|done|by rewrite Hq]. }
      * apply push_inv; [done| | |by apply slot_push_eq]; by apply slot_push_ne.
      * destruct ((ptype p =? EV_GRAB) || (ptype p =? EV_FOCUS)); apply push_inv;
          first [done|by left|by apply slot_push_ne].
Qed.

Lemma co_inv_start o : co_inv o (Co o (-1) (-1) (-1)).
Proof. constructor; try done; by left. Qed.

Lemma co_fold_inv l k c : co_inv k c -> co_inv (k ++ l) (fold_left co_step l c).
Proof.
  revert k c. induction l as [|p l IH]; intros k c Hi; simpl; [by rewrite app_nil_r|].
  rewrite cons_middle, app_assoc. by apply IH, co_step_inv.
Qed.

Lemma co_list_inv b l : exists c, co_list b l = out c /\ co_inv l c.
Proof.
  destruct b, l as [|p l]; simpl.
  - exists co0. split; [done|apply co_inv_start].
  - eexists. split; [done|]. apply (co_fold_inv l [p]), co_inv_start.
  - exists co0. split; [done|apply co_inv_start].
  - eexists. split; [done|]. apply (co_fold_inv (p :: l) []), co_inv_start.
Qed.

(** ** The byte stream *)

(** The bytes of the tail packet that are already on the wire. *)
Definition begun (r : ring) : list Z :=
  take (Z.to_nat (partial r)) (match contents r with [] => [] | p :: _ => pkt_bytes p end).

Definition stream (l : list pkt) : list Z := concat (pkt_bytes <$> l).

Lemma pkt_bytes_length p : length (pkt_bytes p) = Z.to_nat NVKVM_BROKER_PKT_SIZE.
Proof. unfold pkt_bytes. rewrite !length_app, !le_bytes_length. done. Qed.

Lemma begun_zero r : partial r = 0 -> begun r = [].
Proof. intros E. unfold begun. by rewrite E. Qed.

(** The first packet of the output is the partially written one. *)
Lemma co_keeps_head l p o a r f :
  a = -1 \/ 1 <= a -> r = -1 \/ 1 <= r -> f = -1 \/ 1 <= f ->
  exists o', out (fold_left co_step l (Co (p :: o) a r f)) = p :: o'.
Proof.
  revert o a r f. induction l as [|q l IH]; intros o a r f Ha Hr Hf; [by exists o|].
  cbn [fold_left]. unfold co_step, put. cbn [out abs_slot rel_slot frame_slot].
  assert (forall i x, 1 <= i -> exists o', arr_set (p :: o) i x = p :: o') as Hset.
  { intros i x Hi. exists (<[Z.to_nat (i - 1) := x]> o). unfold arr_set.
    by replace (Z.to_nat i) with (S (Z.to_nat (i - 1))) by lia. }
  assert (1 <= arr_len (p :: o)) by (unfold arr_len; simpl; lia).
  repeat case_if; cbn [app];
    try (match goal with |- context [arr_set (p :: o) ?i ?x] =>
           destruct (Hset i x) as [o' ->]; [zb; lia|] end);
    apply IH; auto.
Qed.

Lemma coalesce_begun r r' : wf r -> nb_tx_coalesce r = Some r' -> begun r' = begun r.
Proof.
  intros Hw E. destruct (coalesce_contents r Hw) as (r1 & E1 & Hw1 & Hp & Hc).
  rewrite E1 in E. injection E as ->. unfold begun. rewrite Hp, Hc.
  destruct (Z.eqb_spec (partial r) 0) as [E0|E0]; [by rewrite E0|]. cbn [negb].
  destruct (contents r) as [|p l] eqn:Ec; [done|]. cbn [co_list].
  destruct (co_keeps_head l p [] (-1) (-1) (-1)) as [o' ->]; auto.
Qed.

(** Flushing sends whole packets from the front, plus a prefix of the next. *)
Lemma flush_spec ans r :
  wf r ->
  let '(r', w, _) := flush ans r in
  wf r' /\ exists d, contents r = d ++ contents r' /\ begun r ++ w = stream d ++ begun r'.
Proof.
  revert r. induction ans as [|x ans IH]; intros r Hw; cbn [flush];
    destruct (Z.eqb_spec (tail r) (head r)) as [Ee|Ee];
    try (split; [done|]; exists []; by rewrite app_nil_r).
  destruct x as [n| | |e]; [|by apply IH|split; [done|]; exists []; by rewrite app_nil_r..].
  pose proof Hw as [Hl Hh Ht Hp Hs]. destruct (contents_pop r Hw Ee) as [Hw' Hc].
  set (k := accepted n (NVKVM_BROKER_PKT_SIZE - partial r)).
  assert (1 <= k <= NVKVM_BROKER_PKT_SIZE - partial r) as Hk
    by (subst k; unfold accepted, NVKVM_BROKER_PKT_SIZE in *; lia).
  set (p := arr_get (tx r) (tail r)) in *.
  assert (begun r ++ take (Z.to_nat k) (drop (Z.to_nat (partial r)) (pkt_bytes p))
          = take (Z.to_nat (partial r + k)) (pkt_bytes p)) as Hb.
  { unfold begun. rewrite Hc, take_take_drop. f_equal. lia. }
  destruct (Z.eqb_spec (partial r + k) NVKVM_BROKER_PKT_SIZE) as [Ek|Ek].
  - specialize (IH _ Hw'). destruct (flush ans _) as [[r' w] e]. destruct IH as (Hwr & d & Hd & Hs').
    split; [done|]. exists (p :: d). split; [by rewrite Hc, Hd|].
    rewrite app_assoc, Hb, Ek, take_ge by (by rewrite pkt_bytes_length).
    rewrite begun_zero in Hs' by done. cbn [app] in Hs'. rewrite Hs'.
    change (stream (p :: d)) with (pkt_bytes p ++ stream d). by rewrite app_assoc.
  - assert (wf (RingC (tx r) (head r) (tail r) (partial r + k))) as Hw2
      by (constructor; cbn [tx head tail partial]; first [done|lia|congruence]).
    specialize (IH _ Hw2). destruct (flush ans _) as [[r' w] e]. destruct IH as (Hwr & d & Hd & Hs').
    split; [done|]. exists d. split; [exact Hd|]. rewrite app_assoc, Hb, <- Hs'. f_equal.
    unfold begun. cbn [partial]. change (contents (RingC _ _ _ _)) with (contents r). by rewrite Hc.
Qed.

(** What the client is told survives coalescing.  On any well-formed queue
    [nb_tx_coalesce] terminates and leaves a queue that is no longer, holds
    every key, button, state and clipboard packet in the same order, places the
    pointer where it was placed last, moves it by the same total as long as the
    total fits 32 bits, keeps the pacing signal, and does not touch the packet
    that is partly on the wire. *)
Theorem coalesce_preserves r :
  wf r ->
  exists r', nb_tx_coalesce r = Some r' /\ wf r' /\ nb_tx_used r' <= nb_tx_used r /\
    others (contents r') = others (contents r) /\ position (contents r') = position (contents r) /\
    (rsum (mag px) (contents r) <= INT32_MAX -> rsum px (contents r') = rsum px (contents r)) /\
    (rsum (mag py) (contents r) <= INT32_MAX -> rsum py (contents r') = rsum py (contents r)) /\
    has_frame (contents r') = has_frame (contents r) /\ begun r' = begun r.
Proof.
  intros Hw. destruct (coalesce_contents r Hw) as (r' & E & Hw' & Hp & Hc). exists r'.
  pose proof (coalesce_begun r r' Hw E) as Hb.
  pose proof (co_list_length (negb (partial r =? 0)) (contents r)) as Hl. rewrite <- Hc, !contents_length in Hl.
  pose proof (used_range r). pose proof (used_range r').
  destruct (co_list_inv (negb (partial r =? 0)) (contents r)) as (c & Eo & [Ho Hpos Hx Hy Hf _ _ _]).
  rewrite <- Eo, <- Hc in *. split; [done|]. split; [done|]. split; [lia|].
  split; [done|]. split; [done|]. split; [apply Hx|]. split; [apply Hy|]. done.
Qed.

(** A burst of motion around a key press, with half a packet on the wire. *)
Definition demo_ring : ring :=
  let l := [Pkt EV_ABS 2 0 10 10 100 100; Pkt EV_REL 3 1 4 0 0 0; Pkt EV_KEY 3 2 30 1 0 0;
            Pkt EV_REL 3 3 5 7 0 0; Pkt EV_ABS 2 4 20 30 100 100; Pkt EV_FRAME 2 5 0 0 0 0;
            Pkt EV_ABS 2 6 40 50 100 100; Pkt EV_FRAME 2 7 0 0 0 0] in
  RingC (l ++ replicate 504 inhabitant) 8 0 12.

Lemma coalesce_preserves_witness :
  exists r', nb_tx_coalesce demo_ring = Some r' /\ wf r' /\ nb_tx_used r' <= nb_tx_used demo_ring /\
    others (contents r') = others (contents demo_ring) /\
    position (contents r') = position (contents demo_ring) /\
    (rsum (mag px) (contents demo_ring) <= INT32_MAX -> rsum px (contents r') = rsum px (contents demo_ring)) /\
    (rsum (mag py) (contents demo_ring) <= INT32_MAX -> rsum py (contents r') = rsum py (contents demo_ring)) /\
    has_frame (contents r') = has_frame (contents demo_ring) /\ begun r' = begun demo_ring.
Proof.
  apply (coalesce_preserves demo_ring).
  constructor; [vm_compute; reflexivity|split; [discriminate|reflexivity]..|discriminate].
Defined.

(** A click between two positions is delivered at the later one: the pointer is
    already at the destination when the button goes down. *)
Lemma coalesce_moves_click :
  let l := [Pkt EV_ABS 2 0 10 10 100 100; Pkt EV_BTN 2 1 272 1 0 0; Pkt EV_BTN 2 2 272 0 0 0;
            Pkt EV_ABS 2 3 90 90 100 100] in
  position (take 1 l) = Some (10, 10, 100, 100) /\
  co_list false l = [Pkt EV_ABS 2 3 90 90 100 100; Pkt EV_BTN 2 1 272 1 0 0; Pkt EV_BTN 2 2 272 0 0 0] /\
  pseq <$> co_list false l = [3; 1; 2].
Proof. split; [reflexivity|]. split; reflexivity. Qed.

End Tx.
