(* ===== verification/BrokerSink.v ===== *)
(** * BrokerSink: the broker's input policy

    Models [struct nb_sink] of [src/broker/nvkvm_broker.h] and the functions of
    [src/broker/nvkvm_broker.c] that decide what a client is told: connection
    life cycle, keys, buttons, motion, focus, grab, the paste chord and the
    host-to-guest clipboard.  The queue is [BrokerTx].

    The display server is the record [sess] with the grab it currently holds; its
    replies are the argument [dsp], one per call.  Two ghost fields follow a
    connection: every packet emitted on it, and the packets and bytes that left
    through the socket.  [dismiss_dialog], [client_detach] and [resync] change
    nothing of the sink: the events a backend sends afterwards are events of the
    trace. *)
From S2P Require Import Prelude Bytes BrokerTx.
Import Tx.

Module Sink.

(** ** Bit maps of 768 keys *)
Definition bit_get (m : list Z) (b : Z) : bool :=
  (b <? 768) && negb ((arr_get m (Z.shiftr b 3) & Z.shiftl 1 (b & 7)) =? 0).

Definition bit_set (m : list Z) (b : Z) (v : bool) : list Z :=
  if 768 <=? b then m
  else
    let i := Z.shiftr b 3 in
    if v then arr_set m i (u8 (Z.lor (arr_get m i) (Z.shiftl 1 (b & 7))))
    else arr_set m i (arr_get m i & u8 (Z.lnot (Z.shiftl 1 (b & 7)))).

Definition bits0 : list Z := replicate 96 0.

(** ** Evdev codes *)
Definition KEY_LEFTCTRL : Z := 29.
Definition KEY_G : Z := 34.
Definition KEY_F : Z := 33.
Definition KEY_LEFTSHIFT : Z := 42.
Definition KEY_V : Z := 47.
Definition KEY_RIGHTSHIFT : Z := 54.
Definition KEY_LEFTALT : Z := 56.
Definition KEY_RIGHTCTRL : Z := 97.
Definition KEY_RIGHTALT : Z := 100.
Definition KEY_INSERT : Z := 110.
Definition BTN_MISC : Z := 0x100.
Definition KEY_OK : Z := 0x160.

(** ** State *)
Record win := Win { focused : bool; pointer_in : bool; grabbed : bool; fullscreen : bool }.
Record kbd := Kbd { ctrl_down : bool; alt_down : bool; shift_down : bool; key_down : list Z; consumed : list Z }.
Record chord := Chord { held_key : Z; held_ctrl : bool; held_shift : bool; held_generation : Z }.
Record told := Told { told_off : bool; told_noclient : bool; told_noagent : bool }.

(** The command side of the connection; [BrokerCmd] works on it. *)
Record cmds := Cmds {
  rx : list Z; rxfd : Z; window_established : bool;
  rate_ms : Z; rate_count : Z; rej_log_ms : Z; rej_log_count : Z; rej_log_hidden : Z;
  clip_in : list Z; clip_in_chunks : Z; clip_in_next_chunk : Z; clip_in_active : bool; clip_in_bad : bool;
  clip_rate_ms : Z; clip_rate_count : Z; caps_seen : Z; n_attach : Z; n_commit : Z; n_reject : Z }.

(** [struct nb_session] as the sink uses it.  [held] is the backend's own
    [grabbed]; [calls] counts the requests made to the display server. *)
Record sess := Sess { caps : Z; width : Z; height : Z; held : bool; calls : nat }.

Record st := St {
  client_fd : Z; client_generation : Z; seq : Z;
  wn : win; kb : kbd; chd : chord; td : told; cmd : cmds; ring : Tx.ring; se : sess;
  (* ghost *) emitted : list pkt; sent : list pkt; wire : list Z; closed : list Z }.

Definition set_conn (s : st) (fd gen : Z) : st :=
  St fd gen (seq s) (wn s) (kb s) (chd s) (td s) (cmd s) (ring s) (se s) (emitted s) (sent s) (wire s) (closed s).
Definition set_w (s : st) (x : win) : st :=
  St (client_fd s) (client_generation s) (seq s) x (kb s) (chd s) (td s) (cmd s) (ring s) (se s)
    (emitted s) (sent s) (wire s) (closed s).
Definition set_k (s : st) (x : kbd) : st :=
  St (client_fd s) (client_generation s) (seq s) (wn s) x (chd s) (td s) (cmd s) (ring s) (se s)
    (emitted s) (sent s) (wire s) (closed s).
Definition set_ch (s : st) (x : chord) : st :=
  St (client_fd s) (client_generation s) (seq s) (wn s) (kb s) x (td s) (cmd s) (ring s) (se s)
    (emitted s) (sent s) (wire s) (closed s).
Definition set_tl (s : st) (x : told) : st :=
  St (client_fd s) (client_generation s) (seq s) (wn s) (kb s) (chd s) x (cmd s) (ring s) (se s)
    (emitted s) (sent s) (wire s) (closed s).
Definition set_cm (s : st) (x : cmds) : st :=
  St (client_fd s) (client_generation s) (seq s) (wn s) (kb s) (chd s) (td s) x (ring s) (se s)
    (emitted s) (sent s) (wire s) (closed s).
Definition set_ring (s : st) (x : Tx.ring) : st :=
  St (client_fd s) (client_generation s) (seq s) (wn s) (kb s) (chd s) (td s) (cmd s) x (se s)
    (emitted s) (sent s) (wire s) (closed s).
Definition set_ss (s : st) (x : sess) : st :=
  St (client_fd s) (client_generation s) (seq s) (wn s) (kb s) (chd s) (td s) (cmd s) (ring s) x
    (emitted s) (sent s) (wire s) (closed s).
Definition set_closed (s : st) (l : list Z) : st :=
  St (client_fd s) (client_generation s) (seq s) (wn s) (kb s) (chd s) (td s) (cmd s) (ring s) (se s)
    (emitted s) (sent s) (wire s) l.

Definition close_fd (s : st) (fd : Z) : st := set_closed s (closed s ++ [fd]).

Definition set_focused (s : st) (b : bool) := set_w s (Win b (pointer_in (wn s)) (grabbed (wn s)) (fullscreen (wn s))).
Definition set_pointer (s : st) (b : bool) := set_w s (Win (focused (wn s)) b (grabbed (wn s)) (fullscreen (wn s))).
Definition set_grabbed (s : st) (b : bool) := set_w s (Win (focused (wn s)) (pointer_in (wn s)) b (fullscreen (wn s))).
Definition set_fs (s : st) (b : bool) := set_w s (Win (focused (wn s)) (pointer_in (wn s)) (grabbed (wn s)) b).
Definition set_keys (s : st) (m : list Z) :=
  set_k s (Kbd (ctrl_down (kb s)) (alt_down (kb s)) (shift_down (kb s)) m (consumed (kb s))).
Definition set_consumed (s : st) (m : list Z) :=
  set_k s (Kbd (ctrl_down (kb s)) (alt_down (kb s)) (shift_down (kb s)) (key_down (kb s)) m).
Definition set_mods (s : st) (c a h : bool) := set_k s (Kbd c a h (key_down (kb s)) (consumed (kb s))).

Definition cmds0 : cmds := Cmds [] (-1) false 0 0 0 0 0 [] 0 0 false false 0 0 0 0 0 0.
Definition kbd0 : kbd := Kbd false false false bits0 bits0.
Definition chord0 : chord := Chord 0 false false 0.
Definition told0 : told := Told false false false.

(** ** Configuration and display *)
Definition NB_CLIP_OFF : Z := 0.
Definition NB_CLIP_G2H : Z := 1.
Definition NB_CLIP_CONSENT : Z := 2.
Definition NB_CLIENT_HAS_CLIPBOARD : Z := 1.
Definition CAP_FOCUS_EVENTS : Z := 32.

Record trigger := Trigger { t_code : Z; need_ctrl : bool; need_shift : bool }.
Record config := Config { clip_mode : Z; clip_trigger : list trigger }.

(** The display server's replies, by call number: to the keyboard and the
    pointer grab, to a fullscreen request; and [fetch_clipboard]'s answer, when
    the backend has one. *)
Record display := Display {
  grab_keyboard : nat -> bool; grab_pointer : nat -> bool;
  set_fullscreen : nat -> Z; fetch_clipboard : option (nat -> Z) }.

Section Ops.
Context (cfg : config) (dsp : display).

Definition called (e : sess) (h : bool) : sess := Sess (caps e) (width e) (height e) h (S (calls e)).

(** The backend's [set_grab]. *)
Definition x11_set_grab (s : st) (on : bool) : st * Z :=
  let e := se s in
  if Bool.eqb (held e) on then (s, 0)
  else if on then
    if negb (grab_keyboard dsp (calls e)) then (set_ss s (called e (held e)), - EBUSY)
    else if negb (grab_pointer dsp (calls e)) then (set_ss s (called e (held e)), - EBUSY)
    else (set_ss s (called e true), 0)
  else (set_ss s (called e false), 0).

(** ** Connection *)
Definition nb_client_state_reset (s : st) : st :=
  let s := if 0 <=? rxfd (cmd s) then close_fd s (rxfd (cmd s)) else s in
  St (client_fd s) (client_generation s) 0 (wn s) kbd0 chord0 told0 cmds0
    (RingC (tx (ring s)) 0 0 0) (se s) [] [] [] (closed s).

Definition flags (s : st) : Z :=
  Z.lor (Z.lor (if grabbed (wn s) then 1 else 0) (if focused (wn s) then 2 else 0))
    (if fullscreen (wn s) then 4 else 0).

Definition nb_sink_detach (s : st) : st :=
  if client_fd s <? 0 then s
  else
    let s := close_fd s (client_fd s) in
    let s := set_conn s (-1) (client_generation s) in
    let s := if grabbed (wn s) then set_grabbed (fst (x11_set_grab s false)) false else s in
    let s := set_conn s (client_fd s) (u64 (client_generation s + 1)) in
    nb_client_state_reset s.

(** [nb_emit] with the packet's fields.  The coalescing pass always ends, so its
    [None] does not arise. *)
Definition nb_emit (s : st) (ty x y w0 w1 : Z) : st :=
  if client_fd s <? 0 then s
  else
    let s := if NB_TXRING / 4 <? nb_tx_used (ring s)
             then match nb_tx_coalesce (ring s) with Some r => set_ring s r | None => s end else s in
    if next (head (ring s)) =? tail (ring s) then nb_sink_detach s
    else
      let p := Pkt (u16 ty) (flags s) (seq s) x y w0 w1 in
      St (client_fd s) (client_generation s) (u32 (seq s + 1)) (wn s) (kb s) (chd s) (td s) (cmd s)
        (push (ring s) p) (se s) (emitted s ++ [p]) (sent s) (wire s) (closed s).

(** Flushing, and what of it the sink keeps.  The packets that left are the
    ones no longer in the ring. *)
Definition nb_sink_flush (ans : list answer) (s : st) : st * Z :=
  if client_fd s <? 0 then (s, 0)
  else
    let '(r, bs, e) := flush ans (ring s) in
    let gone := take (length (contents (ring s)) - length (contents r)) (contents (ring s)) in
    (St (client_fd s) (client_generation s) (seq s) (wn s) (kb s) (chd s) (td s) (cmd s) r (se s)
       (emitted s) (sent s ++ gone) (wire s ++ bs) (closed s), e).

(** A handshake packet: numbered like the others, sent at once. *)
Definition handshake (s : st) (ty x y w0 w1 : Z) (r : Z) : st * Z :=
  let p := Pkt (u16 ty) (flags s) (seq s) x y w0 w1 in
  let s' := St (client_fd s) (client_generation s) (u32 (seq s + 1)) (wn s) (kb s) (chd s) (td s) (cmd s)
              (ring s) (se s) (emitted s) (sent s) (wire s) (closed s) in
  if r =? 0
  then (St (client_fd s') (client_generation s') (seq s') (wn s') (kb s') (chd s') (td s') (cmd s') (ring s')
          (se s') (emitted s' ++ [p]) (sent s' ++ [p]) (wire s' ++ pkt_bytes p) (closed s'), 0)
  else (s', r).

(** [rs]: the results of the five [nb_send_now]. *)
Fixpoint handshakes (s : st) (l : list (Z * Z * Z * Z * Z)) (rs : list Z) : st * Z :=
  match l with
  | [] => (s, 0)
  | (ty, x, y, w0, w1) :: l =>
      let '(s, r) := handshake s ty x y w0 w1 (hd 0 rs) in
      if r =? 0 then handshakes s l (tl rs) else (s, r)
  end.

Definition NVKVM_BROKER_PROTO_VERSION : Z := 2.

(** The state in which the handshake starts: nothing of the last client, no grab. *)
Definition greeted (s : st) (fd : Z) : st :=
  let s := nb_client_state_reset s in
  let s := set_conn s (client_fd s) (u64 (client_generation s + 1)) in
  let s := if grabbed (wn s) then set_grabbed (fst (x11_set_grab s false)) false else s in
  set_conn s fd (client_generation s).

Definition nb_sink_attach (s : st) (fd : Z) (rs : list Z) : st * Z :=
  let s := greeted s fd in
  let '(s, r) := handshakes s
    [(EV_HELLO, 0, 0, NVKVM_BROKER_PROTO_VERSION, caps (se s));
     (EV_SURFACE, s32 (width (se s)), s32 (height (se s)), 0, 0);
     (EV_FOCUS, (if focused (wn s) then 1 else 0), 0, 0, 0);
     (EV_GRAB, 0, 0, 0, 0); (EV_FRAME, 0, 0, 0, 0)] rs in
  if negb (r =? 0) then
    let s := set_conn s (-1) (u64 (client_generation s + 1)) in
    (nb_client_state_reset s, r)
  else (s, 0).

(** ** Keys and grab *)
Definition b2z (b : bool) : Z := if b then 1 else 0.

Definition release_one (s : st) (c : Z) : st :=
  if bit_get (key_down (kb s)) c then
    let s := set_keys s (bit_set (key_down (kb s)) c false) in
    nb_emit s (if (BTN_MISC <=? c) && (c <? KEY_OK) then EV_BTN else EV_KEY) c 0 0 0
  else s.

Definition nb_release_all (s : st) : st :=
  set_mods (fold_left release_one (seqZ 0 768) s) false false false.

(** The tail of [nb_set_grab], after the releases went out. *)
Definition grab_settle (s : st) (on : bool) : st :=
  let s := set_grabbed s on in
  if on && (client_fd s <? 0) then set_grabbed (fst (x11_set_grab s false)) false
  else nb_emit s EV_GRAB (b2z on) 0 0 0.

Definition nb_set_grab (s : st) (on : bool) : st :=
  if Bool.eqb (grabbed (wn s)) on then s
  else if on && ((caps (se s) & CAP_FOCUS_EVENTS) =? 0) then s
  else
    let '(s, r) := x11_set_grab s on in
    if negb (r =? 0) then s else grab_settle (nb_release_all s) on.

(** ** The paste chord *)
Definition trigger_match (s : st) (code : Z) (t : trigger) : bool :=
  (t_code t =? code) && Bool.eqb (need_ctrl t) (ctrl_down (kb s)) && Bool.eqb (need_shift t) (shift_down (kb s)).

Definition nb_clip_trigger (s : st) (code : Z) : option trigger :=
  if (clip_mode cfg =? NB_CLIP_OFF) && told_off (td s) then None
  else List.find (trigger_match s code) (clip_trigger cfg).

Definition nb_guest_modifier_down (s : st) (left right : Z) : bool :=
  bit_get (key_down (kb s)) left || bit_get (key_down (kb s)) right.

Definition nb_clip_key_edge (s : st) (code : Z) (down : bool) : st :=
  nb_emit (set_keys s (bit_set (key_down (kb s)) code down)) EV_KEY code (b2z down) 0 0.

Definition nb_sink_clip_finish (s : st) (generation : Z) (paste : bool) : st :=
  let code := held_key (chd s) in
  let nctrl := held_ctrl (chd s) in
  let nshift := held_shift (chd s) in
  if (code =? 0) || negb (generation =? client_generation s)
     || negb (generation =? held_generation (chd s)) then s
  else
    let s := set_ch s chord0 in
    if negb paste then s
    else if negb (focused (wn s)) || (client_fd s <? 0) then s
    else
      let synth_ctrl := nctrl && negb (nb_guest_modifier_down s KEY_LEFTCTRL KEY_RIGHTCTRL) in
      let synth_shift := nshift && negb (nb_guest_modifier_down s KEY_LEFTSHIFT KEY_RIGHTSHIFT) in
      let s := if synth_ctrl then nb_clip_key_edge s KEY_LEFTCTRL true else s in
      let s := if synth_shift then nb_clip_key_edge s KEY_LEFTSHIFT true else s in
      let s := nb_clip_key_edge s code true in
      let s := nb_clip_key_edge s code false in
      let s := if synth_shift then nb_clip_key_edge s KEY_LEFTSHIFT false else s in
      if synth_ctrl then nb_clip_key_edge s KEY_LEFTCTRL false else s.

Definition nb_sink_has_client (s : st) : bool := 0 <=? client_fd s.

Definition nb_sink_paste_trigger (s : st) : st :=
  let generation := held_generation (chd s) in
  let off := Told true (told_noclient (td s)) (told_noagent (td s)) in
  if clip_mode cfg =? NB_CLIP_OFF then nb_sink_clip_finish (set_tl s off) generation true
  else if clip_mode cfg =? NB_CLIP_G2H then nb_sink_clip_finish (set_tl s off) generation true
  else if negb (nb_sink_has_client s) then
    nb_sink_clip_finish (set_tl s (Told (told_off (td s)) true (told_noagent (td s)))) generation false
  else if (caps_seen (cmd s) & NB_CLIENT_HAS_CLIPBOARD) =? 0 then
    nb_sink_clip_finish (set_tl s (Told (told_off (td s)) (told_noclient (td s)) true)) generation true
  else match fetch_clipboard dsp with
  | None => nb_sink_clip_finish s generation false
  | Some f =>
      let r := f (calls (se s)) in
      let s := set_ss s (called (se s) (held (se s))) in
      if r =? - ENOENT then nb_sink_clip_finish s generation true
      else if negb (r =? 0) then nb_sink_clip_finish s generation false
      else s
  end.

(** ** Input events *)
Definition nb_sink_key (s : st) (code : Z) (down : bool) : st :=
  if 768 <=? code then s
  else
    let c := if (code =? KEY_LEFTCTRL) || (code =? KEY_RIGHTCTRL) then down else ctrl_down (kb s) in
    let a := if (code =? KEY_LEFTALT) || (code =? KEY_RIGHTALT) then down else alt_down (kb s) in
    let h := if (code =? KEY_LEFTSHIFT) || (code =? KEY_RIGHTSHIFT) then down else shift_down (kb s) in
    let s := set_mods s c a h in
    if down && ctrl_down (kb s) && alt_down (kb s) && ((code =? KEY_G) || (code =? KEY_F)) then
      let s := set_consumed s (bit_set (consumed (kb s)) code true) in
      if code =? KEY_G then nb_set_grab s (negb (grabbed (wn s)))
      else
        let s := set_fs s (negb (fullscreen (wn s))) in
        let r := set_fullscreen dsp (calls (se s)) in
        let s := set_ss s (called (se s) (held (se s))) in
        if negb (r =? 0) then set_fs s (negb (fullscreen (wn s))) else s
    else match (if down && focused (wn s) then nb_clip_trigger s code else None) with
    | Some t =>
        let s := set_consumed s (bit_set (consumed (kb s)) code true) in
        if negb (held_key (chd s) =? 0) then s
        else nb_sink_paste_trigger (set_ch s (Chord code (need_ctrl t) (need_shift t) (client_generation s)))
    | None =>
        if bit_get (consumed (kb s)) code then
          if negb down then set_consumed s (bit_set (consumed (kb s)) code false) else s
        else if negb (focused (wn s)) then s
        else if Bool.eqb down (bit_get (key_down (kb s)) code) then s
        else nb_emit (set_keys s (bit_set (key_down (kb s)) code down)) EV_KEY code (b2z down) 0 0
    end.

Definition nb_sink_btn (s : st) (code : Z) (down : bool) : st :=
  if (768 <=? code) || negb (focused (wn s)) then s
  else if negb (grabbed (wn s)) && negb (pointer_in (wn s)) then s
  else if Bool.eqb down (bit_get (key_down (kb s)) code) then s
  else nb_emit (set_keys s (bit_set (key_down (kb s)) code down)) EV_BTN code (b2z down) 0 0.

Definition nb_sink_abs (s : st) (x y wd ht : Z) : st :=
  if grabbed (wn s) || negb (focused (wn s)) || negb (pointer_in (wn s)) then s
  else nb_emit s EV_ABS x y wd ht.

Definition nb_sink_rel (s : st) (dx dy : Z) : st :=
  if negb (grabbed (wn s)) || negb (focused (wn s)) then s
  else if (dx =? 0) && (dy =? 0) then s
  else nb_emit s EV_REL dx dy 0 0.

Definition nb_sink_wheel (s : st) (v h : Z) : st :=
  if negb (focused (wn s)) || (negb (grabbed (wn s)) && negb (pointer_in (wn s))) then s
  else nb_emit s EV_WHEEL v h 0 0.

Definition nb_sink_focus (s : st) (active : bool) : st :=
  if Bool.eqb (focused (wn s)) active then s
  else
    let s := set_focused s active in
    let s :=
      if negb active then
        let s := if grabbed (wn s) then set_grabbed (fst (x11_set_grab s false)) false else s in
        set_pointer (nb_release_all s) false
      else s in
    let s := nb_emit s EV_FOCUS (b2z active) 0 0 0 in
    if negb active then nb_emit s EV_GRAB 0 0 0 0 else s.

Definition nb_sink_format_verdict (s : st) (fourcc md : Z) (usable : bool) : st :=
  nb_emit s EV_FORMAT (b2z usable) (s32 fourcc) (md & 0xffffffff) (u32 (Z.shiftr md 32)).

Definition nb_sink_pointer (s : st) (inside : bool) : st :=
  if Bool.eqb (pointer_in (wn s)) inside then s
  else nb_emit (set_pointer s inside) EV_POINTER (b2z inside) 0 0 0.

Definition nb_sink_surface (s : st) (wd ht mhz : Z) : st :=
  if (wd =? 0) || (ht =? 0) then s
  else if (width (se s) =? wd) && (height (se s) =? ht) then s
  else nb_emit (set_ss s (Sess (caps (se s)) wd ht (held (se s)) (calls (se s)))) EV_SURFACE (s32 wd) (s32 ht) mhz 0.

Definition nb_sink_frame (s : st) : st := nb_emit s EV_FRAME 0 0 0 0.

Definition nb_sink_release (s : st) (buf_id : Z) : st :=
  nb_emit s EV_RELEASE 0 0 (u32 buf_id) (u32 (Z.shiftr buf_id 32)).

Definition nb_sink_force_ungrab (s : st) : st := if grabbed (wn s) then nb_set_grab s false else s.

Definition nb_sink_set_fullscreen (s : st) (on : bool) : st :=
  if Bool.eqb (fullscreen (wn s)) on then s else set_fs s on.

Definition nb_sink_close_request (s : st) (ans : list answer) (action : Z) : st * bool :=
  if client_fd s <? 0 then (s, false)
  else (fst (nb_sink_flush ans (nb_emit s EV_CLOSE action 0 0 0)), true).

Definition nb_sink_bye (s : st) (ans : list answer) (reason : Z) : st :=
  fst (nb_sink_flush ans (nb_emit s EV_BYE reason 0 0 0)).

(** ** Host clipboard to guest *)
Definition NVKVM_BROKER_CLIP_PKT_BYTES : Z := 15.
Definition NVKVM_BROKER_CLIP_MAX_BYTES : Z := 7168.
Definition NVKVM_BROKER_CLIP_LAST : Z := 0x20.
Definition replay_reserve : Z := 6.

(** [struct nvkvm_broker_clip_pkt] laid over the 24 bytes of a packet: the info
    byte and fifteen data bytes are the words [x], [y], [w0] and [w1]. *)
Definition clip_pkt (fl sq info : Z) (data : list Z) : pkt :=
  let b := info :: data ++ replicate (15 - length data) 0 in
  Pkt EV_CLIPBOARD fl sq (s32 (rd 4 0 b)) (s32 (rd 4 4 b)) (rd 4 8 b) (rd 4 12 b).

(** The [do] loop, [fuel] bounding its turns. *)
Fixpoint queue_chunks (fuel : nat) (s : st) (text : list Z) (off : Z) : st :=
  match fuel with
  | O => s
  | S f =>
      let len := arr_len text in
      let n := if NVKVM_BROKER_CLIP_PKT_BYTES <? len - off then NVKVM_BROKER_CLIP_PKT_BYTES else len - off in
      let info := if off + n =? len then Z.lor n NVKVM_BROKER_CLIP_LAST else n in
      let p := clip_pkt (flags s) (seq s) info (take (Z.to_nat n) (drop (Z.to_nat off) text)) in
      let s := St (client_fd s) (client_generation s) (u32 (seq s + 1)) (wn s) (kb s) (chd s) (td s) (cmd s)
                 (push (ring s) p) (se s) (emitted s ++ [p]) (sent s) (wire s) (closed s) in
      if off + n <? len then queue_chunks f s text (off + n) else s
  end.

Definition clip_count (len : Z) : Z :=
  if len =? 0 then 1 else (len + NVKVM_BROKER_CLIP_PKT_BYTES - 1) / NVKVM_BROKER_CLIP_PKT_BYTES.

Definition nb_sink_send_clipboard (s : st) (generation : Z) (text : list Z) : st * bool :=
  let len := arr_len text in
  if (client_fd s <? 0) || negb (generation =? client_generation s)
     || negb (generation =? held_generation (chd s)) || (held_key (chd s) =? 0) then (s, false)
  else if NVKVM_BROKER_CLIP_MAX_BYTES <? len then (s, false)
  else
    let chunks := clip_count len in
    if NB_TXRING <=? nb_tx_used (ring s) + chunks + replay_reserve then (s, false)
    else (queue_chunks (Z.to_nat chunks) s text 0, true).

(** ** The main loop's use of a connection *)
Definition accept_client (s : st) (fd : Z) (rs : list Z) : st :=
  if 0 <=? client_fd s then close_fd s fd
  else
    let '(s, r) := nb_sink_attach s fd rs in
    if negb (r =? 0) then close_fd s fd else s.

Definition flush_client (s : st) (ans : list answer) : st :=
  let '(s, r) := nb_sink_flush ans s in if r <? 0 then nb_sink_detach s else s.

(** The effect of the client's CAPS command; [BrokerCmd] has the command itself. *)
Definition note_caps (s : st) (wd : Z) : st :=
  let c := cmd s in
  set_cm s (Cmds (rx c) (rxfd c) (window_established c) (rate_ms c) (rate_count c) (rej_log_ms c) (rej_log_count c)
    (rej_log_hidden c) (clip_in c) (clip_in_chunks c) (clip_in_next_chunk c) (clip_in_active c) (clip_in_bad c)
    (clip_rate_ms c) (clip_rate_count c) wd (n_attach c) (n_commit c) (n_reject c)).

Inductive event :=
| Key (code : Z) (down : bool) | Btn (code : Z) (down : bool)
| Abs (x y wd ht : Z) | Rel (dx dy : Z) | Wheel (v h : Z)
| Focus (active : bool) | Pointer (inside : bool) | Surface (wd ht mhz : Z)
| Frame | Release (buf_id : Z) | Verdict (fourcc md : Z) (ok : bool)
| ForceUngrab | SetFullscreen (on : bool)
| ClipFinish (gen : Z) (paste : bool) | SendClip (gen : Z) (text : list Z)
| Flush (ans : list answer) | CloseRequest (ans : list answer) (action : Z) | Bye (ans : list answer) (reason : Z)
| Accept (fd : Z) (rs : list Z) | Detach | Caps (wd : Z).

Definition step (s : st) (e : event) : st :=
  match e with
  | Key c d => nb_sink_key s c d
  | Btn c d => nb_sink_btn s c d
  | Abs x y wd ht => nb_sink_abs s x y wd ht
  | Rel dx dy => nb_sink_rel s dx dy
  | Wheel v h => nb_sink_wheel s v h
  | Focus b => nb_sink_focus s b
  | Pointer b => nb_sink_pointer s b
  | Surface wd ht m => nb_sink_surface s wd ht m
  | Frame => nb_sink_frame s
  | Release i => nb_sink_release s i
  | Verdict f m b => nb_sink_format_verdict s f m b
  | ForceUngrab => nb_sink_force_ungrab s
  | SetFullscreen b => nb_sink_set_fullscreen s b
  | ClipFinish g b => nb_sink_clip_finish s g b
  | SendClip g t => fst (nb_sink_send_clipboard s g t)
  | Flush ans => flush_client s ans
  | CloseRequest ans a => fst (nb_sink_close_request s ans a)
  | Bye ans r => nb_sink_bye s ans r
  | Accept fd rs => accept_client s fd rs
  | Detach => nb_sink_detach s
  | Caps wd => note_caps s wd
  end.

Definition nb_sink_init (sn : sess) : st :=
  St (-1) 0 0 (Win false false false false) kbd0 chord0 told0 cmds0
    (RingC (replicate (Z.to_nat NB_TXRING) inhabitant) 0 0 0) sn [] [] [] [].

Definition run (s : st) (tr : list event) : st := fold_left step tr s.

End Ops.

(** ** Bit maps *)
Definition bits_wf (m : list Z) : Prop := arr_len m = 96 /\ Forall (fun b => 0 <= b < 256) m.

Lemma land_pow2_test x j : 0 <= j -> negb ((x & Z.shiftl 1 j) =? 0) = Z.testbit x j.
Proof.
  intros Hj. rewrite Z.shiftl_1_l. destruct (Z.testbit x j) eqn:E.
  - apply negb_true_iff, Z.eqb_neq. intros H. assert (Z.testbit (x & 2 ^ j) j = false) as Ht by by rewrite H, Z.bits_0.
    rewrite Z.land_spec, E, Z.pow2_bits_true in Ht by done. done.
  - apply negb_false_iff, Z.eqb_eq. apply Z.bits_inj'. intros n Hn. rewrite Z.land_spec, Z.bits_0, Z.pow2_bits_eqb by done.
    destruct (Z.eqb_spec j n) as [->|]; [by rewrite E|apply andb_false_r].
Qed.

Lemma idx_range b : 0 <= b < 768 -> 0 <= Z.shiftr b 3 < 96 /\ 0 <= (b & 7) < 8.
Proof.
  intros. rewrite Z.shiftr_div_pow2 by lia. change 7 with (2 ^ 3 - 1). rewrite land_low by lia.
  change (2 ^ 3) with 8. mlia.
Qed.

Lemma idx_inj b c : 0 <= b < 768 -> 0 <= c < 768 ->
  Z.shiftr b 3 = Z.shiftr c 3 -> (b & 7) = (c & 7) -> b = c.
Proof.
  intros Hb Hc. rewrite !Z.shiftr_div_pow2 by lia. change 7 with (2 ^ 3 - 1). rewrite !land_low by lia.
  change (2 ^ 3) with 8. intros. Z.div_mod_to_equations; lia.
Qed.

Lemma bit_get_test m b : 0 <= b < 768 -> bit_get m b = Z.testbit (arr_get m (Z.shiftr b 3)) (b & 7).
Proof.
  intros Hb. destruct (idx_range b Hb). unfold bit_get. rewrite (proj2 (Z.ltb_lt _ _)) by lia.
  simpl. apply land_pow2_test. lia.
Qed.

Lemma byte_set x j (v : bool) i :
  0 <= j -> 0 <= i < 8 ->
  Z.testbit (if v then u8 (Z.lor x (Z.shiftl 1 j)) else x & u8 (Z.lnot (Z.shiftl 1 j))) i
  = if j =? i then v else Z.testbit x i.
Proof.
  intros Hj Hi. unfold u8. rewrite Z.shiftl_1_l. change W8 with (2 ^ 8).
  destruct v; rewrite ?Z.land_spec, Z.mod_pow2_bits_low, ?Z.lor_spec, ?Z.lnot_spec, Z.pow2_bits_eqb by lia;
    destruct (j =? i); rewrite ?orb_true_r, ?orb_false_r, ?andb_false_r, ?andb_true_r; done.
Qed.

Lemma byte_set_range x j (v : bool) :
  0 <= x < 256 ->
  0 <= (if v then u8 (Z.lor x (Z.shiftl 1 j)) else x & u8 (Z.lnot (Z.shiftl 1 j))) < 256.
Proof.
  intros Hx. destruct v; [unfold u8; apply Z.mod_pos_bound; lia|].
  assert (0 <= u8 (Z.lnot (Z.shiftl 1 j)) < 256) as Hu by (unfold u8; apply Z.mod_pos_bound; lia).
  assert (0 <= (x & u8 (Z.lnot (Z.shiftl 1 j)))) by (apply Z.land_nonneg; lia).
  split; [done|]. apply (Z.bounded_iff_bits_nonneg 8); [lia|done|]. intros l Hl.
  rewrite Z.land_spec. apply andb_false_iff. left.
  by apply (proj1 (Z.bounded_iff_bits_nonneg 8 x ltac:(lia) ltac:(lia)) ltac:(change (2 ^ 8) with 256; lia)).
Qed.

Lemma bit_set_wf m b v : 0 <= b -> bits_wf m -> bits_wf (bit_set m b v).
Proof.
  intros Hb [Hl Hf]. unfold bit_set. destruct (Z.leb_spec 768 b); [by split|].
  destruct (idx_range b ltac:(lia)) as [Hi Hj].
  assert (0 <= arr_get m (Z.shiftr b 3) < 256) as Hx.
  { apply (Forall_lookup_1 _ _ _ _ Hf (arr_get_lookup m (Z.shiftr b 3) ltac:(lia))). }
  pose proof (byte_set_range (arr_get m (Z.shiftr b 3)) (b & 7) v Hx) as Hr.
  destruct v; (split; [by rewrite arr_len_set|by apply Forall_insert]).
Qed.

Lemma bit_get_set m b c v :
  bits_wf m -> 0 <= b < 768 -> 0 <= c < 768 ->
  bit_get (bit_set m b v) c = if b =? c then v else bit_get m c.
Proof.
  intros [Hl _] Hb Hc. destruct (idx_range b Hb) as [Hi Hj]. destruct (idx_range c Hc) as [Hi' Hj'].
  rewrite !bit_get_test by done. unfold bit_set. rewrite (proj2 (Z.leb_gt 768 b)) by lia.
  set (x := arr_get m (Z.shiftr b 3)).
  assert ((if v then arr_set m (Z.shiftr b 3) (u8 (Z.lor x (Z.shiftl 1 (b & 7))))
           else arr_set m (Z.shiftr b 3) (x & u8 (Z.lnot (Z.shiftl 1 (b & 7)))))
          = arr_set m (Z.shiftr b 3) (if v then u8 (Z.lor x (Z.shiftl 1 (b & 7)))
                                      else x & u8 (Z.lnot (Z.shiftl 1 (b & 7))))) as -> by by destruct v.
  rewrite arr_get_set by lia. destruct (Z.eqb_spec (Z.shiftr b 3) (Z.shiftr c 3)) as [E|E].
  - rewrite byte_set by lia. destruct (Z.eqb_spec (b & 7) (c & 7)) as [E'|E'].
    + rewrite (proj2 (Z.eqb_eq b c)); [done|by apply idx_inj].
    + rewrite (proj2 (Z.eqb_neq b c)) by congruence. subst x. by rewrite E.
  - by rewrite (proj2 (Z.eqb_neq b c)) by congruence.
Qed.

Lemma bits0_wf : bits_wf bits0.
Proof. split; [done|]. apply Forall_replicate. lia. Qed.

Lemma bits0_get c : 0 <= c < 768 -> bit_get bits0 c = false.
Proof.
  intros Hc. rewrite bit_get_test by done. destruct (idx_range c Hc).
  unfold bits0. rewrite arr_get_replicate by lia. apply Z.bits_0.
Qed.

(** ** What a connection has been told *)
Definition kind (c : Z) : Z := if (BTN_MISC <=? c) && (c <? KEY_OK) then EV_BTN else EV_KEY.

Definition is_edge (p : pkt) : bool := (ptype p =? EV_KEY) || (ptype p =? EV_BTN).

(** Is [c] down for a client that has read [l]? *)
Definition down (l : list pkt) (c : Z) : bool :=
  fold_left (fun d p => if is_edge p && (px p =? c) then negb (py p =? 0) else d) l false.

Definition F_GRABBED (p : pkt) : bool := Z.testbit (pflags p) 0.
Definition F_FOCUSED (p : pkt) : bool := Z.testbit (pflags p) 1.

(** Input reaches a client only from an active window; relative motion only
    under the grab, absolute motion never.  A key is a key, a button a button. *)
Definition pkt_ok (p : pkt) : Prop :=
  (is_edge p = true -> ptype p = kind (px p) /\ (py p <> 0 -> F_FOCUSED p = true)) /\
  (ptype p = EV_ABS -> F_FOCUSED p = true /\ F_GRABBED p = false) /\
  (ptype p = EV_REL -> F_FOCUSED p = true /\ F_GRABBED p = true) /\
  (ptype p = EV_WHEEL -> F_FOCUSED p = true).

Lemma down_snoc l p c :
  down (l ++ [p]) c = if is_edge p && (px p =? c) then negb (py p =? 0) else down l c.
Proof. unfold down. by rewrite fold_left_app. Qed.

Lemma flags_bits s : Z.testbit (flags s) 0 = grabbed (wn s) /\ Z.testbit (flags s) 1 = focused (wn s).
Proof. unfold flags. destruct (grabbed (wn s)), (focused (wn s)), (fullscreen (wn s)); done. Qed.

(** ** The queue invariant *)
Record base (s : st) : Prop := {
  b_ring : wf (ring s);
  b_others : others (sent s ++ contents (ring s)) = others (emitted s);
  b_wire : wire s = stream (sent s) ++ begun (ring s);
  b_seq : pseq <$> emitted s = u32 <$> seqZ 0 (arr_len (emitted s));
  b_next : seq s = u32 (arr_len (emitted s));
  b_idle : client_fd s < 0 -> emitted s = [] /\ contents (ring s) = []
}.

Lemma reset_ring_wf r : wf r -> wf (RingC (tx r) 0 0 0) /\ contents (RingC (tx r) 0 0 0) = [].
Proof.
  intros [Hl Hh Ht Hp Hs].
  assert (wf (RingC (tx r) 0 0 0)) as Hw
    by (constructor; cbn [tx head tail partial]; unfold NB_TXRING, NVKVM_BROKER_PKT_SIZE in *; done).
  split; [done|]. by apply contents_nil.
Qed.

Lemma base_fresh s : wf (ring s) -> base (nb_client_state_reset s).
Proof.
  intros Hw. destruct (reset_ring_wf (ring s) Hw) as [Hw' Hc].
  unfold nb_client_state_reset. destruct (0 <=? rxfd (cmd s));
  (constructor; cbn [close_fd set_closed client_fd seq ring emitted sent wire]; try done).
Qed.

Lemma base_detach dsp s : base s -> base (nb_sink_detach dsp s).
Proof.
  intros Hb. unfold nb_sink_detach. case_if; [done|]. apply base_fresh.
  unfold x11_set_grab. pose proof (b_ring s Hb). repeat case_if; done.
Qed.

Lemma seqZ_snoc n : 0 <= n -> seqZ 0 (n + 1) = seqZ 0 n ++ [n].
Proof. intros. rewrite seqZ_app by lia. done. Qed.

Lemma push_begun r p : wf r -> nb_tx_used r < NB_TXRING - 1 -> begun (push r p) = begun r.
Proof.
  intros Hw Hu. destruct (contents_push r p Hw Hu) as (_ & _ & Hc). unfold begun. rewrite Hc.
  cbn [push partial]. destruct (contents r) as [|q l] eqn:E; [|done].
  assert (partial r = 0) as ->; [|done].
  apply contents_nil in E; [|done]. destruct Hw as [_ _ _ _ Hs].
  destruct (Z.eq_dec (partial r) 0) as [|Hn]; [done|]. by destruct (Hs Hn).
Qed.

Definition pkt_of (s : st) (ty x y w0 w1 : Z) : pkt := Pkt (u16 ty) (flags s) (seq s) x y w0 w1.

Definition emit_to (s : st) (r : Tx.ring) (p : pkt) : st :=
  St (client_fd s) (client_generation s) (u32 (seq s + 1)) (wn s) (kb s) (chd s) (td s) (cmd s)
    r (se s) (emitted s ++ [p]) (sent s) (wire s) (closed s).

(** Emitting adds the packet to the queue, or hangs up. *)
Lemma emit_cases dsp s ty x y w0 w1 :
  wf (ring s) -> 0 <= client_fd s ->
  (exists r, wf r /\ begun r = begun (ring s) /\
     others (contents r) = others (contents (ring s) ++ [pkt_of s ty x y w0 w1]) /\
     nb_tx_used r <= nb_tx_used (ring s) + 1 /\
     nb_emit dsp s ty x y w0 w1 = emit_to s r (pkt_of s ty x y w0 w1)) \/
  (nb_tx_used (ring s) = NB_TXRING - 1 /\
   exists r, wf r /\ nb_emit dsp s ty x y w0 w1 = nb_sink_detach dsp (set_ring s r)).
Proof.
  intros Hw Hc. unfold nb_emit. rewrite (proj2 (Z.ltb_ge _ _)) by done.
  assert (exists r, wf r /\ begun r = begun (ring s) /\ others (contents r) = others (contents (ring s)) /\
    nb_tx_used r <= nb_tx_used (ring s) /\
    (if NB_TXRING / 4 <? nb_tx_used (ring s)
     then match nb_tx_coalesce (ring s) with Some r => set_ring s r | None => s end else s) = set_ring s r)
    as (r & Hwr & Hb & Ho & Hu & ->).
  { case_if; [|exists (ring s); by destruct s].
    destruct (coalesce_contents _ Hw) as (r & E1 & Hw' & _ & Hcs). rewrite E1. exists r.
    split; [done|]. split; [by apply coalesce_begun|].
    destruct (co_list_inv (negb (partial (ring s) =? 0)) (contents (ring s))) as (c & Ec & Hi).
    split; [rewrite Hcs, Ec; apply Hi|]. split; [|done].
    pose proof (co_list_length (negb (partial (ring s) =? 0)) (contents (ring s))) as Hl.
    rewrite <- Hcs, !contents_length in Hl. pose proof (used_range r). pose proof (used_range (ring s)). lia. }
  cbn [set_ring ring]. destruct (Z.eqb_spec (next (head r)) (tail r)) as [E|E]; [right|left].
  - split; [|by exists r]. pose proof Hwr as [_ Hh Ht _ _]. pose proof (used_range (ring s)).
    rewrite next_eq in E by done. unfold nb_tx_used, NB_TXRING in *. Z.div_mod_to_equations; lia.
  - assert (nb_tx_used r < NB_TXRING - 1) as Hu'.
    { pose proof Hwr as [_ Hh Ht _ _]. rewrite next_eq in E by done.
      unfold nb_tx_used, NB_TXRING in *. Z.div_mod_to_equations; lia. }
    destruct (contents_push r (pkt_of s ty x y w0 w1) Hwr Hu') as (Hwp & Hup & Hcp).
    exists (push r (pkt_of s ty x y w0 w1)). split; [done|].
    split; [by rewrite push_begun|]. split; [rewrite Hcp, !others_app; congruence|]. split; [lia|]. done.
Qed.

Lemma base_emit_to s r p :
  base s -> 0 <= client_fd s -> pseq p = seq s -> wf r -> begun r = begun (ring s) ->
  others (contents r) = others (contents (ring s) ++ [p]) -> base (emit_to s r p).
Proof.
  intros [Hw Ho Hwi Hs Hn Hi] Hc Hp Hwr Hb Hor.
  assert (arr_len (emitted s ++ [p]) = arr_len (emitted s) + 1) as Hl
    by (unfold arr_len; rewrite length_app; simpl; lia).
  constructor; cbn [emit_to client_fd seq ring emitted sent wire]; try done; [..|lia].
  - by rewrite others_app, Hor, others_app, app_assoc, <- others_app, Ho, <- others_app.
  - by rewrite Hb.
  - rewrite Hl, seqZ_snoc by (unfold arr_len; lia). rewrite !fmap_app, Hs. simpl. by rewrite Hp, Hn.
  - rewrite Hl, Hn. unfold u32. by rewrite Zplus_mod_idemp_l.
Qed.

Lemma detach_ring_wf dsp s r : wf r -> 0 <= client_fd s -> base (nb_sink_detach dsp (set_ring s r)).
Proof.
  intros Hw Hc. unfold nb_sink_detach. cbn [set_ring client_fd]. rewrite (proj2 (Z.ltb_ge _ _)) by done.
  apply base_fresh. unfold x11_set_grab. repeat case_if; done.
Qed.

Lemma base_emit dsp s ty x y w0 w1 : base s -> base (nb_emit dsp s ty x y w0 w1).
Proof.
  intros Hb. destruct (Z.lt_ge_cases (client_fd s) 0) as [Hc|Hc].
  { unfold nb_emit. by rewrite (proj2 (Z.ltb_lt _ _)). }
  destruct (emit_cases dsp s ty x y w0 w1 (b_ring s Hb) Hc) as [(r & Hw & Hbg & Ho & _ & ->)|(_ & r & Hw & ->)].
  - by apply base_emit_to.
  - by apply detach_ring_wf.
Qed.

Lemma base_set_w s x : base s -> base (set_w s x).
Proof. intros []. by constructor. Qed.
Lemma base_set_k s x : base s -> base (set_k s x).
Proof. intros []. by constructor. Qed.
Lemma base_set_ch s x : base s -> base (set_ch s x).
Proof. intros []. by constructor. Qed.
Lemma base_set_tl s x : base s -> base (set_tl s x).
Proof. intros []. by constructor. Qed.
Lemma base_set_cm s x : base s -> base (set_cm s x).
Proof. intros []. by constructor. Qed.
Lemma base_set_ss s x : base s -> base (set_ss s x).
Proof. intros []. by constructor. Qed.
Lemma base_close s x : base s -> base (close_fd s x).
Proof. intros []. by constructor. Qed.
Create HintDb sink.
#[local] Hint Resolve base_emit base_detach base_set_w base_set_k base_set_ch base_set_tl base_set_cm
  base_set_ss base_close : sink.
Lemma base_set_focused s b : base s -> base (set_focused s b).
Proof. apply base_set_w. Qed.
Lemma base_set_pointer s b : base s -> base (set_pointer s b).
Proof. apply base_set_w. Qed.
Lemma base_set_grabbed s b : base s -> base (set_grabbed s b).
Proof. apply base_set_w. Qed.
Lemma base_set_fs s b : base s -> base (set_fs s b).
Proof. apply base_set_w. Qed.
Lemma base_set_keys s m : base s -> base (set_keys s m).
Proof. apply base_set_k. Qed.
Lemma base_set_consumed s m : base s -> base (set_consumed s m).
Proof. apply base_set_k. Qed.
Lemma base_set_mods s c a h : base s -> base (set_mods s c a h).
Proof. apply base_set_k. Qed.
#[local] Hint Resolve base_set_focused base_set_pointer base_set_grabbed base_set_fs base_set_keys
  base_set_consumed base_set_mods : sink.

Lemma base_x11 dsp s on : base s -> base (fst (x11_set_grab dsp s on)).
Proof. intros. unfold x11_set_grab. repeat case_if; cbn [fst]; auto with sink. Qed.
#[local] Hint Resolve base_x11 : sink.

Lemma base_release_all dsp s : base s -> base (nb_release_all dsp s).
Proof.
  intros Hb. unfold nb_release_all, set_mods. apply base_set_k. apply fold_left_inv; [done|].
  intros a c Ha. unfold release_one. case_if; auto with sink.
Qed.
#[local] Hint Resolve base_release_all : sink.

Lemma base_set_grab dsp s on : base s -> base (nb_set_grab dsp s on).
Proof.
  intros Hb. unfold nb_set_grab. case_if; [done|]. case_if; [done|].
  pose proof (base_x11 dsp s on Hb) as Hx. destruct (x11_set_grab dsp s on) as [s1 r]. cbn [fst] in Hx.
  case_if; [done|]. unfold grab_settle. pose proof (base_release_all dsp s1 Hx) as Hr.
  generalize dependent (nb_release_all dsp s1). intros s2 Hr. case_if; auto 6 with sink.
Qed.
#[local] Hint Resolve base_set_grab : sink.

Lemma base_edge dsp s c d : base s -> base (nb_clip_key_edge dsp s c d).
Proof. intros. unfold nb_clip_key_edge. auto with sink. Qed.
#[local] Hint Resolve base_edge : sink.

Lemma base_clip_finish dsp s g p : base s -> base (nb_sink_clip_finish dsp s g p).
Proof.
  intros Hb. unfold nb_sink_clip_finish. case_if; [done|]. case_if; [auto with sink|]. case_if; [auto with sink|].
  cbv zeta. repeat case_if; auto 10 with sink.
Qed.
#[local] Hint Resolve base_clip_finish : sink.

Lemma base_paste cfg dsp s : base s -> base (nb_sink_paste_trigger cfg dsp s).
Proof.
  intros Hb. unfold nb_sink_paste_trigger. repeat case_if; auto with sink.
  destruct (fetch_clipboard dsp); [|auto with sink]. repeat case_if; auto with sink.
Qed.
#[local] Hint Resolve base_paste : sink.

Lemma base_key cfg dsp s c d : base s -> base (nb_sink_key cfg dsp s c d).
Proof.
  intros Hb. unfold nb_sink_key. case_if; [done|]. cbv zeta.
  match goal with |- context [set_mods s ?x ?y ?z] => set (s1 := set_mods s x y z) end.
  assert (base s1) as H1 by (subst s1; auto with sink). clearbody s1.
  case_if; [repeat case_if; auto 8 with sink|].
  destruct (if d && focused (wn s1) then nb_clip_trigger cfg s1 c else None);
    repeat case_if; auto 8 with sink.
Qed.

Lemma base_focus dsp s b : base s -> base (nb_sink_focus dsp s b).
Proof. intros Hb. unfold nb_sink_focus. repeat case_if; auto 10 with sink. Qed.

Lemma base_flush ans s : base s -> base (fst (nb_sink_flush ans s)).
Proof.
  intros Hb. unfold nb_sink_flush. case_if; [done|]. pose proof (flush_spec ans (ring s) (b_ring s Hb)) as Hf.
  destruct (flush ans (ring s)) as [[r bs] e]. destruct Hf as (Hw & d & Hd & Hs). cbn [fst].
  rewrite Hd, length_app, Nat.add_sub, take_app_length. destruct Hb as [Hwr Ho Hwi Hsq Hn Hi].
  constructor; cbn [client_fd seq ring emitted sent wire]; try done.
  - by rewrite <- app_assoc, <- Hd.
  - rewrite Hwi, <- app_assoc, Hs. unfold stream. by rewrite fmap_app, concat_app, app_assoc.
  - zb. lia.
Qed.
#[local] Hint Resolve base_flush : sink.

Lemma base_handshakes s l rs : base s -> contents (ring s) = [] -> 0 <= client_fd s ->
  base (fst (handshakes s l rs)) \/ (snd (handshakes s l rs) <> 0 /\ wf (ring (fst (handshakes s l rs)))).
Proof.
  revert s rs. induction l as [|[[[[ty x] y] w0] w1] l IH]; intros s rs Hb Hc Hf; cbn [handshakes]; [by left|].
  unfold handshake. destruct (Z.eqb_spec (hd 0 rs) 0) as [E|E].
  - cbn [Z.eqb]. apply IH; [|done|done].
    assert (arr_len (emitted s ++ [Pkt (u16 ty) (flags s) (seq s) x y w0 w1]) = arr_len (emitted s) + 1) as Hl
      by (unfold arr_len; rewrite length_app; simpl; lia).
    assert (begun (ring s) = []) as Hbe by (unfold begun; rewrite Hc; apply take_nil).
    destruct Hb as [Hwr Ho Hwi Hsq Hn Hi].
    constructor; cbn [client_fd seq ring emitted sent wire]; try done; [..|lia].
    + rewrite Hc, app_nil_r in *. by rewrite !others_app, Ho.
    + rewrite Hwi, Hbe. unfold stream. rewrite fmap_app, concat_app. simpl. by rewrite !app_nil_r.
    + rewrite Hl, seqZ_snoc by (unfold arr_len; lia). rewrite !fmap_app, Hsq. simpl. by rewrite Hn.
    + rewrite Hl, Hn. unfold u32. by rewrite Zplus_mod_idemp_l.
  - right. rewrite (proj2 (Z.eqb_neq _ _)) by done. cbn [fst snd ring]. split; [done|apply Hb].
Qed.

Lemma reset_fd s : client_fd (nb_client_state_reset s) = client_fd s.
Proof. unfold nb_client_state_reset. by case_if. Qed.

Lemma reset_empty s : wf (ring s) -> contents (ring (nb_client_state_reset s)) = [].
Proof. intros. unfold nb_client_state_reset. case_if; by apply reset_ring_wf. Qed.

Lemma x11_ring dsp s on : ring (fst (x11_set_grab dsp s on)) = ring s.
Proof. unfold x11_set_grab. by repeat case_if. Qed.

Lemma base_reconnect s fd gen : base s -> contents (ring s) = [] -> emitted s = [] -> base (set_conn s fd gen).
Proof. intros [Hw Ho Hwi Hs Hn Hi] Hc He. constructor; cbn [set_conn client_fd seq ring emitted sent wire]; done. Qed.

Lemma greeted_spec dsp s fd :
  wf (ring s) -> let g := greeted dsp s fd in
  base g /\ contents (ring g) = [] /\ emitted g = [] /\ kb g = kbd0 /\ client_fd g = fd.
Proof.
  intros Hw. unfold greeted. cbv zeta.
  set (s1 := set_conn (nb_client_state_reset s) _ (u64 _)).
  assert (base s1 /\ contents (ring s1) = [] /\ emitted s1 = [] /\ kb s1 = kbd0) as (Hb & Hc & He & Hk).
  { subst s1. pose proof (base_fresh s Hw). pose proof (reset_empty s Hw).
    assert (emitted (nb_client_state_reset s) = [] /\ kb (nb_client_state_reset s) = kbd0) as [He Hk]
      by (unfold nb_client_state_reset; by case_if).
    split; [by apply base_reconnect|done]. }
  clearbody s1. case_if; [|split; [by apply base_reconnect|done]].
  assert (emitted (fst (x11_set_grab dsp s1 false)) = [] /\ kb (fst (x11_set_grab dsp s1 false)) = kbd0) as [He' Hk']
    by (unfold x11_set_grab; by repeat case_if).
  split; [|cbn [set_conn set_grabbed set_w ring emitted kb client_fd]; by rewrite x11_ring].
  apply base_reconnect; [by apply base_set_grabbed, base_x11|cbn; by rewrite x11_ring|done].
Qed.

Lemma base_attach dsp s fd rs : base s -> 0 <= fd -> base (fst (nb_sink_attach dsp s fd rs)).
Proof.
  intros Hb Hfd. unfold nb_sink_attach. cbv zeta.
  destruct (greeted_spec dsp s fd (b_ring s Hb)) as (Hg & Hc & He & _ & Hf).
  set (l := (EV_HELLO, _, _, _, _) :: _). clearbody l.
  destruct (base_handshakes (greeted dsp s fd) l rs Hg Hc ltac:(lia)) as [Hh|[Hr Hw]];
    destruct (handshakes (greeted dsp s fd) l rs) as [s' r]; cbn [fst snd] in *.
  - case_if; [|done]. apply base_fresh. apply Hh.
  - rewrite (proj2 (Z.eqb_neq _ _)) by done. cbn [negb fst]. by apply base_fresh.
Qed.

(** ** Queueing the clipboard *)
Fixpoint chunk_pkts (fuel : nat) (fl sq : Z) (text : list Z) (off : Z) : list pkt :=
  match fuel with
  | O => []
  | S f =>
      let len := arr_len text in
      let n := if NVKVM_BROKER_CLIP_PKT_BYTES <? len - off then NVKVM_BROKER_CLIP_PKT_BYTES else len - off in
      let info := if off + n =? len then Z.lor n NVKVM_BROKER_CLIP_LAST else n in
      clip_pkt fl sq info (take (Z.to_nat n) (drop (Z.to_nat off) text))
      :: (if off + n <? len then chunk_pkts f fl (u32 (sq + 1)) text (off + n) else [])
  end.

Definition queue_all (s : st) (ps : list pkt) : st :=
  fold_left (fun s p => emit_to s (push (ring s) p) p) ps s.

Lemma queue_chunks_all fuel s text off :
  queue_chunks fuel s text off = queue_all s (chunk_pkts fuel (flags s) (seq s) text off).
Proof.
  revert s off. induction fuel as [|f IH]; intros s off; [done|]. cbn [queue_chunks chunk_pkts queue_all fold_left].
  case_if; [|done]. rewrite IH. done.
Qed.

(** Consecutive sequence numbers from [sq]. *)
Fixpoint numbered (sq : Z) (ps : list pkt) : Prop :=
  match ps with [] => True | p :: r => pseq p = sq /\ numbered (u32 (sq + 1)) r end.

Lemma chunk_pkts_numbered fuel fl sq text off : numbered sq (chunk_pkts fuel fl sq text off).
Proof.
  revert sq off. induction fuel as [|f IH]; intros sq off; cbn [chunk_pkts numbered]; [done|].
  split; [done|]. case_if; [apply IH|done].
Qed.

Lemma chunk_pkts_type fuel fl sq text off : Forall (fun p => ptype p = EV_CLIPBOARD) (chunk_pkts fuel fl sq text off).
Proof.
  revert sq off. induction fuel as [|f IH]; intros sq off; cbn [chunk_pkts]; constructor; [done|].
  case_if; [apply IH|constructor].
Qed.

Lemma chunk_pkts_length fuel fl sq text off : (length (chunk_pkts fuel fl sq text off) <= fuel)%nat.
Proof.
  revert sq off. induction fuel as [|f IH]; intros sq off; cbn [chunk_pkts]; [done|]. simpl.
  case_if; [|simpl; lia]. specialize (IH (u32 (sq + 1))). 
  match goal with |- context [chunk_pkts f fl (u32 (sq + 1)) text ?o] => specialize (IH o) end. lia.
Qed.

Lemma queue_all_spec s ps :
  base s -> 0 <= client_fd s -> numbered (seq s) ps ->
  nb_tx_used (ring s) + arr_len ps < NB_TXRING ->
  let s' := queue_all s ps in
  base s' /\ emitted s' = emitted s ++ ps /\ contents (ring s') = contents (ring s) ++ ps /\
  nb_tx_used (ring s') = nb_tx_used (ring s) + arr_len ps /\
  client_fd s' = client_fd s /\ client_generation s' = client_generation s /\ wn s' = wn s /\ kb s' = kb s /\
  chd s' = chd s /\ td s' = td s /\ cmd s' = cmd s /\ se s' = se s /\ closed s' = closed s.
Proof.
  revert s. induction ps as [|p ps IH]; intros s Hb Hf Hn Hu; cbn zeta.
  { unfold queue_all. simpl. rewrite !app_nil_r. change (arr_len []) with 0. rewrite Z.add_0_r.
    repeat (split; [done|]). done. }
  destruct Hn as [Hp Hn]. assert (arr_len (p :: ps) = 1 + arr_len ps) as Hl by (unfold arr_len; simpl; lia).
  assert (0 <= arr_len ps) by (unfold arr_len; lia).
  destruct (contents_push (ring s) p (b_ring s Hb) ltac:(lia)) as (Hw & Hu1 & Hc1).
  change (queue_all s (p :: ps)) with (queue_all (emit_to s (push (ring s) p) p) ps).
  set (s1 := emit_to s (push (ring s) p) p).
  assert (base s1) as Hb1.
  { apply base_emit_to; try done; [apply push_begun; [apply Hb|lia]|by rewrite Hc1]. }
  destruct (IH s1 Hb1 Hf Hn) as (H1 & H2 & H3 & H4 & H5); [subst s1; cbn [emit_to ring]; lia|].
  subst s1. cbn [emit_to ring emitted client_fd client_generation wn kb chd td cmd se closed] in *.
  split; [done|]. split; [rewrite H2, <- app_assoc; done|]. split; [rewrite H3, Hc1, <- app_assoc; done|].
  split; [lia|]. done.
Qed.

Lemma send_cases s g text :
  base s ->
  nb_sink_send_clipboard s g text = (s, false) \/
  exists ps, nb_sink_send_clipboard s g text = (queue_all s ps, true) /\
    ps = chunk_pkts (Z.to_nat (clip_count (arr_len text))) (flags s) (seq s) text 0 /\
    0 <= client_fd s /\ arr_len text <= NVKVM_BROKER_CLIP_MAX_BYTES /\
    g = client_generation s /\ g = held_generation (chd s) /\ held_key (chd s) <> 0 /\
    nb_tx_used (ring s) + arr_len ps + replay_reserve < NB_TXRING.
Proof.
  intros Hb. unfold nb_sink_send_clipboard.
  destruct (Z.ltb_spec (client_fd s) 0); [by left|]. destruct (Z.eqb_spec g (client_generation s)); [|by left].
  destruct (Z.eqb_spec g (held_generation (chd s))); [|by left].
  destruct (Z.eqb_spec (held_key (chd s)) 0); [by left|]. cbn [negb orb].
  destruct (Z.ltb_spec NVKVM_BROKER_CLIP_MAX_BYTES (arr_len text)); [by left|].
  destruct (Z.leb_spec NB_TXRING (nb_tx_used (ring s) + clip_count (arr_len text) + replay_reserve)); [by left|].
  right. eexists. split; [by rewrite queue_chunks_all|]. do 6 (split; [done|]).
  pose proof (chunk_pkts_length (Z.to_nat (clip_count (arr_len text))) (flags s) (seq s) text 0) as Hl.
  assert (0 <= clip_count (arr_len text)).
  { unfold clip_count, NVKVM_BROKER_CLIP_PKT_BYTES. case_if; [lia|]. apply Z.div_pos; unfold arr_len; lia. }
  unfold arr_len at 1. lia.
Qed.

Lemma base_send s g text : base s -> base (fst (nb_sink_send_clipboard s g text)).
Proof.
  intros Hb. destruct (send_cases s g text Hb) as [->|(ps & -> & -> & Hf & _ & _ & _ & _ & Hu)]; [done|].
  cbn [fst]. apply queue_all_spec; [done|done|apply chunk_pkts_numbered|unfold replay_reserve in Hu; lia].
Qed.

Definition ev_ok (e : event) : Prop :=
  match e with
  | Key c _ => 0 <= c /\ kind c = EV_KEY
  | Btn c _ => 0 <= c /\ kind c = EV_BTN
  | Accept fd _ => 0 <= fd
  | _ => True
  end.

Lemma base_step cfg dsp s e : ev_ok e -> base s -> base (step cfg dsp s e).
Proof.
  intros He Hb. destruct e; cbn [step].
  - by apply base_key.
  - unfold nb_sink_btn. repeat case_if; auto with sink.
  - unfold nb_sink_abs. case_if; auto with sink.
  - unfold nb_sink_rel. repeat case_if; auto with sink.
  - unfold nb_sink_wheel. case_if; auto with sink.
  - by apply base_focus.
  - unfold nb_sink_pointer. case_if; auto with sink.
  - unfold nb_sink_surface. repeat case_if; auto with sink.
  - unfold nb_sink_frame. auto with sink.
  - unfold nb_sink_release. auto with sink.
  - unfold nb_sink_format_verdict. auto with sink.
  - unfold nb_sink_force_ungrab. case_if; auto with sink.
  - unfold nb_sink_set_fullscreen. case_if; auto with sink.
  - auto with sink.
  - by apply base_send.
  - unfold flush_client. pose proof (base_flush ans s Hb) as Hf.
    destruct (nb_sink_flush ans s) as [s' r]. cbn [fst] in Hf. case_if; auto with sink.
  - unfold nb_sink_close_request. case_if; cbn [fst]; auto with sink.
  - unfold nb_sink_bye. auto with sink.
  - unfold accept_client. case_if; [auto with sink|].
    pose proof (base_attach dsp s fd rs Hb He) as Ha. destruct (nb_sink_attach dsp s fd rs) as [s' r].
    cbn [fst] in Ha. case_if; auto with sink.
  - auto with sink.
  - by apply base_set_cm.
Qed.

(** ** The grab *)
Record keep (s s' : st) : Prop := {
  kp_caps : caps (se s') = caps (se s);
  kp_focus : focused (wn s') = focused (wn s);
  kp_grab : (client_fd s' = client_fd s /\ grabbed (wn s') = grabbed (wn s) /\ held (se s') = held (se s)) \/
            (client_fd s' < 0 /\ grabbed (wn s') = false /\
             held (se s') = if grabbed (wn s) then false else held (se s))
}.

Lemma keep_refl s : keep s s.
Proof. constructor; auto. Qed.

Lemma keep_trans s1 s2 s3 : keep s1 s2 -> keep s2 s3 -> keep s1 s3.
Proof.
  intros [H1 H2 H3] [G1 G2 G3]. constructor; [congruence..|].
  destruct H3 as [(E1 & E2 & E3)|(E1 & E2 & E3)]; [by rewrite E1, E2, E3 in G3|right].
  rewrite E2, <- E3 in *. destruct G3 as [(F1 & F2 & F3)|(F1 & F2 & F3)]; rewrite F2, F3; auto with lia.
Qed.

(** A change of other fields. *)
Lemma keep_of s s' :
  caps (se s') = caps (se s) -> focused (wn s') = focused (wn s) -> client_fd s' = client_fd s ->
  grabbed (wn s') = grabbed (wn s) -> held (se s') = held (se s) -> keep s s'.
Proof. intros. constructor; auto. Qed.

Lemma detach_spec dsp s :
  0 <= client_fd s -> let d := nb_sink_detach dsp s in
  keep s d /\ kb d = kbd0 /\ emitted d = [] /\ client_fd d = -1 /\ chd d = chord0.
Proof.
  intros Hf. unfold nb_sink_detach. rewrite (proj2 (Z.ltb_ge _ _)) by done. cbv zeta.
  unfold nb_client_state_reset, x11_set_grab.
  destruct s as [fd gen sq wi ki ci ti co ri si em sn wr cl]. destruct wi as [f p g u], si as [cp wd ht hl n].
  cbn in Hf |- *. destruct g, hl; cbn; case_if; cbn; (split; [|done]); constructor; cbn; auto with lia.
Qed.

Lemma emit_spec dsp s ty x y w0 w1 :
  let s' := nb_emit dsp s ty x y w0 w1 in
  (client_fd s < 0 /\ s' = s) \/
  (0 <= client_fd s /\ exists r, s' = emit_to s r (pkt_of s ty x y w0 w1)) \/
  (0 <= client_fd s /\ exists r, s' = nb_sink_detach dsp (set_ring s r)).
Proof.
  unfold nb_emit. destruct (Z.ltb_spec (client_fd s) 0); [by left|right].
  assert (exists r, (if NB_TXRING / 4 <? nb_tx_used (ring s)
     then match nb_tx_coalesce (ring s) with Some r => set_ring s r | None => s end else s) = set_ring s r)
    as [r ->].
  { case_if; [destruct (nb_tx_coalesce (ring s))|]; eauto; exists (ring s); by destruct s. }
  cbn [set_ring ring]. case_if; [right|left]; eauto.
Qed.

Lemma keep_emit dsp s ty x y w0 w1 : keep s (nb_emit dsp s ty x y w0 w1).
Proof.
  destruct (emit_spec dsp s ty x y w0 w1) as [[_ ->]|[(_ & r & ->)|(Hf & r & ->)]].
  - apply keep_refl.
  - by apply keep_of.
  - apply (keep_trans _ (set_ring s r)); [by apply keep_of|]. by apply detach_spec.
Qed.

Lemma keep_set_k s x : keep s (set_k s x).
Proof. by apply keep_of. Qed.

Lemma keep_set_pointer s b : keep s (set_pointer s b).
Proof. by apply keep_of. Qed.

Lemma keep_release_all dsp s : keep s (nb_release_all dsp s).
Proof.
  unfold nb_release_all. eapply keep_trans; [|apply keep_set_k].
  apply (fold_left_inv (keep s)); [apply keep_refl|]. intros a c Ha. apply (keep_trans _ _ _ Ha).
  unfold release_one. case_if; [|apply keep_refl].
  eapply keep_trans; [apply keep_set_k|apply keep_emit].
Qed.

Definition grab_ok (s : st) : Prop :=
  held (se s) = grabbed (wn s) /\
  (grabbed (wn s) = true -> 0 <= client_fd s /\ (caps (se s) & CAP_FOCUS_EVENTS) <> 0).

Lemma grab_keep s s' : keep s s' -> grab_ok s -> grab_ok s'.
Proof.
  intros [Hc _ Hk] [Hh Hg]. destruct Hk as [(E1 & E2 & E3)|(E1 & E2 & E3)]; split; rewrite ?E1, ?E2, ?E3, ?Hc; auto.
  - by rewrite Hh; destruct (grabbed (wn s)).
  - done.
Qed.

Lemma settle_ok dsp s on :
  held (se s) = on -> (on = true -> (caps (se s) & CAP_FOCUS_EVENTS) <> 0) ->
  grab_ok (grab_settle dsp s on) /\ focused (wn (grab_settle dsp s on)) = focused (wn s).
Proof.
  intros Hh Hc. unfold grab_settle. cbv zeta.
  destruct (on && (client_fd (set_grabbed s on) <? 0)) eqn:E.
  - apply andb_true_iff in E as [-> E]. unfold x11_set_grab. cbn [set_grabbed set_w se]. rewrite Hh. cbn.
    by split.
  - pose proof (keep_emit dsp (set_grabbed s on) EV_GRAB (b2z on) 0 0 0) as Ke.
    split; [|by rewrite (kp_focus _ _ Ke)]. apply (grab_keep _ _ Ke). split; [done|]. cbn. intros ->.
    split; [|by apply Hc]. cbn in E. by apply Z.ltb_ge in E.
Qed.

(** Taking or dropping the grab, whatever the display answers and whatever
    happens to the client on the way. *)
Lemma grab_set dsp s on :
  grab_ok s -> grab_ok (nb_set_grab dsp s on) /\ focused (wn (nb_set_grab dsp s on)) = focused (wn s).
Proof.
  intros Hg. pose proof Hg as [Hh Hgr]. unfold nb_set_grab.
  destruct (Bool.eqb (grabbed (wn s)) on) eqn:Eo; [done|].
  assert (grabbed (wn s) = negb on) as Hgn by (destruct on, (grabbed (wn s)); done).
  destruct (on && ((caps (se s) & CAP_FOCUS_EVENTS) =? 0)) eqn:Ec; [done|].
  destruct (x11_set_grab dsp s on) as [s1 r] eqn:Ex.
  assert (caps (se s1) = caps (se s) /\ focused (wn s1) = focused (wn s) /\ grabbed (wn s1) = negb on /\
          client_fd s1 = client_fd s /\
          (if r =? 0 then held (se s1) = on else held (se s1) = grabbed (wn s))) as (X1 & X2 & X3 & X4 & X5).
  { unfold x11_set_grab in Ex. rewrite Hh, Hgn in Ex. destruct on; cbn [negb Bool.eqb] in Ex;
      repeat case_if_in Ex; injection Ex as <- <-; cbn; try done; by rewrite Hh. }
  destruct (Z.eqb_spec r 0) as [->|Hr]; cbn [negb].
  - pose proof (keep_release_all dsp s1) as [Kc Kf Kg]. rewrite X3, X5 in Kg.
    generalize dependent (nb_release_all dsp s1). intros s2 Kc Kf Kg.
    destruct (settle_ok dsp s2 on) as [H1 H2]; [| |split; [done|congruence]].
    + destruct on; by destruct Kg as [(_ & _ & ->)|(_ & _ & ->)].
    + intros ->. rewrite Kc, X1. by apply Z.eqb_neq.
  - split; [|done]. split; [by rewrite X5, X3|]. rewrite X3, <- Hgn, X4, X1. done.
Qed.

(** ** Keys *)
Record core (s : st) : Prop := {
  c_bits : bits_wf (key_down (kb s));
  c_log : Forall pkt_ok (emitted s);
  c_keys : 0 <= client_fd s -> forall c, 0 <= c < 768 -> bit_get (key_down (kb s)) c = down (emitted s) c
}.

Definition up (s : st) (c : Z) : Prop := bit_get (key_down (kb s)) c = false.
Definition quiet (s : st) : Prop := focused (wn s) = false -> forall c, 0 <= c < 768 -> up s c.

Lemma core_cleared s : kb s = kbd0 -> emitted s = [] -> core s.
Proof.
  intros Ek Ee. constructor; rewrite ?Ek, ?Ee; [apply bits0_wf|constructor|]. intros _. apply bits0_get.
Qed.

Lemma core_detach dsp s : core s -> core (nb_sink_detach dsp s).
Proof.
  intros Hc. destruct (Z.lt_ge_cases (client_fd s) 0) as [Hf|Hf].
  - unfold nb_sink_detach. by rewrite (proj2 (Z.ltb_lt _ _)).
  - destruct (detach_spec dsp s Hf) as (_ & Hk & He & _). by apply core_cleared.
Qed.

Lemma core_of s s' :
  key_down (kb s') = key_down (kb s) -> emitted s' = emitted s -> client_fd s' = client_fd s -> core s -> core s'.
Proof. intros E1 E2 E3 [Hb Hl Hk]. constructor; rewrite ?E1, ?E2, ?E3; done. Qed.

(** Emitting a packet that is no key edge. *)
Lemma core_emit dsp s ty x y w0 w1 :
  pkt_ok (pkt_of s ty x y w0 w1) -> is_edge (pkt_of s ty x y w0 w1) = false ->
  core s -> core (nb_emit dsp s ty x y w0 w1).
Proof.
  intros Hp He Hc. destruct (emit_spec dsp s ty x y w0 w1) as [[_ ->]|[(_ & r & ->)|(Hf & r & ->)]]; [done| |].
  - destruct Hc as [Hb Hl Hk]. constructor; cbn [emit_to kb emitted client_fd]; [done|by apply Forall_app_2; auto|].
    intros Hf c Hr. rewrite down_snoc, He. by apply Hk.
  - destruct (detach_spec dsp (set_ring s r) Hf) as (_ & Ek & Ee & _). by apply core_cleared.
Qed.

(** Emitting an edge together with its bit. *)
Lemma core_edge dsp s c v :
  0 <= c < 768 -> (v = true -> focused (wn s) = true) -> core s ->
  core (nb_emit dsp (set_keys s (bit_set (key_down (kb s)) c v)) (kind c) c (b2z v) 0 0).
Proof.
  intros Hr Hv [Hb Hl Hk]. set (s1 := set_keys s _).
  pose proof (bit_set_wf _ c v ltac:(lia) Hb) as Hb1.
  assert (is_edge (pkt_of s1 (kind c) c (b2z v) 0 0) = true) as He.
  { unfold is_edge, kind. cbn [pkt_of ptype]. by case_if. }
  destruct (emit_spec dsp s1 (kind c) c (b2z v) 0 0) as [[Hf ->]|[(Hf & r & ->)|(Hf & r & ->)]].
  - constructor; subst s1; cbn [set_keys set_k kb key_down emitted client_fd] in *; [done|done|lia].
  - constructor; cbn [emit_to kb emitted client_fd]; [done| |].
    + apply Forall_app_2; [done|]. constructor; [|constructor]. split; [|by unfold kind; cbn [pkt_of ptype]; case_if].
      intros _. split; [unfold kind; cbn [pkt_of ptype px]; by case_if|].
      intros Hy. unfold F_FOCUSED. cbn [pkt_of pflags]. rewrite (proj2 (flags_bits s1)).
      destruct v; [by apply Hv|done].
    + intros _ c' Hc'. rewrite down_snoc, He. cbn [andb pkt_of px py]. subst s1.
      cbn [set_keys set_k kb key_down]. rewrite bit_get_set by done.
      case_if; [by destruct v|]. by apply Hk.
  - destruct (detach_spec dsp (set_ring s1 r) Hf) as (_ & Ek & Ee & _). by apply core_cleared.
Qed.

Lemma emit_kb dsp s ty x y w0 w1 : kb (nb_emit dsp s ty x y w0 w1) = kb s \/ kb (nb_emit dsp s ty x y w0 w1) = kbd0.
Proof.
  destruct (emit_spec dsp s ty x y w0 w1) as [[_ ->]|[(_ & r & ->)|(Hf & r & ->)]]; [by left|by left|right].
  by apply (detach_spec dsp (set_ring s r)).
Qed.

Lemma up_emit dsp s ty x y w0 w1 c : 0 <= c < 768 -> up s c -> up (nb_emit dsp s ty x y w0 w1) c.
Proof.
  intros Hc Hu. unfold up. destruct (emit_kb dsp s ty x y w0 w1) as [->| ->]; [done|]. by apply bits0_get.
Qed.

Lemma release_one_spec dsp s c :
  0 <= c < 768 -> core s ->
  core (release_one dsp s c) /\ up (release_one dsp s c) c /\
  forall c', 0 <= c' < 768 -> up s c' -> up (release_one dsp s c) c'.
Proof.
  intros Hc Hs. unfold release_one. destruct (bit_get (key_down (kb s)) c) eqn:E; [|done].
  fold (kind c). split; [by apply (core_edge dsp s c false)|]. split.
  - apply up_emit; [done|]. unfold up. cbn [set_keys set_k kb key_down].
    rewrite bit_get_set by (try done; apply Hs). by rewrite Z.eqb_refl.
  - intros c' Hc' Hu. apply up_emit; [done|]. unfold up. cbn [set_keys set_k kb key_down].
    rewrite bit_get_set by (try done; apply Hs). by case_if.
Qed.

Lemma release_list_spec dsp l s :
  Forall (fun c => 0 <= c < 768) l -> core s ->
  core (fold_left (release_one dsp) l s) /\
  forall c, 0 <= c < 768 -> c ∈ l \/ up s c -> up (fold_left (release_one dsp) l s) c.
Proof.
  intros Hl. revert s. induction Hl as [|c l Hc Hl IH]; intros s Hs; simpl.
  { split; [done|]. intros c _ [H|H]; [by apply not_elem_of_nil in H|done]. }
  destruct (release_one_spec dsp s c Hc Hs) as (H1 & H2 & H3). destruct (IH _ H1) as [H4 H5].
  split; [done|]. intros c' Hc' [H|H]; apply H5; [done| |done|right; by apply H3].
  apply elem_of_cons in H as [->|H]; auto.
Qed.

Lemma release_mods dsp l s :
  Forall (fun c => 0 <= c < 768) l -> (forall c, 0 <= c < 768 -> c ∈ l) -> core s ->
  core (set_mods (fold_left (release_one dsp) l s) false false false) /\
  forall c, 0 <= c < 768 -> up (set_mods (fold_left (release_one dsp) l s) false false false) c.
Proof.
  intros Hl Hin Hs. destruct (release_list_spec dsp l s Hl Hs) as [H1 H2].
  generalize dependent (fold_left (release_one dsp) l s). intros s1 H1 H2.
  split; [by apply (core_of s1)|]. intros c Hc. apply (H2 c Hc). left. by apply Hin.
Qed.

Lemma all_keys : Forall (fun c => 0 <= c < 768) (seqZ 0 768) /\ (forall c, 0 <= c < 768 -> c ∈ seqZ 0 768).
Proof.
  generalize 768. intros n. split.
  - apply Forall_forall. intros c Hc. apply elem_of_seqZ in Hc. lia.
  - intros c Hc. apply elem_of_seqZ. lia.
Qed.

Lemma release_all_spec dsp s :
  core s -> core (nb_release_all dsp s) /\ forall c, 0 <= c < 768 -> up (nb_release_all dsp s) c.
Proof. exact (release_mods dsp (seqZ 0 768) s (proj1 all_keys) (proj2 all_keys)). Qed.

Record keys (s : st) : Prop := {
  k_core : core s;
  k_quiet : quiet s;
  k_chord : 0 <= held_key (chd s) < 768 /\ kind (held_key (chd s)) = EV_KEY
}.

Lemma keys_of s s' :
  key_down (kb s') = key_down (kb s) -> emitted s' = emitted s -> client_fd s' = client_fd s ->
  focused (wn s') = focused (wn s) -> held_key (chd s') = held_key (chd s) -> keys s -> keys s'.
Proof.
  intros E1 E2 E3 E4 E5 [Hc Hq Hh]. constructor; [by apply (core_of s)| |by rewrite E5].
  intros Hf c Hr. unfold up. rewrite E1. apply Hq; [congruence|done].
Qed.

Lemma emit_chord dsp s ty x y w0 w1 :
  chd (nb_emit dsp s ty x y w0 w1) = chd s \/ chd (nb_emit dsp s ty x y w0 w1) = chord0.
Proof.
  destruct (emit_spec dsp s ty x y w0 w1) as [[_ ->]|[(_ & r & ->)|(Hf & r & ->)]]; [by left|by left|right].
  by apply (detach_spec dsp (set_ring s r)).
Qed.

Lemma keys_emit_any dsp s ty x y w0 w1 :
  core (nb_emit dsp s ty x y w0 w1) -> keys s -> keys (nb_emit dsp s ty x y w0 w1).
Proof.
  intros Hn [Hc Hq Hh]. constructor; [done| |].
  - intros Hf c Hr. apply up_emit; [done|]. apply Hq; [|done].
    by rewrite <- (kp_focus _ _ (keep_emit dsp s ty x y w0 w1)).
  - by destruct (emit_chord dsp s ty x y w0 w1) as [->| ->].
Qed.

Lemma keys_emit dsp s ty x y w0 w1 :
  pkt_ok (pkt_of s ty x y w0 w1) -> is_edge (pkt_of s ty x y w0 w1) = false ->
  keys s -> keys (nb_emit dsp s ty x y w0 w1).
Proof. intros. apply keys_emit_any; [|done]. by apply core_emit; [..|apply k_core]. Qed.

(** Packets that carry no input. *)
Definition plain (ty : Z) : bool :=
  negb ((u16 ty =? EV_KEY) || (u16 ty =? EV_BTN) || (u16 ty =? EV_ABS) || (u16 ty =? EV_REL) || (u16 ty =? EV_WHEEL)).

Lemma keys_plain dsp s ty x y w0 w1 : plain ty = true -> keys s -> keys (nb_emit dsp s ty x y w0 w1).
Proof.
  intros Hp Hk. unfold plain in Hp. apply negb_true_iff in Hp.
  apply orb_false_iff in Hp as [Hp H5]. apply orb_false_iff in Hp as [Hp H4].
  apply orb_false_iff in Hp as [Hp H3]. apply orb_false_iff in Hp as [H1 H2]. zb.
  assert (is_edge (pkt_of s ty x y w0 w1) = false) as He.
  { unfold is_edge. cbn [pkt_of ptype]. by rewrite !(proj2 (Z.eqb_neq _ _)). }
  apply keys_emit; [|done|done]. unfold pkt_ok. rewrite He. cbn [pkt_of ptype]. done.
Qed.

Lemma keys_edge dsp s c v :
  0 <= c < 768 -> focused (wn s) = true -> keys s ->
  keys (nb_emit dsp (set_keys s (bit_set (key_down (kb s)) c v)) (kind c) c (b2z v) 0 0).
Proof.
  intros Hc Hf [Hco Hq Hh]. set (s1 := set_keys s _). constructor.
  - by apply core_edge.
  - intros Hn. rewrite (kp_focus _ _ (keep_emit dsp s1 (kind c) c (b2z v) 0 0)) in Hn.
    subst s1. cbn in Hn. congruence.
  - by destruct (emit_chord dsp s1 (kind c) c (b2z v) 0 0) as [->| ->].
Qed.

Lemma keys_detach dsp s : keys s -> keys (nb_sink_detach dsp s).
Proof.
  intros Hk. destruct (Z.lt_ge_cases (client_fd s) 0) as [Hf|Hf].
  - unfold nb_sink_detach. by rewrite (proj2 (Z.ltb_lt _ _)).
  - destruct (detach_spec dsp s Hf) as (_ & E1 & E2 & E3 & E4). constructor.
    + by apply core_cleared.
    + intros _ c Hc. unfold up. rewrite E1. by apply bits0_get.
    + by rewrite E4.
Qed.

Definition chord_ok (x : chord) : Prop := 0 <= held_key x < 768 /\ kind (held_key x) = EV_KEY.

Lemma chord_release_list dsp l s :
  chord_ok (chd s) -> chord_ok (chd (set_mods (fold_left (release_one dsp) l s) false false false)).
Proof.
  intros Hh. cbn [set_mods set_k chd]. apply (fold_left_inv (fun s => chord_ok (chd s))); [exact Hh|].
  intros a c Ha. unfold release_one. case_if; [|exact Ha].
  match goal with |- context [chd (nb_emit dsp ?x ?ty c 0 0 0)] =>
    by destruct (emit_chord dsp x ty c 0 0 0) as [->| ->] end.
Qed.

Lemma chord_release_all dsp s : chord_ok (chd s) -> chord_ok (chd (nb_release_all dsp s)).
Proof. exact (chord_release_list dsp (seqZ 0 768) s). Qed.

Lemma keys_intro s : core s -> (forall c, 0 <= c < 768 -> up s c) -> chord_ok (chd s) -> keys s.
Proof. intros H1 H2 H3. constructor; [done|by intros _|done]. Qed.

Lemma keys_release_all dsp s : core s -> chord_ok (chd s) -> keys (nb_release_all dsp s).
Proof.
  intros Hc Hh. exact (keys_intro _ (proj1 (release_all_spec dsp s Hc)) (proj2 (release_all_spec dsp s Hc))
    (chord_release_all dsp s Hh)).
Qed.

Lemma keys_x11 dsp s on : keys s -> keys (fst (x11_set_grab dsp s on)).
Proof. intros. unfold x11_set_grab. repeat case_if; cbn [fst]; first [done|by apply (keys_of s)]. Qed.

Lemma keys_set_grab dsp s on : keys s -> keys (nb_set_grab dsp s on).
Proof.
  intros Hk. unfold nb_set_grab. case_if; [done|]. case_if; [done|].
  pose proof (keys_x11 dsp s on Hk) as Hx. destruct (x11_set_grab dsp s on) as [s1 r]. cbn [fst] in Hx.
  case_if; [done|]. pose proof (keys_release_all dsp s1 (k_core _ Hx) (k_chord _ Hx)) as Hr.
  generalize dependent (nb_release_all dsp s1). intros s2 Hr. unfold grab_settle.
  assert (keys (set_grabbed s2 on)) as Hg by (by apply (keys_of s2)). cbv zeta. case_if.
  - apply (keys_of (fst (x11_set_grab dsp (set_grabbed s2 on) false))); try done. by apply keys_x11.
  - by apply keys_plain.
Qed.

(** Edges of the replayed chord: the window is active throughout. *)
Definition live_keys (s : st) : Prop := keys s /\ focused (wn s) = true.

Lemma live_edge dsp s c v : 0 <= c < 768 -> kind c = EV_KEY -> live_keys s -> live_keys (nb_clip_key_edge dsp s c v).
Proof.
  intros Hc Hk [Hs Hf]. unfold nb_clip_key_edge. rewrite <- Hk. split; [by apply keys_edge|].
  match goal with |- context [nb_emit dsp ?x ?ty ?a ?b ?p ?q] =>
    by rewrite (kp_focus _ _ (keep_emit dsp x ty a b p q)) end.
Qed.

Lemma keys_clip_finish dsp s g p : keys s -> keys (nb_sink_clip_finish dsp s g p).
Proof.
  intros Hk. pose proof (k_chord _ Hk) as [Hc Hkd]. unfold nb_sink_clip_finish. case_if; [done|].
  assert (keys (set_ch s chord0)) as Hk0.
  { destruct Hk as [H1 H2 _]. constructor; [by apply (core_of s)|done|done]. }
  case_if; [done|]. case_if; [done|].
  apply orb_false_iff in E1 as [E1 _]. apply negb_false_iff in E1.
  assert (live_keys (set_ch s chord0)) as Hl by done. cbv zeta.
  generalize dependent (set_ch s chord0). intros s1 _ _ Hl.
  repeat case_if; repeat (apply live_edge; [done|done|]); apply live_edge || idtac; done.
Qed.

Lemma keys_paste cfg dsp s : keys s -> keys (nb_sink_paste_trigger cfg dsp s).
Proof.
  intros Hk. unfold nb_sink_paste_trigger.
  repeat case_if; try (apply keys_clip_finish; by apply (keys_of s)).
  destruct (fetch_clipboard dsp); [|by apply keys_clip_finish].
  repeat case_if; try apply keys_clip_finish; by apply (keys_of s).
Qed.

Lemma keys_key cfg dsp s c d : 0 <= c -> kind c = EV_KEY -> keys s -> keys (nb_sink_key cfg dsp s c d).
Proof.
  intros Hc Hkd Hk. unfold nb_sink_key. case_if; [done|]. apply Z.leb_gt in E. cbv zeta.
  match goal with |- context [set_mods s ?x ?y ?z] => set (s1 := set_mods s x y z) end.
  assert (keys s1) as H1 by (by apply (keys_of s)). clearbody s1.
  case_if.
  { case_if; [apply keys_set_grab; by apply (keys_of s1)|]. case_if; by apply (keys_of s1). }
  destruct (if d && focused (wn s1) then nb_clip_trigger cfg s1 c else None) as [t|] eqn:Et.
  - case_if; [by apply (keys_of s1)|]. apply keys_paste. destruct H1 as [K1 K2 K3].
    constructor; [by apply (core_of s1)|done|done].
  - case_if; [case_if; [by apply (keys_of s1)|done]|]. case_if; [done|]. case_if; [done|].
    rewrite <- Hkd at 1. apply keys_edge; [lia| |done]. by apply negb_false_iff.
Qed.

Lemma keys_btn dsp s c d : 0 <= c -> kind c = EV_BTN -> keys s -> keys (nb_sink_btn dsp s c d).
Proof.
  intros Hc Hkd Hk. unfold nb_sink_btn. case_if; [done|]. apply orb_false_iff in E as [E1 E2].
  case_if; [done|]. case_if; [done|]. rewrite <- Hkd at 1. apply keys_edge; [zb; lia| |done]. by apply negb_false_iff.
Qed.

(** Motion and wheel, with the guards of their handlers. *)
Lemma keys_motion dsp s ty x y w0 w1 :
  ty = EV_ABS /\ grabbed (wn s) = false \/ ty = EV_REL /\ grabbed (wn s) = true \/ ty = EV_WHEEL ->
  focused (wn s) = true -> keys s -> keys (nb_emit dsp s ty x y w0 w1).
Proof.
  intros Ht Hf Hk. destruct (flags_bits s) as [F0 F1].
  destruct Ht as [[-> Hg]|[[-> Hg]| ->]]; (apply keys_emit; [|done|done]); unfold pkt_ok, F_FOCUSED, F_GRABBED;
    cbn [pkt_of ptype pflags]; rewrite F0, F1; by repeat split.
Qed.

Lemma keys_focus dsp s b : keys s -> keys (nb_sink_focus dsp s b).
Proof.
  intros Hk. unfold nb_sink_focus. case_if; [done|]. destruct b; cbn [negb].
  - apply keys_plain; [done|]. destruct Hk as [K1 K2 K3]. constructor; [by apply (core_of s)|done|done].
  - cbv zeta.
    match goal with |- context [nb_release_all dsp ?x] => set (s1 := x) end.
    assert (core s1 /\ chord_ok (chd s1)) as [H1 H2].
    { assert (core (set_focused s false)) as Hc0 by (apply (core_of s); try done; apply Hk).
      subst s1. case_if; [|split; [done|apply Hk]]. unfold x11_set_grab.
      case_if; (split; [by apply (core_of (set_focused s false))|apply Hk]). }
    pose proof (keys_release_all dsp s1 H1 H2) as Hr. generalize dependent (nb_release_all dsp s1).
    intros s2 Hr. apply keys_plain; [done|]. apply keys_plain; [done|]. by apply (keys_of s2).
Qed.

Lemma keys_flush ans s : keys s -> keys (fst (nb_sink_flush ans s)).
Proof.
  intros Hk. unfold nb_sink_flush. case_if; [done|]. destruct (flush ans (ring s)) as [[r bs] e].
  by apply (keys_of s).
Qed.

Lemma keys_send s g text : base s -> keys s -> keys (fst (nb_sink_send_clipboard s g text)).
Proof.
  intros Hb [K1 K2 K3]. destruct (send_cases s g text Hb) as [->|(ps & -> & Hps & Hf & _ & _ & _ & _ & Hu)]; [done|].
  destruct (queue_all_spec s ps Hb Hf) as (_ & E1 & _ & _ & E2 & _ & E3 & E4 & E5 & _);
    [rewrite Hps; apply chunk_pkts_numbered|unfold replay_reserve in Hu; lia|].
  cbn [fst]. pose proof (chunk_pkts_type (Z.to_nat (clip_count (arr_len text))) (flags s) (seq s) text 0) as Ht.
  rewrite <- Hps in Ht. constructor.
  - destruct K1 as [C1 C2 C3]. constructor; rewrite ?E4, ?E1, ?E2; [done| |].
    + apply Forall_app_2; [done|]. apply (Forall_impl _ _ _ Ht). intros p Hp. unfold pkt_ok, is_edge. by rewrite Hp.
    + intros _ c Hc. rewrite (C3 Hf c Hc). clear -Ht. revert Ht. generalize (emitted s).
      induction ps as [|p ps IH]; intros l Ht; [by rewrite app_nil_r|].
      apply Forall_cons in Ht as [Hp Ht]. rewrite cons_middle, app_assoc, <- IH by done.
      rewrite down_snoc. unfold is_edge. by rewrite Hp.
  - intros Hn c Hc. unfold up. rewrite E4. apply K2; [congruence|done].
  - by rewrite E5.
Qed.

Lemma keys_fresh s : kb s = kbd0 -> emitted s = [] -> chd s = chord0 -> keys s.
Proof.
  intros E1 E2 E3. constructor; [by apply core_cleared| |by rewrite E3].
  intros _ c Hc. unfold up. rewrite E1. by apply bits0_get.
Qed.

Lemma keys_handshakes s l rs :
  Forall (fun x => let '(ty, _, _, _, _) := x in plain ty = true) l -> keys s -> keys (fst (handshakes s l rs)).
Proof.
  revert s rs. induction l as [|[[[[ty x] y] w0] w1] l IH]; intros s rs Hl Hk; cbn [handshakes]; [done|].
  apply Forall_cons in Hl as [Ht Hl]. unfold handshake.
  destruct (Z.eqb_spec (hd 0 rs) 0) as [E|E]; cbn [Z.eqb].
  - apply IH; [done|]. destruct Hk as [[C1 C2 C3] K2 K3].
    unfold plain in Ht. apply negb_true_iff in Ht.
    apply orb_false_iff in Ht as [Ht H5]. apply orb_false_iff in Ht as [Ht H4].
    apply orb_false_iff in Ht as [Ht H3]. apply orb_false_iff in Ht as [H1 H2].
    assert (is_edge (pkt_of s ty x y w0 w1) = false) as He
      by (unfold is_edge; cbn [pkt_of ptype]; by rewrite H1, H2).
    constructor; [|done|done]. constructor; cbn [kb emitted client_fd]; [done| |].
    + apply Forall_app_2; [done|]. constructor; [|constructor]. fold (pkt_of s ty x y w0 w1). zb.
      unfold pkt_ok. rewrite He. done.
    + intros Hf c Hc. fold (pkt_of s ty x y w0 w1). rewrite down_snoc, He. by apply C3.
  - rewrite (proj2 (Z.eqb_neq _ _)) by done. by apply (keys_of s).
Qed.

Lemma x11_same dsp s on :
  let s' := fst (x11_set_grab dsp s on) in
  kb s' = kb s /\ emitted s' = emitted s /\ chd s' = chd s /\ client_fd s' = client_fd s /\
  wn s' = wn s /\ caps (se s') = caps (se s) /\ (on = false -> held (se s') = false).
Proof.
  unfold x11_set_grab. destruct (Bool.eqb (held (se s)) on) eqn:E.
  - cbn. repeat (split; [done|]). intros ->. by destruct (held (se s)).
  - repeat case_if; cbn; by repeat split.
Qed.

Lemma greeted_keys dsp s fd : keys (greeted dsp s fd).
Proof.
  unfold greeted. cbv zeta. set (s1 := set_conn (nb_client_state_reset s) _ (u64 _)).
  assert (kb s1 = kbd0 /\ emitted s1 = [] /\ chd s1 = chord0) as (E1 & E2 & E3)
    by (subst s1; unfold nb_client_state_reset; by case_if).
  clearbody s1. destruct (x11_same dsp s1 false) as (X1 & X2 & X3 & _).
  apply keys_fresh; cbn [set_conn kb emitted chd]; case_if; cbn [set_grabbed set_w kb emitted chd]; congruence.
Qed.

Lemma keys_attach dsp s fd rs : keys (fst (nb_sink_attach dsp s fd rs)).
Proof.
  unfold nb_sink_attach. cbv zeta. set (l := (EV_HELLO, _, _, _, _) :: _).
  assert (keys (fst (handshakes (greeted dsp s fd) l rs))) as Hh.
  { apply keys_handshakes; [|apply greeted_keys]. subst l. by repeat constructor. }
  destruct (handshakes (greeted dsp s fd) l rs) as [s' r]. cbn [fst] in Hh. case_if; [|done].
  cbn [fst]. apply keys_fresh; unfold nb_client_state_reset; by case_if.
Qed.

Lemma keys_step cfg dsp s e : ev_ok e -> base s -> keys s -> keys (step cfg dsp s e).
Proof.
  intros He Hb Hk. destruct e; cbn [step].
  - destruct He. by apply keys_key.
  - destruct He. by apply keys_btn.
  - unfold nb_sink_abs. case_if; [done|]. apply orb_false_iff in E as [E E2]. apply orb_false_iff in E as [E0 E1].
    apply keys_motion; [by left|by apply negb_false_iff|done].
  - unfold nb_sink_rel. case_if; [done|]. apply orb_false_iff in E as [E0 E1]. case_if; [done|].
    apply keys_motion; [right; left; split; [done|by apply negb_false_iff]|by apply negb_false_iff|done].
  - unfold nb_sink_wheel. case_if; [done|]. apply orb_false_iff in E as [E0 E1].
    apply keys_motion; [by right; right|by apply negb_false_iff|done].
  - by apply keys_focus.
  - unfold nb_sink_pointer. case_if; [done|]. apply keys_plain; [done|]. by apply (keys_of s).
  - unfold nb_sink_surface. case_if; [done|]. case_if; [done|]. apply keys_plain; [done|]. by apply (keys_of s).
  - by apply keys_plain.
  - by apply keys_plain.
  - by apply keys_plain.
  - unfold nb_sink_force_ungrab. case_if; [by apply keys_set_grab|done].
  - unfold nb_sink_set_fullscreen. case_if; [done|]. by apply (keys_of s).
  - by apply keys_clip_finish.
  - by apply keys_send.
  - unfold flush_client. pose proof (keys_flush ans s Hk) as Hf. destruct (nb_sink_flush ans s) as [s' r].
    case_if; [by apply keys_detach|done].
  - unfold nb_sink_close_request. case_if; [done|]. cbn [fst]. by apply keys_flush, keys_plain.
  - unfold nb_sink_bye. by apply keys_flush, keys_plain.
  - unfold accept_client. case_if; [by apply (keys_of s)|].
    pose proof (keys_attach dsp s fd rs) as Ha. destruct (nb_sink_attach dsp s fd rs) as [s' r].
    case_if; [|done]. by apply (keys_of s').
  - by apply keys_detach.
  - by apply (keys_of s).
Qed.

(** ** The grab along a trace *)
Lemma keep_edge dsp s c d : keep s (nb_clip_key_edge dsp s c d).
Proof. unfold nb_clip_key_edge. eapply keep_trans; [apply keep_set_k|apply keep_emit]. Qed.

Lemma keep_clip_finish dsp s g p : keep s (nb_sink_clip_finish dsp s g p).
Proof.
  unfold nb_sink_clip_finish. case_if; [apply keep_refl|].
  assert (keep s (set_ch s chord0)) as H0 by by apply keep_of. case_if; [done|]. case_if; [done|].
  apply (keep_trans _ _ _ H0). cbv zeta. generalize (set_ch s chord0). intros s1.
  repeat case_if; repeat (eapply keep_trans; [|apply keep_edge]); apply keep_refl.
Qed.

Lemma keep_paste cfg dsp s : keep s (nb_sink_paste_trigger cfg dsp s).
Proof.
  unfold nb_sink_paste_trigger.
  repeat case_if; try (eapply keep_trans; [|apply keep_clip_finish]; by apply keep_of).
  destruct (fetch_clipboard dsp); [|apply keep_clip_finish].
  repeat case_if; try (eapply keep_trans; [|apply keep_clip_finish]); by apply keep_of.
Qed.

Lemma grab_key cfg dsp s c d :
  grab_ok s -> grab_ok (nb_sink_key cfg dsp s c d) /\ focused (wn (nb_sink_key cfg dsp s c d)) = focused (wn s).
Proof.
  intros Hg. assert (forall s1, keep s s1 -> grab_ok s1 /\ focused (wn s1) = focused (wn s)) as HK.
  { intros s1 Hk. split; [by apply (grab_keep s)|by apply kp_focus]. }
  unfold nb_sink_key. case_if; [done|]. cbv zeta.
  match goal with |- context [set_mods s ?x ?y ?z] => set (s1 := set_mods s x y z) end.
  assert (keep s s1) as H1 by (by apply keep_of). clearbody s1. destruct (HK s1 H1) as [Hg1 Hf1].
  case_if.
  { case_if.
    - match goal with |- context [nb_set_grab dsp ?x ?b] => destruct (grab_set dsp x b) as [G1 G2] end;
        [by apply (grab_keep s1); [by apply keep_of|]|]. split; [done|]. by rewrite G2.
    - case_if; apply HK, (keep_trans _ _ _ H1); by apply keep_of. }
  destruct (if d && focused (wn s1) then nb_clip_trigger cfg s1 c else None) as [t|].
  - case_if; apply HK, (keep_trans _ _ _ H1); [by apply keep_of|].
    eapply keep_trans; [|apply keep_paste]. by apply keep_of.
  - repeat case_if; apply HK, (keep_trans _ _ _ H1); try apply keep_refl; [by apply keep_of|].
    eapply keep_trans; [|apply keep_emit]. by apply keep_of.
Qed.

Lemma drop_grab dsp s :
  grab_ok s ->
  let s1 := if grabbed (wn s) then set_grabbed (fst (x11_set_grab dsp s false)) false else s in
  grab_ok s1 /\ grabbed (wn s1) = false /\ held (se s1) = false /\ focused (wn s1) = focused (wn s) /\
  client_fd s1 = client_fd s.
Proof.
  intros [Hh Hg]. destruct (x11_same dsp s false) as (X1 & X2 & X3 & X4 & X5 & X6 & X7).
  cbv zeta. destruct (grabbed (wn s)) eqn:E.
  - specialize (X7 eq_refl). split; [split; [done|done]|]. cbn. by rewrite X5.
  - split; [by split; rewrite ?E|]. by rewrite Hh.
Qed.

Lemma grab_focus dsp s b :
  grab_ok s -> let s' := nb_sink_focus dsp s b in
  grab_ok s' /\ focused (wn s') = b /\ (focused (wn s) = true -> b = false -> grabbed (wn s') = false /\ held (se s') = false).
Proof.
  intros Hg. unfold nb_sink_focus. destruct (Bool.eqb (focused (wn s)) b) eqn:E.
  { apply eqb_prop in E. subst b. split; [done|]. split; [done|]. intros ->. done. }
  destruct b; cbn [negb].
  - pose proof (keep_emit dsp (set_focused s true) EV_FOCUS (b2z true) 0 0 0) as Ke.
    split; [by apply (grab_keep _ _ Ke)|]. split; [by rewrite (kp_focus _ _ Ke)|done].
  - cbv zeta. destruct (drop_grab dsp (set_focused s false) Hg) as (D1 & D2 & D3 & D4 & D5).
    set (s1 := if grabbed (wn (set_focused s false)) then _ else _) in *. clearbody s1.
    match goal with |- context [nb_emit dsp (nb_emit dsp ?x _ _ _ _ _) _ _ _ _ _] => assert (keep s1 x) as K1 end.
    { eapply keep_trans; [apply keep_release_all|apply keep_set_pointer]. }
    generalize dependent (set_pointer (nb_release_all dsp s1) false). intros s2 K1.
    assert (keep s1 (nb_emit dsp (nb_emit dsp s2 EV_FOCUS (b2z false) 0 0 0) EV_GRAB 0 0 0 0)) as K2.
    { do 2 (eapply keep_trans; [|apply keep_emit]). done. }
    pose proof (grab_keep _ _ K2 D1) as G. split; [done|]. split; [by rewrite (kp_focus _ _ K2)|]. intros _ _.
    destruct K2 as [_ _ [(_ & -> & ->)|(_ & -> & ->)]]; by rewrite ?D2, ?D3.
Qed.

Lemma keep_grabbed s s' : keep s s' -> grabbed (wn s') = true -> grabbed (wn s) = true.
Proof. intros [_ _ [(_ & E & _)|(_ & E & _)]]; congruence. Qed.

Lemma keep_detach dsp s : keep s (nb_sink_detach dsp s).
Proof.
  destruct (Z.lt_ge_cases (client_fd s) 0) as [Hf|Hf].
  - unfold nb_sink_detach. rewrite (proj2 (Z.ltb_lt _ _)) by done. apply keep_refl.
  - by apply detach_spec.
Qed.

Lemma keep_flush ans s : keep s (fst (nb_sink_flush ans s)).
Proof.
  unfold nb_sink_flush. case_if; [apply keep_refl|]. destruct (flush ans (ring s)) as [[r bs] e]. by apply keep_of.
Qed.

Lemma keep_send s g text : base s -> keep s (fst (nb_sink_send_clipboard s g text)).
Proof.
  intros Hb. destruct (send_cases s g text Hb) as [->|(ps & -> & Hps & Hf & _ & _ & _ & _ & Hu)]; [apply keep_refl|].
  destruct (queue_all_spec s ps Hb Hf) as (_ & _ & _ & _ & E2 & _ & E3 & _ & _ & _ & _ & E4 & _);
    [rewrite Hps; apply chunk_pkts_numbered|unfold replay_reserve in Hu; lia|].
  apply keep_of; cbn [fst]; by rewrite ?E2, ?E3, ?E4.
Qed.

Lemma handshakes_same s l rs :
  let s' := fst (handshakes s l rs) in wn s' = wn s /\ se s' = se s /\ client_fd s' = client_fd s.
Proof.
  revert s rs. induction l as [|[[[[ty x] y] w0] w1] l IH]; intros s rs; cbn [handshakes]; [done|].
  unfold handshake. destruct (Z.eqb_spec (hd 0 rs) 0) as [E|E]; cbn [Z.eqb].
  - by match goal with |- context [handshakes ?x l ?y] => destruct (IH x y) as (-> & -> & ->) end.
  - by rewrite (proj2 (Z.eqb_neq _ _)).
Qed.

Lemma attach_ungrabbed dsp s fd rs :
  grab_ok s -> let s' := fst (nb_sink_attach dsp s fd rs) in
  grab_ok s' /\ grabbed (wn s') = false /\ focused (wn s') = focused (wn s).
Proof.
  intros Hg.
  assert (let g := greeted dsp s fd in held (se g) = false /\ grabbed (wn g) = false /\ focused (wn g) = focused (wn s))
    as (G1 & G2 & G3).
  { unfold greeted. cbv zeta. set (s1 := set_conn (nb_client_state_reset s) _ (u64 _)).
    assert (grab_ok s1 /\ focused (wn s1) = focused (wn s)) as [H1 H2].
    { subst s1. unfold nb_client_state_reset. case_if; (split; [exact Hg|done]). }
    clearbody s1. destruct (drop_grab dsp s1 H1) as (_ & D2 & D3 & D4 & _).
    cbn [set_conn wn se]. by rewrite D2, D3, D4, H2. }
  unfold nb_sink_attach. cbv zeta. set (l := (EV_HELLO, _, _, _, _) :: _).
  destruct (handshakes_same (greeted dsp s fd) l rs) as (E1 & E2 & _).
  destruct (handshakes (greeted dsp s fd) l rs) as [s' r]. cbn [fst] in *.
  assert (forall x, wn x = wn s' -> se x = se s' -> grab_ok x /\ grabbed (wn x) = false /\ focused (wn x) = focused (wn s)) as H.
  { intros x X1 X2. unfold grab_ok. by rewrite X1, X2, E1, E2, G1, G2, G3. }
  case_if; cbn [fst]; [|by apply H]. apply H; unfold nb_client_state_reset; by case_if.
Qed.

(** What one event does to the grab: a key may take it, a focus change may drop
    it, anything else leaves the focus alone and takes nothing. *)
Lemma grab_step cfg dsp s e :
  base s -> grab_ok s ->
  grab_ok (step cfg dsp s e) /\
  match e with
  | Key _ _ => focused (wn (step cfg dsp s e)) = focused (wn s)
  | Focus b => focused (wn (step cfg dsp s e)) = b /\
      (focused (wn s) = true -> b = false -> grabbed (wn (step cfg dsp s e)) = false)
  | _ => focused (wn (step cfg dsp s e)) = focused (wn s) /\
      (grabbed (wn (step cfg dsp s e)) = true -> grabbed (wn s) = true)
  end.
Proof.
  intros Hb Hg. assert (forall s1, keep s s1 -> grab_ok s1 /\ focused (wn s1) = focused (wn s) /\
    (grabbed (wn s1) = true -> grabbed (wn s) = true)) as HK.
  { intros s1 Hk. split; [by apply (grab_keep s)|]. split; [by apply kp_focus|by apply keep_grabbed]. }
  destruct e; cbn [step].
  - by apply grab_key.
  - apply HK. unfold nb_sink_btn. repeat case_if; try apply keep_refl. eapply keep_trans; [apply keep_set_k|apply keep_emit].
  - apply HK. unfold nb_sink_abs. case_if; [apply keep_refl|apply keep_emit].
  - apply HK. unfold nb_sink_rel. repeat case_if; try apply keep_refl. apply keep_emit.
  - apply HK. unfold nb_sink_wheel. case_if; [apply keep_refl|apply keep_emit].
  - destruct (grab_focus dsp s active Hg) as (H1 & H2 & H3). split; [done|]. split; [done|].
    intros Ha Hf. by apply H3.
  - apply HK. unfold nb_sink_pointer. case_if; [apply keep_refl|].
    eapply keep_trans; [apply keep_set_pointer|apply keep_emit].
  - apply HK. unfold nb_sink_surface. case_if; [apply keep_refl|]. case_if; [apply keep_refl|].
    eapply keep_trans; [|apply keep_emit]. by apply keep_of.
  - apply HK, keep_emit.
  - apply HK, keep_emit.
  - apply HK, keep_emit.
  - unfold nb_sink_force_ungrab. case_if; [|split; [done|]; split; [done|]; intros; congruence].
    destruct (grab_set dsp s false Hg) as [H1 H2]. done.
  - apply HK. unfold nb_sink_set_fullscreen. case_if; [apply keep_refl|by apply keep_of].
  - apply HK, keep_clip_finish.
  - apply HK. by apply keep_send.
  - apply HK. unfold flush_client. pose proof (keep_flush ans s) as Hk. destruct (nb_sink_flush ans s) as [s' r].
    cbn [fst] in Hk. case_if; [|done]. eapply keep_trans; [exact Hk|apply keep_detach].
  - apply HK. unfold nb_sink_close_request. case_if; [apply keep_refl|]. cbn [fst].
    eapply keep_trans; [apply keep_emit|apply keep_flush].
  - apply HK. unfold nb_sink_bye. eapply keep_trans; [apply keep_emit|apply keep_flush].
  - unfold accept_client. case_if; [apply HK; by apply keep_of|].
    destruct (attach_ungrabbed dsp s fd rs Hg) as (H1 & H2 & H3). destruct (nb_sink_attach dsp s fd rs) as [s' r].
    cbn [fst] in *. case_if; (split; [exact H1|]); cbn; rewrite H2; done.
  - apply HK, keep_detach.
  - apply HK. by apply keep_of.
Qed.

Lemma empty_ring t : arr_len t = NB_TXRING -> wf (RingC t 0 0 0) /\ contents (RingC t 0 0 0) = [].
Proof.
  intros Hl. assert (wf (RingC t 0 0 0)) as Hw
    by (constructor; cbn [tx head tail partial]; unfold NB_TXRING, NVKVM_BROKER_PKT_SIZE in *; done).
  split; [done|]. by apply contents_nil.
Qed.

Lemma base_empty s t :
  arr_len t = NB_TXRING -> ring s = RingC t 0 0 0 -> seq s = 0 -> emitted s = [] -> sent s = [] -> wire s = [] -> base s.
Proof.
  intros Hl E1 E2 E3 E4 E5. destruct (empty_ring t Hl) as [Hw Hc].
  constructor; rewrite ?E1, ?E2, ?E3, ?E4, ?E5, ?Hc; try done.
Qed.

Lemma init_len : arr_len (replicate (Z.to_nat NB_TXRING) (inhabitant : pkt)) = NB_TXRING.
Proof. unfold arr_len, NB_TXRING. rewrite length_replicate. lia. Qed.

Lemma init_ok sn : held sn = false -> base (nb_sink_init sn) /\ keys (nb_sink_init sn) /\ grab_ok (nb_sink_init sn).
Proof.
  intros Hh. split; [exact (base_empty (nb_sink_init sn) _ init_len eq_refl eq_refl eq_refl eq_refl eq_refl)|].
  split; [by apply keys_fresh|by split].
Qed.

Lemma sink_run_ok cfg dsp sn tr :
  held sn = false -> Forall ev_ok tr ->
  let s := run cfg dsp (nb_sink_init sn) tr in base s /\ keys s /\ grab_ok s.
Proof.
  intros Hh Ht. unfold run. apply (fold_left_in (fun s => base s /\ keys s /\ grab_ok s)); [|by apply init_ok].
  intros s e He (Hb & Hk & Hg). pose proof (proj1 (Forall_forall _ _) Ht e He) as Hok.
  split; [by apply base_step|]. split; [by apply keys_step|by apply grab_step].
Qed.

(** A session: connect, focus, CTRL+ALT+G, type and move under the grab, and lose
    the focus. *)
Definition demo_cfg : config := Config NB_CLIP_CONSENT [Trigger KEY_V true false].
Definition demo_dsp : display := Display (fun _ => true) (fun _ => true) (fun _ => 0) (Some (fun _ => 0)).
Definition demo_sess : sess := Sess 255 1920 1080 false 0.
Definition demo_grab : list event :=
  [Accept 7 []; Focus true; Key KEY_LEFTCTRL true; Key KEY_LEFTALT true; Key KEY_G true; Key 30 true;
   Rel 4 (-2); Flush [Sent 24; Eintr; Sent 10; Eagain]].
Definition demo_tr : list event := demo_grab ++ [Focus false].

Lemma demo_ok : Forall ev_ok demo_tr.
Proof. unfold demo_tr, demo_grab. repeat constructor; done. Qed.

Lemma demo_grab_taken :
  let s := run demo_cfg demo_dsp (nb_sink_init demo_sess) demo_grab in
  grabbed (wn s) = true /\ focused (wn s) = true /\ bit_get (key_down (kb s)) 30 = true /\
  length (contents (ring s)) = 7%nat /\ partial (ring s) = 10.
Proof. vm_compute. auto. Qed.

(** The hotkey is handled before the focus gate: a key that reaches the sink of
    an inactive window takes the grab. *)
Lemma hotkey_grabs_unfocused :
  let s := run demo_cfg demo_dsp (nb_sink_init demo_sess)
             [Accept 7 []; Key KEY_LEFTCTRL true; Key KEY_LEFTALT true; Key KEY_G true] in
  grabbed (wn s) = true /\ held (se s) = true /\ focused (wn s) = false.
Proof. vm_compute. auto. Qed.

End Sink.
