(* ===== verification/BrokerClip.v ===== *)
(** * BrokerClip: the host clipboard on its way to the guest

    Composes the broker's sender with the receiver at the other end of the
    socket, [relay_clip_recv] of [src/qemu/nvkvm_display_relay.c], which
    reassembles the chunks and publishes the text to the guest's clipboard.  The
    paste chord the broker replays behind the text is [BrokerSink]'s. *)
From S2P Require Import Prelude Bytes BrokerTx BrokerSink.
Import Tx Sink.

Module Clip.

(** ** The relay's receiver *)
Definition NVKVM_BROKER_CLIP_MAX_CHUNKS_PKT : Z :=
  (NVKVM_BROKER_CLIP_MAX_BYTES + NVKVM_BROKER_CLIP_PKT_BYTES - 1) / NVKVM_BROKER_CLIP_PKT_BYTES.

(** [clip_in] holds the bytes collected so far ([clip_in_len] is its length);
    [published] is what was handed to [qemu_clipboard_set_data], in order. *)
Record relay := Relay { r_in : list Z; r_chunks : Z; r_bad : bool; r_registered : bool; published : list (list Z) }.

Definition info_of (p : pkt) : Z := rd 1 0 (le_bytes 4 (u32 (px p))).
Definition data_of (p : pkt) : list Z :=
  drop 1 (le_bytes 4 (u32 (px p))) ++ le_bytes 4 (u32 (py p)) ++ le_bytes 4 (pw0 p) ++ le_bytes 4 (pw1 p).

Definition relay_clip_recv (r : relay) (p : pkt) : relay :=
  let info := info_of p in
  let n := info & 0x1f in
  let '(bad, n) := if NVKVM_BROKER_CLIP_PKT_BYTES <? n then (true, 0) else (r_bad r, n) in
  let chunks := u32 (r_chunks r + 1) in
  let bad := bad || (NVKVM_BROKER_CLIP_MAX_CHUNKS_PKT <? chunks)
             || (NVKVM_BROKER_CLIP_MAX_BYTES <? arr_len (r_in r) + n) in
  let buf := if negb bad && negb (n =? 0) then r_in r ++ take (Z.to_nat n) (data_of p) else r_in r in
  if (info & NVKVM_BROKER_CLIP_LAST) =? 0 then Relay buf chunks bad (r_registered r) (published r)
  else
    Relay [] 0 false (r_registered r)
      (if negb bad && negb (arr_len buf =? 0) && r_registered r then published r ++ [buf] else published r).

(** ** A chunk survives the packet's words *)
Lemma word_back b off :
  Forall byte b -> 0 <= off -> off + 4 <= arr_len b ->
  le_bytes 4 (rd 4 off b) = take 4 (drop (Z.to_nat off) b) /\ 0 <= rd 4 off b < W32.
Proof.
  intros Hb Ho Hl. split; [|by apply (rd_range 4 off b)]. unfold rd. set (l := take 4 _).
  assert (length l = 4%nat) as E by (subst l; rewrite length_take, length_drop; unfold arr_len in Hl; lia).
  rewrite <- E. apply le_bytes_val. by apply Forall_take, Forall_drop.
Qed.

Lemma s32_back x : 0 <= x < W32 -> u32 (s32 x) = x.
Proof. intros Hx. unfold s32. rewrite (u32_small x) by done. case_if; zb; mlia. Qed.

Lemma clip_words fl sq info data :
  byte info -> Forall byte data -> (length data <= 15)%nat ->
  let p := clip_pkt fl sq info data in
  info_of p = info /\ data_of p = data ++ replicate (15 - length data) 0.
Proof.
  intros Hi Hd Hl. cbv zeta. unfold clip_pkt. cbv zeta.
  set (b := info :: data ++ replicate (15 - length data) 0).
  assert (length b = 16%nat) as Hlb by (subst b; simpl; rewrite length_app, length_replicate; lia).
  assert (Forall byte b) as Hb.
  { subst b. constructor; [done|]. apply Forall_app_2; [done|]. apply Forall_replicate. unfold byte. lia. }
  unfold info_of, data_of. cbn [px py pw0 pw1].
  destruct (word_back b 0 Hb) as [W0 R0]; [lia|unfold arr_len; lia|].
  destruct (word_back b 4 Hb) as [W1 R1]; [lia|unfold arr_len; lia|].
  destruct (word_back b 8 Hb) as [W2 R2]; [lia|unfold arr_len; lia|].
  destruct (word_back b 12 Hb) as [W3 R3]; [lia|unfold arr_len; lia|].
  rewrite !s32_back by done. rewrite W0, W1, W2, W3. clear W0 W1 W2 W3 R0 R1 R2 R3.
  assert (drop 1 (take 4 b) ++ take 4 (drop 4 b) ++ take 4 (drop 8 b) ++ take 4 (drop 12 b) = drop 1 b) as Hcat.
  { do 16 (destruct b as [|? b]; [done|]). destruct b; [done|done]. }
  change (Z.to_nat 0) with 0%nat. change (Z.to_nat 4) with 4%nat. change (Z.to_nat 8) with 8%nat.
  change (Z.to_nat 12) with 12%nat. rewrite drop_0, Hcat. split; [|done].
  subst b. unfold rd. simpl. lia.
Qed.

(** The info byte: a count, and the end marker. *)
Definition info_agree (n : Z) : bool :=
  ((n & 0x1f) =? n) && ((Z.lor n NVKVM_BROKER_CLIP_LAST & 0x1f) =? n) && ((n & NVKVM_BROKER_CLIP_LAST) =? 0)
  && negb ((Z.lor n NVKVM_BROKER_CLIP_LAST & NVKVM_BROKER_CLIP_LAST) =? 0) && (Z.lor n NVKVM_BROKER_CLIP_LAST <? 256).

Lemma info_spec n (last : bool) :
  0 <= n <= 15 -> let i := if last then Z.lor n NVKVM_BROKER_CLIP_LAST else n in
  byte i /\ (i & 0x1f) = n /\ ((i & NVKVM_BROKER_CLIP_LAST) =? 0) = negb last.
Proof.
  intros Hn. pose proof (forall_below info_agree 16 ltac:(vm_compute; reflexivity) n ltac:(lia)) as H.
  unfold info_agree in H. apply andb_true_iff in H as [H H5]. apply andb_true_iff in H as [H H4].
  apply andb_true_iff in H as [H H3]. apply andb_true_iff in H as [H1 H2].
  apply Z.eqb_eq in H1, H2. apply negb_true_iff in H4. apply Z.ltb_lt in H5.
  assert (0 <= Z.lor n NVKVM_BROKER_CLIP_LAST) by (apply Z.lor_nonneg; unfold NVKVM_BROKER_CLIP_LAST; lia).
  destruct last; cbv zeta; unfold byte; (split; [lia|]); by rewrite ?H1, ?H2, ?H3, ?H4.
Qed.

(** ** Reassembly *)
Lemma recv_chunk r fl sq data (last : bool) :
  Forall byte data -> arr_len data <= 15 -> r_bad r = false ->
  0 <= r_chunks r < NVKVM_BROKER_CLIP_MAX_CHUNKS_PKT ->
  arr_len (r_in r) + arr_len data <= NVKVM_BROKER_CLIP_MAX_BYTES ->
  let info := if last then Z.lor (arr_len data) NVKVM_BROKER_CLIP_LAST else arr_len data in
  relay_clip_recv r (clip_pkt fl sq info data) =
  if last then
    Relay [] 0 false (r_registered r)
      (if negb (arr_len (r_in r ++ data) =? 0) && r_registered r then published r ++ [r_in r ++ data] else published r)
  else Relay (r_in r ++ data) (r_chunks r + 1) false (r_registered r) (published r).
Proof.
  intros Hd Hl Hb Hc Ht. cbv zeta. set (info := if last then _ else _).
  assert (0 <= arr_len data) as H0 by (unfold arr_len; lia).
  destruct (info_spec (arr_len data) last ltac:(lia)) as (I1 & I2 & I3). fold info in I1, I2, I3.
  destruct (clip_words fl sq info data I1 Hd) as [C1 C2]; [unfold arr_len in Hl; lia|].
  unfold relay_clip_recv. rewrite C1, C2, I2, I3.
  change NVKVM_BROKER_CLIP_MAX_CHUNKS_PKT with 478 in *. rewrite u32_small by lia.
  rewrite (proj2 (Z.ltb_ge NVKVM_BROKER_CLIP_PKT_BYTES _)) by done.
  rewrite Hb, (proj2 (Z.ltb_ge 478 _)), (proj2 (Z.ltb_ge NVKVM_BROKER_CLIP_MAX_BYTES _)) by lia. cbn [orb negb andb].
  assert ((if negb (arr_len data =? 0) then r_in r ++ take (Z.to_nat (arr_len data)) (data ++ replicate (15 - length data) 0)
           else r_in r) = r_in r ++ data) as ->.
  { destruct (Z.eqb_spec (arr_len data) 0) as [E|E]; cbn [negb].
    - destruct data; [by rewrite app_nil_r|done].
    - unfold arr_len. by rewrite Nat2Z.id, take_app_length. }
  destruct last; done.
Qed.

Lemma slice_len (text : list Z) off n :
  0 <= off -> 0 <= n -> off + n <= arr_len text -> arr_len (take (Z.to_nat n) (drop (Z.to_nat off) text)) = n.
Proof. unfold arr_len. intros. rewrite length_take, length_drop. lia. Qed.

Lemma slice_grow (text : list Z) off n :
  0 <= off -> 0 <= n ->
  take (Z.to_nat off) text ++ take (Z.to_nat n) (drop (Z.to_nat off) text) = take (Z.to_nat (off + n)) text.
Proof. intros. rewrite take_take_drop. f_equal. lia. Qed.

Lemma recv_chunks fuel fl sq text off r :
  Forall byte text -> 0 < arr_len text <= NVKVM_BROKER_CLIP_MAX_BYTES -> 0 <= off < arr_len text ->
  arr_len text - off <= 15 * Z.of_nat fuel ->
  r_in r = take (Z.to_nat off) text -> r_bad r = false -> 15 * r_chunks r = off -> r_registered r = true ->
  fold_left relay_clip_recv (chunk_pkts fuel fl sq text off) r = Relay [] 0 false true (published r ++ [text]).
Proof.
  revert sq off r. induction fuel as [|f IH]; intros sq off r Hb Hl Ho Hf Hin Hbad Hch Hreg; [lia|].
  cbn [chunk_pkts fold_left]. change NVKVM_BROKER_CLIP_PKT_BYTES with 15. unfold NVKVM_BROKER_CLIP_MAX_BYTES in Hl.
  set (n := if 15 <? arr_len text - off then 15 else arr_len text - off).
  assert (0 < n <= 15 /\ off + n <= arr_len text /\ (off + n < arr_len text -> n = 15)) as (Hn & Hon & Hn15)
    by (subst n; case_if; zb; lia).
  set (data := take (Z.to_nat n) (drop (Z.to_nat off) text)).
  assert (arr_len data = n) as Hd by (apply slice_len; lia).
  assert (arr_len (r_in r) = off) as Hr by (rewrite Hin; unfold arr_len in *; rewrite length_take; lia).
  assert (Forall byte data) as Hdb by by apply Forall_take, Forall_drop.
  pose proof (recv_chunk r fl sq data (off + n =? arr_len text) Hdb ltac:(lia) Hbad) as E. cbv zeta in E.
  rewrite Hd in E. rewrite E; [|change NVKVM_BROKER_CLIP_MAX_CHUNKS_PKT with 478; lia|
    change NVKVM_BROKER_CLIP_MAX_BYTES with 7168; lia].
  assert (r_in r ++ data = take (Z.to_nat (off + n)) text) as Ea by (rewrite Hin; apply slice_grow; lia).
  rewrite Ea. destruct (Z.eqb_spec (off + n) (arr_len text)) as [El|El].
  - rewrite (proj2 (Z.ltb_ge _ _)) by lia. cbn [fold_left]. rewrite Hreg.
    rewrite take_ge by (unfold arr_len in *; lia). rewrite (proj2 (Z.eqb_neq _ _)) by lia. done.
  - rewrite (proj2 (Z.ltb_lt _ _)) by lia. rewrite IH; cbn [r_in r_chunks r_bad r_registered published]; try done; lia.
Qed.

(** ** The chord behind the text *)
Definition edges (dsp : display) (s : st) (es : list (Z * bool)) : st :=
  fold_left (fun s e => nb_clip_key_edge dsp s (fst e) (snd e)) es s.

Definition chord_of (s : st) : list (Z * bool) :=
  let sc := held_ctrl (chd s) && negb (nb_guest_modifier_down s KEY_LEFTCTRL KEY_RIGHTCTRL) in
  let sh := held_shift (chd s) && negb (nb_guest_modifier_down s KEY_LEFTSHIFT KEY_RIGHTSHIFT) in
  (if sc then [(KEY_LEFTCTRL, true)] else []) ++ (if sh then [(KEY_LEFTSHIFT, true)] else [])
  ++ [(held_key (chd s), true); (held_key (chd s), false)]
  ++ (if sh then [(KEY_LEFTSHIFT, false)] else []) ++ (if sc then [(KEY_LEFTCTRL, false)] else []).

Lemma finish_edges dsp s :
  held_key (chd s) <> 0 -> client_generation s = held_generation (chd s) ->
  focused (wn s) = true -> 0 <= client_fd s ->
  nb_sink_clip_finish dsp s (client_generation s) true = edges dsp (set_ch s chord0) (chord_of s).
Proof.
  intros Hk Hg Hf Hc. unfold nb_sink_clip_finish. rewrite (proj2 (Z.eqb_neq _ _)) by done.
  rewrite <- Hg, Z.eqb_refl. cbn [negb orb]. cbn [set_ch wn client_fd]. rewrite Hf, (proj2 (Z.ltb_ge _ _)) by done.
  cbn [negb orb]. unfold chord_of, edges.
  change (nb_guest_modifier_down (set_ch s chord0)) with (nb_guest_modifier_down s).
  cbv zeta. generalize (held_ctrl (chd s) && negb (nb_guest_modifier_down s KEY_LEFTCTRL KEY_RIGHTCTRL)).
  generalize (held_shift (chd s) && negb (nb_guest_modifier_down s KEY_LEFTSHIFT KEY_RIGHTSHIFT)).
  intros [] []; cbn [app fold_left fst snd]; reflexivity.
Qed.

Definition shape (p : pkt) : Z * Z * Z := (ptype p, px p, py p).
Definition shape_of (e : Z * bool) : Z * Z * Z := (EV_KEY, fst e, b2z (snd e)).

Lemma edges_queue dsp s es :
  base s -> 0 <= client_fd s -> nb_tx_used (ring s) + arr_len es < NB_TXRING ->
  let s' := edges dsp s es in
  exists ps, base s' /\ client_fd s' = client_fd s /\
    others (contents (ring s')) = others (contents (ring s)) ++ ps /\ shape <$> ps = shape_of <$> es /\
    emitted s' = emitted s ++ ps /\
    key_down (kb s') = fold_left (fun m e => bit_set m (fst e) (snd e)) es (key_down (kb s)).
Proof.
  revert s. induction es as [|[c d] es IH]; intros s Hb Hf Hu; cbv zeta.
  { exists []. rewrite !app_nil_r. by repeat (split; [done|]). }
  assert (arr_len ((c, d) :: es) = 1 + arr_len es) as Hl by (unfold arr_len; simpl; lia).
  assert (0 <= arr_len es) by (unfold arr_len; lia).
  change (edges dsp s ((c, d) :: es)) with (edges dsp (nb_clip_key_edge dsp s c d) es).
  unfold nb_clip_key_edge. set (s1 := set_keys s _).
  assert (base s1) as Hb1 by (destruct Hb; by constructor).
  destruct (emit_cases dsp s1 EV_KEY c (b2z d) 0 0 (b_ring _ Hb1) Hf) as [(r & Hw & Hbg & Ho & Hur & E)|(Hfull & _)];
    [|change (ring s1) with (ring s) in Hfull; lia].
  rewrite E. pose proof (base_emit dsp s1 EV_KEY c (b2z d) 0 0 Hb1) as Hb2. rewrite E in Hb2.
  set (p := pkt_of s1 EV_KEY c (b2z d) 0 0) in *.
  destruct (IH (emit_to s1 r p) Hb2 Hf) as (ps & H1 & H2 & H3 & H4 & H5 & H6);
    [cbn [emit_to ring]; change (ring s1) with (ring s) in Hur; lia|].
  exists (p :: ps). split; [done|]. split; [done|]. split.
  { rewrite H3. cbn [emit_to ring]. rewrite Ho. change (ring s1) with (ring s).
    rewrite others_app, <- app_assoc. done. }
  split; [rewrite fmap_cons, H4; done|]. split; [|done]. rewrite H5. cbn [emit_to emitted]. by rewrite <- app_assoc.
Qed.

Lemma others_clip ps : Forall (fun p => ptype p = EV_CLIPBOARD) ps -> others ps = ps.
Proof.
  induction 1 as [|p ps Hp _ IH]; [done|].
  change (others (p :: ps)) with (if negb (motion p) then p :: others ps else others ps).
  unfold motion. by rewrite Hp, IH.
Qed.

(** Pressing and releasing keys that were up leaves the other keys as they were. *)
Definition set_bits (es : list (Z * bool)) (m : list Z) : list Z :=
  fold_left (fun m e => bit_set m (fst e) (snd e)) es m.

Lemma set_bits_get es m c :
  bits_wf m -> Forall (fun e => 0 <= fst e < 768) es -> 0 <= c < 768 ->
  bit_get (set_bits es m) c =
  fold_left (fun b e => if fst e =? c then snd e else b) es (bit_get m c).
Proof.
  revert m. induction es as [|[k v] es IH]; intros m Hm He Hc; [done|].
  apply Forall_cons in He as [Hk He]. cbn [set_bits fold_left fst snd] in *.
  rewrite <- bit_get_set by done. apply (IH (bit_set m k v)); [|done|done]. apply bit_set_wf; [simpl in Hk; lia|done].
Qed.

Lemma chord_range s : 0 <= held_key (chd s) < 768 -> Forall (fun e => 0 <= fst e < 768) (chord_of s).
Proof.
  intros Hh. unfold chord_of. cbv zeta. repeat case_if; cbn [app];
    repeat (apply Forall_cons; split; [done|]); apply Forall_nil; done.
Qed.

Lemma chord_bits s c :
  bits_wf (key_down (kb s)) -> 0 <= held_key (chd s) < 768 -> 0 <= c < 768 ->
  bit_get (set_bits (chord_of s) (key_down (kb s))) c =
  if held_key (chd s) =? c then false else bit_get (key_down (kb s)) c.
Proof.
  intros Hb Hh Hc. rewrite set_bits_get by (try done; by apply chord_range). unfold chord_of. cbv zeta.
  destruct (held_ctrl (chd s) && _) eqn:E1; destruct (held_shift (chd s) && _) eqn:E2;
    cbn [app fold_left fst snd]; unfold nb_guest_modifier_down in *;
    try (apply andb_true_iff in E1 as [_ E1]; apply negb_true_iff, orb_false_iff in E1 as [E1 _]);
    try (apply andb_true_iff in E2 as [_ E2]; apply negb_true_iff, orb_false_iff in E2 as [E2 _]);
    repeat (case_if; zb; subst); congruence.
Qed.

Lemma chord_length s : arr_len (chord_of s) <= replay_reserve.
Proof.
  unfold chord_of, replay_reserve, arr_len. cbv zeta. rewrite !length_app. repeat case_if; simpl; lia.
Qed.

(** A paste arrives whole.  When [nb_sink_send_clipboard] accepts the text,
    and the held chord is then finished with the window active, the connection
    survives, the queue gains exactly the text's chunks and then the chord, in
    that order; the relay that reads the chunks publishes the text itself; and
    the replayed chord leaves every key as it was except the pasted one, which
    is up. *)
Theorem paste_delivers cfg dsp sn tr g text s1 :
  held sn = false -> Forall ev_ok tr -> Forall byte text ->
  let s := run cfg dsp (nb_sink_init sn) tr in
  nb_sink_send_clipboard s g text = (s1, true) -> focused (wn s) = true ->
  let s2 := nb_sink_clip_finish dsp s1 g true in
  exists ps es,
    client_fd s2 = client_fd s /\ 0 <= client_fd s2 /\
    others (contents (ring s2)) = others (contents (ring s)) ++ ps ++ es /\
    (text <> [] -> fold_left relay_clip_recv ps (Relay [] 0 false true []) = Relay [] 0 false true [text]) /\
    shape <$> es = shape_of <$> chord_of s /\
    forall c, 0 <= c < 768 ->
      bit_get (key_down (kb s2)) c = if held_key (chd s) =? c then false else bit_get (key_down (kb s)) c.
Proof.
  intros Hh Ht Hb s Es Hf s2. destruct (sink_run_ok cfg dsp sn tr Hh Ht) as (Hba & Hk & _). fold s in Hba, Hk.
  clearbody s. destruct (send_cases s g text Hba) as [E|(ps & E & Hps & Hfd & Hlen & Hg & Hg' & Hkey & Hu)];
    rewrite E in Es; [done|]. injection Es as Es.
  assert (numbered (seq s) ps) as Hnum by (rewrite Hps; apply chunk_pkts_numbered).
  destruct (queue_all_spec s ps Hba Hfd Hnum ltac:(unfold replay_reserve in Hu; lia))
    as (Q1 & Q2 & Q3 & Q4 & Q5 & Q6 & Q7 & Q8 & Q9 & _). rewrite Es in *.
  assert (chord_of s1 = chord_of s) as Hco by (unfold chord_of, nb_guest_modifier_down; by rewrite Q8, Q9).
  subst s2. rewrite Hg, <- Q6. rewrite finish_edges by (rewrite ?Q9, ?Q7, ?Q6, ?Q5; try done; congruence).
  destruct (edges_queue dsp (set_ch s1 chord0) (chord_of s1)) as (es & B & F & O & S & _ & K).
  { destruct Q1. by constructor. }
  { cbn. lia. }
  { cbn [set_ch ring]. rewrite Hco. pose proof (chord_length s). lia. }
  exists ps, es. rewrite F. cbn [set_ch client_fd ring kb] in *. split; [done|]. split; [lia|].
  split; [rewrite O, Q3, others_app, (others_clip ps), <- app_assoc; [done|rewrite Hps; apply chunk_pkts_type]|].
  split; [|split; [by rewrite S, Hco|]].
  - intros Hne. rewrite Hps. assert (0 < arr_len text) by (destruct text; [done|unfold arr_len; simpl; lia]).
    apply (recv_chunks _ _ _ text 0); try done.
    unfold clip_count. rewrite (proj2 (Z.eqb_neq _ _)) by lia. unfold NVKVM_BROKER_CLIP_PKT_BYTES.
    rewrite Z2Nat.id by (apply Z.div_pos; lia). Z.div_mod_to_equations; lia.
  - intros c Hc. rewrite K, Hco, Q8. apply chord_bits; [apply Hk|apply Hk|done].
Qed.

(** CTRL+V with the focus on, 40 bytes of host text. *)
Definition demo_text : list Z := seqZ 60 40.
Definition demo_paste : list event :=
  [Accept 7 []; Caps 1; Focus true; Key KEY_LEFTCTRL true; Key KEY_V true; Key KEY_V false; Key KEY_LEFTCTRL false].
Definition demo_queued : st := fst (nb_sink_send_clipboard (run demo_cfg demo_dsp (nb_sink_init demo_sess) demo_paste) 1 demo_text).

Lemma demo_paste_ok : Forall ev_ok demo_paste.
Proof. unfold demo_paste. repeat constructor; done. Qed.

Lemma demo_text_ok : Forall byte demo_text.
Proof. apply Forall_forall. intros c Hc. apply elem_of_seqZ in Hc. unfold byte. lia. Qed.

Lemma demo_sent :
  nb_sink_send_clipboard (run demo_cfg demo_dsp (nb_sink_init demo_sess) demo_paste) 1 demo_text = (demo_queued, true).
Proof. vm_compute. reflexivity. Qed.

Lemma demo_chord :
  let s := run demo_cfg demo_dsp (nb_sink_init demo_sess) demo_paste in
  focused (wn s) = true /\
  chord_of s = [(KEY_LEFTCTRL, true); (KEY_V, true); (KEY_V, false); (KEY_LEFTCTRL, false)].
Proof. vm_compute. auto. Qed.

Lemma paste_delivers_witness :
  let s := run demo_cfg demo_dsp (nb_sink_init demo_sess) demo_paste in
  let s2 := nb_sink_clip_finish demo_dsp demo_queued 1 true in
  exists ps es,
    client_fd s2 = client_fd s /\ 0 <= client_fd s2 /\
    others (contents (ring s2)) = others (contents (ring s)) ++ ps ++ es /\
    (demo_text <> [] ->
     fold_left relay_clip_recv ps (Relay [] 0 false true []) = Relay [] 0 false true [demo_text]) /\
    shape <$> es = shape_of <$> chord_of s /\
    forall c, 0 <= c < 768 ->
      bit_get (key_down (kb s2)) c = if held_key (chd s) =? c then false else bit_get (key_down (kb s)) c.
Proof.
  exact (paste_delivers demo_cfg demo_dsp demo_sess demo_paste 1 demo_text demo_queued eq_refl demo_paste_ok
    demo_text_ok demo_sent (proj1 demo_chord)).
Defined.

End Clip.
