(* ===== verification/BrokerDesc.v ===== *)
(** * BrokerDesc: which buffers the broker hands to the compositor

    Models the descriptor validation of [src/broker/nvkvm_broker.c]
    ([nb_fd_is_dmabuf], [nb_format_resolve], [nb_validate_desc]) and the table of
    advertised formats of [src/broker/nb_common.c].  What the kernel says of the
    descriptor ([fstatfs], [F_GET_SEALS], [lseek], [fstat]) is the record
    [fdinfo].  The reject path's log budget is [BrokerCmd]'s. *)
From S2P Require Import Prelude.

Module Desc.

(** ** Formats *)
Definition NB_FOURCC (a b c d : Z) : Z :=
  Z.lor (Z.lor (Z.lor a (Z.shiftl b 8)) (Z.shiftl c 16)) (Z.shiftl d 24).

Definition FOURCC_XR24 : Z := NB_FOURCC 88 82 50 52.
Definition FOURCC_AR24 : Z := NB_FOURCC 65 82 50 52.
Definition FOURCC_XB24 : Z := NB_FOURCC 88 66 50 52.
Definition FOURCC_AB24 : Z := NB_FOURCC 65 66 50 52.
Definition NB_FOURCC_XR24 : Z := 0x34325258.
Definition NB_FOURCC_AR24 : Z := 0x34325241.

Definition nb_fourcc_bpp (fourcc : Z) : Z :=
  if (fourcc =? FOURCC_XR24) || (fourcc =? FOURCC_AR24) || (fourcc =? FOURCC_XB24) || (fourcc =? FOURCC_AB24)
  then 4 else 0.

Definition nb_fourcc_opaque_twin (fourcc : Z) : Z :=
  if fourcc =? FOURCC_AR24 then FOURCC_XR24 else if fourcc =? FOURCC_AB24 then FOURCC_XB24 else 0.

Definition NB_MAX_FORMATS : Z := 256.
Inductive tier := NB_TIER_AUTO | NB_TIER_NATIVE | NB_TIER_LINEAR | NB_TIER_SHM.
#[global] Instance tier_eq_dec : EqDecision tier.
Proof. solve_decision. Defined.

Record nb_formats := Formats { e : list (Z * Z); overflowed : bool }.

Definition nb_formats_has (f : nb_formats) (fourcc md : Z) : bool :=
  existsb (fun x => (fst x =? fourcc) && (snd x =? md)) (e f).

Definition nb_formats_add (t : tier) (linear_only : bool) (f : nb_formats) (fourcc md : Z) : nb_formats :=
  if (linear_only || bool_decide (t = NB_TIER_LINEAR)) && negb (md =? 0) then f
  else if bool_decide (t = NB_TIER_SHM) then f
  else if nb_fourcc_bpp fourcc =? 0 then f
  else if nb_formats_has f fourcc md then f
  else if NB_MAX_FORMATS <=? arr_len (e f) then Formats (e f) true
  else Formats (e f ++ [(fourcc, md)]) (overflowed f).

(** ** The session's side *)
Definition CAP_DMABUF : Z := 128.
Definition CAP_MODIFIERS : Z := 256.
Definition MOD_INVALID : Z := 0x00ffffffffffffff.

Inductive backend := X11 | Wayland.
Record session := Session { sback : backend; scaps : Z; formats : nb_formats; accept_shm : bool; accept_memfd : bool }.

Definition wl_format_ok (ss : session) (fourcc md : Z) : bool :=
  if (scaps ss & CAP_MODIFIERS) =? 0
  then (md =? MOD_INVALID) && nb_formats_has (formats ss) fourcc MOD_INVALID
  else nb_formats_has (formats ss) fourcc md.

Definition x11_format_ok (ss : session) (fourcc md : Z) : bool := nb_formats_has (formats ss) fourcc md.

Definition format_ok (ss : session) (fourcc md : Z) : bool :=
  match sback ss with X11 => x11_format_ok ss fourcc md | Wayland => wl_format_ok ss fourcc md end.

(** The fourcc to use, if any. *)
Definition nb_format_resolve (ss : session) (fourcc md : Z) : option Z :=
  if format_ok ss fourcc md then Some fourcc
  else
    let twin := nb_fourcc_opaque_twin fourcc in
    if negb (twin =? 0) && format_ok ss twin md then Some twin else None.

(** ** The descriptor *)
Definition DMA_BUF_MAGIC : Z := 0x444d4142.
Definition TMPFS_MAGIC : Z := 0x01021994.
Definition F_SEAL_SHRINK : Z := 2.
Definition CMD_F_SHM : Z := 1.
Definition NVKVM_BROKER_MAX_DIM : Z := 8192.
Definition INT32_MAX : Z := 2147483647.

(** [f_type] and [f_ino] are [None] when the call fails. *)
Record fdinfo := FdInfo { f_type : option Z; f_seals : Z; f_size : Z; f_ino : option Z }.

Record nvkvm_broker_cmd := Cmd {
  ctype : Z; cflags : Z; cwidth : Z; cheight : Z; cstride : Z; coffset : Z; cfourcc : Z; cmodifier : Z;
  cseq : Z; creserved1 : Z }.

Record nb_buf_desc := BufDesc {
  d_fd : Z; d_id : Z; d_size : Z; d_width : Z; d_height : Z; d_stride : Z; d_offset : Z; d_fourcc : Z;
  d_modifier : Z; d_bpp : Z; d_shm : bool; d_seq : Z }.

Definition nb_fd_is_dmabuf (i : fdinfo) (allow_memfd : bool) : bool :=
  match f_type i with
  | None => false
  | Some t => (t =? DMA_BUF_MAGIC) || (allow_memfd && (t =? TMPFS_MAGIC))
  end.

(** The identity the descriptor has to prove. *)
Definition identity_ok (ss : session) (c : nvkvm_broker_cmd) (i : fdinfo) : bool :=
  if negb ((cflags c & CMD_F_SHM) =? 0) then
    if negb (accept_shm ss) then false
    else if negb (match f_type i with Some t => t =? TMPFS_MAGIC | None => false end) then false
    else negb ((f_seals i <? 0) || ((f_seals i & F_SEAL_SHRINK) =? 0))
  else nb_fd_is_dmabuf i (accept_memfd ss).

Definition resolve_desc (ss : session) (c : nvkvm_broker_cmd) : option Z :=
  if negb ((cflags c & CMD_F_SHM) =? 0)
  then if negb (cfourcc c =? NB_FOURCC_XR24) && negb (cfourcc c =? NB_FOURCC_AR24) then None else Some (cfourcc c)
  else nb_format_resolve ss (cfourcc c) (cmodifier c).

(** A refusal, and whether it draws on the reject log's budget. *)
Inductive verdict := Refuse (budgeted : bool) | Accept (d : nb_buf_desc).

Definition nb_validate_desc (ss : session) (c : nvkvm_broker_cmd) (fd : Z) (i : fdinfo) : verdict :=
  if negb (identity_ok ss c i) then Refuse true
  else if (cwidth c =? 0) || (cheight c =? 0) || (NVKVM_BROKER_MAX_DIM <? cwidth c)
          || (NVKVM_BROKER_MAX_DIM <? cheight c) then Refuse true
  else match resolve_desc ss c with
  | None => Refuse true
  | Some fourcc =>
      let bpp := nb_fourcc_bpp fourcc in
      if bpp =? 0 then Refuse true
      else if cstride c <? u64 (cwidth c * bpp) then Refuse true
      else if u64 (u64 (cwidth c * bpp) * 2 + 4096) <? cstride c then Refuse true
      else if f_size i <=? 0 then Refuse true
      else
        let need := u64 (u64 (cstride c * cheight c) + coffset c) in
        if INT32_MAX <? need then Refuse true
        else if f_size i <? need then Refuse true
        else match f_ino i with
        | None => Refuse false
        | Some ino =>
            Accept (BufDesc fd ino (f_size i) (cwidth c) (cheight c) (cstride c) (coffset c) fourcc (cmodifier c) bpp
                      (negb ((cflags c & CMD_F_SHM) =? 0)) (cseq c))
        end
  end.

(** ** Fields of a received command are unsigned words *)
Record cmd_wf (c : nvkvm_broker_cmd) : Prop := {
  wf_flags : 0 <= cflags c < W16; wf_width : 0 <= cwidth c < W32; wf_height : 0 <= cheight c < W32;
  wf_stride : 0 <= cstride c < W32; wf_offset : 0 <= coffset c < W32; wf_fourcc : 0 <= cfourcc c < W32;
  wf_modifier : 0 <= cmodifier c < W64 }.

Lemma bpp_cases f : nb_fourcc_bpp f = 4 \/ nb_fourcc_bpp f = 0.
Proof. unfold nb_fourcc_bpp. case_if; auto. Qed.

Lemma shm_fourcc f : f = NB_FOURCC_XR24 \/ f = NB_FOURCC_AR24 -> nb_fourcc_bpp f = 4.
Proof. by intros [->| ->]. Qed.

(** What an accepted descriptor promises. *)
Record desc_ok (ss : session) (c : nvkvm_broker_cmd) (fd : Z) (i : fdinfo) (d : nb_buf_desc) : Prop := {
  ok_dims : 1 <= d_width d <= NVKVM_BROKER_MAX_DIM /\ 1 <= d_height d <= NVKVM_BROKER_MAX_DIM;
  ok_same : d_fd d = fd /\ d_size d = f_size i /\ d_width d = cwidth c /\ d_height d = cheight c /\
            d_stride d = cstride c /\ d_offset d = coffset c /\ d_modifier d = cmodifier c /\ d_seq d = cseq c /\
            f_ino i = Some (d_id d);
  ok_bpp : d_bpp d = 4 /\ nb_fourcc_bpp (d_fourcc d) = 4;
  ok_row : d_width d * 4 <= d_stride d <= d_width d * 8 + 4096;
  ok_extent : d_stride d * d_height d + d_offset d <= d_size d /\
              d_stride d * d_height d + d_offset d <= INT32_MAX;
  ok_shm : if d_shm d
           then accept_shm ss = true /\ f_type i = Some TMPFS_MAGIC /\ 0 <= f_seals i /\
                (f_seals i & F_SEAL_SHRINK) <> 0 /\ d_fourcc d = cfourcc c
           else (f_type i = Some DMA_BUF_MAGIC \/ accept_memfd ss = true /\ f_type i = Some TMPFS_MAGIC) /\
                format_ok ss (d_fourcc d) (d_modifier d) = true /\
                (d_fourcc d = cfourcc c \/ d_fourcc d = nb_fourcc_opaque_twin (cfourcc c))
}.

Lemma resolve_spec ss f m f' :
  nb_format_resolve ss f m = Some f' -> format_ok ss f' m = true /\ (f' = f \/ f' = nb_fourcc_opaque_twin f).
Proof.
  unfold nb_format_resolve. destruct (format_ok ss f m) eqn:E; [intros [= <-]; auto|].
  destruct (negb (nb_fourcc_opaque_twin f =? 0) && _) eqn:E2; [|done]. intros [= <-].
  apply andb_true_iff in E2 as [_ E2]. auto.
Qed.

Lemma identity_spec ss c i :
  identity_ok ss c i = true ->
  if negb ((cflags c & CMD_F_SHM) =? 0)
  then accept_shm ss = true /\ f_type i = Some TMPFS_MAGIC /\ 0 <= f_seals i /\ (f_seals i & F_SEAL_SHRINK) <> 0
  else f_type i = Some DMA_BUF_MAGIC \/ accept_memfd ss = true /\ f_type i = Some TMPFS_MAGIC.
Proof.
  unfold identity_ok. destruct (negb ((cflags c & CMD_F_SHM) =? 0)).
  - destruct (accept_shm ss); [|done]. cbn [negb]. destruct (f_type i) as [t|]; [|done].
    destruct (Z.eqb_spec t TMPFS_MAGIC) as [->|]; [|done]. cbn [negb]. intros H.
    apply negb_true_iff, orb_false_iff in H as [H1 H2]. zb. done.
  - unfold nb_fd_is_dmabuf. destruct (f_type i) as [t|]; [|done]. intros H.
    apply orb_true_iff in H as [H|H]; [zb; subst; auto|]. apply andb_true_iff in H as [H1 H2]. zb. subst. auto.
Qed.

Lemma validate_sound ss c fd i d : cmd_wf c -> nb_validate_desc ss c fd i = Accept d -> desc_ok ss c fd i d.
Proof.
  intros [_ Hw Hh Hs Ho _ _]. unfold nb_validate_desc.
  destruct (identity_ok ss c i) eqn:Ei; cbn [negb]; [|done]. apply identity_spec in Ei.
  case_if; [done|]. apply orb_false_iff in E as [E E4]. apply orb_false_iff in E as [E E3].
  apply orb_false_iff in E as [E1 E2]. zb. unfold NVKVM_BROKER_MAX_DIM in *.
  destruct (resolve_desc ss c) as [f|] eqn:Er; [|done]. cbv zeta.
  destruct (bpp_cases f) as [Hb|Hb]; rewrite Hb; [|done]. cbn [Z.eqb].
  rewrite !(u64_small (cwidth c * 4)), !(u64_small (cwidth c * 4 * 2 + 4096)) by lia.
  assert (0 <= cstride c * cheight c < W64 - W32) by nia.
  rewrite (u64_small (cstride c * cheight c)), u64_small by lia.
  destruct (cstride c <? cwidth c * 4) eqn:F1; [done|]. destruct (cwidth c * 4 * 2 + 4096 <? cstride c) eqn:F2; [done|].
  destruct (f_size i <=? 0) eqn:F3; [done|]. destruct (INT32_MAX <? _) eqn:F4; [done|].
  destruct (f_size i <? _) eqn:F5; [done|]. destruct (f_ino i) as [ino|] eqn:En; [|done]. intros [= <-]. zb.
  constructor; cbn [d_fd d_id d_size d_width d_height d_stride d_offset d_fourcc d_modifier d_bpp d_shm d_seq];
    unfold NVKVM_BROKER_MAX_DIM; try lia; try done.
  unfold resolve_desc in Er. destruct (negb ((cflags c & CMD_F_SHM) =? 0)).
    + case_if_in Er; [done|]. injection Er as <-. tauto.
    + apply resolve_spec in Er as [? ?]. done.
Qed.

(** No byte outside the buffer.  A descriptor the broker passes on to the
    display describes only bytes the buffer has: every byte of every pixel lies
    below the size the kernel measured, the extent fits a signed 32-bit pool
    size, the dimensions and the pitch are within their bounds, the format is
    one the display advertised for that modifier (or, for shared memory, one of
    the two mapped ones), and the descriptor proved the identity its tier
    requires. *)
Theorem attach_in_bounds ss c fd i d :
  cmd_wf c -> nb_validate_desc ss c fd i = Accept d ->
  desc_ok ss c fd i d /\
  forall x y k, 0 <= x < d_width d -> 0 <= y < d_height d -> 0 <= k < d_bpp d ->
    0 <= d_offset d + y * d_stride d + x * d_bpp d + k < d_size d.
Proof.
  intros Hc Ha. pose proof (validate_sound ss c fd i d Hc Ha) as Hd. split; [done|].
  destruct Hd as [_ (_ & _ & _ & _ & Es & Eo & _) [-> _] Hr [He _] _]. pose proof (wf_offset c Hc).
  intros x y k Hx Hy Hk. rewrite Eo in *. split; nia.
Qed.

(** A 1920x1080 XR24 frame presented as AR24: shown as its opaque twin. *)
Definition demo_session : session := Session X11 128 (Formats [(FOURCC_XR24, 0x0300000000606014)] false) false false.
Definition demo_cmd : nvkvm_broker_cmd :=
  Cmd 1 0 1920 1080 7680 0 FOURCC_AR24 0x0300000000606014 7 0.
Definition demo_fd : fdinfo := FdInfo (Some DMA_BUF_MAGIC) (-1) 8294400 (Some 42).

Lemma attach_in_bounds_witness :
  let d := BufDesc 9 42 8294400 1920 1080 7680 0 FOURCC_XR24 0x0300000000606014 4 false 7 in
  nb_validate_desc demo_session demo_cmd 9 demo_fd = Accept d /\
  desc_ok demo_session demo_cmd 9 demo_fd d /\
  forall x y k, 0 <= x < d_width d -> 0 <= y < d_height d -> 0 <= k < d_bpp d ->
    0 <= d_offset d + y * d_stride d + x * d_bpp d + k < d_size d.
Proof.
  intros d. assert (nb_validate_desc demo_session demo_cmd 9 demo_fd = Accept d) as E by (vm_compute; reflexivity).
  split; [exact E|]. apply (attach_in_bounds demo_session demo_cmd 9 demo_fd d); [|exact E].
  constructor; vm_compute; split; congruence.
Defined.

(** ** The table of advertised formats *)
Record formats_wf (f : nb_formats) : Prop := {
  f_bound : arr_len (e f) <= NB_MAX_FORMATS;
  f_nodup : NoDup (e f);
  f_known : Forall (fun x => nb_fourcc_bpp (fst x) = 4) (e f)
}.

Lemma formats_has_spec f a m : nb_formats_has f a m = true <-> (a, m) ∈ e f.
Proof.
  unfold nb_formats_has. rewrite existsb_exists. split.
  - intros ([a' m'] & Hin & H). cbn [fst snd] in H. apply andb_true_iff in H as [H1 H2]. zb. subst.
    by apply list_elem_of_In.
  - intros H. exists (a, m). split; [by apply list_elem_of_In|]. cbn. by rewrite !Z.eqb_refl.
Qed.

Lemma formats_add_wf t lo f a m : formats_wf f -> formats_wf (nb_formats_add t lo f a m).
Proof.
  intros [Hb Hn Hk]. unfold nb_formats_add. case_if; [done|]. case_if; [done|].
  destruct (bpp_cases a) as [Hp|Hp]; rewrite Hp; cbn [Z.eqb]; [|done].
  destruct (nb_formats_has f a m) eqn:Eh; [done|].
  destruct (Z.leb_spec NB_MAX_FORMATS (arr_len (e f))); [done|].
  constructor; cbn [e].
  - unfold arr_len in *. rewrite length_app. simpl. lia.
  - apply NoDup_app. split; [done|]. split; [|apply NoDup_singleton].
    intros x Hx H1. apply list_elem_of_singleton in H1 as ->.
    apply formats_has_spec in Hx. congruence.
  - apply Forall_app_2; [done|]. by repeat constructor.
Qed.

(** The set a display advertises, from an empty table. *)
Definition advertise (t : tier) (lo : bool) (l : list (Z * Z)) : nb_formats :=
  fold_left (fun f x => nb_formats_add t lo f (fst x) (snd x)) l (Formats [] false).

(** Would [nb_formats_add] keep the pair, room permitting? *)
Definition wanted (t : tier) (lo : bool) (x : Z * Z) : bool :=
  negb ((lo || bool_decide (t = NB_TIER_LINEAR)) && negb (snd x =? 0))
  && negb (bool_decide (t = NB_TIER_SHM)) && negb (nb_fourcc_bpp (fst x) =? 0).

Lemma formats_add_spec t lo f x :
  let f' := nb_formats_add t lo f (fst x) (snd x) in
  (forall y, y ∈ e f' -> y ∈ e f \/ y = x /\ wanted t lo x = true) /\
  (forall y, y ∈ e f -> y ∈ e f') /\
  (overflowed f = true -> overflowed f' = true) /\
  (wanted t lo x = true -> overflowed f' = false -> x ∈ e f').
Proof.
  unfold nb_formats_add, wanted. destruct ((lo || _) && _); cbn [negb andb]; [naive_solver|].
  destruct (bool_decide (t = NB_TIER_SHM)); cbn [negb andb]; [naive_solver|].
  destruct (nb_fourcc_bpp (fst x) =? 0); cbn [negb andb]; [naive_solver|].
  destruct (nb_formats_has f (fst x) (snd x)) eqn:Eh.
  { apply formats_has_spec in Eh. destruct x. naive_solver. }
  case_if; cbn [e overflowed]; [naive_solver|].
  destruct x as [a m]. cbn [fst snd]. set_solver.
Qed.

(** The table is exactly the wanted pairs the display advertised, unless it
    says that it overflowed. *)
Lemma advertise_spec t lo l :
  formats_wf (advertise t lo l) /\
  (forall a m, nb_formats_has (advertise t lo l) a m = true -> (a, m) ∈ l /\ wanted t lo (a, m) = true) /\
  (overflowed (advertise t lo l) = false ->
   forall a m, (a, m) ∈ l -> wanted t lo (a, m) = true -> nb_formats_has (advertise t lo l) a m = true).
Proof.
  unfold advertise. setoid_rewrite formats_has_spec.
  induction l as [|x l IH] using rev_ind.
  { simpl. split; [constructor; [done|apply NoDup_nil_2|constructor]|]. set_solver. }
  rewrite fold_left_app. cbn [fold_left]. set (f := fold_left _ l _) in *. clearbody f.
  destruct IH as (H1 & H2 & H3). destruct (formats_add_spec t lo f x) as (A1 & A2 & A3 & A4). cbv zeta in *.
  split; [by apply formats_add_wf|]. split.
  - intros a m Hin. destruct (A1 _ Hin) as [H|[<- H]]; [|set_solver]. apply H2 in H. set_solver.
  - intros Ho a m Hin Hw. apply elem_of_app in Hin as [Hin|Hin].
    + apply A2, H3; [|done|done]. destruct (overflowed f) eqn:E; [|done]. rewrite A3 in Ho; done.
    + apply list_elem_of_singleton in Hin as <-. by apply A4.
Qed.

End Desc.
