(* ===== verification/BrokerCmd.v ===== *)
(** * BrokerCmd: what a client can make the broker do

    Models the inbound half of [src/broker/nvkvm_broker.c]: the framing and the
    budgets of [nb_sink_readable], the rate limits, and [nb_handle_cmd] with
    every command.  The sender at the other end, the clipboard batch of
    [src/qemu/nvkvm_display_relay.c], is modelled beside it.

    Everything outside is the record [env]: the clock, the answers of [send],
    what the kernel says of a descriptor, and the backend's answers, each by the
    number of the call.  What the broker asks of the display is the list of
    effects.  [closed] (a ghost field of the state) collects the descriptors the
    broker closes. *)
From S2P Require Import Prelude Bytes BrokerUtf8 BrokerTx BrokerSink BrokerDesc.
Import Tx Sink Desc.

Module BCmd.

Definition NVKVM_BROKER_CMD_SIZE : Z := 40.
Definition CMD_ATTACH : Z := 1.
Definition CMD_COMMIT : Z := 2.
Definition CMD_WINDOW : Z := 3.
Definition CMD_CLIPBOARD : Z := 4.
Definition CMD_CAPS : Z := 5.
Definition CMD_QUERY_FORMAT : Z := 6.
Definition CMD_F_ALL : Z := 1.
Definition CLIP_CMD_BYTES : Z := 27.
Definition CLIP_MAX_CHUNKS_CMD : Z := (NVKVM_BROKER_CLIP_MAX_BYTES + CLIP_CMD_BYTES - 1) / CLIP_CMD_BYTES.
Definition NB_REJECT_LOG_PER_SEC : Z := 10.
Definition NB_CLIP_MAX_PER_SEC : Z := 4000.
Definition NB_RX_MAX_PER_SEC : Z := 20000.
Definition NB_RX_BUDGET : Z := 64.
Definition NB_WORK_BUDGET_BYTES : Z := 64 * 1024 * 1024.
Definition SESSION_CLIP_G2H : Z := 1.
Definition BYE_PROTOCOL : Z := 2.

(** ** The outside *)
Record env := Env {
  clk : nat -> Z;                 (* nb_now_ms *)
  snd_ans : nat -> list answer;   (* send *)
  fdi : Z -> fdinfo;
  dback : backend; dformats : nb_formats; dshm : bool; dmemfd : bool;
  attach_r : nat -> Z; commit_r : nat -> Z;
  clip_caps : Z; clip_r : option (nat -> Z);
  cost : nat -> Z                 (* bytes charged by the backend for a command *)
}.

(** What the display is asked to do. *)
Inductive effect :=
| DoAttach (d : nb_buf_desc) (r : Z) | DoCommit (r : Z) | DoSetClipboard (text : list Z) (r : Z)
| DoNotify | DoResize (wd ht : Z).

(** ** Fields of the command state *)
Definition set_rx (s : st) (b : list Z) (fd : Z) : st :=
  let c := cmd s in
  set_cm s (Cmds b fd (window_established c) (rate_ms c) (rate_count c) (rej_log_ms c) (rej_log_count c)
    (rej_log_hidden c) (clip_in c) (clip_in_chunks c) (clip_in_next_chunk c) (clip_in_active c) (clip_in_bad c)
    (clip_rate_ms c) (clip_rate_count c) (caps_seen c) (n_attach c) (n_commit c) (n_reject c)).
Definition set_window (s : st) : st :=
  let c := cmd s in
  set_cm s (Cmds (rx c) (rxfd c) true (rate_ms c) (rate_count c) (rej_log_ms c) (rej_log_count c)
    (rej_log_hidden c) (clip_in c) (clip_in_chunks c) (clip_in_next_chunk c) (clip_in_active c) (clip_in_bad c)
    (clip_rate_ms c) (clip_rate_count c) (caps_seen c) (n_attach c) (n_commit c) (n_reject c)).
Definition set_rate (s : st) (ms n : Z) : st :=
  let c := cmd s in
  set_cm s (Cmds (rx c) (rxfd c) (window_established c) ms n (rej_log_ms c) (rej_log_count c)
    (rej_log_hidden c) (clip_in c) (clip_in_chunks c) (clip_in_next_chunk c) (clip_in_active c) (clip_in_bad c)
    (clip_rate_ms c) (clip_rate_count c) (caps_seen c) (n_attach c) (n_commit c) (n_reject c)).
Definition set_rej (s : st) (ms n h : Z) : st :=
  let c := cmd s in
  set_cm s (Cmds (rx c) (rxfd c) (window_established c) (rate_ms c) (rate_count c) ms n h
    (clip_in c) (clip_in_chunks c) (clip_in_next_chunk c) (clip_in_active c) (clip_in_bad c)
    (clip_rate_ms c) (clip_rate_count c) (caps_seen c) (n_attach c) (n_commit c) (n_reject c)).
Definition set_clip (s : st) (b : list Z) (chunks nxt : Z) (active bad : bool) : st :=
  let c := cmd s in
  set_cm s (Cmds (rx c) (rxfd c) (window_established c) (rate_ms c) (rate_count c) (rej_log_ms c) (rej_log_count c)
    (rej_log_hidden c) b chunks nxt active bad
    (clip_rate_ms c) (clip_rate_count c) (caps_seen c) (n_attach c) (n_commit c) (n_reject c)).
Definition set_cliprate (s : st) (ms n : Z) : st :=
  let c := cmd s in
  set_cm s (Cmds (rx c) (rxfd c) (window_established c) (rate_ms c) (rate_count c) (rej_log_ms c) (rej_log_count c)
    (rej_log_hidden c) (clip_in c) (clip_in_chunks c) (clip_in_next_chunk c) (clip_in_active c) (clip_in_bad c)
    ms n (caps_seen c) (n_attach c) (n_commit c) (n_reject c)).
Definition set_counts (s : st) (a m r : Z) : st :=
  let c := cmd s in
  set_cm s (Cmds (rx c) (rxfd c) (window_established c) (rate_ms c) (rate_count c) (rej_log_ms c) (rej_log_count c)
    (rej_log_hidden c) (clip_in c) (clip_in_chunks c) (clip_in_next_chunk c) (clip_in_active c) (clip_in_bad c)
    (clip_rate_ms c) (clip_rate_count c) (caps_seen c) a m r).
Definition count_attach (s : st) : st := set_counts s (u64 (n_attach (cmd s) + 1)) (n_commit (cmd s)) (n_reject (cmd s)).
Definition count_commit (s : st) : st := set_counts s (n_attach (cmd s)) (u64 (n_commit (cmd s) + 1)) (n_reject (cmd s)).
Definition count_reject (s : st) : st := set_counts s (n_attach (cmd s)) (n_commit (cmd s)) (u64 (n_reject (cmd s) + 1)).

(** ** The wire record *)
Definition parse_cmd (b : list Z) : nvkvm_broker_cmd :=
  Cmd (rd 2 0 b) (rd 2 2 b) (rd 4 4 b) (rd 4 8 b) (rd 4 12 b) (rd 4 16 b) (rd 4 20 b) (rd 8 24 b) (rd 4 32 b) (rd 4 36 b).

Record clip_cmd := ClipCmd { cc_chunk : Z; cc_reserved1 : Z; cc_info : Z; cc_data : list Z }.
Definition parse_clip (b : list Z) : clip_cmd :=
  ClipCmd (rd 4 4 b) (rd 4 8 b) (rd 1 12 b) (take 27 (drop 13 b)).

Section Ops.
Context (cfg : config) (dsp : display) (en : env).

Definition tick (s : st) : st := set_ss s (called (se s) (held (se s))).
Definition nb_now_ms (s : st) : st * Z := (tick s, clk en (calls (se s))).

(** ** Budgets over one second *)
Definition nb_reject_log (s : st) : st * bool :=
  let '(s, now) := nb_now_ms s in
  let s := if 1000 <=? now ⊖ rej_log_ms (cmd s) then set_rej s now 0 0 else s in
  let n := u32 (rej_log_count (cmd s) + 1) in
  let s := set_rej s (rej_log_ms (cmd s)) n (rej_log_hidden (cmd s)) in
  if NB_REJECT_LOG_PER_SEC <? n
  then (set_rej s (rej_log_ms (cmd s)) n (u32 (rej_log_hidden (cmd s) + 1)), false)
  else (s, true).

Definition nb_clip_rate_exceeded (s : st) : st * bool :=
  let '(s, now) := nb_now_ms s in
  let s := if 1000 <=? now ⊖ clip_rate_ms (cmd s) then set_cliprate s now 0 else s in
  let n := u32 (clip_rate_count (cmd s) + 1) in
  (set_cliprate s (clip_rate_ms (cmd s)) n, NB_CLIP_MAX_PER_SEC <? n).

Definition nb_rate_exceeded (s : st) : st * bool :=
  let '(s, now) := nb_now_ms s in
  let s := if 1000 <=? now ⊖ rate_ms (cmd s) then set_rate s now 0 else s in
  let n := u32 (rate_count (cmd s) + 1) in
  (set_rate s (rate_ms (cmd s)) n, NB_RX_MAX_PER_SEC <? n).

Definition nb_violation (s : st) : st :=
  nb_sink_detach dsp (nb_sink_bye dsp (tick s) (snd_ans en (calls (se s))) BYE_PROTOCOL).

(** [if (fd >= 0) close(fd);] *)
Definition drop_fd (s : st) (fd : Z) : st := if 0 <=? fd then close_fd s fd else s.

Definition dsession (s : st) : session := Session (dback en) (caps (se s)) (dformats en) (dshm en) (dmemfd en).

(** ** Commands *)
Definition cmd_attach (s : st) (c : nvkvm_broker_cmd) (fd : Z) : st * list effect :=
  if negb (creserved1 c =? 0) then (nb_violation (drop_fd s fd), [])
  else if fd <? 0 then (nb_violation s, [])
  else
    let s := count_attach s in
    if (caps (se s) & CAP_DMABUF) =? 0 then (count_reject (close_fd s fd), [])
    else match nb_validate_desc (dsession s) c fd (fdi en fd) with
    | Refuse budgeted =>
        let s := if budgeted then fst (nb_reject_log s) else s in
        (count_reject (close_fd s fd), [])
    | Desc.Accept d =>
        let r := attach_r en (calls (se s)) in
        let s := close_fd (tick s) fd in
        let s := if negb (r =? 0) then fst (nb_reject_log (count_reject s)) else s in
        (s, [DoAttach d r])
    end.

Definition cmd_query (s : st) (c : nvkvm_broker_cmd) (fd : Z) : st * list effect :=
  if negb (creserved1 c =? 0) then (nb_violation (drop_fd s fd), [])
  else
    let s := drop_fd s fd in
    let ok := match nb_format_resolve (dsession s) (cfourcc c) (cmodifier c) with Some _ => 1 | None => 0 end in
    let s := fst (nb_reject_log s) in
    (nb_emit dsp s EV_FORMAT ok (s32 (cfourcc c)) (cmodifier c & 0xffffffff) (u32 (Z.shiftr (cmodifier c) 32)), []).

Definition cmd_commit (s : st) (c : nvkvm_broker_cmd) (fd : Z) : st * list effect :=
  if negb (creserved1 c =? 0) then (nb_violation (drop_fd s fd), [])
  else if 0 <=? fd then (nb_violation (close_fd s fd), [])
  else if negb (cwidth c =? 0) || negb (cheight c =? 0) || negb (cstride c =? 0) || negb (coffset c =? 0)
          || negb (cfourcc c =? 0) || negb (cmodifier c =? 0) then (nb_violation s, [])
  else
    let s := count_commit s in
    (tick s, [DoCommit (commit_r en (calls (se s)))]).

(** The end of a transaction: the text, if it survived. *)
Definition clip_last (s : st) : st * list effect :=
  let text := clip_in (cmd s) in
  let bad := clip_in_bad (cmd s) in
  let s := set_clip s [] 0 0 false false in
  if bad || (arr_len text =? 0) then (s, [])
  else if negb (match Utf8.nb_utf8_ok text (arr_len text) with Some b => b | None => false end) then (s, [])
  else if (clip_caps en & SESSION_CLIP_G2H) =? 0 then (s, [])
  else match clip_r en with
  | None => (s, [])
  | Some f =>
      let r := f (calls (se s)) in
      (tick s, DoSetClipboard text r :: (if r =? 0 then [DoNotify] else []))
  end.

Definition cmd_clipboard (s : st) (b : list Z) (fd : Z) : st * list effect :=
  let cc := parse_clip b in
  if 0 <=? fd then (nb_violation (close_fd s fd), [])
  else if negb (cc_reserved1 cc =? 0) then (nb_violation s, [])
  else
    let n := cc_info cc & 0x1f in
    if CLIP_CMD_BYTES <? n then (nb_violation s, [])
    else
      let s := if cc_chunk cc =? 0 then set_clip s [] 0 0 true false else s in
      if negb (clip_in_active (cmd s)) || negb (cc_chunk cc =? clip_in_next_chunk (cmd s)) then (nb_violation s, [])
      else
        let s := set_clip s (clip_in (cmd s)) (u32 (clip_in_chunks (cmd s) + 1)) (u32 (clip_in_next_chunk (cmd s) + 1))
                   (clip_in_active (cmd s)) (clip_in_bad (cmd s)) in
        let '(s, bad) :=
          if clip_mode cfg =? NB_CLIP_OFF
          then (set_tl s (Told true (told_noclient (td s)) (told_noagent (td s))), true)
          else (s, clip_in_bad (cmd s)) in
        let '(s, over) := nb_clip_rate_exceeded s in
        let bad := bad || over in
        let bad := bad || (CLIP_MAX_CHUNKS_CMD <? clip_in_chunks (cmd s))
                   || (u32 (NVKVM_BROKER_CLIP_MAX_BYTES - arr_len (clip_in (cmd s))) <? n) in
        let buf := if negb bad then clip_in (cmd s) ++ take (Z.to_nat n) (cc_data cc) else clip_in (cmd s) in
        let s := set_clip s buf (clip_in_chunks (cmd s)) (clip_in_next_chunk (cmd s)) (clip_in_active (cmd s)) bad in
        if negb ((cc_info cc & NVKVM_BROKER_CLIP_LAST) =? 0) then clip_last s else (s, []).

Definition cmd_caps (s : st) (c : nvkvm_broker_cmd) (fd : Z) : st * list effect :=
  if negb (creserved1 c =? 0) then (nb_violation (drop_fd s fd), [])
  else if 0 <=? fd then (nb_violation (close_fd s fd), [])
  else if negb (cheight c =? 0) || negb (cstride c =? 0) || negb (coffset c =? 0) || negb (cfourcc c =? 0)
          || negb (cmodifier c =? 0) then (nb_violation s, [])
  else (note_caps s (cwidth c), []).

Definition cmd_window (s : st) (c : nvkvm_broker_cmd) (fd : Z) : st * list effect :=
  if negb (creserved1 c =? 0) then (nb_violation (drop_fd s fd), [])
  else if 0 <=? fd then (nb_violation (close_fd s fd), [])
  else if negb (cstride c =? 0) || negb (coffset c =? 0) || negb (cfourcc c =? 0) || negb (cmodifier c =? 0)
       then (nb_violation s, [])
  else if (cwidth c =? 0) || (cheight c =? 0) || (NVKVM_BROKER_MAX_DIM <? cwidth c)
          || (NVKVM_BROKER_MAX_DIM <? cheight c) then (fst (nb_reject_log (count_reject s)), [])
  else if negb (window_established (cmd s)) then (set_window s, [DoResize (cwidth c) (cheight c)])
  else (s, []).

Definition nb_handle_cmd (s : st) (b : list Z) (fd : Z) : st * list effect :=
  let c := parse_cmd b in
  if negb ((cflags c & u16 (Z.lnot CMD_F_ALL)) =? 0) then (nb_violation (drop_fd s fd), [])
  else if ctype c =? CMD_ATTACH then cmd_attach s c fd
  else if ctype c =? CMD_QUERY_FORMAT then cmd_query s c fd
  else if ctype c =? CMD_COMMIT then cmd_commit s c fd
  else if ctype c =? CMD_CLIPBOARD then cmd_clipboard s b fd
  else if ctype c =? CMD_CAPS then cmd_caps s c fd
  else if ctype c =? CMD_WINDOW then cmd_window s c fd
  else (nb_violation (drop_fd s fd), []).

(** ** The drain loop *)
Inductive recv := Data (bs : list Z) (fds : list Z) (ctrunc : bool) | RAgain | RErr.

(** The control-message walk: the first descriptor is banked unless one is. *)
Definition bank_fd (s : st) (fd : Z) : st :=
  if rxfd (cmd s) <? 0 then set_rx s (rx (cmd s)) fd else close_fd s fd.

(** A complete command: the budget of one second, then the handler. *)
Definition one_cmd (s : st) : st * list effect * bool :=
  let b := rx (cmd s) in
  let fd := rxfd (cmd s) in
  let '(s1, over) := nb_rate_exceeded (set_rx s [] (-1)) in
  if over then (nb_violation (drop_fd s1 fd), [], true)
  else (nb_handle_cmd (tick s1) b fd, false).

(** [ins]: what [recvmsg] returns, by call, once no signal interrupts it: a call
    that ends with EINTR is made again at once and has no other effect.  A read is
    at most what was asked; an empty one is the end of the stream.  The result also counts the calls and
    collects the descriptors received. *)
Fixpoint readable_loop (fuel : nat) (ins : nat -> recv) (i : nat) (s : st) (budget work : Z)
  : option (st * list effect * list Z * nat) :=
  match fuel with
  | O => None
  | S f =>
      if client_fd s <? 0 then Some (s, [], [], i)
      else match ins i with
      | RAgain => Some (s, [], [], S i)
      | RErr => Some (nb_sink_detach dsp s, [], [], S i)
      | Data bs fds ctrunc =>
          let bs := take (Z.to_nat NVKVM_BROKER_CMD_SIZE - length (rx (cmd s))) bs in
          if bool_decide (bs = []) then Some (nb_sink_detach dsp s, [], [], S i)
          else
            let had_fd := 0 <=? rxfd (cmd s) in
            let s := fold_left bank_fd fds s in
            let nfd := arr_len fds in
            if (1 <? nfd) || ((nfd =? 1) && had_fd) || ctrunc then Some (nb_violation s, [], fds, S i)
            else
              let s := set_rx s (rx (cmd s) ++ bs) (rxfd (cmd s)) in
              if arr_len (rx (cmd s)) <? NVKVM_BROKER_CMD_SIZE then
                match readable_loop f ins (S i) s budget work with
                | None => None
                | Some (s, es, took, j) => Some (s, es, fds ++ took, j)
                end
              else
                let work := u64 (work + cost en (calls (se s))) in
                let '(s, es, over) := one_cmd s in
                if over then Some (s, es, fds, S i)
                else
                  if (budget - 1 =? 0) || (NB_WORK_BUDGET_BYTES <=? work) then Some (s, es, fds, S i)
                  else match readable_loop f ins (S i) s (budget - 1) work with
                  | None => None
                  | Some (s, es', took, j) => Some (s, es ++ es', fds ++ took, j)
                  end
      end
  end.

(** One wakeup: at most 64 commands of 40 bytes, one byte at a time. *)
Definition rx_fuel : nat := Z.to_nat (NB_RX_BUDGET * NVKVM_BROKER_CMD_SIZE).

Definition nb_sink_readable (ins : nat -> recv) (s : st) : option (st * list effect * list Z * nat) :=
  readable_loop rx_fuel ins 0 s NB_RX_BUDGET 0.

End Ops.

(** ** The sink's invariants and the descriptors, through one operation *)
Definition good (s : st) : Prop := base s /\ keys s /\ grab_ok s.

Definition bank (s : st) : list Z := if 0 <=? rxfd (cmd s) then [rxfd (cmd s)] else [].
Definition conn (s : st) : list Z := if 0 <=? client_fd s then [client_fd s] else [].

(** Every descriptor the broker was given: closed, banked, or the connection. *)
Definition total (s : st) : list Z := closed s ++ bank s ++ conn s.

(** From [s] to [s'] with the descriptors [x] coming in. *)
Record sound (s s' : st) (x : list Z) : Prop := {
  s_good : good s';
  s_total : total s' ≡ₚ total s ++ x;
  s_keep : keep s s'
}.

Lemma sound_refl s : good s -> sound s s [].
Proof. intros. constructor; [done|by rewrite app_nil_r|apply keep_refl]. Qed.

Lemma good_of s s' :
  base s' -> key_down (kb s') = key_down (kb s) -> emitted s' = emitted s -> client_fd s' = client_fd s ->
  wn s' = wn s -> held_key (chd s') = held_key (chd s) -> caps (se s') = caps (se s) -> held (se s') = held (se s) ->
  good s -> good s'.
Proof.
  intros Hb E1 E2 E3 E4 E5 E6 E7 (_ & Hk & Hg). split; [done|]. split; [apply (keys_of s); congruence|].
  apply (grab_keep s); [|done]. apply keep_of; congruence.
Qed.

(** A step that changes neither the connection nor the descriptors. *)
Lemma sound_of s s1 s' x :
  (base s1 -> base s') -> key_down (kb s') = key_down (kb s1) -> emitted s' = emitted s1 ->
  client_fd s' = client_fd s1 -> wn s' = wn s1 -> held_key (chd s') = held_key (chd s1) ->
  caps (se s') = caps (se s1) -> held (se s') = held (se s1) ->
  rxfd (cmd s') = rxfd (cmd s1) -> closed s' = closed s1 -> sound s s1 x -> sound s s' x.
Proof.
  intros Hb E1 E2 E3 E4 E5 E6 E7 E8 E9 [Hg Ht Hc]. constructor;
    [|unfold total, bank, conn in *|apply (keep_trans s s1); [done|apply keep_of; congruence]].
  - apply (good_of s1); try done. apply Hb, Hg.
  - by rewrite E8, E9, E3.
Qed.

Lemma sound_cm s s1 c x : sound s s1 x -> rxfd c = rxfd (cmd s1) -> sound s (set_cm s1 c) x.
Proof. intros H E. apply (sound_of s s1); try done. apply base_set_cm. Qed.

Lemma sound_tick s s1 x : sound s s1 x -> sound s (tick s1) x.
Proof. intros H. apply (sound_of s s1); try done. apply base_set_ss. Qed.

Lemma sound_tl s s1 t x : sound s s1 x -> sound s (set_tl s1 t) x.
Proof. intros H. apply (sound_of s s1); try done. apply base_set_tl. Qed.

Lemma sound_close s s1 fd x : sound s s1 x -> sound s (close_fd s1 fd) (x ++ [fd]).
Proof.
  intros [Hg Ht Hc]. constructor; [|unfold total, bank, conn in *; cbn [close_fd set_closed closed cmd client_fd]|
    by apply (keep_trans s s1); [|apply keep_of]].
  - apply (good_of s1); try done. apply base_close, Hg.
  - rewrite (app_assoc _ x [fd]), <- Ht. solve_Permutation.
Qed.

Definition fdl (fd : Z) : list Z := if 0 <=? fd then [fd] else [].

Lemma sound_drop s s1 fd x : sound s s1 x -> sound s (drop_fd s1 fd) (x ++ fdl fd).
Proof. intros H. unfold drop_fd, fdl. case_if; [by apply sound_close|by rewrite app_nil_r]. Qed.

Lemma total_detach dsp s : total (nb_sink_detach dsp s) ≡ₚ total s.
Proof.
  unfold nb_sink_detach. destruct (Z.ltb_spec (client_fd s) 0) as [H|H]; [done|].
  unfold nb_client_state_reset, x11_set_grab, total, bank, conn.
  destruct s as [fd gen sq wi ki ci ti co ri si em sn wr cl]. destruct wi as [f p g u], si as [cp wd ht hl n].
  cbn in H |- *. rewrite (proj2 (Z.leb_le 0 fd)) by done.
  destruct g, hl; cbn; case_if; cbn; rewrite ?app_nil_r; solve_Permutation.
Qed.

Lemma good_detach dsp s : good s -> good (nb_sink_detach dsp s).
Proof.
  intros (Hb & Hk & Hg). split; [by apply base_detach|]. split; [by apply keys_detach|].
  apply (grab_keep s); [apply keep_detach|done].
Qed.

Lemma sound_detach dsp s s1 x : sound s s1 x -> sound s (nb_sink_detach dsp s1) x.
Proof.
  intros [Hg Ht Hc]. constructor; [by apply good_detach|by rewrite total_detach|].
  apply (keep_trans s s1); [done|apply keep_detach].
Qed.

Lemma total_emit dsp s ty x y w0 w1 : total (nb_emit dsp s ty x y w0 w1) ≡ₚ total s.
Proof.
  destruct (emit_spec dsp s ty x y w0 w1) as [[_ ->]|[(_ & r & ->)|(Hf & r & ->)]]; [done|done|].
  by rewrite total_detach.
Qed.

Lemma sound_emit dsp s s1 ty x y w0 w1 l :
  plain ty = true -> sound s s1 l -> sound s (nb_emit dsp s1 ty x y w0 w1) l.
Proof.
  intros Hp [(Hb & Hk & Hg) Ht Hc]. constructor; [|by rewrite total_emit|].
  - split; [by apply base_emit|]. split; [by apply keys_plain|].
    apply (grab_keep s1); [apply keep_emit|done].
  - apply (keep_trans s s1); [done|apply keep_emit].
Qed.

Lemma sound_flush ans s s1 l : sound s s1 l -> sound s (fst (nb_sink_flush ans s1)) l.
Proof.
  intros [(Hb & Hk & Hg) Ht Hc]. constructor.
  - split; [by apply base_flush|]. split; [by apply keys_flush|]. apply (grab_keep s1); [apply keep_flush|done].
  - unfold nb_sink_flush. case_if; [done|]. destruct (flush ans (ring s1)) as [[r bs] e]. done.
  - apply (keep_trans s s1); [done|apply keep_flush].
Qed.

Lemma sound_violation dsp en s s1 l : sound s s1 l -> sound s (nb_violation dsp en s1) l.
Proof.
  intros H. unfold nb_violation, nb_sink_bye. apply sound_detach, sound_flush, sound_emit; [done|]. by apply sound_tick.
Qed.

Create HintDb bcmd.
#[local] Hint Resolve sound_cm sound_tick sound_tl sound_close sound_drop sound_detach sound_violation sound_refl : bcmd.

Lemma sound_reject_log en s s1 l : sound s s1 l -> sound s (fst (nb_reject_log en s1)) l.
Proof.
  intros H. unfold nb_reject_log, nb_now_ms, set_rej. cbv zeta. repeat case_if; cbn [fst];
    repeat (apply sound_cm; [|done]); by apply sound_tick.
Qed.

Lemma sound_clip_rate en s s1 l : sound s s1 l -> sound s (fst (nb_clip_rate_exceeded en s1)) l.
Proof.
  intros H. unfold nb_clip_rate_exceeded, nb_now_ms, set_cliprate. cbv zeta. repeat case_if; cbn [fst];
    repeat (apply sound_cm; [|done]); by apply sound_tick.
Qed.

Lemma sound_rate en s s1 l : sound s s1 l -> sound s (fst (nb_rate_exceeded en s1)) l.
Proof.
  intros H. unfold nb_rate_exceeded, nb_now_ms, set_rate. cbv zeta. repeat case_if; cbn [fst];
    repeat (apply sound_cm; [|done]); by apply sound_tick.
Qed.
#[local] Hint Resolve sound_reject_log sound_clip_rate sound_rate : bcmd.

Lemma sound_counts s s1 a m r l : sound s s1 l -> sound s (set_counts s1 a m r) l.
Proof. intros H. by apply sound_cm. Qed.
Lemma sound_set_clip s s1 b c n a d l : sound s s1 l -> sound s (set_clip s1 b c n a d) l.
Proof. intros H. by apply sound_cm. Qed.

(** ** What stays of the command state *)

(** A property of the command state that a fresh connection has. *)
Section CmdState.
Context (P : cmds -> Prop) (P0 : P cmds0).

Lemma cmdP_detach dsp s : P (cmd s) -> P (cmd (nb_sink_detach dsp s)).
Proof.
  intros H. unfold nb_sink_detach. case_if; [done|]. unfold nb_client_state_reset. by case_if.
Qed.

Lemma cmdP_emit dsp s ty x y w0 w1 : P (cmd s) -> P (cmd (nb_emit dsp s ty x y w0 w1)).
Proof.
  intros H. destruct (emit_spec dsp s ty x y w0 w1) as [[_ ->]|[(_ & r & ->)|(Hf & r & ->)]]; [done|done|].
  by apply cmdP_detach.
Qed.

Lemma cmdP_violation dsp en s : P (cmd s) -> P (cmd (nb_violation dsp en s)).
Proof.
  intros H. unfold nb_violation, nb_sink_bye. apply cmdP_detach. unfold nb_sink_flush.
  match goal with |- context [nb_emit dsp ?a ?b ?c ?d ?e ?f] =>
    pose proof (cmdP_emit dsp a b c d e f H) as He; set (s1 := nb_emit dsp a b c d e f) in * end.
  clearbody s1. case_if; [done|]. destruct (flush _ (ring s1)) as [[r bs] e]. done.
Qed.
End CmdState.

Lemma cmd_drop s fd : cmd (drop_fd s fd) = cmd s.
Proof. unfold drop_fd. by case_if. Qed.

Definition same_but_log (c c' : cmds) : Prop :=
  rx c' = rx c /\ rxfd c' = rxfd c /\ window_established c' = window_established c /\ clip_in c' = clip_in c /\
  clip_in_chunks c' = clip_in_chunks c /\ clip_in_next_chunk c' = clip_in_next_chunk c /\
  clip_in_active c' = clip_in_active c /\ clip_in_bad c' = clip_in_bad c.

Lemma reject_log_same en s : same_but_log (cmd s) (cmd (fst (nb_reject_log en s))).
Proof. unfold nb_reject_log, nb_now_ms. cbv zeta. by repeat case_if. Qed.
Lemma clip_rate_same en s : same_but_log (cmd s) (cmd (fst (nb_clip_rate_exceeded en s))).
Proof. unfold nb_clip_rate_exceeded, nb_now_ms. cbv zeta. by repeat case_if. Qed.
Lemma rate_same en s : same_but_log (cmd s) (cmd (fst (nb_rate_exceeded en s))).
Proof. unfold nb_rate_exceeded, nb_now_ms. cbv zeta. by repeat case_if. Qed.

(** Between commands: nothing half read, a bounded clipboard. *)
Record idle (c : cmds) : Prop := {
  id_rx : rx c = []; id_fd : rxfd c = -1;
  id_clip : arr_len (clip_in c) <= NVKVM_BROKER_CLIP_MAX_BYTES; id_bytes : Forall byte (clip_in c)
}.

Lemma idle0 : idle cmds0.
Proof. by constructor. Qed.

Lemma idle_same c c' : same_but_log c c' -> idle c -> idle c'.
Proof. intros (E1 & E2 & _ & E3 & _) [H1 H2 H3 H4]. constructor; by rewrite ?E1, ?E2, ?E3. Qed.

(** ** What the display is asked *)
Definition eff_ok (cfg : config) (en : env) (capsv : Z) (e : effect) : Prop :=
  match e with
  | DoAttach d _ =>
      exists c fd, 0 <= fd /\
        desc_ok (Session (dback en) capsv (dformats en) (dshm en) (dmemfd en)) c fd (fdi en fd) d
  | DoSetClipboard text _ =>
      clip_mode cfg <> NB_CLIP_OFF /\ (clip_caps en & SESSION_CLIP_G2H) <> 0 /\
      0 < arr_len text <= NVKVM_BROKER_CLIP_MAX_BYTES /\
      exists! cs, Forall Utf8.scalar cs /\ text = Utf8.encode_all cs
  | DoResize wd ht => 1 <= wd <= NVKVM_BROKER_MAX_DIM /\ 1 <= ht <= NVKVM_BROKER_MAX_DIM
  | DoCommit _ | DoNotify => True
  end.

(** The outcome of a command on [fd]. *)
Record cmd_ok (cfg : config) (en : env) (s : st) (fd : Z) (r : st * list effect) : Prop := {
  co_sound : sound s (fst r) (fdl fd);
  co_idle : idle (cmd (fst r));
  co_eff : Forall (eff_ok cfg en (caps (se s))) (snd r);
  co_few : (length (snd r) <= 2)%nat
}.

Lemma viol_ok cfg dsp en s s1 fd :
  sound s s1 (fdl fd) -> idle (cmd s1) -> cmd_ok cfg en s fd (nb_violation dsp en s1, []).
Proof.
  intros H Hi. constructor; cbn [fst snd]; [by apply sound_violation| |constructor|simpl; lia].
  apply cmdP_violation; [apply idle0|done].
Qed.

Lemma drop_viol_ok cfg dsp en s fd :
  good s -> idle (cmd s) -> cmd_ok cfg en s fd (nb_violation dsp en (drop_fd s fd), []).
Proof.
  intros Hg Hi. apply viol_ok; [|by rewrite cmd_drop]. by apply (sound_drop s s fd []), sound_refl.
Qed.

Lemma fdl_pos fd : (0 <=? fd) = true -> fdl fd = [fd].
Proof. unfold fdl. by intros ->. Qed.
Lemma fdl_neg fd : (0 <=? fd) = false -> fdl fd = [].
Proof. unfold fdl. by intros ->. Qed.

Lemma parse_cmd_wf b : Forall byte b -> cmd_wf (parse_cmd b).
Proof.
  intros Hb. constructor;
    [exact (rd_range 2 2 b Hb)|exact (rd_range 4 4 b Hb)|exact (rd_range 4 8 b Hb)|exact (rd_range 4 12 b Hb)|
     exact (rd_range 4 16 b Hb)|exact (rd_range 4 20 b Hb)|exact (rd_range 8 24 b Hb)].
Qed.

(** A refusal, or a command that only changes the state. *)
Lemma quiet_ok cfg en s s1 fd : sound s s1 (fdl fd) -> idle (cmd s1) -> cmd_ok cfg en s fd (s1, []).
Proof. intros. constructor; cbn [fst snd]; [done|done|constructor|simpl; lia]. Qed.

Lemma attach_cmd_ok cfg dsp en s c fd :
  cmd_wf c -> good s -> idle (cmd s) -> cmd_ok cfg en s fd (cmd_attach dsp en s c fd).
Proof.
  intros Hc Hg Hi. unfold cmd_attach. case_if; [by apply drop_viol_ok|].
  destruct (Z.ltb_spec fd 0) as [Hf|Hf].
  { apply viol_ok; [|done]. rewrite fdl_neg by (apply Z.leb_gt; lia). by apply sound_refl. }
  assert (fdl fd = [] ++ [fd]) as Ef by (by rewrite fdl_pos by (by apply Z.leb_le)).
  assert (sound s (count_attach s) []) as H1 by (apply sound_counts; by apply sound_refl).
  assert (idle (cmd (count_attach s))) as I1 by (destruct Hi; by constructor).
  assert (caps (se (count_attach s)) = caps (se s)) as C1 by done.
  cbv zeta. generalize dependent (count_attach s). intros s1 H1 I1 C1.
  case_if.
  { apply quiet_ok; [rewrite Ef; by apply sound_counts, sound_close|destruct I1; by constructor]. }
  destruct (nb_validate_desc (dsession en s1) c fd (fdi en fd)) as [bg|d] eqn:Ev.
  - apply quiet_ok; [rewrite Ef; apply sound_counts, sound_close; destruct bg; [by apply sound_reject_log|done]|].
    assert (idle (cmd (if bg then fst (nb_reject_log en s1) else s1))) as I2
      by (destruct bg; [apply (idle_same (cmd s1)); [apply reject_log_same|done]|done]).
    destruct I2. by constructor.
  - set (s2 := close_fd (tick s1) fd).
    assert (sound s s2 (fdl fd)) as H2 by (rewrite Ef; by apply sound_close, sound_tick).
    constructor; cbn [fst snd]; [| |constructor; [|constructor]|simpl; lia].
    + case_if; [|done]. by apply sound_reject_log, sound_counts.
    + case_if; [|done]. apply (idle_same (cmd (count_reject s2))); [apply reject_log_same|]. destruct I1; by constructor.
    + exists c, fd. split; [done|]. rewrite <- C1. by apply validate_sound.
Qed.

Lemma query_cmd_ok cfg dsp en s c fd :
  good s -> idle (cmd s) -> cmd_ok cfg en s fd (cmd_query dsp en s c fd).
Proof.
  intros Hg Hi. unfold cmd_query. case_if; [by apply drop_viol_ok|]. cbv zeta.
  assert (sound s (drop_fd s fd) (fdl fd)) as H1 by (by apply (sound_drop s s fd []), sound_refl).
  apply quiet_ok.
  - apply sound_emit; [done|]. by apply sound_reject_log.
  - apply cmdP_emit; [apply idle0|]. apply (idle_same (cmd (drop_fd s fd))); [apply reject_log_same|by rewrite cmd_drop].
Qed.

(** The tests common to the commands that carry no descriptor. *)
Lemma no_fd_ok cfg dsp en s c fd (k : st * list effect) :
  good s -> idle (cmd s) -> (fdl fd = [] -> cmd_ok cfg en s fd k) ->
  cmd_ok cfg en s fd
    (if negb (creserved1 c =? 0) then (nb_violation dsp en (drop_fd s fd), [])
     else if 0 <=? fd then (nb_violation dsp en (close_fd s fd), []) else k).
Proof.
  intros Hg Hi Hk. case_if; [by apply drop_viol_ok|]. destruct (0 <=? fd) eqn:Ef.
  - apply viol_ok; [|done]. rewrite (fdl_pos fd Ef). by apply (sound_close s s fd []), sound_refl.
  - apply Hk. by apply fdl_neg.
Qed.

Lemma commit_cmd_ok cfg dsp en s c fd : good s -> idle (cmd s) -> cmd_ok cfg en s fd (cmd_commit dsp en s c fd).
Proof.
  intros Hg Hi. unfold cmd_commit. apply no_fd_ok; [done|done|]. intros Ef.
  case_if; [apply viol_ok; [rewrite Ef; by apply sound_refl|done]|].
  constructor; cbn [fst snd]; [rewrite Ef; by apply sound_tick, sound_counts, sound_refl| |by repeat constructor|simpl; lia].
  destruct Hi; by constructor.
Qed.

Lemma caps_cmd_ok cfg dsp en s c fd : good s -> idle (cmd s) -> cmd_ok cfg en s fd (cmd_caps dsp en s c fd).
Proof.
  intros Hg Hi. unfold cmd_caps. apply no_fd_ok; [done|done|]. intros Ef.
  case_if; [apply viol_ok; [rewrite Ef; by apply sound_refl|done]|].
  apply quiet_ok; [rewrite Ef; apply sound_cm; [by apply sound_refl|done]|destruct Hi; by constructor].
Qed.

Lemma window_cmd_ok cfg dsp en s c fd :
  cmd_wf c -> good s -> idle (cmd s) -> cmd_ok cfg en s fd (cmd_window dsp en s c fd).
Proof.
  intros Hc Hg Hi. unfold cmd_window. apply no_fd_ok; [done|done|]. intros Ef.
  case_if; [apply viol_ok; [rewrite Ef; by apply sound_refl|done]|]. case_if.
  { apply quiet_ok; [rewrite Ef; by apply sound_reject_log, sound_counts, sound_refl|].
    apply (idle_same (cmd (count_reject s))); [apply reject_log_same|]. destruct Hi; by constructor. }
  apply orb_false_iff in E0 as [E0 W4]. apply orb_false_iff in E0 as [E0 W3]. apply orb_false_iff in E0 as [W1 W2].
  destruct Hc as [_ Hw Hh _ _ _ _]. zb. unfold NVKVM_BROKER_MAX_DIM in *.
  case_if; [|apply quiet_ok; [rewrite Ef; by apply sound_refl|done]].
  constructor; cbn [fst snd]; [rewrite Ef; apply sound_cm; [by apply sound_refl|done]|destruct Hi; by constructor| |simpl; lia].
  constructor; [|constructor]. cbn [eff_ok]. unfold NVKVM_BROKER_MAX_DIM. lia.
Qed.

Lemma clip_last_ok cfg en s s1 fd :
  fdl fd = [] -> sound s s1 [] -> idle (cmd s1) -> (clip_mode cfg = NB_CLIP_OFF -> clip_in_bad (cmd s1) = true) ->
  cmd_ok cfg en s fd (clip_last en s1).
Proof.
  intros Ef Hs Hi Ho. unfold clip_last. cbv zeta. pose proof Hi as [I1 I2 I3 I4].
  assert (sound s (set_clip s1 [] 0 0 false false) (fdl fd)) as H2 by (rewrite Ef; by apply sound_set_clip).
  assert (idle (cmd (set_clip s1 [] 0 0 false false))) as J2 by (by constructor).
  destruct (clip_in_bad (cmd s1) || (arr_len (clip_in (cmd s1)) =? 0)) eqn:E1; [by apply quiet_ok|].
  apply orb_false_iff in E1 as [E1 E2]. apply Z.eqb_neq in E2.
  destruct (Utf8.utf8_ok_spec (clip_in (cmd s1)) I4) as (b & -> & Hb);
    [unfold NVKVM_BROKER_CLIP_MAX_BYTES in I3; lia|].
  destruct b; cbn [negb]; [|by apply quiet_ok]. case_if; [by apply quiet_ok|].
  destruct (clip_r en) as [f|]; [|by apply quiet_ok].
  constructor; cbn [fst snd]; [by apply sound_tick|done| |case_if; simpl; lia].
  constructor; [|case_if; by repeat constructor]. cbn [eff_ok]. split; [intros Hm; specialize (Ho Hm); congruence|].
  split; [by apply Z.eqb_neq|]. split; [unfold arr_len in *; lia|]. by apply Hb.
Qed.

Lemma parse_clip_bytes b : Forall byte b -> Forall byte (cc_data (parse_clip b)).
Proof. intros. by apply Forall_take, Forall_drop. Qed.

Lemma clipboard_cmd_ok cfg dsp en s b fd :
  Forall byte b -> good s -> idle (cmd s) -> cmd_ok cfg en s fd (cmd_clipboard cfg dsp en s b fd).
Proof.
  intros Hb Hg Hi. unfold cmd_clipboard. cbv zeta. destruct (0 <=? fd) eqn:Ef.
  { apply viol_ok; [|done]. rewrite (fdl_pos fd Ef). by apply (sound_close s s fd []), sound_refl. }
  apply fdl_neg in Ef. pose proof (sound_refl s Hg) as H0.
  case_if; [apply viol_ok; [by rewrite Ef|done]|]. case_if; [apply viol_ok; [by rewrite Ef|done]|].
  assert (sound s (if cc_chunk (parse_clip b) =? 0 then set_clip s [] 0 0 true false else s) [] /\
          idle (cmd (if cc_chunk (parse_clip b) =? 0 then set_clip s [] 0 0 true false else s))) as [H1 I1].
  { case_if; [|done]. split; [by apply sound_set_clip|]. destruct Hi; by constructor. }
  generalize dependent (if cc_chunk (parse_clip b) =? 0 then set_clip s [] 0 0 true false else s). intros s1 H1 I1.
  case_if; [apply viol_ok; [by rewrite Ef|done]|].
  set (s2 := set_clip s1 _ _ _ _ _). assert (sound s s2 []) as H2 by by apply sound_set_clip.
  assert (idle (cmd s2)) as I2 by (destruct I1; by constructor). clearbody s2.
  set (x := if clip_mode cfg =? NB_CLIP_OFF then _ else _).
  assert (sound s (fst x) [] /\ idle (cmd (fst x)) /\ (clip_mode cfg = NB_CLIP_OFF -> snd x = true)) as (H3 & I3 & O3).
  { subst x. destruct (Z.eqb_spec (clip_mode cfg) NB_CLIP_OFF); cbn [fst snd]; [|done].
    split; [by apply sound_tl|done]. }
  destruct x as [s3 bad]. cbn [fst snd] in *.
  pose proof (sound_clip_rate en s s3 [] H3) as H4. pose proof (idle_same _ _ (clip_rate_same en s3) I3) as I4.
  destruct (nb_clip_rate_exceeded en s3) as [s4 over]. cbn [fst] in H4, I4.
  set (n := cc_info (parse_clip b) & 31) in *. set (bad' := bad || over || _ || _).
  set (s5 := set_clip s4 _ _ _ _ bad'). assert (sound s s5 []) as H5 by by apply sound_set_clip.
  assert (idle (cmd s5)) as I5.
  { destruct I4 as [J1 J2 J3 J4]. constructor; try done; subst s5; cbn [set_clip set_cm cmd clip_in].
    - destruct bad' eqn:Eb; cbn [negb]; [done|]. subst bad'. apply orb_false_iff in Eb as [_ Eb]. apply Z.ltb_ge in Eb.
      unfold NVKVM_BROKER_CLIP_MAX_BYTES in *. assert (0 <= arr_len (clip_in (cmd s4))) by (unfold arr_len; lia).
      rewrite u32_small in Eb by lia. unfold arr_len in *. rewrite length_app, length_take. lia.
    - case_if; [|done]. apply Forall_app_2; [done|]. apply Forall_take. by apply parse_clip_bytes. }
  case_if; [|by apply quiet_ok; [rewrite Ef|]]. apply clip_last_ok; [done|done|done|].
  intros Hm. subst s5 bad'. cbn [set_clip set_cm cmd clip_in_bad]. by rewrite O3.
Qed.

Lemma handle_cmd_ok cfg dsp en s b fd :
  Forall byte b -> good s -> idle (cmd s) -> cmd_ok cfg en s fd (nb_handle_cmd cfg dsp en s b fd).
Proof.
  intros Hb Hg Hi. pose proof (parse_cmd_wf b Hb) as Hc. unfold nb_handle_cmd. cbv zeta.
  case_if; [by apply drop_viol_ok|]. case_if; [by apply attach_cmd_ok|]. case_if; [by apply query_cmd_ok|].
  case_if; [by apply commit_cmd_ok|]. case_if; [by apply clipboard_cmd_ok|]. case_if; [by apply caps_cmd_ok|].
  case_if; [by apply window_cmd_ok|by apply drop_viol_ok].
Qed.

(** ** One resize per connection *)
Definition is_resize (e : effect) : bool := match e with DoResize _ _ => true | _ => false end.
Definition resizes (es : list effect) : nat := length (filter (fun e => is_resize e = true) es).

(** A command resizes the window only when the connection has not yet, and
    records it; otherwise the record stays, or the connection is gone. *)
Definition win_ok (s : st) (r : st * list effect) : Prop :=
  (resizes (snd r) = 0%nat /\
   (client_fd (fst r) < 0 \/ window_established (cmd (fst r)) = window_established (cmd s))) \/
  (resizes (snd r) = 1%nat /\ window_established (cmd s) = false /\ window_established (cmd (fst r)) = true).

Lemma detach_gone dsp s : client_fd (nb_sink_detach dsp s) < 0.
Proof.
  destruct (Z.ltb_spec (client_fd s) 0) as [H|H]; [by unfold nb_sink_detach; rewrite (proj2 (Z.ltb_lt _ _) H)|].
  destruct (detach_spec dsp s H) as (_ & _ & _ & -> & _). lia.
Qed.

Lemma violation_gone dsp en s : client_fd (nb_violation dsp en s) < 0.
Proof. apply detach_gone. Qed.

Lemma win_viol dsp en s s1 : win_ok s (nb_violation dsp en s1, []).
Proof. left. split; [done|]. left. apply violation_gone. Qed.

Lemma win_same s s1 es :
  resizes es = 0%nat -> window_established (cmd s1) = window_established (cmd s) -> win_ok s (s1, es).
Proof. intros. left. auto. Qed.

Lemma log_est en s : window_established (cmd (fst (nb_reject_log en s))) = window_established (cmd s).
Proof. apply (reject_log_same en s). Qed.

Lemma emit_est dsp s ty x y w0 w1 :
  client_fd (nb_emit dsp s ty x y w0 w1) < 0 \/
  window_established (cmd (nb_emit dsp s ty x y w0 w1)) = window_established (cmd s).
Proof.
  destruct (emit_spec dsp s ty x y w0 w1) as [[_ ->]|[(_ & r & ->)|(Hf & r & ->)]]; [by right|by right|].
  left. apply detach_gone.
Qed.

Lemma clip_last_win en s s1 :
  window_established (cmd s1) = window_established (cmd s) -> win_ok s (clip_last en s1).
Proof.
  intros H. unfold clip_last. cbv zeta. case_if; [by apply win_same|]. case_if; [by apply win_same|].
  case_if; [by apply win_same|]. destruct (clip_r en); [|by apply win_same]. case_if; by apply win_same.
Qed.

Lemma clipboard_win cfg dsp en s b fd : win_ok s (cmd_clipboard cfg dsp en s b fd).
Proof.
  unfold cmd_clipboard. cbv zeta. case_if; [apply win_viol|]. case_if; [apply win_viol|]. case_if; [apply win_viol|].
  set (s1 := if cc_chunk (parse_clip b) =? 0 then _ else s).
  assert (window_established (cmd s1) = window_established (cmd s)) as H1 by (subst s1; by case_if). clearbody s1.
  case_if; [apply win_viol|]. set (s2 := set_clip s1 _ _ _ _ _).
  assert (window_established (cmd s2) = window_established (cmd s)) as H2 by done. clearbody s2.
  set (x := if clip_mode cfg =? NB_CLIP_OFF then _ else _).
  assert (window_established (cmd (fst x)) = window_established (cmd s)) as H3 by (subst x; by case_if).
  destruct x as [s3 bad]. cbn [fst] in H3. pose proof (clip_rate_same en s3) as (_ & _ & H4 & _).
  destruct (nb_clip_rate_exceeded en s3) as [s4 over]. cbn [fst] in H4. rewrite H3 in H4.
  case_if; [by apply clip_last_win|by apply win_same].
Qed.

Lemma attach_win dsp en s c fd : win_ok s (cmd_attach dsp en s c fd).
Proof.
  unfold cmd_attach. case_if; [apply win_viol|]. case_if; [apply win_viol|]. cbv zeta.
  case_if; [by apply win_same|]. destruct (nb_validate_desc _ c fd _) as [bg|d].
  - apply win_same; [done|]. destruct bg; [apply (log_est en (count_attach s))|done].
  - case_if; apply win_same; [done| |done|done]. apply (log_est en (count_reject (close_fd (tick (count_attach s)) fd))).
Qed.

Lemma handle_win cfg dsp en s b fd : win_ok s (nb_handle_cmd cfg dsp en s b fd).
Proof.
  unfold nb_handle_cmd. cbv zeta. case_if; [apply win_viol|]. case_if; [apply attach_win|].
  case_if.
  { unfold cmd_query. case_if; [apply win_viol|]. cbv zeta. left. split; [done|]. cbn [fst].
    match goal with |- context [nb_emit dsp ?a ?b ?c ?d ?e ?f] => destruct (emit_est dsp a b c d e f) as [H|H] end;
      [by left|]. right. by rewrite H, log_est, cmd_drop. }
  case_if.
  { unfold cmd_commit. do 3 (case_if; [apply win_viol|]). by apply win_same. }
  case_if; [apply clipboard_win|]. case_if.
  { unfold cmd_caps. do 3 (case_if; [apply win_viol|]). by apply win_same. }
  case_if; [|apply win_viol]. unfold cmd_window. do 3 (case_if; [apply win_viol|]).
  case_if; [apply win_same; [done|apply (log_est en (count_reject s))]|].
  destruct (window_established (cmd s)) eqn:Ew; cbn [negb]; [by apply win_same|]. by right.
Qed.

(** ** The drain loop *)

(** In the middle of a command: less than one is buffered. *)
Record reading (c : cmds) : Prop := {
  rg_len : (length (rx c) < 40)%nat; rg_rx : Forall byte (rx c);
  rg_clip : arr_len (clip_in c) <= NVKVM_BROKER_CLIP_MAX_BYTES; rg_bytes : Forall byte (clip_in c)
}.

Lemma idle_reading c : idle c -> reading c.
Proof. intros [H1 _ H3 H4]. constructor; rewrite ?H1; try done. simpl. lia. Qed.

Lemma sound_trans s s1 s2 x y : sound s s1 x -> sound s1 s2 y -> sound s s2 (x ++ y).
Proof.
  intros [H1 H2 H3] [G1 G2 G3]. constructor; [done| |by apply (keep_trans s s1)].
  by rewrite G2, H2, (app_assoc (total s) x y).
Qed.

Lemma sound_bank s s1 fd x : 0 <= fd -> sound s s1 x -> sound s (bank_fd s1 fd) (x ++ [fd]).
Proof.
  intros Hf H. unfold bank_fd. destruct (Z.ltb_spec (rxfd (cmd s1)) 0) as [E|E]; [|by apply sound_close].
  destruct H as [Hg Ht Hk]. constructor; [| |apply (keep_trans s s1); [done|by apply keep_of]].
  - apply (good_of s1); try done. apply base_set_cm, Hg.
  - unfold total, bank, conn, set_rx in *. cbn [set_cm closed cmd rxfd client_fd].
    rewrite (proj2 (Z.leb_le 0 fd)) by done. rewrite (proj2 (Z.leb_gt 0 (rxfd (cmd s1)))) in Ht by done.
    rewrite (app_assoc _ x [fd]), <- Ht. solve_Permutation.
Qed.

Lemma sound_banks fds s s1 x :
  Forall (fun fd => 0 <= fd) fds -> sound s s1 x -> sound s (fold_left bank_fd fds s1) (x ++ fds).
Proof.
  intros Hf. revert s1 x. induction Hf as [|fd fds H _ IH]; intros s1 x Hs; [by rewrite app_nil_r|].
  cbn [fold_left]. replace (x ++ fd :: fds) with ((x ++ [fd]) ++ fds) by (by rewrite <- app_assoc).
  by apply IH, sound_bank.
Qed.

Lemma banks_cmd fds s : let c := cmd (fold_left bank_fd fds s) in rx c = rx (cmd s) /\ clip_in c = clip_in (cmd s) /\
  window_established c = window_established (cmd s) /\ client_fd (fold_left bank_fd fds s) = client_fd s.
Proof.
  apply (fold_left_inv (fun s' => rx (cmd s') = rx (cmd s) /\ clip_in (cmd s') = clip_in (cmd s) /\
    window_established (cmd s') = window_established (cmd s) /\ client_fd s' = client_fd s)); [done|].
  intros s1 fd H. unfold bank_fd. by case_if.
Qed.

(** The command is handed over: its descriptor leaves the bank and is
    accounted for by the handler. *)
Lemma sound_resume s s1 s2 s3 x :
  sound s s1 x -> sound (set_rx s1 [] (-1)) s2 [] -> sound s2 s3 (fdl (rxfd (cmd s1))) -> sound s s3 x.
Proof.
  intros [H1 H2 H3] G F. destruct (sound_trans _ _ _ _ _ G F) as [E1 E2 E3]. constructor; [done| |].
  - rewrite <- H2, E2. unfold total, bank, conn, fdl, set_rx. cbn [set_cm closed cmd rxfd client_fd].
    solve_Permutation.
  - apply (keep_trans s s1); [done|]. apply (keep_trans s1 (set_rx s1 [] (-1))); [by apply keep_of|done].
Qed.

Lemma good_rx s b fd : good s -> good (set_rx s b fd).
Proof. intros H. apply (good_of s); try done. apply base_set_cm, H. Qed.

(** What the kernel's [recvmsg] returns: bytes, descriptors, and no descriptor
    without a byte. *)
Definition kernel_ok (ins : nat -> recv) : Prop :=
  forall i bs fds tr, ins i = Data bs fds tr -> Forall byte bs /\ Forall (fun fd => 0 <= fd) fds /\ (bs = [] -> fds = []).

Definition fds_of (r : recv) : list Z := match r with Data _ fds _ => fds | _ => [] end.
Definition given (ins : nat -> recv) (i j : nat) : list Z := flat_map (fun k => fds_of (ins k)) (List.seq i (j - i)).

Lemma given_S ins i j : (i < j)%nat -> given ins i j = fds_of (ins i) ++ given ins (S i) j.
Proof. intros. unfold given. by replace (j - i)%nat with (S (j - S i)) by lia. Qed.
Lemma given_1 ins i : given ins i (S i) = fds_of (ins i).
Proof. rewrite given_S by lia. unfold given. by rewrite Nat.sub_diag, app_nil_r. Qed.

(** No client, no banked descriptor. *)
Definition quiet (s : st) : Prop := client_fd s < 0 -> rxfd (cmd s) = -1.

Record read_ok (cfg : config) (en : env) (ins : nat -> recv) (i n : nat) (budget : Z) (s : st)
    (r : st * list effect * list Z * nat) : Prop := {
  ro_sound : sound s (fst (fst (fst r))) (snd (fst r));
  ro_took : snd (fst r) = given ins i (snd r);
  ro_calls : (i <= snd r <= i + n)%nat;
  ro_reading : reading (cmd (fst (fst (fst r))));
  ro_quiet : quiet (fst (fst (fst r)));
  ro_eff : Forall (eff_ok cfg en (caps (se s))) (snd (fst (fst r)));
  ro_few : Z.of_nat (length (snd (fst (fst r)))) <= 2 * budget;
  ro_win : (resizes (snd (fst (fst r))) + Nat.b2n (window_established (cmd s)) <= 1)%nat /\
           (client_fd (fst (fst (fst r))) < 0 \/
            (resizes (snd (fst (fst r))) + Nat.b2n (window_established (cmd s)))%nat =
              Nat.b2n (window_established (cmd (fst (fst (fst r))))))
}.

(** The loop stops here, with no command run since [s]. *)
Lemma read_stop cfg en ins i n budget s s' fds :
  (n <> 0)%nat -> 0 <= budget -> sound s s' fds -> fds = fds_of (ins i) -> reading (cmd s') -> quiet s' ->
  (client_fd s' < 0 \/ window_established (cmd s') = window_established (cmd s)) ->
  read_ok cfg en ins i n budget s (s', [], fds, S i).
Proof.
  intros Hn Hb Hs Ef Hr Hq Hw. constructor; cbn [fst snd]; try done; [by rewrite given_1|lia|simpl; lia|].
  split; [destruct (window_established (cmd s)); simpl; lia|]. destruct Hw as [Hw|Hw]; [by left|right]. by rewrite Hw.
Qed.

(** More to read: the rest of the loop from [s1], with the effects [es] so far. *)
Lemma read_more cfg en ins i n budget k s s1 es s2 es2 took j :
  sound s s1 (fds_of (ins i)) -> Forall (eff_ok cfg en (caps (se s))) es -> Z.of_nat (length es) <= 2 * (budget - k) ->
  win_ok s (s1, es) -> (client_fd s1 < 0 -> es2 = [] /\ client_fd s2 < 0) ->
  read_ok cfg en ins (S i) n k s1 (s2, es2, took, j) ->
  read_ok cfg en ins i (S n) budget s (s2, es ++ es2, fds_of (ins i) ++ took, j).
Proof.
  intros Hs He Hn Hw Hgone [R1 R2 R3 R4 Rq R5 R6 R7]. cbn [fst snd] in *. constructor; cbn [fst snd]; try done.
  - by apply (sound_trans s s1).
  - by rewrite R2, <- given_S by lia.
  - lia.
  - apply Forall_app_2; [done|]. by rewrite (kp_caps _ _ (s_keep _ _ _ Hs)) in R5.
  - rewrite length_app. lia.
  - assert (resizes (es ++ es2) = (resizes es + resizes es2)%nat) as -> by (unfold resizes; by rewrite filter_app, length_app).
    destruct Hw as [[W1 W2]|(W1 & W2 & W3)]; cbn [fst snd] in *.
    + rewrite W1. destruct (Z.ltb_spec (client_fd s1) 0) as [Hc|Hc].
      * destruct (Hgone Hc) as [-> Hc2]. split; [|by left]. destruct (window_established (cmd s)); simpl; lia.
      * destruct W2 as [W2|W2]; [lia|]. by rewrite <- W2.
    + rewrite W1, W2. rewrite W3 in R7. simpl in R7. destruct R7 as [R7 R8]. split; [simpl; lia|].
      destruct R8 as [R8|R8]; [by left|right]. rewrite <- R8. simpl. lia.
Qed.

Lemma loop_gone cfg dsp en ins f i s budget work s' es took j :
  readable_loop cfg dsp en f ins i s budget work = Some (s', es, took, j) -> client_fd s < 0 -> es = [] /\ client_fd s' < 0.
Proof. destruct f; [done|]. cbn [readable_loop]. intros E H. rewrite (proj2 (Z.ltb_lt _ _) H) in E. by simplify_eq. Qed.

Lemma quiet_detach dsp s : quiet s -> quiet (nb_sink_detach dsp s).
Proof.
  intros H. unfold nb_sink_detach. case_if; [done|]. unfold nb_client_state_reset. by intros _.
Qed.

Lemma quiet_violation dsp en s : quiet s -> quiet (nb_violation dsp en s).
Proof.
  intros H. unfold nb_violation, nb_sink_bye. apply quiet_detach. set (s0 := tick s).
  assert (quiet s0) as H0 by done. clearbody s0. unfold nb_sink_flush.
  assert (quiet (nb_emit dsp s0 EV_BYE BYE_PROTOCOL 0 0 0)) as He.
  { destruct (emit_spec dsp s0 EV_BYE BYE_PROTOCOL 0 0 0) as [[_ ->]|[(_ & r & ->)|(Hf & r & ->)]]; [done|done|].
    apply quiet_detach. done. }
  generalize dependent (nb_emit dsp s0 EV_BYE BYE_PROTOCOL 0 0 0). intros s1 He.
  case_if; [done|]. destruct (flush _ (ring s1)) as [[r bs] e]. done.
Qed.

Lemma reading0 : reading cmds0.
Proof. apply idle_reading, idle0. Qed.

Lemma banks_reading fds s : reading (cmd s) -> reading (cmd (fold_left bank_fd fds s)).
Proof.
  intros [H1 H2 H3 H4]. destruct (banks_cmd fds s) as (E1 & E2 & _). constructor; by rewrite ?E1, ?E2.
Qed.

Lemma one_cmd_ok cfg dsp en s s1 x :
  sound s s1 x -> Forall byte (rx (cmd s1)) -> arr_len (clip_in (cmd s1)) <= NVKVM_BROKER_CLIP_MAX_BYTES ->
  Forall byte (clip_in (cmd s1)) ->
  let r := one_cmd cfg dsp en s1 in
  sound s (fst (fst r)) x /\ idle (cmd (fst (fst r))) /\ Forall (eff_ok cfg en (caps (se s))) (snd (fst r)) /\
  (length (snd (fst r)) <= 2)%nat /\ win_ok s1 (fst r) /\ (snd r = true -> snd (fst r) = [] /\ client_fd (fst (fst r)) < 0).
Proof.
  intros Hs Hb Hc Hd. unfold one_cmd. cbv zeta.
  assert (idle (cmd (set_rx s1 [] (-1)))) as Hi by by constructor.
  pose proof (sound_rate en _ _ [] (sound_refl (set_rx s1 [] (-1)) (good_rx s1 _ _ (s_good _ _ _ Hs)))) as Hr.
  pose proof (idle_same _ _ (rate_same en (set_rx s1 [] (-1))) Hi) as Hi2.
  pose proof (rate_same en (set_rx s1 [] (-1))) as (_ & _ & He & _).
  destruct (nb_rate_exceeded en (set_rx s1 [] (-1))) as [s2 over]. cbn [fst] in *.
  pose proof (s_good _ _ _ Hr) as Hg2. destruct over; cbn [fst snd].
  - split; [|split; [|split; [constructor|split; [simpl; lia|split; [apply win_viol|]]]]].
    + apply (sound_resume s s1 s2); [done|done|]. by apply sound_violation, (sound_drop s2 s2 _ []), sound_refl.
    + apply cmdP_violation; [apply idle0|]. by rewrite cmd_drop.
    + intros _. split; [done|]. apply violation_gone.
  - pose proof (sound_tick _ _ _ Hr) as Ht.
    destruct (handle_cmd_ok cfg dsp en (tick s2) (rx (cmd s1)) (rxfd (cmd s1)) Hb (s_good _ _ _ Ht) Hi2) as [C1 C2 C3 C4].
    pose proof (handle_win cfg dsp en (tick s2) (rx (cmd s1)) (rxfd (cmd s1))) as Hw. unfold win_ok in *.
    change (window_established (cmd (tick s2))) with (window_established (cmd s2)) in Hw. rewrite He in Hw.
    split; [by apply (sound_resume s s1 (tick s2))|]. split; [done|]. split; [|done].
    rewrite (kp_caps _ _ (s_keep _ _ _ Ht)) in C3. by rewrite <- (kp_caps _ _ (s_keep _ _ _ Hs)).
Qed.

(** What is read is added; a whole command is run. *)
Definition absorb_read (cfg : config) (dsp : display) (en : env) (f : nat) (ins : nat -> recv) (i : nat) (s : st) (bs fds : list Z)
    (budget work : Z) : option (st * list effect * list Z * nat) :=
  let s := set_rx s (rx (cmd s) ++ bs) (rxfd (cmd s)) in
  if arr_len (rx (cmd s)) <? NVKVM_BROKER_CMD_SIZE then
    match readable_loop cfg dsp en f ins (S i) s budget work with
    | None => None
    | Some (s, es, took, j) => Some (s, es, fds ++ took, j)
    end
  else
    let work := u64 (work + cost en (calls (se s))) in
    let '(s, es, over) := one_cmd cfg dsp en s in
    if over then Some (s, es, fds, S i)
    else if (budget - 1 =? 0) || (NB_WORK_BUDGET_BYTES <=? work) then Some (s, es, fds, S i)
    else match readable_loop cfg dsp en f ins (S i) s (budget - 1) work with
    | None => None
    | Some (s, es', took, j) => Some (s, es ++ es', fds ++ took, j)
    end.

Lemma absorb_ok cfg dsp en ins f i s s1 bs budget work :
  (forall i s budget work, 1 <= budget -> budget * 40 - Z.of_nat (length (rx (cmd s))) <= Z.of_nat f -> good s -> reading (cmd s) ->
    quiet s -> exists r, readable_loop cfg dsp en f ins i s budget work = Some r /\ read_ok cfg en ins i f budget s r) ->
  1 <= budget -> budget * 40 - Z.of_nat (length (rx (cmd s1))) <= Z.of_nat (S f) ->
  0 <= client_fd s1 -> sound s s1 (fds_of (ins i)) -> reading (cmd s1) -> window_established (cmd s1) = window_established (cmd s) ->
  Forall byte bs -> (1 <= length bs)%nat -> (length (rx (cmd s1)) + length bs <= 40)%nat ->
  exists r, absorb_read cfg dsp en f ins i s1 bs (fds_of (ins i)) budget work = Some r /\ read_ok cfg en ins i (S f) budget s r.
Proof.
  intros IH Hb Hf Hfd Hs [R1 R2 R3 R4] He Kb Hp Hl. unfold absorb_read. cbv zeta.
  set (s2 := set_rx s1 (rx (cmd s1) ++ bs) (rxfd (cmd s1))).
  assert (sound s s2 (fds_of (ins i))) as H2 by (by apply sound_cm).
  assert (rx (cmd s2) = rx (cmd s1) ++ bs) as E2 by done. assert (0 <= client_fd s2) as F2 by done.
  assert (Forall byte (rx (cmd s2))) as Kx by (rewrite E2; by apply Forall_app_2).
  assert (clip_in (cmd s2) = clip_in (cmd s1)) as C2 by done.
  assert (window_established (cmd s2) = window_established (cmd s)) as W2 by done. clearbody s2.
  unfold arr_len, NVKVM_BROKER_CMD_SIZE. rewrite E2, length_app. destruct (Z.ltb_spec (Z.of_nat (length (rx (cmd s1)) + length bs)) 40) as [Hn|Hn].
  - destruct (IH (S i) s2 budget work) as ([[[s3 es] took] j] & Er & Ro);
      [done|rewrite E2, length_app; lia|apply (s_good _ _ _ H2)| |intros ?; lia|].
    { constructor; [rewrite E2, length_app; lia|done|by rewrite C2..]. }
    rewrite Er. eexists. split; [done|]. eapply (read_more cfg en ins i f budget budget s s2 []); eauto; [simpl; lia|by apply win_same|].
    apply (loop_gone _ _ _ _ _ _ _ _ _ _ _ _ _ Er).
  - destruct (one_cmd_ok cfg dsp en s s2 (fds_of (ins i)) H2 Kx) as (O1 & O2 & O3 & O4 & O5 & O6); [by rewrite C2..|].
    destruct (one_cmd cfg dsp en s2) as [[s3 es] over]. cbn [fst snd] in *.
    assert (quiet s3) as O8 by (intros _; apply O2).
    assert (win_ok s (s3, es)) as O7 by (unfold win_ok in *; by rewrite W2 in O5).
    assert (read_ok cfg en ins i (S f) budget s (s3, es, fds_of (ins i), S i)) as Hstop.
    { pose proof (read_more cfg en ins i 0 budget 0 s s3 es s3 [] [] (S i)) as Hm. rewrite !app_nil_r in Hm.
      destruct Hm as [M1 M2 M3 M4 Mq M5 M6 M7]; try done; [lia| |constructor; cbn [fst snd] in *; try done; lia].
      constructor; cbn [fst snd]; try done; [apply sound_refl, (s_good _ _ _ O1)|unfold given; by rewrite Nat.sub_diag|lia|by apply idle_reading|].
      split; [by destruct (window_established (cmd s3)); simpl; lia|by right]. }
    destruct over; [eexists; split; [done|]; done|]. destruct (Z.eqb_spec (budget - 1) 0) as [Ez|Ez]; cbn [orb]; [by eexists|].
    case_if; [by eexists|]. pose proof O2 as [I1 _ _ _].
    destruct (IH (S i) s3 (budget - 1) (u64 (work + cost en (calls (se s2))))) as ([[[s4 es'] took] j] & Er & Ro);
      [lia|rewrite I1; simpl; lia|apply (s_good _ _ _ O1)|by apply idle_reading|done|].
    rewrite Er. eexists. split; [done|]. apply (read_more cfg en ins i f budget (budget - 1) s s3); try done; [lia|].
    apply (loop_gone _ _ _ _ _ _ _ _ _ _ _ _ _ Er).
Qed.

Lemma loop_ok cfg dsp en ins : kernel_ok ins -> forall f i s budget work,
  1 <= budget -> budget * 40 - Z.of_nat (length (rx (cmd s))) <= Z.of_nat f -> good s -> reading (cmd s) -> quiet s ->
  exists r, readable_loop cfg dsp en f ins i s budget work = Some r /\ read_ok cfg en ins i f budget s r.
Proof.
  intros Hk f. induction f as [|f IH]; intros i s budget work Hb Hf Hg Hr Hq; [destruct Hr; lia|].
  cbn [readable_loop]. destruct (Z.ltb_spec (client_fd s) 0) as [Hc|Hc].
  { eexists. split; [done|]. constructor; cbn [fst snd]; try done; [by apply sound_refl| |lia|simpl; lia|].
    - unfold given. by rewrite Nat.sub_diag.
    - split; [destruct (window_established (cmd s)); simpl; lia|by left]. }
  pose proof (Hk i) as Hki. destruct (ins i) as [bs fds tr| |] eqn:Ei.
  2: { eexists. split; [done|]. apply read_stop; [done|lia|by apply sound_refl|by rewrite Ei|done|done|by right]. }
  2: { eexists. split; [done|]. apply read_stop; [done|lia|by apply sound_detach, sound_refl|by rewrite Ei| |by apply quiet_detach|left; apply detach_gone].
       apply cmdP_detach; [apply reading0|done]. }
  destruct (Hki bs fds tr eq_refl) as (K1 & K2 & K3). cbv zeta.
  assert (fds = fds_of (ins i)) as Efd by by rewrite Ei.
  set (bs' := take _ bs). assert (Forall byte bs') as Kb by by apply Forall_take.
  case_bool_decide as Eb.
  { assert (bs = []) as -> by (destruct Hr as [Hr _ _ _]; destruct bs; [done|]; subst bs';
      destruct (Z.to_nat NVKVM_BROKER_CMD_SIZE - length (rx (cmd s)))%nat eqn:El;
        [change (Z.to_nat NVKVM_BROKER_CMD_SIZE) with 40%nat in El; lia|done]).
    eexists. split; [done|]. apply read_stop; [done|lia|by apply sound_detach, sound_refl|by rewrite <- Efd, K3| |by apply quiet_detach|left; apply detach_gone].
    apply cmdP_detach; [apply reading0|done]. }
  assert (length (rx (cmd s)) + length bs' <= 40)%nat as Hlen
    by (subst bs'; rewrite length_take; destruct Hr; change (Z.to_nat NVKVM_BROKER_CMD_SIZE) with 40%nat; lia).
  assert (1 <= length bs')%nat as Hpos by (destruct bs'; [done|simpl; lia]). clearbody bs'.
  pose proof (sound_banks fds s s [] K2 (sound_refl s Hg)) as H1. cbn [app] in H1.
  pose proof (banks_reading fds s Hr) as Hr1. destruct (banks_cmd fds s) as (B1 & B2 & B3 & B4).
  generalize dependent (fold_left bank_fd fds s). intros s1 H1 Hr1 B1 B2 B3 B4. assert (quiet s1) as Hq1 by (intros ?; lia).
  case_if.
  { eexists. split; [done|]. apply read_stop; [done|lia|by apply sound_violation|done| |by apply quiet_violation|left; apply violation_gone].
    apply cmdP_violation; [apply reading0|done]. }
  rewrite Efd in *. eapply absorb_ok; eauto; rewrite ?B1; try done. lia.
Qed.

End BCmd.
