(* ===== verification/Broker.v ===== *)
(** * Broker: the whole presentation broker

    The event loop of [src/broker/nvkvm_broker.c] over the sink of [BrokerSink]
    and the commands of [BrokerCmd]: any sequence of display events, of
    connections, of flushes, and of reads from a client that sends what it
    likes.  The theorems are about every state such a sequence reaches. *)
From S2P Require Import Prelude Bytes BrokerUtf8 BrokerTx BrokerSink BrokerDesc BrokerCmd.
Import Tx Sink Desc BCmd.

Module Broker.

(** ** Events *)
Inductive bevent := Ev (e : event) | Readable (en : env) (ins : nat -> recv).

Definition bstep (cfg : config) (dsp : display) (s : st) (e : bevent) : st :=
  match e with
  | Ev e => step cfg dsp s e
  | Readable en ins =>
      match nb_sink_readable cfg dsp en ins s with Some (s', _, _, _) => s' | None => s end
  end.

Definition brun (cfg : config) (dsp : display) (s : st) (tr : list bevent) : st := fold_left (bstep cfg dsp) tr s.

Definition bev_ok (e : bevent) : Prop :=
  match e with Ev e => ev_ok e | Readable _ ins => kernel_ok ins end.

(** The descriptors an event hands to the broker. *)
Definition handed (cfg : config) (dsp : display) (s : st) (e : bevent) : list Z :=
  match e with
  | Ev (Sink.Accept fd _) => [fd]
  | Ev _ => []
  | Readable en ins =>
      match nb_sink_readable cfg dsp en ins s with Some (_, _, _, j) => given ins 0 j | None => [] end
  end.

Fixpoint all_handed (cfg : config) (dsp : display) (s : st) (tr : list bevent) : list Z :=
  match tr with [] => [] | e :: r => handed cfg dsp s e ++ all_handed cfg dsp (bstep cfg dsp s e) r end.

(** ** The descriptors and the read buffer through the display's events *)
Definition same_io (c c' : cmds) : Prop :=
  rx c' = rx c /\ rxfd c' = rxfd c /\ clip_in c' = clip_in c.

Record hold (s s' : st) (x : list Z) : Prop := {
  h_total : total s' ≡ₚ total s ++ x;
  h_cmd : (same_io (cmd s) (cmd s') /\ client_fd s' = client_fd s) \/ same_io cmds0 (cmd s')
}.

Lemma hold_refl s : hold s s [].
Proof. constructor; [by rewrite app_nil_r|by left]. Qed.

Lemma hold_then s s1 s2 x : hold s s1 x -> hold s1 s2 [] -> hold s s2 x.
Proof.
  intros [H1 H2] [G1 G2]. constructor; [by rewrite G1, app_nil_r|].
  destruct G2 as [[(E1 & E2 & E3) E4]|G2]; [|by right].
  destruct H2 as [[(F1 & F2 & F3) F4]|(F1 & F2 & F3)]; [left|right]; unfold same_io; by rewrite E1, E2, E3, ?E4, F1, F2, F3.
Qed.

Lemma hold_of s s1 s2 x :
  hold s s1 x -> cmd s2 = cmd s1 -> closed s2 = closed s1 -> client_fd s2 = client_fd s1 -> hold s s2 x.
Proof.
  intros [H1 H2] E1 E2 E3. constructor; [|by rewrite E1, E3].
  unfold total, bank, conn in *. by rewrite E1, E2, E3.
Qed.

Lemma hold_detach dsp s s1 x : hold s s1 x -> hold s (nb_sink_detach dsp s1) x.
Proof.
  intros H. apply (hold_then s s1); [done|]. constructor; [by rewrite total_detach, app_nil_r|].
  unfold nb_sink_detach. case_if; [by left|right]. unfold nb_client_state_reset. by case_if.
Qed.

Lemma hold_emit dsp s s1 ty a b w0 w1 x : hold s s1 x -> hold s (nb_emit dsp s1 ty a b w0 w1) x.
Proof.
  intros H. destruct (emit_spec dsp s1 ty a b w0 w1) as [[_ ->]|[(_ & r & ->)|(Hf & r & ->)]]; [done| |].
  - by apply (hold_of s s1).
  - apply hold_detach. by apply (hold_of s s1).
Qed.

Lemma hold_flush ans s s1 x : hold s s1 x -> hold s (fst (nb_sink_flush ans s1)) x.
Proof.
  intros H. unfold nb_sink_flush. case_if; [done|]. destruct (flush ans (ring s1)) as [[r bs] e].
  by apply (hold_of s s1).
Qed.

Create HintDb hold.
#[local] Hint Resolve hold_refl hold_emit hold_flush hold_detach : hold.

Lemma hold_x11 dsp s s1 on x : hold s s1 x -> hold s (fst (x11_set_grab dsp s1 on)) x.
Proof. intros H. unfold x11_set_grab. repeat case_if; by apply (hold_of s s1). Qed.

Lemma hold_drop dsp s s1 x :
  hold s s1 x -> hold s (set_grabbed (fst (x11_set_grab dsp s1 false)) false) x.
Proof. intros H. by apply (hold_of s (fst (x11_set_grab dsp s1 false))); [apply hold_x11|..]. Qed.

Lemma hold_releases dsp l s s1 x : hold s s1 x -> hold s (set_mods (fold_left (release_one dsp) l s1) false false false) x.
Proof.
  intros H. apply (hold_of s (fold_left (release_one dsp) l s1)); [|done..].
  apply (fold_left_inv (fun s2 => hold s s2 x)); [done|]. intros s2 c H2. unfold release_one. case_if; [|done].
  apply hold_emit. by apply (hold_of s s2).
Qed.

Lemma hold_release_all dsp s s1 x : hold s s1 x -> hold s (nb_release_all dsp s1) x.
Proof. exact (hold_releases dsp (seqZ 0 768) s s1 x). Qed.

Lemma hold_set_grab dsp s s1 on x : hold s s1 x -> hold s (nb_set_grab dsp s1 on) x.
Proof.
  intros H. unfold nb_set_grab. case_if; [done|]. case_if; [done|].
  pose proof (hold_x11 dsp s s1 on x H) as H2. destruct (x11_set_grab dsp s1 on) as [s2 r]. cbn [fst] in H2.
  case_if; [done|]. pose proof (hold_release_all dsp s s2 x H2) as H3.
  generalize dependent (nb_release_all dsp s2). intros s3 H3. unfold grab_settle. cbv zeta.
  assert (hold s (set_grabbed s3 on) x) as H4 by by apply (hold_of s s3).
  case_if; [by apply hold_drop|by apply hold_emit].
Qed.

Lemma hold_edge dsp s s1 c d x : hold s s1 x -> hold s (nb_clip_key_edge dsp s1 c d) x.
Proof. intros H. unfold nb_clip_key_edge. apply hold_emit. by apply (hold_of s s1). Qed.

Lemma hold_finish dsp s s1 g p x : hold s s1 x -> hold s (nb_sink_clip_finish dsp s1 g p) x.
Proof.
  intros H. unfold nb_sink_clip_finish. case_if; [done|]. cbv zeta.
  assert (hold s (set_ch s1 chord0) x) as H1 by by apply (hold_of s s1).
  generalize dependent (set_ch s1 chord0). intros s2 H2. case_if; [done|]. case_if; [done|].
  repeat case_if; by repeat apply hold_edge.
Qed.

Lemma hold_paste cfg dsp s s1 x : hold s s1 x -> hold s (nb_sink_paste_trigger cfg dsp s1) x.
Proof.
  intros H. unfold nb_sink_paste_trigger. cbv zeta.
  do 4 (case_if; [apply hold_finish; by apply (hold_of s s1)|]).
  destruct (fetch_clipboard dsp); [|by apply hold_finish].
  repeat case_if; try apply hold_finish; by apply (hold_of s s1).
Qed.

Lemma hold_key cfg dsp s c d : hold s (nb_sink_key cfg dsp s c d) [].
Proof.
  unfold nb_sink_key. case_if; [apply hold_refl|]. cbv zeta.
  match goal with |- context [set_mods s ?a ?b ?c] => set (s1 := set_mods s a b c) end.
  assert (hold s s1 []) as H1 by (by apply (hold_of s s); [apply hold_refl|..]). clearbody s1.
  case_if.
  { case_if; [apply hold_set_grab; by apply (hold_of s s1)|]. case_if; by apply (hold_of s s1). }
  destruct (if d && focused (wn s1) then nb_clip_trigger cfg s1 c else None) as [t|].
  - case_if; [by apply (hold_of s s1)|]. apply hold_paste. by apply (hold_of s s1).
  - case_if; [case_if; by apply (hold_of s s1)|]. case_if; [done|]. case_if; [done|].
    apply hold_emit. by apply (hold_of s s1).
Qed.

Lemma hold_focus dsp s b : hold s (nb_sink_focus dsp s b) [].
Proof.
  unfold nb_sink_focus. case_if; [apply hold_refl|]. cbv zeta.
  assert (hold s (set_focused s b) []) as H1 by (by apply (hold_of s s); [apply hold_refl|..]).
  generalize dependent (set_focused s b). intros s1 H1. case_if; [|by apply hold_emit].
  do 2 apply hold_emit. match goal with |- context [nb_release_all dsp ?x] => assert (hold s x []) as H2 end.
  { case_if; [by apply hold_drop|done]. }
  match goal with |- context [nb_release_all dsp ?x] => generalize dependent x end. intros s2 H2.
  pose proof (hold_release_all dsp s s2 [] H2) as H3. generalize dependent (nb_release_all dsp s2). intros s3 H3.
  by apply (hold_of s s3).
Qed.

Lemma hold_send s g text : base s -> hold s (fst (nb_sink_send_clipboard s g text)) [].
Proof.
  intros Hb. destruct (send_cases s g text Hb) as [->|(ps & -> & Hps & Hf & _ & _ & _ & _ & Hu)]; [apply hold_refl|].
  destruct (queue_all_spec s ps Hb Hf) as (_ & _ & _ & _ & E2 & _ & _ & _ & _ & _ & E3 & _ & E4);
    [rewrite Hps; apply chunk_pkts_numbered|unfold replay_reserve in Hu; lia|].
  cbn [fst]. apply (hold_of s s); [apply hold_refl|done..].
Qed.

(** ** A new connection *)
Lemma handshakes_io s l rs :
  let s' := fst (handshakes s l rs) in cmd s' = cmd s /\ closed s' = closed s /\ client_fd s' = client_fd s.
Proof.
  revert s rs. induction l as [|[[[[ty x] y] w0] w1] l IH]; intros s rs; cbn [handshakes]; [done|].
  unfold handshake. destruct (Z.eqb_spec (hd 0 rs) 0) as [E|E]; cbn [Z.eqb].
  - by match goal with |- context [handshakes ?x l ?y] => destruct (IH x y) as (-> & -> & ->) end.
  - by rewrite (proj2 (Z.eqb_neq _ _)).
Qed.

Lemma reset_io s : cmd (nb_client_state_reset s) = cmds0 /\ client_fd (nb_client_state_reset s) = client_fd s /\
  closed (nb_client_state_reset s) = closed s ++ bank s.
Proof. unfold nb_client_state_reset, bank. case_if; cbn; by rewrite ?app_nil_r. Qed.

Lemma greeted_io dsp s fd : cmd (greeted dsp s fd) = cmds0 /\ client_fd (greeted dsp s fd) = fd /\
  closed (greeted dsp s fd) = closed s ++ bank s.
Proof.
  destruct (reset_io s) as (E1 & _ & E3). unfold greeted. cbv zeta.
  generalize dependent (nb_client_state_reset s). intros s1 E1 E3. cbn [set_conn cmd client_fd closed].
  unfold x11_set_grab. repeat case_if; done.
Qed.

Lemma total_fresh s : cmd s = cmds0 -> total s = closed s ++ conn s.
Proof. intros H. unfold total, bank. by rewrite H. Qed.

Lemma hold_accept dsp s fd rs : 0 <= fd -> hold s (accept_client dsp s fd rs) [fd].
Proof.
  intros Hf. unfold accept_client. destruct (Z.leb_spec 0 (client_fd s)) as [Hc|Hc].
  { constructor; [|by left]. unfold total, bank, conn. cbn. solve_Permutation. }
  assert (conn s = []) as Ec by (unfold conn; by rewrite (proj2 (Z.leb_gt _ _))).
  unfold nb_sink_attach. cbv zeta. set (l := (EV_HELLO, _, _, _, _) :: _). destruct (greeted_io dsp s fd) as (G1 & G2 & G3).
  destruct (handshakes_io (greeted dsp s fd) l rs) as (E1 & E2 & E3).
  destruct (handshakes (greeted dsp s fd) l rs) as [s' r]. cbn [fst] in *. rewrite G1 in E1. rewrite G2 in E3. rewrite G3 in E2.
  case_if.
  - set (s1 := set_conn s' (-1) _). destruct (reset_io s1) as (R1 & R2 & R3). case_if; [|done].
    assert (bank s1 = []) as B by (unfold bank, s1; cbn [set_conn cmd]; by rewrite E1).
    constructor; [|right; unfold close_fd; cbn [set_closed cmd]; by rewrite R1].
    rewrite (total_fresh (close_fd _ _) R1). unfold conn at 1. unfold close_fd. cbn [set_closed closed client_fd].
    rewrite R2, R3, B. unfold s1. cbn. rewrite E2. unfold total. rewrite Ec. solve_Permutation.
  - cbn. constructor; [|right; by rewrite E1]. rewrite (total_fresh s' E1). unfold conn at 1.
    rewrite E2, E3, (proj2 (Z.leb_le 0 fd)) by done. unfold total. rewrite Ec. solve_Permutation.
Qed.

Lemma hold_step cfg dsp s e : ev_ok e -> base s -> hold s (step cfg dsp s e) (handed cfg dsp s (Ev e)).
Proof.
  intros He Hb. pose proof (hold_refl s) as H0. destruct e; cbn [step handed].
  - apply hold_key.
  - unfold nb_sink_btn. repeat case_if; auto. apply hold_emit. by apply (hold_of s s).
  - unfold nb_sink_abs. case_if; auto with hold.
  - unfold nb_sink_rel. repeat case_if; auto with hold.
  - unfold nb_sink_wheel. case_if; auto with hold.
  - apply hold_focus.
  - unfold nb_sink_pointer. case_if; auto. apply hold_emit. by apply (hold_of s s).
  - unfold nb_sink_surface. repeat case_if; auto. apply hold_emit. by apply (hold_of s s).
  - by apply hold_emit.
  - by apply hold_emit.
  - by apply hold_emit.
  - unfold nb_sink_force_ungrab. case_if; [by apply hold_set_grab|done].
  - unfold nb_sink_set_fullscreen. case_if; [done|]. by apply (hold_of s s).
  - by apply hold_finish.
  - by apply hold_send.
  - unfold flush_client. pose proof (hold_flush ans s s [] H0) as H1. destruct (nb_sink_flush ans s) as [s1 r].
    cbn [fst] in H1. case_if; [by apply hold_detach|done].
  - unfold nb_sink_close_request. case_if; [done|]. cbn [fst]. by apply hold_flush, hold_emit.
  - unfold nb_sink_bye. by apply hold_flush, hold_emit.
  - by apply hold_accept.
  - by apply hold_detach.
  - constructor; [by rewrite app_nil_r|]. left. done.
Qed.

(** ** The invariant *)
Record binv (s : st) : Prop := { bi_good : good s; bi_reading : reading (cmd s); bi_quiet : quiet s }.

Lemma hold_inv s s' x : hold s s' x -> good s' -> binv s -> binv s'.
Proof.
  intros [_ Hc] Hg [_ [R1 R2 R3 R4] Hq]. constructor; [done| |].
  - destruct Hc as [[(E1 & _ & E2) _]|(E1 & _ & E2)]; constructor; rewrite ?E1, ?E2; try done. simpl. lia.
  - unfold quiet in *. destruct Hc as [[(_ & -> & _) ->]|(_ & -> & _)]; [done|]. done.
Qed.

Lemma rx_fuel_val : Z.of_nat rx_fuel = 2560.
Proof. unfold rx_fuel, NB_RX_BUDGET, NVKVM_BROKER_CMD_SIZE. rewrite Z2Nat.id by lia. done. Qed.

Lemma readable_ok cfg dsp en ins s :
  kernel_ok ins -> binv s ->
  exists r, nb_sink_readable cfg dsp en ins s = Some r /\ read_ok cfg en ins 0 rx_fuel NB_RX_BUDGET s r.
Proof.
  intros Hk [Hg Hr Hq]. unfold nb_sink_readable. pose proof rx_fuel_val as Hf. generalize dependent rx_fuel. intros f Hf.
  assert (NB_RX_BUDGET * 40 - Z.of_nat (length (rx (cmd s))) <= Z.of_nat f) as H by (unfold NB_RX_BUDGET; lia).
  exact (loop_ok cfg dsp en ins Hk f 0%nat s NB_RX_BUDGET 0 ltac:(unfold NB_RX_BUDGET; lia) H Hg Hr Hq).
Qed.

Lemma bstep_ok cfg dsp s e :
  bev_ok e -> binv s -> binv (bstep cfg dsp s e) /\ total (bstep cfg dsp s e) ≡ₚ total s ++ handed cfg dsp s e.
Proof.
  intros He Hi. destruct e as [e|en ins]; cbn [bev_ok bstep] in *.
  - pose proof Hi as [(Hb & Hk & Hg) _ _]. pose proof (hold_step cfg dsp s e He Hb) as Hh. split; [|apply Hh].
    apply (hold_inv s _ _ Hh); [|done]. split; [by apply base_step|]. split; [by apply keys_step|by apply grab_step].
  - destruct (readable_ok cfg dsp en ins s He Hi) as ([[[s' es] took] j] & Er & R). cbn [handed]. rewrite Er.
    destruct R as [R1 R2 R3 R4 R5 _ _ _]. cbn [fst snd] in *. destruct R1 as [H1 H2 _]. rewrite <- R2. done.
Qed.

Lemma binv_init sn : held sn = false -> binv (nb_sink_init sn).
Proof. intros H. constructor; [by apply init_ok|apply reading0|done]. Qed.

Lemma brun_ok cfg dsp tr s :
  Forall bev_ok tr -> binv s ->
  binv (brun cfg dsp s tr) /\ total (brun cfg dsp s tr) ≡ₚ total s ++ all_handed cfg dsp s tr.
Proof.
  revert s. induction tr as [|e tr IH]; intros s Ht Hi; [by split; [|by rewrite app_nil_r]|].
  apply Forall_cons in Ht as [He Ht]. destruct (bstep_ok cfg dsp s e He Hi) as [H1 H2].
  destruct (IH _ Ht H1) as [H3 H4]. cbn [brun fold_left all_handed] in *. split; [done|].
  change (fold_left (bstep cfg dsp) tr (bstep cfg dsp s e)) with (brun cfg dsp (bstep cfg dsp s e) tr).
  by rewrite H4, H2, app_assoc.
Qed.

(** The display server routes keys to the active window only: the backends
    report the focus before the first key. *)
Fixpoint keys_when_focused (cfg : config) (dsp : display) (s : st) (tr : list bevent) : Prop :=
  match tr with
  | [] => True
  | e :: r =>
      match e with Ev (Key _ _) => focused (wn s) = true | _ => True end /\
      keys_when_focused cfg dsp (bstep cfg dsp s e) r
  end.

Lemma read_grab cfg dsp en ins s :
  kernel_ok ins -> binv s -> keep s (bstep cfg dsp s (Readable en ins)).
Proof.
  intros Hk Hi. destruct (readable_ok cfg dsp en ins s Hk Hi) as ([[[s' es] took] j] & Er & R).
  cbn [bstep]. rewrite Er. apply (s_keep _ _ _ (ro_sound _ _ _ _ _ _ _ _ R)).
Qed.

Lemma event_focused cfg dsp s e :
  base s -> grab_ok s -> match e with Key _ _ => focused (wn s) = true | _ => True end ->
  (grabbed (wn s) = true -> focused (wn s) = true) ->
  grabbed (wn (step cfg dsp s e)) = true -> focused (wn (step cfg dsp s e)) = true.
Proof.
  intros Hb Hg Hw Hf Hn. destruct (grab_step cfg dsp s e Hb Hg) as [G1 G2].
  destruct e; try (destruct G2 as [E1 E2]; rewrite E1; apply Hf, E2, Hn).
  - by rewrite G2.
  - destruct G2 as [E1 E2]. rewrite E1. destruct active; [done|].
    destruct (focused (wn s)) eqn:Ef; [by rewrite E2 in Hn|].
    cbn [step] in Hn. unfold nb_sink_focus in Hn. rewrite Ef in Hn. cbn in Hn. pose proof (Hf Hn). congruence.
Qed.

Lemma brun_focused cfg dsp tr s :
  binv s -> Forall bev_ok tr -> keys_when_focused cfg dsp s tr ->
  (grabbed (wn s) = true -> focused (wn s) = true) ->
  let s' := brun cfg dsp s tr in grabbed (wn s') = true -> focused (wn s') = true.
Proof.
  revert s. induction tr as [|e tr IH]; intros s Hi Ht Hw Hf; [done|].
  apply Forall_cons in Ht as [He Ht]. destruct Hw as [Hw1 Hw2].
  change (brun cfg dsp s (e :: tr)) with (brun cfg dsp (bstep cfg dsp s e) tr).
  apply IH; [by apply bstep_ok|done|done|]. destruct e as [e|en ins].
  - pose proof Hi as [(Hb & _ & Hg) _ _]. by apply event_focused.
  - pose proof (read_grab cfg dsp en ins s He Hi) as Hk. rewrite (kp_focus _ _ Hk).
    intros Hn. by apply Hf, (keep_grabbed _ _ Hk).
Qed.

(** ** Theorems *)

(** C34: the keyboard is never captured behind the user's back.  Whatever
    arrives from the display and from the client, in whatever order, and
    whatever the display server and the socket answer: the display-side grab is
    held exactly when the broker believes it is, only while a client is
    connected, and only on a session that reports focus loss; while the window
    is inactive no key is down for the client; and as long as keys come to the
    active window only, the grab is held only while the window is active. *)
Theorem broker_grab_safe cfg dsp sn tr :
  held sn = false -> Forall bev_ok tr ->
  let s := brun cfg dsp (nb_sink_init sn) tr in
  held (se s) = grabbed (wn s) /\
  (grabbed (wn s) = true -> 0 <= client_fd s /\ (caps (se s) & CAP_FOCUS_EVENTS) <> 0) /\
  (focused (wn s) = false -> forall c, 0 <= c < 768 -> bit_get (key_down (kb s)) c = false) /\
  (keys_when_focused cfg dsp (nb_sink_init sn) tr -> grabbed (wn s) = true -> focused (wn s) = true).
Proof.
  intros Hh Ht s. pose proof (binv_init sn Hh) as H0.
  destruct (brun_ok cfg dsp tr _ Ht H0) as [[(Hb & Hk & Hg1 & Hg2) _ _] _]. fold s in Hb, Hk, Hg1, Hg2.
  split; [done|]. split; [done|]. split; [apply (k_quiet _ Hk)|]. intros Hw.
  exact (brun_focused cfg dsp tr (nb_sink_init sn) H0 Ht Hw ltac:(done)).
Qed.

(** The client's view.  On every connection: the packets sent and queued are
    those emitted, in order and untouched, apart from merged motion and pacing;
    the bytes on the wire are whole packets followed by a prefix of the next;
    the sequence numbers have no gap; a key or button is down for the client
    exactly when the broker has it down; every press, motion and wheel packet
    was produced while the window was active, relative motion only under the
    grab and absolute motion only without; and no connection means nothing
    queued. *)
Theorem broker_client_view cfg dsp sn tr :
  held sn = false -> Forall bev_ok tr ->
  let s := brun cfg dsp (nb_sink_init sn) tr in
  others (sent s ++ contents (ring s)) = others (emitted s) /\
  wire s = stream (sent s) ++ begun (ring s) /\
  pseq <$> emitted s = u32 <$> seqZ 0 (arr_len (emitted s)) /\
  (0 <= client_fd s -> forall c, 0 <= c < 768 -> bit_get (key_down (kb s)) c = down (emitted s) c) /\
  Forall pkt_ok (emitted s) /\
  (client_fd s < 0 -> emitted s = [] /\ contents (ring s) = []).
Proof.
  intros Hh Ht s. destruct (brun_ok cfg dsp tr _ Ht (binv_init sn Hh)) as [[([B1 B2 B3 B4 B5 B6] & [[K1 K2 K3] _ _] & _) _ _] _].
  done.
Qed.

(** C36: no descriptor is lost.  At every moment the descriptors the broker was
    ever handed, connections and those a client sent, are exactly the closed
    ones, the connection, and at most one waiting for the rest of its command;
    and with no client all of them are closed. *)
Theorem broker_no_leak cfg dsp sn tr :
  held sn = false -> Forall bev_ok tr ->
  let s := brun cfg dsp (nb_sink_init sn) tr in
  closed s ++ bank s ++ conn s ≡ₚ all_handed cfg dsp (nb_sink_init sn) tr /\
  (client_fd s < 0 -> closed s ≡ₚ all_handed cfg dsp (nb_sink_init sn) tr).
Proof.
  intros Hh Ht s. destruct (brun_ok cfg dsp tr _ Ht (binv_init sn Hh)) as [[_ _ Hq] H]. fold s in Hq, H.
  change (total (nb_sink_init sn)) with (@nil Z) in H. split; [exact H|]. intros Hc.
  rewrite app_nil_l in H. rewrite <- H. unfold total, bank, conn. rewrite (Hq Hc), (proj2 (Z.leb_gt 0 (client_fd s)) Hc).
  by rewrite !app_nil_r.
Qed.

(** C35: what a client can do.  In every state the broker reaches, and whatever
    the socket then delivers, one wakeup returns after at most 2560 [recvmsg]
    calls; it asks the display for at most 128 things, each of which is within
    bounds (a validated buffer, a well-formed text under a mode that allows it,
    a sane size), and resizes the window at most once per connection; it leaves
    the focus alone and never takes the grab. *)
Theorem broker_read_safe cfg dsp sn tr en ins :
  held sn = false -> Forall bev_ok tr -> kernel_ok ins ->
  let s := brun cfg dsp (nb_sink_init sn) tr in
  exists s' es took j, nb_sink_readable cfg dsp en ins s = Some (s', es, took, j) /\
    Z.of_nat j <= 2560 /\ Z.of_nat (length es) <= 128 /\ Forall (eff_ok cfg en (caps (se s))) es /\
    (resizes es + Nat.b2n (window_established (cmd s)) <= 1)%nat /\
    focused (wn s') = focused (wn s) /\ (grabbed (wn s') = true -> grabbed (wn s) = true).
Proof.
  intros Hh Ht Hk s. destruct (brun_ok cfg dsp tr _ Ht (binv_init sn Hh)) as [Hi _]. fold s in Hi.
  destruct (readable_ok cfg dsp en ins s Hk Hi) as ([[[s' es] took] j] & Er & [R1 R2 R3 R4 R5 R6 R7 [R8 _]]).
  cbn [fst snd] in *. exists s', es, took, j. destruct R1 as [_ _ K].
  split; [done|]. split; [|split; [exact R7|]].
  - rewrite <- rx_fuel_val. apply Nat2Z.inj_le, R3.
  - split; [done|]. split; [done|]. split; [by apply kp_focus|by apply keep_grabbed].
Qed.

(** ** A session with a client that sends commands *)
Definition demo_env : env :=
  Env (fun n => Z.of_nat n) (fun _ => []) (fun _ => FdInfo None 0 0 None) X11 (Formats [] false) false false
    (fun _ => 0) (fun _ => 0) SESSION_CLIP_G2H (Some (fun _ => 0)) (fun _ => 100).

Definition wire_cmd (ty wd ht : Z) : list Z := le_bytes 2 ty ++ le_bytes 2 0 ++ le_bytes 4 wd ++ le_bytes 4 ht ++ replicate 28 0.
Definition wire_clip (chunk info : Z) (data : list Z) : list Z :=
  le_bytes 2 CMD_CLIPBOARD ++ le_bytes 2 0 ++ le_bytes 4 chunk ++ le_bytes 4 0 ++ [info] ++ data ++ replicate (27 - length data) 0.

(** WINDOW in two reads, a clipboard text, COMMIT, a second WINDOW, and an ATTACH
    whose descriptor the session cannot use. *)
Definition demo_reads : list recv :=
  [Data (take 11 (wire_cmd CMD_WINDOW 800 600)) [] false; Data (drop 11 (wire_cmd CMD_WINDOW 800 600)) [] false;
   Data (wire_clip 0 (Z.lor 3 NVKVM_BROKER_CLIP_LAST) [104; 195; 169]) [] false; Data (wire_cmd CMD_COMMIT 0 0) [] false;
   Data (wire_cmd CMD_WINDOW 640 480) [] false; Data (take 20 (wire_cmd CMD_ATTACH 800 600)) [9] false;
   Data (drop 20 (wire_cmd CMD_ATTACH 800 600)) [] false; Data [2; 0; 0] [10] false].
Definition demo_ins (i : nat) : recv := nth i demo_reads RAgain.
Definition demo_btr : list bevent := (Ev <$> demo_grab) ++ [Readable demo_env demo_ins; Ev (Focus false)].

Lemma demo_effects :
  match nb_sink_readable demo_cfg demo_dsp demo_env demo_ins (brun demo_cfg demo_dsp (nb_sink_init demo_sess) (Ev <$> demo_grab)) with
  | Some (s, es, took, j) =>
      es = [DoResize 800 600; DoSetClipboard [104; 195; 169] 0; DoNotify; DoCommit 0] /\
      took = [9; 10] /\ closed s = [9] /\ rxfd (cmd s) = 10 /\ client_fd s = 7 /\ grabbed (wn s) = true /\ j = 9%nat
  | None => False
  end.
Proof. vm_compute. repeat split; reflexivity. Qed.

Lemma demo_kernel : kernel_ok demo_ins.
Proof.
  intros i bs fds tr H. unfold demo_ins in H.
  assert (forallb (fun r => match r with
      | Data bs fds _ => forallb (fun c => (0 <=? c) && (c <? 256)) bs && forallb (Z.leb 0) fds && negb (bool_decide (bs = []))
      | _ => true end) demo_reads = true) as Hd by (vm_compute; reflexivity).
  destruct (Nat.ltb_spec i (length demo_reads)) as [Hi|Hi]; [|by rewrite nth_overflow in H].
  rewrite forallb_forall in Hd. specialize (Hd _ (nth_In demo_reads RAgain Hi)). rewrite H in Hd.
  apply andb_true_iff in Hd as [Hd H3]. apply andb_true_iff in Hd as [H1 H2]. rewrite forallb_forall in H1, H2. split; [|split].
  - apply Forall_forall. intros c Hc. apply list_elem_of_In, H1 in Hc. unfold byte. lia.
  - apply Forall_forall. intros c Hc. apply list_elem_of_In, H2 in Hc. lia.
  - intros ->. done.
Qed.

Lemma demo_btr_ok : Forall bev_ok demo_btr.
Proof.
  unfold demo_btr, demo_grab. cbn [fmap list_fmap app].
  repeat (apply Forall_cons; split; [first [exact demo_kernel|done|by split]|]). apply Forall_nil. done.
Qed.

Lemma demo_keys_focused : keys_when_focused demo_cfg demo_dsp (nb_sink_init demo_sess) demo_btr.
Proof. vm_compute. tauto. Qed.

Lemma broker_grab_safe_witness :
  let s := brun demo_cfg demo_dsp (nb_sink_init demo_sess) demo_btr in
  held (se s) = grabbed (wn s) /\
  (grabbed (wn s) = true -> 0 <= client_fd s /\ (caps (se s) & CAP_FOCUS_EVENTS) <> 0) /\
  (focused (wn s) = false -> forall c, 0 <= c < 768 -> bit_get (key_down (kb s)) c = false) /\
  (keys_when_focused demo_cfg demo_dsp (nb_sink_init demo_sess) demo_btr -> grabbed (wn s) = true -> focused (wn s) = true).
Proof. exact (broker_grab_safe demo_cfg demo_dsp demo_sess demo_btr eq_refl demo_btr_ok). Defined.

Lemma broker_client_view_witness :
  let s := brun demo_cfg demo_dsp (nb_sink_init demo_sess) demo_btr in
  others (sent s ++ contents (ring s)) = others (emitted s) /\
  wire s = stream (sent s) ++ begun (ring s) /\
  pseq <$> emitted s = u32 <$> seqZ 0 (arr_len (emitted s)) /\
  (0 <= client_fd s -> forall c, 0 <= c < 768 -> bit_get (key_down (kb s)) c = down (emitted s) c) /\
  Forall pkt_ok (emitted s) /\
  (client_fd s < 0 -> emitted s = [] /\ contents (ring s) = []).
Proof. exact (broker_client_view demo_cfg demo_dsp demo_sess demo_btr eq_refl demo_btr_ok). Defined.

Lemma broker_no_leak_witness :
  let s := brun demo_cfg demo_dsp (nb_sink_init demo_sess) demo_btr in
  closed s ++ bank s ++ conn s ≡ₚ all_handed demo_cfg demo_dsp (nb_sink_init demo_sess) demo_btr /\
  (client_fd s < 0 -> closed s ≡ₚ all_handed demo_cfg demo_dsp (nb_sink_init demo_sess) demo_btr).
Proof. exact (broker_no_leak demo_cfg demo_dsp demo_sess demo_btr eq_refl demo_btr_ok). Defined.

Lemma broker_read_safe_witness :
  let s := brun demo_cfg demo_dsp (nb_sink_init demo_sess) demo_btr in
  exists s' es took j, nb_sink_readable demo_cfg demo_dsp demo_env demo_ins s = Some (s', es, took, j) /\
    Z.of_nat j <= 2560 /\ Z.of_nat (length es) <= 128 /\ Forall (eff_ok demo_cfg demo_env (caps (se s))) es /\
    (resizes es + Nat.b2n (window_established (cmd s)) <= 1)%nat /\
    focused (wn s') = focused (wn s) /\ (grabbed (wn s') = true -> grabbed (wn s) = true).
Proof. exact (broker_read_safe demo_cfg demo_dsp demo_sess demo_btr demo_env demo_ins eq_refl demo_btr_ok demo_kernel). Defined.

End Broker.
