(* ===== verification/StubJob.v ===== *)
(** * StubJob: what the isolate stub hands to the driver, and what it sends back

    Models one turn of [worker_thread] of [src/stub/nvkvm_stub.c]: the parameter
    and auxiliary blobs of a job come from the guest; the stub rewrites the
    fields that hold pointers or descriptors, calls the driver, and puts the
    guest's values back before it answers.

    The blobs are lists of bytes whose lengths are [param_size] and [aux_size].
    [va] is the address of the auxiliary blob in the stub, [lookup] is
    [handle_lookup] (the local descriptor of a handle, negative when there is
    none), and the driver is the argument [drv]. *)
From S2P Require Import Prelude Bytes Abi.
Import Abi.

Module StubJob.

(** ** Commands *)
Definition TY_F : Z := 70.
Definition TY_d : Z := 100.
Definition NVKVM_NVKMS_IOCTL_CMD : Z := 0xC0106D00.
Definition NVKVM_NVKMS_PARAMS_SIZE : Z := 16.
Definition NVKVM_NVKMS_ADDR_OFF : Z := 8.
Definition NVKVM_NVKMS_REGSURF_USEFD_OFF : Z := 4.
Definition NVKVM_NVKMS_REGSURF_PLANE0_OFF : Z := 16.
Definition NVKVM_NVKMS_REGSURF_PLANE_STRIDE : Z := 32.
Definition NVKVM_NVKMS_MAX_PLANES : Z := 3.
Definition NVKVM_NVKMS_REG_SURFACE_UNSHIFTED : Z := 16.
Definition NVKVM_NVKMS_REG_SURFACE_SHIFTED : Z := 17.

Definition ioc_type (cmd : Z) : Z := Z.shiftr cmd 8 & 0xff.
Definition ioc_nr (cmd : Z) : Z := cmd & 0xff.

(** ** Device of a handle *)
Definition handle_type_matches_dev (dev cmd : Z) : bool :=
  if dev =? 0 then ioc_type cmd =? TY_F
  else if (16 <=? dev) && (dev <? 32) then ioc_type cmd =? TY_F
  else if (32 <=? dev) && (dev <? 48) then ioc_type cmd =? TY_d
  else if dev =? 48 then cmd =? NVKVM_NVKMS_IOCTL_CMD
  else false.

(** ** Lists embedded in control parameters *)
Definition nvkvm_ctrl_list_entry_size (cmd : Z) : Z :=
  if existsb (Z.eqb cmd) [0x00410110; 0x00801104; 0x20800802; 0x20801201; 0x20801301; 0x20801802] then 8
  else if existsb (Z.eqb cmd) [0x20800123; 0x00800201] then 4
  else if existsb (Z.eqb cmd) [0x00801102; 0x00801301; 0x00801401; 0x00801701; 0x00801b01; 0x00801c02] then 1
  else 0.

(** ** Field access *)
Definition rdi (off : Z) (b : list Z) : Z := s32 (rd 4 off b).
Definition put4 (off v : Z) (b : list Z) : list Z := wr off (le_bytes 4 (u32 v)) b.
Definition put8 (off v : Z) (b : list Z) : list Z := wr off (le_bytes 8 (u64 v)) b.

(** [aux_buf] is null when there is no blob. *)
Definition aux_clear_ptr (a : list Z) (off : Z) : list Z :=
  if arr_len a <=? off then a
  else
    let n := arr_len a - off in
    let n := if 8 <? n then 8 else n in
    wr off (replicate (Z.to_nat n) 0) a.

Definition zero_nvos64_rights (ty nr : Z) (p : list Z) : list Z :=
  if negb (ty =? TY_F) || negb (nr =? 0x2b) || (arr_len p <? 36) then p else put8 24 0 p.

Definition clamp_off (ty nr psize : Z) : option Z :=
  if negb (ty =? TY_F) then None
  else if (nr =? 0x2a) && (28 <=? psize) then Some 24
  else if (nr =? 0x2b) && (36 <=? psize) then Some 32
  else None.

Definition clamp_inner_params_size (ty nr : Z) (p : list Z) (asize : Z) : list Z :=
  match clamp_off ty nr (arr_len p) with
  | None => p
  | Some off => if asize <? rd 4 off p then put4 off asize p else p
  end.

(** What the restoring half needs. *)
Record saved := Saved {
  regsurf : list (Z * Z);         (* plane offset, handle id *)
  drm_hid : option Z;
  str_sz : Z; info_list_size : Z; info_list_base : Z;
  export_fd : option (Z * Z);     (* offset, handle id *)
  uvm_fd : option (Z * Z); fe_fd : option (Z * Z);
  event_hid : option Z }.
Definition saved0 : saved := Saved [] None 0 0 0 None None None None.

Section Worker.
Context (lookup : Z -> Z) (va : Z).

(** ** The outer pointer *)
Definition ptr_off (cmd psize asize : Z) : option Z :=
  let ty := ioc_type cmd in
  let nr := ioc_nr cmd in
  if ((cmd =? NVKVM_NVKMS_IOCTL_CMD) && (NVKVM_NVKMS_PARAMS_SIZE <=? psize))
     || ((ty =? TY_d) && ((nr =? 0x54) || (nr =? 0x49) || (nr =? 0x41)) && (16 <=? psize))
  then Some NVKVM_NVKMS_ADDR_OFF
  else if (ty =? TY_F) && ((nr =? 0x2a) || (nr =? 0x2b)) && (24 <=? psize) then Some 16
  else if (ty =? TY_d) && (nr =? 0x45) && (24 <=? psize) then Some 16
  else if (0 <? asize) && (24 <=? psize) then Some 16
  else None.

Definition wire_ptr (cmd : Z) (p a : list Z) : list Z :=
  match ptr_off cmd (arr_len p) (arr_len a) with
  | None => p
  | Some off => put8 off (if 0 <? arr_len a then va else 0) p
  end.

Definition fence_clear (cmd : Z) (p : list Z) : list Z :=
  if (ioc_type cmd =? TY_d) && (ioc_nr cmd =? 0x45) && (40 <=? arr_len p) then put8 32 0 p else p.

(** The outer fields, in order. *)
Definition outer (cmd : Z) (p a : list Z) : list Z :=
  let p := wire_ptr cmd p a in
  let p := clamp_inner_params_size (ioc_type cmd) (ioc_nr cmd) p (arr_len a) in
  let p := zero_nvos64_rights (ioc_type cmd) (ioc_nr cmd) p in
  fence_clear cmd p.

(** ** Descriptors inside the auxiliary blob *)
Fixpoint planes (l : list Z) (a : list Z) (sv : list (Z * Z)) : option (list Z * list (Z * Z)) :=
  match l with
  | [] => Some (a, sv)
  | i :: l =>
      let off := NVKVM_NVKMS_REGSURF_PLANE0_OFF + i * NVKVM_NVKMS_REGSURF_PLANE_STRIDE in
      let hid := rdi off a in
      if hid <=? 0 then planes l a sv
      else
        let lfd := lookup (u32 hid) in
        if lfd <? 0 then None
        else planes l (put4 off lfd a) (sv ++ [(off, hid)])
  end.

Definition reg_surface (cmd : Z) (p a : list Z) : option (list Z * list (Z * Z)) :=
  if (cmd =? NVKVM_NVKMS_IOCTL_CMD) && (4 <=? arr_len p)
     && (NVKVM_NVKMS_REGSURF_PLANE0_OFF + NVKVM_NVKMS_MAX_PLANES * NVKVM_NVKMS_REGSURF_PLANE_STRIDE <=? arr_len a)
  then
    let subcmd := rd 4 0 p in
    if ((subcmd =? NVKVM_NVKMS_REG_SURFACE_UNSHIFTED) || (subcmd =? NVKVM_NVKMS_REG_SURFACE_SHIFTED))
       && negb (rd 1 NVKVM_NVKMS_REGSURF_USEFD_OFF a =? 0)
    then planes (seqZ 0 NVKVM_NVKMS_MAX_PLANES) a []
    else Some (a, [])
  else Some (a, []).

Definition drm_export (cmd : Z) (a : list Z) : option (list Z * option Z) :=
  if (ioc_type cmd =? TY_d) && ((ioc_nr cmd =? 0x49) || (ioc_nr cmd =? 0x41)) && (4 <=? arr_len a) then
    let hid := rdi 0 a in
    if 0 <? hid then
      let lfd := lookup (u32 hid) in
      if lfd <? 0 then None else Some (put4 0 lfd a, Some hid)
    else Some (a, None)
  else Some (a, None).

(** ** RM_CONTROL: pointers and descriptors of the inner command *)

(** [size, base]: 0 when nothing was wired. *)
Definition info_list (inner : Z) (a : list Z) : list Z * Z * Z :=
  let esz := nvkvm_ctrl_list_entry_size inner in
  if negb (esz =? 0) && (4 <=? arr_len a) then
    let ls := rd 4 0 a in
    if (0 <? ls) && (ls * esz <? arr_len a) && (16 <=? u32 (arr_len a - ls * esz)) then
      let base := u32 (arr_len a - ls * esz) in
      (put8 8 (va + base) a, ls, base)
    else (aux_clear_ptr a 8, 0, 0)
  else (a, 0, 0).

(** The descriptor at [off], which must resolve. *)
Definition inner_fd (off : Z) (a : list Z) : option (list Z * (Z * Z)) :=
  let hid := rdi off a in
  let lfd := if 0 <? hid then lookup (u32 hid) else -1 in
  if lfd <? 0 then None else Some (put4 off lfd a, (off, hid)).

Definition channel_list (a : list Z) : list Z * option Z :=
  let nc := if 4 <=? arr_len a then rd 4 0 a else 0 in
  if (0 <? nc) && (nc <=? 4096) && (24 + nc * 8 <=? arr_len a) then
    (put8 16 (va + 24 + nc * 4) (put8 8 (va + 24) a), Some nc)
  else (aux_clear_ptr (aux_clear_ptr a 8) 16, None).

Definition build_version (a : list Z) : list Z * Z :=
  let sz := if 4 <=? arr_len a then rd 4 0 a else 0 in
  if (0 <? sz) && (sz <=? 512) && (40 + sz * 3 <=? arr_len a) then
    (put8 24 (va + 40 + 2 * sz) (put8 16 (va + 40 + sz) (put8 8 (va + 40) a)), sz)
  else (aux_clear_ptr (aux_clear_ptr (aux_clear_ptr a 8) 16) 24, 0).

(** The outcome: the blob, [str_sz], [info_list_size], [info_list_base], and the
    descriptor replaced. *)
Definition ctrl_inner (cmd : Z) (p a : list Z) : option (list Z * Z * Z * Z * option (Z * Z)) :=
  if (ioc_nr cmd =? 0x2a) && (0 <? arr_len a) && (12 <=? arr_len p) then
    let inner := rd 4 8 p in
    let '(a, ils, ilb) := info_list inner a in
    match (if (inner =? 0x00003d05) && (20 <=? arr_len a) then
             match inner_fd 16 a with None => None | Some (a, s) => Some (a, Some s) end
           else Some (a, None)) with
    | None => None
    | Some (a, ex) =>
        match (if ((inner =? 0x00003d06) || (inner =? 0x00003d08)) && (4 <=? arr_len a) then
                 match inner_fd 0 a with None => None | Some (a, s) => Some (a, Some s) end
               else Some (a, ex)) with
        | None => None
        | Some (a, ex) =>
            let '(a, ils, ilb) :=
              if inner =? 0x0080170d then
                match channel_list a with
                | (a, Some nc) => (a, nc, 0xFFFFFFFF)
                | (a, None) => (a, ils, ilb)
                end
              else (a, ils, ilb) in
            let a := if inner =? 0x00000202 then aux_clear_ptr a 16 else a in
            let '(a, ss) := if inner =? 0x00000101 then build_version a else (a, 0) in
            Some (a, ss, ils, ilb, ex)
        end
    end
  else Some (a, 0, 0, 0, None).

(** ** Descriptors inside the parameters *)
Definition uvm_fd_off (abi cmd psize : Z) : option Z :=
  if psize <? 4 then None
  else if cmd =? 75 then Some 0
  else if cmd =? 37 then Some NVKVM_UVM_REGISTER_GPU_FD_OFF
  else if cmd =? 25 then Some 16
  else if cmd =? 27 then Some 16
  else if cmd =? 33 then Some (uvm_map_ext_fd_off (nvkvm_abi_by_id abi))
  else None.

Definition uvm_embedded (abi cmd : Z) (p : list Z) : option (list Z * option (Z * Z)) :=
  match uvm_fd_off abi cmd (arr_len p) with
  | None => Some (p, None)
  | Some off =>
      if off + 4 <=? arr_len p then
        let hid := rdi off p in
        let lfd := if 0 <? hid then lookup (u32 hid) else -1 in
        if lfd <? 0 then None else Some (put4 off lfd p, Some (off, hid))
      else Some (p, None)
  end.

Definition fe_fd_off (cmd : Z) : option Z :=
  if ioc_type cmd =? TY_F then
    let nr := ioc_nr cmd in
    if nr =? 0x4e then Some 48
    else if nr =? 0x27 then Some 48
    else if (nr =? 0xce) || (nr =? 0xcf) then Some 8
    else if nr =? 0xc9 then Some 0
    else None
  else None.

Definition idle_channels (cmd : Z) (p : list Z) : list Z :=
  if (ioc_type cmd =? TY_F) && (ioc_nr cmd =? 0x41) && (40 <=? arr_len p) then wr 12 (replicate 28 0) p else p.

(** The field is saved, and written back, even when it names no handle. *)
Definition fe_embedded (cmd : Z) (p : list Z) : option (list Z * option (Z * Z)) :=
  match fe_fd_off cmd with
  | None => Some (p, None)
  | Some off =>
      if off + 4 <=? arr_len p then
        let hid := rdi off p in
        if 0 <? hid then
          let lfd := lookup (u32 hid) in
          if lfd <? 0 then None else Some (put4 off lfd p, Some (off, hid))
        else Some (p, Some (off, hid))
      else Some (p, None)
  end.

(** RM_ALLOC of an event: the descriptor in the allocation parameters. *)
Definition event_fd (cmd : Z) (p a : list Z) : option (list Z * option Z) :=
  if (ioc_type cmd =? TY_F) && (ioc_nr cmd =? 0x2b) && (24 <=? arr_len a) && (32 <? arr_len p) then
    let h_class := rd 4 12 p in
    if (h_class =? 0x79) || (h_class =? 0x05) then
      let hid := s32 (u32 (rd 8 16 a)) in
      if 0 <? hid then
        let lfd := lookup (u32 hid) in
        if lfd <? 0 then None else Some (put8 16 (u32 lfd) a, Some hid)
      else Some (a, None)
    else Some (a, None)
  else Some (a, None).

(** ** Before and after the call *)
Definition prepare (abi cmd : Z) (p a : list Z) : option (list Z * list Z * saved) :=
  let p := outer cmd p a in
  match reg_surface cmd p a with
  | None => None
  | Some (a, rs) =>
  match drm_export cmd a with
  | None => None
  | Some (a, dh) =>
  match ctrl_inner cmd p a with
  | None => None
  | Some (a, ss, ils, ilb, ex) =>
  match uvm_embedded abi cmd p with
  | None => None
  | Some (p, uv) =>
  let p := idle_channels cmd p in
  match fe_embedded cmd p with
  | None => None
  | Some (p, fe) =>
  match event_fd cmd p a with
  | None => None
  | Some (a, ev) => Some (p, a, Saved rs dh ss ils ilb ex uv fe ev)
  end end end end end end.

End Worker.

Definition put_back (s : option (Z * Z)) (b : list Z) : list Z :=
  match s with Some (off, hid) => put4 off hid b | None => b end.

(** The parameters: descriptors back, the pointer cleared. *)
Definition ptr_zero (cmd asize : Z) (p : list Z) : list Z :=
  if (0 <? asize)
     && (((cmd =? NVKVM_NVKMS_IOCTL_CMD) && (NVKVM_NVKMS_PARAMS_SIZE <=? arr_len p))
         || ((ioc_type cmd =? TY_d) && ((ioc_nr cmd =? 0x54) || (ioc_nr cmd =? 0x41)) && (16 <=? arr_len p)))
  then put8 NVKVM_NVKMS_ADDR_OFF 0 p
  else if (0 <? asize) && (24 <=? arr_len p) then put8 16 0 p
  else p.

Definition finish_param (cmd : Z) (sv : saved) (p : list Z) (asize : Z) : list Z :=
  let p := put_back (uvm_fd sv) p in
  let p := put_back (fe_fd sv) p in
  ptr_zero cmd asize p.

Definition finish_aux (sv : saved) (a : list Z) : list Z :=
  let a := match event_hid sv with Some hid => put8 16 (u32 hid) a | None => a end in
  let a := if 0 <? str_sz sv then put8 24 0 (put8 16 0 (put8 8 0 a)) else a in
  let a := if 0 <? info_list_size sv then
             let a := put8 8 0 a in if info_list_base sv =? 0xFFFFFFFF then put8 16 0 a else a
           else a in
  let a := put_back (export_fd sv) a in
  let a := match drm_hid sv with Some hid => put4 0 hid a | None => a end in
  fold_left (fun a x => put4 (fst x) (snd x) a) (regsurf sv) a.

(** ** The status the driver left *)
Definition status_off (abi cmd psize : Z) : option Z :=
  let nr := ioc_nr cmd in
  if nr =? 0x27 then Some 40
  else if nr =? 0x29 then Some 12
  else if nr =? 0x2a then Some 28
  else if nr =? 0x2b then Some (if psize =? 48 then 40 else 28)
  else if nr =? 0x34 then Some 24
  else if nr =? 0x35 then Some 20
  else if nr =? 0x4a then Some 20
  else if nr =? 0x4e then Some 40
  else if nr =? 0x4f then Some 24
  else if nr =? 0x57 then Some (nvos46_status_off (nvkvm_abi_by_id abi))
  else if nr =? 0x58 then Some 40
  else if psize =? 48 then Some 40
  else if 32 <=? psize then Some 28
  else if psize =? 16 then Some 12
  else None.

Definition nvstatus (abi cmd : Z) (p : list Z) : Z :=
  if ioc_type cmd =? TY_F then
    match status_off abi cmd (arr_len p) with
    | Some off => if u32 (off + 4) <=? arr_len p then rd 4 off p else 0
    | None => 0
    end
  else if 4 <=? arr_len p then rd 4 (arr_len p - 4) p else 0.

(** ** One job *)
Record resp := Resp { retval : Z; r_status : Z; r_param : list Z; r_aux : list Z }.

(** [drv fd cmd p a]: the ioctl's result and the blobs it leaves. *)
Definition driver : Type := Z -> Z -> list Z -> list Z -> Z * list Z * list Z.

Definition refused (e : Z) : resp := Resp e 0 [] [].

(** With the descriptor and the verdict on its device, as looked up before. *)
Definition run_job_on (fd : Z) (typed : bool) (lookup : Z -> Z) (va : Z) (drv : driver) (cmd abi : Z) (p a : list Z) : resp :=
  if fd <? 0 then refused (- EBADF)
  else if negb typed then refused (- EPERM)
  else match prepare lookup va abi cmd p a with
  | None => refused (- EBADF)
  | Some (p, a, sv) =>
      let '(ret, p, a) := drv fd cmd p a in
      let p := finish_param cmd sv p (arr_len a) in
      let a := finish_aux sv a in
      Resp (if ret <? 0 then ret else s32 (u32 ret)) (nvstatus abi cmd p) p a
  end.

Definition run_job (lookup : Z -> Z) (devof : Z -> Z) (va : Z) (drv : driver) (handle cmd abi : Z) (p a : list Z) : resp :=
  run_job_on (lookup handle) (handle_type_matches_dev (devof handle) cmd) lookup va drv cmd abi p a.

(** Decide comparisons of command numbers. *)
Ltac cmd_dec := unfold TY_F, TY_d; cbn [Z.eqb Pos.eqb andb orb negb].

(** ** Reading a field after a write *)
Lemma put4_len off v b : 0 <= off -> off + 4 <= arr_len b -> arr_len (put4 off v b) = arr_len b.
Proof. intros. unfold arr_len, put4. rewrite wr_length; [done|done|rewrite le_bytes_arr_len; lia]. Qed.
Lemma put8_len off v b : 0 <= off -> off + 8 <= arr_len b -> arr_len (put8 off v b) = arr_len b.
Proof. intros. unfold arr_len, put8. rewrite wr_length; [done|done|rewrite le_bytes_arr_len; lia]. Qed.

Lemma rd_put4 off v b : 0 <= off -> off + 4 <= arr_len b -> rd 4 off (put4 off v b) = u32 v.
Proof. intros. apply rd_wr; [done|lia|]. apply u32_range. Qed.
Lemma rd_put8 off v b : 0 <= off -> off + 8 <= arr_len b -> rd 8 off (put8 off v b) = u64 v.
Proof. intros. apply rd_wr; [done|lia|]. apply u64_range. Qed.

Lemma rd_put4_out n off off' v b :
  0 <= off -> 0 <= off' -> off' + 4 <= arr_len b -> off + Z.of_nat n <= off' \/ off' + 4 <= off ->
  rd n off (put4 off' v b) = rd n off b.
Proof. intros. apply rd_wr_out; rewrite ?le_bytes_arr_len; lia. Qed.
Lemma rd_put8_out n off off' v b :
  0 <= off -> 0 <= off' -> off' + 8 <= arr_len b -> off + Z.of_nat n <= off' \/ off' + 8 <= off ->
  rd n off (put8 off' v b) = rd n off b.
Proof. intros. apply rd_wr_out; rewrite ?le_bytes_arr_len; lia. Qed.

Lemma le_zeros k : le_val (replicate k 0) = 0.
Proof. induction k as [|k IH]; simpl; [done|lia]. Qed.

Lemma rd_zeros n off k off' b :
  0 <= off' -> off' + Z.of_nat k <= arr_len b -> off' <= off -> off + Z.of_nat n <= off' + Z.of_nat k ->
  rd n off (wr off' (replicate k 0) b) = 0.
Proof.
  intros Ho Hb Hl Hh. unfold rd, wr. unfold arr_len in Hb.
  rewrite drop_app_ge by (rewrite length_take; lia). rewrite length_take.
  rewrite drop_app_le by (rewrite length_replicate; lia). rewrite drop_replicate.
  rewrite take_app_le by (rewrite length_replicate; lia). rewrite take_replicate. apply le_zeros.
Qed.

Lemma clear_len a off : 0 <= off -> arr_len (aux_clear_ptr a off) = arr_len a.
Proof.
  intros Ho. unfold aux_clear_ptr. case_if; [done|]. zb. unfold arr_len in *.
  rewrite wr_length; [done|done|]. unfold arr_len. rewrite length_replicate. case_if; zb; lia.
Qed.

Lemma rd_clear a off : 0 <= off -> off + 8 <= arr_len a -> rd 8 off (aux_clear_ptr a off) = 0.
Proof.
  intros Ho Ha. unfold aux_clear_ptr. rewrite (proj2 (Z.leb_gt _ _)) by lia.
  apply rd_zeros; repeat case_if; zb; lia.
Qed.

Lemma rd_clear_out n a off off' :
  0 <= off -> 0 <= off' -> off + Z.of_nat n <= off' \/ off' + 8 <= off -> rd n off (aux_clear_ptr a off') = rd n off a.
Proof.
  intros Ho Ho' Hd. unfold aux_clear_ptr. case_if; [done|]. zb.
  apply rd_wr_out; [done|done|unfold arr_len at 1; rewrite length_replicate; case_if; zb; lia|].
  unfold arr_len at 1; rewrite length_replicate; case_if; zb; lia.
Qed.

(** ** Which steps a command takes *)
Lemma uvm_none lookup abi cmd p : ioc_type cmd <> 0 -> uvm_embedded lookup abi cmd p = Some (p, None).
Proof.
  intros H. unfold uvm_embedded, uvm_fd_off. case_if; [done|].
  repeat (case_if; [zb; subst; by exfalso; apply H|]). done.
Qed.

Lemma dev_typed dev cmd : handle_type_matches_dev dev cmd = true ->
  ioc_type cmd = TY_F \/ ioc_type cmd = TY_d \/ cmd = NVKVM_NVKMS_IOCTL_CMD.
Proof.
  unfold handle_type_matches_dev. intros H. repeat (case_if_in H; [zb; tauto|]). done.
Qed.

Lemma typed_not_uvm cmd :
  ioc_type cmd = TY_F \/ ioc_type cmd = TY_d \/ cmd = NVKVM_NVKMS_IOCTL_CMD -> ioc_type cmd <> 0.
Proof. by intros [->|[->| ->]]. Qed.

(** UVM commands never pass the device check. *)
Lemma uvm_unreachable dev abi cmd psize : handle_type_matches_dev dev cmd = true -> uvm_fd_off abi cmd psize = None.
Proof.
  intros H. apply dev_typed, typed_not_uvm in H. unfold uvm_fd_off. case_if; [done|].
  repeat (case_if; [zb; subst; by exfalso; apply H|]). done.
Qed.

Lemma clamp_len ty nr p asize : arr_len (clamp_inner_params_size ty nr p asize) = arr_len p.
Proof.
  unfold clamp_inner_params_size, clamp_off. repeat case_if; try done; apply put4_len; zb; lia.
Qed.
Lemma rights_len ty nr p : arr_len (zero_nvos64_rights ty nr p) = arr_len p.
Proof. unfold zero_nvos64_rights. case_if; [done|]. zb. apply put8_len; lia. Qed.
Lemma fence_len cmd p : arr_len (fence_clear cmd p) = arr_len p.
Proof. unfold fence_clear. case_if; [|done]. zb. apply put8_len; lia. Qed.

Lemma ptr_off_room cmd psize asize off : ptr_off cmd psize asize = Some off -> 0 <= off /\ off + 8 <= psize.
Proof.
  unfold ptr_off, NVKVM_NVKMS_ADDR_OFF, NVKVM_NVKMS_PARAMS_SIZE. intros H.
  case_if_in H; [injection H as <-; zb; lia|]. repeat (case_if_in H; [injection H as <-; zb; lia|]). done.
Qed.

Lemma wire_len va cmd p a : arr_len (wire_ptr va cmd p a) = arr_len p.
Proof.
  unfold wire_ptr. destruct (ptr_off cmd (arr_len p) (arr_len a)) as [off|] eqn:E; [|done].
  apply ptr_off_room in E. apply put8_len; lia.
Qed.
Lemma outer_len va cmd p a : arr_len (outer va cmd p a) = arr_len p.
Proof. unfold outer. by rewrite fence_len, rights_len, clamp_len, wire_len. Qed.

(** ** The pieces of [prepare] *)
Lemma prepare_inv lookup va abi cmd p a p1 a1 sv :
  prepare lookup va abi cmd p a = Some (p1, a1, sv) -> ioc_type cmd <> 0 ->
  let po := outer va cmd p a in
  exists aA aB aC,
    reg_surface lookup cmd po a = Some (aA, regsurf sv) /\
    drm_export lookup cmd aA = Some (aB, drm_hid sv) /\
    ctrl_inner lookup va cmd po aB = Some (aC, str_sz sv, info_list_size sv, info_list_base sv, export_fd sv) /\
    fe_embedded lookup cmd (idle_channels cmd po) = Some (p1, fe_fd sv) /\ uvm_fd sv = None /\
    event_fd lookup cmd p1 aC = Some (a1, event_hid sv).
Proof.
  intros H Ht. cbv zeta. unfold prepare in H. cbv zeta in H. rewrite uvm_none in H by done.
  destruct (reg_surface lookup cmd (outer va cmd p a) a) as [[aA rs]|]; [|done].
  destruct (drm_export lookup cmd aA) as [[aB dh]|] eqn:E2; [|done].
  destruct (ctrl_inner lookup va cmd (outer va cmd p a) aB) as [[[[[aC ss] ils] ilb] ex]|] eqn:E3; [|done].
  destruct (fe_embedded lookup cmd (idle_channels cmd (outer va cmd p a))) as [[p2 fe]|] eqn:E4; [|done].
  destruct (event_fd lookup cmd p2 aC) as [[a2 ev]|] eqn:E5; [|done].
  injection H as <- <- <-. exists aA, aB, aC. done.
Qed.

Lemma fe_id lookup cmd p : fe_fd_off cmd = None -> fe_embedded lookup cmd p = Some (p, None).
Proof. intros H. unfold fe_embedded. by rewrite H. Qed.

Lemma idle_id cmd p : ioc_type cmd <> TY_F \/ ioc_nr cmd <> 0x41 -> idle_channels cmd p = p.
Proof. intros H. unfold idle_channels. case_if; [zb; tauto|done]. Qed.

Lemma fe_off_none cmd : ioc_type cmd <> TY_F \/ ioc_nr cmd ∈ [0x2a; 0x2b; 0x41] -> fe_fd_off cmd = None.
Proof.
  intros H. unfold fe_fd_off. case_if; [|done]. zb. destruct H as [H|H]; [done|].
  cbv zeta. rewrite !elem_of_cons in H. by destruct H as [H|[H|[H|H%not_elem_of_nil]]]; [rewrite H..|].
Qed.

(** The parameters the driver gets, for the commands with pointers in them. *)
Lemma param_outer lookup va abi cmd p a p1 a1 sv :
  prepare lookup va abi cmd p a = Some (p1, a1, sv) -> ioc_type cmd <> 0 ->
  ioc_type cmd <> TY_F \/ ioc_nr cmd = 0x2a \/ ioc_nr cmd = 0x2b -> p1 = outer va cmd p a.
Proof.
  intros H Ht Hc. destruct (prepare_inv _ _ _ _ _ _ _ _ _ H Ht) as (aA & aB & aC & _ & _ & _ & Hf & _).
  rewrite idle_id, fe_id in Hf; [by injection Hf as <-| |].
  - apply fe_off_none. destruct Hc as [Hc|[Hc|Hc]]; [by left|right; rewrite Hc; set_solver..].
  - destruct Hc as [Hc|[Hc|Hc]]; [by left|right; rewrite Hc; done..].
Qed.

(** The auxiliary blob the driver gets with a control command. *)
Lemma aux_ctrl lookup va abi cmd p a p1 a1 sv :
  prepare lookup va abi cmd p a = Some (p1, a1, sv) -> ioc_type cmd <> 0 -> ioc_nr cmd = 0x2a ->
  ctrl_inner lookup va cmd (outer va cmd p a) a =
    Some (a1, str_sz sv, info_list_size sv, info_list_base sv, export_fd sv).
Proof.
  intros H Ht Hn. destruct (prepare_inv _ _ _ _ _ _ _ _ _ H Ht) as (aA & aB & aC & H1 & H2 & H3 & _ & _ & H4).
  assert (cmd <> NVKVM_NVKMS_IOCTL_CMD) as Hk by (intros ->; done).
  unfold reg_surface in H1. rewrite (proj2 (Z.eqb_neq _ _) Hk) in H1. cbn [andb] in H1. injection H1 as <- _.
  unfold drm_export in H2. rewrite Hn in H2. cbn [Z.eqb orb] in H2. rewrite andb_false_r in H2. injection H2 as <- _.
  unfold event_fd in H4. rewrite Hn in H4. cbn [Z.eqb] in H4. rewrite andb_false_r in H4. cbn [andb] in H4.
  by injection H4 as <- _.
Qed.

(** ** What the driver dereferences is the stub's own blob *)

(** A pointer the driver follows for [ext] bytes: null, or inside the blob. *)
Definition own (va asize v ext : Z) : Prop := v = 0 \/ va <= v /\ v + ext <= va + asize.

(** Every pointer field, each under the condition that the blob holds it and the size
    the driver uses with it. *)
Record sealed (va cmd : Z) (p1 a1 : list Z) : Prop := {
  sl_ctrl : ioc_type cmd = TY_F -> ioc_nr cmd = 0x2a -> 28 <= arr_len p1 ->
    own va (arr_len a1) (rd 8 16 p1) (rd 4 24 p1);
  sl_alloc : ioc_type cmd = TY_F -> ioc_nr cmd = 0x2b -> 36 <= arr_len p1 ->
    own va (arr_len a1) (rd 8 16 p1) (rd 4 32 p1) /\ rd 8 24 p1 = 0;
  sl_nvkms : cmd = NVKVM_NVKMS_IOCTL_CMD \/
      ioc_type cmd = TY_d /\ (ioc_nr cmd = 0x54 \/ ioc_nr cmd = 0x49 \/ ioc_nr cmd = 0x41) ->
    16 <= arr_len p1 -> own va (arr_len a1) (rd 8 8 p1) (arr_len a1);
  sl_fence : ioc_type cmd = TY_d -> ioc_nr cmd = 0x45 -> 40 <= arr_len p1 ->
    own va (arr_len a1) (rd 8 16 p1) (arr_len a1) /\ rd 8 32 p1 = 0;
  sl_idle : ioc_type cmd = TY_F -> ioc_nr cmd = 0x41 -> 40 <= arr_len p1 ->
    rd 4 12 p1 = 0 /\ rd 8 16 p1 = 0 /\ rd 8 24 p1 = 0 /\ rd 8 32 p1 = 0;
  sl_list : ioc_nr cmd = 0x2a -> 12 <= arr_len p1 -> nvkvm_ctrl_list_entry_size (rd 4 8 p1) <> 0 -> 16 <= arr_len a1 ->
    own va (arr_len a1) (rd 8 8 a1) (rd 4 0 a1 * nvkvm_ctrl_list_entry_size (rd 4 8 p1));
  sl_channels : ioc_nr cmd = 0x2a -> 12 <= arr_len p1 -> rd 4 8 p1 = 0x0080170d -> 24 <= arr_len a1 ->
    own va (arr_len a1) (rd 8 8 a1) (4 * rd 4 0 a1) /\ own va (arr_len a1) (rd 8 16 a1) (4 * rd 4 0 a1);
  sl_name : ioc_nr cmd = 0x2a -> 12 <= arr_len p1 -> rd 4 8 p1 = 0x00000202 -> 24 <= arr_len a1 -> rd 8 16 a1 = 0;
  sl_build : ioc_nr cmd = 0x2a -> 12 <= arr_len p1 -> rd 4 8 p1 = 0x00000101 -> 32 <= arr_len a1 ->
    own va (arr_len a1) (rd 8 8 a1) (rd 4 0 a1) /\ own va (arr_len a1) (rd 8 16 a1) (rd 4 0 a1) /\
    own va (arr_len a1) (rd 8 24 a1) (rd 4 0 a1)
}.

Lemma own_wired va (a : list Z) : 0 < va -> va + arr_len a < W64 -> own va (arr_len a) (u64 (if 0 <? arr_len a then va else 0)) (arr_len a).
Proof.
  intros Hv Hw. assert (0 <= arr_len a) by (unfold arr_len; lia).
  case_if; zb; [right; rewrite u64_small by lia; lia|left; done].
Qed.

Lemma own_less va n v e e' : own va n v e -> e' <= e -> own va n v e'.
Proof. intros [->|[H1 H2]] H; [by left|right; lia]. Qed.

(** The declared size of the inner parameters is bounded by the blob. *)
Lemma clamp_declared ty nr p asize off :
  0 <= asize < W32 -> clamp_off ty nr (arr_len p) = Some off -> rd 4 off (clamp_inner_params_size ty nr p asize) <= asize.
Proof.
  intros Ha Ho. unfold clamp_inner_params_size. rewrite Ho.
  assert (0 <= off /\ off + 4 <= arr_len p) as [H1 H2].
  { unfold clamp_off in Ho. repeat case_if_in Ho; try done; injection Ho as <-; zb; lia. }
  case_if; zb; [|lia]. rewrite rd_put4 by lia. rewrite u32_small by lia. lia.
Qed.

Lemma rd_clamp_out n k ty nr p asize off :
  0 <= k -> clamp_off ty nr (arr_len p) = Some off -> k + Z.of_nat n <= off \/ off + 4 <= k ->
  rd n k (clamp_inner_params_size ty nr p asize) = rd n k p.
Proof.
  intros Hk Ho Hd. unfold clamp_inner_params_size. rewrite Ho.
  assert (0 <= off /\ off + 4 <= arr_len p) as [H1 H2].
  { unfold clamp_off in Ho. repeat case_if_in Ho; try done; injection Ho as <-; zb; lia. }
  case_if; [|done]. by apply rd_put4_out.
Qed.

Lemma rights_id ty nr p : nr <> 0x2b -> zero_nvos64_rights ty nr p = p.
Proof. intros H. unfold zero_nvos64_rights. by rewrite (proj2 (Z.eqb_neq _ _) H), orb_true_r. Qed.
Lemma fence_id cmd p : ioc_type cmd = TY_F -> fence_clear cmd p = p.
Proof. intros H. unfold fence_clear. by rewrite H. Qed.

Lemma wire_rd va cmd p a off :
  ptr_off cmd (arr_len p) (arr_len a) = Some off -> rd 8 off (wire_ptr va cmd p a) = u64 (if 0 <? arr_len a then va else 0).
Proof. intros H. pose proof (ptr_off_room _ _ _ _ H). unfold wire_ptr. rewrite H. apply rd_put8; lia. Qed.

Lemma ctrl_sealed va cmd p a :
  0 < va -> va + arr_len a < W64 -> arr_len a < W32 ->
  ioc_type cmd = TY_F -> ioc_nr cmd = 0x2a -> 28 <= arr_len p ->
  own va (arr_len a) (rd 8 16 (outer va cmd p a)) (rd 4 24 (outer va cmd p a)).
Proof.
  intros Hv Hw Ha Ht Hn Hp. unfold outer. rewrite fence_id, Ht, Hn, rights_id by done.
  assert (forall x : list Z, arr_len x = arr_len p -> clamp_off TY_F 0x2a (arr_len x) = Some 24) as Hc.
  { intros x ->. unfold clamp_off. cmd_dec. by rewrite (proj2 (Z.leb_le _ _)) by lia. }
  assert (ptr_off cmd (arr_len p) (arr_len a) = Some 16) as Ho.
  { unfold ptr_off. cbv zeta. rewrite Ht, Hn. assert (cmd <> NVKVM_NVKMS_IOCTL_CMD) as Hk by (intros ->; done).
    rewrite (proj2 (Z.eqb_neq _ _) Hk). cmd_dec. by rewrite (proj2 (Z.leb_le _ _)) by lia. }
  rewrite (rd_clamp_out 8 16 _ _ _ _ 24); [|lia|by apply Hc, wire_len|lia]. rewrite wire_rd by done.
  apply (own_less va _ _ (arr_len a)); [by apply own_wired|]. apply clamp_declared; [unfold arr_len in *; lia|].
  by apply Hc, wire_len.
Qed.

Lemma alloc_sealed va cmd p a :
  0 < va -> va + arr_len a < W64 -> arr_len a < W32 ->
  ioc_type cmd = TY_F -> ioc_nr cmd = 0x2b -> 36 <= arr_len p ->
  own va (arr_len a) (rd 8 16 (outer va cmd p a)) (rd 4 32 (outer va cmd p a)) /\ rd 8 24 (outer va cmd p a) = 0.
Proof.
  intros Hv Hw Ha Ht Hn Hp. unfold outer. rewrite fence_id, Ht, Hn by done.
  set (w := wire_ptr va cmd p a). assert (arr_len w = arr_len p) as Hl by apply wire_len.
  assert (clamp_off TY_F 0x2b (arr_len w) = Some 32) as Hc.
  { rewrite Hl. unfold clamp_off. cmd_dec. by rewrite (proj2 (Z.leb_le _ _)) by lia. }
  assert (ptr_off cmd (arr_len p) (arr_len a) = Some 16) as Ho.
  { unfold ptr_off. cbv zeta. rewrite Ht, Hn. assert (cmd <> NVKVM_NVKMS_IOCTL_CMD) as Hk by (intros ->; done).
    rewrite (proj2 (Z.eqb_neq _ _) Hk). cmd_dec. by rewrite (proj2 (Z.leb_le _ _)) by lia. }
  set (c := clamp_inner_params_size TY_F 0x2b w (arr_len a)).
  assert (arr_len c = arr_len p) as Hlc by (unfold c; by rewrite clamp_len).
  unfold zero_nvos64_rights. cmd_dec. rewrite (proj2 (Z.ltb_ge _ _)) by lia.
  split; [|apply rd_put8; lia]. rewrite !rd_put8_out by lia. unfold c. rewrite (rd_clamp_out 8 16 _ _ _ _ 32) by (try done; lia).
  unfold w at 1. rewrite wire_rd by done. apply (own_less va _ _ (arr_len a)); [by apply own_wired|].
  apply clamp_declared; [unfold arr_len in *; lia|done].
Qed.

(** A command whose type is not the frontend's: only the pointer and the fence
    fields are touched. *)
Lemma outer_other va cmd p a : ioc_type cmd <> TY_F -> outer va cmd p a = fence_clear cmd (wire_ptr va cmd p a).
Proof.
  intros H. unfold outer, zero_nvos64_rights, clamp_inner_params_size, clamp_off.
  by rewrite (proj2 (Z.eqb_neq _ _) H).
Qed.

Lemma nvkms_sealed va cmd p a :
  0 < va -> va + arr_len a < W64 ->
  cmd = NVKVM_NVKMS_IOCTL_CMD \/
    ioc_type cmd = TY_d /\ (ioc_nr cmd = 0x54 \/ ioc_nr cmd = 0x49 \/ ioc_nr cmd = 0x41) ->
  16 <= arr_len p -> own va (arr_len a) (rd 8 8 (outer va cmd p a)) (arr_len a).
Proof.
  intros Hv Hw Hc Hp. rewrite outer_other by (destruct Hc as [->|[-> _]]; done).
  assert (ptr_off cmd (arr_len p) (arr_len a) = Some 8) as Ho.
  { unfold ptr_off. cbv zeta. unfold NVKVM_NVKMS_PARAMS_SIZE. rewrite (proj2 (Z.leb_le 16 _)) by lia.
    destruct Hc as [->|[-> Hc]]; [done|]. by destruct Hc as [->|[->| ->]]; cmd_dec; rewrite orb_true_r. }
  unfold fence_clear. case_if; [exfalso; zb|rewrite wire_rd by done; by apply own_wired].
  destruct Hc as [->|[_ Hc]]; [done|]. by destruct Hc as [Hc|[Hc|Hc]]; rewrite Hc in *.
Qed.

Lemma fence_sealed va cmd p a :
  0 < va -> va + arr_len a < W64 -> ioc_type cmd = TY_d -> ioc_nr cmd = 0x45 -> 40 <= arr_len p ->
  own va (arr_len a) (rd 8 16 (outer va cmd p a)) (arr_len a) /\ rd 8 32 (outer va cmd p a) = 0.
Proof.
  intros Hv Hw Ht Hn Hp. rewrite outer_other by (rewrite Ht; done).
  assert (ptr_off cmd (arr_len p) (arr_len a) = Some 16) as Ho.
  { unfold ptr_off. cbv zeta. rewrite Ht, Hn. assert (cmd <> NVKVM_NVKMS_IOCTL_CMD) as Hk by (intros ->; done).
    rewrite (proj2 (Z.eqb_neq _ _) Hk). cmd_dec. by rewrite (proj2 (Z.leb_le _ _)) by lia. }
  unfold fence_clear. rewrite Ht, Hn, wire_len. cmd_dec. rewrite (proj2 (Z.leb_le _ _)) by lia.
  rewrite rd_put8_out by (rewrite ?wire_len; lia). rewrite wire_rd by done. split; [by apply own_wired|].
  apply rd_put8; rewrite ?wire_len; lia.
Qed.

Lemma idle_sealed cmd p :
  ioc_type cmd = TY_F -> ioc_nr cmd = 0x41 -> 40 <= arr_len p ->
  let q := idle_channels cmd p in rd 4 12 q = 0 /\ rd 8 16 q = 0 /\ rd 8 24 q = 0 /\ rd 8 32 q = 0.
Proof.
  intros Ht Hn Hp. unfold idle_channels. rewrite Ht, Hn. cmd_dec. rewrite (proj2 (Z.leb_le _ _)) by lia.
  rewrite !rd_zeros by lia. done.
Qed.

(** ** The inner command *)
Lemma esz_pos inner : 0 <= nvkvm_ctrl_list_entry_size inner.
Proof. unfold nvkvm_ctrl_list_entry_size. repeat case_if; lia. Qed.

(** The blob of a control command when its inner command is [inner]. *)
Lemma ctrl_inv lookup va cmd p a a1 ss ils ilb ex :
  ctrl_inner lookup va cmd p a = Some (a1, ss, ils, ilb, ex) ->
  ioc_nr cmd = 0x2a -> 0 < arr_len a -> 12 <= arr_len p ->
  rd 4 8 p ∉ [0x00003d05; 0x00003d06; 0x00003d08] ->
  let inner := rd 4 8 p in
  let a0 := fst (fst (info_list va inner a)) in
  let a2 := if inner =? 0x0080170d then fst (channel_list va a0) else a0 in
  let a3 := if inner =? 0x00000202 then aux_clear_ptr a2 16 else a2 in
  a1 = if inner =? 0x00000101 then fst (build_version va a3) else a3.
Proof.
  intros H Hn Ha Hp Hx. cbv zeta. unfold ctrl_inner in H. rewrite Hn in H. cbn [Z.eqb Pos.eqb andb] in H.
  rewrite (proj2 (Z.ltb_lt _ _) Ha), (proj2 (Z.leb_le _ _) Hp) in H. cbn [andb] in H. cbv zeta in H.
  destruct (info_list va (rd 4 8 p) a) as [[a0 i0] b0]. cbn [fst].
  rewrite !not_elem_of_cons in Hx. destruct Hx as (X1 & X2 & X3 & _).
  rewrite (proj2 (Z.eqb_neq _ _) X1), (proj2 (Z.eqb_neq _ _) X2), (proj2 (Z.eqb_neq _ _) X3) in H. cbn [andb orb] in H.
  destruct (rd 4 8 p =? 0x0080170d); [destruct (channel_list va a0) as [ac [nc|]]; cbn [fst]|];
    destruct (rd 4 8 p =? 0x00000101); try destruct (build_version va _) as [ab sz]; cbn [fst]; congruence.
Qed.

Lemma list_sealed va inner a :
  Forall byte a -> 0 < va -> va + arr_len a < W64 -> arr_len a < W32 ->
  nvkvm_ctrl_list_entry_size inner <> 0 -> 16 <= arr_len a ->
  let a1 := fst (fst (info_list va inner a)) in
  arr_len a1 = arr_len a /\ own va (arr_len a) (rd 8 8 a1) (rd 4 0 a1 * nvkvm_ctrl_list_entry_size inner).
Proof.
  intros Hb Hv Hw Ha He Hl. pose proof (esz_pos inner). pose proof (rd_range 4 0 a Hb) as Hr.
  unfold info_list. cbv zeta. rewrite (proj2 (Z.eqb_neq _ _) He), (proj2 (Z.leb_le 4 _)) by lia. cbn [negb andb].
  destruct ((0 <? rd 4 0 a) && (rd 4 0 a * nvkvm_ctrl_list_entry_size inner <? arr_len a)) eqn:E; cbn [andb].
  - zb. set (n := rd 4 0 a * nvkvm_ctrl_list_entry_size inner) in *. assert (0 <= n) by (unfold n; lia).
    rewrite u32_small by lia. case_if; zb; cbn [fst].
    + split; [apply put8_len; lia|]. rewrite rd_put8, rd_put8_out by lia. right. rewrite u64_small by lia. fold n. lia.
    + split; [by apply clear_len|]. left. apply rd_clear; lia.
  - cbn [fst]. split; [by apply clear_len|]. left. apply rd_clear; lia.
Qed.

Lemma channel_sealed va a :
  Forall byte a -> 0 < va -> va + arr_len a < W64 -> 24 <= arr_len a ->
  let a1 := fst (channel_list va a) in
  arr_len a1 = arr_len a /\ own va (arr_len a) (rd 8 8 a1) (4 * rd 4 0 a1) /\ own va (arr_len a) (rd 8 16 a1) (4 * rd 4 0 a1).
Proof.
  intros Hb Hv Hw Hl. unfold channel_list. cbv zeta. rewrite (proj2 (Z.leb_le 4 _)) by lia.
  case_if; cbn [fst].
  - zb. assert (arr_len (put8 8 (va + 24) a) = arr_len a) as El by (apply put8_len; lia).
    split; [by rewrite put8_len by lia|]. rewrite (rd_put8_out 8 8 16), (rd_put8 8), (rd_put8 16) by lia.
    rewrite (rd_put8_out 4 0 16), (rd_put8_out 4 0 8) by lia. rewrite !u64_small by lia. split; right; lia.
  - assert (arr_len (aux_clear_ptr a 8) = arr_len a) as El by by apply clear_len.
    split; [by rewrite !clear_len by lia|]. split; left; [rewrite rd_clear_out by lia|]; apply rd_clear; lia.
Qed.

Lemma build_sealed va a :
  Forall byte a -> 0 < va -> va + arr_len a < W64 -> 32 <= arr_len a ->
  let a1 := fst (build_version va a) in
  arr_len a1 = arr_len a /\ own va (arr_len a) (rd 8 8 a1) (rd 4 0 a1) /\ own va (arr_len a) (rd 8 16 a1) (rd 4 0 a1) /\
  own va (arr_len a) (rd 8 24 a1) (rd 4 0 a1).
Proof.
  intros Hb Hv Hw Hl. unfold build_version. cbv zeta. rewrite (proj2 (Z.leb_le 4 _)) by lia.
  case_if; cbn [fst].
  - zb. set (n := rd 4 0 a) in *. set (x := put8 8 (va + 40) a). assert (arr_len x = arr_len a) as E1 by (apply put8_len; lia).
    set (y := put8 16 (va + 40 + n) x). assert (arr_len y = arr_len a) as E2 by (rewrite <- E1; apply put8_len; lia).
    split; [by rewrite put8_len by lia|]. rewrite (rd_put8_out 4 0 24) by lia.
    assert (rd 4 0 y = n) as -> by (unfold y; rewrite rd_put8_out by lia; unfold x; rewrite rd_put8_out by lia; done).
    rewrite (rd_put8_out 8 8 24), (rd_put8_out 8 16 24), (rd_put8 24) by lia.
    unfold y. rewrite (rd_put8 16), (rd_put8_out 8 8 16) by lia. unfold x. rewrite (rd_put8 8) by lia.
    rewrite !u64_small by lia. split; [|split]; right; lia.
  - assert (arr_len (aux_clear_ptr a 8) = arr_len a) as E1 by by apply clear_len.
    assert (arr_len (aux_clear_ptr (aux_clear_ptr a 8) 16) = arr_len a) as E2 by by rewrite clear_len by lia.
    split; [by rewrite !clear_len by lia|].
    rewrite (rd_clear_out 8 _ 8 24), (rd_clear_out 8 _ 16 24), (rd_clear_out 8 _ 8 16) by lia.
    rewrite !rd_clear by lia. split; [|split]; by left.
Qed.

Lemma info_id va inner a : nvkvm_ctrl_list_entry_size inner = 0 -> info_list va inner a = (a, 0, 0).
Proof. intros H. unfold info_list. by rewrite H. Qed.

(** The inner commands in one statement. *)
Lemma inner_sealed lookup va cmd p a a1 ss ils ilb ex :
  Forall byte a -> 0 < va -> va + arr_len a < W64 -> arr_len a < W32 ->
  ctrl_inner lookup va cmd p a = Some (a1, ss, ils, ilb, ex) ->
  ioc_nr cmd = 0x2a -> 0 < arr_len a -> 12 <= arr_len p ->
  let inner := rd 4 8 p in
  (nvkvm_ctrl_list_entry_size inner <> 0 -> 16 <= arr_len a ->
    arr_len a1 = arr_len a /\ own va (arr_len a) (rd 8 8 a1) (rd 4 0 a1 * nvkvm_ctrl_list_entry_size inner)) /\
  (inner = 0x0080170d -> 24 <= arr_len a ->
    arr_len a1 = arr_len a /\ own va (arr_len a) (rd 8 8 a1) (4 * rd 4 0 a1) /\ own va (arr_len a) (rd 8 16 a1) (4 * rd 4 0 a1)) /\
  (inner = 0x00000202 -> 24 <= arr_len a -> arr_len a1 = arr_len a /\ rd 8 16 a1 = 0) /\
  (inner = 0x00000101 -> 32 <= arr_len a ->
    arr_len a1 = arr_len a /\ own va (arr_len a) (rd 8 8 a1) (rd 4 0 a1) /\ own va (arr_len a) (rd 8 16 a1) (rd 4 0 a1) /\
    own va (arr_len a) (rd 8 24 a1) (rd 4 0 a1)).
Proof.
  intros Hb Hv Hw Ha Hc Hn Hp Hq inner. pose proof (ctrl_inv lookup va cmd p a a1 ss ils ilb ex Hc Hn Hp Hq) as Hi.
  cbv zeta in Hi. fold inner in Hi. split; [|split; [|split]].
  - intros He Hl. rewrite Hi.
    + assert (inner <> 0x0080170d /\ inner <> 0x00000202 /\ inner <> 0x00000101) as (N1 & N2 & N3)
        by (split; [|split]; intros E; rewrite E in He; by apply He).
      rewrite (proj2 (Z.eqb_neq _ _) N1), (proj2 (Z.eqb_neq _ _) N2), (proj2 (Z.eqb_neq _ _) N3). by apply list_sealed.
    + rewrite !not_elem_of_cons. repeat split; [..|apply not_elem_of_nil]; intros E; rewrite E in He; by apply He.
  - intros E Hl. rewrite Hi by (rewrite E; set_solver). rewrite E, info_id by done. cbn [Z.eqb Pos.eqb fst]. by apply channel_sealed.
  - intros E Hl. rewrite Hi by (rewrite E; set_solver). rewrite E, info_id by done. cbn [Z.eqb Pos.eqb fst].
    split; [by apply clear_len|]. apply rd_clear; lia.
  - intros E Hl. rewrite Hi by (rewrite E; set_solver). rewrite E, info_id by done. cbn [Z.eqb Pos.eqb fst]. by apply build_sealed.
Qed.

(** ** Sizes do not change *)
Lemma planes_len lookup l a sv a1 sv1 :
  Forall (fun i => 0 <= i < 3) l -> 112 <= arr_len a -> planes lookup l a sv = Some (a1, sv1) -> arr_len a1 = arr_len a.
Proof.
  intros Hl. revert a sv. induction Hl as [|i l Hi _ IH]; intros a sv Ha H; cbn [planes] in H; [by injection H as <- _|].
  unfold NVKVM_NVKMS_REGSURF_PLANE0_OFF, NVKVM_NVKMS_REGSURF_PLANE_STRIDE in H. cbv zeta in H.
  case_if_in H; [by apply (IH a sv)|]. case_if_in H; [done|].
  apply IH in H; rewrite put4_len in *; lia.
Qed.

Lemma planes3 : Forall (fun i => 0 <= i < 3) (seqZ 0 NVKVM_NVKMS_MAX_PLANES).
Proof. apply Forall_forall. intros i Hi. apply elem_of_seqZ in Hi. unfold NVKVM_NVKMS_MAX_PLANES in Hi. lia. Qed.

Lemma reg_len lookup cmd p a a1 rs : reg_surface lookup cmd p a = Some (a1, rs) -> arr_len a1 = arr_len a.
Proof.
  unfold reg_surface. intros H. case_if_in H; [|by injection H as <- _]. cbv zeta in H. case_if_in H; [|by injection H as <- _].
  apply planes_len in H; [done|apply planes3|].
  unfold NVKVM_NVKMS_REGSURF_PLANE0_OFF, NVKVM_NVKMS_REGSURF_PLANE_STRIDE, NVKVM_NVKMS_MAX_PLANES in *. zb; lia.
Qed.

Lemma drm_len lookup cmd a a1 dh : drm_export lookup cmd a = Some (a1, dh) -> arr_len a1 = arr_len a.
Proof.
  unfold drm_export. intros H. case_if_in H; [|by injection H as <- _]. cbv zeta in H. case_if_in H; [|by injection H as <- _].
  case_if_in H; [done|]. injection H as <- _. zb; apply put4_len; lia.
Qed.

Lemma info_len va inner a : Forall byte a -> arr_len a < W32 -> arr_len (fst (fst (info_list va inner a))) = arr_len a.
Proof.
  intros Hb Ha. unfold info_list. cbv zeta. case_if; [|done]. case_if; cbn [fst]; [|by apply clear_len].
  zb. pose proof (esz_pos inner). rewrite u32_small in * by lia. apply put8_len; lia.
Qed.

Lemma inner_fd_len lookup off a a1 s : 0 <= off -> off + 4 <= arr_len a -> inner_fd lookup off a = Some (a1, s) -> arr_len a1 = arr_len a.
Proof. unfold inner_fd. intros H1 H2 H. cbv zeta in H. case_if_in H; [done|]. injection H as <- _. by apply put4_len. Qed.

Lemma channel_len va a : arr_len (fst (channel_list va a)) = arr_len a.
Proof.
  unfold channel_list. cbv zeta. destruct (_ && _) eqn:E; cbn [fst]; [|by rewrite !clear_len].
  zb. rewrite !put8_len; rewrite ?put8_len; lia.
Qed.

Lemma build_len va a : arr_len (fst (build_version va a)) = arr_len a.
Proof.
  unfold build_version. cbv zeta. destruct (_ && _) eqn:E; cbn [fst]; [|by rewrite !clear_len].
  zb. rewrite !put8_len; rewrite ?put8_len; rewrite ?put8_len; lia.
Qed.

Lemma ctrl_len lookup va cmd p a a1 ss ils ilb ex :
  Forall byte a -> arr_len a < W32 -> ctrl_inner lookup va cmd p a = Some (a1, ss, ils, ilb, ex) -> arr_len a1 = arr_len a.
Proof.
  intros Hb Ha H. unfold ctrl_inner in H. case_if_in H; [|by injection H as <- _]. cbv zeta in H.
  pose proof (info_len va (rd 4 8 p) a Hb Ha) as L0. destruct (info_list va (rd 4 8 p) a) as [[a0 i0] b0]. cbn [fst] in L0.
  destruct ((rd 4 8 p =? 0x00003d05) && (20 <=? arr_len a0)) eqn:E1.
  - destruct (inner_fd lookup 16 a0) as [[a2 s2]|] eqn:F; [|done]. apply andb_true_iff in E1 as [E1 E3].
    apply Z.eqb_eq in E1. apply Z.leb_le in E3. apply inner_fd_len in F; [|lia|lia]. rewrite E1 in H. cbn in H. injection H as <- _ _ _ _. lia.
  - destruct (((rd 4 8 p =? 0x00003d06) || (rd 4 8 p =? 0x00003d08)) && (4 <=? arr_len a0)) eqn:E2.
    + destruct (inner_fd lookup 0 a0) as [[a2 s2]|] eqn:F; [|done]. apply andb_true_iff in E2 as [E2 E3].
      apply Z.leb_le in E3. apply inner_fd_len in F; [|lia|lia].
      apply orb_true_iff in E2 as [E2|E2]; apply Z.eqb_eq in E2; rewrite E2 in H; cbn in H;
        injection H as <- _ _ _ _; lia.
    + pose proof (channel_len va a0) as Lc. destruct (channel_list va a0) as [ac [nc|]]; cbn [fst] in Lc;
        destruct (rd 4 8 p =? 0x0080170d); destruct (rd 4 8 p =? 0x00000101);
        try match type of H with context [build_version va ?x] =>
          pose proof (build_len va x) as Lb; destruct (build_version va x) as [ab sz]; cbn [fst] in Lb end;
        injection H as <- _ _ _ _; try rewrite Lb; repeat case_if; rewrite ?clear_len by lia; lia.
Qed.

Lemma event_len lookup cmd p a a1 ev : event_fd lookup cmd p a = Some (a1, ev) -> arr_len a1 = arr_len a.
Proof.
  unfold event_fd. intros H. case_if_in H; [|by injection H as <- _]. cbv zeta in H. case_if_in H; [|by injection H as <- _].
  case_if_in H; [|by injection H as <- _]. case_if_in H; [done|]. injection H as <- _. zb; apply put8_len; lia.
Qed.

Lemma idle_len cmd p : arr_len (idle_channels cmd p) = arr_len p.
Proof.
  unfold idle_channels. case_if; [|done]. zb. unfold arr_len in *. rewrite wr_length; [done|lia|].
  unfold arr_len. rewrite length_replicate. lia.
Qed.

Lemma fe_off_pos cmd off : fe_fd_off cmd = Some off -> 0 <= off.
Proof. unfold fe_fd_off. intros H. repeat case_if_in H; try done; by injection H as <-. Qed.

Lemma fe_len lookup cmd p p1 fe : fe_embedded lookup cmd p = Some (p1, fe) -> arr_len p1 = arr_len p.
Proof.
  unfold fe_embedded. destruct (fe_fd_off cmd) as [off|] eqn:E; intros H; [|by injection H as <- _].
  apply fe_off_pos in E. case_if_in H; [|by injection H as <- _]. cbv zeta in H. case_if_in H; [|by injection H as <- _].
  case_if_in H; [done|]. injection H as <- _. zb; apply put4_len; lia.
Qed.

Lemma ctrl_id lookup va cmd p a : ioc_nr cmd <> 0x2a -> ctrl_inner lookup va cmd p a = Some (a, 0, 0, 0, None).
Proof. intros H. unfold ctrl_inner. by rewrite (proj2 (Z.eqb_neq _ _) H). Qed.

Lemma prepare_len lookup va abi cmd p a p1 a1 sv :
  Forall byte a -> arr_len a < W32 -> ioc_type cmd <> 0 -> prepare lookup va abi cmd p a = Some (p1, a1, sv) ->
  arr_len p1 = arr_len p /\ arr_len a1 = arr_len a.
Proof.
  intros Hb Ha Ht H. destruct (prepare_inv _ _ _ _ _ _ _ _ _ H Ht) as (aA & aB & aC & H1 & H2 & H3 & H4 & _ & H5).
  apply fe_len in H4. rewrite idle_len, outer_len in H4. split; [done|].
  destruct (Z.eq_dec (ioc_nr cmd) 0x2a) as [E|E].
  - apply (aux_ctrl _ _ _ _ _ _ _ _ _ H Ht) in E. by apply (ctrl_len _ _ _ _ _ _ _ _ _ _ Hb Ha) in E.
  - rewrite ctrl_id in H3 by done. injection H3 as <- _ _ _ _.
    apply event_len in H5. apply drm_len in H2. apply reg_len in H1. lia.
Qed.

(** C15: what the driver dereferences is the stub's own memory.  Take a job that
    passes the device check, with any bytes in its blobs, and any pointer field of the
    control, allocation, modeset, fence, export and idle commands, or of the parameters
    of the control commands with lists, channel lists, names and version strings.  If the
    blob is long enough to hold the fields concerned (the lengths are those of [sealed]:
    28 bytes for a control, 36 for an allocation, 16 or 40 for the others, 16 to 32 of
    inner parameters), then in the blobs the stub hands to the driver the pointer is null
    or points into the auxiliary blob, with the length the driver will use through it
    inside that blob.  A shorter blob is not covered: the driver then reads the field past
    the blob's end, and the stub has not checked it ([short_control_unclamped],
    [short_alloc_keeps_rights]). *)
Theorem stub_pointers_sealed lookup va abi dev cmd p a p1 a1 sv :
  Forall byte a -> 0 < va -> va + arr_len a < W64 -> arr_len a < W32 ->
  handle_type_matches_dev dev cmd = true -> prepare lookup va abi cmd p a = Some (p1, a1, sv) ->
  sealed va cmd p1 a1.
Proof.
  intros Hb Hv Hw Ha Hd H. pose proof (typed_not_uvm _ (dev_typed _ _ Hd)) as Ht.
  destruct (prepare_len _ _ _ _ _ _ _ _ _ Hb Ha Ht H) as [Lp La].
  assert (ioc_nr cmd = 0x2a -> p1 = outer va cmd p a) as Ho
    by (intros N; apply (param_outer _ _ _ _ _ _ _ _ _ H Ht); tauto).
  assert (ioc_nr cmd = 0x2a ->
    ctrl_inner lookup va cmd p1 a = Some (a1, str_sz sv, info_list_size sv, info_list_base sv, export_fd sv)) as Hc.
  { intros N. rewrite (Ho N). exact (aux_ctrl _ _ _ _ _ _ _ _ _ H Ht N). }
  pose proof (fun N Hp Hl => inner_sealed _ _ _ _ _ _ _ _ _ _ Hb Hv Hw Ha (Hc N) N Hl Hp) as Hin. rewrite Lp in Hin.
  constructor; rewrite ?Lp, ?La.
  - intros T N Hp. rewrite (param_outer _ _ _ _ _ _ _ _ _ H Ht) by tauto. by apply ctrl_sealed.
  - intros T N Hp. rewrite (param_outer _ _ _ _ _ _ _ _ _ H Ht) by tauto. by apply alloc_sealed.
  - intros C Hp. rewrite (param_outer _ _ _ _ _ _ _ _ _ H Ht); [by apply nvkms_sealed|].
    left. destruct C as [->|[-> _]]; done.
  - intros T N Hp. rewrite (param_outer _ _ _ _ _ _ _ _ _ H Ht); [by apply fence_sealed|]. left. by rewrite T.
  - intros T N Hp. destruct (prepare_inv _ _ _ _ _ _ _ _ _ H Ht) as (aA & aB & aC & _ & _ & _ & Hf & _).
    rewrite fe_id in Hf by (apply fe_off_none; right; rewrite N; set_solver). injection Hf as <- _.
    apply idle_sealed; [done|done|by rewrite outer_len].
  - intros N Hp He Hl. destruct (Hin N Hp ltac:(lia)) as (G & _). by apply G.
  - intros N Hp He Hl. destruct (Hin N Hp ltac:(lia)) as (_ & G & _). by apply G.
  - intros N Hp He Hl. destruct (Hin N Hp ltac:(lia)) as (_ & _ & G & _). by apply G.
  - intros N Hp He Hl. destruct (Hin N Hp ltac:(lia)) as (_ & _ & _ & G). by apply G.
Qed.

(** ** Examples *)
Definition demo_va : Z := 0x7f0000001000.
Definition demo_lookup (id : Z) : Z := if id =? 5 then 11 else -1.
Definition all_bytes (b : list Z) : bool := forallb (fun c => (0 <=? c) && (c <? 256)) b.

Lemma all_bytes_spec b : all_bytes b = true -> Forall byte b.
Proof.
  intros H. apply Forall_forall. intros c Hc%list_elem_of_In. apply (proj1 (forallb_forall _ _) H) in Hc. unfold byte. zb. lia.
Qed.

(** RM_CONTROL with GR_GET_INFO: two entries of a list behind sixteen bytes, the
    guest naming an address for the list and another for the parameters. *)
Definition CTRL : Z := 0xC020462A.
Definition ctrl_param (inner size : Z) : list Z :=
  le_bytes 4 7 ++ le_bytes 4 8 ++ le_bytes 4 inner ++ le_bytes 4 0 ++ le_bytes 8 0xdead0000 ++ le_bytes 4 size ++ le_bytes 4 0.
Definition demo_list : list Z := le_bytes 4 2 ++ le_bytes 4 0 ++ le_bytes 8 0xdeadbeef ++ replicate 16 0.

Definition demo_prep : list Z * list Z * saved :=
  Eval vm_compute in default ([], [], saved0) (prepare demo_lookup demo_va 570 CTRL (ctrl_param 0x20801201 4096) demo_list).

Lemma demo_prep_eq :
  prepare demo_lookup demo_va 570 CTRL (ctrl_param 0x20801201 4096) demo_list =
  Some (fst (fst demo_prep), snd (fst demo_prep), snd demo_prep).
Proof. vm_compute. reflexivity. Qed.

Lemma demo_prep_fields :
  rd 8 16 (fst (fst demo_prep)) = demo_va /\ rd 4 24 (fst (fst demo_prep)) = 32 /\ rd 8 8 (snd (fst demo_prep)) = demo_va + 16.
Proof. vm_compute. auto. Qed.

Lemma stub_pointers_sealed_witness : sealed demo_va CTRL (fst (fst demo_prep)) (snd (fst demo_prep)).
Proof.
  apply (stub_pointers_sealed demo_lookup demo_va 570 0 CTRL (ctrl_param 0x20801201 4096) demo_list _ _ (snd demo_prep));
    [by apply all_bytes_spec|done|done|done|done|exact demo_prep_eq].
Defined.

End StubJob.
