(* ===== verification/StubBack.v ===== *)
(** * StubBack: nothing of the stub goes back to the guest

    The second half of a turn of [worker_thread] ([src/stub/nvkvm_stub.c]): the
    addresses and the local descriptors that [StubJob.prepare] wrote into the
    blobs are overwritten before the answer is sent, whatever the driver did. *)
From S2P Require Import Prelude Bytes Abi StubJob.
Import Abi StubJob.

Module StubBack.

(** ** Bytes of a written buffer *)
Lemma lookup_wr_in off bs b i :
  0 <= off -> off + arr_len bs <= arr_len b -> off <= i < off + arr_len bs ->
  wr off bs b !! Z.to_nat i = bs !! Z.to_nat (i - off).
Proof.
  unfold wr, arr_len. intros Ho Hl Hi. rewrite lookup_app_r by (rewrite length_take; lia). rewrite length_take.
  rewrite lookup_app_l by lia. f_equal. lia.
Qed.

(** The byte at [i] is the guest's own or zero. *)
Definition back (b0 : list Z) (i : Z) (x : option Z) : Prop := x = b0 !! Z.to_nat i \/ x = Some 0.

(** [b] was made from [b0]: outside [F] every byte is the guest's or zero. *)
Definition tr (F : Z -> Prop) (b0 b : list Z) : Prop :=
  arr_len b = arr_len b0 /\ forall i, 0 <= i < arr_len b0 -> F i \/ back b0 i (b !! Z.to_nat i).

(** [bs] at [off] are bytes of the guest or zero. *)
Definition fair (b0 : list Z) (off : Z) (bs : list Z) : Prop :=
  forall j, 0 <= j < arr_len bs -> back b0 (off + j) (bs !! Z.to_nat j).

Lemma tr_refl F b : tr F b b.
Proof. split; [done|]. intros i _. right. by left. Qed.

Lemma tr_len F b0 b off bs : 0 <= off -> off + arr_len bs <= arr_len b0 -> tr F b0 b -> arr_len (wr off bs b) = arr_len b0.
Proof. intros H1 H2 [Hl _]. unfold arr_len in *. rewrite wr_length; [done|done|unfold arr_len; lia]. Qed.

Lemma tr_wr F b0 b off bs :
  0 <= off -> off + arr_len bs <= arr_len b0 ->
  (forall i, off <= i < off + arr_len bs -> F i \/ back b0 i (bs !! Z.to_nat (i - off))) ->
  tr F b0 b -> tr F b0 (wr off bs b).
Proof.
  intros H1 H2 Hf Ht. split; [by apply (tr_len F)|]. intros i Hi. destruct Ht as [Hl Hb].
  destruct (decide (off <= i < off + arr_len bs)) as [Hin|Hout].
  - rewrite lookup_wr_in by lia. by apply Hf.
  - rewrite lookup_wr_out by lia. by apply Hb.
Qed.

Lemma tr_in F b0 b off bs :
  0 <= off -> off + arr_len bs <= arr_len b0 -> (forall i, off <= i < off + arr_len bs -> F i) ->
  tr F b0 b -> tr F b0 (wr off bs b).
Proof. intros H1 H2 Hf. apply tr_wr; [done|done|]. intros i Hi. left. by apply Hf. Qed.

Lemma tr_fair F b0 b off bs :
  0 <= off -> off + arr_len bs <= arr_len b0 -> fair b0 off bs -> tr F b0 b -> tr F b0 (wr off bs b).
Proof.
  intros H1 H2 Hf. apply tr_wr; [done|done|]. intros i Hi. right. specialize (Hf (i - off) ltac:(lia)).
  by replace (off + (i - off)) with i in Hf by lia.
Qed.

(** A fair write also takes its bytes out of [F]. *)
Lemma tr_restore F G b0 b off bs :
  0 <= off -> off + arr_len bs <= arr_len b0 -> fair b0 off bs -> tr F b0 b ->
  (forall i, F i -> off <= i < off + arr_len bs \/ G i) -> tr G b0 (wr off bs b).
Proof.
  intros H1 H2 Hf Ht Hg. pose proof (tr_len F b0 b off bs H1 H2 Ht) as Hl. split; [done|]. intros i Hi.
  destruct Ht as [Hl0 Hb]. destruct (decide (off <= i < off + arr_len bs)) as [Hin|Hout].
  - right. rewrite lookup_wr_in by lia. specialize (Hf (i - off) ltac:(lia)).
    by replace (off + (i - off)) with i in Hf by lia.
  - rewrite lookup_wr_out by lia. destruct (Hb i Hi) as [HF|HB]; [|by right].
    destruct (Hg i HF) as [?|?]; [lia|by left].
Qed.

Lemma tr_mono (F G : Z -> Prop) b0 b : (forall i, F i -> G i) -> tr F b0 b -> tr G b0 b.
Proof. intros H [Hl Hb]. split; [done|]. intros i Hi. destruct (Hb i Hi); [left; auto|by right]. Qed.

Lemma fair_zeros b0 off k : fair b0 off (replicate k 0).
Proof.
  intros j Hj. right. unfold arr_len in Hj. rewrite length_replicate in Hj. by rewrite lookup_replicate_2 by lia.
Qed.

Lemma le_bytes_0 n : le_bytes n 0 = replicate n 0.
Proof.
  induction n as [|n IH]; [done|]. cbn [le_bytes replicate]. rewrite Z.mod_0_l, Z.div_0_l by lia. by rewrite IH.
Qed.

Lemma put8_0 off b : put8 off 0 b = wr off (replicate 8 0) b.
Proof. unfold put8. rewrite u64_small by done. by rewrite le_bytes_0. Qed.

(** What was read from the guest's field is fair when written back. *)
Lemma fair_field b0 b off n :
  Forall byte b -> 0 <= off -> off + Z.of_nat n <= arr_len b ->
  (forall i, off <= i < off + Z.of_nat n -> back b0 i (b !! Z.to_nat i)) ->
  fair b0 off (le_bytes n (rd n off b)).
Proof.
  intros Hb Ho Hl Hf j Hj. rewrite le_bytes_arr_len in Hj. unfold rd.
  assert (length (take n (drop (Z.to_nat off) b)) = n) as Hn by (rewrite length_take, length_drop; unfold arr_len in Hl; lia).
  rewrite <- Hn at 1. rewrite le_bytes_val by by apply Forall_take, Forall_drop.
  rewrite lookup_take_lt by lia. rewrite lookup_drop. specialize (Hf (off + j) ltac:(lia)).
  by replace (Z.to_nat off + Z.to_nat j)%nat with (Z.to_nat (off + j)) by lia.
Qed.

Lemma u32_s32 x : 0 <= x < W32 -> u32 (s32 x) = x.
Proof. intros H. unfold s32. case_if; mlia. Qed.

Lemma fair_id b0 b off :
  Forall byte b -> 0 <= off -> off + 4 <= arr_len b ->
  (forall i, off <= i < off + 4 -> back b0 i (b !! Z.to_nat i)) -> fair b0 off (le_bytes 4 (u32 (rdi off b))).
Proof.
  intros Hb Ho Hl Hf. unfold rdi. rewrite u32_s32 by apply (rd_range 4 off b Hb). by apply fair_field.
Qed.

Lemma byte_wr off bs b : Forall byte bs -> Forall byte b -> Forall byte (wr off bs b).
Proof. intros H1 H2. unfold wr. apply Forall_app_2; [by apply Forall_take|]. apply Forall_app_2; [done|by apply Forall_drop]. Qed.

Lemma byte_le n v : Forall byte (le_bytes n v).
Proof. revert v. induction n as [|n IH]; intros v; constructor; [unfold byte; apply Z.mod_pos_bound; lia|apply IH]. Qed.

Lemma byte_put4 off v b : Forall byte b -> Forall byte (put4 off v b).
Proof. apply byte_wr, byte_le. Qed.
Lemma byte_put8 off v b : Forall byte b -> Forall byte (put8 off v b).
Proof. apply byte_wr, byte_le. Qed.
Lemma byte_zeros k : Forall byte (replicate k 0).
Proof. by apply Forall_replicate. Qed.

(** ** The parameters *)
Definition wired (cmd : Z) (p a : list Z) (i : Z) : Prop :=
  exists off, ptr_off cmd (arr_len p) (arr_len a) = Some off /\ 0 < arr_len a /\ off <= i < off + 8.
Definition clamped (cmd : Z) (p : list Z) (i : Z) : Prop :=
  exists off, clamp_off (ioc_type cmd) (ioc_nr cmd) (arr_len p) = Some off /\ off <= i < off + 4.
Definition at4 (s : option (Z * Z)) (i : Z) : Prop := exists off hid, s = Some (off, hid) /\ off <= i < off + 4.

Lemma tr_put8_0 F b0 b off : 0 <= off -> off + 8 <= arr_len b0 -> tr F b0 b -> tr F b0 (put8 off 0 b).
Proof. intros H1 H2. rewrite put8_0. apply tr_fair; [done|done|apply fair_zeros]. Qed.

Lemma tr_put8 (F : Z -> Prop) b0 b off v :
  0 <= off -> off + 8 <= arr_len b0 -> (forall i, off <= i < off + 8 -> F i) -> tr F b0 b -> tr F b0 (put8 off v b).
Proof. intros H1 H2 Hf. apply tr_in; [done|by rewrite le_bytes_arr_len|]. intros i. rewrite le_bytes_arr_len. apply Hf. Qed.
Lemma tr_put4 (F : Z -> Prop) b0 b off v :
  0 <= off -> off + 4 <= arr_len b0 -> (forall i, off <= i < off + 4 -> F i) -> tr F b0 b -> tr F b0 (put4 off v b).
Proof. intros H1 H2 Hf. apply tr_in; [done|by rewrite le_bytes_arr_len|]. intros i. rewrite le_bytes_arr_len. apply Hf. Qed.

Lemma clamp_room ty nr psize off : clamp_off ty nr psize = Some off -> 0 <= off /\ off + 4 <= psize.
Proof. unfold clamp_off. intros H. repeat case_if_in H; try done; injection H as <-; zb; lia. Qed.

Lemma outer_tr va cmd p a : tr (fun i => wired cmd p a i \/ clamped cmd p i) p (outer va cmd p a).
Proof.
  unfold outer. assert (tr (fun i => wired cmd p a i \/ clamped cmd p i) p (wire_ptr va cmd p a)) as H1.
  { unfold wire_ptr. destruct (ptr_off cmd (arr_len p) (arr_len a)) as [off|] eqn:E; [|apply tr_refl].
    pose proof (ptr_off_room _ _ _ _ E). destruct (Z.ltb_spec 0 (arr_len a)) as [Ha|Ha].
    - apply tr_put8; [lia|lia| |apply tr_refl]. intros i Hi. left. by exists off.
    - apply tr_put8_0; [lia|lia|apply tr_refl]. }
  assert (tr (fun i => wired cmd p a i \/ clamped cmd p i) p
    (clamp_inner_params_size (ioc_type cmd) (ioc_nr cmd) (wire_ptr va cmd p a) (arr_len a))) as H2.
  { unfold clamp_inner_params_size. rewrite wire_len.
    destruct (clamp_off (ioc_type cmd) (ioc_nr cmd) (arr_len p)) as [off|] eqn:E; [|done].
    pose proof (clamp_room _ _ _ _ E). case_if; [|done]. apply tr_put4; [lia|lia| |done].
    intros i Hi. right. by exists off. }
  set (c := clamp_inner_params_size _ _ _ _) in *. clearbody c.
  assert (tr (fun i => wired cmd p a i \/ clamped cmd p i) p (zero_nvos64_rights (ioc_type cmd) (ioc_nr cmd) c)) as H3.
  { unfold zero_nvos64_rights. destruct (_ || _ || _) eqn:E; [done|]. apply orb_false_iff in E as [_ E]. apply Z.ltb_ge in E.
    apply tr_put8_0; [lia|destruct H2; lia|done]. }
  set (z := zero_nvos64_rights _ _ _) in *. clearbody z. unfold fence_clear.
  destruct (_ && _ && _) eqn:E; [|done]. apply andb_true_iff in E as [_ E]. apply Z.leb_le in E.
  apply tr_put8_0; [lia|destruct H3; lia|done].
Qed.

Lemma byte_outer va cmd p a : Forall byte p -> Forall byte (outer va cmd p a).
Proof.
  intros H. unfold outer, fence_clear, zero_nvos64_rights, clamp_inner_params_size, wire_ptr.
  destruct (ptr_off _ _ _); destruct (clamp_off _ _ _); repeat case_if; repeat first [apply byte_put8|apply byte_put4]; done.
Qed.

Lemma idle_tr F b0 cmd p : tr F b0 p -> tr F b0 (idle_channels cmd p).
Proof.
  intros H. unfold idle_channels. destruct (_ && _ && _) eqn:E; [|done]. apply andb_true_iff in E as [_ E]. apply Z.leb_le in E.
  apply tr_fair; [lia|unfold arr_len at 1; rewrite length_replicate; destruct H; lia|apply fair_zeros|done].
Qed.

Lemma byte_idle cmd p : Forall byte p -> Forall byte (idle_channels cmd p).
Proof. intros H. unfold idle_channels. case_if; [|done]. by apply byte_wr; [apply byte_zeros|]. Qed.

(** The descriptor fields of the frontend commands lie apart from the pointer. *)
Lemma fe_apart cmd p a off i :
  fe_fd_off cmd = Some off -> off <= i < off + 4 -> ~ (wired cmd p a i \/ clamped cmd p i).
Proof.
  intros Hf Hi. unfold fe_fd_off in Hf. destruct (Z.eqb_spec (ioc_type cmd) TY_F) as [Ht|]; [|done]. cbv zeta in Hf.
  assert (cmd <> NVKVM_NVKMS_IOCTL_CMD) as Hk by (intros ->; done).
  assert (ioc_nr cmd <> 0x2a /\ ioc_nr cmd <> 0x2b /\ (off = 48 \/ off = 8 \/ off = 0)) as (N1 & N2 & Ho).
  { repeat case_if_in Hf; try done; injection Hf as <-; zb; repeat split; try tauto; congruence. }
  intros [(o & E & _ & Hw)|(o & E & Hw)].
  - unfold ptr_off in E. cbv zeta in E. rewrite (proj2 (Z.eqb_neq _ _) Hk), Ht in E.
    rewrite (proj2 (Z.eqb_neq _ _) N1), (proj2 (Z.eqb_neq _ _) N2) in E. cbn in E. case_if_in E; [|done]. injection E as <-. lia.
  - unfold clamp_off in E. rewrite (proj2 (Z.eqb_neq _ _) N1), (proj2 (Z.eqb_neq _ _) N2) in E. cbn [andb] in E.
    case_if_in E; done.
Qed.

Lemma fe_tr lookup cmd p a q p1 fe :
  Forall byte q -> tr (fun i => wired cmd p a i \/ clamped cmd p i) p q -> fe_embedded lookup cmd q = Some (p1, fe) ->
  tr (fun i => (wired cmd p a i \/ clamped cmd p i) \/ at4 fe i) p p1 /\
  match fe with Some (off, hid) => 0 <= off /\ off + 4 <= arr_len p /\ fair p off (le_bytes 4 (u32 hid)) | None => True end.
Proof.
  intros Hq Ht H. pose proof Ht as [Hl Hb].
  assert (tr (fun i => (wired cmd p a i \/ clamped cmd p i) \/ at4 fe i) p q) as Ht'
    by (apply (tr_mono (fun i => wired cmd p a i \/ clamped cmd p i)); [tauto|done]).
  unfold fe_embedded in H. destruct (fe_fd_off cmd) as [off|] eqn:E; [|by injection H as <- <-].
  pose proof (fe_off_pos _ _ E) as Hp. destruct (Z.leb_spec (off + 4) (arr_len q)) as [Hr|Hr]; [|by injection H as <- <-].
  cbv zeta in H. assert (fair p off (le_bytes 4 (u32 (rdi off q)))) as Hf.
  { apply fair_id; [done|done|lia|]. intros i Hi. destruct (Hb i ltac:(lia)) as [Hx|Hx]; [|done].
    by destruct (fe_apart cmd p a off i E Hi). }
  case_if_in H; [|injection H as <- <-; by split; [|split; [|split; [lia|]]]].
  case_if_in H; [done|]. injection H as <- <-. split; [|split; [done|split; [lia|done]]].
  apply tr_put4; [lia|lia| |done]. intros i Hi. right. by exists off, (rdi off q).
Qed.

(** Which field the pointer is cleared in: the one it was written to, but for
    DRM command 0x49. *)
Lemma ptr_zero_off cmd psize asize :
  (ioc_type cmd = TY_d -> ioc_nr cmd <> 0x49) -> 0 < asize ->
  ptr_off cmd psize asize =
  if ((cmd =? NVKVM_NVKMS_IOCTL_CMD) && (NVKVM_NVKMS_PARAMS_SIZE <=? psize))
     || ((ioc_type cmd =? TY_d) && ((ioc_nr cmd =? 0x54) || (ioc_nr cmd =? 0x41)) && (16 <=? psize))
  then Some NVKVM_NVKMS_ADDR_OFF else if 24 <=? psize then Some 16 else None.
Proof.
  intros Hx Ha. unfold ptr_off. cbv zeta. rewrite (proj2 (Z.ltb_lt _ _) Ha). cbn [andb].
  assert ((ioc_type cmd =? TY_d) && ((ioc_nr cmd =? 0x54) || (ioc_nr cmd =? 0x49) || (ioc_nr cmd =? 0x41)) =
          (ioc_type cmd =? TY_d) && ((ioc_nr cmd =? 0x54) || (ioc_nr cmd =? 0x41))) as ->.
  { destruct (Z.eqb_spec (ioc_type cmd) TY_d) as [Ed|]; [|done]. rewrite (proj2 (Z.eqb_neq _ _) (Hx Ed)). by rewrite orb_false_r. }
  case_if; [done|]. destruct (24 <=? psize); rewrite ?andb_false_r; [|done]. repeat case_if; done.
Qed.

Lemma ptr_zero_tr (G : Z -> Prop) cmd p a q :
  (ioc_type cmd = TY_d -> ioc_nr cmd <> 0x49) -> 0 < arr_len a -> tr G p q ->
  tr (fun i => G i /\ ~ wired cmd p a i) p (ptr_zero cmd (arr_len a) q).
Proof.
  intros Hx Ha Ht. pose proof Ht as [Hl _].
  assert (ptr_zero cmd (arr_len a) q =
    match ptr_off cmd (arr_len p) (arr_len a) with Some off => put8 off 0 q | None => q end) as ->.
  { rewrite ptr_zero_off by done. unfold ptr_zero. rewrite (proj2 (Z.ltb_lt _ _) Ha), Hl. cbn [andb]. repeat case_if; done. }
  destruct (ptr_off cmd (arr_len p) (arr_len a)) as [off|] eqn:E.
  - pose proof (ptr_off_room _ _ _ _ E) as [R1 R2]. rewrite put8_0.
    apply (tr_restore G); [lia|unfold arr_len at 1; rewrite length_replicate; lia|apply fair_zeros|done|].
    intros i Hi. destruct (decide (off <= i < off + arr_len (replicate 8 0))) as [?|Hn]; [by left|right]. split; [done|].
    intros (o & E' & _ & Ho). rewrite E in E'. injection E' as <-. apply Hn. unfold arr_len. rewrite length_replicate. lia.
  - apply (tr_mono G); [|done]. intros i Hi. split; [done|]. intros (o & E' & _). congruence.
Qed.

(** Writing a saved descriptor back. *)
Lemma put_back_tr (G : Z -> Prop) b0 b s :
  match s with Some (off, hid) => 0 <= off /\ off + 4 <= arr_len b0 /\ fair b0 off (le_bytes 4 (u32 hid)) | None => True end ->
  tr G b0 b -> tr (fun i => G i /\ ~ at4 s i) b0 (put_back s b).
Proof.
  intros Hs Ht. destruct s as [[off hid]|]; cbn [put_back].
  - destruct Hs as (H1 & H2 & H3). apply (tr_restore G); [done|by rewrite le_bytes_arr_len|done|done|].
    intros i Hi. rewrite le_bytes_arr_len. destruct (decide (off <= i < off + 4)) as [?|Hn]; [by left|right].
    split; [done|]. intros (o & h & E & Ho). by injection E as <- <-.
  - apply (tr_mono G); [|done]. intros i Hi. split; [done|]. by intros (o & h & E & _).
Qed.

Lemma tr_any b0 b : arr_len b = arr_len b0 -> tr (fun _ => True) b0 b.
Proof. intros H. split; [done|]. intros i _. by left. Qed.

(** The parameters sent back, whatever the driver left in them. *)
Lemma param_back lookup va abi cmd p a p1 a1 sv p2 :
  Forall byte p -> (ioc_type cmd = TY_d -> ioc_nr cmd <> 0x49) -> ioc_type cmd <> 0 ->
  prepare lookup va abi cmd p a = Some (p1, a1, sv) -> arr_len p2 = arr_len p ->
  forall i, 0 <= i < arr_len p ->
    back p i (p1 !! Z.to_nat i) \/ clamped cmd p i \/ back p i (finish_param cmd sv p2 (arr_len a) !! Z.to_nat i).
Proof.
  intros Hb Hx Ht H Hl i Hi. destruct (prepare_inv _ _ _ _ _ _ _ _ _ H Ht) as (aA & aB & aC & _ & _ & _ & Hf & Hu & _).
  assert (Forall byte (idle_channels cmd (outer va cmd p a))) as Hq by by apply byte_idle, byte_outer.
  destruct (fe_tr lookup cmd p a _ p1 (fe_fd sv) Hq (idle_tr _ _ _ _ (outer_tr va cmd p a)) Hf) as [[_ T1] Hfe].
  unfold finish_param. rewrite Hu. cbn [put_back].
  pose proof (put_back_tr (fun _ => True) p p2 (fe_fd sv) Hfe (tr_any p p2 Hl)) as T2.
  destruct (Z.ltb_spec 0 (arr_len a)) as [Ha|Ha].
  - pose proof (ptr_zero_tr _ cmd p a _ Hx Ha T2) as [_ T3].
    destruct (T1 i Hi) as [[[Hw|Hc]|Hf4]|Hbk]; [|by right; left| |by left]; right; right;
      (destruct (T3 i Hi) as [[[_ N1] N2]|]; [by exfalso; auto|done]).
  - destruct (T1 i Hi) as [[[(o & _ & Ha' & _)|Hc]|Hf4]|Hbk]; [lia|by right; left| |by left]. right; right.
    unfold ptr_zero. rewrite (proj2 (Z.ltb_ge _ _) Ha). cbn [andb].
    destruct T2 as [_ T2]. destruct (T2 i Hi) as [[_ N1]|]; [by exfalso; auto|done].
Qed.

(** ** The auxiliary blob *)
Definition fld (off n i : Z) : Prop := off <= i < off + n.

(** The bytes that are overwritten on the way back. *)
Definition cov (sv : saved) (i : Z) : Prop :=
  (event_hid sv <> None /\ fld 16 8 i) \/ (0 < str_sz sv /\ fld 8 24 i) \/
  (0 < info_list_size sv /\ (fld 8 8 i \/ info_list_base sv = 0xFFFFFFFF /\ fld 16 8 i)) \/
  at4 (export_fd sv) i \/ (drm_hid sv <> None /\ fld 0 4 i) \/
  Exists (fun x => fld (fst x) 4 i) (regsurf sv).

Definition fair4 (b0 : list Z) (x : Z * Z) : Prop :=
  0 <= fst x /\ fst x + 4 <= arr_len b0 /\ fair b0 (fst x) (le_bytes 4 (u32 (snd x))).

Record fair_sv (a : list Z) (sv : saved) : Prop := {
  fs_event : match event_hid sv with Some hid => 24 <= arr_len a /\ fair a 16 (le_bytes 8 (u64 (u32 hid))) | None => True end;
  fs_str : 0 < str_sz sv -> 32 <= arr_len a;
  fs_info : 0 < info_list_size sv -> 16 <= arr_len a /\ (info_list_base sv = 0xFFFFFFFF -> 24 <= arr_len a);
  fs_export : match export_fd sv with Some x => fair4 a x | None => True end;
  fs_drm : match drm_hid sv with Some hid => fair4 a (0, hid) | None => True end;
  fs_planes : Forall (fair4 a) (regsurf sv)
}.

Lemma zero8_tr (G : Z -> Prop) b0 b off :
  0 <= off -> off + 8 <= arr_len b0 -> tr G b0 b -> tr (fun i => G i /\ ~ fld off 8 i) b0 (put8 off 0 b).
Proof.
  intros H1 H2 Ht. rewrite put8_0.
  apply (tr_restore G); [done|unfold arr_len at 1; rewrite length_replicate; lia|apply fair_zeros|done|].
  intros i Hi. unfold fld, arr_len. rewrite length_replicate. destruct (decide (off <= i < off + 8)); [by left|by right].
Qed.

Lemma fair4_tr (G : Z -> Prop) b0 b off hid :
  fair4 b0 (off, hid) -> tr G b0 b -> tr (fun i => G i /\ ~ fld off 4 i) b0 (put4 off hid b).
Proof.
  intros (H1 & H2 & H3) Ht. apply (tr_restore G); [done|by rewrite le_bytes_arr_len|done|done|].
  intros i Hi. unfold fld. rewrite le_bytes_arr_len. destruct (decide (off <= i < off + 4)); [by left|by right].
Qed.

Lemma planes_back_tr (G : Z -> Prop) b0 b l :
  Forall (fair4 b0) l -> tr G b0 b ->
  tr (fun i => G i /\ ~ Exists (fun x => fld (fst x) 4 i) l) b0 (fold_left (fun a x => put4 (fst x) (snd x) a) l b).
Proof.
  intros Hl. revert G b. induction Hl as [|[off hid] l Hx _ IH]; intros G b Ht; cbn [fold_left fst snd].
  - apply (tr_mono G); [|done]. intros i Hi. split; [done|]. by intros ?%Exists_nil.
  - pose proof (IH _ _ (fair4_tr G b0 b off hid Hx Ht)) as T. refine (tr_mono _ _ _ _ _ T).
    intros i [[Hg N1] N2]. split; [done|]. intros [E|E]%Exists_cons; [by apply N1|by apply N2].
Qed.

Lemma finish_aux_tr sv a a2 : fair_sv a sv -> arr_len a2 = arr_len a -> tr (fun i => ~ cov sv i) a (finish_aux sv a2).
Proof.
  intros [F1 F2 F3 F4 F5 F6] Hl. unfold finish_aux. cbv zeta.
  set (x1 := match event_hid sv with Some hid => _ | None => a2 end).
  assert (tr (fun i => ~ (event_hid sv <> None /\ fld 16 8 i)) a x1) as T1.
  { subst x1. destruct (event_hid sv) as [hid|]; [|refine (tr_mono _ _ _ _ _ (tr_any a a2 Hl)); tauto].
    destruct F1 as [E1 E2]. apply (tr_restore (fun _ => True)); [lia|rewrite le_bytes_arr_len; lia|done|by apply tr_any|].
    intros i _. unfold fld. rewrite le_bytes_arr_len. destruct (decide (16 <= i < 16 + 8)); [by left|right; tauto]. }
  set (x2 := if 0 <? str_sz sv then _ else x1). clearbody x1.
  assert (tr (fun i => ~ (event_hid sv <> None /\ fld 16 8 i) /\ ~ (0 < str_sz sv /\ fld 8 24 i)) a x2) as T2.
  { subst x2. destruct (Z.ltb_spec 0 (str_sz sv)) as [H|H]; [|refine (tr_mono _ _ _ _ _ T1); intros i Hi; split; [done|intros [? _]; lia]]. specialize (F2 H).
    refine (tr_mono _ _ _ _ _ (zero8_tr _ a _ 24 ltac:(lia) ltac:(lia) (zero8_tr _ a _ 16 ltac:(lia) ltac:(lia)
      (zero8_tr _ a _ 8 ltac:(lia) ltac:(lia) T1)))). intros i. unfold fld. intros [[[G1 G2] G3] G4]. split; [done|lia]. }
  set (x3 := if 0 <? info_list_size sv then _ else x2). clearbody x2.
  assert (tr (fun i => (~ (event_hid sv <> None /\ fld 16 8 i) /\ ~ (0 < str_sz sv /\ fld 8 24 i)) /\
    ~ (0 < info_list_size sv /\ (fld 8 8 i \/ info_list_base sv = 0xFFFFFFFF /\ fld 16 8 i))) a x3) as T3.
  { subst x3. destruct (Z.ltb_spec 0 (info_list_size sv)) as [H|H]; [|refine (tr_mono _ _ _ _ _ T2); intros i Hi; split; [done|intros [? _]; lia]].
    destruct (F3 H) as [R1 R2]. pose proof (zero8_tr _ a _ 8 ltac:(lia) ltac:(lia) T2) as T.
    destruct (Z.eqb_spec (info_list_base sv) 0xFFFFFFFF) as [E|E].
    - specialize (R2 E). refine (tr_mono _ _ _ _ _ (zero8_tr _ a _ 16 ltac:(lia) ltac:(lia) T)). tauto.
    - refine (tr_mono _ _ _ _ _ T). tauto. }
  set (x4 := put_back (export_fd sv) x3). clearbody x3.
  pose proof (put_back_tr _ a x3 (export_fd sv) ltac:(destruct (export_fd sv) as [[o h]|]; [exact F4|done]) T3) as T4. fold x4 in T4.
  set (x5 := match drm_hid sv with Some hid => _ | None => x4 end). clearbody x4.
  match type of T4 with tr ?g _ _ =>
    assert (tr (fun i => g i /\ ~ (drm_hid sv <> None /\ fld 0 4 i)) a x5) as T5;
    [subst x5; destruct (drm_hid sv) as [hid|]; [refine (tr_mono _ _ _ _ _ (fair4_tr g a x4 0 hid F5 T4)); tauto|
      refine (tr_mono _ _ _ _ _ T4); tauto]|] end.
  refine (tr_mono _ _ _ _ _ (planes_back_tr _ a x5 (regsurf sv) F6 T5)). unfold cov. tauto.
Qed.

Lemma clear_tr F b0 b off : 0 <= off -> tr F b0 b -> tr F b0 (aux_clear_ptr b off).
Proof.
  intros Ho Ht. pose proof Ht as [Hl _]. unfold aux_clear_ptr. destruct (Z.leb_spec (arr_len b) off); [done|].
  apply tr_fair; [done|unfold arr_len at 1; rewrite length_replicate; case_if; zb; lia|apply fair_zeros|done].
Qed.

(** What a control command leaves to restore. *)
Definition sv_ctrl (ss ils ilb : Z) (ex : option (Z * Z)) : saved := Saved [] None ss ils ilb ex None None None.

Lemma fair_sv_none a : fair_sv a (sv_ctrl 0 0 0 None).
Proof. constructor; cbn; try done; lia. Qed.

Lemma fair_sv_info a ils ilb :
  (0 < ils -> 16 <= arr_len a /\ (ilb = 0xFFFFFFFF -> 24 <= arr_len a)) -> fair_sv a (sv_ctrl 0 ils ilb None).
Proof. intros H. constructor; cbn; try done; lia. Qed.

Lemma info_tr va inner a :
  Forall byte a -> arr_len a < W32 - 1 ->
  let r := info_list va inner a in
  tr (cov (sv_ctrl 0 (snd (fst r)) (snd r) None)) a (fst (fst r)) /\ fair_sv a (sv_ctrl 0 (snd (fst r)) (snd r) None).
Proof.
  intros Hb Ha. unfold info_list. cbv zeta. case_if; [|split; [apply tr_refl|apply fair_sv_none]].
  case_if; cbn [fst snd]; [|split; [apply clear_tr; [lia|apply tr_refl]|apply fair_sv_none]].
  zb. pose proof (esz_pos inner). rewrite u32_small in * by lia. split.
  - apply tr_put8; [lia|lia| |apply tr_refl]. intros i Hi. unfold cov, fld. cbn. lia.
  - apply fair_sv_info. intros _. split; [lia|]. intros E. lia.
Qed.

Lemma inner_fd_tr lookup off a a1 x :
  Forall byte a -> 0 <= off -> off + 4 <= arr_len a -> inner_fd lookup off a = Some (a1, x) ->
  tr (cov (sv_ctrl 0 0 0 (Some x))) a a1 /\ fair_sv a (sv_ctrl 0 0 0 (Some x)).
Proof.
  intros Hb Ho Hl H. unfold inner_fd in H. cbv zeta in H. case_if_in H; [done|]. injection H as <- <-. split.
  - apply tr_put4; [lia|lia| |apply tr_refl]. intros i Hi. unfold cov. cbn. right. right. right. left. by exists off, (rdi off a).
  - constructor; cbn; try done; try lia. split; [done|]. split; [done|]. apply fair_id; [done|done|done|]. intros i _. by left.
Qed.

Lemma channel_tr va a :
  let r := channel_list va a in
  let sv := match snd r with Some nc => sv_ctrl 0 nc 0xFFFFFFFF None | None => sv_ctrl 0 0 0 None end in
  tr (cov sv) a (fst r) /\ fair_sv a sv.
Proof.
  unfold channel_list. cbv zeta. destruct (_ && _) eqn:E; cbn [fst snd].
  - assert (24 <= arr_len a /\ 0 < (if 4 <=? arr_len a then rd 4 0 a else 0)) as [Hl Hn] by (zb; lia). split.
    + apply tr_put8; [lia|lia| |apply tr_put8; [lia|lia| |apply tr_refl]]; intros i Hi; unfold cov, fld; cbn; lia.
    + apply fair_sv_info. intros _. split; [lia|]. intros _. lia.
  - split; [|apply fair_sv_none]. do 2 (apply clear_tr; [lia|]). apply tr_refl.
Qed.

Lemma build_tr va a :
  let r := build_version va a in tr (cov (sv_ctrl (snd r) 0 0 None)) a (fst r) /\ fair_sv a (sv_ctrl (snd r) 0 0 None).
Proof.
  unfold build_version. cbv zeta. destruct (_ && _) eqn:E; cbn [fst snd].
  - assert (40 <= arr_len a /\ 0 < (if 4 <=? arr_len a then rd 4 0 a else 0)) as [Hl Hn] by (zb; lia). split.
    + do 3 (apply tr_put8; [lia|lia|intros i Hi; unfold cov, fld; cbn; lia|]). apply tr_refl.
    + constructor; cbn; try done; lia.
  - split; [|apply fair_sv_none]. do 3 (apply clear_tr; [lia|]). apply tr_refl.
Qed.

Lemma ctrl_tr lookup va cmd p a a1 ss ils ilb ex :
  Forall byte a -> arr_len a < W32 - 1 -> ctrl_inner lookup va cmd p a = Some (a1, ss, ils, ilb, ex) ->
  tr (cov (sv_ctrl ss ils ilb ex)) a a1 /\ fair_sv a (sv_ctrl ss ils ilb ex).
Proof.
  intros Hb Ha H. unfold ctrl_inner in H. case_if_in H; [|injection H as <- <- <- <- <-; split; [apply tr_refl|apply fair_sv_none]].
  cbv zeta in H. destruct (Z.eq_dec (nvkvm_ctrl_list_entry_size (rd 4 8 p)) 0) as [Es|Es].
  - rewrite info_id in H by done. destruct ((rd 4 8 p =? 0x00003d05) && (20 <=? arr_len a)) eqn:E1.
    { destruct (inner_fd lookup 16 a) as [[a2 s2]|] eqn:F; [|done]. apply andb_true_iff in E1 as [E1 E3].
      apply Z.eqb_eq in E1. apply Z.leb_le in E3. rewrite E1 in H. cbn in H. injection H as <- <- <- <- <-.
      apply (inner_fd_tr lookup 16); [done|lia|lia|done]. }
    destruct (((rd 4 8 p =? 0x00003d06) || (rd 4 8 p =? 0x00003d08)) && (4 <=? arr_len a)) eqn:E2.
    { destruct (inner_fd lookup 0 a) as [[a2 s2]|] eqn:F; [|done]. apply andb_true_iff in E2 as [E2 E3]. apply Z.leb_le in E3.
      apply (inner_fd_tr lookup 0) in F; [|done|lia|lia].
      apply orb_true_iff in E2 as [E2|E2]; apply Z.eqb_eq in E2; rewrite E2 in H; cbn in H; by injection H as <- <- <- <- <-. }
    pose proof (channel_tr va a) as Tc. pose proof (build_tr va a) as Tb. cbv zeta in Tc, Tb.
    destruct (Z.eqb_spec (rd 4 8 p) 0x0080170d) as [E3|E3].
    { rewrite E3 in H. destruct (channel_list va a) as [ac [nc|]]; cbn in H; injection H as <- <- <- <- <-; exact Tc. }
    destruct (Z.eqb_spec (rd 4 8 p) 0x00000202) as [E4|E4].
    { rewrite E4 in H. cbn in H. injection H as <- <- <- <- <-. split; [apply clear_tr; [lia|apply tr_refl]|apply fair_sv_none]. }
    destruct (rd 4 8 p =? 0x00000101); [destruct (build_version va a) as [ab sz]|]; cbn in H; injection H as <- <- <- <- <-;
      [exact Tb|]. split; [apply tr_refl|apply fair_sv_none].
  - pose proof (info_tr va (rd 4 8 p) a Hb Ha) as Ti. cbv zeta in Ti.
    destruct (info_list va (rd 4 8 p) a) as [[a0 i0] b0]. cbn [fst snd] in Ti.
    assert (forall k, nvkvm_ctrl_list_entry_size k = 0 -> (rd 4 8 p =? k) = false) as Hk
      by (intros k Hz; apply Z.eqb_neq; intros Ek; by rewrite Ek in Es).
    rewrite !Hk in H by done. cbn in H. by injection H as <- <- <- <- <-.
Qed.

(** The planes of a surface. *)
Lemma planes_tr lookup l k a b sv a1 sv1 :
  Forall byte b -> 112 <= arr_len a -> 0 <= k -> l = seqZ k (3 - k) ->
  tr (fun i => Exists (fun x => fld (fst x) 4 i) sv) a b -> Forall (fair4 a) sv ->
  (forall i, 16 + 32 * k <= i < arr_len a -> b !! Z.to_nat i = a !! Z.to_nat i) ->
  planes lookup l b sv = Some (a1, sv1) ->
  tr (fun i => Exists (fun x => fld (fst x) 4 i) sv1) a a1 /\ Forall (fair4 a) sv1.
Proof.
  intros Hb Ha Hk El. revert k b sv Hb Hk El. induction l as [|j l IH]; intros k b sv Hb Hk El Ht Hf Hs H; cbn [planes] in H.
  { by injection H as <- <-. }
  destruct (decide (k < 3)) as [Hk3|Hk3]; [|by rewrite seqZ_nil in El by lia].
  rewrite seqZ_cons in El by lia. injection El as -> El. rewrite <- Z.sub_succ_r in El.
  unfold NVKVM_NVKMS_REGSURF_PLANE0_OFF, NVKVM_NVKMS_REGSURF_PLANE_STRIDE in H. cbv zeta in H.
  pose proof Ht as [Hl _]. case_if_in H.
  { apply (IH (Z.succ k) b sv) in H; try done; [lia|]. intros i Hi. apply Hs. lia. }
  case_if_in H; [done|]. set (off := 16 + k * 32) in *.
  assert (fair4 a (off, rdi off b)) as Hn.
  { split; [cbn; lia|]. split; [cbn; lia|]. cbn [fst snd]. apply fair_id; [done|lia|lia|]. intros i Hi. left. apply Hs. lia. }
  apply (IH (Z.succ k) (put4 off (lookup (u32 (rdi off b))) b)) in H; try done.
  - by apply byte_put4.
  - lia.
  - apply tr_put4; [lia|lia| |]. { intros i Hi. apply Exists_app. right. apply Exists_cons. by left. }
    refine (tr_mono _ _ _ _ _ Ht). intros i Hi. apply Exists_app. by left.
  - apply Forall_app_2; [done|]. by apply Forall_cons.
  - intros i Hi. unfold put4. rewrite lookup_wr_out; rewrite ?le_bytes_arr_len; [apply Hs; lia|lia..].
Qed.

Lemma reg_tr lookup cmd p a a1 rs :
  Forall byte a -> reg_surface lookup cmd p a = Some (a1, rs) ->
  (cmd = NVKVM_NVKMS_IOCTL_CMD /\
    tr (fun i => Exists (fun x => fld (fst x) 4 i) rs) a a1 /\ Forall (fair4 a) rs) \/ (a1 = a /\ rs = []).
Proof.
  intros Hb H. unfold reg_surface in H. destruct (_ && _ && _) eqn:E; [|injection H as <- <-; by right].
  apply andb_true_iff in E as [E E3]. apply andb_true_iff in E as [E _]. apply Z.eqb_eq in E. apply Z.leb_le in E3.
  cbv zeta in H. case_if_in H; [|injection H as <- <-; by right]. left. split; [done|].
  unfold NVKVM_NVKMS_REGSURF_PLANE0_OFF, NVKVM_NVKMS_MAX_PLANES, NVKVM_NVKMS_REGSURF_PLANE_STRIDE in E3.
  apply (planes_tr lookup _ 0 a a []) in H; try done; try lia; apply tr_refl.
Qed.

Lemma drm_tr lookup cmd a a1 dh :
  Forall byte a -> drm_export lookup cmd a = Some (a1, dh) ->
  (exists hid, ioc_type cmd = TY_d /\ (ioc_nr cmd = 0x49 \/ ioc_nr cmd = 0x41) /\ dh = Some hid /\ fair4 a (0, hid) /\
    tr (fld 0 4) a a1) \/ (a1 = a /\ dh = None).
Proof.
  intros Hb H. unfold drm_export in H. destruct (_ && _ && _) eqn:E; [|injection H as <- <-; by right].
  apply andb_true_iff in E as [E E3]. apply andb_true_iff in E as [E E2]. apply Z.eqb_eq in E. apply Z.leb_le in E3.
  apply orb_true_iff in E2. rewrite !Z.eqb_eq in E2. cbv zeta in H. case_if_in H; [|injection H as <- <-; by right].
  case_if_in H; [done|]. injection H as <- <-. left. exists (rdi 0 a). split; [done|]. split; [done|]. split; [done|]. split.
  - split; [cbn; lia|]. split; [cbn; lia|]. apply fair_id; [done|lia|lia|]. intros i _. by left.
  - apply tr_put4; [lia|lia| |apply tr_refl]. intros i Hi. unfold fld. lia.
Qed.

Lemma le_val_app l1 l2 : le_val (l1 ++ l2) = le_val l1 + 256 ^ arr_len l1 * le_val l2.
Proof.
  induction l1 as [|c l1 IH]; cbn [app le_val]; [unfold arr_len; simpl; lia|]. rewrite IH. unfold arr_len. cbn [length].
  rewrite Nat2Z.inj_succ, Z.pow_succ_r by lia. lia.
Qed.

Lemma le_bytes_app n m v : 0 <= v -> le_bytes (n + m) v = le_bytes n v ++ le_bytes m (v / 256 ^ Z.of_nat n).
Proof.
  revert v. induction n as [|n IH]; intros v Hv; [by rewrite Z.div_1_r|]. cbn [Nat.add le_bytes app]. rewrite IH by mlia.
  rewrite Nat2Z.inj_succ, Z.pow_succ_r by lia. by rewrite Z.div_div by lia.
Qed.

Lemma rd8_low off a : Forall byte a -> 0 <= off -> off + 8 <= arr_len a -> u32 (rd 8 off a) = rd 4 off a.
Proof.
  intros Hb Ho Hl. unfold rd. set (d := drop (Z.to_nat off) a).
  assert (8 <= length d)%nat as Hd by (unfold d; rewrite length_drop; unfold arr_len in Hl; lia).
  assert (take 8 d = take 4 d ++ take 4 (drop 4 d)) as ->.
  { rewrite <- (take_drop 4 (take 8 d)) at 1. rewrite take_take, skipn_firstn_comm. done. }
  rewrite le_val_app. assert (arr_len (take 4 d) = 4) as -> by (unfold arr_len; rewrite length_take; lia).
  assert (0 <= le_val (take 4 d) < 256 ^ 4) as Hr.
  { pose proof (le_val_range (take 4 d)) as H. unfold arr_len in H. rewrite length_take in H.
    replace (Z.of_nat (4 `min` length d)) with 4 in H by lia. apply H. unfold d. by apply Forall_take, Forall_drop. }
  unfold u32. change (256 ^ 4) with 4294967296 in *. rewrite (Z.mul_comm 4294967296), Z.mod_add, Z.mod_small; lia.
Qed.

Lemma event_tr lookup cmd p a a1 ev :
  Forall byte a -> event_fd lookup cmd p a = Some (a1, ev) ->
  (exists hid, ioc_nr cmd = 0x2b /\ ioc_type cmd = TY_F /\ ev = Some hid /\ 24 <= arr_len a /\
    fair a 16 (le_bytes 8 (u64 (u32 hid))) /\ tr (fld 16 8) a a1) \/ (a1 = a /\ ev = None).
Proof.
  intros Hb H. unfold event_fd in H. destruct (_ && _ && _ && _) eqn:E; [|injection H as <- <-; by right].
  apply andb_true_iff in E as [E _]. apply andb_true_iff in E as [E E3]. apply andb_true_iff in E as [E1 E2].
  apply Z.eqb_eq in E1, E2. apply Z.leb_le in E3. cbv zeta in H. case_if_in H; [|injection H as <- <-; by right].
  case_if_in H; [|injection H as <- <-; by right]. case_if_in H; [done|]. injection H as <- <-. left.
  exists (s32 (u32 (rd 8 16 a))). do 3 (split; [done|]). split; [done|]. split.
  - rewrite u32_s32 by apply u32_range. rewrite rd8_low by (try done; lia). pose proof (rd_range 4 16 a Hb) as Hr.
    change (256 ^ Z.of_nat 4) with 4294967296 in Hr. rewrite u64_small by lia. change 8%nat with (4 + 4)%nat.
    rewrite le_bytes_app by lia. rewrite Z.div_small by (change (256 ^ Z.of_nat 4) with 4294967296; lia). rewrite le_bytes_0.
    intros j Hj. unfold arr_len in Hj. rewrite length_app, le_bytes_length, length_replicate in Hj.
    destruct (decide (j < 4)) as [Hj4|Hj4].
    + rewrite lookup_app_l by (rewrite le_bytes_length; lia).
      apply (fair_field a a 16 4); [done|lia|lia|intros i _; by left|rewrite le_bytes_arr_len; lia].
    + right. rewrite lookup_app_r by (rewrite le_bytes_length; lia). rewrite le_bytes_length. by rewrite lookup_replicate_2 by lia.
  - apply tr_put8; [lia|lia| |apply tr_refl]. intros i Hi. unfold fld. lia.
Qed.

Lemma drm_id lookup cmd a : ioc_type cmd <> TY_d -> drm_export lookup cmd a = Some (a, None).
Proof. intros H. unfold drm_export. by rewrite (proj2 (Z.eqb_neq _ _) H). Qed.
Lemma event_id lookup cmd p a : ioc_type cmd <> TY_F -> event_fd lookup cmd p a = Some (a, None).
Proof. intros H. unfold event_fd. by rewrite (proj2 (Z.eqb_neq _ _) H). Qed.

(** What has to be restored is in [sv], with the guest's own values. *)
Lemma aux_back lookup va abi cmd p a p1 a1 sv :
  Forall byte a -> arr_len a < W32 - 1 -> ioc_type cmd <> 0 -> prepare lookup va abi cmd p a = Some (p1, a1, sv) ->
  tr (cov sv) a a1 /\ fair_sv a sv.
Proof.
  intros Hb Ha Ht H. destruct (prepare_inv _ _ _ _ _ _ _ _ _ H Ht) as (aA & aB & aC & H1 & H2 & H3 & _ & _ & H4).
  destruct sv as [rs dh ss ils ilb ex uv fe ev]. cbn [regsurf drm_hid str_sz info_list_size info_list_base export_fd event_hid] in *.
  destruct (reg_tr _ _ _ _ _ _ Hb H1) as [(-> & Tr & Fr)|[-> ->]].
  { rewrite drm_id in H2 by done. injection H2 as <- <-. rewrite ctrl_id in H3 by done. injection H3 as <- <- <- <- <-.
    rewrite event_id in H4 by done. injection H4 as <- <-. split; [|by constructor; cbn; try lia].
    refine (tr_mono _ _ _ _ _ Tr). intros i Hi. unfold cov. cbn. tauto. }
  destruct (drm_tr _ _ _ _ _ Hb H2) as [(h & E1 & E2 & -> & Fd & Td)|[-> ->]].
  { rewrite ctrl_id in H3 by (destruct E2 as [E2|E2]; rewrite E2; done). injection H3 as <- <- <- <- <-.
    rewrite event_id in H4 by (rewrite E1; done). injection H4 as <- <-. split; [|by constructor; cbn; try lia].
    refine (tr_mono _ _ _ _ _ Td). intros i Hi. unfold cov. cbn. right. right. right. right. left. done. }
  destruct (ctrl_tr _ _ _ _ _ _ _ _ _ _ Hb Ha H3) as [Tc Fc].
  destruct (Z.eq_dec (ioc_nr cmd) 0x2a) as [En|En].
  - unfold event_fd in H4. rewrite En in H4. cbn [Z.eqb Pos.eqb] in H4. rewrite andb_false_r in H4. injection H4 as <- <-.
    split; [exact Tc|]. destruct Fc. by constructor.
  - rewrite ctrl_id in H3 by done. injection H3 as <- <- <- <- <-.
    destruct (event_tr _ _ _ _ _ _ Hb H4) as [(h & E1 & E2 & -> & El & Fe & Te)|[-> ->]].
    + split; [|constructor; cbn; try done; lia]. refine (tr_mono _ _ _ _ _ Te). intros i Hi. unfold cov. cbn. by left.
    + split; [apply tr_refl|]. destruct Fc. by constructor.
Qed.

(** C16: nothing of the stub goes back.  For a job that passes the device check
    and is not DRM command 0x49: every byte the stub put into the guest's blobs
    that is neither zero nor the clamped size, that is every address of the
    stub and every local descriptor, is in the answer the guest's own byte
    again or zero, whatever the driver left in the blobs. *)
Theorem stub_answers_clean lookup va abi dev cmd p a p1 a1 sv p2 a2 :
  Forall byte p -> Forall byte a -> arr_len a < W32 - 1 ->
  handle_type_matches_dev dev cmd = true -> (ioc_type cmd = TY_d -> ioc_nr cmd <> 0x49) ->
  prepare lookup va abi cmd p a = Some (p1, a1, sv) -> arr_len p2 = arr_len p -> arr_len a2 = arr_len a ->
  (forall i, 0 <= i < arr_len p ->
    back p i (p1 !! Z.to_nat i) \/ clamped cmd p i \/ back p i (finish_param cmd sv p2 (arr_len a2) !! Z.to_nat i)) /\
  (forall i, 0 <= i < arr_len a ->
    back a i (a1 !! Z.to_nat i) \/ back a i (finish_aux sv a2 !! Z.to_nat i)).
Proof.
  intros Hp Ha Hl Hd Hx H Lp La. pose proof (typed_not_uvm _ (dev_typed _ _ Hd)) as Ht. rewrite La.
  split; [exact (param_back lookup va abi cmd p a p1 a1 sv p2 Hp Hx Ht H Lp)|]. intros i Hi.
  destruct (aux_back _ _ _ _ _ _ _ _ _ Ha Hl Ht H) as [[_ T] F].
  destruct (finish_aux_tr sv a a2 F La) as [_ T2].
  destruct (T i Hi) as [Hc|Hb]; [|by left]. right. by destruct (T2 i Hi) as [Hn|Hb].
Qed.

(** ** Examples *)

(** EXPORT_OBJECT_TO_FD of handle 5, local descriptor 11. *)
Definition demo_export : list Z := replicate 16 0 ++ le_bytes 4 5 ++ replicate 4 0.
Definition demo_out : list Z * list Z * saved :=
  Eval vm_compute in default ([], [], saved0) (prepare demo_lookup demo_va 570 CTRL (ctrl_param 0x3d05 24) demo_export).

Lemma demo_out_eq :
  prepare demo_lookup demo_va 570 CTRL (ctrl_param 0x3d05 24) demo_export =
  Some (fst (fst demo_out), snd (fst demo_out), snd demo_out).
Proof. vm_compute. reflexivity. Qed.

(** The driver sees descriptor 11, the guest gets its handle back. *)
Lemma demo_out_fields :
  rd 4 16 (snd (fst demo_out)) = 11 /\ rd 4 16 (finish_aux (snd demo_out) (replicate 24 170)) = 5 /\
  rd 8 16 (finish_param CTRL (snd demo_out) (replicate 32 170) 24) = 0.
Proof. vm_compute. auto. Qed.

Lemma stub_answers_clean_witness :
  (forall i, 0 <= i < 32 ->
    back (ctrl_param 0x3d05 24) i (fst (fst demo_out) !! Z.to_nat i) \/ clamped CTRL (ctrl_param 0x3d05 24) i \/
    back (ctrl_param 0x3d05 24) i (finish_param CTRL (snd demo_out) (replicate 32 170) 24 !! Z.to_nat i)) /\
  (forall i, 0 <= i < 24 ->
    back demo_export i (snd (fst demo_out) !! Z.to_nat i) \/
    back demo_export i (finish_aux (snd demo_out) (replicate 24 170) !! Z.to_nat i)).
Proof.
  exact (stub_answers_clean demo_lookup demo_va 570 0 CTRL (ctrl_param 0x3d05 24) demo_export _ _ (snd demo_out)
    (replicate 32 170) (replicate 24 170) (all_bytes_spec (ctrl_param 0x3d05 24) eq_refl) (all_bytes_spec demo_export eq_refl) eq_refl eq_refl
    ltac:(discriminate) demo_out_eq eq_refl eq_refl).
Defined.

(** ** Where it does not hold *)

(** DRM command 0x49: the pointer is written at 8 and the clearing looks at 16,
    so the address of the stub's blob is in the answer. *)
Definition echo : driver := fun _ _ p a => (0, p, a).

Lemma drm_export_leaks_address :
  let r := run_job demo_lookup (fun _ => 32) demo_va echo 5 0xC0106449 570 (replicate 16 0) (replicate 8 0) in
  retval r = 0 /\ rd 8 8 (r_param r) = demo_va.
Proof. vm_compute. auto. Qed.

(** RM_CONTROL with 27 of its 32 bytes: the driver pads the parameters with
    zeros and reads a size of 0xffffff through a blob of 8 bytes. *)
Definition short_ctrl : list Z :=
  le_bytes 4 7 ++ le_bytes 4 8 ++ le_bytes 4 258 ++ le_bytes 4 0 ++ le_bytes 8 0 ++ replicate 3 255.

Lemma short_control_unclamped :
  match prepare demo_lookup demo_va 570 CTRL short_ctrl (replicate 8 0) with
  | Some (p, a, _) => let seen := p ++ replicate 5 0 in rd 8 16 seen = demo_va /\ rd 4 24 seen = 0xffffff /\ arr_len a = 8
  | None => False
  end.
Proof. vm_compute. auto. Qed.

(** RM_ALLOC in the 48-byte form with 32 of its bytes: pRightsRequested is the
    guest's. *)
Lemma short_alloc_keeps_rights :
  match prepare demo_lookup demo_va 570 0xC030462B (replicate 24 0 ++ le_bytes 8 0xdead0000) [] with
  | Some (p, _, _) => rd 8 24 (p ++ replicate 16 0) = 0xdead0000
  | None => False
  end.
Proof. vm_compute. auto. Qed.

(** REGISTER_FD with handle 0: the driver is given descriptor 0, the stub's
    control socket. *)
Lemma handle_zero_is_descriptor_zero :
  match prepare demo_lookup demo_va 570 0xC00446C9 (replicate 4 0) [] with
  | Some (p, _, _) => rd 4 0 p = 0
  | None => False
  end.
Proof. vm_compute. auto. Qed.

End StubBack.
