(* ===== verification/StubRing.v ===== *)
(** * StubRing: control commands over the shared ring

    Models the fast path of [src/stub/nvkvm_stub.c]: [ring_ctrl_must_punt],
    [ring_exec_one], [ring_write_resp] and [ring_consumer_loop], which execute
    flat RM_CONTROLs straight off the guest's request ring, and
    [handle_setup_ring], which accepts the ring.

    The guest can change the request ring at any time: every turn of the loop
    sees counters and bytes of the environment's choosing.  Every byte of a
    record is read once, so one snapshot per record covers the races.  The
    driver is [k]: it is given the [_IOC_SIZE] bytes it copies in, and answers
    the bytes it copies out. *)
From S2P Require Import Prelude Bytes Abi Ring UvmIoctl Gates RmGates StubJob.
Import StubJob.

Module StubRing.

(** ** Constants *)
Definition NVKVM_RING_MAX_PARAM : Z := 256.
Definition NVKVM_RING_MAX_AUX : Z := 4096.
Definition NVKVM_RING_RESP_PUNT : Z := 1.
Definition NVKVM_RING_IDLE_DEFAULT : Z := 2000.
Definition NVKVM_RING_SOCKET_POLL_EVERY : Z := 64.
Definition NVKVM_RING_IDLE_MAX : Z := 1000000.
Definition NVKVM_RING_RESP_FULL_SPIN : Z := 100000.
Definition sizeof_req : Z := 24.
Definition sizeof_resp : Z := 24.

Definition ioc_size (cmd : Z) : Z := Z.shiftr cmd 16 & 0x3fff.

(** ** The driver *)
Definition kernel : Type := Z -> Z -> list Z -> list Z -> Z * list Z * list Z.

(** The driver copies [_IOC_SIZE] bytes of [buf] in and out. *)
Definition stub_ioctl (k : kernel) (fd cmd : Z) (buf a : list Z) : Z * list Z * list Z :=
  let n := Z.to_nat (ioc_size cmd) in
  let '(ret, q, a) := k fd cmd (take n buf) a in
  (ret, q ++ drop n buf, a).

(** ** What must not run here *)
Definition ring_ctrl_must_punt (cmd : Z) (param : list Z) (psize asize : Z) : bool :=
  if negb (ioc_type cmd =? TY_F) || negb (ioc_nr cmd =? 0x2a) || (psize <? 32) then true
  else
    let inner := rd 4 8 param in
    if RmGates.nvkvm_ctrl_cmd_allowed inner =? 0 then true
    else if asize =? 0 then false
    else if (NVKVM_RING_MAX_AUX <? asize) || (NVKVM_RING_MAX_PARAM <? psize) then true
    else if negb (nvkvm_ctrl_list_entry_size inner =? 0) then true
    else if inner =? 0x00000101 then true
    else if (inner =? 0x00003d05) || (inner =? 0x00003d06) || (inner =? 0x00003d08) then true
    else inner =? 0x0080170d.

(** ** One record *)

(** [c_in]: the bytes the driver copies in. *)
Record call := Call { c_fd : Z; c_cmd : Z; c_param : list Z; c_in : list Z; c_aux : list Z }.
Record rresp := RResp { x_txn : Z; x_ret : Z; x_status : Z; x_flags : Z; x_param : list Z; x_aux : list Z }.

Definition punt (txn ret : Z) : rresp := RResp txn ret 0 NVKVM_RING_RESP_PUNT [] [].

Section Exec.
Context (lookup devof : Z -> Z) (va : Z) (k : kernel) (stack : list Z).

(** [stack] is what the 256 bytes of [param] held before; the first [psize] of
    them are overwritten and the next ones up to [_IOC_SIZE] zeroed. *)
Definition ring_exec_one (pay : list Z) : list call * option rresp :=
  if arr_len pay <? sizeof_req then ([], None)
  else
    let txn := rd 4 0 pay in
    let handle := rd 4 4 pay in
    let cmd := rd 4 8 pay in
    let psize := rd 4 12 pay in
    let asize := rd 4 16 pay in
    if (NVKVM_RING_MAX_PARAM <? psize) || (NVKVM_RING_MAX_AUX <? asize) || (arr_len pay <? sizeof_req + psize + asize)
    then ([], Some (punt txn (- EINVAL)))
    else
      let p := take (Z.to_nat psize) (drop (Z.to_nat sizeof_req) pay) in
      let a := take (Z.to_nat asize) (drop (Z.to_nat (sizeof_req + psize)) pay) in
      if NVKVM_RING_MAX_PARAM <? ioc_size cmd then ([], Some (punt txn 0))
      else
        let tl := replicate (Z.to_nat (ioc_size cmd - psize)) 0 ++ drop (Z.to_nat (Z.max psize (ioc_size cmd))) stack in
        if ring_ctrl_must_punt cmd p psize asize then ([], Some (punt txn 0))
        else
          let fd := lookup handle in
          if fd <? 0 then ([], Some (RResp txn (- EBADF) 0 0 [] []))
          else if negb (handle_type_matches_dev (devof handle) cmd) then ([], Some (RResp txn (- EPERM) 0 0 [] []))
          else
            let p := put8 16 (if 0 <? asize then va else 0) p in
            let p := clamp_inner_params_size TY_F 0x2a p asize in
            let '(ret, b, a') := stub_ioctl k fd cmd (p ++ tl) a in
            let q := take (Z.to_nat psize) b in
            let q := if 0 <? asize then put8 16 0 q else q in
            ([Call fd cmd p (take (Z.to_nat (ioc_size cmd)) (p ++ tl)) a],
             Some (RResp txn (if ret <? 0 then ret else s32 (u32 ret)) (rd 4 28 q) 0 q a')).

End Exec.

(** The worker's blob: at least [_IOC_SIZE] bytes, zero after the guest's. *)
Definition worker_driver (k : kernel) : driver := fun fd cmd p a =>
  let '(ret, b, a) := stub_ioctl k fd cmd (p ++ replicate (Z.to_nat (ioc_size cmd - arr_len p)) 0) a in
  (ret, take (length p) b, a).

(** ** Answering *)
Definition resp_bytes (r : rresp) : list Z :=
  le_bytes 4 (x_txn r) ++ le_bytes 4 (u32 (x_ret r)) ++ le_bytes 4 (x_status r) ++ le_bytes 4 (arr_len (x_param r)) ++
  le_bytes 4 (arr_len (x_aux r)) ++ le_bytes 4 (x_flags r) ++ x_param r ++ x_aux r.

(** The reservation against the heads the guest shows in turn; [None] when they
    run out, [inr] is the exit with code 141. *)
Fixpoint resp_reserve (r : Ring.nvkvm_ring) (cap payload : Z) (spin : Z) (heads : list Z)
    : option (Ring.nvkvm_ring * Z * Z + unit) :=
  match heads with
  | [] => None
  | h :: heads =>
      match Ring.nvkvm_ring_reserve (Ring.RingC (Ring.tail r) h (Ring.data r)) cap payload with
      | Some x => Some (inl x)
      | None => if NVKVM_RING_RESP_FULL_SPIN <=? spin then Some (inr tt) else resp_reserve r cap payload (spin + 1) heads
      end
  end.

Definition ring_write_resp (r : Ring.nvkvm_ring) (cap : Z) (heads : list Z) (x : rresp) : option (Ring.nvkvm_ring + unit) :=
  match resp_reserve r cap (sizeof_resp + arr_len (x_param x) + arr_len (x_aux x)) 0 heads with
  | None => None
  | Some (inr _) => Some (inr tt)
  | Some (inl (r, off, total)) =>
      let d := Ring.store_bytes (Ring.data r) off (resp_bytes x) in
      Some (inl (Ring.nvkvm_ring_commit (Ring.RingC (Ring.tail r) (Ring.head r) d) total))
  end.

(** ** The loop *)
Inductive poll := PollNone | PollDone | PollQuit.

(** What one turn meets: the request ring as [peek] sees it and as the record is
    copied, the handle table, the residue of the stack, the heads of the
    response ring, the control socket, the counters seen by the two [has_work],
    and the head that is read once more to be returned. *)
Record turn := Turn {
  t_obs : list Ring.view; t_mem : Ring.mem;
  t_lookup : Z -> Z; t_devof : Z -> Z; t_stack : list Z; t_space : list Z;
  t_poll : poll; t_work : Z * Z; t_last : Z * Z; t_ret : Z }.

Inductive event := EvExec (off len : Z) (cs : list call) | EvPoll.

(** [Stuck]: the turn's observations do not let an inner loop finish. *)
Inductive stop := Returned (head : Z) | Exited (code : Z) | Stuck.

Record lst := Lst { l_idle : Z; l_since : Z; l_resp : Ring.nvkvm_ring }.

Definition works (w : Z * Z) : bool := Ring.nvkvm_ring_has_work (Ring.RingC (fst w) (snd w) ∅).

Section Loop.
Context (cap va : Z) (k : kernel).

Definition polled (t : turn) (s : lst) (ev : list event) : list event * (lst + stop) :=
  match t_poll t with
  | PollQuit => (ev ++ [EvPoll], inr (Exited 0))
  | _ => (ev ++ [EvPoll], inl s)
  end.

Definition exec_turn (t : turn) (s : lst) (off len : Z) : list event * (lst + stop) :=
  let '(cs, r) := ring_exec_one (t_lookup t) (t_devof t) va k (t_stack t) (Ring.load_bytes (t_mem t) off len) in
  let ev := [EvExec off len cs] in
  match (match r with None => Some (inl (l_resp s)) | Some x => ring_write_resp (l_resp s) cap (t_space t) x end) with
  | None => (ev, inr Stuck)
  | Some (inr _) => (ev, inr (Exited 141))
  | Some (inl rr) =>
      let since := l_since s + 1 in
      if NVKVM_RING_SOCKET_POLL_EVERY <=? since then polled t (Lst 0 0 rr) ev
      else (ev, inl (Lst 0 since rr))
  end.

Definition idle_turn (budget : Z) (t : turn) (s : lst) : list event * (lst + stop) :=
  match polled t (Lst (l_idle s) 0 (l_resp s)) [] with
  | (ev, inr x) => (ev, inr x)
  | (ev, inl s) =>
      if works (t_work t) then (ev, inl (Lst 0 0 (l_resp s)))
      else
        let idle := l_idle s + 1 in
        if budget <=? idle then
          if works (t_last t) then (ev, inl (Lst 0 0 (l_resp s))) else (ev, inr (Returned (t_ret t)))
        else (ev, inl (Lst idle 0 (l_resp s)))
  end.

Definition one_turn (budget : Z) (t : turn) (s : lst) : list event * (lst + stop) :=
  match snd (Ring.nvkvm_ring_peek_obs cap (t_obs t)) with
  | None => ([], inr Stuck)
  | Some (Ring.POk off len _) => exec_turn t s off len
  | Some Ring.PBad => ([], inr (Exited 140))
  | Some Ring.PEmpty => idle_turn budget t s
  end.

Fixpoint turns (budget : Z) (ts : list turn) (s : lst) : list event * (lst + stop) :=
  match ts with
  | [] => ([], inl s)
  | t :: ts =>
      match one_turn budget t s with
      | (ev, inr x) => (ev, inr x)
      | (ev, inl s) => let '(ev', r) := turns budget ts s in (ev ++ ev', r)
      end
  end.

Definition idle_budget (idle_us : Z) : Z :=
  let b := if idle_us =? 0 then NVKVM_RING_IDLE_DEFAULT else idle_us in
  if NVKVM_RING_IDLE_MAX <? b then NVKVM_RING_IDLE_MAX else b.

Definition ring_consumer_loop (idle_us : Z) (resp : Ring.nvkvm_ring) (ts : list turn) : list event * (lst + stop) :=
  turns (idle_budget idle_us) ts (Lst 0 0 resp).

End Loop.

(** ** Accepting the ring *)
Record setup := Setup { s_region : Z; s_req_off : Z; s_resp_off : Z; s_ring_bytes : Z }.

(** [fd]: a well-formed SCM_RIGHTS came along; [full]: the message is the whole
    structure; [have]: a ring is already mapped; [mapped]: the mapping succeeded.
    The result is the error, or the accepted ring. *)
Definition ring_geometry_ok (c : setup) : bool :=
  Ring.nvkvm_ring_size_ok (s_ring_bytes c) && (s_req_off c =? 0) &&
  (s_resp_off c =? u32 (Ring.nvkvm_ring_resp_off (s_ring_bytes c))) &&
  negb (s_region c <? u32 (Ring.nvkvm_ring_region_size (s_ring_bytes c))) &&
  negb (Z.shiftl 16 20 <? s_region c).

Definition handle_setup_ring (c : setup) (fd full have mapped : bool) : Z + setup :=
  if negb fd then inl (- EINVAL)
  else if negb full || have then inl (- EINVAL)
  else if negb (ring_geometry_ok c) then inl (- EINVAL)
  else if negb mapped then inl (- ENOMEM)
  else inr c.

(** ** A flat control is the same job for the worker *)
Lemma ptr_off_ctrl cmd psize asize :
  ioc_type cmd = TY_F -> ioc_nr cmd = 0x2a -> 24 <= psize -> ptr_off cmd psize asize = Some 16.
Proof.
  intros Ht Hn Hp. unfold ptr_off. cbv zeta. rewrite Ht, Hn.
  assert (cmd <> NVKVM_NVKMS_IOCTL_CMD) as Hk by (intros ->; done).
  rewrite (proj2 (Z.eqb_neq _ _) Hk). cmd_dec. by rewrite (proj2 (Z.leb_le _ _)) by lia.
Qed.

Lemma outer_ctrl va cmd p a :
  ioc_type cmd = TY_F -> ioc_nr cmd = 0x2a -> 24 <= arr_len p ->
  outer va cmd p a = clamp_inner_params_size TY_F 0x2a (put8 16 (if 0 <? arr_len a then va else 0) p) (arr_len a).
Proof.
  intros Ht Hn Hp. unfold outer. rewrite fence_id, Ht, Hn, rights_id by done.
  unfold wire_ptr. by rewrite ptr_off_ctrl by done.
Qed.

(** Not a command with pointers or descriptors inside its parameters. *)
Definition flat (inner : Z) : Prop :=
  nvkvm_ctrl_list_entry_size inner = 0 /\ inner ∉ [0x00000101; 0x00003d05; 0x00003d06; 0x00003d08; 0x0080170d].

Lemma ctrl_flat lookup va cmd p a :
  arr_len a = 0 \/ flat (rd 4 8 p) /\ rd 4 8 p <> 0x00000202 ->
  ctrl_inner lookup va cmd p a = Some (a, 0, 0, 0, None).
Proof.
  intros H. unfold ctrl_inner. case_if; [|done]. destruct H as [H|[[He Hx] H2]]; [zb; lia|]. cbv zeta.
  rewrite info_id by done. rewrite !not_elem_of_cons in Hx. destruct Hx as (X1 & X2 & X3 & X4 & X5 & _).
  by rewrite (proj2 (Z.eqb_neq _ _) X1), (proj2 (Z.eqb_neq _ _) X2), (proj2 (Z.eqb_neq _ _) X3),
    (proj2 (Z.eqb_neq _ _) X4), (proj2 (Z.eqb_neq _ _) X5), (proj2 (Z.eqb_neq _ _) H2).
Qed.

Lemma rd_outer_inner va cmd p a :
  ioc_type cmd = TY_F -> ioc_nr cmd = 0x2a -> 28 <= arr_len p -> rd 4 8 (outer va cmd p a) = rd 4 8 p.
Proof.
  intros Ht Hn Hp. rewrite outer_ctrl by (try done; lia). set (w := put8 _ _ p).
  assert (arr_len w = arr_len p) as Hl by (apply put8_len; lia).
  rewrite (rd_clamp_out 4 8 _ _ _ _ 24); [by apply rd_put8_out; lia|lia| |lia].
  unfold clamp_off. cmd_dec. by rewrite (proj2 (Z.leb_le _ _)) by lia.
Qed.

Lemma prepare_flat lookup va abi cmd p a :
  ioc_type cmd = TY_F -> ioc_nr cmd = 0x2a -> 28 <= arr_len p ->
  arr_len a = 0 \/ flat (rd 4 8 p) /\ rd 4 8 p <> 0x00000202 ->
  prepare lookup va abi cmd p a = Some (outer va cmd p a, a, saved0).
Proof.
  intros Ht Hn Hp Hf. unfold prepare. cbv zeta.
  assert (cmd <> NVKVM_NVKMS_IOCTL_CMD) as Hk by (intros ->; done).
  unfold reg_surface. rewrite (proj2 (Z.eqb_neq _ _) Hk). cbn [andb].
  unfold drm_export. rewrite Ht. cbn [Z.eqb Pos.eqb andb TY_F TY_d].
  rewrite ctrl_flat by by rewrite rd_outer_inner.
  rewrite uvm_none by by rewrite Ht. rewrite idle_id by (right; by rewrite Hn).
  rewrite fe_id by (apply fe_off_none; right; rewrite Hn; set_solver).
  unfold event_fd. by rewrite Ht, Hn.
Qed.

Lemma punt_false cmd p psize asize :
  ring_ctrl_must_punt cmd p psize asize = false ->
  ioc_type cmd = TY_F /\ ioc_nr cmd = 0x2a /\ 32 <= psize /\ RmGates.nvkvm_ctrl_cmd_allowed (rd 4 8 p) <> 0 /\
  (asize = 0 \/ flat (rd 4 8 p)).
Proof.
  unfold ring_ctrl_must_punt. intros H. case_if_in H; [done|]. rewrite !orb_false_iff, !negb_false_iff in E.
  destruct E as [[T%Z.eqb_eq N%Z.eqb_eq] P%Z.ltb_ge]. cbv zeta in H.
  destruct (Z.eqb_spec (RmGates.nvkvm_ctrl_cmd_allowed (rd 4 8 p)) 0) as [|HA]; [done|]. split_and!; try done.
  destruct (Z.eqb_spec asize 0); [by left|]. right.
  destruct (_ || _); [done|]. destruct (Z.eqb_spec (nvkvm_ctrl_list_entry_size (rd 4 8 p)) 0) as [He|]; [|done]. cbn [negb] in H.
  destruct (Z.eqb_spec (rd 4 8 p) 0x00000101); [done|]. case_if_in H; [done|]. rewrite !orb_false_iff, !Z.eqb_neq in E.
  apply Z.eqb_neq in H. split; [done|]. set_solver.
Qed.

Definition kernel_ok (k : kernel) : Prop := forall fd cmd b a,
  length (snd (fst (k fd cmd b a))) = length b /\ length (snd (k fd cmd b a)) = length a.

(** Bytes beyond the copied ones and beyond the guest's do not matter. *)
Lemma ioctl_tail k fd cmd p z1 z2 a :
  kernel_ok k -> ioc_size cmd <= arr_len p + arr_len z1 ->
  let r1 := stub_ioctl k fd cmd (p ++ z1 ++ z2) a in
  let r2 := stub_ioctl k fd cmd (p ++ z1) a in
  fst (fst r1) = fst (fst r2) /\ take (length p) (snd (fst r1)) = take (length p) (snd (fst r2)) /\ snd r1 = snd r2 /\
  length (take (length p) (snd (fst r1))) = length p /\ length (snd r1) = length a.
Proof.
  intros Hk Hs. cbv zeta. unfold stub_ioctl. unfold arr_len in Hs. set (n := Z.to_nat (ioc_size cmd)).
  assert (n <= length (p ++ z1))%nat as Hn by (rewrite length_app; lia). rewrite app_assoc.
  rewrite take_app_le by done. pose proof (Hk fd cmd (take n (p ++ z1)) a) as [Hq Ha].
  destruct (k fd cmd (take n (p ++ z1)) a) as [[ret q] a']. cbn [fst snd] in *. rewrite length_take in Hq.
  split; [done|]. rewrite drop_app_le by done. rewrite app_assoc. rewrite length_app in *.
  assert (length p <= length (q ++ drop n (p ++ z1)))%nat as Hl by (rewrite length_app, length_drop, length_app; lia).
  rewrite take_app_le by done. split_and!; [done|done|rewrite length_take; lia|done].
Qed.

(** The parts of a record. *)
Definition q_psize (pay : list Z) : Z := rd 4 12 pay.
Definition q_asize (pay : list Z) : Z := rd 4 16 pay.
Definition q_param (pay : list Z) : list Z := take (Z.to_nat (q_psize pay)) (drop (Z.to_nat sizeof_req) pay).
Definition q_aux (pay : list Z) : list Z := take (Z.to_nat (q_asize pay)) (drop (Z.to_nat (sizeof_req + q_psize pay)) pay).
Definition fits (pay : list Z) : Prop :=
  sizeof_req + q_psize pay + q_asize pay <= arr_len pay /\
  q_psize pay <= NVKVM_RING_MAX_PARAM /\ q_asize pay <= NVKVM_RING_MAX_AUX.

Lemma record_sizes pay : Forall byte pay -> fits pay ->
  arr_len (q_param pay) = q_psize pay /\ arr_len (q_aux pay) = q_asize pay /\ 0 <= q_psize pay /\ 0 <= q_asize pay.
Proof.
  intros Hb (Hl & _). pose proof (rd_range 4 12 pay Hb). pose proof (rd_range 4 16 pay Hb).
  unfold q_param, q_aux, sizeof_req, arr_len, q_psize, q_asize in *. rewrite !length_take, !length_drop. lia.
Qed.

(** A record of the right size that is not handed back. *)
Lemma exec_unfold lookup devof va k stack pay :
  fits pay -> 0 <= q_psize pay -> 0 <= q_asize pay -> ioc_size (rd 4 8 pay) <= NVKVM_RING_MAX_PARAM ->
  ring_ctrl_must_punt (rd 4 8 pay) (q_param pay) (q_psize pay) (q_asize pay) = false ->
  let txn := rd 4 0 pay in let handle := rd 4 4 pay in let cmd := rd 4 8 pay in
  let psize := q_psize pay in let asize := q_asize pay in
  let tl := replicate (Z.to_nat (ioc_size cmd - psize)) 0 ++ drop (Z.to_nat (Z.max psize (ioc_size cmd))) stack in
  ring_exec_one lookup devof va k stack pay =
    if lookup handle <? 0 then ([], Some (RResp txn (- EBADF) 0 0 [] []))
    else if negb (handle_type_matches_dev (devof handle) cmd) then ([], Some (RResp txn (- EPERM) 0 0 [] []))
    else
      let p := put8 16 (if 0 <? asize then va else 0) (q_param pay) in
      let p := clamp_inner_params_size TY_F 0x2a p asize in
      let '(ret, b, a') := stub_ioctl k (lookup handle) cmd (p ++ tl) (q_aux pay) in
      let q := take (Z.to_nat psize) b in
      let q := if 0 <? asize then put8 16 0 q else q in
      ([Call (lookup handle) cmd p (take (Z.to_nat (ioc_size cmd)) (p ++ tl)) (q_aux pay)],
       Some (RResp txn (if ret <? 0 then ret else s32 (u32 ret)) (rd 4 28 q) 0 q a')).
Proof.
  intros (Hl & Hp & Ha) P0 A0 Hi Hm. cbv zeta. unfold ring_exec_one. cbv zeta.
  rewrite (proj2 (Z.ltb_ge (arr_len pay) sizeof_req)) by lia.
  fold (q_psize pay) (q_asize pay). fold (q_param pay) (q_aux pay).
  rewrite (proj2 (Z.ltb_ge _ (q_psize pay))), (proj2 (Z.ltb_ge _ (q_asize pay))), (proj2 (Z.ltb_ge (arr_len pay) _)) by done.
  cbn [orb]. rewrite (proj2 (Z.ltb_ge _ (ioc_size _))) by done. by rewrite Hm.
Qed.

Definition of_resp (txn : Z) (r : resp) : rresp := RResp txn (retval r) (r_status r) 0 (r_param r) (r_aux r).

Lemma nvstatus_ctrl abi cmd q : ioc_type cmd = TY_F -> ioc_nr cmd = 0x2a -> 32 <= arr_len q -> nvstatus abi cmd q = rd 4 28 q.
Proof.
  intros Ht Hn Hq. unfold nvstatus, status_off. rewrite Ht, Hn. cbn [Z.eqb Pos.eqb TY_F].
  change (u32 (28 + 4)) with 32. by rewrite (proj2 (Z.leb_le _ _)).
Qed.

Lemma finish_ctrl cmd q asize :
  ioc_type cmd = TY_F -> 24 <= arr_len q -> finish_param cmd saved0 q asize = if 0 <? asize then put8 16 0 q else q.
Proof.
  intros Ht Hq. unfold finish_param. cbn [put_back saved0 uvm_fd fe_fd]. unfold ptr_zero.
  assert (cmd <> NVKVM_NVKMS_IOCTL_CMD) as Hk by (intros ->; done).
  rewrite (proj2 (Z.eqb_neq _ _) Hk), Ht. cbn [Z.eqb Pos.eqb TY_F TY_d andb orb]. rewrite andb_false_r.
  rewrite (proj2 (Z.leb_le 24 _)) by done. by rewrite andb_true_r.
Qed.

(** C21: the fast path answers as the slow path.  A record of the ring that is
    executed where it stands, other than GPU_GET_ID_INFO, gets exactly the
    answer the same command gets from the worker: the same error, or the same
    result, status and blobs of the same driver call, whatever the stack held. *)
Theorem ring_matches_worker lookup devof va k stack pay :
  kernel_ok k -> Forall byte pay -> fits pay -> ioc_size (rd 4 8 pay) <= NVKVM_RING_MAX_PARAM ->
  ring_ctrl_must_punt (rd 4 8 pay) (q_param pay) (q_psize pay) (q_asize pay) = false ->
  q_asize pay = 0 \/ rd 4 8 (q_param pay) <> 0x00000202 ->
  snd (ring_exec_one lookup devof va k stack pay) =
  Some (of_resp (rd 4 0 pay)
    (run_job lookup devof va (worker_driver k) (rd 4 4 pay) (rd 4 8 pay) (rd 4 20 pay) (q_param pay) (q_aux pay))).
Proof.
  intros Hk Hb Hf Hi Hm Hx. destruct (record_sizes pay Hb Hf) as (Lp & La & P0 & A0).
  destruct (punt_false _ _ _ _ Hm) as (Ht & Hn & H32 & _ & Hfl).
  rewrite exec_unfold by done. cbv zeta. unfold run_job, run_job_on. cbv zeta.
  destruct (lookup (rd 4 4 pay) <? 0); [done|]. destruct (handle_type_matches_dev _ _); [|done]. cbn [negb].
  rewrite prepare_flat by (try done; try lia; rewrite La; tauto).
  rewrite <- La, <- (outer_ctrl va (rd 4 8 pay)) by (try done; lia). set (p1 := outer va (rd 4 8 pay) (q_param pay) (q_aux pay)).
  assert (arr_len p1 = q_psize pay) as L1 by (unfold p1; rewrite outer_len; done).
  unfold worker_driver. rewrite L1.
  assert (length p1 = Z.to_nat (q_psize pay)) as Ln by (unfold arr_len in L1; lia). rewrite Ln.
  pose proof (ioctl_tail k (lookup (rd 4 4 pay)) (rd 4 8 pay) p1 (replicate (Z.to_nat (ioc_size (rd 4 8 pay) - q_psize pay)) 0)
    (drop (Z.to_nat (Z.max (q_psize pay) (ioc_size (rd 4 8 pay)))) stack) (q_aux pay) Hk) as Hio.
  rewrite Ln in Hio. cbv zeta in Hio.
  destruct (stub_ioctl k _ _ (p1 ++ _ ++ _) _) as [[r1 b1] a1].
  destruct (stub_ioctl k _ _ (p1 ++ replicate _ 0) _) as [[r2 b2] a2]. cbn [fst snd] in *.
  destruct Hio as (-> & Eb & -> & Lb & Lx); [unfold arr_len in *; rewrite length_replicate; lia|]. rewrite Eb in Lb |- *.
  set (q := take _ b2) in *. assert (arr_len q = q_psize pay) as Lq by (unfold arr_len; lia).
  assert (arr_len a2 = arr_len (q_aux pay)) as -> by (unfold arr_len; lia).
  rewrite finish_ctrl by (try done; lia). rewrite nvstatus_ctrl; [done|done|done|].
  case_if; [rewrite put8_len by lia|]; lia.
Qed.

(** ** What a record makes the driver do *)
Lemma exec_call lookup devof va k stack pay c cs r :
  Forall byte pay -> ring_exec_one lookup devof va k stack pay = (c :: cs, r) ->
  fits pay /\ ioc_size (rd 4 8 pay) <= NVKVM_RING_MAX_PARAM /\
  ring_ctrl_must_punt (rd 4 8 pay) (q_param pay) (q_psize pay) (q_asize pay) = false /\
  0 <= lookup (rd 4 4 pay) /\ handle_type_matches_dev (devof (rd 4 4 pay)) (rd 4 8 pay) = true.
Proof.
  intros Hb H. pose proof (rd_range 4 12 pay Hb) as P0. pose proof (rd_range 4 16 pay Hb) as A0.
  revert H. unfold ring_exec_one. cbv zeta. fold (q_psize pay) (q_asize pay) in *. fold (q_param pay) (q_aux pay).
  intros H. case_if_in H; [done|]. destruct ((_ <? q_psize pay) || _ || _) eqn:Ef; [done|].
  rewrite !orb_false_iff, !Z.ltb_ge in Ef. destruct (Z.ltb_spec NVKVM_RING_MAX_PARAM (ioc_size (rd 4 8 pay))); [done|].
  destruct (ring_ctrl_must_punt _ _ _ _); [done|]. destruct (Z.ltb_spec (lookup (rd 4 4 pay)) 0); [done|].
  destruct (handle_type_matches_dev _ _); [|done]. unfold fits. split_and!; try done; tauto.
Qed.

Lemma flat_sealed va cmd p a :
  0 < va -> va + arr_len a < W64 -> arr_len a < W32 -> ioc_type cmd = TY_F -> ioc_nr cmd = 0x2a -> 32 <= arr_len p ->
  arr_len a = 0 \/ flat (rd 4 8 p) -> rd 4 8 p <> 0x00000202 -> sealed va cmd (outer va cmd p a) a.
Proof.
  intros Hv Hw Ha Ht Hn Hp Hf Hx. assert (rd 4 8 (outer va cmd p a) = rd 4 8 p) as Hi by (apply rd_outer_inner; try done; lia).
  constructor; rewrite ?outer_len, ?Ht, ?Hn, ?Hi; try done.
  - intros _ _ _. apply ctrl_sealed; try done; lia.
  - intros [->|[? _]]; done.
  - intros _ _ He Hl. exfalso. destruct Hf as [Hf|[Hf _]]; [lia|done].
  - intros _ _ He Hl. exfalso. destruct Hf as [Hf|[_ Hf]]; [lia|]. rewrite He in Hf. set_solver.
  - intros _ _ He Hl. exfalso. destruct Hf as [Hf|[_ Hf]]; [lia|]. rewrite He in Hf. set_solver.
Qed.

(** What a guest can make the driver do through the ring.  A record leads to
    at most one driver call and then to an answer that does not claim it was
    skipped.  The call goes to the descriptor of a handle open on the control
    device or a GPU; its inner command is on the control allowlist; the driver
    copies at most the 256 bytes of the local buffer, and what it copies is the
    record's parameters followed by zeros, nothing that was on the stack; and
    except for GPU_GET_ID_INFO every pointer in it is null or in the stub's
    own copy of the auxiliary blob, with its length. *)
Theorem ring_call_sealed lookup devof va k stack pay c cs r :
  Forall byte pay -> 0 < va -> va + NVKVM_RING_MAX_AUX < W64 ->
  ring_exec_one lookup devof va k stack pay = (c :: cs, r) ->
  cs = [] /\ (exists x, r = Some x /\ x_flags x = 0 /\ x_txn x = rd 4 0 pay) /\
  c_fd c = lookup (rd 4 4 pay) /\ 0 <= c_fd c /\ handle_type_matches_dev (devof (rd 4 4 pay)) (c_cmd c) = true /\
  ioc_type (c_cmd c) = TY_F /\ RmGates.nvkvm_ctrl_cmd_allowed (rd 4 8 (c_param c)) <> 0 /\
  arr_len (c_in c) <= NVKVM_RING_MAX_PARAM /\
  c_in c = take (Z.to_nat (ioc_size (c_cmd c))) (c_param c ++ replicate (Z.to_nat NVKVM_RING_MAX_PARAM) 0) /\
  (rd 4 8 (c_param c) <> 0x00000202 -> sealed va (c_cmd c) (c_param c) (c_aux c)).
Proof.
  intros Hb Hv Hw H. destruct (exec_call _ _ _ _ _ _ _ _ _ Hb H) as (Hf & Hi & Hm & Hl & Hd).
  destruct (record_sizes pay Hb Hf) as (Lp & La & P0 & A0). pose proof Hf as (_ & HP & HA).
  destruct (punt_false _ _ _ _ Hm) as (Ht & Hn & H32 & Hal & Hfl).
  rewrite exec_unfold in H by done. cbv zeta in H. rewrite (proj2 (Z.ltb_ge _ _) Hl), Hd in H. cbn [negb] in H.
  rewrite <- La, <- (outer_ctrl va (rd 4 8 pay)) in H by (try done; lia).
  set (p1 := outer va (rd 4 8 pay) (q_param pay) (q_aux pay)) in *.
  assert (arr_len p1 = q_psize pay) as L1 by (unfold p1; rewrite outer_len; done).
  assert (rd 4 8 p1 = rd 4 8 (q_param pay)) as Hin by (apply rd_outer_inner; try done; lia).
  destruct (stub_ioctl k _ _ _ _) as [[ret b] a']. apply pair_equal_spec in H as [Hc <-].
  apply (f_equal (fun l => (head l, tail l))) in Hc. cbn [head tail] in Hc. apply pair_equal_spec in Hc as [Hc <-].
  assert (c = Call (lookup (rd 4 4 pay)) (rd 4 8 pay) p1
    (take (Z.to_nat (ioc_size (rd 4 8 pay))) (p1 ++ replicate (Z.to_nat (ioc_size (rd 4 8 pay) - q_psize pay)) 0 ++
       drop (Z.to_nat (Z.max (q_psize pay) (ioc_size (rd 4 8 pay)))) stack)) (q_aux pay)) as -> by congruence.
  cbn [c_fd c_cmd c_param c_in c_aux]. rewrite Hin.
  unfold NVKVM_RING_MAX_PARAM, NVKVM_RING_MAX_AUX in *. split; [done|]. split; [by eexists|].
  split; [done|]. split; [done|]. split; [done|]. split; [done|]. split; [done|]. split; [|split].
  - unfold arr_len. rewrite length_take. lia.
  - set (n := Z.to_nat (ioc_size (rd 4 8 pay))). rewrite app_assoc.
    replace (replicate (Z.to_nat 256) 0)
      with (replicate (Z.to_nat (ioc_size (rd 4 8 pay) - q_psize pay)) 0 ++
            replicate (256 - Z.to_nat (ioc_size (rd 4 8 pay) - q_psize pay)) 0)
      by (rewrite <- replicate_add; f_equal; lia).
    rewrite (app_assoc p1 _ (replicate (_ - _) 0)). unfold arr_len in *.
    etransitivity; [|symmetry]; apply take_app_le; rewrite length_app, length_replicate; lia.
  - intros Hx. apply flat_sealed; try done; try lia. rewrite La. done.
Qed.

(** A record that was handed back did not reach the driver. *)
Theorem ring_punt_not_executed lookup devof va k stack pay cs x :
  Forall byte pay -> 0 < va -> va + NVKVM_RING_MAX_AUX < W64 ->
  ring_exec_one lookup devof va k stack pay = (cs, Some x) -> x_flags x = NVKVM_RING_RESP_PUNT -> cs = [].
Proof.
  intros Hb Hv Hw H Hx. destruct cs as [|c cs]; [done|]. exfalso.
  destruct (exec_call _ _ _ _ _ _ _ _ _ Hb H) as (Hf & Hi & Hm & Hl & Hd).
  destruct (record_sizes pay Hb Hf) as (_ & _ & P0 & A0). rewrite exec_unfold in H by done. cbv zeta in H.
  rewrite (proj2 (Z.ltb_ge _ _) Hl), Hd in H. cbn [negb] in H. destruct (stub_ioctl k _ _ _ _) as [[ret b] a'].
  apply pair_equal_spec in H as [_ H]. apply (f_equal (fmap x_flags)) in H. cbn in H. rewrite Hx in H. done.
Qed.

(** ** The loop against any guest *)
Definition call_ok (va : Z) (c : call) : Prop :=
  0 <= c_fd c /\ ioc_type (c_cmd c) = TY_F /\ RmGates.nvkvm_ctrl_cmd_allowed (rd 4 8 (c_param c)) <> 0 /\
  arr_len (c_in c) <= NVKVM_RING_MAX_PARAM /\
  (rd 4 8 (c_param c) <> 0x00000202 -> sealed va (c_cmd c) (c_param c) (c_aux c)).

Definition event_ok (cap va : Z) (e : event) : Prop :=
  match e with
  | EvExec off len cs => 8 <= off /\ 0 <= len /\ off + len <= cap /\ (length cs <= 1)%nat /\ Forall (call_ok va) cs
  | EvPoll => True
  end.

(** At most 64 records in a row, [n] before the first event. *)
Fixpoint bursts (n : Z) (evs : list event) : Prop :=
  match evs with
  | [] => True
  | EvExec _ _ _ :: evs => n + 1 <= NVKVM_RING_SOCKET_POLL_EVERY /\ bursts (n + 1) evs
  | EvPoll :: evs => bursts 0 evs
  end.

Record turn_ok (t : turn) : Prop := {
  to_obs : Forall Ring.view_ok (t_obs t);
  to_mem : forall x, byte (Ring.get (t_mem t) x) }.

Section LoopFacts.
Context (cap va : Z) (k : kernel) (Hcap : 0 <= cap < W64) (Hv : 0 < va) (Hw : va + NVKVM_RING_MAX_AUX < W64).

Lemma exec_one_ok lookup devof stack pay :
  Forall byte pay ->
  let cs := fst (ring_exec_one lookup devof va k stack pay) in (length cs <= 1)%nat /\ Forall (call_ok va) cs.
Proof.
  intros Hb. cbv zeta. destruct (ring_exec_one lookup devof va k stack pay) as [[|c cs] r] eqn:E; cbn [fst]; [split; [simpl; lia|constructor]|].
  destruct (ring_call_sealed _ _ _ _ _ _ _ _ _ Hb Hv Hw E) as (-> & _ & _ & H1 & _ & H2 & H3 & H4 & _ & H5).
  split; [done|]. constructor; [|done]. done.
Qed.

Lemma load_byte m off len : (forall x, byte (Ring.get m x)) -> Forall byte (Ring.load_bytes m off len).
Proof. intros H. unfold Ring.load_bytes. apply Forall_fmap, Forall_forall. intros x _. apply H. Qed.

(** The state a turn leaves counts the records since the last poll. *)
Definition turn_safe (n : Z) (r : list event * (lst + stop)) : Prop :=
  Forall (event_ok cap va) (fst r) /\ bursts n (fst r) /\
  match snd r with
  | inl s => 0 <= l_since s < NVKVM_RING_SOCKET_POLL_EVERY /\ forall evs, bursts (l_since s) evs -> bursts n (fst r ++ evs)
  | inr _ => True
  end.

Lemma exec_turn_safe t s off len :
  turn_ok t -> 0 <= l_since s < NVKVM_RING_SOCKET_POLL_EVERY -> 8 <= off -> 0 <= len -> off + len <= cap ->
  turn_safe (l_since s) (exec_turn cap va k t s off len).
Proof.
  intros Ht Hs H1 H2 H3. unfold exec_turn.
  pose proof (exec_one_ok (t_lookup t) (t_devof t) (t_stack t) _ (load_byte _ off len (to_mem _ Ht))) as [Hl Hc].
  destruct (ring_exec_one _ _ _ _ _ _) as [cs r]. cbn [fst] in *.
  assert (event_ok cap va (EvExec off len cs)) as He by done. unfold NVKVM_RING_SOCKET_POLL_EVERY in *.
  assert (l_since s + 1 <= 64) as H64 by lia.
  destruct (match r with None => _ | Some x => _ end) as [[rr|]|]; [|by split; [constructor|]..].
  unfold polled. destruct (Z.leb_spec 64 (l_since s + 1)).
  - assert (Forall (event_ok cap va) ([EvExec off len cs] ++ [EvPoll])) by (constructor; [exact He|by repeat constructor]).
    destruct (t_poll t); split; try done; split; try done; cbn; split; try done; intros evs Hb; done.
  - split; [by constructor|]. split; [done|]. cbn [snd fst l_since]. split; [unfold NVKVM_RING_SOCKET_POLL_EVERY; lia|]. intros evs Hb. done.
Qed.

Lemma one_turn_safe budget t s :
  turn_ok t -> 0 <= l_since s < NVKVM_RING_SOCKET_POLL_EVERY -> turn_safe (l_since s) (one_turn cap va k budget t s).
Proof.
  intros Ht Hs. unfold one_turn.
  destruct (Ring.nvkvm_ring_peek_obs cap (t_obs t)) as [acts [[|off len total|]|]] eqn:E; cbn [snd]; [| |by split; [constructor|]..].
  2: { destruct (Ring.peek_obs_in _ _ _ _ _ _ Hcap (to_obs _ Ht) E) as (? & ? & ? & _).
       by apply exec_turn_safe. }
  unfold idle_turn, polled.
  assert (forall s', l_since s' = 0 -> turn_safe (l_since s) ([EvPoll], inl s')) as Hp.
  { intros s' E0. split; [by constructor|]. split; [done|]. cbn [snd fst]. rewrite E0. split; [done|]. done. }
  destruct (t_poll t); cbn [app]; [..|by split; [constructor|]];
    repeat case_if; try (by apply Hp); by split; [constructor|].
Qed.

Lemma turns_safe budget ts : forall s,
  Forall turn_ok ts -> 0 <= l_since s < NVKVM_RING_SOCKET_POLL_EVERY -> turn_safe (l_since s) (turns cap va k budget ts s).
Proof.
  induction ts as [|t ts IH]; intros s Ht Hs; cbn [turns]; [split; [constructor|]; done|].
  apply Forall_cons in Ht as [Ht Hts]. pose proof (one_turn_safe budget t s Ht Hs) as H1.
  destruct (one_turn cap va k budget t s) as [ev [s'|x]]; [|done]. destruct H1 as (F1 & _ & Hs' & B1). cbn [snd fst] in *.
  pose proof (IH s' Hts Hs') as H2. destruct (turns cap va k budget ts s') as [ev' r]. destruct H2 as (F2 & B2 & R2).
  split; [by apply Forall_app|]. cbn [snd fst] in *. split; [by apply B1|].
  destruct r as [s2|]; [|done]. destruct R2 as [R2 R3]. split; [done|]. intros evs Hb. rewrite <- app_assoc. by apply B1, R3.
Qed.

End LoopFacts.

Section LoopEnd.
Context (cap va : Z) (k : kernel).

(** A turn that finds nothing to do. *)
Definition quiet (t : turn) : Prop :=
  snd (Ring.nvkvm_ring_peek_obs cap (t_obs t)) = Some Ring.PEmpty /\
  t_poll t <> PollQuit /\ works (t_work t) = false /\ works (t_last t) = false.

Lemma quiet_turn budget t s : quiet t ->
  one_turn cap va k budget t s =
  ([EvPoll], if budget <=? l_idle s + 1 then inr (Returned (t_ret t)) else inl (Lst (l_idle s + 1) 0 (l_resp s))).
Proof.
  intros (Hp & Hq & H1 & H2). unfold one_turn. rewrite Hp. unfold idle_turn, polled.
  destruct (t_poll t); [..|done]; cbn [app l_idle l_resp]; rewrite H1; destruct (budget <=? l_idle s + 1); rewrite ?H2; done.
Qed.

Lemma quiet_turns budget ts : forall s,
  Forall quiet ts -> 0 <= l_idle s -> l_idle s < budget -> budget <= l_idle s + Z.of_nat (length ts) ->
  exists ev h, turns cap va k budget ts s = (ev, inr (Returned h)).
Proof.
  induction ts as [|t ts IH]; intros s Hq H0 Hb Hl; cbn [length] in Hl; [lia|].
  apply Forall_cons in Hq as [Ht Hts]. cbn [turns]. rewrite quiet_turn by done.
  destruct (Z.leb_spec budget (l_idle s + 1)); [by do 2 eexists|].
  destruct (IH (Lst (l_idle s + 1) 0 (l_resp s)) Hts) as (ev & h & ->); cbn [l_idle]; [lia..|]. by do 2 eexists.
Qed.

Lemma turns_app budget ts1 : forall ts2 s,
  turns cap va k budget (ts1 ++ ts2) s =
  match turns cap va k budget ts1 s with
  | (ev, inr x) => (ev, inr x)
  | (ev, inl s) => let '(ev', r) := turns cap va k budget ts2 s in (ev ++ ev', r)
  end.
Proof.
  induction ts1 as [|t ts1 IH]; intros ts2 s; cbn [turns app]; [by destruct (turns cap va k budget ts2 s)|].
  destruct (one_turn cap va k budget t s) as [ev [s'|x]]; [|done]. rewrite IH.
  destruct (turns cap va k budget ts1 s') as [ev1 [s1|x1]]; [|done].
  destruct (turns cap va k budget ts2 s1). by rewrite app_assoc.
Qed.

Lemma polled_idle t s ev : forall ev' r, polled t s ev = (ev', r) -> r = inl s \/ r = inr (Exited 0).
Proof. unfold polled. intros ev' r H. destruct (t_poll t); injection H as _ <-; auto. Qed.

(** The idle count stays below the budget, and the loop returns only when the
    last check saw an empty ring. *)
Lemma turns_idle budget ts : forall s ev r,
  0 < budget -> 0 <= l_idle s < budget -> turns cap va k budget ts s = (ev, r) ->
  match r with
  | inl s' => 0 <= l_idle s' < budget
  | inr (Returned h) => exists t, t ∈ ts /\ fst (t_last t) = snd (t_last t) /\ h = t_ret t
  | inr _ => True
  end.
Proof.
  induction ts as [|t ts IH]; intros s ev r Hb Hs H; cbn [turns] in H; [by injection H as <- <-|].
  assert (match snd (one_turn cap va k budget t s) with
          | inl s' => 0 <= l_idle s' < budget | inr (Returned h) => fst (t_last t) = snd (t_last t) /\ h = t_ret t | inr _ => True end) as H1.
  { unfold one_turn. destruct (Ring.nvkvm_ring_peek_obs _ _) as [acts [[|off len total|]|]]; cbn [snd]; try done.
    - unfold idle_turn. destruct (polled t _ []) as [ev1 r1] eqn:Ep. apply polled_idle in Ep as [->| ->]; [|done].
      cbn [l_idle l_resp]. repeat case_if; cbn [snd l_idle]; zb; try lia.
      unfold works in *. destruct (t_last t) as [a b]. cbn in *. unfold Ring.nvkvm_ring_has_work in *. cbn in *.
      destruct (Z.eqb_spec a b) as [->|]; done.
    - unfold exec_turn. destruct (ring_exec_one _ _ _ _ _ _) as [cs r1].
      destruct (match r1 with None => _ | Some x => _ end) as [[rr|]|]; try done. case_if; [|cbn; lia].
      destruct (polled t _ _) as [ev1 r2] eqn:Ep. apply polled_idle in Ep as [->| ->]; cbn; [lia|done]. }
  destruct (one_turn cap va k budget t s) as [ev1 [s'|[h|c|]]]; cbn [snd] in H1; [| |by injection H as <- <-..].
  2: { injection H as <- <-. exists t. set_solver. }
  destruct (turns cap va k budget ts s') as [ev2 r2] eqn:E2. injection H as <- <-.
  pose proof (IH s' ev2 r2 Hb H1 E2) as H2. destruct r2 as [|[h|c|]]; try done.
  destruct H2 as (t' & ? & ?). exists t'. set_solver.
Qed.

End LoopEnd.

Lemma idle_budget_range idle_us : 0 <= idle_us -> 0 < idle_budget idle_us <= NVKVM_RING_IDLE_MAX.
Proof.
  intros H. unfold idle_budget, NVKVM_RING_IDLE_DEFAULT, NVKVM_RING_IDLE_MAX. cbv zeta. repeat case_if; zb; lia.
Qed.

(** The consumer loop against any guest.  Whatever counters and bytes the
    request ring shows, however the handle table and the socket change in
    between: every record it executes lies inside the ring's data, leads to at
    most one driver call, and that call is one the stub may make; and it never
    executes more than 64 records without looking at the control socket. *)
Theorem consumer_loop_safe cap va k idle_us resp ts :
  0 <= cap < W64 -> 0 < va -> va + NVKVM_RING_MAX_AUX < W64 -> Forall turn_ok ts ->
  let evs := fst (ring_consumer_loop cap va k idle_us resp ts) in Forall (event_ok cap va) evs /\ bursts 0 evs.
Proof.
  intros Hc Hv Hw Ht. destruct (turns_safe cap va k Hc Hv Hw (idle_budget idle_us) ts (Lst 0 0 resp) Ht ltac:(done)) as (H1 & H2 & _).
  by split.
Qed.

(** C22: the loop ends, and not too early.  The idle window is between one turn and
    a million: after whatever came before, that many turns without work end the
    loop, whatever the guest asked for.  And when it returns, the last check saw
    equal counters; the head it reports is read once more after that check, and
    is the one checked unless the guest wrote the head in between. *)
Theorem consumer_loop_returns cap va k idle_us resp before after ev r :
  0 <= idle_us -> Forall (quiet cap) after -> idle_budget idle_us <= Z.of_nat (length after) ->
  ring_consumer_loop cap va k idle_us resp (before ++ after) = (ev, r) ->
  0 < idle_budget idle_us <= NVKVM_RING_IDLE_MAX /\
  exists x, r = inr x /\
    (forall s ev', ring_consumer_loop cap va k idle_us resp before = (ev', inl s) -> exists h, x = Returned h) /\
    (forall h, x = Returned h -> exists t, t ∈ before ++ after /\ fst (t_last t) = snd (t_last t) /\ h = t_ret t).
Proof.
  intros H0 Hq Hl H. pose proof (idle_budget_range idle_us H0) as Hb. split; [done|]. unfold ring_consumer_loop in *.
  pose proof (turns_idle cap va k (idle_budget idle_us) _ (Lst 0 0 resp) ev r ltac:(lia) ltac:(simpl; lia) H) as Hr.
  rewrite turns_app in H. destruct (turns cap va k (idle_budget idle_us) before (Lst 0 0 resp)) as [ev1 [s1|x1]] eqn:E1.
  - pose proof (turns_idle cap va k (idle_budget idle_us) _ (Lst 0 0 resp) ev1 _ ltac:(lia) ltac:(simpl; lia) E1) as Hs. cbn in Hs.
    destruct (quiet_turns cap va k (idle_budget idle_us) after s1 Hq) as (ev2 & h & E2); [lia..|]. rewrite E2 in H. injection H as <- <-.
    exists (Returned h). split; [done|]. split; [by eexists|]. intros h' [= ->]. exact Hr.
  - injection H as <- <-. exists x1. split; [done|]. split; [done|]. intros h ->. exact Hr.
Qed.

(** ** The accepted ring *)

(** Below 2 GiB, both rings with their control blocks fit the mapped region,
    one after the other. *)
Theorem setup_ring_bounds c fd full have mapped c' :
  0 <= s_ring_bytes c < 2 ^ 31 -> handle_setup_ring c fd full have mapped = inr c' ->
  c' = c /\ Ring.cap_ok (s_ring_bytes c) /\ s_req_off c + Ring.sizeof_ring + s_ring_bytes c <= s_resp_off c /\
  s_resp_off c + Ring.sizeof_ring + s_ring_bytes c <= s_region c <= 16777216.
Proof.
  intros Hn H. unfold handle_setup_ring in H. repeat case_if_in H; try done. injection H as <-. split; [done|].
  match goal with G : negb (ring_geometry_ok c) = false |- _ => apply negb_false_iff in G; unfold ring_geometry_ok in G;
    rewrite !andb_true_iff, !negb_true_iff in G; destruct G as [[[[G1 G2%Z.eqb_eq] G3%Z.eqb_eq] G4%Z.ltb_ge] G5%Z.ltb_ge] end.
  unfold Ring.nvkvm_ring_resp_off, Ring.nvkvm_ring_region_size, Ring.sizeof_ring in *.
  rewrite u64_small in G3, G4 by lia. rewrite u32_small in G3 by lia.
  destruct (Ring.size_ok_pow2 (s_ring_bytes c) ltac:(lia) G1) as (j & Hj & Ej).
  assert (j <= 30) by (destruct (Z.le_gt_cases j 30); [done|]; pose proof (Z.pow_le_mono_r 2 31 j ltac:(lia) ltac:(lia)); lia).
  pose proof (Z.pow_le_mono_r 2 j 30 ltac:(lia) ltac:(lia)). rewrite u32_small in G4 by lia.
  change (Z.shiftl 16 20) with 16777216 in G5. split; [exists j; split; [lia|done]|lia].
Qed.

(** At 2 GiB the required region wraps to 512 bytes: a region of one page is
    accepted, with the response ring 2 GiB behind its start. *)
Lemma setup_ring_wraps :
  let c := Setup 4096 0 0x80000100 0x80000000 in
  handle_setup_ring c true true false true = inr c /\ s_region c < s_resp_off c.
Proof. vm_compute. auto. Qed.

(** ** Examples *)
Definition echo_kernel : kernel := fun _ _ b a => (0, b, a).
Lemma echo_ok : kernel_ok echo_kernel.
Proof. by intros fd cmd b a. Qed.

Definition demo_record (txn inner : Z) (a : list Z) : list Z :=
  le_bytes 4 txn ++ le_bytes 4 5 ++ le_bytes 4 CTRL ++ le_bytes 4 32 ++ le_bytes 4 (arr_len a) ++ le_bytes 4 570 ++
  ctrl_param inner 4096 ++ a.
Definition demo_pay : list Z := Eval vm_compute in demo_record 9 258 (le_bytes 8 77).

Lemma ring_matches_worker_witness :
  snd (ring_exec_one demo_lookup (fun _ => 0) demo_va echo_kernel (replicate 256 170) demo_pay) =
  Some (of_resp (rd 4 0 demo_pay) (run_job demo_lookup (fun _ => 0) demo_va (worker_driver echo_kernel)
    (rd 4 4 demo_pay) (rd 4 8 demo_pay) (rd 4 20 demo_pay) (q_param demo_pay) (q_aux demo_pay))).
Proof.
  apply (ring_matches_worker demo_lookup (fun _ => 0) demo_va echo_kernel (replicate 256 170) demo_pay);
    [exact echo_ok|by apply all_bytes_spec|split_and!; vm_compute; discriminate|vm_compute; discriminate|
     vm_compute; reflexivity|right; vm_compute; discriminate].
Defined.

(** A ring that holds one record. *)
Definition demo_mem : Ring.mem :=
  match Ring.nvkvm_ring_reserve (Ring.RingC 0 0 ∅) 1024 (arr_len demo_pay) with
  | Some (r, off, _) => Ring.store_bytes (Ring.data r) off demo_pay
  | None => ∅
  end.

Lemma mem_bytes m : forallb (fun x => (0 <=? snd x) && (snd x <? 256)) (map_to_list m) = true -> forall x, byte (Ring.get m x).
Proof.
  intros H x. unfold Ring.get. destruct (m !! x) as [v|] eqn:E; [|done]. cbn [default].
  apply elem_of_map_to_list, list_elem_of_In in E. apply (proj1 (forallb_forall _ _) H) in E. cbn in E. unfold byte, default. simpl. zb. lia.
Qed.

Definition demo_turn : turn :=
  Turn [Ring.View 0 72 demo_mem] demo_mem demo_lookup (fun _ => 0) (replicate 256 170) [0] PollNone (72, 72) (72, 72) 72.
Definition demo_quiet : turn :=
  Turn [Ring.View 72 72 demo_mem] demo_mem demo_lookup (fun _ => 0) [] [] PollNone (72, 72) (72, 72) 72.

Lemma demo_turns_ok : Forall turn_ok [demo_turn; demo_quiet].
Proof. repeat constructor; try (cbn; lia); apply mem_bytes; vm_compute; reflexivity. Qed.

(** The record is executed on descriptor 11, and the loop returns. *)
Lemma consumer_loop_safe_witness :
  Forall (event_ok 1024 demo_va) (fst (ring_consumer_loop 1024 demo_va echo_kernel 1 (Ring.RingC 0 0 ∅) [demo_turn; demo_quiet])) /\
  bursts 0 (fst (ring_consumer_loop 1024 demo_va echo_kernel 1 (Ring.RingC 0 0 ∅) [demo_turn; demo_quiet])).
Proof.
  apply (consumer_loop_safe 1024 demo_va echo_kernel 1 (Ring.RingC 0 0 ∅) [demo_turn; demo_quiet]);
    [lia|reflexivity|reflexivity|exact demo_turns_ok].
Defined.

Lemma demo_loop_trace :
  match ring_consumer_loop 1024 demo_va echo_kernel 1 (Ring.RingC 0 0 ∅) [demo_turn; demo_quiet] with
  | ([EvExec 8 64 [c]; EvPoll], inr (Returned 72)) => c_fd c = 11 /\ rd 8 16 (c_param c) = demo_va
  | _ => False
  end.
Proof. vm_compute. auto. Qed.

Lemma consumer_loop_returns_witness :
  exists x, snd (ring_consumer_loop 1024 demo_va echo_kernel 1 (Ring.RingC 0 0 ∅) ([demo_turn] ++ [demo_quiet])) = inr x /\
  exists h, x = Returned h.
Proof.
  destruct (consumer_loop_returns 1024 demo_va echo_kernel 1 (Ring.RingC 0 0 ∅) [demo_turn] [demo_quiet]
    (fst (ring_consumer_loop 1024 demo_va echo_kernel 1 (Ring.RingC 0 0 ∅) ([demo_turn] ++ [demo_quiet])))
    (snd (ring_consumer_loop 1024 demo_va echo_kernel 1 (Ring.RingC 0 0 ∅) ([demo_turn] ++ [demo_quiet]))))
    as (_ & x & Hx & H1 & _).
  - lia.
  - repeat constructor; discriminate.
  - reflexivity.
  - apply surjective_pairing.
  - exists x. split; [exact Hx|].
    apply (H1 (match snd (ring_consumer_loop 1024 demo_va echo_kernel 1 (Ring.RingC 0 0 ∅) [demo_turn]) with inl s => s | inr _ => Lst 0 0 (Ring.RingC 0 0 ∅) end)
      (fst (ring_consumer_loop 1024 demo_va echo_kernel 1 (Ring.RingC 0 0 ∅) [demo_turn]))).
    vm_compute. reflexivity.
Defined.

(** GPU_GET_ID_INFO over the ring: the output pointer inside the parameters is
    the guest's own; the worker clears it. *)
Definition name_aux : list Z := replicate 16 0 ++ le_bytes 8 0xdead0000 ++ replicate 24 0.
Lemma ring_forwards_name_pointer :
  match fst (ring_exec_one demo_lookup (fun _ => 0) demo_va echo_kernel [] (demo_record 9 0x202 name_aux)) with
  | [c] => rd 8 16 (c_aux c) = 0xdead0000
  | _ => False
  end /\
  match prepare demo_lookup demo_va 570 CTRL (ctrl_param 0x202 4096) name_aux with
  | Some (_, a, _) => rd 8 16 a = 0
  | None => False
  end.
Proof. vm_compute. auto. Qed.

End StubRing.
