(* ===== verification/StubTable.v ===== *)
(** * StubTable: the isolate stub's tables and command handlers

    Models the reader thread of [src/stub/nvkvm_stub.c]: the handle table, the
    poll set, the guest-mapping window, the job queue, and one definition per
    command handler.  A handler takes the state and the kernel's answers ([env])
    and gives the new state and what it did, a list of [act].  [StubReader] puts
    the handlers together.

    [Got fd] marks a descriptor that enters the process; descriptors the kernel
    gives out are not open at the time.  Responses are values of [rsp]; the
    fields are those of [common/nvkvm_isolate_proto.h]. *)
From Stdlib Require Import Ascii.
From stdpp Require Import strings.
From S2P Require Import Prelude Bytes Abi StubJob StubRing.

Module StubTable.
Import StubJob.

(** ** Constants *)
Definition MAX_HANDLES : Z := 65536.
Definition MAX_PARAM_SIZE : Z := 262144.
Definition MAX_INFLIGHT : nat := 64.
Definition NVKVM_POLL_MAX : Z := 256.
Definition NVKVM_DEV_UNKNOWN : Z := 0xFFFFFFFF.
Definition STUB_WINDOW_SIZE : Z := Z.shiftl 1024 30.
Definition MAP_FIXED : Z := 16.
Definition O_CLOEXEC : Z := 0x80000.
Definition ENOTSUP : Z := 95.
Definition STUB_DRM_IOCTL_PRIME_HANDLE_TO_FD : Z := 0xC00C642D.
Definition STUB_DRM_IOCTL_PRIME_FD_TO_HANDLE : Z := 0xC00C642E.

(** ** State *)
Record job := Job { j_txn : Z; j_handle : Z; j_cmd : Z; j_flags : Z; j_abi : Z; j_param : list Z; j_aux : list Z }.

(** [handles]: descriptor and device; [polls]: descriptor and handle;
    [uvm_pool]: the local UVM descriptors not handed out yet; [workers]: thread
    id and the transaction it is executing, slot 0 the reader's. *)
Record stub := Stub {
  handles : gmap Z (Z * Z); polls : list (Z * Z); queue : list (option job);
  uvm_pool : list Z; drm_count : Z; win_base : Z; win_size : Z;
  ring : option StubRing.setup; looping : bool; workers : list (Z * Z) }.

Definition set_handles (s : stub) (h : gmap Z (Z * Z)) : stub :=
  Stub h (polls s) (queue s) (uvm_pool s) (drm_count s) (win_base s) (win_size s) (ring s) (looping s) (workers s).
Definition set_polls (s : stub) (p : list (Z * Z)) : stub :=
  Stub (handles s) p (queue s) (uvm_pool s) (drm_count s) (win_base s) (win_size s) (ring s) (looping s) (workers s).
Definition set_queue (s : stub) (q : list (option job)) : stub :=
  Stub (handles s) (polls s) q (uvm_pool s) (drm_count s) (win_base s) (win_size s) (ring s) (looping s) (workers s).
Definition set_pool (s : stub) (u : list Z) : stub :=
  Stub (handles s) (polls s) (queue s) u (drm_count s) (win_base s) (win_size s) (ring s) (looping s) (workers s).
Definition set_ring (s : stub) (r : option StubRing.setup) : stub :=
  Stub (handles s) (polls s) (queue s) (uvm_pool s) (drm_count s) (win_base s) (win_size s) r (looping s) (workers s).
Definition set_looping (s : stub) (l : bool) : stub :=
  Stub (handles s) (polls s) (queue s) (uvm_pool s) (drm_count s) (win_base s) (win_size s) (ring s) l (workers s).
Definition set_workers (s : stub) (w : list (Z * Z)) : stub :=
  Stub (handles s) (polls s) (queue s) (uvm_pool s) (drm_count s) (win_base s) (win_size s) (ring s) (looping s) w.

(** ** What the stub does *)
Inductive rsp :=
| ROk | RError (err : Z)
| RIoctl (txn : Z) (r : resp)
| RMmap (retval host_va : Z)
| RWindow (retval base size : Z)
| ROpen (txn retval : Z)
| RPresent (txn retval : Z)
| RXiso (txn retval gem : Z)
| RRing (error probe : Z)
| RLoop (error head : Z)
| RPollEvent (handle revents : Z)
| RRealize (txn retval rm_status host_va length : Z).

Inductive act :=
| Send (r : rsp) | SendFd (r : rsp) (fd : Z)
| Got (fd : Z) | Close (fd : Z)
| Open (path : string) (flags : Z)
| Mmap (addr len prot flags fd off : Z) | Reclaim (addr len : Z)
| Ioctl (fd cmd : Z) (arg : list Z)            (* by the reader thread *)
| Looked (w fd : Z)                            (* worker [w] found its job's descriptor *)
| WIoctl (w fd cmd : Z) (arg : list Z)         (* and made its ioctl *)
| Kill (tid : Z)
| Peek (off : Z)            (* a word of the intent buffer is read *)
| Cmd (c : list Z)          (* a message was taken as this command *)
| Asked (txn : Z).          (* an ioctl command was accepted for this transaction *)

(** The kernel's answers while one command is handled. *)
Record env := Env {
  e_residue : list Z;        (* the command union before the message arrived *)
  e_eventfd : Z; e_dup : Z; e_open : Z;   (* descriptor or -errno *)
  e_sent : bool;             (* the message with the descriptor was sent *)
  e_map : option Z;          (* address, [None] for MAP_FAILED *)
  e_prime : Z * Z;           (* result and output word of the DRM ioctl *)
  e_alloc : bool; e_alloc2 : bool;
  e_probe : Z; e_ring_map : bool;
  e_uvm : nat -> Z * Z;      (* result and rm_status of the n-th UVM ioctl *)
  e_intent : list Z }.       (* the intent buffer the driver left *)

(** ** The window *)
Definition stub_window_contains (s : stub) (addr len : Z) : bool :=
  if (win_base s =? 0) || (win_size s =? 0) then false
  else if len =? 0 then false
  else if addr ⊕ len <? addr then false
  else if addr <? win_base s then false
  else if win_size s <? len then false
  else addr <=? win_base s ⊕ (win_size s ⊖ len).

(** [p]: what the reservation returned. *)
Definition stub_window_init (s : stub) (p : option Z) : stub * Z :=
  match p with
  | None => (s, -1)
  | Some b =>
      (Stub (handles s) (polls s) (queue s) (uvm_pool s) (drm_count s) b STUB_WINDOW_SIZE (ring s) (looping s) (workers s), 0)
  end.

(** ** The handle table *)
Definition handle_lookup (s : stub) (id : Z) : Z :=
  if MAX_HANDLES <=? id then -1 else match handles s !! id with Some (fd, _) => fd | None => -1 end.
Definition handle_dev_lookup (s : stub) (id : Z) : Z :=
  if MAX_HANDLES <=? id then NVKVM_DEV_UNKNOWN else match handles s !! id with Some (_, dev) => dev | None => NVKVM_DEV_UNKNOWN end.
Definition handle_store (s : stub) (id fd dev : Z) : stub :=
  if id <? MAX_HANDLES then set_handles s (<[id := (fd, dev)]> (handles s)) else s.

Definition close_held (s : stub) (id : Z) : list act :=
  if (id <? MAX_HANDLES) && (0 <=? handle_lookup s id) then [Close (handle_lookup s id)] else [].

(** *** The poll set *)
Definition poll_arm (s : stub) (id : Z) : stub :=
  let fd := handle_lookup s id in
  if fd <? 0 then s
  else if existsb (fun x => snd x =? id) (polls s) then s
  else if arr_len (polls s) <? NVKVM_POLL_MAX then set_polls s (polls s ++ [(fd, id)]) else s.

Definition poll_disarm (s : stub) (id : Z) : stub :=
  match find_idx (fun x => snd x =? id) (polls s) with
  | Some i => set_polls s (swap_remove (polls s) i)
  | None => s
  end.

Definition handle_remove (s : stub) (id : Z) : stub * list act :=
  if id <? MAX_HANDLES then
    (set_handles (poll_disarm s id) (delete id (handles s)), close_held s id)
  else (s, []).

(** One descriptor the poll returned: report it for the first entry that has it. *)
Definition poll_fired (s : stub) (fd revents : Z) : stub * list act :=
  if revents =? 0 then (s, [])
  else
    let h := match List.find (fun x => fst x =? fd) (polls s) with Some (_, h) => h | None => 0 end in
    if h =? 0 then (s, []) else (poll_disarm s h, [Send (RPollEvent h (u16 revents))]).

(** ** Jobs *)
Definition job_queue_init : list (option job) := replicate MAX_INFLIGHT None.

Definition enqueue_job (s : stub) (j : job) : stub * list act :=
  match find_idx (fun x => match x with None => true | Some _ => false end) (queue s) with
  | Some i => (set_queue s (<[i := Some j]> (queue s)), [])
  | None => (s, [Send (RIoctl (j_txn j) (refused (- ENOMEM)))])
  end.

Definition dequeue_job (s : stub) : option (job * stub) :=
  match find_idx (fun x => match x with None => false | Some _ => true end) (queue s) with
  | Some i => match queue s !! i with Some (Some j) => Some (j, set_queue s (<[i := None]> (queue s))) | _ => None end
  | None => None
  end.

Definition interrupt_txn (s : stub) (target : Z) : list act :=
  if target =? 0 then []
  else match List.find (fun w => snd w =? target) (tail (workers s)) with
  | Some (tid, _) => if 0 <? tid then [Kill tid] else []
  | None => []
  end.

(** *** Blobs *)

(** The bytes mapped for a parameter blob, and the bytes unmapped for it. *)
Definition blob_mapped (size : Z) : Z := page_up size.
Definition param_alloc (psize cmd : Z) : Z :=
  let ioc := StubRing.ioc_size cmd in
  let ioc := if 4096 <? ioc then 4096 else ioc in
  blob_mapped (if psize <? ioc then ioc else psize).
Definition blob_unmapped (size : Z) : Z := page_up size.

(** ** Messages *)
Record msg := Msg { m_bytes : list Z; m_fd : option Z }.

(** [recv_full]: reads whole messages until [len] bytes have come; a read of a
    longer message drops its rest.  [None] at the end of the stream. *)
Fixpoint recv_full (len : nat) (ms : list msg) : option (list Z) * list msg :=
  match len with
  | O => (Some [], ms)
  | _ =>
      match ms with
      | [] => (None, [])
      | m :: ms =>
          match m_bytes m with
          | [] => (None, ms)
          | b =>
              match recv_full (len - length b) ms with
              | (Some r, ms) => (Some (take len b ++ r), ms)
              | (None, ms) => (None, ms)
              end
          end
      end
  end.

(** ** Handlers *)
Definition ioctl_fail (txn e : Z) : list act := [Send (RIoctl txn (refused e))].

Definition handle_ioctl_cmd (s : stub) (e : env) (c : list Z) (ms : list msg) : stub * list act * list msg :=
  let handle := rd 4 4 c in
  let cmd := rd 4 8 c in
  let psize := rd 4 12 c in
  let asize := rd 4 16 c in
  let txn := rd 4 24 c in
  if (MAX_PARAM_SIZE <? psize) || (MAX_PARAM_SIZE <? asize) then (s, Asked txn :: ioctl_fail txn (- EINVAL), ms)
  else
    match (if 0 <? psize then if e_alloc e then recv_full (Z.to_nat psize) ms else (None, ms) else (Some [], ms)) with
    | (None, ms) => (s, Asked txn :: ioctl_fail txn (- ENOMEM), ms)
    | (Some p, ms) =>
        match (if 0 <? asize then if e_alloc2 e then recv_full (Z.to_nat asize) ms else (None, ms) else (Some [], ms)) with
        | (None, ms) => (s, Asked txn :: ioctl_fail txn (- ENOMEM), ms)
        | (Some a, ms) =>
            let '(s, acts) := enqueue_job s (Job txn handle cmd (rd 4 20 c) (rd 4 28 c) p a) in
            (s, Asked txn :: acts, ms)
        end
    end.

(** *** Devices *)
Definition digit (n : Z) : string := String (ascii_of_nat (48 + Z.to_nat n)) EmptyString.

Definition dev_id_to_path (dev : Z) : option string :=
  if dev =? 0 then Some "nvidiactl"%string
  else if (16 <=? dev) && (dev <? 32) then
    let n := dev - 16 in
    Some (if n <? 10 then ("nvidia" +:+ digit n)%string else ("nvidia" +:+ digit (n / 10) +:+ digit (n mod 10))%string)
  else if dev =? 48 then Some "nvidia-modeset"%string
  else if (32 <=? dev) && (dev <? 48) then
    let minor := 128 + (dev - 32) in
    Some ("dri/renderD" +:+ digit (minor / 100) +:+ digit (minor / 10 mod 10) +:+ digit (minor mod 10))%string
  else None.

(** The descriptor, with what was done to get it; [None] for a refused device. *)
Definition open_dev (s : stub) (e : env) (dev flags : Z) : option (Z * list act) :=
  if dev =? 255 then Some (e_eventfd e, if 0 <=? e_eventfd e then [Got (e_eventfd e)] else [])
  else if dev =? 1 then None
  else
    let fd := if (32 <=? dev) && (dev - 32 <? drm_count s) then e_dup e else - EBADF in
    if fd <? 0 then
      match dev_id_to_path dev with
      | None => None
      | Some path => Some (e_open e, Open path (Z.lor flags O_CLOEXEC) :: if 0 <=? e_open e then [Got (e_open e)] else [])
      end
    else Some (fd, [Got fd]).

Definition handle_open_device (s : stub) (e : env) (c : list Z) : stub * list act :=
  let id := rd 4 4 c in
  let dev := rd 4 8 c in
  let txn := rd 4 16 c in
  match open_dev s e dev (rd 4 12 c) with
  | None => (s, [Send (ROpen txn (- EINVAL))])
  | Some (fd, acts) =>
      if fd <? 0 then (s, acts ++ [Send (ROpen txn fd)])
      else
        let acts := acts ++ close_held s id in
        let s := handle_store s id fd dev in
        if e_sent e then (s, acts ++ [SendFd (ROpen txn 0) fd])
        else let '(s, rm) := handle_remove s id in (s, acts ++ rm)
  end.

Definition handle_receive_fd (s : stub) (c : list Z) (n : Z) (scm : option Z) : stub * list act :=
  match scm with
  | None => (s, [Send (RError EINVAL)])
  | Some fd =>
      let '(s, fd, acts) :=
        if (16 <=? n) && (rd 4 8 c =? 1) then
          match uvm_pool s with
          | local :: pool => if 0 <=? local then (set_pool s pool, local, [Close fd]) else (set_pool s pool, fd, [])
          | [] => (s, fd, [])
          end
        else (s, fd, []) in
      let acts := acts ++ close_held s (rd 4 4 c) in
      (handle_store s (rd 4 4 c) fd (if 16 <=? n then rd 4 8 c else NVKVM_DEV_UNKNOWN), acts ++ [Send ROk])
  end.

Definition handle_close_fd (s : stub) (id : Z) : stub * list act :=
  if 0 <=? handle_lookup s id then let '(s, acts) := handle_remove s id in (s, acts ++ [Send ROk])
  else (s, [Send (RError EBADF)]).

(** *** Mappings *)
Definition handle_mmap (s : stub) (e : env) (c : list Z) : list act :=
  let win_va := rd 8 8 c in
  let length := rd 8 16 c in
  if negb (stub_window_contains s win_va length) then [Send (RMmap (- EFAULT) 0)]
  else
    let fd := handle_lookup s (rd 4 4 c) in
    if fd <? 0 then [Send (RMmap (- EBADF) 0)]
    else
      [Mmap win_va length (rd 4 32 c) (Z.lor (rd 4 36 c) MAP_FIXED) fd (rd 8 24 c);
       match e_map e with Some va => Send (RMmap 0 va) | None => Send (RMmap (- ENOMEM) 0) end].

Definition handle_munmap_cmd (s : stub) (c : list Z) : list act :=
  if negb (stub_window_contains s (rd 8 8 c) (rd 8 16 c)) then [Send (RError EFAULT)]
  else [Reclaim (rd 8 8 c) (rd 8 16 c); Send ROk].

(** *** Buffers *)
Definition handle_present_export (s : stub) (e : env) (c : list Z) : list act :=
  let txn := rd 4 12 c in
  let rfd := handle_lookup s (rd 4 4 c) in
  if rfd <? 0 then [Send (RPresent txn (- EBADF))]
  else
    let '(r, fd) := e_prime e in
    let io := Ioctl rfd STUB_DRM_IOCTL_PRIME_HANDLE_TO_FD
      (le_bytes 4 (rd 4 8 c) ++ le_bytes 4 (Z.lor 0x80000 2) ++ le_bytes 4 UINT32_MAX) in
    if (r <? 0) || (fd <? 0) then [io; Send (RPresent txn (if r <? 0 then r else - EINVAL))]
    else [io; Got fd; SendFd (RPresent txn 0) fd; Close fd].

Definition handle_xiso_import (s : stub) (e : env) (c : list Z) (scm : option Z) : list act :=
  let txn := rd 4 8 c in
  match scm with
  | None => [Send (RXiso txn (- EINVAL) 0)]
  | Some dbuf =>
      let rfd := handle_lookup s (rd 4 4 c) in
      if rfd <? 0 then [Close dbuf; Send (RXiso txn (- EBADF) 0)]
      else
        let '(r, gem) := e_prime e in
        [Ioctl rfd STUB_DRM_IOCTL_PRIME_FD_TO_HANDLE (le_bytes 4 0 ++ le_bytes 4 0 ++ le_bytes 4 dbuf);
         Close dbuf; Send (if r <? 0 then RXiso txn r 0 else RXiso txn 0 gem)]
  end.

(** *** A replayed UVM descriptor *)
Definition sizeof_state : Z := 1176.
Definition STUB_MAX_REG : Z := 16.

(** The descriptor for a handle of the snapshot: -1 stands for itself. *)
Definition replay_fd (s : stub) (hid : Z) : option Z :=
  if hid =? UINT32_MAX then Some UINT32_MAX
  else let fd := handle_lookup s hid in if fd <? 0 then None else Some fd.

Definition slice (off n : Z) (b : list Z) : list Z := take (Z.to_nat n) (drop (Z.to_nat off) b).

(** The ioctls to replay: command and argument, [None] where a handle does not
    resolve. *)
Definition gpu_step (s : stub) (st : list Z) (i : Z) : option (Z * list Z) :=
  let o := 24 + 32 * i in
  match replay_fd s (rd 4 (o + 16) st) with
  | None => None
  | Some fd =>
      Some (37, slice o 16 st ++ le_bytes 4 0 ++ le_bytes 4 UINT32_MAX ++ le_bytes 4 fd ++ le_bytes 4 (rd 4 (o + 20) st) ++
                le_bytes 4 (rd 4 (o + 24) st) ++ le_bytes 4 0)
  end.
Definition vas_step (s : stub) (st : list Z) (i : Z) : option (Z * list Z) :=
  let o := 536 + 32 * i in
  match replay_fd s (rd 4 (o + 16) st) with
  | None => None
  | Some fd =>
      Some (25, slice o 16 st ++ le_bytes 4 fd ++ le_bytes 4 (rd 4 (o + 20) st) ++ le_bytes 4 (rd 4 (o + 24) st) ++ le_bytes 4 0)
  end.
Definition group_step (st : list Z) (i : Z) : option (Z * list Z) :=
  Some (23, le_bytes 8 (rd 8 (1048 + 8 * i) st) ++ le_bytes 8 0).

Definition replay_steps (s : stub) (st : list Z) : list (option (Z * list Z)) :=
  Some (0x30000001, slice 0 8 st ++ le_bytes 8 0)
  :: (gpu_step s st <$> seqZ 0 (rd 4 8 st)) ++ (vas_step s st <$> seqZ 0 (rd 4 12 st)) ++ (group_step st <$> seqZ 0 (rd 4 16 st)).

(** Runs the steps from the [n]-th ioctl on: what was done, and the failure
    ([retval] and [rm_status]) if any. *)
Fixpoint replay (e : env) (fd : Z) (n : nat) (l : list (option (Z * list Z))) : list act * option (Z * Z) :=
  match l with
  | [] => ([], None)
  | None :: _ => ([], Some (- EBADF, 0))
  | Some (cmd, arg) :: l =>
      let '(r, st) := e_uvm e n in
      if (r <? 0) || negb (st =? 0) then ([Ioctl fd cmd arg], Some (if st =? 0 then r else 0, st))
      else let '(acts, f) := replay e fd (S n) l in (Ioctl fd cmd arg :: acts, f)
  end.

(** The intent ioctl. *)
Definition realize_intent (e : env) (fd mode isize : Z) (intent : list Z) (n : nat) : list act * option (Z * Z) :=
  if mode =? 1 then
    let io := [Ioctl fd 68 intent; Peek (isize - 4)] in
    let r := fst (e_uvm e n) in
    let st := rd 4 (isize - 4) (e_intent e) in
    if r <? 0 then (io, Some (r, st))
    else if negb (st =? 0) then (io, Some (0, st))
    else (io, None)
  else ([], Some (- ENOTSUP, 0)).

(** The final mapping: what was done, and the failure or the address. *)
Definition realize_map (s : stub) (e : env) (fd : Z) (c : list Z) : list act * (Z + Z) :=
  let len := rd 8 32 c in
  let hint := rd 8 40 c in
  let result := match e_map e with Some va => inr va | None => inl (- ENOMEM) end in
  if hint =? 0 then ([Mmap 0 len (rd 4 20 c) (rd 4 24 c) fd (rd 8 48 c)], result)
  else if negb (stub_window_contains s hint len) then ([], inl (- EFAULT))
  else ([Mmap hint len (rd 4 20 c) (Z.lor (rd 4 24 c) MAP_FIXED) fd (rd 8 48 c)], result).

(** With the descriptor [fd] open. *)
Definition realize_run (s : stub) (e : env) (fd : Z) (c st intent : list Z) : list act :=
  let txn := rd 4 4 c in
  let fail (r : Z * Z) := [Close fd; Send (RRealize txn (fst r) (snd r) 0 0)] in
  let steps := replay_steps s st in
  match replay e fd 0 steps with
  | (acts, Some f) => acts ++ fail f
  | (acts, None) =>
      match realize_intent e fd (rd 4 8 c) (rd 4 16 c) intent (length steps) with
      | (acts2, Some f) => acts ++ acts2 ++ fail f
      | (acts2, None) =>
          match realize_map s e fd c with
          | (acts3, inl r) => acts ++ acts2 ++ acts3 ++ fail (r, 0)
          | (acts3, inr va) => acts ++ acts2 ++ acts3 ++ [Send (RRealize txn 0 0 va (rd 8 32 c))]
          end
      end
  end.

Definition handle_realize_uvm_fd (s : stub) (e : env) (c : list Z) (ms : list msg) : list act * list msg :=
  let txn := rd 4 4 c in
  let isize := rd 4 16 c in
  let bad r := [Send (RRealize txn r 0 0 0)] in
  if negb (rd 4 12 c =? sizeof_state) then (bad (- EINVAL), ms)
  else
    match recv_full (Z.to_nat sizeof_state) ms with
    | (None, ms) => (bad (- EIO), ms)
    | (Some st, ms) =>
        if (STUB_MAX_REG <? rd 4 8 st) || (STUB_MAX_REG <? rd 4 12 st) || (STUB_MAX_REG <? rd 4 16 st) then (bad (- EINVAL), ms)
        else if (isize =? 0) || (65536 <? isize) then (bad (- EINVAL), ms)
        else if negb (e_alloc e) then (bad (- ENOMEM), ms)
        else
          match recv_full (Z.to_nat isize) ms with
          | (None, ms) => (bad (- EIO), ms)
          | (Some intent, ms) =>
              let o := Open "nvidia-uvm" (Z.lor 2 O_CLOEXEC) in
              if e_open e <? 0 then (o :: bad (e_open e), ms)
              else (o :: Got (e_open e) :: realize_run s e (e_open e) c st intent, ms)
          end
    end.

End StubTable.
