(* ===== verification/StubReader.v ===== *)
(** * StubReader: the isolate stub as one system

    Models [stub_dispatch_cmd], the reader loop of [main] and the worker threads
    of [src/stub/nvkvm_stub.c] over the handlers of [StubTable]: commands arrive
    as messages of a sequenced-packet socket, ioctls go through the job queue to
    the workers, and polled descriptors and the ring loop report back.  The
    threads interleave as a list of events.  A worker's turn is five of them: it
    takes a job, looks its descriptor up under the lock, and without the lock
    makes the ioctl, returns from it and answers.  The ring loop runs on the
    reader's thread: it services the same socket through the same dispatcher, and
    nothing comes between a record's lookup and its ioctl. *)
From stdpp Require Import strings.
From S2P Require Import Prelude Bytes Abi StubJob StubRing StubTable.

Module StubReader.
Import StubJob StubTable.

(** ** Commands *)
Definition sizeof_cmd : nat := 56.
Definition ISOLATE_CMD_IOCTL : Z := 3.
Definition ISOLATE_CMD_REALIZE_UVM_FD : Z := 10.

Definition setup_ring_cmd (s : stub) (e : env) (c : list Z) (n : Z) (scm : option Z) : stub * list act :=
  let cfg := StubRing.Setup (rd 4 4 c) (rd 4 8 c) (rd 4 12 c) (rd 4 16 c) in
  match scm with
  | None => (s, [Send (RRing (- EINVAL) 0)])
  | Some fd =>
      match StubRing.handle_setup_ring cfg true (24 <=? n) (bool_decide (is_Some (ring s))) (e_ring_map e) with
      | inl err => (s, [Close fd; Send (RRing err 0)])
      | inr cfg => (set_ring s (Some cfg), [Close fd; Send (RRing 0 (e_probe e))])
      end
  end.

(** The loop itself runs as later events. *)
Definition enter_loop_cmd (s : stub) (e : env) : stub * list act :=
  match ring s with
  | None => (s, [Send (RLoop (- ENODEV) 0)])
  | Some _ => if looping s then (s, [Send (RLoop 0 (e_probe e))]) else (set_looping s true, [])
  end.

(** [c]: the command union; [n]: the bytes that arrived; [ms]: the messages
    behind it.  The flag asks for termination. *)
Definition stub_dispatch_cmd (s : stub) (e : env) (c : list Z) (n : Z) (scm : option Z) (ms : list msg)
    : stub * list act * list msg * bool :=
  let k := rd 4 0 c in
  let on x := (fst x, snd x, ms, false) in
  if k =? 1 then on (handle_receive_fd s c n scm)
  else if k =? 2 then on (handle_close_fd s (rd 4 4 c))
  else if k =? ISOLATE_CMD_IOCTL then (handle_ioctl_cmd s e c ms, false)
  else if k =? 4 then on (s, handle_mmap s e c)
  else if k =? 5 then on (s, handle_munmap_cmd s c)
  else if k =? 16 then on (s, [Send (RWindow (if win_base s =? 0 then - ENOMEM else 0) (win_base s) (win_size s))])
  else if k =? 6 then on (poll_arm s (rd 4 4 c), [Send ROk])
  else if k =? 7 then on (poll_disarm s (rd 4 4 c), [Send ROk])
  else if k =? 9 then on (handle_open_device s e c)
  else if k =? 14 then on (s, handle_present_export s e c)
  else if k =? 15 then on (s, handle_xiso_import s e c scm)
  else if k =? ISOLATE_CMD_REALIZE_UVM_FD then
    let '(acts, ms) := handle_realize_uvm_fd s e c ms in (s, acts, ms, false)
  else if k =? 11 then on (s, interrupt_txn s (rd 4 4 c))
  else if k =? 12 then on (setup_ring_cmd s e c n scm)
  else if k =? 13 then on (enter_loop_cmd s e)
  else (s, [], ms, true).

(** ** The system *)
(** What a worker is at: with a job, with the descriptor found for it and the
    verdict on its device, inside the ioctl, and about to answer.  The result is
    the one the driver will give. *)
Inductive work := WJob (j : job) | WFd (j : job) (fd : Z) (typed : bool) | WCall (txn : Z) (r : resp) | WResp (txn : Z) (r : resp).

Record sys := Sys { st : stub; inbox : list msg; busy : gmap Z work; quit : bool }.

Inductive ev :=
| Read (e : env)                        (* the reader takes a message *)
| LoopDone (head : Z)                   (* the ring loop returns *)
| Fired (l : list (Z * Z))              (* descriptors and events of one poll *)
| RingRec (va : Z) (k : StubRing.kernel) (stack pay : list Z)   (* the ring loop executes a record *)
| Take (w : Z)                          (* worker [w] takes a job, *)
| Look (w : Z)                          (* looks its descriptor up, *)
| Call (w : Z) (look : Z -> Z) (va : Z) (drv : driver)          (* calls the driver, *)
| Ret (w : Z)                           (* is back, *)
| Done (w : Z).                         (* and answers *)

(** One message: at most [sizeof_cmd] bytes of it reach the union. *)
Definition read_cmd (m : msg) (e : env) : list Z :=
  let b := take sizeof_cmd (m_bytes m) in b ++ drop (length b) (e_residue e).

Definition read_one (s : sys) (e : env) : sys * list act :=
  match inbox s with
  | [] => (Sys (st s) [] (busy s) true, [])
  | m :: ms =>
      let got := match m_fd m with Some fd => [Got fd] | None => [] end in
      let n := arr_len (take sizeof_cmd (m_bytes m)) in
      if n <? 4 then (Sys (st s) ms (busy s) true, got)
      else
        let c := read_cmd m e in
        let '(s', acts, ms, q) := stub_dispatch_cmd (st s) e c n (m_fd m) ms in
        (Sys s' ms (busy s) q, got ++ Cmd c :: acts)
  end.

Fixpoint fired_all (s : stub) (l : list (Z * Z)) : stub * list act :=
  match l with
  | [] => (s, [])
  | (fd, rev) :: l =>
      let '(s, a) := poll_fired s fd rev in
      let '(s, a') := fired_all s l in (s, a ++ a')
  end.

(** The ioctl of a job, if it comes to one; [look] is what the lookups of the
    descriptors inside its parameters find. *)
Definition job_call (w : Z) (j : job) (fd : Z) (typed : bool) (look : Z -> Z) (va : Z) : list act :=
  if (fd <? 0) || negb typed then []
  else match prepare look va (j_abi j) (j_cmd j) (j_param j) (j_aux j) with
  | Some (p, _, _) => [WIoctl w fd (j_cmd j) p]
  | None => []
  end.

(** [worker_inflight_txn]. *)
Definition set_inflight (s : stub) (w txn : Z) : stub :=
  set_workers s (alter (fun x => (fst x, txn)) (Z.to_nat w) (workers s)).

Definition set_work (s : sys) (w : Z) (x : work) : sys := Sys (st s) (inbox s) (<[w := x]> (busy s)) (quit s).

Definition sys_step (s : sys) (v : ev) : sys * list act :=
  match v with
  | Read e => if quit s then (s, []) else read_one s e
  | LoopDone h =>
      if looping (st s) then (Sys (set_looping (st s) false) (inbox s) (busy s) (quit s), [Send (RLoop 0 h)]) else (s, [])
  | Fired l => let '(s', acts) := fired_all (st s) l in (Sys s' (inbox s) (busy s) (quit s), acts)
  | RingRec va k stack pay =>
      if looping (st s) then
        (s, (fun c => Ioctl (StubRing.c_fd c) (StubRing.c_cmd c) (StubRing.c_in c)) <$>
              fst (StubRing.ring_exec_one (handle_lookup (st s)) (handle_dev_lookup (st s)) va k stack pay))
      else (s, [])
  | Take w =>
      match busy s !! w, dequeue_job (st s) with
      | None, Some (j, s') => (Sys s' (inbox s) (<[w := WJob j]> (busy s)) (quit s), [])
      | _, _ => (s, [])
      end
  | Look w =>
      match busy s !! w with
      | Some (WJob j) =>
          let fd := handle_lookup (st s) (j_handle j) in
          (set_work s w (WFd j fd (handle_type_matches_dev (handle_dev_lookup (st s) (j_handle j)) (j_cmd j))),
           if 0 <=? fd then [Looked w fd] else [])
      | _ => (s, [])
      end
  | Call w look va drv =>
      match busy s !! w with
      | Some (WFd j fd typed) =>
          let r := run_job_on fd typed look va drv (j_cmd j) (j_abi j) (j_param j) (j_aux j) in
          match job_call w j fd typed look va with
          | [] => (set_work s w (WResp (j_txn j) r), [])
          | acts => (Sys (set_inflight (st s) w (j_txn j)) (inbox s) (<[w := WCall (j_txn j) r]> (busy s)) (quit s), acts)
          end
      | _ => (s, [])
      end
  | Ret w =>
      match busy s !! w with
      | Some (WCall txn r) => (Sys (set_inflight (st s) w 0) (inbox s) (<[w := WResp txn r]> (busy s)) (quit s), [])
      | _ => (s, [])
      end
  | Done w =>
      match busy s !! w with
      | Some (WResp txn r) => (Sys (st s) (inbox s) (delete w (busy s)) (quit s), [Send (RIoctl txn r)])
      | _ => (s, [])
      end
  end.

Fixpoint run (s : sys) (l : list ev) : sys * list act :=
  match l with
  | [] => (s, [])
  | v :: l => let '(s, a) := sys_step s v in let '(s, a') := run s l in (s, a ++ a')
  end.

Lemma run_app l1 : forall s l2,
  run s (l1 ++ l2) = (let '(s1, a1) := run s l1 in let '(s2, a2) := run s1 l2 in (s2, a1 ++ a2)).
Proof.
  induction l1 as [|v l1 IH]; intros s l2; cbn [run app]; [by destruct (run s l2)|].
  destruct (sys_step s v) as [s0 a0]. rewrite IH. destruct (run s0 l1) as [s1 a1]. destruct (run s1 l2). by rewrite app_assoc.
Qed.

(** ** Messages *)
Definition msg_ok (m : msg) : Prop := Forall byte (m_bytes m).
Definition ev_ok (v : ev) : Prop := match v with Read e => Forall byte (e_residue e) | _ => True end.

Lemma recv_suffix len ms : exists pre, ms = pre ++ snd (recv_full len ms).
Proof.
  revert len. induction ms as [|m ms IH]; intros [|len]; cbn [recv_full]; [by exists []..|by exists []|].
  destruct (m_bytes m) as [|x b]; [by exists [m]|]. destruct (IH (S len - length (x :: b))%nat) as [pre Hp].
  destruct (recv_full (S len - length (x :: b)) ms) as [[r|] ms']; cbn [snd] in *; exists (m :: pre); by rewrite Hp.
Qed.

Lemma recv_msgs (P : msg -> Prop) len ms : Forall P ms -> Forall P (snd (recv_full len ms)).
Proof. intros H. destruct (recv_suffix len ms) as [pre Hp]. rewrite Hp in H. by apply Forall_app in H as [_ H]. Qed.

Lemma read_cmd_bytes m e : msg_ok m -> Forall byte (e_residue e) -> Forall byte (read_cmd m e).
Proof. intros Hm He. unfold read_cmd. apply Forall_app. split; [by apply Forall_take|by apply Forall_drop]. Qed.

Lemma ioctl_msgs (P : msg -> Prop) s e c ms : Forall P ms -> Forall P (snd (handle_ioctl_cmd s e c ms)).
Proof.
  intros H. unfold handle_ioctl_cmd. cbv zeta. case_if; [done|].
  set (r1 := if 0 <? rd 4 12 c then _ else _).
  assert (Forall P (snd r1)) as H1 by (unfold r1; repeat case_if; try done; by apply recv_msgs).
  destruct r1 as [[p|] ms1]; [|done]. cbn [snd] in H1. set (r2 := if 0 <? rd 4 16 c then _ else _).
  assert (Forall P (snd r2)) as H2 by (unfold r2; repeat case_if; try done; by apply recv_msgs).
  destruct r2 as [[a|] ms2]; [|done]. by destruct (enqueue_job _ _).
Qed.

Lemma realize_msgs (P : msg -> Prop) s e c ms : Forall P ms -> Forall P (snd (handle_realize_uvm_fd s e c ms)).
Proof.
  intros H. unfold handle_realize_uvm_fd. cbv zeta. case_if; [done|].
  pose proof (recv_msgs P (Z.to_nat sizeof_state) ms H) as H1.
  destruct (recv_full (Z.to_nat sizeof_state) ms) as [[s1|] ms1]; [|done]. cbn [snd] in H1. repeat (case_if; [done|]).
  pose proof (recv_msgs P (Z.to_nat (rd 4 16 c)) ms1 H1) as H2.
  destruct (recv_full (Z.to_nat (rd 4 16 c)) ms1) as [[s2|] ms2]; [|done]. cbn [snd] in H2. by case_if.
Qed.

(** ** Handlers that leave parts of the state alone *)
Definition win (s : stub) : Z * Z := (win_base s, win_size s).
Definition kept (s : stub) : Z * Z * list (option job) := (win s, queue s).

Lemma kept_win s s' : kept s' = kept s -> win s' = win s.
Proof. intros H. exact (f_equal fst H). Qed.

Lemma disarm_kept s id : kept (poll_disarm s id) = kept s.
Proof. unfold poll_disarm. by destruct (find_idx _ _). Qed.
Lemma arm_kept s id : kept (poll_arm s id) = kept s.
Proof. unfold poll_arm. by repeat case_if. Qed.
Lemma store_kept s id fd dev : kept (handle_store s id fd dev) = kept s.
Proof. unfold handle_store. by case_if. Qed.
Lemma remove_kept s id : kept (fst (handle_remove s id)) = kept s.
Proof. unfold handle_remove. case_if; [apply disarm_kept|done]. Qed.
Lemma enqueue_win s j : win (fst (enqueue_job s j)) = win s.
Proof. unfold enqueue_job. by destruct (find_idx _ _). Qed.

(** ** Mappings *)

(** What the window admits, exactly. *)
Lemma contains_iff s addr len :
  0 < win_base s -> 0 < win_size s -> win_base s + win_size s < W64 -> 0 <= addr < W64 -> 0 <= len < W64 ->
  stub_window_contains s addr len = true <-> 0 < len /\ win_base s <= addr /\ addr + len <= win_base s + win_size s.
Proof.
  intros Hb Hz Hw Ha Hl. unfold stub_window_contains.
  rewrite (proj2 (Z.eqb_neq _ _)), (proj2 (Z.eqb_neq (win_size s) 0)) by lia. cbn [orb].
  destruct (Z.eqb_spec len 0); [lia|]. destruct (Z.ltb_spec (addr ⊕ len) addr) as [Hx|Hx].
  { split; [done|]. intros (H1 & H2 & H3). rewrite u64_small in Hx by lia. lia. }
  destruct (Z.ltb_spec addr (win_base s)); [lia|]. destruct (Z.ltb_spec (win_size s) len); [lia|].
  rewrite !u64_small; rewrite ?u64_small; lia.
Qed.

(** Inside the window, also after the kernel has rounded to whole pages. *)
Definition inside (base size addr len : Z) : Prop :=
  0 < len /\ base <= addr /\ addr + len <= base + size /\ (addr mod 4096 = 0 -> addr + page_up len <= base + size).

(** A mapping is inside the window, or is the one of a REALIZE_UVM_FD command
    without an address, whose flags it has; [taken] are the commands read. *)
Definition confined (taken : list Z -> Prop) (base size : Z) (a : act) : Prop :=
  match a with
  | Mmap addr len _ flags _ _ =>
      inside base size addr len \/
      addr = 0 /\ exists c, taken c /\ rd 4 0 c = ISOLATE_CMD_REALIZE_UVM_FD /\ rd 8 40 c = 0 /\ flags = rd 4 24 c
  | Reclaim addr len => inside base size addr len
  | _ => True
  end.

(** Neither a question nor an answer of an ioctl, nor the taking of a command. *)
Definition neutral (a : act) : Prop :=
  match a with Asked _ | Cmd _ | Send (RIoctl _ _) => False | _ => True end.

Definition plain (taken : list Z -> Prop) (base size : Z) (a : act) : Prop := confined taken base size a /\ neutral a.

Record win_ok (s : stub) (base size : Z) : Prop := {
  wo_win : win s = (base, size);
  wo_base : 0 < base /\ base mod 4096 = 0;
  wo_size : 0 < size /\ size mod 4096 = 0;
  wo_top : base + size < W64 }.

Lemma contains_inside s base size addr len :
  win_ok s base size -> 0 <= addr < W64 -> 0 <= len < W64 -> stub_window_contains s addr len = true ->
  inside base size addr len.
Proof.
  intros [Hw [Hb Hbm] [Hz Hzm] Ht] Ha Hl H. unfold win in Hw. injection Hw as <- <-.
  apply contains_iff in H as (H1 & H2 & H3); [|done..]. split_and!; [done..|]. intros Hm.
  assert (4096 <= win_base s) by (Z.div_mod_to_equations; lia).
  rewrite page_up_eq by lia. Z.div_mod_to_equations. lia.
Qed.

Lemma close_held_confined taken base size s id : Forall (plain taken base size) (close_held s id).
Proof. unfold close_held. case_if; by repeat constructor. Qed.

Lemma replay_confined taken base size e fd l n : Forall (plain taken base size) (fst (replay e fd n l)).
Proof.
  revert n. induction l as [|[[cmd arg]|] l IH]; intros n; cbn [replay]; [constructor| |constructor].
  destruct (e_uvm e n) as [r q]. case_if; [by repeat constructor|]. specialize (IH (S n)).
  destruct (replay e fd (S n) l). by constructor; [split|].
Qed.

Lemma intent_confined taken base size e fd mode isize intent n : Forall (plain taken base size) (fst (realize_intent e fd mode isize intent n)).
Proof. unfold realize_intent. cbv zeta. repeat case_if; by repeat constructor. Qed.

Section Confined.
Context (taken : list Z -> Prop) (base size : Z).
Let P := plain taken base size.

Lemma mmap_confined s e c : win_ok s base size -> Forall byte c -> Forall P (handle_mmap s e c).
Proof.
  intros Hw Hc. unfold handle_mmap. cbv zeta. destruct (stub_window_contains _ _ _) eqn:E; cbn [negb]; [|by repeat constructor].
  case_if; [by repeat constructor|]. pose proof (rd_range 8 8 c Hc). pose proof (rd_range 8 16 c Hc).
  constructor; [split; [left; by apply (contains_inside s)|done]|]. destruct (e_map e); by repeat constructor.
Qed.

Lemma munmap_confined s c : win_ok s base size -> Forall byte c -> Forall P (handle_munmap_cmd s c).
Proof.
  intros Hw Hc. unfold handle_munmap_cmd. destruct (stub_window_contains _ _ _) eqn:E; cbn [negb]; [|by repeat constructor].
  pose proof (rd_range 8 8 c Hc). pose proof (rd_range 8 16 c Hc). constructor; [split; [by apply (contains_inside s)|done]|by repeat constructor].
Qed.

Lemma realize_map_confined s e fd c :
  win_ok s base size -> Forall byte c -> taken c -> rd 4 0 c = ISOLATE_CMD_REALIZE_UVM_FD -> Forall P (fst (realize_map s e fd c)).
Proof.
  intros Hw Hc Ht Hk. unfold realize_map. cbv zeta.
  case_if; [zb; constructor; [split; [right; split; [done|]; by exists c|done]|constructor]|].
  destruct (stub_window_contains _ _ _) eqn:Ec; cbn [negb fst]; [|constructor].
  pose proof (rd_range 8 32 c Hc). pose proof (rd_range 8 40 c Hc). constructor; [split; [left; by apply (contains_inside s)|done]|constructor].
Qed.

Lemma realize_confined s e c ms :
  win_ok s base size -> Forall byte c -> taken c -> rd 4 0 c = ISOLATE_CMD_REALIZE_UVM_FD -> Forall P (fst (handle_realize_uvm_fd s e c ms)).
Proof.
  intros Hw Hc Ht Hk. unfold handle_realize_uvm_fd. cbv zeta. case_if; [by repeat constructor|].
  destruct (recv_full _ ms) as [[s1|] ms1]; [|by repeat constructor]. repeat (case_if; [by repeat constructor|]).
  destruct (recv_full _ ms1) as [[s2|] ms2]; [|by repeat constructor]. case_if; [by repeat constructor|]. cbn [fst].
  do 2 (constructor; [by split|]). unfold realize_run. cbv zeta.
  pose proof (replay_confined taken base size e (e_open e) (replay_steps s s1) 0) as H1.
  destruct (replay _ _ _ _) as [a1 [f|]]; cbn [fst] in H1; [apply Forall_app; split; [done|by repeat constructor]|].
  pose proof (intent_confined taken base size e (e_open e) (rd 4 8 c) (rd 4 16 c) s2 (length (replay_steps s s1))) as H2.
  destruct (realize_intent _ _ _ _ _ _) as [a2 [f|]]; cbn [fst] in H2; [rewrite !Forall_app; split_and!; [done..|by repeat constructor]|].
  pose proof (realize_map_confined s e (e_open e) c Hw Hc Ht Hk) as H3.
  destruct (realize_map _ _ _ _) as [a3 [r|va]]; cbn [fst] in H3; rewrite !Forall_app; split_and!; by repeat constructor.
Qed.

Lemma open_confined s e c : Forall P (snd (handle_open_device s e c)).
Proof.
  unfold handle_open_device. cbv zeta. destruct (open_dev s e _ _) as [[fd acts]|] eqn:E; [|by repeat constructor].
  assert (Forall P acts) as Ha.
  { unfold open_dev in E. cbv zeta in E. repeat case_if_in E; try done; try (injection E as _ <-; repeat case_if; by repeat constructor).
    all: destruct (dev_id_to_path _); [|done]; repeat case_if_in E; injection E as _ <-; by repeat constructor. }
  case_if; [apply Forall_app; split; [done|by repeat constructor]|].
  assert (Forall P (acts ++ close_held s (rd 4 4 c))) by (apply Forall_app; split; [done|apply close_held_confined]).
  case_if; [apply Forall_app; split; [done|by repeat constructor]|].
  destruct (handle_remove _ _) as [s' rm] eqn:Er. cbn [snd]. apply Forall_app. split; [done|].
  unfold handle_remove in Er. case_if_in Er; injection Er as _ <-; [apply close_held_confined|constructor].
Qed.

Lemma receive_confined s c n scm : Forall P (snd (handle_receive_fd s c n scm)).
Proof.
  unfold handle_receive_fd. destruct scm as [fd|]; [|by repeat constructor].
  destruct (if _ && _ then _ else _) as [[s' fd'] acts] eqn:E. cbn [snd].
  assert (Forall P acts) as Ha.
  { case_if_in E; [|by injection E as _ _ <-; constructor]. destruct (uvm_pool s); [by injection E as _ _ <-; constructor|].
    case_if_in E; injection E as _ _ <-; by repeat constructor. }
  rewrite !Forall_app. split_and!; [done|apply close_held_confined|by repeat constructor].
Qed.

Lemma ioctl_confined s e c ms : Forall (confined taken base size) (snd (fst (handle_ioctl_cmd s e c ms))).
Proof.
  unfold handle_ioctl_cmd. cbv zeta. case_if; [by repeat constructor|].
  destruct (if 0 <? rd 4 12 c then _ else _) as [[p|] ms1]; [|by repeat constructor].
  destruct (if 0 <? rd 4 16 c then _ else _) as [[a|] ms2]; [|by repeat constructor].
  unfold enqueue_job. destruct (find_idx _ _); by repeat constructor.
Qed.

End Confined.

(** ** One command *)

Lemma open_kept s e c : kept (fst (handle_open_device s e c)) = kept s.
Proof.
  unfold handle_open_device. cbv zeta. destruct (open_dev s e _ _) as [[fd acts]|]; [|done]. case_if; [done|].
  case_if; [apply store_kept|]. rewrite <- (store_kept s (rd 4 4 c) fd (rd 4 8 c)).
  rewrite <- (remove_kept (handle_store _ _ _ _) (rd 4 4 c)). by destruct (handle_remove _ _).
Qed.

Lemma receive_kept s c n scm : kept (fst (handle_receive_fd s c n scm)) = kept s.
Proof.
  unfold handle_receive_fd. destruct scm as [fd|]; [|done]. destruct (if _ && _ then _ else _) as [[s' fd'] acts] eqn:E.
  cbn [fst]. rewrite store_kept. case_if_in E; [|by injection E as <- _ _].
  destruct (uvm_pool s); [by injection E as <- _ _|]. case_if_in E; by injection E as <- _ _.
Qed.

Lemma close_kept s id : kept (fst (handle_close_fd s id)) = kept s.
Proof.
  unfold handle_close_fd. case_if; [|done]. pose proof (remove_kept s id) as H. by destruct (handle_remove s id).
Qed.

Lemma ioctl_win s e c ms : win (fst (fst (handle_ioctl_cmd s e c ms))) = win s.
Proof.
  unfold handle_ioctl_cmd. cbv zeta. case_if; [done|].
  destruct (if 0 <? rd 4 12 c then _ else _) as [[p|] ms1]; [|done].
  destruct (if 0 <? rd 4 16 c then _ else _) as [[a|] ms2]; [|done].
  match goal with |- context [enqueue_job s ?j] => pose proof (enqueue_win s j) as H; by destruct (enqueue_job s j) end.
Qed.

(** Every command but the ioctl. *)
Lemma dispatch_plain (taken : list Z -> Prop) base size s e c n scm ms s' acts ms' q :
  win_ok s base size -> Forall byte c -> taken c -> Forall msg_ok ms -> rd 4 0 c <> ISOLATE_CMD_IOCTL ->
  stub_dispatch_cmd s e c n scm ms = (s', acts, ms', q) ->
  kept s' = kept s /\ Forall (plain taken base size) acts /\ Forall msg_ok ms'.
Proof.
  intros Hw Hc Ht Hm Hk H. unfold stub_dispatch_cmd in H. cbv zeta in H.
  case_if_in H; [injection H as <- <- <- _; split_and!; [apply receive_kept|apply receive_confined|done]|].
  case_if_in H.
  { injection H as <- <- <- _. split_and!; [apply close_kept| |done]. unfold handle_close_fd, handle_remove. repeat case_if; cbn [snd];
      rewrite ?Forall_app; split_and?; try apply close_held_confined; by repeat constructor. }
  rewrite (proj2 (Z.eqb_neq _ _) Hk) in H.
  case_if_in H; [injection H as <- <- <- _; split_and!; [done|by apply mmap_confined|done]|].
  case_if_in H; [injection H as <- <- <- _; split_and!; [done|by apply munmap_confined|done]|].
  case_if_in H; [injection H as <- <- <- _; split_and!; [done|by repeat constructor|done]|].
  case_if_in H; [injection H as <- <- <- _; split_and!; [apply arm_kept|by repeat constructor|done]|].
  case_if_in H; [injection H as <- <- <- _; split_and!; [apply disarm_kept|by repeat constructor|done]|].
  case_if_in H; [injection H as <- <- <- _; split_and!; [apply open_kept|apply open_confined|done]|].
  case_if_in H.
  { injection H as <- <- <- _. split_and!; [done| |done]. unfold handle_present_export. cbv zeta. cbn [snd]. case_if; [by repeat constructor|].
    destruct (e_prime e). case_if; by repeat constructor. }
  case_if_in H.
  { injection H as <- <- <- _. split_and!; [done| |done]. unfold handle_xiso_import. cbv zeta. cbn [snd]. destruct scm; [|by repeat constructor].
    case_if; [by repeat constructor|]. destruct (e_prime e). case_if; by repeat constructor. }
  case_if_in H.
  { pose proof (realize_confined taken base size s e c ms Hw Hc Ht ltac:(by zb)). pose proof (realize_msgs msg_ok s e c ms Hm).
    destruct (handle_realize_uvm_fd s e c ms) as [a1 m1]. injection H as <- <- <- _. done. }
  case_if_in H.
  { injection H as <- <- <- _. split_and!; [done| |done]. cbn [snd]. unfold interrupt_txn. case_if; [constructor|].
    destruct (List.find _ _) as [[tid x]|]; [|constructor]. case_if; by repeat constructor. }
  case_if_in H.
  { injection H as <- <- <- _. unfold setup_ring_cmd. cbv zeta. destruct scm; [|split_and!; [done|by repeat constructor|done]].
    destruct (StubRing.handle_setup_ring _ _ _ _ _); split_and!; try done; by repeat constructor. }
  case_if_in H.
  { injection H as <- <- <- _. unfold enter_loop_cmd. destruct (ring s); [case_if|]; split_and!; try done; by repeat constructor. }
  injection H as <- <- <- _. split_and!; [done|constructor|done].
Qed.

Lemma dispatch_ioctl s e c n scm ms :
  rd 4 0 c = ISOLATE_CMD_IOCTL -> stub_dispatch_cmd s e c n scm ms = (handle_ioctl_cmd s e c ms, false).
Proof. intros H. unfold stub_dispatch_cmd. by rewrite H. Qed.

Lemma plain_confined taken base size l : Forall (plain taken base size) l -> Forall (confined taken base size) l.
Proof. intros H. eapply Forall_impl; [exact H|]. by intros a [? _]. Qed.
Lemma plain_neutral taken base size l : Forall (plain taken base size) l -> Forall neutral l.
Proof. intros H. eapply Forall_impl; [exact H|]. by intros a [_ ?]. Qed.

Lemma dispatch_confined (taken : list Z -> Prop) base size s e c n scm ms s' acts ms' q :
  win_ok s base size -> Forall byte c -> taken c -> Forall msg_ok ms -> stub_dispatch_cmd s e c n scm ms = (s', acts, ms', q) ->
  win s' = win s /\ Forall (confined taken base size) acts /\ Forall msg_ok ms'.
Proof.
  intros Hw Hc Ht Hm H. destruct (Z.eq_dec (rd 4 0 c) ISOLATE_CMD_IOCTL) as [Hk|Hk].
  - rewrite dispatch_ioctl in H by done. pose proof (ioctl_win s e c ms). pose proof (ioctl_confined taken base size s e c ms).
    pose proof (ioctl_msgs msg_ok s e c ms Hm). destruct (handle_ioctl_cmd s e c ms) as [[s1 a1] m1]. by injection H as <- <- <- _.
  - destruct (dispatch_plain taken base size _ _ _ _ _ _ _ _ _ _ Hw Hc Ht Hm Hk H) as (H1 & H2 & H3).
    split_and!; [by apply kept_win|by apply plain_confined|done].
Qed.

Lemma fired_confined taken base size l : forall s,
  kept (fst (fired_all s l)) = kept s /\ Forall (plain taken base size) (snd (fired_all s l)).
Proof.
  induction l as [|[fd rev] l IH]; intros s; cbn [fired_all]; [split; [done|constructor]|].
  destruct (poll_fired s fd rev) as [s1 a1] eqn:E. specialize (IH s1). destruct (fired_all s1 l) as [s2 a2]. cbn [fst snd] in *.
  destruct IH as [-> H]. unfold poll_fired in E. cbv zeta in E. repeat case_if_in E; injection E as <- <-;
    (split; [try done; apply disarm_kept|apply Forall_app; split; [by repeat constructor|done]]).
Qed.

Lemma inflight_win s base size w txn : win_ok s base size -> win_ok (set_inflight s w txn) base size.
Proof. intros [H ? ? ?]. by constructor. Qed.

Lemma dequeue_win s j s' : dequeue_job s = Some (j, s') -> win s' = win s.
Proof.
  unfold dequeue_job. destruct (find_idx _ _); [|done]. destruct (queue s !! _) as [[j'|]|]; [|done..]. by intros [=_ <-].
Qed.

Lemma win_ok_ext s s' base size : win s' = win s -> win_ok s base size -> win_ok s' base size.
Proof. intros E [H ? ? ?]. by constructor; [rewrite E|..]. Qed.

Lemma step_confined (taken : list Z -> Prop) base size s v :
  ev_ok v -> win_ok (st s) base size /\ Forall msg_ok (inbox s) -> (forall c, Cmd c ∈ snd (sys_step s v) -> taken c) ->
  (win_ok (st (fst (sys_step s v))) base size /\ Forall msg_ok (inbox (fst (sys_step s v)))) /\
  Forall (confined taken base size) (snd (sys_step s v)).
Proof.
  intros Hv [Hw Hm]. assert ((win_ok (st s) base size /\ Forall msg_ok (inbox s)) /\ Forall (confined taken base size) []) as H0
    by (split; [done|constructor]).
  destruct v as [e|h|l|va k stack pay|w|w|w look va drv|w|w]; cbn [sys_step].
  - case_if; [done|]. unfold read_one. destruct (inbox s) as [|m ms]; [done|].
    apply Forall_cons in Hm as [Hm Hms]. cbv zeta.
    assert (Forall (confined taken base size) (match m_fd m with Some fd => [Got fd] | None => [] end)) as Hg
      by (destruct (m_fd m); by repeat constructor).
    case_if; [done|]. destruct (stub_dispatch_cmd _ _ _ _ _ _) as [[[s' acts] ms'] q] eqn:Ed. intros Ht.
    assert (taken (read_cmd m e)) as Htk by (apply Ht; cbn [snd]; apply elem_of_app; right; left).
    destruct (dispatch_confined taken base size _ _ _ _ _ _ _ _ _ _ Hw (read_cmd_bytes m e Hm Hv) Htk Hms Ed) as (H1 & H2 & H3).
    cbn [fst snd st inbox]. split; [split; [by apply (win_ok_ext (st s))|done]|apply Forall_app; split; [done|by constructor]].
  - case_if; (split; [|by repeat constructor]); [|done]. split; [|done]. by destruct Hw.
  - destruct (fired_confined taken base size l (st s)) as [H1 H2]. destruct (fired_all (st s) l) as [s' acts]. cbn [fst snd st inbox] in *.
    split; [split; [|done]|by apply plain_confined]. apply kept_win in H1. by apply (win_ok_ext (st s)).
  - case_if; [|done]. split; [done|]. cbn [snd]. apply Forall_fmap, Forall_forall. done.
  - destruct (busy s !! w); [done|]. destruct (dequeue_job (st s)) as [[j s']|] eqn:Eq; [|done].
    split; [split; [by eapply win_ok_ext; [by eapply dequeue_win|]|done]|constructor].
  - destruct (busy s !! w) as [[j|j fd ty|t r|t r]|]; try done. split; [done|]. cbn [snd]. case_if; by repeat constructor.
  - destruct (busy s !! w) as [[j|j fd ty|t r|t r]|]; try done. cbv zeta. unfold job_call.
    case_if; [done|]. destruct (prepare _ _ _ _ _ _) as [[[p1 a1] sv]|]; [|done]. intros _.
    split; [split; [by apply inflight_win|done]|by repeat constructor].
  - destruct (busy s !! w) as [[j|j fd ty|t r|t r]|]; try done. intros _. split; [split; [by apply inflight_win|done]|constructor].
  - destruct (busy s !! w) as [[j|j fd ty|t r|t r]|]; try done. split; [done|by repeat constructor].
Qed.

Lemma run_confined (taken : list Z -> Prop) base size l : forall s,
  win_ok (st s) base size -> Forall msg_ok (inbox s) -> Forall ev_ok l -> (forall c, Cmd c ∈ snd (run s l) -> taken c) ->
  win_ok (st (fst (run s l))) base size /\ Forall (confined taken base size) (snd (run s l)).
Proof.
  induction l as [|v l IH]; intros s Hw Hm Hl Ht; cbn [run] in *; [split; [done|constructor]|].
  apply Forall_cons in Hl as [Hv Hl]. pose proof (step_confined taken base size s v Hv (conj Hw Hm)) as H1.
  destruct (sys_step s v) as [s1 a1]. specialize (IH s1). destruct (run s1 l) as [s2 a2]. cbn [fst snd] in *.
  destruct H1 as [[Hw1 Hm1] H1]; [intros c Hc; apply Ht; by apply elem_of_app; left|].
  destruct (IH Hw1 Hm1 Hl) as [H2 H3]; [intros c Hc; apply Ht; by apply elem_of_app; right|].
  split; [done|by apply Forall_app].
Qed.

(** Mapped where it asks to be, replacing what is there. *)
Definition fixes (flags : Z) : bool := negb (Z.land flags MAP_FIXED =? 0).


(** ** Every ioctl is answered once *)
Definition asks (t : Z) (a : act) : bool := match a with Asked x => x =? t | _ => false end.
Definition answers (t : Z) (a : act) : bool := match a with Send (RIoctl x _) => x =? t | _ => false end.
Definition waits (t : Z) (x : option job) : bool := match x with Some j => j_txn j =? t | None => false end.

Definition w_txn (x : work) : Z := match x with WJob j | WFd j _ _ => j_txn j | WCall t _ | WResp t _ => t end.

Definition pending (t : Z) (s : sys) : Z :=
  count_if (waits t) (queue (st s)) + msum (fun x => b2n (w_txn x =? t)) (busy s).

Lemma neutral_zero t l : Forall neutral l -> count_if (asks t) l = 0 /\ count_if (answers t) l = 0.
Proof.
  intros H. rewrite !count_if_zero. split; (eapply Forall_impl; [exact H|]); intros a Ha; destruct a; try done.
  by destruct r.
Qed.

Lemma enqueue_balance t s j s' acts :
  enqueue_job s j = (s', acts) ->
  b2n (j_txn j =? t) + count_if (waits t) (queue s) = count_if (answers t) acts + count_if (waits t) (queue s') /\
  count_if (asks t) acts = 0.
Proof.
  unfold enqueue_job. destruct (find_idx _ (queue s)) as [i|] eqn:E; intros H; injection H as <- <-.
  - apply find_idx_Some in E as (x & Hx & He & _). destruct x; [done|]. cbn [queue set_queue].
    rewrite (count_if_insert _ _ _ _ _ Hx). cbn [waits b2n]. change (count_if (answers t) []) with 0. split; [lia|done].
  - rewrite !count_if_cons. cbn [answers asks b2n]. change (count_if (answers t) []) with 0. split; [lia|done].
Qed.

Lemma fail_balance t txn e : count_if (asks t) (Asked txn :: ioctl_fail txn e) = count_if (answers t) (Asked txn :: ioctl_fail txn e).
Proof.
  unfold ioctl_fail. rewrite !count_if_cons. cbn [asks answers b2n].
  change (count_if (asks t) []) with 0. change (count_if (answers t) []) with 0. lia.
Qed.

Lemma ioctl_balance t s e c ms s' acts ms' :
  handle_ioctl_cmd s e c ms = (s', acts, ms') ->
  count_if (asks t) acts + count_if (waits t) (queue s) = count_if (answers t) acts + count_if (waits t) (queue s').
Proof.
  unfold handle_ioctl_cmd. cbv zeta. intros H. case_if_in H; [injection H as <- <- _; by rewrite fail_balance|].
  destruct (if 0 <? rd 4 12 c then _ else _) as [[p|] ms1]; [|injection H as <- <- _; by rewrite fail_balance].
  destruct (if 0 <? rd 4 16 c then _ else _) as [[a|] ms2]; [|injection H as <- <- _; by rewrite fail_balance].
  destruct (enqueue_job _ _) as [s1 a1] eqn:Eq. injection H as <- <- _.
  destruct (enqueue_balance t _ _ _ _ Eq) as [H1 H2]. rewrite !count_if_cons. cbn [asks answers b2n j_txn] in *. lia.
Qed.

Lemma dequeue_balance t s j s' :
  dequeue_job s = Some (j, s') -> count_if (waits t) (queue s) = b2n (j_txn j =? t) + count_if (waits t) (queue s').
Proof.
  unfold dequeue_job. destruct (find_idx _ _) as [i|]; [|done]. destruct (queue s !! i) as [[j'|]|] eqn:E; [|done..].
  intros H. injection H as <- <-. cbn [queue set_queue]. rewrite (count_if_insert _ _ _ _ _ E). cbn [waits b2n]. lia.
Qed.

Lemma neutral_balance t s s' acts :
  kept s' = kept s -> Forall neutral acts ->
  count_if (asks t) acts + count_if (waits t) (queue s) = count_if (answers t) acts + count_if (waits t) (queue s').
Proof. intros Hk Hn. apply (neutral_zero t) in Hn as [-> ->]. apply (f_equal snd) in Hk. cbn in Hk. by rewrite Hk. Qed.

Lemma read_balance base size t s e s' acts :
  win_ok (st s) base size -> Forall msg_ok (inbox s) -> Forall byte (e_residue e) -> read_one s e = (s', acts) ->
  busy s' = busy s /\
  count_if (asks t) acts + count_if (waits t) (queue (st s)) = count_if (answers t) acts + count_if (waits t) (queue (st s')).
Proof.
  intros Hw Hm He H. unfold read_one in H. destruct (inbox s) as [|m ms]; [by injection H as <- <-|].
  apply Forall_cons in Hm as [Hm Hms]. cbv zeta in H.
  set (got := match m_fd m with Some fd => [Got fd] | None => [] end) in H.
  assert (Forall neutral got) as Hg by (unfold got; destruct (m_fd m); by repeat constructor).
  case_if_in H; [injection H as <- <-; split; [done|by apply neutral_balance]|].
  destruct (stub_dispatch_cmd _ _ _ _ _ _) as [[[s1 a1] ms1] q] eqn:Ed. injection H as <- <-. split; [done|].
  assert (count_if (asks t) a1 + count_if (waits t) (queue (st s)) = count_if (answers t) a1 + count_if (waits t) (queue s1)) as Hb.
  { destruct (Z.eq_dec (rd 4 0 (read_cmd m e)) ISOLATE_CMD_IOCTL) as [Hk|Hk].
    - rewrite dispatch_ioctl in Ed by done. injection Ed as Ed _. by apply (ioctl_balance t) in Ed.
    - destruct (dispatch_plain (fun _ => True) base size _ _ _ _ _ _ _ _ _ _ Hw (read_cmd_bytes m e Hm He) I Hms Hk Ed) as (H1 & H2 & _).
      apply plain_neutral in H2. by apply neutral_balance. }
  destruct (neutral_zero t got Hg) as [G1 G2]. rewrite !count_if_app, !count_if_cons, G1, G2. cbn [asks answers b2n st]. lia.
Qed.

(** A worker goes on with the same transaction. *)
Lemma work_balance t (b : gmap Z work) w x y :
  b !! w = Some x -> w_txn y = w_txn x -> msum (fun x => b2n (w_txn x =? t)) (<[w := y]> b) = msum (fun x => b2n (w_txn x =? t)) b.
Proof.
  intros Hb E. rewrite <- (insert_delete_id b w x Hb) at 2. rewrite <- insert_delete_eq, !msum_insert_new by apply lookup_delete_eq. by rewrite E.
Qed.

Lemma step_balance base size t s v :
  ev_ok v -> win_ok (st s) base size -> Forall msg_ok (inbox s) ->
  count_if (asks t) (snd (sys_step s v)) + pending t s =
  count_if (answers t) (snd (sys_step s v)) + pending t (fst (sys_step s v)).
Proof.
  intros Hv Hw Hm. unfold pending. destruct v as [e|h|l|va k stack pay|w|w|w look va drv|w|w]; cbn [sys_step].
  - case_if; [done|]. destruct (read_one s e) as [s' acts] eqn:Er.
    destruct (read_balance base size t s e s' acts Hw Hm Hv Er) as [Hbusy Hb]. cbn [fst snd]. rewrite Hbusy. lia.
  - case_if; [|done]. cbn [fst snd st busy set_looping queue]. rewrite !count_if_cons. done.
  - destruct (fired_confined (fun _ => True) base size l (st s)) as [H1 H2%plain_neutral]. destruct (fired_all (st s) l) as [s' acts].
    cbn [fst snd st busy] in *. pose proof (neutral_balance t _ _ _ H1 H2). lia.
  - case_if; [|done]. cbn [fst snd]. match goal with |- context [count_if (asks t) ?l] => destruct (neutral_zero t l) as [-> ->] end; [|done].
    apply Forall_fmap, Forall_forall. done.
  - destruct (busy s !! w) eqn:Eb; [done|]. destruct (dequeue_job (st s)) as [[j s']|] eqn:Eq; [|done]. cbn [fst snd st busy].
    rewrite (dequeue_balance t _ _ _ Eq), msum_insert_new by done. cbn [w_txn]. change (count_if (asks t) []) with 0. change (count_if (answers t) []) with 0. lia.
  - destruct (busy s !! w) as [[j|j fd ty|u r|u r]|] eqn:Eb; try done. cbn [fst snd set_work st busy]. rewrite (work_balance t _ _ _ _ Eb) by done.
    case_if; rewrite ?count_if_cons; done.
  - destruct (busy s !! w) as [[j|j fd ty|u r|u r]|] eqn:Eb; try done. cbv zeta. unfold job_call.
    case_if; [|destruct (prepare _ _ _ _ _ _) as [[[p1 a1] sv]|]]; cbn [fst snd set_work st busy]; rewrite (work_balance t _ _ _ _ Eb) by done; try done;
      rewrite ?count_if_cons; done.
  - destruct (busy s !! w) as [[j|j fd ty|u r|u r]|] eqn:Eb; try done. cbn [fst snd st busy]. by rewrite (work_balance t _ _ _ _ Eb).
  - destruct (busy s !! w) as [[j|j fd ty|u r|u r]|] eqn:Eb; try done. cbn [fst snd st busy].
    rewrite <- (insert_delete_id (busy s) w _ Eb) at 1. rewrite msum_insert_new by apply lookup_delete_eq.
    rewrite !count_if_cons. cbn [asks answers b2n w_txn]. change (count_if (asks t) []) with 0. change (count_if (answers t) []) with 0. lia.
Qed.

(** C24: every ioctl is answered exactly once.  However commands, workers, polls and
    the ring loop interleave: for each transaction the stub has sent as many
    ioctl answers as it accepted ioctl commands, but for those still in the queue
    or with a worker; so none is lost, also when the queue is full, the memory
    is out or the blob is too large, and none is answered twice. *)
Theorem stub_answers_once base size s l t :
  win_ok (st s) base size -> Forall msg_ok (inbox s) -> Forall ev_ok l -> pending t s = 0 ->
  let '(s', acts) := run s l in count_if (asks t) acts = count_if (answers t) acts + pending t s'.
Proof.
  intros Hw Hm Hl H0.
  assert (forall l s, win_ok (st s) base size -> Forall msg_ok (inbox s) -> Forall ev_ok l ->
    count_if (asks t) (snd (run s l)) + pending t s = count_if (answers t) (snd (run s l)) + pending t (fst (run s l))) as Hall.
  { clear. induction l as [|v l IH]; intros s Hw Hm Hl; cbn [run]; [done|]. apply Forall_cons in Hl as [Hv Hl].
    pose proof (step_balance base size t s v Hv Hw Hm) as H1. destruct (step_confined (fun _ => True) base size s v Hv (conj Hw Hm) ltac:(done)) as [[Hw1 Hm1] _].
    destruct (sys_step s v) as [s1 a1]. cbn [fst snd] in *. specialize (IH s1 Hw1 Hm1 Hl). destruct (run s1 l) as [s2 a2].
    cbn [fst snd] in *. rewrite !count_if_app. lia. }
  specialize (Hall l s Hw Hm Hl). destruct (run s l) as [s' acts]. cbn [fst snd] in Hall. lia.
Qed.

(** ** Framing *)

(** What the host sends for one request. *)
Inductive hreq :=
| HPlain (m : msg)
| HIoctl (hdr p a : list Z)
| HRealize (hdr state intent : list Z).

Definition blob (b : list Z) : list msg := match b with [] => [] | _ => [Msg b None] end.
Definition msgs_of (r : hreq) : list msg :=
  match r with
  | HPlain m => [m]
  | HIoctl hdr p a => Msg hdr None :: blob p ++ blob a
  | HRealize hdr state intent => Msg hdr None :: blob state ++ blob intent
  end.
Definition head_of (r : hreq) : list Z :=
  match r with HPlain m => m_bytes m | HIoctl hdr _ _ => hdr | HRealize hdr _ _ => hdr end.

Definition plain_types : list Z := [1; 2; 4; 5; 6; 7; 9; 11; 12; 13; 14; 15; 16].

Definition hreq_ok (r : hreq) : Prop :=
  Forall msg_ok (msgs_of r) /\
  match r with
  | HPlain m => 4 <= arr_len (m_bytes m) /\ rd 4 0 (m_bytes m) ∈ plain_types
  | HIoctl hdr p a =>
      arr_len hdr = 32 /\ rd 4 0 hdr = ISOLATE_CMD_IOCTL /\ rd 4 12 hdr = arr_len p /\ rd 4 16 hdr = arr_len a /\
      arr_len p <= MAX_PARAM_SIZE /\ arr_len a <= MAX_PARAM_SIZE
  | HRealize hdr state intent =>
      arr_len hdr = 56 /\ rd 4 0 hdr = ISOLATE_CMD_REALIZE_UVM_FD /\ rd 4 12 hdr = sizeof_state /\ arr_len state = sizeof_state /\
      rd 4 16 hdr = arr_len intent /\ 0 < arr_len intent <= 65536 /\
      rd 4 8 state <= STUB_MAX_REG /\ rd 4 12 state <= STUB_MAX_REG /\ rd 4 16 state <= STUB_MAX_REG
  end.

Lemma rd_app_l n off b r : 0 <= off -> off + Z.of_nat n <= arr_len b -> rd n off (b ++ r) = rd n off b.
Proof.
  intros H0 H. unfold rd, arr_len in *. rewrite drop_app_le by lia. rewrite take_app_le; [done|]. rewrite length_drop. lia.
Qed.

Lemma rd_cmd n off m e :
  0 <= off -> off + Z.of_nat n <= arr_len (m_bytes m) -> arr_len (m_bytes m) <= 56 -> rd n off (read_cmd m e) = rd n off (m_bytes m).
Proof.
  intros H0 H1 H2. unfold read_cmd. rewrite take_ge by (unfold arr_len in *; unfold sizeof_cmd; lia). by apply rd_app_l.
Qed.

(** The type is always in the first bytes. *)
Lemma rd_type m e : 4 <= arr_len (m_bytes m) -> rd 4 0 (read_cmd m e) = rd 4 0 (m_bytes m).
Proof.
  intros H. unfold read_cmd. rewrite rd_app_l; [|lia|unfold arr_len in *; rewrite length_take; unfold sizeof_cmd; lia].
  rewrite <- (take_drop sizeof_cmd (m_bytes m)) at 2. rewrite rd_app_l; [done|lia|].
  unfold arr_len in *. rewrite length_take. unfold sizeof_cmd. lia.
Qed.

Lemma recv_blob b ms : b <> [] -> recv_full (length b) (Msg b None :: ms) = (Some b, ms).
Proof.
  intros Hb. destruct b as [|x b]; [done|]. cbn [recv_full length m_bytes]. rewrite Nat.sub_diag.
  destruct ms; cbn [recv_full]; by rewrite take_ge, app_nil_r by (simpl; lia).
Qed.

Definition cmds (l : list act) : list (list Z) := omap (fun a => match a with Cmd c => Some c | _ => None end) l.

Lemma cmds_app l1 l2 : cmds (l1 ++ l2) = cmds l1 ++ cmds l2.
Proof. apply omap_app. Qed.
Lemma cmds_neutral l : Forall neutral l -> cmds l = [].
Proof. induction 1 as [|a l Ha _ IH]; [done|]. destruct a; try done; exact IH. Qed.

Lemma plain_dispatch s e c n scm ms s' acts ms' q :
  rd 4 0 c ∈ plain_types -> stub_dispatch_cmd s e c n scm ms = (s', acts, ms', q) -> ms' = ms /\ q = false.
Proof.
  intros Hk H. unfold plain_types in Hk. rewrite !elem_of_cons, elem_of_nil in Hk. unfold stub_dispatch_cmd in H.
  repeat destruct Hk as [Hk|Hk]; try done; rewrite Hk in H; cbn in H; by injection H as _ _ <- <-.
Qed.

Lemma blob_read (b : list Z) ms alloc :
  alloc = true ->
  (if 0 <? arr_len b then if alloc then recv_full (Z.to_nat (arr_len b)) (blob b ++ ms) else (None, blob b ++ ms)
   else (Some [], blob b ++ ms)) = (Some b, ms).
Proof.
  intros ->. destruct b as [|x b]; [done|]. rewrite (proj2 (Z.ltb_lt _ _)) by (unfold arr_len; simpl; lia).
  unfold arr_len. rewrite Nat2Z.id. by apply (recv_blob (x :: b) ms).
Qed.

Lemma framed_ioctl s e hdr p a ms :
  hreq_ok (HIoctl hdr p a) -> e_alloc e = true -> e_alloc2 e = true ->
  let c := read_cmd (Msg hdr None) e in
  exists s' acts, handle_ioctl_cmd s e c (blob p ++ blob a ++ ms) = (s', acts, ms) /\ cmds acts = [].
Proof.
  intros (_ & Hl & Ht & Hp & Ha & Mp & Ma) H1 H2. cbv zeta. unfold handle_ioctl_cmd. cbv zeta.
  rewrite !(rd_cmd 4 _ (Msg hdr None)) by (cbn [m_bytes]; lia). cbn [m_bytes]. rewrite Hp, Ha.
  rewrite (proj2 (Z.ltb_ge _ _)), (proj2 (Z.ltb_ge MAX_PARAM_SIZE (arr_len a))) by done. cbn [orb].
  rewrite blob_read by done. rewrite blob_read by done.
  unfold enqueue_job. destruct (find_idx _ _); by do 2 eexists.
Qed.

Lemma framed_realize s e hdr state intent ms :
  hreq_ok (HRealize hdr state intent) -> e_alloc e = true ->
  snd (handle_realize_uvm_fd s e (read_cmd (Msg hdr None) e) (blob state ++ blob intent ++ ms)) = ms.
Proof.
  intros (_ & Hl & Ht & Hs & Ls & Hi & Li & G1 & G2 & G3) H1. unfold handle_realize_uvm_fd. cbv zeta.
  rewrite !(rd_cmd 4 _ (Msg hdr None)) by (cbn [m_bytes]; lia). cbn [m_bytes]. rewrite Hs, Hi, Z.eqb_refl. cbn [negb].
  assert (state <> [] /\ intent <> []) as [N1 N2] by (split; intros ->; [discriminate Ls|unfold arr_len in Li; simpl length in Li; lia]).
  assert (forall b rest, b <> [] -> recv_full (Z.to_nat (arr_len b)) (blob b ++ rest) = (Some b, rest)) as Hr.
  { intros b rest Hb. unfold arr_len. rewrite Nat2Z.id. rewrite <- (recv_blob b rest Hb) at 1. by destruct b. }
  rewrite <- Ls, Hr by done. rewrite !(proj2 (Z.ltb_ge STUB_MAX_REG _)) by done. cbn [orb].
  rewrite (proj2 (Z.eqb_neq _ _)), (proj2 (Z.ltb_ge _ _)) by lia. cbn [orb]. rewrite H1. cbn [negb].
  rewrite Hr by done. by case_if.
Qed.

Lemma got_cmds m : cmds (match m_fd m with Some fd => [Got fd] | None => [] end) = [].
Proof. by destruct (m_fd m). Qed.

(** One read takes one request. *)
Lemma read_framed base size s e r ms :
  win_ok (st s) base size -> Forall msg_ok (inbox s) -> Forall byte (e_residue e) -> e_alloc e = true -> e_alloc2 e = true ->
  hreq_ok r -> inbox s = msgs_of r ++ ms ->
  exists s' acts c, read_one s e = (s', acts) /\ inbox s' = ms /\ quit s' = false /\ cmds acts = [c] /\
    take (Nat.min sizeof_cmd (length (head_of r))) c = take sizeof_cmd (head_of r).
Proof.
  intros Hw Hm He H1 H2 Hr Hi. rewrite Hi in Hm. unfold read_one. rewrite Hi.
  assert (exists m rest, msgs_of r = m :: rest /\ m_bytes m = head_of r /\ 4 <= arr_len (head_of r)) as (m & rest & Em & Eh & Hl).
  { destruct r as [m|hdr p a|hdr q i]; destruct Hr as [_ Hr]; cbn [msgs_of head_of] in *; do 2 eexists; split; try done; split; try done; lia. }
  rewrite Em. cbn [app]. cbv zeta. rewrite Eh.
  rewrite (proj2 (Z.ltb_ge _ _)) by (unfold arr_len in *; rewrite length_take; unfold sizeof_cmd; lia).
  rewrite Em in Hm. cbn [app] in Hm. apply Forall_cons in Hm as [Hm Hms].
  assert (rd 4 0 (read_cmd m e) = rd 4 0 (head_of r)) as Hk by (rewrite rd_type; rewrite Eh; done).
  assert (take (Nat.min sizeof_cmd (length (head_of r))) (read_cmd m e) = take sizeof_cmd (head_of r)) as Hc.
  { unfold read_cmd. rewrite Eh. rewrite take_app_le by (rewrite length_take; lia). apply take_ge. rewrite length_take. lia. }
  destruct (stub_dispatch_cmd _ _ _ _ _ _) as [[[s' acts] ms'] q] eqn:Ed.
  assert (ms' = ms /\ q = false /\ cmds acts = []) as (-> & -> & Hcm).
  2: { do 2 eexists; exists (read_cmd m e). split; [reflexivity|]. split_and!; [done|done| |exact Hc]. rewrite cmds_app, got_cmds.
       transitivity (read_cmd m e :: cmds acts); [done|by rewrite Hcm]. }
  destruct r as [m'|hdr p a|hdr state intent]; cbn [msgs_of head_of] in *.
  - injection Em as -> <-. destruct Hr as [_ [_ Hp]]. rewrite <- Hk in Hp. destruct (plain_dispatch _ _ _ _ _ _ _ _ _ _ Hp Ed) as [-> ->].
    split_and!; [done..|]. apply cmds_neutral, (plain_neutral (fun _ => True) base size). eapply dispatch_plain; [done|by apply read_cmd_bytes|done|exact Hms| |exact Ed].
    intros E. rewrite E in Hp. unfold plain_types in Hp. set_solver.
  - injection Em as <- <-. assert (rd 4 0 hdr = ISOLATE_CMD_IOCTL) as Ht by apply Hr.
    rewrite dispatch_ioctl in Ed by (rewrite Hk; done). rewrite <- app_assoc in Ed.
    destruct (framed_ioctl (st s) e hdr p a ms Hr H1 H2) as (s1 & a1 & E1 & E2). rewrite E1 in Ed. by injection Ed as _ <- <- <-.
  - injection Em as <- <-. assert (rd 4 0 hdr = ISOLATE_CMD_REALIZE_UVM_FD) as Ht by apply Hr.
    pose proof (framed_realize (st s) e hdr state intent ms Hr H1) as Hf. rewrite <- app_assoc in Ed. rewrite <- app_assoc in Hms.
    assert (cmds acts = []) as Hca.
    { apply cmds_neutral, (plain_neutral (fun _ => True) base size). eapply dispatch_plain; [done|by apply read_cmd_bytes|done|exact Hms| |exact Ed].
      rewrite Hk, Ht. done. }
    unfold stub_dispatch_cmd in Ed. rewrite Hk, Ht in Ed. cbn in Ed.
    destruct (handle_realize_uvm_fd _ _ _ _) as [a1 m1]. cbn [snd] in Hf. by injection Ed as _ <- <- <-.
Qed.

(** The reader never mistakes data for a command.  When the host's requests
    are well formed, within the sizes the stub takes, and memory is available,
    then reading as many times as there are requests takes exactly their headers
    as commands, in order, and leaves what comes behind them; the blobs in
    between are never taken as commands. *)
Theorem reader_framed base size rs : forall s es rest,
  win_ok (st s) base size -> Forall msg_ok rest -> Forall hreq_ok rs -> quit s = false ->
  Forall (fun e => Forall byte (e_residue e) /\ e_alloc e = true /\ e_alloc2 e = true) es -> length es = length rs ->
  inbox s = concat (msgs_of <$> rs) ++ rest ->
  let '(s', acts) := run s (Read <$> es) in
  quit s' = false /\ inbox s' = rest /\
  Forall2 (fun r c => take (Nat.min sizeof_cmd (length (head_of r))) c = take sizeof_cmd (head_of r)) rs (cmds acts).
Proof.
  induction rs as [|r rs IH]; intros s es rest Hw Hr Hok Hq He Hl Hi.
  { destruct es; [|done]. cbn. split_and!; [done|exact Hi|constructor]. }
  destruct es as [|e es]; [done|]. apply Forall_cons in Hok as [Hr1 Hok]. apply Forall_cons in He as [(E1 & E2 & E3) He].
  cbn [fmap list_fmap run concat sys_step]. rewrite Hq. cbn [fmap list_fmap concat] in Hi. rewrite <- app_assoc in Hi.
  assert (Forall msg_ok (concat (msgs_of <$> rs) ++ rest)) as Hms.
  { apply Forall_app. split; [|done]. apply Forall_concat, Forall_fmap. eapply Forall_impl; [exact Hok|]. by intros x [Hx _]. }
  assert (Forall msg_ok (inbox s)) as Hm by (rewrite Hi; apply Forall_app; split; [apply Hr1|done]).
  destruct (read_framed base size s e r _ Hw Hm E1 E2 E3 Hr1 Hi) as (s1 & a1 & c & Hrd & Hi1 & Hq1 & Hc1 & Ht). rewrite Hrd.
  destruct (step_confined (fun _ => True) base size s (Read e) E1 (conj Hw Hm) ltac:(done)) as [[Hw1 _] _]. cbn [sys_step] in Hw1. rewrite Hq, Hrd in Hw1.
  specialize (IH s1 es rest Hw1 Hr Hok Hq1 He ltac:(by injection Hl) Hi1). destruct (run s1 (Read <$> es)) as [s2 a2].
  destruct IH as (Q1 & Q2 & Q3). split_and!; [done..|]. rewrite cmds_app, Hc1. by constructor.
Qed.

(** ** Concrete runs *)
Definition words (l : list Z) : list Z := concat (le_bytes 4 <$> l).
Definition base0 : Z := 0x700000000000.
Definition stub0 : stub := Stub ∅ [] job_queue_init [] 0 base0 STUB_WINDOW_SIZE None false [(100, 0); (101, 0)].
Definition env0 : env :=
  Env (replicate 56 0) 9 10 11 true (Some base0) (0, 7) true true 0 true (fun _ => (0, 0)) [].

Lemma win_ok0 : win_ok stub0 base0 STUB_WINDOW_SIZE.
Proof. by constructor. Qed.

(** Opening [nvidiactl] as [id], mapping a page of it and taking it back. *)
Definition open_cmd (id : Z) : msg := Msg (words [9; id; 0; 2; 1]) None.
Definition mmap_cmd (id va len : Z) : msg := Msg (words [4; id] ++ le_bytes 8 va ++ le_bytes 8 len ++ le_bytes 8 0 ++ words [3; 1]) None.
Definition munmap_cmd (va len : Z) : msg := Msg (words [5; 0] ++ le_bytes 8 va ++ le_bytes 8 len) None.
Definition ioctl_hdr (txn psize asize : Z) : list Z := words [3; 5; 0; psize; asize; 0; txn; 0].
Definition map_run : sys := Sys stub0 [open_cmd 5; mmap_cmd 5 base0 4096; mmap_cmd 5 4096 4096; munmap_cmd base0 4096] ∅ false.


(** A REALIZE_UVM_FD with no address and MAP_FIXED among its flags: the stub asks
    for a mapping at address 0.  QEMU, which sends these, masks the flags. *)
Definition realize_cmd (flags : Z) : list msg :=
  [Msg (words [10; 7; 1; sizeof_state; 4; 3; flags; 0] ++ le_bytes 8 4096 ++ le_bytes 8 0 ++ le_bytes 8 0) None;
   Msg (replicate (Z.to_nat sizeof_state) 0) None; Msg [0; 0; 0; 0] None].

Lemma realize_maps_at_zero : Mmap 0 4096 3 17 11 0 ∈ snd (run (Sys stub0 (realize_cmd 17) ∅ false) [Read env0]).
Proof. apply list_elem_of_In. vm_compute. tauto. Qed.

Definition ioctl_run : sys := Sys stub0 [Msg (ioctl_hdr 7 8 0) None; Msg (words [1; 2]) None] ∅ false.
Definition nobody (_ : Z) : Z := -1.
Definition no_driver : driver := fun _ _ p a => (0, p, a).

Lemma stub_answers_once_witness :
  pending 7 (fst (run ioctl_run [Read env0; Take 1])) = 1 /\
  let '(s', acts) := run ioctl_run [Read env0; Take 1; Look 1; Call 1 nobody 0 no_driver; Ret 1; Done 1] in
  count_if (asks 7) acts = count_if (answers 7) acts + pending 7 s'.
Proof.
  split; [by vm_compute|].
  apply (stub_answers_once base0 STUB_WINDOW_SIZE ioctl_run [Read env0; Take 1; Look 1; Call 1 nobody 0 no_driver; Ret 1; Done 1] 7);
    [exact win_ok0| | |reflexivity]; repeat constructor; discriminate.
Defined.

(** The parameter blob of this ioctl would be a fine command: it is not taken as one. *)
Definition close_blob : list Z := words [2; 5].
Definition framed_reqs : list hreq := [HIoctl (ioctl_hdr 7 8 0) close_blob []; HPlain (open_cmd 5)].

Lemma reader_framed_witness :
  let '(s', acts) := run (Sys stub0 (concat (msgs_of <$> framed_reqs) ++ []) ∅ false) (Read <$> [env0; env0]) in
  quit s' = false /\ inbox s' = [] /\
  Forall2 (fun r c => take (Nat.min sizeof_cmd (length (head_of r))) c = take sizeof_cmd (head_of r)) framed_reqs (cmds acts).
Proof.
  apply (reader_framed base0 STUB_WINDOW_SIZE framed_reqs); [exact win_ok0|constructor| |reflexivity| |reflexivity|reflexivity].
  - constructor; [|constructor; [|constructor]].
    + split; [repeat constructor; discriminate|]. by vm_compute.
    + split; [repeat constructor; discriminate|]. split; [by vm_compute|]. apply list_elem_of_In. vm_compute. tauto.
  - repeat constructor; discriminate.
Defined.

(** ** Where framing is lost *)

(** Without memory for the parameter blob, the blob stays in the socket and is
    taken as the next command: here it closes handle 5. *)
Definition env_oom : env :=
  Env (replicate 56 0) 9 10 11 true None (0, 7) false true 0 true (fun _ => (0, 0)) [].

Lemma oom_blob_is_a_command :
  let '(s', acts) := run (Sys stub0 (concat (msgs_of <$> [HPlain (open_cmd 5); HIoctl (ioctl_hdr 7 8 0) close_blob []])) ∅ false)
                         [Read env0; Read env_oom; Read env0] in
  Close 11 ∈ acts /\ handle_lookup (st s') 5 = -1.
Proof. vm_compute. split; [|done]. apply list_elem_of_In. cbn. tauto. Qed.

(** The same for a blob beyond [MAX_PARAM_SIZE], which is refused unread. *)
Lemma oversize_blob_is_a_command :
  let big := close_blob ++ replicate (Z.to_nat MAX_PARAM_SIZE) 0 in
  let '(s', acts) := run (Sys stub0 [open_cmd 5; Msg (ioctl_hdr 7 (arr_len big) 0) None; Msg big None] ∅ false)
                         [Read env0; Read env0; Read env0] in
  Close 11 ∈ acts /\ handle_lookup (st s') 5 = -1.
Proof. vm_compute. split; [|done]. apply list_elem_of_In. cbn. tauto. Qed.

(** ** The intent's status *)

(** The status word of a semaphore-pool allocation is at 9240 of its 9248 bytes.
    A refused allocation, all of whose other words are zero, passes for a
    success: the stub looks at the word behind it. *)
Definition pool_refused : list Z := replicate 9240 0 ++ le_bytes 4 0x51 ++ le_bytes 4 0.

Lemma realize_ignores_status n intent :
  let e := Env [] 0 0 0 true None (0, 0) true true 0 true (fun _ => (0, 0)) pool_refused in
  rd 4 9240 (e_intent e) = 0x51 /\
  snd (realize_intent e 11 1 (arr_len pool_refused) intent n) = None.
Proof. split; by vm_compute. Qed.

(** An intent of fewer than four bytes is accepted, and read before its start. *)
Lemma realize_reads_before_intent e fd intent n : Peek (-1) ∈ fst (realize_intent e fd 1 3 intent n).
Proof. unfold realize_intent. cbn. repeat case_if; set_solver. Qed.

(** ** Blobs and paths *)

(** What is mapped for a parameter blob is what is unmapped for it. *)
Lemma param_alloc_unmapped psize cmd :
  0 < psize <= MAX_PARAM_SIZE -> 0 <= cmd -> param_alloc psize cmd = blob_unmapped psize /\ psize <= param_alloc psize cmd.
Proof.
  intros Hp Hc. unfold MAX_PARAM_SIZE in Hp. unfold param_alloc, blob_unmapped, blob_mapped.
  assert (0 <= StubRing.ioc_size cmd) by (unfold StubRing.ioc_size; apply Z.land_nonneg; right; done).
  rewrite !page_up_eq by (repeat case_if; zb; lia). repeat case_if; zb; Z.div_mod_to_equations; lia.
Qed.

(** A device id opens one of 34 device files, and never [nvidia-uvm]. *)
Lemma dev_path_bounded dev path :
  dev_id_to_path dev = Some path -> 0 <= dev < 49 /\ (String.length path < 24)%nat /\ path <> "nvidia-uvm"%string.
Proof.
  intros H. assert (0 <= dev < 49) as Hd by (unfold dev_id_to_path in H; repeat case_if_in H; try done; zb; lia).
  split; [done|]. revert path H.
  assert (forallb (fun d => match dev_id_to_path d with
    | Some p => Nat.ltb (String.length p) 24 && negb (String.eqb p "nvidia-uvm") | None => true end) (seqZ 0 49) = true) as Hall by by vm_compute.
  intros path H. rewrite forallb_forall in Hall. specialize (Hall dev ltac:(apply list_elem_of_In, elem_of_seqZ; lia)).
  rewrite H in Hall.
  apply andb_prop in Hall as [H1 H2]. apply Nat.ltb_lt in H1. apply negb_true_iff, String.eqb_neq in H2. done.
Qed.

End StubReader.
