(* ===== verification/StubFds.v ===== *)
(** * StubFds: the descriptors of the isolate stub

    Follows the process's open descriptors through the actions of [StubReader]:
    the handle table and the pool of UVM descriptors own what they hold, the
    reader's thread uses and closes only open descriptors, between commands
    nothing is left over, and a worker makes its ioctl on the descriptor it
    found in the table, which the reader may have closed since. *)
From stdpp Require Import strings.
From S2P Require Import Prelude Bytes Abi StubJob StubRing StubTable StubReader.

Module StubFds.
Import StubJob StubTable StubReader.

(** ** Open descriptors *)
Definition after1 (o : gset Z) (a : act) : gset Z :=
  match a with Got fd => {[fd]} ∪ o | Close fd => o ∖ {[fd]} | _ => o end.
Definition after (o : gset Z) (l : list act) : gset Z := fold_left after1 l o.

(** The kernel hands out descriptors that are not open. *)
Fixpoint fresh (o : gset Z) (l : list act) : Prop :=
  match l with
  | [] => True
  | a :: l => match a with Got fd => 0 <= fd /\ fd ∉ o | _ => True end /\ fresh (after1 o a) l
  end.

(** The actions are the reader thread's, and every descriptor used or closed is
    open at that time. *)
Fixpoint uses (o : gset Z) (l : list act) : Prop :=
  match l with
  | [] => True
  | a :: l =>
      match a with
      | Close fd | SendFd _ fd | Ioctl fd _ _ | Mmap _ _ _ _ fd _ => fd ∈ o
      | Looked _ _ | WIoctl _ _ _ _ => False
      | _ => True
      end /\ uses (after1 o a) l
  end.

Lemma after_app l1 l2 o : after o (l1 ++ l2) = after (after o l1) l2.
Proof. apply fold_left_app. Qed.
Lemma fresh_app l1 : forall l2 o, fresh o (l1 ++ l2) <-> fresh o l1 /\ fresh (after o l1) l2.
Proof. induction l1 as [|a l1 IH]; intros l2 o; cbn; [tauto|]. rewrite IH. tauto. Qed.
Lemma uses_app l1 : forall l2 o, uses o (l1 ++ l2) <-> uses o l1 /\ uses (after o l1) l2.
Proof. induction l1 as [|a l1 IH]; intros l2 o; cbn; [tauto|]. rewrite IH. tauto. Qed.

(** ** Ownership *)
Definition nonneg (l : list Z) : list Z := base.filter (fun fd => 0 <= fd) l.

(** The table and the pool hold open descriptors, each of them once. *)
Record owned (s : stub) (o : gset Z) : Prop := {
  ow_tab : forall id fd dev, handles s !! id = Some (fd, dev) -> 0 <= fd /\ fd ∈ o /\ fd ∉ uvm_pool s /\ id < MAX_HANDLES;
  ow_inj : forall i j fd d d', handles s !! i = Some (fd, d) -> handles s !! j = Some (fd, d') -> i = j;
  ow_pool : forall fd, fd ∈ uvm_pool s -> 0 <= fd -> fd ∈ o;
  ow_once : NoDup (nonneg (uvm_pool s)) }.

Definition held (s : stub) (fd : Z) : Prop := (exists id dev, handles s !! id = Some (fd, dev)) \/ (fd ∈ uvm_pool s /\ 0 <= fd).

#[export] Instance held_dec s fd : Decision (held s fd).
Proof.
  apply or_dec; [|apply _].
  refine (cast_if (decide (Exists (fun x => fst (snd x) = fd) (map_to_list (handles s))))).
  - abstract (apply Exists_exists in e as ([id [f dev]] & Hx & <-); exists id, dev; by apply elem_of_map_to_list).
  - abstract (intros (id & dev & H); apply n, Exists_exists; exists (id, (fd, dev)); split; [by apply elem_of_map_to_list|done]).
Defined.

(** A descriptor that is open and nobody's. *)
Definition spare (s : stub) (o : gset Z) (fd : Z) : Prop := 0 <= fd /\ fd ∈ o /\ ~ held s fd.

Definition table (s : stub) : gmap Z (Z * Z) * list Z := (handles s, uvm_pool s).

Lemma owned_ext s s' o : table s' = table s -> owned s o -> owned s' o.
Proof. intros H. unfold table in H. injection H as H1 H2. intros [? ? ? ?]. constructor; rewrite ?H1, ?H2; done. Qed.
Lemma held_ext s s' fd : table s' = table s -> held s' fd <-> held s fd.
Proof. intros H. unfold table in H. injection H as H1 H2. unfold held. by rewrite H1, H2. Qed.

Lemma owned_mono s o o' : o ⊆ o' -> owned s o -> owned s o'.
Proof. intros Ho [H1 H2 H3 H4]. constructor; try done; [intros id fd dev H; destruct (H1 _ _ _ H) as (? & ? & ? & ?)|]; set_solver. Qed.

(** Closing a spare descriptor. *)
Lemma owned_close s o fd : owned s o -> ~ held s fd -> owned s (o ∖ {[fd]}).
Proof.
  intros [H1 H2 H3 H4] Hs. constructor; try done.
  - intros id f dev H. destruct (H1 _ _ _ H) as (? & ? & ? & ?). split_and!; try done.
    assert (f <> fd) by (intros ->; apply Hs; left; by do 2 eexists). set_solver.
  - intros f Hf H0. assert (f <> fd) by (intros ->; apply Hs; by right). specialize (H3 f Hf H0). set_solver.
Qed.

Lemma lookup_held s o id : owned s o -> 0 <= handle_lookup s id -> handle_lookup s id ∈ o /\ exists dev, handles s !! id = Some (handle_lookup s id, dev) /\ id < MAX_HANDLES.
Proof.
  intros Ho H. unfold handle_lookup in *. destruct (Z.leb_spec MAX_HANDLES id); [lia|].
  destruct (handles s !! id) as [[fd dev]|] eqn:E; [|lia]. destruct (ow_tab _ _ Ho _ _ _ E) as (_ & ? & _). split; [done|]. by exists dev.
Qed.

(** *** Storing and removing *)
Definition unheld (s : stub) (id : Z) : stub := set_handles s (delete id (handles s)).

Lemma unheld_owned s o id : owned s o -> owned (unheld s id) o.
Proof.
  intros [H1 H2 H3 H4]. constructor; cbn; try done.
  - intros i fd dev H. apply lookup_delete_Some in H as [_ H]. by apply (H1 i fd dev).
  - intros i j fd d d' Hi Hj. apply lookup_delete_Some in Hi as [_ Hi]. apply lookup_delete_Some in Hj as [_ Hj]. by apply (H2 i j fd d d').
Qed.

(** After the held descriptor of [id] was closed, the table without [id] is sound. *)
Lemma close_held_owned s o id :
  owned s o -> uses o (close_held s id) /\ owned (unheld s id) (after o (close_held s id)) /\
  (forall fd, fd ∈ after o (close_held s id) -> held s fd -> held (unheld s id) fd \/ MAX_HANDLES <= id).
Proof.
  intros Ho. unfold close_held. destruct (Z.ltb_spec id MAX_HANDLES); cbn [andb].
  2: { split; [done|]. split; [by apply unheld_owned|]. auto. }
  destruct (Z.leb_spec 0 (handle_lookup s id)) as [Hl|Hl].
  - destruct (lookup_held s o id Ho Hl) as (Hin & dev & Hd & _). cbn. split; [done|]. split.
    + apply owned_close; [by apply unheld_owned|]. intros [(j & d & Hj)|[Hp _]]; cbn in *.
      * apply lookup_delete_Some in Hj as [Hne Hj]. apply Hne. by apply (ow_inj _ _ Ho _ _ _ _ _ Hd Hj).
      * by destruct (ow_tab _ _ Ho _ _ _ Hd) as (_ & _ & Hx & _).
    + intros fd Hf [(j & d & Hj)|Hp]; left; [|by right]. left. exists j, d. cbn. apply lookup_delete_Some. split; [|done].
      intros ->. rewrite Hd in Hj. injection Hj as <- _. set_solver.
  - split; [done|]. split; [by apply unheld_owned|]. intros fd _ [(j & d & Hj)|Hp]; left; [|by right].
    left. exists j, d. cbn. apply lookup_delete_Some. split; [|done]. intros ->. unfold handle_lookup in Hl.
    rewrite (proj2 (Z.leb_gt MAX_HANDLES j)), Hj in Hl by lia. destruct (ow_tab _ _ Ho _ _ _ Hj); lia.
Qed.

Lemma store_owned s o id fd dev :
  owned s o -> spare s o fd -> handles s !! id = None -> owned (handle_store s id fd dev) o.
Proof.
  intros Ho (H0 & Hin & Hn) Hid. unfold handle_store. case_if; [|done]. zb. destruct Ho as [H1 H2 H3 H4]. constructor; cbn; try done.
  - intros i f d H. apply lookup_insert_Some in H as [[<- [= <- <-]]|[_ H]]; [|by apply (H1 i f d)].
    split_and!; try done. intros Hp. apply Hn. by right.
  - assert (forall j d, handles s !! j <> Some (fd, d)) as Hno by (intros j d Hj; apply Hn; left; by do 2 eexists).
    intros i j f d d' Hi Hj. apply lookup_insert_Some in Hi as [[<- [= <- <-]]|[_ Hi]];
      apply lookup_insert_Some in Hj as [[<- Hj]|[_ Hj]].
    + done.
    + by apply Hno in Hj.
    + injection Hj as <- _. by apply Hno in Hi.
    + by apply (H2 i j f d d').
Qed.

Lemma store_unheld s id fd dev : table (handle_store (unheld s id) id fd dev) = table (handle_store s id fd dev) \/ MAX_HANDLES <= id.
Proof.
  unfold handle_store. destruct (Z.ltb_spec id MAX_HANDLES); [|by right]. left. unfold table. cbn. by rewrite insert_delete_eq.
Qed.

Lemma disarm_table s id : table (poll_disarm s id) = table s.
Proof. unfold poll_disarm. by destruct (find_idx _ _). Qed.
Lemma arm_table s id : table (poll_arm s id) = table s.
Proof. unfold poll_arm. by repeat case_if. Qed.

Lemma remove_table s id : id < MAX_HANDLES -> table (fst (handle_remove s id)) = table (unheld s id) /\ snd (handle_remove s id) = close_held s id.
Proof.
  intros H. unfold handle_remove. rewrite (proj2 (Z.ltb_lt _ _)) by done. cbn. split; [|done].
  pose proof (disarm_table s id) as Hd. unfold table in *. cbn. injection Hd as _ ->. done.
Qed.

(** ** Commands *)

(** From [o] with [s] to [s']: the actions use only open descriptors and what is
    owned stays sound; with [c], a descriptor that is open afterwards is owned, or
    was open and nobody's before. *)
Definition good (c : Prop) (s : stub) (o : gset Z) (acts : list act) (s' : stub) : Prop :=
  uses o acts /\ owned s' (after o acts) /\
  (c -> forall fd, fd ∈ after o acts -> held s' fd \/ fd ∈ o /\ ~ held s fd).

(** Without descriptors. *)
Definition dull (a : act) : Prop :=
  match a with
  | Got _ | Close _ | SendFd _ _ | Ioctl _ _ _ | Mmap _ _ _ _ _ _ | Looked _ _ | WIoctl _ _ _ _ => False
  | _ => True
  end.

Lemma dull_after l : forall o, Forall dull l -> after o l = o /\ uses o l.
Proof.
  induction l as [|a l IH]; intros o H; [done|]. apply Forall_cons in H as [Ha H].
  assert (after1 o a = o) as E by by destruct a. unfold after in *. cbn. rewrite E. destruct (IH o H). split; [done|]. split; [by destruct a|done].
Qed.

Lemma good_dull c s o acts s' : owned s o -> table s' = table s -> Forall dull acts -> good c s o acts s'.
Proof.
  intros Ho Ht Hd. destruct (dull_after acts o Hd) as [Ea Hu]. split; [done|]. rewrite Ea. split; [by apply (owned_ext s)|].
  intros _ fd Hf. rewrite (held_ext s s') by done. destruct (decide (held s fd)); [by left|by right].
Qed.

Lemma close_held_keeps s o id fd : ~ held s fd -> fd ∈ o -> fd ∈ after o (close_held s id).
Proof.
  intros Hn Hi. unfold close_held. case_if; [|done]. cbn. assert (fd <> handle_lookup s id); [|set_solver].
  intros ->. apply Hn. left. zb. unfold handle_lookup in *. destruct (Z.leb_spec MAX_HANDLES id); [lia|].
  destruct (handles s !! id) as [[f dev]|] eqn:E; [|lia]. by exists id, dev.
Qed.

Lemma close_held_sub s o id : after o (close_held s id) ⊆ o.
Proof. unfold close_held. case_if; cbn; set_solver. Qed.

Lemma unheld_held s id fd : held (unheld s id) fd -> held s fd.
Proof. intros [(j & d & Hj)|H]; [|by right]. left. exists j, d. cbn in Hj. by apply lookup_delete_Some in Hj as [_ Hj]. Qed.

Lemma store_held s id fd dev f : handles s !! id = None -> held s f -> held (handle_store s id fd dev) f.
Proof.
  intros Hid H. unfold handle_store. case_if; [|done]. destruct H as [(j & d & Hj)|H]; [|by right].
  left. exists j, d. cbn. rewrite lookup_insert_ne; [done|]. congruence.
Qed.

(** Putting a spare descriptor under a handle, closing the one it had. *)
Lemma install_good s o id fd dev :
  owned s o -> spare s o fd -> good (id < MAX_HANDLES) s o (close_held s id) (handle_store s id fd dev) /\
  fd ∈ after o (close_held s id) /\ (id < MAX_HANDLES -> held (handle_store s id fd dev) fd).
Proof.
  intros Ho (H0 & Hin & Hn). destruct (close_held_owned s o id Ho) as (Hu & Hun & Hk).
  assert (fd ∈ after o (close_held s id)) as Hf by by apply close_held_keeps.
  assert (owned (handle_store (unheld s id) id fd dev) (after o (close_held s id))) as Hst.
  { apply store_owned; [done| |apply lookup_delete_eq]. split_and!; try done. intros H. by apply unheld_held in H. }
  unfold good. split_and!; try done.
  - destruct (store_unheld s id fd dev) as [E|E].
    + by apply (owned_ext (handle_store (unheld s id) id fd dev)).
    + unfold handle_store. rewrite (proj2 (Z.ltb_ge _ _)) by done.
      assert (after o (close_held s id) = o) as ->; [|done]. unfold close_held. by rewrite (proj2 (Z.ltb_ge _ _)).
  - intros Hid f Hfo. destruct (decide (held s f)) as [Hh|Hh]; [|right; split; [by apply (close_held_sub s o id)|done]]. left.
    destruct (Hk f Hfo Hh) as [Hh2|]; [|lia]. destruct (store_unheld s id fd dev) as [E|]; [|lia].
    apply (held_ext (handle_store (unheld s id) id fd dev)); [done|]. apply store_held; [apply lookup_delete_eq|done].
  - intros Hid. left. exists id, dev. unfold handle_store. rewrite (proj2 (Z.ltb_lt _ _)) by done. cbn. by rewrite lookup_insert_eq.
Qed.

Lemma good_tail c s o acts l s' : good c s o acts s' -> Forall dull l -> good c s o (acts ++ l) s'.
Proof.
  intros (H1 & H2 & H3) Hd. destruct (dull_after l (after o acts) Hd) as [E U]. unfold good. rewrite after_app, E. split; [|done].
  apply uses_app. done.
Qed.

Lemma close_good s o id : owned s o -> good True s o (snd (handle_close_fd s id)) (fst (handle_close_fd s id)).
Proof.
  intros Ho. unfold handle_close_fd. destruct (Z.leb_spec 0 (handle_lookup s id)) as [Hl|Hl].
  2: { apply good_dull; [done|done|by repeat constructor]. }
  destruct (lookup_held s o id Ho Hl) as (_ & dev & _ & Hid). destruct (remove_table s id Hid) as [Et Ea].
  destruct (handle_remove s id) as [s' acts]. cbn [fst snd] in *. subst acts. apply good_tail; [|by repeat constructor].
  destruct (close_held_owned s o id Ho) as (Hu & Hun & Hk). split; [done|]. split; [by apply (owned_ext (unheld s id))|].
  intros _ fd Hf. rewrite (held_ext (unheld s id) s') by done.
  destruct (decide (held s fd)) as [Hh|Hh]; [|right; split; [by apply (close_held_sub s o id)|done]].
  destruct (Hk fd Hf Hh); [by left|lia].
Qed.

(** A descriptor handed out of the pool. *)
Lemma pool_spare s o local pool :
  owned s o -> uvm_pool s = local :: pool ->
  owned (set_pool s pool) o /\ (0 <= local -> spare (set_pool s pool) o local) /\
  (forall fd, held s fd -> held (set_pool s pool) fd \/ fd = local) /\ (forall fd, held (set_pool s pool) fd -> held s fd).
Proof.
  intros Ho Hp. destruct Ho as [H1 H2 H3 H4]. rewrite Hp in *. unfold nonneg in H4.
  assert (NoDup (base.filter (fun fd => 0 <= fd) pool)) as Hnd.
  { rewrite filter_cons in H4. case_decide; [by apply NoDup_cons in H4 as [_ ?]|done]. }
  split_and!.
  - constructor; cbn; try done.
    + intros id fd dev H. destruct (H1 _ _ _ H) as (? & ? & ? & ?). set_solver.
    + intros fd Hf. apply H3. set_solver.
  - intros H0. split; [done|]. split; [apply H3; [set_solver|done]|]. intros [(id & dev & H)|[H _]]; cbn in H.
    + destruct (H1 _ _ _ H) as (_ & _ & Hx & _). set_solver.
    + rewrite filter_cons_True in H4 by done. apply NoDup_cons in H4 as [H4 _]. apply H4, list_elem_of_filter. done.
  - intros fd [H|[H H0]]; [by left; left|]. rewrite Hp in H. apply elem_of_cons in H as [->|H]; [by right|left; right; done].
  - intros fd [H|[H H0]]; [by left|]. right. rewrite Hp. cbn in H. set_solver.
Qed.

Lemma spare_mono s o o' fd : o ⊆ o' -> spare s o fd -> spare s o' fd.
Proof. intros H (? & ? & ?). split_and!; try done. set_solver. Qed.

Lemma held_nonneg s o fd : owned s o -> held s fd -> 0 <= fd.
Proof. intros Ho [(id & dev & H)|[_ H]]; [|done]. by destruct (ow_tab _ _ Ho _ _ _ H). Qed.

(** With the descriptor that came along, spare: it is stored or closed. *)
Lemma receive_good s o c n fd :
  owned s o -> spare s o fd ->
  let '(s', acts) := handle_receive_fd s c n (Some fd) in
  good (rd 4 4 c < MAX_HANDLES) s o acts s' /\ (rd 4 4 c < MAX_HANDLES -> fd ∈ after o acts -> held s' fd).
Proof.
  intros Ho Hs. unfold handle_receive_fd. set (id := rd 4 4 c). set (dev := if 16 <=? n then rd 4 8 c else NVKVM_DEV_UNKNOWN).
  assert (Forall dull [Send ROk]) as Hd by by repeat constructor.
  assert (good (id < MAX_HANDLES) s o (close_held s id ++ [Send ROk]) (handle_store s id fd dev) /\
    (id < MAX_HANDLES -> fd ∈ after o (close_held s id ++ [Send ROk]) -> held (handle_store s id fd dev) fd)) as Hplain.
  { destruct (install_good s o id fd dev Ho Hs) as (Hg & _ & Hh). split; [by apply good_tail|auto]. }
  case_if; [|done]. destruct (uvm_pool s) as [|local pool] eqn:Ep; [done|].
  destruct (pool_spare s o local pool Ho Ep) as (Ho1 & Hl & Hk & Hb). destruct Hs as (S0 & Si & Sn). case_if; zb.
  - set (s1 := set_pool s pool) in *. assert (~ held s1 fd) as Hn1 by (intros Hx; by apply Sn, Hb).
    assert (spare s1 (o ∖ {[fd]}) local) as Hl1.
    { destruct (Hl ltac:(done)) as (? & ? & ?). split_and!; try done. assert (local <> fd); [|set_solver].
      intros ->. apply Sn. right. rewrite Ep. split; [set_solver|done]. }
    destruct (install_good s1 (o ∖ {[fd]}) id local dev (owned_close _ _ _ Ho1 Hn1) Hl1) as (Hg & _ & Hh).
    destruct (good_tail _ _ _ _ [Send ROk] _ Hg Hd) as (U & W & T).
    change (([Close fd] ++ close_held s1 id) ++ [Send ROk]) with (Close fd :: close_held s1 id ++ [Send ROk]).
    assert (after o (Close fd :: close_held s1 id ++ [Send ROk]) = after (o ∖ {[fd]}) (close_held s1 id ++ [Send ROk])) as Ea by done.
    unfold good. rewrite Ea. split_and!; try done.
    + intros Hid f Hf. destruct (T Hid f Hf) as [|[Hf1 Hf2]]; [by left|]. destruct (decide (held s f)) as [Hh2|]; [|right; set_solver].
      destruct (Hk f Hh2) as [| ->]; [done|]. left. by apply Hh.
    + intros _ Hf. exfalso. rewrite after_app in Hf. destruct (dull_after [Send ROk] (after (o ∖ {[fd]}) (close_held s1 id)) Hd) as [E1 _].
      rewrite E1 in Hf. apply close_held_sub in Hf. set_solver.
  - set (s1 := set_pool s pool) in *. assert (spare s1 o fd) as Hs1 by (split_and!; try done; intros Hx; by apply Sn, Hb).
    destruct (install_good s1 o id fd dev Ho1 Hs1) as (Hg & _ & Hh). cbn [app]. split; [|auto].
    apply good_tail; [|done]. destruct Hg as (U & W & T). unfold good. split_and!; try done.
    intros Hid f Hf. destruct (T Hid f Hf) as [|[Hf1 Hf2]]; [by left|]. right. split; [done|]. intros Hh2.
    destruct (Hk f Hh2) as [| ->]; [done|]. pose proof (held_nonneg s o local Ho Hh2). lia.
Qed.

(** A new descriptor. *)
Lemma owned_got s o fd : owned s o -> owned s ({[fd]} ∪ o).
Proof. apply owned_mono. set_solver. Qed.

Lemma got_spare s o fd : owned s o -> 0 <= fd -> fd ∉ o -> spare s ({[fd]} ∪ o) fd.
Proof.
  intros Ho H0 Hn. split; [done|]. split; [set_solver|]. intros [(id & dev & H)|[H _]].
  - destruct (ow_tab _ _ Ho _ _ _ H) as (_ & ? & _). done.
  - by apply Hn, (ow_pool _ _ Ho).
Qed.

(** What opening a device does before the table is touched. *)
Lemma open_dev_acts s e dev flags fd acts :
  open_dev s e dev flags = Some (fd, acts) ->
  exists l, Forall dull l /\ acts = l ++ (if 0 <=? fd then [Got fd] else []).
Proof.
  unfold open_dev. cbv zeta. intros H. case_if_in H; [injection H as <- <-; by exists []|]. case_if_in H; [done|].
  match type of H with (if ?b then _ else _) = _ => destruct b eqn:Eb end.
  - destruct (dev_id_to_path dev) as [p|]; [|done]. injection H as <- <-. exists [Open p (Z.lor flags O_CLOEXEC)]. split; [by repeat constructor|done].
  - injection H as <- <-. exists []. split; [constructor|]. apply Z.ltb_ge in Eb. by rewrite (proj2 (Z.leb_le _ _) Eb).
Qed.

Lemma dull_fresh l : forall o r, Forall dull l -> fresh o (l ++ r) -> fresh o r.
Proof.
  intros o r Hd H. apply fresh_app in H as [_ H]. by rewrite (proj1 (dull_after l o Hd)) in H.
Qed.

Lemma open_good s o e c :
  owned s o -> fresh o (snd (handle_open_device s e c)) ->
  good (rd 4 4 c < MAX_HANDLES) s o (snd (handle_open_device s e c)) (fst (handle_open_device s e c)).
Proof.
  intros Ho. unfold handle_open_device. cbv zeta. set (id := rd 4 4 c).
  destruct (open_dev s e (rd 4 8 c) (rd 4 12 c)) as [[fd acts]|] eqn:Eo; [|intros _; apply good_dull; [done|done|by repeat constructor]].
  destruct (open_dev_acts _ _ _ _ _ _ Eo) as (l & Hl & ->). destruct (dull_after l o Hl) as [El Ul].
  destruct (Z.ltb_spec fd 0) as [Hfd|Hfd].
  { rewrite (proj2 (Z.leb_gt _ _)) by done. intros _. apply good_dull; [done|done|]. rewrite app_nil_r. apply Forall_app. split; [done|by repeat constructor]. }
  rewrite (proj2 (Z.leb_le _ _)) by done.
  assert (forall rest s', fresh o ((l ++ [Got fd]) ++ rest) ->
    (owned s ({[fd]} ∪ o) -> spare s ({[fd]} ∪ o) fd -> fd ∉ o -> good (id < MAX_HANDLES) s ({[fd]} ∪ o) rest s' /\
       (id < MAX_HANDLES -> fd ∈ after ({[fd]} ∪ o) rest -> held s' fd)) ->
    good (id < MAX_HANDLES) s o ((l ++ [Got fd]) ++ rest) s') as Hpre.
  { intros rest s' Hf Hk. rewrite <- app_assoc in Hf |- *. apply dull_fresh in Hf; [|done]. destruct Hf as [[H0 Hn] _].
    destruct (Hk (owned_got _ _ _ Ho) (got_spare _ _ _ Ho H0 Hn) Hn) as ((U & W & T) & Hh).
    unfold good. rewrite after_app, uses_app, El. split_and!; try done.
    intros Hid f Hf. destruct (T Hid f Hf) as [|[Hi Hx]]; [by left|]. apply elem_of_union in Hi as [Hi|Hi]; [|by right].
    apply elem_of_singleton in Hi as ->. left. by apply Hh. }
  destruct (e_sent e); cbn [fst snd].
  - rewrite <- app_assoc. intros Hf. rewrite app_assoc in Hf. rewrite <- app_assoc in Hf. apply Hpre; [done|]. intros H1 H2 Hn.
    destruct (install_good s _ id fd (rd 4 8 c) H1 H2) as ((U & W & T) & Hin & Hh). unfold good. rewrite after_app. cbn [after fold_left].
    split; [|auto]. split_and!; try done. apply uses_app. done.
  - destruct (handle_remove (handle_store s id fd (rd 4 8 c)) id) as [s' rm] eqn:Er. cbn [fst snd]. rewrite <- app_assoc.
    intros Hf. apply Hpre; [done|]. intros H1 H2 Hn.
    destruct (install_good s _ id fd (rd 4 8 c) H1 H2) as ((U & W & T) & Hin & Hh).
    destruct (Z.lt_ge_cases id MAX_HANDLES) as [Hid|Hid].
    + destruct (remove_table (handle_store s id fd (rd 4 8 c)) id Hid) as [Et Ea]. rewrite Er in Et, Ea. cbn [fst snd] in Et, Ea. subst rm.
      destruct (close_held_owned _ _ id W) as (U2 & W2 & K2). split.
      * unfold good. rewrite after_app, uses_app. split_and!; [done|done|by eapply owned_ext; [exact Et|]|].
        intros _ f Hf2. rewrite (held_ext _ s' f Et). pose proof (close_held_sub (handle_store s id fd (rd 4 8 c)) _ id f Hf2) as Hf3.
        destruct (T Hid f Hf3) as [Hh3|]; [|by right]. destruct (K2 f Hf2 Hh3); [by left|lia].
      * intros _ Hf2. rewrite after_app in Hf2. rewrite (held_ext _ s' fd Et). destruct (K2 fd Hf2 (Hh Hid)); [done|lia].
    + unfold handle_remove in Er. rewrite (proj2 (Z.ltb_ge _ _)) in Er by done. injection Er as <- <-. rewrite app_nil_r.
      split; [|lia]. done.
Qed.

(** *** Commands that leave the table alone *)

(** Actions on one descriptor. *)
Definition only (fd : Z) (a : act) : Prop :=
  match a with
  | Ioctl f _ _ | Mmap _ _ _ _ f _ => f = fd
  | Got _ | Close _ | SendFd _ _ | Looked _ _ | WIoctl _ _ _ _ => False
  | _ => True
  end.

Lemma only_uses fd l o : Forall (only fd) l -> fd ∈ o -> after o l = o /\ uses o l.
Proof.
  intros H Hi. induction H as [|a l Ha _ IH]; [done|]. assert (after1 o a = o) as E by by destruct a.
  unfold after in *. cbn. rewrite E. destruct IH. split; [done|]. split; [destruct a; cbn in Ha |- *; subst; done|done].
Qed.

(** The table is unchanged and so are the open descriptors. *)
Lemma good_same c s o acts : owned s o -> after o acts = o -> uses o acts -> good c s o acts s.
Proof.
  intros Ho Ha Hu. split; [done|]. rewrite Ha. split; [done|]. intros _ fd Hf.
  destruct (decide (held s fd)); [by left|by right].
Qed.

Lemma mmap_good c s o e b : owned s o -> good c s o (handle_mmap s e b) s.
Proof.
  intros Ho. unfold handle_mmap. cbv zeta. case_if; [by apply good_dull; [..|repeat constructor]|].
  case_if; [by apply good_dull; [..|repeat constructor]|]. zb.
  destruct (lookup_held s o (rd 4 4 b) Ho ltac:(done)) as [Hi _].
  destruct (only_uses (handle_lookup s (rd 4 4 b)) (handle_mmap s e b) o) as [E1 E2]; [|done|].
  { unfold handle_mmap. cbv zeta. repeat (case_if; [by repeat constructor|]). destruct (e_map e); by repeat constructor. }
  apply good_same; [done|by destruct (e_map e)|]. split; [done|]. by destruct (e_map e).
Qed.

Lemma present_good c s o e b :
  owned s o -> fresh o (handle_present_export s e b) -> good c s o (handle_present_export s e b) s.
Proof.
  intros Ho. unfold handle_present_export. cbv zeta. case_if; [intros _; by apply good_dull; [..|repeat constructor]|]. zb.
  destruct (lookup_held s o (rd 4 4 b) Ho ltac:(done)) as [Hi _]. destruct (e_prime e) as [r fd].
  case_if; [intros _; by apply good_same|]. intros (_ & [_ Hn] & _). cbn [after1] in Hn.
  apply good_same; [done|cbn; set_solver|]. cbn. split_and!; try done; set_solver.
Qed.

(** The descriptor that came along is closed. *)
Lemma closed_good c s o fd l :
  owned s o -> spare s o fd -> after (o ∖ {[fd]}) l = o ∖ {[fd]} -> uses (o ∖ {[fd]}) l ->
  good c s o (Close fd :: l) s /\ fd ∉ after o (Close fd :: l).
Proof.
  intros Ho (S0 & Si & Sn) Ha Hu. assert (after o (Close fd :: l) = o ∖ {[fd]}) as E by exact Ha.
  split; [|rewrite E; set_solver]. unfold good. rewrite E. split_and!; [done..|by apply owned_close|].
  intros _ f Hf. destruct (decide (held s f)); [by left|right; set_solver].
Qed.

Lemma xiso_good c s o e b fd :
  owned s o -> spare s o fd ->
  good c s o (handle_xiso_import s e b (Some fd)) s /\ fd ∉ after o (handle_xiso_import s e b (Some fd)).
Proof.
  intros Ho Hs. unfold handle_xiso_import. cbv zeta. case_if; [by apply closed_good|]. zb.
  destruct (lookup_held s o (rd 4 4 b) Ho ltac:(done)) as [Hi _]. destruct (e_prime e) as [r gem].
  destruct (closed_good c s o fd [Send (if r <? 0 then RXiso (rd 4 8 b) r 0 else RXiso (rd 4 8 b) 0 gem)] Ho Hs) as ((U & W & T) & N); [done..|].
  split; [|done]. unfold good. cbn [after fold_left after1 uses] in *. done.
Qed.

Lemma setup_good c s o e b n fd :
  owned s o -> spare s o fd ->
  let '(s', acts) := setup_ring_cmd s e b n (Some fd) in good c s o acts s' /\ fd ∉ after o acts.
Proof.
  intros Ho Hs. unfold setup_ring_cmd. cbv zeta. destruct (StubRing.handle_setup_ring _ _ _ _ _) as [err|cfg].
  - by apply closed_good.
  - destruct (closed_good c s o fd [Send (RRing 0 (e_probe e))] Ho Hs) as ((U & W & T) & N); [done..|]. split; [|done].
    split; [done|]. split; [by apply (owned_ext s)|done].
Qed.

Lemma replay_only e fd l : forall n, Forall (only fd) (fst (replay e fd n l)).
Proof.
  induction l as [|[[cmd arg]|] l IH]; intros n; cbn [replay]; [constructor| |constructor].
  destruct (e_uvm e n) as [r q]. case_if; [by repeat constructor|]. specialize (IH (S n)).
  destruct (replay e fd (S n) l). by constructor.
Qed.

Lemma intent_only e fd mode isize intent n : Forall (only fd) (fst (realize_intent e fd mode isize intent n)).
Proof. unfold realize_intent. cbv zeta. repeat case_if; by repeat constructor. Qed.
Lemma map_only s e fd c : Forall (only fd) (fst (realize_map s e fd c)).
Proof. unfold realize_map. cbv zeta. repeat case_if; by repeat constructor. Qed.

(** The run works on its own descriptor and ends with an answer, after closing
    it or not. *)
Lemma realize_run_only s e fd c st0 intent :
  exists l x r, realize_run s e fd c st0 intent = l ++ x ++ [Send r] /\ Forall (only fd) l /\ (x = [] \/ x = [Close fd]).
Proof.
  unfold realize_run. cbv zeta. pose proof (replay_only e fd (replay_steps s st0) 0) as H1.
  destruct (replay _ _ _ _) as [a1 [f|]]; cbn [fst] in H1; [exists a1, [Close fd]; eexists; split_and!; [done|done|by right]|].
  pose proof (intent_only e fd (rd 4 8 c) (rd 4 16 c) intent (length (replay_steps s st0))) as H2.
  destruct (realize_intent _ _ _ _ _ _) as [a2 [f|]]; cbn [fst] in H2.
  { exists (a1 ++ a2), [Close fd]. eexists. split_and!; [by rewrite <- app_assoc|by apply Forall_app|by right]. }
  pose proof (map_only s e fd c) as H3. destruct (realize_map _ _ _ _) as [a3 [f|va]]; cbn [fst] in H3.
  - exists (a1 ++ a2 ++ a3), [Close fd]. eexists. split_and!; [by rewrite <- !app_assoc|by rewrite !Forall_app|by right].
  - exists (a1 ++ a2 ++ a3), []. eexists. split_and!; [by rewrite <- !app_assoc|by rewrite !Forall_app|by left].
Qed.

Lemma realize_good s o e c ms :
  owned s o -> fresh o (fst (handle_realize_uvm_fd s e c ms)) -> good False s o (fst (handle_realize_uvm_fd s e c ms)) s.
Proof.
  intros Ho. unfold handle_realize_uvm_fd. cbv zeta.
  assert (forall acts, Forall dull acts -> fresh o acts -> good False s o acts s) as Hd by (intros; by apply good_dull).
  case_if; [by apply Hd; repeat constructor|]. destruct (recv_full _ ms) as [[s1|] ms1]; [|by apply Hd; repeat constructor].
  repeat (case_if; [by apply Hd; repeat constructor|]).
  destruct (recv_full _ ms1) as [[s2|] ms2]; [|by apply Hd; repeat constructor]. case_if; [by apply Hd; repeat constructor|]. cbn [fst].
  intros (_ & [H0 Hn] & _). cbn [after1] in Hn. set (fd := e_open e) in *.
  destruct (realize_run_only s e fd c s1 s2) as (l & x & r & -> & Hl & Hx).
  assert (fd ∈ {[fd]} ∪ o) as Hi by set_solver. destruct (only_uses fd l _ Hl Hi) as [Eaf U1].
  change (Open "nvidia-uvm" (Z.lor 2 O_CLOEXEC) :: Got fd :: l ++ x ++ [Send r])
    with ([Open "nvidia-uvm" (Z.lor 2 O_CLOEXEC); Got fd] ++ l ++ x ++ [Send r]).
  unfold good. rewrite !after_app, !uses_app. cbn [after fold_left after1] in Eaf |- *. fold (after ({[fd]} ∪ o) l). rewrite Eaf.
  destruct (got_spare s o fd Ho H0 Hn) as (_ & _ & Hsp).
  destruct Hx as [->| ->]; cbn; split_and!; try done; [by apply owned_got|apply owned_close; [by apply owned_got|done]].
Qed.

(** ** The dispatcher *)

(** A command that loses no descriptor: ids the table has room for, a descriptor
    along only where one is expected, and no replayed UVM descriptor, which the
    stub keeps. *)
Definition calm (c : list Z) : Prop :=
  rd 4 0 c <> ISOLATE_CMD_REALIZE_UVM_FD /\ (rd 4 0 c ∈ [1; 9] -> rd 4 4 c < MAX_HANDLES).
Definition fd_types : list Z := [1; 12; 15].

Lemma ioctl_dull s e c ms : Forall dull (snd (fst (handle_ioctl_cmd s e c ms))) /\ table (fst (fst (handle_ioctl_cmd s e c ms))) = table s.
Proof.
  unfold handle_ioctl_cmd. cbv zeta. case_if; [split; [by repeat constructor|done]|].
  destruct (if 0 <? rd 4 12 c then _ else _) as [[p|] ms1]; [|split; [by repeat constructor|done]].
  destruct (if 0 <? rd 4 16 c then _ else _) as [[a|] ms2]; [|split; [by repeat constructor|done]].
  unfold enqueue_job. destruct (find_idx _ _); split; try done; by repeat constructor.
Qed.

Lemma interrupt_dull s t : Forall dull (interrupt_txn s t).
Proof.
  unfold interrupt_txn. case_if; [constructor|]. destruct (List.find _ _) as [[tid x]|]; [|constructor]. case_if; by repeat constructor.
Qed.

(** With no descriptor along. *)
Lemma dispatch_good_none s o e c n ms s' acts ms' q :
  owned s o -> fresh o acts -> stub_dispatch_cmd s e c n None ms = (s', acts, ms', q) -> good (calm c) s o acts s'.
Proof.
  intros Ho Hf H.
  assert (forall acts0 s0, Forall dull acts0 -> table s0 = table s -> good (calm c) s o acts0 s0) as Hd by (intros; by apply good_dull).
  assert (forall (c0 : Prop) acts0 s0, (calm c -> c0) -> good c0 s o acts0 s0 -> good (calm c) s o acts0 s0) as Hw.
  { intros c0 a0 s0 Hc (U & W & T). split; [done|]. split; [done|]. auto. }
  unfold stub_dispatch_cmd in H. cbv zeta in H.
  case_if_in H; [injection H as <- <- _ _; by apply Hd; [repeat constructor|]|].
  case_if_in H; [injection H as <- <- _ _; by apply (Hw True); [|apply close_good]|].
  case_if_in H.
  { destruct (ioctl_dull s e c ms). destruct (handle_ioctl_cmd s e c ms) as [[s1 a1] m1]. injection H as <- <- _ _. by apply Hd. }
  case_if_in H; [injection H as <- <- _ _; by apply mmap_good|].
  case_if_in H; [injection H as <- <- _ _; unfold handle_munmap_cmd; cbn [fst snd]; case_if; by apply Hd; [repeat constructor|]|].
  case_if_in H; [injection H as <- <- _ _; by apply Hd; [repeat constructor|]|].
  case_if_in H; [injection H as <- <- _ _; apply Hd; [by repeat constructor|apply arm_table]|].
  case_if_in H; [injection H as <- <- _ _; apply Hd; [by repeat constructor|apply disarm_table]|].
  case_if_in H.
  { injection H as <- <- _ _. apply (Hw (rd 4 4 c < MAX_HANDLES)); [|by apply open_good]. intros [_ Hc]. zb. apply Hc. set_solver. }
  case_if_in H; [injection H as <- <- _ _; by apply present_good|].
  case_if_in H; [injection H as <- <- _ _; by apply Hd; [repeat constructor|]|].
  case_if_in H.
  { pose proof (realize_good s o e c ms Ho) as Hr. destruct (handle_realize_uvm_fd s e c ms) as [a1 m1]. injection H as <- <- _ _.
    apply (Hw False); [|by apply Hr]. intros [Hc _]. zb. done. }
  case_if_in H; [injection H as <- <- _ _; apply Hd; [apply interrupt_dull|done]|].
  case_if_in H; [injection H as <- <- _ _; by apply Hd; [repeat constructor|]|].
  case_if_in H; [injection H as <- <- _ _; unfold enter_loop_cmd; destruct (ring s); [case_if|]; by apply Hd; [repeat constructor|]|].
  injection H as <- <- _ _. by apply Hd; [constructor|].
Qed.

(** With one: it is stored or closed. *)
Lemma dispatch_good_some s o e c n fd ms s' acts ms' q :
  owned s o -> spare s o fd -> rd 4 0 c ∈ fd_types -> stub_dispatch_cmd s e c n (Some fd) ms = (s', acts, ms', q) ->
  good (calm c) s o acts s' /\ (calm c -> fd ∈ after o acts -> held s' fd).
Proof.
  intros Ho Hs Hk H. unfold fd_types in Hk. rewrite !elem_of_cons, elem_of_nil in Hk. unfold stub_dispatch_cmd in H. cbv zeta in H.
  destruct Hk as [Hk|[Hk|[Hk|[]]]]; rewrite Hk in H; cbn [Z.eqb Pos.eqb ISOLATE_CMD_IOCTL ISOLATE_CMD_REALIZE_UVM_FD] in H.
  - pose proof (receive_good s o c n fd Ho Hs) as Hr. destruct (handle_receive_fd s c n (Some fd)) as [s1 a1]. injection H as <- <- _ _.
    destruct Hr as ((U & W & T) & N). assert (calm c -> rd 4 4 c < MAX_HANDLES) as Hc by (intros [_ Hc]; apply Hc; rewrite Hk; set_solver).
    split; [split; [done|]; split; [done|]; auto|auto].
  - pose proof (setup_good (calm c) s o e c n fd Ho Hs) as Hr. destruct (setup_ring_cmd s e c n (Some fd)) as [s1 a1].
    injection H as <- <- _ _. destruct Hr as [Hg Hn]. split; [done|]. intros _ Hi. by apply Hn in Hi.
  - destruct (xiso_good (calm c) s o e c fd Ho Hs) as [Hg Hn]. destruct (handle_xiso_import s e c (Some fd)).
    { injection H as <- <- _ _. split; [done|]. intros _ Hi. by apply Hn in Hi. }
    injection H as <- <- _ _. split; [done|]. intros _ Hi. by apply Hn in Hi.
Qed.

(** With one where none is expected: it is left open, the rest is sound. *)
Lemma dispatch_scm s e c n fd ms :
  rd 4 0 c ∉ fd_types -> stub_dispatch_cmd s e c n (Some fd) ms = stub_dispatch_cmd s e c n None ms.
Proof.
  intros Hk. unfold fd_types in Hk. rewrite !not_elem_of_cons in Hk. destruct Hk as (K1 & K2 & K3 & _).
  unfold stub_dispatch_cmd. by rewrite (proj2 (Z.eqb_neq _ _) K1), (proj2 (Z.eqb_neq _ _) K2), (proj2 (Z.eqb_neq _ _) K3).
Qed.

Lemma dispatch_msgs (P : msg -> Prop) s e c n scm ms s' acts ms' q :
  Forall P ms -> stub_dispatch_cmd s e c n scm ms = (s', acts, ms', q) -> Forall P ms'.
Proof.
  intros Hm H. unfold stub_dispatch_cmd in H. cbv zeta in H.
  do 2 (case_if_in H; [by injection H as _ _ <- _|]). case_if_in H.
  { pose proof (ioctl_msgs P s e c ms Hm). destruct (handle_ioctl_cmd s e c ms) as [[s1 a1] m1]. by injection H as _ _ <- _. }
  do 8 (case_if_in H; [by injection H as _ _ <- _|]). case_if_in H.
  { pose proof (realize_msgs P s e c ms Hm). destruct (handle_realize_uvm_fd s e c ms) as [a1 m1]. by injection H as _ _ <- _. }
  do 3 (case_if_in H; [by injection H as _ _ <- _|]). by injection H as _ _ <- _.
Qed.

(** ** Runs *)
Lemma good_weaken (c1 c2 : Prop) s o acts s' : (c2 -> c1) -> good c1 s o acts s' -> good c2 s o acts s'.
Proof. intros H (U & W & T). split; [done|]. split; [done|]. auto. Qed.

Definition fd_msg (m : msg) : Prop := is_Some (m_fd m) -> 4 <= arr_len (m_bytes m) /\ rd 4 0 (m_bytes m) ∈ fd_types.

(** What must hold for nothing to be left over. *)
Definition quiet_run (s : sys) (acts : list act) : Prop := Forall fd_msg (inbox s) /\ Forall calm (cmds acts).

(** Receiving a descriptor, then the rest of the command. *)
Lemma got_good (c : Prop) s o fd acts s' :
  owned s o -> 0 <= fd -> fd ∉ o -> good c s ({[fd]} ∪ o) acts s' -> (c -> fd ∈ after ({[fd]} ∪ o) acts -> held s' fd) ->
  good c s o (Got fd :: acts) s'.
Proof.
  intros Ho H0 Hn (U & W & T) Hh. unfold good. change (after o (Got fd :: acts)) with (after ({[fd]} ∪ o) acts).
  split; [by split|]. split; [done|]. intros Hc f Hf. destruct (T Hc f Hf) as [|[Hi Hx]]; [by left|].
  apply elem_of_union in Hi as [Hi%elem_of_singleton|Hi]; [|by right]. subst f. left. by apply Hh.
Qed.

Lemma cmd_good c s o b acts s' : good c s o acts s' -> good c s o (Cmd b :: acts) s'.
Proof. intros (U & W & T). split; [by split|]. by split. Qed.

Lemma read_good s o e s' acts :
  owned (st s) o -> read_one s e = (s', acts) -> fresh o acts ->
  good (quiet_run s acts) (st s) o acts (st s') /\ (Forall fd_msg (inbox s) -> Forall fd_msg (inbox s')).
Proof.
  intros Ho H Hf. unfold read_one in H. unfold quiet_run. destruct (inbox s) as [|m ms]; [injection H as <- <-; split; [|done]; by apply good_dull; [..|constructor]|].
  cbv zeta in H. destruct (Z.ltb_spec (arr_len (take sizeof_cmd (m_bytes m))) 4) as [Hn|Hn].
  { injection H as <- <-. split; [|by intros Hx; apply Forall_cons in Hx as [_ Hx]]. destruct (m_fd m) as [fd|] eqn:Em; [|by apply good_dull; [..|constructor]].
    destruct Hf as [[H0 Hn0] _]. apply got_good; [done..|by apply good_dull; [apply owned_got| |constructor]|].
    intros [Hm _] _. exfalso. apply Forall_cons in Hm as [Hm _]. destruct Hm as [Hm _]; [by rewrite Em|].
    unfold arr_len in *. rewrite length_take in Hn. unfold sizeof_cmd in Hn. lia. }
  assert (4 <= arr_len (m_bytes m)) as Hl by (unfold arr_len in *; rewrite length_take in Hn; lia).
  destruct (stub_dispatch_cmd _ _ _ _ _ _) as [[[s1 a1] ms1] q] eqn:Ed. injection H as <- <-. cbn [st inbox].
  split; [|intros Hx; apply Forall_cons in Hx as [_ Hx]; by eapply dispatch_msgs]. destruct (m_fd m) as [fd|] eqn:Em; cbn [app] in Hf |- *.
  2: { destruct Hf as [_ Hf]. apply cmd_good. eapply good_weaken; [|by eapply dispatch_good_none]. intros [_ Hc].
       by apply Forall_cons in Hc as [Hc _]. }
  destruct Hf as [[H0 Hn0] [_ Hf]]. cbn [after1] in Hf. pose proof (got_spare _ _ _ Ho H0 Hn0) as Hs. pose proof (owned_got (st s) o fd Ho) as Ho1.
  assert (Forall calm (cmds (Got fd :: Cmd (read_cmd m e) :: a1)) -> calm (read_cmd m e)) as Hcalm by (intros Hc; by apply Forall_cons in Hc as [Hc _]).
  destruct (decide (rd 4 0 (read_cmd m e) ∈ fd_types)) as [Hk|Hk].
  - destruct (dispatch_good_some _ _ _ _ _ _ _ _ _ _ _ Ho1 Hs Hk Ed) as [Hg Hh].
    apply got_good; [done..|by apply cmd_good; eapply good_weaken; [|exact Hg]; intros [_ ?]; auto|]. intros [_ Hc]. by apply Hh, Hcalm.
  - rewrite dispatch_scm in Ed by done.
    apply got_good; [done..|by apply cmd_good; eapply good_weaken; [|by eapply dispatch_good_none]; intros [_ ?]; auto|].
    intros [Hm _] _. exfalso. apply Forall_cons in Hm as [Hm _]. destruct Hm as [_ Hm]; [by rewrite Em|]. apply Hk. by rewrite rd_type.
Qed.

Lemma fired_dull l : forall s, Forall dull (snd (fired_all s l)) /\ table (fst (fired_all s l)) = table s.
Proof.
  induction l as [|[fd rev] l IH]; intros s; cbn [fired_all]; [split; [constructor|done]|].
  destruct (poll_fired s fd rev) as [s1 a1] eqn:E. specialize (IH s1). destruct (fired_all s1 l) as [s2 a2]. cbn [fst snd] in *.
  destruct IH as [H ->]. unfold poll_fired in E. cbv zeta in E. repeat case_if_in E; injection E as <- <-;
    (split; [apply Forall_app; split; [by repeat constructor|done]|try done; apply disarm_table]).
Qed.

(** A record of the ring: its ioctl is on a descriptor of the table. *)
Lemma ring_uses s o va k stack pay :
  owned s o ->
  let acts := (fun c => Ioctl (StubRing.c_fd c) (StubRing.c_cmd c) (StubRing.c_in c)) <$>
                fst (StubRing.ring_exec_one (handle_lookup s) (handle_dev_lookup s) va k stack pay) in
  after o acts = o /\ uses o acts.
Proof.
  intros Ho. cbv zeta. unfold StubRing.ring_exec_one. cbv zeta. repeat (case_if; [done|]).
  destruct (StubRing.stub_ioctl _ _ _ _ _) as [[ret b] a']. cbn. split; [done|]. split; [|done].
  zb. by apply (lookup_held s o).
Qed.

(** ** Workers *)

(** The descriptor each worker found last, and whether it has stayed open since. *)
Definition looked1 (lk : gmap Z (Z * bool)) (a : act) : gmap Z (Z * bool) :=
  match a with
  | Looked w fd => <[w := (fd, true)]> lk
  | Close fd => (fun x => (fst x, snd x && negb (fst x =? fd))) <$> lk
  | _ => lk
  end.
Definition looked (lk : gmap Z (Z * bool)) (l : list act) : gmap Z (Z * bool) := fold_left looked1 l lk.

(** What is used is open; a worker's ioctl is on the descriptor it found, which
    is open unless it was closed since. *)
Definition sound1 (o : gset Z) (lk : gmap Z (Z * bool)) (a : act) : Prop :=
  match a with
  | Close fd | SendFd _ fd | Ioctl fd _ _ | Mmap _ _ _ _ fd _ | Looked _ fd => fd ∈ o
  | WIoctl w fd _ _ => exists b, lk !! w = Some (fd, b) /\ (b = true -> fd ∈ o)
  | _ => True
  end.
Fixpoint sound (o : gset Z) (lk : gmap Z (Z * bool)) (l : list act) : Prop :=
  match l with [] => True | a :: l => sound1 o lk a /\ sound (after1 o a) (looked1 lk a) l end.

Lemma looked_app l1 l2 lk : looked lk (l1 ++ l2) = looked (looked lk l1) l2.
Proof. apply fold_left_app. Qed.
Lemma sound_app l1 : forall l2 o lk, sound o lk (l1 ++ l2) <-> sound o lk l1 /\ sound (after o l1) (looked lk l1) l2.
Proof. induction l1 as [|a l1 IH]; intros l2 o lk; cbn; [tauto|]. rewrite IH. tauto. Qed.
Lemma uses_sound l : forall o lk, uses o l -> sound o lk l.
Proof. induction l as [|a l IH]; intros o lk H; [done|]. destruct H as [Ha H]. split; [by destruct a|by apply IH]. Qed.

Definition intact (lk : gmap Z (Z * bool)) (o : gset Z) : Prop := forall w fd, lk !! w = Some (fd, true) -> fd ∈ o.

Lemma intact_sound l : forall o lk, intact lk o -> sound o lk l -> intact (looked lk l) (after o l).
Proof.
  induction l as [|a l IH]; intros o lk Hi Hs; [done|]. destruct Hs as [Ha Hs]. apply IH; [|done]. intros w fd H.
  destruct a; cbn [looked1 after1] in *; try (by apply (Hi w)); [apply elem_of_union; right; by apply (Hi w)| |].
  - apply lookup_fmap_Some in H as ([f b] & E & H). cbn in E. injection E as -> E. apply andb_prop in E as [-> E].
    specialize (Hi w fd H). zb. set_solver.
  - apply lookup_insert_Some in H as [[_ [= <-]]|[_ H]]; [done|by apply (Hi w)].
Qed.

(** A worker with a descriptor has looked it up. *)
Definition covers (b : gmap Z work) (lk : gmap Z (Z * bool)) : Prop :=
  forall w j fd ty, b !! w = Some (WFd j fd ty) -> 0 <= fd -> exists x, lk !! w = Some (fd, x).

Lemma covers_uses l : forall o b lk, uses o l -> covers b lk -> covers b (looked lk l).
Proof.
  induction l as [|a l IH]; intros o b lk Hu Hc; [done|]. destruct Hu as [Ha Hu]. apply (IH (after1 o a)); [done|].
  intros w j fd ty H H0. destruct (Hc w j fd ty H H0) as [x Hx]. destruct a; cbn [looked1]; try done; try (by exists x).
  eexists. by rewrite lookup_fmap, Hx.
Qed.

Lemma covers_step b lk w y : covers b lk -> (forall j fd ty, y <> WFd j fd ty) -> covers (<[w := y]> b) lk.
Proof. intros Hc Hy w' j fd ty H. apply lookup_insert_Some in H as [[_ E]|[_ H]]; [by apply Hy in E|by apply (Hc w' j fd ty)]. Qed.

Record linked (s : sys) (o : gset Z) (lk : gmap Z (Z * bool)) : Prop := {
  li_owned : owned (st s) o; li_intact : intact lk o; li_covers : covers (busy s) lk }.

(** From [s] to [s']: what [good] says, for all threads. *)
Definition fair (c : Prop) (s : sys) (o : gset Z) (lk : gmap Z (Z * bool)) (acts : list act) (s' : sys) : Prop :=
  sound o lk acts /\ linked s' (after o acts) (looked lk acts) /\
  (c -> forall fd, fd ∈ after o acts -> held (st s') fd \/ fd ∈ o /\ ~ held (st s) fd).

Lemma fair_good c s o lk acts s' : linked s o lk -> good c (st s) o acts (st s') -> busy s' = busy s -> fair c s o lk acts s'.
Proof.
  intros [H1 H2 H3] (U & W & T) Hb. pose proof (uses_sound acts o lk U) as Hs. split; [done|]. split; [|done].
  constructor; [done|by apply intact_sound|]. rewrite Hb. by apply (covers_uses acts o).
Qed.

(** A worker's step: neither the table nor the open descriptors change. *)
Lemma fair_worker c s o lk acts s' :
  linked s o lk -> table (st s') = table (st s) -> after o acts = o -> sound o lk acts -> covers (busy s') (looked lk acts) ->
  fair c s o lk acts s'.
Proof.
  intros [H1 H2 H3] Ht Ha Hs Hc. split; [done|]. pose proof (intact_sound acts o lk H2 Hs) as Hi. rewrite Ha in *.
  split; [constructor; [by apply (owned_ext (st s))|done|done]|]. intros _ fd Hf. rewrite (held_ext (st s) (st s')) by done.
  destruct (decide (held (st s) fd)); [by left|by right].
Qed.

Lemma fair_refl c s o lk : linked s o lk -> fair c s o lk [] s.
Proof. intros H. apply fair_worker; try done. by destruct H. Qed.

Lemma look_fair c s o lk w : linked s o lk -> let '(s', acts) := sys_step s (Look w) in fair c s o lk acts s'.
Proof.
  intros H. pose proof (fair_refl c s o lk H) as H0. cbn [sys_step]. destruct (busy s !! w) as [[j|j fd ty|t r|t r]|]; try done. cbv zeta.
  destruct (Z.leb_spec 0 (handle_lookup (st s) (j_handle j))) as [Hl|Hl].
  - destruct (lookup_held _ _ _ (li_owned _ _ _ H) Hl) as [Hin _]. apply fair_worker; try done.
    intros w' j' fd ty Hb H1. cbn [set_work busy looked fold_left looked1] in *.
    apply lookup_insert_Some in Hb as [[<- [= _ <- _]]|[Hne Hb]]; [exists true; by rewrite lookup_insert_eq|].
    rewrite lookup_insert_ne by done. by apply (li_covers _ _ _ H w' j' fd ty).
  - apply fair_worker; try done. intros w' j' fd ty Hb H1. cbn [set_work busy] in Hb. apply lookup_insert_Some in Hb as [[<- [= _ <- _]]|[Hne Hb]]; [lia|].
    by apply (li_covers _ _ _ H w' j' fd ty).
Qed.

Lemma call_fair c s o lk w look va drv : linked s o lk -> let '(s', acts) := sys_step s (Call w look va drv) in fair c s o lk acts s'.
Proof.
  intros H. pose proof (fair_refl c s o lk H) as H0. cbn [sys_step]. destruct (busy s !! w) as [[j|j fd ty|t r|t r]|] eqn:Eb; try done. cbv zeta.
  assert (forall y, (forall j fd ty, y <> WFd j fd ty) -> covers (<[w := y]> (busy s)) lk) as Hc
    by (intros; apply covers_step; [by destruct H|done]).
  unfold job_call. destruct (Z.ltb_spec fd 0) as [Hf|Hf]; cbn [orb]; [apply fair_worker; try done; by apply Hc|].
  destruct ty; cbn [negb]; [|apply fair_worker; try done; by apply Hc].
  destruct (prepare _ _ _ _ _ _) as [[[p1 a1] sv]|]; [|apply fair_worker; try done; by apply Hc].
  destruct (li_covers _ _ _ H w j fd true Eb ltac:(lia)) as [b Hb].
  apply fair_worker; try done; [|by apply Hc]. split; [|done]. exists b. split; [done|]. intros ->. by apply (li_intact _ _ _ H w).
Qed.

Lemma step_fair s o lk v s' acts :
  linked s o lk -> sys_step s v = (s', acts) -> fresh o acts ->
  fair (quiet_run s acts) s o lk acts s' /\ (Forall fd_msg (inbox s) -> Forall fd_msg (inbox s')).
Proof.
  intros H E Hf. pose proof (li_owned _ _ _ H) as Ho.
  assert (forall c, fair c s o lk [] s) as H0 by (intros; by apply fair_refl).
  destruct v as [e|h|l|va k stack pay|w|w|w look va drv|w|w].
  - cbn [sys_step] in E. case_if_in E; [injection E as <- <-; done|]. destruct (read_good s o e s' acts Ho E Hf) as [Hg Hm]. split; [|done].
    apply fair_good; [done..|]. unfold read_one in E. destruct (inbox s); [by injection E as <- <-|]. cbv zeta in E.
    case_if_in E; [by injection E as <- <-|]. destruct (stub_dispatch_cmd _ _ _ _ _ _) as [[[? ?] ?] ?]. by injection E as <- <-.
  - cbn [sys_step] in E. case_if_in E; injection E as <- <-; (split; [|done]); [|done]. apply fair_good; [done| |done]. by apply good_dull; [..|repeat constructor].
  - cbn [sys_step] in E. destruct (fired_dull l (st s)) as [H1 H2]. destruct (fired_all (st s) l) as [s1 a1]. injection E as <- <-. split; [|done].
    apply fair_good; [done| |done]. by apply good_dull.
  - cbn [sys_step] in E. case_if_in E; injection E as <- <-; (split; [|done]); [|done].
    destruct (ring_uses (st s) o va k stack pay Ho). apply fair_good; [done| |done]. by apply good_same.
  - cbn [sys_step] in E. destruct (busy s !! w); [injection E as <- <-; done|].
    destruct (dequeue_job (st s)) as [[j s1]|] eqn:Eq; injection E as <- <-; (split; [|done]); [|done].
    apply fair_worker; try done; [|by apply covers_step; [destruct H|]].
    unfold dequeue_job in Eq. destruct (find_idx _ _); [|done]. destruct (queue (st s) !! _) as [[j'|]|]; [|done..]. by injection Eq as _ <-.
  - pose proof (look_fair (quiet_run s acts) s o lk w H) as Hl. rewrite E in Hl. split; [done|].
    cbn [sys_step] in E. destruct (busy s !! w) as [[]|]; by injection E as <- <-.
  - pose proof (call_fair (quiet_run s acts) s o lk w look va drv H) as Hl. rewrite E in Hl. split; [done|].
    cbn [sys_step] in E. destruct (busy s !! w) as [[]|]; try by injection E as <- <-. cbv zeta in E. destruct (job_call _ _ _ _ _ _); by injection E as <- <-.
  - cbn [sys_step] in E. destruct (busy s !! w) as [[j|j fd ty|t r|t r]|]; injection E as <- <-; (split; [|done]); try done.
    apply fair_worker; try done. by apply covers_step; [destruct H|].
  - cbn [sys_step] in E. destruct (busy s !! w) as [[j|j fd ty|t r|t r]|]; injection E as <- <-; (split; [|done]); try done.
    apply fair_worker; try done. intros w' j' fd ty Hb. cbn [busy] in Hb. apply lookup_delete_Some in Hb as [_ Hb]. by apply (li_covers _ _ _ H w' j' fd ty).
Qed.

Lemma run_fair l : forall s o lk, linked s o lk -> fresh o (snd (run s l)) ->
  fair (quiet_run s (snd (run s l))) s o lk (snd (run s l)) (fst (run s l)).
Proof.
  induction l as [|v l IH]; intros s o lk H Hf; cbn [run] in *; [by apply fair_refl|].
  destruct (sys_step s v) as [s1 a1] eqn:Es. specialize (IH s1 (after o a1) (looked lk a1)). destruct (run s1 l) as [s2 a2]. cbn [fst snd] in *.
  apply fresh_app in Hf as [Hf1 Hf2]. destruct (step_fair s o lk v s1 a1 H Es Hf1) as [(S1 & L1 & T1) Hm].
  destruct (IH L1 Hf2) as (S2 & L2 & T2). unfold fair. rewrite after_app, looked_app, sound_app. split; [done|]. split; [done|].
  intros [Q1 Q2] fd Hfd. rewrite cmds_app in Q2. apply Forall_app in Q2 as [Q2 Q3].
  destruct (T2 (conj (Hm Q1) Q3) fd Hfd) as [|[Hi Hn]]; [by left|]. destruct (T1 (conj Q1 Q2) fd Hi) as [Hh|]; [by destruct Hn|by right].
Qed.

(** C33: the stub's descriptors.  However the commands, workers, polls and the
    ring loop interleave, as long as the kernel hands out unused descriptors:
    every descriptor the reader's thread closes, sends, maps or passes to an
    ioctl, those of ring records included, is open at that time, so none is
    closed twice; a worker finds an open descriptor and makes its ioctl on that
    one, which is still open unless the reader has closed it since the lookup;
    the table and the UVM pool hold open descriptors, no two entries the same
    one.  And unless the host uses an id beyond the table, sends a descriptor
    with a command that takes none or realizes a UVM descriptor, nothing is left
    over: what is open and was not before is held by the table or the pool.  The
    messages come with at most one descriptor, as QEMU sends them; descriptors
    inside an ioctl's parameters are not followed. *)
Theorem stub_fds_safe s o l :
  owned (st s) o -> busy s = ∅ -> fresh o (snd (run s l)) ->
  let '(s', acts) := run s l in
  sound o ∅ acts /\ owned (st s') (after o acts) /\
  (Forall fd_msg (inbox s) -> Forall calm (cmds acts) ->
   forall fd, fd ∈ after o acts -> held (st s') fd \/ fd ∈ o /\ ~ held (st s) fd).
Proof.
  intros Ho Hb Hf. assert (linked s o ∅) as Hl.
  { constructor; [done|by intros w fd H|]. intros w j fd ty H. by rewrite Hb in H. }
  pose proof (run_fair l s o ∅ Hl Hf) as (S & [W _ _] & T). destruct (run s l) as [s' acts]. cbn [fst snd] in *.
  split; [done|]. split; [done|]. intros H1 H2. by apply T.
Qed.

Definition env_fd (fd : Z) : env :=
  Env (replicate 56 0) 9 10 fd true (Some base0) (0, 7) true true 0 true (fun _ => (0, 0)) [].
Definition receive_cmd (id fd : Z) : msg := Msg (words [1; id; 16; 0]) (Some fd).
Definition close_cmd (id : Z) : msg := Msg (words [2; id]) None.
Definition poll_cmd (id : Z) : msg := Msg (words [6; id]) None.

(** An ioctl on handle 5 is taken by worker 1 and made; then handle 5 goes. *)
Definition fd_run : sys :=
  Sys stub0 [open_cmd 5; Msg (words [3; 5; 0xC020462A; 0; 0; 0; 7; 0]) None; receive_cmd 5 12; receive_cmd 6 13; close_cmd 5] ∅ false.
Definition fd_events : list ev :=
  [Read (env_fd 11); Read (env_fd 11); Take 1; Look 1; Call 1 nobody 0 no_driver; Read (env_fd 11); Ret 1; Read (env_fd 11); Done 1; Read (env_fd 11)].

Lemma owned0 o : owned stub0 o.
Proof. constructor; [by intros|by intros| |constructor]. intros fd H. by apply not_elem_of_nil in H. Qed.

Lemma stub_fds_safe_witness :
  let '(s', acts) := run fd_run fd_events in
  (WIoctl 1 11 0xC020462A [] ∈ acts) /\ sound ∅ ∅ acts /\ owned (st s') (after ∅ acts) /\
  (Forall fd_msg (inbox fd_run) -> Forall calm (cmds acts) ->
   forall fd, fd ∈ after ∅ acts -> held (st s') fd \/ fd ∈ (∅ : gset Z) /\ ~ held (st fd_run) fd).
Proof.
  pose proof (stub_fds_safe fd_run ∅ fd_events (owned0 ∅) eq_refl) as H.
  assert (WIoctl 1 11 0xC020462A [] ∈ snd (run fd_run fd_events)) as Hw by (apply list_elem_of_In; vm_compute; tauto).
  destruct (run fd_run fd_events) as [s' acts] eqn:E. split; [exact Hw|]. apply H. injection E as _ <-. clear.
  vm_compute. repeat (split; [first [exact I|split; [discriminate|intros H; discriminate H]]|]). exact I.
Defined.

(** Between a worker's lookup and its ioctl the reader closes the descriptor, and
    the kernel gives its number to a modeset device, handle 6: the frontend
    ioctl checked for handle 5 is made on that device. *)
Definition modeset_cmd (id : Z) : msg := Msg (words [9; id; 48; 2; 1]) None.
Lemma ioctl_on_replaced_fd :
  let cmd := 0xC020462A in
  let s := Sys stub0 [open_cmd 5; Msg (words [3; 5; cmd; 0; 0; 0; 7; 0]) None; close_cmd 5; modeset_cmd 6] ∅ false in
  let '(s', acts) := run s [Read (env_fd 11); Read (env_fd 11); Take 1; Look 1; Read (env_fd 11); Read (env_fd 11); Call 1 nobody 0 no_driver] in
  WIoctl 1 11 cmd [] ∈ acts /\ handle_lookup (st s') 5 = -1 /\ handle_lookup (st s') 6 = 11 /\
  handle_type_matches_dev (handle_dev_lookup (st s') 6) cmd = false.
Proof. vm_compute. split; [|done]. apply list_elem_of_In. cbn. tauto. Qed.

(** A handle id the table has no room for: the descriptor stays open and
    nothing refers to it. *)
Lemma large_id_leaks :
  let '(s', acts) := run (Sys stub0 [open_cmd MAX_HANDLES; close_cmd MAX_HANDLES] ∅ false) (replicate 2 (Read (env_fd 11))) in
  after ∅ acts = {[11]} /\ handles (st s') = ∅.
Proof. split; by vm_compute. Qed.

(** Handle 5 is polled, replaced and so closed; the poll set still has the closed
    descriptor.  Handle 6 gets that descriptor from the kernel, and when it is
    ready the event is reported for handle 5. *)
Lemma stale_poll_entry :
  let '(s', acts) := run (Sys stub0 [open_cmd 5; poll_cmd 5; receive_cmd 5 12; open_cmd 6] ∅ false)
                         (replicate 4 (Read (env_fd 11)) ++ [Fired [(11, 1)]]) in
  handle_lookup (st s') 5 = 12 /\ handle_lookup (st s') 6 = 11 /\ last acts = Some (Send (RPollEvent 5 1)).
Proof. vm_compute. by split_and!. Qed.

(** Handle 0 can be polled; its event is not reported and it stays in the set. *)
Lemma poll_handle_zero_silent :
  let '(s', acts) := run (Sys stub0 [open_cmd 0; poll_cmd 0] ∅ false)
                         (replicate 2 (Read (env_fd 11)) ++ [Fired [(11, 1)]]) in
  polls (st s') = [(11, 0)] /\ last acts = Some (Send ROk).
Proof. vm_compute. by split_and!. Qed.

End StubFds.
