(* ===== verification/IsoReader.v ===== *)
(** * IsoReader: QEMU's side of an isolate's socket

    Models [src/qemu/nvkvm_isolate.c] for one isolate: the reader thread
    ([isolate_reader_fn]), the ioctls waiting for it ([nvkvm_isolate_ioctl],
    whose request lives on the caller's stack), the synchronous commands on
    their four response slots, and the bounded waits.  The threads interleave as
    a list of events, one per critical section.  The stub is hostile: it sends
    any message at any time.  [IsoPend] and [IsoSlots] prove what holds.

    One occupancy of the slot is followed, from its creation to the end of
    [nvkvm_isolate_kill]. *)
From S2P Require Import Prelude Bytes.

Module IsoReader.

Definition NVKVM_ISOLATE_MAX : Z := 4096.
Definition NVKVM_ISO_SYNC_TIMEOUT_MS : Z := 30000.
Definition NVKVM_ISO_WAIT_SLICE_MS : Z := 250.

(** ** Deadlines *)
Record timespec := TS { tv_sec : Z; tv_nsec : Z }.

Definition nvkvm_iso_deadline (now : timespec) (ms : Z) : timespec :=
  let s := tv_sec now + ms / 1000 in
  let n := tv_nsec now + ms mod 1000 * 1000000 in
  if 1000000000 <=? n then TS (s + 1) (n - 1000000000) else TS s n.

Definition nvkvm_iso_deadline_passed (now ts : timespec) : bool :=
  (tv_sec ts <? tv_sec now) || ((tv_sec now =? tv_sec ts) && (tv_nsec ts <=? tv_nsec now)).

(** How long one turn of the wait sleeps. *)
Definition wait_slice (now : timespec) (end_ : option timespec) : timespec :=
  let slice := nvkvm_iso_deadline now NVKVM_ISO_WAIT_SLICE_MS in
  match end_ with
  | Some e =>
      if (tv_sec e <? tv_sec slice) || ((tv_sec slice =? tv_sec e) && (tv_nsec e <? tv_nsec slice)) then e else slice
  | None => slice
  end.

Inductive wake := WDone | WGone | WTimeout | WAgain.

(** What a turn of [nvkvm_iso_slot_wait] finds after its sleep. *)
Definition slot_wait_turn (done gone : bool) (end_ : option timespec) (now : timespec) : wake :=
  if done then WDone
  else if gone then WGone
  else match end_ with
  | Some e => if nvkvm_iso_deadline_passed now e then WTimeout else WAgain
  | None => WAgain
  end.

(** ** Ioctls in flight *)

(** The request on the caller's stack, with its buffers; [f_pset] is whether the
    request still points to its parameter buffer, [f_sent] what sending gave. *)
Record frame := Frame {
  f_txn : Z; f_done : bool; f_error : Z; f_retval : Z; f_status : Z; f_fault : Z;
  f_param : list Z; f_pset : bool; f_aux : list Z; f_aset : bool; f_sent : option Z }.

Record header := Header { h_txn : Z; h_retval : Z; h_status : Z; h_fault : Z; h_psize : Z; h_asize : Z }.

(** ** Synchronous commands *)
Inductive kind := KSync | KPresent | KXiso | KLoop.

Definition same (a b : kind) : bool :=
  match a, b with KSync, KSync | KPresent, KPresent | KXiso, KXiso | KLoop, KLoop => true | _, _ => false end.

(** [CPlain]: CLOSE_FD, MUNMAP, POLL, UNPOLL and RECEIVE_FD; [COpen] and
    [CPresent] say whether the caller takes the descriptor. *)
Inductive scmd :=
| CPlain | CMmap | CWindow | CRing | CRealize
| COpen (want : bool) | CPresent (want : bool) | CXiso | CLoop.

Definition slot_of (c : scmd) : kind :=
  match c with CPresent _ => KPresent | CXiso => KXiso | CLoop => KLoop | _ => KSync end.

(** What the reader leaves in a slot besides the error and the descriptor. *)
Record vals := Vals {
  v_mret : Z; v_mva : Z; v_wbase : Z; v_wsize : Z; v_probe : Z;
  v_rva : Z; v_rlen : Z; v_rtok : Z; v_rst : Z; v_gem : Z; v_head : Z }.

(** [sl_owner]: who holds the lock of the whole round trip. *)
Record slot := Slot { sl_owner : option Z; sl_done : bool; sl_err : Z; sl_fd : Z; sl_val : vals }.

(** A synchronous call: past its check, waiting, declaring the isolate dead
    (the flag: it was the first to), or about to read what came. *)
Inductive thread :=
| TChecked (c : scmd) | TWait (c : scmd) (end_ : option timespec) | TDying (c : scmd) (first : bool) | TRead (c : scmd).

(** ** The reader *)
Inductive resp :=
| POk | PError (e : Z) | PMmap (ret va : Z) | PWindow (ret base size : Z)
| PIoctl (h : header) | PPoll (handle revents : Z)
| PRealize (ret va len tok st : Z) | PRing (err probe : Z) | PLoop (err head : Z)
| POpen (ret : Z) | PPresent (ret : Z) | PXiso (ret gem : Z) | PUnknown.

(** Between messages; inside an ioctl response, with the request it has
    claimed; or on its way out, with what is left to wake. *)
Inductive rphase :=
| RIdle | RParam (h : header) (p : option Z) | RAux (h : header) (p : option Z) | RFin (h : header) (p : option Z)
| RExit (l : list (option kind)) | RGone.

(** ** The isolate *)
Record iso := Iso {
  i_id : Z; i_inuse : bool; i_alive : bool; i_sock : bool; i_shut : bool; i_ring : bool; i_next : Z;
  pending : list Z; frames : gmap Z frame; rd_at : rphase; slots : kind -> slot; threads : gmap Z thread }.

Definition set_pend (s : iso) (p : list Z) (f : gmap Z frame) : iso :=
  Iso (i_id s) (i_inuse s) (i_alive s) (i_sock s) (i_shut s) (i_ring s) (i_next s) p f (rd_at s) (slots s) (threads s).
Definition set_next (s : iso) (n : Z) : iso :=
  Iso (i_id s) (i_inuse s) (i_alive s) (i_sock s) (i_shut s) (i_ring s) n (pending s) (frames s) (rd_at s) (slots s) (threads s).
Definition set_rd (s : iso) (r : rphase) : iso :=
  Iso (i_id s) (i_inuse s) (i_alive s) (i_sock s) (i_shut s) (i_ring s) (i_next s) (pending s) (frames s) r (slots s) (threads s).
Definition set_alive (s : iso) (b : bool) : iso :=
  Iso (i_id s) (i_inuse s) b (i_sock s) (i_shut s) (i_ring s) (i_next s) (pending s) (frames s) (rd_at s) (slots s) (threads s).
Definition set_wire (s : iso) (inuse sock shut ring : bool) : iso :=
  Iso (i_id s) inuse (i_alive s) sock shut ring (i_next s) (pending s) (frames s) (rd_at s) (slots s) (threads s).
Definition set_slot (s : iso) (k : kind) (x : slot) : iso :=
  Iso (i_id s) (i_inuse s) (i_alive s) (i_sock s) (i_shut s) (i_ring s) (i_next s) (pending s) (frames s) (rd_at s)
    (fun k' => if same k' k then x else slots s k') (threads s).
Definition set_threads (s : iso) (t : gmap Z thread) : iso :=
  Iso (i_id s) (i_inuse s) (i_alive s) (i_sock s) (i_shut s) (i_ring s) (i_next s) (pending s) (frames s) (rd_at s) (slots s) t.

(** ** What happens *)
Inductive act :=
| AHdr (h : header)                      (* an ioctl response was read *)
| AWrite (c : Z) (len : Z)               (* bytes stored in a caller's buffer *)
| AStray (c : Z)                         (* a request was used that is no more *)
| ABack (c txn r : Z)                    (* an ioctl returned *)
| AGot (fd : Z) | AClose (fd : Z)
| AHand (fd : Z)                         (* given to the caller *)
| ALost (fd : Z)                         (* overwritten in its slot while open *)
| ALeak (fd : Z)                         (* installed, and looked at by nobody *)
| AEvent (handle revents : Z)
| ASent (k : kind) (x : Z) (alive : bool)   (* a synchronous command went out *)
| AResp (k : kind) (r : resp)            (* a response was put into its slot *)
| AReset (k : kind)                      (* the reader's last word for the slot *)
| ADone (k : kind) (x : Z) (sl : slot)   (* a command found its slot done *)
| ARet (x r : Z) (out : list Z)          (* and returned *)
| AShutdown.

Definition EPIPE : Z := 32.
Definition ECONNRESET : Z := 104.
Definition ETIMEDOUT : Z := 110.

(** *** The reader's writes into a request *)
Definition on_frame (s : iso) (c : Z) (f : frame -> frame) (a : list act) : iso * list act :=
  match frames s !! c with
  | Some x => (set_pend s (pending s) (<[c := f x]> (frames s)), a)
  | None => (s, [AStray c])
  end.

Definition fail (x : frame) : frame :=
  Frame (f_txn x) true (- ECONNRESET) (f_retval x) (f_status x) (f_fault x) (f_param x) (f_pset x) (f_aux x) (f_aset x) (f_sent x).
Definition complete (h : header) (x : frame) : frame :=
  Frame (f_txn x) true 0 (h_retval h) (h_status h) (h_fault h) (f_param x) (f_pset x) (f_aux x) (f_aset x) (f_sent x).

(** A message into a buffer: at most the buffer's size of it arrives. *)
Definition recv_into (m buf : list Z) : list Z := take (length buf) m ++ drop (length m) buf.

Definition put_param (m : list Z) (x : frame) : frame :=
  Frame (f_txn x) (f_done x) (f_error x) (f_retval x) (f_status x) (f_fault x) (recv_into m (f_param x)) (f_pset x) (f_aux x) (f_aset x) (f_sent x).
Definition put_aux (m : list Z) (x : frame) : frame :=
  Frame (f_txn x) (f_done x) (f_error x) (f_retval x) (f_status x) (f_fault x) (f_param x) (f_pset x) (recv_into m (f_aux x)) (f_aset x) (f_sent x).
Definition no_param (x : frame) : frame :=
  Frame (f_txn x) (f_done x) (f_error x) (f_retval x) (f_status x) (f_fault x) (f_param x) false (f_aux x) (f_aset x) (f_sent x).
Definition no_aux (x : frame) : frame :=
  Frame (f_txn x) (f_done x) (f_error x) (f_retval x) (f_status x) (f_fault x) (f_param x) (f_pset x) (f_aux x) false (f_sent x).

Definition reader_out : list (option kind) := [None; Some KSync; Some KPresent; Some KXiso; Some KLoop].

Definition reader_fail_claimed (s : iso) (p : option Z) : iso * list act :=
  match p with Some c => on_frame s c fail [] | None => (s, []) end.

(** The request a response is for: the newest with its number, taken off the list. *)
Definition matches (s : iso) (txn c : Z) : bool :=
  match frames s !! c with Some x => f_txn x =? txn | None => false end.
Definition claim (s : iso) (txn : Z) : iso * option Z :=
  match find_idx (matches s txn) (pending s) with
  | Some i => (set_pend s (delete i (pending s)) (frames s), pending s !! i)
  | None => (s, None)
  end.

(** Does a blob of [size] go to the request's buffer? *)
Definition to_param (s : iso) (p : option Z) (size : Z) : option Z :=
  match p with
  | Some c => match frames s !! c with
              | Some x => if f_pset x && (size <=? u32 (arr_len (f_param x))) then Some c else None
              | None => Some c
              end
  | None => None
  end.
Definition to_aux (s : iso) (p : option Z) (size : Z) : option Z :=
  match p with
  | Some c => match frames s !! c with
              | Some x => if f_aset x && (size <=? u32 (arr_len (f_aux x))) then Some c else None
              | None => Some c
              end
  | None => None
  end.

(** One blob: [m] is what arrived, [[]] for an error or the end. *)
Definition take_blob (s : iso) (p dst : option Z) (m : list Z) (put : list Z -> frame -> frame) (forget : frame -> frame)
    (cap : Z) (next : rphase) : iso * list act :=
  match dst with
  | Some c =>
      match m with
      | [] => let '(s, a) := reader_fail_claimed s p in (set_rd s (RExit reader_out), a)
      | _ => let '(s, a) := on_frame s c (put m) [AWrite c (Z.min (arr_len m) cap)] in (set_rd s next, a)
      end
  | None =>
      match p with
      | Some c => let '(s, a) := on_frame s c forget [] in (set_rd s next, a)
      | None => (set_rd s next, [])
      end
  end.

Definition cap_of (s : iso) (p : option Z) (buf : frame -> list Z) : Z :=
  match p with Some c => match frames s !! c with Some x => arr_len (buf x) | None => 0 end | None => 0 end.

(** *** The reader's slots *)
Definition sl_put (sl : slot) (err fd : Z) (v : vals) : slot := Slot (sl_owner sl) true err fd v.
Definition with_mmap (v : vals) (r : Z) : vals :=
  Vals r (v_mva v) (v_wbase v) (v_wsize v) (v_probe v) (v_rva v) (v_rlen v) (v_rtok v) (v_rst v) (v_gem v) (v_head v).
Definition with_mva (v : vals) (a : Z) : vals :=
  Vals (v_mret v) a (v_wbase v) (v_wsize v) (v_probe v) (v_rva v) (v_rlen v) (v_rtok v) (v_rst v) (v_gem v) (v_head v).
Definition with_win (v : vals) (b z : Z) : vals :=
  Vals (v_mret v) (v_mva v) b z (v_probe v) (v_rva v) (v_rlen v) (v_rtok v) (v_rst v) (v_gem v) (v_head v).
Definition with_probe (v : vals) (p : Z) : vals :=
  Vals (v_mret v) (v_mva v) (v_wbase v) (v_wsize v) p (v_rva v) (v_rlen v) (v_rtok v) (v_rst v) (v_gem v) (v_head v).
Definition with_real (v : vals) (a l t st : Z) : vals :=
  Vals (v_mret v) (v_mva v) (v_wbase v) (v_wsize v) (v_probe v) a l t st (v_gem v) (v_head v).
Definition with_gem (v : vals) (g : Z) : vals :=
  Vals (v_mret v) (v_mva v) (v_wbase v) (v_wsize v) (v_probe v) (v_rva v) (v_rlen v) (v_rtok v) (v_rst v) g (v_head v).
Definition with_head (v : vals) (h : Z) : vals :=
  Vals (v_mret v) (v_mva v) (v_wbase v) (v_wsize v) (v_probe v) (v_rva v) (v_rlen v) (v_rtok v) (v_rst v) (v_gem v) h.

Definition reader_signal_sync (sl : slot) (err mret : Z) : slot := sl_put sl err (sl_fd sl) (with_mmap (sl_val sl) mret).

(** The two slots with a descriptor: what was there is closed first. *)
Definition reader_signal_fd (sl : slot) (err fd : Z) : slot * list act :=
  (sl_put sl err fd (sl_val sl), if (0 <=? sl_fd sl) && negb (sl_fd sl =? fd) then [AClose (sl_fd sl)] else []).

(** Control messages on a 64-bit host: a header of 16 bytes, padded to 8. *)
Definition CMSG_LEN (n : Z) : Z := 16 + n.
Definition CMSG_SPACE (n : Z) : Z := 16 + (n + 7) / 8 * 8.

(** The descriptors the kernel installs for a message: as many as fit into
    [cmsg_buf], which has room for one and its padding; the others are dropped. *)
Definition installed (scm : list Z) : list Z := take (Z.to_nat ((CMSG_SPACE 4 - CMSG_LEN 0) / 4)) scm.

(** The descriptor of a response that may carry one: taken when it came alone,
    kept only with a success. *)
Definition scm_fd (ret : Z) (fds : list Z) : Z * list act :=
  let got := map AGot fds in
  match fds with
  | fd :: _ =>
      if CMSG_LEN (4 * arr_len fds) =? CMSG_LEN 4 then
        if negb (ret =? 0) && (0 <=? fd) then (-1, got ++ [AClose fd]) else (fd, got)
      else (-1, got ++ map ALeak fds)
  | [] => (-1, [])
  end.

Definition on_slot (s : iso) (r : resp) (k : kind) (sl : slot) (a : list act) : iso * list act :=
  (set_slot s k sl, a ++ [AResp k r]).

(** One message, with the descriptors that came along. *)
Definition reader_msg (s : iso) (r : resp) (scm : list Z) : iso * list act :=
  let fds := installed scm in
  let drop := map AGot fds ++ map AClose (base.filter (fun fd => 0 <= fd) fds) in
  let sync := slots s KSync in
  let v := sl_val sync in
  match r with
  | POk => on_slot s r KSync (reader_signal_sync sync 0 0) drop
  | PError e => on_slot s r KSync (reader_signal_sync sync (s32 (u32 (- s32 e))) 0) drop
  | PMmap ret va => on_slot s r KSync (sl_put sync 0 (sl_fd sync) (with_mmap (with_mva v (if ret =? 0 then va else 0)) ret)) drop
  | PWindow ret base size =>
      on_slot s r KSync (sl_put sync ret (sl_fd sync)
        (with_mmap (with_win v (if ret =? 0 then base else 0) (if ret =? 0 then size else 0)) 0)) drop
  | PIoctl h => let '(s, p) := claim s (h_txn h) in (set_rd s (RParam h p), drop ++ [AHdr h])
  | PPoll h rev => (s, drop ++ [AEvent h rev])
  | PRealize ret va len tok st => on_slot s r KSync (sl_put sync ret (sl_fd sync) (with_real v va len tok st)) drop
  | PRing err probe => on_slot s r KSync (sl_put sync err (sl_fd sync) (with_probe v probe)) drop
  | PLoop err head => let sl := slots s KLoop in on_slot s r KLoop (sl_put sl err (sl_fd sl) (with_head (sl_val sl) head)) drop
  | POpen ret =>
      let '(fd, a) := scm_fd ret fds in
      let '(sl, b) := reader_signal_fd sync ret fd in on_slot s r KSync sl (a ++ b)
  | PPresent ret =>
      let '(fd, a) := scm_fd ret fds in
      let '(sl, b) := reader_signal_fd (slots s KPresent) ret fd in on_slot s r KPresent sl (a ++ b)
  | PXiso ret gem => let sl := slots s KXiso in on_slot s r KXiso (sl_put sl ret (sl_fd sl) (with_gem (sl_val sl) gem)) drop
  | PUnknown => (s, drop)
  end.

(** *** On the way out *)
Definition fail_all (s : iso) : iso :=
  let hit := list_to_set (C := gset Z) (pending s) in
  set_alive (set_pend s [] (map_imap (fun c x => Some (if decide (c ∈ hit) then fail x else x)) (frames s))) false.

Definition reader_exit (s : iso) (x : option kind) : iso * list act :=
  match x with
  | None => (fail_all s, [])
  | Some KSync => (set_slot s KSync (reader_signal_sync (slots s KSync) (- ECONNRESET) 0), [AReset KSync])
  | Some KPresent =>
      let '(sl, a) := reader_signal_fd (slots s KPresent) (- ECONNRESET) (-1) in (set_slot s KPresent sl, a ++ [AReset KPresent])
  | Some KXiso =>
      let sl := slots s KXiso in
      (set_slot s KXiso (sl_put sl (- ECONNRESET) (sl_fd sl) (with_gem (sl_val sl) 0)), [AReset KXiso])
  | Some KLoop =>
      let sl := slots s KLoop in
      (set_slot s KLoop (sl_put sl (- ECONNRESET) (sl_fd sl) (with_head (sl_val sl) 0)), [AReset KLoop])
  end.

(** ** Ioctls *)
Definition next_txn (n : Z) : Z := let n := u32 (n + 1) in if n =? 0 then 1 else n.

Definition id_ok (id : Z) : bool := negb (id =? 0) && (id <? NVKVM_ISOLATE_MAX).
Definition valid (s : iso) (id : Z) : bool := i_inuse s && (i_id s =? id) && i_alive s.

Definition ioctl_register (s : iso) (c id : Z) (p : list Z) (pset : bool) (a : list Z) (aset : bool) : iso * list act :=
  if negb (id_ok id) || negb (valid s id) then (s, [ABack c 0 (- ENOENT)])
  else
    let x := Frame (i_next s) false 0 0 0 0 p pset a aset None in
    (set_next (set_pend s (c :: pending s) (<[c := x]> (frames s))) (next_txn (i_next s)), []).

Definition sent (r : Z) (x : frame) : frame :=
  Frame (f_txn x) (f_done x) (f_error x) (f_retval x) (f_status x) (f_fault x) (f_param x) (f_pset x) (f_aux x) (f_aset x) (Some r).

(** The sending of header and blobs; nothing goes out without a socket. *)
Definition ioctl_sent (s : iso) (c r : Z) : iso :=
  set_pend s (pending s) (alter (sent (if negb (i_sock s) || i_shut s then - EPIPE else r)) c (frames s)).

Definition ioctl_result (x : frame) (sr : Z) : Z :=
  if (sr <? 0) && (f_error x =? 0) then sr else if negb (f_error x =? 0) then f_error x else f_retval x.

(** The wait is over: off the list, and back to the caller. *)
Definition ioctl_return (s : iso) (c : Z) : iso * list act :=
  match frames s !! c with
  | Some x =>
      match f_sent x with
      | Some sr =>
          if f_done x then
            (set_pend s (base.filter (fun d => d <> c) (pending s)) (delete c (frames s)), [ABack c (f_txn x) (ioctl_result x sr)])
          else (s, [])
      | None => (s, [])
      end
  | None => (s, [])
  end.

(** ** Synchronous calls *)
Definition takes_txn (c : scmd) : bool := match c with COpen _ | CPresent _ | CXiso => true | _ => false end.
Definition refusal (c : scmd) : Z := match c with CLoop => - ENODEV | _ => - ENOENT end.

Definition sync_check (s : iso) (x id : Z) (c : scmd) : iso * list act :=
  if negb (id_ok id) then (s, [ARet x (- ENOENT) []])
  else
    let ok := valid s id && match c with CLoop => i_ring s && i_sock s | _ => true end in
    let s := if takes_txn c then set_next s (next_txn (i_next s)) else s in
    if ok then (set_threads s (<[x := TChecked c]> (threads s)), []) else (s, [ARet x (refusal c) []]).

(** The slot as a command sets it up; the descriptor field is overwritten. *)
Definition reset (c : scmd) (sl : slot) : slot * list act :=
  let v := sl_val sl in
  let plain := Slot (sl_owner sl) false 0 (sl_fd sl) v in
  let lost := if 0 <=? sl_fd sl then [ALost (sl_fd sl)] else [] in
  match c with
  | CMmap => (Slot (sl_owner sl) false 0 (sl_fd sl) (with_mmap (with_mva v 0) 0), [])
  | CRealize => (Slot (sl_owner sl) false 0 (sl_fd sl) (with_real v 0 0 0 0), [])
  | COpen _ | CPresent _ => (Slot (sl_owner sl) false 0 (-1) v, lost)
  | CXiso => (Slot (sl_owner sl) false 0 (sl_fd sl) (with_gem v 0), [])
  | CLoop => (Slot (sl_owner sl) false 0 (sl_fd sl) (with_head v 0), [])
  | _ => (plain, [])
  end.

Definition set_owner (sl : slot) (o : option Z) : slot := Slot o (sl_done sl) (sl_err sl) (sl_fd sl) (sl_val sl).

Definition no_deadline (c : scmd) : bool := match c with CLoop => true | _ => false end.

(** Lock, set up and send; [r] is what sending gives while there is a socket. *)
Definition sync_start (s : iso) (x : Z) (r : Z) (now : timespec) : iso * list act :=
  match threads s !! x with
  | Some (TChecked c) =>
      let k := slot_of c in
      match sl_owner (slots s k) with
      | Some _ => (s, [])
      | None =>
          let '(sl, lost) := reset c (slots s k) in
          let r := if negb (i_sock s) then - EBADF else if i_shut s then - EPIPE else r in
          if r <? 0 then (set_threads (set_slot s k sl) (delete x (threads s)), lost ++ [ARet x r []])
          else
            let e := if no_deadline c then None else Some (nvkvm_iso_deadline now NVKVM_ISO_SYNC_TIMEOUT_MS) in
            (set_threads (set_slot s k (set_owner sl (Some x))) (<[x := TWait c e]> (threads s)),
             lost ++ [ASent k x (i_alive s)])
      end
  | _ => (s, [])
  end.

(** A command that carried a descriptor takes it from the slot. *)
Definition take_fd (sl : slot) : slot := Slot None (sl_done sl) (sl_err sl) (-1) (sl_val sl).

Definition fd_result (err fd : Z) (want : bool) : Z * list act :=
  if negb (err =? 0) then (err, if 0 <=? fd then [AClose fd] else [])
  else if fd <? 0 then (- EPROTO, [])
  else (0, if want then [AHand fd] else [AClose fd]).

(** The command found its slot done. *)
Definition sync_finish (s : iso) (x : Z) (c : scmd) : iso * list act :=
  let k := slot_of c in
  let sl := slots s k in
  let v := sl_val sl in
  let err := sl_err sl in
  let leave := set_threads (set_slot s k (set_owner sl None)) (delete x (threads s)) in
  let found := ADone k x sl in
  match c with
  | CPlain => (leave, [found; ARet x err []])
  | CMmap =>
      let r := if negb (err =? 0) then err else v_mret v in
      (leave, [found; ARet x r [if r =? 0 then v_mva v else 0]])
  | CRealize => (leave, [found; ARet x err [v_rva v; v_rlen v; v_rtok v; v_rst v]])
  | CWindow | CRing =>
      if err =? 0 then (set_threads (set_slot s k (set_owner sl None)) (<[x := TRead c]> (threads s)), [found])
      else (leave, [found; ARet x err []])
  | COpen want | CPresent want =>
      let '(r, a) := fd_result err (sl_fd sl) want in
      (set_threads (set_slot s k (take_fd sl)) (delete x (threads s)), found :: a ++ [ARet x r []])
  | CXiso =>
      (leave, [found; if negb (err =? 0) then ARet x err [] else if v_gem v =? 0 then ARet x (- EPROTO) [] else ARet x 0 [v_gem v]])
  | CLoop => (leave, [found; ARet x err [v_head v]])
  end.

(** The wait gave [rc] instead. *)
Definition sync_fail (s : iso) (x : Z) (c : scmd) (rc : Z) : iso * list act :=
  let k := slot_of c in
  let sl := slots s k in
  let s := set_threads s (delete x (threads s)) in
  match c with
  | COpen _ | CPresent _ =>
      (set_slot s k (take_fd sl), (if 0 <=? sl_fd sl then [ALost (sl_fd sl)] else []) ++ [ARet x rc []])
  | CLoop => (set_slot s k (set_owner sl None), [ARet x (- ENODEV) []])
  | _ => (set_slot s k (set_owner sl None), [ARet x rc []])
  end.

(** A turn of the wait.  The deadline's first half: the isolate is marked dead. *)
Definition sync_turn (s : iso) (x : Z) (now : timespec) : iso * list act :=
  match threads s !! x with
  | Some (TWait c e) =>
      match slot_wait_turn (sl_done (slots s (slot_of c))) (negb (i_inuse s) || negb (i_alive s)) e now with
      | WDone => sync_finish s x c
      | WGone => sync_fail s x c (- ENODEV)
      | WTimeout => (set_alive (set_threads s (<[x := TDying c (i_alive s)]> (threads s))) false, [])
      | WAgain => (s, [])
      end
  | _ => (s, [])
  end.

(** [nvkvm_isolate_declare_dead], the second half. *)
Definition sync_dead (s : iso) (x : Z) : iso * list act :=
  match threads s !! x with
  | Some (TDying c first) =>
      let s' := if first then set_wire s (i_inuse s) (i_sock s) true (i_ring s) else s in
      let '(s', a) := sync_fail s' x c (- ETIMEDOUT) in
      (s', (if first then [AShutdown] else []) ++ a)
  | _ => (s, [])
  end.

(** The values of [CWindow] and [CRing] are read once more, without the round trip's lock. *)
Definition sync_read (s : iso) (x : Z) : iso * list act :=
  let v := sl_val (slots s KSync) in
  match threads s !! x with
  | Some (TRead CWindow) => (set_threads s (delete x (threads s)), [ARet x 0 [v_wbase v; v_wsize v]])
  | Some (TRead CRing) => (set_threads s (delete x (threads s)), [ARet x 0 [v_probe v]])
  | _ => (s, [])
  end.

(** ** Events *)
Inductive ev :=
| EReg (c id : Z) (p : list Z) (pset : bool) (a : list Z) (aset : bool)
| ESent (c r : Z) | EBack (c : Z)
| EMsg (r : resp) (scm : list Z) | EAgain | EEof
| EBlob (m : list Z) | EOut
| ECheck (x id : Z) (c : scmd) | EStart (x r : Z) (now : timespec) | ETurn (x : Z) (now : timespec) | EDead (x : Z) | ERead (x : Z)
| ERing                                          (* the ring was set up *)
| EKillMark | EKillSock | EKillShut | EKillEnd.  (* [nvkvm_isolate_kill] *)

Definition reader_blob (s : iso) (m : list Z) : iso * list act :=
  match rd_at s with
  | RParam h p =>
      if 0 <? h_psize h then take_blob s p (to_param s p (h_psize h)) m put_param no_param (cap_of s p f_param) (RAux h p)
      else (set_rd s (RAux h p), [])
  | RAux h p =>
      if 0 <? h_asize h then take_blob s p (to_aux s p (h_asize h)) m put_aux no_aux (cap_of s p f_aux) (RFin h p)
      else (set_rd s (RFin h p), [])
  | RFin h p =>
      match p with
      | Some c => let '(s, a) := on_frame s c (complete h) [] in (set_rd s RIdle, a)
      | None => (set_rd s RIdle, [])
      end
  | _ => (s, [])
  end.

Definition step (s : iso) (v : ev) : iso * list act :=
  match v with
  | EReg c id p pset a aset => match frames s !! c with Some _ => (s, []) | None => ioctl_register s c id p pset a aset end
  | ESent c r => (ioctl_sent s c r, [])
  | EBack c => ioctl_return s c
  | EMsg r scm => match rd_at s with RIdle => reader_msg s r scm | _ => (s, []) end
  | EAgain => match rd_at s with RIdle => if i_alive s && i_sock s then (s, []) else (set_rd s (RExit reader_out), []) | _ => (s, []) end
  | EEof => match rd_at s with RIdle => (set_rd s (RExit reader_out), []) | _ => (s, []) end
  | EBlob m => reader_blob s m
  | EOut =>
      match rd_at s with
      | RExit [] => (set_rd s RGone, [])
      | RExit (x :: l) => reader_exit (set_rd s (RExit l)) x
      | _ => (s, [])
      end
  | ECheck x id c => match threads s !! x with Some _ => (s, []) | None => sync_check s x id c end
  | EStart x r now => sync_start s x r now
  | ETurn x now => sync_turn s x now
  | EDead x => sync_dead s x
  | ERead x => sync_read s x
  | ERing => (set_wire s (i_inuse s) (i_sock s) (i_shut s) true, [])
  | EKillMark => (set_alive s false, [])
  | EKillSock => (set_wire s (i_inuse s) false (i_shut s) (i_ring s), [])
  | EKillShut => (set_wire s (i_inuse s) (i_sock s) true (i_ring s), [])
  | EKillEnd => match rd_at s with RGone => (set_wire s false (i_sock s) (i_shut s) (i_ring s), []) | _ => (s, []) end
  end.

Fixpoint run (s : iso) (l : list ev) : iso * list act :=
  match l with
  | [] => (s, [])
  | v :: l => let '(s, a) := step s v in let '(s, a') := run s l in (s, a ++ a')
  end.

(** A new isolate; [left] is what the last one in its place left in the slots,
    whose descriptors were closed. *)
Definition start (id : Z) (left : kind -> slot) : iso :=
  Iso id true true true false false 1 [] ∅ RIdle
    (fun k => Slot None (sl_done (left k)) (sl_err (left k)) (-1) (sl_val (left k))) ∅.

Lemma iso_run_app l1 : forall s l2,
  run s (l1 ++ l2) = (let '(s1, a1) := run s l1 in let '(s2, a2) := run s1 l2 in (s2, a1 ++ a2)).
Proof.
  induction l1 as [|v l1 IH]; intros s l2; cbn [run app]; [by destruct (run s l2)|].
  destruct (step s v) as [s0 a0]. rewrite IH. destruct (run s0 l1) as [s1 a1]. destruct (run s1 l2). by rewrite app_assoc.
Qed.

(** An invariant of the state and what has happened. *)
Lemma iso_run_inv (I : iso -> list act -> Prop) l : forall s h,
  (forall s h v, I s h -> I (fst (step s v)) (h ++ snd (step s v))) ->
  I s h -> I (fst (run s l)) (h ++ snd (run s l)).
Proof.
  induction l as [|v l IH]; intros s h Hs Hi; cbn [run]; [by rewrite app_nil_r|].
  pose proof (Hs s h v Hi) as H1. destruct (step s v) as [s1 a1]. cbn [fst snd] in H1. specialize (IH s1 (h ++ a1) Hs H1).
  destruct (run s1 l) as [s2 a2]. cbn [fst snd] in *. by rewrite app_assoc.
Qed.

End IsoReader.
