(* ===== verification/IsoPend.v ===== *)
(** * IsoPend: ioctls in flight to an isolate

    Proves of [IsoReader] that the reader only ever touches requests whose
    callers still wait, that a caller comes back with the answer to its own
    request or with an error, and that no caller is left waiting once the socket
    has ended. *)
From S2P Require Import Prelude Bytes IsoReader.

Module IsoPend.
Import IsoReader.

(** The request the reader holds, with the response it holds it for. *)
Definition held (r : rphase) : option (header * Z) :=
  match r with RParam h (Some c) | RAux h (Some c) | RFin h (Some c) => Some (h, c) | _ => None end.

Definition reading (r : rphase) : option header :=
  match r with RParam h _ | RAux h _ | RFin h _ => Some h | _ => None end.

(** The reader has woken the ioctls. *)
Definition past (r : rphase) : Prop :=
  match r with RExit l => None ∉ l | RGone => True | _ => False end.

Definition from (hist : list act) (x : frame) : Prop :=
  f_error x = 0 -> exists h, AHdr h ∈ hist /\ h_txn h = f_txn x /\ h_retval h = f_retval x.

Record ok (s : iso) (hist : list act) : Prop := {
  ok_nodup : NoDup (pending s);
  ok_list : forall c, c ∈ pending s -> exists x, frames s !! c = Some x /\ f_done x = false;
  ok_held : forall h c, held (rd_at s) = Some (h, c) ->
    c ∉ pending s /\ exists x, frames s !! c = Some x /\ f_done x = false /\ f_txn x = h_txn h;
  ok_live : forall c x, frames s !! c = Some x -> f_done x = false -> c ∈ pending s \/ exists h, held (rd_at s) = Some (h, c);
  ok_past : past (rd_at s) -> i_alive s = false /\ pending s = [];
  ok_hdr : forall h, reading (rd_at s) = Some h -> AHdr h ∈ hist;
  ok_from : forall c x, frames s !! c = Some x -> f_done x = true -> from hist x;
  ok_err : forall c x, frames s !! c = Some x -> f_error x = 0 \/ f_error x = - ECONNRESET }.

(** What a returned ioctl got. *)
Definition back_ok (hist : list act) (t r : Z) : Prop :=
  t = 0 /\ r = - ENOENT \/ r < 0 \/ exists h, AHdr h ∈ hist /\ h_txn h = t /\ h_retval h = r.

Definition clean (hist : list act) (a : act) : Prop :=
  match a with AStray _ => False | ABack _ t r => back_ok hist t r | _ => True end.

Lemma from_mono h1 h2 x : from h1 x -> from (h1 ++ h2) x.
Proof. intros H E. destruct (H E) as (h & Hin & ? & ?). exists h. split; [apply elem_of_app; by left|done]. Qed.

Lemma clean_mono h1 h2 a : clean h1 a -> clean (h1 ++ h2) a.
Proof.
  destruct a; try done. intros [?|[?|(h & Hi & ? & ?)]]; [by left|by right; left|right; right].
  exists h. split; [apply elem_of_app; by left|done].
Qed.

(** Histories may grow. *)
Lemma ok_more s h a : ok s h -> ok s (h ++ a).
Proof.
  intros [H1 H2 H3 H4 H5 H6 H7 H8]. constructor; try done.
  - intros x Hx. apply elem_of_app. left. by apply H6.
  - intros c x Hc Hd. apply from_mono. by apply (H7 c).
Qed.

(** Steps that leave the ioctls, the reader's place and the life of the isolate alone. *)
Definition core (s : iso) : list Z * gmap Z frame * rphase := (pending s, frames s, rd_at s).

Lemma ok_core s s' h : core s' = core s -> (i_alive s = false -> i_alive s' = false) -> ok s h -> ok s' h.
Proof.
  intros E Ha [H1 H2 H3 H4 H5 H6 H7 H8]. unfold core in E. injection E as E1 E2 E3.
  constructor; rewrite ?E1, ?E2, ?E3; try done. intros Hp. destruct (H5 Hp). split; auto.
Qed.

(** The reader's place changes, with nothing held before or after. *)
Lemma ok_move s r h :
  ok s h -> held (rd_at s) = None -> held r = None -> (past r -> i_alive s = false /\ pending s = []) ->
  (forall x, reading r = Some x -> AHdr x ∈ h) -> ok (set_rd s r) h.
Proof.
  intros [H1 H2 H3 H4 H5 H6 H7 H8] E Er Hp Hr. constructor; cbn [set_rd pending frames rd_at i_alive]; try done.
  - intros x c Hx. by rewrite Er in Hx.
  - intros c x Hc Hd. left. destruct (H4 c x Hc Hd) as [|[y Hy]]; [done|]. by rewrite E in Hy.
Qed.

(** ** The reader and the request it holds *)
Lemma ok_frame s h c hd (f : frame -> frame) r :
  ok s h -> held (rd_at s) = Some (hd, c) -> held r = Some (hd, c) -> reading r = Some hd ->
  (forall x, f_done (f x) = f_done x /\ f_txn (f x) = f_txn x /\ f_error (f x) = f_error x) ->
  ok (set_rd (fst (on_frame s c f [])) r) h /\ forall a, snd (on_frame s c f a) = a.
Proof.
  intros Ho E Er Hr Hf. destruct Ho as [H1 H2 H3 H4 H5 H6 H7 H8]. destruct (H3 hd c E) as (Hn & x & Hx & Hd & Ht).
  unfold on_frame. rewrite Hx. split; [|done]. destruct (Hf x) as (F1 & F2 & F3).
  constructor; cbn [set_rd set_pend pending frames rd_at i_alive fst]; try done.
  - intros d Hi. destruct (H2 d Hi) as (y & Hy & Hz). exists y. split; [|done]. rewrite lookup_insert_ne; [done|]. by intros ->.
  - intros x' d Hx'. rewrite Er in Hx'. injection Hx' as <- <-. split; [done|]. exists (f x).
    rewrite lookup_insert_eq, F1, F2. done.
  - intros d y Hy Hz. apply lookup_insert_Some in Hy as [[<- <-]|[Hne Hy]]; [right; by exists hd|].
    destruct (H4 d y Hy Hz) as [|[z Hz']]; [by left|]. rewrite E in Hz'. by injection Hz' as _ ->.
  - intros Hp. exfalso. destruct r as [|h' [?|]|h' [?|]|h' [?|]|l|]; done.
  - intros y Hy. rewrite Hr in Hy. injection Hy as <-. apply H6. destruct (rd_at s) as [|? [?|]|? [?|]|? [?|]|l|]; try done; by injection E as <- <-.
  - intros d y Hy Hz. apply lookup_insert_Some in Hy as [[<- <-]|[Hne Hy]]; [congruence|by apply (H7 d)].
  - intros d y Hy. apply lookup_insert_Some in Hy as [[<- <-]|[Hne Hy]]; [rewrite F3; by apply (H8 c)|by apply (H8 d)].
Qed.

(** The request is done, with or without an answer; the reader lets go of it. *)
Lemma ok_let_go s h c hd (f : frame -> frame) r :
  ok s h -> held (rd_at s) = Some (hd, c) -> held r = None -> reading r = None -> ~ past r ->
  (forall x, f_txn x = h_txn hd -> f_done (f x) = true /\ from h (f x) /\ (f_error (f x) = 0 \/ f_error (f x) = - ECONNRESET)) ->
  ok (set_rd (fst (on_frame s c f [])) r) h /\ forall a, snd (on_frame s c f a) = a.
Proof.
  intros Ho E Er Hr Hp Hf. destruct Ho as [H1 H2 H3 H4 H5 H6 H7 H8]. destruct (H3 hd c E) as (Hn & x & Hx & Hd & Ht).
  unfold on_frame. rewrite Hx. split; [|done]. destruct (Hf x Ht) as (F1 & F2 & F3).
  constructor; cbn [set_rd set_pend pending frames rd_at i_alive fst]; try done.
  - intros d Hi. destruct (H2 d Hi) as (y & Hy & Hz). exists y. split; [|done]. rewrite lookup_insert_ne; [done|]. by intros ->.
  - intros x' d Hx'. by rewrite Er in Hx'.
  - intros d y Hy Hz. apply lookup_insert_Some in Hy as [[<- <-]|[Hne Hy]]; [congruence|].
    destruct (H4 d y Hy Hz) as [|[z Hz']]; [by left|]. rewrite E in Hz'. by injection Hz' as _ ->.
  - intros y Hy. by rewrite Hr in Hy.
  - intros d y Hy Hz. apply lookup_insert_Some in Hy as [[<- <-]|[Hne Hy]]; [done|by apply (H7 d)].
  - intros d y Hy. apply lookup_insert_Some in Hy as [[<- <-]|[Hne Hy]]; [done|by apply (H8 d)].
Qed.

Lemma fail_from h x : from h (fail x).
Proof. intros H. done. Qed.

Lemma held_reading r hd c : held r = Some (hd, c) -> reading r = Some hd.
Proof. destruct r as [|? [?|]|? [?|]|? [?|]|l|]; try done; by intros [= -> _]. Qed.

Lemma not_past_out : ~ past (RExit reader_out).
Proof. cbn. intros H. apply H. left. Qed.

(** Giving up with a request in hand. *)
Lemma fail_claimed_ok s h p :
  ok s h -> (forall hd c, p = Some c -> reading (rd_at s) = Some hd -> held (rd_at s) = Some (hd, c)) ->
  (exists hd, reading (rd_at s) = Some hd) -> (p = None -> held (rd_at s) = None) ->
  let '(s', a) := reader_fail_claimed s p in ok (set_rd s' (RExit reader_out)) h /\ a = [].
Proof.
  intros Ho Hp [hd Hr] Hn. destruct p as [c|]; cbn [reader_fail_claimed].
  - destruct (ok_let_go s h c hd fail (RExit reader_out) Ho (Hp hd c eq_refl Hr)) as [H1 H2]; try done; [apply not_past_out| |].
    { intros x _. split; [done|]. split; [apply fail_from|by right]. }
    specialize (H2 []). destruct (on_frame s c fail []) as [s' a]. done.
  - split; [|done]. apply ok_move; try done; [by apply Hn|by intros ?%not_past_out].
Qed.

(** ** Blobs *)
Definition holds (r : rphase) (h : header) (p : option Z) : Prop :=
  reading r = Some h /\ held r = match p with Some c => Some (h, c) | None => None end.

Lemma ok_reread s hist h p next : ok s hist -> holds (rd_at s) h p -> holds next h p -> ok (set_rd s next) hist.
Proof.
  intros [H1 H2 H3 H4 H5 H6 H7 H8] [R1 R2] [N1 N2]. rewrite R2 in H3. rewrite R1 in H6.
  constructor; cbn [set_rd pending frames rd_at i_alive]; rewrite ?N1, ?N2; try done.
  - intros c x Hc Hd. rewrite <- R2. by apply (H4 c x).
  - intros Hx. exfalso. destruct next as [|? [?|]|? [?|]|? [?|]|l|]; done.
Qed.

Lemma blob_ok s hist h p dst m put forget cap next :
  ok s hist -> holds (rd_at s) h p -> holds next h p -> (dst = None \/ dst = p) ->
  (forall m x, f_done (put m x) = f_done x /\ f_txn (put m x) = f_txn x /\ f_error (put m x) = f_error x) ->
  (forall x, f_done (forget x) = f_done x /\ f_txn (forget x) = f_txn x /\ f_error (forget x) = f_error x) ->
  let '(s', a) := take_blob s p dst m put forget cap next in ok s' hist /\ Forall (clean hist) a.
Proof.
  intros Ho [R1 R2] [N1 N2] Hd Hp Hg. unfold take_blob.
  assert (forall c f a, p = Some c -> (forall x, f_done (f x) = f_done x /\ f_txn (f x) = f_txn x /\ f_error (f x) = f_error x) ->
    let '(s', a') := on_frame s c f a in ok (set_rd s' next) hist /\ a' = a) as Hon.
  { intros c f a -> Hf. destruct (ok_frame s hist c h f next Ho R2 N2 N1 Hf) as [H1 H2]. specialize (H2 a). revert H1 H2. unfold on_frame.
    destruct (frames s !! c); [by intros ? _|]. cbn [fst snd]. intros H1 H2. by split. }
  destruct dst as [c|].
  - destruct Hd as [|<-]; [done|]. destruct m as [|b m].
    + pose proof (fail_claimed_ok s hist (Some c) Ho) as Hf. destruct (reader_fail_claimed s (Some c)) as [s' a].
      destruct Hf as [H1 ->]; [|by exists h|done|by split; [|constructor]]. intros hd d [= <-] Hr. rewrite R1 in Hr. injection Hr as <-. exact R2.
    + specialize (Hon c (put (b :: m)) [AWrite c (Z.min (arr_len (b :: m)) cap)] eq_refl (Hp (b :: m))).
      destruct (on_frame _ _ _ _) as [s' a]. destruct Hon as [H1 ->]. split; [done|by repeat constructor].
  - destruct p as [c|].
    + specialize (Hon c forget [] eq_refl Hg). destruct (on_frame _ _ _ _) as [s' a]. destruct Hon as [H1 ->]. by split; [|constructor].
    + split; [|constructor]. by apply (ok_reread s hist h None).
Qed.

Lemma dst_param s p n : to_param s p n = None \/ to_param s p n = p.
Proof. unfold to_param. destruct p as [c|]; [|by left]. destruct (frames s !! c); [|by right]. case_if; auto. Qed.
Lemma dst_aux s p n : to_aux s p n = None \/ to_aux s p n = p.
Proof. unfold to_aux. destruct p as [c|]; [|by left]. destruct (frames s !! c); [|by right]. case_if; auto. Qed.

Lemma reader_blob_ok s hist m :
  ok s hist -> let '(s', a) := reader_blob s m in ok s' hist /\ Forall (clean hist) a.
Proof.
  intros Ho. unfold reader_blob. destruct (rd_at s) as [|h p|h p|h p|l|] eqn:E; try (by split; [|constructor]).
  - assert (holds (rd_at s) h p) as Hh by (rewrite E; by destruct p). case_if.
    + eapply (blob_ok s hist h p); try done; first [apply dst_param|by destruct p].
    + split; [|constructor]. by apply (ok_reread s hist h p); [..|destruct p].
  - assert (holds (rd_at s) h p) as Hh by (rewrite E; by destruct p). case_if.
    + eapply (blob_ok s hist h p); try done; first [apply dst_aux|by destruct p].
    + split; [|constructor]. by apply (ok_reread s hist h p); [..|destruct p].
  - destruct p as [c|]; [|split; [|constructor]; apply ok_move; by rewrite ?E].
    destruct (ok_let_go s hist c h (complete h) RIdle Ho) as [H1 H2]; rewrite ?E; try done; [by intros []|..].
    { intros x Hx. split; [done|]. split; [|by left]. intros _. exists h. split; [|by split].
      apply (ok_hdr _ _ Ho). by rewrite E. }
    specialize (H2 []). destruct (on_frame s c (complete h) []) as [s' a]. cbn [fst snd] in *. subst a. by split; [|constructor].
Qed.

(** ** Messages *)
Lemma claim_ok s hist h :
  ok s hist -> rd_at s = RIdle -> AHdr h ∈ hist ->
  let '(s', p) := claim s (h_txn h) in ok (set_rd s' (RParam h p)) hist.
Proof.
  intros Ho E Hh. unfold claim. destruct (find_idx _ _) as [i|] eqn:Ei.
  2: { apply ok_move; rewrite ?E; try done. by intros x [= <-]. }
  apply find_idx_Some in Ei as (c & Hc & Hm & _). rewrite Hc. destruct Ho as [H1 H2 H3 H4 H5 H6 H7 H8].
  assert (Permutation (pending s) (c :: delete i (pending s))) as Hp by by apply delete_Permutation.
  assert (NoDup (c :: delete i (pending s))) as Hn by (by rewrite <- Hp). apply NoDup_cons in Hn as [Hn1 Hn2].
  assert (forall d, d ∈ pending s <-> d = c \/ d ∈ delete i (pending s)) as Hi by (intros d; rewrite <- elem_of_cons; by rewrite <- Hp).
  destruct (H2 c) as (x & Hx & Hd); [apply Hi; by left|]. unfold matches in Hm. rewrite Hx in Hm. apply Z.eqb_eq in Hm.
  constructor; cbn [set_rd set_pend pending frames rd_at i_alive held reading past]; try done.
  - intros d Hd'. apply H2, Hi. by right.
  - intros h' d [= <- <-]. split; [done|]. by exists x.
  - intros d y Hy Hz. destruct (H4 d y Hy Hz) as [Hd'|[z Hz']]; [|by rewrite E in Hz'].
    apply Hi in Hd' as [->|Hd']; [right; by exists h|by left].
  - by intros y [= <-].
Qed.

Lemma core_slot s k sl : core (set_slot s k sl) = core s.
Proof. done. Qed.

Definition tame (a : act) : Prop := match a with AStray _ | ABack _ _ _ => False | _ => True end.
Lemma tame_clean hist a : tame a -> clean hist a.
Proof. by destruct a. Qed.

Lemma scm_tame ret fds : Forall tame (snd (scm_fd ret fds)).
Proof.
  unfold scm_fd. cbv zeta. destruct fds as [|fd l]; [constructor|].
  repeat case_if; cbn [snd]; rewrite ?Forall_app, !Forall_map; repeat split; try (by apply Forall_forall); by repeat constructor.
Qed.
Lemma signal_tame sl e fd : Forall tame (snd (reader_signal_fd sl e fd)).
Proof. unfold reader_signal_fd. cbn. case_if; by repeat constructor. Qed.

Lemma on_slot_ok s hist r k sl a :
  ok s hist -> Forall tame a -> let '(s', a') := on_slot s r k sl a in ok s' (hist ++ a') /\ Forall tame a'.
Proof.
  intros Ho Ha. split; [apply ok_more; by apply (ok_core s)|]. apply Forall_app. split; [done|by repeat constructor].
Qed.

Lemma msg_ok s hist r scm :
  ok s hist -> rd_at s = RIdle -> let '(s', a) := reader_msg s r scm in ok s' (hist ++ a) /\ Forall tame a.
Proof.
  intros Ho E. unfold reader_msg. cbv zeta. set (fds := installed scm). set (d := map AGot fds ++ _).
  assert (Forall tame d) as Hd by (unfold d; rewrite Forall_app, !Forall_map; split; by apply Forall_forall).
  destruct r; try (by apply on_slot_ok).
  - pose proof (claim_ok s (hist ++ d ++ [AHdr h]) h (ok_more _ _ _ Ho) E) as Hc. destruct (claim s (h_txn h)) as [s' p].
    split; [apply Hc; rewrite !elem_of_app; right; right; left|]. apply Forall_app. split; [done|by repeat constructor].
  - split; [by apply ok_more|]. apply Forall_app. split; [done|by repeat constructor].
  - pose proof (scm_tame ret fds). destruct (scm_fd ret fds) as [fd a]. pose proof (signal_tame (slots s KSync) ret fd).
    destruct (reader_signal_fd _ _ _) as [sl b]. apply on_slot_ok; [done|by apply Forall_app].
  - pose proof (scm_tame ret fds). destruct (scm_fd ret fds) as [fd a]. pose proof (signal_tame (slots s KPresent) ret fd).
    destruct (reader_signal_fd _ _ _) as [sl b]. apply on_slot_ok; [done|by apply Forall_app].
  - split; [by apply ok_more|done].
Qed.

(** ** The way out *)
Lemma fail_all_lookup s c x :
  frames (fail_all s) !! c = Some x <->
  exists y, frames s !! c = Some y /\ x = (if decide (c ∈ pending s) then fail y else y).
Proof.
  cbn. rewrite map_lookup_imap. destruct (frames s !! c) as [y|]; cbn; [|split; [done|by intros (? & ? & _)]].
  assert ((if decide (c ∈ list_to_set (C := gset Z) (pending s)) then fail y else y) = (if decide (c ∈ pending s) then fail y else y)) as ->.
  { repeat case_decide; try done; exfalso; set_solver. }
  split; [intros [= <-]; by exists y|intros (z & [= <-] & ->); done].
Qed.

Lemma fail_all_ok s hist l : ok s hist -> rd_at s = RExit l -> ok (fail_all s) hist.
Proof.
  intros [H1 H2 H3 H4 H5 H6 H7 H8] E.
  constructor; cbn [fail_all set_alive set_pend pending rd_at i_alive]; rewrite ?E; try done; [constructor|..].
  - intros c Hc. by apply not_elem_of_nil in Hc.
  - intros c x Hx Hd. apply fail_all_lookup in Hx as (y & Hy & ->). case_decide as Hc; [done|].
    destruct (H4 c y Hy Hd) as [|[z Hz]]; [done|]. by rewrite E in Hz.
  - intros c x Hx Hd. apply fail_all_lookup in Hx as (y & Hy & ->). case_decide as Hc; [apply fail_from|by apply (H7 c)].
  - intros c x Hx. apply fail_all_lookup in Hx as (y & Hy & ->). case_decide as Hc; [by right|by apply (H8 c)].
Qed.

Lemma exit_ok s hist x l :
  ok s hist -> rd_at s = RExit (x :: l) ->
  (x = None \/ None ∉ x :: l) ->
  let '(s', a) := reader_exit (set_rd s (RExit l)) x in ok s' (hist ++ a) /\ Forall tame a.
Proof.
  intros Ho E Hx. assert (x <> None -> None ∉ x :: l) as Hp by (intros; by destruct Hx). destruct x as [k|].
  - assert (ok (set_rd s (RExit l)) hist) as Hs.
    { destruct (ok_past _ _ Ho) as [P1 P2]; [rewrite E; by apply Hp|]. apply ok_move; rewrite ?E; try done. }
    destruct k; cbn [reader_exit]; try (by split; [apply ok_more; by apply (ok_core (set_rd s (RExit l)))|by repeat constructor]).
    pose proof (signal_tame (slots (set_rd s (RExit l)) KPresent) (- ECONNRESET) (-1)) as Ht. destruct (reader_signal_fd _ _ _) as [sl a].
    split; [apply ok_more; by apply (ok_core (set_rd s (RExit l)))|]. apply Forall_app. split; [done|by repeat constructor].
  - cbn [reader_exit]. split; [|constructor]. rewrite app_nil_r.
    assert (fail_all (set_rd s (RExit l)) = set_rd (fail_all s) (RExit l)) as -> by done.
    pose proof (fail_all_ok s hist _ Ho E) as H. destruct H as [H1 H2 H3 H4 H5 H6 H7 H8].
    constructor; try done. intros c x Hc Hd. destruct (H4 c x Hc Hd) as [|[z Hz]]; [by left|]. cbn in Hz. by rewrite E in Hz.
Qed.

(** The reader's list of things to wake is a tail of [reader_out]. *)
Definition tail_ok (r : rphase) : Prop := match r with RExit l => l `suffix_of` reader_out | _ => True end.

Lemma suffix_out x l : x :: l `suffix_of` reader_out -> (x = None \/ None ∉ x :: l) /\ l `suffix_of` reader_out.
Proof.
  intros [p Hp]. unfold reader_out in *.
  destruct p as [|a p]; [cbn in Hp; injection Hp as <- <-; split; [by left|by exists [None]]|]. injection Hp as _ Hp.
  split; [right|].
  - assert (x :: l `suffix_of` [Some KSync; Some KPresent; Some KXiso; Some KLoop]) as Hs by by exists p.
    intros Hi. assert (None ∈ [Some KSync; Some KPresent; Some KXiso; Some KLoop]); [|set_solver].
    destruct Hs as [q ->]. set_solver.
  - exists (None :: p ++ [x]). cbn. by rewrite Hp, <- app_assoc.
Qed.

(** ** The callers *)
Lemma register_ok s hist c id p ps a as_ :
  ok s hist -> frames s !! c = None ->
  let '(s', acts) := ioctl_register s c id p ps a as_ in ok s' (hist ++ acts) /\ Forall (clean hist) acts.
Proof.
  intros Ho Hc. unfold ioctl_register. case_if; [split; [by apply ok_more|repeat constructor; by left]|].
  apply orb_false_elim in E as [_ Hv]. apply negb_false_iff in Hv. unfold valid in Hv. apply andb_prop in Hv as [_ Ha].
  cbv zeta. rewrite app_nil_r. split; [|constructor]. destruct Ho as [H1 H2 H3 H4 H5 H6 H7 H8].
  assert (c ∉ pending s) as Hn by (intros Hi; destruct (H2 c Hi) as (x & Hx & _); congruence).
  constructor; cbn [set_next set_pend pending frames rd_at i_alive]; try done.
  - by constructor.
  - intros d Hd. destruct (decide (d = c)) as [->|Hne]; [rewrite lookup_insert_eq; by eexists|].
    rewrite lookup_insert_ne by done. apply H2. set_solver.
  - intros h d Hd. destruct (H3 h d Hd) as (Hi & x & Hx & Hz). assert (d <> c) by congruence.
    rewrite lookup_insert_ne by done. split; [set_solver|]. by exists x.
  - intros d x Hx Hd. apply lookup_insert_Some in Hx as [[<- _]|[Hne Hx]]; [left; set_solver|].
    destruct (H4 d x Hx Hd); [left; set_solver|by right].
  - intros Hp. destruct (H5 Hp). congruence.
  - intros d x Hx Hd. apply lookup_insert_Some in Hx as [[<- <-]|[Hne Hx]]; [done|by apply (H7 d)].
  - intros d x Hx. apply lookup_insert_Some in Hx as [[<- <-]|[Hne Hx]]; [by left|by apply (H8 d)].
Qed.

Lemma sent_ok s hist c r : ok s hist -> ok (ioctl_sent s c r) hist.
Proof.
  intros [H1 H2 H3 H4 H5 H6 H7 H8]. unfold ioctl_sent. generalize (if negb (i_sock s) || i_shut s then - EPIPE else r). intros r'.
  assert (forall d x, alter (sent r') c (frames s) !! d = Some x ->
    exists y, frames s !! d = Some y /\ f_done x = f_done y /\ f_txn x = f_txn y /\ f_error x = f_error y /\ f_retval x = f_retval y) as Hb.
  { intros d x. destruct (decide (c = d)) as [<-|Hne]; [rewrite lookup_alter_eq|rewrite lookup_alter_ne by done; intros Hx; by exists x].
    intros (y & Hy & ->)%fmap_Some. by exists y. }
  assert (forall d y, frames s !! d = Some y ->
    exists x, alter (sent r') c (frames s) !! d = Some x /\ f_done x = f_done y /\ f_txn x = f_txn y) as Hf.
  { intros d y Hy. destruct (decide (c = d)) as [<-|Hne]; [rewrite lookup_alter_eq, Hy; by eexists|rewrite lookup_alter_ne by done; by exists y]. }
  constructor; cbn [set_pend pending frames rd_at i_alive]; try done.
  - intros d Hd. destruct (H2 d Hd) as (y & Hy & Hz). destruct (Hf d y Hy) as (x & Hx & E & _). exists x. by rewrite E.
  - intros h d Hd. destruct (H3 h d Hd) as (Hi & y & Hy & Hz & Ht). split; [done|]. destruct (Hf d y Hy) as (x & Hx & E1 & E2).
    exists x. by rewrite E1, E2.
  - intros d x Hx Hd. destruct (Hb d x Hx) as (y & Hy & E & _). apply (H4 d y Hy). congruence.
  - intros d x Hx Hd. destruct (Hb d x Hx) as (y & Hy & E1 & E2 & E3 & E4). unfold from. rewrite E2, E3, E4. apply (H7 d y Hy). congruence.
  - intros d x Hx. destruct (Hb d x Hx) as (y & Hy & _ & _ & -> & _). by apply (H8 d).
Qed.

Lemma return_ok s hist c :
  ok s hist -> let '(s', a) := ioctl_return s c in ok s' (hist ++ a) /\ Forall (clean hist) a.
Proof.
  intros Ho. unfold ioctl_return. destruct (frames s !! c) as [x|] eqn:Ex; [|rewrite app_nil_r; by split; [|constructor]].
  destruct (f_sent x) as [sr|]; [|rewrite app_nil_r; by split; [|constructor]]. destruct (f_done x) eqn:Ed; [|rewrite app_nil_r; by split; [|constructor]].
  split.
  - apply ok_more. destruct Ho as [H1 H2 H3 H4 H5 H6 H7 H8]. constructor; cbn [set_pend pending frames rd_at i_alive]; try done.
    + by apply NoDup_filter.
    + intros d [Hne Hd]%list_elem_of_filter. rewrite lookup_delete_ne by done. by apply H2.
    + intros h d Hd. destruct (H3 h d Hd) as (Hi & y & Hy & Hz & Ht). split; [rewrite list_elem_of_filter; tauto|].
      exists y. split; [|done]. rewrite lookup_delete_ne; [done|]. intros ->. congruence.
    + intros d y Hy Hd. apply lookup_delete_Some in Hy as [Hne Hy]. destruct (H4 d y Hy Hd); [left|by right].
      apply list_elem_of_filter. split; [by intros ->|done].
    + intros Hp. destruct (H5 Hp) as [? ->]. done.
    + intros d y Hy Hd. apply lookup_delete_Some in Hy as [Hne Hy]. by apply (H7 d).
    + intros d y Hy. apply lookup_delete_Some in Hy as [Hne Hy]. by apply (H8 d).
  - constructor; [|constructor]. unfold clean, back_ok, ioctl_result. right. destruct (ok_err _ _ Ho c x Ex) as [H0|H0]; rewrite H0.
    + cbn [Z.eqb andb negb]. rewrite andb_true_r. case_if; [left; zb; lia|right]. by apply (ok_from _ _ Ho c x Ex Ed).
    + left. cbn. rewrite andb_false_r. done.
Qed.

(** ** Synchronous calls leave the ioctls alone *)
Definition apart (s : iso) (x : iso * list act) : Prop :=
  core (fst x) = core s /\ (i_alive s = false -> i_alive (fst x) = false) /\ Forall tame (snd x).

Lemma apart_ok s hist x : ok s hist -> apart s x -> ok (fst x) (hist ++ snd x) /\ Forall (clean (hist ++ snd x)) (snd x).
Proof.
  intros Ho (H1 & H2 & H3). split; [apply ok_more; by apply (ok_core s)|]. eapply Forall_impl; [exact H3|]. intros a. apply tame_clean.
Qed.

Ltac apart := repeat case_if; (split; [done|]; split; [done|]; by repeat constructor).

Lemma check_apart s x id c : apart s (sync_check s x id c).
Proof. unfold sync_check. cbv zeta. repeat case_if; (split; [done|]; split; [done|]; by repeat constructor). Qed.

Lemma reset_tame c sl : Forall tame (snd (reset c sl)).
Proof. destruct c; cbn; try constructor; case_if; by repeat constructor. Qed.

Lemma start_apart s x r now : apart s (sync_start s x r now).
Proof.
  assert (apart s (s, [])) as H0 by (split; [done|]; by split; [|constructor]).
  unfold sync_start. destruct (threads s !! x) as [[c| | | ]|]; try done. cbv zeta. destruct (sl_owner _); [done|].
  pose proof (reset_tame c (slots s (slot_of c))) as Ht. destruct (reset c _) as [sl lost]. cbn [snd] in Ht.
  destruct (_ <? 0); (split; [done|]; split; [done|]; apply Forall_app; split; [done|by repeat constructor]).
Qed.

Lemma fd_tame e fd w : Forall tame (snd (fd_result e fd w)).
Proof. unfold fd_result. repeat case_if; by repeat constructor. Qed.

Lemma finish_apart s x c : apart s (sync_finish s x c).
Proof.
  unfold sync_finish. cbv zeta. destruct c; try apart.
  all: match goal with |- context [fd_result ?a ?b ?c] => pose proof (fd_tame a b c) as Ht; destruct (fd_result a b c) as [r l] end.
  all: split; [done|]; split; [done|]; cbn [snd] in *; constructor; [done|]; apply Forall_app; split; [done|by repeat constructor].
Qed.

Lemma fail_apart s x c rc : apart s (sync_fail s x c rc).
Proof. unfold sync_fail. cbv zeta. destruct c; apart. Qed.

Lemma turn_apart s x now : apart s (sync_turn s x now).
Proof.
  assert (apart s (s, [])) as H0 by (split; [done|]; by split; [|constructor]).
  unfold sync_turn. destruct (threads s !! x) as [[ |c e| | ]|]; try done. destruct (slot_wait_turn _ _ _ _);
    [apply finish_apart|apply fail_apart|..]; (split; [done|]; by split; [|constructor]).
Qed.

Lemma dead_apart s x : apart s (sync_dead s x).
Proof.
  assert (apart s (s, [])) as H0 by (split; [done|]; by split; [|constructor]).
  unfold sync_dead. destruct (threads s !! x) as [[ | |c b| ]|]; try done. cbv zeta. set (s' := if b then _ else s).
  assert (core s' = core s /\ i_alive s' = i_alive s) as [C1 C2] by by destruct b.
  destruct (fail_apart s' x c (- ETIMEDOUT)) as (F1 & F2 & F3). destruct (sync_fail _ _ _ _) as [s1 a]. cbn [fst snd] in *.
  split; [cbn; congruence|]. split; [cbn; intros; apply F2; congruence|]. cbn. apply Forall_app. split; [|done]. destruct b; by repeat constructor.
Qed.

Lemma read_apart s x : apart s (sync_read s x).
Proof.
  assert (apart s (s, [])) as H0 by (split; [done|]; by split; [|constructor]).
  unfold sync_read. cbv zeta. destruct (threads s !! x) as [[ | | |c]|]; try done. destruct c; try done; (split; [done|]; by split; [|repeat constructor]).
Qed.

(** ** Runs *)
Definition inv (s : iso) (hist : list act) : Prop := ok s hist /\ tail_ok (rd_at s) /\ Forall (clean hist) hist.

Lemma inv_intro s' hist a :
  Forall (clean hist) hist -> ok s' (hist ++ a) -> tail_ok (rd_at s') -> Forall (clean (hist ++ a)) a -> inv s' (hist ++ a).
Proof.
  intros H1 H2 H3 H4. split; [done|]. split; [done|]. apply Forall_app. split; [|done].
  eapply Forall_impl; [exact H1|]. intros x. apply clean_mono.
Qed.

Lemma inv_apart s hist x : inv s hist -> apart s x -> inv (fst x) (hist ++ snd x).
Proof.
  intros (Ho & Ht & Hc) Ha. destruct (apart_ok s hist x Ho Ha) as [H1 H2]. apply inv_intro; try done.
  destruct Ha as (E & _). unfold core in E. injection E as _ _ ->. done.
Qed.

Lemma clean_more hist a l : Forall (clean hist) l -> Forall (clean (hist ++ a)) l.
Proof. intros H. eapply Forall_impl; [exact H|]. intros x. apply clean_mono. Qed.
Lemma tame_cleans hist l : Forall tame l -> Forall (clean hist) l.
Proof. intros H. eapply Forall_impl; [exact H|]. intros x. apply tame_clean. Qed.

Lemma msg_tail s r scm : rd_at s = RIdle -> tail_ok (rd_at (fst (reader_msg s r scm))).
Proof.
  intros E. unfold reader_msg. cbv zeta. destruct r; cbn; rewrite ?E; try done.
  - destruct (claim s (h_txn h)). done.
  - destruct (scm_fd ret (installed scm)) as [fd a]. cbn. by rewrite E.
  - destruct (scm_fd ret (installed scm)) as [fd a]. cbn. by rewrite E.
Qed.

Lemma on_frame_rd s c f a : rd_at (fst (on_frame s c f a)) = rd_at s.
Proof. unfold on_frame. by destruct (frames s !! c). Qed.

Lemma take_tail s p dst m put forget cap next : tail_ok next -> tail_ok (rd_at (fst (take_blob s p dst m put forget cap next))).
Proof.
  intros Hn. assert (tail_ok (RExit reader_out)) as Ho by by exists []. unfold take_blob, reader_fail_claimed.
  destruct dst as [c|], m as [|b m], p as [d|]; cbn; try done; by destruct (on_frame _ _ _ _).
Qed.

Lemma blob_tail s m : tail_ok (rd_at s) -> tail_ok (rd_at (fst (reader_blob s m))).
Proof.
  intros Ht. unfold reader_blob. destruct (rd_at s) as [|h p|h p|h p|l|] eqn:E; [by cbn; rewrite E|..].
  - destruct (0 <? h_psize h); [by apply take_tail|done].
  - destruct (0 <? h_asize h); [by apply take_tail|done].
  - destruct p; [|done]. by destruct (on_frame _ _ _ _).
  - cbn. by rewrite E.
  - cbn. by rewrite E.
Qed.

Lemma exit_tail s x : rd_at (fst (reader_exit s x)) = rd_at s.
Proof. by destruct x as [[]|]. Qed.

Lemma step_inv s hist v : inv s hist -> inv (fst (step s v)) (hist ++ snd (step s v)).
Proof.
  intros Hi. pose proof Hi as (Ho & Ht & Hc).
  assert (inv s (hist ++ [])) as H0 by by rewrite app_nil_r.
  assert (forall r, ok (set_rd s r) hist -> tail_ok r -> inv (set_rd s r) (hist ++ [])) as Hr by (intros; rewrite app_nil_r; by split).
  destruct v as [c id p ps a as_|c r|c|r scm| | |m| |x id c|x r now|x now|x|x| | | | | ]; cbn [step].
  - destruct (frames s !! c) eqn:Ec; [done|]. pose proof (register_ok s hist c id p ps a as_ Ho Ec) as H.
    assert (rd_at (fst (ioctl_register s c id p ps a as_)) = rd_at s) as E by (unfold ioctl_register; by case_if).
    destruct (ioctl_register _ _ _ _ _ _ _) as [s' acts]. destruct H. apply inv_intro; try done; [by cbn in *; rewrite E|by apply clean_more].
  - cbn. rewrite app_nil_r. split; [by apply sent_ok|by split].
  - pose proof (return_ok s hist c Ho) as H.
    assert (rd_at (fst (ioctl_return s c)) = rd_at s) as E.
    { unfold ioctl_return. destruct (frames s !! c) as [x|]; [|done]. destruct (f_sent x); [|done]. by destruct (f_done x). }
    destruct (ioctl_return s c) as [s' acts]. destruct H. apply inv_intro; try done; [by cbn in *; rewrite E|by apply clean_more].
  - destruct (rd_at s) eqn:E; try done. pose proof (msg_ok s hist r scm Ho E) as H. pose proof (msg_tail s r scm E) as Hm.
    destruct (reader_msg s r scm) as [s' acts]. destruct H. apply inv_intro; try done. by apply tame_cleans.
  - destruct (rd_at s) eqn:E; try done. case_if; [done|]. apply Hr; [|by exists []]. apply ok_move; rewrite ?E; try done. by intros ?%not_past_out.
  - destruct (rd_at s) eqn:E; try done. apply Hr; [|by exists []]. apply ok_move; rewrite ?E; try done. by intros ?%not_past_out.
  - pose proof (reader_blob_ok s hist m Ho) as H. pose proof (blob_tail s m Ht) as Hb. destruct (reader_blob s m) as [s' acts].
    destruct H. apply inv_intro; try done; [by apply ok_more|by apply clean_more].
  - destruct (rd_at s) as [| | | |[|x l]|] eqn:E; try done.
    + apply Hr; [|done]. apply ok_move; rewrite ?E; try done. intros _. apply (ok_past _ _ Ho). rewrite E. apply not_elem_of_nil.
    + apply suffix_out in Ht as [H1 H2]. pose proof (exit_ok s hist x l Ho E H1) as H. pose proof (exit_tail (set_rd s (RExit l)) x) as Ex.
      destruct (reader_exit _ _) as [s' acts]. destruct H. apply inv_intro; try done; [by cbn in *; rewrite Ex|by apply tame_cleans].
  - destruct (threads s !! x); [done|]. apply (inv_apart s hist); [done|apply check_apart].
  - apply (inv_apart s hist); [done|apply start_apart].
  - apply (inv_apart s hist); [done|apply turn_apart].
  - apply (inv_apart s hist); [done|apply dead_apart].
  - apply (inv_apart s hist); [done|apply read_apart].
  - by apply (inv_apart s hist (_, [])).
  - by apply (inv_apart s hist (_, [])).
  - by apply (inv_apart s hist (_, [])).
  - by apply (inv_apart s hist (_, [])).
  - destruct (rd_at s); try done. by apply (inv_apart s hist (_, [])).
Qed.

Lemma start_inv id left : inv (start id left) [].
Proof.
  split; [|split; [done|constructor]]. constructor; try done; [constructor|..].
  - intros c Hc. by apply not_elem_of_nil in Hc.
Qed.

Lemma iso_run_ok id left l : inv (fst (run (start id left) l)) (snd (run (start id left) l)).
Proof. apply (iso_run_inv inv l (start id left) []); [intros; by apply step_inv|apply start_inv]. Qed.

(** C17: the reader and the ioctls in flight, against any stub.  However the
    responses are ordered, repeated or cut short and however the callers, the
    waits and the killing of the isolate interleave: the reader only touches
    requests whose callers still wait, so no answer is written into a stack
    frame that is gone; a caller comes back with an error or with the result of
    a response that carried its own number; and a request that is not done is on
    the list or in the reader's hands. *)
Theorem iso_requests_safe id left l :
  let '(s, acts) := run (start id left) l in
  (forall c, AStray c ∉ acts) /\
  (forall c t r, ABack c t r ∈ acts -> back_ok acts t r) /\
  (forall c x, frames s !! c = Some x -> f_done x = false -> c ∈ pending s \/ exists h, held (rd_at s) = Some (h, c)).
Proof.
  destruct (iso_run_ok id left l) as (Ho & _ & Hc). destruct (run (start id left) l) as [s acts]. cbn [fst snd] in *.
  rewrite Forall_forall in Hc. split_and!.
  - intros c Hi. by apply Hc in Hi.
  - intros c t r Hi. by apply Hc in Hi.
  - apply (ok_live _ _ Ho).
Qed.

(** ** The end of the socket *)
Definition rank (r : rphase) : nat := match r with RParam _ _ => 3 | RAux _ _ => 2 | RFin _ _ => 1 | _ => 0 end.

Lemma take_rank s p dst m put forget cap next : (rank (rd_at (fst (take_blob s p dst m put forget cap next))) <= rank next)%nat.
Proof. unfold take_blob, reader_fail_claimed. destruct dst as [c|], m as [|b m], p as [d|]; cbn; try lia; destruct (on_frame _ _ _ _); cbn; lia. Qed.

Lemma blob_rank s m : (rank (rd_at (fst (reader_blob s m))) <= rank (rd_at s) - 1)%nat.
Proof.
  unfold reader_blob. destruct (rd_at s) as [|h p|h p|h p|l|] eqn:E; try (cbn; rewrite E; cbn; lia).
  - destruct (0 <? h_psize h); [|cbn; lia]. etrans; [apply take_rank|cbn; lia].
  - destruct (0 <? h_asize h); [|cbn; lia]. etrans; [apply take_rank|cbn; lia].
  - destruct p; [|cbn; lia]. destruct (on_frame _ _ _ _). cbn. lia.
Qed.

(** What the reader meets when the socket has ended: no more blobs, the end,
    and then its own way out. *)
Definition ending : list ev := replicate 3 (EBlob []) ++ EEof :: replicate 6 EOut.

Lemma run_blobs n : forall s, (rank (rd_at (fst (run s (replicate n (EBlob []))))) <= rank (rd_at s) - n)%nat.
Proof.
  induction n as [|n IH]; intros s; cbn [replicate run]; [cbn; lia|]. pose proof (blob_rank s []) as H.
  cbn [step]. destruct (reader_blob s []) as [s1 a1]. specialize (IH s1). destruct (run s1 _). cbn [fst] in *. lia.
Qed.

Lemma run_outs n : forall s, (exists l, rd_at s = RExit l /\ (length l < n)%nat) \/ rd_at s = RGone -> rd_at (fst (run s (replicate n EOut))) = RGone.
Proof.
  induction n as [|n IH]; intros s H; cbn [replicate run]; [destruct H as [(l & _ & H)|]; [lia|done]|].
  destruct (step s EOut) as [s1 a1] eqn:Es. specialize (IH s1). destruct (run s1 _) as [s2 a2]. cbn [fst] in *. apply IH.
  cbn [step] in Es. destruct H as [(l & E & Hl)|E]; rewrite E in Es.
  - destruct l as [|x l]; [injection Es as <- _; by right|]. left. exists l. cbn in Hl. split; [|lia].
    pose proof (exit_tail (set_rd s (RExit l)) x) as Ex. rewrite Es in Ex. exact Ex.
  - injection Es as <- _. by right.
Qed.

Lemma reader_ends s : tail_ok (rd_at s) -> rd_at (fst (run s ending)) = RGone.
Proof.
  intros Ht. unfold ending. rewrite iso_run_app. pose proof (run_blobs 3 s) as Hb.
  assert (tail_ok (rd_at (fst (run s (replicate 3 (EBlob [])))))) as Ht1.
  { clear Hb. generalize 3%nat. intros n. revert s Ht. induction n as [|n IH]; intros s Ht; [done|]. cbn [replicate run step].
    pose proof (blob_tail s [] Ht) as H. destruct (reader_blob s []) as [s1 a1]. specialize (IH s1 H). by destruct (run s1 _). }
  destruct (run s (replicate 3 (EBlob []))) as [s1 a1]. cbn [fst] in *.
  assert (rank (rd_at s1) = 0%nat) as Hr by (destruct (rd_at s); cbn in Hb; lia).
  cbn [run]. destruct (step s1 EEof) as [s2 a2] eqn:E2. pose proof (run_outs 6 s2) as Ho. destruct (run s2 (replicate 6 EOut)) as [s3 a3]. cbn [fst] in *.
  apply Ho. cbn [step] in E2. destruct (rd_at s1) as [| | | |l|] eqn:E1; try done.
  - injection E2 as <- _. left. exists reader_out. split; [done|cbn; lia].
  - injection E2 as <- _. left. exists l. split; [done|]. destruct Ht1 as [p Hp]. apply (f_equal length) in Hp. rewrite length_app in Hp. cbn in Hp. lia.
  - injection E2 as <- _. by right.
Qed.

(** C18: nobody waits for an isolate that is gone.  Whatever has happened before,
    when the socket ends the reader is through after a few steps of its own; then
    every ioctl that is done sending returns, and so does every synchronous
    command at its next turn, also one without a deadline. *)
Theorem iso_waiters_return id left l now :
  let s := fst (run (fst (run (start id left) l)) ending) in
  rd_at s = RGone /\
  (forall c x sr, frames s !! c = Some x -> f_sent x = Some sr -> exists r, snd (step s (EBack c)) = [ABack c (f_txn x) r]) /\
  (forall x c e, threads s !! x = Some (TWait c e) -> forall c' e', threads (fst (step s (ETurn x now))) !! x <> Some (TWait c' e')).
Proof.
  pose proof (iso_run_ok id left l) as Hi. set (s0 := fst (run (start id left) l)) in *. cbv zeta.
  pose proof (reader_ends s0 (proj1 (proj2 Hi))) as Hg. pose proof (iso_run_inv inv ending s0 _ ltac:(intros; by apply step_inv) Hi) as (Ho & _ & _).
  set (s := fst (run s0 ending)) in *. destruct (ok_past _ _ Ho) as [Ha Hp]; [by rewrite Hg|]. split_and!; [done|..].
  - intros c x sr Hx Hsr. cbn [step]. unfold ioctl_return. rewrite Hx, Hsr. destruct (f_done x) eqn:Ed; [by eexists|].
    destruct (ok_live _ _ Ho c x Hx Ed) as [Hc|[h Hh]]; [rewrite Hp in Hc; by apply not_elem_of_nil in Hc|by rewrite Hg in Hh].
  - intros x c e Hx c' e'. cbn [step]. unfold sync_turn. rewrite Hx, Ha. unfold slot_wait_turn. rewrite orb_true_r.
    destruct (sl_done _).
    + unfold sync_finish. cbv zeta. destruct c; repeat case_if; cbn; rewrite ?lookup_delete_eq, ?lookup_insert_eq; try done;
        destruct (fd_result _ _ _); cbn; by rewrite lookup_delete_eq.
    + unfold sync_fail. cbv zeta. destruct c; cbn; by rewrite lookup_delete_eq.
Qed.

(** ** Concrete runs *)
Definition left0 (_ : kind) : slot := Slot None false 0 (-1) (Vals 0 0 0 0 0 0 0 0 0 0 0).
Definition answer (txn ret : Z) : ev := EMsg (PIoctl (Header txn ret 0 0 4 0)) [].

(** Two ioctls; the stub answers the second twice and then the first. *)
Definition two_ioctls : list ev :=
  [EReg 100 5 [1; 2; 3; 4] true [] false; ESent 100 0; EReg 200 5 [5; 6; 7; 8] true [] false; ESent 200 0;
   answer 2 7; EBlob [9; 9]; EBlob []; EBlob []; EBack 200; answer 2 8; EBlob [0; 0]; EBlob []; EBlob [];
   answer 1 3; EBlob [1; 1]; EBlob []; EBlob []; EBack 100].

Lemma iso_requests_safe_witness :
  let acts := snd (run (start 5 left0) two_ioctls) in
  ABack 200 2 7 ∈ acts /\ ABack 100 1 3 ∈ acts /\ back_ok acts 2 7 /\ forall c, AStray c ∉ acts.
Proof.
  cbv zeta. pose proof (iso_requests_safe 5 left0 two_ioctls) as H. destruct (run (start 5 left0) two_ioctls) as [s acts] eqn:E.
  destruct H as (H1 & H2 & _). cbn [snd].
  assert (ABack 200 2 7 ∈ acts) as Ha by (injection E as _ <-; apply list_elem_of_In; vm_compute; tauto).
  split; [exact Ha|]. split; [injection E as _ <-; apply list_elem_of_In; vm_compute; tauto|]. split; [exact (H2 _ _ _ Ha)|exact H1].
Defined.

(** An ioctl and a loop in flight when the stub dies. *)
Definition cut_off : list ev := [EReg 100 5 [1; 2] true [] false; ESent 100 0; ERing; ECheck 7 5 CLoop; EStart 7 0 (TS 0 0)].

Lemma iso_waiters_return_witness :
  let s := fst (run (fst (run (start 5 left0) cut_off)) ending) in
  (exists r, snd (step s (EBack 100)) = [ABack 100 1 r]) /\
  forall c e, threads (fst (step s (ETurn 7 (TS 1 0)))) !! 7 <> Some (TWait c e).
Proof.
  destruct (iso_waiters_return 5 left0 cut_off (TS 1 0)) as (_ & H2 & H3). split.
  - exact (H2 100 (Frame 1 true (-104) 0 0 0 [1; 2] true [] false (Some 0)) 0 ltac:(by vm_compute) ltac:(by vm_compute)).
  - exact (H3 7 CLoop None ltac:(by vm_compute)).
Defined.

(** A send that fails while the socket lives: nothing went out, so nothing
    will come back, and the caller goes on waiting. *)
Lemma send_failure_waits :
  let s := fst (run (start 5 left0) [EReg 100 5 [1; 2] true [] false; ESent 100 (-105)]) in
  i_alive s = true /\ i_shut s = false /\ rd_at s = RIdle /\ step s (EBack 100) = (s, []).
Proof. by vm_compute. Qed.

End IsoPend.
