(* ===== verification/IsoSlots.v ===== *)
(** * IsoSlots: synchronous commands to an isolate

    Proves of [IsoReader] that a wait ends in time, that no descriptor the stub
    sends is closed twice, and where one can be forgotten, and that each command
    gets the answer to itself as long as the stub answers no more often than it
    was asked. *)
From S2P Require Import Prelude Bytes IsoReader IsoPend.

Module IsoSlots.
Import IsoReader.

(** ** Deadlines *)
Definition nanos (t : timespec) : Z := tv_sec t * 1000000000 + tv_nsec t.
Definition normal (t : timespec) : Prop := 0 <= tv_nsec t < 1000000000.

Lemma deadline_nanos now ms : normal now -> 0 <= ms ->
  normal (nvkvm_iso_deadline now ms) /\ nanos (nvkvm_iso_deadline now ms) = nanos now + ms * 1000000.
Proof.
  intros Hn Hm. unfold normal, nanos, nvkvm_iso_deadline in *. pose proof (Z.div_mod ms 1000 ltac:(lia)).
  pose proof (Z.mod_pos_bound ms 1000 ltac:(lia)). case_if; zb; cbn [tv_sec tv_nsec]; lia.
Qed.

Lemma passed_nanos now e : normal now -> normal e -> nvkvm_iso_deadline_passed now e = true <-> nanos e <= nanos now.
Proof.
  unfold normal, nanos, nvkvm_iso_deadline_passed. intros. rewrite orb_true_iff, andb_true_iff, Z.ltb_lt, Z.eqb_eq, Z.leb_le. lia.
Qed.

(** A turn sleeps no longer than a slice and not beyond the deadline. *)
Lemma slice_nanos now e : normal now -> normal e ->
  nanos (wait_slice now (Some e)) = Z.min (nanos e) (nanos now + NVKVM_ISO_WAIT_SLICE_MS * 1000000).
Proof.
  intros Hn He. destruct (deadline_nanos now NVKVM_ISO_WAIT_SLICE_MS Hn ltac:(done)) as [Hd E]. unfold wait_slice.
  rewrite <- E. destruct (nvkvm_iso_deadline now _) as [s n]. unfold normal, nanos in *. cbn [tv_sec tv_nsec] in *.
  destruct (Z.ltb_spec (tv_sec e) s); cbn [orb]; [lia|]. destruct (Z.eqb_spec s (tv_sec e)); cbn [andb tv_sec tv_nsec]; [|lia].
  destruct (Z.ltb_spec (tv_nsec e) n); cbn [tv_sec tv_nsec]; lia.
Qed.

(** ** Descriptors *)
Definition after1 (o : gset Z) (a : act) : gset Z :=
  match a with AGot fd => {[fd]} ∪ o | AClose fd | AHand fd | ALost fd | ALeak fd => o ∖ {[fd]} | _ => o end.
Definition after (o : gset Z) (l : list act) : gset Z := fold_left after1 l o.

Fixpoint fresh (o : gset Z) (l : list act) : Prop :=
  match l with
  | [] => True
  | a :: l => match a with AGot fd => 0 <= fd /\ fd ∉ o | _ => True end /\ fresh (after1 o a) l
  end.
Fixpoint uses (o : gset Z) (l : list act) : Prop :=
  match l with
  | [] => True
  | a :: l => match a with AClose fd | AHand fd | ALost fd | ALeak fd => fd ∈ o | _ => True end /\ uses (after1 o a) l
  end.

Lemma iafter_app l1 l2 o : after o (l1 ++ l2) = after (after o l1) l2.
Proof. apply fold_left_app. Qed.
Lemma ifresh_app l1 : forall l2 o, fresh o (l1 ++ l2) <-> fresh o l1 /\ fresh (after o l1) l2.
Proof. induction l1 as [|a l1 IH]; intros l2 o; cbn; [tauto|]. rewrite IH. tauto. Qed.
Lemma iuses_app l1 : forall l2 o, uses o (l1 ++ l2) <-> uses o l1 /\ uses (after o l1) l2.
Proof. induction l1 as [|a l1 IH]; intros l2 o; cbn; [tauto|]. rewrite IH. tauto. Qed.

Definition fd_set (fd : Z) : gset Z := if 0 <=? fd then {[fd]} else ∅.
Definition slot_fds (s : iso) : gset Z := fd_set (sl_fd (slots s KSync)) ∪ fd_set (sl_fd (slots s KPresent)).

(** The open descriptors are those in the slots, in one of them each. *)
Record owns (s : iso) (o : gset Z) : Prop := {
  ow_all : o = slot_fds s;
  ow_two : 0 <= sl_fd (slots s KSync) -> sl_fd (slots s KSync) <> sl_fd (slots s KPresent) }.

(** No descriptor is involved. *)
Definition dull (a : act) : Prop := match a with AGot _ | AClose _ | AHand _ | ALost _ | ALeak _ => False | _ => True end.
Lemma idull_after l : forall o, Forall dull l -> after o l = o /\ uses o l.
Proof.
  induction l as [|a l IH]; intros o H; [done|]. apply Forall_cons in H as [Ha H].
  assert (after1 o a = o) as E by by destruct a. unfold after in *. cbn. rewrite E. destruct (IH o H). split; [done|]. split; [by destruct a|done].
Qed.

Definition fine (s : iso) (o : gset Z) (x : iso * list act) : Prop :=
  fresh o (snd x) -> uses o (snd x) /\ owns (fst x) (after o (snd x)).

Definition fds_of (s : iso) : Z * Z := (sl_fd (slots s KSync), sl_fd (slots s KPresent)).
Lemma owns_ext s s' o : fds_of s' = fds_of s -> owns s o -> owns s' o.
Proof. intros E [H1 H2]. unfold fds_of in E. injection E as E1 E2. constructor; unfold slot_fds in *; by rewrite E1, E2. Qed.

Lemma fine_dull s o x : owns s o -> fds_of (fst x) = fds_of s -> Forall dull (snd x) -> fine s o x.
Proof. intros Ho E Hd _. destruct (idull_after (snd x) o Hd) as [-> Hu]. split; [done|]. by apply (owns_ext s). Qed.

(** The descriptor of one of the two slots, and the other. *)
Definition fd_kind (k : kind) : Prop := k = KSync \/ k = KPresent.
Definition other (k : kind) : kind := match k with KSync => KPresent | _ => KSync end.

Lemma owns_slot s o k : fd_kind k -> owns s o <->
  o = fd_set (sl_fd (slots s k)) ∪ fd_set (sl_fd (slots s (other k))) /\
  (0 <= sl_fd (slots s k) -> sl_fd (slots s k) <> sl_fd (slots s (other k))).
Proof.
  intros [->| ->]; cbn [other]; (split; [intros [H1 H2]|intros [H1 H2]; constructor]); unfold slot_fds in *.
  - done.
  - done.
  - done.
  - split; [by rewrite H1, (comm_L (∪))|]. intros H0 E. apply H2; congruence.
  - by rewrite H1, (comm_L (∪)).
  - intros H0 E. apply H2; congruence.
Qed.

Lemma owns_set s o k sl : fd_kind k ->
  o = fd_set (sl_fd sl) ∪ fd_set (sl_fd (slots s (other k))) ->
  (0 <= sl_fd sl -> sl_fd sl <> sl_fd (slots s (other k))) -> owns (set_slot s k sl) o.
Proof. intros Hk H1 H2. apply (owns_slot _ _ k Hk). destruct Hk as [->| ->]; cbn in *; done. Qed.

Lemma fd_set_in fd f : f ∈ fd_set fd <-> f = fd /\ 0 <= fd.
Proof. unfold fd_set. case_if; zb; [rewrite elem_of_singleton; intuition lia|]. split; [set_solver|]. lia. Qed.

Ltac fds_solve := apply set_eq; intros ?; rewrite ?elem_of_difference, ?elem_of_union, ?elem_of_difference, ?elem_of_union, ?elem_of_singleton, ?fd_set_in, ?elem_of_empty; naive_solver lia.

(** The slot's descriptor is taken out of it, by closing or handing it over. *)
Lemma owns_out s o k sl fd :
  fd_kind k -> owns s o -> fd = sl_fd (slots s k) -> 0 <= fd -> sl_fd sl < 0 -> fd ∈ o /\ owns (set_slot s k sl) (o ∖ {[fd]}).
Proof.
  intros Hk Ho -> H0 Hl. apply (owns_slot _ _ k Hk) in Ho as [E N]. split; [rewrite E, elem_of_union, fd_set_in; by left|].
  apply owns_set; [done| |lia]. rewrite E. specialize (N H0). fds_solve.
Qed.

Lemma owns_none s o k sl : fd_kind k -> owns s o -> sl_fd (slots s k) < 0 -> sl_fd sl < 0 -> owns (set_slot s k sl) o.
Proof.
  intros Hk Ho H0 Hl. apply (owns_slot _ _ k Hk) in Ho as [E N]. apply owns_set; [done| |lia]. rewrite E. fds_solve.
Qed.

(** Descriptors that come and go in one message. *)
Lemma got_after fds : forall o, after o (map AGot fds) = list_to_set fds ∪ o /\ uses o (map AGot fds).
Proof.
  induction fds as [|fd l IH]; intros o; [split; [apply set_eq; set_solver|done]|]. cbn. destruct (IH ({[fd]} ∪ o)) as [E U].
  split; [unfold after in E; rewrite E; apply set_eq; set_solver|done].
Qed.

Lemma got_fresh fds : forall o, fresh o (map AGot fds) -> NoDup fds /\ list_to_set fds ## o /\ Forall (fun fd => 0 <= fd) fds.
Proof.
  induction fds as [|fd l IH]; intros o; [intros _; split; [constructor|]; split; [set_solver|constructor]|].
  intros [[H0 Hn] Hf]. destruct (IH _ Hf) as (H1 & H2 & H3). split; [constructor; [set_solver|done]|]. split; [set_solver|by constructor].
Qed.

Lemma gone_after g fds : g = AClose \/ g = ALeak -> forall o, NoDup fds -> list_to_set fds ## o ->
  after (list_to_set fds ∪ o) (map g fds) = o /\ uses (list_to_set fds ∪ o) (map g fds).
Proof.
  intros Hg. induction fds as [|fd l IH]; intros o Hn Hd; [split; [apply set_eq; set_solver|done]|].
  apply NoDup_cons in Hn as [Hi Hn]. destruct (IH o Hn ltac:(set_solver)) as [E U].
  assert (({[fd]} ∪ list_to_set l ∪ o) ∖ {[fd]} = list_to_set l ∪ o) as Eo by (apply set_eq; set_solver).
  destruct Hg as [->| ->]; cbn; unfold after in *; rewrite Eo; (split; [done|]; split; [set_solver|done]).
Qed.

Lemma pass_fine g fds o : g = AClose \/ g = ALeak -> fresh o (map AGot fds) ->
  after o (map AGot fds ++ map g fds) = o /\ uses o (map AGot fds ++ map g fds).
Proof.
  intros Hg Hf. destruct (got_fresh _ _ Hf) as (H1 & H2 & _). destruct (got_after fds o) as [E U].
  destruct (gone_after g fds Hg o H1 H2) as [E' U']. by rewrite iafter_app, iuses_app, E.
Qed.

(** A message whose descriptors are all gone, before [b]. *)
Lemma fine_pass s o s' g fds b :
  g = AClose \/ g = ALeak -> fine s o (s', b) -> fine s o (s', (map AGot fds ++ map g fds) ++ b).
Proof.
  intros Hg H Hf. cbn [fst snd] in *. apply ifresh_app in Hf as [F1 F2]. pose proof F1 as F3. apply ifresh_app in F3 as [F3 _].
  destruct (pass_fine g fds o Hg F3) as [E U]. rewrite E in F2. destruct (H F2) as [U2 O2]. cbn [fst snd] in *.
  by rewrite iafter_app, iuses_app, E.
Qed.

(** Signals with a descriptor: none, or one that is new. *)
Lemma put_none s o k r fd : fd_kind k -> owns s o -> fd < 0 ->
  fine s o (set_slot s k (fst (reader_signal_fd (slots s k) r fd)), snd (reader_signal_fd (slots s k) r fd)).
Proof.
  intros Hk Ho Hf _. unfold reader_signal_fd. cbn [fst snd]. destruct (Z.leb_spec 0 (sl_fd (slots s k))) as [H0|H0]; cbn [andb].
  - rewrite (proj2 (Z.eqb_neq _ _)) by lia. cbn.
    by destruct (owns_out s o k (sl_put (slots s k) r fd (sl_val (slots s k))) _ Hk Ho eq_refl H0) as [H1 H2].
  - split; [done|]. cbn. by apply owns_none.
Qed.

Lemma put_new s o k r fd : fd_kind k -> owns s o ->
  fine s o (set_slot s k (fst (reader_signal_fd (slots s k) r fd)), AGot fd :: snd (reader_signal_fd (slots s k) r fd)).
Proof.
  intros Hk Ho Hf. pose proof (proj1 (owns_slot _ _ k Hk) Ho) as [E N]. unfold reader_signal_fd in *. cbn [fst snd] in *.
  destruct Hf as [[Hf0 Hn] _].
  assert (sl_fd (slots s k) <> fd \/ sl_fd (slots s k) < 0) as Hd.
  { destruct (Z.le_gt_cases 0 (sl_fd (slots s k))); [left|right; lia]. intros <-. apply Hn. rewrite E, elem_of_union, fd_set_in. by left. }
  assert (fd <> sl_fd (slots s (other k))) as Hd2 by (intros ->; apply Hn; rewrite E, elem_of_union, !fd_set_in; by right).
  destruct (Z.leb_spec 0 (sl_fd (slots s k))) as [H0|H0]; cbn [andb].
  - rewrite (proj2 (Z.eqb_neq _ _)) by lia. cbn. specialize (N H0).
    split; [split; [done|]; split; [|done]; rewrite E; set_unfold; rewrite fd_set_in; lia|].
    apply owns_set; [done| |done]. cbn. rewrite E. fds_solve.
  - cbn. split; [done|]. apply owns_set; [done| |done]. cbn. rewrite E. fds_solve.
Qed.

Lemma signal_fine s o k r fds :
  fd_kind k -> owns s o ->
  fine s o (let '(fd, a) := scm_fd r fds in
            let '(sl, b) := reader_signal_fd (slots s k) r fd in (set_slot s k sl, a ++ b)).
Proof.
  intros Hk Ho. pose proof (put_none s o k r (-1) Hk Ho ltac:(lia)) as Hneg. unfold scm_fd. cbv zeta.
  destruct fds as [|fd l]; [by destruct (reader_signal_fd (slots s k) r (-1))|]. case_if.
  - assert (l = []) as -> by (unfold CMSG_LEN, arr_len in E; cbn [length] in E; zb; destruct l; [done|cbn in E; lia]).
    case_if.
    + destruct (reader_signal_fd (slots s k) r (-1)). by apply (fine_pass s o _ AClose [fd]); [left|].
    + pose proof (put_new s o k r fd Hk Ho) as H. by destruct (reader_signal_fd (slots s k) r fd).
  - destruct (reader_signal_fd (slots s k) r (-1)). by apply fine_pass; [right|].
Qed.

Lemma fine_more s o s' a b : fine s o (s', a) -> Forall dull b -> fine s o (s', a ++ b).
Proof.
  intros H Hb Hf. cbn [fst snd] in *. apply ifresh_app in Hf as [Hf _]. destruct (H Hf) as [H1 H2]. cbn [fst snd] in *.
  destruct (idull_after b (after o a) Hb) as [E Hu]. rewrite iafter_app, iuses_app, E. done.
Qed.

(** Descriptors that no response of its kind may carry. *)
Lemma drop_fine s o fds s' a :
  owns s o -> fds_of s' = fds_of s -> Forall dull a ->
  fine s o (s', (map AGot fds ++ map AClose (base.filter (fun fd => 0 <= fd) fds)) ++ a).
Proof.
  intros Ho E Ha Hf. cbn [fst snd] in *. pose proof Hf as Hg. apply ifresh_app in Hg as [Hg _]. apply ifresh_app in Hg as [Hg _].
  destruct (got_fresh _ _ Hg) as (_ & _ & H0).
  assert (base.filter (fun fd => 0 <= fd) fds = fds) as Efds.
  { clear - H0. induction H0 as [|fd l H H0 IH]; [done|]. by rewrite filter_cons_True, IH. }
  rewrite Efds in *. apply (fine_pass s o s' AClose fds a); [by left| |done]. by apply fine_dull.
Qed.

Lemma msg_fine s o r scm : owns s o -> fine s o (reader_msg s r scm).
Proof.
  intros Ho. unfold reader_msg. cbv zeta. set (fds := installed scm).
  assert (forall k, fd_kind k -> forall ret, fine s o (let '(fd, a) := scm_fd ret fds in
    let '(sl, b) := reader_signal_fd (slots s k) ret fd in on_slot s r k sl (a ++ b))) as Hs.
  { intros k Hk ret. pose proof (signal_fine s o k ret fds Hk Ho) as H. destruct (scm_fd ret fds) as [fd a].
    destruct (reader_signal_fd _ _ _) as [sl b]. apply fine_more; [done|by repeat constructor]. }
  destruct r; try (apply drop_fine; [done|done|by repeat constructor]).
  - destruct (claim s (h_txn h)) as [s' p] eqn:Ec. apply drop_fine; [done| |by repeat constructor].
    unfold claim in Ec. destruct (find_idx _ _); by injection Ec as <- _.
  - apply Hs. by left.
  - apply Hs. by right.
  - rewrite <- (app_nil_r (map AGot fds ++ _)). by apply drop_fine; [..|constructor].
Qed.

Lemma exit_fine s o x : owns s o -> fine s o (reader_exit s x).
Proof.
  intros Ho. destruct x as [[]|]; try (apply fine_dull; [done|done|by repeat constructor]).
  pose proof (signal_fine s o KPresent (- ECONNRESET) [] ltac:(by right) Ho) as H. cbn [scm_fd] in H.
  cbn [reader_exit]. destruct (reader_signal_fd _ _ _) as [sl b]. cbn [app] in H. apply fine_more; [done|by repeat constructor].
Qed.

Lemma lost_fine s o k sl a :
  fd_kind k -> owns s o -> sl_fd sl < 0 -> Forall dull a ->
  fine s o (set_slot s k sl, (if 0 <=? sl_fd (slots s k) then [ALost (sl_fd (slots s k))] else []) ++ a).
Proof.
  intros Hk Ho Hl Ha. apply fine_more; [|done]. intros _. cbn [fst snd]. case_if; zb.
  - destruct (owns_out s o k sl _ Hk Ho eq_refl E Hl) as [H1 H2]. done.
  - split; [done|]. by apply owns_none.
Qed.

(** Only the slots matter. *)
Lemma fine_thr s o s' t a : fine s o (s', a) -> fine s o (set_threads s' t, a).
Proof. intros H Hf. destruct (H Hf) as [H1 H2]. split; [done|]. by apply (owns_ext s'). Qed.

Lemma start_fine s o x r now : owns s o -> fine s o (sync_start s x r now).
Proof.
  intros Ho. assert (fine s o (s, [])) as H0 by (apply fine_dull; [done|done|constructor]).
  unfold sync_start. destruct (threads s !! x) as [[c| | | ]|]; try done. cbv zeta. destruct (sl_owner _); [done|].
  assert (forall r0 sl0 a, sl_fd sl0 = sl_fd (fst (reset c (slots s (slot_of c)))) -> Forall dull a ->
    fine s o (set_threads (set_slot s (slot_of c) sl0) r0, snd (reset c (slots s (slot_of c))) ++ a)) as H.
  { intros r0 sl0 a E Ha. apply fine_thr. destruct c; cbn [reset fst snd slot_of sl_fd] in *;
      try (by apply lost_fine; [first [by left|by right]|done|lia|done]); (apply fine_dull; [done| |done]); unfold fds_of; cbn; congruence. }
  destruct (reset c _) as [sl lost]. cbn [fst snd] in H. destruct (_ <? 0); (apply H; [done|by repeat constructor]).
Qed.

Lemma fine_pre s o s' a l : Forall dull a -> fine s o (s', l) -> fine s o (s', a ++ l).
Proof.
  intros Ha H Hf. cbn [fst snd] in *. destruct (idull_after a o Ha) as [E Hu]. apply ifresh_app in Hf as [_ Hf]. rewrite E in Hf.
  destruct (H Hf) as [H1 H2]. cbn [fst snd] in *. by rewrite iafter_app, iuses_app, E.
Qed.

Lemma take_fine s o k want err a b :
  fd_kind k -> owns s o -> Forall dull a -> Forall dull b ->
  fine s o (set_slot s k (take_fd (slots s k)), a ++ snd (fd_result err (sl_fd (slots s k)) want) ++ b).
Proof.
  intros Hk Ho Ha Hb. apply fine_pre; [done|]. apply fine_more; [|done]. intros _. cbn [fst snd].
  assert (sl_fd (take_fd (slots s k)) < 0) as Hl by (cbn; lia).
  assert (sl_fd (slots s k) < 0 -> owns (set_slot s k (take_fd (slots s k))) o) as Hn by (intros; by apply owns_none).
  pose proof (owns_out s o k (take_fd (slots s k)) (sl_fd (slots s k)) Hk Ho eq_refl) as Hp.
  unfold fd_result. repeat case_if; zb; cbn; first [destruct Hp as [P1 P2]; [lia..|]; by split|split; [done|apply Hn; lia]].
Qed.

Lemma finish_fine s o x c : owns s o -> fine s o (sync_finish s x c).
Proof.
  intros Ho. unfold sync_finish. cbv zeta. destruct c as [ | | | | |want|want| | ]; cbn [slot_of];
    try (repeat case_if; (apply fine_dull; [done|done|by repeat constructor])).
  - pose proof (take_fine s o KSync want (sl_err (slots s KSync)) [ADone KSync x (slots s KSync)]
      [ARet x (fst (fd_result (sl_err (slots s KSync)) (sl_fd (slots s KSync)) want)) []] ltac:(by left) Ho) as H.
    destruct (fd_result _ _ _) as [r a]. apply fine_thr, H; by repeat constructor.
  - pose proof (take_fine s o KPresent want (sl_err (slots s KPresent)) [ADone KPresent x (slots s KPresent)]
      [ARet x (fst (fd_result (sl_err (slots s KPresent)) (sl_fd (slots s KPresent)) want)) []] ltac:(by right) Ho) as H.
    destruct (fd_result _ _ _) as [r a]. apply fine_thr, H; by repeat constructor.
Qed.

Lemma fail_fine s o x c rc : owns s o -> fine s o (sync_fail s x c rc).
Proof.
  intros Ho. unfold sync_fail. cbv zeta. destruct c; cbn [slot_of]; try (apply fine_dull; [done|done|by repeat constructor]).
  - apply (lost_fine (set_threads s (delete x (threads s))) o KSync); [by left|by apply (owns_ext s)|cbn; lia|by repeat constructor].
  - apply (lost_fine (set_threads s (delete x (threads s))) o KPresent); [by right|by apply (owns_ext s)|cbn; lia|by repeat constructor].
Qed.

Lemma step_fine s o v : owns s o -> fine s o (step s v).
Proof.
  intros Ho. assert (fine s o (s, [])) as H0 by (apply fine_dull; [done|done|constructor]).
  assert (forall s' a, fds_of s' = fds_of s -> Forall dull a -> fine s o (s', a)) as Hd by (intros; by apply fine_dull).
  destruct v as [c id p ps a as_|c r|c|r scm| | |m| |x id c|x r now|x now|x|x| | | | | ]; cbn [step].
  - destruct (frames s !! c); [done|]. unfold ioctl_register. case_if; apply Hd; by repeat constructor.
  - by apply Hd; [|constructor].
  - unfold ioctl_return. destruct (frames s !! c) as [x|]; [|done]. destruct (f_sent x); [|done]. destruct (f_done x); [|done]. by apply Hd; [|repeat constructor].
  - destruct (rd_at s); try done. by apply msg_fine.
  - destruct (rd_at s); try done. case_if; [done|]. by apply Hd; [|constructor].
  - destruct (rd_at s); try done. by apply Hd; [|constructor].
  - assert (forall s0 c f a, fds_of s0 = fds_of s -> Forall dull a -> fds_of (fst (on_frame s0 c f a)) = fds_of s /\ Forall dull (snd (on_frame s0 c f a))) as Hof.
    { intros s0 c f a E Ha. unfold on_frame. destruct (frames s0 !! c); split; try done. by repeat constructor. }
    assert (forall p dst put forget cap next, fine s o (take_blob s p dst m put forget cap next)) as Htb.
    { intros. unfold take_blob, reader_fail_claimed. destruct dst as [d|], m as [|b m'], p as [d'|]; try (by apply Hd; [|constructor]);
      match goal with |- context [on_frame ?s0 ?c ?f ?a] => destruct (Hof s0 c f a eq_refl ltac:(by repeat constructor)); destruct (on_frame s0 c f a) end;
      by apply Hd. }
    unfold reader_blob. destruct (rd_at s) as [|h p|h p|h p| | ]; try done; try (case_if; [apply Htb|by apply Hd; [|constructor]]).
    destruct p as [c|]; [|by apply Hd; [|constructor]]. destruct (Hof s c (complete h) [] eq_refl ltac:(constructor)). destruct (on_frame _ _ _ _). by apply Hd.
  - destruct (rd_at s) as [| | | |[|x l]|]; try done; [by apply Hd; [|constructor]|]. apply (exit_fine (set_rd s (RExit l))). by apply (owns_ext s).
  - destruct (threads s !! x); [done|]. unfold sync_check. cbv zeta. repeat case_if; apply Hd; by repeat constructor.
  - by apply start_fine.
  - unfold sync_turn. destruct (threads s !! x) as [[ |c e| | ]|]; try done. destruct (slot_wait_turn _ _ _ _); try done; [by apply finish_fine|by apply fail_fine|].
    by apply Hd; [|constructor].
  - unfold sync_dead. destruct (threads s !! x) as [[ | |c b| ]|]; try done. cbv zeta. set (s' := if b then _ else s).
    pose proof (fail_fine s' o x c (- ETIMEDOUT) ltac:(apply (owns_ext s); [by destruct b|done])) as H. destruct (sync_fail _ _ _ _) as [s1 a].
    intros Hf. cbn [fst snd] in *. destruct b; cbn [app] in *; [|by apply H]. destruct Hf as [_ Hf]. destruct (H Hf). done.
  - unfold sync_read. cbv zeta. destruct (threads s !! x) as [[ | | |c]|]; try done. destruct c; try done; by apply Hd; [|repeat constructor].
  - by apply Hd; [|constructor].
  - by apply Hd; [|constructor].
  - by apply Hd; [|constructor].
  - by apply Hd; [|constructor].
  - destruct (rd_at s); try done. by apply Hd; [|constructor].
Qed.

Lemma run_fine l : forall s o, owns s o -> fine s o (run s l).
Proof.
  induction l as [|v l IH]; intros s o Ho; cbn [run]; [by apply fine_dull; [..|constructor]|].
  pose proof (step_fine s o v Ho) as H1. destruct (step s v) as [s1 a1]. unfold fine in *. cbn [fst snd] in *.
  specialize (IH s1 (after o a1)). destruct (run s1 l) as [s2 a2]. cbn [fst snd] in *. intros Hf. apply ifresh_app in Hf as [F1 F2].
  destruct (H1 F1) as [U1 O1]. destruct (IH O1 F2) as [U2 O2]. rewrite iafter_app, iuses_app. done.
Qed.

(** Where a descriptor can be installed unseen. *)
Definition bears (r : resp) : Prop := match r with POpen _ | PPresent _ => True | _ => False end.
Definition leaks (v : ev) (fd : Z) : Prop :=
  exists r scm, v = EMsg r scm /\ bears r /\ (2 <= length scm)%nat /\ fd ∈ installed scm.

Definition sound (a : act) : Prop := match a with ALeak _ => False | _ => True end.
Lemma no_leak l fd : Forall sound l -> ALeak fd ∉ l.
Proof. rewrite Forall_forall. intros H Hin. by specialize (H _ Hin). Qed.

Lemma step_sound s v : match v with EMsg _ _ => True | _ => Forall sound (snd (step s v)) end.
Proof.
  assert (forall a c f s0, Forall sound a -> Forall sound (snd (on_frame s0 c f a))) as Hof
    by (intros; unfold on_frame; destruct (frames _ !! _); [done|by repeat constructor]).
  assert (forall s0 x c rc, Forall sound (snd (sync_fail s0 x c rc))) as Hsf.
  { intros. unfold sync_fail. cbv zeta. destruct c; try by repeat constructor.
    all: cbn [snd]; case_if; by repeat constructor. }
  destruct v as [c id p ps a as_|c r|c|r scm| | |m| |x id c|x r now|x now|x|x| | | | | ]; cbn [step]; try done.
  - destruct (frames s !! c); [constructor|]. unfold ioctl_register. case_if; by repeat constructor.
  - unfold ioctl_return. destruct (frames s !! c) as [x|]; [|constructor]. destruct (f_sent x); [|constructor]. destruct (f_done x); by repeat constructor.
  - destruct (rd_at s); try constructor. case_if; constructor.
  - destruct (rd_at s); constructor.
  - assert (forall p dst put forget cap next, Forall sound (snd (take_blob s p dst m put forget cap next))) as Htb.
    { intros. unfold take_blob, reader_fail_claimed. destruct dst as [d|], m as [|b m'], p as [d'|]; try constructor;
      match goal with |- context [on_frame ?s0 ?c ?f ?a] => pose proof (Hof a c f s0 ltac:(by repeat constructor)); by destruct (on_frame s0 c f a) end. }
    unfold reader_blob. destruct (rd_at s) as [|h p|h p|h p| | ]; try constructor; try (case_if; [apply Htb|constructor]).
    destruct p as [c|]; [|constructor]. pose proof (Hof [] c (complete h) s ltac:(constructor)). by destruct (on_frame _ _ _ _).
  - destruct (rd_at s) as [| | | |[|x l]|]; try constructor. destruct x as [[]|]; cbn; try by repeat constructor. case_if; by repeat constructor.
  - destruct (threads s !! x); [constructor|]. unfold sync_check. cbv zeta. repeat case_if; by repeat constructor.
  - unfold sync_start. destruct (threads s !! x) as [[c| | | ]|]; try constructor. cbv zeta. destruct (sl_owner _); [constructor|].
    assert (Forall sound (snd (reset c (slots s (slot_of c))))) as Hr by (destruct c; cbn; try constructor; case_if; by repeat constructor).
    destruct (reset c _) as [sl lost]. case_if; (apply Forall_app; split; [done|by repeat constructor]).
  - unfold sync_turn. destruct (threads s !! x) as [[ |c e| | ]|]; try constructor. destruct (slot_wait_turn _ _ _ _); try constructor; [|apply Hsf].
    unfold sync_finish, fd_result. cbv zeta. destruct c; repeat case_if; by repeat constructor.
  - unfold sync_dead. destruct (threads s !! x) as [[ | |c b| ]|]; try constructor. cbv zeta. set (s' := if b then _ else s).
    pose proof (Hsf s' x c (- ETIMEDOUT)). destruct (sync_fail _ _ _ _). destruct b; cbn; [by constructor|done].
  - unfold sync_read. cbv zeta. destruct (threads s !! x) as [[ | | |c]|]; try constructor. destruct c; by repeat constructor.
  - destruct (rd_at s); constructor.
Qed.

Lemma signal_leak ret fds sl fd :
  ALeak fd ∈ (let '(g, a) := scm_fd ret fds in a ++ snd (reader_signal_fd sl ret g)) -> (2 <= length fds)%nat /\ fd ∈ fds.
Proof.
  intros Hin. assert (forall g, ALeak fd ∉ snd (reader_signal_fd sl ret g)) as Hs
    by (intros; apply no_leak; cbn; case_if; by repeat constructor).
  assert (forall l, ALeak fd ∉ map AGot l) as Hg by (intros; apply no_leak, Forall_map, Forall_forall; done).
  unfold scm_fd in Hin. cbv zeta in Hin. destruct fds as [|f l]; [by apply Hs in Hin|]. case_if_in Hin.
  - case_if_in Hin; rewrite !elem_of_app in Hin; [|by destruct Hin as [?%Hg|?%Hs]].
    destruct Hin as [[?%Hg|Hc]|?%Hs]; try done. apply list_elem_of_singleton in Hc. done.
  - rewrite !elem_of_app in Hin. destruct Hin as [[?%Hg|Hl]|?%Hs]; try done.
    apply list_elem_of_fmap in Hl as (x & [= ->] & Hx). split; [|done].
    unfold CMSG_LEN, arr_len in E. zb. cbn [length] in *. destruct l; [done|cbn; lia].
Qed.

Lemma step_leaks s v fd : ALeak fd ∈ snd (step s v) -> leaks v fd.
Proof.
  intros Hin. pose proof (step_sound s v) as H. destruct v as [ | | |r scm| | | | | | | | | | | | | | ]; try by apply no_leak in Hin.
  clear H. cbn [step] in Hin. destruct (rd_at s); try (by inversion Hin).
  assert (forall l, ALeak fd ∉ (map AGot (installed scm) ++ map AClose l)) as Hd
    by (intros l; apply no_leak, Forall_app; split; apply Forall_map, Forall_forall; done).
  assert (forall b l, Forall sound b -> ALeak fd ∉ ((map AGot (installed scm) ++ map AClose l) ++ b)) as Hd2
    by (intros b l Hb Hx; apply elem_of_app in Hx as [Hx|Hx]; [by apply Hd in Hx|by apply no_leak in Hx]).
  assert (forall ret sl k, bears r -> ALeak fd ∈ snd (let '(f, a) := scm_fd ret (installed scm) in
     let '(x, b) := reader_signal_fd sl ret f in on_slot s r k x (a ++ b)) -> leaks (EMsg r scm) fd) as Hs.
  { intros ret sl k Hb Hx. exists r, scm. split; [done|]. split; [done|].
    pose proof (signal_leak ret (installed scm) sl fd) as Hl. destruct (scm_fd ret (installed scm)) as [f a].
    destruct (reader_signal_fd sl ret f) as [x b] eqn:Eb. cbn [on_slot snd] in *. rewrite elem_of_app in Hx.
    destruct Hx as [Hx|Hx]; [|apply list_elem_of_singleton in Hx; done]. destruct (Hl Hx) as [H1 H2]. split; [|done].
    unfold installed in H1. rewrite length_take in H1. lia. }
  unfold reader_msg in Hin. cbv zeta in Hin. destruct r; cbn [on_slot snd] in Hin;
    try (apply Hd2 in Hin; [done|by repeat constructor]).
  - destruct (claim s (h_txn h)). apply Hd2 in Hin; [done|by repeat constructor].
  - by apply (Hs ret (slots s KSync) KSync).
  - by apply (Hs ret (slots s KPresent) KPresent).
  - by apply Hd in Hin.
Qed.

Lemma run_leaks l : forall s fd, ALeak fd ∈ snd (run s l) -> exists v, v ∈ l /\ leaks v fd.
Proof.
  induction l as [|v l IH]; intros s fd; cbn [run]; [intros H; by inversion H|].
  pose proof (step_leaks s v fd) as Hs. destruct (step s v) as [s1 a1]. specialize (IH s1 fd). destruct (run s1 l) as [s2 a2].
  cbn [snd] in *. rewrite elem_of_app. intros [H|H]; [exists v; split; [left|by apply Hs]|].
  destruct (IH H) as (w & Hw & Hl). exists w. split; [by right|done].
Qed.

(** C20: descriptors from a hostile stub.  Whatever messages the stub sends,
    with however many descriptors attached, asked or not, and however commands
    time out: of the descriptors the kernel installs, each is closed once,
    handed to a caller once, waits in its slot, is overwritten in its slot by
    the next command ([ALost]), or was one of two on a response that may carry
    one ([ALeak]); nothing is closed or handed over that is not open.  Two
    descriptors on such a response are the only leak of that kind: the control
    buffer's padding admits the second and the length check then takes neither. *)
Theorem iso_fds_accounted id left l :
  fresh ∅ (snd (run (start id left) l)) ->
  let '(s, acts) := run (start id left) l in
  uses ∅ acts /\ after ∅ acts = slot_fds s /\ (forall fd, ALeak fd ∈ acts -> exists v, v ∈ l /\ leaks v fd).
Proof.
  intros Hf. assert (owns (start id left) ∅) as Ho by (constructor; [apply set_eq; set_solver|cbn; lia]).
  pose proof (run_fine l _ _ Ho Hf) as [H1 [H2 _]]. pose proof (run_leaks l (start id left)) as H3.
  by destruct (run (start id left) l).
Qed.

(** An open that is answered twice, the second time with two descriptors, and
    a third time: the last descriptor waits in the slot. *)
Definition twice : list ev :=
  [ECheck 7 5 (COpen true); EStart 7 0 (TS 0 0); EMsg (POpen 0) [30]; ETurn 7 (TS 0 1); EMsg (POpen 0) [33; 34; 35]; EMsg (POpen 0) [31];
   EMsg POk [32]].

Lemma iso_fds_accounted_witness :
  let '(s, acts) := run (start 5 IsoPend.left0) twice in
  AHand 30 ∈ acts /\ AClose 32 ∈ acts /\
  uses ∅ acts /\ after ∅ acts = slot_fds s /\ (forall fd, ALeak fd ∈ acts -> exists v, v ∈ twice /\ leaks v fd).
Proof.
  pose proof (iso_fds_accounted 5 IsoPend.left0 twice) as H. destruct (run (start 5 IsoPend.left0) twice) as [s acts] eqn:E.
  assert (fresh ∅ acts) as Hf.
  { injection E as _ <-. vm_compute. repeat (split; [first [exact I|split; [discriminate|intros X; discriminate X]]|]). exact I. }
  split; [injection E as _ <-; apply list_elem_of_In; vm_compute; tauto|].
  split; [injection E as _ <-; apply list_elem_of_In; vm_compute; tauto|]. exact (H Hf).
Defined.

(** Two descriptors on an answered open: neither is taken, neither is closed. *)
Lemma two_fds_leak :
  let acts := snd (run (start 5 IsoPend.left0)
    [ECheck 7 5 (COpen true); EStart 7 0 (TS 0 0); EMsg (POpen 0) [30; 31]; ETurn 7 (TS 0 1)]) in
  AGot 30 ∈ acts /\ AGot 31 ∈ acts /\ AClose 30 ∉ acts /\ AClose 31 ∉ acts /\ AHand 30 ∉ acts /\ AHand 31 ∉ acts /\
  ARet 7 (- EPROTO) [] ∈ acts.
Proof. cbv zeta. rewrite !list_elem_of_In. vm_compute. repeat split; try tauto; intuition discriminate. Qed.

(** A descriptor the stub sent unasked is overwritten by the next open. *)
Lemma unasked_fd_lost :
  ALost 30 ∈ snd (run (start 5 IsoPend.left0) [EMsg (POpen 0) [30]; ECheck 7 5 (COpen true); EStart 7 0 (TS 0 0)]).
Proof. apply list_elem_of_In. vm_compute. tauto. Qed.

(** The same for a presented buffer. *)
Lemma unasked_buffer_lost :
  ALost 30 ∈ snd (run (start 5 IsoPend.left0) [EMsg (PPresent 0) [30]; ECheck 7 5 (CPresent true); EStart 7 0 (TS 0 0)]).
Proof. apply list_elem_of_In. vm_compute. tauto. Qed.

(** ** Answers *)
Fixpoint sents (k : kind) (h : list act) : list (Z * bool) :=
  match h with
  | [] => []
  | ASent k' x b :: h => if same k' k then (x, b) :: sents k h else sents k h
  | _ :: h => sents k h
  end.
Fixpoint resps (k : kind) (h : list act) : list resp :=
  match h with
  | [] => []
  | AResp k' r :: h => if same k' k then r :: resps k h else resps k h
  | _ :: h => resps k h
  end.

Lemma sents_app k h1 : forall h2, sents k (h1 ++ h2) = sents k h1 ++ sents k h2.
Proof. induction h1 as [|a h1 IH]; intros h2; [done|]. destruct a; cbn; rewrite ?IH; try done. by destruct (same k0 k). Qed.
Lemma resps_app k h1 : forall h2, resps k (h1 ++ h2) = resps k h1 ++ resps k h2.
Proof. induction h1 as [|a h1 IH]; intros h2; [done|]. destruct a; cbn; rewrite ?IH; try done. by destruct (same k0 k). Qed.

(** The stub never answers more often than it was asked. *)
Definition honest (h : list act) : Prop :=
  forall k pre, pre `prefix_of` h -> (length (resps k pre) <= length (sents k pre))%nat.

Lemma honest_pre h a : honest (h ++ a) -> honest h.
Proof. intros H k pre Hp. apply H. by apply prefix_app_r. Qed.
Lemma honest_self h k : honest h -> (length (resps k h) <= length (sents k h))%nat.
Proof. intros H. by apply H. Qed.

(** What a response leaves in its slot. *)
Definition shows (r : resp) (sl : slot) : Prop :=
  let v := sl_val sl in
  match r with
  | POk => sl_err sl = 0 /\ v_mret v = 0
  | PError e => sl_err sl = s32 (u32 (- s32 e)) /\ v_mret v = 0
  | PMmap ret va => sl_err sl = 0 /\ v_mret v = ret /\ v_mva v = (if ret =? 0 then va else 0)
  | PWindow ret base size => sl_err sl = ret /\ v_wbase v = (if ret =? 0 then base else 0) /\ v_wsize v = (if ret =? 0 then size else 0)
  | PRealize ret va len tok st => sl_err sl = ret /\ v_rva v = va /\ v_rlen v = len /\ v_rtok v = tok /\ v_rst v = st
  | PRing err probe => sl_err sl = err /\ v_probe v = probe
  | PLoop err head => sl_err sl = err /\ v_head v = head
  | POpen ret | PPresent ret => sl_err sl = ret
  | PXiso ret gem => sl_err sl = ret /\ v_gem v = gem
  | _ => False
  end.

(** The last command on the slot has its answer. *)
Definition settled (h : list act) (k : kind) (sl : slot) : Prop :=
  (length (sents k h) = length (resps k h) /\ exists r, last (resps k h) = Some r /\ shows r sl) \/
  (AReset k ∈ h /\ sl_err sl = - ECONNRESET).

Definition waits (s : iso) (h : list act) (k : kind) : Prop :=
  match sl_owner (slots s k) with
  | None => i_alive s = true -> length (sents k h) = length (resps k h)
  | Some x =>
      exists b, last (sents k h) = Some (x, b) /\ (i_alive s = true -> b = true) /\
        (b = true -> if sl_done (slots s k) then settled h k (slots s k) else length (sents k h) = S (length (resps k h)))
  end.

Record inv (s : iso) (h : list act) : Prop := {
  in_wait : forall k, waits s h k;
  in_thr : forall x c, (exists e, threads s !! x = Some (TWait c e)) \/ (exists b, threads s !! x = Some (TDying c b)) ->
    sl_owner (slots s (slot_of c)) = Some x;
  in_die : forall x c b, threads s !! x = Some (TDying c b) -> i_alive s = false;
  in_reset : forall k, AReset k ∈ h -> IsoPend.past (rd_at s);
  in_past : IsoPend.past (rd_at s) -> i_alive s = false }.

(** Every answer found so far was the command's own. *)
Definition found (h : list act) : Prop :=
  forall pre k x sl post, h = pre ++ ADone k x sl :: post -> last (sents k pre) = Some (x, true) -> settled pre k sl.

(** Actions that concern no slot. *)
Definition mute (a : act) : Prop := match a with ASent _ _ _ | AResp _ _ | AReset _ | ADone _ _ _ => False | _ => True end.

Lemma mute_lists k a : Forall mute a -> sents k a = [] /\ resps k a = [].
Proof. induction 1 as [|x l Hx _ [IH1 IH2]]; [done|]. by destruct x. Qed.

Definition no_done (a : act) : Prop := match a with ADone _ _ _ => False | _ => True end.
Lemma mute_no_done a : Forall mute a -> Forall no_done a.
Proof. intros H. eapply Forall_impl; [exact H|]. by intros []. Qed.

Lemma found_more h a : found h -> Forall no_done a -> found (h ++ a).
Proof.
  intros Hf Ha pre k x sl post E. apply app_eq_inv in E as [(q & E1 & E2)|(q & E1 & E2)].
  - destruct q as [|y q]; cbn in E2.
    + exfalso. subst a. by apply Forall_cons in Ha as [Ha _].
    + injection E2 as <- _. intros Hl. by apply (Hf pre k x sl q).
  - exfalso. subst a. apply Forall_app in Ha as [_ Ha]. by apply Forall_cons in Ha as [Ha _].
Qed.

Lemma found_done h k x sl a :
  found h -> Forall no_done a -> (last (sents k h) = Some (x, true) -> settled h k sl) -> found (h ++ ADone k x sl :: a).
Proof.
  intros Hf Ha Hs pre k' x' sl' post E. apply app_eq_inv in E as [(q & E1 & E2)|(q & E1 & E2)].
  - destruct q as [|y q]; cbn in E2.
    + rewrite app_nil_r in E1. subst pre. injection E2 as <- <- <- _. done.
    + injection E2 as <- _. intros Hl. by apply (Hf pre k' x' sl' q).
  - destruct q as [|y q]; cbn in E2; [rewrite app_nil_r in E1; subst pre; injection E2 as <- <- <- _; done|].
    exfalso. injection E2 as _ E2. subst a. apply Forall_app in Ha as [_ Ha]. by apply Forall_cons in Ha as [Ha _].
Qed.

Lemma reset_mute k a : Forall mute a -> AReset k ∉ a.
Proof. intros Ha Hi. rewrite Forall_forall in Ha. by apply Ha in Hi. Qed.

(** Nothing of slot [k] happens in [a]. *)
Definition off (k : kind) (a : list act) : Prop := sents k a = [] /\ resps k a = [].

Lemma settled_off h a k sl : off k a -> settled h k sl -> settled (h ++ a) k sl.
Proof.
  intros [E1 E2]. unfold settled. rewrite sents_app, resps_app, E1, E2, !app_nil_r.
  intros [?|[Hr ?]]; [by left|right]. split; [apply elem_of_app; by left|done].
Qed.

Lemma waits_off s s' h a k :
  off k a -> slots s' k = slots s k -> (i_alive s' = true -> i_alive s = true) -> waits s h k -> waits s' (h ++ a) k.
Proof.
  intros Ha Es Hl. unfold waits. rewrite Es. pose proof Ha as [E1 E2]. rewrite sents_app, resps_app, E1, E2, !app_nil_r.
  destruct (sl_owner _); [|auto]. intros (b & H1 & H2 & H3). exists b. split; [done|]. split; [auto|]. intros Hb. specialize (H3 Hb).
  destruct (sl_done _); [by apply settled_off|done].
Qed.

Lemma same_refl k : same k k = true.
Proof. by destruct k. Qed.
Lemma same_eq k k' : same k' k = true <-> k' = k.
Proof. destruct k, k'; done. Qed.

(** What a step has to show. *)
Lemma inv_step s s' h a k :
  inv s h -> (forall k', k' <> k -> slots s' k' = slots s k' /\ off k' a) -> waits s' (h ++ a) k ->
  (i_alive s' = true -> i_alive s = true) ->
  (forall x c, (exists e, threads s' !! x = Some (TWait c e)) \/ (exists b, threads s' !! x = Some (TDying c b)) ->
     sl_owner (slots s' (slot_of c)) = Some x) ->
  (forall x c b, threads s' !! x = Some (TDying c b) -> i_alive s' = false) ->
  (IsoPend.past (rd_at s) -> IsoPend.past (rd_at s')) -> (IsoPend.past (rd_at s') -> i_alive s' = false) ->
  (forall k, AReset k ∈ a -> IsoPend.past (rd_at s')) -> inv s' (h ++ a).
Proof.
  intros [I1 I2 I3 I4 I5] Hk Hw Ha Ht Hd Hp1 Hp2 Hr. constructor; try done.
  - intros k'. destruct (same k' k) eqn:E; [by apply same_eq in E as ->|]. destruct (Hk k') as [Es Ho]; [by intros ->; rewrite same_refl in E|].
    by apply (waits_off s).
  - intros k' Hi. apply elem_of_app in Hi as [Hi|Hi]; [by apply Hp1, (I4 k')|by apply (Hr k')].
Qed.

(** Steps that leave the slots alone. *)
Lemma inv_mute s s' h a :
  inv s h -> Forall mute a -> (forall k, slots s' k = slots s k) -> (i_alive s' = true -> i_alive s = true) ->
  (forall x c, (exists e, threads s' !! x = Some (TWait c e)) \/ (exists b, threads s' !! x = Some (TDying c b)) ->
     (exists e, threads s !! x = Some (TWait c e)) \/ (exists b, threads s !! x = Some (TDying c b))) ->
  (forall x c b, threads s' !! x = Some (TDying c b) -> i_alive s' = false) ->
  (IsoPend.past (rd_at s) -> IsoPend.past (rd_at s')) -> (IsoPend.past (rd_at s') -> i_alive s' = false) -> inv s' (h ++ a).
Proof.
  intros Hi Hm Hs Ha Ht Hd Hp1 Hp2. apply (inv_step s s' h a KSync); try done.
  - intros k' _. split; [done|]. by apply mute_lists.
  - apply (waits_off s); [by apply mute_lists|done..|by apply Hi].
  - intros x c Hx. rewrite Hs. by apply (in_thr _ _ Hi), Ht.
  - intros k Hk. by apply reset_mute in Hk.
Qed.

Lemma off_mute k a : Forall mute a -> off k a.
Proof. intros. by apply mute_lists. Qed.

Lemma off_resp k k' a r : Forall mute a -> k' <> k -> off k' (a ++ [AResp k r]).
Proof.
  intros Ha Hk. destruct (mute_lists k' a Ha) as [E1 E2]. unfold off. rewrite sents_app, resps_app, E1, E2. cbn.
  destruct (same k k') eqn:E; [by apply same_eq in E as ->|done].
Qed.

Lemma off_reset k' k a : Forall mute a -> off k' (a ++ [AReset k]).
Proof. intros Ha. destruct (mute_lists k' a Ha) as [E1 E2]. unfold off. by rewrite sents_app, resps_app, E1, E2. Qed.

Lemma off_app k a b : off k a -> off k b -> off k (a ++ b).
Proof. intros [A1 A2] [B1 B2]. unfold off. by rewrite sents_app, resps_app, A1, A2, B1, B2. Qed.

(** A response: the owner of the slot was waiting for just this one. *)
Lemma inv_resp s h k sl r a :
  inv s h -> rd_at s = RIdle -> Forall mute a -> honest (h ++ a ++ [AResp k r]) ->
  sl_owner sl = sl_owner (slots s k) -> sl_done sl = true -> shows r sl -> inv (set_slot s k sl) (h ++ a ++ [AResp k r]).
Proof.
  intros Hi Er Ha Hh Ho Hd Hs. apply (inv_step s _ h _ k); try done.
  - intros k' Hk. split; [cbn; destruct (same k' k) eqn:E; [by apply same_eq in E|done]|by apply off_resp].
  - pose proof (in_wait _ _ Hi k) as Hw. pose proof (honest_self _ k Hh) as Hl. unfold waits in *. cbn [set_slot slots i_alive].
    rewrite same_refl, Ho, Hd. destruct (mute_lists k a Ha) as [E1 E2].
    rewrite !sents_app, !resps_app, E1, E2 in Hl |- *. cbn [sents resps] in *. rewrite same_refl, ?app_nil_r, ?app_nil_l, ?length_app in *. cbn [length] in *.
    destruct (sl_owner (slots s k)) as [x|]; [|intros; specialize (Hw ltac:(done)); lia].
    destruct Hw as (b & H1 & H2 & H3). exists b. split; [done|]. split; [done|]. intros Hb. specialize (H3 Hb). left.
    rewrite !sents_app, !resps_app, E1, E2. cbn [sents resps]. rewrite same_refl, ?app_nil_r, ?app_nil_l, ?length_app. cbn [length].
    split; [|exists r; by rewrite last_snoc].
    destruct (sl_done (slots s k)); [|lia]. destruct H3 as [[H3 _]|[Hr _]]; [lia|]. apply (in_reset _ _ Hi) in Hr. by rewrite Er in Hr.
  - intros x c Hx. pose proof (in_thr _ _ Hi x c Hx) as Ht. cbn. destruct (same (slot_of c) k) eqn:E; [|done]. apply same_eq in E as <-. by rewrite Ho.
  - intros x c b Hx. by apply (in_die _ _ Hi x c b).
  - cbn. rewrite Er. done.
  - intros k' Hx. apply elem_of_app in Hx as [Hx|Hx]; [by apply reset_mute in Hx|set_solver].
Qed.

(** The reader's last word. *)
Lemma inv_last s h k sl a :
  inv s h -> IsoPend.past (rd_at s) -> Forall mute a ->
  sl_owner sl = sl_owner (slots s k) -> sl_done sl = true -> sl_err sl = - ECONNRESET -> inv (set_slot s k sl) (h ++ a ++ [AReset k]).
Proof.
  intros Hi Hp Ha Ho Hd He. pose proof (in_past _ _ Hi Hp) as Hl. apply (inv_step s _ h _ k); try done.
  - intros k' Hk. split; [cbn; destruct (same k' k) eqn:E; [by apply same_eq in E|done]|by apply off_reset].
  - pose proof (in_wait _ _ Hi k) as Hw. unfold waits in *. cbn [set_slot slots i_alive]. rewrite same_refl, Ho, Hd.
    destruct (off_reset k k a Ha) as [E1 E2]. rewrite sents_app, resps_app, E1, E2, !app_nil_r.
    destruct (sl_owner (slots s k)) as [x|]; [|done]. destruct Hw as (b & H1 & H2 & H3). exists b. split; [done|]. split; [done|].
    intros _. right. split; [rewrite !elem_of_app; right; right; left|done].
  - intros x c Hx. pose proof (in_thr _ _ Hi x c Hx) as Ht. cbn. destruct (same (slot_of c) k) eqn:E; [|done]. apply same_eq in E as <-. by rewrite Ho.
Qed.

(** *** The steps *)
Definition all (s : iso) (h : list act) : Prop := honest h -> inv s h /\ found h.

Lemma slot_get s k sl k' : slots (set_slot s k sl) k' = (if same k' k then sl else slots s k').
Proof. done. Qed.

Lemma reset_facts c sl : sl_owner (fst (reset c sl)) = sl_owner sl /\ sl_done (fst (reset c sl)) = false /\ Forall mute (snd (reset c sl)).
Proof. destruct c; cbn; try case_if; (split; [done|]; split; [done|]; by repeat constructor). Qed.

Lemma start_all s h x r now : inv s h -> found h -> let '(s', a) := sync_start s x r now in inv s' (h ++ a) /\ found (h ++ a).
Proof.
  intros Hi Hf. assert (inv s (h ++ []) /\ found (h ++ [])) as H0 by by rewrite app_nil_r.
  unfold sync_start. destruct (threads s !! x) as [[c| | | ]|] eqn:Ex; try done. cbv zeta. destruct (sl_owner _) eqn:Eo; [done|].
  destruct (reset_facts c (slots s (slot_of c))) as (R1 & R2 & R3). destruct (reset c _) as [sl lost]. cbn [fst snd] in *.
  pose proof (in_wait _ _ Hi (slot_of c)) as Hw. unfold waits in Hw. rewrite Eo in Hw. rewrite Eo in R1.
  assert (forall y c', (exists e, threads s !! y = Some (TWait c' e)) \/ (exists b, threads s !! y = Some (TDying c' b)) -> same (slot_of c') (slot_of c) = false) as Hno.
  { intros y c' Hy. apply (in_thr _ _ Hi) in Hy. destruct (same _ _) eqn:E; [|done]. apply same_eq in E. congruence. }
  destruct (_ <? 0).
  - assert (Forall mute (lost ++ [ARet x (if negb (i_sock s) then - EBADF else if i_shut s then - EPIPE else r) []])) as Hm
      by (apply Forall_app; split; [done|by repeat constructor]).
    split; [|apply found_more; [done|by apply mute_no_done]]. apply (inv_step s _ h _ (slot_of c)); try done.
    + intros k' Hk. split; [|by apply off_mute]. cbn. destruct (same k' _) eqn:E; [by apply same_eq in E|done].
    + unfold waits. cbn [set_threads set_slot slots i_alive]. rewrite same_refl, R1. destruct (off_mute (slot_of c) _ Hm) as [E1 E2].
      by rewrite sents_app, resps_app, E1, E2, !app_nil_r.
    + intros y c' Hy. cbn in Hy |- *.
      assert ((exists e, threads s !! y = Some (TWait c' e)) \/ (exists b, threads s !! y = Some (TDying c' b))) as Hy'
        by (destruct Hy as [[e Hy]|[e Hy]]; apply lookup_delete_Some in Hy as [_ Hy]; eauto).
      rewrite (Hno y c' Hy'). by apply (in_thr _ _ Hi).
    + intros y c' b Hy. cbn in Hy. apply lookup_delete_Some in Hy as [_ Hy]. by apply (in_die _ _ Hi y c' b).
    + by apply (in_past _ _ Hi).
    + intros k Hk. by apply reset_mute in Hk.
  - split; [|apply found_more; [done|apply Forall_app; split; [by apply mute_no_done|by repeat constructor]]].
    apply (inv_step s _ h _ (slot_of c)); try done.
    + intros k' Hk. cbn [set_threads slots]. rewrite slot_get. destruct (same k' _) eqn:E; [by apply same_eq in E|]. split; [done|].
      apply off_app; [by apply off_mute|]. unfold off. cbn. destruct (same (slot_of c) k') eqn:E'; [by apply same_eq in E' as <-; rewrite same_refl in E|done].
    + unfold waits. cbn [set_threads set_slot slots i_alive]. rewrite same_refl. cbn [set_owner sl_owner sl_done]. rewrite R2.
      destruct (off_mute (slot_of c) _ R3) as [E1 E2]. rewrite !sents_app, !resps_app, E1, E2. cbn [sents resps]. rewrite same_refl, !app_nil_l, app_nil_r.
      exists (i_alive s). split; [by rewrite last_snoc|]. split; [done|]. intros Hl. rewrite length_app. cbn. rewrite (Hw Hl). lia.
    + intros y c' Hy. cbn in Hy |- *. destruct (decide (x = y)) as [<-|Hne].
      * rewrite lookup_insert_eq in Hy. destruct Hy as [[e Hy]|[b Hy]]; [|done]. injection Hy as <- _. by rewrite same_refl.
      * rewrite lookup_insert_ne in Hy by done. rewrite (Hno y c' Hy). by apply (in_thr _ _ Hi).
    + intros y c' b Hy. cbn in Hy. apply lookup_insert_Some in Hy as [[_ Hy]|[_ Hy]]; [done|]. by apply (in_die _ _ Hi y c' b).
    + by apply (in_past _ _ Hi).
    + intros k Hk. apply elem_of_app in Hk as [Hk|Hk]; [by apply reset_mute in Hk|set_solver].
Qed.

(** The command of [x] leaves its slot [k]. *)
Lemma leave_inv s h x c sl t a :
  inv s h -> sl_owner (slots s (slot_of c)) = Some x -> sl_owner sl = None ->
  (i_alive s = true -> length (sents (slot_of c) h) = length (resps (slot_of c) h)) ->
  (t = None \/ exists c', t = Some (TRead c')) -> (forall k, off k a) -> (forall k, AReset k ∉ a) ->
  inv (set_threads (set_slot s (slot_of c) sl) (partial_alter (fun _ => t) x (threads s))) (h ++ a).
Proof.
  intros Hi Ho Hn Hl Ht Hoff Hr.
  assert (forall y th, partial_alter (fun _ => t) x (threads s) !! y = Some th -> y <> x /\ threads s !! y = Some th \/ exists c', th = TRead c') as Hlk.
  { intros y th. destruct (decide (x = y)) as [<-|Hne]; [rewrite lookup_partial_alter_eq|rewrite lookup_partial_alter_ne by done; by left].
    destruct Ht as [->|[c' ->]]; [done|]. intros [= <-]. right. by eexists. }
  apply (inv_step s _ h _ (slot_of c)); try done.
  - intros k' Hk. split; [|done]. cbn. destruct (same k' _) eqn:E; [by apply same_eq in E|done].
  - unfold waits. cbn [set_threads set_slot slots i_alive]. rewrite same_refl, Hn. destruct (Hoff (slot_of c)) as [E1 E2].
    by rewrite sents_app, resps_app, E1, E2, !app_nil_r.
  - intros y c' Hy. cbn in Hy |- *.
    assert (y <> x /\ ((exists e, threads s !! y = Some (TWait c' e)) \/ (exists b, threads s !! y = Some (TDying c' b)))) as [Hne Hy'].
    { destruct Hy as [[e Hy]|[b Hy]]; (apply Hlk in Hy as [[? ?]|[? ?]]; [|done]); split; eauto. }
    pose proof (in_thr _ _ Hi _ _ Hy') as Ho'. destruct (same _ _) eqn:E; [|done]. apply same_eq in E. congruence.
  - intros y c' b Hy. cbn in Hy. apply Hlk in Hy as [[_ Hy]|[? ?]]; [|done]. by apply (in_die _ _ Hi y c' b).
  - by apply (in_past _ _ Hi).
  - intros k Hk. by apply Hr in Hk.
Qed.

Lemma found_acts k x sl m : Forall mute m -> (forall k', off k' (ADone k x sl :: m)) /\ (forall k', AReset k' ∉ ADone k x sl :: m).
Proof.
  intros Hm. split; intros k'.
  - destruct (mute_lists k' m Hm) as [E1 E2]. split; cbn; done.
  - intros Hi. apply elem_of_cons in Hi as [Hi|Hi]; [done|]. by apply reset_mute in Hi.
Qed.

Lemma owner_settled s h x c e :
  inv s h -> threads s !! x = Some (TWait c e) -> sl_done (slots s (slot_of c)) = true ->
  sl_owner (slots s (slot_of c)) = Some x /\
  (last (sents (slot_of c) h) = Some (x, true) -> settled h (slot_of c) (slots s (slot_of c))) /\
  (i_alive s = true -> length (sents (slot_of c) h) = length (resps (slot_of c) h)).
Proof.
  intros Hi Hx Hd. assert (sl_owner (slots s (slot_of c)) = Some x) as Ho by (apply (in_thr _ _ Hi); left; by eexists). split; [done|].
  pose proof (in_wait _ _ Hi (slot_of c)) as Hw. unfold waits in Hw. rewrite Ho, Hd in Hw. destruct Hw as (b & H1 & H2 & H3). split.
  - intros Hl. apply H3. congruence.
  - intros Hl. destruct (H3 (H2 Hl)) as [[H _]|[Hr _]]; [done|]. apply (in_reset _ _ Hi), (in_past _ _ Hi) in Hr. congruence.
Qed.

Lemma fd_mute e fd w : Forall mute (snd (fd_result e fd w)).
Proof. unfold fd_result. repeat case_if; by repeat constructor. Qed.

Lemma finish_all s h x c e :
  inv s h -> found h -> threads s !! x = Some (TWait c e) -> sl_done (slots s (slot_of c)) = true ->
  let '(s', a) := sync_finish s x c in inv s' (h ++ a) /\ found (h ++ a).
Proof.
  intros Hi Hf Hx Hd. destruct (owner_settled s h x c e Hi Hx Hd) as (Ho & Hs & Hl).
  assert (forall sl t m, sl_owner sl = None -> (t = None \/ exists c', t = Some (TRead c')) -> Forall mute m ->
    inv (set_threads (set_slot s (slot_of c) sl) (partial_alter (fun _ => t) x (threads s))) (h ++ ADone (slot_of c) x (slots s (slot_of c)) :: m) /\
    found (h ++ ADone (slot_of c) x (slots s (slot_of c)) :: m)) as H.
  { intros sl t m Hn Ht Hm. destruct (found_acts (slot_of c) x (slots s (slot_of c)) m Hm) as [A1 A2].
    split; [by apply leave_inv|apply found_done; [done|by apply mute_no_done|done]]. }
  unfold sync_finish. cbv zeta.
  destruct c as [ | | | | |want|want| | ]; try (apply (H _ None); [done|by left|repeat case_if; by repeat constructor]);
    try (case_if; [apply (H _ (Some (TRead _))); [done|right; by eexists|constructor]|apply (H _ None); [done|by left|by repeat constructor]]).
  all: match goal with |- context [fd_result ?a ?b ?c] => pose proof (fd_mute a b c) as Hm; destruct (fd_result a b c) as [r l] end; cbn [snd] in Hm.
  all: apply (H _ None); [done|by left|apply Forall_app; split; [done|by repeat constructor]].
Qed.

(** Leaving without an answer: only from an isolate that is dead. *)
Lemma fail_all_slots s h x c rc :
  inv s h -> found h -> i_alive s = false -> sl_owner (slots s (slot_of c)) = Some x ->
  let '(s', a) := sync_fail s x c rc in inv s' (h ++ a) /\ found (h ++ a).
Proof.
  intros Hi Hf Ha Ho.
  assert (forall sl m, sl_owner sl = None -> Forall mute m ->
    inv (set_threads (set_slot s (slot_of c) sl) (partial_alter (fun _ => None) x (threads s))) (h ++ m) /\ found (h ++ m)) as H.
  { intros sl m Hn Hm. split; [|apply found_more; [done|by apply mute_no_done]].
    apply leave_inv; try done; [by rewrite Ha|by left|intros k; by apply off_mute|intros k; by apply reset_mute]. }
  unfold sync_fail. cbv zeta. destruct c; apply H; try done; try (by repeat constructor); case_if; by repeat constructor.
Qed.

(** *** The reader *)
Lemma resp_all s h k sl r a :
  inv s h -> found h -> rd_at s = RIdle -> Forall mute a -> honest (h ++ snd (on_slot s r k sl a)) ->
  sl_owner sl = sl_owner (slots s k) -> sl_done sl = true -> shows r sl ->
  inv (fst (on_slot s r k sl a)) (h ++ snd (on_slot s r k sl a)) /\ found (h ++ snd (on_slot s r k sl a)).
Proof.
  intros Hi Hf Er Ha Hh Ho Hd Hs. cbn [on_slot fst snd] in *. split; [by apply inv_resp|].
  apply found_more; [done|]. apply Forall_app. split; [by apply mute_no_done|by repeat constructor].
Qed.

Lemma scm_mute ret fds : Forall mute (snd (scm_fd ret fds)).
Proof.
  unfold scm_fd. cbv zeta. destruct fds as [|fd l]; [constructor|].
  repeat case_if; cbn [snd]; rewrite ?Forall_app, !Forall_map; repeat split; try (by apply Forall_forall); by repeat constructor.
Qed.
Lemma signal_mute sl e fd : Forall mute (snd (reader_signal_fd sl e fd)).
Proof. unfold reader_signal_fd. cbn. case_if; by repeat constructor. Qed.

Lemma msg_all s h r scm :
  inv s h -> found h -> rd_at s = RIdle -> honest (h ++ snd (reader_msg s r scm)) ->
  inv (fst (reader_msg s r scm)) (h ++ snd (reader_msg s r scm)) /\ found (h ++ snd (reader_msg s r scm)).
Proof.
  intros Hi Hf Er. unfold reader_msg. cbv zeta. set (fds := installed scm). set (d := map AGot fds ++ _).
  assert (Forall mute d) as Hd by (unfold d; rewrite Forall_app, !Forall_map; split; by apply Forall_forall).
  assert (forall s' a, Forall mute a -> (forall k, slots s' k = slots s k) -> i_alive s' = i_alive s -> threads s' = threads s ->
    ~ IsoPend.past (rd_at s') -> inv s' (h ++ a) /\ found (h ++ a)) as Hm.
  { intros s' a Ha E1 E2 E3 E4. split; [|apply found_more; [done|by apply mute_no_done]].
    apply (inv_mute s); try done; [by rewrite E2|by rewrite E3|rewrite E3, E2; apply (in_die _ _ Hi)|by rewrite Er]. }
  destruct r; try (by intros Hh; apply resp_all).
  - destruct (claim s (h_txn h0)) as [s' p] eqn:Ec. intros _. cbn [fst snd].
    assert (forall k, slots s' k = slots s k) as E1 by (unfold claim in Ec; destruct (find_idx _ _); by injection Ec as <- _).
    assert (i_alive s' = i_alive s /\ threads s' = threads s) as [E2 E3] by (unfold claim in Ec; destruct (find_idx _ _); by injection Ec as <- _).
    apply Hm; try done; [apply Forall_app; split; [done|by repeat constructor]|by intros []].
  - intros _. cbn [fst snd]. apply Hm; try done; [apply Forall_app; split; [done|by repeat constructor]|rewrite Er; by intros []].
  - pose proof (scm_mute ret fds) as H1. destruct (scm_fd ret fds) as [fd a]. pose proof (signal_mute (slots s KSync) ret fd) as H2.
    intros Hh. apply resp_all; try done. by apply Forall_app.
  - pose proof (scm_mute ret fds) as H1. destruct (scm_fd ret fds) as [fd a]. pose proof (signal_mute (slots s KPresent) ret fd) as H2.
    intros Hh. apply resp_all; try done. by apply Forall_app.
  - intros _. apply Hm; try done. cbn. rewrite Er. by intros [].
Qed.

Lemma exit_all s h x l :
  inv s h -> found h -> rd_at s = RExit (x :: l) -> (x = None \/ None ∉ x :: l) -> None ∉ l ->
  let '(s', a) := reader_exit (set_rd s (RExit l)) x in inv s' (h ++ a) /\ found (h ++ a).
Proof.
  intros Hi Hf Er Hx Hl. destruct x as [k|].
  - assert (IsoPend.past (rd_at s)) as Hp by (rewrite Er; by destruct Hx).
    assert (inv (set_rd s (RExit l)) h) as Hi'.
    { rewrite <- (app_nil_r h). apply (inv_mute s); try done; [apply (in_die _ _ Hi)|]. intros _. by apply (in_past _ _ Hi). }
    assert (forall sl a, Forall mute a -> sl_owner sl = sl_owner (slots s k) -> sl_done sl = true -> sl_err sl = - ECONNRESET ->
      inv (set_slot (set_rd s (RExit l)) k sl) (h ++ a ++ [AReset k]) /\ found (h ++ a ++ [AReset k])) as H.
    { intros sl a Ha Ho Hd He. split; [by apply inv_last|]. apply found_more; [done|]. apply Forall_app. split; [by apply mute_no_done|by repeat constructor]. }
    destruct k; cbn [reader_exit]; try (apply (H _ []); [constructor|done..]).
    pose proof (signal_mute (slots (set_rd s (RExit l)) KPresent) (- ECONNRESET) (-1)) as Hs. by apply H.
  - cbn [reader_exit]. split; [|by rewrite app_nil_r]. apply (inv_mute s); try done; constructor.
Qed.

Lemma suffix_none x l : x :: l `suffix_of` reader_out -> None ∉ l.
Proof.
  intros [p Hp] Hi. unfold reader_out in Hp. assert (None ∈ [Some KSync; Some KPresent; Some KXiso; Some KLoop]); [|set_solver].
  destruct p as [|a p]; cbn in Hp; injection Hp as _ Hp; [by rewrite Hp|]. rewrite Hp. set_solver.
Qed.

Lemma on_frame_keeps s c f a :
  slots (fst (on_frame s c f a)) = slots s /\ i_alive (fst (on_frame s c f a)) = i_alive s /\ threads (fst (on_frame s c f a)) = threads s /\
  (Forall mute a -> Forall mute (snd (on_frame s c f a))).
Proof. unfold on_frame. destruct (frames s !! c); split_and!; try done. intros. by repeat constructor. Qed.

Lemma blob_keeps s m :
  slots (fst (reader_blob s m)) = slots s /\ i_alive (fst (reader_blob s m)) = i_alive s /\ threads (fst (reader_blob s m)) = threads s /\
  Forall mute (snd (reader_blob s m)).
Proof.
  assert (forall p dst put forget cap next, let x := take_blob s p dst m put forget cap next in
    slots (fst x) = slots s /\ i_alive (fst x) = i_alive s /\ threads (fst x) = threads s /\ Forall mute (snd x)) as Ht.
  { intros. unfold x, take_blob, reader_fail_claimed. destruct dst as [d|], m as [|b m'], p as [d'|]; try (by split_and!; [..|constructor]);
      match goal with |- context [on_frame ?s0 ?c ?f ?a] =>
        destruct (on_frame_keeps s0 c f a) as (H1 & H2 & H3 & H4); specialize (H4 ltac:(by repeat constructor)); destruct (on_frame s0 c f a) end; done. }
  unfold reader_blob. destruct (rd_at s) as [|h p|h p|h p| | ]; try (by split_and!; [..|constructor]);
    try (case_if; [apply Ht|by split_and!; [..|constructor]]).
  destruct p as [c|]; [|by split_and!; [..|constructor]]. destruct (on_frame_keeps s c (complete h) []) as (H1 & H2 & H3 & H4).
  specialize (H4 ltac:(constructor)). by destruct (on_frame _ _ _ _).
Qed.

Lemma take_past s p dst m put forget cap next :
  ~ IsoPend.past next -> ~ IsoPend.past (rd_at (fst (take_blob s p dst m put forget cap next))).
Proof.
  intros Hn. pose proof IsoPend.not_past_out as Ho. unfold take_blob, reader_fail_claimed.
  destruct dst as [c|], m as [|b m], p as [d|]; cbn [fst set_rd rd_at]; try done; by destruct (on_frame _ _ _ _).
Qed.

Lemma blob_past s m : IsoPend.past (rd_at (fst (reader_blob s m))) -> IsoPend.past (rd_at s).
Proof.
  unfold reader_blob. destruct (rd_at s) as [|h p|h p|h p|l|] eqn:E; try (by cbn [fst]; rewrite E).
  - destruct (0 <? h_psize h); [|by intros []]. intros H. exfalso. revert H. apply take_past. by intros [].
  - destruct (0 <? h_asize h); [|by intros []]. intros H. exfalso. revert H. apply take_past. by intros [].
  - destruct p; [|by intros []]. destruct (on_frame _ _ _ _). by intros [].
Qed.

Lemma check_thr s x id c :
  let '(s', a) := sync_check s x id c in
  slots s' = slots s /\ i_alive s' = i_alive s /\ rd_at s' = rd_at s /\ Forall mute a /\
  (threads s' = threads s \/ threads s' = <[x := TChecked c]> (threads s)).
Proof. unfold sync_check. cbv zeta. repeat case_if; split_and!; try done; try (by repeat constructor); first [by left|by right]. Qed.

Lemma read_thr s x :
  let '(s', a) := sync_read s x in
  slots s' = slots s /\ i_alive s' = i_alive s /\ rd_at s' = rd_at s /\ Forall mute a /\
  (threads s' = threads s \/ threads s' = delete x (threads s)).
Proof.
  unfold sync_read. cbv zeta. destruct (threads s !! x) as [[ | | |c]|]; [..|destruct c|];
    (split_and!; try done; try (by repeat constructor); first [by left|by right]).
Qed.

Lemma turn_all s h x now :
  inv s h -> found h -> (i_inuse s = false -> i_alive s = false) ->
  let '(s', a) := sync_turn s x now in inv s' (h ++ a) /\ found (h ++ a).
Proof.
  intros Hi Hf Hu. assert (inv s (h ++ []) /\ found (h ++ [])) as H0 by by rewrite app_nil_r.
  unfold sync_turn. destruct (threads s !! x) as [[ |c e| | ]|] eqn:Ex; try done. unfold slot_wait_turn.
  destruct (sl_done _) eqn:Ed; [by apply (finish_all s h x c e)|].
  assert (sl_owner (slots s (slot_of c)) = Some x) as Ho by (apply (in_thr _ _ Hi); left; by eexists).
  destruct (negb (i_inuse s) || negb (i_alive s)) eqn:Eg.
  - apply fail_all_slots; try done. by destruct (i_inuse s), (i_alive s); auto.
  - destruct e as [e|]; [|done]. case_if; [|done]. split; [|by rewrite app_nil_r].
    apply (inv_mute s); try done. intros y c' Hy. cbn in Hy.
    destruct Hy as [[e' Hy]|[b Hy]]; apply lookup_insert_Some in Hy as [[<- Hy]|[_ Hy]]; try done; [by left; exists e'| |by right; exists b].
    injection Hy as <- _. left. by exists (Some e).
Qed.

Lemma dead_all s h x : inv s h -> found h -> let '(s', a) := sync_dead s x in inv s' (h ++ a) /\ found (h ++ a).
Proof.
  intros Hi Hf. assert (inv s (h ++ []) /\ found (h ++ [])) as H0 by by rewrite app_nil_r.
  unfold sync_dead. destruct (threads s !! x) as [[ | |c b| ]|] eqn:Ex; try done. cbv zeta. set (s' := if b then _ else s).
  set (m := if b then [AShutdown] else []). assert (Forall mute m) as Hm by (destruct b; by repeat constructor).
  assert (i_alive s' = false) as Ha by (unfold s'; destruct b; by apply (in_die _ _ Hi x c _ Ex)).
  assert (inv s' (h ++ m)) as Hi'.
  { unfold s' in *. apply (inv_mute s); by destruct b. }
  pose proof (fail_all_slots s' (h ++ m) x c (- ETIMEDOUT) Hi') as H. destruct (sync_fail s' x c (- ETIMEDOUT)) as [s1 a]. rewrite app_assoc. apply H; [|done|].
  - apply found_more; [done|by apply mute_no_done].
  - unfold s'. destruct b; (apply (in_thr _ _ Hi); right; by eexists).
Qed.

(** The place is free only when the reader is gone. *)
Definition used (s : iso) : Prop := i_inuse s = false -> rd_at s = RGone.
Definition stays (s : iso) (x : iso * list act) : Prop := i_inuse (fst x) = i_inuse s /\ rd_at (fst x) = rd_at s.

Lemma fail_stays s x c rc : stays s (sync_fail s x c rc).
Proof. unfold sync_fail. cbv zeta. by destruct c. Qed.
Lemma finish_stays s x c : stays s (sync_finish s x c).
Proof. unfold sync_finish. cbv zeta. destruct c; repeat case_if; try done; by destruct (fd_result _ _ _). Qed.

Lemma sync_stays s x :
  (forall id c, stays s (sync_check s x id c)) /\ (forall r now, stays s (sync_start s x r now)) /\
  (forall now, stays s (sync_turn s x now)) /\ stays s (sync_dead s x) /\ stays s (sync_read s x).
Proof.
  split_and!.
  - intros id c. unfold sync_check. cbv zeta. by repeat case_if.
  - intros r now. unfold sync_start. destruct (threads s !! x) as [[c| | | ]|]; try done. cbv zeta. destruct (sl_owner _); [done|].
    destruct (reset c _). by destruct (_ <? 0).
  - intros now. unfold sync_turn. destruct (threads s !! x) as [[ |c e| | ]|]; try done.
    destruct (slot_wait_turn _ _ _ _); try done; [apply finish_stays|apply fail_stays].
  - unfold sync_dead. destruct (threads s !! x) as [[ | |c b| ]|]; try done. cbv zeta. set (s' := if b then _ else s).
    destruct (fail_stays s' x c (- ETIMEDOUT)) as [E1 E2]. destruct (sync_fail _ _ _ _). split; cbn [fst] in *; rewrite ?E1, ?E2; by destruct b.
  - unfold sync_read. cbv zeta. destruct (threads s !! x) as [[ | | |c]|]; try done. by destruct c.
Qed.

Lemma on_frame_inuse s c f a : i_inuse (fst (on_frame s c f a)) = i_inuse s.
Proof. unfold on_frame. by destruct (frames s !! c). Qed.

Lemma blob_inuse s m : i_inuse (fst (reader_blob s m)) = i_inuse s.
Proof.
  assert (forall p dst put forget cap next, i_inuse (fst (take_blob s p dst m put forget cap next)) = i_inuse s) as Ht.
  { intros. unfold take_blob, reader_fail_claimed. destruct dst as [d|], m as [|b m'], p as [d'|]; try done;
      match goal with |- context [on_frame ?s0 ?c ?f ?a] => pose proof (on_frame_inuse s0 c f a); by destruct (on_frame s0 c f a) end. }
  unfold reader_blob. destruct (rd_at s) as [|h p|h p|h p| | ]; try done; try (by case_if; [apply Ht|]).
  destruct p as [c|]; [|done]. pose proof (on_frame_inuse s c (complete h) []). by destruct (on_frame _ _ _ _).
Qed.

Lemma msg_inuse s r scm : i_inuse (fst (reader_msg s r scm)) = i_inuse s.
Proof.
  unfold reader_msg. cbv zeta. destruct r; try done.
  - unfold claim. by destruct (find_idx _ _).
  - by destruct (scm_fd ret (installed scm)).
  - by destruct (scm_fd ret (installed scm)).
Qed.

Lemma step_used s v : used s -> used (fst (step s v)).
Proof.
  intros Hu. assert (forall x, stays s x -> used (fst x)) as Hs by (intros x [E1 E2]; unfold used; by rewrite E1, E2).
  assert (forall x, rd_at s <> RGone -> i_inuse (fst x) = i_inuse s -> used (fst (x : iso * list act))) as Hn
    by (intros x Hr E He; rewrite E in He; by apply Hu in He).
  destruct v as [c id p ps a as_|c r|c|r scm| | |m| |x id c|x r now|x now|x|x| | | | | ]; cbn [step].
  - destruct (frames s !! c); [done|]. unfold ioctl_register. apply Hs. by case_if.
  - by apply (Hs (_, [])).
  - apply Hs. unfold ioctl_return. destruct (frames s !! c) as [x|]; [|done]. destruct (f_sent x); [|done]. by destruct (f_done x).
  - destruct (rd_at s) eqn:E; try (by apply (Hs (s, []))). apply Hn; [done|apply msg_inuse].
  - destruct (rd_at s) eqn:E; try (by apply (Hs (s, []))). case_if; [by apply (Hs (s, []))|by apply Hn].
  - destruct (rd_at s) eqn:E; try (by apply (Hs (s, []))). by apply Hn.
  - destruct (rd_at s) eqn:E; try (apply Hn; [done|apply blob_inuse]). unfold reader_blob. by rewrite E.
  - destruct (rd_at s) as [| | | |[|y l]|] eqn:E; try (by apply (Hs (s, []))); [by intros _|]. apply Hn; [done|]. by destruct y as [[]|].
  - destruct (threads s !! x); [done|]. apply Hs, sync_stays.
  - apply Hs, sync_stays.
  - apply Hs, sync_stays.
  - apply Hs, sync_stays.
  - apply Hs, sync_stays.
  - by apply (Hs (_, [])).
  - by apply (Hs (_, [])).
  - by apply (Hs (_, [])).
  - by apply (Hs (_, [])).
  - destruct (rd_at s) eqn:E; try (by apply (Hs (s, []))). by intros _.
Qed.

Lemma step_all s h v :
  IsoPend.inv s h -> used s -> all s h -> all (fst (step s v)) (h ++ snd (step s v)).
Proof.
  intros Hpend Hu Ha Hh. pose proof (Ha (honest_pre _ _ Hh)) as [Hi Hf].
  assert (inv s (h ++ []) /\ found (h ++ [])) as H0 by by rewrite app_nil_r.
  assert (forall s' a, Forall mute a -> slots s' = slots s -> (i_alive s' = true -> i_alive s = true) -> threads s' = threads s ->
    (IsoPend.past (rd_at s) -> IsoPend.past (rd_at s')) -> (IsoPend.past (rd_at s') -> i_alive s' = false) -> inv s' (h ++ a) /\ found (h ++ a)) as Hm.
  { intros s' a Hma E1 E2 E3 E4 E5. split; [|apply found_more; [done|by apply mute_no_done]].
    apply (inv_mute s); try done; [by rewrite E1|by rewrite E3|]. intros x c b Hx. rewrite E3 in Hx. pose proof (in_die _ _ Hi _ _ _ Hx).
    destruct (i_alive s'); [|done]. by rewrite E2 in H. }
  pose proof (in_past _ _ Hi) as Hp.
  destruct v as [c id p ps a as_|c r|c|r scm| | |m| |x id c|x r now|x now|x|x| | | | | ]; cbn [step] in Hh |- *.
  - destruct (frames s !! c); [done|]. unfold ioctl_register. case_if; by apply Hm; [repeat constructor|..].
  - by apply Hm; [constructor|..].
  - unfold ioctl_return. destruct (frames s !! c) as [x|]; [|done]. destruct (f_sent x); [|done]. destruct (f_done x); [|done]. by apply Hm; [repeat constructor|..].
  - destruct (rd_at s) eqn:E; try done. by apply msg_all.
  - destruct (rd_at s) eqn:E; try done. case_if; [done|]. apply Hm; try done. by intros ?%IsoPend.not_past_out.
  - destruct (rd_at s) eqn:E; try done. apply Hm; try done. by intros ?%IsoPend.not_past_out.
  - destruct (blob_keeps s m) as (E1 & E2 & E3 & E4).
    assert (IsoPend.past (rd_at s) -> reader_blob s m = (s, [])) as Ep by (unfold reader_blob; by destruct (rd_at s)).
    pose proof (blob_past s m) as Eq.
    apply Hm; try done; [by rewrite E2|intros Hx; by rewrite (Ep Hx)|intros Hx; rewrite E2; by apply Hp, Eq].
  - destruct (rd_at s) as [| | | |[|x l]|] eqn:E; try done.
    + apply Hm; try done. intros _. apply Hp. cbn. apply not_elem_of_nil.
    + destruct Hpend as (_ & Ht & _). rewrite E in Ht. pose proof (exit_all s h x l Hi Hf E (proj1 (IsoPend.suffix_out x l Ht)) (suffix_none x l Ht)) as H.
      by destruct (reader_exit _ _).
  - destruct (threads s !! x) eqn:Ex; [done|]. pose proof (check_thr s x id c) as H. destruct (sync_check s x id c) as [s' a].
    destruct H as (E1 & E2 & E3 & E4 & E5). cbn [fst snd]. split; [|apply found_more; [done|by apply mute_no_done]].
    apply (inv_mute s); try done; [by rewrite E1|by rewrite E2|..]; rewrite ?E2, ?E3; try done.
    + intros y c' Hy. destruct E5 as [E5|E5]; rewrite E5 in Hy; [done|].
      destruct Hy as [[e Hy]|[b Hy]]; (apply lookup_insert_Some in Hy as [[_ Hy]|[_ Hy]]; [done|eauto]).
    + intros y c' b Hy. apply (in_die _ _ Hi y c' b). destruct E5 as [E5|E5]; rewrite E5 in Hy; [done|].
      by apply lookup_insert_Some in Hy as [[_ Hy]|[_ Hy]].
  - pose proof (start_all s h x r now Hi Hf) as H. by destruct (sync_start s x r now).
  - pose proof (turn_all s h x now Hi Hf ltac:(intros E; apply Hp; by rewrite (Hu E))) as H. by destruct (sync_turn s x now).
  - pose proof (dead_all s h x Hi Hf) as H. by destruct (sync_dead s x).
  - pose proof (read_thr s x) as H. destruct (sync_read s x) as [s' a]. destruct H as (E1 & E2 & E3 & E4 & E5). cbn [fst snd].
    split; [|apply found_more; [done|by apply mute_no_done]].
    apply (inv_mute s); try done; [by rewrite E1|by rewrite E2|..]; rewrite ?E2, ?E3; try done.
    + intros y c' Hy. destruct E5 as [E5|E5]; rewrite E5 in Hy; [done|].
      destruct Hy as [[e Hy]|[b Hy]]; apply lookup_delete_Some in Hy as [_ Hy]; eauto.
    + intros y c' b Hy. apply (in_die _ _ Hi y c' b). destruct E5 as [E5|E5]; rewrite E5 in Hy; [done|].
      by apply lookup_delete_Some in Hy as [_ Hy].
  - by apply Hm; [constructor|..].
  - by apply Hm; [constructor|..].
  - by apply Hm; [constructor|..].
  - by apply Hm; [constructor|..].
  - destruct (rd_at s) eqn:E; try done. by apply Hm; [constructor|..]; cbn; rewrite ?E.
Qed.

(** C19: each synchronous command gets its own answer.  The answers carry no
    number, and the callers run in several threads; still, when the stub answers
    no more often than it was asked, a command sent while the isolate was alive
    ends, on its slot, with as many answers received as commands sent, and finds
    in the slot just what the last of them said: the n-th command has the n-th
    answer.  Otherwise the reader is gone and the command has -ECONNRESET. *)
Theorem sync_answers_matched id left l :
  honest (snd (run (start id left) l)) -> found (snd (run (start id left) l)).
Proof.
  intros Hh. assert (all (start id left) []) as H0.
  { intros _. split; [|intros pre k x sl post E; by destruct pre]. constructor; try done.
    - intros x c [[e H]|[b H]]; done.
    - intros k Hk. by apply not_elem_of_nil in Hk. }
  pose proof (iso_run_inv (fun s h => IsoPend.inv s h /\ used s /\ all s h) l (start id left) []) as H.
  destruct H as (_ & _ & H).
  - intros s h v (H1 & H2 & H3). split; [by apply IsoPend.step_inv|]. split; [by apply step_used|by apply step_all].
  - split; [apply IsoPend.start_inv|]. by split.
  - by apply H.
Qed.


(** Honesty of a concrete history, by computation. *)
Definition honestb (h : list act) : bool :=
  forallb (fun k => forallb (fun n => Nat.leb (length (resps k (take n h))) (length (sents k (take n h)))) (List.seq 0 (S (length h))))
    [KSync; KPresent; KXiso; KLoop].

Lemma honestb_ok h : honestb h = true -> honest h.
Proof.
  unfold honestb. rewrite forallb_forall. intros H k pre [q ->].
  assert (In k [KSync; KPresent; KXiso; KLoop]) as Hk by (destruct k; cbn; tauto). specialize (H k Hk). rewrite forallb_forall in H.
  specialize (H (length pre)). rewrite take_app_length in H. apply Nat.leb_le, H, in_seq. rewrite length_app. lia.
Qed.

(** A mapping and an opening at once: the second waits for the first, and each
    has its own answer. *)
Definition in_turn : list ev :=
  [ECheck 7 5 CMmap; ECheck 8 5 (COpen true); EStart 7 0 (TS 0 0); EStart 8 0 (TS 0 0); EMsg (PMmap 0 4096) []; ETurn 7 (TS 0 1);
   EStart 8 0 (TS 0 2); EMsg (POpen 0) [30]; ETurn 8 (TS 0 3)].

Lemma sync_answers_matched_witness :
  ARet 7 0 [4096] ∈ snd (run (start 5 IsoPend.left0) in_turn) /\ AHand 30 ∈ snd (run (start 5 IsoPend.left0) in_turn) /\
  found (snd (run (start 5 IsoPend.left0) in_turn)).
Proof.
  split; [apply list_elem_of_In; vm_compute; tauto|]. split; [apply list_elem_of_In; vm_compute; tauto|].
  apply (sync_answers_matched 5 IsoPend.left0 in_turn). apply honestb_ok. vm_compute. reflexivity.
Defined.

End IsoSlots.
