(* ===== verification/Wire.v ===== *)
(** * Wire: the messages between QEMU and the isolate stub

    The structures of [src/common/nvkvm_isolate_proto.h] as both sides use them:
    the commands QEMU builds in [src/qemu/nvkvm_isolate.c] against the fields the
    stub's handlers read out of its command union, and the responses the stub
    builds in [src/stub/nvkvm_stub.c] against the fields QEMU's reader thread
    takes.  On top, an ioctl from QEMU's caller through both processes and back,
    over the models of [StubReader] and [IsoReader]. *)
From S2P Require Import Prelude Bytes Abi Ring StubJob StubRing StubTable StubReader StubFds IsoReader.

Module Wire.
Import StubJob StubTable StubReader.

(** ** Structures: width and value of each field *)
Definition pack (fs : list (nat * Z)) : list Z := concat ((fun f => le_bytes (fst f) (snd f)) <$> fs).
Definition w4 (l : list Z) : list (nat * Z) := pair 4%nat <$> l.
Definition w8 (l : list Z) : list (nat * Z) := pair 8%nat <$> l.

(** The field of width [n] at offset [off]. *)
Fixpoint field (n : nat) (off : Z) (fs : list (nat * Z)) : option Z :=
  match fs with
  | [] => None
  | (w, v) :: fs =>
      if off =? 0 then if Nat.eqb w n then Some v else None
      else if off <? Z.of_nat w then None else field n (off - Z.of_nat w) fs
  end.

Definition fits (f : nat * Z) : Prop := 0 <= snd f < 256 ^ Z.of_nat (fst f).

(** ** Commands *)

(** What a caller of [nvkvm_isolate_*] asks for. *)
Inductive call :=
| CReceive (handle dev fd : Z) | CClose (handle : Z)
| CIoctl (handle cmd flags txn abi : Z) (p a : list Z)
| CMmap (handle va len off prot flags : Z) | CMunmap (va len : Z)
| CPoll (handle events : Z) | CUnpoll (handle : Z)
| COpen (handle dev flags txn : Z)
| CRealize (mode prot flags len hint off : Z) (state intent : list Z)
| CInterrupt (target : Z) | CRing (fd : Z) | CLoop (idle : Z)
| CPresent (handle gem txn : Z) | CXiso (handle txn fd : Z) | CWindow.

Definition NVKVM_RING_DEFAULT_BYTES : Z := 64 * 1024.
Definition ring_region : Z := page_up (Ring.nvkvm_ring_region_size NVKVM_RING_DEFAULT_BYTES).

(** The structure each function fills. *)
Definition cmd_receive_fd (handle dev : Z) := w4 [1; handle; dev; 0].
Definition cmd_close_fd (handle : Z) := w4 [2; handle].
Definition cmd_ioctl (handle cmd psize asize flags txn abi : Z) := w4 [3; handle; cmd; psize; asize; flags; txn; abi].
Definition cmd_mmap (handle va len off prot flags : Z) := w4 [4; handle] ++ w8 [va; len; off] ++ w4 [prot; flags].
Definition cmd_munmap (va len : Z) := w4 [5; 0] ++ w8 [va; len].
Definition cmd_poll (handle events : Z) := w4 [6; handle; events; 0].
Definition cmd_unpoll (handle : Z) := w4 [7; handle].
Definition cmd_open_device (handle dev flags txn : Z) := w4 [9; handle; dev; flags; txn; 0].
Definition cmd_realize (mode ssize isize prot flags len hint off : Z) :=
  w4 [10; 0; mode; ssize; isize; prot; flags; 0] ++ w8 [len; hint; off].
Definition cmd_interrupt (target : Z) := w4 [11; target].
Definition cmd_setup_ring := w4 [12; u32 ring_region; 0; u32 (Ring.nvkvm_ring_resp_off NVKVM_RING_DEFAULT_BYTES); NVKVM_RING_DEFAULT_BYTES; 0].
Definition cmd_enter_loop (idle : Z) := w4 [13; idle].
Definition cmd_present (handle gem txn : Z) := w4 [14; handle; gem; txn].
Definition cmd_xiso (handle txn : Z) := w4 [15; handle; txn; 0].
Definition cmd_window_info := w4 [16; 0].

Definition struct_of (c : call) : list (nat * Z) :=
  match c with
  | CReceive h dev _ => cmd_receive_fd h dev
  | CClose h => cmd_close_fd h
  | CIoctl h cmd flags txn abi p a => cmd_ioctl h cmd (u32 (arr_len p)) (u32 (arr_len a)) flags txn abi
  | CMmap h va len off prot flags => cmd_mmap h va len off prot flags
  | CMunmap va len => cmd_munmap va len
  | CPoll h ev => cmd_poll h ev
  | CUnpoll h => cmd_unpoll h
  | COpen h dev flags txn => cmd_open_device h dev flags txn
  | CRealize mode prot flags len hint off st i => cmd_realize mode (u32 (arr_len st)) (u32 (arr_len i)) prot flags len hint off
  | CInterrupt t => cmd_interrupt t
  | CRing _ => cmd_setup_ring
  | CLoop idle => cmd_enter_loop idle
  | CPresent h gem txn => cmd_present h gem txn
  | CXiso h txn _ => cmd_xiso h txn
  | CWindow => cmd_window_info
  end.

(** The descriptor in the same message. *)
Definition scm_of (c : call) : option Z :=
  match c with CReceive _ _ fd | CRing fd | CXiso _ _ fd => Some fd | _ => None end.

(** All that goes out, under the write lock. *)
Definition sends (c : call) : hreq :=
  match c with
  | CIoctl _ _ _ _ _ p a => HIoctl (pack (struct_of c)) p a
  | CRealize _ _ _ _ _ _ st i => HRealize (pack (struct_of c)) st i
  | _ => HPlain (Msg (pack (struct_of c)) (scm_of c))
  end.

(** The fields the stub's handlers read. *)
Inductive view :=
| VReceive (handle dev : Z) | VClose (handle : Z)
| VIoctl (handle cmd psize asize flags txn abi : Z)
| VMmap (handle va len off prot flags : Z) | VMunmap (va len : Z)
| VPoll (handle : Z) | VUnpoll (handle : Z)
| VOpen (handle dev flags txn : Z)
| VRealize (mode ssize isize prot flags len hint off : Z)
| VInterrupt (target : Z) | VRing (cfg : StubRing.setup) | VLoop (idle : Z)
| VPresent (handle gem txn : Z) | VXiso (handle txn : Z) | VWindow.

Definition stub_view (c : list Z) : option view :=
  let k := rd 4 0 c in
  if k =? 1 then Some (VReceive (rd 4 4 c) (rd 4 8 c))
  else if k =? 2 then Some (VClose (rd 4 4 c))
  else if k =? 3 then Some (VIoctl (rd 4 4 c) (rd 4 8 c) (rd 4 12 c) (rd 4 16 c) (rd 4 20 c) (rd 4 24 c) (rd 4 28 c))
  else if k =? 4 then Some (VMmap (rd 4 4 c) (rd 8 8 c) (rd 8 16 c) (rd 8 24 c) (rd 4 32 c) (rd 4 36 c))
  else if k =? 5 then Some (VMunmap (rd 8 8 c) (rd 8 16 c))
  else if k =? 6 then Some (VPoll (rd 4 4 c))
  else if k =? 7 then Some (VUnpoll (rd 4 4 c))
  else if k =? 9 then Some (VOpen (rd 4 4 c) (rd 4 8 c) (rd 4 12 c) (rd 4 16 c))
  else if k =? 10 then Some (VRealize (rd 4 8 c) (rd 4 12 c) (rd 4 16 c) (rd 4 20 c) (rd 4 24 c) (rd 8 32 c) (rd 8 40 c) (rd 8 48 c))
  else if k =? 11 then Some (VInterrupt (rd 4 4 c))
  else if k =? 12 then Some (VRing (StubRing.Setup (rd 4 4 c) (rd 4 8 c) (rd 4 12 c) (rd 4 16 c)))
  else if k =? 13 then Some (VLoop (rd 4 4 c))
  else if k =? 14 then Some (VPresent (rd 4 4 c) (rd 4 8 c) (rd 4 12 c))
  else if k =? 15 then Some (VXiso (rd 4 4 c) (rd 4 8 c))
  else if k =? 16 then Some VWindow
  else None.

(** What QEMU meant them to be. *)
Definition meant (c : call) : view :=
  match c with
  | CReceive h dev _ => VReceive h dev
  | CClose h => VClose h
  | CIoctl h cmd flags txn abi p a => VIoctl h cmd (arr_len p) (arr_len a) flags txn abi
  | CMmap h va len off prot flags => VMmap h va len off prot flags
  | CMunmap va len => VMunmap va len
  | CPoll h _ => VPoll h
  | CUnpoll h => VUnpoll h
  | COpen h dev flags txn => VOpen h dev flags txn
  | CRealize mode prot flags len hint off st i => VRealize mode (arr_len st) (arr_len i) prot flags len hint off
  | CInterrupt t => VInterrupt t
  | CRing _ => VRing (StubRing.Setup ring_region 0 (Ring.nvkvm_ring_resp_off NVKVM_RING_DEFAULT_BYTES) NVKVM_RING_DEFAULT_BYTES)
  | CLoop idle => VLoop idle
  | CPresent h gem txn => VPresent h gem txn
  | CXiso h txn _ => VXiso h txn
  | CWindow => VWindow
  end.

(** Arguments at their widths, blobs within the protocol's limits. *)
Definition call_ok (c : call) : Prop :=
  Forall fits (struct_of c) /\
  match c with
  | CIoctl _ _ _ _ _ p a => Forall byte p /\ Forall byte a /\ arr_len p <= MAX_PARAM_SIZE /\ arr_len a <= MAX_PARAM_SIZE
  | CRealize _ _ _ _ _ _ st i =>
      Forall byte st /\ Forall byte i /\ arr_len st = sizeof_state /\ 0 < arr_len i <= 65536 /\
      rd 4 8 st <= STUB_MAX_REG /\ rd 4 12 st <= STUB_MAX_REG /\ rd 4 16 st <= STUB_MAX_REG
  | _ => True
  end.

(** The job an ioctl is for the stub's workers. *)
Definition job_of (c : call) : option job :=
  match c with CIoctl h cmd flags txn abi p a => Some (Job txn h cmd flags abi p a) | _ => None end.

(** ** Responses *)

(** The stub's structure; [fault]: what [get_fault_addr] gave. *)
Definition rsp_struct (fault : Z) (r : rsp) : list (nat * Z) :=
  match r with
  | ROk => w4 [16; 0]
  | RError e => w4 [17; u32 (if e <? 0 then - e else e)]
  | RIoctl txn j => w4 [18; txn; arr_len (r_param j); arr_len (r_aux j); u32 (retval j); r_status j] ++ w8 [fault]
  | RMmap ret va => w4 [19; u32 ret] ++ w8 [va]
  | RPollEvent h rev => w4 [20; h; rev; 0]
  | ROpen txn ret => w4 [21; txn; u32 ret; 0]
  | RRealize txn ret st va len => w4 [22; txn; u32 ret; st] ++ w8 [va; len; va]
  | RRing err probe => w4 [23; u32 err] ++ w8 [probe]
  | RLoop err head => w4 [24; u32 err] ++ w8 [head]
  | RPresent txn ret => w4 [25; txn; u32 ret; 0]
  | RXiso txn ret gem => w4 [26; txn; u32 ret; gem]
  | RWindow ret base size => w4 [27; u32 ret] ++ w8 [base; size]
  end.

Definition sizeof_resp_union : nat := 40.

(** The reader's union after a message, over what an earlier one left. *)
Definition resp_union (b residue : list Z) : list Z :=
  let b := take sizeof_resp_union b in b ++ drop (length b) residue.

(** The fields the reader takes from it. *)
Definition parse_resp (u : list Z) : IsoReader.resp :=
  let k := rd 4 0 u in
  if k =? 16 then IsoReader.POk
  else if k =? 17 then IsoReader.PError (s32 (rd 4 4 u))
  else if k =? 19 then IsoReader.PMmap (s32 (rd 4 4 u)) (rd 8 8 u)
  else if k =? 27 then IsoReader.PWindow (s32 (rd 4 4 u)) (rd 8 8 u) (rd 8 16 u)
  else if k =? 18 then
    IsoReader.PIoctl (IsoReader.Header (rd 4 4 u) (s32 (rd 4 16 u)) (rd 4 20 u) (rd 8 24 u) (rd 4 8 u) (rd 4 12 u))
  else if k =? 20 then IsoReader.PPoll (rd 4 4 u) (rd 4 8 u)
  else if k =? 22 then IsoReader.PRealize (s32 (rd 4 8 u)) (rd 8 16 u) (rd 8 24 u) (rd 8 32 u) (rd 4 12 u)
  else if k =? 23 then IsoReader.PRing (s32 (rd 4 4 u)) (rd 8 8 u)
  else if k =? 24 then IsoReader.PLoop (s32 (rd 4 4 u)) (rd 8 8 u)
  else if k =? 21 then IsoReader.POpen (s32 (rd 4 8 u))
  else if k =? 25 then IsoReader.PPresent (s32 (rd 4 8 u))
  else if k =? 26 then IsoReader.PXiso (s32 (rd 4 8 u)) (rd 4 12 u)
  else IsoReader.PUnknown.

(** What the stub meant. *)
Definition told (fault : Z) (r : rsp) : IsoReader.resp :=
  match r with
  | ROk => IsoReader.POk
  | RError e => IsoReader.PError (Z.abs e)
  | RIoctl txn j => IsoReader.PIoctl (IsoReader.Header txn (retval j) (r_status j) fault (arr_len (r_param j)) (arr_len (r_aux j)))
  | RMmap ret va => IsoReader.PMmap ret va
  | RPollEvent h rev => IsoReader.PPoll h rev
  | ROpen _ ret => IsoReader.POpen ret
  | RRealize _ ret st va len => IsoReader.PRealize ret va len va st
  | RRing err probe => IsoReader.PRing err probe
  | RLoop err head => IsoReader.PLoop err head
  | RPresent _ ret => IsoReader.PPresent ret
  | RXiso _ ret gem => IsoReader.PXiso ret gem
  | RWindow ret base size => IsoReader.PWindow ret base size
  end.

Definition int32 (x : Z) : Prop := - 2147483648 <= x < 2147483648.

Definition rsp_ok (fault : Z) (r : rsp) : Prop :=
  Forall fits (rsp_struct fault r) /\
  match r with
  | ROk | RPollEvent _ _ => True
  | RError e => - 2147483648 < e < 2147483648
  | RIoctl _ j => int32 (retval j)
  | RMmap ret _ | RWindow ret _ _ | ROpen _ ret | RPresent _ ret | RXiso _ ret _ | RRing ret _ | RLoop ret _ | RRealize _ ret _ _ _ => int32 ret
  end.

(** ** Fields of packed structures *)
Lemma rd_skip n off k v r : Z.of_nat k <= off -> rd n off (le_bytes k v ++ r) = rd n (off - Z.of_nat k) r.
Proof.
  intros H. unfold rd. rewrite drop_app_ge by (rewrite le_bytes_length; lia). rewrite le_bytes_length.
  do 3 f_equal. lia.
Qed.

Lemma rd_here n v r : 0 <= v < 256 ^ Z.of_nat n -> rd n 0 (le_bytes n v ++ r) = v.
Proof.
  intros H. unfold rd. cbn [Z.to_nat]. rewrite drop_0. rewrite take_app_le by (rewrite le_bytes_length; lia).
  rewrite take_ge by (rewrite le_bytes_length; lia). by apply le_val_bytes.
Qed.

Lemma rd_pack fs : forall n off r v, field n off fs = Some v -> Forall fits fs -> rd n off (pack fs ++ r) = v.
Proof.
  induction fs as [|[w x] fs IH]; intros n off r v Hf Hs; [done|]. apply Forall_cons in Hs as [Hx Hs].
  cbn [field] in Hf. unfold pack. cbn [fmap list_fmap concat fst snd]. rewrite <- app_assoc.
  destruct (Z.eqb_spec off 0) as [->|H0].
  - destruct (Nat.eqb_spec w n) as [->|]; [|done]. injection Hf as <-. by apply rd_here.
  - destruct (Z.ltb_spec off (Z.of_nat w)); [done|]. rewrite rd_skip by lia. by apply IH.
Qed.

Lemma pack_length fs : length (pack fs) = sum_list (fst <$> fs).
Proof.
  induction fs as [|[w x] fs IH]; [done|]. unfold pack in *. cbn [fmap list_fmap concat fst snd sum_list].
  rewrite length_app, le_bytes_length. by rewrite IH.
Qed.

Lemma pack_byte fs : Forall byte (pack fs).
Proof.
  apply Forall_concat, Forall_fmap, Forall_true. intros [w x]. cbn [compose fst snd]. revert x. induction w as [|w IH]; intros x; cbn [le_bytes]; constructor; [|apply IH].
  unfold byte. apply Z.mod_pos_bound. lia.
Qed.

(** Reads a field of a packed structure, whatever comes behind it. *)
Ltac packed Hs :=
  match goal with
  | |- context [rd ?n ?off (pack ?fs ++ ?r)] =>
      rewrite (rd_pack fs n off r _ eq_refl Hs)
  end.

Lemma view_meant c r : call_ok c -> stub_view (pack (struct_of c) ++ r) = Some (meant c).
Proof.
  intros [Hs Hc]. unfold stub_view. cbv zeta. destruct c; cbn [struct_of] in *; packed Hs; cbn [Z.eqb Pos.eqb meant]; repeat packed Hs; try done.
  - destruct Hc as (_ & _ & Hp & Ha). unfold MAX_PARAM_SIZE in *. rewrite !u32_small by (unfold arr_len in *; lia). done.
  - destruct Hc as (_ & _ & H1 & H2 & _). rewrite H1, !u32_small by (unfold arr_len, sizeof_state in *; lia). done.
Qed.

Lemma struct_small c : (4 <= sum_list (fst <$> struct_of c) <= 56)%nat.
Proof. destruct c; cbn; lia. Qed.

Lemma sends_ok c : call_ok c -> hreq_ok (sends c).
Proof.
  intros [Hs Hc]. pose proof (pack_byte (struct_of c)) as Hb. pose proof (struct_small c) as Hl. pose proof (pack_length (struct_of c)) as El.
  assert (forall b, Forall byte b -> Forall msg_ok (blob b)) as Hbl by (intros [|x b] H; [constructor|constructor; [exact H|constructor]]).
  assert (forall off v, field 4 off (struct_of c) = Some v -> rd 4 off (pack (struct_of c)) = v) as Hr
    by (intros off v Hf; rewrite <- (app_nil_r (pack _)); by apply rd_pack).
  destruct c; cbn [sends]; (split; [|]); cbn [msgs_of m_bytes];
    try (constructor; [exact Hb|constructor]);
    try (split; [unfold arr_len; lia|]; rewrite (Hr 0 _ eq_refl); apply list_elem_of_In; cbn; tauto).
  - constructor; [exact Hb|]. destruct Hc as (H1 & H2 & _). apply Forall_app. split; by apply Hbl.
  - destruct Hc as (_ & _ & Hp & Ha). rewrite (Hr 0 _ eq_refl), (Hr 12 _ eq_refl), (Hr 16 _ eq_refl). unfold MAX_PARAM_SIZE in *.
    rewrite !u32_small by (unfold arr_len in *; lia). by split_and!.
  - constructor; [exact Hb|]. destruct Hc as (H1 & H2 & _). apply Forall_app. split; by apply Hbl.
  - destruct Hc as (_ & _ & H1 & H2 & H3). rewrite (Hr 0 _ eq_refl), (Hr 12 _ eq_refl), (Hr 16 _ eq_refl). rewrite H1, !u32_small by (unfold arr_len, sizeof_state in *; lia).
    split_and!; try done; try lia; tauto.
Qed.

(** ** The queue *)
Definition free (q : list (option job)) : Z := count_if (fun x => match x with None => true | Some _ => false end) q.

Lemma enqueue_room s j :
  0 < free (queue s) ->
  exists i, queue s !! i = Some None /\ enqueue_job s j = (set_queue s (<[i := Some j]> (queue s)), []).
Proof.
  intros Hf. unfold enqueue_job. destruct (find_idx _ _) as [i|] eqn:E.
  - exists i. apply find_idx_Some in E as (x & Hx & Hn & _). destruct x; [done|]. by split.
  - apply find_idx_None in E. apply count_if_zero in E. unfold free in Hf. lia.
Qed.

Lemma queue_put q (i : nat) j :
  q !! i = Some None -> free (<[i := Some j]> q) = free q - 1 /\ forall k, Some k ∈ <[i := Some j]> q <-> Some k ∈ q \/ k = j.
Proof.
  intros Hi. split.
  - unfold free. rewrite (count_if_insert _ _ _ None) by done. cbn. lia.
  - intros k. rewrite !list_elem_of_lookup. split.
    + intros [n Hn]. destruct (decide (n = i)) as [->|Hne].
      * rewrite list_lookup_insert_eq in Hn by (by eapply lookup_lt_Some). injection Hn as <-. by right.
      * rewrite list_lookup_insert_ne in Hn by done. left. by exists n.
    + intros [[n Hn]| ->].
      * exists n. rewrite list_lookup_insert_ne; [done|]. intros <-. congruence.
      * exists i. rewrite list_lookup_insert_eq; [done|]. by eapply lookup_lt_Some.
Qed.

(** A full queue. *)
Lemma enqueue_full s j : free (queue s) = 0 -> enqueue_job s j = (s, [Send (RIoctl (j_txn j) (refused (- ENOMEM)))]).
Proof.
  intros Hf. unfold enqueue_job. destruct (find_idx _ _) as [i|] eqn:E; [|done]. apply find_idx_Some in E as (x & Hx & Hn & _).
  unfold free in Hf. rewrite count_if_zero, Forall_lookup in Hf. by rewrite (Hf _ _ Hx) in Hn.
Qed.

(** ** Reading a command *)

(** The kernel has memory for the blobs; the residue is bytes. *)
Definition fine (e : env) : Prop := Forall byte (e_residue e) /\ e_alloc e = true /\ e_alloc2 e = true.

Lemma ioctl_enqueues s e hdr p a ms :
  hreq_ok (HIoctl hdr p a) -> e_alloc e = true -> e_alloc2 e = true ->
  handle_ioctl_cmd s e (read_cmd (Msg hdr None) e) (blob p ++ blob a ++ ms)
  = (let '(s', acts) := enqueue_job s (Job (rd 4 24 hdr) (rd 4 4 hdr) (rd 4 8 hdr) (rd 4 20 hdr) (rd 4 28 hdr) p a) in
     (s', Asked (rd 4 24 hdr) :: acts, ms)).
Proof.
  intros (_ & Hl & Ht & Hp & Ha & Mp & Ma) H1 H2. unfold handle_ioctl_cmd. cbv zeta.
  rewrite !(rd_cmd 4 _ (Msg hdr None)) by (cbn [m_bytes]; lia). cbn [m_bytes]. rewrite Hp, Ha.
  rewrite (proj2 (Z.ltb_ge _ _)), (proj2 (Z.ltb_ge MAX_PARAM_SIZE (arr_len a))) by done. cbn [orb].
  by rewrite blob_read, blob_read by done.
Qed.

(** The job of an ioctl header. *)
Lemma ioctl_job c hdr p a :
  call_ok c -> sends c = HIoctl hdr p a ->
  job_of c = Some (Job (rd 4 24 hdr) (rd 4 4 hdr) (rd 4 8 hdr) (rd 4 20 hdr) (rd 4 28 hdr) p a).
Proof.
  intros [Hs _] H. destruct c; try done. injection H as <- <- <-. cbn [job_of]. rewrite <- (app_nil_r (pack _)). by repeat packed Hs.
Qed.

(** A job is queued, or refused when there is no room. *)
Definition no_room (j : job) : act := Send (RIoctl (j_txn j) (refused (- ENOMEM))).

Definition after_read (s s' : sys) (acts : list act) (c : call) : Prop :=
  match job_of c with
  | Some j =>
      (exists i, queue (st s) !! i = Some None /\ queue (st s') = <[i := Some j]> (queue (st s))) \/
      free (queue (st s)) = 0 /\ queue (st s') = queue (st s) /\ no_room j ∈ acts
  | None => queue (st s') = queue (st s)
  end.

Lemma head_msg c : exists rest, msgs_of (sends c) = Msg (pack (struct_of c)) (scm_of c) :: rest.
Proof. destruct c; by eexists. Qed.

Lemma not_ioctl c e : call_ok c -> job_of c = None -> rd 4 0 (read_cmd (Msg (pack (struct_of c)) (scm_of c)) e) <> ISOLATE_CMD_IOCTL.
Proof.
  intros [Hs _] Hj. rewrite rd_type by (cbn [m_bytes]; unfold arr_len; rewrite pack_length; pose proof (struct_small c); lia).
  cbn [m_bytes]. rewrite <- (app_nil_r (pack _)). destruct c; try done; cbn [struct_of] in *; by packed Hs.
Qed.

Lemma read_queue base size s e c ms :
  win_ok (st s) base size -> Forall msg_ok (inbox s) -> fine e -> call_ok c -> inbox s = msgs_of (sends c) ++ ms ->
  after_read s (fst (read_one s e)) (snd (read_one s e)) c.
Proof.
  intros Hw Hm (H1 & H2 & H3) Hc Hi. pose proof (sends_ok c Hc) as Ho. unfold after_read. destruct (head_msg c) as [rest Er].
  unfold read_one. rewrite Hi, Er in *. cbn [app m_bytes m_fd]. cbv zeta. apply Forall_cons in Hm as [Hm Hms].
  rewrite (proj2 (Z.ltb_ge _ _)).
  2: { unfold arr_len. rewrite length_take, pack_length. pose proof (struct_small c). unfold sizeof_cmd. lia. }
  destruct (stub_dispatch_cmd _ _ _ _ _ _) as [[[s' acts] ms'] q] eqn:Ed. cbn [fst snd st].
  destruct (job_of c) as [j|] eqn:Ej.
  - destruct c; try done. injection Er as <-. cbn [scm_of] in Ed. rewrite dispatch_ioctl in Ed.
    + rewrite <- app_assoc in Ed. rewrite (ioctl_enqueues (st s) e _ p a ms Ho H2 H3) in Ed.
      pose proof (ioctl_job _ _ _ _ Hc eq_refl) as Hj. rewrite Ej in Hj. apply (inj Some) in Hj. rewrite <- Hj in Ed.
      destruct (Z.lt_ge_cases 0 (free (queue (st s)))) as [Hf|Hf].
      * destruct (enqueue_room (st s) j Hf) as (i & Hn & E). rewrite E in Ed. injection Ed as <- _ _ _. left. by exists i.
      * assert (free (queue (st s)) = 0) as Hz by (pose proof (count_if_nonneg (fun x => match x with None => true | Some _ => false end) (queue (st s))); unfold free in *; lia).
        rewrite (enqueue_full (st s) j Hz) in Ed. injection Ed as <- <- _ _. right. split_and!; [done..|]. right. right. by left.
    + rewrite rd_type by (cbn [m_bytes]; by destruct Ho as (_ & -> & _)). apply Ho.
  - assert (kept s' = kept (st s)) as Hk.
    { eapply (dispatch_plain (fun _ => True)); [exact Hw|by apply read_cmd_bytes|done|exact Hms|by apply not_ioctl|exact Ed]. }
    by injection Hk.
Qed.

Lemma read_view base size s e c ms :
  win_ok (st s) base size -> Forall msg_ok (inbox s) -> fine e -> call_ok c -> inbox s = msgs_of (sends c) ++ ms ->
  exists u, inbox (fst (read_one s e)) = ms /\ quit (fst (read_one s e)) = false /\ cmds (snd (read_one s e)) = [u] /\
    stub_view u = Some (meant c).
Proof.
  intros Hw Hm (H1 & H2 & H3) Hc Hi. destruct (read_framed base size s e _ ms Hw Hm H1 H2 H3 (sends_ok c Hc) Hi) as (s' & acts & u & -> & E1 & E2 & E3 & E4).
  exists u. cbn [fst snd]. split_and!; [done..|].
  assert (head_of (sends c) = pack (struct_of c)) as Eh by (by destruct c). rewrite Eh, pack_length in E4.
  pose proof (struct_small c) as Hl. unfold sizeof_cmd in E4. rewrite Nat.min_r in E4 by lia.
  rewrite (take_ge (pack _)) in E4 by (rewrite pack_length; lia).
  rewrite <- (take_drop (sum_list (fst <$> struct_of c)) u), E4. by apply view_meant.
Qed.

(** What becomes of the jobs [js] from the queue [q] to [q']. *)
Record jobs_kept (js : list job) (q q' : list (option job)) (acts : list act) : Prop := {
  jk_known : forall j, Some j ∈ q' -> Some j ∈ q \/ j ∈ js;
  jk_old : forall j, Some j ∈ q -> Some j ∈ q';
  jk_new : forall j, j ∈ js -> Some j ∈ q' \/ no_room j ∈ acts;
  jk_room : arr_len js <= free q -> forall j, j ∈ js -> Some j ∈ q' }.

Lemma jobs_step s s1 a1 c js q' a2 :
  after_read s s1 a1 c -> jobs_kept js (queue (st s1)) q' a2 ->
  jobs_kept (match job_of c with Some j => j :: js | None => js end) (queue (st s)) q' (a1 ++ a2).
Proof.
  intros Ha [K1 K2 K3 K4]. unfold after_read in Ha. destruct (job_of c) as [j0|].
  2: { rewrite Ha in *. constructor; try done. intros j Hj. destruct (K3 j Hj); [by left|right; apply elem_of_app; by right]. }
  destruct Ha as [(i & Hn & Ha)|(Hz & Ha & Hs)].
  - destruct (queue_put _ _ j0 Hn) as [F1 F2]. rewrite Ha in *. constructor.
    + intros j Hj. destruct (K1 j Hj) as [Hq|Hq]; [|right; by right]. apply F2 in Hq as [?| ->]; [by left|right; left].
    + intros j Hj. apply K2, F2. by left.
    + intros j Hj. apply elem_of_cons in Hj as [->|Hj]; [left; apply K2, F2; by right|].
      destruct (K3 j Hj); [by left|right; apply elem_of_app; by right].
    + intros Hl j Hj. apply elem_of_cons in Hj as [->|Hj]; [apply K2, F2; by right|]. apply K4; [|done].
      rewrite F1. unfold arr_len in *. cbn [length] in Hl. lia.
  - rewrite Ha in *. constructor; [|done| |].
    + intros j Hj. destruct (K1 j Hj); [by left|right; by right].
    + intros j Hj. apply elem_of_cons in Hj as [->|Hj]; [right; apply elem_of_app; by left|].
      destruct (K3 j Hj); [by left|right; apply elem_of_app; by right].
    + intros Hl. unfold arr_len in Hl. cbn [length] in Hl. lia.
Qed.

(** C26: QEMU and the stub speak the same language.  Whatever calls QEMU makes,
    with their arguments at the declared widths and blobs within the limits, and
    as long as the stub has memory for the blobs ([fine]; without it framing is
    lost, [oom_blob_is_a_command]), the stub takes one command per call, in
    order, whose fields are the ones QEMU meant, and nothing is left over.  Every
    ioctl becomes a job with its parameters byte for byte, or is refused with
    ENOMEM when the queue is full, which does not happen when there is room for
    all of them; and no other job appears. *)
Theorem stub_reads_qemu base size cs : forall s es,
  win_ok (st s) base size -> quit s = false -> Forall call_ok cs -> Forall fine es -> length es = length cs ->
  inbox s = concat ((fun c => msgs_of (sends c)) <$> cs) ->
  let '(s', acts) := run s (Read <$> es) in
  quit s' = false /\ inbox s' = [] /\ stub_view <$> cmds acts = (fun c => Some (meant c)) <$> cs /\
  jobs_kept (omap job_of cs) (queue (st s)) (queue (st s')) acts.
Proof.
  induction cs as [|c cs IH]; intros s es Hw Hq Hc He Hl Hi.
  { destruct es; [|done]. cbn. split_and!; [done..|]. constructor; try done; [by left|..]; intros; set_solver. }
  destruct es as [|e es]; [done|]. apply Forall_cons in Hc as [Hc Hcs]. apply Forall_cons in He as [He Hes].
  cbn [fmap list_fmap concat] in Hi.
  assert (Forall msg_ok (inbox s)) as Hm.
  { rewrite Hi. apply Forall_app. split; [apply (sends_ok c Hc)|]. apply Forall_concat, Forall_fmap. eapply Forall_impl; [exact Hcs|].
    intros x Hx. apply (sends_ok x Hx). }
  destruct (read_view base size s e c _ Hw Hm He Hc Hi) as (u & R1 & R2 & R3 & R4).
  pose proof (read_queue base size s e c _ Hw Hm He Hc Hi) as Ha.
  destruct (step_confined (fun _ => True) base size s (Read e) (proj1 He) (conj Hw Hm) ltac:(done)) as [[Hw1 _] _].
  cbn [run sys_step fmap list_fmap] in *. rewrite Hq in *. destruct (read_one s e) as [s1 a1]. cbn [fst snd] in *.
  specialize (IH s1 es Hw1 R2 Hcs Hes ltac:(by injection Hl) R1). destruct (run s1 (Read <$> es)) as [s2 a2].
  destruct IH as (Q1 & Q2 & Q3 & Q4). split_and!; [done..| |].
  - rewrite cmds_app, R3. cbn [app fmap list_fmap]. rewrite R4. f_equal. exact Q3.
  - pose proof (jobs_step s s1 a1 c _ _ _ Ha Q4) as H. cbn [omap list_omap]. by destruct (job_of c).
Qed.

(** The ring QEMU sets up is one the stub takes. *)
Lemma default_ring_taken fd :
  match meant (CRing fd) with VRing cfg => StubRing.handle_setup_ring cfg true true false true = inr cfg | _ => False end.
Proof. by vm_compute. Qed.

(** ** Responses *)
Lemma s32_u32 x : int32 x -> s32 (u32 x) = x.
Proof. unfold int32, s32, u32. intros H. cbv zeta. rewrite Z.mod_mod by done. case_if; zb; mlia. Qed.

Lemma rsp_small fault r : (sum_list (fst <$> rsp_struct fault r) <= 40)%nat.
Proof. destruct r; cbn; lia. Qed.

(** QEMU takes every response of the stub for what it is: whatever an
    earlier message left in the reader's union, the response is recognised and
    each field has the value the stub gave it, signs included. *)
Lemma responses_told fault r residue :
  rsp_ok fault r -> parse_resp (resp_union (pack (rsp_struct fault r)) residue) = told fault r.
Proof.
  intros [Hs Hr]. pose proof (rsp_small fault r) as Hl. unfold resp_union.
  rewrite take_ge by (rewrite pack_length; unfold sizeof_resp_union; lia). set (rest := drop _ residue).
  unfold parse_resp. cbv zeta. destruct r; cbn [rsp_struct] in *; packed Hs; cbn [Z.eqb Pos.eqb told]; repeat packed Hs;
    rewrite ?s32_u32 by (first [exact Hr|unfold int32; case_if; zb; lia]); try done.
  case_if; zb; f_equal; lia.
Qed.

(** ** An ioctl, from QEMU's caller to the driver and back *)

(** The messages of an ioctl response: header, then the blobs that are not empty. *)
Definition answer_events (fault : Z) (residue : list Z) (txn : Z) (r : StubJob.resp) : list IsoReader.ev :=
  [IsoReader.EMsg (parse_resp (resp_union (pack (rsp_struct fault (RIoctl txn r))) residue)) [];
   IsoReader.EBlob (r_param r); IsoReader.EBlob (r_aux r); IsoReader.EBlob []].

(** A lone job is the one that is taken. *)
Lemma dequeue_lone s q (i : nat) j :
  Forall (fun x => x = None) q -> q !! i = Some None -> queue s = <[i := Some j]> q -> dequeue_job s = Some (j, set_queue s (<[i := None]> (queue s))).
Proof.
  intros Hq Hi Hs. unfold dequeue_job. rewrite Hs. pose proof (lookup_lt_Some _ _ _ Hi) as Hl.
  destruct (find_idx _ _) as [k|] eqn:E.
  - apply find_idx_Some in E as (x & Hx & Hn & _). destruct (decide (k = i)) as [->|Hk].
    + rewrite Hx. rewrite list_lookup_insert_eq in Hx by done. by injection Hx as <-.
    + rewrite list_lookup_insert_ne in Hx by done. rewrite Forall_lookup in Hq. apply Hq in Hx. by subst.
  - apply find_idx_None in E. rewrite Forall_lookup in E. by specialize (E i (Some j) ltac:(by rewrite list_lookup_insert_eq)).
Qed.

(** A worker's turn. *)
Definition serve (w : Z) (look : Z -> Z) (va : Z) (drv : driver) : list ev := [Take w; Look w; Call w look va drv; Ret w; Done w].

(** What the worker makes of a job, with the table as it is. *)
Definition served (s : stub) (look : Z -> Z) (va : Z) (drv : driver) (j : job) : StubJob.resp :=
  run_job_on (handle_lookup s (j_handle j)) (handle_type_matches_dev (handle_dev_lookup s (j_handle j)) (j_cmd j))
    look va drv (j_cmd j) (j_abi j) (j_param j) (j_aux j).

Lemma worker_serves t w look va drv j s' :
  busy t !! w = None -> dequeue_job (st t) = Some (j, s') ->
  Send (RIoctl (j_txn j) (served s' look va drv j)) ∈ snd (run t (serve w look va drv)).
Proof.
  intros Hb Hd. unfold serve. cbn [run sys_step]. rewrite Hb, Hd. cbn [busy st]. rewrite lookup_insert_eq. cbn [set_work busy st].
  rewrite lookup_insert_eq. cbv zeta. fold (served s' look va drv j). unfold job_call.
  destruct (_ || _); [|destruct (prepare _ _ _ _ _ _) as [[[p1 a1] sv]|]]; repeat (cbn [set_work busy]; rewrite ?lookup_insert_eq);
    cbn [snd]; case_if; cbn [app]; repeat (first [by left|right]).
Qed.

Lemma lookups_ext s s' id : StubFds.table s' = StubFds.table s -> handle_lookup s' id = handle_lookup s id /\ handle_dev_lookup s' id = handle_dev_lookup s id.
Proof. intros E. unfold StubFds.table in E. injection E as E _. unfold handle_lookup, handle_dev_lookup. by rewrite E. Qed.

Lemma dequeue_table s j s' : dequeue_job s = Some (j, s') -> StubFds.table s' = StubFds.table s.
Proof.
  unfold dequeue_job. destruct (find_idx _ _); [|done]. destruct (queue s !! _) as [[j'|]|]; [|done..]. by intros [=_ <-].
Qed.

(** Reading an ioctl leaves the workers and the handle table alone. *)
Lemma read_ioctl_keeps t e c j ms : call_ok c -> job_of c = Some j -> inbox t = msgs_of (sends c) ++ ms ->
  busy (fst (read_one t e)) = busy t /\ StubFds.table (st (fst (read_one t e))) = StubFds.table (st t).
Proof.
  intros Hc Hj Hi. destruct c; try done. pose proof (sends_ok _ Hc) as Ho. unfold read_one. rewrite Hi. cbn [sends msgs_of app m_bytes m_fd]. cbv zeta.
  case_if; [done|]. rewrite dispatch_ioctl by (rewrite rd_type by (cbn [m_bytes]; by destruct Ho as (_ & -> & _)); apply Ho).
  match goal with |- context [handle_ioctl_cmd ?a ?b ?c ?d] => destruct (StubFds.ioctl_dull a b c d) as [_ Et]; destruct (handle_ioctl_cmd a b c d) as [[s1 a1] m1] end.
  done.
Qed.

(** The stub's part: read, then a worker's turn. *)
Lemma stub_serves base size t e c j w look va drv :
  win_ok (st t) base size -> quit t = false -> fine e -> call_ok c -> job_of c = Some j -> inbox t = msgs_of (sends c) ->
  Forall (fun x => x = None) (queue (st t)) -> 0 < free (queue (st t)) -> busy t !! w = None ->
  Send (RIoctl (j_txn j) (served (st t) look va drv j)) ∈ snd (run t (Read e :: serve w look va drv)).
Proof.
  intros Hw Hq He Hc Hj Hi Hn Hf Hb. rewrite <- (app_nil_r (msgs_of _)) in Hi.
  assert (Forall msg_ok (inbox t)) as Hm by (rewrite Hi, app_nil_r; apply (sends_ok c Hc)).
  pose proof (read_queue base size t e c [] Hw Hm He Hc Hi) as Ha. unfold after_read in Ha. rewrite Hj in Ha.
  destruct Ha as [(i & Hi0 & Ha)|(Hz & _)]; [|lia].
  destruct (read_ioctl_keeps t e c j [] Hc Hj Hi) as [Eb Et].
  cbn [run sys_step]. rewrite Hq. destruct (read_one t e) as [t1 a1]. cbn [fst snd] in *.
  pose proof (dequeue_lone _ _ i j Hn Hi0 Ha) as Hd. pose proof (dequeue_table _ _ _ Hd) as Ed.
  pose proof (worker_serves t1 w look va drv j _ ltac:(by rewrite Eb) Hd) as H.
  destruct (run t1 _) as [t2 a2]. cbn [snd] in *. apply elem_of_app. right.
  replace (served (st t) look va drv j) with (served (set_queue (st t1) (<[i:=None]> (queue (st t1)))) look va drv j); [done|].
  unfold served. destruct (lookups_ext (st t) (set_queue (st t1) (<[i:=None]> (queue (st t1)))) (j_handle j)) as [-> ->]; [by rewrite Ed|done].
Qed.

(** QEMU's part: the reader claims the request, stores the blobs and completes it. *)
Lemma recv_nil b : IsoReader.recv_into [] b = b.
Proof. unfold IsoReader.recv_into. by rewrite take_nil, drop_0. Qed.

Definition delivered (h : IsoReader.header) (m1 m2 : list Z) (x : IsoReader.frame) : IsoReader.frame :=
  IsoReader.complete h (IsoReader.put_aux m2 (IsoReader.put_param m1 x)).

Lemma param_stored s c x h m :
  IsoReader.rd_at s = IsoReader.RParam h (Some c) -> IsoReader.frames s !! c = Some x -> IsoReader.f_pset x = true ->
  IsoReader.h_psize h = arr_len m -> arr_len m <= arr_len (IsoReader.f_param x) < W32 ->
  fst (IsoReader.step s (IsoReader.EBlob m))
  = IsoReader.set_rd (IsoReader.set_pend s (IsoReader.pending s) (<[c := IsoReader.put_param m x]> (IsoReader.frames s))) (IsoReader.RAux h (Some c)).
Proof.
  intros Hr Hx Hp Hh Hl. cbn [IsoReader.step]. unfold IsoReader.reader_blob. rewrite Hr, Hh. destruct m as [|b m].
  - cbn. unfold IsoReader.put_param. rewrite recv_nil. destruct x. cbn. rewrite insert_id by done. by destruct s.
  - rewrite (proj2 (Z.ltb_lt _ _)) by (unfold arr_len; cbn [length]; lia). cbn [IsoReader.to_param]. rewrite Hx, Hp.
    rewrite (proj2 (Z.leb_le _ _)) by (rewrite u32_small; unfold arr_len in *; lia). cbn [andb IsoReader.take_blob].
    unfold IsoReader.on_frame. by rewrite Hx.
Qed.

Lemma aux_stored s c x h m :
  IsoReader.rd_at s = IsoReader.RAux h (Some c) -> IsoReader.frames s !! c = Some x -> IsoReader.f_aset x = true ->
  IsoReader.h_asize h = arr_len m -> arr_len m <= arr_len (IsoReader.f_aux x) < W32 ->
  fst (IsoReader.step s (IsoReader.EBlob m))
  = IsoReader.set_rd (IsoReader.set_pend s (IsoReader.pending s) (<[c := IsoReader.put_aux m x]> (IsoReader.frames s))) (IsoReader.RFin h (Some c)).
Proof.
  intros Hr Hx Hp Hh Hl. cbn [IsoReader.step]. unfold IsoReader.reader_blob. rewrite Hr, Hh. destruct m as [|b m].
  - cbn. unfold IsoReader.put_aux. rewrite recv_nil. destruct x. cbn. rewrite insert_id by done. by destruct s.
  - rewrite (proj2 (Z.ltb_lt _ _)) by (unfold arr_len; cbn [length]; lia). cbn [IsoReader.to_aux]. rewrite Hx, Hp.
    rewrite (proj2 (Z.leb_le _ _)) by (rewrite u32_small; unfold arr_len in *; lia). cbn [andb IsoReader.take_blob].
    unfold IsoReader.on_frame. by rewrite Hx.
Qed.

Lemma iso_run_cons s v l : fst (IsoReader.run s (v :: l)) = fst (IsoReader.run (fst (IsoReader.step s v)) l).
Proof. cbn [IsoReader.run]. destruct (IsoReader.step s v) as [s1 a1]. cbn [fst]. by destruct (IsoReader.run s1 l). Qed.

Lemma reader_delivers s c x rest h m1 m2 :
  IsoReader.rd_at s = IsoReader.RIdle -> IsoReader.pending s = c :: rest -> IsoReader.frames s !! c = Some x ->
  IsoReader.f_txn x = IsoReader.h_txn h -> IsoReader.f_pset x = true -> IsoReader.f_aset x = true ->
  IsoReader.h_psize h = arr_len m1 -> arr_len m1 <= arr_len (IsoReader.f_param x) < W32 ->
  IsoReader.h_asize h = arr_len m2 -> arr_len m2 <= arr_len (IsoReader.f_aux x) < W32 ->
  let s' := fst (IsoReader.run s [IsoReader.EMsg (IsoReader.PIoctl h) []; IsoReader.EBlob m1; IsoReader.EBlob m2; IsoReader.EBlob []]) in
  IsoReader.frames s' !! c = Some (delivered h m1 m2 x) /\ IsoReader.pending s' = rest /\ IsoReader.rd_at s' = IsoReader.RIdle.
Proof.
  intros Hr Hp Hx Ht P1 P2 E1 L1 E2 L2. cbv zeta.
  set (s1 := IsoReader.set_rd (IsoReader.set_pend s rest (IsoReader.frames s)) (IsoReader.RParam h (Some c))).
  assert (fst (IsoReader.step s (IsoReader.EMsg (IsoReader.PIoctl h) [])) = s1) as S1.
  { cbn [IsoReader.step]. rewrite Hr. cbn [IsoReader.reader_msg]. unfold IsoReader.claim. rewrite Hp.
    cbn [find_idx]. unfold IsoReader.matches. rewrite Hx, Ht, Z.eqb_refl. reflexivity. }
  pose proof (param_stored s1 c x h m1 eq_refl Hx P1 E1 L1) as S2. set (s2 := IsoReader.set_rd _ (IsoReader.RAux _ _)) in S2.
  pose proof (aux_stored s2 c _ h m2 eq_refl (lookup_insert_eq _ _ _) P2 E2 L2) as S3. set (s3 := IsoReader.set_rd _ (IsoReader.RFin _ _)) in S3.
  rewrite iso_run_cons, S1, iso_run_cons, S2, iso_run_cons, S3, iso_run_cons. cbn [IsoReader.run fst].
  assert (IsoReader.frames s3 !! c = Some (IsoReader.put_aux m2 (IsoReader.put_param m1 x))) as Hf by apply lookup_insert_eq.
  cbn [IsoReader.step]. unfold IsoReader.reader_blob. change (IsoReader.rd_at s3) with (IsoReader.RFin h (Some c)). cbn iota.
  unfold IsoReader.on_frame. rewrite Hf. cbn [fst IsoReader.set_rd IsoReader.set_pend IsoReader.frames IsoReader.pending IsoReader.rd_at].
  by rewrite lookup_insert_eq.
Qed.

(** The isolate as QEMU sees it, able to take an ioctl from the caller [c]. *)
Record ready (s : IsoReader.iso) (id c : Z) : Prop := {
  rdy_idle : IsoReader.rd_at s = IsoReader.RIdle;
  rdy_id : IsoReader.id_ok id = true;
  rdy_valid : IsoReader.valid s id = true;
  rdy_sock : IsoReader.i_sock s = true;
  rdy_shut : IsoReader.i_shut s = false;
  rdy_new : IsoReader.frames s !! c = None }.

(** The stub with nothing to do, and a worker [w] that waits. *)
Record idle (t : sys) (w base size : Z) : Prop := {
  idl_win : win_ok (st t) base size;
  idl_quit : quit t = false;
  idl_queue : Forall (fun x => x = None) (queue (st t));
  idl_room : 0 < free (queue (st t));
  idl_worker : busy t !! w = None }.

(** The request is made, on the list, and sent. *)
Definition asked (s : IsoReader.iso) (id c : Z) (p a : list Z) : IsoReader.iso :=
  fst (IsoReader.run s [IsoReader.EReg c id p true a true; IsoReader.ESent c 0]).

Definition request (s : IsoReader.iso) (p a : list Z) : IsoReader.frame :=
  IsoReader.Frame (IsoReader.i_next s) false 0 0 0 0 p true a true (Some 0).

Lemma asked_spec s id c p a :
  ready s id c ->
  let s' := asked s id c p a in
  IsoReader.rd_at s' = IsoReader.RIdle /\ IsoReader.pending s' = c :: IsoReader.pending s /\ IsoReader.frames s' !! c = Some (request s p a).
Proof.
  intros [H1 H2 H3 H4 H5 H6]. cbv zeta. unfold asked. cbn [IsoReader.run IsoReader.step]. rewrite H6.
  unfold IsoReader.ioctl_register. rewrite H2, H3. cbn. rewrite H4, H5. split_and!; [done|done|].
  by rewrite lookup_alter_eq, lookup_insert_eq.
Qed.

(** C25: an ioctl makes the round trip.  QEMU's caller registers and sends it; the
    stub reads it, a worker finds its descriptor in the table, runs it against the
    driver and answers; QEMU's reader takes the answer.  Then the caller has the driver's result, with the blobs as
    the worker left them stored in its own buffers, and returns it. *)
Theorem ioctl_round_trip s t id c w base size e look va drv handle cmd flags abi p a fault residue :
  let txn := IsoReader.i_next s in
  let call := CIoctl handle cmd flags txn abi p a in
  let r := served (st t) look va drv (Job txn handle cmd flags abi p a) in
  ready s id c -> idle t w base size -> fine e -> call_ok call -> rsp_ok fault (RIoctl txn r) ->
  arr_len (r_param r) <= arr_len p -> arr_len (r_aux r) <= arr_len a ->
  let t' := Sys (st t) (msgs_of (sends call)) (busy t) (quit t) in
  let s' := fst (IsoReader.run (asked s id c p a) (answer_events fault residue txn r)) in
  Send (RIoctl txn r) ∈ snd (run t' (Read e :: serve w look va drv)) /\
  (exists x, IsoReader.frames s' !! c = Some x /\ IsoReader.f_param x = IsoReader.recv_into (r_param r) p /\
     IsoReader.f_aux x = IsoReader.recv_into (r_aux r) a /\ IsoReader.f_status x = r_status r) /\
  snd (IsoReader.step s' (IsoReader.EBack c)) = [IsoReader.ABack c txn (retval r)].
Proof.
  intros txn call r Hs [T1 T2 T3 T4 T5] He Hc Hr Lp La t' s'. split.
  { exact (stub_serves base size t' e call (Job txn handle cmd flags abi p a) w look va drv T1 T2 He Hc eq_refl eq_refl T3 T4 T5). }
  destruct (asked_spec s id c p a Hs) as (A1 & A2 & A3). destruct Hc as [_ (_ & _ & Mp & Ma)]. unfold MAX_PARAM_SIZE in *.
  assert (IsoReader.frames s' !! c = Some (delivered (IsoReader.Header txn (retval r) (r_status r) fault (arr_len (r_param r)) (arr_len (r_aux r)))
            (r_param r) (r_aux r) (request s p a))) as Hx.
  { unfold s', answer_events. rewrite responses_told by exact Hr. cbn [told].
    apply (reader_delivers _ c (request s p a) (IsoReader.pending s)); try done; cbn [request IsoReader.f_param IsoReader.f_aux]; lia. }
  split; [eexists; by split|]. cbn [IsoReader.step]. unfold IsoReader.ioctl_return. rewrite Hx. reflexivity.
Qed.

(** ** Concrete runs *)
Definition calls : list call :=
  [COpen 5 0 2 1; CReceive 6 1 30; CIoctl 5 0xC020462A 0 7 570 (replicate 32 1) [1; 2; 3]; CMmap 5 base0 4096 0 3 1; CMunmap base0 4096;
   CRing 31; CLoop 50; CXiso 5 9 32; CWindow].

Lemma fine0 : fine env0.
Proof. split_and!; [|done|done]. repeat constructor; done. Qed.

Ltac call_fits := split; [repeat constructor; done|try exact I].

Lemma stub_reads_qemu_witness :
  let '(s', acts) := run (Sys stub0 (concat ((fun c => msgs_of (sends c)) <$> calls)) ∅ false) (Read <$> replicate 9 env0) in
  quit s' = false /\ inbox s' = [] /\ stub_view <$> cmds acts = (fun c => Some (meant c)) <$> calls /\
  jobs_kept (omap job_of calls) (queue stub0) (queue (st s')) acts.
Proof.
  apply (stub_reads_qemu base0 STUB_WINDOW_SIZE calls (Sys stub0 (concat ((fun c => msgs_of (sends c)) <$> calls)) ∅ false) (replicate 9 env0));
    [exact win_ok0|done| |apply Forall_replicate, fine0|done|done].
  repeat (constructor; [call_fits|]); [|constructor]. split_and!; [repeat constructor; done..|done|done].
Defined.

Definition iso0 : IsoReader.iso :=
  IsoReader.start 3 (fun _ => IsoReader.Slot None false 0 (-1) (IsoReader.Vals 0 0 0 0 0 0 0 0 0 0 0)).
Definition sys0 : sys := Sys (set_handles stub0 {[5 := (11, 0)]}) [] ∅ false.

(** A driver that sets the last byte of the parameters. *)
Definition busy_driver : driver := fun _ _ p a => (0, <[31%nat := 9]> p, a).
Lemma ioctl_round_trip_witness :
  let r := served (st sys0) nobody 4096 busy_driver (Job 1 5 0xC020462A 0 570 (replicate 32 0) (replicate 8 7)) in
  retval r = 0 /\ r_param r !! 31%nat = Some 9 /\
  exists x, IsoReader.frames (fst (IsoReader.run (asked iso0 3 100 (replicate 32 0) (replicate 8 7)) (answer_events 0 (replicate 40 0) 1 r))) !! 100 = Some x /\
    IsoReader.f_param x = IsoReader.recv_into (r_param r) (replicate 32 0).
Proof.
  split; [by vm_compute|]. split; [by vm_compute|].
  destruct (ioctl_round_trip iso0 sys0 3 100 1 base0 STUB_WINDOW_SIZE env0 nobody 4096 busy_driver 5 0xC020462A 0 570 (replicate 32 0) (replicate 8 7) 0
              (replicate 40 0)) as (_ & (x & Hx & Hp & _) & _).
  - by constructor.
  - constructor; [by constructor|done| |by vm_compute|done]. repeat constructor.
  - exact fine0.
  - split; [repeat constructor; done|]. split_and!; [repeat constructor; done..|done|done].
  - split; [|by vm_compute]. vm_compute. repeat constructor; done.
  - by vm_compute.
  - by vm_compute.
  - exists x. split; [exact Hx|exact Hp].
Defined.

End Wire.
