(* ===== verification/GuestTx.v ===== *)
(** * GuestTx: the guest module's virtio transport

    Models [src/guest/nvkvm_virtio.c]: the shared-memory slot allocator, the
    transaction numbers, the records of requests in flight, the sending and
    waiting ([nvkvm_send_sync]), the completion callback, and the two kinds of
    caller: control requests ([simple_req] and its likes) and forwarded ioctls
    ([ioctl_on_isolate_common]), which put their blobs into slots and, when a
    signal arrives while they wait, issue an interrupt request of their own.

    A call is a [call] with a program counter; what it does between two points
    where other threads can intervene is one step.  A thread is a stack of
    calls.  [guest] is what the threads share, with the heap of request records,
    the virtqueue's outstanding messages and the bytes of the shared region.
    The host answers any outstanding message at any time with any bytes, and
    writes into the slots a message names until it has answered it.

    Device removal is not modelled: [g_ready] and [g_base] are fixed. *)
From stdpp Require Import gmap.
From S2P Require Import Prelude Bytes Abi.

Module GuestTx.

Definition NVKVM_SHM_NSLOTS : Z := 256.
Definition NVKVM_SHM_SLOT_MIN_SIZE : Z := 4096.
Definition NVKVM_SHM_SLOT_DEFAULT_SIZE : Z := 65536.
Definition NVKVM_MAX_INFLIGHT : Z := 4096.
Definition NVKVM_MAX_VMA_ENTRIES : nat := 1024.
Definition NVKVM_PROTO_VERSION : Z := 3.
Definition s64 (x : Z) : Z := let y := u64 x in if y <? 9223372036854775808 then y else y - W64.
Definition EBUSY : Z := 16.
Definition ENOSPC : Z := 28.
Definition EPROTO : Z := 71.

(** ** Slots: the set bits of the bitmap *)
Fixpoint find_zero (n : nat) (i : Z) (b : gset Z) : Z :=
  match n with O => i | S n => if decide (i ∈ b) then find_zero n (i + 1) b else i end.

Definition nvkvm_slot_alloc (b : gset Z) : Z * gset Z :=
  let slot := find_zero 255 1 b in
  if NVKVM_SHM_NSLOTS <=? slot then (- ENOMEM, b) else (slot, {[slot]} ∪ b).
Definition nvkvm_slot_free (b : gset Z) (slot : Z) : gset Z := b ∖ {[slot]}.

(** ** Transaction numbers *)
Definition txn_slot (seed tries : Z) : Z := u32 (seed + tries) mod NVKVM_MAX_INFLIGHT.
Definition txn_id (seed slot : Z) : Z :=
  Z.lor (Z.shiftl (Z.land (seed / NVKVM_MAX_INFLIGHT) 0xFFFFF) 12) (Z.land slot 0xFFF).
Definition txn_bit (txn : Z) : Z := Z.land txn 0xFFF.
Definition nvkvm_txn_id_free (b : gset Z) (txn : Z) : gset Z := if txn_bit txn =? 0 then b else b ∖ {[txn_bit txn]}.

(** ** Requests in flight *)
Record inflight := Inf {
  n_txn : Z; n_isolate : Z; n_resp : bool; n_done : bool;
  n_retval : Z; n_status : Z; n_nvstatus : Z; n_fault : Z }.

Definition new_inf (txn isolate : Z) : inflight := Inf txn isolate false false 0 0 0 0.
Definition set_resp (b : bool) (x : inflight) : inflight :=
  Inf (n_txn x) (n_isolate x) b (n_done x) (n_retval x) (n_status x) (n_nvstatus x) (n_fault x).
Definition fill (retval status nvstatus fault : Z) (x : inflight) : inflight :=
  Inf (n_txn x) (n_isolate x) (n_resp x) true retval status nvstatus fault.

Definition nvkvm_request_type_known (t : Z) : bool := (1 <=? t) && (t <=? 5) || (10 <=? t) && (t <=? 31).

Definition is_one_of (t : Z) (l : list Z) : bool := existsb (Z.eqb t) l.

(** The answer [b]: the response structure of the type it names. *)
Definition nvkvm_tx_done (b : list Z) (x : inflight) : inflight :=
  let t := rd 4 0 b in
  let stat off := s32 (rd 4 off b) in
  if negb (nvkvm_request_type_known t) then fill (n_retval x) EINVAL (n_nvstatus x) (n_fault x) x
  else if is_one_of t [1; 2; 3; 4; 5; 10] then fill (n_retval x) EINVAL (n_nvstatus x) (n_fault x) x
  else if is_one_of t [11; 12; 14] then fill (rd 4 8 b) (stat 12) (n_nvstatus x) (n_fault x) x
  else if is_one_of t [26; 31] then fill (rd 4 12 b) (stat 8) (n_nvstatus x) (n_fault x) x
  else if t =? 28 then fill (rd 8 8 b) (stat 32) (rd 4 28 b) (n_fault x) x
  else if t =? 29 then fill (rd 8 8 b) (stat 16) (n_nvstatus x) (n_fault x) x
  else if t =? 18 then fill (rd 8 8 b) (stat 16) (rd 4 20 b) (rd 8 24 b) x
  else if t =? 19 then fill (rd 8 8 b) (stat 28) (rd 4 24 b) (n_fault x) x
  else if t =? 25 then fill (rd 8 8 b) (stat 36) (rd 4 32 b) (rd 8 24 b) x
  else fill (n_retval x) (stat 8) (n_nvstatus x) (n_fault x) x.

(** ** Messages *)
Record gmsg := GMsg { g_type : Z; g_txn : Z; g_psize : Z; g_pslot : Z; g_asize : Z; g_aslot : Z; g_vn : Z; g_vslot : Z }.

(** ** What the threads share *)
Record guest := Guest {
  g_ready : bool; g_base : bool; g_slot_size : Z;
  g_slots : gset Z; g_txns : gset Z; g_seed : Z;
  g_heap : gmap Z inflight; g_list : list Z; g_vq : gmap Z gmsg; g_mem : list Z }.

Definition set_slots (s : guest) (b : gset Z) : guest :=
  Guest (g_ready s) (g_base s) (g_slot_size s) b (g_txns s) (g_seed s) (g_heap s) (g_list s) (g_vq s) (g_mem s).
Definition set_txns (s : guest) (b : gset Z) : guest :=
  Guest (g_ready s) (g_base s) (g_slot_size s) (g_slots s) b (g_seed s) (g_heap s) (g_list s) (g_vq s) (g_mem s).
Definition set_seed (s : guest) (n : Z) : guest :=
  Guest (g_ready s) (g_base s) (g_slot_size s) (g_slots s) (g_txns s) n (g_heap s) (g_list s) (g_vq s) (g_mem s).
Definition set_heap (s : guest) (h : gmap Z inflight) : guest :=
  Guest (g_ready s) (g_base s) (g_slot_size s) (g_slots s) (g_txns s) (g_seed s) h (g_list s) (g_vq s) (g_mem s).
Definition set_list (s : guest) (l : list Z) : guest :=
  Guest (g_ready s) (g_base s) (g_slot_size s) (g_slots s) (g_txns s) (g_seed s) (g_heap s) l (g_vq s) (g_mem s).
Definition set_vq (s : guest) (q : gmap Z gmsg) : guest :=
  Guest (g_ready s) (g_base s) (g_slot_size s) (g_slots s) (g_txns s) (g_seed s) (g_heap s) (g_list s) q (g_mem s).
Definition set_mem (s : guest) (m : list Z) : guest :=
  Guest (g_ready s) (g_base s) (g_slot_size s) (g_slots s) (g_txns s) (g_seed s) (g_heap s) (g_list s) (g_vq s) m.

Definition nvkvm_slot_addr (s : guest) (slot : Z) : option Z :=
  if negb (g_base s) || (slot <? 0) || (NVKVM_SHM_NSLOTS <=? slot) then None else Some (slot * g_slot_size s).

(** ** Calls *)
Inductive pc :=
| PTry (seed tries : Z)               (* looking for a number *)
| PMk                                 (* message and record to be allocated *)
| PSlot | PCopy | ASlot | ACopy | VList | VSlot | VCopy   (* the ioctl's blobs *)
| PSend | PAdd                        (* [nvkvm_send_sync] *)
| PWait | PIntr                       (* interruptible, uninterruptible *)
| PDone | PBack | ABack
| VFree | AFree | PFree | End.

(** [k_isolate] is 0 for a control request.  [k_aset]: the auxiliary buffer is
    there.  [k_vmas]: the white list to send. *)
Record call := Call {
  k_type : Z; k_isolate : Z; k_ioctl : bool; k_want : bool; k_aset : bool;
  k_p : list Z; k_a : list Z; k_vmas : list Z;
  k_pc : pc; k_txn : Z; k_inf : Z; k_ps : option Z; k_as : option Z; k_vs : option Z; k_ret : Z }.

Definition go (f : call) (n : pc) : call :=
  Call (k_type f) (k_isolate f) (k_ioctl f) (k_want f) (k_aset f) (k_p f) (k_a f) (k_vmas f) n (k_txn f) (k_inf f) (k_ps f) (k_as f) (k_vs f) (k_ret f).
Definition with_ret (f : call) (r : Z) : call :=
  Call (k_type f) (k_isolate f) (k_ioctl f) (k_want f) (k_aset f) (k_p f) (k_a f) (k_vmas f) (k_pc f) (k_txn f) (k_inf f) (k_ps f) (k_as f) (k_vs f) r.
Definition with_txn (f : call) (t : Z) : call :=
  Call (k_type f) (k_isolate f) (k_ioctl f) (k_want f) (k_aset f) (k_p f) (k_a f) (k_vmas f) (k_pc f) t (k_inf f) (k_ps f) (k_as f) (k_vs f) (k_ret f).
Definition with_inf (f : call) (c : Z) : call :=
  Call (k_type f) (k_isolate f) (k_ioctl f) (k_want f) (k_aset f) (k_p f) (k_a f) (k_vmas f) (k_pc f) (k_txn f) c (k_ps f) (k_as f) (k_vs f) (k_ret f).
Definition with_slots (f : call) (p a v : option Z) : call :=
  Call (k_type f) (k_isolate f) (k_ioctl f) (k_want f) (k_aset f) (k_p f) (k_a f) (k_vmas f) (k_pc f) (k_txn f) (k_inf f) p a v (k_ret f).
Definition with_bufs (f : call) (p a v : list Z) : call :=
  Call (k_type f) (k_isolate f) (k_ioctl f) (k_want f) (k_aset f) p a v (k_pc f) (k_txn f) (k_inf f) (k_ps f) (k_as f) (k_vs f) (k_ret f).

(** A control request, and an ioctl, as they start. *)
Definition control (type seed : Z) : call := Call type 0 false false false [] [] [] (PTry seed 0) 0 0 None None None 0.
Definition forward (isolate : Z) (want aset : bool) (p a : list Z) (seed : Z) : call :=
  Call 18 isolate true want aset p a [] (PTry seed 0) 0 0 None None None 0.

Inductive blob := BParam | BAux | BVmas.
Definition same_blob (a b : blob) : bool :=
  match a, b with BParam, BParam | BAux, BAux | BVmas, BVmas => true | _, _ => false end.

Inductive act :=
| AStray (c : Z)                       (* a record or buffer that is gone was used *)
| AWild (off len : Z)                  (* written outside the slot *)
| AIn (c : Z) (w : blob) (d : list Z)  (* copied into the slot *)
| AHost (c : Z) (w : blob) (d : list Z)
| AOut (c : Z) (w : blob) (d : list Z) (* copied back to the caller *)
| APost (c : Z) (m : gmsg) | AResp (c : Z) (b : list Z)
| ARet (ioctl : bool) (c txn r : Z) (x : option inflight).   (* a call returned, with its record as it was *)

(** What the kernel gives to one step: whether the message's and the response
    buffer's memory is there, the address of the record, the result of adding
    to the virtqueue, the process's areas if their lock was free, and whether a
    signal is pending. *)
Record env := Env { e_msg : bool; e_inf : option Z; e_resp : bool; e_add : Z; e_vmas : option (list (Z * Z * Z)); e_sig : bool }.

Definition vma_bytes (l : list (Z * Z * Z)) : list Z :=
  concat ((fun v : Z * Z * Z => let '(b, e, pr) := v in le_bytes 8 b ++ le_bytes 8 e ++ le_bytes 4 pr ++ le_bytes 4 0) <$> take NVKVM_MAX_VMA_ENTRIES l).

(** Copies [d] to the start of a slot. *)
Definition copy_in (s : guest) (c : Z) (w : blob) (off : Z) (d : list Z) : guest * list act :=
  (set_mem s (wr off d (g_mem s)), (if g_slot_size s <? arr_len d then [AWild off (arr_len d)] else []) ++ [AIn c w d]).
Definition copy_out (s : guest) (off : Z) (d : list Z) : list Z := take (length d) (drop (Z.to_nat off) (g_mem s)).

Definition slot0 (x : option Z) : Z := match x with Some i => i | None => 0 end.
Definition message (f : call) : gmsg :=
  GMsg (k_type f) (k_txn f) (arr_len (k_p f)) (slot0 (k_ps f)) (arr_len (k_a f)) (slot0 (k_as f)) (arr_len (k_vmas f) / 24) (slot0 (k_vs f)).

(** The caller's result. *)
Definition result (ioctl : bool) (x : inflight) : Z :=
  if ioctl then
    if (n_status x =? EFAULT) && negb (n_fault x =? 0) then - EFAULT
    else if negb (n_status x =? 0) then - n_status x else s64 (n_retval x)
  else if negb (n_status x =? 0) then s32 (u32 (- n_status x)) else 0.

(** The record of the call, or a stray use. *)
Definition on_inf (s : guest) (f : call) (k : inflight -> guest * list call * list act) : guest * list call * list act :=
  match g_heap s !! k_inf f with Some x => k x | None => (s, [go f End], [AStray (k_inf f)]) end.

(** [nvkvm_txn_id_alloc]: one turn of the search. *)
Definition nvkvm_txn_id_alloc (s : guest) (f : call) (seed tries : Z) : guest * list call * list act :=
  if NVKVM_MAX_INFLIGHT <=? tries then (s, [], [ARet (k_ioctl f) 0 0 (- EBUSY) None])
  else
    let b := txn_slot seed tries in
    if (b =? 0) || bool_decide (b ∈ g_txns s) then (s, [go f (PTry seed (tries + 1))], [])
    else (set_txns s ({[b]} ∪ g_txns s), [go (with_txn f (txn_id seed b)) PMk], []).

(** The message and the record ([inflight_alloc_legacy]); without them the number is given back. *)
Definition inflight_alloc (s : guest) (f : call) (e : env) : guest * list call * list act :=
  match e_msg e, e_inf e with
  | true, Some c =>
      match g_heap s !! c with
      | Some _ => (s, [f], [])
      | None => (set_heap s (<[c := new_inf (k_txn f) (k_isolate f)]> (g_heap s)), [go (with_inf f c) (if k_ioctl f then PSlot else PSend)], [])
      end
  | _, _ => (set_txns s (nvkvm_txn_id_free (g_txns s) (k_txn f)), [], [ARet (k_ioctl f) 0 (k_txn f) (- ENOMEM) None])
  end.

(** The blobs of [ioctl_on_isolate_common], put into slots. *)
Definition ioctl_put (s : guest) (f : call) (e : env) : guest * list call * list act :=
  let out r := (s, [go (with_ret f r) VFree], []) in
  match k_pc f with
  | PSlot =>
      if (g_slot_size s <? arr_len (k_p f)) || (g_slot_size s <? arr_len (k_a f)) then out (- EINVAL)
      else if arr_len (k_p f) =? 0 then (s, [go f ASlot], [])
      else
        let '(i, b) := nvkvm_slot_alloc (g_slots s) in
        if i <? 0 then out (- ENOSPC) else (set_slots s b, [go (with_slots f (Some i) (k_as f) (k_vs f)) PCopy], [])
  | PCopy =>
      match nvkvm_slot_addr s (slot0 (k_ps f)) with
      | None => out (- ENOMEM)
      | Some off => let '(s, a) := copy_in s (k_inf f) BParam off (k_p f) in (s, [go f ASlot], a)
      end
  | ASlot =>
      if (arr_len (k_a f) =? 0) || negb (k_aset f) then (s, [go f VList], [])
      else
        let '(i, b) := nvkvm_slot_alloc (g_slots s) in
        if i <? 0 then out (- ENOSPC) else (set_slots s b, [go (with_slots f (k_ps f) (Some i) (k_vs f)) ACopy], [])
  | ACopy =>
      match nvkvm_slot_addr s (slot0 (k_as f)) with
      | None => out (- ENOMEM)
      | Some off => let '(s, a) := copy_in s (k_inf f) BAux off (k_a f) in (s, [go f VList], a)
      end
  | VList =>
      let l := match e_vmas e with Some l => if k_want f then vma_bytes l else [] | None => [] end in
      (s, [go (with_bufs f (k_p f) (k_a f) l) (match l with [] => PSend | _ => VSlot end)], [])
  | VSlot =>
      let '(i, b) := nvkvm_slot_alloc (g_slots s) in
      if i <? 0 then (s, [go (with_bufs f (k_p f) (k_a f) []) PSend], [])
      else (set_slots s b, [go (with_slots f (k_ps f) (k_as f) (Some i)) VCopy], [])
  | VCopy =>
      match nvkvm_slot_addr s (slot0 (k_vs f)) with
      | None =>
          (set_slots s (nvkvm_slot_free (g_slots s) (slot0 (k_vs f))), [go (with_bufs (with_slots f (k_ps f) (k_as f) None) (k_p f) (k_a f) []) PSend], [])
      | Some off => let '(s, a) := copy_in s (k_inf f) BVmas off (k_vmas f) in (s, [go f PSend], a)
      end
  | _ => (s, [f], [])
  end.

(** [nvkvm_send_sync], and what its callers take from the record. *)
Definition nvkvm_send_sync (s : guest) (f : call) (e : env) : guest * list call * list act :=
  let stay := (s, [f], []) in
  let out r := (s, [go (with_ret f r) VFree], []) in
  match k_pc f with
  | PSend =>
      if negb (g_ready s) then out (- ENODEV)
      else if negb (e_resp e) then out (- ENOMEM)
      else on_inf s f (fun x => (set_list (set_heap s (<[k_inf f := set_resp true x]> (g_heap s))) (g_list s ++ [k_inf f]), [go f PAdd], []))
  | PAdd =>
      if e_add e =? 0 then
        (set_vq s (<[k_inf f := message f]> (g_vq s)), [go f (if k_isolate f =? 0 then PIntr else PWait)], [APost (k_inf f) (message f)])
      else
        on_inf s f (fun x =>
          (set_list (set_heap s (<[k_inf f := set_resp false x]> (g_heap s))) (base.filter (fun c => c <> k_inf f) (g_list s)),
           [go (with_ret f (e_add e)) VFree], []))
  | PWait =>
      on_inf s f (fun x =>
        if n_done x then (s, [go f PDone], [])
        else if e_sig e then let n := u32 (g_seed s + 1) in (set_seed s n, [control 27 n; go f PIntr], [])
        else stay)
  | PIntr => on_inf s f (fun x => if n_done x then (s, [go f PDone], []) else stay)
  | PDone =>
      on_inf s f (fun x =>
        (set_list (set_heap s (<[k_inf f := set_resp false x]> (g_heap s))) (base.filter (fun c => c <> k_inf f) (g_list s)),
         [go (with_ret f (result (k_ioctl f) x)) (if k_ioctl f then PBack else End)], []))
  | _ => stay
  end.

(** The blobs of [ioctl_on_isolate_common], copied back, and their slots freed. *)
Definition ioctl_get (s : guest) (f : call) : guest * list call * list act :=
  match k_pc f with
  | PBack =>
      match k_ps f with
      | Some i =>
          match nvkvm_slot_addr s i with
          | Some off => let p := copy_out s off (k_p f) in (s, [go (with_bufs f p (k_a f) (k_vmas f)) ABack], [AOut (k_inf f) BParam p])
          | None => (s, [go f ABack], [])
          end
      | None => (s, [go f ABack], [])
      end
  | ABack =>
      match k_as f with
      | Some i =>
          match nvkvm_slot_addr s i with
          | Some off => let a := copy_out s off (k_a f) in (s, [go (with_bufs f (k_p f) a (k_vmas f)) VFree], [AOut (k_inf f) BAux a])
          | None => (s, [go f VFree], [])
          end
      | None => (s, [go f VFree], [])
      end
  | VFree =>
      match k_vs f with
      | Some i => (set_slots s (nvkvm_slot_free (g_slots s) i), [go (with_slots f (k_ps f) (k_as f) None) AFree], [])
      | None => (s, [go f AFree], [])
      end
  | AFree =>
      match k_as f with
      | Some i => (set_slots s (nvkvm_slot_free (g_slots s) i), [go (with_slots f (k_ps f) None (k_vs f)) PFree], [])
      | None => (s, [go f PFree], [])
      end
  | PFree =>
      match k_ps f with
      | Some i => (set_slots s (nvkvm_slot_free (g_slots s) i), [go (with_slots f None (k_as f) (k_vs f)) End], [])
      | None => (s, [go f End], [])
      end
  | _ => (s, [f], [])
  end.

Definition inflight_free (s : guest) (f : call) : guest * list call * list act :=
  (set_heap (set_txns s (nvkvm_txn_id_free (g_txns s) (k_txn f))) (delete (k_inf f) (g_heap s)), [],
   [ARet (k_ioctl f) (k_inf f) (k_txn f) (k_ret f) (g_heap s !! k_inf f)]).

(** One step of the call on top: the calls that take its place. *)
Definition call_step (s : guest) (f : call) (e : env) : guest * list call * list act :=
  match k_pc f with
  | PTry seed tries => nvkvm_txn_id_alloc s f seed tries
  | PMk => inflight_alloc s f e
  | PSlot | PCopy | ASlot | ACopy | VList | VSlot | VCopy => ioctl_put s f e
  | PSend | PAdd | PWait | PIntr | PDone => nvkvm_send_sync s f e
  | PBack | ABack | VFree | AFree | PFree => ioctl_get s f
  | End => inflight_free s f
  end.

(** ** The system *)
Record sys := Sys { sh : guest; th : gmap Z (list call) }.

Inductive ev :=
| EControl (x type : Z)                                          (* a thread makes a control request *)
| EForward (x isolate : Z) (want aset : bool) (p a : list Z)     (* or forwards an ioctl *)
| EStep (x : Z) (e : env)
| EHost (c : Z) (b : list Z)                                     (* the host answers *)
| EHostW (c : Z) (w : blob) (d : list Z).                        (* the host stores a result in a slot *)

(** Where the host puts a blob of the message. *)
Definition host_slot (m : gmsg) (w : blob) : Z * Z :=
  match w with BParam => (g_pslot m, g_psize m) | BAux => (g_aslot m, g_asize m) | BVmas => (0, 0) end.

Definition begin (s : sys) (x : Z) (f : Z -> call) : sys :=
  match th s !! x with
  | Some _ => s
  | None => let n := u32 (g_seed (sh s) + 1) in Sys (set_seed (sh s) n) (<[x := [f n]]> (th s))
  end.

Definition step (s : sys) (v : ev) : sys * list act :=
  match v with
  | EControl x type => (begin s x (control type), [])
  | EForward x isolate want aset p a => (begin s x (forward isolate want aset p a), [])
  | EStep x e =>
      match th s !! x with
      | Some (f :: rest) =>
          let '(g, fs, a) := call_step (sh s) f e in
          (Sys g (match fs ++ rest with [] => delete x (th s) | st => <[x := st]> (th s) end), a)
      | _ => (s, [])
      end
  | EHost c b =>
      match g_vq (sh s) !! c with
      | Some _ =>
          let g := set_vq (sh s) (delete c (g_vq (sh s))) in
          match g_heap g !! c with
          | Some x => if n_resp x then (Sys (set_heap g (<[c := nvkvm_tx_done b x]> (g_heap g))) (th s), [AResp c b]) else (Sys g (th s), [AStray c])
          | None => (Sys g (th s), [AStray c])
          end
      | None => (s, [])
      end
  | EHostW c w d =>
      match g_vq (sh s) !! c with
      | Some m =>
          let '(i, n) := host_slot m w in
          if (i =? 0) || (n <? arr_len d) then (s, [])
          else (Sys (set_mem (sh s) (wr (i * g_slot_size (sh s)) d (g_mem (sh s)))) (th s), [AHost c w d])
      | None => (s, [])
      end
  end.

Fixpoint run (s : sys) (l : list ev) : sys * list act :=
  match l with
  | [] => (s, [])
  | v :: l => let '(s, a) := step s v in let '(s, a') := run s l in (s, a ++ a')
  end.

(** *** Coming up *)

(** The control block's version and slot size, against the region that was mapped. *)
Definition nvkvm_negotiate_version (base : bool) (version slot_size shm_size : Z) : Z + Z :=
  if negb base then inl (- ENODEV)
  else if negb (version =? NVKVM_PROTO_VERSION) then inl (- EPROTO)
  else if (slot_size <? NVKVM_SHM_SLOT_MIN_SIZE) || negb (Z.land slot_size (slot_size - 1) =? 0) then inl (- EINVAL)
  else if shm_size <? slot_size * NVKVM_SHM_NSLOTS then inl (- EINVAL)
  else inr slot_size.

(** [nvkvm_virtio_init]: slot 0 is the control block's. *)
Definition nvkvm_virtio_init (slot_size : Z) (mem : list Z) : sys :=
  Sys (Guest true true slot_size {[0]} ∅ 0 ∅ [] ∅ mem) ∅.

End GuestTx.
