(* ===== verification/GuestInv.v ===== *)
(** * GuestInv: what holds of the guest's virtio transport

    Over the model of [GuestTx]: who owns which slot, transaction number and
    request record, what the virtqueue holds, and what the slots contain; kept
    by every step of every thread and by every answer of the host. *)
From stdpp Require Import gmap.
From S2P Require Import Prelude Bytes Abi GuestTx.

Module GuestInv.
Import GuestTx.

(** ** Ownership *)

(** The values in [S] are those of [B] and those the calls own, each owned once. *)
Definition res (B : list Z) (own : call -> list Z) (S : gset Z) (L : list call) : Prop :=
  NoDup (B ++ (L ≫= own)) /\ S = list_to_set (B ++ (L ≫= own)).

Lemma bind_perm (own : call -> list Z) L L' : L ≡ₚ L' -> L ≫= own ≡ₚ L' ≫= own.
Proof. intros H. by rewrite H. Qed.

Section res.
Context (B : list Z) (own : call -> list Z).

Lemma res_move S L L' : L ≫= own ≡ₚ L' ≫= own -> res B own S L -> res B own S L'.
Proof. intros H [H1 ->]. unfold res. rewrite <- H. by split. Qed.

Lemma res_add S i L L' : i ∉ S -> L' ≫= own ≡ₚ i :: (L ≫= own) -> res B own S L -> res B own ({[i]} ∪ S) L'.
Proof.
  intros Hi H [H1 ->]. unfold res. rewrite H. rewrite <- Permutation_middle. split.
  - constructor; [|done]. intros Hn. apply Hi. by apply elem_of_list_to_set.
  - by rewrite list_to_set_cons.
Qed.

Lemma res_del S i L L' : L ≫= own ≡ₚ i :: (L' ≫= own) -> res B own S L -> res B own (S ∖ {[i]}) L'.
Proof.
  intros H [H1 ->]. unfold res. rewrite H in H1 |- *. rewrite <- Permutation_middle in H1 |- *. apply NoDup_cons in H1 as [H1 H2].
  split; [done|]. apply set_eq. intros x. rewrite elem_of_difference, elem_of_singleton, !elem_of_list_to_set, elem_of_cons.
  split; [intros [[->|?] ?]; done|]. intros Hx. split; [by right|]. by intros ->.
Qed.

Lemma res_own S f L i : res B own S (f :: L) -> i ∈ own f -> i ∈ S.
Proof. intros [_ ->] Hi. apply elem_of_list_to_set, elem_of_app. right. cbn. apply elem_of_app. by left. Qed.

Lemma res_in S L f i : res B own S L -> f ∈ L -> i ∈ own f -> i ∈ S.
Proof. intros [_ ->] Hf Hi. apply elem_of_list_to_set, elem_of_app. right. apply list_elem_of_bind. by exists f. Qed.

Lemma res_apart S f g L i : res B own S (f :: L) -> g ∈ L -> i ∈ own f -> i ∉ own g.
Proof.
  intros [H _] Hg Hi Hn. apply NoDup_app in H as (_ & _ & H). cbn [mbind list_bind] in H. apply NoDup_app in H as (_ & H & _).
  apply (H i Hi). apply list_elem_of_bind. by exists g.
Qed.

Lemma res_base S f L i : res B own S (f :: L) -> i ∈ own f -> i ∉ B.
Proof.
  intros [H _] Hi Hn. apply NoDup_app in H as (_ & H & _). apply (H i Hn). cbn. apply elem_of_app. by left.
Qed.

Lemma res_nodup S f L : res B own S (f :: L) -> NoDup (own f).
Proof. intros [H _]. apply NoDup_app in H as (_ & _ & H). cbn in H. by apply NoDup_app in H as (H & _). Qed.
End res.

Definition opt (x : option Z) : list Z := match x with Some i => [i] | None => [] end.
Definition own_slots (f : call) : list Z := opt (k_ps f) ++ opt (k_as f) ++ opt (k_vs f).
Definition own_bit (f : call) : list Z := match k_pc f with PTry _ _ => [] | _ => [txn_bit (k_txn f)] end.
Definition own_inf (f : call) : list Z := match k_pc f with PTry _ _ | PMk => [] | _ => [k_inf f] end.
Definition listedb (n : pc) : bool := match n with PAdd | PWait | PIntr | PDone => true | _ => false end.
Definition listed (f : call) : list Z := if listedb (k_pc f) then [k_inf f] else [].

(** Which slots a call can hold at which point. *)
Definition shape (f : call) : Prop :=
  match k_pc f with PTry _ _ => True | _ => 0 < txn_bit (k_txn f) end /\
  (k_ioctl f = false -> k_ps f = None /\ k_as f = None /\ k_vs f = None /\ k_isolate f = 0) /\
  match k_pc f with
  | PTry seed tries => k_ps f = None /\ k_as f = None /\ k_vs f = None /\ k_vmas f = []
  | PMk => k_ps f = None /\ k_as f = None /\ k_vs f = None /\ k_vmas f = []
  | PSlot => k_ioctl f = true /\ k_ps f = None /\ k_as f = None /\ k_vs f = None /\ k_vmas f = []
  | PCopy => k_ioctl f = true /\ is_Some (k_ps f) /\ k_as f = None /\ k_vs f = None
  | ASlot => k_ioctl f = true /\ k_as f = None /\ k_vs f = None
  | ACopy => k_ioctl f = true /\ is_Some (k_as f) /\ k_vs f = None
  | VList | VSlot => k_ioctl f = true /\ k_vs f = None
  | VCopy => k_ioctl f = true /\ is_Some (k_vs f)
  | PBack | ABack => k_ioctl f = true
  | AFree => k_vs f = None
  | PFree => k_as f = None /\ k_vs f = None
  | End => k_ps f = None /\ k_as f = None /\ k_vs f = None
  | _ => True
  end.

(** ** Histories *)

(** The answer to the last message of the record [c]. *)
Definition answer (h : list act) (c : Z) : option (list Z) :=
  fold_left (fun o a => match a with
    | APost d _ => if d =? c then None else o
    | AResp d b => if d =? c then Some b else o
    | _ => o end) h None.

(** What is in the slot of a blob, going by what was copied in and what the host
    has stored over it. *)
Definition seen (h : list act) (c : Z) (w : blob) : list Z :=
  fold_left (fun o a => match a with
    | AIn d v x => if (d =? c) && same_blob v w then x else o
    | AHost d v x => if (d =? c) && same_blob v w then x ++ drop (length x) o else o
    | _ => o end) h [].

Lemma answer_app h a c : answer (h ++ a) c = fold_left (fun o a => match a with
    | APost d _ => if d =? c then None else o
    | AResp d b => if d =? c then Some b else o
    | _ => o end) a (answer h c).
Proof. apply fold_left_app. Qed.

Lemma seen_app h a c w : seen (h ++ a) c w = fold_left (fun o a => match a with
    | AIn d v x => if (d =? c) && same_blob v w then x else o
    | AHost d v x => if (d =? c) && same_blob v w then x ++ drop (length x) o else o
    | _ => o end) a (seen h c w).
Proof. apply fold_left_app. Qed.

(** ** Records *)
Definition fresh_or (b : option (list Z)) (x : inflight) : inflight := match b with Some b => nvkvm_tx_done b x | None => x end.

(** The record of a call, answered by [o]. *)
Definition record (f : call) (o : option (list Z)) : inflight :=
  set_resp (listedb (k_pc f)) (fresh_or o (new_inf (k_txn f) (k_isolate f))).

Definition rec_ok (h : list act) (g : guest) (f : call) : Prop :=
  match k_pc f with
  | PTry _ _ | PMk => True
  | PWait | PIntr =>
      g_heap g !! k_inf f = Some (record f (answer h (k_inf f))) /\
      g_vq g !! k_inf f = match answer h (k_inf f) with Some _ => None | None => Some (message f) end
  | PDone => (exists b, answer h (k_inf f) = Some b /\ g_heap g !! k_inf f = Some (record f (Some b))) /\ g_vq g !! k_inf f = None
  | PBack | ABack =>
      exists b, answer h (k_inf f) = Some b /\ g_heap g !! k_inf f = Some (record f (Some b)) /\ g_vq g !! k_inf f = None /\
        k_ret f = result (k_ioctl f) (record f (Some b))
  | VFree | AFree | PFree | End =>
      exists o, (o = None \/ o = answer h (k_inf f) /\ k_ret f = result (k_ioctl f) (record f o)) /\
        g_heap g !! k_inf f = Some (record f o) /\ g_vq g !! k_inf f = None
  | _ => g_heap g !! k_inf f = Some (record f None) /\ g_vq g !! k_inf f = None
  end.

(** ** Numbers *)
Lemma txn_bit_id seed b : 0 <= b < NVKVM_MAX_INFLIGHT -> txn_bit (txn_id seed b) = b.
Proof.
  intros Hb. unfold txn_bit, txn_id, NVKVM_MAX_INFLIGHT in *. change 0xFFF with (Z.ones 12) in *.
  rewrite Z.land_lor_distr_l. rewrite (Z.land_ones (Z.shiftl _ _)), Z.shiftl_mul_pow2, Z.mod_mul by lia.
  rewrite <- Z.land_assoc, Z.land_diag, Z.land_ones by lia. rewrite Z.lor_0_l. apply Z.mod_small. lia.
Qed.

Lemma txn_slot_range seed tries : 0 <= txn_slot seed tries < NVKVM_MAX_INFLIGHT.
Proof. apply Z.mod_pos_bound. done. Qed.

Lemma find_zero_spec n : forall i b, i <= find_zero n i b <= i + Z.of_nat n /\ (find_zero n i b < i + Z.of_nat n -> find_zero n i b ∉ b).
Proof.
  induction n as [|n IH]; intros i b; cbn [find_zero]; [split; lia|]. case_decide as H.
  - destruct (IH (i + 1) b) as [H1 H2]. split; [lia|]. intros H3. apply H2. lia.
  - split; [lia|done].
Qed.

Lemma shm_slot_alloc_spec b i b' :
  nvkvm_slot_alloc b = (i, b') -> i = - ENOMEM /\ b' = b \/ 1 <= i < NVKVM_SHM_NSLOTS /\ i ∉ b /\ b' = {[i]} ∪ b.
Proof.
  unfold nvkvm_slot_alloc. cbv zeta. destruct (find_zero_spec 255 1 b) as [H1 H2]. unfold NVKVM_SHM_NSLOTS.
  change (1 + Z.of_nat 255) with 256 in *. generalize dependent (find_zero 255 1 b). intros z H1 H2.
  case_if; intros H; injection H as <- <-; zb; [by left|right]. split_and!; [lia|lia| |done]. apply H2. lia.
Qed.

(** Opens one step of a call at each of its points. *)
Ltac at_pc f E H :=
  unfold call_step, nvkvm_txn_id_alloc, inflight_alloc, ioctl_put, nvkvm_send_sync, ioctl_get, inflight_free in H; destruct (k_pc f) eqn:E; cbv beta iota zeta in H; unfold on_inf, copy_in in H.

Ltac steps H := repeat (first [case_if_in H | match type of H with context [match ?x with _ => _ end] => destruct x eqn:? end]).

(** The results of the step. *)
Ltac results H := apply pair_equal_spec in H as [H ?]; apply pair_equal_spec in H as [H ?]; subst.

(** The call's record is there. *)
Definition has_rec (g : guest) (f : call) : Prop := match k_pc f with PTry _ _ | PMk => True | _ => is_Some (g_heap g !! k_inf f) end.

(** *** Shape *)
Lemma step_shape g f e g' fs a : shape f -> has_rec g f -> call_step g f e = (g', fs, a) -> Forall shape fs.
Proof.
  intros (Hb & Hi & Hs) Hr H. unfold has_rec in Hr. at_pc f E H; steps H; try (by destruct Hr); results H; zb;
    repeat (apply Forall_cons; split); try apply Forall_nil_2;
    try done; unfold shape; rewrite ?E; cbn -[txn_bit]; destruct_and?;
    try (repeat split; try done; intros; try (destruct (Hi ltac:(assumption)) as (? & ? & ? & ?)); by try congruence).
  - rewrite txn_bit_id by apply txn_slot_range. pose proof (txn_slot_range seed tries). split_and!; [lia|exact Hi|done..].
  - destruct (Hi eq_refl) as (? & ? & ? & ?). by split_and!.
  - destruct (Hi eq_refl) as (? & ? & ? & ?). by split_and!.
  - destruct (Hi eq_refl) as (? & ? & ? & ?). by split_and!.
Qed.

(** *** Slots *)
Definition slots_ok (g : guest) (L : list call) : Prop :=
  res [0] own_slots (g_slots g) L /\ forall i, i ∈ g_slots g -> 0 <= i < NVKVM_SHM_NSLOTS.

Lemma slots_move g g' L L' : g_slots g' = g_slots g -> L ≫= own_slots ≡ₚ L' ≫= own_slots -> slots_ok g L -> slots_ok g' L'.
Proof. intros E H [H1 H2]. unfold slots_ok. rewrite E. split; [by apply (res_move _ _ _ L)|done]. Qed.

Lemma slots_add g f f' R b i :
  nvkvm_slot_alloc (g_slots g) = (i, b) -> 0 <= i -> own_slots f' ≡ₚ i :: own_slots f -> slots_ok g (f :: R) -> slots_ok (set_slots g b) (f' :: R).
Proof.
  intros Ha Hi H [H1 H2]. apply shm_slot_alloc_spec in Ha as [[-> _]|(Hr & Hn & ->)]; [unfold ENOMEM in Hi; lia|]. split; cbn [set_slots g_slots].
  - apply (res_add _ _ _ _ (f :: R)); [done| |done]. cbn [mbind list_bind]. by rewrite H.
  - intros j. rewrite elem_of_union, elem_of_singleton. intros [->|Hj]; [lia|by apply H2].
Qed.

Lemma slots_del g f f' R i : own_slots f ≡ₚ i :: own_slots f' -> slots_ok g (f :: R) -> slots_ok (set_slots g (nvkvm_slot_free (g_slots g) i)) (f' :: R).
Proof.
  intros H [H1 H2]. split; cbn [set_slots g_slots]; unfold nvkvm_slot_free.
  - apply (res_del _ _ _ _ (f :: R)); [|done]. cbn [mbind list_bind]. by rewrite H.
  - intros j. rewrite elem_of_difference. intros [Hj _]. by apply H2.
Qed.

Lemma step_slots g f e g' fs a R :
  shape f -> has_rec g f -> slots_ok g (f :: R) -> call_step g f e = (g', fs, a) -> slots_ok g' (fs ++ R).
Proof.
  intros (Hb & Hi & Hs) Hr Ho H. unfold has_rec in Hr. at_pc f E H; steps H; try (by destruct Hr); results H; zb; cbn [app];
    try (refine (slots_move _ _ (f :: R) _ eq_refl _ Ho); cbn [mbind list_bind app]; unfold own_slots; cbn;
         rewrite ?(proj1 Hs), ?(proj1 (proj2 Hs)), ?(proj1 (proj2 (proj2 Hs))); done).
  - destruct Hs as (_ & S1 & S2 & S3 & _). apply (slots_add g f _ R _ z Heqp); [done| |done]. unfold own_slots. cbn. by rewrite S1, S2, S3.
  - destruct Hs as (_ & S1 & S2). apply (slots_add g f _ R _ z Heqp); [done| |done]. unfold own_slots. cbn. rewrite S1, S2. cbn.
    rewrite app_nil_r. symmetry. apply Permutation_cons_append.
  - destruct Hs as (_ & S1). apply (slots_add g f _ R _ z Heqp); [done| |done]. unfold own_slots. cbn. rewrite S1. cbn.
    rewrite app_nil_r, app_assoc. symmetry. apply Permutation_cons_append.
  - destruct Hs as (_ & [v S1]). rewrite S1. apply (slots_del g f); [|done]. unfold own_slots. cbn. rewrite S1. cbn.
    rewrite app_nil_r, app_assoc. symmetry. apply Permutation_cons_append.
  - destruct Hs as (_ & [v S1]). rewrite S1. apply (slots_del g f); [|done]. unfold own_slots. cbn. rewrite S1. cbn.
    rewrite app_nil_r, app_assoc. symmetry. apply Permutation_cons_append.
  - apply (slots_del g f); [|done]. unfold own_slots. cbn. rewrite Heqo. cbn. rewrite app_nil_r, app_assoc. symmetry. apply Permutation_cons_append.
  - apply (slots_del g f); [|done]. unfold own_slots. cbn. rewrite Heqo, Hs. cbn. rewrite app_nil_r. symmetry. apply Permutation_cons_append.
  - apply (slots_del g f); [|done]. unfold own_slots. cbn. destruct Hs as [S1 S2]. by rewrite Heqo, S1, S2.
  - destruct Hs as (S1 & S2 & S3). refine (slots_move _ _ (f :: R) _ eq_refl _ Ho). cbn [mbind list_bind]. unfold own_slots at 1. by rewrite S1, S2, S3.
Qed.

(** *** Numbers *)
Lemma bits_del f S R : 0 < txn_bit (k_txn f) -> res [] own_bit S (f :: R) -> own_bit f = [txn_bit (k_txn f)] -> res [] own_bit (nvkvm_txn_id_free S (k_txn f)) R.
Proof.
  intros Hb Ho E. unfold nvkvm_txn_id_free. rewrite (proj2 (Z.eqb_neq _ _)) by lia. apply (res_del _ _ _ _ (f :: R)); [|done].
  cbn [mbind list_bind]. by rewrite E.
Qed.

Lemma step_bits g f e g' fs a R :
  shape f -> has_rec g f -> res [] own_bit (g_txns g) (f :: R) -> call_step g f e = (g', fs, a) -> res [] own_bit (g_txns g') (fs ++ R).
Proof.
  intros (Hb & Hi & Hs) Hr Ho H. unfold has_rec in Hr. at_pc f E H; steps H; try (by destruct Hr); results H; zb; cbn [app];
    cbn [set_txns set_heap set_slots set_list set_vq set_mem set_seed g_txns];
    try (refine (res_move _ _ _ (f :: R) _ _ Ho); cbn [mbind list_bind app]; unfold own_bit; cbn -[txn_bit]; rewrite ?E; done).
  - apply (res_add _ _ _ _ (f :: R)); [by intros Hn; rewrite bool_decide_eq_false in H0| |done].
    cbn [mbind list_bind]. unfold own_bit at 1 3. cbn -[txn_bit]. by rewrite E, txn_bit_id by apply txn_slot_range.
  - apply bits_del; [done|done|]. unfold own_bit. by rewrite E.
  - apply bits_del; [done|done|]. unfold own_bit. by rewrite E.
  - apply bits_del; [done|done|]. unfold own_bit. by rewrite E.
  - apply bits_del; [done|done|]. unfold own_bit. by rewrite E.
Qed.

(** *** Records *)
Lemma step_infs g f e g' fs a R :
  shape f -> has_rec g f -> res [] own_inf (dom (g_heap g)) (f :: R) -> call_step g f e = (g', fs, a) -> res [] own_inf (dom (g_heap g')) (fs ++ R).
Proof.
  intros (Hb & Hi & Hs) Hr Ho H. unfold has_rec in Hr. at_pc f E H; steps H; try (by destruct Hr); results H; zb; cbn [app];
    cbn [set_txns set_heap set_slots set_list set_vq set_mem set_seed g_heap]; rewrite ?dom_insert_lookup_L by done;
    try (refine (res_move _ _ _ (f :: R) _ _ Ho); cbn [mbind list_bind app]; unfold own_inf; cbn; rewrite ?E; done).
  1, 2: rewrite dom_insert_L; apply (res_add _ _ _ _ (f :: R)); [by apply not_elem_of_dom| |done];
    cbn [mbind list_bind]; unfold own_inf at 1 3; cbn; by rewrite E.
  rewrite dom_delete_L. apply (res_del _ _ _ _ (f :: R)); [|done]. cbn [mbind list_bind]. unfold own_inf at 1. by rewrite E.
Qed.

(** *** The list of requests in flight *)
Lemma listed_own f : listed f = [] \/ listed f = own_inf f.
Proof. unfold listed, own_inf. destruct (k_pc f); cbn; auto. Qed.

Lemma filter_kept c (l : list Z) : c ∉ l -> base.filter (fun d => d <> c) l = l.
Proof.
  induction l as [|x l IH]; [done|]. rewrite elem_of_cons. intros H. rewrite filter_cons_True by (intros ->; tauto). f_equal. tauto.
Qed.

Lemma filter_listed (l : list Z) f R (S : gset Z) :
  res [] own_inf S (f :: R) -> own_inf f = [k_inf f] -> l ≡ₚ k_inf f :: (R ≫= listed) -> base.filter (fun c => c <> k_inf f) l ≡ₚ R ≫= listed.
Proof.
  intros Hr Ho Hl. rewrite Hl. rewrite filter_cons_False by (intros Hn; by apply Hn). rewrite filter_kept; [done|]. intros Hc. apply list_elem_of_bind in Hc as (r & Hc & Hin). destruct (listed_own r) as [E|E]; rewrite E in Hc.
  - by apply not_elem_of_nil in Hc.
  - apply (res_apart _ _ _ f r R (k_inf f) Hr Hin); [|done]. rewrite Ho. by left.
Qed.

Lemma step_list g f e g' fs a R :
  has_rec g f -> res [] own_inf (dom (g_heap g)) (f :: R) -> g_list g ≡ₚ (f :: R) ≫= listed -> call_step g f e = (g', fs, a) ->
  g_list g' ≡ₚ (fs ++ R) ≫= listed.
Proof.
  intros Hr Ho Hl H. unfold has_rec in Hr. cbn [mbind list_bind] in Hl. unfold listed at 1 in Hl.
  at_pc f E H; steps H; try (by destruct Hr); results H; zb; cbn [app];
    cbn [set_txns set_heap set_slots set_list set_vq set_mem set_seed g_list mbind list_bind]; try exact Hl;
    unfold listed at 1; cbn [go with_ret k_pc listedb app k_inf]; try (rewrite ?E in Hl; exact Hl).
  1, 2, 5, 6: by rewrite E.
  1: by rewrite <- Permutation_cons_append, Hl.
  all: eapply filter_listed; [exact Ho|unfold own_inf; by rewrite E|done].
Qed.

(** *** What a step leaves alone *)
Lemma step_local g f e g' fs a c :
  call_step g f e = (g', fs, a) -> c ∈ dom (g_heap g) -> c ∉ own_inf f ->
  g_heap g' !! c = g_heap g !! c /\ g_vq g' !! c = g_vq g !! c /\ forall h, answer (h ++ a) c = answer h c.
Proof.
  intros H Hc Hn. unfold own_inf in Hn.
  at_pc f E H; steps H; results H; zb; rewrite ?list_elem_of_singleton in Hn;
    cbn [set_txns set_heap set_slots set_list set_vq set_mem set_seed g_heap g_vq];
    rewrite ?lookup_insert_ne, ?lookup_delete_ne by congruence.
  all: try (split; [done|split; [done|intros h; rewrite answer_app; cbn; try done; by rewrite (proj2 (Z.eqb_neq _ _)) by congruence]]).
  all: rewrite lookup_insert_ne by (intros ->; by apply elem_of_dom in Hc as [? Hc]; congruence);
    split; [done|split; [done|intros h; by rewrite app_nil_r]].
Qed.

Lemma rec_frame h h' g g' f :
  (own_inf f <> [] -> g_heap g' !! k_inf f = g_heap g !! k_inf f /\ g_vq g' !! k_inf f = g_vq g !! k_inf f /\ answer h' (k_inf f) = answer h (k_inf f)) ->
  rec_ok h g f -> rec_ok h' g' f.
Proof.
  intros H. unfold rec_ok, own_inf in *. destruct (k_pc f); try done; destruct (H ltac:(done)) as (-> & -> & E); rewrite ?E; done.
Qed.

Lemma rec_has h g f : rec_ok h g f -> has_rec g f.
Proof. unfold rec_ok, has_rec. destruct (k_pc f); try done; naive_solver. Qed.

Lemma tx_done_resp b r x : nvkvm_tx_done b (set_resp r x) = set_resp r (nvkvm_tx_done b x).
Proof. unfold nvkvm_tx_done. cbv zeta. repeat case_if; done. Qed.

Lemma tx_done_done b x : n_done (nvkvm_tx_done b x) = true.
Proof. unfold nvkvm_tx_done. cbv zeta. repeat case_if; done. Qed.

Lemma record_done f o : n_done (record f o) = match o with Some _ => true | None => false end.
Proof. unfold record. destruct o as [b|]; cbn; [apply tx_done_done|done]. Qed.

Lemma result_resp k r x : result k (set_resp r x) = result k x.
Proof. done. Qed.

Lemma step_recs h g f e g' fs a :
  rec_ok h g f -> (forall c, g_heap g !! c = None -> g_vq g !! c = None) -> call_step g f e = (g', fs, a) -> Forall (rec_ok (h ++ a) g') fs.
Proof.
  intros Hr Hq H. pose proof (rec_has _ _ _ Hr) as Hh. unfold has_rec in Hh. unfold rec_ok in Hr.
  at_pc f E H; steps H; try (by destruct Hh); results H; zb;
    repeat (apply Forall_cons; split); try apply Forall_nil_2; try done; unfold rec_ok; rewrite ?E, ?app_nil_r;
    cbn [go with_ret with_txn with_inf with_slots with_bufs k_pc k_inf k_ret set_txns set_heap set_slots set_list set_vq set_mem set_seed g_heap g_vq].
  all: try exact I; unfold record in *; rewrite ?E in Hr; cbn [listedb fresh_or] in Hr |- *;
    cbn [go with_ret with_txn with_inf with_slots with_bufs k_pc k_inf k_ret k_txn k_isolate k_ioctl listedb fresh_or];
    rewrite ?answer_app; cbn [fold_left].
  all: try exact Hr; try (exists None; split; [by left|exact Hr]); try (rewrite lookup_insert_eq; split; [done|by apply Hq]).
  all: rewrite ?E, ?Z.eqb_refl, ?lookup_insert_eq, ?Heqo; cbn [listedb fresh_or].
  all: try exact Hr.
  all: try (destruct Hr as [Hr Hv]; by (injection Hr as ->) || (by rewrite Hr)).
  - destruct Hr as [Hr Hv]. injection Hr as ->. exists None. split; [by left|done].
  - destruct Hr as [Hr Hv]. injection Hr as ->. destruct (answer h (k_inf f)) as [b|]; [split; [by exists b|done]|done].
  - destruct Hr as [Hr Hv]. injection Hr as ->. destruct (answer h (k_inf f)) as [b|]; [split; [by exists b|done]|done].
  - destruct Hr as [Hr Hv]. injection Hr as ->. destruct (answer h (k_inf f)) as [b|]; [split; [by exists b|done]|done].
  - destruct Hr as [(b & Hb & Hr) Hv]. injection Hr as ->. exists b. rewrite E0. by split_and!.
  - destruct Hr as [(b & Hb & Hr) Hv]. injection Hr as ->. exists (Some b). rewrite E0, Hb. split; [by right|done].
  - destruct Hr as (b & Hb & Hr & Hv & Hk). exists (Some b). rewrite Hb. by split; [right|].
  - destruct Hr as (b & Hb & Hr & Hv & Hk). exists (Some b). rewrite Hb. by split; [right|].
  - destruct Hr as (b & Hb & Hr & Hv & Hk). exists (Some b). rewrite Hb. by split; [right|].
Qed.

(** *** The virtqueue holds the messages of calls that wait *)
Definition waiting (f : call) : bool := match k_pc f with PWait | PIntr => true | _ => false end.
Definition covered (g : guest) (L : list call) : Prop :=
  forall c m, g_vq g !! c = Some m -> exists f, f ∈ L /\ k_inf f = c /\ waiting f = true.

Lemma covered_none g L : covered g L -> res [] own_inf (dom (g_heap g)) L -> forall c, g_heap g !! c = None -> g_vq g !! c = None.
Proof.
  intros Hv [_ Hd] c Hc. destruct (g_vq g !! c) as [m|] eqn:E; [|done]. destruct (Hv c m E) as (f & Hf & Hk & Hw).
  assert (c ∈ dom (g_heap g)) as Hi; [|by apply not_elem_of_dom in Hc].
  rewrite Hd. apply elem_of_list_to_set. cbn. apply list_elem_of_bind. exists f. split; [|done].
  unfold own_inf, waiting in *. rewrite <- Hk. destruct (k_pc f); try done; by left.
Qed.

Lemma covered_cons g f R : covered g (f :: R) -> (waiting f = true -> g_vq g !! k_inf f = None) -> covered g R.
Proof.
  intros H Hn c m Hc. destruct (H c m Hc) as (x & Hx & Hk & Hw). apply elem_of_cons in Hx as [->|Hx]; [|by exists x].
  rewrite <- Hk, (Hn Hw) in Hc. done.
Qed.

Lemma covered_app g fs R : covered g R -> covered g (fs ++ R).
Proof. intros H c m Hc. destruct (H c m Hc) as (x & Hx & Hk). exists x. split; [|done]. apply elem_of_app. by right. Qed.

Lemma covered_vq g g' L : g_vq g' = g_vq g -> covered g L -> covered g' L.
Proof. unfold covered. by intros ->. Qed.

Lemma covered_swap g f f' R : k_inf f' = k_inf f -> waiting f' = true -> covered g (f :: R) -> covered g (f' :: R).
Proof.
  intros Hk Hw H c m Hc. destruct (H c m Hc) as (x & Hx & Hkx & Hwx). apply elem_of_cons in Hx as [->|Hx].
  - exists f'. split; [by left|]. by rewrite Hk.
  - exists x. split; [by right|done].
Qed.

Lemma covered_post g f f' R m :
  k_inf f' = k_inf f -> waiting f' = true -> covered g (f :: R) -> covered (set_vq g (<[k_inf f := m]> (g_vq g))) (f' :: R).
Proof.
  intros Hk Hw H c x. cbn [set_vq g_vq]. rewrite lookup_insert_Some. intros [[<- _]|[_ Hc]].
  - exists f'. split; [by left|done].
  - by apply (covered_swap g f f' R Hk Hw H c x).
Qed.

Lemma step_covered h g f e g' fs a R :
  rec_ok h g f -> covered g (f :: R) -> call_step g f e = (g', fs, a) -> covered g' (fs ++ R).
Proof.
  intros Hr Hc H. pose proof (rec_has _ _ _ Hr) as Hh. unfold has_rec in Hh. unfold rec_ok in Hr.
  at_pc f E H; steps H; try (by destruct Hh); results H; zb;
    try (apply covered_app; (refine (covered_vq _ _ _ eq_refl (covered_cons _ f _ Hc _))); unfold waiting; by rewrite E).
  - by apply (covered_post _ f).
  - by apply (covered_post _ f).
  - apply covered_app, (covered_cons _ f _ Hc). intros _. destruct Hr as [Hr ->]. apply (inj Some) in Hr.
    assert (n_done i = true) as Hd by assumption. rewrite Hr, record_done in Hd. by destruct (answer h (k_inf f)).
  - apply (covered_app _ [_]), (covered_vq g _ _ eq_refl). apply (covered_swap _ f); [done|done|exact Hc].
  - apply covered_app, (covered_cons _ f _ Hc). intros _. destruct Hr as [Hr ->]. apply (inj Some) in Hr.
    assert (n_done i = true) as Hd by assumption. rewrite Hr, record_done in Hd. by destruct (answer h (k_inf f)).
  - exact Hc.
  - apply covered_app, (covered_cons _ f _ Hc). intros _. destruct Hr as [Hr ->]. apply (inj Some) in Hr.
    assert (n_done i = true) as Hd by assumption. rewrite Hr, record_done in Hd. by destruct (answer h (k_inf f)).
  - exact Hc.
Qed.

End GuestInv.
