(* ===== verification/GuestSafe.v ===== *)
(** * GuestSafe: the guest's transport is safe, keeps blobs apart and does not leak

    The contents of the slots, and the theorems about the model of [GuestTx]. *)
From stdpp Require Import gmap.
From S2P Require Import Prelude Bytes Abi GuestTx GuestInv.

Module GuestSafe.
Import GuestTx GuestInv.

(** ** What is in a slot *)

(** The slots fit into the region, and a white list fits into a slot. *)
Definition conf (g : guest) : Prop :=
  24 * Z.of_nat NVKVM_MAX_VMA_ENTRIES <= g_slot_size g /\ g_slot_size g * NVKVM_SHM_NSLOTS <= arr_len (g_mem g).

Definition content (g : guest) (i : Z) (n : nat) : list Z := take n (drop (Z.to_nat (i * g_slot_size g)) (g_mem g)).

Lemma content_length g i n :
  conf g -> 0 <= i < NVKVM_SHM_NSLOTS -> Z.of_nat n <= g_slot_size g -> length (content g i n) = n.
Proof.
  intros [Hv Hc] Hi Hn. unfold content, NVKVM_SHM_NSLOTS, arr_len, NVKVM_MAX_VMA_ENTRIES in *. rewrite length_take, length_drop.
  assert (i * g_slot_size g + g_slot_size g <= g_slot_size g * 256) by nia. lia.
Qed.

Lemma content_put g i n d :
  conf g -> 0 <= i < NVKVM_SHM_NSLOTS -> Z.of_nat n <= g_slot_size g -> (length d <= n)%nat ->
  content (set_mem g (wr (i * g_slot_size g) d (g_mem g))) i n = d ++ drop (length d) (content g i n).
Proof.
  intros Hf Hi Hn Hd. pose proof Hf as [Hv Hc]. unfold content. cbn [set_mem g_mem g_slot_size]. unfold wr, NVKVM_SHM_NSLOTS, arr_len, NVKVM_MAX_VMA_ENTRIES in *.
  assert (i * g_slot_size g + g_slot_size g <= g_slot_size g * 256) by nia.
  rewrite drop_app_ge by (rewrite length_take; lia). rewrite length_take.
  replace (Z.to_nat (i * g_slot_size g) - _)%nat with 0%nat by lia. rewrite drop_0.
  rewrite take_app_ge by lia. f_equal. rewrite <- drop_drop. rewrite skipn_firstn_comm. done.
Qed.

Lemma content_apart g i j n d :
  conf g -> 0 <= i < NVKVM_SHM_NSLOTS -> 0 <= j < NVKVM_SHM_NSLOTS -> i <> j -> Z.of_nat n <= g_slot_size g -> arr_len d <= g_slot_size g ->
  content (set_mem g (wr (j * g_slot_size g) d (g_mem g))) i n = content g i n.
Proof.
  intros [Hv Hc] Hi Hj Hne Hn Hd. unfold content. cbn [set_mem g_mem g_slot_size]. unfold NVKVM_SHM_NSLOTS, NVKVM_MAX_VMA_ENTRIES in *.
  apply list_eq. intros k. destruct (decide (k < n)%nat); [|by rewrite !lookup_take_ge by lia].
  rewrite !lookup_take_lt, !lookup_drop by done.
  assert (j * g_slot_size g + g_slot_size g <= g_slot_size g * 256) by nia.
  assert (i * g_slot_size g + g_slot_size g <= j * g_slot_size g \/ j * g_slot_size g + g_slot_size g <= i * g_slot_size g) as Ho.
  { destruct (Z.lt_ge_cases i j); [left|right]; nia. }
  replace (Z.to_nat (i * g_slot_size g) + k)%nat with (Z.to_nat (i * g_slot_size g + Z.of_nat k)) by nia.
  apply lookup_wr_out; nia.
Qed.

Lemma conf_put g i d :
  conf g -> 0 <= i < NVKVM_SHM_NSLOTS -> arr_len d <= g_slot_size g -> conf (set_mem g (wr (i * g_slot_size g) d (g_mem g))).
Proof.
  intros [Hv Hc] Hi Hd. split; [done|]. cbn [set_mem g_mem g_slot_size]. unfold arr_len, NVKVM_SHM_NSLOTS, NVKVM_MAX_VMA_ENTRIES in *.
  rewrite wr_length; [done|nia|]. unfold arr_len.
  assert (i * g_slot_size g + g_slot_size g <= g_slot_size g * 256) by nia. lia.
Qed.

(** ** The blobs of a call *)
Definition p_in (n : pc) : bool :=
  match n with ASlot | ACopy | VList | VSlot | VCopy | PSend | PAdd | PWait | PIntr | PDone | PBack => true | _ => false end.
Definition a_in (n : pc) : bool :=
  match n with VList | VSlot | VCopy | PSend | PAdd | PWait | PIntr | PDone | PBack | ABack => true | _ => false end.

(** The slot and the size of a blob that has been copied in. *)
Definition held (f : call) (w : blob) : option (Z * nat) :=
  match w with
  | BParam => if p_in (k_pc f) then i ← k_ps f; Some (i, length (k_p f)) else None
  | BAux => if a_in (k_pc f) then i ← k_as f; Some (i, length (k_a f)) else None
  | BVmas => None
  end.

(** The blobs fit; before that is checked, nothing is copied. *)
Definition sized (ss : Z) (f : call) : Prop :=
  arr_len (k_vmas f) <= 24 * Z.of_nat NVKVM_MAX_VMA_ENTRIES /\
  match k_pc f with
  | PTry _ _ | PMk | PSlot | VFree | AFree | PFree | End => True
  | _ => k_ioctl f = true -> arr_len (k_p f) <= ss /\ arr_len (k_a f) <= ss
  end.

Definition mem_ok (h : list act) (g : guest) (f : call) : Prop :=
  forall w i n, held f w = Some (i, n) -> content g i n = seen h (k_inf f) w.

Lemma held_own f w i n : held f w = Some (i, n) -> i ∈ own_slots f.
Proof.
  unfold held, own_slots. intros H. destruct w; try done; case_if_in H; try done.
  - destruct (k_ps f) as [x|]; [|done]. injection H as -> _. apply elem_of_app. left. by left.
  - destruct (k_as f) as [x|]; [|done]. injection H as -> _. apply elem_of_app. right. apply elem_of_app. left. by left.
Qed.

Lemma held_inf f w x : held f w = Some x -> own_inf f = [k_inf f].
Proof. unfold held, own_inf. destruct w, (k_pc f); done. Qed.

Lemma held_sized ss f w i n : shape f -> sized ss f -> held f w = Some (i, n) -> Z.of_nat n <= ss.
Proof.
  intros (_ & Hi & _) [_ Hs] H. unfold held in H. destruct (k_ioctl f) eqn:Ek.
  - destruct w; [| |done]; (destruct (k_pc f); try done); destruct (Hs eq_refl);
      first [destruct (k_ps f); [|done]; by injection H as _ <- | destruct (k_as f); [|done]; by injection H as _ <-].
  - destruct (Hi eq_refl) as (E1 & E2 & _). rewrite E1, E2 in H. destruct w; try done; by destruct (k_pc f).
Qed.

Lemma vma_bytes_len l : arr_len (vma_bytes l) <= 24 * Z.of_nat NVKVM_MAX_VMA_ENTRIES.
Proof.
  unfold vma_bytes, arr_len. set (l' := take _ l). assert (length l' <= NVKVM_MAX_VMA_ENTRIES)%nat by (unfold l'; rewrite length_take; lia).
  assert (forall m : list (Z * Z * Z), length (concat ((fun v : Z * Z * Z => let '(b, e, pr) := v in le_bytes 8 b ++ le_bytes 8 e ++ le_bytes 4 pr ++ le_bytes 4 0) <$> m)) = 24 * length m)%nat as Hm.
  { induction m as [|[[b e] pr] m IH]; [done|]. cbn [fmap list_fmap concat length]. rewrite length_app, IH, !length_app, !le_bytes_length. lia. }
  rewrite Hm. unfold NVKVM_MAX_VMA_ENTRIES in *. lia.
Qed.

Lemma step_sized g f e g' fs a :
  conf g -> has_rec g f -> sized (g_slot_size g) f -> call_step g f e = (g', fs, a) -> Forall (sized (g_slot_size g)) fs.
Proof.
  intros Hc Hr [Hv Hs] H. unfold has_rec in Hr. at_pc f E H; steps H; try (by destruct Hr); results H; zb;
    repeat (apply Forall_cons; split); try apply Forall_nil_2; unfold sized; cbn [go with_ret with_txn with_inf with_slots with_bufs k_pc k_vmas k_ioctl k_p k_a control];
    rewrite ?E; try done; split; try done.
  - by rewrite E1.
  - rewrite <- Heql0. apply vma_bytes_len.
  - rewrite E0. exact Hs.
  - intros Hk. destruct (Hs Hk). split; [|done]. unfold copy_out, arr_len in *. rewrite length_take. lia.
Qed.

(** A step does not touch what other calls hold. *)
Lemma step_config g f e g' fs a : call_step g f e = (g', fs, a) -> g_slot_size g' = g_slot_size g /\ g_base g' = g_base g /\ g_ready g' = g_ready g.
Proof. intros H. at_pc f E H; steps H; by results H. Qed.

(** What a step writes: nothing, or one blob into a slot of its own. *)
Definition writes (g g' : guest) (f : call) (a : list act) : Prop :=
  g_mem g' = g_mem g /\ (forall c w d, AIn c w d ∉ a) /\ (forall c w d, AHost c w d ∉ a) \/
  exists w i d, i ∈ own_slots f /\ g_mem g' = wr (i * g_slot_size g) d (g_mem g) /\ a = [AIn (k_inf f) w d] /\ arr_len d <= g_slot_size g /\
    own_inf f = [k_inf f].

Lemma writes_in g f w i d z :
  nvkvm_slot_addr g i = Some z -> i ∈ own_slots f -> arr_len d <= g_slot_size g -> own_inf f = [k_inf f] ->
  writes g (set_mem g (wr z d (g_mem g))) f ([] ++ [AIn (k_inf f) w d]).
Proof.
  intros Hz Hi Hd Ho. right. exists w, i, d. unfold nvkvm_slot_addr in Hz. case_if_in Hz; [done|]. injection Hz as <-. by split_and!.
Qed.

Lemma step_writes g f e g' fs a :
  conf g -> shape f -> sized (g_slot_size g) f -> has_rec g f -> call_step g f e = (g', fs, a) -> writes g g' f a.
Proof.
  intros Hc (_ & Hi & Hs) [Hv Hz] Hr H. unfold has_rec in Hr. at_pc f E H; steps H; try (by destruct Hr); results H; zb;
    try (left; split; [done|split; intros; rewrite ?list_elem_of_singleton; try done; by apply not_elem_of_nil]).
  - exfalso. destruct Hs as [Hk _]. destruct (Hz Hk). lia.
  - destruct Hs as (Hk & [i Hi'] & _). rewrite Hi' in Heqo. destruct (Hz Hk). apply (writes_in _ f BParam i (k_p f)); [done| |done|by unfold own_inf; rewrite E].
    unfold own_slots. rewrite Hi'. by left.
  - exfalso. destruct Hs as [Hk _]. destruct (Hz Hk). lia.
  - destruct Hs as (Hk & [i Hi'] & _). rewrite Hi' in Heqo. destruct (Hz Hk). apply (writes_in _ f BAux i (k_a f)); [done| |done|by unfold own_inf; rewrite E].
    unfold own_slots. rewrite Hi'. apply elem_of_app. right. by left.
  - exfalso. destruct Hc. lia.
  - destruct Hs as (Hk & [i Hi']). rewrite Hi' in Heqo. apply (writes_in _ f BVmas i (k_vmas f)); [done| |lia|by unfold own_inf; rewrite E].
    unfold own_slots. rewrite Hi'. apply elem_of_app. right. apply elem_of_app. right. by left.
Qed.

Lemma seen_quiet h a c w : (forall c w d, AIn c w d ∉ a) -> (forall c w d, AHost c w d ∉ a) -> seen (h ++ a) c w = seen h c w.
Proof.
  intros H1 H2. rewrite seen_app. generalize (seen h c w). induction a as [|x a IH]; intros o; [done|]. cbn [fold_left].
  setoid_rewrite elem_of_cons in H1. setoid_rewrite elem_of_cons in H2.
  destruct x; try (apply IH; naive_solver); exfalso; [eapply H1|eapply H2]; by left.
Qed.

Lemma seen_other h c c' w w' d : c' <> c -> seen (h ++ [AIn c' w' d]) c w = seen h c w.
Proof. intros H. rewrite seen_app. cbn. by rewrite (proj2 (Z.eqb_neq _ _) H). Qed.

Lemma own_range g f R i : slots_ok g (f :: R) -> i ∈ own_slots f -> 0 <= i < NVKVM_SHM_NSLOTS.
Proof. intros [H1 H2] Hi. apply H2. exact (res_own _ _ _ f R i H1 Hi). Qed.

Lemma slots_in g L r : slots_ok g L -> r ∈ L -> exists R, slots_ok g (r :: R) /\ L ≡ₚ r :: R.
Proof.
  intros H Hr. apply elem_of_Permutation in Hr as [R HR]. exists R. split; [|done]. destruct H as [H1 H2]. split; [|done].
  apply (res_move _ _ _ L); [|done]. by apply bind_perm.
Qed.

(** Another call's blobs stay as they are. *)
Lemma mem_frame h g g' f a r R :
  conf g -> slots_ok g (f :: R) -> res [] own_inf (dom (g_heap g)) (f :: R) -> r ∈ R -> shape r -> sized (g_slot_size g) r ->
  g_slot_size g' = g_slot_size g -> writes g g' f a -> mem_ok h g r -> mem_ok (h ++ a) g' r.
Proof.
  intros Hc Ho Hi Hr Hsh Hsz Hss [(Hm & H1 & H2)|(w' & j & d & Hj & Hm & -> & Hd & Hf)] Hok w i n Hh.
  - rewrite seen_quiet by done. rewrite <- (Hok w i n Hh). unfold content. by rewrite Hm, Hss.
  - pose proof (held_own r w i n Hh) as Hi'. assert (i <> j) as Hne.
    { intros ->. by apply (res_apart _ _ _ f r R j (proj1 Ho) Hr Hj). }
    assert (k_inf f <> k_inf r) as Hnk.
    { intros E. apply (res_apart _ _ _ f r R (k_inf f) Hi Hr); [rewrite Hf; by left|]. rewrite (held_inf r w _ Hh), E. by left. }
    rewrite seen_other by done. rewrite <- (Hok w i n Hh).
    assert (0 <= i < NVKVM_SHM_NSLOTS).
    { destruct (slots_in g (f :: R) r Ho ltac:(by right)) as (R' & Ho' & _). by apply (own_range g r R'). }
    pose proof (held_sized _ r w i n Hsh Hsz Hh). pose proof (own_range g f R j Ho Hj).
    rewrite <- (content_apart g i j n d) by done. unfold content. cbn [set_mem g_mem g_slot_size]. by rewrite Hm, Hss.
Qed.

(** A call's own blobs, when it writes nothing. *)
Lemma mem_keep h g g' f f' a :
  g_mem g' = g_mem g -> g_slot_size g' = g_slot_size g -> (forall c w d, AIn c w d ∉ a) -> (forall c w d, AHost c w d ∉ a) ->
  (forall w x, held f' w = Some x -> held f w = Some x /\ k_inf f' = k_inf f) -> mem_ok h g f -> mem_ok (h ++ a) g' f'.
Proof.
  intros Hm Hs H1 H2 Hh Hok w i n H. destruct (Hh w _ H) as [Hf ->]. rewrite seen_quiet by done. rewrite <- (Hok w i n Hf).
  unfold content. by rewrite Hm, Hs.
Qed.

(** The blob that was just copied, and the others. *)
Lemma content_new g i d : conf g -> 0 <= i < NVKVM_SHM_NSLOTS -> arr_len d <= g_slot_size g ->
  content (set_mem g (wr (i * g_slot_size g) d (g_mem g))) i (length d) = d.
Proof.
  intros Hc Hi Hd. rewrite content_put by (unfold arr_len in *; done || lia). rewrite drop_ge; [apply app_nil_r|].
  rewrite content_length by (unfold arr_len in *; done). done.
Qed.

Lemma mem_old h g f w0 j d w i n :
  conf g -> mem_ok h g f -> held f w = Some (i, n) -> same_blob w0 w = false -> i <> j -> arr_len d <= g_slot_size g ->
  0 <= i < NVKVM_SHM_NSLOTS -> 0 <= j < NVKVM_SHM_NSLOTS -> Z.of_nat n <= g_slot_size g ->
  content (set_mem g (wr (j * g_slot_size g) d (g_mem g))) i n = seen (h ++ [AIn (k_inf f) w0 d]) (k_inf f) w.
Proof.
  intros Hc Hok Hh Hw Hne Hd Hi Hj Hn. rewrite content_apart by done. rewrite seen_app. cbn. rewrite Hw, andb_false_r. by apply Hok.
Qed.

Lemma slot_addr_eq g i z : nvkvm_slot_addr g i = Some z -> z = i * g_slot_size g.
Proof. unfold nvkvm_slot_addr. intros H. case_if_in H; [done|]. by injection H. Qed.

Lemma seen_in h c w d : seen (h ++ [AIn c w d]) c w = d.
Proof. rewrite seen_app. cbn. rewrite Z.eqb_refl. by destruct w. Qed.

Lemma step_mem h g f e g' fs a R :
  conf g -> slots_ok g (f :: R) -> shape f -> sized (g_slot_size g) f -> has_rec g f -> mem_ok h g f ->
  call_step g f e = (g', fs, a) -> Forall (mem_ok (h ++ a) g') fs.
Proof.
  intros Hc Ho Hsh Hsz Hr Hok H. pose proof (fun i => own_range g f R i Ho) as Hrg.
  pose proof (fun w i n => held_sized (g_slot_size g) f w i n Hsh Hsz) as Hhs. pose proof (res_nodup _ _ _ _ _ (proj1 Ho)) as Hnd.
  destruct Hsh as (Hb & Hi & Hs). destruct Hsz as [Hv Hz]. unfold has_rec in Hr.
  at_pc f E H; steps H; try (by destruct Hr); results H; zb;
    repeat (apply Forall_cons; split); try apply Forall_nil_2;
    try (by intros w i n Hx; destruct w);
    try (refine (mem_keep h _ _ f _ _ eq_refl eq_refl _ _ _ Hok);
      [intros; rewrite ?list_elem_of_singleton; try done; by apply not_elem_of_nil..|
       intros w x Hx; split; [|done]; destruct w; unfold held in *; cbn in Hx |- *; rewrite ?E; cbn; done]).
  - by rewrite app_nil_r.
  - by rewrite app_nil_r.
  - destruct Hs as (S1 & S2 & _). intros w i n Hx. unfold held in Hx. cbn in Hx. rewrite S1, S2 in Hx. by destruct w.
  - destruct Hs as (_ & S1 & S2 & _). intros w i n Hx. unfold held in Hx. cbn in Hx. rewrite S1 in Hx. by destruct w.
  - exfalso. destruct Hs as [Hk _]. destruct (Hz Hk). lia.
  - destruct Hs as (Hk & [j S1] & S2 & _). destruct (Hz Hk). rewrite S1 in Heqo. apply slot_addr_eq in Heqo as ->.
    intros w i n Hx. unfold held in Hx. cbn in Hx. rewrite S1 in Hx. destruct w; try done. injection Hx as <- <-. rewrite app_nil_l, seen_in.
    apply content_new; [done| |done]. apply Hrg. unfold own_slots. rewrite S1. by left.
  - destruct Hs as (Hk & S1 & S2). rewrite app_nil_r. intros w i n Hx. unfold held in Hx. cbn in Hx. rewrite S1 in Hx. destruct w; try done.
    apply Hok. unfold held. by rewrite E.
  - destruct Hs as (Hk & S1 & S2). rewrite app_nil_r. intros w i n Hx. unfold held in Hx. cbn in Hx. rewrite S1 in Hx. destruct w; try done.
    apply Hok. unfold held. by rewrite E.
  - exfalso. destruct Hs as [Hk _]. destruct (Hz Hk). lia.
  - destruct Hs as (Hk & [j S1] & _). destruct (Hz Hk). rewrite S1 in Heqo. apply slot_addr_eq in Heqo as ->.
    assert (j ∈ own_slots f) as Hj by (unfold own_slots; rewrite S1; apply elem_of_app; right; by left).
    intros w i n Hx. rewrite app_nil_l. unfold held in Hx. cbn in Hx. destruct w; [| |done].
    + assert (held f BParam = Some (i, n)) as Hh by (unfold held; by rewrite E).
      apply (mem_old h g f BAux j (k_a f) BParam i n); try done; [|by apply Hrg, (held_own f BParam i n)|by apply Hrg|by apply (Hhs BParam i)].
      intros ->. unfold own_slots in Hnd. rewrite S1 in Hnd. destruct (k_ps f) as [i|]; [|done]. injection Hx as -> _.
      apply NoDup_cons in Hnd as [Hnd _]. apply Hnd. by left.
    + rewrite S1 in Hx. injection Hx as <- <-. rewrite seen_in. apply content_new; [done|by apply Hrg|done].
  - exfalso. destruct Hc. lia.
  - destruct Hs as (Hk & [j S1]). destruct (Hz Hk). rewrite S1 in Heqo. apply slot_addr_eq in Heqo as ->.
    assert (j ∈ own_slots f) as Hj by (unfold own_slots; rewrite S1; apply elem_of_app; right; apply elem_of_app; right; by left).
    intros w i n Hx. rewrite app_nil_l. assert (held f w = Some (i, n)) as Hh by (unfold held in *; cbn in Hx; by rewrite E).
    assert (arr_len (k_vmas f) <= g_slot_size g) by (destruct Hc; lia).
    apply (mem_old h g f BVmas j (k_vmas f) w i n); try done; [by destruct w| |by apply Hrg, (held_own f w i n)|by apply Hrg|by apply (Hhs w i)].
    intros ->. unfold held in Hh. rewrite E in Hh. cbn in Hh. unfold own_slots in Hnd. rewrite S1 in Hnd.
    apply NoDup_app in Hnd as (_ & Hn1 & Hnd). apply NoDup_app in Hnd as (_ & Hn2 & _). destruct w; [| |done].
    + destruct (k_ps f) as [i|]; [|done]. injection Hh as -> _. apply (Hn1 j); [by left|]. apply elem_of_app. right. by left.
    + destruct (k_as f) as [i|]; [|done]. injection Hh as -> _. apply (Hn2 j); by left.
  - intros w j n Hx. by destruct w.
  - by rewrite app_nil_r.
  - by rewrite app_nil_r.
Qed.

(** ** What may happen *)
Definition act_ok (h : list act) (a : act) : Prop :=
  match a with
  | AStray _ | AWild _ _ => False
  | AOut c w d => d = seen h c w
  | ARet k c txn r (Some x) => n_done x = true -> exists b iso, answer h c = Some b /\ r = result k (nvkvm_tx_done b (new_inf txn iso))
  | _ => True
  end.

Lemma step_acts h g f e g' fs a R :
  conf g -> slots_ok g (f :: R) -> shape f -> sized (g_slot_size g) f -> rec_ok h g f -> mem_ok h g f ->
  call_step g f e = (g', fs, a) -> a = [] \/ exists x, a = [x] /\ act_ok h x.
Proof.
  intros Hc Ho Hsh Hsz Hr Hok H. pose proof (rec_has _ _ _ Hr) as Hh. pose proof (step_writes _ _ _ _ _ _ Hc Hsh Hsz Hh H) as Hw.
  unfold has_rec in Hh. unfold rec_ok in Hr.
  at_pc f E H; steps H; try (by destruct Hh); results H; try (by left); try (right; eexists; split; [reflexivity|done]).
  - exfalso. destruct Hw as [(_ & Hn & _)|(? & ? & ? & _ & _ & Hw & _)]; [|done]. eapply Hn. right. by left.
  - exfalso. destruct Hw as [(_ & Hn & _)|(? & ? & ? & _ & _ & Hw & _)]; [|done]. eapply Hn. right. by left.
  - exfalso. destruct Hw as [(_ & Hn & _)|(? & ? & ? & _ & _ & Hw & _)]; [|done]. eapply Hn. right. by left.
  - right. eexists. split; [reflexivity|]. apply slot_addr_eq in Heqo0 as ->. apply (Hok BParam). unfold held. by rewrite E, Heqo.
  - right. eexists. split; [reflexivity|]. apply slot_addr_eq in Heqo0 as ->. apply (Hok BAux). unfold held. by rewrite E, Heqo.
  - right. eexists. split; [reflexivity|]. destruct Hr as (o & Hk & Hr & _). rewrite Hr. cbn [act_ok]. rewrite record_done. destruct o as [b|]; [|done].
    destruct Hk as [|[Hb Hk]]; [done|]. intros _. exists b, (k_isolate f). split; [done|exact Hk].
Qed.

(** ** All threads *)
Definition calls (s : sys) : list call := concat (snd <$> map_to_list (th s)).

Record ok (h : list act) (g : guest) (L : list call) : Prop := {
  ok_conf : conf g;
  ok_slots : slots_ok g L;
  ok_bits : res [] own_bit (g_txns g) L;
  ok_infs : res [] own_inf (dom (g_heap g)) L;
  ok_list : g_list g ≡ₚ L ≫= listed;
  ok_vq : covered g L;
  ok_each : Forall (fun f => shape f /\ sized (g_slot_size g) f /\ rec_ok h g f /\ mem_ok h g f) L }.

Lemma ok_perm h g L L' : L ≡ₚ L' -> ok h g L -> ok h g L'.
Proof.
  intros HL [H1 H2 H3 H4 H5 H6 H7]. constructor; try done.
  - by apply (slots_move g _ L); [done|by apply bind_perm|].
  - by apply (res_move _ _ _ L); [apply bind_perm|].
  - by apply (res_move _ _ _ L); [apply bind_perm|].
  - rewrite H5. by apply bind_perm.
  - intros c m Hc. destruct (H6 c m Hc) as (f & Hf & Hk). exists f. by rewrite <- HL.
  - by rewrite <- HL.
Qed.

Lemma step_ok h g f e g' fs a R : ok h g (f :: R) -> call_step g f e = (g', fs, a) -> ok (h ++ a) g' (fs ++ R).
Proof.
  intros [H1 H2 H3 H4 H5 H6 H7] H. apply Forall_cons in H7 as [(F1 & F2 & F3 & F4) H7].
  pose proof (rec_has _ _ _ F3) as Hh. destruct (step_config _ _ _ _ _ _ H) as (E1 & E2 & E3).
  pose proof (step_writes _ _ _ _ _ _ H1 F1 F2 Hh H) as Hw. constructor.
  - destruct Hw as [(Hm & _)|(w & i & d & Hi & Hm & _ & Hd & _)].
    + unfold conf. by rewrite E1, Hm.
    + pose proof (conf_put g i d H1 (own_range g f R i H2 Hi) Hd) as Hp. unfold conf in *. cbn [set_mem g_slot_size g_mem] in Hp. by rewrite E1, Hm.
  - by eapply step_slots.
  - by eapply step_bits.
  - by eapply step_infs.
  - by eapply step_list.
  - by eapply step_covered.
  - apply Forall_app. split.
    + pose proof (step_shape _ _ _ _ _ _ F1 Hh H) as G1. pose proof (step_sized _ _ _ _ _ _ H1 Hh F2 H) as G2.
      pose proof (step_recs h _ _ _ _ _ _ F3 (covered_none _ _ H6 H4) H) as G3. pose proof (step_mem h _ _ _ _ _ _ R H1 H2 F1 F2 Hh F4 H) as G4.
      rewrite Forall_forall in *. intros x Hx. rewrite E1. auto.
    + rewrite Forall_forall in *. intros r Hr. destruct (H7 r Hr) as (R1 & R2 & R3 & R4). rewrite E1. split_and!; [done|done| |by eapply mem_frame].
      apply (rec_frame h _ g); [|done]. intros Hn.
      assert (own_inf r = [k_inf r]) as Ho by (unfold own_inf in *; by destruct (k_pc r)).
      destruct (step_local _ _ _ _ _ _ (k_inf r) H) as (L1 & L2 & L3).
      * apply (res_in _ _ _ (f :: R) r _ H4); [by right|]. rewrite Ho. by left.
      * intros Hi. apply (res_apart _ _ _ f r R _ H4 Hr Hi). rewrite Ho. by left.
      * by rewrite L3.
Qed.

(** *** The stacks of the threads *)
Lemma calls_lookup s x st : th s !! x = Some st -> calls s ≡ₚ st ++ calls (Sys (sh s) (delete x (th s))).
Proof. intros H. unfold calls. cbn [th]. by rewrite <- (insert_delete_id (th s) x st H) at 1; rewrite map_to_list_insert by apply lookup_delete_eq. Qed.

Lemma calls_insert g t x st : t !! x = None -> calls (Sys g (<[x := st]> t)) ≡ₚ st ++ calls (Sys g t).
Proof. intros H. unfold calls. cbn [th]. by rewrite map_to_list_insert. Qed.

Lemma calls_put g t x st : calls (Sys g (match st with [] => delete x t | c :: l => <[x := c :: l]> t end)) ≡ₚ st ++ calls (Sys g (delete x t)).
Proof.
  destruct st as [|f st]; [done|]. rewrite <- (insert_delete_eq t x). rewrite calls_insert by apply lookup_delete_eq. done.
Qed.

(** A call that starts owns nothing. *)
Lemma begin_ok h g n f L :
  (own_slots f = [] /\ shape f /\ sized (g_slot_size g) f /\ exists seed, k_pc f = PTry seed 0) -> ok h g L -> ok h (set_seed g n) (f :: L).
Proof.
  intros (Ho & Hs & Hz & seed & Hp) [H1 H2 H3 H4 H5 H6 H7].
  assert (own_bit f = [] /\ own_inf f = [] /\ listed f = []) as (O1 & O2 & O3) by (unfold own_bit, own_inf, listed; by rewrite Hp).
  constructor; try done.
  - refine (slots_move g _ L _ eq_refl _ H2). cbn [mbind list_bind]. by rewrite Ho.
  - refine (res_move _ _ _ L _ _ H3). cbn [mbind list_bind]. by rewrite O1.
  - refine (res_move _ _ _ L _ _ H4). cbn [mbind list_bind]. by rewrite O2.
  - cbn [mbind list_bind]. rewrite O3. exact H5.
  - by apply (covered_app _ [_]).
  - apply Forall_cons. split.
    + split_and!; [done|done|unfold rec_ok; by rewrite Hp|]. intros w i k Hh. unfold held in Hh. rewrite Hp in Hh. by destruct w.
    + eapply Forall_impl; [exact H7|]. intros r (R1 & R2 & R3 & R4). split_and!; [done|done| |done].
      by apply (rec_frame h h g).
Qed.

(** *** The host *)
Lemma waiting_own f : waiting f = true -> own_inf f = [k_inf f] /\ listedb (k_pc f) = true.
Proof. unfold waiting, own_inf. by destruct (k_pc f). Qed.

Lemma host_answers h g L c m b :
  ok h g L -> g_vq g !! c = Some m ->
  exists x, g_heap g !! c = Some x /\ n_resp x = true /\
    ok (h ++ [AResp c b]) (set_heap (set_vq g (delete c (g_vq g))) (<[c := nvkvm_tx_done b x]> (g_heap g))) L.
Proof.
  intros [H1 H2 H3 H4 H5 H6 H7] Hc. destruct (H6 c m Hc) as (f & Hf & Hk & Hw). destruct (waiting_own f Hw) as [Ho Hl].
  rewrite Forall_forall in H7. destruct (H7 f Hf) as (F1 & F2 & F3 & F4).
  assert (answer h c = None /\ g_heap g !! c = Some (record f None)) as [Ha Hh].
  { unfold rec_ok, waiting in *. destruct (k_pc f); try done; rewrite Hk in F3; destruct F3 as [F3 F5]; rewrite F5 in Hc;
      destruct (answer h c); done. }
  exists (record f None). split_and!; [done|by unfold record; rewrite Hl|]. constructor; try done.
  - cbn [set_heap g_heap]. by rewrite dom_insert_lookup_L by done.
  - intros d m' Hd. cbn [set_heap set_vq g_vq] in Hd. apply lookup_delete_Some in Hd as [_ Hd]. by apply (H6 d m').
  - apply Forall_forall. intros r Hr. destruct (H7 r Hr) as (R1 & R2 & R3 & R4). split_and!; [done|done| |].
    2: { intros w i n Hx. rewrite seen_quiet; [by apply R4| |]; intros; rewrite list_elem_of_singleton; done. }
    destruct (decide (own_inf r = [c])) as [Er|Er].
    + assert (r = f) as ->.
      { destruct (elem_of_Permutation L f) as [Hp _]. destruct (Hp Hf) as [R HR]. rewrite HR in Hr. apply elem_of_cons in Hr as [->|Hr]; [done|].
        exfalso. apply (res_apart [] own_inf (dom (g_heap g)) f r R c); [|done|rewrite Ho, Hk; by left|rewrite Er; by left].
        apply (res_move _ _ _ L); [by apply bind_perm|done]. }
      unfold rec_ok. assert (nvkvm_tx_done b (record f None) = record f (Some b)) as Et by (unfold record; by rewrite tx_done_resp).
      unfold waiting in Hw. destruct (k_pc f); try done; cbn [set_heap set_vq g_heap g_vq];
        rewrite Hk, lookup_insert_eq, lookup_delete_eq, answer_app; cbn [fold_left]; by rewrite Z.eqb_refl, Et.
    + apply (rec_frame h _ g); [|done]. intros Hn.
      assert (k_inf r <> c) as Hne by (intros <-; apply Er; unfold own_inf in *; by destruct (k_pc r)).
      cbn [set_heap set_vq g_heap g_vq]. rewrite lookup_insert_ne, lookup_delete_ne, answer_app by done. cbn.
      by rewrite (proj2 (Z.eqb_neq _ _)) by done.
Qed.

Lemma host_held f w i n : waiting f = true -> shape f -> host_slot (message f) w = (i, n) -> i <> 0 -> 
  exists k, held f w = Some (i, k) /\ n = Z.of_nat k.
Proof.
  intros Hw Hs H Hi. unfold host_slot in H. unfold held. destruct w; cbn in H.
  - injection H as <- <-. destruct (k_ps f) as [j|]; [|done]. exists (length (k_p f)). unfold waiting in Hw. by destruct (k_pc f).
  - injection H as <- <-. destruct (k_as f) as [j|]; [|done]. exists (length (k_a f)). unfold waiting in Hw. by destruct (k_pc f).
  - by injection H as <- _.
Qed.

Lemma held_apart f w w' i k l : NoDup (own_slots f) -> same_blob w w' = false -> held f w = Some (i, k) -> held f w' = Some (i, l) -> False.
Proof.
  intros Hn Hs H H'. unfold held in *. unfold own_slots in Hn.
  destruct w, w'; try done; destruct (p_in _), (a_in _); try done; destruct (k_ps f), (k_as f); try done;
    injection H as -> _; injection H' as -> _; apply NoDup_cons in Hn as [Hn _]; apply Hn; by left.
Qed.

Lemma host_writes h g L c m w d i n :
  ok h g L -> g_vq g !! c = Some m -> host_slot m w = (i, n) -> i <> 0 -> arr_len d <= n ->
  ok (h ++ [AHost c w d]) (set_mem g (wr (i * g_slot_size g) d (g_mem g))) L.
Proof.
  intros Hok Hc Hm Hi Hd. pose proof Hok as [H1 H2 H3 H4 H5 H6 H7]. destruct (H6 c m Hc) as (f & Hf & Hk & Hw).
  rewrite Forall_forall in H7. destruct (H7 f Hf) as (F1 & F2 & F3 & F4).
  assert (m = message f) as ->.
  { unfold rec_ok, waiting in *. destruct (k_pc f); try done; rewrite Hk in F3; destruct F3 as [_ F3]; rewrite F3 in Hc;
      destruct (answer h c); try done; by injection Hc. }
  destruct (host_held f w i n Hw F1 Hm Hi) as (k & Hh & ->). unfold arr_len in Hd.
  pose proof (held_sized _ f w i k F1 F2 Hh) as Hks. pose proof (held_own f w i k Hh) as Hio.
  destruct (slots_in g L f H2 Hf) as (R & Ho & HR). pose proof (own_range g f R i Ho Hio) as Hir.
  constructor; try done; [apply conf_put; try done; unfold arr_len; lia|].
  apply Forall_forall. intros r Hr. destruct (H7 r Hr) as (R1 & R2 & R3 & R4). split_and!; [done|done| |].
  { apply (rec_frame h _ g); [|done]. intros _. split_and!; [done|done|]. rewrite answer_app. done. }
  intros w' j l Hx. assert (r = f \/ r ∈ R) as [->|Hin] by (rewrite HR in Hr; by apply elem_of_cons in Hr).
  - rewrite seen_app. cbn. rewrite Hk, Z.eqb_refl. cbn [andb]. destruct (same_blob w w') eqn:Es.
    + assert (w' = w) as -> by (by destruct w, w'). rewrite Hh in Hx. injection Hx as <- <-. rewrite content_put by (done || lia).
      by rewrite (F4 w i k Hh), Hk.
    + assert (j <> i) as Hne by (intros ->; by apply (held_apart f w w' i k l (res_nodup _ _ _ _ _ (proj1 Ho)) Es Hh)).
      rewrite content_apart; [rewrite (F4 w' j l Hx); by rewrite Hk|done|by apply (own_range g f R j Ho), (held_own f w' j l)|done|done| |unfold arr_len; lia].
      by apply (held_sized _ f w' j l).
  - assert (j <> i) as Hne by (intros ->; apply (res_apart _ _ _ f r R i (proj1 Ho) Hin Hio); by apply (held_own r w' i l)).
    assert (k_inf r <> c) as Hnc.
    { intros E. apply (res_apart [] own_inf (dom (g_heap g)) f r R c); [|done| |rewrite (held_inf r w' _ Hx), E; by left].
      - apply (res_move _ _ _ L); [by apply bind_perm|done].
      - destruct (waiting_own f Hw) as [-> _]. rewrite Hk. by left. }
    rewrite seen_app. cbn. rewrite (proj2 (Z.eqb_neq _ _)) by done. cbn [andb].
    destruct (slots_in g L r H2 Hr) as (R' & Ho' & _).
    rewrite content_apart; [by apply R4|done|by apply (own_range g r R' j Ho'), (held_own r w' j l)|done|done| |unfold arr_len; lia].
    by apply (held_sized _ r w' j l).
Qed.

End GuestSafe.
