(* ===== verification/GuestRun.v ===== *)
(** * GuestRun: every run of the guest's virtio transport

    Over the model of [GuestTx] and the invariants of [GuestInv] and
    [GuestSafe]: what holds of every interleaving of the guest's threads with
    the host, from the moment the transport has come up. *)
From stdpp Require Import gmap.
From S2P Require Import Prelude Bytes Abi StubTable IsoReader GuestTx GuestInv GuestSafe.

Module GuestRun.
Import GuestTx GuestInv GuestSafe.

(** ** Runs *)
Definition fine (h : list act) : Prop := forall pre x post, h = pre ++ x :: post -> act_ok pre x.

Lemma fine_snoc h x : fine h -> act_ok h x -> fine (h ++ [x]).
Proof.
  intros H Hx pre y post E. destruct post as [|z post] using rev_ind.
  - apply app_inj_tail in E as [<- <-]. done.
  - rewrite app_comm_cons, app_assoc in E. apply app_inj_tail in E as [-> <-]. by apply (H pre y post).
Qed.

Definition inv (s : sys) (h : list act) : Prop := ok h (sh s) (calls s) /\ fine h /\ forall x, th s !! x <> Some [].

Lemma put_nonempty (t : gmap Z (list call)) x st :
  (forall y, t !! y <> Some []) -> forall y, match st with [] => delete x t | c :: l => <[x := c :: l]> t end !! y <> Some [].
Proof.
  intros H y. destruct st as [|f st].
  - intros E. apply lookup_delete_Some in E as [_ E]. by apply (H y).
  - intros E. apply lookup_insert_Some in E as [[_ E]|[_ E]]; [done|by apply (H y)].
Qed.

Lemma guest_begin_inv s x f h :
  (forall n, own_slots (f n) = [] /\ shape (f n) /\ sized (g_slot_size (sh s)) (f n) /\ exists seed, k_pc (f n) = PTry seed 0) ->
  inv s h -> inv (begin s x f) h.
Proof.
  intros Hf (H1 & H2 & H3). unfold begin. destruct (th s !! x) as [st|] eqn:E; [done|]. split_and!; [|done|].
  - cbn [sh]. eapply ok_perm; [symmetry; by apply calls_insert|]. by apply (begin_ok h (sh s) _ (f _) (calls s)).
  - cbn [th]. apply (put_nonempty _ _ [_] H3).
Qed.

Lemma guest_step_inv s h v : inv s h -> inv (fst (step s v)) (h ++ snd (step s v)).
Proof.
  intros Hi. pose proof Hi as (H1 & H2 & H3). destruct v as [x type|x iso want aset p a|x e|c b|c w d]; cbn [step].
  - cbn [fst snd]. rewrite app_nil_r. apply guest_begin_inv; [|done]. intros n. split_and!; try done. by exists n.
  - cbn [fst snd]. rewrite app_nil_r. apply guest_begin_inv; [|done]. intros n. split_and!; try done. by exists n.
  - destruct (th s !! x) as [[|f rest]|] eqn:E; try (by rewrite app_nil_r). destruct (call_step (sh s) f e) as [[g fs] a] eqn:Ec. cbn [fst snd].
    assert (ok h (sh s) (f :: (rest ++ calls (Sys (sh s) (delete x (th s)))))) as Hp by (eapply ok_perm; [by apply (calls_lookup s x (f :: rest))|done]).
    split_and!.
    + eapply ok_perm; [symmetry; apply (calls_put g (th s) x (fs ++ rest))|]. rewrite <- app_assoc. exact (step_ok h _ _ _ _ _ _ _ Hp Ec).
    + destruct Hp as [P1 P2 _ _ _ _ P7]. apply Forall_cons in P7 as [(F1 & F2 & F3 & F4) _].
      destruct (step_acts h _ _ _ _ _ _ _ P1 P2 F1 F2 F3 F4 Ec) as [->|(y & -> & Hy)]; [by rewrite app_nil_r|by apply fine_snoc].
    + by apply (put_nonempty (th s) x (fs ++ rest)).
  - destruct (g_vq (sh s) !! c) as [m|] eqn:E; [|by rewrite app_nil_r]. destruct (host_answers h _ _ c m b H1 E) as (y & Hy & Hr & Hok).
    cbn [set_vq g_heap]. rewrite Hy, Hr. cbn [fst snd]. split_and!; [exact Hok| |done]. by apply fine_snoc.
  - destruct (g_vq (sh s) !! c) as [m|] eqn:E; [|by rewrite app_nil_r]. destruct (host_slot m w) as [i n] eqn:Em.
    case_if; [by rewrite app_nil_r|]. zb. cbn [fst snd]. split_and!; [by eapply host_writes| |done]. by apply fine_snoc.
Qed.

Lemma guest_run_inv l : forall s h, inv s h -> inv (fst (run s l)) (h ++ snd (run s l)).
Proof.
  induction l as [|v l IH]; intros s h H; cbn [run]; [by rewrite app_nil_r|]. pose proof (guest_step_inv s h v H) as H1.
  destruct (step s v) as [s1 a1]. cbn [fst snd] in H1. specialize (IH s1 _ H1). destruct (run s1 l) as [s2 a2]. cbn [fst snd] in *.
  by rewrite app_assoc.
Qed.

Lemma init_inv slot_size mem :
  24 * Z.of_nat NVKVM_MAX_VMA_ENTRIES <= slot_size -> slot_size * NVKVM_SHM_NSLOTS <= arr_len mem -> inv (nvkvm_virtio_init slot_size mem) [].
Proof.
  intros H1 H2. split_and!.
  - constructor; try done; cbn.
    + split; [split; [by apply NoDup_singleton|]|].
      * cbn. set_solver.
      * intros i Hi. cbn in Hi. apply elem_of_singleton in Hi as ->. done.
    + split; [constructor|done].
    + split; [constructor|done].
  - intros pre x post E. by destruct pre.
  - intros x. cbn. by rewrite lookup_empty.
Qed.

(** ** Messages outstanding *)
Definition msg_slots (m : gmsg) : list Z := base.filter (fun i => i <> 0) [g_pslot m; g_aslot m; g_vslot m].

Lemma outstanding h g L c m : ok h g L -> g_vq g !! c = Some m -> exists f, f ∈ L /\ k_inf f = c /\ waiting f = true /\ m = message f.
Proof.
  intros [H1 H2 H3 H4 H5 H6 H7] Hc. destruct (H6 c m Hc) as (f & Hf & Hk & Hw). exists f. split_and!; try done.
  rewrite Forall_forall in H7. destruct (H7 f Hf) as (_ & _ & F3 & _).
  unfold rec_ok, waiting in *. destruct (k_pc f); try done; rewrite Hk in F3; destruct F3 as [_ F3]; rewrite F3 in Hc;
    destruct (answer h c); try done; by injection Hc.
Qed.

Lemma msg_slots_own f i : i ∈ msg_slots (message f) -> i ∈ own_slots f.
Proof.
  unfold msg_slots, own_slots. rewrite list_elem_of_filter. intros [Hi H]. rewrite !elem_of_app. cbn [message g_pslot g_aslot g_vslot] in H.
  apply elem_of_cons in H as [->|H]; [left|apply elem_of_cons in H as [->|H]; [right; left|apply list_elem_of_singleton in H as ->; right; right]];
    [destruct (k_ps f)|destruct (k_as f)|destruct (k_vs f)]; try done; by left.
Qed.

Lemma apart h g L c1 c2 m1 m2 : ok h g L -> g_vq g !! c1 = Some m1 -> g_vq g !! c2 = Some m2 -> c1 <> c2 ->
  g_txn m1 <> g_txn m2 /\ forall i, i ∈ msg_slots m1 -> i ∉ msg_slots m2.
Proof.
  intros Hok E1 E2 Hn. destruct (outstanding _ _ _ _ _ Hok E1) as (f1 & F1 & K1 & W1 & ->). destruct (outstanding _ _ _ _ _ Hok E2) as (f2 & F2 & K2 & W2 & ->).
  destruct Hok as [_ [H2 _] H3 _ _ _ _]. apply list_elem_of_split in F1 as (l1 & l2 & ->).
  assert (l1 ++ f1 :: l2 ≡ₚ f1 :: (l1 ++ l2)) as HP by (symmetry; apply Permutation_middle).
  assert (f2 ∈ l1 ++ l2) as F2' by (rewrite HP in F2; apply elem_of_cons in F2 as [->|F2]; [congruence|done]). split.
  - intros Ht. cbn [message g_txn] in Ht. apply (res_move _ _ _ _ _ (bind_perm _ _ _ HP)) in H3.
    apply (res_apart _ _ _ f1 f2 _ (txn_bit (k_txn f1)) H3 F2').
    + unfold own_bit, waiting in *. destruct (k_pc f1); try done; by left.
    + unfold own_bit, waiting in *. rewrite Ht. destruct (k_pc f2); try done; by left.
  - intros i I1 I2. apply (res_move _ _ _ _ _ (bind_perm _ _ _ HP)) in H2.
    exact (res_apart _ _ _ f1 f2 _ i H2 F2' (msg_slots_own _ _ I1) (msg_slots_own _ _ I2)).
Qed.

(** ** Coming closer to the return *)

(** A bound on the steps a call still takes, not counting those it only waits
    in.  A forwarded ioctl has room for the interrupt request it may make. *)
Definition rank (n : pc) : Z :=
  match n with
  | PTry _ tries => 25 + Z.max 0 (NVKVM_MAX_INFLIGHT - tries)
  | PMk => 24 | PSlot => 23 | PCopy => 22 | ASlot => 21 | ACopy => 20 | VList => 19 | VSlot => 18 | VCopy => 17
  | PSend => 16 | PAdd => 15 | PWait => 14 | PIntr => 10 | PDone => 9 | PBack => 8 | ABack => 7 | VFree => 6 | AFree => 5 | PFree => 4 | End => 3
  end.
Definition may_interrupt (f : call) : bool :=
  match k_pc f with PWait => true | PIntr | PDone | PBack | ABack | VFree | AFree | PFree | End => false | _ => negb (k_isolate f =? 0) end.
Definition togo (f : call) : Z := rank (k_pc f) + (if may_interrupt f then 5000 else 0).
Definition work (st : list call) : Z := foldr (fun f n => togo f + n) 0 st.

Lemma togo_pos f : 0 < togo f.
Proof. unfold togo. case_if; destruct (k_pc f); cbn [rank]; lia. Qed.
Lemma work_app l l' : work (l ++ l') = work l + work l'.
Proof. unfold work. induction l as [|f l IH]; cbn; [done|]. rewrite IH. lia. Qed.

(** The memory handed out for a record is not another record's. *)
Definition fresh (g : guest) (e : env) : Prop := forall c, e_inf e = Some c -> g_heap g !! c = None.

Definition owed (g : guest) (f : call) : Prop := waiting f = true /\ g_vq g !! k_inf f = Some (message f).

Lemma step_togo h g f e g' fs a : rec_ok h g f -> fresh g e -> call_step g f e = (g', fs, a) ->
  work fs < togo f \/ work fs <= togo f /\ owed g f.
Proof.
  intros Hr Hf H. pose proof (rec_has _ _ _ Hr) as Hh. unfold has_rec in Hh. unfold rec_ok in Hr.
  unfold owed, waiting. at_pc f E H; steps H; try (by destruct Hh); results H.
  all: try (left; unfold work; cbn [foldr]; unfold togo, may_interrupt; cbn; rewrite ?E; cbn; unfold NVKVM_MAX_INFLIGHT in *; destruct (k_isolate f =? 0); cbn; zb; lia).
  1,2: by rewrite (Hf _ Heqo) in Heqo0.
  all: right; split; [unfold work; cbn [foldr]; unfold togo, may_interrupt; cbn; rewrite ?E; cbn; lia|split; [done|]].
  all: destruct Hr as [Hr Hv]; rewrite Hv; apply (inj Some) in Hr; subst i; match goal with Hd : n_done _ = false |- _ => rewrite record_done in Hd end; by destruct (answer h _).
Qed.

Lemma thread_togo s h x st e : inv s h -> th s !! x = Some st -> fresh (sh s) e ->
  let st' := default [] (th (fst (step s (EStep x e))) !! x) in
  work st' < work st \/ work st' <= work st /\ exists f rest, st = f :: rest /\ owed (sh s) f.
Proof.
  intros (H1 & _ & H3) Hx Hf. destruct st as [|f rest]; [by apply H3 in Hx|]. cbn [step]. rewrite Hx.
  destruct (call_step (sh s) f e) as [[g fs] a] eqn:Ec. cbn [fst th].
  assert (rec_ok h (sh s) f) as Hr.
  { apply (ok_perm _ _ _ _ (calls_lookup s x _ Hx)) in H1. destruct H1 as [_ _ _ _ _ _ H7]. by apply Forall_cons in H7 as [(_ & _ & F3 & _) _]. }
  assert (default [] (match fs ++ rest with [] => delete x (th s) | c :: l => <[x := c :: l]> (th s) end !! x) = fs ++ rest) as ->.
  { destruct (fs ++ rest) as [|c l]; [by rewrite lookup_delete_eq|by rewrite lookup_insert_eq]. }
  rewrite work_app. change (work (f :: rest)) with (togo f + work rest).
  destruct (step_togo h _ _ _ _ _ _ Hr Hf Ec) as [Hw|[Hw Ho]]; [left; lia|]. right. split; [lia|]. by exists f, rest.
Qed.

(** ** Theorems *)

(** The transport as it comes up: the control block was accepted, and a slot
    holds the longest white list. *)
Definition up (version slot_size : Z) (mem : list Z) : Prop :=
  nvkvm_negotiate_version true version slot_size (arr_len mem) = inr slot_size /\ 24 * Z.of_nat NVKVM_MAX_VMA_ENTRIES <= slot_size.

Lemma up_run version slot_size mem l : up version slot_size mem ->
  inv (fst (run (nvkvm_virtio_init slot_size mem) l)) (snd (run (nvkvm_virtio_init slot_size mem) l)).
Proof.
  intros [H1 H2]. unfold nvkvm_negotiate_version in H1. cbn [negb] in H1. case_if_in H1; [done|]. case_if_in H1; [done|].
  case_if_in H1; [done|]. zb. apply (guest_run_inv l _ []), init_inv; [done|lia].
Qed.

(** C30: When the transport has come up with slots that hold the longest white
    list of 1024 areas, 24 KiB: whatever the threads do and the host answers, and
    in whatever order, no record or response buffer is used after it was freed,
    nothing is written outside a slot, what a caller gets back is what the host
    left in its own slot, its result is that of the answer to its own message, and
    two messages the host holds have different numbers and share no slot.  The
    negotiation itself accepts slots from 4096 bytes on, for which this fails
    ([whitelist_overruns]); the device of this repository offers 64 KiB. *)
Theorem guest_transport_safe version slot_size mem l :
  nvkvm_negotiate_version true version slot_size (arr_len mem) = inr slot_size ->
  24 * Z.of_nat NVKVM_MAX_VMA_ENTRIES <= slot_size ->
  let '(s, acts) := run (nvkvm_virtio_init slot_size mem) l in
  (forall pre a post, acts = pre ++ a :: post -> act_ok pre a) /\
  (forall c1 c2 m1 m2, g_vq (sh s) !! c1 = Some m1 -> g_vq (sh s) !! c2 = Some m2 -> c1 <> c2 ->
     g_txn m1 <> g_txn m2 /\ forall i, i ∈ msg_slots m1 -> i ∉ msg_slots m2).
Proof.
  intros Hn Hs. pose proof (up_run _ _ _ l (conj Hn Hs)) as (H1 & H2 & _). destruct (run _ l) as [s acts]. split; [exact H2|].
  intros c1 c2 m1 m2. by apply (apart acts (sh s) (calls s)).
Qed.

(** C31: When every call has returned, every slot but the control block's is free
    again, every transaction number too, no record is left, the list of
    requests in flight is empty and the host holds no message. *)
Theorem guest_no_leak version slot_size mem l : up version slot_size mem ->
  let s := fst (run (nvkvm_virtio_init slot_size mem) l) in
  th s = ∅ -> g_slots (sh s) = {[0]} /\ g_txns (sh s) = ∅ /\ g_heap (sh s) = ∅ /\ g_list (sh s) = [] /\ g_vq (sh s) = ∅.
Proof.
  intros H. pose proof (up_run _ _ _ l H) as (H1 & _ & _). destruct (run _ l) as [s acts]. cbn [fst] in *. intros Ht.
  assert (calls s = []) as E by (unfold calls; rewrite Ht; done). rewrite E in H1.
  destruct H1 as [_ [[_ S] _] [_ T] [_ I] P V _]. cbn in *. split_and!.
  - rewrite S. set_solver.
  - done.
  - by apply dom_empty_inv_L.
  - by apply Permutation_nil_r.
  - apply map_eq. intros c. rewrite lookup_empty. destruct (_ !! c) as [m|] eqn:Ec; [|done]. destruct (V c m Ec) as (f & Hf & _). by apply not_elem_of_nil in Hf.
Qed.

(** C32: A call that is not waiting for an answer the host still owes comes closer
    to its return with every step its thread takes, whatever the other threads
    hold; and while it waits, no step takes it further away. *)
Theorem guest_calls_progress version slot_size mem l x st e : up version slot_size mem ->
  let s := fst (run (nvkvm_virtio_init slot_size mem) l) in
  th s !! x = Some st -> fresh (sh s) e ->
  let st' := default [] (th (fst (step s (EStep x e))) !! x) in
  0 <= work st' < work st \/ work st' <= work st /\ exists f rest, st = f :: rest /\ owed (sh s) f.
Proof.
  intros H s Hx Hf st'. pose proof (up_run _ _ _ l H) as Hi.
  assert (0 <= work st') as Hn by (unfold work; induction st' as [|f r IH]; cbn; [done|pose proof (togo_pos f); lia]).
  destruct (thread_togo _ _ x st e Hi Hx Hf) as [Hw|Hw]; [by left|by right].
Qed.

(** ** Witnesses *)
Definition region (slot_size : Z) : list Z := repeat 0 (Z.to_nat (slot_size * 256)).
Definition given (c : Z) : env := Env true (Some c) true 0 None false.
Definition steps_of (x c : Z) (n : nat) : list ev := repeat (EStep x (given c)) n.
(** An ioctl with two bytes of parameters, as far as the host has its message. *)
Definition ioctl_posted (x c : Z) : list ev := EForward x 5 false false [1; 2] [] :: steps_of x c 8.
(** The host stores a byte and answers; the ioctl returns 5. *)
Definition ioctl_whole (x c : Z) : list ev :=
  ioctl_posted x c ++ [EHostW c BParam [9]; EHost c (le_bytes 4 18 ++ le_bytes 4 1 ++ le_bytes 8 5 ++ le_bytes 16 0)] ++ steps_of x c 8.

Lemma region_up : up 3 32768 (region 32768).
Proof.
  unfold up, region. split; [|vm_compute; done]. unfold arr_len. rewrite repeat_length. rewrite Z2Nat.id by lia. reflexivity.
Qed.

Definition ioctl_acts (d : list Z) : list act :=
  [AIn 70 BParam [1; 2]; APost 70 (GMsg 18 1 2 1 0 0 0 0); AHost 70 BParam [9];
   AResp 70 (le_bytes 4 18 ++ le_bytes 4 1 ++ le_bytes 8 5 ++ le_bytes 16 0); AOut 70 BParam d;
   ARet true 70 1 5 (Some (Inf 1 5 false true 5 0 0 0))].

(** The actions without the bytes copied back. *)
Definition masked (a : act) : act := match a with AOut c w _ => AOut c w [] | a => a end.

Lemma masked_eq a b : masked a = b -> (match b with AOut _ _ _ => False | _ => True end) -> a = b.
Proof. intros <-. by destruct a. Qed.
Lemma masked_out a c w : masked a = AOut c w [] -> exists d, a = AOut c w d.
Proof. destruct a; try done. intros [= -> ->]. by eexists. Qed.

Lemma ioctl_runs mem : exists d s, run (nvkvm_virtio_init 32768 mem) (ioctl_whole 1 70) = (s, ioctl_acts d) /\ th s = ∅.
Proof.
  assert (masked <$> snd (run (nvkvm_virtio_init 32768 mem) (ioctl_whole 1 70)) = ioctl_acts []) as E by (vm_compute; reflexivity).
  assert (map_to_list (th (fst (run (nvkvm_virtio_init 32768 mem) (ioctl_whole 1 70)))) = []) as Ht by (vm_compute; reflexivity).
  destruct (run _ _) as [s acts]. cbn [fst snd] in *. apply map_to_list_empty_iff in Ht.
  destruct acts as [|a1 [|a2 [|a3 [|a4 [|a5 [|a6 [|]]]]]]]; try done. cbn [fmap list_fmap] in E. unfold ioctl_acts in *. injection E as E1 E2 E3 E4 E5 E6.
  apply masked_eq in E1, E2, E3, E4, E6; try done. apply masked_out in E5 as [d ->]. subst. by exists d, s.
Qed.

Lemma guest_transport_safe_witness :
  exists s, run (nvkvm_virtio_init 32768 (region 32768)) (ioctl_whole 1 70) = (s, ioctl_acts [9; 2]).
Proof.
  pose proof (guest_transport_safe 3 32768 (region 32768) (ioctl_whole 1 70) (proj1 region_up) (proj2 region_up)) as H.
  destruct (ioctl_runs (region 32768)) as (d & s & E & _). rewrite E in *. destruct H as [H _].
  rewrite (H _ (AOut 70 BParam d) [ARet true 70 1 5 (Some (Inf 1 5 false true 5 0 0 0))] (app_assoc [_; _; _; _] [] _)). by exists s.
Defined.

Lemma guest_no_leak_witness :
  let s := fst (run (nvkvm_virtio_init 32768 (region 32768)) (ioctl_whole 1 70)) in
  th s = ∅ /\ g_slots (sh s) = {[0]} /\ g_heap (sh s) = ∅.
Proof.
  pose proof (guest_no_leak 3 32768 (region 32768) (ioctl_whole 1 70) region_up) as H.
  destruct (ioctl_runs (region 32768)) as (d & s & E & Ht). rewrite E in *. cbn [fst] in *. destruct (H Ht) as (H1 & _ & H2 & _). exact (conj Ht (conj H1 H2)).
Defined.

Lemma ioctl_waits mem : let s := fst (run (nvkvm_virtio_init 32768 mem) (ioctl_posted 1 70)) in
  (exists f, th s !! 1 = Some [f]) /\ g_heap (sh s) !! 71 = None.
Proof.
  cbv zeta. assert ((fun st => length st) <$> (th (fst (run (nvkvm_virtio_init 32768 mem) (ioctl_posted 1 70))) !! 1) = Some 1%nat) as E by (vm_compute; reflexivity).
  split; [|vm_compute; reflexivity]. destruct (th _ !! 1) as [[|f [|]]|]; try done. by exists f.
Qed.

Lemma guest_calls_progress_witness :
  exists st, th (fst (run (nvkvm_virtio_init 32768 (region 32768)) (ioctl_posted 1 70))) !! 1 = Some [st] /\
  let st' := default [] (th (fst (step (fst (run (nvkvm_virtio_init 32768 (region 32768)) (ioctl_posted 1 70))) (EStep 1 (given 71)))) !! 1) in
  (0 <= work st' < work [st] \/ work st' <= work [st] /\ exists f rest, [st] = f :: rest /\ owed (sh (fst (run (nvkvm_virtio_init 32768 (region 32768)) (ioctl_posted 1 70)))) f).
Proof.
  destruct (ioctl_waits (region 32768)) as [[st E] Hn]. exists st. split; [exact E|].
  apply (guest_calls_progress 3 32768 (region 32768) (ioctl_posted 1 70) 1 [st] (given 71) region_up E).
  intros c Hc. injection Hc as <-. exact Hn.
Defined.

(** ** What the modelling showed *)

(** Two seeds that a wrap-around lies between give the same number: the epoch is
    taken before the search. *)
Lemma txn_id_repeats : txn_id 4095 (txn_slot 4095 2) = txn_id 1 (txn_slot 1 0).
Proof. reflexivity. Qed.

(** With the smallest slot size that the negotiation accepts, a process with
    two hundred areas has its white list written past the end of the slot. *)
Lemma whitelist_overruns mem :
  nvkvm_negotiate_version true 3 4096 (4096 * 256) = inr 4096 /\
  AWild 4096 4800 ∈ snd (run (nvkvm_virtio_init 4096 mem)
    (EForward 1 5 true false [] [] :: repeat (EStep 1 (Env true (Some 70) true 0 (Some (repeat (4096, 8192, 3) 200)) false)) 7)).
Proof. split; [reflexivity|]. 
  assert (exists l, snd (run (nvkvm_virtio_init 4096 mem)
    (EForward 1 5 true false [] [] :: repeat (EStep 1 (Env true (Some 70) true 0 (Some (repeat (4096, 8192, 3) 200)) false)) 7)) = AWild 4096 4800 :: l) as [l ->];
  [eexists; vm_compute; reflexivity|by left]. Qed.

(** A guest makes a control request and two ioctls on one isolate, which numbers
    those itself, from 1.  The interrupt meant for the first ioctl carries the
    guest's number of it, and goes to the worker of the second. *)
Lemma interrupt_misdirected mem s :
  StubTable.workers s = [(10, 0); (11, 1); (12, IsoReader.next_txn 1)] ->
  exists m1 m2,
    snd (run (nvkvm_virtio_init 32768 mem) (EControl 1 16 :: steps_of 1 70 4 ++ EForward 2 5 false false [] [] :: steps_of 2 71 7 ++
           EForward 3 5 false false [] [] :: steps_of 3 72 7)) = [APost 70 (GMsg 16 1 0 0 0 0 0 0); APost 71 m1; APost 72 m2] /\
    StubTable.interrupt_txn s (g_txn m1) = [StubTable.Kill 12].
Proof.
  intros Hs. eexists _, _. split; [vm_compute; reflexivity|]. unfold StubTable.interrupt_txn. rewrite Hs. reflexivity.
Qed.

End GuestRun.
