(* ===== verification/VirtioDev.v ===== *)
(** * VirtioDev: the virtio device of QEMU

    Models the queues of [src/qemu/virtio_nvgpu.c]: the bounds on the shared
    slots, the request loop ([nvkvm_tx_handler]), the two kinds of request that
    a thread pool works on ([nvkvm_ioctl_work_fn], [nvkvm_enter_loop_work_fn]
    and their completions), and the events pushed to the guest.

    The guest posts any buffers and writes to the shared region at any time.
    The main loop, the threads of the pool and the guest take turns in any
    order; one turn of a pool thread is one [memcpy] or the call of the request
    handler.  What a handler answers, and what it stores in the blobs it was
    given, is any bytes of the size the code provides for them. *)
From stdpp Require Import gmap.
From S2P Require Import Prelude Bytes.

Module VirtioDev.

Definition NVKVM_SHM_NSLOTS : Z := 256.
Definition NVKVM_SHM_SLOT_DEFAULT_SIZE : Z := 65536.
Definition NVKVM_PROTO_VERSION : Z := 3.

(** A buffer of a queue: the bytes the guest sends and the room for the answer. *)
Record elem := Elem { q_id : Z; q_out : list Z; q_room : nat }.

(** [iov_to_buf] into a zeroed structure of [n] bytes, and [iov_from_buf]. *)
Definition fit (n : nat) (l : list Z) : list Z := take n (l ++ repeat 0 n).
Definition iov_to_buf (e : elem) (off n : nat) : list Z := fit n (drop off (q_out e)).
Definition iov_from_buf (e : elem) (d : list Z) : list Z := take (q_room e) d.

(** ** The sizes of the requests and of their answers *)
Definition req_size (t : Z) : nat :=
  if t =? 10 then 4 else if (t =? 11) || (t =? 12) || (t =? 21) || (t =? 26) then 16 else if t =? 30 then 40
  else if (t =? 31) || (t =? 23) || (t =? 24) then 24 else if (t =? 18) || (t =? 19) then 48 else if t =? 25 then 64 else 8.
Definition resp_size (t : Z) : nat :=
  if t =? 10 then 520 else if (t =? 28) || (t =? 25) then 32 else if t =? 29 then 16 else if (t =? 18) || (t =? 19) then 24 else 8.

(** ** Work of the thread pool *)
Inductive stage := WFetchP | WFetchA | WCall | WStoreP | WStoreA | WDone.

(** [w_p], [w_a]: where the blobs are, if they are; [w_priv_p], [w_priv_a]: the private copies. *)
Record work := Work {
  w_elem : elem; w_hdr : list Z; w_ioctl : bool; w_req : list Z;
  w_psize : Z; w_asize : Z; w_p : option Z; w_a : option Z;
  w_at : stage; w_priv_p : list Z; w_priv_a : list Z; w_resp : list Z }.

Definition w_go (w : work) (n : stage) : work :=
  Work (w_elem w) (w_hdr w) (w_ioctl w) (w_req w) (w_psize w) (w_asize w) (w_p w) (w_a w) n (w_priv_p w) (w_priv_a w) (w_resp w).
Definition w_bufs (w : work) (p a r : list Z) : work :=
  Work (w_elem w) (w_hdr w) (w_ioctl w) (w_req w) (w_psize w) (w_asize w) (w_p w) (w_a w) (w_at w) p a r.

(** ** The device *)
Record dev := Dev {
  d_slot : Z; d_shm : Z; d_mem : list Z;
  d_next : Z; d_tx : list elem; d_works : gmap Z work;
  d_enext : Z; d_evt : list elem; d_bhs : list (list Z);
  d_short : Z; d_unknown : Z }.

Definition set_mem (s : dev) (m : list Z) : dev :=
  Dev (d_slot s) (d_shm s) m (d_next s) (d_tx s) (d_works s) (d_enext s) (d_evt s) (d_bhs s) (d_short s) (d_unknown s).
Definition set_tx (s : dev) (n : Z) (q : list elem) : dev :=
  Dev (d_slot s) (d_shm s) (d_mem s) n q (d_works s) (d_enext s) (d_evt s) (d_bhs s) (d_short s) (d_unknown s).
Definition set_works (s : dev) (w : gmap Z work) : dev :=
  Dev (d_slot s) (d_shm s) (d_mem s) (d_next s) (d_tx s) w (d_enext s) (d_evt s) (d_bhs s) (d_short s) (d_unknown s).
Definition set_evt (s : dev) (n : Z) (q : list elem) (b : list (list Z)) : dev :=
  Dev (d_slot s) (d_shm s) (d_mem s) (d_next s) (d_tx s) (d_works s) n q b (d_short s) (d_unknown s).
Definition set_counts (s : dev) (a b : Z) : dev :=
  Dev (d_slot s) (d_shm s) (d_mem s) (d_next s) (d_tx s) (d_works s) (d_enext s) (d_evt s) (d_bhs s) a b.

Inductive blob := BParam | BAux.

Inductive act :=
| AWild (off len : Z)                            (* the shared region left *)
| APosted (e : elem) | AEvtPosted (e : elem)     (* by the guest *)
| APush (i : Z) (d : list Z) | AEvtPush (i : Z) (d : list Z)   (* answered, with the bytes written *)
| ANotify | AEvtNotify
| ALog (short : bool) (n : Z)
| AHandle (t : Z) (req : list Z) (spans : list (option Z * Z))  (* a handler of the main loop, with its blobs *)
| AFetch (i : Z) (b : blob) (d : list Z) | AStore (i : Z) (b : blob) (d : list Z)
| ACall (i : Z) (req p a : list Z).              (* [nvkvm_req_ioctl_on_isolate] *)

(** ** Slots *)
Definition slot_valid (slot : Z) : bool := (1 <=? slot) && (slot <? NVKVM_SHM_NSLOTS).
Definition slot_ptr (s : dev) (slot : Z) : Z := slot * d_slot s.
Definition slot_blob (s : dev) (slot size : Z) : option Z :=
  if negb (slot_valid slot) then None
  else if d_slot s <? size then None
  else if d_shm s <? u64 (slot * d_slot s) ⊕ size then None
  else Some (slot_ptr s slot).

(** [n] bytes at [off] of the shared region. *)
Definition inside (s : dev) (off n : Z) : bool := (0 <=? off) && (0 <=? n) && (off + n <=? arr_len (d_mem s)).
Definition fetch (s : dev) (off n : Z) : list Z * list act :=
  (fit (Z.to_nat n) (drop (Z.to_nat off) (d_mem s)), if inside s off n then [] else [AWild off n]).
Definition store (s : dev) (off : Z) (d : list Z) : dev * list act :=
  if inside s off (arr_len d) then (set_mem s (wr off d (d_mem s)), []) else (s, [AWild off (arr_len d)]).

(** ** Malformed requests *)
Definition nvkvm_log_backoff (count : Z) : bool * Z := let n := count ⊕ 1 in (Z.land n (n ⊖ 1) =? 0, n).

(** ** One turn of the request loop *)

(** What a handler of the main loop does: its answer, and what it stores in its blobs. *)
Record ans := Ans { a_resp : list Z; a_stores : list (nat * list Z) }.

Definition answer (e : elem) (hdr resp : list Z) : list act := [APush (q_id e) (iov_from_buf e (hdr ++ resp)); ANotify].

(** Stores to the blobs of [spans], each from its start and no longer than the blob. *)
Fixpoint put (s : dev) (spans : list (option Z * Z)) (l : list (nat * list Z)) : dev * list act :=
  match l with
  | [] => (s, [])
  | (k, d) :: l =>
      match spans !! k with
      | Some (Some off, n) => if n <? arr_len d then put s spans l else let '(s, a) := store s off d in let '(s, a') := put s spans l in (s, a ++ a')
      | _ => put s spans l
      end
  end.

Definition inline (t : Z) : bool := existsb (Z.eqb t) [10; 11; 30; 31; 12; 13; 14; 15; 27; 28; 16; 17; 21; 22; 19; 20].

(** The blobs a request of the main loop names. *)
Definition spans_of (s : dev) (t : Z) (req : list Z) : option (list (option Z * Z)) :=
  if inline t then Some []
  else if (t =? 23) || (t =? 24) then
    let size := rd 4 16 req in Some [((if 0 <? size then slot_blob s (rd 4 4 req) size else None), size)]
  else if t =? 26 then Some [(slot_blob s (rd 4 4 req) (rd 4 8 req), rd 4 8 req)]
  else if t =? 25 then
    let isz := rd 4 56 req in
    Some [(slot_blob s (rd 4 48 req) (d_slot s), d_slot s); ((if 0 <? isz then slot_blob s (rd 4 52 req) isz else None), isz)]
  else None.

(** The work item of an ioctl: a blob that does not fit has no bytes. *)
Definition ioctl_work (s : dev) (e : elem) (hdr : list Z) : work :=
  let req := iov_to_buf e 8 48 in
  let blob_of size slot := if 0 <? size then match slot_blob s slot size with Some o => (Some o, size) | None => (None, 0) end else (None, size) in
  let '(p, psize) := blob_of (rd 4 12 req) (rd 4 16 req) in
  let '(a, asize) := blob_of (rd 4 20 req) (rd 4 24 req) in
  Work e hdr true (wr 20 (le_bytes 4 asize) (wr 12 (le_bytes 4 psize) req)) psize asize p a WFetchP [] [] [].
Definition loop_work (e : elem) (hdr : list Z) : work :=
  Work e hdr false (iov_to_buf e 8 8) 0 0 None None WCall [] [] [].

Definition nvkvm_tx_handler (s : dev) (x : ans) : dev * list act :=
  match d_tx s with
  | [] => (s, [])
  | e :: q =>
      let s := set_tx s (d_next s) q in
      if Z.of_nat (length (q_out e)) <? 8 then
        let '(l, n) := nvkvm_log_backoff (d_short s) in
        (set_counts s n (d_unknown s), (if l then [ALog true n] else []) ++ [APush (q_id e) []])
      else
        let hdr := take 8 (q_out e) in
        let t := rd 4 0 hdr in
        if t =? 18 then (set_works s (<[q_id e := ioctl_work s e hdr]> (d_works s)), [])
        else if t =? 29 then (set_works s (<[q_id e := loop_work e hdr]> (d_works s)), [])
        else
          let req := iov_to_buf e 8 (req_size t) in
          match spans_of s t req with
          | Some spans => let '(s, a) := put s spans (a_stores x) in (s, AHandle t req spans :: a ++ answer e hdr (fit (resp_size t) (a_resp x)))
          | None =>
              let '(l, n) := nvkvm_log_backoff (d_unknown s) in
              (set_counts s (d_short s) n, (if l then [ALog false n] else []) ++ [APush (q_id e) []])
          end
  end.

(** ** One turn of a thread of the pool, or of its completion *)
Definition work_step (s : dev) (w : work) (resp p a : list Z) : dev * option work * list act :=
  let i := q_id (w_elem w) in
  match w_at w with
  | WFetchP =>
      match w_p w with
      | Some off => let '(d, x) := fetch s off (w_psize w) in (s, Some (w_go (w_bufs w d (w_priv_a w) []) WFetchA), x ++ [AFetch i BParam d])
      | None => (s, Some (w_go w WFetchA), [])
      end
  | WFetchA =>
      match w_a w with
      | Some off => let '(d, x) := fetch s off (w_asize w) in (s, Some (w_go (w_bufs w (w_priv_p w) d []) WCall), x ++ [AFetch i BAux d])
      | None => (s, Some (w_go w WCall), [])
      end
  | WCall =>
      if w_ioctl w then
        (s, Some (w_go (w_bufs w (fit (length (w_priv_p w)) p) (fit (length (w_priv_a w)) a) (fit 24 resp)) WStoreP),
         [ACall i (w_req w) (w_priv_p w) (w_priv_a w)])
      else (s, Some (w_go (w_bufs w [] [] (fit 16 resp)) WDone), [])
  | WStoreP =>
      match w_p w with
      | Some off => let '(s, x) := store s off (w_priv_p w) in (s, Some (w_go w WStoreA), x ++ [AStore i BParam (w_priv_p w)])
      | None => (s, Some (w_go w WStoreA), [])
      end
  | WStoreA =>
      match w_a w with
      | Some off => let '(s, x) := store s off (w_priv_a w) in (s, Some (w_go w WDone), x ++ [AStore i BAux (w_priv_a w)])
      | None => (s, Some (w_go w WDone), [])
      end
  | WDone => (s, None, answer (w_elem w) (w_hdr w) (w_resp w))
  end.

(** ** Events for the guest *)
Definition evt (a b c type : Z) : list Z := le_bytes 4 a ++ le_bytes 4 b ++ le_bytes 4 c ++ le_bytes 4 type.
Definition nvkvm_virtio_push_evt (s : dev) (isolate handle revents : Z) : dev :=
  set_evt s (d_enext s) (d_evt s) (d_bhs s ++ [evt isolate handle revents 0]).
Definition nvkvm_virtio_push_ui_info (s : dev) (width height refresh : Z) : dev :=
  if (width =? 0) || (height =? 0) then s else set_evt s (d_enext s) (d_evt s) (d_bhs s ++ [evt width height refresh 1]).
Definition nvkvm_virtio_push_buf_release (s : dev) (isolate stub_handle : Z) : dev :=
  if stub_handle =? 0 then s else set_evt s (d_enext s) (d_evt s) (d_bhs s ++ [evt isolate stub_handle 0 2]).

(** A bottom half: the event goes into the next buffer the guest posted, or is dropped. *)
Definition push_bh (s : dev) : dev * list act :=
  match d_bhs s with
  | [] => (s, [])
  | m :: b =>
      match d_evt s with
      | e :: q => (set_evt s (d_enext s) q b, [AEvtPush (q_id e) (iov_from_buf e m); AEvtNotify])
      | [] => (set_evt s (d_enext s) [] b, [])
      end
  end.

(** ** The system *)
Inductive ev :=
| EPost (out : list Z) (room : nat) | EEvtPost (room : nat)
| EGuestW (off : Z) (d : list Z)
| ETx (x : ans)
| EWork (i : Z) (resp p a : list Z)
| EEvt (isolate handle revents : Z) | EUi (width height refresh : Z) | ERelease (isolate stub_handle : Z)
| EBh.

Definition step (s : dev) (v : ev) : dev * list act :=
  match v with
  | EPost out room => let e := Elem (d_next s) (u8 <$> out) room in (set_tx s (d_next s + 1) (d_tx s ++ [e]), [APosted e])
  | EEvtPost room => let e := Elem (d_enext s) [] room in (set_evt s (d_enext s + 1) (d_evt s ++ [e]) (d_bhs s), [AEvtPosted e])
  | EGuestW off d => if inside s off (arr_len d) then (set_mem s (wr off d (d_mem s)), []) else (s, [])
  | ETx x => nvkvm_tx_handler s x
  | EWork i resp p a =>
      match d_works s !! i with
      | Some w =>
          let '(s, w, x) := work_step s w resp p a in
          (set_works s (match w with Some w => <[i := w]> (d_works s) | None => delete i (d_works s) end), x)
      | None => (s, [])
      end
  | EEvt a b c => (nvkvm_virtio_push_evt s a b c, [])
  | EUi a b c => (nvkvm_virtio_push_ui_info s a b c, [])
  | ERelease a b => (nvkvm_virtio_push_buf_release s a b, [])
  | EBh => push_bh s
  end.

Fixpoint run (s : dev) (l : list ev) : dev * list act :=
  match l with
  | [] => (s, [])
  | v :: l => let '(s, a) := step s v in let '(s, a') := run s l in (s, a ++ a')
  end.

(** [virtio_nvgpu_device_realize]: the shared region, just mapped, and its control block. *)
Definition control_block (driver : list Z) : list Z :=
  le_bytes 4 NVKVM_PROTO_VERSION ++ le_bytes 4 NVKVM_SHM_SLOT_DEFAULT_SIZE ++ le_bytes 4 NVKVM_SHM_NSLOTS ++ le_bytes 4 0 ++ fit 64 driver.
Definition virtio_nvgpu_device_realize (mem driver : list Z) : dev :=
  let shm := NVKVM_SHM_NSLOTS * NVKVM_SHM_SLOT_DEFAULT_SIZE in
  Dev NVKVM_SHM_SLOT_DEFAULT_SIZE shm (wr 0 (control_block driver) mem) 0 [] ∅ 0 [] [] 0 0.

End VirtioDev.
