(* ===== verification/VirtioSafe.v ===== *)
(** * VirtioSafe: what holds of the virtio device

    Over the model of [VirtioDev]: every request is answered once, the shared
    region is never left and its control block never touched, a request handler
    sees bytes that no longer change, and malformed requests write few lines. *)
From stdpp Require Import gmap.
From S2P Require Import Prelude Bytes VirtioDev.

Module VirtioSafe.
Import VirtioDev.

Definition conf (s : dev) : Prop := 0 < d_slot s /\ d_shm s = NVKVM_SHM_NSLOTS * d_slot s /\ d_shm s <= 2 ^ 62 /\ arr_len (d_mem s) = d_shm s.

(** A blob lies in one slot, and not in the control block's. *)
Definition in_slot (ss off size : Z) : Prop := exists slot, 1 <= slot < NVKVM_SHM_NSLOTS /\ off = slot * ss /\ 0 <= size <= ss.
Definition span_ok (ss : Z) (x : option Z * Z) : Prop := match x with (Some off, n) => in_slot ss off n | (None, _) => True end.

Lemma fit_length n l : length (fit n l) = n.
Proof. unfold fit. rewrite length_take, length_app, repeat_length. lia. Qed.

Lemma slot_blob_in s slot size off : conf s -> 0 <= size -> slot_blob s slot size = Some off -> in_slot (d_slot s) off size.
Proof.
  intros (C1 & C2 & C3 & C4) Hs H. unfold slot_blob in H. case_if_in H; [done|]. case_if_in H; [done|]. case_if_in H; [done|].
  injection H as <-. unfold slot_valid in *. apply negb_false_iff in E. zb. exists slot. unfold slot_ptr. lia.
Qed.

Lemma in_slot_inside s off size : conf s -> in_slot (d_slot s) off size -> inside s off size = true.
Proof.
  intros (C1 & C2 & C3 & C4) (slot & H1 & -> & H2). unfold inside, NVKVM_SHM_NSLOTS in *. rewrite C4, C2.
  assert (slot * d_slot s + size <= 256 * d_slot s) by nia. assert (0 <= slot * d_slot s) by nia. lia.
Qed.

(** ** Histories *)
Definition fetched (h : list act) (i : Z) (b : blob) : list Z :=
  fold_left (fun o a => match a with
    | APosted e => if q_id e =? i then [] else o
    | AFetch j c d => if (j =? i) && match b, c with BParam, BParam | BAux, BAux => true | _, _ => false end then d else o
    | _ => o end) h [].

Definition pushed (h : list act) : list Z := omap (fun a => match a with APush i _ => Some i | _ => None end) h.
Definition evt_pushed (h : list act) : list Z := omap (fun a => match a with AEvtPush i _ => Some i | _ => None end) h.

Definition known (t : Z) : bool := inline t || existsb (Z.eqb t) [18; 29; 23; 24; 26; 25].
Definition type_of (e : elem) : Z := rd 4 0 (take 8 (q_out e)).

(** An answer to [e]: its header and a response of the right size, as much as
    there is room for; or nothing, for a request that cannot be read. *)
Definition reply (e : elem) (d : list Z) : Prop :=
  ((length (q_out e) < 8)%nat \/ known (type_of e) = false) /\ d = [] \/
  (8 <= length (q_out e))%nat /\ exists resp, length resp = resp_size (type_of e) /\ d = take (q_room e) (take 8 (q_out e) ++ resp).

Definition act_ok (ss : Z) (h : list act) (a : act) : Prop :=
  match a with
  | AWild _ _ => False
  | APush i d => exists e, APosted e ∈ h /\ q_id e = i /\ reply e d
  | AEvtPush i d => exists e m, AEvtPosted e ∈ h /\ q_id e = i /\ length m = 16%nat /\ d = take (q_room e) m
  | AHandle t req spans => length req = req_size t /\ Forall (span_ok ss) spans
  | ACall i req p a => p = fetched h i BParam /\ a = fetched h i BAux
  | _ => True
  end.

Definition fine (ss : Z) (h : list act) : Prop := forall pre a post, h = pre ++ a :: post -> act_ok ss pre a.

(** ** The invariant *)
Definition stage_n (n : stage) : Z := match n with WFetchP => 0 | WFetchA => 1 | WCall => 2 | WStoreP => 3 | WStoreA => 4 | WDone => 5 end.

Record work_ok (ss : Z) (h : list act) (i : Z) (w : work) : Prop := {
  wk_id : q_id (w_elem w) = i;
  wk_posted : APosted (w_elem w) ∈ h;
  wk_long : (8 <= length (q_out (w_elem w)))%nat;
  wk_hdr : w_hdr w = take 8 (q_out (w_elem w));
  wk_type : type_of (w_elem w) = if w_ioctl w then 18 else 29;
  wk_p : span_ok ss (w_p w, w_psize w);
  wk_a : span_ok ss (w_a w, w_asize w);
  wk_fetch : stage_n (w_at w) <= 2 -> w_priv_p w = fetched h i BParam /\ w_priv_a w = fetched h i BAux;
  wk_plen : 1 <= stage_n (w_at w) -> forall off, w_p w = Some off -> arr_len (w_priv_p w) = w_psize w;
  wk_alen : 2 <= stage_n (w_at w) -> forall off, w_a w = Some off -> arr_len (w_priv_a w) = w_asize w;
  wk_loop : w_ioctl w = false -> w_p w = None /\ w_a w = None;
  wk_resp : 3 <= stage_n (w_at w) -> length (w_resp w) = if w_ioctl w then 24%nat else 16%nat }.

Record ok (s : dev) (h : list act) : Prop := {
  ok_conf : conf s;
  ok_ids : (q_id <$> d_tx s) ++ (map_to_list (d_works s)).*1 ++ pushed h ≡ₚ seqZ 0 (d_next s);
  ok_next : 0 <= d_next s;
  ok_tx : Forall (fun e => APosted e ∈ h /\ fetched h (q_id e) BParam = [] /\ fetched h (q_id e) BAux = []) (d_tx s);
  ok_bytes : Forall (fun e => Forall byte (q_out e)) (d_tx s);
  ok_works : map_Forall (work_ok (d_slot s) h) (d_works s);
  ok_eids : (q_id <$> d_evt s) ++ evt_pushed h ≡ₚ seqZ 0 (d_enext s);
  ok_enext : 0 <= d_enext s;
  ok_evt : Forall (fun e => AEvtPosted e ∈ h) (d_evt s);
  ok_bhs : Forall (fun m => length m = 16%nat) (d_bhs s) }.

(** ** Lemmas *)
Lemma fetched_app h x i b : fetched (h ++ x) i b = fold_left (fun o a => match a with
    | APosted e => if q_id e =? i then [] else o
    | AFetch j c d => if (j =? i) && match b, c with BParam, BParam | BAux, BAux => true | _, _ => false end then d else o
    | _ => o end) x (fetched h i b).
Proof. apply fold_left_app. Qed.

(** Actions that are not about the request [i]. *)
Definition other (i : Z) (a : act) : Prop := match a with APosted e => q_id e <> i | AFetch j _ _ => j <> i | _ => True end.

Lemma fetched_other h x i b : Forall (other i) x -> fetched (h ++ x) i b = fetched h i b.
Proof.
  rewrite fetched_app. revert h. induction x as [|a x IH] using rev_ind; intros h H; [done|]. rewrite fold_left_app. cbn.
  apply Forall_app in H as [H Ha]. apply Forall_cons in Ha as [Ha _]. rewrite (IH h H). unfold other in Ha.
  destruct a; try done; (case_if; [|done]); exfalso; [by apply Z.eqb_eq in E|]. apply andb_true_iff in E as [E _]. by apply Z.eqb_eq in E.
Qed.

Lemma pushed_app h x : pushed (h ++ x) = pushed h ++ pushed x.
Proof. apply omap_app. Qed.
Lemma evt_pushed_app h x : evt_pushed (h ++ x) = evt_pushed h ++ evt_pushed x.
Proof. apply omap_app. Qed.

Lemma fine_app ss h x : fine ss h -> (forall pre a post, x = pre ++ a :: post -> act_ok ss (h ++ pre) a) -> fine ss (h ++ x).
Proof.
  intros Hh Hx pre a post E. destruct (app_eq_inv _ _ _ _ E) as [(k & E1 & E2)|(k & -> & E2)].
  - destruct k as [|b k].
    + rewrite app_nil_r in E1. subst. cbn in E2. specialize (Hx [] a post (eq_sym E2)). by rewrite app_nil_r in Hx.
    + injection E2 as -> ->. by apply (Hh pre b k).
  - by apply (Hx k a post).
Qed.

Lemma fine_snoc2 ss h a : fine ss h -> act_ok ss h a -> fine ss (h ++ [a]).
Proof.
  intros H Ha. apply fine_app; [done|]. intros pre b post E. destruct pre as [|c pre]; [|by destruct pre]. injection E as <- _. by rewrite app_nil_r.
Qed.

(** *** The keys of the works *)
Lemma keys_new {A} (m : gmap Z A) i w : m !! i = None -> (map_to_list (<[i := w]> m)).*1 ≡ₚ i :: (map_to_list m).*1.
Proof. intros H. by rewrite map_to_list_insert. Qed.
Lemma keys_delete {A} (m : gmap Z A) i w : m !! i = Some w -> (map_to_list m).*1 ≡ₚ i :: (map_to_list (delete i m)).*1.
Proof. intros H. by rewrite <- (map_to_list_delete m i w H). Qed.
Lemma keys_old {A} (m : gmap Z A) i w w' : m !! i = Some w -> (map_to_list (<[i := w']> m)).*1 ≡ₚ (map_to_list m).*1.
Proof. intros H. rewrite <- insert_delete_eq, keys_new by apply lookup_delete_eq. by rewrite <- (keys_delete m i w H). Qed.
Lemma key_in {A} (m : gmap Z A) i w : m !! i = Some w -> i ∈ (map_to_list m).*1.
Proof. intros H. rewrite (keys_delete m i w H). by left. Qed.

Lemma work_frame ss h x i w : Forall (other i) x -> work_ok ss h i w -> work_ok ss (h ++ x) i w.
Proof.
  intros Hx [H1 H2 H3 H4 H5 H6 H7 H8 H9 H10 HL H11]. constructor; try done.
  - apply elem_of_app. by left.
  - by rewrite !fetched_other.
Qed.

Lemma works_frame ss h x (m : gmap Z work) : (forall i, is_Some (m !! i) -> Forall (other i) x) -> map_Forall (work_ok ss h) m -> map_Forall (work_ok ss (h ++ x)) m.
Proof. intros Hx H i w Hi. apply work_frame; [by apply Hx; eexists|by apply H]. Qed.

Lemma tx_frame h x l : (forall e, e ∈ l -> Forall (other (q_id e)) x) ->
  Forall (fun e => APosted e ∈ h /\ fetched h (q_id e) BParam = [] /\ fetched h (q_id e) BAux = []) l ->
  Forall (fun e => APosted e ∈ h ++ x /\ fetched (h ++ x) (q_id e) BParam = [] /\ fetched (h ++ x) (q_id e) BAux = []) l.
Proof.
  intros Hx H. rewrite Forall_forall in *. intros e He. destruct (H e He) as (H1 & H2 & H3). rewrite !fetched_other by auto. split_and!; try done.
  apply elem_of_app. by left.
Qed.

(** *** The shared region *)
Lemma store_in s off size d : conf s -> in_slot (d_slot s) off size -> arr_len d <= size ->
  store s off d = (set_mem s (wr off d (d_mem s)), []) /\ conf (set_mem s (wr off d (d_mem s))).
Proof.
  intros Hc Hi Hd. pose proof Hc as (C1 & C2 & C3 & C4).
  assert (in_slot (d_slot s) off (arr_len d)) as Hi' by (destruct Hi as (k & K1 & K2 & K3); exists k; unfold arr_len in *; lia).
  pose proof (in_slot_inside s off _ Hc Hi') as Hin. unfold store. rewrite Hin. split; [done|]. unfold inside in Hin. zb.
  split_and!; try done. cbn [set_mem d_mem]. unfold arr_len in *. rewrite wr_length; [done|lia|unfold arr_len; lia].
Qed.

Lemma put_in spans l : forall s s' x, conf s -> Forall (span_ok (d_slot s)) spans -> put s spans l = (s', x) ->
  x = [] /\ s' = set_mem s (d_mem s') /\ conf s'.
Proof.
  induction l as [|[k d] l IH]; intros s s' x Hc Hs H; cbn [put] in H; [injection H as <- <-; by destruct s|].
  destruct (spans !! k) as [[[off|] n]|] eqn:Ek; [|by apply IH in H..]. case_if_in H; [by apply IH in H|]. zb.
  pose proof (proj1 (Forall_lookup _ _) Hs k _ Ek) as Ho. cbn in Ho. destruct (store_in s off n d Hc Ho E) as [Es Hc'].
  rewrite Es in H. destruct (put _ _ _) as [s1 x1] eqn:E1. injection H as <- <-.
  destruct (IH _ _ _ Hc' Hs E1) as (-> & -> & H3). split_and!; [done|by destruct s|done].
Qed.

(** ** Every event keeps the invariant *)
Definition ids (s : dev) (h : list act) : list Z := (q_id <$> d_tx s) ++ (map_to_list (d_works s)).*1 ++ pushed h.

Lemma ids_lt s h i : ok s h -> i ∈ ids s h -> 0 <= i < d_next s.
Proof. intros H Hi. unfold ids in Hi. rewrite (ok_ids s h H) in Hi. by apply elem_of_seqZ in Hi. Qed.
Lemma tx_lt s h e : ok s h -> e ∈ d_tx s -> 0 <= q_id e < d_next s.
Proof. intros H He. apply (ids_lt s h); [done|]. apply elem_of_app. left. by apply list_elem_of_fmap_2. Qed.
Lemma work_lt s h i w : ok s h -> d_works s !! i = Some w -> 0 <= i < d_next s.
Proof. intros H Hw. apply (ids_lt s h); [done|]. unfold ids. rewrite !elem_of_app. right. left. by apply (key_in _ i w). Qed.
Lemma ids_nodup s h : ok s h -> NoDup (ids s h).
Proof. intros H. unfold ids. rewrite (ok_ids s h H). apply NoDup_seqZ. Qed.

Lemma seqZ_next n : 0 <= n -> seqZ 0 (n + 1) = seqZ 0 n ++ [n].
Proof. intros H. rewrite seqZ_app by lia. cbn. by rewrite Z.add_0_l. Qed.

Lemma post_ok s h out room : ok s h ->
  let e := Elem (d_next s) (u8 <$> out) room in ok (set_tx s (d_next s + 1) (d_tx s ++ [e])) (h ++ [APosted e]).
Proof.
  intros Hok e. pose proof Hok as [H1 H2 H3 H4 HB H5 H6 H7 H8 H9]. constructor; cbn [set_tx d_tx d_works d_next d_evt d_enext d_bhs d_slot d_shm d_mem]; try done; try lia.
  - rewrite pushed_app. cbn. rewrite fmap_app, seqZ_next, <- H2 by done. cbn. rewrite app_nil_r. rewrite <- !app_assoc. apply Permutation_app_head. cbn.
    rewrite (app_assoc _ (pushed h) [_]). apply Permutation_cons_append.
  - apply Forall_app. split.
    + apply tx_frame; [|done]. intros x Hx. constructor; [|done]. pose proof (tx_lt s h x Hok Hx). cbn. lia.
    + constructor; [|done]. split_and!; [apply elem_of_app; right; by left|by rewrite fetched_app; cbn; rewrite Z.eqb_refl..].
  - apply Forall_app. split; [done|]. constructor; [|done]. cbn. apply Forall_fmap, Forall_true. intros c. unfold byte. cbn. mlia.
  - apply works_frame; [|done]. intros i [w Hw]. constructor; [|done]. pose proof (work_lt s h i w Hok Hw). cbn. lia.
  - by rewrite evt_pushed_app, app_nil_r.
  - eapply Forall_impl; [done|]. intros x Hx. cbn. apply elem_of_app. by left.
Qed.

Lemma evt_post_ok s h room : ok s h ->
  let e := Elem (d_enext s) [] room in ok (set_evt s (d_enext s + 1) (d_evt s ++ [e]) (d_bhs s)) (h ++ [AEvtPosted e]).
Proof.
  intros [H1 H2 H3 H4 HB H5 H6 H7 H8 H9] e. constructor; cbn [set_evt d_tx d_works d_next d_evt d_enext d_bhs d_slot d_shm d_mem]; try done; try lia.
  - by rewrite pushed_app, app_nil_r.
  - apply tx_frame; [|done]. intros x Hx. by constructor.
  - apply works_frame; [|done]. intros i Hi. by constructor.
  - rewrite evt_pushed_app. cbn. rewrite fmap_app, seqZ_next, <- H6 by done. cbn. rewrite app_nil_r, <- !app_assoc. apply Permutation_app_head.
    apply Permutation_cons_append.
  - apply Forall_app. split; [|constructor; [|done]; apply elem_of_app; right; by left]. eapply Forall_impl; [done|]. intros x Hx. cbn. apply elem_of_app. by left.
Qed.

(** Actions that answer nothing, fetch nothing and post nothing. *)
Definition quiet (a : act) : Prop :=
  match a with APosted _ | AEvtPosted _ | APush _ _ | AEvtPush _ _ | AFetch _ _ _ => False | _ => True end.

Lemma quiet_other i x : Forall quiet x -> Forall (other i) x.
Proof. intros H. eapply Forall_impl; [done|]. by intros []. Qed.
Lemma quiet_pushed x : Forall quiet x -> pushed x = [] /\ evt_pushed x = [].
Proof. induction 1 as [|a x Ha Hx IH]; [done|]. cbn. by destruct a. Qed.

Lemma quiet_step_ok s s' h x :
  Forall quiet x -> conf s' -> d_slot s' = d_slot s -> d_next s' = d_next s -> d_tx s' = d_tx s -> d_works s' = d_works s ->
  d_evt s' = d_evt s -> d_enext s' = d_enext s -> Forall (fun m => length m = 16%nat) (d_bhs s') -> ok s h -> ok s' (h ++ x).
Proof.
  intros Hx Hc E1 E2 E3 E4 E5 E6 Hb [H1 H2 H3 H4 HB H5 H6 H7 H8 H9]. destruct (quiet_pushed x Hx) as [P1 P2]. constructor; rewrite ?E1, ?E2, ?E3, ?E4, ?E5, ?E6; try done.
  - by rewrite pushed_app, P1, app_nil_r.
  - apply tx_frame; [|done]. intros e He. by apply quiet_other.
  - apply works_frame; [|done]. intros i Hi. by apply quiet_other.
  - by rewrite evt_pushed_app, P2, app_nil_r.
  - eapply Forall_impl; [done|]. intros e He. cbn. apply elem_of_app. by left.
Qed.

Lemma guestw_ok s h off d : ok s h -> inside s off (arr_len d) = true -> ok (set_mem s (wr off d (d_mem s))) h.
Proof.
  intros Hok Hi. pose proof Hok as [(C1 & C2 & C3 & C4) _ _ _ _ _ _ _ _ H9]. rewrite <- (app_nil_r h). apply (quiet_step_ok s); try done.
  split_and!; try done. cbn [set_mem d_mem]. unfold inside in Hi. zb. unfold arr_len in *. rewrite wr_length; [done|lia|unfold arr_len; lia].
Qed.

Lemma evt_length a b c t : length (evt a b c t) = 16%nat.
Proof. unfold evt. by rewrite !length_app, !le_bytes_length. Qed.

Lemma bh_ok s h s' x : ok s h -> push_bh s = (s', x) ->
  ok s' (h ++ x) /\ (x = [] \/ exists i d, x = [AEvtPush i d; AEvtNotify] /\ act_ok (d_slot s) h (AEvtPush i d)).
Proof.
  intros Hok H. pose proof Hok as [H1 H2 H3 H4 HB H5 H6 H7 H8 H9]. unfold push_bh in H. destruct (d_bhs s) as [|m b] eqn:Eb.
  { injection H as <- <-. rewrite app_nil_r. split; [done|by left]. }
  apply Forall_cons in H9 as [Hm H9]. destruct (d_evt s) as [|e q] eqn:Ee; injection H as <- <-.
  { split; [|by left]. apply (quiet_step_ok s); try done. }
  apply Forall_cons in H8 as [He H8]. split.
  - constructor; cbn [set_evt d_tx d_works d_next d_evt d_enext d_bhs d_slot d_shm d_mem]; try done.
    + by rewrite pushed_app, app_nil_r.
    + apply tx_frame; [|done]. intros y Hy. by repeat constructor.
    + apply works_frame; [|done]. intros i Hi. by repeat constructor.
    + rewrite evt_pushed_app. cbn. rewrite <- H6. cbn. rewrite (app_assoc _ (evt_pushed h) [_]). symmetry. apply Permutation_cons_append.
    + eapply Forall_impl; [done|]. intros y Hy. cbn. apply elem_of_app. by left.
  - right. eexists _, _. split; [done|]. by exists e, m.
Qed.

Definition same (s s' : dev) : Prop :=
  conf s' /\ d_slot s' = d_slot s /\ d_next s' = d_next s /\ d_evt s' = d_evt s /\ d_enext s' = d_enext s /\ d_bhs s' = d_bhs s.

Lemma evt_frame h x l : Forall (fun e => AEvtPosted e ∈ h) l -> Forall (fun e => AEvtPosted e ∈ h ++ x) l.
Proof. intros H. eapply Forall_impl; [done|]. intros e He. cbn. apply elem_of_app. by left. Qed.

(** The first request of the ring is answered. *)
Lemma push_ok s s' h e q x d y :
  d_tx s = e :: q -> Forall quiet x -> Forall quiet y -> same s s' -> d_tx s' = q -> d_works s' = d_works s -> ok s h ->
  ok s' (h ++ x ++ APush (q_id e) d :: y).
Proof.
  intros Eq Hx Hy (Hc & E1 & E2 & E3 & E4 & E5) E6 E7 Hok. pose proof Hok as [H1 H2 H3 H4 HB H5 H6 H7 H8 H9].
  assert (forall i, Forall (other i) (x ++ APush (q_id e) d :: y)) as Ho.
  { intros i. apply Forall_app. split; [by apply quiet_other|]. constructor; [done|by apply quiet_other]. }
  destruct (quiet_pushed x Hx) as [X1 X2]. destruct (quiet_pushed y Hy) as [Y1 Y2]. rewrite Eq in *. apply Forall_cons in H4 as [_ H4]. apply Forall_cons in HB as [_ HB].
  constructor; rewrite ?E1, ?E2, ?E3, ?E4, ?E5, ?E6, ?E7; try done.
  - rewrite !pushed_app, X1. change (pushed (APush (q_id e) d :: y)) with (q_id e :: pushed y). rewrite Y1, <- H2. cbn. rewrite (app_assoc _ (pushed h)). rewrite (app_assoc _ _ [_]). symmetry. apply Permutation_cons_append.
  - by apply tx_frame.
  - by apply works_frame.
  - rewrite !evt_pushed_app, X2. change (evt_pushed (APush (q_id e) d :: y)) with (evt_pushed y). by rewrite Y2, app_nil_r.
  - by apply evt_frame.
Qed.

(** It is handed to the thread pool. *)
Lemma offload_ok s h e q w :
  d_tx s = e :: q -> work_ok (d_slot s) h (q_id e) w -> ok s h -> ok (set_works (set_tx s (d_next s) q) (<[q_id e := w]> (d_works s))) h.
Proof.
  intros Eq Hw Hok. pose proof Hok as [H1 H2 H3 H4 HB H5 H6 H7 H8 H9]. pose proof (ids_nodup s h Hok) as Hn. unfold ids in Hn. rewrite Eq in *.
  apply Forall_cons in H4 as [_ H4]. apply Forall_cons in HB as [_ HB]. cbn in Hn. apply NoDup_cons in Hn as [Hn _].
  assert (d_works s !! q_id e = None) as Hk.
  { destruct (d_works s !! q_id e) as [u|] eqn:E; [|done]. destruct Hn. rewrite !elem_of_app. right. left. by apply (key_in _ _ u). }
  constructor; cbn [set_works set_tx d_tx d_works d_next d_evt d_enext d_bhs d_slot d_shm d_mem]; try done.
  - rewrite keys_new by done. rewrite <- H2. cbn. symmetry. apply Permutation_middle.
  - by apply map_Forall_insert_2.
Qed.

(** A thread of the pool takes a step. *)
Lemma update_ok s s' h i w w' x :
  d_works s !! i = Some w -> pushed x = [] -> evt_pushed x = [] -> (forall j, j <> i -> Forall (other j) x) ->
  same s s' -> d_tx s' = d_tx s -> d_works s' = <[i := w']> (d_works s) -> work_ok (d_slot s) (h ++ x) i w' -> ok s h -> ok s' (h ++ x).
Proof.
  intros Hw X1 X2 Ho (Hc & E1 & E2 & E3 & E4 & E5) E6 E7 Hw' Hok. pose proof Hok as [H1 H2 H3 H4 HB H5 H6 H7 H8 H9].
  constructor; rewrite ?E1, ?E2, ?E3, ?E4, ?E5, ?E6, ?E7; try done.
  - rewrite pushed_app, X1, app_nil_r. by rewrite (keys_old _ i w).
  - apply tx_frame; [|done]. intros e He. apply Ho. intros <-. pose proof (ids_nodup s h Hok) as Hn. apply NoDup_app in Hn as (_ & Hn & _).
    apply (Hn (q_id e)); [by apply list_elem_of_fmap_2|]. apply elem_of_app. left. by apply (key_in _ _ w).
  - intros j u Hj. destruct (decide (j = i)) as [->|Hji]; [rewrite lookup_insert_eq in Hj; by injection Hj as <-|].
    rewrite lookup_insert_ne in Hj by done. apply work_frame; [by apply Ho|by apply H5].
  - by rewrite evt_pushed_app, X2, app_nil_r.
  - by apply evt_frame.
Qed.

(** A completion answers. *)
Lemma finish_ok s h i w d : d_works s !! i = Some w -> ok s h -> ok (set_works s (delete i (d_works s))) (h ++ [APush i d; ANotify]).
Proof.
  intros Hw Hok. pose proof Hok as [H1 H2 H3 H4 HB H5 H6 H7 H8 H9].
  assert (forall j, Forall (other j) [APush i d; ANotify]) as Ho by (intros j; by repeat constructor).
  constructor; cbn [set_works d_tx d_works d_next d_evt d_enext d_bhs d_slot d_shm d_mem]; try done.
  - rewrite pushed_app. cbn. rewrite <- H2, (keys_delete _ i w Hw). apply Permutation_app_head. cbn. rewrite (app_assoc _ _ [_]). symmetry. apply Permutation_cons_append.
  - by apply tx_frame.
  - apply works_frame; [done|]. by apply map_Forall_delete.
  - by rewrite evt_pushed_app, app_nil_r.
  - by apply evt_frame.
Qed.

Lemma fit_bytes n l : Forall byte l -> Forall byte (fit n l).
Proof. intros H. unfold fit. apply Forall_take, Forall_app. split; [done|]. apply Forall_forall. intros c Hc. apply list_elem_of_In, repeat_spec in Hc as ->. unfold byte. lia. Qed.

Lemma spans_in s t req spans : conf s -> Forall byte req -> spans_of s t req = Some spans -> Forall (span_ok (d_slot s)) spans.
Proof.
  intros Hc Hb H. pose proof (proj1 Hc) as C1. assert (forall n off, 0 <= rd n off req) as Hr by (intros n off; apply (rd_range n off req Hb)).
  assert (forall slot size, 0 <= size -> span_ok (d_slot s) (slot_blob s slot size, size)) as Hs.
  { intros slot size H0. destruct (slot_blob s slot size) as [off|] eqn:E; [|done]. by apply (slot_blob_in s slot). }
  unfold spans_of in H. cbv zeta in H. repeat case_if_in H; try done; injection H as <-;
    repeat constructor; try done; try (apply Hs; [apply Hr || lia]).
Qed.

(** Every action of [x] is right where it happens, after [h]. *)
Fixpoint each (ss : Z) (h x : list act) : Prop := match x with [] => True | a :: x => act_ok ss h a /\ each ss (h ++ [a]) x end.

Lemma fine_each ss x : forall h, fine ss h -> each ss h x -> fine ss (h ++ x).
Proof.
  induction x as [|a x IH]; intros h H Hx; [by rewrite app_nil_r|]. destruct Hx as [Ha Hx]. change (a :: x) with ([a] ++ x). rewrite app_assoc.
  apply IH; [|done]. by apply fine_snoc2.
Qed.

Lemma act_ok_push ss h y e d : APosted e ∈ h -> reply e d -> act_ok ss (h ++ y) (APush (q_id e) d).
Proof. intros He Hr. exists e. split_and!; [apply elem_of_app; by left|done|done]. Qed.

Lemma ioctl_work_ok s h e q : ok s h -> d_tx s = e :: q -> (8 <= length (q_out e))%nat -> type_of e = 18 ->
  work_ok (d_slot s) h (q_id e) (ioctl_work (set_tx s (d_next s) q) e (take 8 (q_out e))).
Proof.
  intros [H1 H2 H3 H4 HB H5 H6 H7 H8 H9] Eq Hl Ht. rewrite Eq in *. apply Forall_cons in H4 as [(P1 & P2 & P3) _]. apply Forall_cons in HB as [Hb _].
  assert (Forall byte (iov_to_buf e 8 48)) as Hq by (by apply fit_bytes, Forall_drop). assert (forall n off, 0 <= rd n off (iov_to_buf e 8 48)) as Hr by (intros n off; apply (rd_range n off _ Hq)).
  unfold ioctl_work. set (s0 := set_tx s (d_next s) q). assert (conf s0) as Hc by done.
  assert (forall size slot p n, 0 <= size -> (if 0 <? size then match slot_blob s0 slot size with Some o => (Some o, size) | None => (None, 0) end else (None, size)) = (p, n) ->
    span_ok (d_slot s) (p, n)) as Hs.
  { intros size slot p n H0 E. case_if_in E; [|by injection E as <- <-]. destruct (slot_blob s0 slot size) as [o|] eqn:Eo; injection E as <- <-; [|done].
    by apply (slot_blob_in s0 slot size o Hc H0). }
  destruct (if 0 <? rd 4 12 _ then _ else _) as [p psize] eqn:Ep. destruct (if 0 <? rd 4 20 _ then _ else _) as [a asize] eqn:Ea.
  constructor; cbn [w_elem w_hdr w_ioctl w_p w_a w_psize w_asize w_at w_priv_p w_priv_a stage_n]; try done; try lia.
  - by apply (Hs _ _ _ _ (Hr _ _) Ep).
  - by apply (Hs _ _ _ _ (Hr _ _) Ea).
Qed.

Lemma loop_work_ok s h e q : ok s h -> d_tx s = e :: q -> (8 <= length (q_out e))%nat -> type_of e = 29 ->
  work_ok (d_slot s) h (q_id e) (loop_work e (take 8 (q_out e))).
Proof.
  intros [H1 H2 H3 H4 HB H5 H6 H7 H8 H9] Eq Hl Ht. rewrite Eq in *. apply Forall_cons in H4 as [(P1 & P2 & P3) _]. by constructor.
Qed.

Lemma spans_known s t req : spans_of s t req = None -> t <> 18 -> t <> 29 -> known t = false.
Proof.
  unfold spans_of, known. intros H H1 H2. cbv zeta in H. destruct (inline t); [done|]. cbn. repeat case_if_in H; try done. zb.
  apply Z.eqb_neq in H1, H2. rewrite H1, H2. repeat (apply orb_false_intro); lia.
Qed.

Lemma bad_ok s h e q l n (b : bool) k sh : ok s h -> d_tx s = e :: q -> (length (q_out e) < 8)%nat \/ known (type_of e) = false ->
  let g := (if b then [ALog sh k] else []) ++ [APush (q_id e) []] in
  ok (set_counts (set_tx s (d_next s) q) l n) (h ++ g) /\ each (d_slot s) h g.
Proof.
  intros Hok Eq Hm g. assert (APosted e ∈ h) as He by (pose proof (ok_tx s h Hok) as H4; rewrite Eq in H4; by apply Forall_cons in H4 as [(P1 & _) _]).
  assert (forall y, act_ok (d_slot s) (h ++ y) (APush (q_id e) [])) as Ha by (intros y; apply act_ok_push; [done|by left]).
  split.
  - apply (push_ok s _ h e q (if b then [ALog sh k] else []) [] []); try done; [by destruct b; repeat constructor|]. split_and!; try done. exact (ok_conf s h Hok).
  - unfold g. destruct b; cbn [app each]; split_and!; try done. rewrite <- (app_nil_r h). apply Ha.
Qed.

Lemma tx_ok s h s' x a : ok s h -> nvkvm_tx_handler s x = (s', a) -> ok s' (h ++ a) /\ each (d_slot s) h a /\ d_slot s' = d_slot s.
Proof.
  intros Hok H. pose proof Hok as [H1 H2 H3 H4 HB H5 H6 H7 H8 H9]. unfold nvkvm_tx_handler in H. destruct (d_tx s) as [|e q] eqn:Eq.
  { injection H as <- <-. by rewrite app_nil_r. }
  apply Forall_cons in H4 as [(P1 & _) _]. apply Forall_cons in HB as [Hb _]. case_if_in H.
  { zb. destruct (nvkvm_log_backoff _) as [b k]. injection H as <- <-. destruct (bad_ok s h e q k (d_unknown s) b k true Hok Eq ltac:(left; lia)) as [G1 G2]. done. }
  zb. assert (8 <= length (q_out e))%nat as Hl by lia. fold (type_of e) in H. case_if_in H.
  { zb. injection H as <- <-. rewrite app_nil_r. split_and!; try done. exact (offload_ok s h e q _ Eq (ioctl_work_ok s h e q Hok Eq Hl E0) Hok). }
  case_if_in H.
  { zb. injection H as <- <-. rewrite app_nil_r. split_and!; try done. exact (offload_ok s h e q _ Eq (loop_work_ok s h e q Hok Eq Hl E1) Hok). }
  zb. destruct (spans_of _ _ _) as [spans|] eqn:Es.
  - assert (Forall byte (iov_to_buf e 8 (req_size (type_of e)))) as Hq by (by apply fit_bytes, Forall_drop).
    apply spans_in in Es as Hs; [|done|done]. destruct (put _ _ _) as [s1 y] eqn:Ep. injection H as <- <-.
    destruct (put_in spans _ (set_tx s (d_next s) q) _ _ H1 Hs Ep) as (-> & Em & Hc). cbn [app].
    split; [|split; [|by rewrite Em]].
    + apply (push_ok s _ h e q [AHandle _ _ spans] _ [ANotify]); try done; [by repeat constructor|by repeat constructor| |by rewrite Em|by rewrite Em]. split_and!; try done; by rewrite Em.
    + cbn [each]. split; [split; [apply fit_length|done]|]. split; [|done]. apply act_ok_push; [done|]. right. split; [done|]. eexists. split; [apply fit_length|done].
  - destruct (nvkvm_log_backoff _) as [b k]. injection H as <- <-. 
    destruct (bad_ok s h e q (d_short s) k b k false Hok Eq (or_intror (spans_known _ _ _ Es ltac:(done) ltac:(done)))) as [G1 G2]. done.
Qed.

Lemma fetch_in s off n d x : conf s -> in_slot (d_slot s) off n -> fetch s off n = (d, x) -> x = [] /\ arr_len d = n.
Proof.
  intros Hc Hi H. unfold fetch in H. rewrite (in_slot_inside s off n Hc Hi) in H. injection H as <- <-. split; [done|].
  unfold arr_len. rewrite fit_length. destruct Hi as (k & _ & _ & Hk). lia.
Qed.

Lemma work_step_ok s h i w resp p a s' w' x : ok s h -> d_works s !! i = Some w -> work_step s w resp p a = (s', Some w', x) ->
  same s s' /\ d_tx s' = d_tx s /\ d_works s' = d_works s /\ pushed x = [] /\ evt_pushed x = [] /\ (forall j, j <> i -> Forall (other j) x) /\
  work_ok (d_slot s) (h ++ x) i w' /\ each (d_slot s) h x.
Proof.
  intros Hok Hw H. pose proof (ok_conf s h Hok) as Hc. pose proof (ok_works s h Hok i w Hw) as [H1 H2 H3 H4 H5 H6 H7 H8 H9 H10 HL H11].
  assert (same s s) as Hsame by done. assert (forall y, APosted (w_elem w) ∈ h ++ y) as Hp by (intros y; apply elem_of_app; by left).
  destruct w as [we wh wi wq ps az wp wa wat pp pa rs]. unfold work_step in H. cbn [w_elem w_hdr w_ioctl w_req w_psize w_asize w_p w_a w_at w_priv_p w_priv_a w_resp stage_n] in *. rewrite H1 in H. destruct wat; cbn [stage_n] in *.
  - destruct wp as [off|]; [destruct (fetch _ _ _) as [d y] eqn:Ef; destruct (fetch_in _ _ _ _ _ Hc H6 Ef) as [-> Hd]|]; injection H as <- <- <-; cbn [app].
    + split_and!; try done; [by intros j Hj; repeat constructor|]. constructor; cbn; try done; try lia.
      * rewrite !fetched_app. cbn. rewrite Z.eqb_refl. cbn. split; [done|]. apply H8. lia.
    + rewrite app_nil_r. split_and!; try done; by constructor.
  - destruct wa as [off|]; [destruct (fetch _ _ _) as [d y] eqn:Ef; destruct (fetch_in _ _ _ _ _ Hc H7 Ef) as [-> Hd]|]; injection H as <- <- <-; cbn [app].
    + split_and!; try done; [by intros j Hj; repeat constructor|]. constructor; cbn; try done; try lia.
      * rewrite !fetched_app. cbn. rewrite Z.eqb_refl. cbn. split; [|done]. apply H8. lia.
      * intros _. apply H9. lia.
    + rewrite app_nil_r. split_and!; try done. constructor; cbn; try done; intros _; (apply H8 || apply H9); lia.
  - destruct wi; injection H as <- <- <-.
    + destruct (H8 ltac:(lia)) as [F1 F2]. split_and!; try done; [by intros j Hj; repeat constructor|]. constructor; cbn; try done; try lia.
      * intros _ o Ho. unfold arr_len. rewrite fit_length. by apply (H9 ltac:(lia) o).
      * intros _ o Ho. unfold arr_len. rewrite fit_length. by apply (H10 ltac:(lia) o).
      * intros _. apply fit_length.
    + rewrite app_nil_r. destruct (HL eq_refl) as [-> ->]. split_and!; try done. constructor; cbn; try done; try lia. intros _. apply fit_length.
  - destruct wp as [off|].
    + destruct (store_in s off ps pp Hc H6) as [Es Hc']; [by rewrite (H9 ltac:(lia) off eq_refl)|]. rewrite Es in H. injection H as <- <- <-. cbn [app].
      split_and!; try done; [by intros j Hj; repeat constructor|]. constructor; cbn; try done; lia.
    + injection H as <- <- <-. rewrite app_nil_r. split_and!; try done. constructor; cbn; try done; lia.
  - destruct wa as [off|].
    + destruct (store_in s off az pa Hc H7) as [Es Hc']; [by rewrite (H10 ltac:(lia) off eq_refl)|]. rewrite Es in H. injection H as <- <- <-. cbn [app].
      split_and!; try done; intros j Hj; by repeat constructor.
    + injection H as <- <- <-. rewrite app_nil_r. split_and!; done.
  - done.
Qed.

Lemma work_event_ok s h i resp p a s' x : ok s h -> step s (EWork i resp p a) = (s', x) -> ok s' (h ++ x) /\ each (d_slot s) h x /\ d_slot s' = d_slot s.
Proof.
  intros Hok H. cbn [step] in H. destruct (d_works s !! i) as [w|] eqn:Ew; [|injection H as <- <-; by rewrite app_nil_r].
  destruct (work_step s w resp p a) as [[s1 [w'|]] y] eqn:Es; injection H as <- <-.
  - destruct (work_step_ok s h i w resp p a s1 w' y Hok Ew Es) as (S1 & S2 & S3 & S4 & S5 & S6 & S7 & S8).
    destruct S1 as (Q1 & Q2 & Q3 & Q4 & Q5 & Q6). split_and!; [|done|done]. apply (update_ok s _ h i w w'); try done. cbn [set_works d_works]. by rewrite S3.
  - pose proof (ok_works s h Hok i w Ew) as [H1 H2 H3 H4 H5 H6 H7 H8 H9 H10 HL H11]. unfold work_step in Es. destruct (w_at w) eqn:Ea.
    1: by destruct (w_p w); [destruct (fetch _ _ _)|]. 1: by destruct (w_a w); [destruct (fetch _ _ _)|]. 1: by destruct (w_ioctl w).
    1: by destruct (w_p w); [destruct (store _ _ _)|]. 1: by destruct (w_a w); [destruct (store _ _ _)|].
    injection Es as <- <-. unfold answer. rewrite H1. split_and!; [by apply (finish_ok s h i w)| |done]. cbn [each]. split; [|done]. rewrite <- H1, <- (app_nil_r h).
    apply act_ok_push; [done|]. right. split; [done|]. exists (w_resp w). rewrite H5, H4. split; [|done]. rewrite (H11 ltac:(done)). by destruct (w_ioctl w).
Qed.

Lemma dev_step_ok s h v s' x : ok s h -> step s v = (s', x) -> ok s' (h ++ x) /\ each (d_slot s) h x /\ d_slot s' = d_slot s.
Proof.
  intros Hok H. pose proof Hok as [H1 _ _ _ _ _ _ _ _ H9].
  assert (forall s1, conf s1 -> d_slot s1 = d_slot s -> d_next s1 = d_next s -> d_tx s1 = d_tx s -> d_works s1 = d_works s ->
    d_evt s1 = d_evt s -> d_enext s1 = d_enext s -> Forall (fun m => length m = 16%nat) (d_bhs s1) -> ok s1 (h ++ [])) as Hq by (intros; by apply (quiet_step_ok s)).
  assert (forall a b c t, Forall (fun m => length m = 16%nat) (d_bhs s ++ [evt a b c t])) as He.
  { intros. apply Forall_app. split; [done|]. constructor; [apply evt_length|done]. }
  destruct v as [out room|room|off d|y|i resp p a|a b c|a b c|a b|]; cbn [step] in H.
  - injection H as <- <-. split_and!; try done. by apply post_ok.
  - injection H as <- <-. split_and!; try done. by apply evt_post_ok.
  - case_if_in H; injection H as <- <-; rewrite app_nil_r; split_and!; try done. by apply guestw_ok.
  - by apply (tx_ok s h s' y).
  - by apply (work_event_ok s h i resp p a).
  - injection H as <- <-. split_and!; try done. apply Hq; try done; apply He.
  - injection H as <- <-. unfold nvkvm_virtio_push_ui_info. case_if; split_and!; try done; apply Hq; try done; apply He.
  - injection H as <- <-. unfold nvkvm_virtio_push_buf_release. case_if; split_and!; try done; apply Hq; try done; apply He.
  - destruct (bh_ok s h s' x Hok H) as [G1 G2]. split_and!; [done| |].
    + destruct G2 as [->|(i & d & -> & Ha)]; [done|]. by split_and!.
    + unfold push_bh in H. destruct (d_bhs s); [by injection H as <- _|]. by destruct (d_evt s); injection H as <- _.
Qed.

Lemma dev_run_ok l : forall s h, ok s h -> fine (d_slot s) h -> let '(s', x) := run s l in ok s' (h ++ x) /\ fine (d_slot s) (h ++ x).
Proof.
  induction l as [|v l IH]; intros s h H Hf; cbn [run]; [by rewrite app_nil_r|]. destruct (step s v) as [s1 x1] eqn:Es.
  destruct (dev_step_ok s h v s1 x1 H Es) as (G1 & G2 & G3). pose proof (fine_each _ _ _ Hf G2) as Hf1. rewrite <- G3 in Hf1 |- *.
  specialize (IH s1 _ G1 Hf1). destruct (run s1 l) as [s2 x2]. by rewrite app_assoc.
Qed.

Lemma realize_ok mem driver : arr_len mem = NVKVM_SHM_NSLOTS * NVKVM_SHM_SLOT_DEFAULT_SIZE -> ok (virtio_nvgpu_device_realize mem driver) [].
Proof.
  intros Hm. constructor; try done. split_and!; try done. cbn [virtio_nvgpu_device_realize d_mem d_shm]. rewrite <- Hm. unfold arr_len. rewrite wr_length; [done|done|].
  rewrite Hm. unfold control_block, arr_len. rewrite !length_app, !le_bytes_length, fit_length. done.
Qed.

End VirtioSafe.
