(* ===== verification/VirtioRun.v ===== *)
(** * VirtioRun: every run of the virtio device

    Over the model of [VirtioDev] and the invariant of [VirtioSafe]: what holds
    of every interleaving of the main loop, the thread pool and the guest from
    the moment the device was realized. *)
From stdpp Require Import gmap.
From S2P Require Import Prelude Bytes VirtioDev VirtioSafe.

Module VirtioRun.
Import VirtioDev VirtioSafe.

(** ** Log lines *)
Lemma land_pred n : 0 < n -> (Z.land n (n - 1) =? 0) = (n =? 2 ^ Z.log2 n).
Proof.
  intros Hn. pose proof (Z.log2_spec n Hn) as [L1 L2]. pose proof (Z.log2_nonneg n) as L0. destruct (n =? 2 ^ Z.log2 n) eqn:E; zb.
  - apply Z.eqb_eq. rewrite E at 2. replace (2 ^ Z.log2 n - 1) with (Z.ones (Z.log2 n)) by (rewrite Z.ones_equiv; lia).
    rewrite Z.land_ones by done. rewrite E at 1. apply Z_mod_same_full.
  - apply Z.eqb_neq. intros H. assert (Z.testbit (Z.land n (n - 1)) (Z.log2 n) = false) as Hb by (rewrite H; apply Z.bits_0).
    rewrite Z.land_spec, Z.bit_log2 in Hb by done. assert (Z.log2 (n - 1) = Z.log2 n) as El by (apply Z.log2_unique; lia).
    rewrite <- El, Z.bit_log2 in Hb; [done|]. assert (0 < 2 ^ Z.log2 n) by (apply Z.pow_pos_nonneg; lia). lia.
Qed.

(** The lines written for [n] malformed requests. *)
Definition lines (n : Z) : Z := if n =? 0 then 0 else Z.log2 n + 1.

Lemma lines_next n : 0 <= n -> lines (n + 1) = lines n + if Z.land (n + 1) n =? 0 then 1 else 0.
Proof.
  intros Hn. unfold lines. assert ((Z.land (n + 1) n =? 0) = (n + 1 =? 2 ^ Z.log2 (n + 1))) as -> by (rewrite <- land_pred by lia; do 2 f_equal; lia). replace (n + 1 =? 0) with false by lia.
  destruct (n =? 0) eqn:E; zb; [subst; done|]. pose proof (Z.log2_spec n ltac:(lia)) as [L1 L2].
  destruct (n + 1 =? 2 ^ Z.log2 (n + 1)) eqn:E1; zb.
  - assert (Z.log2 (n + 1) = Z.log2 n + 1); [|lia]. pose proof (Z.log2_nonneg n). destruct (Z.log2_succ_or n) as [Hs|Hs]; [unfold Z.succ in Hs; lia|].
    exfalso. rewrite <- Z.add_1_r in Hs. rewrite Hs in E1. lia.
  - destruct (Z.log2_succ_or n) as [Hs|Hs]; [|rewrite <- Z.add_1_r in Hs; lia]. exfalso. apply E1. rewrite <- Z.add_1_r in Hs.
    pose proof (Z.log2_spec (n + 1) ltac:(lia)) as [M1 M2]. rewrite Hs in M1 |- *. unfold Z.succ in *. lia.
Qed.

Definition is_log (sh : bool) (a : act) : bool := match a with ALog b _ => eqb b sh | _ => false end.
Definition logged (sh : bool) (h : list act) : Z := Z.of_nat (length (base.filter (fun a => is_log sh a = true) h)).

Lemma logged_app sh h x : logged sh (h ++ x) = logged sh h + logged sh x.
Proof. unfold logged. rewrite filter_app, length_app. lia. Qed.

Definition nolog (a : act) : Prop := match a with ALog _ _ => False | _ => True end.
Lemma nolog_logged sh x : Forall nolog x -> logged sh x = 0.
Proof. unfold logged. induction 1 as [|a x Ha Hx IH]; [done|]. rewrite filter_cons. destruct a; try done; case_decide; done. Qed.

Definition counts (s : dev) : Z * Z := (d_short s, d_unknown s).

Lemma put_counts spans l : forall s s' x, put s spans l = (s', x) -> counts s' = counts s /\ Forall nolog x.
Proof.
  induction l as [|[k d] l IH]; intros s s' x H; cbn [put] in H; [injection H as <- <-; by split|].
  destruct (spans !! k) as [[[off|] n]|]; [|by apply IH in H..]. case_if_in H; [by apply IH in H|].
  unfold store in H. case_if_in H; destruct (put _ _ _) as [s1 x1] eqn:E1; injection H as <- <-; destruct (IH _ _ _ E1) as [-> Hx]; split; try done.
  by constructor.
Qed.

Lemma work_counts s w resp p a s' w' x : work_step s w resp p a = (s', w', x) -> counts s' = counts s /\ Forall nolog x.
Proof.
  unfold work_step, fetch, store, answer. intros H.
  destruct (w_at w); try (destruct (w_p w)); try (destruct (w_a w)); repeat case_if_in H; injection H as <- <- <-; split; try done; by repeat constructor.
Qed.

(** One event adds at most one malformed request, and a line if its number is a power of two. *)
Lemma step_counts s v s' x : step s v = (s', x) ->
  counts s' = counts s /\ Forall nolog x \/
  (exists b k y, nvkvm_log_backoff (d_short s) = (b, k) /\ counts s' = (k, d_unknown s) /\ x = (if b then [ALog true k] else []) ++ [APush y []]) \/
  (exists b k y, nvkvm_log_backoff (d_unknown s) = (b, k) /\ counts s' = (d_short s, k) /\ x = (if b then [ALog false k] else []) ++ [APush y []]).
Proof.
  intros H. destruct v as [out room|room|off d|y|i resp p a|a b c|a b c|a b|]; cbn [step] in H.
  - injection H as <- <-. left. split; [done|by repeat constructor].
  - injection H as <- <-. left. split; [done|by repeat constructor].
  - case_if_in H; injection H as <- <-; left; by split.
  - unfold nvkvm_tx_handler in H. destruct (d_tx s) as [|e q]; [injection H as <- <-; left; by split|]. cbn [set_tx d_short d_unknown d_works d_next] in H. case_if_in H.
    + destruct (nvkvm_log_backoff _) as [b k] eqn:Eb. injection H as <- <-. right; left. by exists b, k, (q_id e).
    + case_if_in H; [injection H as <- <-; left; by split|]. case_if_in H; [injection H as <- <-; left; by split|].
      destruct (spans_of _ _ _) as [spans|].
      * destruct (put _ _ _) as [s1 z] eqn:Ep. injection H as <- <-. destruct (put_counts _ _ _ _ _ Ep) as [-> Hz]. left. split; [done|].
        constructor; [done|]. apply Forall_app. split; [done|by repeat constructor].
      * destruct (nvkvm_log_backoff _) as [b k] eqn:Eb. injection H as <- <-. right; right. by exists b, k, (q_id e).
  - destruct (d_works s !! i) as [w|]; [|injection H as <- <-; left; by split]. destruct (work_step _ _ _ _ _) as [[s1 w'] z] eqn:Ew. injection H as <- <-.
    left. exact (work_counts _ _ _ _ _ _ _ _ Ew).
  - injection H as <- <-. left. by split.
  - injection H as <- <-. left. unfold nvkvm_virtio_push_ui_info. case_if; by split.
  - injection H as <- <-. left. unfold nvkvm_virtio_push_buf_release. case_if; by split.
  - unfold push_bh in H. left. destruct (d_bhs s); [injection H as <- <-; by split|]. destruct (d_evt s); injection H as <- <-; split; try done; by repeat constructor.
Qed.

Lemma backoff_lines n b k : 0 <= n < W64 - 1 -> nvkvm_log_backoff n = (b, k) -> k = n + 1 /\ lines k = lines n + if b then 1 else 0.
Proof.
  intros Hn H. unfold nvkvm_log_backoff in H. rewrite u64_small in H by lia. rewrite u64_small in H by lia. injection H as <- <-. split; [done|].
  rewrite lines_next by lia. by replace (n + 1 - 1) with n by lia.
Qed.

Lemma logged_bad sh sh' (b : bool) k y : logged sh ((if b then [ALog sh' k] else []) ++ [APush y []]) = if b && eqb sh' sh then 1 else 0.
Proof. by destruct b, sh, sh'. Qed.

Lemma run_counts l : forall s s' x, run s l = (s', x) ->
  0 <= d_short s -> 0 <= d_unknown s -> d_short s + d_unknown s + Z.of_nat (length l) < W64 ->
  lines (d_short s') = lines (d_short s) + logged true x /\ lines (d_unknown s') = lines (d_unknown s) + logged false x.
Proof.
  induction l as [|v l IH]; intros s s' x H H1 H2 H3; cbn [run] in H; [injection H as <- <-; unfold logged; cbn; lia|].
  destruct (step s v) as [s1 x1] eqn:Es. destruct (run s1 l) as [s2 x2] eqn:Er. injection H as <- <-. cbn [length] in H3. rewrite !logged_app.
  specialize (IH s1 s2 x2 Er).
  destruct (step_counts s v s1 x1 Es) as [[Hc Hn]|[(b & k & y & Hb & Hc & ->)|(b & k & y & Hb & Hc & ->)]]; unfold counts in Hc; injection Hc as C1 C2; rewrite C1, C2 in IH.
  - rewrite !(nolog_logged _ x1 Hn). destruct IH as [I1 I2]; lia.
  - destruct (backoff_lines (d_short s) b k ltac:(lia) Hb) as [-> Hk]. destruct IH as [I1 I2]; [lia..|]. rewrite !logged_bad. cbn [eqb]. rewrite andb_true_r, andb_false_r. lia.
  - destruct (backoff_lines (d_unknown s) b k ltac:(lia) Hb) as [-> Hk]. destruct IH as [I1 I2]; [lia..|]. rewrite !logged_bad. cbn [eqb]. rewrite andb_true_r, andb_false_r. lia.
Qed.

(** ** Theorems *)
Definition region_size : Z := NVKVM_SHM_NSLOTS * NVKVM_SHM_SLOT_DEFAULT_SIZE.

(** C29: Every buffer the guest has posted is still in its ring, or worked on by
    the thread pool, or answered, and it is answered once; an answer is the
    request's own header with a response of its type's size, cut to the room
    there is, or empty for a request that cannot be read; the same for the
    buffers posted for events. *)
Theorem dev_answers_once mem driver l : arr_len mem = region_size ->
  let '(s, acts) := run (virtio_nvgpu_device_realize mem driver) l in
  (q_id <$> d_tx s) ++ (map_to_list (d_works s)).*1 ++ pushed acts ≡ₚ seqZ 0 (d_next s) /\
  (q_id <$> d_evt s) ++ evt_pushed acts ≡ₚ seqZ 0 (d_enext s) /\
  (forall i d, APush i d ∈ acts -> exists e, APosted e ∈ acts /\ q_id e = i /\ reply e d) /\
  (forall i d, AEvtPush i d ∈ acts -> exists e m, AEvtPosted e ∈ acts /\ q_id e = i /\ length m = 16%nat /\ d = take (q_room e) m).
Proof.
  intros Hm. pose proof (dev_run_ok l _ [] (realize_ok mem driver Hm)) as H. destruct (run _ l) as [s acts].
  destruct H as [Hok Hf]; [by intros [] ? ? ?|]. cbn [app] in *. split_and!; [by apply ok_ids|by apply ok_eids| |].
  - intros i d Hi. apply list_elem_of_split in Hi as (pre & post & ->). destruct (Hf pre _ post eq_refl) as (e & E1 & E2 & E3). exists e. split_and!; try done. apply elem_of_app. by left.
  - intros i d Hi. apply list_elem_of_split in Hi as (pre & post & ->). destruct (Hf pre _ post eq_refl) as (e & m & E1 & E2). exists e, m. split_and!; try apply E2. apply elem_of_app. by left.
Qed.

(** C28: Whatever the guest writes to its slots, and when: the device reads and
    writes the shared region only inside it, every blob given to a request
    handler lies in one slot and not in the control block's, and the ioctl
    handler gets the bytes that were copied from the slots at one time, which
    nothing the guest does later changes. *)
Theorem dev_memory_confined mem driver l : arr_len mem = region_size ->
  let '(s, acts) := run (virtio_nvgpu_device_realize mem driver) l in
  (forall off n, AWild off n ∉ acts) /\
  (forall t req spans, AHandle t req spans ∈ acts -> Forall (span_ok NVKVM_SHM_SLOT_DEFAULT_SIZE) spans) /\
  (forall pre i req p a post, acts = pre ++ ACall i req p a :: post -> p = fetched pre i BParam /\ a = fetched pre i BAux).
Proof.
  intros Hm. pose proof (dev_run_ok l _ [] (realize_ok mem driver Hm)) as H. destruct (run _ l) as [s acts].
  destruct H as [Hok Hf]; [by intros [] ? ? ?|]. cbn [app] in *. split_and!.
  - intros off n Hi. apply list_elem_of_split in Hi as (pre & post & ->). exact (Hf pre _ post eq_refl).
  - intros t req spans Hi. apply list_elem_of_split in Hi as (pre & post & ->). exact (proj2 (Hf pre _ post eq_refl)).
  - intros pre i req p a post ->. exact (Hf pre _ post eq_refl).
Qed.

(** A guest that posts malformed requests writes few lines into the host's
    log: for [n] requests without a header, and for [n] of an unknown type, the
    lines are the powers of two up to [n]. *)
Theorem dev_log_bounded mem driver l : Z.of_nat (length l) < W64 ->
  let '(s, acts) := run (virtio_nvgpu_device_realize mem driver) l in
  logged true acts = lines (d_short s) /\ logged false acts = lines (d_unknown s).
Proof.
  intros Hl. destruct (run _ l) as [s acts] eqn:E. destruct (run_counts l _ _ _ E) as [H1 H2]; try done.
Qed.

(** ** Witnesses *)
Definition region : list Z := repeat 0 (Z.to_nat region_size).
Lemma region_length : arr_len region = region_size.
Proof. unfold arr_len, region. rewrite repeat_length. by rewrite Z2Nat.id. Qed.

Definition quiet_ans : ans := Ans [] [].
(** A request without a header, one to read a host file into slot 1, and an
    ioctl without blobs. *)
Definition three_requests : list ev :=
  [EPost [1; 2] 512; EPost (le_bytes 4 26 ++ le_bytes 4 7 ++ le_bytes 4 1 ++ le_bytes 4 1 ++ le_bytes 4 100 ++ le_bytes 4 0) 512;
   EPost (le_bytes 4 18 ++ le_bytes 4 8 ++ repeat 0 48) 12; ETx quiet_ans; ETx (Ans [3] []); ETx quiet_ans; EWork 2 [] [] []; EWork 2 [] [] []].

Definition file_request : list Z := le_bytes 4 1 ++ le_bytes 4 1 ++ le_bytes 4 100 ++ le_bytes 4 0.
Lemma three_requests_run mem driver :
  let '(s, acts) := run (virtio_nvgpu_device_realize mem driver) three_requests in
  drop 3 acts = [ALog true 1; APush 0 []; AHandle 26 file_request [(Some 65536, 100)]; APush 1 (le_bytes 4 26 ++ le_bytes 4 7 ++ [3; 0; 0; 0; 0; 0; 0; 0]); ANotify] /\
  (map_to_list (d_works s)).*1 = [2] /\ d_short s = 1.
Proof.
  assert (forall s acts, run (virtio_nvgpu_device_realize mem driver) three_requests = (s, acts) ->
    drop 3 acts = drop 3 (snd (run (virtio_nvgpu_device_realize mem driver) three_requests)) /\ s = fst (run (virtio_nvgpu_device_realize mem driver) three_requests)) as H
    by (by intros s acts ->).
  destruct (run _ _) as [s acts] eqn:E in |- *. destruct (H s acts E) as [-> ->]. split_and!; vm_compute; reflexivity.
Qed.

Lemma dev_answers_once_witness :
  exists s acts, run (virtio_nvgpu_device_realize region []) three_requests = (s, acts) /\
  (q_id <$> d_tx s) ++ [2] ++ pushed acts ≡ₚ seqZ 0 (d_next s) /\ exists e, q_id e = 0 /\ reply e [].
Proof.
  pose proof (dev_answers_once region [] three_requests region_length) as H. pose proof (three_requests_run region []) as R.
  destruct (run _ _) as [s acts]. destruct R as (R1 & R2 & _). destruct H as (H1 & _ & H3 & _). exists s, acts. rewrite R2 in H1. split_and!; [done|done|].
  destruct (H3 0 []) as (e & _ & E); [|by exists e]. rewrite <- (take_drop 3 acts), R1. apply elem_of_app. right. right. by left.
Defined.

Lemma dev_memory_confined_witness :
  AHandle 26 file_request [(Some 65536, 100)] ∈ snd (run (virtio_nvgpu_device_realize region []) three_requests) /\
  Forall (span_ok NVKVM_SHM_SLOT_DEFAULT_SIZE) [(Some 65536, 100)].
Proof.
  pose proof (dev_memory_confined region [] three_requests region_length) as H. pose proof (three_requests_run region []) as R.
  destruct (run _ _) as [s acts]. destruct R as (R1 & _). destruct H as (_ & H & _). cbn [snd].
  assert (AHandle 26 file_request [(Some 65536, 100)] ∈ acts) as Hi by (rewrite <- (take_drop 3 acts), R1; apply elem_of_app; right; right; right; by left).
  split; [exact Hi|exact (H _ _ _ Hi)].
Defined.

Lemma dev_log_bounded_witness : logged true (snd (run (virtio_nvgpu_device_realize region []) three_requests)) = 1.
Proof.
  pose proof (dev_log_bounded region [] three_requests ltac:(vm_compute; reflexivity)) as H. pose proof (three_requests_run region []) as R.
  destruct (run _ _) as [s acts]. destruct R as (_ & _ & R). destruct H as [H _]. rewrite R in H. exact H.
Defined.

(** ** What the modelling showed *)

(** The answer to a request that cannot be read is put into the used ring
    without telling the guest of it. *)
Lemma malformed_not_notified mem driver :
  snd (run (virtio_nvgpu_device_realize mem driver) [EPost [1; 2] 512; ETx quiet_ans]) = [APosted (Elem 0 [1; 2] 512); ALog true 1; APush 0 []].
Proof. vm_compute. reflexivity. Qed.

End VirtioRun.
