(* ===== verification/GuestDev.v ===== *)
(** * GuestDev: the guest's transport and QEMU's device together

    A forwarded ioctl as the guest's transport ([GuestTx]) posts it and the
    device ([VirtioDev]) serves it: the bytes of the message, the blobs in the
    shared slots, the call of the handler, and the answer in the guest's
    record.  The device's side of a request is what the host does in the
    guest's model. *)
From stdpp Require Import gmap.
From S2P Require Import Prelude Bytes Abi Wire GuestTx GuestInv GuestSafe GuestRun VirtioDev VirtioSafe VirtioRun.

Module GuestDev.

(** [nvkvm_req_ioctl_on_isolate] behind its header, as the guest fills it. *)
Definition ioctl_words (m : GuestTx.gmsg) (isolate handle cmd flags session : Z) : list Z :=
  u32 <$> [GuestTx.g_type m; GuestTx.g_txn m; isolate; handle; cmd; GuestTx.g_psize m; GuestTx.g_pslot m; GuestTx.g_asize m; GuestTx.g_aslot m;
           GuestTx.g_vn m; GuestTx.g_vslot m; flags; session; 0].
Definition ioctl_bytes (m : GuestTx.gmsg) (isolate handle cmd flags session : Z) : list Z :=
  Wire.pack (Wire.w4 (ioctl_words m isolate handle cmd flags session)).

(** What the device does with it: post, turn of the request loop, six turns of a thread. *)
Definition serve (i : Z) (out resp p a : list Z) : list VirtioDev.ev :=
  VirtioDev.EPost out 512 :: VirtioDev.ETx (VirtioDev.Ans [] []) :: repeat (VirtioDev.EWork i resp p a) 6.

(** The bytes of a blob in its slot. *)
Definition blob_bytes (g : GuestTx.guest) (slot size : Z) : list Z := if slot =? 0 then [] else GuestSafe.content g slot (Z.to_nat size).

(** ** The message *)
Lemma words_fit l : Forall Wire.fits (Wire.w4 (u32 <$> l)).
Proof.
  unfold Wire.w4. apply Forall_fmap, Forall_fmap, Forall_true. intros x. unfold Wire.fits. cbn. mlia.
Qed.

Lemma le_bytes_u8 n v : u8 <$> le_bytes n v = le_bytes n v.
Proof. revert v. induction n as [|n IH]; intros v; [done|]. cbn [le_bytes fmap list_fmap]. f_equal; [unfold u8; apply Zmod_mod|apply IH]. Qed.

Lemma pack_u8 fs : u8 <$> Wire.pack fs = Wire.pack fs.
Proof. unfold Wire.pack. induction fs as [|[w v] fs IH]; [done|]. cbn [fmap list_fmap concat]. rewrite fmap_app, le_bytes_u8. f_equal. exact IH. Qed.

Lemma pack_w4_length l : length (Wire.pack (Wire.w4 l)) = (4 * length l)%nat.
Proof. unfold Wire.pack, Wire.w4. induction l as [|x l IH]; [done|]. cbn [fmap list_fmap concat length]. rewrite length_app, le_bytes_length. cbn [fst]. rewrite IH. lia. Qed.

(** What the device reads from the bytes behind the header. *)
Lemma request_field x y l k v :
  Wire.field 4 k (Wire.w4 (u32 <$> l)) = Some v -> length l = 12%nat ->
  rd 4 k (VirtioDev.fit 48 (drop 8 (Wire.pack (Wire.w4 (u32 <$> x :: y :: l))))) = v.
Proof.
  intros Hk Hl. assert (drop 8 (Wire.pack (Wire.w4 (u32 <$> x :: y :: l))) = Wire.pack (Wire.w4 (u32 <$> l))) as -> by done.
  unfold VirtioDev.fit. rewrite take_app_length' by (rewrite pack_w4_length, length_fmap, Hl; done).
  rewrite <- (app_nil_r (Wire.pack _)). apply Wire.rd_pack; [done|apply words_fit].
Qed.

(** A message in flight names slots of the guest, and blobs that fit them. *)
Lemma message_slots h g L c m w : GuestSafe.ok h g L -> GuestTx.g_vq g !! c = Some m ->
  let '(slot, size) := GuestTx.host_slot m w in slot = 0 \/ 1 <= slot < 256 /\ 0 <= size <= GuestTx.g_slot_size g.
Proof.
  intros Hok Hc. destruct (GuestRun.outstanding h g L c m Hok Hc) as (f & Hf & _ & Hw & ->). destruct Hok as [H1 H2 _ _ _ _ H7].
  rewrite Forall_forall in H7. destruct (H7 f Hf) as (F1 & F2 & _). destruct (GuestTx.host_slot (GuestTx.message f) w) as [i n] eqn:E.
  destruct (decide (i = 0)) as [->|Hi]; [by left|]. right. destruct (GuestSafe.host_held f w i n Hw F1 E Hi) as (k & Hk & ->).
  pose proof (GuestSafe.held_sized _ f w i k F1 F2 Hk). destruct (GuestSafe.slots_in g L f H2 Hf) as (R & HR & _).
  pose proof (GuestSafe.own_range g f R i HR (GuestSafe.held_own f w i k Hk)) as Hr. unfold GuestTx.NVKVM_SHM_NSLOTS in Hr. lia.
Qed.

(** ** The device *)
Section device.
Import VirtioDev.

(** Where the device finds a blob, and how long it takes it to be. *)
Definition blob_at (s : dev) (size slot : Z) : option Z * Z :=
  if 0 <? size then match slot_blob s slot size with Some o => (Some o, size) | None => (None, 0) end else (None, size).

Lemma ioctl_work_eq s e hdr : ioctl_work s e hdr = (let req := iov_to_buf e 8 48 in
  let '(p, ps) := blob_at s (rd 4 12 req) (rd 4 16 req) in let '(a, az) := blob_at s (rd 4 20 req) (rd 4 24 req) in
  Work e hdr true (wr 20 (le_bytes 4 az) (wr 12 (le_bytes 4 ps) req)) ps az p a WFetchP [] [] []).
Proof. done. Qed.

Lemma blob_at_slot s size slot : VirtioSafe.conf s -> d_slot s = 65536 -> slot = 0 \/ 1 <= slot < 256 /\ 0 <= size <= 65536 ->
  exists n, let o := if (slot =? 0) || (size =? 0) then None else Some (slot * 65536) in
    blob_at s (u32 size) (u32 slot) = (o, n) /\ (slot <> 0 -> n = size) /\ VirtioSafe.span_ok 65536 (o, n).
Proof.
  intros (C1 & C2 & C3 & C4) Hs [->|[H1 H2]].
  - unfold blob_at. case_if; eexists; by split_and!.
  - exists size. split_and!; [|done|by case_if; [|exists slot; unfold NVKVM_SHM_NSLOTS; lia]]. unfold blob_at. rewrite !u32_small by lia. replace (slot =? 0) with false by lia. cbn [orb]. case_if.
    + replace (size =? 0) with false by lia. unfold slot_blob, slot_valid, NVKVM_SHM_NSLOTS, slot_ptr in *. rewrite Hs in *. rewrite C2.
      replace (1 <=? slot) with true by lia. replace (slot <? 256) with true by lia. cbn [andb negb]. replace (65536 <? size) with false by lia.
      rewrite (u64_small (slot * 65536)) by lia. rewrite u64_small by lia. by replace (256 * 65536 <? slot * 65536 + size) with false by lia.
    + replace (size =? 0) with true by lia. done.
Qed.

Definition fetched_of (s : dev) (o : option Z) (n : Z) : list Z :=
  match o with Some off => fit (Z.to_nat n) (drop (Z.to_nat off) (d_mem s)) | None => [] end.
Definition stored_of (m : list Z) (o : option Z) (d : list Z) : list Z := match o with Some off => wr off d m | None => m end.

Lemma run_cons s v l s1 x1 : step s v = (s1, x1) -> run s (v :: l) = (fst (run s1 l), x1 ++ snd (run s1 l)).
Proof. intros H. cbn [run]. rewrite H. by destruct (run s1 l). Qed.

(** The turns of a pool thread on the work [i], one by one. *)
Section turns.
Context (i : Z) (e : elem) (hdr req : list Z) (ps az : Z) (wp wa : option Z) (resp p a : list Z) (He : q_id e = i).
Definition at_stage (n : stage) (pp pa r : list Z) : work := Work e hdr true req ps az wp wa n pp pa r.

Lemma turn_fetch_p s : d_works s !! i = Some (at_stage WFetchP [] [] []) ->
  exists x, step s (EWork i resp p a) = (set_works s (<[i := at_stage WFetchA (fetched_of s wp ps) [] []]> (d_works s)), x).
Proof. intros H. cbn [step]. rewrite H. unfold work_step, at_stage. cbn [w_at w_p]. destruct wp; by eexists. Qed.

Lemma turn_fetch_a s pp : d_works s !! i = Some (at_stage WFetchA pp [] []) ->
  exists x, step s (EWork i resp p a) = (set_works s (<[i := at_stage WCall pp (fetched_of s wa az) []]> (d_works s)), x).
Proof. intros H. cbn [step]. rewrite H. unfold work_step, at_stage. cbn [w_at w_a]. destruct wa; by eexists. Qed.

Lemma turn_call s pp pa : d_works s !! i = Some (at_stage WCall pp pa []) ->
  step s (EWork i resp p a) =
    (set_works s (<[i := at_stage WStoreP (fit (length pp) p) (fit (length pa) a) (fit 24 resp)]> (d_works s)), [ACall i req pp pa]).
Proof. intros H. cbn [step]. rewrite H. unfold work_step, at_stage. cbn. by rewrite He. Qed.

Lemma turn_store_p s pp pa r : d_works s !! i = Some (at_stage WStoreP pp pa r) -> VirtioSafe.conf s -> VirtioSafe.span_ok (d_slot s) (wp, ps) ->
  (wp <> None -> arr_len pp = ps) ->
  exists x, step s (EWork i resp p a) = (set_works (set_mem s (stored_of (d_mem s) wp pp)) (<[i := at_stage WStoreA pp pa r]> (d_works s)), x) /\
    VirtioSafe.conf (set_mem s (stored_of (d_mem s) wp pp)).
Proof.
  intros H Hc Hp Hl. cbn [step]. rewrite H. unfold work_step, at_stage. cbn [w_at w_p w_priv_p]. destruct wp as [off|]; [|destruct s; by eexists].
  destruct (VirtioSafe.store_in s off ps pp Hc Hp) as [-> Hc']; [by rewrite Hl|]. by eexists.
Qed.

Lemma turn_store_a s pp pa r : d_works s !! i = Some (at_stage WStoreA pp pa r) -> VirtioSafe.conf s -> VirtioSafe.span_ok (d_slot s) (wa, az) ->
  (wa <> None -> arr_len pa = az) ->
  exists x, step s (EWork i resp p a) = (set_works (set_mem s (stored_of (d_mem s) wa pa)) (<[i := at_stage WDone pp pa r]> (d_works s)), x).
Proof.
  intros H Hc Hp Hl. cbn [step]. rewrite H. unfold work_step, at_stage. cbn [w_at w_a w_priv_a]. destruct wa as [off|]; [|destruct s; by eexists].
  destruct (VirtioSafe.store_in s off az pa Hc Hp) as [-> _]; [by rewrite Hl|]. by eexists.
Qed.

Lemma turn_done s pp pa r : d_works s !! i = Some (at_stage WDone pp pa r) ->
  step s (EWork i resp p a) = (set_works s (delete i (d_works s)), [APush i (iov_from_buf e (hdr ++ r)); ANotify]).
Proof. intros H. cbn [step]. rewrite H. unfold work_step, at_stage, answer. cbn. by rewrite He. Qed.

Lemma fetched_len s o n : VirtioSafe.span_ok (d_slot s) (o, n) -> o <> None -> arr_len (fetched_of s o n) = n.
Proof. destruct o as [off|]; [|done]. intros (k & _ & _ & Hk) _. cbn. unfold arr_len. rewrite VirtioSafe.fit_length. lia. Qed.

(** Six turns, undisturbed. *)
Lemma six_turns s :
  VirtioSafe.conf s -> d_works s !! i = Some (at_stage WFetchP [] [] []) ->
  VirtioSafe.span_ok (d_slot s) (wp, ps) -> VirtioSafe.span_ok (d_slot s) (wa, az) ->
  let p0 := fetched_of s wp ps in let a0 := fetched_of s wa az in
  let '(s', acts) := run s (repeat (EWork i resp p a) 6) in
  d_mem s' = stored_of (stored_of (d_mem s) wp (fit (length p0) p)) wa (fit (length a0) a) /\
  ACall i req p0 a0 ∈ acts /\ APush i (iov_from_buf e (hdr ++ fit 24 resp)) ∈ acts.
Proof.
  intros Hc Hw Hp Ha p0 a0. cbn [repeat].
  destruct (turn_fetch_p s Hw) as [x1 E1]. rewrite (run_cons _ _ _ _ _ E1). set (s1 := set_works s _).
  destruct (turn_fetch_a s1 p0 ltac:(apply lookup_insert_eq)) as [x2 E2]. rewrite (run_cons _ _ _ _ _ E2). set (s2 := set_works s1 _).
  pose proof (turn_call s2 p0 a0 ltac:(apply lookup_insert_eq)) as E3. rewrite (run_cons _ _ _ _ _ E3). set (s3 := set_works s2 _).
  destruct (turn_store_p s3 (fit (length p0) p) (fit (length a0) a) (fit 24 resp) ltac:(apply lookup_insert_eq) Hc Hp) as (x4 & E4 & Hc4).
  { intros Hn. unfold arr_len. rewrite VirtioSafe.fit_length. by apply fetched_len. }
  rewrite (run_cons _ _ _ _ _ E4). set (s4 := set_works _ _).
  destruct (turn_store_a s4 (fit (length p0) p) (fit (length a0) a) (fit 24 resp) ltac:(apply lookup_insert_eq) Hc4 Ha) as (x5 & E5).
  { intros Hn. unfold arr_len. rewrite VirtioSafe.fit_length. by apply fetched_len. }
  rewrite (run_cons _ _ _ _ _ E5). set (s5 := set_works _ _).
  pose proof (turn_done s5 _ _ _ ltac:(apply lookup_insert_eq)) as E6. rewrite (run_cons _ _ _ _ _ E6). cbn [run fst snd].
  split_and!; [done| |].
  - rewrite !elem_of_app. right. right. left. by left.
  - rewrite !elem_of_app. do 5 right. left. by left.
Qed.
End turns.

Lemma fit_take n l : (n <= length l)%nat -> fit n l = take n l.
Proof. intros H. unfold fit. by rewrite take_app_le. Qed.

(** The request loop hands a posted ioctl to the pool. *)
Lemma ioctl_posted s out q room : d_tx s = [] -> u8 <$> out = out -> (8 <= length out)%nat -> rd 4 0 (take 8 out) = 18 ->
  let e := Elem (d_next s) out room in let s1 := set_tx s (d_next s + 1) [] in
  exists x, run s (EPost out room :: ETx (Ans [] []) :: q) =
    (fst (run (set_works s1 (<[d_next s := ioctl_work s1 e (take 8 out)]> (d_works s))) q),
     x ++ snd (run (set_works s1 (<[d_next s := ioctl_work s1 e (take 8 out)]> (d_works s))) q)).
Proof.
  intros Ht Hb Hl Ho e s1. rewrite (run_cons s (EPost out room) _ (set_tx s (d_next s + 1) [e]) [APosted e]) by (cbn [step]; by rewrite Ht, Hb).
  rewrite (run_cons _ (ETx (Ans [] [])) q (set_works s1 (<[d_next s := ioctl_work s1 e (take 8 out)]> (d_works s))) []).
  - cbn [fst snd]. by eexists.
  - cbn [step]. unfold nvkvm_tx_handler. cbn [set_tx d_tx q_out]. replace (Z.of_nat (length (q_out e)) <? 8) with false by (cbn; lia).
    unfold e at 1. cbn [q_out]. rewrite Ho. done.
Qed.
End device.

(** ** The guest *)
Lemma host_store gs c m w d slot size : GuestTx.g_vq (GuestTx.sh gs) !! c = Some m -> GuestTx.host_slot m w = (slot, size) -> (slot <> 0 -> arr_len d <= size) ->
  fst (GuestTx.step gs (GuestTx.EHostW c w d)) =
    GuestTx.Sys (GuestTx.set_mem (GuestTx.sh gs) (if slot =? 0 then GuestTx.g_mem (GuestTx.sh gs) else wr (slot * GuestTx.g_slot_size (GuestTx.sh gs)) d (GuestTx.g_mem (GuestTx.sh gs)))) (GuestTx.th gs).
Proof.
  intros Hc Hs Hd. cbn [GuestTx.step]. rewrite Hc, Hs. destruct (slot =? 0) eqn:E; zb; cbn [orb].
  - destruct gs as [g th]. by destruct g.
  - replace (size <? arr_len d) with false by (specialize (Hd E); lia). done.
Qed.

(** A blob of the guest, as the device stores a result over it. *)
Lemma blob_view h g L c m w slot size n dv d :
  GuestSafe.ok h g L -> GuestTx.g_vq g !! c = Some m -> GuestTx.host_slot m w = (slot, size) -> GuestTx.g_slot_size g = 65536 ->
  VirtioDev.d_mem dv = GuestTx.g_mem g -> (slot <> 0 -> n = size) ->
  let o := if (slot =? 0) || (size =? 0) then None else Some (slot * 65536) in
  let b := blob_bytes g slot size in let d1 := VirtioDev.fit (length b) d in
  fetched_of dv o n = b /\ (slot <> 0 -> arr_len d1 <= size) /\
  forall mem, stored_of mem o d1 = if slot =? 0 then mem else wr (slot * 65536) d1 mem.
Proof.
  intros Hok Hc Hs Hss Hm Hn o b d1. pose proof (message_slots h g L c m w Hok Hc) as H. rewrite Hs, Hss in H. unfold o, d1, b, blob_bytes.
  destruct (slot =? 0) eqn:E; zb; [by cbn|]. destruct H as [?|[H1 H2]]; [done|]. rewrite (Hn E). cbn [orb].
  assert (length (GuestSafe.content g slot (Z.to_nat size)) = Z.to_nat size) as Hl.
  { apply GuestSafe.content_length; [by apply (GuestSafe.ok_conf h g L)|unfold GuestTx.NVKVM_SHM_NSLOTS; lia|rewrite Hss; lia]. }
  rewrite Hl. assert (arr_len (VirtioDev.fit (Z.to_nat size) d) = size) as Hd by (unfold arr_len; rewrite VirtioSafe.fit_length; lia).
  destruct (size =? 0) eqn:E0; zb.
  - subst size. cbn [fetched_of stored_of]. split_and!; [|lia|].
    + symmetry. by apply nil_length_inv.
    + intros mem. unfold VirtioDev.fit. cbn [Z.to_nat take]. by rewrite wr_nil.
  - cbn [fetched_of stored_of]. split_and!; [|lia|done]. unfold GuestSafe.content in *. rewrite Hss in *. rewrite Hm. apply fit_take.
    rewrite length_take in Hl. lia.
Qed.

Lemma rd_app n off l r : Z.of_nat (length l) <= off -> rd n off (l ++ r) = rd n (off - Z.of_nat (length l)) r.
Proof. intros H. unfold rd. rewrite drop_app_ge by lia. do 3 f_equal. lia. Qed.

(** The guest takes the fields of the answer from where the device put them. *)
Lemma answer_fields hdr r x : length hdr = 8%nat -> rd 4 0 hdr = 18 ->
  GuestTx.nvkvm_tx_done (hdr ++ r) x = GuestTx.fill (rd 8 0 r) (s32 (rd 4 8 r)) (rd 4 12 r) (rd 8 16 r) x.
Proof.
  intros Hl Ht. unfold GuestTx.nvkvm_tx_done. assert (rd 4 0 (hdr ++ r) = 18) as ->.
  { rewrite <- Ht. unfold rd. cbn [Z.to_nat]. rewrite !drop_0. f_equal. apply take_app_le. lia. }
  cbn -[rd s32]. rewrite !(rd_app _ _ hdr) by lia. by rewrite Hl.
Qed.

(** The request the handler gets names what the guest named. *)
Lemma request_kept req ps az off : length req = 48%nat -> (off = 0 \/ off = 4 \/ off = 8) ->
  rd 4 off (wr 20 (le_bytes 4 az) (wr 12 (le_bytes 4 ps) req)) = rd 4 off req.
Proof.
  intros Hl Ho. assert (arr_len (wr 12 (le_bytes 4 ps) req) = 48) as Hl'.
  { unfold arr_len. rewrite wr_length; [by rewrite Hl|done|]. rewrite le_bytes_arr_len. unfold arr_len. lia. }
  rewrite rd_wr_out; [apply rd_wr_out|..]; rewrite ?le_bytes_arr_len, ?Hl'; unfold arr_len; lia.
Qed.

Lemma guest_run_cons s v l : fst (GuestTx.run s (v :: l)) = fst (GuestTx.run (fst (GuestTx.step s v)) l).
Proof. cbn [GuestTx.run]. destruct (GuestTx.step s v) as [s1 x1]. cbn [fst]. by destruct (GuestTx.run s1 l). Qed.

Lemma size_kept l : forall s, GuestTx.g_slot_size (GuestTx.sh (fst (GuestTx.run s l))) = GuestTx.g_slot_size (GuestTx.sh s).
Proof.
  induction l as [|v l IH]; intros s; [done|]. rewrite guest_run_cons, IH. clear IH.
  destruct v as [x type|x iso want aset q b|x e|c b|c w d]; cbn [GuestTx.step]; try (unfold GuestTx.begin; by destruct (GuestTx.th s !! x)).
  - destruct (GuestTx.th s !! x) as [[|f rest]|]; try done. destruct (GuestTx.call_step (GuestTx.sh s) f e) as [[g fs] a] eqn:E. cbn [fst GuestTx.sh].
    by apply GuestSafe.step_config in E as (-> & _).
  - destruct (GuestTx.g_vq (GuestTx.sh s) !! c); [|done]. cbv zeta. destruct (GuestTx.g_heap _ !! c) as [x|]; [|done]. by destruct (GuestTx.n_resp x).
  - destruct (GuestTx.g_vq (GuestTx.sh s) !! c) as [m|]; [|done]. destruct (GuestTx.host_slot m w) as [i n]. by case_if.
Qed.

Lemma host_reply gs c m b x : GuestTx.g_vq (GuestTx.sh gs) !! c = Some m -> GuestTx.g_heap (GuestTx.sh gs) !! c = Some x -> GuestTx.n_resp x = true ->
  let g := GuestTx.set_vq (GuestTx.sh gs) (delete c (GuestTx.g_vq (GuestTx.sh gs))) in
  fst (GuestTx.step gs (GuestTx.EHost c b)) = GuestTx.Sys (GuestTx.set_heap g (<[c := GuestTx.nvkvm_tx_done b x]> (GuestTx.g_heap g))) (GuestTx.th gs).
Proof. intros Hc Hx Hr. cbn [GuestTx.step]. rewrite Hc. cbv zeta. cbn [GuestTx.set_vq GuestTx.g_heap]. rewrite Hx. cbv beta iota. by rewrite Hr. Qed.

(** The host's two stores and its answer. *)
Lemma host_serves gs h c m dp da b :
  GuestSafe.ok h (GuestTx.sh gs) (GuestSafe.calls gs) -> GuestTx.g_vq (GuestTx.sh gs) !! c = Some m ->
  (GuestTx.g_pslot m <> 0 -> arr_len dp <= GuestTx.g_psize m) -> (GuestTx.g_aslot m <> 0 -> arr_len da <= GuestTx.g_asize m) ->
  let gs' := fst (GuestTx.run gs [GuestTx.EHostW c GuestTx.BParam dp; GuestTx.EHostW c GuestTx.BAux da; GuestTx.EHost c b]) in
  let put slot d mem := if slot =? 0 then mem else wr (slot * GuestTx.g_slot_size (GuestTx.sh gs)) d mem in
  GuestTx.g_mem (GuestTx.sh gs') = put (GuestTx.g_aslot m) da (put (GuestTx.g_pslot m) dp (GuestTx.g_mem (GuestTx.sh gs))) /\
  exists x, GuestTx.g_heap (GuestTx.sh gs) !! c = Some x /\ GuestTx.g_heap (GuestTx.sh gs') !! c = Some (GuestTx.nvkvm_tx_done b x).
Proof.
  intros Hok Hc Hp Ha gs' put. destruct (GuestSafe.host_answers h _ _ c m b Hok Hc) as (x & Hx & Hr & _). unfold gs'. rewrite !guest_run_cons.
  rewrite (host_store gs c m GuestTx.BParam dp _ _ Hc eq_refl Hp). 
  match goal with |- context [GuestTx.step ?g (GuestTx.EHostW c GuestTx.BAux da)] => rewrite (host_store g c m GuestTx.BAux da _ _ Hc eq_refl Ha) end.
  match goal with |- context [GuestTx.step ?g (GuestTx.EHost c b)] => rewrite (host_reply g c m b x Hc Hx Hr) end.
  split; [done|]. exists x. split; [done|]. apply lookup_insert_eq.
Qed.

(** C27: The device does for a forwarded ioctl what the guest's transport takes
    the host to do: its handler is called with the isolate, the descriptor, the
    command and the blobs that the guest put into the slots; the shared region
    is afterwards as if the host had stored the two results over the blobs of
    that message; and the answer fills the guest's record with the response's
    fields. *)
Theorem device_serves_guest mem l c m dv isolate handle cmd flags session resp p a :
  GuestRun.up 3 65536 mem ->
  let gs := fst (GuestTx.run (GuestTx.nvkvm_virtio_init 65536 mem) l) in
  GuestTx.g_vq (GuestTx.sh gs) !! c = Some m -> GuestTx.g_type m = 18 ->
  VirtioSafe.conf dv -> VirtioDev.d_slot dv = 65536 -> VirtioDev.d_tx dv = [] -> VirtioDev.d_mem dv = GuestTx.g_mem (GuestTx.sh gs) ->
  let out := ioctl_bytes m isolate handle cmd flags session in let r := VirtioDev.fit 24 resp in
  let p0 := blob_bytes (GuestTx.sh gs) (GuestTx.g_pslot m) (GuestTx.g_psize m) in
  let a0 := blob_bytes (GuestTx.sh gs) (GuestTx.g_aslot m) (GuestTx.g_asize m) in
  let '(dv', acts) := VirtioDev.run dv (serve (VirtioDev.d_next dv) out resp p a) in
  let gs' := fst (GuestTx.run gs [GuestTx.EHostW c GuestTx.BParam (VirtioDev.fit (length p0) p); GuestTx.EHostW c GuestTx.BAux (VirtioDev.fit (length a0) a);
                                  GuestTx.EHost c (take 8 out ++ r)]) in
  (exists req, VirtioDev.ACall (VirtioDev.d_next dv) req p0 a0 ∈ acts /\ rd 4 0 req = u32 isolate /\ rd 4 4 req = u32 handle /\ rd 4 8 req = u32 cmd) /\
  VirtioDev.APush (VirtioDev.d_next dv) (take 8 out ++ r) ∈ acts /\
  VirtioDev.d_mem dv' = GuestTx.g_mem (GuestTx.sh gs') /\
  exists x, GuestTx.g_heap (GuestTx.sh gs) !! c = Some x /\
    GuestTx.g_heap (GuestTx.sh gs') !! c = Some (GuestTx.fill (rd 8 0 r) (s32 (rd 4 8 r)) (rd 4 12 r) (rd 8 16 r) x).
Proof.
  intros Hup gs Hc Ht Hcf Hds Htx Hmem out r p0 a0. destruct (GuestRun.up_run 3 65536 mem l Hup) as (Hok & _). fold gs in Hok.
  assert (GuestTx.g_slot_size (GuestTx.sh gs) = 65536) as Hss by (unfold gs; by rewrite size_kept).
  assert (u8 <$> out = out /\ length out = 56%nat) as [Hb Hlen] by (split; [apply pack_u8|unfold out, ioctl_bytes; by rewrite pack_w4_length]).
  assert (rd 4 0 (take 8 out) = 18) as Hty.
  { replace (take 8 out) with (Wire.pack (Wire.w4 (u32 <$> [GuestTx.g_type m; GuestTx.g_txn m])) ++ []) by done.
    rewrite Ht. by apply Wire.rd_pack; [|apply words_fit]. }
  unfold serve. destruct (ioctl_posted dv out (repeat (VirtioDev.EWork (VirtioDev.d_next dv) resp p a) 6) 512 Htx Hb ltac:(lia) Hty) as [x0 E0]. rewrite E0.
  set (s1 := VirtioDev.set_tx _ _ _) in *. set (e := VirtioDev.Elem _ _ _) in *.
  assert (forall k v, Wire.field 4 k (Wire.w4 (u32 <$> [isolate; handle; cmd; GuestTx.g_psize m; GuestTx.g_pslot m; GuestTx.g_asize m; GuestTx.g_aslot m;
           GuestTx.g_vn m; GuestTx.g_vslot m; flags; session; 0])) = Some v -> rd 4 k (VirtioDev.iov_to_buf e 8 48) = v) as Hf.
  { intros k v Hk. by apply (request_field (GuestTx.g_type m) (GuestTx.g_txn m)). }
  destruct (blob_at_slot s1 (GuestTx.g_psize m) (GuestTx.g_pslot m) Hcf Hds) as (ps & Bp & Np & Kp).
  { pose proof (message_slots _ _ _ c m GuestTx.BParam Hok Hc) as H. cbn in H. by rewrite Hss in H. }
  destruct (blob_at_slot s1 (GuestTx.g_asize m) (GuestTx.g_aslot m) Hcf Hds) as (az & Ba & Na & Ka).
  { pose proof (message_slots _ _ _ c m GuestTx.BAux Hok Hc) as H. cbn in H. by rewrite Hss in H. }
  destruct (blob_view _ _ _ c m GuestTx.BParam _ _ ps dv p Hok Hc eq_refl Hss Hmem Np) as (Vp & Lp & Sp).
  destruct (blob_view _ _ _ c m GuestTx.BAux _ _ az dv a Hok Hc eq_refl Hss Hmem Na) as (Va & La & Sa).
  fold p0 in Vp, Lp, Sp. fold a0 in Va, La, Sa.
  set (wp := if (GuestTx.g_pslot m =? 0) || _ then _ else _) in *. set (wa := if (GuestTx.g_aslot m =? 0) || _ then _ else _) in *.
  set (req := wr 20 (le_bytes 4 az) (wr 12 (le_bytes 4 ps) (VirtioDev.iov_to_buf e 8 48))).
  assert (VirtioDev.ioctl_work s1 e (take 8 out) = at_stage e (take 8 out) req ps az wp wa VirtioDev.WFetchP [] [] []) as Ew.
  { rewrite ioctl_work_eq. cbv zeta. rewrite (Hf 12 _ eq_refl), (Hf 16 _ eq_refl), (Hf 20 _ eq_refl), (Hf 24 _ eq_refl). by rewrite Bp, Ba. }
  rewrite Ew. set (s2 := VirtioDev.set_works s1 _).
  pose proof (six_turns (VirtioDev.d_next dv) e (take 8 out) req ps az wp wa resp p a eq_refl s2 Hcf ltac:(apply lookup_insert_eq)) as H6.
  assert (VirtioDev.d_slot s2 = 65536) as Hd2 by exact Hds. rewrite Hd2 in H6. specialize (H6 Kp Ka).
  change (fetched_of s2) with (fetched_of dv) in H6. rewrite Vp, Va in H6.
  destruct (VirtioDev.run s2 _) as [dv' acts]. cbn [fst snd]. destruct H6 as (G1 & G2 & G3).
  destruct (host_serves gs _ c m _ _ (take 8 out ++ r) Hok Hc Lp La) as (G4 & x & Hx & Hx').
  assert (length (take 8 out) = 8%nat) as H8 by (rewrite length_take, Hlen; done). rewrite (answer_fields _ r x H8 Hty) in Hx'. split_and!.
  - exists req. split; [apply elem_of_app; by right|]. assert (length (VirtioDev.iov_to_buf e 8 48) = 48%nat) as H48 by apply VirtioSafe.fit_length.
    unfold req. rewrite !request_kept by (done || lia). by rewrite (Hf 0 _ eq_refl), (Hf 4 _ eq_refl), (Hf 8 _ eq_refl).
  - apply elem_of_app. right. unfold VirtioDev.iov_from_buf in G3. rewrite take_ge in G3; [exact G3|]. rewrite length_app, H8. cbn [e VirtioDev.q_room]. rewrite VirtioSafe.fit_length. lia.
  - rewrite G1, G4, Hss, Sa, Sp. change (VirtioDev.d_mem s2) with (VirtioDev.d_mem dv). by rewrite Hmem.
  - by exists x.
Qed.

(** ** Witness *)
Definition bare_ioctl : list GuestTx.ev := GuestTx.EForward 1 5 false false [] [] :: GuestRun.steps_of 1 70 7.
Definition idle_device : VirtioDev.dev := VirtioDev.Dev 65536 VirtioRun.region_size VirtioRun.region 0 [] ∅ 0 [] [] 0 0.

Lemma bare_ioctl_runs mem : let gs := fst (GuestTx.run (GuestTx.nvkvm_virtio_init 65536 mem) bare_ioctl) in
  GuestTx.g_vq (GuestTx.sh gs) !! 70 = Some (GuestTx.GMsg 18 1 0 0 0 0 0 0) /\ GuestTx.g_mem (GuestTx.sh gs) = mem.
Proof. cbv zeta. split; vm_compute; reflexivity. Qed.

Lemma device_region_up : GuestRun.up 3 65536 VirtioRun.region.
Proof. unfold GuestRun.up. rewrite VirtioRun.region_length. split; vm_compute; done. Qed.

Lemma idle_conf : VirtioSafe.conf idle_device.
Proof. unfold VirtioSafe.conf, idle_device. cbn [VirtioDev.d_slot VirtioDev.d_shm VirtioDev.d_mem]. rewrite VirtioRun.region_length. split_and!; vm_compute; done. Qed.

Lemma device_serves_guest_witness :
  let out := ioctl_bytes (GuestTx.GMsg 18 1 0 0 0 0 0 0) 5 6 7 0 1 in
  VirtioDev.APush 0 (take 8 out ++ VirtioDev.fit 24 [9]) ∈ snd (VirtioDev.run idle_device (serve 0 out [9] [] [])) /\
  exists x, GuestTx.g_heap (GuestTx.sh (fst (GuestTx.run (GuestTx.nvkvm_virtio_init 65536 VirtioRun.region) bare_ioctl))) !! 70 = Some x.
Proof.
  destruct (bare_ioctl_runs VirtioRun.region) as [Hc Hm].
  pose proof (device_serves_guest VirtioRun.region bare_ioctl 70 (GuestTx.GMsg 18 1 0 0 0 0 0 0) idle_device 5 6 7 0 1 [9] [] []
    device_region_up Hc eq_refl idle_conf eq_refl eq_refl (eq_sym Hm)) as H.
  cbv zeta in *. change (VirtioDev.d_next idle_device) with 0 in H. destruct (VirtioDev.run idle_device _) as [dv' acts].
  destruct H as (_ & H1 & _ & x & Hx & _). split; [exact H1|exists x; exact Hx].
Defined.

End GuestDev.
