(* ===== verification/MmapReq.v ===== *)
(** * MmapReq: mapping a handle into an isolate and into the guest

    Models the request [nvkvm_req_mmap_on_isolate] of
    [src/qemu/nvkvm_isolate_handlers.c] with the calls it makes
    ([nvkvm_window_restore_anon] of [nvkvm_mmap_host.c], [nvkvm_isolate_mmap] of
    [nvkvm_isolate.c]), over the state the teardown paths of [Teardown] share:
    the mapping table, the memory slots, the guest physical window with its
    quarantine, and the windows of the isolates.  The kernel's and the isolate's
    answers are fields of [mmap_env].  What is mapped at an address of QEMU's
    reservation of the window is [backing], which the calls of a request change in
    the order they are made; whether the kernel performs a [MAP_FIXED] is an answer
    to each call. *)
From S2P Require Import Prelude Extents KvmSlots GpaLayout SparseWin IsoWindow IsoMmap Handles Teardown Isolates Sessions.

Module MmapReq.
Import KvmSlots GpaLayout SparseWin IsoWindow IsoMmap Handles Teardown Isolates Sessions.

Definition PROT_READ : Z := 1.
Definition PROT_WRITE : Z := 2.
Definition MAP_SHARED : Z := 1.
Definition MAP_PRIVATE : Z := 2.
Definition MAP_FAILED : Z := W64 - 1.

(** ** Requests, answers, calls *)
Record mmap_req := MmapRq {
  mq_isolate : Z; mq_handle : Z; mq_gva : Z; mq_offset : Z; mq_length : Z;
  mq_prot : Z; mq_flags : Z; mq_session : Z
}.
Record mmap_resp := MmapRs { mr_status : Z; mr_token : Z; mr_gpa : Z; mr_length : Z }.

(** [me_mmap] is 0 or the errno of the device [mmap]; [me_mprotect] says that
    [mprotect] succeeded; [me_rc] and [me_info] answer the memslot ioctl and
    WINDOW_INFO; [me_ret] and [me_va] are the isolate's answer to MMAP;
    [me_mid] is what other threads do to the handle table before it is read the
    second time. *)
Record mmap_env := MmapEnv {
  me_rc : Z; me_mmap : Z; me_mprotect : bool; me_mid : nvkvm_handle_table -> nvkvm_handle_table;
  me_info : option (Z * Z); me_ret : Z; me_va : Z
}.

(** Calls into the kernel and the isolate, in the order they are made. *)
Inductive call :=
| MapDevice (va len prot fd off errno : Z)
| Prefault (va len : Z)
| StubMmap (isolate handle va len off prot flags : Z)
| Undo (e : effect).

(** The [mmap] it makes.  It can fail, which is logged and returned; every caller
    ignores the result, so the answer matters only for what is mapped ([apply_call]). *)
Definition nvkvm_window_restore_anon (qva len : Z) : list call :=
  if (qva =? 0) || (qva =? MAP_FAILED) || (len =? 0) then []
  else [Undo (RestoreAnon qva len)].

(** ** The request *)
Definition fail (status : Z) : mmap_resp := MmapRs status 0 0 0.

(** A device before [nvkvm_sparse_init]. *)
Definition sparse0 : sparse := Sparse (Layout 0 0 0 0 0 0 0 0 0 0 0 0 0 false) None 0 0 0 0 (-1) false [].
Definition dev_of (g : gstate) (nv : Z) : sparse := default sparse0 (g_dev g !! nv).
Definition set_dev (g : gstate) (nv : Z) (s : sparse) : gstate :=
  GState (<[nv := s]> (g_dev g)) (g_quar g) (g_bytes g).

(** The checks before anything is allocated: the handle, or the error. *)
Definition mmap_check (v : Sessions.vm) (sparse_size : Z) (q : mmap_req) : nvkvm_handle + Z :=
  match nvkvm_handle_get (v_handles v) (mq_handle q) with
  | None => inr EBADF
  | Some h =>
      if h_fd h <? 0 then inr EBADF
      else if negb (session_has_isolate v (mq_session q) (mq_isolate q)) then inr EPERM
      else
        let obj_end := page_up (h_size h) in
        if (h_type h =? NVKVM_HANDLE_TYPE_MEMORY) &&
           ((obj_end <? h_size h) || (obj_end <? mq_offset q) || (obj_end ⊖ mq_offset q <? mq_length q))
        then inr EINVAL
        else if (mq_length q =? 0) || (sparse_size <? mq_length q) then inr EINVAL
        else inl h
  end.

Definition mask_prot (q : mmap_req) : Z := mq_prot q & (Z.lor PROT_READ PROT_WRITE).
Definition mask_flags (q : mmap_req) : Z :=
  let f := mq_flags q & (Z.lor MAP_SHARED MAP_PRIVATE) in if f =? 0 then MAP_SHARED else f.

Definition gpa_alloc (nv kvm_fd rc : Z) (h : host) (regs : gmap Z region) (len : Z) : host * gmap Z region * Z :=
  let '(kv, s, gpa) := nvkvm_sparse_gpa_alloc kvm_fd rc (KvmSlots.Vm (hs_pool h) regs) (dev_of (hs_gpa h) nv) len in
  (Host (hs_mm h) (vm_pool kv) (set_dev (hs_gpa h) nv s) (hs_win h), vm_regions kv, gpa).
Definition free_extent (nv : Z) (h : host) (gpa len : Z) : host :=
  Host (hs_mm h) (hs_pool h) (nvkvm_sparse_gpa_free (hs_gpa h) nv gpa len) (hs_win h).

(** [nvkvm_sparse_gpa_alloc] and [nvkvm_gpa_to_vmm_va]; a target that is NULL
    gives the extent back. *)
Definition take_extent (nv kvm_fd rc : Z) (h : host) (regs : gmap Z region) (len : Z)
    : host * gmap Z region * option (Z * Z) :=
  let '(h1, regs1, gpa) := gpa_alloc nv kvm_fd rc h regs len in
  if gpa =? 0 then (h1, regs1, None)
  else
    match nvkvm_gpa_to_vmm_va (dev_of (hs_gpa h1) nv) gpa len with
    | Some target => (h1, regs1, Some (gpa, target))
    | None => (free_extent nv h1 gpa len, regs1, None)
    end.

Definition set_win (h : host) (w : win_table) : host := Host (hs_mm h) (hs_pool h) (hs_gpa h) w.

(** The in-window branch: 0 or the errno, and the calls. *)
Definition map_device (q : mmap_req) (env : mmap_env) (fd target len : Z) : Z * list call :=
  let want_write := negb (mask_prot q & PROT_WRITE =? 0) in
  let m := MapDevice target len (if want_write then Z.lor PROT_READ PROT_WRITE else PROT_READ) fd
             (mq_offset q) (me_mmap env) in
  if negb (me_mmap env =? 0) then (me_mmap env, m :: nvkvm_window_restore_anon target len)
  else
    (0, m :: Prefault target len ::
        (if want_write && negb (me_mprotect env) then nvkvm_window_restore_anon target len else [])).

(** Validity and the round trip; the address is meaningful only for result 0. *)
Definition nvkvm_isolate_mmap (t : nvkvm_isolate_table) (id ret va : Z) (c : call) : Z * Z * list call :=
  if bad_iso id || negb (mine id (iso_at t id) && i_alive (iso_at t id)) then (- ENOENT, 0, [])
  else (ret, if ret =? 0 then va else 0, [c]).

(** Placing the mirror and asking the isolate for it: the new windows, [ret],
    [stub_va] and the calls. *)
Definition stub_mirror (t : nvkvm_isolate_table) (w : win_table) (q : mmap_req) (env : mmap_env)
    (len : Z) (contig : bool) : win_table * Z * Z * list call :=
  let iso := mq_isolate q in
  let '(w1, place) := nvkvm_win_place (me_info env) w iso (mq_gva q) len contig in
  if place =? 0 then (w1, - ENOMEM, 0, [])
  else
    let '(ret, va, cs) := nvkvm_isolate_mmap t iso (me_ret env) (me_va env)
                            (StubMmap iso (mq_handle q) place len (mq_offset q) (mask_prot q) (mask_flags q)) in
    let lied := (ret =? 0) && negb (va =? 0) && negb (va =? place) in
    let cs := cs ++ (if lied then [Undo (StubMunmap iso place len)] else []) in
    let ret := if lied then - EPROTO else ret in
    if ret <? 0 then (nvkvm_win_unplace w1 iso place len, ret, va, cs)
    else (w1, ret, if va =? 0 then place else va, cs).

(** Recording the mapping, and undoing it when the table is full. *)
Definition record_mapping (nv : Z) (h : host) (q : mmap_req) (stub_va qva len gpa : Z) (mirrored : bool)
    : host * mmap_resp * list call :=
  let iso := mq_isolate q in
  let '(mm, token) := iso_mmap_alloc (hs_mm h) iso (mq_gva q) stub_va qva len NVKVM_IN_WINDOW_SLOT gpa
                        mirrored (mq_handle q) in
  let h := Host mm (hs_pool h) (hs_gpa h) (hs_win h) in
  if token =? 0 then
    let mir := mirrored && negb (stub_va =? 0) in
    let w := if mir then nvkvm_win_unplace (hs_win h) iso stub_va len else hs_win h in
    (free_extent nv (set_win h w) gpa len, fail ENOMEM,
     (if mir then [Undo (StubMunmap iso stub_va len)] else []) ++ nvkvm_window_restore_anon qva len)
  else (h, MmapRs 0 token gpa len, []).

(** From the allocated extent on. *)
Definition mmap_extent (nv : Z) (v : Sessions.vm) (h : host) (q : mmap_req) (env : mmap_env)
    (hd : nvkvm_handle) (len gpa target : Z) : host * mmap_resp * list call :=
  let '(err, cs) := if h_dev hd =? NVKVM_DEV_UVM then (0, []) else map_device q env (h_fd hd) target len in
  if negb (err =? 0) then (free_extent nv h gpa len, fail err, cs)
  else
    let hd2 := nvkvm_handle_get (me_mid env (v_handles v)) (mq_handle q) in
    let mirror := match hd2 with Some x => negb (h_dev x =? NVKVM_DEV_UVM) | None => true end in
    let contig := match hd2 with Some x => h_type x =? NVKVM_HANDLE_TYPE_MEMORY | None => false end in
    let '(w, ret, stub_va, cs2) :=
      if mirror then stub_mirror (v_isos v) (hs_win h) q env len contig else (hs_win h, 0, 0, []) in
    let h := set_win h w in
    if ret <? 0 then
      (free_extent nv h gpa len, fail (- ret), cs ++ cs2 ++ nvkvm_window_restore_anon target len)
    else
      let '(h', r, cs3) := record_mapping nv h q stub_va target len gpa mirror in (h', r, cs ++ cs2 ++ cs3).

Definition set_host (v : Sessions.vm) (t : nvkvm_handle_table) (h : host) : Sessions.vm :=
  Sessions.Vm (v_isos v) t (v_sessions v) (v_mapva v) (v_va v) h.

Definition nvkvm_req_mmap_on_isolate (nv kvm_fd : Z) (v : Sessions.vm) (regs : gmap Z region)
    (q : mmap_req) (env : mmap_env) : Sessions.vm * gmap Z region * mmap_resp * list call :=
  let h := v_host v in
  match mmap_check v (sw_size (dev_of (hs_gpa h) nv)) q with
  | inr e => (v, regs, fail e, [])
  | inl hd =>
      let len := page_up (mq_length q) in
      if (len =? 0) || (sw_size (dev_of (hs_gpa h) nv) <? len) then (v, regs, fail EINVAL, [])
      else
        match take_extent nv kvm_fd (me_rc env) h regs len with
        | (h1, regs1, None) => (set_host v (v_handles v) h1, regs1, fail ENOMEM, [])
        | (h1, regs1, Some (gpa, target)) =>
            let '(h2, r, cs) := mmap_extent nv v h1 q env hd len gpa target in
            (set_host v (me_mid env (v_handles v)) h2, regs1, r, cs)
        end
  end.

(** ** What is mapped in QEMU's reservation of the window

    A [MAP_FIXED] that fails may have unmapped what was there ([Lost]) or not
    ([Kept]). *)
Inductive backing := Anon | Dev (fd off : Z) | Hole.
#[export] Instance backing_eq_dec : EqDecision backing.
Proof. solve_decision. Defined.
Inductive fixed := Done | Lost | Kept.

Definition within (va len x : Z) : bool := (va <=? x) && (x <? va + len).
Definition failed_fixed (a : fixed) (old : backing) : backing := match a with Kept => old | _ => Hole end.
Definition apply_call (a : fixed) (b : Z -> backing) (c : call) : Z -> backing :=
  match c with
  | MapDevice va len _ fd off errno => fun x =>
      if within va len x then if errno =? 0 then Dev fd (off + (x - va)) else failed_fixed a (b x) else b x
  | Undo (RestoreAnon va len) => fun x =>
      if within va len x then match a with Done => Anon | _ => failed_fixed a (b x) end else b x
  | Undo (Munmap va len) => fun x => if within va len x then Hole else b x
  | _ => b
  end.

(** [ans i] answers the [i]-th call. *)
Fixpoint apply_calls (ans : nat -> fixed) (cs : list call) (b : Z -> backing) : Z -> backing :=
  match cs with
  | [] => b
  | c :: r => apply_calls (fun i => ans (S i)) r (apply_call (ans O) b c)
  end.

(** The ranges whose anonymous memory could not be put back: what the source reports
    as a hole in the window. *)
Fixpoint hurts (ans : nat -> fixed) (cs : list call) : list ext :=
  match cs with
  | [] => []
  | c :: r =>
      match c, ans O with
      | Undo (RestoreAnon va len), (Lost | Kept) => [Ext va len]
      | _, _ => []
      end ++ hurts (fun i => ans (S i)) r
  end.
Definition hurt (l : list ext) (x : Z) : Prop := exists e, e ∈ l /\ within (e_off e) (e_len e) x = true.

End MmapReq.
