(* ===== verification/Realize.v ===== *)
(** * Realize: realizing a recorded UVM mapping

    Models the request [nvkvm_req_realize_uvm_mapping] of
    [src/qemu/nvkvm_isolate_handlers.c] and the call [nvkvm_isolate_realize_uvm_fd]
    of [nvkvm_isolate.c].  The two guest-shared buffers are copied once; [state]
    and [intent] are the bytes the copies get.  The isolate's answer is an
    argument. *)
From S2P Require Import Prelude Bytes Extents KvmSlots GpaLayout SparseWin IsoWindow IsoMmap Handles Teardown Isolates Sessions MmapReq.

Module Realize.
Import KvmSlots GpaLayout SparseWin IsoWindow IsoMmap Handles Teardown Isolates Sessions MmapReq.

Definition ENOTSUP : Z := 95.
Definition NVKVM_UVM_REALIZE_MODE_SEM_POOL : Z := 1.
Definition NVKVM_UVM_MAX_REG_GPUS : Z := 16.
Definition NVKVM_UVM_MAX_VA_SPACES : Z := 16.
Definition NVKVM_UVM_MAX_RANGE_GROUPS : Z := 16.
Definition NVKVM_REALIZE_INTENT_MAX : Z := 65536.

(** [sizeof(struct nvkvm_uvm_state_snapshot)] and
    [sizeof(struct uvm_alloc_semaphore_pool_params)]. *)
Definition sizeof_snapshot : Z := 1176.
Definition sizeof_pool : Z := 9248.

Record realize_req := RealizeRq {
  rq_isolate : Z; rq_fd_handle : Z; rq_mode : Z; rq_session : Z; rq_gva : Z; rq_length : Z;
  rq_prot : Z; rq_flags : Z; rq_intent_size : Z
}.
Record realize_resp := RealizeRs { rr_gpa : Z; rr_length : Z; rr_token : Z; rr_rm_status : Z; rr_status : Z }.
Definition refuse (status : Z) : realize_resp := RealizeRs 0 0 0 0 (u32 (- status)).

(** The isolate's answer: [ret] and the four results. *)
Record realize_env := RealizeEnv { re_rc : Z; re_ret : Z; re_va : Z; re_token : Z; re_rm : Z }.

(** The command the isolate gets. *)
Record realize_cmd := RealizeCmd {
  rc_isolate : Z; rc_mode : Z; rc_state : list Z; rc_intent : list Z; rc_prot : Z; rc_flags : Z; rc_length : Z
}.

(** Fields of the snapshot. *)
Definition n_gpus (st : list Z) : Z := rd 4 8 st.
Definition n_va_spaces (st : list Z) : Z := rd 4 12 st.
Definition n_range_groups (st : list Z) : Z := rd 4 16 st.
Definition gpu_ctrl (st : list Z) (i : Z) : Z := rd 4 (24 + 32 * i + 16) st.
Definition va_ctrl (st : list Z) (i : Z) : Z := rd 4 (24 + 512 + 32 * i + 16) st.

(** An RM control handle of the snapshot the session may name. *)
Definition ctrl_ok (t : nvkvm_handle_table) (session hid : Z) : bool :=
  if hid =? UINT32_MAX then true
  else
    match nvkvm_handle_get t hid with
    | Some h => (h_session h =? session) && (h_type h =? NVKVM_HANDLE_TYPE_NVIDIA) && (h_dev h =? NVKVM_DEV_CTL)
    | None => false
    end.

(** The copies, with [rm_status] of the intent cleared. *)
Definition snapshot_copy (state : list Z) : list Z := take (Z.to_nat sizeof_snapshot) state.
Definition intent_copy (intent : list Z) (n : Z) : list Z :=
  take (Z.to_nat n) intent ++ replicate (Z.to_nat (sizeof_pool - n)) 0.
Definition clear_rm_status (p : list Z) : list Z := wr 9240 [0; 0; 0; 0] p.

(** All checks up to the allocation: the error, or what is forwarded. *)
Definition realize_check (v : Sessions.vm) (q : realize_req) (state intent : option (list Z)) : realize_cmd + Z :=
  match nvkvm_handle_get (v_handles v) (rq_fd_handle q) with
  | None => inr EPERM
  | Some fh =>
      if negb (h_session fh =? rq_session q) || negb (session_has_isolate v (rq_session q) (rq_isolate q)) then inr EPERM
      else
        match state, intent with
        | Some sb, Some ib =>
            if (rq_intent_size q =? 0) || (NVKVM_REALIZE_INTENT_MAX <? rq_intent_size q) then inr EINVAL
            else if sizeof_pool <? rq_intent_size q then inr EINVAL
            else
              let st := snapshot_copy sb in
              let p := intent_copy ib (rq_intent_size q) in
              if (NVKVM_UVM_MAX_REG_GPUS <? n_gpus st) || (NVKVM_UVM_MAX_VA_SPACES <? n_va_spaces st) ||
                 (NVKVM_UVM_MAX_RANGE_GROUPS <? n_range_groups st) then inr EINVAL
              else if negb (forallb (fun i => ctrl_ok (v_handles v) (rq_session q) (gpu_ctrl st i)) (seqZ 0 (n_gpus st)))
              then inr EPERM
              else if negb (forallb (fun i => ctrl_ok (v_handles v) (rq_session q) (va_ctrl st i)) (seqZ 0 (n_va_spaces st)))
              then inr EPERM
              else if negb (rq_mode q =? NVKVM_UVM_REALIZE_MODE_SEM_POOL) then inr ENOTSUP
              else if negb (rq_intent_size q =? sizeof_pool) then inr EINVAL
              else if negb (rd 8 8 p =? rq_length q) || negb (rd 8 0 p =? rq_gva q) then inr EINVAL
              else
                let prot := rq_prot q & 3 in
                let flags := rq_flags q & 3 in
                if (rq_length q =? 0) || (2 ^ 40 <? rq_length q) || negb (rq_length q & 4095 =? 0) then inr EINVAL
                else inl (RealizeCmd (rq_isolate q) (rq_mode q) st (clear_rm_status p)
                       (if prot =? 0 then 3 else prot) (if flags =? 0 then 1 else flags) (rq_length q))
        | _, _ => inr EINVAL
        end
  end.

(** Validity and the round trip: [ret], [host_va], [token], [rm_status]. *)
Definition nvkvm_isolate_realize_uvm_fd (t : nvkvm_isolate_table) (c : realize_cmd) (env : realize_env)
    : Z * Z * Z * Z * list realize_cmd :=
  let id := rc_isolate c in
  if bad_iso id || negb (mine id (iso_at t id) && i_alive (iso_at t id)) then (- ENOENT, 0, 0, 0, [])
  else (re_ret env, re_va env, re_token env, re_rm env, [c]).

Definition nvkvm_req_realize_uvm_mapping (nv kvm_fd : Z) (v : Sessions.vm) (regs : gmap Z region) (q : realize_req)
    (env : realize_env) (state intent : option (list Z)) : host * gmap Z region * realize_resp * list realize_cmd :=
  match realize_check v q state intent with
  | inr e => (v_host v, regs, refuse e, [])
  | inl c =>
      let len := rc_length c in
      let '(h1, regs1, gpa) := gpa_alloc nv kvm_fd (re_rc env) (v_host v) regs len in
      if gpa =? 0 then (h1, regs1, refuse ENOMEM, [])
      else
        let '(ret, va, token, rm, cs) := nvkvm_isolate_realize_uvm_fd (v_isos v) c env in
        if (ret <? 0) || (va =? 0) then
          (free_extent nv h1 gpa len, regs1,
           RealizeRs 0 0 0 rm (if ret <? 0 then u32 (- ret) else u32 (- EIO)), cs)
        else if negb (rm =? 0) then
          (free_extent nv h1 gpa len, regs1, RealizeRs 0 0 0 rm (u32 (- EIO)), cs)
        else
          let '(mm, tok) := iso_mmap_alloc (hs_mm h1) (rq_isolate q) gpa 0 0 len NVKVM_IN_WINDOW_SLOT gpa false 0 in
          let h2 := Host mm (hs_pool h1) (hs_gpa h1) (hs_win h1) in
          if tok =? 0 then (free_extent nv h2 gpa len, regs1, refuse ENOMEM, cs)
          else (h2, regs1, RealizeRs gpa len token 0 0, cs)
  end.

(** ** What reaches the isolate *)
Lemma realize_check_length v q state intent c :
  0 <= rq_length q -> realize_check v q state intent = inl c ->
  rc_length c = rq_length q /\ 0 < rq_length q <= 2 ^ 40 /\ rq_length q mod 4096 = 0.
Proof.
  intros H0. unfold realize_check. destruct (nvkvm_handle_get _ _); [|done]. case_if; [done|].
  destruct state, intent; try done. cbv zeta. repeat (case_if; [done|]). intros [=<-]. simpl. zb.
  change 4095 with (Z.ones 12) in *. rewrite Z.land_ones in * by lia. change (2 ^ 12) with 4096 in *. split_and!; lia.
Qed.

(** A handle the snapshot names for RM: the sentinel, or a live nvidiactl handle
    of the session. *)
Definition ctrl_owned (t : nvkvm_handle_table) (session hid : Z) : Prop :=
  hid = UINT32_MAX \/
  exists h, nvkvm_handle_get t hid = Some h /\ h_session h = session /\
    h_type h = NVKVM_HANDLE_TYPE_NVIDIA /\ h_dev h = NVKVM_DEV_CTL.

Lemma ctrl_ok_spec t session hid : ctrl_ok t session hid = true -> ctrl_owned t session hid.
Proof.
  unfold ctrl_ok. case_if; [by left; zb|]. destruct (nvkvm_handle_get t hid) as [h|] eqn:Eh; [|done].
  intros H. apply andb_true_iff in H as [H H3]. apply andb_true_iff in H as [H1 H2]. zb. right. eauto 10.
Qed.

Lemma ctrl_all_spec t session f n :
  forallb (fun i => ctrl_ok t session (f i)) (seqZ 0 n) = true ->
  forall i, 0 <= i < n -> ctrl_owned t session (f i).
Proof.
  intros H i Hi. rewrite forallb_forall in H. apply ctrl_ok_spec, H, list_elem_of_In, elem_of_seqZ. lia.
Qed.

(** What the checks promise of a command. *)
Record cmd_checked (v : Sessions.vm) (q : realize_req) (state : list Z) (c : realize_cmd) : Prop := {
  ck_owner : session_has_isolate v (rq_session q) (rc_isolate c) = true;
  ck_handle : exists h, nvkvm_handle_get (v_handles v) (rq_fd_handle q) = Some h /\ h_session h = rq_session q;
  ck_state : rc_state c = take (Z.to_nat sizeof_snapshot) state;
  ck_counts : n_gpus (rc_state c) <= 16 /\ n_va_spaces (rc_state c) <= 16 /\ n_range_groups (rc_state c) <= 16;
  ck_gpus : forall i, 0 <= i < n_gpus (rc_state c) -> ctrl_owned (v_handles v) (rq_session q) (gpu_ctrl (rc_state c) i);
  ck_vas : forall i, 0 <= i < n_va_spaces (rc_state c) -> ctrl_owned (v_handles v) (rq_session q) (va_ctrl (rc_state c) i);
  ck_size : arr_len (rc_intent c) = sizeof_pool;
  ck_base : rd 8 0 (rc_intent c) = rq_gva q;
  ck_length : rd 8 8 (rc_intent c) = rc_length c /\ 0 < rc_length c <= 2 ^ 40 /\ rc_length c mod 4096 = 0;
  ck_rm : rd 4 9240 (rc_intent c) = 0;
  ck_prot : 1 <= rc_prot c <= 3 /\ 1 <= rc_flags c <= 3
}.

Lemma land3_range x : 0 <= x & 3 <= 3.
Proof. change 3 with (Z.ones 2). rewrite Z.land_ones by lia. pose proof (Z.mod_pos_bound x (2 ^ 2) ltac:(lia)). change (Z.ones 2) with 3. lia. Qed.

Lemma cleared_intent ib :
  (Z.to_nat sizeof_pool <= length ib)%nat ->
  let p := intent_copy ib sizeof_pool in
  arr_len (clear_rm_status p) = sizeof_pool /\ rd 4 9240 (clear_rm_status p) = 0 /\
  (forall off, 0 <= off -> off + 8 <= 9240 -> rd 8 off (clear_rm_status p) = rd 8 off p).
Proof.
  intros Hl p. assert (length p = Z.to_nat sizeof_pool) as Hp
    by (unfold p, intent_copy; rewrite length_app, length_take, length_replicate; lia).
  assert (arr_len p = 9248) as Ha by (unfold arr_len; rewrite Hp; done).
  assert (arr_len [0; 0; 0; 0] = 4) as Hz by done. unfold clear_rm_status. split_and!.
  - unfold arr_len. rewrite wr_length by (rewrite ?Ha, ?Hz; lia). by rewrite Hp.
  - apply (rd_wr 4 9240 0 p); rewrite ?Ha; lia.
  - intros off H0 H1. apply rd_wr_out; rewrite ?Ha, ?Hz; lia.
Qed.


Lemma realize_check_spec v q sb ib c :
  0 <= rq_length q -> (Z.to_nat (rq_intent_size q) <= length ib)%nat ->
  realize_check v q (Some sb) (Some ib) = inl c -> cmd_checked v q sb c.
Proof.
  intros H0 Hib Hc. pose proof (realize_check_length _ _ _ _ _ H0 Hc) as (Hlen & Hr & Hm). revert Hc.
  unfold realize_check. destruct (nvkvm_handle_get _ _) as [fh|] eqn:Eh; [|done].
  destruct (negb (h_session fh =? rq_session q) || _) eqn:X1; [done|]. cbv zeta. case_if; [done|]. case_if; [done|].
  destruct ((NVKVM_UVM_MAX_REG_GPUS <? _) || _ || _) eqn:X2; [done|].
  destruct (forallb _ _) eqn:X3; cbn [negb]; [|done]. destruct (forallb _ (seqZ 0 (n_va_spaces _))) eqn:X4; cbn [negb]; [|done].
  case_if; [done|]. destruct (negb (rq_intent_size q =? _)) eqn:X5; [done|]. apply negb_false_iff, Z.eqb_eq in X5.
  rewrite X5 in *. destruct (cleared_intent ib Hib) as (C1 & C2 & C3).
  destruct (negb (rd 8 8 _ =? _) || negb (rd 8 0 _ =? _)) eqn:X6; [done|]. apply orb_false_iff in X6 as [X6 X7].
  apply negb_false_iff, Z.eqb_eq in X6, X7. case_if; [done|]. intros [=<-]. cbn in Hlen.
  apply orb_false_iff in X1 as [X1 X1']. apply negb_false_iff in X1, X1'. zb.
  pose proof (land3_range (rq_prot q)). pose proof (land3_range (rq_flags q)).
  split; cbn [rc_isolate rc_state rc_intent rc_length rc_prot rc_flags]; try done.
  - eauto.
  - by apply ctrl_all_spec.
  - by apply ctrl_all_spec.
  - rewrite C3 by lia. done.
  - rewrite C3 by lia. done.
  - split; case_if; zb; lia.
Qed.

(** C10: whatever the guest writes into the two shared buffers and the request,
    a REALIZE command reaches an isolate only if the requesting session owns that
    isolate and the handle it names, the forwarded snapshot is the one that was
    checked, its counts fit the stub's tables, and every RM control handle it
    names inside those counts is a live nvidiactl handle of that session; the
    intent names the base and length of the request, carries no status of the
    guest, and the mapping is never executable. *)
Theorem realize_forwards_checked nv kvm_fd v regs q env state intent :
  0 <= rq_length q ->
  (forall ib, intent = Some ib -> (Z.to_nat (rq_intent_size q) <= length ib)%nat) ->
  let '(_, _, _, cs) := nvkvm_req_realize_uvm_mapping nv kvm_fd v regs q env state intent in
  Forall (fun c => exists sb, state = Some sb /\ cmd_checked v q sb c /\ i_alive (iso_at (v_isos v) (rc_isolate c)) = true) cs.
Proof.
  intros H0 Hib. unfold nvkvm_req_realize_uvm_mapping.
  destruct (realize_check v q state intent) as [c|e] eqn:Ec; [|constructor].
  assert (exists sb, state = Some sb /\ cmd_checked v q sb c) as (sb & Hsb & Hck).
  { assert (exists sb ib, state = Some sb /\ intent = Some ib) as (sb & ib & -> & ->).
    { revert Ec. unfold realize_check. destruct (nvkvm_handle_get _ _); [|done]. case_if; [done|].
      destruct state, intent; try done. eauto. }
    exists sb. split; [done|]. eapply realize_check_spec; eauto. }
  destruct (gpa_alloc _ _ _ _ _ _) as [[h1 regs1] gpa]. case_if; [constructor|].
  destruct (nvkvm_isolate_realize_uvm_fd _ _ _) as [[[[ret hva] tok] rm] cs] eqn:Er.
  assert (Forall (fun c => exists sb, state = Some sb /\ cmd_checked v q sb c /\
    i_alive (iso_at (v_isos v) (rc_isolate c)) = true) cs) as Hcs.
  { revert Er. unfold nvkvm_isolate_realize_uvm_fd. case_if; intros [=_ _ _ _ <-]; constructor; [|constructor].
    apply orb_false_iff in E0 as [_ E0]. apply negb_false_iff, andb_true_iff in E0 as [_ E0]. eauto. }
  repeat case_if; try done. destruct (iso_mmap_alloc _ _ _ _ _ _ _ _ _ _) as [mm t]. by case_if.
Qed.

(** ** Finding: the sign of the status

    QEMU refuses with [(uint32_t)-errno], but hands on the isolate's failure as
    [-ret], the positive errno.  The guest ([nvkvm_virtio_realize_uvm_mapping] of
    [guest/nvkvm_virtio.c]) returns [-(int)status] for both, so a refusal becomes a
    positive number, which it returns from its mmap handler. *)
Definition guest_realize_ret (status : Z) : Z := - s32 status.

Lemma realize_status_sign e : 0 < e < 4096 -> guest_realize_ret (rr_status (refuse e)) = e.
Proof.
  intros He. unfold guest_realize_ret, refuse. cbn [rr_status].
  assert (u32 (- e) = 4294967296 - e) as ->.
  { unfold u32. replace (- e) with (4294967296 - e + (-1) * 4294967296) by lia. rewrite Z.mod_add by lia. apply Z.mod_small. lia. }
  unfold s32, u32. rewrite Z.mod_small by lia. cbv zeta. case_if; zb; lia.
Qed.

Lemma realize_refusal_positive :
  guest_realize_ret (rr_status (refuse EPERM)) = EPERM /\ guest_realize_ret (u32 (- (- EPERM))) = - EPERM.
Proof. split; [apply realize_status_sign; unfold EPERM; lia|reflexivity]. Qed.

(** ** Witness: session 9 realizes a page in isolate 1 through its handle *)
Definition demo_rhost : host := Host mmap_init pool_init (GState {[7 := SparseWin.demo_live]} [] 0) ∅.
Definition demo_rq : realize_req := RealizeRq 1 1 1 9 65536 4096 7 0 9248.
Definition demo_re : realize_env := RealizeEnv 0 0 1099511627776 5 0.
Definition demo_intent : list Z := le_bytes 8 65536 ++ le_bytes 8 4096 ++ replicate (Z.to_nat 9232) 255.

Lemma realize_forwards_checked_witness :
  let '(_, _, r, cs) := nvkvm_req_realize_uvm_mapping 7 5 (demo_vm demo_rhost) ∅ demo_rq demo_re
    (Some (replicate (Z.to_nat 4096) 0)) (Some demo_intent) in
  r = RealizeRs 1056768 4096 5 0 0 /\ length cs = 1%nat /\
  Forall (fun c => exists sb, Some (replicate (Z.to_nat 4096) 0) = Some sb /\ cmd_checked (demo_vm demo_rhost) demo_rq sb c /\
    i_alive (iso_at (v_isos (demo_vm demo_rhost)) (rc_isolate c)) = true) cs.
Proof.
  pose proof (realize_forwards_checked 7 5 (demo_vm demo_rhost) ∅ demo_rq demo_re (Some (replicate (Z.to_nat 4096) 0))
    (Some demo_intent) ltac:(simpl; lia)) as H.
  assert (snd (fst (nvkvm_req_realize_uvm_mapping 7 5 (demo_vm demo_rhost) ∅ demo_rq demo_re
    (Some (replicate (Z.to_nat 4096) 0)) (Some demo_intent))) = RealizeRs 1056768 4096 5 0 0) as E1 by (vm_compute; reflexivity).
  assert (length (snd (nvkvm_req_realize_uvm_mapping 7 5 (demo_vm demo_rhost) ∅ demo_rq demo_re
    (Some (replicate (Z.to_nat 4096) 0)) (Some demo_intent))) = 1%nat) as E2 by (vm_compute; reflexivity).
  destruct (nvkvm_req_realize_uvm_mapping _ _ _ _ _ _ _ _) as [[[h' regs'] r] cs]. cbn [fst snd] in E1, E2.
  split; [exact E1|]. split; [exact E2|]. apply H. intros ib [=<-]. vm_compute. lia.
Defined.

End Realize.
