(* ===== verification/MmapInv.v ===== *)
(** * MmapInv: the resources of a mapping through its life

    The invariant over the tables a mapping takes from: each live entry of the
    mapping table owns one extent of the guest physical window and, when it is
    mirrored, one placement in its isolate's window.  One lemma per stage of the
    map request and of the teardown says what that stage moves. *)
From S2P Require Import Prelude Extents KvmSlots GpaLayout SparseWin IsoWindow IsoMmap Handles Teardown Isolates Sessions MmapReq.

Module MmapInv.
Import KvmSlots GpaLayout SparseWin IsoWindow IsoMmap Handles Teardown Isolates Sessions MmapReq.

(** ** Live entries of the mapping table *)
Definition used (e : nvkvm_iso_mmap_entry) : Prop := im_used e = true.
#[export] Instance used_dec e : Decision (used e).
Proof. unfold used. apply _. Defined.
Definition live_entries (m : mmap_state) : list nvkvm_iso_mmap_entry := filter used (drop 1 (iso_mmap_tbl m)).

Definition gpa_ext (base : Z) (e : nvkvm_iso_mmap_entry) : ext := Ext (im_gpa e - base) (im_len e).
Definition mirror_of (e : nvkvm_iso_mmap_entry) : list placed :=
  if im_stub_mirrored e && negb (im_stub_va e =? 0)
  then [Placed (im_isolate_id e) (im_stub_va e) (im_len e)] else [].

Lemma filter_insert_in (l : list nvkvm_iso_mmap_entry) i old x :
  l !! i = Some old -> im_used old = false -> im_used x = true ->
  Permutation (filter used (<[i := x]> l)) (x :: filter used l).
Proof.
  intros Hi Ho Hx. rewrite (insert_Permutation _ _ _ _ Hi), filter_cons_True by done. apply perm_skip.
  assert (Permutation (filter used l) (filter used (old :: delete i l))) as ->
    by (apply filter_Permutation, (delete_Permutation _ _ _ Hi)).
  by rewrite (filter_cons_False _ old) by (unfold used; congruence).
Qed.

Lemma filter_insert_out (l : list nvkvm_iso_mmap_entry) i old x :
  l !! i = Some old -> im_used old = true -> im_used x = false ->
  Permutation (filter used l) (old :: filter used (<[i := x]> l)).
Proof.
  intros Hi Ho Hx. rewrite (insert_Permutation _ _ _ _ Hi), (filter_cons_False _ x) by (unfold used; congruence).
  assert (Permutation (filter used l) (filter used (old :: delete i l))) as ->
    by (apply filter_Permutation, (delete_Permutation _ _ _ Hi)).
  by rewrite filter_cons_True.
Qed.

Lemma drop_arr_set {A} `{Inhabited A} (l : list A) i x :
  1 <= i < Z.of_nat (length l) ->
  drop 1 (arr_set l i x) = <[Z.to_nat (i - 1) := x]> (drop 1 l) /\
  drop 1 l !! Z.to_nat (i - 1) = Some (arr_get l i).
Proof.
  intros Hi. unfold arr_set, arr_get. replace (Z.to_nat i) with (S (Z.to_nat (i - 1))) by lia.
  destruct l as [|a l]; simpl in *; [lia|]. rewrite !drop_0. split; [done|].
  apply list_lookup_lookup_total_lt. lia.
Qed.

Lemma live_insert m tok e sq :
  mmap_shape m -> 1 <= tok < NVKVM_ISO_MMAP_MAX -> im_used (arr_get (iso_mmap_tbl m) tok) = false ->
  im_used e = true ->
  Permutation (live_entries (MmapState (arr_set (iso_mmap_tbl m) tok e) sq)) (e :: live_entries m).
Proof.
  intros Hm Ht Hu He. unfold live_entries. simpl.
  destruct (drop_arr_set (iso_mmap_tbl m) tok e) as [-> Hl];
    [rewrite (ms_len _ Hm); unfold NVKVM_ISO_MMAP_MAX in *; lia|].
  by eapply filter_insert_in.
Qed.

Lemma live_detach h i :
  mmap_shape (hs_mm h) -> 1 <= i < NVKVM_ISO_MMAP_MAX -> im_used (entry_at h i) = true ->
  Permutation (live_entries (hs_mm h)) (entry_at h i :: live_entries (hs_mm (detach h i))) /\
  mmap_shape (hs_mm (detach h i)).
Proof.
  intros [Hl Hs] Hi Hu. split; [|split; simpl; [unfold arr_set; by rewrite length_insert|done]].
  unfold live_entries, detach. simpl.
  destruct (drop_arr_set (iso_mmap_tbl (hs_mm h)) i (entry_clear (entry_at h i))) as [-> Hk];
    [rewrite Hl; unfold NVKVM_ISO_MMAP_MAX in *; lia|].
  by apply filter_insert_out.
Qed.

(** A live entry has a token. *)
Lemma live_token h e :
  mmap_shape (hs_mm h) -> e ∈ live_entries (hs_mm h) ->
  exists i, 1 <= i < NVKVM_ISO_MMAP_MAX /\ entry_at h i = e /\ im_used e = true.
Proof.
  intros Hm. unfold live_entries. rewrite list_elem_of_filter. intros [Hu [k Hk]%list_elem_of_lookup].
  rewrite lookup_drop in Hk. pose proof (lookup_lt_Some _ _ _ Hk) as Hlt. rewrite (ms_len _ Hm) in Hlt.
  exists (Z.of_nat (1 + k)). split; [unfold NVKVM_ISO_MMAP_MAX in *; lia|]. split; [|done].
  unfold entry_at, arr_get. rewrite Nat2Z.id. by apply list_lookup_total_correct.
Qed.

(** ** The isolates' windows *)
Lemma tab_inv_perm t h1 h2 : Permutation h1 h2 -> tab_inv t h1 -> tab_inv t h2.
Proof.
  intros HP [Hw Hh]. split; [|by rewrite <- HP]. intros id w Hi. destruct (Hw id w Hi) as [Hp Hv].
  split; [done|]. unfold live_of in *. by rewrite <- HP.
Qed.
#[export] Instance tab_inv_proper t : Proper (Permutation ==> iff) (tab_inv t).
Proof. intros h1 h2 HP. split; apply tab_inv_perm; [done|by symmetry]. Qed.

Lemma unplace_head t p H :
  tab_inv t (p :: H) -> tab_inv (nvkvm_win_unplace t (p_id p) (p_va p) (p_len p)) H.
Proof. intros Ht. exact (unplace_step_inv t (p :: H) 0 p Ht eq_refl). Qed.

(** Calls that leave QEMU's reservation alone. *)
Definition inert (cs : list call) : Prop := forall ans, (forall b, apply_calls ans cs b = b) /\ hurts ans cs = [].

(** The mirror stage keeps the placement exactly when it succeeds. *)
Lemma stub_mirror_spec t w H q env len contig w' ret sva cs :
  tab_inv w H -> info_u64 (me_info env) -> 0 <= mq_isolate q -> 0 <= len < W64 ->
  stub_mirror t w q env len contig = (w', ret, sva, cs) ->
  inert cs /\
  (if ret <? 0 then tab_inv w' H else sva <> 0 /\ tab_inv w' (Placed (mq_isolate q) sva len :: H)).
Proof.
  intros Ht Hi Hq Hlen. unfold stub_mirror.
  destruct (nvkvm_win_place _ _ _ _ _ _) as [w1 place] eqn:Ep.
  apply (place_step_inv w H) in Ep; [|done|exact (conj Hq (conj Hlen Hi))].
  destruct (place =? 0) eqn:E0; [intros [=<- <- <- <-]; done|]. zb.
  unfold nvkvm_isolate_mmap.
  set (g := bad_iso _ || _). set (c := StubMmap _ _ _ _ _ _ _).
  assert (forall r va cs0, cs0 = [] \/ cs0 = [c] -> (r <> 0 -> va = 0) ->
    (let lied := (r =? 0) && negb (va =? 0) && negb (va =? place) in
     let cs1 := cs0 ++ (if lied then [Undo (StubMunmap (mq_isolate q) place len)] else []) in
     let r1 := if lied then - EPROTO else r in
     if r1 <? 0 then (nvkvm_win_unplace w1 (mq_isolate q) place len, r1, va, cs1)
     else (w1, r1, if va =? 0 then place else va, cs1)) = (w', ret, sva, cs) ->
    inert cs /\
    (if ret <? 0 then tab_inv w' H else sva <> 0 /\ tab_inv w' (Placed (mq_isolate q) sva len :: H))) as Hgen.
  { intros r va cs0 Hcs Hr. cbv zeta. set (lied := _ && negb (va =? place)).
    assert (inert (cs0 ++ (if lied then [Undo (StubMunmap (mq_isolate q) place len)] else []))) as Hcs1.
    { intros ans. destruct lied, Hcs as [->| ->]; simpl; split; try done; intros b; done. }
    destruct (_ <? 0) eqn:Er; intros [=<- <- <- <-]; rewrite Er; (split; [done|]).
    - exact (unplace_head _ _ _ Ep).
    - assert ((if va =? 0 then place else va) = place) as ->; [|done].
      destruct (Z.eqb_spec va 0); [done|]. destruct (Z.eqb_spec r 0); [|naive_solver].
      unfold lied in Er. simpl in Er.
      by destruct (Z.eqb_spec va place). }
  destruct g; apply Hgen; auto; try done. case_if; [zb; done|done].
Qed.

(** ** The guest physical window

    [gpa_inv g L]: the window of device [nv], installed with this geometry, has
    given out exactly the extents [L] and those of the quarantine; other devices
    own [oth]. *)
Section device.
Context (nv base va size : Z) (oth : Z -> list ext).
Context (Hnv : nv <> 0) (Hva : 0 < va) (Hend : va + size < MAP_FAILED).

Definition geom (s : sparse) : Prop :=
  0 <= sw_slot s /\ sw_base s = base /\ sw_vmm_va s = va /\ sw_size s = size.

Record gpa_inv (g : gstate) (L : list ext) : Prop := {
  ga_quar : quar_ok g;
  ga_dev : exists s, g_dev g !! nv = Some s /\ geom s;
  ga_inv : g_inv (g_dev g) (g_quar g) (upd oth nv L)
}.

Lemma g_inv_live devs q l1 l2 :
  (forall d, Permutation (l1 d) (l2 d)) -> g_inv devs q l1 -> g_inv devs q l2.
Proof. intros Hl [Hd Hq]. split; [|done]. intros d s Hs. rewrite <- (Hl d). auto. Qed.

Lemma upd_perm L1 L2 d : Permutation L1 L2 -> Permutation (upd oth nv L1 d) (upd oth nv L2 d).
Proof. intros HP. unfold upd. by case_if. Qed.
Lemma upd_at L : upd oth nv L nv = L.
Proof. unfold upd. by rewrite Z.eqb_refl. Qed.

Lemma gpa_inv_perm g L1 L2 : Permutation L1 L2 -> gpa_inv g L1 -> gpa_inv g L2.
Proof.
  intros HP [Hq Hd Hi]. split; auto. eapply g_inv_live; [|exact Hi]. intros d. by apply upd_perm.
Qed.
#[local] Instance gpa_inv_proper g : Proper (Permutation ==> iff) (gpa_inv g).
Proof. intros L1 L2 HP. split; apply gpa_inv_perm; [done|by symmetry]. Qed.

(** What is given out lies in the window, without overlap. *)
Lemma gpa_inv_sound g L :
  gpa_inv g L -> 0 < base /\ base + size < W64 /\ 0 <= size <= 2 ^ 62 /\ wf_exts size L.
Proof.
  intros [_ (s & Hs & _ & <- & _ & <-) Hi]. pose proof (gi_dev _ _ _ Hi _ _ Hs) as Hp. rewrite upd_at in Hp.
  destruct Hp as [_ _ Hb Hz Ht Hc _ [Hd Hn Hg]]. split_and!; try done; try lia.
  do 2 apply all_disj_app in Hd as [Hd _]. do 2 apply Forall_app in Hn as [Hn _].
  do 2 apply Forall_app in Hg as [Hg _]. split; [done| |done]. eapply Forall_ext_in_weaken; [|exact Hn]. lia.
Qed.

Lemma release_geom s gpa n : geom s -> geom (nvkvm_sparse_gpa_release s gpa n).
Proof.
  intros Hg. unfold nvkvm_sparse_gpa_release. repeat case_if; try done.
  by destruct (absorb _ _ _).
Qed.

Lemma release_all_geom d : forall devs,
  (exists s, devs !! nv = Some s /\ geom s) ->
  exists s, fold_left release_ent d devs !! nv = Some s /\ geom s.
Proof.
  induction d as [|e d IH]; intros devs (s & Hs & Hg); simpl; [by exists s|]. apply IH.
  unfold release_ent. destruct (devs !! q_nv e) as [s1|] eqn:E; [|by exists s].
  destruct (decide (q_nv e = nv)) as [Eq|].
  - rewrite Eq, Hs in E. injection E as <-. rewrite Eq, lookup_insert_eq. eexists. split; [done|]. by apply release_geom.
  - rewrite lookup_insert_ne by done. by exists s.
Qed.

Lemma free_geom g gpa n :
  (exists s, g_dev g !! nv = Some s /\ geom s) ->
  exists s, g_dev (nvkvm_sparse_gpa_free g nv gpa n) !! nv = Some s /\ geom s.
Proof.
  intros Hg. unfold nvkvm_sparse_gpa_free. repeat case_if; try done.
  destruct (quar_drain _ _) as [[d q] b]. simpl. by apply release_all_geom.
Qed.

(** Giving an extent back. *)
Lemma gpa_inv_free g L off len :
  gpa_inv g (Ext off len :: L) -> gpa_inv (nvkvm_sparse_gpa_free g nv (base + off) len) L.
Proof.
  intros Hg. destruct (gpa_inv_sound _ _ Hg) as (_ & _ & Hz & Hw).
  pose proof (wf_head _ _ _ Hw) as (?&?&?&_&Hm). simpl in *.
  destruct Hg as [Hq Hd Hi]. pose proof Hd as (s & Hs & _ & Hb & _).
  assert (page_up len = len) as Hp by (apply page_up_id; (done || lia)).
  rewrite <- Hb. destruct (gpa_free_spec g (upd oth nv (Ext off len :: L)) nv s off len L) as (Hf1 & Hf2 & _);
    auto; [lia|rewrite upd_at, Hp; done|].
  split; [done|by apply free_geom|]. eapply g_inv_live; [|exact Hf1].
  intros d. unfold upd. by case_if.
Qed.

Lemma alloc_geom kfd rc kv s n kv' s' gpa :
  geom s -> nvkvm_sparse_gpa_alloc kfd rc kv s n = (kv', s', gpa) -> geom s'.
Proof.
  intros Hg. unfold nvkvm_sparse_gpa_alloc, nvkvm_sparse_ensure. case_if; [by intros [=_ <- _]|].
  rewrite (proj2 (Z.leb_le 0 (sw_slot s))) by apply Hg. case_if; [by intros [=_ <- _]|].
  case_if; [by intros [=_ <- _]|]. unfold sparse_take.
  destruct (if sw_free_ptr s then _ else _); [by intros [=_ <- _]|]. case_if; by intros [=_ <- _].
Qed.

(** Taking an extent: nothing but the window changes. *)
Lemma gpa_alloc_spec kfd rc h regs len L h' regs' gpa :
  gpa_inv (hs_gpa h) L -> 0 < len < REQ_MAX -> len mod 4096 = 0 ->
  gpa_alloc nv kfd rc h regs len = (h', regs', gpa) ->
  regs' = regs /\ hs_mm h' = hs_mm h /\ hs_pool h' = hs_pool h /\ hs_win h' = hs_win h /\
  ((gpa = 0 /\ hs_gpa h' = hs_gpa h) \/
   (gpa <> 0 /\ exists off, gpa = base + off /\ gpa_inv (hs_gpa h') (Ext off len :: L))).
Proof.
  intros Hg Hl Hm. unfold gpa_alloc. destruct Hg as [Hq (s & Hs & Hgeo) Hi].
  pose proof (gi_dev _ _ _ Hi _ _ Hs) as Hsp. rewrite upd_at in Hsp.
  assert (dev_of (hs_gpa h) nv = s) as -> by (unfold dev_of; by rewrite Hs).
  pose proof (sparse_gpa_alloc_spec kfd rc (KvmSlots.Vm (hs_pool h) regs) s _ len Hsp (proj1 Hgeo) Hl) as Ha.
  destruct (nvkvm_sparse_gpa_alloc _ _ _ _ _) as [[kv s'] g] eqn:Ea.
  pose proof (alloc_geom _ _ _ _ _ _ _ _ Hgeo Ea) as Hgeo'. rewrite (page_up_id len) in Ha by (done || lia).
  destruct Ha as (-> & [(-> & -> & _)|(off & -> & Hsp' & _ & _)]); intros [=<- <- <-]; simpl; split_and!; try done.
  - left. split; [done|]. unfold set_dev. rewrite insert_id by done. by destruct (hs_gpa h).
  - right. destruct Hgeo as (_ & Hb & _). pose proof Hgeo' as (_ & Hb' & _).
    pose proof Hsp' as [_ _ Hbp _ _ _ _ Hww]. pose proof (wf_head _ _ _ Hww) as (?&_). simpl in *.
    split; [lia|]. exists off. split; [lia|]. split; simpl.
    + by destruct Hq.
    + exists s'. rewrite lookup_insert_eq. done.
    + destruct Hi as [Hd Hqs]. split.
      * intros d s1. unfold upd. destruct (Z.eqb_spec d nv) as [->|Hne].
        -- rewrite lookup_insert_eq. intros [=<-]. rewrite (dev_quar_base nv s) by lia. done.
        -- rewrite lookup_insert_ne by done. intros Hs1. specialize (Hd _ _ Hs1). unfold upd in Hd.
           by rewrite (proj2 (Z.eqb_neq d nv)) in Hd.
      * eapply Forall_impl; [exact Hqs|]. intros e ([x Hx] & ? & ?). split_and!; try tauto.
        destruct (decide (nv = q_nv e)) as [<-|]; [rewrite lookup_insert_eq|rewrite lookup_insert_ne]; eauto.
Qed.

Lemma take_extent_spec kfd rc h regs len L h' regs' o :
  gpa_inv (hs_gpa h) L -> 0 < len < REQ_MAX -> len mod 4096 = 0 ->
  take_extent nv kfd rc h regs len = (h', regs', o) ->
  regs' = regs /\ hs_mm h' = hs_mm h /\ hs_pool h' = hs_pool h /\ hs_win h' = hs_win h /\
  match o with
  | None => hs_gpa h' = hs_gpa h
  | Some (gpa, target) => exists off, gpa = base + off /\ target = va + off /\
      gpa_inv (hs_gpa h') (Ext off len :: L)
  end.
Proof.
  intros Hg Hl Hm. unfold take_extent. destruct (gpa_alloc _ _ _ _ _ _) as [[h1 regs1] gpa] eqn:Ea.
  destruct (gpa_alloc_spec _ _ _ _ _ _ _ _ _ Hg Hl Hm Ea) as (-> & Hmm & Hp & Hw & [[-> H0]|(Hz & off & -> & Hg1)]);
    [intros [=<- <- <-]; by split_and!|].
  rewrite (proj2 (Z.eqb_neq _ _) Hz). destruct (gpa_inv_sound _ _ Hg1) as (Hb & Ht & Hs & Hwf).
  pose proof (wf_head _ _ _ Hwf) as (?&?&?&_). simpl in *.
  destruct Hg1 as [Hq (s & Hsd & Hgeo) Hi]. pose proof Hgeo as (Hs0 & Hs1 & Hs2 & Hs3).
  assert (dev_of (hs_gpa h1) nv = s) as -> by (unfold dev_of; by rewrite Hsd). unfold nvkvm_gpa_to_vmm_va.
  rewrite Hs1, Hs2, Hs3, (proj2 (Z.eqb_neq va 0)), (proj2 (Z.ltb_ge (base + off) base)) by lia.
  replace (base + off - base) with off by lia. rewrite u64_small by lia.
  rewrite (proj2 (Z.leb_gt size off)), (proj2 (Z.ltb_ge size (off + len))) by lia.
  intros [=<- <- <-]. split_and!; try done. exists off. split_and!; try done. split; [done|by exists s|done].
Qed.

(** ** The calls on the reservation *)
Lemma apply_calls_app cs1 : forall ans cs2 b,
  apply_calls ans (cs1 ++ cs2) b = apply_calls (fun i => ans (length cs1 + i)%nat) cs2 (apply_calls ans cs1 b).
Proof. induction cs1 as [|c cs1 IH]; intros ans cs2 b; simpl; [done|]. by rewrite IH. Qed.

Lemma hurts_app cs1 : forall ans cs2,
  hurts ans (cs1 ++ cs2) = hurts ans cs1 ++ hurts (fun i => ans (length cs1 + i)%nat) cs2.
Proof. induction cs1 as [|c cs1 IH]; intros ans cs2; simpl; [done|]. by rewrite IH, app_assoc. Qed.

Lemma hurt_app l1 l2 x : hurt (l1 ++ l2) x <-> hurt l1 x \/ hurt l2 x.
Proof.
  unfold hurt. split.
  - intros (e & [?|?]%elem_of_app & ?); eauto.
  - intros [(e & ? & ?)|(e & ? & ?)]; exists e; rewrite elem_of_app; auto.
Qed.

(** [undone off len ans cs]: the extent shows anonymous memory again, except where
    that could not be put back; nothing else changes. *)
Definition undone (off len : Z) (ans : nat -> fixed) (cs : list call) : Prop :=
  forall b x, if within (va + off) len x then apply_calls ans cs b x = Anon \/ hurt (hurts ans cs) x
              else apply_calls ans cs b x = b x.

Lemma restore_undone off len ans :
  0 <= off -> 0 < len -> off + len <= size -> undone off len ans (nvkvm_window_restore_anon (va + off) len).
Proof.
  intros Ho Hl Hz b x. unfold nvkvm_window_restore_anon.
  rewrite (proj2 (Z.eqb_neq (va + off) 0)), (proj2 (Z.eqb_neq (va + off) MAP_FAILED)), (proj2 (Z.eqb_neq len 0)) by lia.
  simpl. destruct (within (va + off) len x) eqn:Ew; [|done].
  destruct (ans O); [by left|right..]; (exists (Ext (va + off) len); split; [left|done]).
Qed.

(** Calls that only touch the extent, then ones that undo it. *)
Lemma undone_after off len ans cs1 cs2 :
  (forall b x, within (va + off) len x = false -> apply_calls ans cs1 b x = b x) ->
  undone off len (fun i => ans (length cs1 + i)%nat) cs2 -> undone off len ans (cs1 ++ cs2).
Proof.
  intros H1 Hu b x. specialize (Hu (apply_calls ans cs1 b) x). rewrite apply_calls_app, hurts_app.
  destruct (within (va + off) len x) eqn:Ew; [|by rewrite Hu, H1].
  destruct Hu as [Hu|Hu]; [by left|right]. apply hurt_app. by right.
Qed.

(** The page ends up on the anonymous memory of the window: a UVM handle, or a
    driver page the guest wants to write and may not. *)
Definition falls_back (q : mmap_req) (env : mmap_env) : bool :=
  negb (mask_prot q & PROT_WRITE =? 0) && negb (me_mprotect env).

(** What a mapping of handle [hd] shows at [x] of its range: [y]; [l] are the ranges
    that could not be restored. *)
Definition shows (q : mmap_req) (env : mmap_env) (hd : nvkvm_handle) (off : Z) (old y : backing)
    (l : list ext) (x : Z) : Prop :=
  if h_dev hd =? NVKVM_DEV_UVM then y = old
  else if falls_back q env then y = Anon \/ hurt l x
  else y = Dev (h_fd hd) (mq_offset q + (x - (va + off))).

Lemma map_device_spec q env fd off len err cs ans :
  0 <= off -> 0 < len -> off + len <= size ->
  map_device q env fd (va + off) len = (err, cs) ->
  if (err =? 0) && negb (falls_back q env)
  then forall b x, apply_calls ans cs b x =
         if within (va + off) len x then Dev fd (mq_offset q + (x - (va + off))) else b x
  else undone off len ans cs.
Proof.
  intros Ho Hl Hz. unfold map_device. fold (falls_back q env). set (m := MapDevice _ _ _ _ _ _).
  assert (forall a b x, within (va + off) len x = false -> apply_call a b m x = b x) as Hout
    by (intros a b x Hx; simpl; by rewrite Hx).
  case_if; zb; intros [=<- <-].
  - rewrite (proj2 (Z.eqb_neq (me_mmap env) 0)) by done. simpl.
    apply (undone_after _ _ _ [m]); [intros b x Hx; by apply Hout|by apply restore_undone].
  - destruct (falls_back q env); simpl.
    + apply (undone_after _ _ _ [m; Prefault (va + off) len]); [intros b x Hx; by apply Hout|by apply restore_undone].
    + intros b x. by rewrite E.
Qed.

(** ** The tables together *)
Record parts (h : host) (L : list ext) (H : list placed) : Prop := {
  pa_mm : mmap_shape (hs_mm h); pa_gpa : gpa_inv (hs_gpa h) L; pa_win : tab_inv (hs_win h) H
}.

Lemma parts_free h off len L H :
  parts h (Ext off len :: L) H -> parts (free_extent nv h (base + off) len) L H.
Proof. intros [Hm Hg Hw]. split; simpl; auto. by apply gpa_inv_free. Qed.

(** The widths of the request's fields. *)
Definition req_ok (q : mmap_req) : Prop :=
  0 <= mq_isolate q /\ 0 <= mq_gva q < W64 /\ 0 <= mq_length q < W64 /\ 0 <= mq_offset q < W64.

(** The entry a request records. *)
Definition new_entry (q : mmap_req) (mirror : bool) (sva off len : Z) : nvkvm_iso_mmap_entry :=
  Entry true mirror (mq_isolate q) (mq_gva q) sva (va + off) len NVKVM_IN_WINDOW_SLOT (base + off) (mq_handle q).

(** [recorded h h' r e]: the table got [e] under the token answered. *)
Definition recorded (h h' : host) (r : mmap_resp) (e : nvkvm_iso_mmap_entry) : Prop :=
  r = MmapRs 0 (mr_token r) (im_gpa e) (im_len e) /\ 1 <= mr_token r < NVKVM_ISO_MMAP_MAX /\
  im_used (entry_at h (mr_token r)) = false /\
  iso_mmap_tbl (hs_mm h') = arr_set (iso_mmap_tbl (hs_mm h)) (mr_token r) e.

Lemma record_spec h q mirror sva off len L H h' r cs :
  0 < len < W64 -> 0 <= off -> off + len <= size ->
  parts h (Ext off len :: L) (mirror_of (new_entry q mirror sva off len) ++ H) ->
  record_mapping nv h q sva (va + off) len (base + off) mirror = (h', r, cs) ->
  hs_pool h' = hs_pool h /\
  ((mr_status r = ENOMEM /\ iso_mmap_tbl (hs_mm h') = iso_mmap_tbl (hs_mm h) /\ parts h' L H /\
    hs_gpa h' = nvkvm_sparse_gpa_free (hs_gpa h) nv (base + off) len /\ forall ans, undone off len ans cs) \/
   (recorded h h' r (new_entry q mirror sva off len) /\ cs = [] /\ hs_gpa h' = hs_gpa h /\
    parts h' (Ext off len :: L) (mirror_of (new_entry q mirror sva off len) ++ H))).
Proof.
  intros Hl Ho Hz [Hm Hg Hw]. unfold record_mapping, iso_mmap_alloc.
  destruct (IsoMmap.alloc_loop _ _ _) as [mm tok] eqn:Ea.
  apply IsoMmap.alloc_loop_shape in Ea as [Hmm Hc]; [|done].
  destruct Hc as [(-> & Ht & _)|(Hr & Hu & Ht)].
  - simpl. intros [=<- <- <-]. split; [done|]. left. split_and!; try done.
    + apply parts_free. split; simpl; auto.
      unfold mirror_of in Hw. simpl in Hw.
      destruct (mirror && negb (sva =? 0)); [exact (unplace_head _ _ _ Hw)|done].
    + intros ans. apply undone_after; [|apply restore_undone; lia].
      intros b x _. by destruct (mirror && _).
  - rewrite (proj2 (Z.eqb_neq tok 0)) by lia. intros [=<- <- <-]. split; [done|]. right.
    split_and!; done.
Qed.

(** The device stage. *)
Lemma device_stage q env hd off len err cs ans :
  0 <= off -> 0 < len -> off + len <= size ->
  (if h_dev hd =? NVKVM_DEV_UVM then (0, []) else map_device q env (h_fd hd) (va + off) len) = (err, cs) ->
  (forall b x, within (va + off) len x = false -> apply_calls ans cs b x = b x) /\
  (err <> 0 -> undone off len ans cs) /\
  (err = 0 -> forall b x, within (va + off) len x = true ->
     shows q env hd off (b x) (apply_calls ans cs b x) (hurts ans cs) x).
Proof.
  intros Ho Hl Hz. unfold shows. case_if; [by intros [=<- <-]|].
  intros Hm. pose proof (map_device_spec _ _ _ _ _ _ _ ans Ho Hl Hz Hm) as Hd.
  destruct (Z.eqb_spec err 0) as [->|He]; [destruct (falls_back q env)|]; simpl in Hd; split_and!;
    try done; try (intros _); intros b x Hx; specialize (Hd b x); rewrite Hx in Hd; exact Hd.
Qed.

(** From the extent on: a refusal returns the extent and the placement and
    leaves anonymous memory; a mapping records both. *)
Lemma mmap_extent_spec v h q env hd off len L H h' r cs ans :
  req_ok q -> info_u64 (me_info env) -> parts h (Ext off len :: L) H ->
  mmap_extent nv v h q env hd len (base + off) (va + off) = (h', r, cs) ->
  hs_pool h' = hs_pool h /\
  ((mr_status r <> 0 /\ iso_mmap_tbl (hs_mm h') = iso_mmap_tbl (hs_mm h) /\ parts h' L H /\
    hs_gpa h' = nvkvm_sparse_gpa_free (hs_gpa h) nv (base + off) len /\ undone off len ans cs) \/
   (exists mirror sva, recorded h h' r (new_entry q mirror sva off len) /\ hs_gpa h' = hs_gpa h /\
    parts h' (Ext off len :: L) (mirror_of (new_entry q mirror sva off len) ++ H) /\
    (forall b x, if within (va + off) len x
       then shows q env hd off (b x) (apply_calls ans cs b x) (hurts ans cs) x
       else apply_calls ans cs b x = b x))).
Proof.
  intros Hq Hinfo Hp. destruct (gpa_inv_sound _ _ (pa_gpa _ _ _ Hp)) as (_ & _ & Hsz & Hwf).
  pose proof (wf_head _ _ _ Hwf) as (Ho & Hl & Hz & _). simpl in Ho, Hl, Hz.
  assert (0 < len < W64) as Hlen by lia.
  unfold mmap_extent. destruct (if h_dev hd =? _ then _ else _) as [err cs1] eqn:Ed.
  destruct (device_stage _ _ _ _ _ _ _ ans Ho Hl Hz Ed) as (Hout & Hbad & Hgood). case_if; zb.
  { intros [=<- <- <-]. split; [done|]. left. split_and!; try done; [by apply parts_free|by apply Hbad]. }
  specialize (Hgood E). set (mirror := match _ with Some x => negb _ | None => true end).
  set (contig := match _ with Some x => _ =? _ | None => false end).
  destruct (if mirror then _ else _) as [[[w ret] sva] cs2] eqn:Es.
  assert (inert cs2 /\
    (if ret <? 0 then tab_inv w H else tab_inv w (mirror_of (new_entry q mirror sva off len) ++ H))) as (Hcs2 & Hret).
  { destruct Hp as [_ _ Hw]. destruct mirror.
    - assert (0 <= len < W64) as Hlen' by lia.
      destruct (stub_mirror_spec _ _ _ _ _ _ _ _ _ _ _ Hw Hinfo (proj1 Hq) Hlen' Es) as (? & Hr).
      split; [done|]. destruct (ret <? 0); [done|]. destruct Hr as (? & ?).
      unfold mirror_of. simpl. rewrite (proj2 (Z.eqb_neq sva 0)) by done. done.
    - injection Es as <- <- <- <-. by split. }
  assert (parts (set_win h w) (Ext off len :: L)
    (if ret <? 0 then H else mirror_of (new_entry q mirror sva off len) ++ H)) as Hp2.
  { destruct Hp. destruct (ret <? 0); split; simpl; auto. }
  assert (forall cs3, (forall a, undone off len a cs3) -> undone off len ans (cs1 ++ cs2 ++ cs3)) as Hund.
  { intros cs3 Hu. apply undone_after; [done|]. apply undone_after; [|apply Hu].
    intros b x _. by rewrite (proj1 (Hcs2 _)). }
  destruct (ret <? 0) eqn:Er; zb.
  - intros [=<- <- <-]. split; [done|]. left. split_and!; try done; simpl.
    + lia.
    + by apply parts_free.
    + apply Hund. intros a. apply restore_undone; lia.
  - destruct (record_mapping _ _ _ _ _ _ _ _) as [[h2 r2] cs3] eqn:Erec. intros [=<- <- <-].
    destruct (record_spec _ _ _ _ _ _ _ _ _ _ _ Hlen Ho Hz Hp2 Erec)
      as [Hpool [(Hst & Ht & Hpp & Hg & Hu)|(Hrec & -> & Hg & Hpp)]]; split; auto.
    + left. split_and!; auto. by rewrite Hst.
    + right. exists mirror, sva. split_and!; auto. intros b x.
      rewrite app_nil_r, apply_calls_app, hurts_app, (proj1 (Hcs2 _)), (proj2 (Hcs2 _)), app_nil_r.
      destruct (within _ _ x) eqn:Ew; auto.
Qed.

End device.
End MmapInv.
