(* ===== verification/MmapRun.v ===== *)
(** * MmapRun: mappings through sequences of map, unmap and reap requests

    Runs of [nvkvm_req_mmap_on_isolate] (module [MmapReq]),
    [nvkvm_req_realize_uvm_mapping] (module [Realize]) and of the teardown paths
    (module [Teardown]) in any order, with what the calls leave mapped in
    QEMU's reservation of the window.  The kernel may fail to put anonymous memory
    back; the ranges where it did are kept. *)
From S2P Require Import Prelude Extents KvmSlots GpaLayout SparseWin IsoWindow IsoMmap Handles Teardown Isolates Sessions MmapReq Realize MmapInv.

Module MmapRun.
Import KvmSlots GpaLayout SparseWin IsoWindow IsoMmap Handles Teardown Isolates Sessions MmapReq Realize MmapInv.

(** ** Runs *)
Inductive mop :=
| OMap (q : mmap_req) (env : mmap_env)
| ORealize (q : realize_req) (env : realize_env) (state intent : option (list Z))
| OUnmap (isolate token : Z)
| OReapHandle (isolate handle : Z)
| OReapIsolate (isolate : Z)
| OOther (v : Sessions.vm).      (* requests that leave the mappings alone *)

(** The host, the memory regions, what is mapped in the window, and the ranges whose
    anonymous memory could not be put back. *)
Definition mstate : Type := Sessions.vm * gmap Z region * (Z -> backing) * list ext.
Definition called (ans : nat -> fixed) (v : Sessions.vm) (regs : gmap Z region) (b : Z -> backing) (l : list ext)
    (cs : list call) : mstate := (v, regs, apply_calls ans cs b, hurts ans cs ++ l).
Definition torn (ans : nat -> fixed) (v : Sessions.vm) (regs : gmap Z region) (b : Z -> backing) (l : list ext)
    (x : host * Z * list effect) : mstate :=
  let '(h, _, eff) := x in called ans (set_host v (v_handles v) h) regs b l (Undo <$> eff).

(** A request with the kernel's answers to its calls. *)
Definition mexec (nv kvm_fd : Z) (st : mstate) (oa : mop * (nat -> fixed)) : mstate :=
  let '(v, regs, b, l) := st in
  let '(o, ans) := oa in
  match o with
  | OMap q env =>
      let '(v', regs', _, cs) := nvkvm_req_mmap_on_isolate nv kvm_fd v regs q env in called ans v' regs' b l cs
  | ORealize q env st p =>
      let '(h, regs', _, _) := nvkvm_req_realize_uvm_mapping nv kvm_fd v regs q env st p in
      (set_host v (v_handles v) h, regs', b, l)
  | OUnmap i t => torn ans v regs b l (nvkvm_req_munmap_on_isolate nv kvm_fd (v_host v) i t)
  | OReapHandle i hd => torn ans v regs b l (nvkvm_iso_mmap_reap_handle nv kvm_fd (fun _ h => h) (v_host v) i hd)
  | OReapIsolate i => torn ans v regs b l (nvkvm_iso_mmap_reap_isolate nv kvm_fd (fun _ h => h) (v_host v) i)
  | OOther v' => (set_host v' (v_handles v') (v_host v), regs, b, l)
  end.

(** The fields have the widths of the messages. *)
Definition mop_ok (o : mop) : Prop :=
  match o with
  | OMap q env => req_ok q /\ info_u64 (me_info env)
  | ORealize q _ _ _ => 0 <= rq_length q
  | OUnmap _ t => 0 <= t
  | _ => True
  end.

(** ** The invariant *)
Section device.
Context (nv base va size : Z) (oth : Z -> list ext).
Context (Hnv : nv <> 0) (Hva : 0 < va) (Hend : va + size < MAP_FAILED).

Definition placed_entry (e : nvkvm_iso_mmap_entry) : Prop :=
  im_kvm_slot e = NVKVM_IN_WINDOW_SLOT /\ (im_qva e = 0 \/ im_qva e = va + (im_gpa e - base)).
Definition covered (live : list nvkvm_iso_mmap_entry) (x : Z) : Prop :=
  exists e, e ∈ live /\ im_qva e <> 0 /\ within (im_qva e) (im_len e) x = true.

(** [lost] are the placements reaping by handle left in the isolates' windows. *)
Record map_inv (h : host) (b : Z -> backing) (l : list ext) (lost : list placed) : Prop := {
  mv_parts : parts nv base va size oth h (gpa_ext base <$> live_entries (hs_mm h))
               ((live_entries (hs_mm h) ≫= mirror_of) ++ lost);
  mv_ent : Forall placed_entry (live_entries (hs_mm h));
  mv_back : forall x, b x = Anon \/ (exists fd o, b x = Dev fd o) /\ covered (live_entries (hs_mm h)) x \/ hurt l x
}.

Lemma parts_perm h L1 L2 H1 H2 :
  Permutation L1 L2 -> Permutation H1 H2 ->
  parts nv base va size oth h L1 H1 -> parts nv base va size oth h L2 H2.
Proof.
  intros HL HH [? ? ?]. split; auto; [by eapply gpa_inv_perm|by rewrite <- HH].
Qed.

#[local] Instance parts_proper h :
  Proper (Permutation ==> Permutation ==> iff) (parts nv base va size oth h).
Proof. intros L1 L2 HL H1 H2 HH. split; apply parts_perm; done || by symmetry. Qed.

(** The extent of an entry, and where it is. *)
Lemma live_ext h b l lost e :
  map_inv h b l lost -> e ∈ live_entries (hs_mm h) ->
  0 < base /\ placed_entry e /\ 0 <= im_gpa e - base /\ 0 < im_len e /\ im_gpa e - base + im_len e <= size.
Proof.
  intros [Hp He _] Hin. destruct Hp as [_ Hg _]. apply gpa_inv_sound in Hg as (Hb & _ & _ & [_ Hi _]); [|done..].
  rewrite Forall_fmap in Hi. rewrite Forall_forall in Hi, He. specialize (Hi _ Hin). specialize (He _ Hin).
  unfold ext_in, e_end, gpa_ext in Hi. simpl in Hi. do 2 (split; [done|]). lia.
Qed.

Lemma within_spec a n x : within a n x = true <-> a <= x < a + n.
Proof. unfold within. rewrite andb_true_iff, Z.leb_le, Z.ltb_lt. done. Qed.

(** ** Teardown *)
Lemma backing_placed h b l lost e kfd :
  map_inv h b l lost -> e ∈ live_entries (hs_mm h) ->
  backing_effects kfd e = if im_qva e =? 0 then [] else [RestoreAnon (im_qva e) (im_len e)].
Proof.
  intros Hm Hin. destruct (live_ext _ _ _ _ _ Hm Hin) as (_ & [Hs _] & _). unfold backing_effects.
  by rewrite Hs, Z.eqb_refl.
Qed.

(** The backing after a mapping's memory is put back, or could not be. *)
Lemma restored_back ans b q n x (P : Prop) :
  (b x = Anon \/ P \/ q <> 0 /\ within q n x = true) ->
  let cs := Undo <$> (if q =? 0 then [] else [RestoreAnon q n]) in
  apply_calls ans cs b x = Anon \/ (apply_calls ans cs b x = b x /\ P) \/ hurt (hurts ans cs) x.
Proof.
  intros Hx. destruct (Z.eqb_spec q 0) as [->|Hq]; simpl; [tauto|].
  destruct (within q n x) eqn:Ew; [|destruct Hx as [|[|[_ ?]]]; [auto..|done]].
  destruct (ans O); [by left|right; right..]; (exists (Ext q n); split; [left|done]).
Qed.

Lemma detach_step ans kfd h b l lost i :
  map_inv h b l lost -> 1 <= i < NVKVM_ISO_MMAP_MAX -> im_used (entry_at h i) = true ->
  let cs := Undo <$> backing_effects kfd (entry_at h i) in
  map_inv (release_backing nv kfd (detach h i) (entry_at h i)) (apply_calls ans cs b) (hurts ans cs ++ l)
    (mirror_of (entry_at h i) ++ lost).
Proof.
  intros Hm Hi Hu. pose proof Hm as [Hp He Hbk]. set (e := entry_at h i) in *.
  destruct (live_detach h i (pa_mm _ _ _ _ _ _ _ _ Hp) Hi Hu) as [HP Hmm]. fold e in HP.
  assert (e ∈ live_entries (hs_mm h)) as Hin by (rewrite HP; left).
  destruct (live_ext _ _ _ _ _ Hm Hin) as (Hb0 & _ & H1 & _ & _). cbv zeta.
  rewrite (backing_placed _ _ _ _ _ kfd Hm Hin). rewrite HP in Hp, He. apply Forall_cons in He as [_ He].
  set (live := live_entries (hs_mm (detach h i))) in *. split.
  - cbn [release_backing hs_mm]. fold live. cbn in Hp. rewrite <- app_assoc, (Permutation_app_comm (mirror_of e)), <- app_assoc in Hp.
    rewrite (Permutation_app_comm lost) in Hp. destruct Hp as [_ Hg Hw]. split; simpl; [done| |done].
    unfold release_gpa. rewrite (proj2 (Z.eqb_neq (im_gpa e) 0)) by lia. apply gpa_inv_free in Hg; [|done..].
    by replace (base + (im_gpa e - base)) with (im_gpa e) in Hg by lia.
  - done.
  - intros x. cbn [release_backing hs_mm]. fold live. rewrite hurt_app.
    destruct (restored_back ans b (im_qva e) (im_len e) x
      ((exists fd o, b x = Dev fd o) /\ covered live x \/ hurt l x)) as [|[[-> [?|?]]|?]]; [|tauto..].
    destruct (Hbk x) as [|[[? (e' & He' & Hz & Hx)]|?]]; [by left| |by right; left; right].
    right. rewrite HP in He'. apply elem_of_cons in He' as [->|]; [by right|]. left. left. split; [done|]. by exists e'.
Qed.

Lemma drop_mirror h b l lost e :
  map_inv h b l (mirror_of e ++ lost) ->
  map_inv (set_win h (if im_stub_mirrored e && negb (im_stub_va e =? 0)
     then nvkvm_win_unplace (hs_win h) (im_isolate_id e) (im_stub_va e) (im_len e) else hs_win h)) b l lost.
Proof.
  unfold mirror_of. intros [[Hm Hg Hw] He Hb]. split; [|done|done]. simpl.
  destruct (im_stub_mirrored e && negb (im_stub_va e =? 0)); split; simpl; auto.
  cbn [app] in Hw. rewrite <- Permutation_middle in Hw. exact (unplace_head _ _ _ Hw).
Qed.

Lemma unmap_step ans kfd v regs b l lost i t :
  map_inv (v_host v) b l lost -> 0 <= t ->
  let '(v', _, b', l') := mexec nv kfd (v, regs, b, l) (OUnmap i t, ans) in map_inv (v_host v') b' l' lost.
Proof.
  intros Hm Ht. simpl. unfold nvkvm_req_munmap_on_isolate. case_if; [done|]. unfold iso_mmap_free.
  destruct ((t =? 0) || (NVKVM_ISO_MMAP_MAX <=? t) || (i =? 0)) eqn:Eg; [done|].
  fold (entry_at (v_host v) t). destruct (im_used (entry_at (v_host v) t)) eqn:Eu; cbn [negb orb]; [|done].
  destruct (im_isolate_id (entry_at (v_host v) t) =? i); cbn [negb]; [|done]. zb.
  set (e := entry_at (v_host v) t) in *. set (mir := im_stub_mirrored e && negb (im_stub_va e =? 0)).
  set (k := if mir then 1%nat else 0%nat).
  pose proof (detach_step (fun n => ans (k + n)%nat) kfd _ _ _ _ t Hm ltac:(lia) Eu) as Hd. apply drop_mirror in Hd. simpl.
  unfold torn, called. rewrite fmap_app, apply_calls_app, hurts_app. fold e in Hd. fold mir in Hd. unfold k in Hd.
  by destruct mir.
Qed.

Lemma reap_step ans kfd p ix : forall h b l lost,
  Forall (fun i => 1 <= i < NVKVM_ISO_MMAP_MAX) ix -> map_inv h b l lost ->
  let '(h', _, eff) := reap_loop nv kfd p (fun _ h => h) ix h in
  exists out l', map_inv h' (apply_calls ans (Undo <$> eff) b) l' (out ++ lost) /\
    Permutation l' (hurts ans (Undo <$> eff) ++ l) /\
    Forall (fun x => exists e, p e = true /\ x ∈ mirror_of e) out.
Proof.
  revert ans. induction ix as [|i ix IH]; intros ans h b l lost Hf Hm; [by exists [], l|]. apply Forall_cons in Hf as [Hi Hf].
  cbn [reap_loop]. destruct (im_used (entry_at h i)) eqn:Eu; simpl; [|by apply IH].
  destruct (p (entry_at h i)) eqn:Ep; simpl; [|by apply IH].
  set (cs := Undo <$> backing_effects kfd (entry_at h i)).
  specialize (IH (fun n => ans (length cs + n)%nat) _ _ _ _ Hf (detach_step ans kfd _ _ _ _ i Hm Hi Eu)).
  destruct (reap_loop _ _ _ _ ix _) as [[h' n] eff]. destruct IH as (out & l' & Hm' & Hl & Ho).
  exists (out ++ mirror_of (entry_at h i)), l'. rewrite fmap_app. fold cs. rewrite apply_calls_app, hurts_app, <- app_assoc.
  split; [done|]. split; [rewrite Hl, <- app_assoc; fold cs; by rewrite Permutation_app_swap_app|].
  apply Forall_app. split; [done|]. apply Forall_forall. eauto.
Qed.

(** Only the set of hurt ranges matters. *)
Lemma map_inv_hurt h b l1 l2 lost : Permutation l1 l2 -> map_inv h b l1 lost -> map_inv h b l2 lost.
Proof.
  intros HP [Hp He Hb]. split; auto. intros x. destruct (Hb x) as [|[|(e & ? & ?)]]; auto.
  right. right. exists e. by rewrite <- HP.
Qed.

Lemma filter_keep {A} (P : A -> Prop) `{!forall x, Decision (P x)} (l : list A) : Forall P l -> filter P l = l.
Proof. induction 1 as [|x l Hx _ IH]; [done|]. by rewrite filter_cons_True, IH. Qed.

Lemma page_up_lt x : page_up x < W64.
Proof.
  unfold page_up. pose proof (u64_range (x + 4095)). change 4095 with (2 ^ 12 - 1) at 2.
  rewrite land_not64_low by lia. pose proof (Z.mod_pos_bound (u64 (x + 4095)) (2 ^ 12)). lia.
Qed.

Lemma mirror_ids p e : p ∈ mirror_of e -> p_id p = im_isolate_id e.
Proof. unfold mirror_of. case_if; [|by intros ?%not_elem_of_nil]. by intros ->%list_elem_of_singleton. Qed.

Lemma reap_isolate_step ans kfd v regs b l lost i :
  map_inv (v_host v) b l lost ->
  let '(v', _, b', l') := mexec nv kfd (v, regs, b, l) (OReapIsolate i, ans) in exists lost', map_inv (v_host v') b' l' lost'.
Proof.
  intros Hm. simpl. unfold nvkvm_iso_mmap_reap_isolate.
  set (p := fun e => im_isolate_id e =? i).
  pose proof (reap_step ans kfd p tokens _ _ _ _ tokens_range Hm) as Hr.
  assert (length (iso_mmap_tbl (hs_mm (v_host v))) = Z.to_nat NVKVM_ISO_MMAP_MAX) as Hlen
    by (by destruct Hm as [[[] _ _] _ _]).
  pose proof (reap_clears nv kfd p (fun _ h => h) tokens (fun _ _ Hl => conj Hl (fun _ _ Hu => Hu)) _ tokens_range Hlen) as Hc.
  destruct (reap_loop _ _ _ _ _ _) as [[h' n] eff]. destruct Hr as (out & l' & [Hp He Hb] & Hl & _).
  exists (filter (fun x => p_id x <> i) (out ++ lost)). apply (map_inv_hurt _ _ l'); [done|].
  split; [|done|done]. cbn [v_host set_host hs_mm].
  destruct Hp as [Hmm Hg Hw]. split; cbn [hs_mm hs_gpa hs_win]; auto.
  apply (forget_step_inv _ _ i) in Hw. rewrite filter_app in Hw.
  rewrite (filter_keep _ (_ ≫= _)) in Hw; [done|].
  apply Forall_forall. intros x (e & Hx & Hin)%list_elem_of_bind. rewrite (mirror_ids _ _ Hx).
  destruct (live_token h' e Hmm Hin) as (j & Hj & <- & Hu). intros Hi.
  assert (j ∈ tokens) as Hjt by (apply elem_of_seqZ; unfold NVKVM_ISO_MMAP_MAX in *; lia).
  specialize (Hc j Hj (or_introl Hjt)).
  unfold p in Hc. rewrite Hu, Hi, Z.eqb_refl in Hc. done.
Qed.

(** ** The map request *)
Lemma check_spec v sz q hd :
  0 <= mq_offset q -> mmap_check v sz q = inl hd ->
  nvkvm_handle_get (v_handles v) (mq_handle q) = Some hd /\ 0 <= h_fd hd /\
  session_has_isolate v (mq_session q) (mq_isolate q) = true /\ 0 <> mq_length q /\ mq_length q <= sz /\
  (h_type hd = NVKVM_HANDLE_TYPE_MEMORY -> mq_offset q + mq_length q <= page_up (h_size hd)).
Proof.
  intros Ho. unfold mmap_check. destruct (nvkvm_handle_get _ _) as [h|]; [|done]. case_if; [done|].
  destruct (session_has_isolate _ _ _); simpl; [|done]. case_if; [done|]. case_if; [done|].
  intros [=<-]. pose proof (page_up_lt (h_size h)) as Hlt. apply orb_false_iff in E1 as [E1 E2].
  zb; (split_and!; [done..|lia|lia|]); intros Ht; [done|]. rewrite u64_small in * by lia. lia.
Qed.

(** A refused request leaves the mapping table and the memory slots as they were, and
    has given back the extent it took.  What is mapped in the reservation stays as it
    was, but for places where anonymous memory could not be put back, now ([hurts]) or
    earlier ([l]; those may be mended). *)
Definition refused (kfd : Z) (v : Sessions.vm) (regs : gmap Z region) (q : mmap_req) (env : mmap_env)
    (ans : nat -> fixed) (b : Z -> backing) (l : list ext) (v' : Sessions.vm) (r : mmap_resp) (cs : list call) : Prop :=
  let len := page_up (mq_length q) in
  mr_status r <> 0 /\ iso_mmap_tbl (hs_mm (v_host v')) = iso_mmap_tbl (hs_mm (v_host v)) /\
  hs_pool (v_host v') = hs_pool (v_host v) /\
  (hs_gpa (v_host v') = hs_gpa (v_host v) \/
   exists h1 regs1 gpa target,
     take_extent nv kfd (me_rc env) (v_host v) regs len = (h1, regs1, Some (gpa, target)) /\
     hs_gpa (v_host v') = nvkvm_sparse_gpa_free (hs_gpa h1) nv gpa len) /\
  forall x, apply_calls ans cs b x = b x \/ hurt (hurts ans cs) x \/ (hurt l x /\ apply_calls ans cs b x = Anon).

(** A served one records exactly one entry, and what the guest sees at the GPA
    it is told is the handle's file from the offset it asked for, or the anonymous
    memory of the window where the device cannot be mapped (unless that memory could
    not be put back, now or earlier). *)
Definition mapped (v : Sessions.vm) (q : mmap_req) (env : mmap_env)
    (ans : nat -> fixed) (b : Z -> backing) (l : list ext) (v' : Sessions.vm) (r : mmap_resp) (cs : list call) : Prop :=
  exists hd e,
    nvkvm_handle_get (v_handles v) (mq_handle q) = Some hd /\ 0 <= h_fd hd /\
    session_has_isolate v (mq_session q) (mq_isolate q) = true /\
    (h_type hd = NVKVM_HANDLE_TYPE_MEMORY -> mq_offset q + mq_length q <= page_up (h_size hd)) /\
    recorded (v_host v) (v_host v') r e /\ im_isolate_id e = mq_isolate q /\ im_gva e = mq_gva q /\
    im_handle_id e = mq_handle q /\ im_len e = page_up (mq_length q) /\ im_qva e = va + (im_gpa e - base) /\
    forall x,
      if within (im_qva e) (im_len e) x then
        if (h_dev hd =? NVKVM_DEV_UVM) || falls_back q env
        then apply_calls ans cs b x = Anon \/ hurt (hurts ans cs ++ l) x
        else apply_calls ans cs b x = Dev (h_fd hd) (mq_offset q + (x - im_qva e))
      else apply_calls ans cs b x = b x.

(** A fresh extent shows anonymous memory, but for places hurt earlier. *)
Lemma fresh_anon h b l lost off len x :
  map_inv h b l lost -> wf_exts size (Ext off len :: (gpa_ext base <$> live_entries (hs_mm h))) ->
  within (va + off) len x = true -> b x = Anon \/ hurt l x.
Proof.
  intros Hm [[Hd _] _ _] Hx. destruct (mv_back _ _ _ _ Hm x) as [|[[_ (e & He & Hz & Hxe)]|]]; [by left| |by right]. exfalso.
  destruct (live_ext _ _ _ _ _ Hm He) as (_ & [_ [?|Hq]] & _); [done|]. rewrite Hq in Hxe. apply within_spec in Hx, Hxe.
  rewrite Forall_forall in Hd. assert (gpa_ext base e ∈ gpa_ext base <$> live_entries (hs_mm h)) as Hin
    by (by apply list_elem_of_fmap_2).
  specialize (Hd _ Hin). unfold ext_disj, e_end, gpa_ext in Hd. simpl in Hd. lia.
Qed.

Lemma map_inv_same h h' b b' l l' lost :
  map_inv h b l lost -> iso_mmap_tbl (hs_mm h') = iso_mmap_tbl (hs_mm h) ->
  parts nv base va size oth h' (gpa_ext base <$> live_entries (hs_mm h)) ((live_entries (hs_mm h) ≫= mirror_of) ++ lost) ->
  (forall x, b' x = b x \/ b' x = Anon \/ hurt l' x) -> map_inv h' b' (l' ++ l) lost.
Proof.
  intros [_ He Hb] Ht Hp Hx. assert (live_entries (hs_mm h') = live_entries (hs_mm h)) as Hl
    by (unfold live_entries; by rewrite Ht).
  split; rewrite ?Hl; auto. intros x. rewrite hurt_app. destruct (Hx x) as [->|[|]]; [|tauto..].
  destruct (Hb x) as [|[|]]; tauto.
Qed.

Lemma map_inv_add h h' b b' l l' lost r e :
  map_inv h b l lost -> recorded h h' r e -> im_used e = true -> placed_entry e ->
  parts nv base va size oth h' (gpa_ext base e :: (gpa_ext base <$> live_entries (hs_mm h)))
    (mirror_of e ++ (live_entries (hs_mm h) ≫= mirror_of) ++ lost) ->
  (forall x, b' x = b x \/ (im_qva e <> 0 /\ within (im_qva e) (im_len e) x = true /\ b' x <> Hole) \/ hurt (l' ++ l) x) ->
  map_inv h' b' (l' ++ l) lost.
Proof.
  intros [[Hmm _ _] He Hb] (_ & Ht & Hu & Htbl) Hue Hpe Hp Hx.
  pose proof (live_insert (hs_mm h) (mr_token r) e 0 Hmm Ht Hu Hue) as HP.
  assert (Permutation (live_entries (hs_mm h')) (e :: live_entries (hs_mm h))) as HP'
    by (unfold live_entries in *; by rewrite Htbl).
  split.
  - rewrite HP'. cbn. rewrite <- app_assoc. done.
  - rewrite HP'. by constructor.
  - intros x. destruct (Hx x) as [Hxx|[(Hz & Ew & Hh)|]]; [| |auto].
    + rewrite Hxx. destruct (Hb x) as [|[[? (e' & He' & Hxe)]|]]; [by left| |rewrite hurt_app; auto].
      right. left. split; [done|]. exists e'. rewrite HP'. split; [by right|done].
    + destruct (b' x) eqn:Ex; [by left| |done]. right. left. split; [eauto|]. exists e. rewrite HP'. split; [left|done].
Qed.

(** From the allocated extent on. *)
Lemma extent_step kfd v regs q env ans b l lost hd h1 regs1 off h2 r cs :
  let len := page_up (mq_length q) in
  let live := live_entries (hs_mm (v_host v)) in
  map_inv (v_host v) b l lost -> req_ok q -> info_u64 (me_info env) ->
  mmap_check v size q = inl hd ->
  take_extent nv kfd (me_rc env) (v_host v) regs len = (h1, regs1, Some (base + off, va + off)) ->
  hs_mm h1 = hs_mm (v_host v) -> hs_pool h1 = hs_pool (v_host v) ->
  parts nv base va size oth h1 (Ext off len :: (gpa_ext base <$> live)) ((live ≫= mirror_of) ++ lost) ->
  mmap_extent nv v h1 q env hd len (base + off) (va + off) = (h2, r, cs) ->
  let v' := set_host v (me_mid env (v_handles v)) h2 in
  map_inv h2 (apply_calls ans cs b) (hurts ans cs ++ l) lost /\
  (refused kfd v regs q env ans b l v' r cs \/ mapped v q env ans b l v' r cs).
Proof.
  intros len live Hm Hq Hi Hc Et Emm Epool Hp1 Ex. cbv zeta.
  pose proof (gpa_inv_sound _ _ _ _ _ Hend _ _ (pa_gpa _ _ _ _ _ _ _ _ Hp1)) as (_ & _ & _ & Hwf).
  assert (forall x, within (va + off) len x = true -> b x = Anon \/ hurt l x) as Hfresh by (intros x; by eapply fresh_anon).
  apply (mmap_extent_spec nv base va size oth) with (1 := Hnv) (2 := Hva) (3 := Hend) (6 := Hp1) (ans := ans) in Ex; [|done..].
  destruct Ex as (Hpool & [(Hst & Ht & Hp2 & Hg2 & Hu)|(mirror & sva & Hrec & Hg2 & Hp2 & Hb)]).
  - assert (forall x, apply_calls ans cs b x = b x \/ hurt (hurts ans cs) x \/ (hurt l x /\ apply_calls ans cs b x = Anon)) as Hbx.
    { intros x. specialize (Hu b x). destruct (within _ _ x) eqn:Ew; [|by left].
      destruct Hu as [Hu|]; [|auto]. destruct (Hfresh x Ew) as [->|]; auto. }
    split; [apply (map_inv_same (v_host v) _ b); simpl; auto; [congruence|intros x; destruct (Hbx x) as [|[|[]]]; auto]|].
    left. split_and!; simpl; auto; try congruence. right. by exists h1, regs1, (base + off), (va + off).
  - assert (forall x, if within (va + off) len x then
      if (h_dev hd =? NVKVM_DEV_UVM) || falls_back q env then apply_calls ans cs b x = Anon \/ hurt (hurts ans cs ++ l) x
      else apply_calls ans cs b x = Dev (h_fd hd) (mq_offset q + (x - (va + off)))
      else apply_calls ans cs b x = b x) as Hbx.
    { intros x. specialize (Hb b x). destruct (within _ _ x) eqn:Ew; [|done]. unfold shows in Hb.
      pose proof (hurt_app (hurts ans cs) l x) as Ha.
      destruct (_ =? _); simpl; [rewrite Hb; destruct (Hfresh x Ew); tauto|]. destruct (falls_back q env); [tauto|done]. }
    assert (recorded (v_host v) h2 r (new_entry base va q mirror sva off len)) as Hrec'
      by (unfold recorded, entry_at in *; by rewrite Emm in Hrec).
    split.
    + apply (map_inv_add (v_host v) h2 b _ l _ lost r _ Hm Hrec'); simpl; auto.
      * split; simpl; [done|right; lia].
      * unfold gpa_ext at 1. simpl. by replace (base + off - base) with off by lia.
      * intros x. specialize (Hbx x). destruct (within _ _ x) eqn:Ew; [|by left]. right.
        assert (va + off <> 0) by (pose proof (wf_head _ _ _ Hwf) as (?&_); simpl in *; lia).
        destruct (_ || _); [destruct Hbx as [->|]; [by left|by right]|left; by rewrite Hbx].
    + right. apply check_spec in Hc as (? & ? & ? & _ & _ & ?); [|apply Hq].
      exists hd, (new_entry base va q mirror sva off len). split_and!; try done. simpl. lia.
Qed.

Lemma mmap_step kfd v regs q env ans b l lost :
  map_inv (v_host v) b l lost -> req_ok q -> info_u64 (me_info env) ->
  let '(v', _, r, cs) := nvkvm_req_mmap_on_isolate nv kfd v regs q env in
  map_inv (v_host v') (apply_calls ans cs b) (hurts ans cs ++ l) lost /\
  (refused kfd v regs q env ans b l v' r cs \/ mapped v q env ans b l v' r cs).
Proof.
  intros Hm Hq Hi. pose proof Hm as [Hp _ _].
  pose proof (gpa_inv_sound _ _ _ _ _ Hend _ _ (pa_gpa _ _ _ _ _ _ _ _ Hp)) as (_ & _ & Hz & _).
  assert (sw_size (dev_of (hs_gpa (v_host v)) nv) = size) as Hsize.
  { destruct Hp as [_ [_ (s & Hs & _ & _ & _ & Hsz) _] _]. unfold dev_of. by rewrite Hs. }
  assert (forall e, e <> 0 -> refused kfd v regs q env ans b l v (fail e) []) as Href by (intros; by split_and!; auto).
  unfold nvkvm_req_mmap_on_isolate. rewrite Hsize. destruct (mmap_check v size q) as [hd|e] eqn:Ec.
  2: { split; [done|]. left. apply Href. revert Ec. unfold mmap_check.
       destruct (nvkvm_handle_get _ _); [|by intros [=<-]]. repeat case_if; by intros [=<-]. }
  pose proof Hq as (_ & _ & Hl & Ho). pose proof (check_spec _ _ _ _ (proj1 Ho) Ec) as (_ & _ & _ & Hl0 & Hls & _).
  destruct (page_up_spec (mq_length q)) as (Hmod & [(_ & Hlen & _)|(? & _)]); [lia| |lia].
  case_if; [split; [done|]; left; by apply Href|]. zb.
  destruct (take_extent _ _ _ _ _ _) as [[h1 regs1] o] eqn:Et. pose proof Et as Et'.
  apply (take_extent_spec nv base va size oth)
    with (L := gpa_ext base <$> live_entries (hs_mm (v_host v))) in Et'; [|done..|apply Hp|lia|done].
  destruct Et' as (-> & Emm & Epool & Ewin & Eo). destruct o as [[gpa target]|].
  - destruct Eo as (off & -> & -> & Hg).
    destruct (mmap_extent _ _ _ _ _ _ _ _ _) as [[h2 r] cs] eqn:Ex.
    eapply extent_step; eauto. destruct Hp. split; rewrite ?Emm, ?Ewin; auto.
  - split; [|left; split_and!; simpl; auto; by rewrite Emm].
    apply (map_inv_same (v_host v) _ b _ l []); simpl; auto; [by rewrite Emm|].
    destruct Hp. split; rewrite ?Emm, ?Eo, ?Ewin; auto.
Qed.

(** ** The realize request *)
Lemma realize_step kfd v regs q env state intent b l lost :
  map_inv (v_host v) b l lost -> 0 <= rq_length q ->
  map_inv (fst (fst (fst (nvkvm_req_realize_uvm_mapping nv kfd v regs q env state intent)))) b l lost.
Proof.
  intros Hm Hl. pose proof Hm as [Hp _ _]. unfold nvkvm_req_realize_uvm_mapping.
  destruct (realize_check _ _ _ _) as [c|e] eqn:Ec; [|done].
  apply realize_check_length in Ec as (-> & Hlen & Hmod); [|done].
  assert (0 < rq_length q < REQ_MAX) as Hrq by lia.
  destruct (gpa_alloc _ _ _ _ _ _) as [[h1 regs1] gpa] eqn:Ea.
  destruct (gpa_alloc_spec nv base va size oth kfd _ _ _ _ _ _ _ _ (pa_gpa _ _ _ _ _ _ _ _ Hp) Hrq Hmod Ea)
    as (-> & Emm & Epool & Ewin & [[-> Eg]|(Hz & off & -> & Hg)]).
  { simpl. apply (map_inv_same (v_host v) _ b _ l []); simpl; auto; [by rewrite Emm|].
    destruct Hp. split; rewrite ?Emm, ?Eg, ?Ewin; auto. }
  rewrite (proj2 (Z.eqb_neq _ _) Hz).
  assert (parts nv base va size oth h1 (Ext off (rq_length q) :: (gpa_ext base <$> live_entries (hs_mm (v_host v))))
    ((live_entries (hs_mm (v_host v)) ≫= mirror_of) ++ lost)) as Hp1
    by (destruct Hp; split; rewrite ?Emm, ?Ewin; auto).
  assert (forall h2, iso_mmap_tbl (hs_mm h2) = iso_mmap_tbl (hs_mm h1) -> hs_gpa h2 = hs_gpa h1 -> hs_win h2 = hs_win h1 ->
    mmap_shape (hs_mm h2) -> map_inv (free_extent nv h2 (base + off) (rq_length q)) b l lost) as Hfree.
  { intros h2 Ht Hgp Hw Hmi. apply (map_inv_same (v_host v) _ b _ l []); simpl; auto; [by rewrite Ht, Emm|].
    apply parts_free; [done..|]. destruct Hp1. split; rewrite ?Hgp, ?Hw; auto. }
  destruct (nvkvm_isolate_realize_uvm_fd _ _ _) as [[[[ret hva] tok] rm] cs].
  case_if; [by apply Hfree; try done; apply Hp1|]. case_if; [by apply Hfree; try done; apply Hp1|].
  unfold iso_mmap_alloc. destruct (IsoMmap.alloc_loop _ _ _) as [mm t] eqn:Et.
  pose proof (gpa_inv_sound _ _ _ _ _ Hend _ _ Hg) as (Hb & Ht & Hs & Hwf).
  pose proof (wf_head _ _ _ Hwf) as (Hw1 & Hw2 & Hw3 & _). cbn [e_off e_len] in Hw1, Hw2, Hw3.
  apply IsoMmap.alloc_loop_shape in Et as [Hmm Hc]; [|apply Hp1].
  destruct Hc as [(-> & Ht' & _)|(Hr & Hu & Ht')]; [simpl; by apply Hfree|].
  rewrite (proj2 (Z.eqb_neq t 0)) by lia. simpl.
  apply (map_inv_add (v_host v) _ b _ l [] lost (MmapRs 0 t (base + off) (rq_length q))
    (Entry true false (rq_isolate q) (base + off) 0 0 (rq_length q) NVKVM_IN_WINDOW_SLOT (base + off) 0) Hm); try done.
  - unfold recorded, entry_at. cbn [mr_token hs_mm im_gpa im_len]. rewrite <- Emm. done.
  - split; [done|by left].
  - unfold gpa_ext at 1. simpl. replace (base + off - base) with off by lia. by destruct Hp1; split.
  - by left.
Qed.

(** ** Runs keep the invariant *)
Lemma mexec_inv ans kfd v regs b l lost o :
  map_inv (v_host v) b l lost -> mop_ok o ->
  let '(v', _, b', l') := mexec nv kfd (v, regs, b, l) (o, ans) in exists lost', map_inv (v_host v') b' l' lost'.
Proof.
  intros Hm Ho. destruct o as [q env|q env st p|i t|i hd|i|v'].
  - destruct Ho as [Hq Hi]. pose proof (mmap_step kfd v regs q env ans b l lost Hm Hq Hi) as Hs. simpl.
    destruct (nvkvm_req_mmap_on_isolate nv kfd v regs q env) as [[[v' regs'] r] cs]. exists lost. apply Hs.
  - pose proof (realize_step kfd v regs q env st p b l lost Hm Ho) as Hs. simpl.
    destruct (nvkvm_req_realize_uvm_mapping _ _ _ _ _ _ _ _) as [[[h' regs'] r] cs]. by exists lost.
  - pose proof (unmap_step ans kfd v regs b l lost i t Hm Ho) as Hs.
    destruct (mexec nv kfd (v, regs, b, l) (OUnmap i t, ans)) as [[[v' regs'] b'] l']. by exists lost.
  - simpl. unfold nvkvm_iso_mmap_reap_handle. case_if; [by exists lost|].
    pose proof (reap_step ans kfd (fun e => (im_isolate_id e =? i) && (im_handle_id e =? hd)) tokens _ _ _ _ tokens_range Hm) as Hr.
    destruct (reap_loop _ _ _ _ _ _) as [[h' n] eff]. destruct Hr as (out & l' & Hm' & Hl & _). exists (out ++ lost).
    by apply (map_inv_hurt _ _ l').
  - by apply reap_isolate_step with (lost := lost).
  - by exists lost.
Qed.

Lemma mrun_inv kfd ops : forall v regs b l lost,
  map_inv (v_host v) b l lost -> Forall (fun oa => mop_ok (fst oa)) ops ->
  let '(v', _, b', l') := fold_left (mexec nv kfd) ops (v, regs, b, l) in exists lost', map_inv (v_host v') b' l' lost'.
Proof.
  induction ops as [|[o ans] ops IH]; intros v regs b l lost Hm Ho; [by exists lost|].
  apply Forall_cons in Ho as [Ho Hos]. cbn [fold_left]. pose proof (mexec_inv ans kfd v regs b l lost o Hm Ho) as Hs.
  destruct (mexec nv kfd (v, regs, b, l) (o, ans)) as [[[v1 regs1] b1] l1]. destruct Hs as [lo1 H1]. by apply (IH _ _ _ _ lo1).
Qed.

End device.

(** The device is set up and nothing is mapped. *)
Definition map_start (nv base va size : Z) (h : host) : Prop :=
  hs_mm h = mmap_init /\ hs_win h = ∅ /\ gpa_inv nv base va size (fun _ => []) (hs_gpa h) [].

Lemma live_init : live_entries mmap_init = [].
Proof. vm_compute. reflexivity. Qed.

Lemma map_start_inv nv base va size h :
  map_start nv base va size h -> map_inv nv base va size (fun _ => []) h (fun _ => Anon) [] [].
Proof.
  intros (Hm & Hw & Hg). split; rewrite ?Hm, ?live_init; [|constructor|by left].
  split; rewrite ?Hm, ?Hw; [apply mmap_inv_shape, mmap_init_inv|done|].
  split; [intros id w; by rewrite lookup_empty|constructor].
Qed.

(** ** Theorems *)

(** Where the guest sees a mapping. *)
Definition guest_at (e : nvkvm_iso_mmap_entry) : ext := Ext (im_gpa e) (im_len e).

Lemma guest_at_sound nv base va size oth h b l lost :
  va + size < MAP_FAILED -> map_inv nv base va size oth h b l lost ->
  all_disj (guest_at <$> live_entries (hs_mm h)) /\
  Forall (ext_in base (base + size)) (guest_at <$> live_entries (hs_mm h)).
Proof.
  intros Hend [[_ Hg _] _ _]. apply gpa_inv_sound in Hg as (_ & _ & _ & [Hd Hi _]); [|done].
  assert (gpa_ext base <$> live_entries (hs_mm h) =
    (fun e => Ext (e_off e - base) (e_len e)) <$> (guest_at <$> live_entries (hs_mm h))) as He
    by (rewrite <- list_fmap_compose; done).
  rewrite He in Hd, Hi. split; [by eapply all_disj_shift|].
  rewrite Forall_fmap in Hi. eapply Forall_impl; [exact Hi|]. unfold ext_in, e_end. simpl. lia.
Qed.

Lemma mirrors_sound t H1 H2 id w :
  tab_inv t (H1 ++ H2) -> t !! id = Some w -> win_sane w ->
  all_disj (live_of 0 id H1) /\ Forall (ext_in (w_base w) (w_base w + w_size w)) (live_of 0 id H1).
Proof.
  intros [Hw _] Hi Hs. destruct (Hw _ _ Hi) as [_ Hv]. destruct (Hv Hs) as [[_ Hc _ [Hd Hn _]] _ _].
  unfold live_of in Hd, Hn. rewrite bind_app in Hd, Hn. fold (live_of (w_base w) id H1) in Hd, Hn.
  do 3 apply all_disj_app in Hd as [Hd _]. do 3 apply Forall_app in Hn as [Hn _].
  rewrite live_of_shift in Hd, Hn. split; [by eapply all_disj_shift|].
  rewrite Forall_fmap in Hn. eapply Forall_impl; [exact Hn|]. unfold ext_in, e_end; simpl. lia.
Qed.

(** C8: in any sequence of map and realize requests, unmap requests and reaps, with
    any answers of the kernel and of the isolates (words of 64 bits, [info_u64]): the
    guest physical ranges of the live mappings stay inside the window and pairwise disjoint.  The mirrors of each isolate
    whose reported window fits into the 64-bit address space (which nothing checks) stay
    inside that window and pairwise disjoint.  Every page of QEMU's reservation shows
    anonymous memory, or a device page under a mapping that is live, at the place of
    that mapping's guest address, or lies in a range over which the [mmap] that puts
    anonymous memory back has failed; so without such a failure the window never has
    a hole and no device page outlives its mapping. *)
Theorem mapping_lifecycle nv base va size kvm_fd ops v regs :
  nv <> 0 -> 0 < va -> va + size < MAP_FAILED -> map_start nv base va size (v_host v) ->
  Forall (fun oa => mop_ok (fst oa)) ops ->
  let '(v', _, b, failed) := fold_left (mexec nv kvm_fd) ops (v, regs, fun _ => Anon, []) in
  let live := live_entries (hs_mm (v_host v')) in
  all_disj (guest_at <$> live) /\ Forall (ext_in base (base + size)) (guest_at <$> live) /\
  (forall id w, hs_win (v_host v') !! id = Some w -> win_sane w ->
     all_disj (live_of 0 id (live ≫= mirror_of)) /\
     Forall (ext_in (w_base w) (w_base w + w_size w)) (live_of 0 id (live ≫= mirror_of))) /\
  (forall x, b x = Anon \/
     (exists fd off e, b x = Dev fd off /\ e ∈ live /\ 0 <= x - (va + (im_gpa e - base)) < im_len e) \/
     hurt failed x).
Proof.
  intros Hnv Hva Hend Hs Ho.
  pose proof (mrun_inv nv base va size _ Hnv Hva Hend kvm_fd ops v regs _ [] [] (map_start_inv _ _ _ _ _ Hs) Ho) as Hr.
  destruct (fold_left _ _ _) as [[[v' regs'] b] l]. destruct Hr as [lost Hm]. cbv zeta.
  pose proof (guest_at_sound _ _ _ _ _ _ _ _ _ Hend Hm) as [H1 H2]. split; [done|]. split; [done|]. split.
  - intros id w. apply mirrors_sound with (H2 := lost). apply Hm.
  - intros x. destruct (mv_back _ _ _ _ _ _ _ _ _ Hm x) as [|[[(fd & o & Hb) (e & He & Hz & Hx)]|]]; [by left| |auto].
    right. left. exists fd, o, e. do 2 (split; [done|]). apply within_spec in Hx.
    pose proof (mv_ent _ _ _ _ _ _ _ _ _ Hm) as Hf. rewrite Forall_forall in Hf. destruct (Hf e He) as [_ [?|Hq]]; [done|]. lia.
Qed.

(** C9: a map request that is refused, on any path and with any answers (whatever 64-bit
    words the isolate reports as its window, [info_u64]), leaves the
    mapping table and the memory slots as they were and has given back the window
    extent it took; what is mapped in the window stays as it was, except where the
    [mmap] that puts anonymous memory back fails (and places where it failed earlier
    may be mended).  One that is served came from a session that owns the isolate,
    stays inside a memory handle's object, records exactly one entry under the token
    answered, and shows at the guest address answered the handle's file from the
    requested offset, or, for UVM and read-only driver pages, anonymous memory, again
    except where that could not be put back; nothing else in the window changes. *)
Theorem mmap_on_isolate_exact nv base va size oth kvm_fd v regs q env ans b failed lost :
  nv <> 0 -> 0 < va -> va + size < MAP_FAILED -> map_inv nv base va size oth (v_host v) b failed lost ->
  req_ok q -> info_u64 (me_info env) ->
  let '(v', _, r, cs) := nvkvm_req_mmap_on_isolate nv kvm_fd v regs q env in
  refused nv kvm_fd v regs q env ans b failed v' r cs \/ mapped base va v q env ans b failed v' r cs.
Proof.
  intros Hnv Hva Hend Hm Hq Hi.
  pose proof (mmap_step nv base va size oth Hnv Hva Hend kvm_fd v regs q env ans b failed lost Hm Hq Hi) as Hs.
  destruct (nvkvm_req_mmap_on_isolate nv kvm_fd v regs q env) as [[[v' regs'] r] cs]. apply Hs.
Qed.

(** ** Witnesses: session 9 maps its nvidia0 handle twice into isolate 1, once
    with a lying isolate, and unmaps the first mapping *)
Definition demo_sp : sparse := Sparse demo_layout None 65536 1048576 1073741824 0 64 true [].
Definition demo_start : host := Host mmap_init pool_init (GState {[7 := demo_sp]} [] 0) ∅.
Definition demo_q (n : Z) : mmap_req := MmapRq 1 1 4096 0 n 7 0 9.
Definition demo_e (stub : Z) : mmap_env :=
  MmapEnv 0 0 true (fun t => t) (Some (1099511627776, 1099511627776)) 0 stub.
Definition demo_mops : list (mop * (nat -> fixed)) :=
  (fun o => (o, fun _ => Done)) <$>
  [OMap (demo_q 8192) (demo_e 0); OMap (demo_q 4096) (demo_e 4096); OMap (demo_q 100) (demo_e 0); OUnmap 1 1].

Lemma demo_map_start : map_start 7 1048576 65536 1073741824 (v_host (demo_vm demo_start)).
Proof.
  rewrite demo_vm_host. split; [done|]. split; [done|]. unfold demo_start. cbn [hs_gpa]. split.
  - split; [constructor|done|unfold NVKVM_GPA_QUAR_BYTES|unfold NVKVM_GPA_QUAR_MAX]; simpl; lia.
  - exists demo_sp. split; [apply lookup_singleton_eq|]. unfold geom. simpl. lia.
  - split; [|constructor]. intros d s. cbn [g_dev]. rewrite lookup_singleton_Some. intros [<- <-].
    split; try done; try (simpl; lia).
Qed.

Lemma demo_mops_ok : Forall (fun oa => mop_ok (fst oa)) demo_mops.
Proof.
  assert (forall n, 0 <= n < W64 -> req_ok (demo_q n)) as Hq by (intros n Hn; unfold req_ok; simpl; lia).
  assert (forall s, info_u64 (me_info (demo_e s))) as Hi by (intros s b n [=<- <-]; lia).
  unfold demo_mops. cbn [fmap list_fmap]. repeat apply Forall_cons_2; [split; [apply Hq; lia|apply Hi]..|simpl; lia|constructor].
Qed.

Lemma mapping_lifecycle_witness :
  let live := live_entries (hs_mm (v_host (fst (fst (fst
    (fold_left (mexec 7 5) demo_mops (demo_vm demo_start, ∅, fun _ => Anon, []))))))) in
  guest_at <$> live = [Ext 1060864 4096] /\ Forall (ext_in 1048576 (1048576 + 1073741824)) (guest_at <$> live).
Proof.
  split; [vm_compute; reflexivity|].
  pose proof (mapping_lifecycle 7 1048576 65536 1073741824 5 demo_mops (demo_vm demo_start) ∅
    ltac:(lia) ltac:(lia) ltac:(unfold MAP_FAILED; lia) demo_map_start demo_mops_ok) as H.
  destruct (fold_left _ _ _) as [[[v' regs'] b] l]. apply H.
Defined.

Lemma mmap_on_isolate_exact_witness :
  let '(v', _, r, cs) := nvkvm_req_mmap_on_isolate 7 5 (demo_vm demo_start) ∅ (demo_q 8192) (demo_e 0) in
  r = MmapRs 0 1 1048576 8192 /\ mapped 1048576 65536 (demo_vm demo_start) (demo_q 8192) (demo_e 0) (fun _ => Done) (fun _ => Anon) [] v' r cs.
Proof.
  pose proof (mmap_on_isolate_exact 7 1048576 65536 1073741824 (fun _ => []) 5 (demo_vm demo_start) ∅ (demo_q 8192)
    (demo_e 0) (fun _ => Done) (fun _ => Anon) [] [] ltac:(lia) ltac:(lia) ltac:(unfold MAP_FAILED; lia)
    (map_start_inv _ _ _ _ _ demo_map_start) ltac:(unfold req_ok; simpl; lia) ltac:(intros b n [=<- <-]; lia)) as H.
  assert (snd (fst (nvkvm_req_mmap_on_isolate 7 5 (demo_vm demo_start) ∅ (demo_q 8192) (demo_e 0))) =
    MmapRs 0 1 1048576 8192) as E by (vm_compute; reflexivity).
  destruct (nvkvm_req_mmap_on_isolate _ _ _ _ _ _) as [[[v' regs'] r] cs]. cbn [fst snd] in E. subst r.
  split; [reflexivity|]. destruct H as [(H & _)|H]; [contradiction H; reflexivity|exact H].
Defined.

End MmapRun.
