(* ===== verification/HostIo.v ===== *)
(** * HostIo: memory handles and host files

    Models the requests of [src/qemu/nvkvm_isolate_handlers.c] that QEMU serves
    with its own file calls: [nvkvm_req_write_memory_handle] and
    [nvkvm_req_read_memory_handle] on the memfd of a handle, and
    [nvkvm_req_read_host_file] with the path table [nvkvm_hfile_path] and the scan
    of the host's GPUs [nvkvm_discover_host_gpus].  Buffers are the bytes of the
    shared slot; the answers of the kernel are arguments. *)
From Stdlib Require Import String Ascii.
From stdpp Require Import strings.
From S2P Require Import Prelude Bytes Handles.

Module HostIo.
Import Handles.

(** ** Memory handles

    [files] holds the contents of the memfds by descriptor. *)
Definition file (fs : gmap Z (list Z)) (fd : Z) : list Z := default [] (fs !! fd).

(** [pwrite] that writes the first [n] bytes of [data]: past the end the file
    grows, with zeros in between. *)
Definition pwrite (f : list Z) (off : Z) (data : list Z) (n : Z) : list Z :=
  let d := take (Z.to_nat n) data in
  let f := f ++ replicate (Z.to_nat (off + arr_len d - arr_len f)) 0 in
  wr off d f.
Definition pread (f : list Z) (off n : Z) : list Z := take (Z.to_nat n) (drop (Z.to_nat off) f).

Record mem_req := MemRq { mm_handle : Z; mm_offset : Z; mm_size : Z }.

(** The checks both requests make: the descriptor, or the error. *)
Definition mem_check (t : nvkvm_handle_table) (q : mem_req) (buf : option (list Z)) : Z + Z :=
  match buf with
  | None => inr EINVAL
  | Some _ =>
      if mm_size q =? 0 then inr EINVAL
      else
        match nvkvm_handle_get t (mm_handle q) with
        | None => inr EBADF
        | Some h =>
            if h_fd h <? 0 then inr EBADF
            else if negb (h_type h =? NVKVM_HANDLE_TYPE_MEMORY) then inr EBADF
            else if (h_size h <? mm_offset q) || (h_size h ⊖ mm_offset q <? mm_size q) then inr EINVAL
            else inl (h_fd h)
        end
  end.

(** [n] is what [pwrite] or [pread] returns, [- errno] for an error. *)
Definition rw_status (n size : Z) : Z := if n <? 0 then u32 (- n) else if negb (u32 n =? size) then EIO else 0.

Definition nvkvm_req_write_memory_handle (t : nvkvm_handle_table) (fs : gmap Z (list Z)) (q : mem_req)
    (buf : option (list Z)) (n : Z) : gmap Z (list Z) * Z :=
  match mem_check t q buf with
  | inr e => (fs, e)
  | inl fd =>
      (if n <? 0 then fs else <[fd := pwrite (file fs fd) (mm_offset q) (default [] buf) n]> fs, rw_status n (mm_size q))
  end.

(** The buffer after the call. *)
Definition nvkvm_req_read_memory_handle (t : nvkvm_handle_table) (fs : gmap Z (list Z)) (q : mem_req)
    (buf : option (list Z)) (n : Z) : option (list Z) * Z :=
  match mem_check t q buf with
  | inr e => (buf, e)
  | inl fd =>
      ((if n <? 0 then buf else b ← buf; Some (wr 0 (pread (file fs fd) (mm_offset q) n) b)), rw_status n (mm_size q))
  end.

(** ** Host files *)
#[local] Open Scope string_scope.
#[local] Open Scope list_scope.
#[local] Open Scope Z_scope.

Definition NVKVM_MAX_HOST_GPUS : nat := 16.
Definition NVKVM_BDF_LEN : nat := 12.
Definition NVKVM_HFILE_MAX_SIZE : Z := 8192.
Definition PATH_SIZE : nat := 256.

Definition hex_digit (c : ascii) : bool :=
  let n := nat_of_ascii c in
  ((48 <=? n) && (n <=? 57) || (97 <=? n) && (n <=? 102) || (65 <=? n) && (n <=? 70))%nat.

(** The test of the character at index [i]. *)
Definition bdf_char (i : nat) (c : ascii) : bool :=
  if (i =? 4)%nat || (i =? 7)%nat then Ascii.eqb c ":"%char
  else if (i =? 10)%nat then Ascii.eqb c "."%char
  else hex_digit c.
Fixpoint bdf_from (i : nat) (s : string) : bool :=
  match s with
  | EmptyString => true
  | String c r => bdf_char i c && bdf_from (S i) r
  end.
Definition nvkvm_bdf_valid (s : string) : bool :=
  (String.length s =? NVKVM_BDF_LEN)%nat && bdf_from 0 s.

(** The exchange sort of the list: [pass] is the loop over [j] for one [i]. *)
Fixpoint pass (x : string) (l : list string) : string * list string :=
  match l with
  | [] => (x, [])
  | y :: r =>
      if String.ltb y x then let '(m, r') := pass y r in (m, x :: r')
      else let '(m, r') := pass x r in (m, y :: r')
  end.
Fixpoint exchange (n : nat) (l : list string) : list string :=
  match n, l with
  | S n, x :: r => let '(m, r') := pass x r in m :: exchange n r'
  | _, _ => l
  end.

(** [names] is what [readdir] gives, [None] when [opendir] fails. *)
Definition nvkvm_discover_host_gpus (names : option (list string)) : list string :=
  match names with
  | None => []
  | Some l => let g := take NVKVM_MAX_HOST_GPUS (List.filter nvkvm_bdf_valid l) in exchange (length g) g
  end.

(** [nvkvm_host_gpu_count] and [nvkvm_host_bdf]: [None] before the scan. *)
Abbreviation bdfs := (option (list string)).

Definition fits (p : string) : option string := if (String.length p <? PATH_SIZE)%nat then Some p else None.
Definition gpu_dir : string := "/proc/driver/nvidia/gpus/".
Definition leaf (id : Z) : string :=
  if id =? 4 then "numa_status" else if id =? 5 then "information" else "registry".

Definition nvkvm_hfile_path (names : option (list string)) (g : bdfs) (id gpu_index : Z) : bdfs * option string :=
  if id =? 1 then (g, fits "/proc/driver/nvidia/params")
  else if id =? 7 then (g, fits "/proc/driver/nvidia/version")
  else if id =? 2 then (g, fits "/sys/module/nvidia/initstate")
  else if id =? 3 then (g, fits "/sys/module/nvidia_uvm/initstate")
  else if (id =? 4) || (id =? 5) || (id =? 6) then
    let l := match g with Some l => l | None => nvkvm_discover_host_gpus names end in
    (Some l, match l !! Z.to_nat gpu_index with
             | Some b => fits (gpu_dir +:+ b +:+ "/" +:+ leaf id)
             | None => None
             end)
  else (g, None).

(** The read loop.  Each answer of [read] is an errno or the bytes it gives;
    [None]: the answers run out before the loop ends. *)
Fixpoint read_loop (answers : list (Z + list Z)) (max total : Z) (buf : list Z) : option (list Z * Z * Z) :=
  if max <=? total then Some (buf, 0, total)
  else
    match answers with
    | [] => None
    | inl e :: r => if e =? EINTR then read_loop r max total buf else Some (buf, e, 0)
    | inr d :: r =>
        let d := take (Z.to_nat (max - total)) d in
        if arr_len d =? 0 then Some (buf, 0, total)
        else read_loop r max (total + arr_len d) (wr total d buf)
    end.

Record hfile_req := HfileRq { hf_id : Z; hf_max : Z; hf_gpu : Z }.

(** The new list, the path opened, and the buffer, status and count; [open] is
    the answer of [open]. *)
Definition nvkvm_req_read_host_file (names : option (list string)) (g : bdfs) (q : hfile_req) (open : Z)
    (answers : list (Z + list Z)) (buf : option (list Z)) : bdfs * option string * option (option (list Z) * Z * Z) :=
  match buf with
  | None => (g, None, Some (None, EINVAL, 0))
  | Some b =>
      if (hf_max q =? 0) || (NVKVM_HFILE_MAX_SIZE <? hf_max q) then (g, None, Some (buf, EINVAL, 0))
      else
        match nvkvm_hfile_path names g (hf_id q) (hf_gpu q) with
        | (g', None) => (g', None, Some (buf, EINVAL, 0))
        | (g', Some p) =>
            if open <? 0 then (g', Some p, Some (buf, - open, 0))
            else (g', Some p, '(b', st, n) ← read_loop answers (hf_max q) 0 b; Some (Some b', st, n))
        end
  end.

(** ** Memory handles: proofs *)
Definition mem_ok (t : nvkvm_handle_table) (fs : gmap Z (list Z)) : Prop :=
  forall id h, nvkvm_handle_get t id = Some h -> h_type h = NVKVM_HANDLE_TYPE_MEMORY -> 0 <= h_fd h ->
    arr_len (file fs (h_fd h)) = h_size h.

Definition mem_rq_ok (q : mem_req) : Prop := 0 <= mm_offset q < W64 /\ 0 <= mm_size q < W32.

Lemma mem_check_spec t fs q buf fd :
  mem_ok t fs -> mem_rq_ok q -> (forall id h, nvkvm_handle_get t id = Some h -> h_size h < W64) ->
  mem_check t q buf = inl fd ->
  exists h b, nvkvm_handle_get t (mm_handle q) = Some h /\ h_fd h = fd /\ buf = Some b /\
    h_type h = NVKVM_HANDLE_TYPE_MEMORY /\ 0 < mm_size q /\ mm_offset q + mm_size q <= arr_len (file fs fd).
Proof.
  intros Hm [Ho Hs] Hw. unfold mem_check. destruct buf as [b|]; [|done]. case_if; [done|].
  destruct (nvkvm_handle_get t (mm_handle q)) as [h|] eqn:Eh; [|done]. case_if; [done|].
  destruct (Z.eqb_spec (h_type h) NVKVM_HANDLE_TYPE_MEMORY) as [Ht|]; cbn [negb]; [|done].
  case_if; [done|]. intros [=<-]. zb. specialize (Hw _ _ Eh). rewrite (Hm _ _ Eh Ht) by done.
  exists h, b. rewrite u64_small in * by lia. split_and!; (done || lia).
Qed.

Lemma pwrite_inside f off d n :
  0 <= off -> off + Z.min n (arr_len d) <= arr_len f -> 0 <= n ->
  pwrite f off d n = wr off (take (Z.to_nat n) d) f.
Proof.
  intros H0 H1 Hn. unfold pwrite. assert (arr_len (take (Z.to_nat n) d) = Z.min n (arr_len d)) as Ht
    by (unfold arr_len; rewrite length_take; lia).
  rewrite Ht. replace (Z.to_nat (off + Z.min n (arr_len d) - arr_len f)) with 0%nat by lia.
  simpl. by rewrite app_nil_r.
Qed.

Lemma take_arr_len n (d : list Z) : 0 <= n -> arr_len (take (Z.to_nat n) d) = Z.min n (arr_len d).
Proof. intros H. unfold arr_len. rewrite length_take. lia. Qed.

(** Reading back what was written. *)
Lemma pread_wr off d f : 0 <= off -> off + arr_len d <= arr_len f -> pread (wr off d f) off (arr_len d) = d.
Proof.
  intros H0 H1. unfold pread, wr, arr_len in *. rewrite drop_app_length' by (rewrite length_take; lia).
  by rewrite take_app_length' by lia.
Qed.

Lemma wr_arr_len off d f : 0 <= off -> off + arr_len d <= arr_len f -> arr_len (wr off d f) = arr_len f.
Proof. intros H0 H1. unfold arr_len at 1. by rewrite wr_length. Qed.

(** The kernel writes at most what it is given. *)
Definition n_ok (n size : Z) : Prop := n <= size.

Lemma write_keeps t fs q buf n :
  mem_ok t fs -> mem_rq_ok q -> (forall id h, nvkvm_handle_get t id = Some h -> h_size h < W64) -> n_ok n (mm_size q) ->
  mem_ok t (fst (nvkvm_req_write_memory_handle t fs q buf n)) /\
  (forall fd x, (forall h, nvkvm_handle_get t (mm_handle q) = Some h -> h_fd h = fd ->
       ~ mm_offset q <= Z.of_nat x < mm_offset q + mm_size q) ->
     file (fst (nvkvm_req_write_memory_handle t fs q buf n)) fd !! x = file fs fd !! x).
Proof.
  intros Hm Hq Hw Hn. unfold nvkvm_req_write_memory_handle.
  destruct (mem_check t q buf) as [fd|e] eqn:Ec; [|done]. case_if; [done|]. zb. cbn [fst].
  destruct (mem_check_spec _ _ _ _ _ Hm Hq Hw Ec) as (h & b & Hh & Hfd & -> & Ht & Hs & Hin).
  unfold n_ok in Hn. destruct Hq as [Hq _]. simpl. rewrite pwrite_inside by (unfold arr_len in *; lia).
  set (d := take (Z.to_nat n) b). assert (arr_len d <= mm_size q) as Hd by (unfold d; rewrite take_arr_len; lia).
  assert (arr_len (wr (mm_offset q) d (file fs fd)) = arr_len (file fs fd)) as Hlen by (apply wr_arr_len; lia).
  split.
  - intros id h' Hh' Ht' Hf'. unfold file at 1. destruct (decide (h_fd h' = fd)) as [Heq|Hne].
    + rewrite Heq, lookup_insert_eq. simpl. rewrite Hlen, <- Heq. by apply (Hm id h').
    + rewrite lookup_insert_ne by done. by apply (Hm id h').
  - intros fd' x Hx. unfold file at 1. destruct (decide (fd' = fd)) as [->|Hne].
    + rewrite lookup_insert_eq. simpl. specialize (Hx h Hh Hfd).
      rewrite <- (Nat2Z.id x). apply lookup_wr_out; lia.
    + by rewrite lookup_insert_ne.
Qed.

(** ** Host files: proofs *)
Lemma ltb_le x y : if String.ltb y x then String.le y x else String.le x y.
Proof.
  unfold String.ltb, String.le, String.leb. rewrite (String.compare_antisym x y).
  by destruct (String.compare y x).
Qed.

Lemma pass_spec l : forall x m r,
  pass x l = (m, r) -> Permutation (m :: r) (x :: l) /\ Forall (String.le m) r /\ String.le m x.
Proof.
  induction l as [|y l IH]; intros x m r; simpl; [intros [=<- <-]; split_and!; [done|constructor|reflexivity]|].
  pose proof (ltb_le x y) as Hxy. destruct (String.ltb y x).
  - destruct (pass y l) as [m1 r1] eqn:Ep. intros [=<- <-]. destruct (IH _ _ _ Ep) as (HP & Hf & Hm).
    assert (String.le m1 x) by (etrans; done). split_and!; [|by constructor|done].
    rewrite Permutation_swap, HP. done.
  - destruct (pass x l) as [m1 r1] eqn:Ep. intros [=<- <-]. destruct (IH _ _ _ Ep) as (HP & Hf & Hm).
    assert (String.le m1 y) by (etrans; done). split_and!; [|by constructor|done].
    rewrite Permutation_swap, HP. apply Permutation_swap.
Qed.

Lemma exchange_spec n : forall l, (length l <= n)%nat ->
  Permutation (exchange n l) l /\ StronglySorted String.le (exchange n l).
Proof.
  induction n as [|n IH]; intros [|x r] Hn; simpl in *; try (split; [done|by constructor]); [lia|].
  destruct (pass x r) as [m r'] eqn:Ep. destruct (pass_spec _ _ _ _ Ep) as (HP & Hf & _).
  assert (length r' = length r) as Hl by (apply Permutation_length in HP; simpl in HP; lia).
  destruct (IH r') as [HP1 Hs]; [lia|]. split; [by rewrite HP1, HP|]. constructor; [done|]. by rewrite HP1.
Qed.

(** What the scan keeps. *)
Definition bdfs_ok (g : bdfs) : Prop :=
  forall l, g = Some l -> Forall (fun s => nvkvm_bdf_valid s = true) l /\ (length l <= 16)%nat.

Lemma discover_ok names : bdfs_ok (Some (nvkvm_discover_host_gpus names)).
Proof.
  intros l [=<-]. unfold nvkvm_discover_host_gpus. destruct names as [l|]; [|split; [constructor|simpl; lia]].
  set (g := take _ _). destruct (exchange_spec (length g) g) as [HP _]; [lia|]. rewrite HP. split.
  - apply Forall_take, Forall_forall. intros s Hs. apply list_elem_of_In, filter_In in Hs. tauto.
  - unfold g, NVKVM_MAX_HOST_GPUS. rewrite length_take. lia.
Qed.

(** A valid name is a single path component. *)
Lemma bdf_no_slash s : forall i, bdf_from i s = true -> forall k, String.get k s <> Some "/"%char.
Proof.
  induction s as [|c s IH]; intros i; simpl; [done|]. intros [Hc Hs]%andb_true_iff [|k]; [|by eapply IH].
  intros [=->]. revert Hc. unfold bdf_char. repeat case_if; done.
Qed.

Definition host_path (p : string) : Prop :=
  p ∈ ["/proc/driver/nvidia/params"; "/proc/driver/nvidia/version"; "/sys/module/nvidia/initstate";
       "/sys/module/nvidia_uvm/initstate"] \/
  exists b id, nvkvm_bdf_valid b = true /\ (forall k, String.get k b <> Some "/"%char) /\
    p = gpu_dir +:+ b +:+ "/" +:+ leaf id.

Lemma hfile_path_spec names g id idx g' p :
  bdfs_ok g -> nvkvm_hfile_path names g id idx = (g', p) ->
  bdfs_ok g' /\ forall x, p = Some x -> host_path x /\ (String.length x < PATH_SIZE)%nat.
Proof.
  intros Hg. assert (forall y x, fits y = Some x -> x = y /\ (String.length x < PATH_SIZE)%nat) as Hfit.
  { intros y x. unfold fits. destruct (Nat.ltb_spec (String.length y) PATH_SIZE); [|done]. by intros [=<-]. }
  unfold nvkvm_hfile_path. repeat (case_if; [intros [=<- <-]; split; [done|]; intros x [-> Hx]%Hfit; split; [left; set_solver|done]|]).
  case_if; [|by intros [=<- <-]]. set (l := match g with Some l => l | None => _ end).
  assert (bdfs_ok (Some l)) as Hl by (unfold l; destruct g; [done|apply discover_ok]).
  intros [=<- <-]. split; [done|]. intros x. destruct (l !! Z.to_nat idx) as [b|] eqn:Eb; [|done].
  intros [-> Hx]%Hfit. split; [|done]. right. destruct (Hl l eq_refl) as [Hv _].
  assert (nvkvm_bdf_valid b = true) as Hb by (eapply Forall_lookup_1 in Hv; done).
  exists b, id. split_and!; try done. apply andb_true_iff in Hb as [_ Hb]. by eapply bdf_no_slash.
Qed.

(** The loop writes at most [max] bytes from the start of the buffer. *)
Lemma read_loop_spec answers : forall max total buf b st n,
  0 <= total <= max -> max <= arr_len buf -> read_loop answers max total buf = Some (b, st, n) ->
  arr_len b = arr_len buf /\ 0 <= n <= max /\
  (forall i, max <= i -> b !! Z.to_nat i = buf !! Z.to_nat i).
Proof.
  induction answers as [|[e|d] r IH]; intros max total buf b st n Ht Hm; cbn [read_loop]; case_if; zb.
  1,3,5: intros [=<- <- <-]; split_and!; (done || lia).
  - done.
  - case_if; [by apply IH|]. intros [=<- <- <-]. zb. split_and!; (done || lia).
  - set (d1 := take _ d). assert (arr_len d1 <= max - total) as Hd by (unfold d1; rewrite take_arr_len; lia).
    assert (0 <= arr_len d1) by (unfold arr_len; lia).
    case_if; [intros [=<- <- <-]; split_and!; (done || lia)|]. intros Hr.
    assert (arr_len (wr total d1 buf) = arr_len buf) as Hl by (apply wr_arr_len; lia).
    apply IH in Hr as (H1 & H2 & H3); [|lia|lia]. rewrite Hl in H1. split_and!; [done|lia|lia|].
    intros i Hi. rewrite H3 by done. apply lookup_wr_out; lia.
Qed.

(** Every answer that is not an interruption makes progress, so enough of them
    end the loop. *)
Definition counts (a : Z + list Z) : Prop := match a with inl e => e <> EINTR | inr _ => True end.
#[export] Instance counts_dec a : Decision (counts a).
Proof. destruct a; simpl; apply _. Defined.

Lemma read_loop_returns answers : forall max total buf,
  0 <= total -> max - total <= Z.of_nat (length (filter counts answers)) ->
  is_Some (read_loop answers max total buf).
Proof.
  induction answers as [|a r IH]; intros max total buf Ht Hc; cbn [read_loop]; case_if; zb; try (by eexists).
  - simpl in Hc. lia.
  - destruct a as [e|d].
    + case_if; [|by eexists]. zb. apply IH; [done|]. rewrite filter_cons_False in Hc by (by intros []). done.
    + case_if; [by eexists|]. zb. rewrite filter_cons_True in Hc by done. simpl in Hc.
      assert (0 <= arr_len (take (Z.to_nat (max - total)) d)) by (unfold arr_len; lia). apply IH; lia.
Qed.

Lemma wr_app off d1 d2 b :
  0 <= off -> off + arr_len (d1 ++ d2) <= arr_len b ->
  wr (off + arr_len d1) d2 (wr off d1 b) = wr off (d1 ++ d2) b.
Proof.
  unfold wr, arr_len. rewrite length_app. intros H0 Hl.
  replace (Z.to_nat (off + Z.of_nat (length d1))) with (Z.to_nat off + length d1)%nat by lia.
  assert (length (take (Z.to_nat off) b ++ d1) = (Z.to_nat off + length d1)%nat) as H1
    by (rewrite length_app, length_take; lia).
  rewrite !(app_assoc (take (Z.to_nat off) b)).
  rewrite take_app_length' by done. rewrite drop_app_ge by lia. rewrite H1, drop_drop, <- !app_assoc.
  do 4 f_equal. lia.
Qed.

(** The answers of [read] on a file with contents [f], in pieces of any size. *)
Fixpoint reads (f : list Z) (pieces : list nat) : list (Z + list Z) :=
  match pieces with
  | [] => [inr f; inr []]
  | c :: r => inr (take (S c) f) :: reads (drop (S c) f) r
  end.

Lemma reads_done f pieces max total buf :
  f = [] -> total < max -> read_loop (reads f pieces) max total buf = Some (buf, 0, total).
Proof.
  intros -> Ht. assert (exists r, reads [] pieces = inr [] :: r) as [r ->] by (destruct pieces; eauto).
  cbn [read_loop]. rewrite (proj2 (Z.leb_gt max total)) by done. by rewrite take_nil.
Qed.

Lemma take_split {A} n m (f : list A) :
  take n f = take n (take m f) ++ take (n - length (take n (take m f))) (drop m f).
Proof.
  rewrite take_take, length_take. destruct (decide (n <= m)%nat) as [H|H].
  - rewrite Nat.min_l by done. destruct (decide (n <= length f)%nat).
    + replace (n - Nat.min n (length f))%nat with 0%nat by lia. by rewrite take_0, app_nil_r.
    + rewrite (drop_ge f) by lia. by rewrite take_nil, app_nil_r.
  - rewrite Nat.min_r by lia. destruct (decide (m <= length f)%nat).
    + replace (n - Nat.min m (length f))%nat with (n - m)%nat by lia.
      rewrite take_drop_commute. replace (m + (n - m))%nat with n by lia.
      rewrite <- (take_drop m (take n f)) at 1. by rewrite take_take, Nat.min_l by lia.
    + rewrite (drop_ge f), take_nil, app_nil_r by lia. by rewrite !take_ge by lia.
Qed.

Lemma read_loop_end r max buf : read_loop r max max buf = Some (buf, 0, max).
Proof. by destruct r as [|[]]; cbn [read_loop]; rewrite Z.leb_refl. Qed.

(** One answer with data. *)
Lemma read_loop_step d r max total buf :
  total < max -> d <> [] ->
  read_loop (inr d :: r) max total buf =
  let d1 := take (Z.to_nat (max - total)) d in read_loop r max (total + arr_len d1) (wr total d1 buf).
Proof.
  intros Ht Hd. cbn [read_loop]. rewrite (proj2 (Z.leb_gt max total)) by done.
  rewrite (proj2 (Z.eqb_neq _ 0)); [done|]. rewrite take_arr_len by lia. unfold arr_len.
  destruct d; [done|]. simpl. lia.
Qed.

Lemma read_loop_content pieces : forall f max total buf,
  0 <= total <= max -> max <= arr_len buf ->
  read_loop (reads f pieces) max total buf =
  Some (wr total (take (Z.to_nat (max - total)) f) buf, 0, total + Z.min (max - total) (arr_len f)).
Proof.
  induction pieces as [|c r IH]; intros f max total buf Ht Hm;
    (destruct (decide (total = max)) as [->|Hne];
      [rewrite read_loop_end, Z.sub_diag, take_0, wr_nil; do 2 f_equal; unfold arr_len; lia|]);
    (destruct (decide (f = [])) as [->|Hf];
      [rewrite reads_done, take_nil, wr_nil by (done || lia); do 2 f_equal; unfold arr_len; simpl; lia|]).
  - cbn [reads]. rewrite read_loop_step by (done || lia). cbv zeta. rewrite take_arr_len by lia.
    set (t := total + Z.min (max - total) (arr_len f)). cbn [read_loop]. case_if; [done|]. by rewrite take_nil.
  - cbn [reads]. rewrite read_loop_step by (lia || by destruct f). cbv zeta.
    set (d := take (Z.to_nat (max - total)) (take (S c) f)).
    assert (arr_len d = Z.min (max - total) (arr_len (take (S c) f))) as Hd by (apply take_arr_len; lia).
    pose proof (take_split (Z.to_nat (max - total)) (S c) f) as Hs. fold d in Hs.
    assert (0 <= arr_len d /\ arr_len (take (S c) f) + arr_len (drop (S c) f) = arr_len f) as [Hd0 Hsum]
      by (unfold arr_len; rewrite length_take, length_drop; lia).
    rewrite IH by (rewrite ?wr_arr_len; lia).
    replace (Z.to_nat (max - (total + arr_len d))) with (Z.to_nat (max - total) - length d)%nat by (unfold arr_len; lia).
    rewrite wr_app; rewrite <- ?Hs; [|lia|rewrite take_arr_len by lia; lia]. do 2 f_equal.
    assert (0 <= arr_len (drop (S c) f)) by (unfold arr_len; lia). lia.
Qed.

(** The index of a GPU does not depend on the order of the directory. *)
Lemma discover_stable l1 l2 :
  Permutation l1 l2 -> (length (List.filter nvkvm_bdf_valid l1) <= 16)%nat ->
  nvkvm_discover_host_gpus (Some l1) = nvkvm_discover_host_gpus (Some l2).
Proof.
  intros HP Hl. unfold nvkvm_discover_host_gpus, NVKVM_MAX_HOST_GPUS.
  assert (Permutation (List.filter nvkvm_bdf_valid l1) (List.filter nvkvm_bdf_valid l2)) as HF.
  { clear Hl. induction HP as [|x a b _ IH|x y a|a b c _ IH1 _ IH2]; simpl; [done|by case_if; [constructor|]| |by etrans].
    repeat case_if; done || apply perm_swap. }
  rewrite !take_ge by (rewrite <- ?HF; done).
  destruct (exchange_spec _ (List.filter nvkvm_bdf_valid l1) (le_n _)) as [P1 S1].
  destruct (exchange_spec _ (List.filter nvkvm_bdf_valid l2) (le_n _)) as [P2 S2].
  apply (StronglySorted_unique String.le); [done..|]. by rewrite P1, P2.
Qed.

(** ** Theorems *)

(** A write to a memory handle never changes the size of any memory object
    and nothing outside the range it names; and when it reports success, reading
    the same range gives back the bytes that were written. *)
Theorem memory_handle_roundtrip t fs q b n :
  mem_ok t fs -> mem_rq_ok q -> (forall id h, nvkvm_handle_get t id = Some h -> h_size h < W64) ->
  - 4096 < n <= mm_size q -> mm_size q <= arr_len b ->
  let '(fs', st) := nvkvm_req_write_memory_handle t fs q (Some b) n in
  mem_ok t fs' /\
  (forall fd x, (forall h, nvkvm_handle_get t (mm_handle q) = Some h -> h_fd h = fd ->
       ~ mm_offset q <= Z.of_nat x < mm_offset q + mm_size q) -> file fs' fd !! x = file fs fd !! x) /\
  (st = 0 -> forall b2, mm_size q <= arr_len b2 ->
     nvkvm_req_read_memory_handle t fs' q (Some b2) (mm_size q) = (Some (wr 0 (take (Z.to_nat (mm_size q)) b) b2), 0)).
Proof.
  intros Hm Hq Hw Hn Hb. destruct (write_keeps t fs q (Some b) n Hm Hq Hw (proj2 Hn)) as [H1 H2].
  destruct (nvkvm_req_write_memory_handle t fs q (Some b) n) as [fs' st] eqn:E. split; [exact H1|]. split; [exact H2|].
  intros -> b2 Hb2. revert E. unfold nvkvm_req_write_memory_handle, nvkvm_req_read_memory_handle.
  replace (mem_check t q (Some b2)) with (mem_check t q (Some b)) by done.
  destruct (mem_check t q (Some b)) as [fd|e] eqn:Ec.
  2: { intros [=_ ->]. exfalso. revert Ec. unfold mem_check. repeat case_if; try done.
       destruct (nvkvm_handle_get _ _); [|done]. by repeat case_if. }
  destruct (mem_check_spec _ _ _ _ _ Hm Hq Hw Ec) as (h & _ & _ & _ & _ & _ & Hs & Hin). destruct Hq as [Ho Hz].
  unfold rw_status. case_if; zb; [intros [=_ Hu]; rewrite u32_small in Hu; lia|].
  case_if; zb; [done|]. rewrite u32_small in * by lia. subst n. intros [=<-]. simpl.
  rewrite (proj2 (Z.ltb_ge (mm_size q) 0)) by lia. rewrite u32_small, Z.eqb_refl by lia. simpl. do 3 f_equal.
  unfold file at 1. rewrite lookup_insert_eq. simpl. rewrite pwrite_inside by lia.
  set (d := take _ b). assert (arr_len d = mm_size q) as Hd by (unfold d; rewrite take_arr_len; lia).
  rewrite <- Hd at 1. apply pread_wr; lia.
Qed.

(** A memory handle created with size 0 refuses every read and write: it does
    not grow on demand. *)
Lemma empty_handle_refuses t q buf h :
  nvkvm_handle_get t (mm_handle q) = Some h -> h_size h = 0 -> 0 <= mm_offset q -> 0 <= mm_size q ->
  exists e, mem_check t q buf = inr e.
Proof.
  intros Hh Hz Ho Hs. unfold mem_check. destruct buf; [|by eexists]. case_if; [by eexists|]. rewrite Hh. repeat (case_if; [by eexists|]).
  exfalso. rewrite Hz in *. zb. rewrite u64_small in * by lia. lia.
Qed.

(** Whatever a request to read a host file names, the path opened is one of
    four fixed files or a named file in the directory of one of at most sixteen
    GPUs the host itself listed, the bytes written stay within the length the
    request gives, which is at most 8192, and on a file of any contents read in
    pieces of any size the answer is the beginning of that file. *)
Theorem host_file_confined names g q open answers b :
  bdfs_ok g -> 0 <= hf_max q <= arr_len b ->
  let '(g', p, r) := nvkvm_req_read_host_file names g q open answers (Some b) in
  bdfs_ok g' /\ (forall x, p = Some x -> host_path x) /\
  (forall b' st n, r = Some (Some b', st, n) ->
     arr_len b' = arr_len b /\ 0 <= n <= hf_max q /\ forall i, hf_max q <= i -> b' !! Z.to_nat i = b !! Z.to_nat i) /\
  (forall f pieces, p <> None -> 0 <= open -> answers = reads f pieces ->
     r = Some (Some (wr 0 (take (Z.to_nat (hf_max q)) f) b), 0, Z.min (hf_max q) (arr_len f)) /\ hf_max q <= 8192).
Proof.
  intros Hg Hm. unfold nvkvm_req_read_host_file. case_if.
  { split; [done|]. split; [done|]. split; [|done]. intros b' st n [=<- <- <-]. split_and!; (done || lia). }
  destruct (nvkvm_hfile_path _ _ _ _) as [g' p] eqn:Ep. destruct (hfile_path_spec _ _ _ _ _ _ Hg Ep) as [Hg' Hp]. zb.
  destruct p as [p|].
  2: { split; [done|]. split; [done|]. split; [|done]. intros b' st n [=<- <- <-]. split_and!; (done || lia). }
  assert (host_path p) as Hpp by (by apply Hp). case_if; zb.
  { split; [done|]. split; [by intros x [=<-]|]. split; [|intros; lia]. intros b' st n [=<- <- <-]. split_and!; (done || lia). }
  split; [done|]. split; [by intros x [=<-]|]. split.
  - intros b' st n. destruct (read_loop _ _ _ _) as [[[b1 st1] n1]|] eqn:Er; [|done]. intros [=<- <- <-].
    destruct (read_loop_spec _ _ _ _ _ _ _ (conj (Z.le_refl 0) (proj1 Hm)) (proj2 Hm) Er) as (?&?&?). done.
  - intros f pieces _ _ ->. rewrite read_loop_content by lia. simpl. rewrite !Z.sub_0_r. split; [done|].
    unfold NVKVM_HFILE_MAX_SIZE in *. lia.
Qed.

(** ** Witnesses: handle 3 is an object of 8 bytes on descriptor 11; the host
    lists two GPUs among other names *)
Definition demo_mt : nvkvm_handle_table := set_slot nvkvm_handle_table_init 3 (Handle 3 1 2 11 9 0 1 8 false true).
Definition demo_fs : gmap Z (list Z) := {[11 := [1; 2; 3; 4; 5; 6; 7; 8]]}.
Definition demo_mq : mem_req := MemRq 3 2 4.

Lemma demo_get id h : nvkvm_handle_get demo_mt id = Some h -> h = Handle 3 1 2 11 9 0 1 8 false true.
Proof.
  unfold nvkvm_handle_get. case_if; [done|]. case_if; [|done]. intros [=<-]. revert E0. unfold live.
  intros [Hu _]%andb_true_iff. revert Hu. unfold slot, demo_mt, set_slot. cbn [handles nvkvm_handle_table_init].
  destruct (decide (id mod NVKVM_HANDLE_MAX = 3 mod NVKVM_HANDLE_MAX)) as [->|Hne].
  - by rewrite lookup_insert_eq.
  - by rewrite lookup_insert_ne.
Qed.

Lemma memory_handle_roundtrip_witness :
  let '(fs', st) := nvkvm_req_write_memory_handle demo_mt demo_fs demo_mq (Some [9; 9; 8; 8; 7]) 4 in
  st = 0 /\ file fs' 11 = [1; 2; 9; 9; 8; 8; 7; 8] /\
  nvkvm_req_read_memory_handle demo_mt fs' demo_mq (Some [0; 0; 0; 0]) 4 = (Some [9; 9; 8; 8], 0).
Proof.
  pose proof (memory_handle_roundtrip demo_mt demo_fs demo_mq [9; 9; 8; 8; 7] 4) as H.
  assert (nvkvm_req_write_memory_handle demo_mt demo_fs demo_mq (Some [9; 9; 8; 8; 7]) 4 =
    (<[11 := [1; 2; 9; 9; 8; 8; 7; 8]]> demo_fs, 0)) as E by (vm_compute; reflexivity).
  rewrite E in *. split; [reflexivity|]. split; [reflexivity|]. apply H.
  - intros id h Hh _ _. rewrite (demo_get _ _ Hh). reflexivity.
  - unfold mem_rq_ok. simpl. lia.
  - intros id h Hh. rewrite (demo_get _ _ Hh). simpl. lia.
  - simpl. lia.
  - simpl. unfold arr_len. simpl. lia.
  - reflexivity.
  - unfold arr_len. simpl. lia.
Defined.

Definition demo_names : option (list string) := Some ["."; ".."; "0000:41:00.0"; "0000:01:00.0"; "etc/passwd.."].

Lemma host_file_confined_witness :
  let '(g', p, r) := nvkvm_req_read_host_file demo_names None (HfileRq 5 4 1) 3 (reads [1; 2; 3] [O])
    (Some [0; 0; 0; 0]) in
  p = Some "/proc/driver/nvidia/gpus/0000:41:00.0/information" /\ r = Some (Some [1; 2; 3; 0], 0, 3) /\ bdfs_ok g'.
Proof.
  pose proof (host_file_confined demo_names None (HfileRq 5 4 1) 3 (reads [1; 2; 3] [O]) [0; 0; 0; 0]) as H.
  assert (snd (fst (nvkvm_req_read_host_file demo_names None (HfileRq 5 4 1) 3 (reads [1; 2; 3] [O]) (Some [0; 0; 0; 0]))) =
    Some "/proc/driver/nvidia/gpus/0000:41:00.0/information") as E by (vm_compute; reflexivity).
  assert (snd (nvkvm_req_read_host_file demo_names None (HfileRq 5 4 1) 3 (reads [1; 2; 3] [O]) (Some [0; 0; 0; 0])) =
    Some (Some [1; 2; 3; 0], 0, 3)) as E2 by (vm_compute; reflexivity).
  destruct (nvkvm_req_read_host_file _ _ _ _ _ _) as [[g' p] r]. cbn [fst snd] in E, E2.
  split; [exact E|]. split; [exact E2|]. apply H; [by intros l [=]|]. simpl. unfold arr_len. simpl. lia.
Defined.

End HostIo.
